(* ===== verification/_CoqProject ===== *)
-Q . S2P
Prelude.v
Bytes.v
StateMonad.v
BlockDev.v
Fat.v
FatFacts.v
Config.v
RamFs.v
PhysMem.v
CString.v
Errno.v
Stdio.v
Pmm.v
Vmm.v
Dma.v
Display.v
DisplayFacts.v
FontLoader.v
AddressSpace.v
DmaFacts.v
Ext2Cache.v
Heap.v
UnixSocket.v
Keyboard.v
Console.v
ConsoleFacts.v
Sha256.v
User.v
Ext2.v
Ext2Inv.v
Ext2Alloc.v
Ext2File.v
Mkfs.v
Ext2Format.v
Ext2Write.v
Ext2Dir.v
Ext2Perm.v
Vfs.v
Devices.v
VfsTable.v
VfsFiles.v
ProcMem.v
Proc.v
Scheduler.v
ProcTree.v
Credentials.v
Elf.v
Syscalls.v
Loader.v
SyscallFacts.v
XhciRings.v
Ata.v
AtaFacts.v
Acpi.v
Interrupts.v
Pci.v
PciFacts.v
Xhci.v
XhciFacts.v
Ports.v
Pic.v
CpuTables.v
Timer.v
Modules.v
PageFault.v
Floppy.v
Libc.v
LibcFacts.v
LibcHeap.v
