(* ===== verification/Prelude.v ===== *)
(** * Blackmount: a verification library for the kernel

    Blackmount is a kernel for x86-64 PCs, booted by Limine, with a few
    programs that run on it (src/apps).  This library models the kernel
    (src/src/kernel; file names below are relative to it) and proves what its
    parts promise.  Everything is a function or a computation that evaluates:
    the witnesses of the theorems run the kernel's code on concrete states.

    ** How the system is put together

    Memory: pmm.c hands out pages of physical memory, vmm.c maps them with
    page tables that live in such pages, heap.c serves [kmalloc] from a range
    it asks vmm.c to map, dma.c keeps contiguous buffers for devices.

    Storage: block.c registers block devices (ram disks, images of a boot
    module, partitions found in a GPT or MBR); the ext2 driver works on a
    block device through a cache of blocks; fat.c is a second, simpler file
    system, ramdisk.c a file system in the heap.  vfs.c holds the mounts, the
    table of open files of all processes and the registry of devices, and
    routes each call to ext2, to a device or to a UNIX-domain socket.

    Processes: proc.c has the table of 64 processes, the round-robin
    scheduler, fork, exec, exit and wait, user ids and the program break.
    bin_loader.c reads an ELF file through the VFS and starts it.  user.c has
    the accounts and permissions that vfs.c, ext2.c and proc.c ask.  sys.c and
    scman.c are the system calls over all of these.

    Terminal: keyboards (PS/2, USB) give key codes, driverman.c hands them to
    console.c, which edits the line, wakes the processes that wait for it, and
    draws through textrenderer.c and framebuffer.c with a font of
    fontloader.c.  The devices /dev/tty, /dev/stdin, /dev/stdout and /dev/fb
    are the way from the VFS to the console.

    Hardware: acpi.c finds the firmware's tables, ioapic.c and irq.c route
    interrupts to vectors by them, gdt.c, idt.c and isr.c are the tables the
    processor enters the kernel through; pci.c finds the devices of the buses;
    ata.c drives disks, which block_ata.c makes block devices; xhci.c drives
    USB controllers through rings in memory shared with them and hands the
    keyboard's reports to hid_keyboard.c.

    ** The files, and the code they model

    Shared:
    - [Prelude] machine integers, lists, tactics and hints; [Bytes] buffers
      and little-endian fields; [StateMonad] computations that change a state
      and may not return, with a rule ([wp]) for each construct.

    Memory:
    - [PhysMem] the RAM; [CString] string.c and memory.c; [Pmm] mem/pmm.c;
      [Vmm] mem/vmm.c; [AddressSpace] what page tables mean, creation and
      destruction of address spaces; [Heap] heap.c; [Dma], [DmaFacts]
      mem/dma.c.

    Storage:
    - [BlockDev] block/*.c and the interface of a block device; [Ext2Cache]
      the cache of drivers/fs/ext/ext2.c; [Ext2] the driver; [Ext2Inv] its
      invariant; [Ext2Alloc], [Ext2File], [Ext2Write], [Ext2Dir], [Ext2Perm]
      what it does; [Mkfs], [Ext2Format] mkfs/ext2_format.c; [Fat], [FatFacts]
      drivers/fs/fat/fat.c; [RamFs] drivers/fs/ramdisk.c; [Config]
      config/config.c.

    Processes and calls:
    - [Errno]; [Sha256], [User] user/*.c; [UnixSocket] net/unix_socket.c;
      [Vfs] hal/vfs.c and device/device.c, [VfsTable], [VfsFiles] about them;
      [ProcMem], [Proc] proc/proc.c, [Scheduler], [ProcTree], [Credentials]
      about it; [Elf], [Loader] loaders/bin_loader.c; [Syscalls] syscalls/*.c
      and the dispatch of arch/x86_64/syscalls.c, [SyscallFacts] about them.

    Terminal:
    - [Stdio] stdio.c and debug.c; [Display] fb/framebuffer.c and
      fb/textrenderer.c, [DisplayFacts]; [FontLoader] fb/font/fontloader.c;
      [Keyboard] the two keyboards; [Console] console/console.c and
      drivers/driverman.c, [ConsoleFacts]; [Devices] device/*/*.c.

    Hardware:
    - [Ports] arch/x86_64/io.c; [Pic] arch/x86_64/i8259.c; [CpuTables]
      arch/x86_64/gdt.c, idt.c, isrs_gen.c, isr.c and the set-up of SYSCALL;
      [PageFault] arch/x86_64/pagefault.c, isr_handlers.c; [Timer]
      timer/timer.c, drivers/apic/lapic.c; [Modules] module/module.c;
      [Floppy] drivers/disk/floppy.c and block/block_floppy.c;
      [Acpi] drivers/acpi/acpi.c; [Interrupts] drivers/apic/ioapic.c,
      arch/x86_64/irq.c, isr.c; [Pci], [PciFacts] drivers/pci/pci.c; [Ata],
      [AtaFacts] drivers/disk/ata.c and block/block_ata.c; [XhciRings]
      drivers/usb/xhci/xhci_rings.c; [Xhci], [XhciFacts] xhci.c, xhci_regs.c
      and xhci_mem.c there.

    Programs (file names relative to src/apps/libc/src):
    - [Libc], [LibcFacts] string.c, stdio.c, pathutil.c; [LibcHeap] stdlib.c
      over the kernel's [proc_brk].

    A driver is written over an interface of its device ([Ports], [AtaPorts],
    [Mmio], the accesses of Pci.v and Xhci.v); its theorems run it against a
    device that behaves as the specification of the hardware says (a disk, a
    configuration space, I/O APICs, 8259s, the controller's side of a ring).

    A component's state is a record with the static variables of its file; an
    operation has the name of the C function and changes the state as that
    function does, in the order in which it does.  Where one component calls
    another through a narrow contract the contract is a class: [PageBacking]
    (pages of the heap), [BlockDevice] with [BlockDeviceLaws] and [Reliable],
    [Ext2Ops] (the files of the user database), [ProcOps] and [VfsProcs] and
    [ConsoleProcs] (processes as sockets, VFS and console use them), [Break]
    (the program break, as the heap of the programs uses it), [Reader]
    (the file the ELF loader reads).  The implementations are instances; for
    the laws of [Reader] Loader.v proves that the VFS satisfies them, for
    those of [BlockDevice] BlockDev.v does for the devices in memory.

    ** What the theorems show

    - Page tables refine a map from virtual to physical addresses; a range is
      mapped whole or not at all; destroying an address space frees exactly
      its tables.  The allocators return the first run or block that fits and
      the structures stay well-formed.
    - The block cache refines the blocks of the device; what is written to an
      ext2 file is an update of its bytes and is read back, down to the device
      and up to a descriptor of the VFS; directories are lists of entries; a
      freshly formatted device satisfies the invariant all this starts from.
    - Every call keeps the table of open files well-formed, and a process
      cannot use a descriptor of another.
    - The process table keeps its invariant over every sequence of operations;
      the scheduler is fair; killing removes exactly the subtree; exit wakes
      the waiting parent; ids never rise to those of others; actions on
      others need permission.
    - The ELF image is the one the segments describe; sockets deliver bytes in
      order; accounts and passwords survive being saved and loaded; SHA-256
      equals the padding specification.
    - The pixels show the text; what is typed reaches the readers; the
      escape sequences and the descriptors a USB device sends cannot make the
      code leave its buffers.

    - A disk behind the ATA driver is a store of sectors whatever its latency;
      the probing of PCI finds the base address registers and leaves the
      configuration as it was; the USB rings are queues over any number of
      turns, and events reach their endpoints; an interrupt line reaches the
      handler registered for it; only tables of the firmware with right
      checksums are used; the processor finds in every gate the entry point of
      its vector; a sleep ends and lasts; exactly the modules the
      configuration names are started; a process that faults is never resumed
      with a page of the kernel's space ([demand_page_is_not_seen]).
    - The heap of the programs gives blocks that no other holds and takes back
      exactly those; bounded output is the beginning of the whole; normalised
      paths are canonical.

    Lemmas next to these, and [findings] in the manifest, record where the
    code does something else than it means to: for instance
    [open_for_writing_is_kernels], [exit_destroys_twice],
    [wrapping_segment_overruns], [dma_alloc_never_returns].

    ** Choices of the model

    A C integer is a [Z] within its width and every operation that can wrap
    is followed by the wrap.  Undefined behaviour (an access outside an
    object, a freed handle, a division by zero) has no result ([None]).  A
    lock or a disabled interrupt makes a function one step; a function that
    yields in the middle is cut there ([Wait]), and other processes may do
    anything in between.

    Loops whose number of rounds the code does not bound have fuel and no
    result without enough of it.  Where the fuel is a definition of the model
    ([heap_fuel], the fuel of the directory loops of Ext2.v, of [kill] in
    Proc.v) the theorems prove that it is enough: they are total-correctness
    statements ([wp], or [= Some _]).  Where it is a parameter ([Dma], [Fat],
    [FontLoader], [CString], the polls of [Ata], the entries of the MADT in
    [Interrupts], the buses behind bridges in [Pci], the extended
    capabilities in [Xhci], the polls of [Timer]) the theorems name the fuel that is enough; with
    [dma_alloc] a lemma shows that no fuel is.  What the xHCI driver calls
    outside of its files (memory for devices, physical addresses, the time it
    sleeps and what the controller does meanwhile) is a parameter.

    ** What is not modelled

    The processor between two functions: the TLB, caches, the order in which
    other processors see memory.  Memory is sequentially consistent and a page
    fault of the kernel itself does not occur (but the one in PageFault.v): a
    write to a page that is not mapped is dropped.  The assembly of the
    entries and of the context switch.  The boot sequence (entry/, limine/), which calls the
    initialisers in order, and the choice of the boot disk in VFS_Init.  The
    programs under src/apps but for the parts of their C library named above. *)

From stdpp Require Export base numbers list list_numbers gmap option.
From Stdlib Require Export ZArith Lia.

#[export] Set Default Goal Selector "!".
#[global] Open Scope Z_scope.

(** ** Machine-width integers

    A C integer of width [w] is a [Z] in [0, 2^w); every operation of the
    code that can wrap is followed by the wrap of its width. *)

Definition wrap (w x : Z) : Z := x mod 2 ^ w.
Definition u8 (x : Z) : Z := x mod 2 ^ 8.
Definition u16 (x : Z) : Z := x mod 2 ^ 16.
Definition u32 (x : Z) : Z := x mod 2 ^ 32.
Definition u64 (x : Z) : Z := x mod 2 ^ 64.

(** Conversion of an unsigned 32-bit pattern to [int] (two's complement). *)
Definition int_of_u32 (x : Z) : Z := if x <? 2 ^ 31 then x else x - 2 ^ 32.
(** Conversion of any mathematical integer to [int]. *)
Definition int32 (x : Z) : Z := int_of_u32 (u32 x).
(** Conversion of any mathematical integer to [int64_t]. *)
Definition int64 (x : Z) : Z := if u64 x <? 2 ^ 63 then u64 x else u64 x - 2 ^ 64.

Create HintDb kernel.
Create Rewrite HintDb kernel_rw.

Lemma u8_range x : 0 <= u8 x < 256.
Proof. unfold u8. apply Z.mod_pos_bound. lia. Qed.
Lemma u32_range x : 0 <= u32 x < 2 ^ 32.
Proof. unfold u32. apply Z.mod_pos_bound. lia. Qed.
Lemma u64_range x : 0 <= u64 x < 2 ^ 64.
Proof. unfold u64. apply Z.mod_pos_bound. lia. Qed.
Lemma u8_small x : 0 <= x < 256 -> u8 x = x.
Proof. unfold u8. intros. apply Z.mod_small. lia. Qed.
Lemma u32_small x : 0 <= x < 2 ^ 32 -> u32 x = x.
Proof. unfold u32. intros. apply Z.mod_small. lia. Qed.
Lemma u64_small x : 0 <= x < 2 ^ 64 -> u64 x = x.
Proof. unfold u64. intros. apply Z.mod_small. lia. Qed.
Lemma u64_idemp x : u64 (u64 x) = u64 x.
Proof. apply u64_small, u64_range. Qed.
Lemma u64_add_sub x k : u64 (u64 (x + k) - k) = u64 x.
Proof.
  unfold u64. rewrite Zminus_mod_idemp_l. f_equal. lia.
Qed.
Lemma int_of_u32_small x : 0 <= x < 2 ^ 31 -> int_of_u32 x = x.
Proof. unfold int_of_u32. intros. destruct (Z.ltb_spec x (2 ^ 31)); lia. Qed.
Lemma int32_small x : - 2 ^ 31 <= x < 2 ^ 31 -> int32 x = x.
Proof.
  unfold int32, int_of_u32, u32. intros.
  destruct (decide (0 <= x)).
  - rewrite Z.mod_small by lia. destruct (Z.ltb_spec x (2 ^ 31)); lia.
  - replace (x mod 2 ^ 32) with (x + 2 ^ 32).
    + destruct (Z.ltb_spec (x + 2 ^ 32) (2 ^ 31)); lia.
    + rewrite <- (Z.mod_small (x + 2 ^ 32) (2 ^ 32)) by lia.
      rewrite <- (Z.mod_add x 1 (2 ^ 32)) by lia. f_equal.
Qed.

#[export] Hint Resolve u8_range u32_range u64_range : kernel.
#[export] Hint Rewrite u64_idemp u64_add_sub : kernel_rw.

(** ** Bits *)

(** Bitwise extensionality: reduce an equation between integers to its bits
    and simplify every [Z.testbit] of a logical operation. *)
Ltac bits_simpl :=
  repeat first
    [ rewrite Z.land_spec | rewrite Z.lor_spec | rewrite Z.lxor_spec
    | rewrite Z.ldiff_spec ].

Lemma testbit_high w x i : 0 <= w -> 0 <= x < 2 ^ w -> w <= i -> Z.testbit x i = false.
Proof.
  intros Hw Hx Hi. rewrite <- (Z.mod_small x (2 ^ w)) by lia.
  apply Z.mod_pow2_bits_high. lia.
Qed.

Lemma land_pow2_ne0 x i : 0 <= i -> negb (Z.land x (2 ^ i) =? 0) = Z.testbit x i.
Proof.
  intros Hi. destruct (Z.testbit x i) eqn:E.
  - apply negb_true_iff, Z.eqb_neq. intros H.
    assert (Z.testbit (Z.land x (2 ^ i)) i = false) as H'
      by (rewrite H; apply Z.bits_0).
    rewrite Z.land_spec, E, Z.pow2_bits_true in H' by lia. done.
  - apply negb_false_iff, Z.eqb_eq, Z.bits_inj'. intros j Hj.
    rewrite Z.bits_0, Z.land_spec. destruct (decide (i = j)) as [<-|Hne].
    + by rewrite E.
    + rewrite Z.pow2_bits_false by done. apply andb_false_r.
Qed.

Lemma land_lnot_ones x n :
  0 <= n -> Z.land x (Z.lnot (Z.ones n)) = x - x mod 2 ^ n.
Proof.
  intros Hn. rewrite <- Z.ldiff_land, Z.ldiff_ones_r by lia.
  rewrite Z.shiftl_mul_pow2, Z.shiftr_div_pow2 by lia.
  pose proof (Z.div_mod x (2 ^ n)). lia.
Qed.

Lemma lor_disjoint_add a b : Z.land a b = 0 -> Z.lor a b = a + b.
Proof. intros H. pose proof (Z.add_lor_land a b). lia. Qed.

Lemma lor_range w a b :
  0 <= w -> 0 <= a < 2 ^ w -> 0 <= b < 2 ^ w -> 0 <= Z.lor a b < 2 ^ w.
Proof.
  intros Hw Ha Hb. split; [apply Z.lor_nonneg; lia|].
  destruct (decide (Z.lor a b = 0)) as [->|Hne]; [lia|].
  assert (0 < Z.lor a b) by (pose proof (proj2 (Z.lor_nonneg a b)); lia).
  apply Z.log2_lt_pow2; [lia|]. rewrite Z.log2_lor by lia.
  destruct (decide (w = 0)) as [->|].
  - change (2 ^ 0) with 1 in *. replace a with 0 in * by lia. replace b with 0 in * by lia.
    done.
  - apply Z.max_lub_lt.
    + destruct (decide (a = 0)) as [->|]; [simpl; lia|]. apply Z.log2_lt_pow2; lia.
    + destruct (decide (b = 0)) as [->|]; [simpl; lia|]. apply Z.log2_lt_pow2; lia.
Qed.

Lemma land_range_r a b : 0 <= b -> 0 <= Z.land a b <= b.
Proof.
  intros Hb. split; [apply Z.land_nonneg; lia|].
  rewrite Z.land_comm. pose proof (Z.ldiff_le b (Z.lnot a)).
  pose proof (Z.ldiff_land b (Z.lnot a)) as E. rewrite Z.lnot_involutive in E.
  pose proof (Z.sub_nocarry_ldiff b (Z.land b a)).
  pose proof (Z.add_lor_land (Z.land b a) (Z.ldiff b a)) as S.
  rewrite (Z.lor_comm (Z.land b a)), Z.lor_ldiff_and in S.
  replace (Z.land (Z.land b a) (Z.ldiff b a)) with 0 in S.
  - assert (0 <= Z.ldiff b a) by (apply Z.ldiff_nonneg; lia). lia.
  - symmetry. apply Z.bits_inj'. intros n Hn. rewrite Z.bits_0. bits_simpl.
    by destruct (Z.testbit b n), (Z.testbit a n).
Qed.

Lemma land_ones_mod x n : 0 <= n -> Z.land x (2 ^ n - 1) = x mod 2 ^ n.
Proof. intros. rewrite <- Z.land_ones by lia. f_equal. rewrite Z.ones_equiv. lia. Qed.

(** A bit of an array of bytes. *)
Lemma testbit_u8 x k : 0 <= k < 8 -> Z.testbit (u8 x) k = Z.testbit x k.
Proof. intros. unfold u8. apply Z.mod_pow2_bits_low. lia. Qed.

Lemma byte_index_split i j : i / 8 = j / 8 -> i mod 8 = j mod 8 -> i = j.
Proof. pose proof (Z.div_mod i 8). pose proof (Z.div_mod j 8). lia. Qed.

(** ** Loops

    [find_first p i n] is the index the C loop
    [for (; i < i + n; i++) if (p(i)) ...] stops at: the first of the [n]
    indices from [i] for which [p] holds. *)
Fixpoint find_first (p : Z -> bool) (i : Z) (n : nat) : option Z :=
  match n with
  | O => None
  | S n' => if p i then Some i else find_first p (i + 1) n'
  end.

(** [for_range f i n s] runs [s := f j s] for the [n] indices [j] from [i]. *)
Fixpoint for_range {S : Type} (f : Z -> S -> S) (i : Z) (n : nat) (s : S) : S :=
  match n with
  | O => s
  | Datatypes.S n' => for_range f (i + 1) n' (f i s)
  end.

Lemma find_first_Some p n : forall i j,
  find_first p i n = Some j ->
  i <= j < i + Z.of_nat n /\ p j = true /\ forall k, i <= k < j -> p k = false.
Proof.
  induction n as [|n IH]; simpl; intros i j H; [done|].
  destruct (p i) eqn:E.
  - injection H as ->. split_and!; [lia|lia|done|]. intros. lia.
  - apply IH in H as (Hr & Hp & Hk). split_and!; [lia|lia|done|].
    intros k Hk'. destruct (decide (k = i)) as [->|]; [done|]. apply Hk. lia.
Qed.

Lemma find_first_None p n : forall i,
  find_first p i n = None <-> forall k, i <= k < i + Z.of_nat n -> p k = false.
Proof.
  induction n as [|n IH]; simpl; intros i.
  - split; [intros _ k Hk; lia|done].
  - destruct (p i) eqn:E.
    + split; [done|]. intros H. rewrite (H i) in E by lia. done.
    + rewrite IH. split; intros H k Hk.
      * destruct (decide (k = i)) as [->|]; [done|]. apply H. lia.
      * apply H. lia.
Qed.

Lemma find_first_exact p n i j :
  i <= j < i + Z.of_nat n -> p j = true ->
  (forall k, i <= k < j -> p k = false) -> find_first p i n = Some j.
Proof.
  intros Hj Hp Hk. destruct (find_first p i n) as [j'|] eqn:E.
  - apply find_first_Some in E as (Hj' & Hp' & Hk').
    destruct (Z.lt_trichotomy j j') as [|[->|]]; [|done|].
    + rewrite Hk' in Hp by lia. done.
    + rewrite Hk in Hp' by lia. done.
  - rewrite find_first_None in E. rewrite E in Hp by lia. done.
Qed.

Lemma find_first_is_Some p n i j :
  i <= j < i + Z.of_nat n -> p j = true -> is_Some (find_first p i n).
Proof.
  intros Hj Hp. destruct (find_first p i n) eqn:E; [eauto|].
  rewrite find_first_None in E. rewrite E in Hp by lia. done.
Qed.

Lemma for_range_ind {S : Type} (P : Z -> S -> Prop) (f : Z -> S -> S) n : forall i s,
  P i s ->
  (forall j s', i <= j < i + Z.of_nat n -> P j s' -> P (j + 1) (f j s')) ->
  P (i + Z.of_nat n) (for_range f i n s).
Proof.
  induction n as [|n IH]; simpl; intros i s H0 Hs.
  - by rewrite Z.add_0_r.
  - replace (i + Z.of_nat (Datatypes.S n)) with (i + 1 + Z.of_nat n) by lia.
    apply IH.
    + apply Hs; [lia|done].
    + intros j s' Hj. apply Hs. lia.
Qed.

Lemma for_range_inv {S : Type} (P : S -> Prop) (f : Z -> S -> S) n i s :
  P s -> (forall j s', i <= j < i + Z.of_nat n -> P s' -> P (f j s')) ->
  P (for_range f i n s).
Proof. intros H0 Hs. apply (for_range_ind (fun _ => P)); auto. Qed.

Lemma for_range_S_r {S : Type} (f : Z -> S -> S) n : forall i s,
  for_range f i (Datatypes.S n) s = f (i + Z.of_nat n) (for_range f i n s).
Proof.
  induction n as [|n IH]; intros i s.
  - simpl. by rewrite Z.add_0_r.
  - change (for_range f i (Datatypes.S (Datatypes.S n)) s)
      with (for_range f (i + 1) (Datatypes.S n) (f i s)).
    rewrite IH. simpl. f_equal. lia.
Qed.

(** ** Counting and runs

    [count_below p n] is the number of the indices below [n] satisfying [p]. *)
Fixpoint count_below (p : Z -> bool) (n : nat) : Z :=
  match n with
  | O => 0
  | S n' => count_below p n' + (if p (Z.of_nat n') then 1 else 0)
  end.

Lemma count_below_ext p q n :
  (forall i, 0 <= i < Z.of_nat n -> p i = q i) -> count_below p n = count_below q n.
Proof.
  induction n as [|n IH]; simpl; intros H; [done|].
  rewrite IH by (intros; apply H; lia). rewrite H by lia. done.
Qed.

Lemma count_below_range p n : 0 <= count_below p n <= Z.of_nat n.
Proof. induction n as [|n IH]; simpl; [lia|]. destruct (p (Z.of_nat n)); lia. Qed.

(** Changing [p] at one index below [n] changes the count by the difference. *)
Lemma count_below_upd p q n i :
  0 <= i < Z.of_nat n -> (forall j, j <> i -> p j = q j) ->
  count_below q n = count_below p n - (if p i then 1 else 0) + (if q i then 1 else 0).
Proof.
  induction n as [|n IH]; intros Hi H; [lia|]. simpl.
  destruct (decide (i = Z.of_nat n)) as [->|Hne].
  - rewrite (count_below_ext q p) by (intros; symmetry; apply H; lia).
    destruct (p (Z.of_nat n)), (q (Z.of_nat n)); lia.
  - rewrite IH by (done || lia). rewrite (H (Z.of_nat n)) by lia. lia.
Qed.

Lemma count_below_full p n :
  (forall i, 0 <= i < Z.of_nat n -> p i = true) -> count_below p n = Z.of_nat n.
Proof.
  induction n as [|n IH]; simpl; intros H; [done|].
  rewrite IH by (intros; apply H; lia). rewrite H by lia. lia.
Qed.

Lemma count_below_lt p n i :
  0 <= i < Z.of_nat n -> p i = false -> count_below p n < Z.of_nat n.
Proof.
  induction n as [|n IH]; intros Hi Hp; [lia|]. simpl.
  pose proof (count_below_range p n).
  destruct (decide (i = Z.of_nat n)) as [->|Hne]; [rewrite Hp; lia|].
  assert (count_below p n < Z.of_nat n) by (apply IH; [lia|done]).
  destruct (p (Z.of_nat n)); lia.
Qed.

Lemma count_below_pos p n i :
  0 <= i < Z.of_nat n -> p i = true -> 0 < count_below p n.
Proof.
  induction n as [|n IH]; intros Hi Hp; [lia|]. simpl.
  pose proof (count_below_range p n).
  destruct (decide (i = Z.of_nat n)) as [->|Hne]; [rewrite Hp; lia|].
  assert (0 < count_below p n) by (apply IH; [lia|done]).
  destruct (p (Z.of_nat n)); lia.
Qed.

(** The scan both allocators of contiguous ranges perform (pmm_alloc_pages of
    src/kernel/mem/pmm.c, virt_range_alloc of src/kernel/mem/dma.c): walk up
    from index [i], counting in [found] the free entries seen in a row and
    remembering in [start] where the row began; stop when the row is [count]
    long. *)
Fixpoint scan_run (free : Z -> bool) (count i : Z) (n : nat) (found start : Z) : option Z :=
  match n with
  | O => None
  | S n' =>
      if free i then
        let start' := if found =? 0 then i else start in
        let found' := found + 1 in
        if found' =? count then Some start'
        else scan_run free count (i + 1) n' found' start'
      else scan_run free count (i + 1) n' 0 start
  end.

(** [run_at free s c]: the [c] entries from [s] are all free. *)
Definition run_at (free : Z -> bool) (s c : Z) : Prop :=
  forall k, s <= k < s + c -> free k = true.

(** From a state of the scan in which the last [found] entries are free, the
    entry before them (if any, from [lo]) is not, and no run of [count] ends
    before [i], the scan returns the lowest run, or none exists. *)
Lemma scan_run_spec free count lo n : forall i found start,
  0 < count -> 0 <= found < count -> lo <= i - found ->
  (0 < found -> start = i - found) ->
  run_at free (i - found) found ->
  (i - found = lo \/ free (i - found - 1) = false) ->
  (forall s, lo <= s -> s + count <= i -> ~ run_at free s count) ->
  match scan_run free count i n found start with
  | Some s => lo <= s /\ s + count <= i + Z.of_nat n /\ run_at free s count /\
              forall s', lo <= s' < s -> ~ run_at free s' count
  | None => forall s, lo <= s -> s + count <= i + Z.of_nat n -> ~ run_at free s count
  end.
Proof.
  induction n as [|n IH]; intros i found start Hc Hf Hlo Hst Hrun Hbefore Hno; simpl.
  - intros s Hs He. apply Hno; lia.
  - destruct (free i) eqn:E.
    + set (start' := if found =? 0 then i else start).
      assert (start' = i - found) as Hs'.
      { subst start'. destruct (Z.eqb_spec found 0); [lia|]. apply Hst. lia. }
      assert (run_at free (i - found) (found + 1)) as Hrun'.
      { intros k Hk. destruct (decide (k = i)) as [->|]; [done|]. apply Hrun. lia. }
      destruct (Z.eqb_spec (found + 1) count) as [Hcnt|Hcnt].
      * rewrite Hs'. split_and!; [lia|lia|by rewrite <- Hcnt|].
        intros s' Hlt Hrs. destruct Hbefore as [Hb|Hb]; [lia|].
        destruct (decide (s' + count <= i)); [by apply (Hno s'); [lia..|]|].
        rewrite Hrs in Hb by lia. done.
      * specialize (IH (i + 1) (found + 1) start' Hc).
        replace (i + 1 - (found + 1)) with (i - found) in IH by lia.
        replace (i + 1 + Z.of_nat n) with (i + Z.of_nat (S n)) in IH by lia.
        apply IH; try done; try lia.
        intros s Hs He Hrs. destruct (decide (s + count <= i)) as [|Hgt].
        -- by apply (Hno s).
        -- destruct Hbefore as [Hb|Hb]; [lia|]. rewrite Hrs in Hb by lia. done.
    + specialize (IH (i + 1) 0 start Hc).
      replace (i + 1 - 0) with (i + 1) in IH by lia.
      replace (i + 1 + Z.of_nat n) with (i + Z.of_nat (S n)) in IH by lia.
      apply IH; try done; try lia.
      * intros k Hk. lia.
      * right. by replace (i + 1 - 1) with i by lia.
      * intros s Hs He Hrs. destruct (decide (s + count <= i)) as [|Hgt].
        -- by apply (Hno s).
        -- rewrite Hrs in E by lia. done.
Qed.

(** The scan of a whole table: lowest run, or none. *)
Lemma scan_run_first free count n :
  0 < count ->
  match scan_run free count 0 n 0 0 with
  | Some s => 0 <= s /\ s + count <= Z.of_nat n /\ run_at free s count /\
              forall s', 0 <= s' < s -> ~ run_at free s' count
  | None => forall s, 0 <= s -> s + count <= Z.of_nat n -> ~ run_at free s count
  end.
Proof.
  intros Hc. apply (scan_run_spec free count 0 n 0 0 0); unfold run_at; lia.
Qed.

(** ** Arrays

    A C array is a list; [aget] and [aset] read and write it at an integer
    index.  A read outside the array is [d]; a write outside it is lost, so
    every theorem about a write states the bounds the code establishes. *)
Definition aget {A} (d : A) (l : list A) (i : Z) : A :=
  if 0 <=? i then default d (l !! Z.to_nat i) else d.
Definition aset {A} (l : list A) (i : Z) (x : A) : list A :=
  if 0 <=? i then <[Z.to_nat i := x]> l else l.

Lemma aget_aset_eq {A} (d : A) l i x :
  0 <= i < Z.of_nat (length l) -> aget d (aset l i x) i = x.
Proof.
  intros Hi. unfold aget, aset. destruct (Z.leb_spec 0 i); [|lia].
  rewrite list_lookup_insert_eq by lia. done.
Qed.

Lemma aget_aset_ne {A} (d : A) l i j x :
  i <> j -> 0 <= i -> aget d (aset l i x) j = aget d l j.
Proof.
  intros Hne Hi. unfold aget, aset. destruct (Z.leb_spec 0 i); [|lia].
  destruct (Z.leb_spec 0 j); [|done].
  rewrite list_lookup_insert_ne by lia. done.
Qed.

Lemma length_aset {A} (l : list A) i x : length (aset l i x) = length l.
Proof. unfold aset. destruct (0 <=? i); [apply length_insert|done]. Qed.

Lemma aget_replicate {A} (d x : A) n i :
  0 <= i < Z.of_nat n -> aget d (replicate n x) i = x.
Proof.
  intros Hi. unfold aget. destruct (Z.leb_spec 0 i); [|lia].
  rewrite lookup_replicate_2 by lia. done.
Qed.

Lemma aget_lookup {A} (d : A) l i x :
  0 <= i -> l !! Z.to_nat i = Some x -> aget d l i = x.
Proof. intros Hi H. unfold aget. destruct (Z.leb_spec 0 i); [|lia]. by rewrite H. Qed.

Lemma aget_inside {A} (d : A) l i :
  0 <= i < Z.of_nat (length l) -> l !! Z.to_nat i = Some (aget d l i).
Proof.
  intros Hi. destruct (lookup_lt_is_Some_2 l (Z.to_nat i)) as [x Hx]; [lia|].
  rewrite Hx. f_equal. symmetry. apply aget_lookup; [lia|done].
Qed.

Lemma aget_outside {A} (d : A) l i :
  ~ (0 <= i < Z.of_nat (length l)) -> aget d l i = d.
Proof.
  intros Hi. unfold aget. destruct (Z.leb_spec 0 i); [|done].
  rewrite lookup_ge_None_2 by lia. done.
Qed.

Lemma aset_aset {A} (l : list A) i x y : aset (aset l i x) i y = aset l i y.
Proof. unfold aset. destruct (0 <=? i); [apply list_insert_insert_eq|done]. Qed.

#[export] Hint Rewrite @length_aset : kernel_rw.

(** ** Tactics *)

(** Split on the boolean tests of the goal and turn them into arithmetic. *)
Ltac case_bools :=
  repeat match goal with
  | |- context [Z.ltb ?a ?b] => destruct (Z.ltb_spec a b)
  | |- context [Z.leb ?a ?b] => destruct (Z.leb_spec a b)
  | |- context [Z.eqb ?a ?b] => destruct (Z.eqb_spec a b)
  end.

(** Turn boolean comparison hypotheses into propositions. *)
Ltac prop_bools :=
  repeat match goal with
  | H : andb _ _ = true |- _ => apply andb_prop in H as [? ?]
  | H : orb _ _ = false |- _ => apply orb_false_elim in H as [? ?]
  | H : negb _ = true |- _ => apply negb_true_iff in H
  | H : negb _ = false |- _ => apply negb_false_iff in H
  | H : Z.ltb _ _ = true |- _ => apply Z.ltb_lt in H
  | H : Z.ltb _ _ = false |- _ => apply Z.ltb_ge in H
  | H : Z.leb _ _ = true |- _ => apply Z.leb_le in H
  | H : Z.leb _ _ = false |- _ => apply Z.leb_gt in H
  | H : Z.eqb _ _ = true |- _ => apply Z.eqb_eq in H
  | H : Z.eqb _ _ = false |- _ => apply Z.eqb_neq in H
  end.

(** Linear arithmetic with divisions and remainders. *)
Ltac zdiv_lia := Z.to_euclidean_division_equations; lia.
