(* ===== verification/Bytes.v ===== *)
(** * Byte buffers and packed structures

    A buffer is the list of its bytes.  [slice] and [write_at] are the
    [memcpy]s out of and into a buffer; [get16], [get32] and [le16], [le32]
    read and lay out the little-endian fields of the packed structures that
    drivers overlay on buffers. *)

From S2P Require Import Prelude.

(** [memcpy(dst, buf + off, n)]. *)
Definition slice (off n : Z) (buf : list Z) : list Z :=
  take (Z.to_nat n) (drop (Z.to_nat off) buf).

(** [memcpy(buf + off, src, |src|)]; what falls outside the buffer is lost. *)
Definition write_at (buf : list Z) (off : Z) (src : list Z) : list Z :=
  take (Z.to_nat off) buf ++ take (length buf - Z.to_nat off) src
  ++ drop (Z.to_nat off + length src) buf.

Definition zeros (n : Z) : list Z := replicate (Z.to_nat n) 0.

Definition get16 (buf : list Z) (off : Z) : Z := aget 0 buf off + 2 ^ 8 * aget 0 buf (off + 1).
Definition get32 (buf : list Z) (off : Z) : Z :=
  aget 0 buf off + 2 ^ 8 * aget 0 buf (off + 1) + 2 ^ 16 * aget 0 buf (off + 2)
  + 2 ^ 24 * aget 0 buf (off + 3).
Definition le16 (v : Z) : list Z := [v mod 2 ^ 8; v / 2 ^ 8 mod 2 ^ 8].
Definition le32 (v : Z) : list Z :=
  [v mod 2 ^ 8; v / 2 ^ 8 mod 2 ^ 8; v / 2 ^ 16 mod 2 ^ 8; v / 2 ^ 24 mod 2 ^ 8].

Definition set8 (buf : list Z) (off v : Z) : list Z := write_at buf off [u8 v].
Definition set16 (buf : list Z) (off v : Z) : list Z := write_at buf off (le16 v).
Definition set32 (buf : list Z) (off v : Z) : list Z := write_at buf off (le32 v).

Definition bytes_ok (buf : list Z) : Prop := Forall (fun c => 0 <= c < 256) buf.

(** ** Lookup *)

Lemma aget_slice buf off n i :
  0 <= off -> 0 <= i < n -> aget 0 (slice off n buf) i = aget 0 buf (off + i).
Proof.
  intros Ho Hi. unfold aget, slice. destruct (Z.leb_spec 0 i), (Z.leb_spec 0 (off + i)); try lia.
  rewrite lookup_take_lt by lia. rewrite lookup_drop. f_equal. f_equal. lia.
Qed.

Lemma length_slice buf off n :
  0 <= off -> 0 <= n -> off + n <= Z.of_nat (length buf) -> length (slice off n buf) = Z.to_nat n.
Proof. intros. unfold slice. rewrite length_take, length_drop. lia. Qed.

Lemma length_write_at buf off src : length (write_at buf off src) = length buf.
Proof. unfold write_at. rewrite !length_app, !length_take, length_drop. lia. Qed.

Lemma write_at_lookup buf off src (i : nat) :
  0 <= off ->
  write_at buf off src !! i =
    if decide (Z.to_nat off <= i < Z.to_nat off + length src /\ i < length buf)%nat
    then src !! (i - Z.to_nat off)%nat else buf !! i.
Proof.
  intros Ho. unfold write_at. set (o := Z.to_nat off).
  destruct (decide (length buf <= i)%nat) as [Hi|Hi].
  { rewrite decide_False by lia. rewrite !lookup_ge_None_2; [done|lia|].
    rewrite !length_app, !length_take, length_drop. lia. }
  destruct (decide (i < o)%nat) as [H1|H1].
  { rewrite decide_False by lia. rewrite lookup_app_l by (rewrite length_take; lia).
    by rewrite lookup_take_lt by lia. }
  rewrite lookup_app_r by (rewrite length_take; lia). rewrite length_take.
  replace (i - (o `min` length buf))%nat with (i - o)%nat by lia.
  destruct (decide (i < o + length src)%nat) as [H2|H2].
  - rewrite decide_True by lia. rewrite lookup_app_l by (rewrite length_take; lia).
    by rewrite lookup_take_lt by lia.
  - rewrite decide_False by lia. rewrite lookup_app_r by (rewrite length_take; lia).
    rewrite length_take, lookup_drop. f_equal. lia.
Qed.

Lemma aget_write_at_in buf off src i :
  0 <= off -> off <= i < off + Z.of_nat (length src) -> i < Z.of_nat (length buf) ->
  aget 0 (write_at buf off src) i = aget 0 src (i - off).
Proof.
  intros Ho Hi Hb. unfold aget. destruct (Z.leb_spec 0 i), (Z.leb_spec 0 (i - off)); try lia.
  rewrite write_at_lookup, decide_True by lia. f_equal. f_equal. lia.
Qed.

Lemma aget_write_at_out buf off src i :
  0 <= off -> ~ (off <= i < off + Z.of_nat (length src)) ->
  aget 0 (write_at buf off src) i = aget 0 buf i.
Proof.
  intros Ho Hi. unfold aget. destruct (Z.leb_spec 0 i); [|done].
  rewrite write_at_lookup, decide_False by lia. done.
Qed.

(** Two buffers of one length with the same bytes are equal. *)
Lemma buf_ext (a b : list Z) :
  length a = length b -> (forall i, 0 <= i < Z.of_nat (length a) -> aget 0 a i = aget 0 b i) -> a = b.
Proof.
  intros Hl H. apply list_eq_same_length with (length a); [done|done|].
  intros i x y Hi Hx Hy. specialize (H (Z.of_nat i)).
  unfold aget in H. destruct (Z.leb_spec 0 (Z.of_nat i)); [|lia]. rewrite Nat2Z.id, Hx, Hy in H.
  apply H. lia.
Qed.

Lemma slice_write_at_eq buf off src :
  0 <= off -> off + Z.of_nat (length src) <= Z.of_nat (length buf) ->
  slice off (Z.of_nat (length src)) (write_at buf off src) = src.
Proof.
  intros Ho Hl. apply buf_ext.
  - rewrite length_slice by (rewrite ?length_write_at; lia). lia.
  - intros i Hi. rewrite length_slice in Hi by (rewrite ?length_write_at; lia).
    rewrite aget_slice, aget_write_at_in by lia. f_equal. lia.
Qed.

Lemma slice_write_at_out buf off src o n :
  0 <= off -> 0 <= o -> 0 <= n ->
  o + n <= off \/ off + Z.of_nat (length src) <= o ->
  slice o n (write_at buf off src) = slice o n buf.
Proof.
  intros Ho Ho' Hn Hd. apply list_eq. intros i. unfold slice.
  destruct (decide (i < Z.to_nat n)%nat) as [Hi|Hi].
  - rewrite !lookup_take_lt by lia. rewrite !lookup_drop, write_at_lookup by lia.
    by rewrite decide_False by lia.
  - rewrite !lookup_take_ge by lia. done.
Qed.

Lemma write_at_write_at buf off a b :
  0 <= off -> length a = length b -> write_at (write_at buf off a) off b = write_at buf off b.
Proof.
  intros Ho Hl. apply list_eq. intros i. rewrite !write_at_lookup, length_write_at by lia.
  destruct (decide _) as [Hd|Hd]; [done|]. rewrite decide_False; [done|]. by rewrite Hl.
Qed.

Lemma write_at_nil buf off : write_at buf off [] = buf.
Proof.
  unfold write_at. rewrite take_nil. cbn [app length]. rewrite Nat.add_0_r. apply take_drop.
Qed.

(** Writing a buffer piece by piece. *)
Lemma write_at_app buf off a b :
  0 <= off ->
  write_at (write_at buf off a) (off + Z.of_nat (length a)) b = write_at buf off (a ++ b).
Proof.
  intros Ho. apply list_eq. intros i. rewrite !write_at_lookup by lia.
  rewrite length_write_at, length_app.
  repeat case_decide; try lia; try done.
  - rewrite lookup_app_r by lia. f_equal. lia.
  - by rewrite lookup_app_l by lia.
Qed.

Lemma length_le16 v : length (le16 v) = 2%nat. Proof. done. Qed.
Lemma length_le32 v : length (le32 v) = 4%nat. Proof. done. Qed.

Lemma length_set8 buf off v : length (set8 buf off v) = length buf.
Proof. apply length_write_at. Qed.
Lemma length_set16 buf off v : length (set16 buf off v) = length buf.
Proof. apply length_write_at. Qed.
Lemma length_set32 buf off v : length (set32 buf off v) = length buf.
Proof. apply length_write_at. Qed.
Lemma length_zeros n : length (zeros n) = Z.to_nat n.
Proof. apply length_replicate. Qed.

#[export] Hint Rewrite length_write_at length_set8 length_set16 length_set32 length_zeros : kernel_rw.

(** ** Fields *)

Lemma get16_agree a b i j :
  (forall k, 0 <= k < 2 -> aget 0 a (i + k) = aget 0 b (j + k)) -> get16 a i = get16 b j.
Proof.
  intros H. unfold get16. rewrite (H 1) by lia. specialize (H 0). rewrite !Z.add_0_r in H.
  rewrite H by lia. done.
Qed.

Lemma get32_agree a b i j :
  (forall k, 0 <= k < 4 -> aget 0 a (i + k) = aget 0 b (j + k)) -> get32 a i = get32 b j.
Proof.
  intros H. unfold get32. rewrite (H 1), (H 2), (H 3) by lia. specialize (H 0).
  rewrite !Z.add_0_r in H. rewrite H by lia. done.
Qed.

Lemma get16_slice buf o n i : 0 <= o -> 0 <= i -> i + 2 <= n -> get16 (slice o n buf) i = get16 buf (o + i).
Proof. intros. apply get16_agree. intros k Hk. rewrite aget_slice by lia. f_equal. lia. Qed.
Lemma get32_slice buf o n i : 0 <= o -> 0 <= i -> i + 4 <= n -> get32 (slice o n buf) i = get32 buf (o + i).
Proof. intros. apply get32_agree. intros k Hk. rewrite aget_slice by lia. f_equal. lia. Qed.

Lemma get16_write_at_out buf off src i :
  0 <= off -> i + 2 <= off \/ off + Z.of_nat (length src) <= i ->
  get16 (write_at buf off src) i = get16 buf i.
Proof. intros. apply get16_agree. intros k Hk. apply aget_write_at_out; lia. Qed.
Lemma get32_write_at_out buf off src i :
  0 <= off -> i + 4 <= off \/ off + Z.of_nat (length src) <= i ->
  get32 (write_at buf off src) i = get32 buf i.
Proof. intros. apply get32_agree. intros k Hk. apply aget_write_at_out; lia. Qed.

Lemma get16_write_at_in buf off src i :
  0 <= off -> off <= i -> i + 2 <= off + Z.of_nat (length src) -> i + 2 <= Z.of_nat (length buf) ->
  get16 (write_at buf off src) i = get16 src (i - off).
Proof. intros. apply get16_agree. intros k Hk. rewrite aget_write_at_in by lia. f_equal. lia. Qed.
Lemma get32_write_at_in buf off src i :
  0 <= off -> off <= i -> i + 4 <= off + Z.of_nat (length src) -> i + 4 <= Z.of_nat (length buf) ->
  get32 (write_at buf off src) i = get32 src (i - off).
Proof. intros. apply get32_agree. intros k Hk. rewrite aget_write_at_in by lia. f_equal. lia. Qed.

Lemma get16_le16 v : 0 <= v < 2 ^ 16 -> get16 (le16 v) 0 = v.
Proof. intros H. unfold get16, le16. cbn [aget Z.leb Z.compare]. unfold aget. simpl. zdiv_lia. Qed.
Lemma get32_le32 v : 0 <= v < 2 ^ 32 -> get32 (le32 v) 0 = v.
Proof.
  intros H. unfold get32, le32, aget. simpl. zdiv_lia.
Qed.

Lemma get16_set16_eq buf off v :
  0 <= off -> off + 2 <= Z.of_nat (length buf) -> 0 <= v < 2 ^ 16 -> get16 (set16 buf off v) off = v.
Proof.
  intros. unfold set16. rewrite get16_write_at_in by (rewrite ?length_le16; lia).
  rewrite Z.sub_diag. by apply get16_le16.
Qed.
Lemma get32_set32_eq buf off v :
  0 <= off -> off + 4 <= Z.of_nat (length buf) -> 0 <= v < 2 ^ 32 -> get32 (set32 buf off v) off = v.
Proof.
  intros. unfold set32. rewrite get32_write_at_in by (rewrite ?length_le32; lia).
  rewrite Z.sub_diag. by apply get32_le32.
Qed.
Lemma get32_set32_ne buf off v i :
  0 <= off -> i + 4 <= off \/ off + 4 <= i -> get32 (set32 buf off v) i = get32 buf i.
Proof. intros. apply get32_write_at_out; rewrite ?length_le32; lia. Qed.

Lemma aget_app_l a b i : i < Z.of_nat (length a) -> aget 0 (a ++ b) i = aget 0 a i.
Proof.
  intros Hi. unfold aget. destruct (Z.leb_spec 0 i); [|done]. by rewrite lookup_app_l by lia.
Qed.
Lemma aget_app_r a b i : Z.of_nat (length a) <= i -> aget 0 (a ++ b) i = aget 0 b (i - Z.of_nat (length a)).
Proof.
  intros Hi. unfold aget. destruct (Z.leb_spec 0 i); [|lia].
  destruct (Z.leb_spec 0 (i - Z.of_nat (length a))); [|lia]. rewrite lookup_app_r by lia. do 2 f_equal. lia.
Qed.

Lemma slice_app n m buf : 0 <= n <= m -> slice 0 n buf ++ slice n (m - n) buf = slice 0 m buf.
Proof.
  intros Hn. unfold slice. rewrite !drop_0. replace (Z.to_nat m) with (Z.to_nat n + Z.to_nat (m - n))%nat by lia.
  apply take_take_drop.
Qed.
Lemma slice_all n buf : Z.of_nat (length buf) <= n -> slice 0 n buf = buf.
Proof. intros Hn. unfold slice. rewrite drop_0. apply take_ge. lia. Qed.

Lemma aget_zeros n i : aget 0 (zeros n) i = 0.
Proof.
  unfold aget, zeros. destruct (Z.leb_spec 0 i); [|done].
  destruct (decide (Z.to_nat i < Z.to_nat n)%nat).
  - by rewrite lookup_replicate_2.
  - by rewrite lookup_ge_None_2 by (rewrite length_replicate; lia).
Qed.
Lemma get32_zeros n i : get32 (zeros n) i = 0.
Proof. unfold get32. by rewrite !aget_zeros. Qed.

(** ** Bytes *)

Lemma aget_bytes buf i : bytes_ok buf -> 0 <= aget 0 buf i < 256.
Proof.
  intros H. unfold aget. destruct (0 <=? i); [|lia].
  destruct (buf !! Z.to_nat i) as [c|] eqn:E; [|simpl; lia].
  exact (Forall_lookup_1 _ _ _ _ H E).
Qed.

Lemma get16_range buf i : bytes_ok buf -> 0 <= get16 buf i < 2 ^ 16.
Proof.
  intros H. unfold get16. pose proof (aget_bytes buf i H). pose proof (aget_bytes buf (i + 1) H). lia.
Qed.
Lemma get32_range buf i : bytes_ok buf -> 0 <= get32 buf i < 2 ^ 32.
Proof.
  intros H. unfold get32. pose proof (aget_bytes buf i H). pose proof (aget_bytes buf (i + 1) H).
  pose proof (aget_bytes buf (i + 2) H). pose proof (aget_bytes buf (i + 3) H). lia.
Qed.

Lemma bytes_write_at buf off src : bytes_ok buf -> bytes_ok src -> bytes_ok (write_at buf off src).
Proof.
  intros Hb Hs. unfold write_at. apply Forall_app. split; [by apply Forall_take|].
  apply Forall_app. split; [by apply Forall_take|by apply Forall_drop].
Qed.
Lemma bytes_slice buf off n : bytes_ok buf -> bytes_ok (slice off n buf).
Proof. intros Hb. by apply Forall_take, Forall_drop. Qed.
Lemma bytes_zeros n : bytes_ok (zeros n).
Proof. apply Forall_replicate. lia. Qed.
Lemma bytes_le16 v : bytes_ok (le16 v).
Proof. repeat constructor; apply Z.mod_pos_bound; lia. Qed.
Lemma bytes_le32 v : bytes_ok (le32 v).
Proof. repeat constructor; apply Z.mod_pos_bound; lia. Qed.

#[export] Hint Resolve bytes_write_at bytes_slice bytes_zeros bytes_le16 bytes_le32 : kernel.
