(* ===== verification/StateMonad.v ===== *)
(** * A state monad for the file-system code

    [M S A] is a computation on a state [S] that returns an [A] and a new
    state, or does not return ([None]): a loop whose fuel runs out stands for
    a loop of the code that does not end.

    [wp m Q s] is total correctness: started in [s], [m] returns, and [Q]
    holds of what it returns and of the state then. *)

From S2P Require Import Prelude.

Definition M (S A : Type) : Type := S -> option (A * S).

Definition ret {S A} (a : A) : M S A := fun s => Some (a, s).
Definition bind {S A B} (m : M S A) (k : A -> M S B) : M S B :=
  fun s => match m s with Some (a, s') => k a s' | None => None end.
Definition diverge {S A} : M S A := fun _ => None.
Definition gets {S A} (f : S -> A) : M S A := fun s => Some (f s, s).
Definition modify {S} (f : S -> S) : M S unit := fun s => Some (tt, f s).

Declare Scope monad_scope.
Delimit Scope monad_scope with monad.
Notation "'let*' x ':=' m 'in' k" := (bind m (fun x => k))
  (at level 10, x pattern, m at level 100, k at level 200) : monad_scope.
Notation "'do*' m 'in' k" := (bind m (fun _ => k))
  (at level 10, m at level 100, k at level 200) : monad_scope.
#[global] Open Scope monad_scope.

(** [iter n step a] runs [step] from [a] until it leaves the loop with
    [inr]: a [while] loop whose early exits are the [inr]s, for at most [n]
    rounds. *)
Fixpoint iter {S A B} (n : nat) (step : A -> M S (A + B)) (a : A) : M S B :=
  match n with
  | O => diverge
  | Datatypes.S n' =>
      let* r := step a in
      match r with
      | inl a' => iter n' step a'
      | inr b => ret b
      end
  end.

(** [for_each step l] runs [step] on the elements of [l] until one leaves with
    [Some]. *)
Fixpoint for_each {S A B} (step : A -> M S (option B)) (l : list A) : M S (option B) :=
  match l with
  | [] => ret None
  | x :: l' =>
      let* r := step x in
      match r with
      | Some b => ret (Some b)
      | None => for_each step l'
      end
  end.

Definition wp {S A} (m : M S A) (Q : A -> S -> Prop) (s : S) : Prop :=
  match m s with Some (a, s') => Q a s' | None => False end.

Section rules.
Context {S : Type}.

Lemma wp_ret {A} (a : A) Q (s : S) : wp (ret a) Q s <-> Q a s.
Proof. done. Qed.

Lemma wp_bind {A B} (m : M S A) (k : A -> M S B) Q s :
  wp (bind m k) Q s <-> wp m (fun a => wp (k a) Q) s.
Proof. unfold wp, bind. by destruct (m s) as [[a s']|]. Qed.

Lemma wp_gets {A} (f : S -> A) Q s : wp (gets f) Q s <-> Q (f s) s.
Proof. done. Qed.

Lemma wp_modify (f : S -> S) Q s : wp (modify f) Q s <-> Q tt (f s).
Proof. done. Qed.

(** The rule of consequence. *)
Lemma wp_mono {A} (m : M S A) (P Q : A -> S -> Prop) s :
  wp m P s -> (forall a s', P a s' -> Q a s') -> wp m Q s.
Proof. unfold wp. destruct (m s) as [[a s']|]; [|done]. intros HP H. by apply H. Qed.

Lemma wp_run {A} (m : M S A) Q s : wp m Q s <-> exists a s', m s = Some (a, s') /\ Q a s'.
Proof.
  unfold wp. destruct (m s) as [[a s']|]; split.
  - eauto.
  - intros (? & ? & [= <- <-] & ?). done.
  - done.
  - intros (? & ? & [=] & _).
Qed.

Lemma wp_ran {A} (m : M S A) Q s a s' : m s = Some (a, s') -> wp m Q s -> Q a s'.
Proof. unfold wp. intros ->. done. Qed.

Lemma wp_and {A} (m : M S A) P Q s : wp m P s -> wp m Q s -> wp m (fun a s' => P a s' /\ Q a s') s.
Proof. unfold wp. destruct (m s) as [[a s']|]; done. Qed.

(** A loop with an invariant and a measure that decreases at every round. *)
Lemma wp_iter {A B} (step : A -> M S (A + B)) (I : A -> S -> Prop) (mu : A -> nat)
    (Q : B -> S -> Prop) n : forall a s,
  I a s -> (mu a < n)%nat ->
  (forall a s, I a s ->
     wp (step a) (fun r s' => match r with
                              | inl a' => I a' s' /\ (mu a' < mu a)%nat
                              | inr b => Q b s'
                              end) s) ->
  wp (iter n step a) Q s.
Proof.
  induction n as [|n IH]; intros a s HI Hmu Hs; [lia|].
  cbn [iter]. apply wp_bind. eapply wp_mono; [by apply Hs|].
  intros [a'|b] s'; [|done]. intros [HI' Hmu']. apply IH; [done|lia|done].
Qed.

(** A loop over a list, with an invariant of what is left. *)
Lemma wp_for_each {A B} (step : A -> M S (option B)) (I : list A -> S -> Prop)
    (Q : option B -> S -> Prop) l : forall s,
  I l s -> (forall s, I [] s -> Q None s) ->
  (forall x l s, I (x :: l) s ->
     wp (step x) (fun r s' => match r with None => I l s' | Some b => Q (Some b) s' end) s) ->
  wp (for_each step l) Q s.
Proof.
  induction l as [|x l IH]; intros s HI Hnil Hs; cbn [for_each]; [by apply Hnil|].
  apply wp_bind. eapply wp_mono; [by apply Hs|].
  intros [b|] s'; [done|]. intros HI'. by apply IH.
Qed.
End rules.

(** Walk through the binds, reads and writes in front of the next call. *)
Ltac wp_step :=
  first [ rewrite wp_bind | rewrite wp_ret | rewrite wp_gets | rewrite wp_modify ]; cbv beta.
Ltac wp_steps := repeat wp_step.

(** Use a specification for the next call. *)
Ltac wp_call H := eapply wp_mono; [eapply H|cbv beta].
