(* ===== verification/BlockDev.v ===== *)
(** * Block devices (src/kernel/block)

    [BlockDevice] is [struct block_device] as its users see it: a sector size
    and the two functions [read] and [write].  [BlockDeviceLaws] is what a
    file system relies on, whether or not the accesses succeed, and
    [Reliable] what it relies on to make progress.  The devices kept in memory
    (block_ramdisk.c, block_image.c) implement both.

    The other half of the file is the table of registered devices (block.c)
    and the partitions found in a GPT or an MBR (block_gpt.c, block_mbr.c).

    Bytes of a sector are lists; whether a read or write goes through is its
    result.  The [kmalloc]s of block_gpt.c, block_mbr.c and block_image.c,
    whose results the code does not test, are taken to succeed. *)

From S2P Require Import Prelude Bytes.

(** ** The interface *)
Class BlockDevice (D : Type) := {
  dev_sector_size : D -> Z;
  dev_sector_count : D -> Z;
  dev_read : Z -> Z -> D -> D * option (list Z);
  dev_write : Z -> Z -> list Z -> D -> D * bool
}.

(** [contents d]: the bytes of the device, from its first sector.  Requests
    are for sectors below [2^32]. *)
Class BlockDeviceLaws (D : Type) `{!BlockDevice D} := {
  contents : D -> list Z;
  dev_ok : D -> Prop;
  law_sector_size : forall d, dev_ok d -> 0 < dev_sector_size d < 2 ^ 16;
  law_contents : forall d, dev_ok d -> bytes_ok (contents d);
  law_read : forall lba n d d' r, dev_ok d -> 0 <= lba < 2 ^ 32 -> 0 <= n < 2 ^ 32 ->
    dev_read lba n d = (d', r) ->
    dev_ok d' /\ dev_sector_size d' = dev_sector_size d /\ contents d' = contents d /\
    forall buf, r = Some buf ->
      (lba + n) * dev_sector_size d <= Z.of_nat (length (contents d)) /\
      buf = slice (lba * dev_sector_size d) (n * dev_sector_size d) (contents d);
  law_write : forall lba n buf d d' ok, dev_ok d -> 0 <= lba < 2 ^ 32 -> 0 <= n < 2 ^ 32 ->
    Z.of_nat (length buf) = n * dev_sector_size d -> bytes_ok buf ->
    dev_write lba n buf d = (d', ok) ->
    dev_ok d' /\ dev_sector_size d' = dev_sector_size d /\
    (ok = true -> (lba + n) * dev_sector_size d <= Z.of_nat (length (contents d))) /\
    contents d' = if ok then write_at (contents d) (lba * dev_sector_size d) buf else contents d;
  law_read_count : forall lba n d, dev_sector_count (fst (dev_read lba n d)) = dev_sector_count d;
  law_write_count : forall lba n buf d, dev_sector_count (fst (dev_write lba n buf d)) = dev_sector_count d
}.

(** A device on which every access inside it goes through. *)
Class Reliable (D : Type) `{!BlockDevice D} `{!BlockDeviceLaws D} : Prop := {
  read_goes_through : forall lba n d d' r, dev_ok d -> 0 <= lba < 2 ^ 32 -> 0 <= n < 2 ^ 32 ->
    (lba + n) * dev_sector_size d <= Z.of_nat (length (contents d)) ->
    dev_read lba n d = (d', r) -> r <> None;
  write_goes_through : forall lba n buf d d' ok, dev_ok d -> 0 <= lba < 2 ^ 32 -> 0 <= n < 2 ^ 32 ->
    (lba + n) * dev_sector_size d <= Z.of_nat (length (contents d)) ->
    dev_write lba n buf d = (d', ok) -> ok = true
}.

(** ** Devices *)

(** [struct block_device].  [driver_data] names the backing store, which a
    disk and its partitions share; the two function pointers are those of the
    module that keeps its stores in memory. *)
Record block_device := mkDevice {
  name : list Z; sector_count : Z; sector_size : Z; lba_offset : Z; driver_data : Z
}.

(** [ramdisk_read] and [image_read]: [data] are the [size_bytes] bytes of the
    store. *)
Definition ramdisk_read (dev : block_device) (data : list Z) (lba count : Z) : option (list Z) :=
  let byte_off := u64 (u64 (lba_offset dev + lba) * sector_size dev) in
  let byte_count := u64 (count * sector_size dev) in
  if Z.of_nat (length data) <? u64 (byte_off + byte_count) then None
  else Some (slice byte_off byte_count data).

Definition ramdisk_write (dev : block_device) (data : list Z) (lba count : Z) (buf : list Z) : option (list Z) :=
  let byte_off := u64 (u64 (lba_offset dev + lba) * sector_size dev) in
  let byte_count := u64 (count * sector_size dev) in
  if Z.of_nat (length data) <? u64 (byte_off + byte_count) then None
  else Some (write_at data byte_off (take (Z.to_nat byte_count) buf)).

(** [kmalloc_ok]: which of the three allocations succeed. *)
Definition ramdisk_create_blockdev (kmalloc_ok : bool * bool * bool) (nm : list Z) (size_bytes store : Z)
  : option (block_device * list Z) :=
  if (size_bytes =? 0) || negb (size_bytes mod 512 =? 0) then None
  else
    let '(k1, k2, k3) := kmalloc_ok in
    if negb k1 || negb k2 || negb k3 then None
    else Some (mkDevice nm (size_bytes / 512) 512 0 store, zeros size_bytes).

(** [image_create_blockdev]: [module] is what [limine_get_module] finds. *)
Definition image_create_blockdev (nm : list Z) (module : option (list Z)) (store : Z)
  : option (block_device * list Z) :=
  match module with
  | None => None
  | Some base => Some (mkDevice nm (Z.of_nat (length base) / 512) 512 0 store, base)
  end.

(** A device together with its store. *)
Record mem_disk := mkMem { disk_dev : block_device; disk_data : list Z }.

#[export] Instance mem_disk_device : BlockDevice mem_disk := {
  dev_sector_size d := sector_size (disk_dev d);
  dev_sector_count d := sector_count (disk_dev d);
  dev_read lba n d := (d, ramdisk_read (disk_dev d) (disk_data d) lba n);
  dev_write lba n buf d :=
    match ramdisk_write (disk_dev d) (disk_data d) lba n buf with
    | Some data => (mkMem (disk_dev d) data, true)
    | None => (d, false)
    end
}.

(** ** Registered devices *)
Definition MAX_BLOCK_DEVICES : Z := 16.
Definition devices : Type := list (option block_device).

Definition free_device (ds : devices) (i : Z) : bool :=
  match aget None ds i with None => true | Some _ => false end.

Definition block_register (dev : block_device) (ds : devices) : devices * bool :=
  match find_first (free_device ds) 0 (Z.to_nat MAX_BLOCK_DEVICES) with
  | Some i => (aset ds i (Some dev), true)
  | None => (ds, false)
  end.

Definition named (nm : list Z) (ds : devices) (i : Z) : bool :=
  match aget None ds i with Some dev => bool_decide (name dev = nm) | None => false end.

Definition block_get (nm : list Z) (ds : devices) : option block_device :=
  match find_first (named nm ds) 0 (Z.to_nat MAX_BLOCK_DEVICES) with
  | Some i => aget None ds i
  | None => None
  end.

(** ** Partitions *)

(** The decimal digits [make_partition_name] writes. *)
Fixpoint decimal (fuel : nat) (n : Z) : list Z :=
  match fuel with
  | O => []
  | S f => if n <? 10 then [48 + n] else decimal f (n / 10) ++ [48 + n mod 10]
  end.

Definition make_partition_name (base : list Z) (index : Z) : list Z :=
  base ++ [112] ++ decimal 11 (index + 1).

Definition partition (dev : block_device) (index start count : Z) : block_device :=
  mkDevice (make_partition_name (name dev) index) count (sector_size dev)
           (u64 (lba_offset dev + start)) (driver_data dev).

(** Register a partition; [registered] counts the successes. *)
Definition register_partition (part : block_device) (st : devices * Z) : devices * Z :=
  let '(ds, ok) := block_register part (fst st) in (ds, if ok then snd st + 1 else snd st).

Definition GPT_SIGNATURE : Z := 0x5452415020494645.
Definition GPT_ENTRY_SIZE : Z := 128.

Definition get64 (buf : list Z) (off : Z) : Z := get32 buf off + 2 ^ 32 * get32 buf (off + 4).

Definition guid_is_zero (entry : list Z) : bool :=
  forallb (fun i => aget 0 entry i =? 0) (seqZ 0 16).

Definition gpt_entry (dev : block_device) (table : list Z) (entry_size i : Z) (st : devices * Z) : devices * Z :=
  let entry := slice (u32 (i * entry_size)) GPT_ENTRY_SIZE table in
  let start := get64 entry 32 in
  let last := get64 entry 40 in
  if guid_is_zero entry then st
  else if (start =? 0) || (last <? start) then st
  else register_partition (partition dev i start (u64 (last - start + 1))) st.

(** The result [None] is the division by zero of the code when an entry is
    larger than a sector. *)
Definition gpt_register_partitions (dev : block_device) (data : list Z) (ds : devices) : option (devices * bool) :=
  match ramdisk_read dev data 1 1 with
  | None => Some (ds, false)
  | Some header =>
      if negb (get64 header 0 =? GPT_SIGNATURE) then Some (ds, false)
      else
        let entry_lba := get64 header 72 in
        let count := get32 header 80 in
        let entry_size := get32 header 84 in
        if entry_size <? GPT_ENTRY_SIZE then Some (ds, false)
        else
          let per_sector := sector_size dev / entry_size in
          if per_sector =? 0 then None
          else
            let total := u32 (u32 (count + per_sector) - 1) / per_sector in
            match ramdisk_read dev data entry_lba total with
            | None => Some (ds, false)
            | Some table =>
                let '(ds', registered) :=
                  for_range (gpt_entry dev table entry_size) 0 (Z.to_nat count) (ds, 0) in
                Some (ds', 0 <? registered)
            end
  end.

Definition MBR_SIGNATURE : Z := 0xAA55.

Definition mbr_entry (dev : block_device) (mbr : list Z) (i : Z) (st : devices * Z) : devices * Z :=
  let entry := 446 + 16 * i in
  let ty := aget 0 mbr (entry + 4) in
  let start := get32 mbr (entry + 8) in
  let count := get32 mbr (entry + 12) in
  if (ty =? 0) || (count =? 0) then st
  else register_partition (partition dev i start count) st.

Definition mbr_register_partitions (dev : block_device) (data : list Z) (ds : devices) : devices * bool :=
  match ramdisk_read dev data 0 1 with
  | None => (ds, false)
  | Some mbr =>
      if negb (get16 mbr 510 =? MBR_SIGNATURE) then (ds, false)
      else let '(ds', registered) := for_range (mbr_entry dev mbr) 0 4 (ds, 0) in (ds', 0 <? registered)
  end.

(** ** The devices in memory satisfy the interface *)

(** The store as the device shows it: from its [lba_offset] on. *)
Definition mem_contents (d : mem_disk) : list Z :=
  drop (Z.to_nat (lba_offset (disk_dev d) * sector_size (disk_dev d))) (disk_data d).

Record mem_ok (d : mem_disk) : Prop := {
  mk_sector : 0 < sector_size (disk_dev d) < 2 ^ 16;
  mk_offset : 0 <= lba_offset (disk_dev d) < 2 ^ 40;
  mk_bytes : bytes_ok (disk_data d);
  mk_inside : lba_offset (disk_dev d) * sector_size (disk_dev d) <= Z.of_nat (length (disk_data d));
  mk_size : Z.of_nat (length (disk_data d)) < 2 ^ 63
}.

Section mem.
Context (d : mem_disk) (Hd : mem_ok d) (lba n : Z) (Hl : 0 <= lba < 2 ^ 32) (Hn : 0 <= n < 2 ^ 32).
Let ss := sector_size (disk_dev d).
Let off := lba_offset (disk_dev d).

(** No wrap-around for sectors below [2^32]. *)
Lemma request_offsets :
  u64 (u64 (off + lba) * ss) = off * ss + lba * ss /\ u64 (n * ss) = n * ss /\
  u64 (off * ss + lba * ss + n * ss) = off * ss + lba * ss + n * ss.
Proof.
  destruct Hd as [Hs Ho _ _ _]. fold ss in Hs. fold off in Ho.
  assert (0 <= off * ss < 2 ^ 56) by nia. assert (0 <= lba * ss < 2 ^ 48) by nia.
  assert (0 <= n * ss < 2 ^ 48) by nia.
  rewrite (u64_small (off + lba)) by lia. rewrite Z.mul_add_distr_r. rewrite !u64_small by lia. done.
Qed.

Lemma length_mem_contents :
  Z.of_nat (length (mem_contents d)) = Z.of_nat (length (disk_data d)) - off * ss.
Proof.
  destruct Hd as [Hs Ho _ Hi _]. unfold mem_contents. fold off ss in Hs, Ho, Hi |- *. rewrite length_drop.
  assert (0 <= off * ss) by nia. lia.
Qed.

Lemma ramdisk_read_spec :
  ramdisk_read (disk_dev d) (disk_data d) lba n =
    if (lba + n) * ss <=? Z.of_nat (length (mem_contents d))
    then Some (slice (lba * ss) (n * ss) (mem_contents d)) else None.
Proof.
  pose proof length_mem_contents as Hlen. destruct request_offsets as (E1 & E2 & E3).
  destruct Hd as [Hs Ho _ Hi _]. fold ss off in Hs, Ho, Hi, Hlen, E1, E2, E3 |- *. unfold ramdisk_read. fold ss off.
  cbv zeta. rewrite E1, E2, E3. assert (0 <= off * ss) by nia. assert (0 <= lba * ss) by nia.
  destruct (Z.ltb_spec (Z.of_nat (length (disk_data d))) (off * ss + lba * ss + n * ss));
    destruct (Z.leb_spec ((lba + n) * ss) (Z.of_nat (length (mem_contents d)))); try lia; [done|].
  f_equal. unfold slice, mem_contents. fold ss off. rewrite drop_drop. f_equal. f_equal. lia.
Qed.

Lemma ramdisk_write_spec buf : Z.of_nat (length buf) = n * ss ->
  ramdisk_write (disk_dev d) (disk_data d) lba n buf =
    if (lba + n) * ss <=? Z.of_nat (length (mem_contents d))
    then Some (write_at (disk_data d) (off * ss + lba * ss) buf) else None.
Proof.
  intros Hb. pose proof length_mem_contents as Hlen. destruct request_offsets as (E1 & E2 & E3).
  destruct Hd as [Hs Ho _ Hi _]. fold ss off in Hs, Ho, Hi, Hlen, E1, E2, E3 |- *. unfold ramdisk_write. fold ss off.
  cbv zeta. rewrite E1, E2, E3. assert (0 <= off * ss) by nia. assert (0 <= lba * ss) by nia.
  destruct (Z.ltb_spec (Z.of_nat (length (disk_data d))) (off * ss + lba * ss + n * ss));
    destruct (Z.leb_spec ((lba + n) * ss) (Z.of_nat (length (mem_contents d)))); try lia; [done|].
  by rewrite take_ge by lia.
Qed.

Lemma drop_write_at (data buf : list Z) (o o' : Z) :
  0 <= o -> 0 <= o' -> drop (Z.to_nat o) (write_at data (o + o') buf) = write_at (drop (Z.to_nat o) data) o' buf.
Proof.
  intros H1 H2. apply list_eq. intros i. rewrite lookup_drop, !write_at_lookup by lia.
  rewrite length_drop, lookup_drop. repeat case_decide; try lia; [|done]. f_equal. lia.
Qed.
End mem.

#[export] Instance mem_disk_laws : BlockDeviceLaws mem_disk.
Proof.
  refine {| contents := mem_contents; dev_ok := mem_ok |}.
  - intros d Hd. apply Hd.
  - intros d Hd. apply Forall_drop, Hd.
  - intros lba n d d' r Hd Hl Hn H. cbn in H. injection H as <- <-. split_and!; [done..|].
    intros buf E. rewrite ramdisk_read_spec in E by done.
    destruct (Z.leb_spec ((lba + n) * sector_size (disk_dev d)) (Z.of_nat (length (mem_contents d))));
      [|done]. injection E as <-. done.
  - intros lba n buf d d' ok Hd Hl Hn Hb Hbytes H. cbn in H, Hb.
    rewrite ramdisk_write_spec in H by done.
    destruct (Z.leb_spec ((lba + n) * sector_size (disk_dev d)) (Z.of_nat (length (mem_contents d))));
      injection H as <- <-; [|by split_and!].
    pose proof Hd as [Hs Ho Hb' Hi Hz].
    assert (0 <= lba * sector_size (disk_dev d)) by nia.
    assert (0 <= lba_offset (disk_dev d) * sector_size (disk_dev d)) by nia.
    split_and!; [|done|done|].
    + split; cbn [disk_dev disk_data]; rewrite ?length_write_at; [done..| |done|done].
      by apply bytes_write_at.
    + unfold mem_contents. cbn [disk_dev disk_data]. by apply drop_write_at.
  - done.
  - intros lba n buf d. cbn. by destruct (ramdisk_write _ _ _ _ _).
Defined.

#[export] Instance mem_disk_reliable : Reliable mem_disk.
Proof.
  split.
  - intros lba n d d' r Hd Hl Hn Hin H. cbn in H. injection H as <- <-.
    rewrite ramdisk_read_spec by done. cbn in Hin. by destruct (Z.leb_spec ((lba + n) * sector_size (disk_dev d))
      (Z.of_nat (length (mem_contents d)))); [|lia].
  - intros lba n buf d d' ok Hd Hl Hn Hin H. cbn in H, Hin. unfold ramdisk_write in H.
    pose proof (length_mem_contents d Hd) as Hlen. destruct (request_offsets d Hd lba n Hl Hn) as (E1 & E2 & E3).
    pose proof Hd as [Hs Ho _ Hi _]. cbv zeta in H. rewrite E1, E2, E3 in H.
    destruct (Z.ltb_spec (Z.of_nat (length (disk_data d)))
      (lba_offset (disk_dev d) * sector_size (disk_dev d) + lba * sector_size (disk_dev d)
        + n * sector_size (disk_dev d))); [lia|]. by injection H as _ <-.
Qed.
