(* ===== verification/Fat.v ===== *)
(** * The FAT driver (src/kernel/drivers/fs/fat/fat.c)

    Mounting, the file allocation table, directories with 8.3 names, opening,
    reading, writing and creating files, on any block device.

    The state is the device; what [fat_mount] stores in its [fat_fs] does not
    change afterwards.  A sector is read into an array of 512 bytes: a device
    with other sectors, and an access beyond the array, which a boot sector
    with more bytes per sector leads to, have no result, and neither has a
    division by a zero of the boot sector.  The loops along a chain of
    clusters do not end when the chain is a circle; [fuel] bounds their
    rounds. *)

From S2P Require Import Prelude Bytes StateMonad BlockDev.
#[local] Open Scope Z_scope.

Inductive fat_type := FAT_NONE | FAT12 | FAT16 | FAT32.
#[export] Instance fat_type_eq_dec : EqDecision fat_type.
Proof. solve_decision. Defined.

(** [struct fat_fs] without the device. *)
Record fat_fs := mkFat {
  ftype : fat_type; fat_start : Z; data_start : Z; root_dir : Z;
  root_cluster : Z; spc : Z; bps : Z; root_entries : Z
}.
(** [fat_file_t] without the file system. *)
Record fat_file := mkFatFile { cluster : Z; size : Z; pos : Z; dir_sector : Z; dir_offset : Z }.

Definition NONE : Z := 0xFFFFFFFF.
Definition SECTOR : Z := 512.
Definition DIR_ENTRY : Z := 32.

(** Fields of the boot sector and of a directory entry. *)
Definition bytes_per_sector (b : list Z) : Z := get16 b 11.
Definition sectors_per_cluster (b : list Z) : Z := aget 0 b 13.
Definition reserved_sectors (b : list Z) : Z := get16 b 14.
Definition fats (b : list Z) : Z := aget 0 b 16.
Definition bpb_root_entries (b : list Z) : Z := get16 b 17.
Definition total16 (b : list Z) : Z := get16 b 19.
Definition fat16_size (b : list Z) : Z := get16 b 22.
Definition total32 (b : list Z) : Z := get32 b 32.
Definition e_name (e : list Z) : list Z := slice 0 11 e.
Definition e_attr (e : list Z) : Z := aget 0 e 11.
Definition e_cluster_high (e : list Z) : Z := get16 e 20.
Definition e_cluster_low (e : list Z) : Z := get16 e 26.
Definition e_size (e : list Z) : Z := get32 e 28.

Definition fat_cluster_to_sector (fs : fat_fs) (c : Z) : Z :=
  if c <? 2 then 0 else u32 (data_start fs + (c - 2) * spc fs).

(** Characters of a component of the name, in upper case. *)
Definition to_upper (c : Z) : Z := if (97 <=? c) && (c <=? 122) then c - 32 else c.
Fixpoint name_part (dots : bool) (n : nat) (name : list Z) : list Z * list Z :=
  match n, name with
  | S n', c :: rest =>
      if (dots && (c =? 46)) || (c =? 47) then ([], name)
      else let '(part, tail) := name_part dots n' rest in (to_upper c :: part, tail)
  | _, _ => ([], name)
  end.
Definition pad (n : nat) (l : list Z) : list Z := l ++ replicate (n - length l) 32.
Definition fat_name_to_83 (name : list Z) : list Z :=
  let '(base, rest) := name_part true 8 name in
  let ext := match rest with c :: rest' => if c =? 46 then fst (name_part false 3 rest') else [] | [] => [] end in
  pad 8 base ++ pad 3 ext.

(** The next component of a path, at most 255 characters of it, and the rest
    behind one "/". *)
Fixpoint span_component (n : nat) (path : list Z) : list Z * list Z :=
  match n, path with
  | S n', c :: rest => if c =? 47 then ([], path) else let '(comp, tail) := span_component n' rest in (c :: comp, tail)
  | _, _ => ([], path)
  end.
Definition next_component (path : list Z) : list Z * list Z :=
  let '(comp, rest) := span_component 255 path in
  (comp, match rest with c :: rest' => if c =? 47 then rest' else rest | [] => [] end).
Definition skip_slash (path : list Z) : list Z :=
  match path with c :: rest => if c =? 47 then rest else path | [] => [] end.

Section fat.
Context {D : Type} `{!BlockDevice D}.

(** [dev->read(dev, lba, 1, sector)] and [dev->write]. *)
Definition read_sector (lba : Z) : M D (option (list Z)) := fun d =>
  if negb (dev_sector_size d =? SECTOR) then None
  else let '(d', r) := dev_read lba 1 d in Some (r, d').
Definition write_sector (lba : Z) (buf : list Z) : M D bool := fun d =>
  let '(d', ok) := dev_write lba 1 buf d in Some (ok, d').
(** An access of [n] bytes at [off] in the array. *)
Definition in_sector {A} (off n : Z) (k : M D A) : M D A := if off + n <=? SECTOR then k else diverge.

(** ** Mounting *)
Definition fat_mount : M D (option fat_fs) :=
  let* r := read_sector 0 in
  match r with
  | None => ret None
  | Some b =>
      let bps := bytes_per_sector b in
      let spc := sectors_per_cluster b in
      let total_sectors := if negb (total16 b =? 0) then total16 b else total32 b in
      let fat32 := fat16_size b =? 0 in
      let fat_size := if fat32 then get32 b 36 else fat16_size b in
      if (bps =? 0) || (spc =? 0) then diverge
      else
        let root_dir_sectors := u32 (u32 (bpb_root_entries b * 32) + u32 (bps - 1)) / bps in
        let fat_start := reserved_sectors b in
        let root_dir := u32 (fat_start + u32 (fats b * fat_size)) in
        let data_start := u32 (root_dir + root_dir_sectors) in
        let clusters := u32 (total_sectors - data_start) / spc in
        let ty := if fat32 then FAT32 else if clusters <? 4085 then FAT12 else FAT16 in
        ret (Some (mkFat ty fat_start data_start root_dir (if fat32 then get32 b 44 else 0) spc bps (bpb_root_entries b)))
  end.

Context (fs : fat_fs).

(** ** The table *)

Definition fat_sector (fat_offset : Z) : Z := u32 (fat_start fs + fat_offset / bps fs).

(** One entry of 2 or 4 bytes of the table, or 0 when the read fails. *)
Definition read_entry (fat_offset : Z) (wide : bool) : M D Z :=
  let* r := read_sector (fat_sector fat_offset) in
  match r with
  | None => ret 0
  | Some sector =>
      let o := fat_offset mod bps fs in
      if wide then in_sector o 4 (ret (Z.land (get32 sector o) 0x0FFFFFFF)) else in_sector o 2 (ret (get16 sector o))
  end.

Definition fat_get_next_cluster (c : Z) : M D Z :=
  match ftype fs with
  | FAT12 =>
      let fat_offset := u32 (c + c / 2) in
      let o := fat_offset mod bps fs in
      let* next :=
        (if o =? bps fs - 1 then
           let* r := read_sector (fat_sector fat_offset) in
           match r with
           | None => ret None
           | Some sector =>
               let* r2 := read_sector (u32 (fat_sector fat_offset + 1)) in
               match r2 with
               | None => ret None
               | Some sector2 => in_sector o 1 (ret (Some (Z.lor (aget 0 sector o) (Z.shiftl (aget 0 sector2 0) 8))))
               end
           end
         else
           let* r := read_sector (fat_sector fat_offset) in
           match r with
           | None => ret None
           | Some sector => in_sector o 2 (ret (Some (get16 sector o)))
           end) in
      match next with
      | None => ret 0
      | Some v =>
          let v := if negb (Z.land c 1 =? 0) then Z.shiftr v 4 else Z.land v 0x0FFF in
          ret (if 0x0FF8 <=? v then NONE else v)
      end
  | FAT16 => let* v := read_entry (u32 (c * 2)) false in ret (if 0xFFF8 <=? v then NONE else v)
  | _ => let* v := read_entry (u32 (c * 4)) true in ret (if 0x0FFFFFF8 <=? v then NONE else v)
  end.

(** One round of the search; the table is given by its type. *)
Definition free_step (c : Z) : M D (option Z) :=
  match ftype fs with
  | FAT16 | FAT32 =>
      let wide := bool_decide (ftype fs = FAT32) in
      let fat_offset := u32 (c * (if wide then 4 else 2)) in
      let* r := read_sector (fat_sector fat_offset) in
      match r with
      | None => ret (Some NONE)
      | Some sector =>
          let o := fat_offset mod bps fs in
          in_sector o (if wide then 4 else 2)
            (ret (if (if wide then Z.land (get32 sector o) 0x0FFFFFFF else get16 sector o) =? 0 then Some c else None))
      end
  | _ => ret (Some NONE)
  end.
Fixpoint free_loop (n : nat) (c : Z) : M D Z :=
  match n with
  | O => ret NONE
  | S n' =>
      let* r := free_step c in
      match r with
      | Some v => ret v
      | None => free_loop n' (c + 1)
      end
  end.
Definition fat_find_free_cluster : M D Z :=
  let* d := gets id in
  let total_clusters := u32 (u32 (dev_sector_count d) - data_start fs) / spc fs in
  free_loop (Z.to_nat (u32 (total_clusters + 2) - 2)) 2.

Definition fat_set_fat_entry (c next : Z) : M D bool :=
  match ftype fs with
  | FAT16 | FAT32 =>
      let wide := bool_decide (ftype fs = FAT32) in
      let fat_offset := u32 (c * (if wide then 4 else 2)) in
      let* r := read_sector (fat_sector fat_offset) in
      match r with
      | None => ret false
      | Some sector =>
          let o := fat_offset mod bps fs in
          let bytes := if wide then le32 (Z.land next 0x0FFFFFFF) else le16 (Z.land next 0xFFFF) in
          in_sector o (if wide then 4 else 2) (write_sector (fat_sector fat_offset) (write_at sector o bytes))
      end
  | _ => ret false
  end.

(** ** Directories *)

Definition entry_at (sector : list Z) (i : Z) : list Z := slice (i * DIR_ENTRY) DIR_ENTRY sector.
Definition entries_per_sector : Z := bps fs / DIR_ENTRY.

(** The first entry of a sector with a property. *)
Definition find_entry (p : list Z -> bool) (sector : list Z) : option Z :=
  find_first (fun i => p (entry_at sector i)) 0 (Z.to_nat entries_per_sector).
Definition ends_dir (e : list Z) : bool := aget 0 e 0 =? 0.
Definition matches (fat_name e : list Z) : bool :=
  negb (aget 0 e 0 =? 0xE5) && (Z.land (e_attr e) 0x08 =? 0) && bool_decide (e_name e = fat_name).
Definition is_free (e : list Z) : bool := (aget 0 e 0 =? 0) || (aget 0 e 0 =? 0xE5).

(** Where an entry was found. *)
Definition place : Type := list Z * Z * Z.

(** Search one sector: [Some None]: the search is over, without success. *)
Definition search_sector (fat_name : list Z) (lba : Z) : M D (option (option place)) :=
  let* r := read_sector lba in
  match r with
  | None => ret (Some None)
  | Some sector =>
      in_sector 0 (entries_per_sector * DIR_ENTRY)
        (ret (match find_entry (fun e => ends_dir e || matches fat_name e) sector with
              | None => None
              | Some i =>
                  if ends_dir (entry_at sector i) then Some None
                  else Some (Some (entry_at sector i, lba, i * DIR_ENTRY))
              end))
  end.

(** Along the chain of a directory: run [step] on its sectors. *)
Fixpoint along_chain {A} (step : Z -> M D (option A)) (fuel : nat) (c : Z) : M D (option A) :=
  match fuel with
  | O => diverge
  | S fuel' =>
      if (c =? NONE) || (c <? 2) then ret None
      else
        let sector_num := fat_cluster_to_sector fs c in
        let* r := for_each (fun sec => step (u32 (sector_num + sec))) (seqZ 0 (spc fs)) in
        match r with
        | Some x => ret (Some x)
        | None => let* next := fat_get_next_cluster c in along_chain step fuel' next
        end
  end.
Definition join {A} (r : option (option A)) : option A := match r with Some x => x | None => None end.

Definition fat_search_dir_cluster (fuel : nat) (dir_cluster : Z) (fat_name : list Z) : M D (option place) :=
  let* r := along_chain (search_sector fat_name) fuel dir_cluster in ret (join r).
Definition root_sectors : Z := u32 (u32 (root_entries fs * 32) + u32 (bps fs - 1)) / bps fs.
Definition fat_search_root_fixed (fat_name : list Z) : M D (option place) :=
  let* r := for_each (fun s => search_sector fat_name (u32 (root_dir fs + s))) (seqZ 0 root_sectors) in ret (join r).

Definition is_fat32 : bool := bool_decide (ftype fs = FAT32).
Definition first_dir : Z := if is_fat32 then root_cluster fs else 0.
Definition search_dir (fuel : nat) (is_root : bool) (dir : Z) (fat_name : list Z) : M D (option place) :=
  if is_root && negb is_fat32 then fat_search_root_fixed fat_name else fat_search_dir_cluster fuel dir fat_name.
Definition entry_cluster (e : list Z) : Z :=
  if is_fat32 then Z.lor (e_cluster_low e) (u32 (Z.shiftl (e_cluster_high e) 16)) else e_cluster_low e.
Definition is_directory (e : list Z) : bool := negb (Z.land (e_attr e) 0x10 =? 0).

(** The loop of [fat_open]; every round takes a character of the path. *)
Fixpoint open_loop (rounds fuel : nat) (path : list Z) (dir : Z) (is_root : bool) : M D (option fat_file) :=
  match rounds, path with
  | O, _ | _, [] => ret None
  | S rounds', _ =>
      let '(comp, rest) := next_component path in
      if bool_decide (comp = []) then open_loop rounds' fuel rest dir is_root
      else
        let* found := search_dir fuel is_root dir (fat_name_to_83 comp) in
        match found with
        | None => ret None
        | Some (e, sector, offset) =>
            if negb (bool_decide (rest = [])) then
              if negb (is_directory e) then ret None else open_loop rounds' fuel rest (entry_cluster e) false
            else ret (Some (mkFatFile (entry_cluster e) (e_size e) 0 sector offset))
        end
  end.
Definition fat_open (fuel : nat) (path : list Z) : M D (option fat_file) :=
  let p := skip_slash path in open_loop (length p) fuel p first_dir true.

(** ** Reading *)

(** Follow the chain; [None]: it ends before. *)
Fixpoint skip_clusters (n : nat) (c : Z) : M D (option Z) :=
  match n with
  | O => ret (Some c)
  | S n' => let* next := fat_get_next_cluster c in if next =? NONE then ret None else skip_clusters n' next
  end.

(** The bytes read so far; [c] is the current cluster, [off] the offset in
    it and [bytes] what is left. *)
Fixpoint read_loop (fuel : nat) (c off bytes : Z) (got : list Z) : M D (list Z) :=
  match fuel with
  | O => diverge
  | S fuel' =>
      if negb (0 <? bytes) || (c =? NONE) then ret got
      else
        let sector_in_cluster := off / bps fs in
        let offset_in_sector := off mod bps fs in
        if spc fs <=? sector_in_cluster then
          let* next := fat_get_next_cluster c in
          if next =? NONE then ret got else read_loop fuel' next 0 bytes got
        else
          let* r := read_sector (u32 (fat_cluster_to_sector fs c + sector_in_cluster)) in
          match r with
          | None => ret got
          | Some sector =>
              let to_copy := Z.min (bps fs - offset_in_sector) bytes in
              in_sector offset_in_sector to_copy
                (read_loop fuel' c (u32 (off + to_copy)) (bytes - to_copy) (got ++ slice offset_in_sector to_copy sector))
          end
  end.

Definition moved (n : Z) (f : fat_file) : fat_file :=
  mkFatFile (cluster f) (size f) (u32 (pos f + n)) (dir_sector f) (dir_offset f).

(** The bytes stored in the buffer, and the file. *)
Definition fat_read (fuel : nat) (file : fat_file) (bytes : Z) : M D (list Z * fat_file) :=
  let left := if size file <? u32 (pos file + bytes) then u32 (size file - pos file) else bytes in
  if (bytes =? 0) || (left =? 0) then ret ([], file)
  else
    let per := u32 (spc fs * bps fs) in
    let* c := skip_clusters (Z.to_nat (pos file / per)) (cluster file) in
    match c with
    | None => ret ([], file)
    | Some c =>
        let* got := read_loop fuel c (pos file mod per) left [] in
        ret (got, moved (Z.of_nat (length got)) file)
    end.

(** ** Creating *)

(** The stores of a new entry. *)
Definition new_entry (fat_name e : list Z) : list Z :=
  write_at (write_at (write_at (write_at (write_at e 0 fat_name) 11 [0x20]) 28 (le32 0)) 26 (le16 0)) 20 (le16 0).

(** Search a sector for a free entry. *)
Definition free_in_sector (lba : Z) : M D (option (option (Z * Z))) :=
  let* r := read_sector lba in
  match r with
  | None => ret (Some None)
  | Some sector =>
      in_sector 0 (entries_per_sector * DIR_ENTRY)
        (ret (match find_entry is_free sector with Some i => Some (Some (lba, i * DIR_ENTRY)) | None => None end))
  end.
Definition fat_find_free_entry_in_cluster (fuel : nat) (dir_cluster : Z) : M D (option (Z * Z)) :=
  let* r := along_chain free_in_sector fuel dir_cluster in ret (join r).

(** Read the sector, store the entry, write the sector. *)
Definition put_new_entry (fat_name : list Z) (lba offset : Z) : M D (option fat_file) :=
  let* r := read_sector lba in
  match r with
  | None => ret None
  | Some sector =>
      let* ok := write_sector lba (write_at sector offset (new_entry fat_name (slice offset DIR_ENTRY sector))) in
      ret (if ok then Some (mkFatFile 0 0 0 lba offset) else None)
  end.

(** The same for the fixed root directory, where the sector is at hand. *)
Definition create_in_root (fat_name : list Z) (lba : Z) : M D (option (option fat_file)) :=
  let* r := read_sector lba in
  match r with
  | None => ret (Some None)
  | Some sector =>
      in_sector 0 (entries_per_sector * DIR_ENTRY)
        match find_entry is_free sector with
        | None => ret None
        | Some i =>
            let* ok := write_sector lba (write_at sector (i * DIR_ENTRY) (new_entry fat_name (entry_at sector i))) in
            ret (Some (if ok then Some (mkFatFile 0 0 0 lba (i * DIR_ENTRY)) else None))
        end
  end.

(** The directory of a path, by the loop of [fat_create]. *)
Fixpoint dir_loop (rounds fuel : nat) (path : list Z) (dir : Z) (is_root : bool) : M D (option (Z * bool)) :=
  match rounds, path with
  | O, _ | _, [] => ret (Some (dir, is_root))
  | S rounds', _ =>
      let '(comp, rest) := next_component path in
      if bool_decide (comp = []) then dir_loop rounds' fuel rest dir is_root
      else
        let* found := search_dir fuel is_root dir (fat_name_to_83 comp) in
        match found with
        | None => ret None
        | Some (e, _, _) =>
            if negb (is_directory e) then ret None else dir_loop rounds' fuel rest (entry_cluster e) false
        end
  end.

(** Up to the last "/", and behind it. *)
Fixpoint split_last (name : list Z) : option (list Z * list Z) :=
  match name with
  | [] => None
  | c :: rest =>
      match split_last rest with
      | Some (dir, file) => Some (c :: dir, file)
      | None => if c =? 47 then Some ([], rest) else None
      end
  end.

(** [dir_path] is an array of 256 bytes. *)
Definition fat_create (fuel : nat) (name : list Z) : M D (option fat_file) :=
  let name := skip_slash name in
  let '(dir_path, filename) := match split_last name with Some x => x | None => ([], name) end in
  if 256 <=? Z.of_nat (length dir_path) then diverge
  else
    let* dir := dir_loop (length dir_path) fuel dir_path first_dir true in
    match dir with
    | None => ret None
    | Some (dir, is_root) =>
        let fat_name := fat_name_to_83 filename in
        if is_root && negb is_fat32 then
          let* r := for_each (fun s => create_in_root fat_name (u32 (root_dir fs + s))) (seqZ 0 root_sectors) in
          ret (join r)
        else
          let* found := fat_find_free_entry_in_cluster fuel dir in
          match found with
          | None => ret None
          | Some (lba, offset) => put_new_entry fat_name lba offset
          end
    end.

(** ** Writing *)

Definition fat_sync_dir_entry (f : fat_file) : M D bool :=
  let* r := read_sector (dir_sector f) in
  match r with
  | None => ret false
  | Some sector =>
      let s1 := write_at sector (dir_offset f + 28) (le32 (size f)) in
      let s2 := write_at s1 (dir_offset f + 26) (le16 (Z.land (cluster f) 0xFFFF)) in
      let s3 := if is_fat32 then write_at s2 (dir_offset f + 20) (le16 (Z.land (Z.shiftr (cluster f) 16) 0xFFFF)) else s2 in
      in_sector (dir_offset f) DIR_ENTRY (write_sector (dir_sector f) s3)
  end.

(** The cluster after [c], appended to the chain when there is none. *)
Definition next_or_new (c : Z) : M D Z :=
  let* n := fat_get_next_cluster c in
  if negb (n =? NONE) then ret n
  else
    let* n := fat_find_free_cluster in
    if n =? NONE then ret NONE
    else
      do* fat_set_fat_entry c n in
      do* fat_set_fat_entry n NONE in
      ret n.
Fixpoint skip_or_extend (n : nat) (c : Z) : M D Z :=
  match n with
  | O => ret c
  | S n' => let* next := next_or_new c in if next =? NONE then ret c else skip_or_extend n' next
  end.

Definition with_pos (p : Z) (f : fat_file) : fat_file :=
  mkFatFile (cluster f) (if size f <? p then p else size f) p (dir_sector f) (dir_offset f).

(** The loop: what is left of the buffer, and how much is written. *)
Fixpoint write_loop (fuel : nat) (per c : Z) (src : list Z) (written : Z) (f : fat_file) : M D (Z * fat_file) :=
  match fuel with
  | O => diverge
  | S fuel' =>
      if bool_decide (src = []) then ret (written, f)
      else
        let off := pos f mod per in
        let within := off mod bps fs in
        let lba := u32 (fat_cluster_to_sector fs c + off / bps fs) in
        let* r := read_sector lba in
        match r with
        | None => ret (written, f)
        | Some sector =>
            let n := Z.min (bps fs - within) (Z.of_nat (length src)) in
            in_sector within n (
              let* ok := write_sector lba (write_at sector within (take (Z.to_nat n) src)) in
              if negb ok then ret (written, f)
              else
                let f1 := with_pos (u32 (pos f + n)) f in
                let src1 := drop (Z.to_nat n) src in
                if (pos f1 mod per =? 0) && negb (bool_decide (src1 = [])) then
                  let* nx := next_or_new c in
                  if nx =? NONE then ret (u32 (written + n), f1)
                  else write_loop fuel' per nx src1 (u32 (written + n)) f1
                else write_loop fuel' per c src1 (u32 (written + n)) f1)
        end
  end.

Definition with_cluster (c : Z) (f : fat_file) : fat_file := mkFatFile c (size f) (pos f) (dir_sector f) (dir_offset f).

Definition fat_write (fuel : nat) (f : fat_file) (buf : list Z) : M D (Z * fat_file) :=
  if bool_decide (buf = []) then ret (0, f)
  else
    let per := u32 (spc fs * bps fs) in
    let* c :=
      (if cluster f =? 0 then
         let* c := fat_find_free_cluster in
         if c =? NONE then ret None
         else do* fat_set_fat_entry c NONE in ret (Some c)
       else ret (Some (cluster f))) in
    match c with
    | None => ret (0, f)
    | Some c =>
        let f1 := with_cluster c f in
        let* cur := skip_or_extend (Z.to_nat (pos f1 / per)) c in
        let* (written, f2) := write_loop fuel per cur buf 0 f1 in
        do* fat_sync_dir_entry f2 in
        ret (written, f2)
    end.
End fat.
