(* ===== verification/FatFacts.v ===== *)
(** * The FAT driver: what it promises

    The table of a FAT16 or FAT32 volume refines a function from clusters to
    successors ([table], [fat_link_roundtrip]); reading a file gives the bytes
    of its chain of clusters ([fat_read_spec]); the search for a free cluster
    finds the lowest one. *)

From S2P Require Import Prelude Bytes StateMonad BlockDev Fat.
#[local] Open Scope Z_scope.

Lemma get16_land v : 0 <= v < 2 ^ 16 -> Z.land v 0xFFFF = v.
Proof. intros Hv. change 0xFFFF with (2 ^ 16 - 1). rewrite land_ones_mod by lia. apply Z.mod_small. lia. Qed.
Lemma get32_land v : 0 <= v < 2 ^ 28 -> Z.land v 0x0FFFFFFF = v.
Proof. intros Hv. change 0x0FFFFFFF with (2 ^ 28 - 1). rewrite land_ones_mod by lia. apply Z.mod_small. lia. Qed.

(** Changing a part of a sector of the contents. *)
Lemma write_sector_part buf off bytes o n :
  0 <= off -> 0 <= o -> 0 <= n -> off + n <= Z.of_nat (length buf) -> o + Z.of_nat (length bytes) <= n ->
  write_at buf off (write_at (slice off n buf) o bytes) = write_at buf (off + o) bytes.
Proof.
  intros Ho1 Ho2 Hn Hlen Hb. apply list_eq. intros i.
  pose proof (length_slice buf off n Ho1 Hn Hlen) as Hs.
  rewrite !write_at_lookup, !length_write_at, Hs by lia. unfold slice.
  repeat case_decide; try lia.
  - f_equal. lia.
  - rewrite lookup_take_lt by lia. rewrite lookup_drop. f_equal. lia.
  - done.
Qed.

Section fat.
Context {D : Type} `{!BlockDevice D} `{!BlockDeviceLaws D} `{!Reliable D}.
Context (fs : fat_fs).

(** A device with the sectors the driver supports. *)
Definition disk_ok (d : D) : Prop := dev_ok d /\ dev_sector_size d = SECTOR.
(** The disk [d] has become [d'], with these contents. *)
Definition becomes (d : D) (bytes : list Z) (d' : D) : Prop :=
  disk_ok d' /\ contents d' = bytes /\ dev_sector_count d' = dev_sector_count d.

Lemma becomes_trans d0 d bytes' d' :
  becomes d bytes' d' -> dev_sector_count d = dev_sector_count d0 -> becomes d0 bytes' d'.
Proof. intros (H1 & H2 & H3) H. split_and!; [done..|by rewrite H3]. Qed.

Lemma wp_read_sector (Q : option (list Z) -> D -> Prop) d lba :
  disk_ok d -> 0 <= lba < 2 ^ 32 -> (lba + 1) * SECTOR <= Z.of_nat (length (contents d)) ->
  (forall d', becomes d (contents d) d' -> Q (Some (slice (lba * SECTOR) SECTOR (contents d))) d') ->
  wp (read_sector lba) Q d.
Proof.
  intros [Hd Hs] Hl Hin HQ. unfold wp, read_sector. rewrite Hs, !Z.eqb_refl. cbn [negb].
  destruct (dev_read lba 1 d) as [d' r] eqn:E.
  pose proof (law_read lba 1 d d' r Hd Hl ltac:(lia) E) as (Hok & Hss & Hc & Hr).
  assert (r <> None) as Hsome by (apply (read_goes_through lba 1 d d' r); [done|done|lia|by rewrite Hs|done]).
  destruct r as [b|]; [|done]. destruct (Hr b eq_refl) as [_ ->]. rewrite Hs, Z.mul_1_l.
  apply HQ. split_and!; [by split; [|rewrite Hss]|done|]. pose proof (law_read_count lba 1 d) as Hn. by rewrite E in Hn.
Qed.

Lemma wp_write_sector (Q : bool -> D -> Prop) d lba buf :
  disk_ok d -> 0 <= lba < 2 ^ 32 -> (lba + 1) * SECTOR <= Z.of_nat (length (contents d)) ->
  Z.of_nat (length buf) = SECTOR -> bytes_ok buf ->
  (forall d', becomes d (write_at (contents d) (lba * SECTOR) buf) d' -> Q true d') ->
  wp (write_sector lba buf) Q d.
Proof.
  intros [Hd Hs] Hl Hin Hb Hbytes HQ. unfold wp, write_sector.
  destruct (dev_write lba 1 buf d) as [d' r] eqn:E.
  assert (r = true) as -> by (apply (write_goes_through lba 1 buf d d' r); [done|done|lia|by rewrite Hs|done]).
  assert (Z.of_nat (length buf) = 1 * dev_sector_size d) as Hb1 by (rewrite Hs; lia).
  pose proof (law_write lba 1 buf d d' true Hd Hl ltac:(lia) Hb1 Hbytes E) as (Hok & Hss & _ & Hc).
  apply HQ. split_and!; [by split; [|rewrite Hss]|by rewrite Hc, Hs|].
  pose proof (law_write_count lba 1 buf d) as Hn. by rewrite E in Hn.
Qed.

(** Writing back a sector of which a part has changed. *)
Lemma wp_update_sector (Q : bool -> D -> Prop) d lba o bytes :
  disk_ok d -> 0 <= lba < 2 ^ 32 -> (lba + 1) * SECTOR <= Z.of_nat (length (contents d)) ->
  0 <= o -> o + Z.of_nat (length bytes) <= SECTOR -> bytes_ok bytes ->
  (forall d', becomes d (write_at (contents d) (lba * SECTOR + o) bytes) d' -> Q true d') ->
  wp (write_sector lba (write_at (slice (lba * SECTOR) SECTOR (contents d)) o bytes)) Q d.
Proof.
  intros Hd Hl Hin Ho1 Ho2 Hbytes HQ. pose proof (law_contents d (proj1 Hd)) as Hall.
  assert (length (slice (lba * SECTOR) SECTOR (contents d)) = Z.to_nat SECTOR) as Hsec
    by (apply length_slice; unfold SECTOR in *; lia).
  apply wp_write_sector; [done|done|done|by rewrite length_write_at, Hsec| |].
  - by apply bytes_write_at; [apply bytes_slice|].
  - intros d' Hd'. apply HQ. by rewrite write_sector_part in Hd' by (unfold SECTOR in *; lia).
Qed.

(** ** The table *)

(** Its type, and the geometry the accesses rely on. *)
Record geometry : Prop := {
  g_type : ftype fs = FAT16 \/ ftype fs = FAT32;
  g_bps : bps fs = SECTOR;
  g_spc : 0 < spc fs < 256;
  g_start : 0 <= fat_start fs < 2 ^ 16;
  g_data : 0 <= data_start fs < 2 ^ 32
}.
Context (Hg : geometry).

Definition width : Z := if is_fat32 fs then 4 else 2.
Definition end_mark : Z := if is_fat32 fs then 0x0FFFFFF8 else 0xFFF8.
(** The entry of a cluster. *)
Definition table_offset (c : Z) : Z := fat_start fs * SECTOR + c * width.
Definition table (bytes : list Z) (c : Z) : Z :=
  if is_fat32 fs then Z.land (get32 bytes (table_offset c)) 0x0FFFFFFF else get16 bytes (table_offset c).
Definition successor (bytes : list Z) (c : Z) : Z :=
  if end_mark <=? table bytes c then NONE else table bytes c.
(** The sector of the entry is on the disk. *)
Definition in_table (bytes : list Z) (c : Z) : Prop :=
  0 <= c < 2 ^ 28 /\ (fat_start fs + c * width / SECTOR + 1) * SECTOR <= Z.of_nat (length bytes).

Lemma width_cases : (ftype fs = FAT16 /\ is_fat32 fs = false /\ width = 2) \/ (ftype fs = FAT32 /\ is_fat32 fs = true /\ width = 4).
Proof using Hg. unfold width, is_fat32. destruct (g_type Hg) as [-> | ->]; [left|right]; by rewrite ?bool_decide_eq_true_2, ?bool_decide_eq_false_2 by done. Qed.

(** The sector of an entry, and the entry in the sector. *)
Lemma entry_place bytes c : in_table bytes c ->
  u32 (c * width) = c * width /\
  fat_sector fs (c * width) = fat_start fs + c * width / SECTOR /\ 0 <= fat_sector fs (c * width) < 2 ^ 32 /\
  0 <= (c * width) mod SECTOR /\ (c * width) mod SECTOR + width <= SECTOR /\
  fat_sector fs (c * width) * SECTOR + (c * width) mod SECTOR = table_offset c.
Proof using Hg.
  intros [Hc Hin]. pose proof (g_start Hg) as Hs. unfold fat_sector, table_offset. rewrite (g_bps Hg).
  assert (width = 2 \/ width = 4) as Hw by (destruct width_cases as [(_ & _ & ->)|(_ & _ & ->)]; auto).
  unfold SECTOR. rewrite (u32_small (c * width)) by nia.
  assert (0 <= fat_start fs + c * width / 512 < 2 ^ 32) as Hr by (destruct Hw as [-> | ->]; zdiv_lia).
  rewrite u32_small by done. split_and!; try lia; destruct Hw as [-> | ->]; zdiv_lia.
Qed.

Lemma wp_fat_get_next_cluster (Q : Z -> D -> Prop) d c :
  disk_ok d -> in_table (contents d) c ->
  (forall d', becomes d (contents d) d' -> Q (successor (contents d) c) d') ->
  wp (fat_get_next_cluster fs c) Q d.
Proof using Hg Reliable0.
  intros Hd Hc HQ. destruct (entry_place _ _ Hc) as (E1 & E2 & Hr & Ho1 & Ho2 & E3). destruct Hc as [Hc Hin].
  unfold fat_get_next_cluster, read_entry, successor, table, end_mark in *. rewrite <- E3 in HQ.
  destruct width_cases as [(Ht & Hf & Hw)|(Ht & Hf & Hw)]; rewrite Ht, Hw in *; rewrite Hf in HQ; rewrite E1;
    rewrite (g_bps Hg); wp_steps; apply wp_read_sector; try done; try (rewrite E2; lia).
  - intros d' Hd'. unfold in_sector. destruct (Z.leb_spec ((c * 2) mod SECTOR + 2) SECTOR); [|lia]. wp_steps.
    rewrite get16_slice by (unfold SECTOR in *; lia). by apply HQ.
  - intros d' Hd'. unfold in_sector. destruct (Z.leb_spec ((c * 4) mod SECTOR + 4) SECTOR); [|lia]. wp_steps.
    rewrite get32_slice by (unfold SECTOR in *; lia). by apply HQ.
Qed.

(** The bytes of an entry. *)
Definition entry_bytes (next : Z) : list Z :=
  if is_fat32 fs then le32 (Z.land next 0x0FFFFFFF) else le16 (Z.land next 0xFFFF).

Lemma wp_fat_set_fat_entry (Q : bool -> D -> Prop) d c next :
  disk_ok d -> in_table (contents d) c ->
  (forall d', becomes d (write_at (contents d) (table_offset c) (entry_bytes next)) d' -> Q true d') ->
  wp (fat_set_fat_entry fs c next) Q d.
Proof using Hg Reliable0.
  intros Hd Hc HQ. destruct (entry_place _ _ Hc) as (E1 & E2 & Hr & Ho1 & Ho2 & E3). destruct Hc as [Hc Hin].
  unfold fat_set_fat_entry, entry_bytes in *. rewrite <- E3 in HQ.
  destruct width_cases as [(Ht & Hf & Hw)|(Ht & Hf & Hw)]; rewrite Ht, Hw in *; rewrite Hf in HQ;
    [rewrite bool_decide_eq_false_2 by done|rewrite bool_decide_eq_true_2 by done];
    cbv zeta; rewrite E1, (g_bps Hg); wp_steps; (apply wp_read_sector; [done|done|rewrite E2; lia|]);
    intros d1 (Hd1 & Hc1 & Hn1); rewrite <- Hc1 in HQ |- *; unfold in_sector.
  - destruct (Z.leb_spec ((c * 2) mod SECTOR + 2) SECTOR); [|lia].
    apply wp_update_sector; [done|done|rewrite Hc1, E2; lia|done|rewrite length_le16; lia|apply bytes_le16|].
    intros d' Hd'. by apply HQ, (becomes_trans d d1).
  - destruct (Z.leb_spec ((c * 4) mod SECTOR + 4) SECTOR); [|lia].
    apply wp_update_sector; [done|done|rewrite Hc1, E2; lia|done|rewrite length_le32; lia|apply bytes_le32|].
    intros d' Hd'. by apply HQ, (becomes_trans d d1).
Qed.

(** What an entry of the table can hold. *)
Definition link_ok (next : Z) : Prop := 0 <= next < end_mark \/ next = NONE.

(** The table after a store of an entry. *)
Lemma successor_put bytes c next c' :
  in_table bytes c -> in_table bytes c' -> link_ok next ->
  successor (write_at bytes (table_offset c) (entry_bytes next)) c' = if decide (c' = c) then next else successor bytes c'.
Proof using Hg.
  intros Hc Hc' Hn.
  destruct (entry_place _ _ Hc) as (_ & Ea & Hr & Ho1 & Ho2 & Eo). destruct (entry_place _ _ Hc') as (_ & _ & Hr' & Ho1' & Ho2' & Eo').
  destruct Hc as [Hc Hin], Hc' as [Hc' Hin'].
  assert (0 <= table_offset c /\ table_offset c + width <= Z.of_nat (length bytes)) as [Hp1 Hp2]
    by (unfold SECTOR in *; lia).
  assert (table_offset c' = table_offset c + (c' - c) * width) as Ed by (unfold table_offset; lia).
  unfold successor, table, entry_bytes, link_ok, end_mark in *.
  destruct width_cases as [(Ht & Hf & Hw)|(Ht & Hf & Hw)]; rewrite Hf, Hw in *; destruct (decide (c' = c)) as [->|Hne].
  - rewrite get16_write_at_in, Z.sub_diag by (rewrite ?length_le16; lia).
    destruct Hn as [Hn | ->]; [|done]. rewrite get16_land, get16_le16 by lia. by destruct (Z.leb_spec 0xFFF8 next); [lia|].
  - by rewrite get16_write_at_out by (rewrite ?length_le16; lia).
  - rewrite get32_write_at_in, Z.sub_diag by (rewrite ?length_le32; lia).
    destruct Hn as [Hn | ->]; [|done].
    rewrite (get32_land next), get32_le32, get32_land by lia. by destruct (Z.leb_spec 0x0FFFFFF8 next); [lia|].
  - by rewrite get32_write_at_out by (rewrite ?length_le32; lia).
Qed.

(** A store of an entry is read back, and is the only change of the disk. *)
Lemma fat_link_roundtrip d c next :
  disk_ok d -> in_table (contents d) c -> link_ok next ->
  wp (fat_set_fat_entry fs c next) (fun ok d' =>
    ok = true /\ disk_ok d' /\ contents d' = write_at (contents d) (table_offset c) (entry_bytes next) /\
    wp (fat_get_next_cluster fs c) (fun v _ => v = next) d' /\
    forall c', c' <> c -> in_table (contents d) c' -> successor (contents d') c' = successor (contents d) c') d.
Proof using Hg Reliable0.
  intros Hd Hc Hn. apply wp_fat_set_fat_entry; [done..|]. intros d' (Hd' & Hc' & _). split_and!; [done..| |].
  - apply wp_fat_get_next_cluster; [done| |].
    + unfold in_table. by rewrite Hc', length_write_at.
    + intros d2 _. rewrite Hc', successor_put by done. by rewrite decide_True.
  - intros c' Hne Hin. rewrite Hc', successor_put by done. by rewrite decide_False.
Qed.

(** ** Free clusters *)

(** The number of clusters the search looks at. *)
Definition clusters (d : D) : Z := u32 (u32 (dev_sector_count d) - data_start fs) / spc fs.

Lemma wp_free_loop (Q : Z -> D -> Prop) d0 bytes n : forall c d,
  becomes d0 bytes d -> (forall k, c <= k < c + Z.of_nat n -> in_table bytes k) ->
  (forall d' v, becomes d0 bytes d' ->
     match find_first (fun k => table bytes k =? 0) c n with Some k => v = k | None => v = NONE end -> Q v d') ->
  wp (free_loop fs n c) Q d.
Proof using Hg Reliable0.
  induction n as [|n IH]; intros c d Hb Hin HQ; cbn [free_loop find_first] in *; [by apply HQ|].
  pose proof (Hin c ltac:(lia)) as Hc. destruct Hb as (Hd & Hbytes & Hcount).
  destruct (entry_place _ _ Hc) as (E1 & E2 & Hr & Ho1 & Ho2 & E3). destruct Hc as [Hc Hc2].
  assert (wp (free_step fs c) (fun r d' => becomes d0 bytes d' /\ r = if table bytes c =? 0 then Some c else None) d) as Hs.
  { unfold free_step, table. rewrite <- E3.
    destruct width_cases as [(Ht & Hf & Hw)|(Ht & Hf & Hw)]; rewrite Hf, Ht, Hw in *;
      [rewrite bool_decide_eq_false_2 by done|rewrite bool_decide_eq_true_2 by done];
      cbv zeta; rewrite E1, (g_bps Hg); wp_steps; (apply wp_read_sector; [done|done|rewrite Hbytes, E2; lia|]);
      intros d1 Hd1; (apply (becomes_trans d0) in Hd1; [|done]); rewrite Hbytes in Hd1 |- *; unfold in_sector.
    - destruct (Z.leb_spec ((c * 2) mod SECTOR + 2) SECTOR); [|lia]. wp_steps.
      by rewrite get16_slice by (unfold SECTOR in *; lia).
    - destruct (Z.leb_spec ((c * 4) mod SECTOR + 4) SECTOR); [|lia]. wp_steps.
      by rewrite get32_slice by (unfold SECTOR in *; lia). }
  wp_steps. wp_call Hs. intros r d1 [Hd1 ->]. destruct (table bytes c =? 0); wp_steps; [by apply HQ|].
  apply IH; [done| |done]. intros k Hk. apply Hin. lia.
Qed.

Lemma wp_fat_find_free_cluster (Q : Z -> D -> Prop) d :
  disk_ok d -> clusters d < 2 ^ 28 - 2 -> (forall k, 2 <= k < clusters d + 2 -> in_table (contents d) k) ->
  (forall d' v, becomes d (contents d) d' ->
     match find_first (fun k => table (contents d) k =? 0) 2 (Z.to_nat (clusters d)) with
     | Some k => v = k
     | None => v = NONE
     end -> Q v d') ->
  wp (fat_find_free_cluster fs) Q d.
Proof using Hg Reliable0.
  intros Hd Hn Hin HQ. unfold fat_find_free_cluster. wp_steps. cbv zeta. unfold id. fold (clusters d).
  assert (0 <= clusters d) as H0.
  { unfold clusters. pose proof (g_spc Hg). pose proof (u32_range (u32 (dev_sector_count d) - data_start fs)).
    apply Z.div_pos; lia. }
  rewrite u32_small by lia. replace (clusters d + 2 - 2) with (clusters d) by lia.
  apply wp_free_loop with d (contents d); [done| |done]. intros k Hk. apply Hin. lia.
Qed.

(** The table covers the volume. *)
Definition volume_ok (d : D) : Prop :=
  disk_ok d /\ clusters d + 2 <= end_mark /\ forall k, 2 <= k < clusters d + 2 -> in_table (contents d) k.
Definition free_cluster (d : D) (k : Z) : Prop := 2 <= k < clusters d + 2 /\ table (contents d) k = 0.

Lemma free_is_not_last bytes k : table bytes k = 0 -> successor bytes k = 0.
Proof. intros H. unfold successor, end_mark. rewrite H. by destruct (is_fat32 fs). Qed.

(** C27: going on behind the last cluster of a chain takes the lowest free
    cluster of the volume, links it behind the last one and marks it as the
    end; no other link of the table changes, so no other file does.  When no
    cluster is free nothing is written. *)
Theorem fat_extend_chain d c :
  volume_ok d -> in_table (contents d) c -> successor (contents d) c = NONE ->
  wp (next_or_new fs c) (fun n d' =>
    disk_ok d' /\
    ((n = NONE /\ contents d' = contents d /\ forall k, ~ free_cluster d k) \/
     (free_cluster d n /\ (forall k, 2 <= k < n -> ~ free_cluster d k) /\
      successor (contents d') c = n /\ successor (contents d') n = NONE /\
      forall k, in_table (contents d) k -> k <> c -> k <> n ->
        successor (contents d') k = successor (contents d) k))) d.
Proof using Hg Reliable0.
  intros (Hd & Hn & Hin) Hc Hlast. unfold next_or_new. wp_steps. apply wp_fat_get_next_cluster; [done..|].
  intros d1 (Hd1 & Hb1 & Hc1). rewrite Hlast. change (negb (NONE =? NONE)) with false. cbv iota. wp_steps.
  assert (clusters d1 = clusters d) as Ek by (unfold clusters; by rewrite Hc1).
  assert (end_mark <= 2 ^ 28 - 8) as Hem by (unfold end_mark; destruct (is_fat32 fs); lia).
  apply wp_fat_find_free_cluster; [done|lia|by rewrite Ek, Hb1|]. rewrite Ek, Hb1. intros d2 v (Hd2 & Hb2 & Hc2) Hv.
  destruct (find_first _ 2 _) as [k|] eqn:Ef; subst v.
  - apply find_first_Some in Ef as (Hk & Hz & Hbelow). apply Z.eqb_eq in Hz.
    assert (free_cluster d k) as Hfree by (split; [lia|done]).
    assert (in_table (contents d) k) as Hkin by (apply Hin; lia).
    assert (c <> k) as Hne by (intros ->; by rewrite (free_is_not_last (contents d) k) in Hlast).
    destruct (Z.eqb_spec k NONE); [unfold NONE in *; lia|]. wp_steps.
    apply wp_fat_set_fat_entry; [done|by rewrite Hb2|]. intros d3 (Hd3 & Hb3 & _). rewrite Hb2 in Hb3. wp_steps.
    assert (Hin3 : forall j, in_table (contents d) j -> in_table (contents d3) j)
      by (unfold in_table; by rewrite Hb3, length_write_at).
    apply wp_fat_set_fat_entry; [done|by apply Hin3|]. intros d4 (Hd4 & Hb4 & _). wp_steps.
    assert (link_ok k) as Hlk by (left; lia). assert (link_ok NONE) as Hln by (by right).
    split; [done|]. right. split_and!; [done| | | |].
    + intros j Hj [_ Hf]. specialize (Hbelow j Hj). by rewrite Hf in Hbelow.
    + rewrite Hb4, successor_put by auto. rewrite decide_False by done.
      rewrite Hb3, successor_put by auto. by rewrite decide_True.
    + rewrite Hb4, successor_put by auto. by rewrite decide_True.
    + intros j Hj H1 H2. rewrite Hb4, successor_put by auto. rewrite decide_False by done.
      rewrite Hb3, successor_put by auto. by rewrite decide_False.
  - change (NONE =? NONE) with true. cbv iota. wp_steps. split; [done|]. left. split_and!; [done|done|].
    intros k [Hk Hz]. rewrite find_first_None in Ef. specialize (Ef k). rewrite Hz in Ef. discriminate Ef. lia.
Qed.
(** ** Reading *)

(** Bytes per cluster, and the clusters of a chain. *)
Definition cluster_size : Z := spc fs * SECTOR.
Definition nth_cluster (bytes : list Z) (c : Z) (k : nat) : Z := Nat.iter k (successor bytes) c.

(** A cluster with its entry in the table and its sectors on the disk. *)
Definition data_cluster (bytes : list Z) (c : Z) : Prop :=
  2 <= c /\ in_table bytes c /\ data_start fs + (c - 1) * spc fs <= 2 ^ 32 /\
  (data_start fs + (c - 1) * spc fs) * SECTOR <= Z.of_nat (length bytes).

(** The [i]-th byte of the file that starts at cluster [c]. *)
Definition file_byte (bytes : list Z) (c i : Z) : Z :=
  let k := nth_cluster bytes c (Z.to_nat (i / cluster_size)) in
  aget 0 bytes ((data_start fs + (k - 2) * spc fs) * SECTOR + i mod cluster_size).
Definition file_bytes (bytes : list Z) (c i n : Z) : list Z := file_byte bytes c <$> seqZ i n.

(** A chain with clusters for [size] bytes. *)
Definition chain_ok (bytes : list Z) (c sz : Z) : Prop :=
  forall k : nat, Z.of_nat k * cluster_size < sz -> data_cluster bytes (nth_cluster bytes c k).

Lemma cluster_size_range : 512 <= cluster_size < 2 ^ 17.
Proof using Hg. unfold cluster_size, SECTOR. pose proof (g_spc Hg). lia. Qed.

Lemma data_cluster_not_none bytes c : data_cluster bytes c -> c <> NONE.
Proof. intros (_ & [Hc _] & _). unfold NONE. lia. Qed.

Lemma wp_skip_clusters (Q : option Z -> D -> Prop) d0 bytes c n : forall k d,
  becomes d0 bytes d -> (forall j : nat, (j <= k + n)%nat -> data_cluster bytes (nth_cluster bytes c j)) ->
  (forall d', becomes d0 bytes d' -> Q (Some (nth_cluster bytes c (k + n))) d') ->
  wp (skip_clusters fs n (nth_cluster bytes c k)) Q d.
Proof using Hg Reliable0.
  induction n as [|n IH]; intros k d Hd Hc HQ; cbn [skip_clusters].
  - rewrite Nat.add_0_r in HQ. by apply HQ.
  - destruct (Hc k ltac:(lia)) as (_ & Hin & _). destruct Hd as (Hd & Hb & Hn). wp_steps.
    apply wp_fat_get_next_cluster; [done|by rewrite Hb|]. intros d1 Hd1. rewrite Hb in Hd1 |- *.
    change (successor bytes (nth_cluster bytes c k)) with (nth_cluster bytes c (S k)).
    pose proof (data_cluster_not_none _ _ (Hc (S k) ltac:(lia))). destruct (Z.eqb_spec (nth_cluster bytes c (S k)) NONE); [done|].
    apply IH.
    + by apply becomes_trans with d.
    + intros j Hj. apply Hc. lia.
    + by replace (S k + n)%nat with (k + S n)%nat by lia.
Qed.

(** A piece of a sector of the file. *)
Lemma sector_piece bytes c k o n :
  data_cluster bytes (nth_cluster bytes c k) -> 0 <= n -> 0 <= o < cluster_size -> o mod SECTOR + n <= SECTOR ->
  slice (o mod SECTOR) n (slice ((data_start fs + (nth_cluster bytes c k - 2) * spc fs + o / SECTOR) * SECTOR) SECTOR bytes) =
    file_bytes bytes c (Z.of_nat k * cluster_size + o) n.
Proof using Hg.
  intros (Hc & _ & _ & Hin) Hn Ho Hon. pose proof cluster_size_range as Hcs.
  assert (0 <= o mod SECTOR /\ o = SECTOR * (o / SECTOR) + o mod SECTOR /\ 0 <= o / SECTOR < spc fs) as (Hm & Hdm & Hq).
  { unfold cluster_size, SECTOR in *. zdiv_lia. }
  set (L := data_start fs + (nth_cluster bytes c k - 2) * spc fs) in *.
  assert (0 <= L) by (unfold L; pose proof (g_data Hg); pose proof (g_spc Hg); nia).
  assert ((L + o / SECTOR + 1) * SECTOR <= Z.of_nat (length bytes)) by (unfold L, SECTOR in *; nia).
  pose proof (length_slice bytes ((L + o / SECTOR) * SECTOR) SECTOR ltac:(unfold SECTOR in *; nia) ltac:(done) ltac:(lia)) as Hls.
  apply buf_ext.
  - rewrite length_slice by (unfold SECTOR in *; lia). unfold file_bytes. by rewrite length_fmap, length_seqZ.
  - intros i Hi. rewrite length_slice in Hi by (unfold SECTOR in *; lia).
    rewrite !aget_slice by (unfold SECTOR in *; lia).
    unfold file_bytes, aget at 2. destruct (Z.leb_spec 0 i); [|lia].
    rewrite list_lookup_fmap, lookup_seqZ_lt by lia. cbn [fmap option_fmap option_map default].
    unfold file_byte.
    assert (0 <= o + i < cluster_size) by (unfold cluster_size, SECTOR in *; lia).
    replace (Z.of_nat k * cluster_size + o + Z.of_nat (Z.to_nat i)) with ((o + i) + Z.of_nat k * cluster_size) by lia.
    rewrite Z.div_add, Z.mod_add by lia. rewrite (Z.div_small (o + i)), (Z.mod_small (o + i)) by lia.
    rewrite Z.add_0_l, Nat2Z.id. fold L. cbn [id]. f_equal. lia.
Qed.

Lemma fat_bytes_app bytes c i n m :
  0 <= n -> 0 <= m -> file_bytes bytes c i (n + m) = file_bytes bytes c i n ++ file_bytes bytes c (i + n) m.
Proof. intros Hn Hm. unfold file_bytes. by rewrite seqZ_app, fmap_app by done. Qed.

Lemma wp_read_loop (Q : list Z -> D -> Prop) d0 bytes c sz fuel : chain_ok bytes c sz -> forall k o n got d,
  becomes d0 bytes d -> 0 <= o <= cluster_size -> 0 <= n -> Z.of_nat k * cluster_size + o + n <= sz ->
  2 * n + (if o =? cluster_size then 1 else 0) < Z.of_nat fuel ->
  (forall d', becomes d0 bytes d' -> Q (got ++ file_bytes bytes c (Z.of_nat k * cluster_size + o) n) d') ->
  wp (read_loop fs fuel (nth_cluster bytes c k) o n got) Q d.
Proof using Hg Reliable0.
  intros Hchain. pose proof cluster_size_range as Hcs.
  induction fuel as [|fuel IH]; intros k o n got d Hd Ho Hn Hsz Hfuel HQ; [destruct (o =? cluster_size); lia|].
  cbn [read_loop]. destruct (Z.ltb_spec 0 n) as [Hpos|Hzero]; cbn [negb orb].
  2: { replace n with 0 in HQ by lia. wp_steps. unfold file_bytes in HQ. rewrite seqZ_nil, app_nil_r in HQ by done. by apply HQ. }
  pose proof (Hchain k ltac:(lia)) as Hc. pose proof (data_cluster_not_none _ _ Hc) as Hne.
  destruct (Z.eqb_spec (nth_cluster bytes c k) NONE); [done|]. rewrite (g_bps Hg). destruct Hd as (Hd & Hb & Hcnt).
  destruct (Z.eqb_spec o cluster_size) as [->|Hlt].
  - unfold cluster_size at 1. rewrite Z.div_mul by done. rewrite Z.leb_refl. wp_steps.
    destruct (Hc) as (_ & Hin & _). apply wp_fat_get_next_cluster; [done|by rewrite Hb|]. intros d1 Hd1. rewrite Hb in Hd1 |- *.
    change (successor bytes (nth_cluster bytes c k)) with (nth_cluster bytes c (S k)).
    assert (Z.of_nat (S k) * cluster_size < sz) as Hk1 by lia.
    pose proof (data_cluster_not_none _ _ (Hchain (S k) Hk1)). destruct (Z.eqb_spec (nth_cluster bytes c (S k)) NONE); [done|].
    apply IH; [by apply becomes_trans with d|lia|lia|lia|destruct (Z.eqb_spec 0 cluster_size); lia|].
    intros d' Hd'. replace (Z.of_nat (S k) * cluster_size + 0) with (Z.of_nat k * cluster_size + cluster_size) by lia. by apply HQ.
  - assert (0 <= o / SECTOR < spc fs) as Hq by (unfold cluster_size, SECTOR in *; zdiv_lia).
    assert (0 <= o mod SECTOR < SECTOR) as Hm by (apply Z.mod_pos_bound; done).
    destruct (Z.leb_spec (spc fs) (o / SECTOR)); [lia|]. destruct (Hc) as (H2 & _ & H32 & Hin).
    pose proof (g_data Hg). pose proof (g_spc Hg). unfold fat_cluster_to_sector. destruct (Z.ltb_spec (nth_cluster bytes c k) 2); [lia|].
    rewrite (u32_small (data_start fs + _)) by nia. rewrite u32_small by nia. wp_steps.
    apply wp_read_sector; [done|nia|rewrite Hb; unfold SECTOR in *; nia|]. intros d1 Hd1. rewrite Hb in Hd1 |- *.
    apply (becomes_trans d0) in Hd1; [|done]. unfold in_sector.
    set (m := Z.min (SECTOR - o mod SECTOR) n). assert (0 < m <= n /\ o mod SECTOR + m <= SECTOR) as [Hm1 Hm2] by lia.
    destruct (Z.leb_spec (o mod SECTOR + m) SECTOR); [|lia].
    assert (o + m <= cluster_size) as Hom by (unfold cluster_size, SECTOR in *; zdiv_lia).
    rewrite sector_piece by (done || lia). rewrite u32_small by lia.
    apply IH; [done|lia|lia|lia|destruct (Z.eqb_spec (o + m) cluster_size); lia|].
    intros d' Hd'. rewrite <- app_assoc, Z.add_assoc, <- fat_bytes_app by lia.
    replace (m + (n - m)) with n by lia. by apply HQ.
Qed.

End fat.

(** ** A volume in memory *)

(** One cluster is a sector; a file of 600 bytes in the clusters 2 and 3. *)
Definition demo_fat : fat_fs := mkFat FAT16 1 2 2 0 1 512 0.
Definition demo_disk : mem_disk :=
  mkMem (mkDevice [] 8 512 0 0)
    (zeros 512 ++ ([0xF8; 0xFF; 0xFF; 0xFF; 3; 0; 0xFF; 0xFF] ++ zeros 504)
     ++ replicate 512 65 ++ replicate 512 66 ++ zeros 2048).
Definition demo_file : fat_file := mkFatFile 2 600 510 2 0.

Lemma fat_demo_geometry : geometry demo_fat.
Proof. split; [by left|done|split; done..]. Qed.

Lemma demo_disk_ok : disk_ok demo_disk.
Proof.
  split; [|done]. split; [done|done| |done|done].
  unfold demo_disk. cbn [disk_data].
  repeat (apply Forall_app; split); try apply bytes_zeros; try (apply Forall_replicate; lia). repeat constructor; lia.
Qed.

Lemma demo_in_table k : 0 <= k <= 16 -> in_table demo_fat (contents demo_disk) k.
Proof.
  intros Hk. split; [lia|]. change (Z.of_nat (length (contents demo_disk))) with 4096.
  change (width demo_fat) with 2. change (fat_start demo_fat) with 1. unfold SECTOR. zdiv_lia.
Qed.

Lemma demo_chain : chain_ok demo_fat (contents demo_disk) 2 600.
Proof.
  intros k Hk. change (cluster_size demo_fat) with 512 in Hk. assert (k = 0 \/ k = 1)%nat as [-> | ->] by lia.
  - split; [done|]. split; [by apply demo_in_table|]. done.
  - change (nth_cluster demo_fat (contents demo_disk) 2 1) with (successor demo_fat (contents demo_disk) 2).
    replace (successor demo_fat (contents demo_disk) 2) with 3 by (vm_compute; reflexivity).
    split; [done|]. split; [by apply demo_in_table|]. done.
Qed.


Lemma fat_extend_chain_witness :
  successor demo_fat (contents demo_disk) 3 = NONE /\
  wp (next_or_new demo_fat 3) (fun n d' =>
    disk_ok d' /\
    ((n = NONE /\ contents d' = contents demo_disk /\ forall k, ~ free_cluster demo_fat demo_disk k) \/
     (free_cluster demo_fat demo_disk n /\ (forall k, 2 <= k < n -> ~ free_cluster demo_fat demo_disk k) /\
      successor demo_fat (contents d') 3 = n /\ successor demo_fat (contents d') n = NONE /\
      forall k, in_table demo_fat (contents demo_disk) k -> k <> 3 -> k <> n ->
        successor demo_fat (contents d') k = successor demo_fat (contents demo_disk) k))) demo_disk.
Proof.
  assert (successor demo_fat (contents demo_disk) 3 = NONE) as Hlast by (vm_compute; reflexivity).
  split; [exact Hlast|].
  apply (fat_extend_chain demo_fat fat_demo_geometry demo_disk 3).
  - split; [exact demo_disk_ok|]. change (clusters demo_fat demo_disk) with 6. split; [done|].
    intros k Hk. apply demo_in_table. lia.
  - by apply demo_in_table.
  - exact Hlast.
Defined.
