(* ===== verification/Config.v ===== *)
(** * The kernel's configuration (src/kernel/config/config.c)

    The file "kernel.conf" is read once, at boot, into a table of 64 pairs of
    a key and a value; [config_get] looks a key up.  Strings are lists of
    bytes; a [char] array is cut at its first zero byte when it is read as a
    string. *)

From S2P Require Import Prelude.

Definition MAX_CONFIG_ENTRIES : Z := 64.
Definition MAX_KEY_LEN : Z := 32.
Definition MAX_VALUE_LEN : Z := 64.

(** [config_entry_t] and the two static variables: the entries in use. *)
Definition config_entry : Type := list Z * list Z.
Definition config_entries : Type := list config_entry.

(** The loop of [str_eq] over two strings. *)
Fixpoint str_eq (a b : list Z) : bool :=
  match a, b with
  | x :: a', y :: b' => if negb (x =? y) then false else str_eq a' b'
  | [], [] => true
  | _, _ => false
  end.

(** Copy a string into an array of [n] characters: its first [n - 1]. *)
Fixpoint copy_str (n : nat) (s : list Z) : list Z :=
  match n, s with
  | S n', c :: s' => if c =? 0 then [] else c :: copy_str n' s'
  | _, _ => []
  end.

Definition config_add (key value : list Z) (es : config_entries) : config_entries :=
  if MAX_CONFIG_ENTRIES <=? Z.of_nat (length es) then es
  else es ++ [(copy_str (Z.to_nat (MAX_KEY_LEN - 1)) key, copy_str (Z.to_nat (MAX_VALUE_LEN - 1)) value)].

(** The characters up to the first that satisfies [stop], and the rest. *)
Fixpoint scan (stop : Z -> bool) (l : list Z) : list Z * list Z :=
  match l with
  | [] => ([], [])
  | c :: l' => if stop c then ([], l) else let '(a, b) := scan stop l' in (c :: a, b)
  end.
(** Skip a character. *)
Definition skip (c : Z) (l : list Z) : list Z :=
  match l with x :: l' => if x =? c then l' else l | [] => [] end.

Definition ends_key (c : Z) : bool := (c =? 61) || (c =? 10) || (c =? 35).
Definition ends_value (c : Z) : bool := (c =? 10) || (c =? 35).
Definition newline (c : Z) : bool := c =? 10.

(** One round of the loop of [loadConfig]: the rest of the buffer and the
    entries. *)
Definition load_line (buffer : list Z) (es : config_entries) : list Z * config_entries :=
  let '(raw_key, r1) := scan ends_key buffer in
  let key := take (Z.to_nat (MAX_KEY_LEN - 1)) raw_key in
  let r2 := skip 61 r1 in
  let '(raw_value, r3) := scan ends_value r2 in
  let value := take (Z.to_nat (MAX_VALUE_LEN - 1)) raw_value in
  let '(_, r4) := scan newline r3 in
  (skip 10 r4, if 0 <? Z.of_nat (length key) then config_add key value es else es).

Fixpoint load_loop (fuel : nat) (buffer : list Z) (es : config_entries) : option config_entries :=
  match fuel with
  | O => None
  | S fuel' =>
      if 0 <? Z.of_nat (length buffer) then let '(rest, es') := load_line buffer es in load_loop fuel' rest es'
      else Some es
  end.

(** [module]: what [limine_get_module] finds.  Every round takes a character,
    so one round more than there are characters is enough. *)
Definition loadConfig (module : option (list Z)) (es : config_entries) : option config_entries :=
  match module with
  | None => Some es
  | Some buffer => load_loop (S (length buffer)) buffer es
  end.

(** [None] is the fallback. *)
Fixpoint config_get (key : list Z) (es : config_entries) : option (list Z) :=
  match es with
  | [] => None
  | (k, v) :: es' => if str_eq k key then Some v else config_get key es'
  end.

(** ** Strings *)

Lemma str_eq_spec a : forall b, str_eq a b = bool_decide (a = b).
Proof.
  induction a as [|x a IH]; intros [|y b]; cbn [str_eq].
  - by rewrite bool_decide_eq_true_2.
  - by rewrite bool_decide_eq_false_2.
  - by rewrite bool_decide_eq_false_2.
  - destruct (Z.eqb_spec x y) as [->|Hne]; cbn [negb].
    + rewrite IH. apply bool_decide_ext. split; [by intros ->|by intros [= ->]].
    + rewrite bool_decide_eq_false_2; [done|]. by intros [= -> _].
Qed.

Lemma config_get_first key (es : list (list Z * list Z)) :
  config_get key es = snd <$> head (filter (fun e => e.1 = key) es).
Proof.
  induction es as [|[k v] es IH]; [done|]. cbn [config_get]. rewrite str_eq_spec.
  unfold filter in *. cbn [list_filter fst]. case_decide as E.
  - by rewrite bool_decide_eq_true_2 by done.
  - by rewrite bool_decide_eq_false_2 by done.
Qed.

Lemma copy_str_id n : forall s, (length s <= n)%nat -> 0 ∉ s -> copy_str n s = s.
Proof.
  induction n as [|n IH]; intros [|c s] Hlen Hz; cbn [copy_str] in *; try done; [simpl in Hlen; lia|].
  apply not_elem_of_cons in Hz as [Hc Hs]. destruct (Z.eqb_spec c 0); [done|]. rewrite IH; [done|simpl in Hlen; lia|done].
Qed.

(** ** Lines *)

Lemma scan_split stop l : let '(a, b) := scan stop l in
  l = a ++ b /\ Forall (fun c => stop c = false) a /\ match b with [] => True | c :: _ => stop c = true end.
Proof.
  induction l as [|c l IH]; cbn [scan]; [done|]. destruct (stop c) eqn:E; [done|].
  destruct (scan stop l) as [a b]. destruct IH as (-> & Ha & Hb). split_and!; [done|by constructor|done].
Qed.

Lemma scan_app stop a b : Forall (fun c => stop c = false) a -> scan stop (a ++ b) = let '(x, y) := scan stop b in (a ++ x, y).
Proof.
  induction 1 as [|c a Hc Ha IH]; cbn [app scan]; [by destruct (scan stop b)|].
  rewrite Hc, IH. by destruct (scan stop b).
Qed.
Definition stops (stop : Z -> bool) (l : list Z) : Prop := match l with [] => True | c :: _ => stop c = true end.
Lemma scan_prefix stop a b : Forall (fun c => stop c = false) a -> stops stop b -> scan stop (a ++ b) = (a, b).
Proof.
  intros Ha Hb. rewrite scan_app by done. destruct b as [|c b]; cbn [scan]; [by rewrite app_nil_r|].
  cbn [stops] in Hb. by rewrite Hb, app_nil_r.
Qed.

(** The lines of a file. *)
Fixpoint split_lines (l : list Z) : list (list Z) :=
  match l with
  | [] => []
  | c :: l' =>
      if c =? 10 then [] :: split_lines l'
      else match split_lines l' with [] => [[c]] | x :: xs => (c :: x) :: xs end
  end.

(** What a line says: the key and the value, up to a comment. *)
Definition line_entry (line : list Z) : option config_entry :=
  let '(text, _) := scan (fun c => c =? 35) line in
  let '(key, rest) := scan (fun c => c =? 61) text in
  let key := take 31 key in
  if bool_decide (key = []) then None else Some (copy_str 31 key, copy_str 63 (take 63 (skip 61 rest))).

Definition add_entry (es : config_entries) (e : config_entry) : config_entries :=
  if MAX_CONFIG_ENTRIES <=? Z.of_nat (length es) then es else es ++ [e].
Definition add_line (es : config_entries) (line : list Z) : config_entries :=
  match line_entry line with Some e => add_entry es e | None => es end.

Definition no_newline (l : list Z) : Prop := Forall (fun c => newline c = false) l.

Lemma config_add_entry raw_key raw_value es :
  let key := take 31 raw_key in
  (if 0 <? Z.of_nat (length key) then config_add key (take 63 raw_value) es else es) =
    match (if bool_decide (key = []) then None else Some (copy_str 31 key, copy_str 63 (take 63 raw_value))) with
    | Some e => add_entry es e
    | None => es
    end.
Proof.
  intros key. destruct key as [|c key]; [done|]. rewrite bool_decide_eq_false_2 by done. cbn [length].
  destruct (Z.ltb_spec 0 (Z.of_nat (S (length key)))); [done|lia].
Qed.

Lemma Forall_both (P Q R : Z -> Prop) l : Forall P l -> Forall Q l -> (forall c, P c -> Q c -> R c) -> Forall R l.
Proof. rewrite !list.Forall_forall. eauto. Qed.
Lemma no_value_end l : no_newline l -> Forall (fun c => (c =? 35) = false) l -> Forall (fun c => ends_value c = false) l.
Proof. intros H1 H2. apply (Forall_both _ _ _ _ H1 H2). unfold newline, ends_value. by intros c -> ->. Qed.
Lemma no_key_end l : no_newline l -> Forall (fun c => (c =? 35) = false) l -> Forall (fun c => (c =? 61) = false) l ->
  Forall (fun c => ends_key c = false) l.
Proof.
  intros H1 H2 H3. apply (Forall_both _ _ _ _ (no_value_end l H1 H2) H3). unfold ends_value, ends_key.
  intros c Hv ->. apply orb_false_elim in Hv as [-> ->]. done.
Qed.
Lemma no_skip (P : Z -> Prop) c l : Forall P l -> Forall P (skip c l).
Proof. destruct 1 as [|x l Hx Hl]; [constructor|]. cbn [skip]. destruct (x =? c); [done|by constructor]. Qed.

(** A line, with its newline or at the end of the file. *)
Lemma load_line_spec line t es :
  no_newline line -> (t = [] \/ exists r, t = 10 :: r) ->
  load_line (line ++ t) es = (skip 10 t, add_line es line).
Proof.
  intros Hline Ht. unfold load_line, add_line, line_entry.
  pose proof (scan_split (fun c => c =? 35) line) as Hs. destruct (scan _ line) as [text cm]. destruct Hs as (-> & Htext & Hcm).
  pose proof (scan_split (fun c => c =? 61) text) as Hs. destruct (scan _ text) as [key rest]. destruct Hs as (-> & Hkey & Hrest).
  apply Forall_app in Hline as [Hline Hcl]. apply Forall_app in Hline as [Hkl Hrl]. apply Forall_app in Htext as [Hkt Hrt].
  change (Z.to_nat (MAX_KEY_LEN - 1)) with 31%nat. change (Z.to_nat (MAX_VALUE_LEN - 1)) with 63%nat.
  set (T := cm ++ t).
  assert (stops newline t) as Ht' by (by destruct Ht as [-> | (r & ->)]).
  assert (stops ends_value T /\ skip 61 (rest ++ T) = skip 61 rest ++ T /\ stops ends_key (rest ++ T)) as (HT & Hskip & HX).
  { unfold T. destruct cm as [|x cm]; [|apply Z.eqb_eq in Hcm as ->]; destruct Ht as [-> | (r & ->)];
      (destruct rest as [|y rest]; [|apply Z.eqb_eq in Hrest as ->]); done. }
  rewrite <- !app_assoc. fold T.
  rewrite (scan_prefix ends_key key) by (done || by apply no_key_end).
  rewrite Hskip, (scan_prefix ends_value) by (done || by apply no_value_end; apply no_skip).
  unfold T. rewrite (scan_prefix newline cm) by done. by rewrite config_add_entry.
Qed.

(** ** The whole file *)

Lemma split_lines_app line t :
  no_newline line -> (t = [] \/ exists r, t = 10 :: r) -> line ++ t <> [] ->
  split_lines (line ++ t) = line :: split_lines (skip 10 t).
Proof.
  intros Hline Ht. induction Hline as [|c line Hc Hline IH]; intros Hne; cbn [app].
  - destruct Ht as [-> | (r & ->)]; [done|]. done.
  - cbn [split_lines]. unfold newline in Hc. rewrite Hc.
    destruct (decide (line ++ t = [])) as [E|E]; [|by rewrite IH].
    apply app_nil in E as [-> ->]. done.
Qed.

Lemma load_loop_lines fuel : forall buffer es, (length buffer < fuel)%nat ->
  load_loop fuel buffer es = Some (foldl add_line es (split_lines buffer)).
Proof.
  induction fuel as [|fuel IH]; intros buffer es Hf; [lia|]. cbn [load_loop].
  destruct (Z.ltb_spec 0 (Z.of_nat (length buffer))) as [Hlen|Hlen].
  2: { by destruct buffer; [|simpl in Hlen; lia]. }
  pose proof (scan_split newline buffer) as Hs. destruct (scan newline buffer) as [line t].
  destruct Hs as (E & Hline & Ht).
  assert (t = [] \/ exists r, t = 10 :: r) as Ht'.
  { destruct t as [|c r]; [by left|right]. exists r. by apply Z.eqb_eq in Ht as ->. }
  assert (line ++ t <> []) as Hne by (intros E'; rewrite E, E' in Hlen; simpl in Hlen; lia).
  rewrite E, load_line_spec, split_lines_app by done. cbn [foldl]. apply IH.
  apply (f_equal (@length Z)) in E. rewrite length_app in E.
  destruct Ht' as [-> | (r & ->)]; cbn [skip] in *; simpl in *; lia.
Qed.

(** What the file says, line by line. *)
Lemma loadConfig_lines buffer es :
  loadConfig (Some buffer) es = Some (foldl add_line es (split_lines buffer)).
Proof. apply load_loop_lines. lia. Qed.

(** A configuration written as a file. *)
Definition print_entry (e : config_entry) : list Z := e.1 ++ [61] ++ e.2 ++ [10].
Definition print_config (es : config_entries) : list Z := concat (print_entry <$> es).

Definition plain (c : Z) : Prop := c <> 0 /\ c <> 10 /\ c <> 35.
Record entry_ok (e : config_entry) : Prop := {
  key_ok : Forall (fun c => plain c /\ c <> 61) e.1;
  key_len : 0 < Z.of_nat (length e.1) < MAX_KEY_LEN;
  value_ok : Forall plain e.2;
  value_len : Z.of_nat (length e.2) < MAX_VALUE_LEN
}.

Lemma plain_text (P : Z -> Prop) l : Forall P l -> (forall c, P c -> plain c) ->
  no_newline l /\ Forall (fun c => (c =? 35) = false) l /\ 0 ∉ l.
Proof.
  intros H HP. rewrite list.Forall_forall in H. unfold no_newline. rewrite !list.Forall_forall.
  split_and!; [intros c Hc|intros c Hc|intros Hc]; destruct (HP _ (H _ Hc)) as (H0 & H1 & H2); [by apply Z.eqb_neq..|done].
Qed.

Lemma line_entry_print e : entry_ok e -> line_entry (e.1 ++ [61] ++ e.2) = Some e /\ no_newline (e.1 ++ [61] ++ e.2).
Proof.
  intros [Hk Hkl Hv Hvl]. destruct e as [k v]. cbn [fst snd] in *.
  destruct (plain_text _ _ Hk (fun c H => proj1 H)) as (Hk1 & Hk2 & Hk3).
  destruct (plain_text _ _ Hv (fun c H => H)) as (Hv1 & Hv2 & Hv3).
  assert (Forall (fun c => (c =? 61) = false) k) as Hk4.
  { apply (list.Forall_impl _ _ _ Hk). intros c [_ Hc]. by apply Z.eqb_neq. }
  unfold MAX_KEY_LEN, MAX_VALUE_LEN in *. split.
  - unfold line_entry. rewrite <- (app_nil_r (k ++ [61] ++ v)).
    rewrite (scan_prefix _ (k ++ [61] ++ v)); [|apply Forall_app; split; [done|]; apply Forall_app; split; [by repeat constructor|done]|done].
    rewrite (scan_prefix _ k) by done. rewrite take_ge by lia. cbn [app skip Z.eqb Pos.eqb].
    rewrite bool_decide_eq_false_2 by (intros ->; simpl in Hkl; lia). rewrite (take_ge v) by lia.
    by rewrite !copy_str_id by (done || lia).
  - apply Forall_app. split; [done|]. apply Forall_app. by split; [repeat constructor|].
Qed.

Lemma load_print es : forall es0, Forall entry_ok es -> Z.of_nat (length es0 + length es) <= MAX_CONFIG_ENTRIES ->
  foldl add_line es0 (split_lines (print_config es)) = es0 ++ es.
Proof.
  induction es as [|e es IH]; intros es0 Hok Hlen; cbn [print_config fmap list_fmap concat]; [by rewrite app_nil_r|].
  apply list.Forall_cons in Hok as [He Hok]. destruct (line_entry_print e He) as [Hl Hn].
  assert (print_entry e ++ concat (print_entry <$> es) = (e.1 ++ [61] ++ e.2) ++ 10 :: print_config es) as ->
    by (unfold print_entry, print_config; by rewrite <- !app_assoc).
  rewrite split_lines_app; [|done|right; by eexists|by destruct e as [[|] ?]]. cbn [skip foldl Z.eqb Pos.eqb].
  cbn [length] in Hlen. unfold add_line at 2. rewrite Hl. unfold add_entry.
  destruct (Z.leb_spec MAX_CONFIG_ENTRIES (Z.of_nat (length es0))); [lia|].
  rewrite IH; [by rewrite <- app_assoc|done|]. rewrite length_app. cbn [length]. lia.
Qed.

(** a configuration of at most 64 entries, written one per line as
    key=value, is loaded as it is; [config_get] of a key then gives the value
    of its first entry, and the fallback when there is none. *)
Theorem config_roundtrip es :
  Forall entry_ok es -> Z.of_nat (length es) <= MAX_CONFIG_ENTRIES ->
  loadConfig (Some (print_config es)) [] = Some es /\
  forall key, config_get key es = snd <$> head (filter (fun e => e.1 = key) es).
Proof.
  intros Hok Hlen. split; [|intros key; apply config_get_first].
  rewrite loadConfig_lines. by rewrite load_print.
Qed.

Lemma config_roundtrip_witness :
  loadConfig (Some (print_config [([97], [49; 50]); ([98], [51])])) [] = Some [([97], [49; 50]); ([98], [51])] /\
  forall key, config_get key [([97], [49; 50]); ([98], [51])] =
    snd <$> head (filter (fun e => e.1 = key) [([97], [49; 50]); ([98], [51])]).
Proof.
  apply (config_roundtrip [([97], [49; 50]); ([98], [51])]); [|done].
  repeat constructor; try done; simpl; lia.
Defined.
