(* ===== verification/RamFs.v ===== *)
(** * The file system in memory (src/kernel/drivers/fs/ramdisk.c)

    A tree of nodes in the heap, linked by pointers; a file's data are 4096
    bytes inside its node.  The state is the heap's nodes by address and the
    static pointer to the root.  An operation has no result ([diverge]) where
    the code follows a pointer to a node that was freed, copies a negative
    number of bytes or overruns a node's name. *)

From S2P Require Import Prelude Bytes StateMonad.
#[local] Open Scope Z_scope.

Definition MAX_NAME : Z := 256.
Definition MAX_CHILDREN : Z := 64.
Definition MAX_DATA : Z := 4096.
Definition FS_SUCCESS : Z := 0.
Definition FS_ERROR : Z := -1.
Definition FS_EXISTS : Z := -2.
Definition FS_NOT_FOUND : Z := -3.
Definition FS_INVALID_PARAM : Z := -4.
Definition FS_NOT_DIR : Z := -5.
Definition FS_NOT_FILE : Z := -6.
Definition FS_DIR_FULL : Z := -7.
Definition FS_DIR_NOT_EMPTY : Z := -8.
Definition FS_NO_EXEC : Z := -9.
Inductive FileFlags := EXECUTABLE | LINKED_TO_CALLBACK.

(** [struct FSNode]; [children] are the first [child_count]. *)
Record FSNode := mkNode {
  name : list Z; is_dir : bool; flags : FileFlags; parent : Z;
  children : list Z; data : list Z; data_size : Z; callback : Z
}.
Definition set_children (cs : list Z) (n : FSNode) : FSNode :=
  mkNode (name n) (is_dir n) (flags n) (parent n) cs (data n) (data_size n) (callback n).
Definition set_data (d : list Z) (k : Z) (n : FSNode) : FSNode :=
  mkNode (name n) (is_dir n) (flags n) (parent n) (children n) d k (callback n).
Definition set_callback (cb : Z) (n : FSNode) : FSNode :=
  mkNode (name n) (is_dir n) LINKED_TO_CALLBACK (parent n) (children n) (data n) (data_size n) cb.

Record ramfs := mkFs { nodes : gmap Z FSNode; root : Z }.

(** [*p] and a store into it; 0 is NULL. *)
Definition get_node (p : Z) : M ramfs FSNode := fun s =>
  match nodes s !! p with Some n => Some (n, s) | None => None end.
Definition put_node (p : Z) (n : FSNode) : M ramfs unit := modify (fun s => mkFs (<[p := n]> (nodes s)) (root s)).
Definition kfree (p : Z) : M ramfs unit := modify (fun s => mkFs (delete p (nodes s)) (root s)).

(** [kmalloc]: what it returns is an argument of the operations that use it. *)
Definition ramdisk_init_fs (kmalloc : Z) : M ramfs unit :=
  do* modify (fun s => mkFs (nodes s) kmalloc) in
  if kmalloc =? 0 then ret tt
  else put_node kmalloc (mkNode [47] true EXECUTABLE 0 [] (zeros MAX_DATA) 0 0).

(** ** Paths *)

(** A component, and the rest from its "/" on. *)
Fixpoint component (path : list Z) : list Z * list Z :=
  match path with
  | [] => ([], [])
  | c :: path' => if c =? 47 then ([], path) else let '(comp, rest) := component path' in (c :: comp, rest)
  end.

(** The first child with a name. *)
Fixpoint find_child (nm : list Z) (cs : list Z) : M ramfs (option Z) :=
  match cs with
  | [] => ret None
  | c :: cs' =>
      let* n := get_node c in
      if bool_decide (name n = nm) then ret (Some c) else find_child nm cs'
  end.

(** The loop of [ramdisk_find_node] from [cur], found under [par]: the node
    and its parent; every round takes a character. *)
Fixpoint find_loop (rounds : nat) (path : list Z) (cur par : Z) : M ramfs (Z * Z) :=
  match rounds, path with
  | O, _ | _, [] => ret (cur, par)
  | S rounds', _ =>
      let '(comp, rest) := component path in
      if bool_decide (comp = []) then find_loop rounds' (tail rest) cur par
      else
        let* n := get_node cur in
        let* found := find_child comp (children n) in
        match found with
        | None => ret (0, cur)
        | Some child => if bool_decide (rest = []) then ret (child, cur) else find_loop rounds' (tail rest) child cur
        end
  end.

(** [path]: [None] is NULL.  The second result is [*parent_out], 0 before. *)
Definition ramdisk_find_node (path : option (list Z)) : M ramfs (Z * Z) :=
  let* r := gets root in
  if r =? 0 then ret (0, 0)
  else
    match path with
    | Some (47 :: path') => if bool_decide (path' = []) then ret (r, 0) else find_loop (length path') path' r 0
    | _ => ret (0, 0)
    end.

Fixpoint drop_while (p : Z -> bool) (l : list Z) : list Z :=
  match l with c :: l' => if p c then drop_while p l' else l | [] => [] end.
Fixpoint take_while (p : Z -> bool) (l : list Z) : list Z :=
  match l with c :: l' => if p c then c :: take_while p l' else [] | [] => [] end.
Definition is_slash (c : Z) : bool := c =? 47.
(** Backwards over the slashes at the end, then to the next slash. *)
Definition get_basename (path : list Z) : list Z :=
  rev (take_while (fun c => negb (is_slash c)) (drop_while is_slash (rev path))).

(** ** Creating *)

(** A new node under [par]; its name is an array of 256 bytes. *)
Definition new_child (path : list Z) (par kmalloc : Z) (p : FSNode) (dir : bool) : M ramfs Z :=
  if MAX_CHILDREN <=? Z.of_nat (length (children p)) then ret FS_DIR_FULL
  else if kmalloc =? 0 then ret FS_ERROR
  else if MAX_NAME <=? Z.of_nat (length (get_basename path)) then diverge
  else
    do* put_node kmalloc (mkNode (get_basename path) dir EXECUTABLE par [] (zeros MAX_DATA) 0 0) in
    do* put_node par (set_children (children p ++ [kmalloc]) p) in
    ret FS_SUCCESS.

Definition ramdisk_create_dir (path : option (list Z)) (kmalloc : Z) : M ramfs Z :=
  let* r := gets root in
  match path with
  | None => ret FS_INVALID_PARAM
  | Some pa =>
      if r =? 0 then ret FS_INVALID_PARAM
      else
        let* (existing, par) := ramdisk_find_node path in
        if negb (existing =? 0) then ret FS_EXISTS
        else if par =? 0 then ret FS_NOT_FOUND
        else let* p := get_node par in new_child pa par kmalloc p true
  end.

Definition ramdisk_create_file (path : option (list Z)) (kmalloc : Z) : M ramfs Z :=
  let* r := gets root in
  match path with
  | None => ret FS_INVALID_PARAM
  | Some pa =>
      if r =? 0 then ret FS_INVALID_PARAM
      else
        let* (existing, par) := ramdisk_find_node path in
        if negb (existing =? 0) then ret FS_EXISTS
        else if par =? 0 then ret FS_NOT_FOUND
        else
          let* p := get_node par in
          if negb (is_dir p) then ret FS_NOT_FOUND else new_child pa par kmalloc p false
  end.

(** ** Listing *)

(** One round of the loop: the text so far. *)
Fixpoint list_loop (max_size : Z) (cs : list Z) (text : list Z) : M ramfs (list Z) :=
  match cs with
  | [] => ret text
  | c :: cs' =>
      let* n := get_node c in
      let suffix := if is_dir n then [47; 10] else [10] in
      if max_size <=? Z.of_nat (length text) + Z.of_nat (length (name n)) + Z.of_nat (length suffix) then ret text
      else list_loop max_size cs' (text ++ name n ++ suffix)
  end.
(** The string in the buffer, and the result. *)
Definition ramdisk_get_dir_cont (path : option (list Z)) (max_size : Z) : M ramfs (list Z * Z) :=
  let* (p, _) := ramdisk_find_node path in
  if p =? 0 then ret ([], FS_NOT_FOUND)
  else
    let* n := get_node p in
    if negb (is_dir n) then ret ([], FS_NOT_DIR)
    else
      let* text := list_loop max_size (children n) [] in
      let out := take (length text - 1) text in
      ret (out, Z.of_nat (length out)).

(** ** Deleting *)

(** Take the first pointer to [p] out of the children and move the others up. *)
Fixpoint remove_child (p : Z) (cs : list Z) : list Z :=
  match cs with c :: cs' => if c =? p then cs' else c :: remove_child p cs' | [] => [] end.
Definition unlink (p par : Z) : M ramfs Z :=
  let* n := get_node par in
  do* put_node par (set_children (remove_child p (children n)) n) in
  do* kfree p in
  ret FS_SUCCESS.

Definition ramdisk_delete_dir (path : option (list Z)) : M ramfs Z :=
  let* (p, par) := ramdisk_find_node path in
  if p =? 0 then ret FS_NOT_FOUND
  else
    let* n := get_node p in
    let* r := gets root in
    if negb (is_dir n) then ret FS_NOT_DIR
    else if p =? r then ret FS_ERROR
    else if 0 <? Z.of_nat (length (children n)) then ret FS_DIR_NOT_EMPTY
    else unlink p par.

Definition ramdisk_delete_file (path : option (list Z)) : M ramfs Z :=
  let* (p, par) := ramdisk_find_node path in
  if p =? 0 then ret FS_NOT_FOUND
  else
    let* n := get_node p in
    if is_dir n then ret FS_NOT_DIR
    else if par =? 0 then ret FS_ERROR
    else unlink p par.

(** ** Files *)

(** What [ramdisk_execute_file] calls. *)
Inductive action := Nothing | RunCallback (cb : Z) | RunCode (code : list Z).

Definition ramdisk_execute_file (path : option (list Z)) : M ramfs (action * Z) :=
  let* (p, _) := ramdisk_find_node path in
  if p =? 0 then ret (Nothing, FS_NOT_FOUND)
  else
    let* n := get_node p in
    if is_dir n then ret (Nothing, FS_NOT_FILE)
    else
      match flags n with
      | LINKED_TO_CALLBACK => if negb (callback n =? 0) then ret (RunCallback (callback n), FS_SUCCESS) else ret (Nothing, FS_NO_EXEC)
      | EXECUTABLE => if 0 <? data_size n then ret (RunCode (data n), FS_SUCCESS) else ret (Nothing, FS_NO_EXEC)
      end.

(** [src]: the memory at the caller's pointer, at least [size] bytes. *)
Definition ramdisk_write_file (path : option (list Z)) (src : list Z) (size : Z) : M ramfs Z :=
  let* (p, _) := ramdisk_find_node path in
  if p =? 0 then ret FS_NOT_FOUND
  else
    let* n := get_node p in
    if is_dir n then ret FS_NOT_FILE
    else
      let copy_size := if MAX_DATA <? size then MAX_DATA else size in
      if copy_size <? 0 then diverge
      else
        do* put_node p (set_data (write_at (data n) 0 (slice 0 copy_size src)) copy_size n) in
        ret copy_size.

Definition ramdisk_set_file_callback (path : option (list Z)) (cb : Z) : M ramfs Z :=
  let* (p, _) := ramdisk_find_node path in
  if p =? 0 then ret FS_NOT_FOUND
  else
    let* n := get_node p in
    if is_dir n then ret FS_NOT_DIR else do* put_node p (set_callback cb n) in ret FS_SUCCESS.

(** The bytes stored in the buffer, and the result. *)
Definition ramdisk_read_file (path : option (list Z)) (max_size : Z) : M ramfs (list Z * Z) :=
  let* (p, _) := ramdisk_find_node path in
  if p =? 0 then ret ([], FS_NOT_FOUND)
  else
    let* n := get_node p in
    if is_dir n then ret ([], FS_NOT_FILE)
    else
      let copy_size := if max_size <? data_size n then max_size else data_size n in
      if copy_size <? 0 then diverge else ret (slice 0 copy_size (data n), copy_size).

Definition ramdisk_fs_exists (path : option (list Z)) : M ramfs Z :=
  let* (p, _) := ramdisk_find_node path in ret (if negb (p =? 0) then 1 else 0).
Definition ramdisk_fs_is_dir (path : option (list Z)) : M ramfs Z :=
  let* (p, _) := ramdisk_find_node path in
  if p =? 0 then ret 0 else let* n := get_node p in ret (if is_dir n then 1 else 0).
Definition ramdisk_fs_is_file (path : option (list Z)) : M ramfs Z :=
  let* (p, _) := ramdisk_find_node path in
  if p =? 0 then ret 0 else let* n := get_node p in ret (if negb (is_dir n) then 1 else 0).
Definition ramdisk_fs_is_exec (path : option (list Z)) : M ramfs Z := ret 1.

(** ** Well-formed trees *)

Record node_ok (s : ramfs) (p : Z) (n : FSNode) : Prop := {
  n_addr : p <> 0;
  n_children : forall c, c ∈ children n -> is_Some (nodes s !! c) /\ c <> root s;
  n_self : p ∉ children n;
  n_nodup : NoDup (children n);
  n_count : Z.of_nat (length (children n)) <= MAX_CHILDREN;
  n_name : Z.of_nat (length (name n)) < MAX_NAME;
  n_data : Z.of_nat (length (data n)) = MAX_DATA;
  n_size : 0 <= data_size n <= MAX_DATA
}.
(** Every pointer leads to a node, and no node has two parents. *)
Record fs_wf (s : ramfs) : Prop := {
  wf_root : root s <> 0 -> exists n, nodes s !! root s = Some n /\ is_dir n = true;
  wf_nodes : forall p n, nodes s !! p = Some n -> node_ok s p n;
  wf_parents : forall p q n m c, nodes s !! p = Some n -> nodes s !! q = Some m ->
    c ∈ children n -> c ∈ children m -> p = q
}.

Lemma wp_get_node p n (Q : FSNode -> ramfs -> Prop) s : nodes s !! p = Some n -> Q n s -> wp (get_node p) Q s.
Proof. intros E HQ. unfold wp, get_node. by rewrite E. Qed.

Section tree.
Context (s : ramfs) (Hs : fs_wf s).

Lemma child_node p n c : nodes s !! p = Some n -> c ∈ children n -> exists m, nodes s !! c = Some m /\ c <> 0 /\ c <> root s.
Proof using Hs.
  intros Hp Hc. destruct (n_children _ _ _ (wf_nodes _ Hs p n Hp) c Hc) as [[m Hm] Hr].
  exists m. split_and!; [done| |done]. apply (n_addr _ _ _ (wf_nodes _ Hs c m Hm)).
Qed.

(** The first child with a name, as a function. *)
Definition named (nm : list Z) (c : Z) : bool := match nodes s !! c with Some n => bool_decide (name n = nm) | None => false end.
Definition child_named (nm : list Z) (cs : list Z) : option Z := snd <$> list_find (fun c => named nm c) cs.

Lemma wp_find_child nm cs (Q : option Z -> ramfs -> Prop) :
  (forall c, c ∈ cs -> is_Some (nodes s !! c)) ->
  Q (child_named nm cs) s -> wp (find_child nm cs) Q s.
Proof.
  induction cs as [|c cs IH]; intros Hcs HQ; cbn [find_child]; [done|].
  destruct (Hcs c) as [n Hn]; [by left|]. wp_steps. apply (wp_get_node c n); [done|].
  assert (named nm c = bool_decide (name n = nm)) as Hnm by (unfold named; by rewrite Hn).
  unfold child_named in *. cbn [list_find] in HQ. rewrite <- Hnm. destruct (named nm c) eqn:E.
  - rewrite decide_True in HQ by done. done.
  - rewrite decide_False in HQ by (intros []). apply IH; [intros c' Hc'; apply Hcs; by right|].
    by destruct (list_find _ cs) as [[i x]|].
Qed.

Lemma child_named_in nm cs c : child_named nm cs = Some c -> c ∈ cs.
Proof.
  unfold child_named. destruct (list_find _ cs) as [[i x]|] eqn:E; [|done]. intros [= <-].
  apply list_find_Some in E as (E & _). by eapply list_elem_of_lookup_2.
Qed.

(** What [ramdisk_find_node] finds. *)
Definition found (p par : Z) : Prop :=
  (p <> 0 -> is_Some (nodes s !! p)) /\
  (par <> 0 -> exists n, nodes s !! par = Some n /\ (p <> 0 -> p ∈ children n /\ p <> root s)) /\
  (p <> 0 -> p <> root s -> par <> 0).

Lemma wp_find_loop rounds : forall path cur par (Q : Z * Z -> ramfs -> Prop),
  found cur par -> cur <> 0 -> (forall p q, found p q -> Q (p, q) s) -> wp (find_loop rounds path cur par) Q s.
Proof using Hs.
  induction rounds as [|rounds IH]; intros path cur par Q Hf Hc HQ; cbn [find_loop]; [by apply HQ|].
  destruct path as [|c path]; [by apply HQ|]. destruct (component (c :: path)) as [comp rest].
  case_bool_decide; [by apply IH|]. destruct (proj1 Hf Hc) as [n Hn]. wp_steps. apply (wp_get_node cur n); [done|].
  wp_steps. apply wp_find_child; [intros x Hx; by apply (n_children _ _ _ (wf_nodes _ Hs cur n Hn))|].
  destruct (child_named comp (children n)) as [child|] eqn:E.
  - apply child_named_in in E. destruct (child_node cur n child Hn E) as (m & Hm & H0 & Hr).
    assert (found child cur) as Hf' by (split_and!; [by exists m|intros _; by exists n|done]).
    case_bool_decide; wp_steps; [by apply HQ|by apply IH].
  - wp_steps. apply HQ. split_and!; [done|intros _; by exists n|done].
Qed.

Lemma wp_find_node path (Q : Z * Z -> ramfs -> Prop) :
  (forall p q, found p q -> Q (p, q) s) -> wp (ramdisk_find_node path) Q s.
Proof using Hs.
  intros HQ. unfold ramdisk_find_node. wp_steps. destruct (Z.eqb_spec (root s) 0) as [E|E]; wp_steps.
  { apply HQ. by split_and!. }
  assert (found 0 0) as H00 by by split_and!.
  assert (found (root s) 0) as Hr0.
  { destruct (wf_root _ Hs E) as (n & Hn & _). split_and!; [by exists n|done|done]. }
  destruct path as [[|c path]|]; wp_steps; [by apply HQ| |by apply HQ].
  assert (wp (if bool_decide (path = []) then ret (root s, 0) else find_loop (length path) path (root s) 0) Q s) as H47.
  { case_bool_decide; wp_steps; [by apply HQ|by apply wp_find_loop]. }
  destruct c as [|p|p]; try by apply HQ. do 6 (destruct p as [p|p|]; try by apply HQ). exact H47.
Qed.
End tree.

(** ** Operations keep the tree well formed *)

(** Changing a node's contents. *)
Lemma wf_update s p n n' : fs_wf s -> nodes s !! p = Some n ->
  children n' = children n -> is_dir n' = is_dir n -> name n' = name n ->
  Z.of_nat (length (data n')) = MAX_DATA -> 0 <= data_size n' <= MAX_DATA ->
  fs_wf (mkFs (<[p := n']> (nodes s)) (root s)).
Proof.
  intros Hs Hp Hc Hd Hn Hl Hz.
  assert (Hget : forall q m, <[p := n']> (nodes s) !! q = Some m ->
    exists m0, nodes s !! q = Some m0 /\ children m = children m0 /\ (q <> p -> m = m0)).
  { intros q m H. destruct (decide (q = p)) as [->|Hne].
    - rewrite lookup_insert_eq in H. injection H as <-. by exists n.
    - rewrite lookup_insert_ne in H by done. by exists m. }
  assert (Hsome : forall q, is_Some (nodes s !! q) -> is_Some (<[p := n']> (nodes s) !! q)).
  { intros q Hq. destruct (decide (q = p)) as [->|Hne]; [rewrite lookup_insert_eq; by eexists|by rewrite lookup_insert_ne]. }
  split; cbn [nodes root].
  - intros Hr. destruct (wf_root _ Hs Hr) as (m & Hm & Hdm). destruct (decide (root s = p)) as [E|Hne].
    + exists n'. rewrite E, lookup_insert_eq. split; [done|]. rewrite Hd. rewrite E in Hm. congruence.
    + exists m. by rewrite lookup_insert_ne.
  - intros q m H. destruct (Hget q m H) as (m0 & Hm0 & Hcm & Hne). pose proof (wf_nodes _ Hs q m0 Hm0) as [].
    split; rewrite ?Hcm; try done.
    + intros c Hcc. destruct (n_children0 c Hcc) as [H1 H2]. split; [by apply Hsome|done].
    + destruct (decide (q = p)) as [->|Hqp]; [|by rewrite Hne]. rewrite lookup_insert_eq in H. injection H as <-.
      rewrite Hn. apply (n_name _ _ _ (wf_nodes _ Hs p n Hp)).
    + destruct (decide (q = p)) as [->|Hqp]; [|by rewrite Hne]. rewrite lookup_insert_eq in H. by injection H as <-.
    + destruct (decide (q = p)) as [->|Hqp]; [|by rewrite Hne]. rewrite lookup_insert_eq in H. by injection H as <-.
  - intros q1 q2 m1 m2 c H1 H2 C1 C2. destruct (Hget _ _ H1) as (a & Ha & Ea & _). destruct (Hget _ _ H2) as (b & Hb & Eb & _).
    rewrite Ea in C1. rewrite Eb in C2. by apply (wf_parents _ Hs q1 q2 a b c).
Qed.

(** A new node under [par]. *)
Lemma wf_new s par p k n : fs_wf s -> nodes s !! par = Some p -> nodes s !! k = None -> k <> 0 -> root s <> 0 ->
  Z.of_nat (length (children p)) < MAX_CHILDREN -> Z.of_nat (length (name n)) < MAX_NAME ->
  children n = [] -> data n = zeros MAX_DATA -> data_size n = 0 ->
  fs_wf (mkFs (<[par := set_children (children p ++ [k]) p]> (<[k := n]> (nodes s))) (root s)).
Proof.
  intros Hs Hp Hk Hk0 Hr Hcount Hname Hc Hd Hz.
  assert (par <> k) as Hne by congruence.
  assert (root s <> k) as Hrk by (intros E; destruct (wf_root _ Hs Hr) as (m & Hm & _); congruence).
  assert (Hget : forall q m, <[par := set_children (children p ++ [k]) p]> (<[k := n]> (nodes s)) !! q = Some m ->
    (q = k /\ m = n) \/ (q = par /\ m = set_children (children p ++ [k]) p) \/ (q <> k /\ q <> par /\ nodes s !! q = Some m)).
  { intros q m H. destruct (decide (q = par)) as [->|H1]; [rewrite lookup_insert_eq in H; injection H as <-; tauto|].
    rewrite lookup_insert_ne in H by done. destruct (decide (q = k)) as [->|H2].
    - rewrite lookup_insert_eq in H. injection H as <-. tauto.
    - rewrite lookup_insert_ne in H by done. tauto. }
  assert (Hold : forall q m c, nodes s !! q = Some m -> c ∈ children m -> is_Some (nodes s !! c) /\ c <> root s /\ c <> k).
  { intros q m c Hq Hcc. destruct (n_children _ _ _ (wf_nodes _ Hs q m Hq) c Hcc) as [H1 H2].
    split_and!; [done|done|]. intros ->. destruct H1 as [x Hx]. congruence. }
  assert (Hsome : forall q, is_Some (nodes s !! q) \/ q = k -> is_Some (<[par := set_children (children p ++ [k]) p]> (<[k := n]> (nodes s)) !! q)).
  { intros q Hq. destruct (decide (q = par)) as [->|H1]; [rewrite lookup_insert_eq; by eexists|].
    rewrite lookup_insert_ne by done. destruct (decide (q = k)) as [->|H2]; [rewrite lookup_insert_eq; by eexists|].
    rewrite lookup_insert_ne by done. by destruct Hq. }
  split; cbn [nodes root].
  - intros _. destruct (wf_root _ Hs Hr) as (m & Hm & Hdm). destruct (decide (root s = par)) as [E|H1].
    + rewrite E, lookup_insert_eq. eexists. split; [done|]. cbn [is_dir set_children]. rewrite E in Hm. congruence.
    + rewrite lookup_insert_ne, lookup_insert_ne by done. by exists m.
  - intros q m H. destruct (Hget q m H) as [[-> ->]|[[-> ->]|(Hq1 & Hq2 & Hq)]].
    + split; rewrite ?Hc, ?Hd, ?Hz; try done.
      * intros c Hcc. by apply not_elem_of_nil in Hcc.
      * apply not_elem_of_nil.
      * constructor.
    + pose proof (wf_nodes _ Hs par p Hp) as []. split; cbn [children set_children name data data_size]; try done.
      * intros c Hcc. rewrite elem_of_app, list_elem_of_singleton in Hcc. cbn [root nodes].
        destruct Hcc as [Hcc | ->]; [|split; [apply Hsome; by right|done]].
        destruct (Hold _ _ c Hp Hcc) as (H1 & H2 & _). split; [apply Hsome; by left|done].
      * rewrite elem_of_app, list_elem_of_singleton. by intros [?| ->].
      * apply list.NoDup_app. split_and!; [done| |apply NoDup_singleton]. intros c Hcc Hck%list_elem_of_singleton. subst c.
        by destruct (Hold _ _ k Hp Hcc) as (_ & _ & ?).
      * rewrite length_app. cbn [length]. lia.
    + pose proof (wf_nodes _ Hs q m Hq) as []. split; try done. intros c Hcc.
      destruct (Hold _ _ c Hq Hcc) as (H1 & H2 & _). split; [apply Hsome; by left|done].
  - intros q1 q2 m1 m2 c H1 H2 C1 C2.
    assert (Hcase : forall q m, <[par := set_children (children p ++ [k]) p]> (<[k := n]> (nodes s)) !! q = Some m -> c ∈ children m ->
      (c = k /\ q = par) \/ (c <> k /\ exists m0, nodes s !! q = Some m0 /\ c ∈ children m0)).
    { intros q m H Cm. destruct (Hget q m H) as [[-> ->]|[[-> ->]|(Hq1 & Hq2 & Hq)]].
      - rewrite Hc in Cm. by apply not_elem_of_nil in Cm.
      - cbn [children set_children] in Cm. rewrite elem_of_app, list_elem_of_singleton in Cm. destruct Cm as [Cm | ->]; [|by left].
        right. split; [by destruct (Hold _ _ c Hp Cm) as (_ & _ & ?)|by exists p].
      - right. split; [by destruct (Hold _ _ c Hq Cm) as (_ & _ & ?)|by exists m]. }
    destruct (Hcase _ _ H1 C1) as [[E1 F1]|[E1 (a & Ha & Ca)]]; destruct (Hcase _ _ H2 C2) as [[E2 F2]|[E2 (b & Hb & Cb)]];
      try congruence. by apply (wf_parents _ Hs q1 q2 a b c).
Qed.

Lemma remove_child_in p cs c : c ∈ remove_child p cs -> c ∈ cs.
Proof.
  induction cs as [|x cs IH]; cbn [remove_child]; [done|]. destruct (x =? p); [by right|].
  intros [->|H]%elem_of_cons; [by left|right; by apply IH].
Qed.
Lemma remove_child_nodup p cs : NoDup cs -> NoDup (remove_child p cs) /\ p ∉ remove_child p cs.
Proof.
  induction 1 as [|x cs Hx Hcs [IH1 IH2]]; cbn [remove_child]; [split; [constructor|apply not_elem_of_nil]|].
  destruct (Z.eqb_spec x p) as [->|Hne]; [done|]. split.
  - constructor; [|done]. intros H. by apply Hx, (remove_child_in p).
  - intros [->|H]%elem_of_cons; done.
Qed.
Lemma remove_child_length p cs : (length (remove_child p cs) <= length cs)%nat.
Proof. induction cs as [|x cs IH]; cbn [remove_child]; [done|]. destruct (x =? p); cbn [length]; lia. Qed.

(** A child is taken out and freed. *)
Lemma wf_unlink s par n p : fs_wf s -> nodes s !! par = Some n -> p ∈ children n ->
  par <> p -> fs_wf (mkFs (delete p (<[par := set_children (remove_child p (children n)) n]> (nodes s))) (root s)).
Proof.
  intros Hs Hp Hin Hne. destruct (n_children _ _ _ (wf_nodes _ Hs par n Hp) p Hin) as [_ Hpr].
  destruct (remove_child_nodup p (children n) (n_nodup _ _ _ (wf_nodes _ Hs par n Hp))) as [Hnd Hnot].
  assert (Hget : forall q m, delete p (<[par := set_children (remove_child p (children n)) n]> (nodes s)) !! q = Some m ->
    q <> p /\ exists m0, nodes s !! q = Some m0 /\ (forall c, c ∈ children m -> c ∈ children m0 /\ c <> p) /\
      (q = par /\ m0 = n /\ m = set_children (remove_child p (children n)) n \/ q <> par /\ m = m0)).
  { intros q m H. destruct (decide (q = p)) as [->|H1]; [by rewrite lookup_delete_eq in H|]. split; [done|].
    rewrite lookup_delete_ne in H by done. destruct (decide (q = par)) as [->|H2].
    - rewrite lookup_insert_eq in H. injection H as <-. exists n. split_and!; [done| |by left]. cbn [children set_children].
      intros c Hc. split; [by apply (remove_child_in p)|]. intros ->. done.
    - rewrite lookup_insert_ne in H by done. exists m. split_and!; [done| |by right]. intros c Hc. split; [done|].
      intros ->. apply H2. by apply (wf_parents _ Hs q par m n p). }
  assert (Hsome : forall q, is_Some (nodes s !! q) -> q <> p ->
    is_Some (delete p (<[par := set_children (remove_child p (children n)) n]> (nodes s)) !! q)).
  { intros q Hq H1. rewrite lookup_delete_ne by done. destruct (decide (q = par)) as [->|H2];
      [rewrite lookup_insert_eq; by eexists|by rewrite lookup_insert_ne]. }
  split; cbn [nodes root].
  - intros Hr. destruct (wf_root _ Hs Hr) as (m & Hm & Hdm). rewrite lookup_delete_ne by done.
    destruct (decide (root s = par)) as [E|H2].
    + rewrite E, lookup_insert_eq. eexists. split; [done|]. cbn [is_dir set_children]. rewrite E in Hm. congruence.
    + rewrite lookup_insert_ne by done. by exists m.
  - intros q m H. destruct (Hget q m H) as (Hq & m0 & Hm0 & Hc & Hm). pose proof (wf_nodes _ Hs q m0 Hm0) as K.
    assert (Hch : forall c, c ∈ children m -> is_Some (delete p (<[par := set_children (remove_child p (children n)) n]> (nodes s)) !! c) /\ c <> root s).
    { intros c Hcc. destruct (Hc c Hcc) as [H1 H2]. destruct (n_children _ _ _ K c H1). split; [by apply Hsome|done]. }
    destruct K. destruct Hm as [(-> & -> & ->)|[Hqp ->]]; split; try done.
    + cbn [children set_children]. intros Hcc. by apply n_self0, (remove_child_in p).
    + cbn [children set_children]. pose proof (remove_child_length p (children n)). lia.
  - intros q1 q2 m1 m2 c H1 H2 C1 C2. destruct (Hget _ _ H1) as (_ & a & Ha & Ca & _). destruct (Hget _ _ H2) as (_ & b & Hb & Cb & _).
    apply (wf_parents _ Hs q1 q2 a b c); [done|done|by apply Ca|by apply Cb].
Qed.

(** The calls of the interface. *)
Inductive call :=
  | CreateDir (path : option (list Z)) (kmalloc : Z)
  | CreateFile (path : option (list Z)) (kmalloc : Z)
  | DirCont (path : option (list Z)) (max_size : Z)
  | DeleteDir (path : option (list Z))
  | DeleteFile (path : option (list Z))
  | Execute (path : option (list Z))
  | WriteFile (path : option (list Z)) (src : list Z) (size : Z)
  | SetCallback (path : option (list Z)) (cb : Z)
  | ReadFile (path : option (list Z)) (max_size : Z)
  | Exists (path : option (list Z))
  | IsDir (path : option (list Z))
  | IsFile (path : option (list Z)).

Definition run_call (c : call) : M ramfs Z :=
  match c with
  | CreateDir path k => ramdisk_create_dir path k
  | CreateFile path k => ramdisk_create_file path k
  | DirCont path n => let* r := ramdisk_get_dir_cont path n in ret (snd r)
  | DeleteDir path => ramdisk_delete_dir path
  | DeleteFile path => ramdisk_delete_file path
  | Execute path => let* r := ramdisk_execute_file path in ret (snd r)
  | WriteFile path src n => ramdisk_write_file path src n
  | SetCallback path cb => ramdisk_set_file_callback path cb
  | ReadFile path n => let* r := ramdisk_read_file path n in ret (snd r)
  | Exists path => ramdisk_fs_exists path
  | IsDir path => ramdisk_fs_is_dir path
  | IsFile path => ramdisk_fs_is_file path
  end.

(** The heap gives a new address or none; names fit; sizes are not negative. *)
Definition call_ok (s : ramfs) (c : call) : Prop :=
  match c with
  | CreateDir (Some path) k | CreateFile (Some path) k =>
      nodes s !! k = None /\ Z.of_nat (length (get_basename path)) < MAX_NAME
  | WriteFile _ src n => 0 <= n <= Z.of_nat (length src)
  | ReadFile _ n => 0 <= n
  | _ => True
  end.

(** The end of an operation that found a node. *)
Lemma wp_found (k : FSNode -> M ramfs Z) s p (Q : Z -> ramfs -> Prop) :
  (p <> 0 -> is_Some (nodes s !! p)) -> p <> 0 ->
  (forall n, nodes s !! p = Some n -> wp (k n) Q s) -> wp (let* n := get_node p in k n) Q s.
Proof. intros Hp Hp0 HQ. destruct (Hp Hp0) as [n Hn]. wp_steps. apply (wp_get_node p n); [done|by apply HQ]. Qed.

Lemma wp_list_loop s max cs (Q : list Z -> ramfs -> Prop) : forall text,
  (forall c, c ∈ cs -> is_Some (nodes s !! c)) -> (forall t, Q t s) -> wp (list_loop max cs text) Q s.
Proof.
  induction cs as [|c cs IH]; intros text Hcs HQ; cbn [list_loop]; [by apply HQ|].
  destruct (Hcs c) as [n Hn]; [by left|]. wp_steps. apply (wp_get_node c n); [done|]. cbv zeta.
  case_match; [by apply HQ|]. apply IH; [|done]. intros c' Hc'. apply Hcs. by right.
Qed.

Lemma wp_new_child s path par k p dir :
  fs_wf s -> nodes s !! par = Some p -> root s <> 0 -> nodes s !! k = None ->
  Z.of_nat (length (get_basename path)) < MAX_NAME ->
  wp (new_child path par k p dir) (fun _ => fs_wf) s.
Proof.
  intros Hs Hp Hr Hk Hlen. unfold new_child. destruct (Z.leb_spec MAX_CHILDREN (Z.of_nat (length (children p)))); wp_steps; [done|].
  destruct (Z.eqb_spec k 0); wp_steps; [done|]. destruct (Z.leb_spec MAX_NAME (Z.of_nat (length (get_basename path)))); [lia|].
  unfold put_node. wp_steps. cbn [nodes root]. by apply wf_new.
Qed.

Lemma wp_unlink s p par n : fs_wf s -> nodes s !! par = Some n -> p ∈ children n -> p <> par ->
  wp (unlink p par) (fun _ => fs_wf) s.
Proof.
  intros Hs Hp Hin Hne. unfold unlink. wp_steps. apply (wp_get_node par n); [done|]. unfold put_node, kfree. wp_steps.
  cbn [nodes root]. by apply wf_unlink.
Qed.

(** the tree of nodes stays well formed: in a well-formed tree every call
    returns - it follows no pointer to a freed node - and leaves a well-formed
    tree: every child pointer leads to a node, no node has two parents, the
    root is a directory and stays. *)
Theorem ramfs_call_safe s c : fs_wf s -> call_ok s c -> wp (run_call c) (fun _ => fs_wf) s.
Proof.
  intros Hs Hok. destruct c as [path k|path k|path n|path|path|path|path src n|path cb|path n|path|path|path];
    cbn [run_call call_ok] in *.
  - unfold ramdisk_create_dir. wp_steps. destruct path as [pa|]; wp_steps; [|done].
    destruct (Z.eqb_spec (root s) 0); wp_steps; [done|]. apply wp_find_node; [done|]. intros p par (Hp & Hpar & _).
    destruct (Z.eqb_spec p 0) as [->|]; cbn [negb]; wp_steps; [|done]. destruct (Z.eqb_spec par 0); wp_steps; [done|].
    destruct (Hpar n0) as (m & Hm & _). apply (wp_get_node par m); [done|]. destruct Hok. by apply wp_new_child.
  - unfold ramdisk_create_file. wp_steps. destruct path as [pa|]; wp_steps; [|done].
    destruct (Z.eqb_spec (root s) 0); wp_steps; [done|]. apply wp_find_node; [done|]. intros p par (Hp & Hpar & _).
    destruct (Z.eqb_spec p 0) as [->|]; cbn [negb]; wp_steps; [|done]. destruct (Z.eqb_spec par 0); wp_steps; [done|].
    destruct (Hpar n0) as (m & Hm & _). apply (wp_get_node par m); [done|].
    destruct (is_dir m); cbn [negb]; wp_steps; [|done]. destruct Hok. by apply wp_new_child.
  - unfold ramdisk_get_dir_cont. wp_steps. apply wp_find_node; [done|]. intros p par (Hp & _).
    destruct (Z.eqb_spec p 0); wp_steps; [done|]. destruct (Hp n0) as [m Hm]. apply (wp_get_node p m); [done|].
    destruct (is_dir m); cbn [negb]; wp_steps; [|done]. apply wp_list_loop; [|done].
    intros x Hx. by apply (n_children _ _ _ (wf_nodes _ Hs p m Hm)).
  - unfold ramdisk_delete_dir. wp_steps. apply wp_find_node; [done|]. intros p par (Hp & Hpar & Hnz).
    destruct (Z.eqb_spec p 0); wp_steps; [done|]. destruct (Hp n) as [m Hm]. apply (wp_get_node p m); [done|]. wp_steps.
    destruct (is_dir m); cbn [negb]; wp_steps; [|done]. destruct (Z.eqb_spec p (root s)); wp_steps; [done|].
    case_match; wp_steps; [done|]. destruct (Hpar (Hnz n n0)) as (q & Hq & Hin). destruct (Hin n) as [Hin' _].
    apply (wp_unlink s p par q); [done..|]. intros ->. by apply (n_self _ _ _ (wf_nodes _ Hs par q Hq)).
  - unfold ramdisk_delete_file. wp_steps. apply wp_find_node; [done|]. intros p par (Hp & Hpar & Hnz).
    destruct (Z.eqb_spec p 0); wp_steps; [done|]. destruct (Hp n) as [m Hm]. apply (wp_get_node p m); [done|]. wp_steps.
    destruct (is_dir m); cbn [negb]; wp_steps; [done|]. destruct (Z.eqb_spec par 0); wp_steps; [done|].
    destruct (Hpar n0) as (q & Hq & Hin). destruct (Hin n) as [Hin' _].
    apply (wp_unlink s p par q); [done..|]. intros ->. by apply (n_self _ _ _ (wf_nodes _ Hs par q Hq)).
  - unfold ramdisk_execute_file. wp_steps. apply wp_find_node; [done|]. intros p par (Hp & _).
    destruct (Z.eqb_spec p 0); wp_steps; [done|]. destruct (Hp n) as [m Hm]. apply (wp_get_node p m); [done|].
    destruct (is_dir m); wp_steps; [done|]. destruct (flags m); case_match; wp_steps; done.
  - unfold ramdisk_write_file. wp_steps. apply wp_find_node; [done|]. intros p par (Hp & _).
    destruct (Z.eqb_spec p 0); wp_steps; [done|]. destruct (Hp n0) as [m Hm]. apply (wp_get_node p m); [done|].
    destruct (is_dir m); wp_steps; [done|]. pose proof (wf_nodes _ Hs p m Hm) as Nm.
    set (k := if MAX_DATA <? n then MAX_DATA else n). assert (0 <= k <= MAX_DATA) as Hk by (unfold k, MAX_DATA; destruct (Z.ltb_spec 4096 n); lia).
    cbv zeta. fold k. destruct (Z.ltb_spec k 0); [lia|]. unfold put_node. wp_steps. apply (wf_update s p m); try done.
    cbn [data set_data]. rewrite length_write_at. apply Nm.
  - unfold ramdisk_set_file_callback. wp_steps. apply wp_find_node; [done|]. intros p par (Hp & _).
    destruct (Z.eqb_spec p 0); wp_steps; [done|]. destruct (Hp n) as [m Hm]. apply (wp_get_node p m); [done|].
    destruct (is_dir m); unfold put_node; wp_steps; [done|]. pose proof (wf_nodes _ Hs p m Hm) as Nm.
    apply (wf_update s p m); try done; apply Nm.
  - unfold ramdisk_read_file. wp_steps. apply wp_find_node; [done|]. intros p par (Hp & _).
    destruct (Z.eqb_spec p 0); wp_steps; [done|]. destruct (Hp n0) as [m Hm]. apply (wp_get_node p m); [done|].
    destruct (is_dir m); wp_steps; [done|]. pose proof (n_size _ _ _ (wf_nodes _ Hs p m Hm)).
    cbv zeta. destruct (Z.ltb_spec n (data_size m)); (case_match; [prop_bools; lia|by wp_steps]).
  - unfold ramdisk_fs_exists. wp_steps. by apply wp_find_node.
  - unfold ramdisk_fs_is_dir. wp_steps. apply wp_find_node; [done|]. intros p par (Hp & _).
    destruct (Z.eqb_spec p 0); wp_steps; [done|]. destruct (Hp n) as [m Hm]. by apply (wp_get_node p m).
  - unfold ramdisk_fs_is_file. wp_steps. apply wp_find_node; [done|]. intros p par (Hp & _).
    destruct (Z.eqb_spec p 0); wp_steps; [done|]. destruct (Hp n) as [m Hm]. by apply (wp_get_node p m).
Qed.

Lemma wf_init k (s : ramfs) : k <> 0 -> nodes s = ∅ -> wp (ramdisk_init_fs k) (fun _ => fs_wf) s.
Proof.
  intros Hk He. unfold ramdisk_init_fs. wp_steps. destruct (Z.eqb_spec k 0) as [|_]; [done|]. unfold put_node. wp_steps.
  cbn [nodes root]. rewrite He. split; cbn [nodes root].
  - intros _. eexists. by rewrite lookup_insert_eq.
  - intros p n H. apply lookup_insert_Some in H as [[<- <-]|[_ H]]; [|by rewrite lookup_empty in H].
    split; cbn [children name data data_size]; try done; [intros c Hc; by apply not_elem_of_nil in Hc|apply not_elem_of_nil|constructor].
  - intros p q n m c Hn Hm C1 C2. apply lookup_insert_Some in Hn as [[<- <-]|[_ H]]; [by apply not_elem_of_nil in C1|by rewrite lookup_empty in H].
Qed.

(** ** Reading back *)

(** The names and the children decide what a path leads to. *)
Definition same_tree (s s' : ramfs) : Prop :=
  root s' = root s /\ forall p, (fun n => (name n, children n)) <$> nodes s' !! p = (fun n => (name n, children n)) <$> nodes s !! p.

Section same.
Context (s s' : ramfs) (Hst : same_tree s s').

Lemma same_node p n : nodes s !! p = Some n -> exists n', nodes s' !! p = Some n' /\ name n' = name n /\ children n' = children n.
Proof using Hst.
  intros Hp. destruct Hst as [_ H]. specialize (H p). rewrite Hp in H. cbn in H.
  destruct (nodes s' !! p) as [n'|]; [|done]. injection H as H1 H2. by exists n'.
Qed.

Lemma find_child_same nm cs r s1 : find_child nm cs s = Some (r, s1) -> s1 = s /\ find_child nm cs s' = Some (r, s').
Proof using Hst.
  induction cs as [|c cs IH]; cbn [find_child]; [by intros [= <- <-]|].
  unfold bind, get_node. destruct (nodes s !! c) as [n|] eqn:E; [|done]. destruct (same_node c n E) as (n' & -> & Hn & _).
  rewrite Hn. case_bool_decide; [by intros [= <- <-]|done].
Qed.

Lemma find_loop_same rounds : forall path cur par r s1,
  find_loop rounds path cur par s = Some (r, s1) -> s1 = s /\ find_loop rounds path cur par s' = Some (r, s').
Proof using Hst.
  induction rounds as [|rounds IH]; intros path cur par r s1; cbn [find_loop]; [by intros [= <- <-]|].
  destruct path as [|c path]; [by intros [= <- <-]|]. destruct (component (c :: path)) as [comp rest].
  case_bool_decide; [apply IH|]. unfold bind, get_node. destruct (nodes s !! cur) as [n|] eqn:E; [|done].
  destruct (same_node cur n E) as (n' & -> & _ & ->).
  destruct (find_child comp (children n) s) as [[f s2]|] eqn:Ef; [|done]. destruct (find_child_same _ _ _ _ Ef) as [-> ->].
  destruct f as [child|]; [|by intros [= <- <-]]. case_bool_decide; [by intros [= <- <-]|apply IH].
Qed.

Lemma find_node_same path r s1 : ramdisk_find_node path s = Some (r, s1) -> s1 = s /\ ramdisk_find_node path s' = Some (r, s').
Proof using Hst.
  unfold ramdisk_find_node, bind, gets. rewrite (proj1 Hst). destruct (root s =? 0); [by intros [= <- <-]|].
  assert (forall q, (if bool_decide (q = []) then ret (root s, 0) else find_loop (length q) q (root s) 0) s = Some (r, s1) ->
    s1 = s /\ (if bool_decide (q = []) then ret (root s, 0) else find_loop (length q) q (root s) 0) s' = Some (r, s')) as H47.
  { intros q. case_bool_decide; [by intros [= <- <-]|apply find_loop_same]. }
  destruct path as [[|c q]|]; [by intros [= <- <-]| |by intros [= <- <-]].
  destruct c as [|p|p]; try by intros [= <- <-]. do 6 (destruct p as [p|p|]; try by intros [= <- <-]). apply H47.
Qed.
End same.

(** what [ramdisk_write_file] stored in a file - all of it, up to the 4096
    bytes a file has room for - is what [ramdisk_read_file] gives back; a
    write that is refused changes nothing. *)
Theorem ramfs_write_read path src n s :
  fs_wf s -> 0 <= n <= Z.of_nat (length src) ->
  wp (ramdisk_write_file path src n) (fun r s1 =>
    (r < 0 /\ s1 = s) \/
    (r = Z.min n MAX_DATA /\ forall max, r <= max ->
       wp (ramdisk_read_file path max) (fun out s2 => out = (slice 0 r src, r) /\ s2 = s1) s1)) s.
Proof.
  intros Hs Hn. unfold ramdisk_write_file. wp_steps.
  destruct (proj1 (wp_run _ _ _) (wp_find_node s Hs path (fun pq s' => found s (fst pq) (snd pq) /\ s' = s) ltac:(done)))
    as ([p par] & s1 & Ef & Hf & ->). cbn [fst snd] in Hf.
  apply wp_run. exists (p, par), s. split; [exact Ef|]. cbn beta iota.
  destruct (Z.eqb_spec p 0) as [|Hp0]; [by left|]. destruct (proj1 Hf Hp0) as [m Hm].
  wp_steps. apply (wp_get_node p m); [done|]. destruct (is_dir m) eqn:Ed; wp_steps; [by left|].
  assert ((if MAX_DATA <? n then MAX_DATA else n) = Z.min n MAX_DATA) as -> by (destruct (Z.ltb_spec MAX_DATA n); lia).
  set (k := Z.min n MAX_DATA). assert (0 <= k <= MAX_DATA) as Hk by (unfold k, MAX_DATA; lia). cbv zeta.
  destruct (Z.ltb_spec k 0); [lia|]. unfold put_node. wp_steps. right. split; [done|]. intros max Hmax.
  set (m' := set_data (write_at (data m) 0 (slice 0 k src)) k m). set (s1 := mkFs (<[p := m']> (nodes s)) (root s)).
  assert (same_tree s s1) as Hst.
  { split; [done|]. intros q. unfold s1. cbn [nodes]. destruct (decide (q = p)) as [->|Hne].
    - rewrite lookup_insert_eq, Hm. done.
    - by rewrite lookup_insert_ne. }
  destruct (find_node_same s s1 Hst path _ _ Ef) as [_ Ef1].
  unfold ramdisk_read_file, wp, bind at 1. rewrite Ef1. cbn beta iota. destruct (Z.eqb_spec p 0); [done|].
  unfold bind, get_node. unfold s1 at 1. cbn [nodes]. rewrite lookup_insert_eq. change (is_dir m') with (is_dir m). rewrite Ed.
  change (data_size m') with k. destruct (Z.ltb_spec max k); [lia|]. cbv zeta. destruct (Z.ltb_spec k 0); [lia|].
  cbn. split; [|done]. f_equal.
  assert (length (slice 0 k src) = Z.to_nat k) as Hl by (apply length_slice; unfold k; lia).
  rewrite <- (Z2Nat.id k) at 1 by lia. rewrite <- Hl. apply slice_write_at_eq; [done|].
  rewrite Hl, (n_data _ _ _ (wf_nodes _ Hs p m Hm)). lia.
Qed.

(** ** A missing directory on the path *)

Lemma component_app x rest : Forall (fun c => is_slash c = false) x -> component (x ++ 47 :: rest) = (x, 47 :: rest).
Proof.
  induction 1 as [|c x Hc Hx IH]; cbn [app component]; [done|]. unfold is_slash in Hc. by rewrite Hc, IH.
Qed.

Lemma basename_last dir y : Forall (fun c => is_slash c = false) y -> y <> [] -> get_basename (dir ++ 47 :: y) = y.
Proof.
  intros Hy Hne. unfold get_basename. rewrite rev_app_distr. cbn [rev]. rewrite <- app_assoc. cbn [app].
  assert (Forall (fun c => is_slash c = false) (rev y)) as Hr by by apply Forall_rev.
  assert (drop_while is_slash (rev y ++ 47 :: rev dir) = rev y ++ 47 :: rev dir) as ->.
  { destruct (rev y) as [|c l] eqn:E; [apply (f_equal (@rev Z)) in E; by rewrite rev_involutive in E|].
    apply list.Forall_cons in Hr as [Hc _]. cbn [app drop_while]. by rewrite Hc. }
  assert (take_while (fun c => negb (is_slash c)) (rev y ++ 47 :: rev dir) = rev y) as ->; [|apply rev_involutive].
  induction Hr as [|c l Hc Hl IH]; cbn [app take_while]; [done|]. rewrite Hc. cbn [negb]. by rewrite IH.
Qed.

(** When the directory "/x" does not exist, creating "/x/y" succeeds and makes
    "/y". *)
Lemma create_dir_misplaces s n x y k :
  fs_wf s -> root s <> 0 -> nodes s !! root s = Some n -> nodes s !! k = None -> k <> 0 ->
  Z.of_nat (length (children n)) < MAX_CHILDREN ->
  Forall (fun c => is_slash c = false) x -> x <> [] -> Forall (fun c => is_slash c = false) y -> y <> [] ->
  Z.of_nat (length y) < MAX_NAME -> child_named s x (children n) = None ->
  wp (ramdisk_create_dir (Some (47 :: x ++ 47 :: y)) k) (fun r s' => r = FS_SUCCESS /\
    exists n' m, nodes s' !! root s = Some n' /\ children n' = children n ++ [k] /\ nodes s' !! k = Some m /\ name m = y) s.
Proof.
  intros Hs Hr Hn Hk Hk0 Hcount Hx Hxne Hy Hyne Hlen Hno. unfold ramdisk_create_dir. wp_steps.
  destruct (Z.eqb_spec (root s) 0) as [|_]; [done|]. wp_steps. unfold ramdisk_find_node. wp_steps.
  destruct (Z.eqb_spec (root s) 0) as [|_]; [done|].
  destruct x as [|c x]; [done|]. rewrite bool_decide_eq_false_2 by done.
  cbn [app length find_loop]. change (c :: x ++ 47 :: y) with ((c :: x) ++ 47 :: y). rewrite component_app by done.
  rewrite bool_decide_eq_false_2 by done. wp_steps. apply (wp_get_node (root s) n); [done|]. wp_steps.
  apply wp_find_child; [intros z Hz; by apply (n_children _ _ _ (wf_nodes _ Hs _ n Hn))|]. rewrite Hno. wp_steps.
  destruct (Z.eqb_spec 0 0) as [_|]; [|done]. cbn [negb]. destruct (Z.eqb_spec (root s) 0) as [|_]; [done|]. wp_steps.
  apply (wp_get_node (root s) n); [done|]. unfold new_child.
  destruct (Z.leb_spec MAX_CHILDREN (Z.of_nat (length (children n)))); [lia|]. destruct (Z.eqb_spec k 0) as [|_]; [done|].
  change (47 :: (c :: x) ++ 47 :: y) with ((47 :: c :: x) ++ 47 :: y). rewrite basename_last by done.
  destruct (Z.leb_spec MAX_NAME (Z.of_nat (length y))); [lia|]. unfold put_node. wp_steps. cbn [nodes root]. split; [done|].
  assert (root s <> k) by congruence. eexists _, _. rewrite lookup_insert_eq, lookup_insert_ne, lookup_insert_eq by done.
  by split_and!.
Qed.

(** ** A small tree *)

(** The root with one file "f". *)
Definition demo_fs : ramfs :=
  mkFs {[ 4096 := mkNode [47] true EXECUTABLE 0 [8192] (zeros 4096) 0 0;
          8192 := mkNode [102] false EXECUTABLE 4096 [] (zeros 4096) 0 0 ]} 4096.

Lemma demo_fs_wf : fs_wf demo_fs.
Proof.
  assert (Hget : forall p n, nodes demo_fs !! p = Some n ->
    (p = 4096 /\ n = mkNode [47] true EXECUTABLE 0 [8192] (zeros 4096) 0 0) \/
    (p = 8192 /\ n = mkNode [102] false EXECUTABLE 4096 [] (zeros 4096) 0 0)).
  { intros p n H. unfold demo_fs in H. cbn [nodes] in H. apply lookup_insert_Some in H as [[<- <-]|[_ H]]; [by left|].
    apply lookup_singleton_Some in H as [<- <-]. by right. }
  split.
  - intros _. eexists. split; [apply lookup_insert_eq|done].
  - intros p n H. destruct (Hget p n H) as [[-> ->]|[-> ->]]; split; cbn [children name data data_size]; try done.
    + intros c ->%list_elem_of_singleton. split; [by eexists|done].
    + by rewrite list_elem_of_singleton.
    + apply NoDup_singleton.
    + intros c Hc. by apply not_elem_of_nil in Hc.
    + apply not_elem_of_nil.
    + constructor.
  - intros p q n m c Hn Hm C1 C2. destruct (Hget _ _ Hn) as [[-> ->]|[-> ->]], (Hget _ _ Hm) as [[-> ->]|[-> ->]]; try done;
      cbn [children] in *; by apply not_elem_of_nil in C1 || by apply not_elem_of_nil in C2.
Qed.

Lemma ramfs_call_safe_witness : wp (run_call (DeleteFile (Some [47; 102]))) (fun _ => fs_wf) demo_fs.
Proof. apply (ramfs_call_safe demo_fs (DeleteFile (Some [47; 102]))); [exact demo_fs_wf|done]. Defined.

Lemma ramfs_write_read_witness : wp (ramdisk_write_file (Some [47; 102]) [1; 2; 3] 3) (fun r s1 =>
    (r < 0 /\ s1 = demo_fs) \/
    (r = Z.min 3 MAX_DATA /\ forall max, r <= max ->
       wp (ramdisk_read_file (Some [47; 102]) max) (fun out s2 => out = (slice 0 r [1; 2; 3], r) /\ s2 = s1) s1)) demo_fs.
Proof. apply (ramfs_write_read (Some [47; 102]) [1; 2; 3] 3 demo_fs); [exact demo_fs_wf|split; done]. Defined.
