(* ===== verification/PhysMem.v ===== *)
(** * Physical memory

    The RAM of the machine as the kernel sees it: one byte per physical
    address, read and written through the higher-half direct map (HHDM) that
    the boot loader leaves in place, where physical address [p] is reachable
    at the kernel virtual address [p + hhdm_offset] (the macros
    [PHYS_TO_VIRT] and [VIRT_TO_PHYS] of src/kernel/mem/pmm.c and vmm.c).

    [memset] and [memcpy] are the byte loops of src/kernel/memory.c, stated
    here as the range updates they perform; [CString] proves the loops equal
    to them. *)

From S2P Require Import Prelude.

(** Contents of RAM: the byte at every physical address. *)
Definition ram : Type := Z -> Z.

(** Every byte holds eight bits. *)
Definition ram_bytes (m : ram) : Prop := forall a, 0 <= m a < 256.

Definition store8 (m : ram) (a v : Z) : ram :=
  fun x => if x =? a then u8 v else m x.

(** Little-endian [uint64_t] access. *)
Definition load64 (m : ram) (a : Z) : Z :=
  m a + 2 ^ 8 * m (a + 1) + 2 ^ 16 * m (a + 2) + 2 ^ 24 * m (a + 3)
  + 2 ^ 32 * m (a + 4) + 2 ^ 40 * m (a + 5) + 2 ^ 48 * m (a + 6)
  + 2 ^ 56 * m (a + 7).

Definition store64 (m : ram) (a v : Z) : ram :=
  fun x => if (a <=? x) && (x <? a + 8) then v / 2 ^ (8 * (x - a)) mod 2 ^ 8 else m x.

(** Little-endian [uint32_t] access. *)
Definition load32 (m : ram) (a : Z) : Z :=
  m a + 2 ^ 8 * m (a + 1) + 2 ^ 16 * m (a + 2) + 2 ^ 24 * m (a + 3).

Definition store32 (m : ram) (a v : Z) : ram :=
  fun x => if (a <=? x) && (x <? a + 4) then v / 2 ^ (8 * (x - a)) mod 2 ^ 8 else m x.

(** [memset(a, v, n)] and [memcpy(d, src, n)]. *)
Definition fill (m : ram) (a n v : Z) : ram :=
  fun x => if (a <=? x) && (x <? a + n) then u8 v else m x.
Definition blit (m : ram) (d : Z) (src : Z -> Z) (n : Z) : ram :=
  fun x => if (d <=? x) && (x <? d + n) then src (x - d) else m x.

(** Two memories with the same contents. *)
Definition ram_eq (m m' : ram) : Prop := forall a, m a = m' a.

#[export] Instance ram_eq_equiv : Equivalence ram_eq.
Proof.
  split; unfold ram_eq.
  - intros m a. done.
  - intros m m' H a. by rewrite H.
  - intros m1 m2 m3 H1 H2 a. by rewrite H1, H2.
Qed.

#[export] Instance load64_proper : Proper (ram_eq ==> eq ==> eq) load64.
Proof. intros m m' H a ? <-. unfold load64. by rewrite !H. Qed.

Lemma load64_agree m m' a :
  (forall x, a <= x < a + 8 -> m x = m' x) -> load64 m a = load64 m' a.
Proof. intros H. unfold load64. rewrite !H by lia. done. Qed.

Lemma load64_range m a : ram_bytes m -> 0 <= load64 m a < 2 ^ 64.
Proof.
  intros H. unfold load64.
  pose proof (H a). pose proof (H (a + 1)). pose proof (H (a + 2)). pose proof (H (a + 3)).
  pose proof (H (a + 4)). pose proof (H (a + 5)). pose proof (H (a + 6)). pose proof (H (a + 7)).
  lia.
Qed.

Lemma store64_outside m a v x : ~ (a <= x < a + 8) -> store64 m a v x = m x.
Proof.
  intros H. unfold store64.
  destruct (Z.leb_spec a x), (Z.ltb_spec x (a + 8)); simpl; lia || done.
Qed.

(** The eight bytes of a 64-bit value put back together. *)
Lemma bytes_of_u64 v :
  0 <= v < 2 ^ 64 ->
  v mod 2 ^ 8 + 2 ^ 8 * (v / 2 ^ 8 mod 2 ^ 8) + 2 ^ 16 * (v / 2 ^ 16 mod 2 ^ 8)
  + 2 ^ 24 * (v / 2 ^ 24 mod 2 ^ 8) + 2 ^ 32 * (v / 2 ^ 32 mod 2 ^ 8)
  + 2 ^ 40 * (v / 2 ^ 40 mod 2 ^ 8) + 2 ^ 48 * (v / 2 ^ 48 mod 2 ^ 8)
  + 2 ^ 56 * (v / 2 ^ 56 mod 2 ^ 8) = v.
Proof.
  intros Hv.
  assert (Hd : forall k j, 0 <= k -> 0 <= j ->
    v / 2 ^ k = v / 2 ^ k mod 2 ^ j + 2 ^ j * (v / 2 ^ (k + j))).
  { intros k j Hk Hj. rewrite Z.pow_add_r, <- Z.div_div by lia.
    pose proof (Z.div_mod (v / 2 ^ k) (2 ^ j)). lia. }
  pose proof (Hd 0 8 ltac:(lia) ltac:(lia)) as H0. pose proof (Hd 8 8 ltac:(lia) ltac:(lia)) as H1.
  pose proof (Hd 16 8 ltac:(lia) ltac:(lia)) as H2. pose proof (Hd 24 8 ltac:(lia) ltac:(lia)) as H3.
  pose proof (Hd 32 8 ltac:(lia) ltac:(lia)) as H4. pose proof (Hd 40 8 ltac:(lia) ltac:(lia)) as H5.
  pose proof (Hd 48 8 ltac:(lia) ltac:(lia)) as H6. pose proof (Hd 56 8 ltac:(lia) ltac:(lia)) as H7.
  change (2 ^ 0) with 1 in H0. rewrite Z.div_1_r in H0.
  assert (v / 2 ^ (56 + 8) = 0) as H8 by (apply Z.div_small; lia). rewrite H8 in H7.
  change (0 + 8) with 8 in H0. change (8 + 8) with 16 in H1. change (16 + 8) with 24 in H2.
  change (24 + 8) with 32 in H3. change (32 + 8) with 40 in H4. change (40 + 8) with 48 in H5.
  change (48 + 8) with 56 in H6. lia.
Qed.

Lemma store64_byte m a v k :
  0 <= k < 8 -> store64 m a v (a + k) = v / 2 ^ (8 * k) mod 2 ^ 8.
Proof.
  intros Hk. unfold store64. destruct (Z.leb_spec a (a + k)); [|lia].
  destruct (Z.ltb_spec (a + k) (a + 8)); [|lia]. simpl.
  by replace (a + k - a) with k by lia.
Qed.

Lemma load64_store64_eq m a v : 0 <= v < 2 ^ 64 -> load64 (store64 m a v) a = v.
Proof.
  intros Hv. unfold load64. rewrite <- (Z.add_0_r a) at 2.
  rewrite !store64_byte by lia. simpl (8 * _).
  change (2 ^ 0) with 1. rewrite Z.div_1_r. by apply bytes_of_u64.
Qed.

Lemma load64_store64_ne m a b v : a + 8 <= b \/ b + 8 <= a -> load64 (store64 m a v) b = load64 m b.
Proof. intros H. apply load64_agree. intros x Hx. apply store64_outside. lia. Qed.

Lemma store64_bytes m a v : ram_bytes m -> ram_bytes (store64 m a v).
Proof.
  intros H x. unfold store64. destruct (_ && _); [|apply H].
  apply Z.mod_pos_bound. lia.
Qed.

Lemma digit_inj a a' b b' :
  0 <= a < 256 -> 0 <= a' < 256 -> a + 256 * b = a' + 256 * b' -> a = a' /\ b = b'.
Proof. lia. Qed.

(** A 64-bit word determines its eight bytes. *)
Lemma load64_inj m m' a :
  ram_bytes m -> ram_bytes m' -> load64 m a = load64 m' a ->
  forall x, a <= x < a + 8 -> m x = m' x.
Proof.
  intros Hb Hb' E x Hx. unfold load64 in E.
  assert (m a + 256 * (m (a + 1) + 256 * (m (a + 2) + 256 * (m (a + 3) + 256 * (m (a + 4)
    + 256 * (m (a + 5) + 256 * (m (a + 6) + 256 * (m (a + 7) + 256 * 0))))))) =
    m' a + 256 * (m' (a + 1) + 256 * (m' (a + 2) + 256 * (m' (a + 3) + 256 * (m' (a + 4)
    + 256 * (m' (a + 5) + 256 * (m' (a + 6) + 256 * (m' (a + 7) + 256 * 0)))))))) as E' by lia.
  clear E.
  do 8 (apply digit_inj in E' as [? E']; [|apply Hb|apply Hb']).
  assert (x = a \/ x = a + 1 \/ x = a + 2 \/ x = a + 3 \/ x = a + 4 \/ x = a + 5
          \/ x = a + 6 \/ x = a + 7) as Hc by lia.
  by destruct Hc as [->|[->|[->|[->|[->|[->|[->| ->]]]]]]].
Qed.

(** Storing back the value just loaded changes nothing. *)
Lemma store64_load64 m a : ram_bytes m -> ram_eq (store64 m a (load64 m a)) m.
Proof.
  intros Hb x. destruct (decide (a <= x < a + 8)) as [Hx|Hx]; [|by apply store64_outside].
  apply load64_inj with a; [by apply store64_bytes|done| |done].
  by apply load64_store64_eq, load64_range.
Qed.

(** The same for 32 bits. *)
Lemma load32_agree m m' a :
  (forall x, a <= x < a + 4 -> m x = m' x) -> load32 m a = load32 m' a.
Proof. intros H. unfold load32. rewrite !H by lia. done. Qed.

Lemma store32_outside m a v x : ~ (a <= x < a + 4) -> store32 m a v x = m x.
Proof.
  intros H. unfold store32.
  destruct (Z.leb_spec a x), (Z.ltb_spec x (a + 4)); simpl; lia || done.
Qed.

Lemma store32_byte m a v k :
  0 <= k < 4 -> store32 m a v (a + k) = v / 2 ^ (8 * k) mod 2 ^ 8.
Proof.
  intros Hk. unfold store32. destruct (Z.leb_spec a (a + k)); [|lia].
  destruct (Z.ltb_spec (a + k) (a + 4)); [|lia]. simpl.
  by replace (a + k - a) with k by lia.
Qed.

Lemma load32_store32_eq m a v : 0 <= v < 2 ^ 32 -> load32 (store32 m a v) a = v.
Proof.
  intros Hv. unfold load32. rewrite <- (Z.add_0_r a) at 2.
  rewrite !store32_byte by lia. simpl (8 * _). change (2 ^ 0) with 1. rewrite Z.div_1_r.
  pose proof (bytes_of_u64 v ltac:(lia)) as E.
  rewrite (Z.div_small v (2 ^ 32)), (Z.div_small v (2 ^ 40)), (Z.div_small v (2 ^ 48)),
    (Z.div_small v (2 ^ 56)) in E by lia.
  rewrite !Zmod_0_l in E. change (8 * 1) with 8. change (8 * 2) with 16. change (8 * 3) with 24. lia.
Qed.

Lemma load32_store32_ne m a b v : a + 4 <= b \/ b + 4 <= a -> load32 (store32 m a v) b = load32 m b.
Proof. intros H. apply load32_agree. intros x Hx. apply store32_outside. lia. Qed.
Lemma load32_store64_ne m a b v : a + 8 <= b \/ b + 4 <= a -> load32 (store64 m a v) b = load32 m b.
Proof. intros H. apply load32_agree. intros x Hx. apply store64_outside. lia. Qed.
Lemma load64_store32_ne m a b v : a + 4 <= b \/ b + 8 <= a -> load64 (store32 m a v) b = load64 m b.
Proof. intros H. apply load64_agree. intros x Hx. apply store32_outside. lia. Qed.

Lemma store32_bytes m a v : ram_bytes m -> ram_bytes (store32 m a v).
Proof.
  intros H x. unfold store32. destruct (_ && _); [|apply H]. apply Z.mod_pos_bound. lia.
Qed.

(** Read back through any number of stores at other or equal addresses. *)
Ltac mem_simpl :=
  repeat first
    [ rewrite load64_store64_eq by lia
    | rewrite load32_store32_eq by lia
    | rewrite load64_store64_ne by lia
    | rewrite load64_store32_ne by lia
    | rewrite load32_store64_ne by lia
    | rewrite load32_store32_ne by lia
    | rewrite store64_outside by lia
    | rewrite store32_outside by lia ].

Lemma fill_outside m a n v x : ~ (a <= x < a + n) -> fill m a n v x = m x.
Proof.
  intros H. unfold fill.
  destruct (Z.leb_spec a x), (Z.ltb_spec x (a + n)); simpl; lia || done.
Qed.

Lemma fill_inside m a n v x : a <= x < a + n -> fill m a n v x = u8 v.
Proof.
  intros H. unfold fill. destruct (Z.leb_spec a x), (Z.ltb_spec x (a + n)); simpl; lia || done.
Qed.

Lemma fill_bytes m a n v : ram_bytes m -> ram_bytes (fill m a n v).
Proof.
  intros H x. unfold fill. destruct (_ && _); [|apply H]. apply u8_range.
Qed.

Lemma load64_fill0 m a n b : a <= b -> b + 8 <= a + n -> load64 (fill m a n 0) b = 0.
Proof. intros H1 H2. unfold load64. rewrite !fill_inside by lia. done. Qed.

Lemma load64_fill_ne m a n v b : b + 8 <= a \/ a + n <= b -> load64 (fill m a n v) b = load64 m b.
Proof. intros H. apply load64_agree. intros x Hx. apply fill_outside. lia. Qed.

Lemma blit_outside m d src n x : ~ (d <= x < d + n) -> blit m d src n x = m x.
Proof.
  intros H. unfold blit.
  destruct (Z.leb_spec d x), (Z.ltb_spec x (d + n)); simpl; lia || done.
Qed.

Lemma blit_inside m d src n x : d <= x < d + n -> blit m d src n x = src (x - d).
Proof.
  intros H. unfold blit. destruct (Z.leb_spec d x), (Z.ltb_spec x (d + n)); simpl; lia || done.
Qed.

Lemma load64_blit_ne m d src n b : b + 8 <= d \/ d + n <= b -> load64 (blit m d src n) b = load64 m b.
Proof. intros H. apply load64_agree. intros x Hx. apply blit_outside. lia. Qed.

#[export] Hint Resolve store32_bytes store64_bytes fill_bytes : kernel.

(** ** The direct map *)
Section hhdm.
Context (hhdm_offset : Z).

Definition PHYS_TO_VIRT (addr : Z) : Z := u64 (addr + hhdm_offset).
Definition VIRT_TO_PHYS (addr : Z) : Z := u64 (addr - hhdm_offset).

Lemma VIRT_PHYS_VIRT p : 0 <= p < 2 ^ 64 -> VIRT_TO_PHYS (PHYS_TO_VIRT p) = p.
Proof. intros Hp. unfold VIRT_TO_PHYS, PHYS_TO_VIRT. by rewrite u64_add_sub, u64_small. Qed.

(** Distinct physical addresses have distinct images in the direct map. *)
Lemma PHYS_TO_VIRT_inj p q :
  0 <= p < 2 ^ 64 -> 0 <= q < 2 ^ 64 -> PHYS_TO_VIRT p = PHYS_TO_VIRT q -> p = q.
Proof.
  intros Hp Hq E. rewrite <- (VIRT_PHYS_VIRT p), <- (VIRT_PHYS_VIRT q), E by done. done.
Qed.
End hhdm.
