(* ===== verification/CString.v ===== *)
(** * C strings and blocks of memory (src/kernel/string.c, memory.c)

    The functions of the two files as loops over the bytes of memory.  A
    memory is a [ram] of PhysMem.v, here of the addresses the running code
    uses; a pointer is an address, NULL is 0, and no object reaches the end of
    the address space.  A [char] is its byte: the comparisons of the code are
    for equality, or convert to [unsigned char] first.

    A loop that runs to the end of a string has fuel; [None] is a string that
    does not end within it.  [cstring m p l] says that the bytes [l] and their
    NUL stand at [p], and the theorems show what the loops compute then. *)

From S2P Require Import Prelude PhysMem.

(** ** Blocks *)

Definition memcpy (dst src n : Z) (m : ram) : ram :=
  for_range (fun i m => store8 m (dst + i) (m (src + i))) 0 (Z.to_nat n) m.

Definition memset (ptr value n : Z) (m : ram) : ram :=
  for_range (fun i m => store8 m (ptr + i) value) 0 (Z.to_nat n) m.

Definition memcmp (m : ram) (ptr1 ptr2 n : Z) : Z :=
  match find_first (fun i => negb (m (ptr1 + i) =? m (ptr2 + i))) 0 (Z.to_nat n) with
  | Some _ => 1
  | None => 0
  end.

(** The upward copy moves byte 0 first, the downward copy byte [n - 1]. *)
Definition memmove (dst src n : Z) (m : ram) : ram :=
  if dst <? src then for_range (fun i m => store8 m (dst + i) (m (src + i))) 0 (Z.to_nat n) m
  else for_range (fun i m => store8 m (dst + n - 1 - i) (m (src + n - 1 - i))) 0 (Z.to_nat n) m.

(** ** Strings *)

Definition str_len (fuel : nat) (m : ram) (s : Z) : option Z :=
  find_first (fun i => m (s + i) =? 0) 0 fuel.

(** The loop of [str_cmp] and [strncmp] goes on while this is false. *)
Definition strings_part (m : ram) (s1 s2 i : Z) : bool :=
  (m (s1 + i) =? 0) || (m (s2 + i) =? 0) || negb (m (s1 + i) =? m (s2 + i)).

Definition str_cmp (fuel : nat) (m : ram) (s1 s2 : Z) : option Z :=
  match find_first (strings_part m s1 s2) 0 fuel with
  | Some i => Some (m (s1 + i) - m (s2 + i))
  | None => None
  end.

Definition strncmp (m : ram) (s1 s2 n : Z) : Z :=
  match find_first (strings_part m s1 s2) 0 (Z.to_nat n) with
  | Some i => m (s1 + i) - m (s2 + i)
  | None => 0
  end.

Fixpoint str_cpy_loop (fuel : nat) (dst src i : Z) (m : ram) : option ram :=
  match fuel with
  | O => None
  | S fuel' =>
      if m (src + i) =? 0 then Some (store8 m (dst + i) 0)
      else str_cpy_loop fuel' dst src (i + 1) (store8 m (dst + i) (m (src + i)))
  end.

Definition str_cpy (fuel : nat) (dst src : Z) (m : ram) : option ram := str_cpy_loop fuel dst src 0 m.

(** The first loop of [strncpy] copies, the second one fills with NULs. *)
Fixpoint strncpy_loop (n : nat) (dst src i : Z) (m : ram) : ram :=
  match n with
  | O => m
  | S n' =>
      if m (src + i) =? 0 then for_range (fun j m => store8 m (dst + j) 0) i n m
      else strncpy_loop n' dst src (i + 1) (store8 m (dst + i) (m (src + i)))
  end.

Definition strncpy (dst src n : Z) (m : ram) : ram := strncpy_loop (Z.to_nat n) dst src 0 m.

(** [kmalloc]: the address the heap gives. *)
Definition strdup (fuel : nat) (kmalloc : Z -> Z) (s : Z) (m : ram) : option (ram * Z) :=
  if s =? 0 then Some (m, 0)
  else
    match str_len fuel m s with
    | None => None
    | Some l =>
        let dup := kmalloc (l + 1) in
        if dup =? 0 then Some (m, 0) else Some (memcpy dup s (l + 1) m, dup)
    end.

Fixpoint strchr (fuel : nat) (m : ram) (s c : Z) : option Z :=
  match fuel with
  | O => None
  | S fuel' =>
      if m s =? 0 then Some (if c =? 0 then s else 0)
      else if m s =? u8 c then Some s
      else strchr fuel' m (s + 1) c
  end.

(** The inner loop of [strstr] matches [needle] at [haystack]. *)
Fixpoint strstr_loop (fuel : nat) (m : ram) (haystack needle : Z) : option Z :=
  match fuel with
  | O => None
  | S fuel' =>
      if m haystack =? 0 then Some 0
      else
        match find_first (strings_part m haystack needle) 0 fuel with
        | None => None
        | Some i =>
            if m (needle + i) =? 0 then Some haystack
            else strstr_loop fuel' m (haystack + 1) needle
        end
  end.

Definition strstr (fuel : nat) (m : ram) (haystack needle : Z) : option Z :=
  if m needle =? 0 then Some haystack else strstr_loop fuel m haystack needle.

(** The scan of [delim] for the character [c]. *)
Definition is_delim (fuel : nat) (m : ram) (delim c : Z) : option bool :=
  match find_first (fun i => (m (delim + i) =? 0) || (c =? m (delim + i))) 0 fuel with
  | Some i => Some (negb (m (delim + i) =? 0))
  | None => None
  end.

(** Walk from [next] over the characters for which the scan says [want]; stop
    at the end of the string.  [bound] is the fuel of the inner loop. *)
Fixpoint strtok_walk (want : bool) (bound fuel : nat) (m : ram) (delim next : Z) : option Z :=
  match fuel with
  | O => None
  | S fuel' =>
      if m next =? 0 then Some next
      else
        match is_delim bound m delim (m next) with
        | None => None
        | Some b => if eqb b want then strtok_walk want bound fuel' m delim (next + 1) else Some next
        end
  end.

(** [strtok(str, delim)] with its static [next]: the memory, [next] and the
    result. *)
Definition strtok (fuel : nat) (str delim : Z) (st : ram * Z) : option (ram * Z * Z) :=
  let '(m, old) := st in
  let next := if str =? 0 then old else str in
  if next =? 0 then Some (m, 0, 0)
  else
    match strtok_walk true fuel fuel m delim next with
    | None => None
    | Some start =>
        if m start =? 0 then Some (m, 0, 0)
        else
          match strtok_walk false fuel fuel m delim start with
          | None => None
          | Some e =>
              if m e =? 0 then Some (m, 0, start)
              else Some (store8 m e 0, e + 1, start)
          end
    end.

(** ** Strings in memory *)

Fixpoint cstring (m : ram) (p : Z) (l : list Z) : Prop :=
  match l with
  | [] => m p = 0
  | c :: l' => m p = c /\ c <> 0 /\ cstring m (p + 1) l'
  end.

Lemma cstring_agree m m' l : forall p,
  (forall x, p <= x <= p + Z.of_nat (length l) -> m' x = m x) -> cstring m p l -> cstring m' p l.
Proof.
  induction l as [|c l IH]; cbn [cstring length]; intros p Heq Hs.
  - rewrite Heq by lia. done.
  - destruct Hs as (<- & Hc & Hs). rewrite Heq by lia. split_and!; [done|done|].
    apply IH; [|done]. intros x Hx. apply Heq. lia.
Qed.

(** A store outside the bytes of a string. *)
Lemma cstring_store m p l a v :
  ~ (p <= a <= p + Z.of_nat (length l)) -> cstring m p l -> cstring (store8 m a v) p l.
Proof.
  intros Ha. apply cstring_agree. intros x Hx. unfold store8. destruct (Z.eqb_spec x a); [lia|done].
Qed.

Lemma cstring_app m a b : forall p,
  cstring m p (a ++ b) <->
  cstring (store8 m (p + Z.of_nat (length a)) 0) p a /\ cstring m (p + Z.of_nat (length a)) b
    /\ (forall k c, a !! k = Some c -> m (p + Z.of_nat k) = c).
Proof.
  induction a as [|c a IH]; cbn [app length cstring]; intros p.
  - rewrite Z.add_0_r. unfold store8. rewrite Z.eqb_refl. split; [|tauto]. intros Hb. split_and!; done.
  - rewrite IH. replace (p + Z.of_nat (S (length a))) with (p + 1 + Z.of_nat (length a)) by lia.
    assert (forall v, store8 m (p + 1 + Z.of_nat (length a)) v p = m p) as Hp.
    { intros v. unfold store8. destruct (Z.eqb_spec p (p + 1 + Z.of_nat (length a))); [lia|done]. }
    rewrite Hp. split.
    + intros (Hm & Hc & Ha & Hb & Hk). split_and!; try done. intros [|k] c' Hkc; cbn in Hkc.
      * injection Hkc as <-. by rewrite Z.add_0_r.
      * replace (p + Z.of_nat (S k)) with (p + 1 + Z.of_nat k) by lia. by apply Hk.
    + intros ((Hm & Hc & Ha) & Hb & Hk). split_and!; try done. intros k c' Hkc.
      replace (p + 1 + Z.of_nat k) with (p + Z.of_nat (S k)) by lia. by apply Hk.
Qed.

(** ** Length, comparison, copies *)

Lemma str_len_from m s l : forall i fuel,
  cstring m (s + i) l -> (length l < fuel)%nat ->
  find_first (fun i => m (s + i) =? 0) i fuel = Some (i + Z.of_nat (length l)).
Proof.
  induction l as [|c l IH]; cbn [cstring length]; intros i [|fuel] Hs Hf; try lia; cbn [find_first].
  - rewrite Hs. rewrite Z.eqb_refl. f_equal. lia.
  - destruct Hs as (-> & Hc & Hs). destruct (Z.eqb_spec c 0); [done|].
    rewrite IH; [f_equal; lia| |lia]. by rewrite Z.add_assoc.
Qed.

Lemma str_len_spec fuel m s l :
  cstring m s l -> (length l < fuel)%nat -> str_len fuel m s = Some (Z.of_nat (length l)).
Proof. intros Hs Hf. unfold str_len. by rewrite (str_len_from m s l) by (rewrite ?Z.add_0_r; done). Qed.

(** The order of two strings: the difference of the first bytes that differ,
    the NUL counting as 0. *)
Fixpoint compare_bytes (a b : list Z) : Z :=
  match a, b with
  | [], [] => 0
  | [], y :: _ => - y
  | x :: _, [] => x
  | x :: a', y :: b' => if x =? y then compare_bytes a' b' else x - y
  end.

Lemma compare_bytes_eq a : forall b,
  Forall (fun c => c <> 0) a -> Forall (fun c => c <> 0) b -> compare_bytes a b = 0 <-> a = b.
Proof.
  induction a as [|x a IH]; intros [|y b] Ha Hb; cbn [compare_bytes].
  - done.
  - inversion Hb; subst. split; [lia|done].
  - inversion Ha; subst. split; [lia|done].
  - inversion Ha; inversion Hb; subst. destruct (Z.eqb_spec x y) as [->|Hne].
    + rewrite IH by done. split; [by intros ->|by intros [= ->]].
    + split; [lia|congruence].
Qed.

Lemma cstring_nonzero m l : forall p, cstring m p l -> Forall (fun c => c <> 0) l.
Proof. induction l as [|c l IH]; cbn; intros p Hs; constructor; [tauto|]. eapply IH, Hs. Qed.

Lemma str_cmp_from m s1 s2 a : forall b i fuel,
  cstring m (s1 + i) a -> cstring m (s2 + i) b -> (length a < fuel)%nat ->
  exists j, find_first (strings_part m s1 s2) i fuel = Some j /\ m (s1 + j) - m (s2 + j) = compare_bytes a b.
Proof.
  induction a as [|x a IH]; intros b i [|fuel] Ha Hb Hf; cbn [length] in Hf; try lia; cbn [find_first];
    unfold strings_part at 1; cbn [cstring] in Ha.
  - rewrite Ha. cbn [Z.eqb orb]. exists i. split; [done|]. rewrite Ha.
    destruct b as [|y b]; cbn [cstring compare_bytes] in *; [lia|]. lia.
  - destruct Ha as (Hx & Hx0 & Ha). rewrite Hx. destruct (Z.eqb_spec x 0); [done|].
    destruct b as [|y b]; cbn [cstring compare_bytes] in Hb |- *.
    + rewrite Hb. cbn. exists i. split; [done|]. lia.
    + destruct Hb as (Hy & Hy0 & Hb). rewrite Hy. destruct (Z.eqb_spec y 0); [done|].
      destruct (Z.eqb_spec x y) as [->|Hne]; cbn [orb negb].
      * apply (IH b (i + 1) fuel); [by rewrite Z.add_assoc|by rewrite Z.add_assoc|lia].
      * exists i. split; [done|]. lia.
Qed.

(** [strcmp] orders strings by their bytes; it gives 0 on equal strings only. *)
Lemma str_cmp_spec fuel m s1 s2 a b :
  cstring m s1 a -> cstring m s2 b -> (length a < fuel)%nat ->
  str_cmp fuel m s1 s2 = Some (compare_bytes a b) /\ (compare_bytes a b = 0 <-> a = b).
Proof.
  intros Ha Hb Hf. split.
  - unfold str_cmp. destruct (str_cmp_from m s1 s2 a b 0 fuel) as (j & -> & <-); rewrite ?Z.add_0_r; done.
  - apply compare_bytes_eq; by eapply cstring_nonzero.
Qed.

Lemma strncmp_from m s1 s2 n : forall a b i,
  cstring m (s1 + i) a -> cstring m (s2 + i) b ->
  match find_first (strings_part m s1 s2) i n with
  | Some j => m (s1 + j) - m (s2 + j) | None => 0 end = compare_bytes (take n a) (take n b).
Proof.
  induction n as [|n IH]; intros a b i Ha Hb; [done|]. cbn [find_first]. unfold strings_part at 1.
  destruct a as [|x a]; cbn [cstring] in Ha.
  - rewrite Ha. cbn [Z.eqb orb]. rewrite Ha. destruct b as [|y b]; cbn [cstring take compare_bytes] in *; lia.
  - destruct Ha as (Hx & Hx0 & Ha). rewrite Hx. destruct (Z.eqb_spec x 0); [done|].
    destruct b as [|y b]; cbn [cstring] in Hb.
    + rewrite Hb. cbn [Z.eqb orb take compare_bytes]. lia.
    + destruct Hb as (Hy & Hy0 & Hb). rewrite Hy. destruct (Z.eqb_spec y 0); [done|].
      cbn [take compare_bytes orb]. destruct (Z.eqb_spec x y) as [->|Hne]; cbn [negb]; [|lia].
      apply (IH a b (i + 1)); by rewrite Z.add_assoc.
Qed.

(** [strncmp] is [strcmp] on the first [n] bytes. *)
Lemma strncmp_spec m s1 s2 n a b :
  cstring m s1 a -> cstring m s2 b ->
  strncmp m s1 s2 n = compare_bytes (take (Z.to_nat n) a) (take (Z.to_nat n) b).
Proof. intros Ha Hb. unfold strncmp. apply strncmp_from; by rewrite Z.add_0_r. Qed.

(** ** Blocks as range updates *)

Lemma store8_at m a v : store8 m a v a = u8 v.
Proof. unfold store8. by rewrite Z.eqb_refl. Qed.
Lemma store8_off m a v x : x <> a -> store8 m a v x = m x.
Proof. intros H. unfold store8. by destruct (Z.eqb_spec x a). Qed.

(** Copying byte after byte upwards, from a place that is not overwritten
    before it is read. *)
Lemma copy_up_spec dst src n m :
  ram_bytes m -> (dst < src \/ src + n <= dst) ->
  ram_eq (for_range (fun i m => store8 m (dst + i) (m (src + i))) 0 (Z.to_nat n) m)
         (blit m dst (fun k => m (src + k)) (0 + Z.of_nat (Z.to_nat n))).
Proof.
  intros Hb Hd. apply (for_range_ind (fun i m' => ram_eq m' (blit m dst (fun k => m (src + k)) i))).
  - intros x. by rewrite blit_outside by lia.
  - intros i m' Hi IH x. destruct (decide (x = dst + i)) as [->|Hx].
    + rewrite store8_at, IH, blit_outside, blit_inside by lia.
      replace (dst + i - dst) with i by lia. apply u8_small, Hb.
    + rewrite store8_off, IH by done. destruct (decide (dst <= x < dst + i)).
      * by rewrite !blit_inside by lia.
      * by rewrite !blit_outside by lia.
Qed.

Lemma copy_down_spec dst src n m :
  ram_bytes m -> src <= dst ->
  ram_eq (for_range (fun i m => store8 m (dst + n - 1 - i) (m (src + n - 1 - i))) 0 (Z.to_nat n) m)
         (blit m dst (fun k => m (src + k)) n).
Proof.
  intros Hb Hd.
  assert (ram_eq (for_range (fun i m => store8 m (dst + n - 1 - i) (m (src + n - 1 - i))) 0 (Z.to_nat n) m)
            (let i := 0 + Z.of_nat (Z.to_nat n) in
             blit m (dst + n - i) (fun k => m (src + n - i + k)) i)) as H.
  { apply (for_range_ind (fun i m' => ram_eq m' (blit m (dst + n - i) (fun k => m (src + n - i + k)) i))).
    - intros x. by rewrite blit_outside by lia.
    - intros i m' Hi IH x. destruct (decide (x = dst + n - 1 - i)) as [->|Hx].
      + rewrite store8_at, IH, blit_outside, blit_inside by lia. rewrite u8_small by apply Hb. f_equal. lia.
      + rewrite store8_off, IH by done. destruct (decide (dst + n - i <= x < dst + n)).
        * rewrite !blit_inside by lia. f_equal. lia.
        * by rewrite !blit_outside by lia. }
  intros x. rewrite (H x). cbn zeta. destruct (decide (0 <= n)) as [Hn|Hn].
  - replace (0 + Z.of_nat (Z.to_nat n)) with n by lia. destruct (decide (dst <= x < dst + n)).
    + rewrite !blit_inside by lia. f_equal. lia.
    + by rewrite !blit_outside by lia.
  - by rewrite !blit_outside by lia.
Qed.

(** [memcpy] of a block onto one that does not overlap it, and [memset]. *)
Lemma memcpy_spec dst src n m :
  ram_bytes m -> 0 <= n -> src + n <= dst \/ dst + n <= src ->
  ram_eq (memcpy dst src n m) (blit m dst (fun k => m (src + k)) n).
Proof.
  intros Hb Hn Hd. unfold memcpy. replace n with (0 + Z.of_nat (Z.to_nat n)) at 2 by lia.
  destruct (decide (n = 0)) as [->|]; [|apply copy_up_spec; [done|lia]].
  intros x. cbn. by rewrite blit_outside by lia.
Qed.

Lemma memset_spec ptr v n m : 0 <= n -> ram_eq (memset ptr v n m) (fill m ptr n v).
Proof.
  intros Hn. unfold memset. replace n with (0 + Z.of_nat (Z.to_nat n)) at 2 by lia.
  apply (for_range_ind (fun i m' => ram_eq m' (fill m ptr i v))).
  - intros x. by rewrite fill_outside by lia.
  - intros i m' Hi IH x. destruct (decide (x = ptr + i)) as [->|Hx].
    + by rewrite store8_at, fill_inside by lia.
    + rewrite store8_off, IH by done. destruct (decide (ptr <= x < ptr + i)).
      * by rewrite !fill_inside by lia.
      * by rewrite !fill_outside by lia.
Qed.

(** [memcmp] gives 0 exactly on equal blocks; it never gives an order. *)
Lemma memcmp_spec m p q n :
  (memcmp m p q n = 0 <-> forall i, 0 <= i < n -> m (p + i) = m (q + i)) /\ 0 <= memcmp m p q n <= 1.
Proof.
  unfold memcmp. destruct (find_first _ 0 (Z.to_nat n)) as [i|] eqn:E.
  - apply find_first_Some in E as (Hi & E & _). apply negb_true_iff, Z.eqb_neq in E.
    split; [|lia]. split; [lia|]. intros H. destruct E. apply H. lia.
  - rewrite find_first_None in E. split; [|lia]. split; [|done]. intros _ i Hi.
    specialize (E i ltac:(lia)). apply negb_false_iff, Z.eqb_eq in E. done.
Qed.

(** [memmove] leaves at the destination the bytes the source held before,
    however the two blocks overlap, and nothing else changes; [memcpy] does so
    when they do not overlap. *)
Theorem memmove_any_overlap dst src n m :
  ram_bytes m -> 0 <= n ->
  ram_eq (memmove dst src n m) (blit m dst (fun k => m (src + k)) n) /\
  (src + n <= dst \/ dst + n <= src -> ram_eq (memcpy dst src n m) (memmove dst src n m)).
Proof.
  intros Hb Hn.
  assert (ram_eq (memmove dst src n m) (blit m dst (fun k => m (src + k)) n)) as H.
  { unfold memmove. destruct (Z.ltb_spec dst src); [|by apply copy_down_spec].
    replace n with (0 + Z.of_nat (Z.to_nat n)) at 2 by lia. apply copy_up_spec; [done|lia]. }
  split; [done|]. intros Hd. rewrite memcpy_spec by done. by rewrite H.
Qed.

Definition alphabet : ram := fun x => u8 (97 + x).

Lemma memmove_any_overlap_witness :
  ram_bytes alphabet /\ 0 <= 3 /\
  map (memmove 1 0 3 alphabet) [0; 1; 2; 3; 4] = [97; 97; 98; 99; 101] /\
  forall x, memmove 1 0 3 alphabet x = blit alphabet 1 (fun k => alphabet (0 + k)) 3 x.
Proof.
  split; [intros x; apply u8_range|]. split; [lia|]. split; [vm_compute; reflexivity|].
  apply (memmove_any_overlap 1 0 3 alphabet); [intros x; apply u8_range|lia].
Defined.

(** ** Copies of strings *)

Lemma str_cpy_loop_spec dst src l : forall fuel i m,
  cstring m (src + i) l -> ram_bytes m -> (length l < fuel)%nat ->
  (dst + i + Z.of_nat (length l) < src + i \/ src + i + Z.of_nat (length l) < dst + i) ->
  exists m', str_cpy_loop fuel dst src i m = Some m' /\ cstring m' (dst + i) l
    /\ forall x, ~ (dst + i <= x <= dst + i + Z.of_nat (length l)) -> m' x = m x.
Proof.
  induction l as [|c l IH]; cbn [cstring length]; intros [|fuel] i m Hs Hb Hf Hd; try lia; cbn [str_cpy_loop].
  - rewrite Hs. cbn. eexists. split; [done|]. split; [by rewrite store8_at|].
    intros x Hx. apply store8_off. lia.
  - destruct Hs as (Hc & Hc0 & Hs). rewrite Hc. destruct (Z.eqb_spec c 0); [done|].
    destruct (IH fuel (i + 1) (store8 m (dst + i) c)) as (m' & E & Hs' & Ho).
    + rewrite Z.add_assoc. apply cstring_store; [lia|done].
    + intros x. unfold store8. destruct (x =? dst + i); [apply u8_range|apply Hb].
    + lia.
    + lia.
    + rewrite !Z.add_assoc in *. exists m'. split; [done|]. split.
      * split_and!; [|done|done]. rewrite Ho, store8_at by lia. rewrite <- Hc. apply u8_small, Hb.
      * intros x Hx. rewrite Ho by lia. apply store8_off. lia.
Qed.

(** [strcpy] copies the string and its NUL. *)
Lemma str_cpy_spec fuel dst src l m :
  cstring m src l -> ram_bytes m -> (length l < fuel)%nat ->
  (dst + Z.of_nat (length l) < src \/ src + Z.of_nat (length l) < dst) ->
  exists m', str_cpy fuel dst src m = Some m' /\ cstring m' dst l
    /\ forall x, ~ (dst <= x <= dst + Z.of_nat (length l)) -> m' x = m x.
Proof.
  intros Hs Hb Hf Hd. pose proof (str_cpy_loop_spec dst src l fuel 0 m) as H. rewrite !Z.add_0_r in H. by apply H.
Qed.

Lemma zeros_spec dst i n m :
  forall x, for_range (fun j m => store8 m (dst + j) 0) i n m x
            = if decide (dst + i <= x < dst + i + Z.of_nat n) then 0 else m x.
Proof.
  revert i m. induction n as [|n IH]; intros i m x; cbn [for_range].
  - rewrite decide_False by lia. done.
  - rewrite IH. destruct (decide (x = dst + i)) as [->|Hx].
    + rewrite decide_False by lia. rewrite store8_at, decide_True by lia. done.
    + rewrite store8_off by done. destruct (decide (dst + i <= x < dst + i + Z.of_nat (S n))).
      * by rewrite decide_True by lia.
      * by rewrite decide_False by lia.
Qed.

Lemma strncpy_loop_spec dst src l : forall n i m,
  cstring m (src + i) l -> ram_bytes m ->
  (dst + i + Z.of_nat n <= src + i \/ src + i + Z.of_nat (length l) < dst + i) ->
  forall x, strncpy_loop n dst src i m x
            = if decide (dst + i <= x < dst + i + Z.of_nat n) then aget 0 l (x - dst - i) else m x.
Proof.
  induction l as [|c l IH]; intros [|n] i m Hs Hb Hd x; cbn [strncpy_loop].
  1, 3: by rewrite decide_False by lia.
  - cbn [cstring] in Hs. rewrite Hs. cbn [Z.eqb]. rewrite zeros_spec. case_decide; [|done].
    symmetry. apply aget_outside. cbn. lia.
  - cbn [cstring length] in Hs, Hd. destruct Hs as (Hc & Hc0 & Hs). rewrite Hc.
    destruct (Z.eqb_spec c 0); [done|]. rewrite IH; cycle 1.
    + rewrite Z.add_assoc. apply cstring_store; [lia|done].
    + intros y. unfold store8. destruct (y =? dst + i); [apply u8_range|apply Hb].
    + lia.
    + destruct (decide (x = dst + i)) as [->|Hx].
      * rewrite decide_False, store8_at, decide_True by lia. replace (dst + i - dst - i) with 0 by lia.
        cbn. rewrite <- Hc. apply u8_small, Hb.
      * rewrite store8_off by done. destruct (decide (dst + i <= x < dst + i + Z.of_nat (S n))).
        -- rewrite decide_True by lia. unfold aget. destruct (Z.leb_spec 0 (x - dst - (i + 1))); [|lia].
           destruct (Z.leb_spec 0 (x - dst - i)); [|lia].
           replace (Z.to_nat (x - dst - i)) with (S (Z.to_nat (x - dst - (i + 1)))) by lia. done.
        -- by rewrite decide_False by lia.
Qed.

(** [strncpy] writes exactly [n] bytes: the string, cut at [n], then NULs. *)
Lemma strncpy_spec dst src n l m :
  cstring m src l -> ram_bytes m -> 0 <= n ->
  (dst + n <= src \/ src + Z.of_nat (length l) < dst) ->
  ram_eq (strncpy dst src n m) (blit m dst (aget 0 l) n).
Proof.
  intros Hs Hb Hn Hd x. unfold strncpy. rewrite (strncpy_loop_spec dst src l); cycle 1.
  - by rewrite Z.add_0_r.
  - done.
  - lia.
  - case_decide.
    + rewrite blit_inside by lia. f_equal. lia.
    + by rewrite blit_outside by lia.
Qed.

(** ** Searching *)

Lemma strchr_spec fuel m l : forall s c,
  cstring m s l -> ram_bytes m -> (length l < fuel)%nat -> 0 <= c < 256 ->
  strchr fuel m s c =
    Some (match list_find (fun x => x = c) (l ++ [0]) with Some (i, _) => s + Z.of_nat i | None => 0 end).
Proof.
  revert fuel. induction l as [|x l IH]; intros [|fuel] s c Hs Hb Hf Hc; cbn [length] in Hf; try lia;
    cbn [strchr cstring app list_find] in *.
  - rewrite Hs. cbn [Z.eqb]. destruct (Z.eqb_spec c 0) as [->|].
    + rewrite decide_True by done. f_equal. lia.
    + by rewrite decide_False by lia.
  - destruct Hs as (Hx & Hx0 & Hs). rewrite Hx. destruct (Z.eqb_spec x 0); [done|].
    rewrite (u8_small c) by done. destruct (Z.eqb_spec x c) as [->|].
    + rewrite decide_True by done. f_equal. lia.
    + rewrite decide_False, IH by (done || lia). f_equal.
      destruct (list_find _ _) as [[i ?]|]; cbn [fmap option_fmap option_map prod_map fst id]; [|done]. cbn. lia.
Qed.

Fixpoint search (needle hay : list Z) : option nat :=
  match hay with
  | [] => None
  | _ :: hay' => if decide (needle `prefix_of` hay) then Some O else S <$> search needle hay'
  end.

Lemma match_spec m h n hs : forall ns i fuel,
  cstring m (h + i) hs -> cstring m (n + i) ns -> (length hs < fuel)%nat ->
  exists j, find_first (strings_part m h n) i fuel = Some j /\ (m (n + j) = 0 <-> ns `prefix_of` hs).
Proof.
  induction hs as [|x hs IH]; intros ns i [|fuel] Hh Hn Hf; cbn [length] in Hf; try lia; cbn [find_first];
    unfold strings_part at 1; cbn [cstring] in Hh.
  - rewrite Hh. exists i. split; [done|]. destruct ns as [|y ns]; cbn [cstring] in Hn.
    + split; [|done]. intros _. apply prefix_nil.
    + destruct Hn as (-> & Hy & _). split; [done|]. by intros [k [=]].
  - destruct Hh as (Hx & Hx0 & Hh). rewrite Hx. destruct (Z.eqb_spec x 0); [done|].
    destruct ns as [|y ns]; cbn [cstring] in Hn.
    + rewrite Hn. exists i. split; [done|]. split; [|done]. intros _. apply prefix_nil.
    + destruct Hn as (Hy & Hy0 & Hn). rewrite Hy. destruct (Z.eqb_spec y 0); [done|].
      destruct (Z.eqb_spec x y) as [->|Hne]; cbn [orb negb].
      * destruct (IH ns (i + 1) fuel) as (j & E & Hj); [by rewrite Z.add_assoc|by rewrite Z.add_assoc|lia|].
        exists j. split; [done|]. rewrite Hj. split; [apply prefix_cons|apply prefix_cons_inv_2].
      * exists i. split; [done|]. rewrite Hy. split; [done|]. intros H%prefix_cons_inv_1. congruence.
Qed.

(** [strstr] finds the first place where [needle] occurs. *)
Lemma strstr_spec fuel m n ns hs : forall h,
  cstring m h hs -> cstring m n ns -> ns <> [] -> (length hs < fuel)%nat ->
  strstr fuel m h n = Some (match search ns hs with Some k => h + Z.of_nat k | None => 0 end).
Proof.
  intros h Hh Hn Hne Hf. unfold strstr. destruct ns as [|y ns]; [done|].
  assert (m n <> 0) as Hn0 by (destruct Hn as (-> & ? & _); done).
  destruct (Z.eqb_spec (m n) 0); [done|]. revert fuel h Hh Hf.
  induction hs as [|x hs IH]; intros [|fuel] h Hh Hf; cbn [length] in Hf; try lia; cbn [strstr_loop].
  - cbn in Hh. by rewrite Hh.
  - pose proof Hh as (Hx & Hx0 & Hh'). destruct (Z.eqb_spec (m h) 0); [congruence|].
    destruct (match_spec m h n (x :: hs) (y :: ns) 0 (S fuel)) as (j & E & Hj);
      [by rewrite Z.add_0_r|by rewrite Z.add_0_r|cbn; lia|].
    rewrite E. cbn [search]. destruct (Z.eqb_spec (m (n + j)) 0) as [Hz|Hz].
    + rewrite decide_True by tauto. f_equal. lia.
    + rewrite decide_False by tauto. rewrite IH by (done || lia). f_equal.
      destruct (search _ hs) as [k|]; cbn; lia.
Qed.

(** ** Tokens *)

(** The longest prefix whose bytes satisfy [p], and the rest. *)
Fixpoint span (p : Z -> bool) (l : list Z) : list Z * list Z :=
  match l with
  | [] => ([], [])
  | c :: l' => if p c then let '(a, b) := span p l' in (c :: a, b) else ([], l)
  end.

Lemma span_spec p l a b :
  span p l = (a, b) -> l = a ++ b /\ Forall (fun c => p c = true) a /\ (forall c b', b = c :: b' -> p c = false).
Proof.
  revert a b. induction l as [|c l IH]; cbn [span]; intros a b H.
  - injection H as <- <-. split_and!; [done|constructor|done].
  - destruct (p c) eqn:Ec.
    + destruct (span p l) as [a' b']. injection H as <- <-. destruct (IH _ _ eq_refl) as (-> & Ha & Hb).
      split_and!; [done|by constructor|done].
    + injection H as <- <-. split_and!; [done|constructor|]. by intros ? ? [= <- <-].
Qed.

(** The nonempty pieces of [l] between bytes of [ds]. *)
Fixpoint fields (ds cur l : list Z) : list (list Z) :=
  match l with
  | [] => [cur]
  | c :: l' => if decide (c ∈ ds) then cur :: fields ds [] l' else fields ds (cur ++ [c]) l'
  end.
Definition words (ds l : list Z) : list (list Z) := filter (fun w => w <> []) (fields ds [] l).

Lemma words_skip ds a l : Forall (fun c => c ∈ ds) a -> words ds (a ++ l) = words ds l.
Proof.
  induction a as [|c a IH]; intros Ha; [done|]. inversion Ha; subst. unfold words. cbn [app fields].
  rewrite decide_True by done. rewrite filter_cons_False by (intros H; by destruct H). by apply IH.
Qed.

Lemma fields_word ds a : forall cur l,
  Forall (fun c => c ∉ ds) a -> fields ds cur (a ++ l) = fields ds (cur ++ a) l.
Proof.
  induction a as [|c a IH]; intros cur l Ha; cbn [app fields]; [by rewrite app_nil_r|].
  inversion Ha; subst. rewrite decide_False by done. rewrite IH by done. by rewrite <- app_assoc.
Qed.

Lemma words_word ds a l :
  a <> [] -> Forall (fun c => c ∉ ds) a -> (l = [] \/ exists c l', l = c :: l' /\ c ∈ ds) ->
  words ds (a ++ l) = a :: words ds (tail l).
Proof.
  intros Hne Ha Hl. unfold words. rewrite fields_word by done. cbn [app].
  destruct Hl as [->|(c & l' & -> & Hc)]; cbn [fields tail].
  - by rewrite filter_cons_True by done.
  - rewrite decide_True by done. by rewrite filter_cons_True by done.
Qed.

Lemma is_delim_spec fuel m d ds c :
  cstring m d ds -> c <> 0 -> (length ds < fuel)%nat -> is_delim fuel m d c = Some (bool_decide (c ∈ ds)).
Proof.
  intros Hd Hc Hf. unfold is_delim.
  assert (forall ds i fuel, cstring m (d + i) ds -> (length ds < fuel)%nat ->
    exists j, find_first (fun i => (m (d + i) =? 0) || (c =? m (d + i))) i fuel = Some j
      /\ negb (m (d + j) =? 0) = bool_decide (c ∈ ds)) as H.
  { clear ds fuel Hd Hf. induction ds as [|x ds IH]; intros i [|fuel] Hd Hf; cbn [length] in Hf; try lia;
      cbn [find_first cstring] in *.
    - rewrite Hd. exists i. rewrite Hd. split; [done|]. symmetry. apply bool_decide_eq_false. set_solver.
    - destruct Hd as (Hx & Hx0 & Hd). rewrite Hx. destruct (Z.eqb_spec x 0); [done|].
      destruct (Z.eqb_spec c x) as [->|Hne]; cbn [orb].
      + exists i. rewrite Hx. split; [done|]. destruct (Z.eqb_spec x 0); [done|]. symmetry.
        apply bool_decide_eq_true. set_solver.
      + destruct (IH (i + 1) fuel) as (j & E & Hj); [by rewrite Z.add_assoc|lia|]. exists j. split; [done|].
        rewrite Hj. apply bool_decide_ext. rewrite elem_of_cons. tauto. }
  destruct (H ds 0 fuel) as (j & -> & <-); [by rewrite Z.add_0_r|done|done].
Qed.

Section strtok.
Context (ds : list Z) (delim : Z) (fuel : nat).
Hypothesis Hdf : (length ds < fuel)%nat.

(** The delimiters stand apart from the string at [p]. *)
Definition apart_from (p : Z) (l : list Z) : Prop :=
  delim + Z.of_nat (length ds) < p \/ p + Z.of_nat (length l) < delim.

Lemma strtok_walk_spec want m l : forall p n,
  cstring m delim ds -> cstring m p l -> (length l < n)%nat ->
  strtok_walk want fuel n m delim p =
    Some (p + Z.of_nat (length (span (fun c => eqb (bool_decide (c ∈ ds)) want) l).1)).
Proof using Hdf.
  induction l as [|c l IH]; intros p [|n] Hd Hs Hn; cbn [length] in Hn; try lia; cbn [strtok_walk cstring span] in *.
  - rewrite Hs. cbn. f_equal. lia.
  - destruct Hs as (-> & Hc & Hs). destruct (Z.eqb_spec c 0); [done|].
    rewrite (is_delim_spec fuel m delim ds c) by done. destruct (eqb _ want).
    + rewrite IH by (done || lia). destruct (span _ l) as [a b]. cbn [fst length]. f_equal. lia.
    + cbn. f_equal. lia.
Qed.

(** One call from the place [p] the static pointer or the argument gives. *)
Lemma strtok_step str old p l m :
  (if str =? 0 then old else str) = p -> 0 < p -> cstring m delim ds -> cstring m p l -> (length l < fuel)%nat ->
  apart_from p l ->
  match words ds l with
  | [] => strtok fuel str delim (m, old) = Some (m, 0, 0)
  | w :: ws => exists m' next start, strtok fuel str delim (m, old) = Some (m', next, start)
      /\ p <= start /\ cstring m' start w /\ cstring m' delim ds /\
      (forall x, ~ (p <= x <= p + Z.of_nat (length l)) -> m' x = m x) /\
      (next = 0 /\ ws = [] \/ exists l', next = start + Z.of_nat (length w) + 1 /\ cstring m' next l' /\ ws = words ds l'
         /\ next + Z.of_nat (length l') = p + Z.of_nat (length l))
  end.
Proof using Hdf.
  intros Hnext Hp Hd Hs Hf Hap. unfold strtok. rewrite Hnext. destruct (Z.eqb_spec p 0); [lia|].
  rewrite (strtok_walk_spec true m l p fuel) by done.
  destruct (span _ l) as [a b] eqn:E. apply span_spec in E as (-> & Ha & Hb). cbn [fst].
  assert (Forall (fun c => c ∈ ds) a) as Ha'.
  { eapply list.Forall_impl; [exact Ha|]. cbn. intros c Hc. apply eqb_prop, bool_decide_eq_true in Hc. done. }
  rewrite words_skip by done. apply cstring_app in Hs as (_ & Hs & _).
  set (start := p + Z.of_nat (length a)) in *. unfold apart_from in Hap. rewrite length_app in Hf, Hap.
  destruct b as [|c b]; [cbn in Hs; rewrite Hs; done|].
  pose proof Hs as (Hc & Hc0 & _). destruct (Z.eqb_spec (m start) 0); [congruence|].
  rewrite (strtok_walk_spec false m (c :: b) start fuel) by (done || lia).
  destruct (span _ (c :: b)) as [w r] eqn:E. cbn [fst]. rewrite length_app.
  assert (w <> []) as Hw.
  { intros ->. apply span_spec in E as (E & _ & Hr). cbn in E. subst r.
    specialize (Hb c b eq_refl). specialize (Hr c b eq_refl). cbn in Hb, Hr. by destruct (bool_decide _). }
  apply span_spec in E as (E & Hwd & Hr). rewrite E in Hs, Hf, Hap |- *. rewrite length_app in *.
  assert (Forall (fun c => c ∉ ds) w) as Hwd'.
  { eapply list.Forall_impl; [exact Hwd|]. cbn. intros x Hx. apply eqb_prop, bool_decide_eq_false in Hx. done. }
  apply cstring_app in Hs as (Hws & Hrs & Hwk). set (e := start + Z.of_nat (length w)) in *.
  assert (forall x, ~ (p <= x <= p + Z.of_nat (length a + (length w + length r))) -> store8 m e 0 x = m x) as Hout.
  { intros x Hx. apply store8_off. lia. }
  destruct r as [|x r].
  - cbn in Hrs. rewrite Hrs. cbn [Z.eqb]. rewrite words_word by (by left || done). cbn [tail].
    exists m, 0, start. split_and!; [done|lia| |done|done|by left].
    eapply cstring_agree; [|exact Hws]. intros x Hx. unfold store8. destruct (Z.eqb_spec x e) as [->|]; [by rewrite Hrs|done].
  - assert (x ∈ ds) as Hx.
    { specialize (Hr x r eq_refl). cbn in Hr. destruct (decide (x ∈ ds)) as [|Hx]; [done|]. by rewrite bool_decide_eq_false_2 in Hr. }
    destruct Hrs as (Hx1 & Hx0 & Hrs). destruct (Z.eqb_spec (m e) 0); [congruence|].
    rewrite words_word by (done || right; eauto). cbn [tail].
    exists (store8 m e 0), (e + 1), start. cbn [length] in *. split_and!; [done|lia|done| |done|].
    + apply cstring_store; [lia|done].
    + right. exists r. split_and!; [done| |done|lia]. apply cstring_store; [lia|done].
Qed.

(** A string is cut in pieces by a call with the string and then calls with
    NULL, until one gives NULL. *)
Fixpoint strtok_run (calls : nat) (str : Z) (st : ram * Z) : option (ram * list Z) :=
  match calls with
  | O => None
  | S calls' =>
      match strtok fuel str delim st with
      | None => None
      | Some (m, next, r) =>
          if r =? 0 then Some (m, [])
          else match strtok_run calls' 0 (m, next) with
               | Some (m', rs) => Some (m', r :: rs)
               | None => None
               end
      end
  end.

Lemma strtok_run_spec n : forall str old p l m,
  (if str =? 0 then old else str) = p -> 0 < p -> cstring m delim ds -> cstring m p l -> (length l < fuel)%nat ->
  apart_from p l -> (length (words ds l) < n)%nat ->
  exists m' ps, strtok_run n str (m, old) = Some (m', ps) /\ Forall2 (cstring m') ps (words ds l) /\
    forall x, ~ (p <= x <= p + Z.of_nat (length l)) -> m' x = m x.
Proof using Hdf.
  induction n as [|n IH]; intros str old p l m Hnext Hp Hd Hs Hf Hap Hn; [lia|]. cbn [strtok_run].
  pose proof (strtok_step str old p l m Hnext Hp Hd Hs Hf Hap) as Hstep.
  destruct (words ds l) as [|w ws]; [rewrite Hstep; exists m, []; split_and!; [done|constructor|done]|].
  destruct Hstep as (m1 & next & start & -> & Hst & Hw & Hd1 & Ho & Hrest).
  destruct (Z.eqb_spec start 0); [lia|]. cbn [length] in Hn.
  destruct Hrest as [[-> ->]|(l' & -> & Hl' & -> & Hend)].
  - destruct n as [|n]; [lia|]. cbn [strtok_run strtok Z.eqb].
    exists m1, [start]. split_and!; [done|by repeat constructor|done].
  - destruct (IH 0 (start + Z.of_nat (length w) + 1) (start + Z.of_nat (length w) + 1) l' m1) as (m' & ps & -> & Hps & Ho');
      [done|lia|done|done|lia|unfold apart_from in *; lia|lia|].
    exists m', (start :: ps). split_and!; [done| |].
    + constructor; [|done]. eapply cstring_agree; [|exact Hw]. intros x Hx. apply Ho'. lia.
    + intros x Hx. rewrite Ho' by lia. apply Ho. lia.
Qed.
End strtok.

(** calling [strtok] with a string and then with NULL until it returns
    NULL gives pointers to exactly the nonempty pieces of the string between
    the delimiters, in order, each ended by its own NUL; no byte outside the
    string changes, and the calls end. *)
Theorem strtok_splits fuel ds delim str l m old :
  cstring m delim ds -> cstring m str l -> 0 < str ->
  (length ds < fuel)%nat -> (length l < fuel)%nat -> apart_from ds delim str l ->
  exists m' ps, strtok_run delim fuel (S (length (words ds l))) str (m, old) = Some (m', ps) /\
    Forall2 (cstring m') ps (words ds l) /\
    forall x, ~ (str <= x <= str + Z.of_nat (length l)) -> m' x = m x.
Proof.
  intros Hd Hs Hp Hfd Hf Hap. apply (strtok_run_spec ds delim fuel Hfd) with (p := str); try done; [|lia].
  destruct (Z.eqb_spec str 0); [lia|done].
Qed.

(** "/a//bc" at 8, the delimiter "/" at 4. *)
Definition path_memory : ram :=
  fun x => aget 0 [47] (x - 4) + aget 0 [47; 97; 47; 47; 98; 99] (x - 8).

Lemma strtok_splits_witness :
  words [47] [47; 97; 47; 47; 98; 99] = [[97]; [98; 99]] /\
  exists m' ps, strtok_run 4 20 3 8 (path_memory, 0) = Some (m', ps) /\ Forall2 (cstring m') ps [[97]; [98; 99]].
Proof.
  split; [vm_compute; reflexivity|].
  destruct (strtok_splits 20 [47] 4 8 [47; 97; 47; 47; 98; 99] path_memory 0) as (m' & ps & E & Hps & _).
  - repeat split; vm_compute; congruence.
  - repeat split; vm_compute; congruence.
  - lia.
  - cbn. lia.
  - cbn. lia.
  - left. cbn. lia.
  - exists m', ps. split; [exact E|exact Hps].
Defined.
