(* ===== verification/Errno.v ===== *)
(** * Error codes (src/kernel/errno/errno.h, errno.c)

    A system call that fails returns [serror(E)], the 64-bit negation of the
    code; a VFS call converts that to [int], which is [- E]. *)

From S2P Require Import Prelude.

Definition EPERM : Z := 1.
Definition ENOENT : Z := 2.
Definition ESRCH : Z := 3.
Definition EIO : Z := 5.
Definition EBADF : Z := 9.
Definition ENOMEM : Z := 12.
Definition EACCES : Z := 13.
Definition EFAULT : Z := 14.
Definition EEXIST : Z := 17.
Definition ENODEV : Z := 19.
Definition ENOTDIR : Z := 20.
Definition EINVAL : Z := 22.
Definition ENFILE : Z := 23.
Definition EMFILE : Z := 24.
Definition ESPIPE : Z := 29.
Definition ERANGE : Z := 34.
Definition ENOTSOCK : Z := 88.
Definition EDESTADDRREQ : Z := 89.
Definition ESOCKTNOSUPPORT : Z := 94.
Definition EOPNOTSUPP : Z := 95.
Definition EAFNOSUPPORT : Z := 97.
Definition EADDRINUSE : Z := 98.
Definition ECONNREFUSED : Z := 111.

Definition serror (err : Z) : Z := u64 (- u64 err).

(** [(int)serror(err)]. *)
Definition int_error (err : Z) : Z := int32 (serror err).

Lemma int_error_neg err : 0 <= err < 2 ^ 31 -> int_error err = - err.
Proof.
  intros H. unfold int_error, serror. rewrite (u64_small err) by lia.
  unfold int32, u32, u64. rewrite Z.mod_mod_divide by (by exists (2 ^ 32)).
  destruct (decide (err = 0)) as [->|]; [done|].
  rewrite Z_mod_nz_opp_full; rewrite Z.mod_small by lia; [|lia].
  unfold int_of_u32. destruct (Z.ltb_spec (2 ^ 32 - err) (2 ^ 31)); lia.
Qed.
