(* ===== verification/Stdio.v ===== *)
(** * Formatted output and the log (src/kernel/stdio.c, debug.c, util/str_to_int.h)

    Every function writes to one descriptor; here it returns the bytes it
    writes there.  [VFS_Write_old] sends them to the console or to the debug
    port; the two streams are its result.

    The variable arguments are a list: an integer is the 64 bits of its
    register, of which [va_arg] takes as many as the type has; a string is its
    bytes.  An argument that is missing, or of the other kind, is undefined
    behaviour ([None]). *)

From S2P Require Import Prelude Config Errno.
From stdpp Require Import strings.
#[local] Open Scope Z_scope.

Definition text (s : string) : list Z := map (fun c => Z.of_nat (Ascii.nat_of_ascii c)) (String.list_ascii_of_string s).

Inductive PRINTF_STATE := PRINTF_STATE_NORMAL | PRINTF_STATE_LENGTH | PRINTF_STATE_LENGTH_SHORT
  | PRINTF_STATE_LENGTH_LONG | PRINTF_STATE_SPEC.
Inductive PRINTF_LENGTH := PRINTF_LENGTH_DEFAULT | PRINTF_LENGTH_SHORT_SHORT | PRINTF_LENGTH_SHORT
  | PRINTF_LENGTH_LONG | PRINTF_LENGTH_LONG_LONG.
Inductive varg := VInt (reg : Z) | VStr (s : list Z).

Definition g_HexChars : list Z := text "0123456789abcdef".

(** ** Numbers *)

(** The [do] loop: the characters in the order they are stored.  A number
    below [2^64] has at most 64 digits. *)
Fixpoint digit_loop (fuel : nat) (number radix : Z) : list Z :=
  match fuel with
  | O => []
  | S fuel' =>
      aget 0 g_HexChars (number mod radix)
      :: (if 0 <? number / radix then digit_loop fuel' (number / radix) radix else [])
  end.
Definition fprintf_unsigned (number radix : Z) : list Z := rev (digit_loop 64 number radix).
Definition fprintf_signed (number radix : Z) : list Z :=
  if number <? 0 then 45 :: fprintf_unsigned (u64 (- number)) radix else fprintf_unsigned number radix.

(** ** Formats *)

(** [va_arg] for an [int], for the wider types, and for a string. *)
Definition arg_int (wide sign : bool) (args : list varg) : option (Z * list varg) :=
  match args with
  | VInt r :: args' =>
      Some (if wide then (if sign then int64 r else u64 r) else (if sign then int32 r else u32 r), args')
  | _ => None
  end.
Definition is_wide (length : PRINTF_LENGTH) : bool :=
  match length with PRINTF_LENGTH_LONG | PRINTF_LENGTH_LONG_LONG => true | _ => false end.
Definition print_number (length : PRINTF_LENGTH) (radix : Z) (sign : bool) (args : list varg) : option (list Z * list varg) :=
  match arg_int (is_wide length) sign args with
  | Some (v, args') => Some (if sign then fprintf_signed v radix else fprintf_unsigned v radix, args')
  | None => None
  end.

(** The label [PRINTF_STATE_SPEC_]: the conversion [c]. *)
Definition print_spec (length : PRINTF_LENGTH) (c : Z) (args : list varg) : option (list Z * list varg) :=
  if c =? 99 then
    match arg_int false true args with Some (v, args') => Some ([u8 v], args') | None => None end
  else if c =? 115 then
    match args with VStr s :: args' => Some (s, args') | _ => None end
  else if c =? 37 then Some ([37], args)
  else if (c =? 100) || (c =? 105) then print_number length 10 true args
  else if c =? 117 then print_number length 10 false args
  else if (c =? 88) || (c =? 120) || (c =? 112) then print_number length 16 false args
  else if c =? 111 then print_number length 8 false args
  else Some ([], args).

(** Flags and field widths, which are skipped. *)
Definition is_flag (c : Z) : bool :=
  ((48 <=? c) && (c <=? 57)) || (c =? 45) || (c =? 43) || (c =? 32) || (c =? 35).

Fixpoint print_loop (fmt : list Z) (state : PRINTF_STATE) (length : PRINTF_LENGTH) (args : list varg) : option (list Z) :=
  match fmt with
  | [] => Some []
  | c :: fmt' =>
      let spec :=
        match print_spec length c args with
        | Some (out, args') =>
            match print_loop fmt' PRINTF_STATE_NORMAL PRINTF_LENGTH_DEFAULT args' with
            | Some rest => Some (out ++ rest)
            | None => None
            end
        | None => None
        end in
      match state with
      | PRINTF_STATE_NORMAL =>
          if c =? 37 then print_loop fmt' PRINTF_STATE_LENGTH length args
          else match print_loop fmt' PRINTF_STATE_NORMAL length args with Some rest => Some (c :: rest) | None => None end
      | PRINTF_STATE_LENGTH =>
          if c =? 104 then print_loop fmt' PRINTF_STATE_LENGTH_SHORT PRINTF_LENGTH_SHORT args
          else if c =? 108 then print_loop fmt' PRINTF_STATE_LENGTH_LONG PRINTF_LENGTH_LONG args
          else if is_flag c then print_loop fmt' PRINTF_STATE_LENGTH length args
          else spec
      | PRINTF_STATE_LENGTH_SHORT =>
          if c =? 104 then print_loop fmt' PRINTF_STATE_SPEC PRINTF_LENGTH_SHORT_SHORT args else spec
      | PRINTF_STATE_LENGTH_LONG =>
          if c =? 108 then print_loop fmt' PRINTF_STATE_SPEC PRINTF_LENGTH_LONG_LONG args else spec
      | PRINTF_STATE_SPEC => spec
      end
  end.
Definition vfprintf (fmt : list Z) (args : list varg) : option (list Z) :=
  print_loop fmt PRINTF_STATE_NORMAL PRINTF_LENGTH_DEFAULT args.

(** The loop of [fprint_buffer], whose counter has 16 bits; [fuel] bounds its
    rounds. *)
Fixpoint buffer_loop (fuel : nat) (i : Z) (buffer : list Z) (count : Z) : option (list Z) :=
  match fuel with
  | O => None
  | S fuel' =>
      if i <? count then
        let b := aget 0 buffer i in
        match buffer_loop fuel' (u16 (i + 1)) buffer count with
        | Some rest => Some (aget 0 g_HexChars (Z.shiftr b 4) :: aget 0 g_HexChars (Z.land b 0xF) :: rest)
        | None => None
        end
      else Some []
  end.
Definition fprint_buffer (fuel : nat) (msg buffer : list Z) (count : Z) : option (list Z) :=
  match buffer_loop fuel 0 buffer count with Some hex => Some (msg ++ hex ++ [10]) | None => None end.

(** ** Reading a number *)

Fixpoint skip_blanks (s : list Z) : list Z :=
  match s with c :: s' => if (c =? 32) || (c =? 9) then skip_blanks s' else s | [] => [] end.
Fixpoint read_digits (s : list Z) (result : Z) : Z :=
  match s with
  | c :: s' => if (48 <=? c) && (c <=? 57) then read_digits s' (int32 (int32 (result * 10) + (c - 48))) else result
  | [] => result
  end.
Definition str_to_int (s : list Z) : Z :=
  match skip_blanks s with
  | c :: s' =>
      if c =? 45 then int32 (read_digits s' 0 * -1)
      else if c =? 43 then read_digits s' 0
      else read_digits (c :: s') 0
  | [] => 0
  end.

(** ** The log *)

Inductive DebugLevel := LVL_DEBUG | LVL_INFO | LVL_WARN | LVL_ERROR | LVL_CRITICAL | LVL_OK.
Definition g_LogSeverityColors (level : DebugLevel) : list Z :=
  match level with
  | LVL_DEBUG => 27 :: text "[2;37m"
  | LVL_INFO => 27 :: text "[37m"
  | LVL_WARN => 27 :: text "[1;33m"
  | LVL_ERROR => 27 :: text "[1;31m"
  | LVL_CRITICAL => 27 :: text "[1;37;41m"
  | LVL_OK => 27 :: text "[1;32m"
  end.
(** The table holds pointers: -1 is the highest one. *)
Definition g_LogVLevels (level : DebugLevel) : Z :=
  u64 (match level with LVL_DEBUG => 2 | LVL_INFO => 3 | LVL_WARN => 1 | LVL_ERROR => -1 | LVL_CRITICAL => -1 | LVL_OK => 2 end).
Definition g_ColorReset : list Z := 27 :: text "[0m".

(** 0: the message is shown. *)
Definition checkVer (config : config_entries) (level : DebugLevel) : Z :=
  let vLevel := str_to_int (match config_get (text "verbosity") config with Some v => v | None => text "3" end) in
  if g_LogVLevels level =? u64 (-1) then 0
  else if g_LogVLevels level <=? u64 vLevel then 0
  else 1.

(** Nothing is below [MIN_LOG_LEVEL], [LVL_DEBUG]. *)
Definition logf (config : config_entries) (module : list Z) (level : DebugLevel) (fmt : list Z) (args : list varg)
  : option (list Z) :=
  if checkVer config level =? 1 then Some []
  else
    match vfprintf (text "[%s] ") [VStr module], vfprintf fmt args with
    | Some m, Some out => Some (g_LogSeverityColors level ++ m ++ out ++ g_ColorReset ++ [10])
    | _, _ => None
    end.

(** ** Where the bytes go *)

Definition VFS_FD_STDIN : Z := 0.
Definition VFS_FD_STDOUT : Z := 1.
Definition VFS_FD_STDERR : Z := 2.
Definition VFS_FD_DEBUG : Z := 3.

(** The bytes for the console, those for the debug port, and the result; the
    log line of a byte for [VFS_FD_STDERR] goes to the debug port. *)
Definition VFS_Write_old (config : config_entries) (file : Z) (data : list Z) : option (list Z * list Z * Z) :=
  let n := Z.of_nat (length data) in
  if file =? VFS_FD_STDIN then Some ([], [], 0)
  else if file =? VFS_FD_STDOUT then Some (data, [], n)
  else if file =? VFS_FD_STDERR then
    match mapM (fun b => logf config (text "CON") LVL_INFO (text "byte 0x%02x") [VInt b]) data with
    | Some lines => Some (data, concat lines, n)
    | None => None
    end
  else if file =? VFS_FD_DEBUG then Some ([], data, n)
  else Some ([], [], int32 (serror EBADF)).
Definition fputc (config : config_entries) (c file : Z) : option (list Z * list Z * Z) := VFS_Write_old config file [c].
(** [fputs]: one [fputc] per character. *)
Fixpoint fputs (config : config_entries) (s : list Z) (file : Z) : option (list Z * list Z) :=
  match s with
  | [] => Some ([], [])
  | c :: s' =>
      match fputc config c file, fputs config s' file with
      | Some (con, dbg, _), Some (con', dbg') => Some (con ++ con', dbg ++ dbg')
      | _, _ => None
      end
  end.

(** ** Numbers are read back *)

Lemma hex_digit d : 0 <= d < 10 -> aget 0 g_HexChars d = 48 + d.
Proof. intros Hd. assert (d = 0 \/ d = 1 \/ d = 2 \/ d = 3 \/ d = 4 \/ d = 5 \/ d = 6 \/ d = 7 \/ d = 8 \/ d = 9) as H by lia.
  destruct H as [->|[->|[->|[->|[->|[->|[->|[->|[->| ->]]]]]]]]]; done. Qed.


Lemma read_digits_spec fuel : forall n acc tail,
  0 <= n < 10 ^ Z.of_nat fuel -> (0 < fuel)%nat -> 0 <= acc ->
  acc * 10 ^ Z.of_nat (length (digit_loop fuel n 10)) + n < 2 ^ 31 ->
  read_digits (rev (digit_loop fuel n 10) ++ tail) acc =
    read_digits tail (acc * 10 ^ Z.of_nat (length (digit_loop fuel n 10)) + n).
Proof.
  induction fuel as [|fuel IH]; intros n acc tail Hn Hf Hacc Hlt; [lia|]. cbn [digit_loop] in *.
  pose proof (Z.mod_pos_bound n 10 ltac:(lia)) as Hm. pose proof (Z.div_mod n 10 ltac:(lia)) as Hdm.
  rewrite hex_digit by done.
  assert (Hone : forall a t, 0 <= a -> a * 10 + n mod 10 < 2 ^ 31 ->
    read_digits ((48 + n mod 10) :: t) a = read_digits t (a * 10 + n mod 10)).
  { intros a t Ha Hat. cbn [read_digits]. destruct (Z.leb_spec 48 (48 + n mod 10)), (Z.leb_spec (48 + n mod 10) 57); try lia.
    cbn [andb]. f_equal. rewrite (int32_small (a * 10)) by lia. rewrite int32_small by lia. lia. }
  revert Hlt. destruct (Z.ltb_spec 0 (n / 10)) as [Hq|Hq]; cbn [length rev]; intros Hlt.
  - rewrite Nat2Z.inj_succ, Z.pow_succ_r in Hlt |- * by lia.
    assert (n / 10 < 10 ^ Z.of_nat fuel) as Hq2.
    { rewrite Nat2Z.inj_succ, Z.pow_succ_r in Hn by lia. lia. }
    assert (0 < fuel)%nat as Hf' by (destruct fuel; [cbn in Hq2; lia|lia]).
    set (L := 10 ^ Z.of_nat (length (digit_loop fuel (n / 10) 10))) in *.
    assert (0 < L) by (apply Z.pow_pos_nonneg; lia).
    rewrite <- app_assoc. cbn [app]. rewrite IH; [|lia|done|done|fold L; nia].
    fold L. rewrite Hone; [f_equal; nia|nia|nia].
  - cbn [rev app]. change (10 ^ Z.of_nat 1) with 10 in *.
    assert (n / 10 = 0) as E by (assert (0 <= n / 10) by (apply Z.div_pos; lia); lia). rewrite Hone by lia. f_equal. lia.
Qed.

Lemma digit_loop_head fuel n : 0 <= n -> (0 < fuel)%nat ->
  exists d l, rev (digit_loop fuel n 10) = d :: l /\ 48 <= d <= 57.
Proof.
  revert n. induction fuel as [|fuel IH]; intros n Hn Hf; [lia|]. cbn [digit_loop].
  pose proof (Z.mod_pos_bound n 10 ltac:(lia)). rewrite hex_digit by done.
  destruct (Z.ltb_spec 0 (n / 10)) as [Hq|Hq]; cbn [rev].
  - destruct fuel as [|fuel]; [exists (48 + n mod 10), []; split; [done|lia]|].
    destruct (IH (n / 10) ltac:(lia) ltac:(lia)) as (d & l & -> & Hd). exists d, (l ++ [48 + n mod 10]). done.
  - exists (48 + n mod 10), []. split; [done|lia].
Qed.

(** The digits fit into the buffer of 32 characters. *)
Lemma digit_loop_length fuel radix k : 2 <= radix -> forall n, 0 <= n < radix ^ Z.of_nat (S k) ->
  (length (digit_loop fuel n radix) <= S k)%nat.
Proof.
  intros Hr. revert k. induction fuel as [|fuel IH]; intros k n Hn; cbn [digit_loop length]; [lia|].
  destruct (Z.ltb_spec 0 (n / radix)) as [Hq|Hq]; cbn [length]; [|lia].
  assert (n / radix < radix ^ Z.of_nat k) as Hk.
  { rewrite Nat2Z.inj_succ, Z.pow_succ_r in Hn by lia. apply Z.div_lt_upper_bound; lia. }
  destruct k as [|k]; [change (radix ^ Z.of_nat 0) with 1 in Hk; lia|]. specialize (IH k (n / radix) ltac:(lia)). lia.
Qed.
Lemma digits_fit n radix : 0 <= n < 2 ^ 64 -> 8 <= radix -> (length (fprintf_unsigned n radix) <= 22)%nat.
Proof.
  intros Hn Hr. unfold fprintf_unsigned. rewrite length_rev. apply digit_loop_length; [lia|]. split; [lia|].
  assert (8 ^ Z.of_nat 22 <= radix ^ Z.of_nat 22) as H by (apply Z.pow_le_mono_l; lia).
  assert (2 ^ 64 < 8 ^ Z.of_nat 22) as H2 by (apply Z.ltb_lt; vm_compute; reflexivity).
  exact (Z.lt_le_trans _ _ _ (Z.lt_trans _ _ _ (proj2 Hn) H2) H).
Qed.

Lemma int32_u64 n : - 2 ^ 31 <= n < 2 ^ 31 -> int32 (u64 n) = n.
Proof.
  intros Hn. rewrite <- (int32_small n Hn) at 2. unfold int32. f_equal. unfold u32, u64.
  rewrite Z.mod_mod_divide; [done|]. by exists (2 ^ 32).
Qed.

(** the decimal text that [vfprintf] writes for an [int] fits into its
    buffer and is read back by [str_to_int] as the same number. *)
Theorem printf_read_back n :
  - 2 ^ 31 < n < 2 ^ 31 ->
  exists out, vfprintf (text "%d") [VInt (u64 n)] = Some out /\ (length out <= 23)%nat /\ str_to_int out = n.
Proof.
  intros Hn. unfold vfprintf. cbn [text print_loop]. change (print_loop (text "%d") PRINTF_STATE_NORMAL PRINTF_LENGTH_DEFAULT [VInt (u64 n)])
    with (Some (fprintf_signed (int32 (u64 n)) 10 ++ [])).
  rewrite int32_u64, app_nil_r by lia. eexists. split; [done|]. unfold fprintf_signed.
  assert (Hread : forall m, 0 <= m < 2 ^ 31 -> read_digits (rev (digit_loop 64 m 10)) 0 = m).
  { intros m Hm. rewrite <- (app_nil_r (rev _)), read_digits_spec; [cbn [read_digits]; lia| |lia|lia|lia].
    split; [lia|]. apply (Z.lt_trans _ (2 ^ 31)); [lia|]. apply Z.ltb_lt. vm_compute. reflexivity. }
  destruct (Z.ltb_spec n 0) as [Hneg|Hpos].
  - rewrite u64_small by lia. split; [cbn [length]; pose proof (digits_fit (- n) 10 ltac:(lia) ltac:(lia)); lia|].
    unfold str_to_int. cbn [skip_blanks Z.eqb Pos.eqb orb]. unfold fprintf_unsigned. rewrite Hread by lia. rewrite int32_small; lia.
  - split; [pose proof (digits_fit n 10 ltac:(lia) ltac:(lia)); lia|]. unfold fprintf_unsigned.
    destruct (digit_loop_head 64 n ltac:(lia) ltac:(lia)) as (d & l & E & Hd). unfold str_to_int.
    pose proof (Hread n ltac:(lia)) as Hr. rewrite E in Hr |- *. cbn [skip_blanks].
    destruct (Z.eqb_spec d 32), (Z.eqb_spec d 9); try lia; cbn [orb].
    destruct (Z.eqb_spec d 45), (Z.eqb_spec d 43); try lia.
Qed.
Lemma printf_read_back_witness :
  exists out, vfprintf (text "%d") [VInt (u64 (-1205))] = Some out /\ (length out <= 23)%nat /\ str_to_int out = -1205.
Proof. apply (printf_read_back (-1205)). lia. Defined.

(** ** Dumping a buffer *)

Lemma buffer_loop_total buffer count fuel : forall i, 0 <= i <= count -> count < 2 ^ 16 -> count - i < Z.of_nat fuel ->
  exists out, buffer_loop fuel i buffer count = Some out /\ Z.of_nat (length out) = 2 * (count - i).
Proof.
  induction fuel as [|fuel IH]; intros i Hi Hc Hf; [lia|]. cbn [buffer_loop]. destruct (Z.ltb_spec i count) as [Hlt|Hge].
  - unfold u16. rewrite Z.mod_small by lia. destruct (IH (i + 1) ltac:(lia) Hc ltac:(lia)) as (out & -> & Hl).
    eexists. split; [done|]. cbn [length]. lia.
  - exists []. split; [done|]. cbn [length]. lia.
Qed.

(** A buffer of 65536 bytes or more is dumped for ever. *)
Lemma buffer_loop_endless buffer count fuel : forall i, 0 <= i < 2 ^ 16 -> 2 ^ 16 <= count -> buffer_loop fuel i buffer count = None.
Proof.
  induction fuel as [|fuel IH]; intros i Hi Hc; [done|]. cbn [buffer_loop]. destruct (Z.ltb_spec i count); [|lia].
  rewrite IH; [done| |done]. unfold u16. apply Z.mod_pos_bound. lia.
Qed.
Lemma fprint_buffer_endless fuel msg buffer count : 2 ^ 16 <= count -> fprint_buffer fuel msg buffer count = None.
Proof. intros Hc. unfold fprint_buffer. by rewrite buffer_loop_endless by lia. Qed.
