(* ===== verification/Pmm.v ===== *)
(** * Physical memory manager (src/kernel/mem/pmm.c)

    A bitmap with one bit per 4 KiB page of physical memory; a set bit is a
    page in use.  The static variables of pmm.c are the record [pmm_state];
    the RAM that [pmm_alloc] clears is part of the [machine].

    [pmm_init] places the bitmap in the first usable region that can hold it.
    The model keeps the bitmap as an array of its own, [bitmap], next to its
    address [bitmap_ptr]: [pmm_init_spec] proves that the pages the array
    occupies are in use after initialisation, so no page the allocator hands
    out (and clears) overlaps it.

    Log messages are not modelled. *)

From S2P Require Import Prelude PhysMem.

Definition PAGE_SIZE : Z := 4096.

(** Memory map of the boot loader (struct limine_memmap_entry). *)
Definition LIMINE_MEMMAP_USABLE : Z := 0.
Definition LIMINE_MEMMAP_BOOTLOADER_RECLAIMABLE : Z := 5.
Definition LIMINE_MEMMAP_EXECUTABLE_AND_MODULES : Z := 6.

Record memmap_entry := mkEntry { base : Z; len : Z; type : Z }.

(** [hhdm_offset], set by the boot loader before [pmm_init]. *)
Class BootInfo := { hhdm_offset : Z }.

Definition P2V `{BootInfo} (p : Z) : Z := PHYS_TO_VIRT hhdm_offset p.
Definition V2P `{BootInfo} (v : Z) : Z := VIRT_TO_PHYS hhdm_offset v.

Record pmm_state := mkPmm {
  bitmap_ptr : Z;         (* NULL is 0 *)
  bitmap : list Z;
  bitmap_size : Z;
  total_pages : Z;
  used_pages : Z;
  highest_addr : Z
}.

Definition set_bitmap (b : list Z) (p : pmm_state) : pmm_state :=
  mkPmm (bitmap_ptr p) b (bitmap_size p) (total_pages p) (used_pages p) (highest_addr p).
Definition set_used (u : Z) (p : pmm_state) : pmm_state :=
  mkPmm (bitmap_ptr p) (bitmap p) (bitmap_size p) (total_pages p) u (highest_addr p).

(** The static initialisers. *)
Definition pmm_boot : pmm_state := mkPmm 0 [] 0 0 0 0.

Record machine := mkMachine { pmm : pmm_state; mem : ram }.

Definition pmm_get_end_of_memory (p : pmm_state) : Z := highest_addr p.

(** ** Bitmap manipulation *)

Definition bitmap_set (page : Z) (p : pmm_state) : pmm_state :=
  set_bitmap (aset (bitmap p) (page / 8)
    (u8 (Z.lor (aget 0 (bitmap p) (page / 8)) (Z.shiftl 1 (page mod 8))))) p.

Definition bitmap_clear (page : Z) (p : pmm_state) : pmm_state :=
  set_bitmap (aset (bitmap p) (page / 8)
    (u8 (Z.land (aget 0 (bitmap p) (page / 8)) (Z.lnot (Z.shiftl 1 (page mod 8)))))) p.

Definition bitmap_test (page : Z) (p : pmm_state) : bool :=
  negb (Z.land (aget 0 (bitmap p) (page / 8)) (Z.shiftl 1 (page mod 8)) =? 0).

Definition used_incr (p : pmm_state) : pmm_state := set_used (u64 (used_pages p + 1)) p.
Definition used_decr (p : pmm_state) : pmm_state := set_used (u64 (used_pages p - 1)) p.

(** ** Initialisation *)

(** for each entry: [top = base + length; if (top > highest_addr) ...] *)
Definition highest_of (entries : list memmap_entry) (h : Z) : Z :=
  fold_left (fun h e => let top := u64 (base e + len e) in
                        if h <? top then top else h) entries h.

(** The first usable entry that can hold the bitmap. *)
Fixpoint find_bitmap_entry (size : Z) (entries : list memmap_entry) : option memmap_entry :=
  match entries with
  | [] => None
  | e :: es =>
      if (type e =? LIMINE_MEMMAP_USABLE) && (size <=? len e) then Some e
      else find_bitmap_entry size es
  end.

(** The body of the innermost loops: release page [page], respectively take it
    if it is still free. *)
Definition init_clear (page : Z) (p : pmm_state) : pmm_state :=
  if page <? total_pages p then used_decr (bitmap_clear page p) else p.
Definition init_reserve (page : Z) (p : pmm_state) : pmm_state :=
  if (page <? total_pages p) && negb (bitmap_test page p)
  then used_incr (bitmap_set page p) else p.

Definition free_usable_entry (e : memmap_entry) (p : pmm_state) : pmm_state :=
  if type e =? LIMINE_MEMMAP_USABLE then
    let base_page := base e / PAGE_SIZE in
    let page_count := len e / PAGE_SIZE in
    for_range (fun j => init_clear (u64 (base_page + j))) 0 (Z.to_nat page_count) p
  else p.

Definition reserve_entry (e : memmap_entry) (p : pmm_state) : pmm_state :=
  if (type e =? LIMINE_MEMMAP_EXECUTABLE_AND_MODULES)
     || (type e =? LIMINE_MEMMAP_BOOTLOADER_RECLAIMABLE) then
    let base_page := base e / PAGE_SIZE in
    let page_count := u64 (len e + PAGE_SIZE - 1) / PAGE_SIZE in
    for_range (fun j => init_reserve (u64 (base_page + j))) 0 (Z.to_nat page_count) p
  else p.

Definition reserve_bitmap `{BootInfo} (p : pmm_state) : pmm_state :=
  let bitmap_phys := V2P (bitmap_ptr p) in
  let bitmap_pages := u64 (bitmap_size p + PAGE_SIZE - 1) / PAGE_SIZE in
  let bitmap_base_page := bitmap_phys / PAGE_SIZE in
  for_range (fun i => init_reserve (u64 (bitmap_base_page + i))) 0 (Z.to_nat bitmap_pages) p.

Definition pmm_init `{BootInfo} (memmap : option (list memmap_entry)) (p0 : pmm_state)
  : pmm_state :=
  match memmap with
  | None => p0
  | Some entries =>
      let highest := highest_of entries (highest_addr p0) in
      let total := highest / PAGE_SIZE in
      let size := u64 (total + 7) / 8 in
      match find_bitmap_entry size entries with
      | None => mkPmm 0 (bitmap p0) size total (used_pages p0) highest
      | Some e =>
          let ptr := P2V (base e) in
          if ptr =? 0 then mkPmm 0 (bitmap p0) size total (used_pages p0) highest
          else
          let p1 := mkPmm ptr (replicate (Z.to_nat size) (u8 0xFF)) size total total highest in
          let p2 := fold_left (fun p e => free_usable_entry e p) entries p1 in
          let p3 := reserve_bitmap p2 in
          fold_left (fun p e => reserve_entry e p) entries p3
      end
  end.

(** ** Allocation *)

(** [memset(PHYS_TO_VIRT(page), 0, n)] through the direct map. *)
Definition clear_phys `{BootInfo} (page n : Z) (m : ram) : ram :=
  fill m (V2P (P2V page)) n 0.

Definition pmm_alloc `{BootInfo} (m : machine) : machine * Z :=
  let p := pmm m in
  match find_first (fun i => negb (bitmap_test i p)) 0 (Z.to_nat (total_pages p)) with
  | Some i =>
      let page := u64 (i * PAGE_SIZE) in
      (mkMachine (used_incr (bitmap_set i p)) (clear_phys page PAGE_SIZE (mem m)), page)
  | None => (m, 0)
  end.

Definition pmm_alloc_pages `{BootInfo} (count : Z) (m : machine) : machine * Z :=
  if count =? 0 then (m, 0)
  else if count =? 1 then pmm_alloc m
  else
    let p := pmm m in
    match scan_run (fun i => negb (bitmap_test i p)) count 0 (Z.to_nat (total_pages p)) 0 0 with
    | Some start =>
        let p' := for_range (fun j q => used_incr (bitmap_set (start + j) q)) 0
                    (Z.to_nat count) p in
        let page := u64 (start * PAGE_SIZE) in
        (mkMachine p' (clear_phys page (u64 (count * PAGE_SIZE)) (mem m)), page)
    | None => (m, 0)
    end.

Definition pmm_free_p (page : Z) (p : pmm_state) : pmm_state :=
  if page =? 0 then p
  else
    let page_num := page / PAGE_SIZE in
    if total_pages p <=? page_num then p
    else if negb (bitmap_test page_num p) then p
    else used_decr (bitmap_clear page_num p).

Definition pmm_free (page : Z) (m : machine) : machine :=
  mkMachine (pmm_free_p page (pmm m)) (mem m).

Definition pmm_free_pages (page count : Z) (m : machine) : machine :=
  if (page =? 0) || (count =? 0) then m
  else
    let page_num := page / PAGE_SIZE in
    mkMachine
      (for_range (fun i p =>
         let current_page := u64 (page_num + i) in
         if total_pages p <=? current_page then p
         else if negb (bitmap_test current_page p) then p
         else used_decr (bitmap_clear current_page p)) 0 (Z.to_nat count) (pmm m))
      (mem m).

Definition pmm_get_total_memory (p : pmm_state) : Z := u64 (total_pages p * PAGE_SIZE).
Definition pmm_get_used_memory (p : pmm_state) : Z := u64 (used_pages p * PAGE_SIZE).
Definition pmm_get_free_memory (p : pmm_state) : Z :=
  u64 (u64 (total_pages p - used_pages p) * PAGE_SIZE).

(** ** Invariant and basic lemmas *)

Lemma bitmap_test_bit i p :
  bitmap_test i p = Z.testbit (aget 0 (bitmap p) (i / 8)) (i mod 8).
Proof.
  unfold bitmap_test. rewrite Z.shiftl_1_l. apply land_pow2_ne0.
  apply Z.mod_pos_bound. lia.
Qed.

(** [in_bitmap i p]: page [i] has a bit. *)
Definition in_bitmap (i : Z) (p : pmm_state) : Prop :=
  0 <= i < 8 * Z.of_nat (length (bitmap p)).

Lemma bitmap_test_set i j p :
  in_bitmap i p -> bitmap_test j (bitmap_set i p) = (j =? i) || bitmap_test j p.
Proof.
  unfold in_bitmap. intros Hi. rewrite !bitmap_test_bit. simpl.
  pose proof (Z.mod_pos_bound i 8). pose proof (Z.mod_pos_bound j 8).
  assert (0 <= i / 8 < Z.of_nat (length (bitmap p))).
  { split; [apply Z.div_pos; lia|apply Z.div_lt_upper_bound; lia]. }
  destruct (decide (j / 8 = i / 8)) as [E|E].
  - rewrite E, aget_aset_eq by lia. rewrite testbit_u8 by lia.
    rewrite Z.lor_spec, Z.shiftl_1_l, Z.pow2_bits_eqb by lia.
    destruct (Z.eqb_spec j i) as [->|Hne].
    + rewrite Z.eqb_refl. apply orb_true_r.
    + destruct (Z.eqb_spec (i mod 8) (j mod 8)); [|by rewrite orb_false_r].
      exfalso. by apply Hne, byte_index_split.
  - rewrite aget_aset_ne by lia. destruct (Z.eqb_spec j i) as [->|]; [lia|done].
Qed.

Lemma bitmap_test_clear i j p :
  in_bitmap i p -> bitmap_test j (bitmap_clear i p) = negb (j =? i) && bitmap_test j p.
Proof.
  unfold in_bitmap. intros Hi. rewrite !bitmap_test_bit. simpl.
  pose proof (Z.mod_pos_bound i 8). pose proof (Z.mod_pos_bound j 8).
  assert (0 <= i / 8 < Z.of_nat (length (bitmap p))).
  { split; [apply Z.div_pos; lia|apply Z.div_lt_upper_bound; lia]. }
  destruct (decide (j / 8 = i / 8)) as [E|E].
  - rewrite E, aget_aset_eq by lia. rewrite testbit_u8 by lia.
    rewrite Z.land_spec, Z.lnot_spec by lia. rewrite Z.shiftl_1_l, Z.pow2_bits_eqb by lia.
    destruct (Z.eqb_spec j i) as [->|Hne].
    + rewrite Z.eqb_refl. by rewrite andb_false_r.
    + destruct (Z.eqb_spec (i mod 8) (j mod 8)); simpl; [|by rewrite andb_true_r].
      exfalso. by apply Hne, byte_index_split.
  - rewrite aget_aset_ne by lia. destruct (Z.eqb_spec j i) as [->|]; [lia|done].
Qed.

(** The number of pages whose bit is set. *)
Definition used_count (p : pmm_state) : Z :=
  count_below (fun i => bitmap_test i p) (Z.to_nat (total_pages p)).

(** The allocator's invariant: the bitmap has a bit for every page, every page
    has a 64-bit address, and [used_pages] counts the set bits. *)
Record pmm_wf (p : pmm_state) : Prop := {
  wf_total : 0 <= total_pages p < 2 ^ 52;
  wf_bitmap : total_pages p <= 8 * Z.of_nat (length (bitmap p));
  wf_used : used_pages p = used_count p
}.

Definition page_used (p : pmm_state) (i : Z) : Prop :=
  0 <= i < total_pages p /\ bitmap_test i p = true.
Definition page_free (p : pmm_state) (i : Z) : Prop :=
  0 <= i < total_pages p /\ bitmap_test i p = false.

Lemma used_count_range p : 0 <= total_pages p -> 0 <= used_count p <= total_pages p.
Proof.
  intros H. unfold used_count.
  pose proof (count_below_range (fun i => bitmap_test i p) (Z.to_nat (total_pages p))). lia.
Qed.

(** Taking a free page and releasing a used one, the two moves every operation
    is made of. *)
Lemma take_wf i p :
  pmm_wf p -> page_free p i ->
  let p' := used_incr (bitmap_set i p) in
  pmm_wf p' /\ used_pages p' = used_pages p + 1 /\
  forall j, bitmap_test j p' = (j =? i) || bitmap_test j p.
Proof.
  intros [Ht Hb Hu] [Hi Hf]. simpl.
  assert (Htest : forall j, bitmap_test j (used_incr (bitmap_set i p)) = (j =? i) || bitmap_test j p).
  { intros j. apply bitmap_test_set. unfold in_bitmap. lia. }
  assert (Hc : used_count (used_incr (bitmap_set i p)) = used_count p + 1).
  { unfold used_count. change (total_pages (used_incr (bitmap_set i p))) with (total_pages p).
    rewrite (count_below_upd (fun j => bitmap_test j p) _ _ i) by
      (lia || (intros j Hj; rewrite Htest; destruct (Z.eqb_spec j i); done)).
    rewrite Hf, Htest, Z.eqb_refl. simpl. lia. }
  pose proof (used_count_range p ltac:(lia)).
  assert (used_count p < total_pages p).
  { unfold used_count. rewrite <- (Z2Nat.id (total_pages p)) at 2 by lia.
    apply count_below_lt with i; [lia|done]. }
  split_and!; [|simpl; rewrite u64_small; lia|done].
  split; simpl; [done|by rewrite length_aset|].
  rewrite Hc, u64_small; lia.
Qed.

Lemma release_wf i p :
  pmm_wf p -> page_used p i ->
  let p' := used_decr (bitmap_clear i p) in
  pmm_wf p' /\ used_pages p' = used_pages p - 1 /\
  forall j, bitmap_test j p' = negb (j =? i) && bitmap_test j p.
Proof.
  intros [Ht Hb Hu] [Hi Hf]. simpl.
  assert (Htest : forall j, bitmap_test j (used_decr (bitmap_clear i p))
                            = negb (j =? i) && bitmap_test j p).
  { intros j. apply bitmap_test_clear. unfold in_bitmap. lia. }
  assert (Hc : used_count (used_decr (bitmap_clear i p)) = used_count p - 1).
  { unfold used_count. change (total_pages (used_decr (bitmap_clear i p))) with (total_pages p).
    rewrite (count_below_upd (fun j => bitmap_test j p) _ _ i) by
      (lia || (intros j Hj; rewrite Htest; destruct (Z.eqb_spec j i); done)).
    rewrite Hf, Htest, Z.eqb_refl. simpl. lia. }
  pose proof (used_count_range p ltac:(lia)).
  assert (0 < used_count p).
  { unfold used_count. apply count_below_pos with i; [lia|done]. }
  split_and!; [|simpl; rewrite u64_small; lia|done].
  split; simpl; [done|by rewrite length_aset|].
  rewrite Hc, u64_small; lia.
Qed.

(** Every physical page address is a 64-bit multiple of the page size. *)
Lemma page_addr p i :
  pmm_wf p -> 0 <= i < total_pages p ->
  u64 (i * PAGE_SIZE) = i * PAGE_SIZE /\ i * PAGE_SIZE / PAGE_SIZE = i /\
  0 <= i * PAGE_SIZE < 2 ^ 64.
Proof.
  intros [Ht _ _] Hi. unfold PAGE_SIZE. rewrite u64_small by lia.
  split_and!; [done|apply Z.div_mul; lia|lia|lia].
Qed.

(** [taken m m' s c]: [m'] is [m] after the [c] free pages from [s] were taken
    and cleared, and nothing else changed. *)
Record taken (m m' : machine) (s c : Z) : Prop := {
  taken_range : 0 <= s /\ 0 < c /\ s + c <= total_pages (pmm m);
  taken_free : forall k, s <= k < s + c -> page_free (pmm m) k;
  taken_bits : forall j, bitmap_test j (pmm m')
                 = ((s <=? j) && (j <? s + c)) || bitmap_test j (pmm m);
  taken_count : used_pages (pmm m') = used_pages (pmm m) + c;
  taken_total : total_pages (pmm m') = total_pages (pmm m);
  taken_wf : pmm_wf (pmm m');
  taken_zero : forall a, s * PAGE_SIZE <= a < (s + c) * PAGE_SIZE -> mem m' a = 0;
  taken_frame : forall a, ~ (s * PAGE_SIZE <= a < (s + c) * PAGE_SIZE) -> mem m' a = mem m a
}.

Lemma taken_ram_bytes m m' s c : taken m m' s c -> ram_bytes (mem m) -> ram_bytes (mem m').
Proof.
  intros T H a. destruct (decide (s * PAGE_SIZE <= a < (s + c) * PAGE_SIZE)) as [Ha|Ha].
  - rewrite (taken_zero _ _ _ _ T a Ha). lia.
  - rewrite (taken_frame _ _ _ _ T a Ha). apply H.
Qed.

(** Taking a run of free pages one after the other. *)
Lemma take_run_wf start p c :
  pmm_wf p -> 0 <= start -> start + Z.of_nat c <= total_pages p ->
  (forall k, start <= k < start + Z.of_nat c -> bitmap_test k p = false) ->
  let p' := for_range (fun j q => used_incr (bitmap_set (start + j) q)) 0 c p in
  pmm_wf p' /\ total_pages p' = total_pages p /\
  used_pages p' = used_pages p + Z.of_nat c /\
  forall j, bitmap_test j p' = ((start <=? j) && (j <? start + Z.of_nat c)) || bitmap_test j p.
Proof.
  intros Hwf Hs He Hfree. simpl.
  assert (Hgen := for_range_ind (fun i q =>
    pmm_wf q /\ total_pages q = total_pages p /\ used_pages q = used_pages p + i /\
    forall j, bitmap_test j q = ((start <=? j) && (j <? start + i)) || bitmap_test j p)
    (fun j q => used_incr (bitmap_set (start + j) q)) c 0 p).
  rewrite Z.add_0_l in Hgen. apply Hgen; clear Hgen.
  - split_and!; [done|done|lia|]. intros j.
    destruct (Z.leb_spec start j), (Z.ltb_spec j (start + 0)); simpl; lia || done.
  - intros j q Hj (Hwq & Htq & Huq & Hbq).
    destruct (take_wf (start + j) q Hwq) as (H1 & H2 & H3).
    { split; [lia|]. rewrite Hbq, Hfree by lia.
      destruct (Z.leb_spec start (start + j)), (Z.ltb_spec (start + j) (start + j)); lia || done. }
    split_and!; [done|done|lia|]. intros k. rewrite H3, Hbq.
    destruct (Z.eqb_spec k (start + j)), (Z.leb_spec start k), (Z.ltb_spec k (start + j)),
      (Z.ltb_spec k (start + (j + 1))); simpl; lia || done.
Qed.

(** ** Specifications *)
Section specs.
Context `{BootInfo}.

Lemma clear_phys_zero page n m a :
  0 <= page < 2 ^ 64 -> page <= a < page + n -> clear_phys page n m a = 0.
Proof.
  intros Hp Ha. unfold clear_phys, V2P, P2V. rewrite VIRT_PHYS_VIRT by done.
  by rewrite fill_inside.
Qed.

Lemma clear_phys_frame page n m a :
  0 <= page < 2 ^ 64 -> ~ (page <= a < page + n) -> clear_phys page n m a = m a.
Proof.
  intros Hp Ha. unfold clear_phys, V2P, P2V. rewrite VIRT_PHYS_VIRT by done.
  by rewrite fill_outside.
Qed.

(** [pmm_alloc] takes the lowest free page, or fails exactly when there is
    none. *)
Lemma pmm_alloc_cases m :
  pmm_wf (pmm m) ->
  (exists i m', pmm_alloc m = (m', i * PAGE_SIZE) /\ taken m m' i 1 /\
     forall j, 0 <= j < i -> bitmap_test j (pmm m) = true) \/
  (pmm_alloc m = (m, 0) /\ forall i, ~ page_free (pmm m) i).
Proof.
  intros Hwf. pose proof (wf_total _ Hwf) as Ht. unfold pmm_alloc.
  destruct (find_first _ 0 _) as [i|] eqn:E.
  - left. apply find_first_Some in E as (Hi & Hf & Hlow). prop_bools.
    assert (0 <= i < total_pages (pmm m)) as Hi' by lia.
    destruct (page_addr (pmm m) i Hwf Hi') as (Ea & Ed & Er). rewrite Ea.
    destruct (take_wf i (pmm m) Hwf) as (H1 & H2 & H3); [done|].
    eexists i, _. split; [done|]. split.
    + split; simpl; try done.
      * lia.
      * intros k Hk. replace k with i by lia. done.
      * intros j. rewrite H3. destruct (Z.eqb_spec j i), (Z.leb_spec i j), (Z.ltb_spec j (i + 1));
          simpl; lia || done.
      * intros a Ha. apply clear_phys_zero; unfold PAGE_SIZE in *; lia.
      * intros a Ha. apply clear_phys_frame; unfold PAGE_SIZE in *; lia.
    + intros j Hj. specialize (Hlow j ltac:(lia)). by prop_bools.
  - right. split; [done|]. intros i [Hi Hf]. rewrite find_first_None in E.
    specialize (E i ltac:(lia)). rewrite Hf in E. done.
Qed.

Lemma run_at_free p s c :
  0 <= s -> s + c <= total_pages p ->
  run_at (fun i => negb (bitmap_test i p)) s c <-> forall k, s <= k < s + c -> page_free p k.
Proof.
  intros Hs Hc. unfold run_at, page_free. split; intros H0 k Hk.
  - split; [lia|]. apply negb_true_iff, H0. lia.
  - apply negb_true_iff, H0. lia.
Qed.

Lemma pmm_alloc_pages_cases count m :
  pmm_wf (pmm m) -> 0 < count < 2 ^ 64 ->
  (exists s m', pmm_alloc_pages count m = (m', s * PAGE_SIZE) /\ taken m m' s count /\
     forall s', 0 <= s' < s -> ~ (forall k, s' <= k < s' + count -> page_free (pmm m) k)) \/
  (pmm_alloc_pages count m = (m, 0) /\
     forall s, ~ (forall k, s <= k < s + count -> page_free (pmm m) k)).
Proof.
  intros Hwf Hc. pose proof (wf_total _ Hwf) as Ht. unfold pmm_alloc_pages.
  destruct (Z.eqb_spec count 0); [lia|]. destruct (Z.eqb_spec count 1) as [->|].
  { destruct (pmm_alloc_cases m Hwf) as [(i & m' & -> & T & Hlow)|(-> & Hno)].
    - left. exists i, m'. split_and!; [done|done|]. intros s' Hs' Hrun.
      destruct (Hrun s') as [_ Hf]; [lia|]. rewrite Hlow in Hf; done.
    - right. split; [done|]. intros s Hrun. apply (Hno s), Hrun. lia. }
  pose proof (scan_run_first (fun i => negb (bitmap_test i (pmm m))) count
                (Z.to_nat (total_pages (pmm m))) ltac:(lia)) as Hscan.
  destruct (scan_run _ count 0 _ 0 0) as [s|].
  - left. destruct Hscan as (Hs & He & Hrun & Hlow).
    assert (s + count <= total_pages (pmm m)) as He' by lia.
    rewrite run_at_free in Hrun by done.
    destruct (page_addr (pmm m) s Hwf) as (Ea & Ed & Er); [lia|]. rewrite Ea.
    destruct (take_run_wf s (pmm m) (Z.to_nat count) Hwf) as (H1 & H2 & H3 & H4); [lia|lia| |].
    { intros k Hk. apply Hrun. lia. }
    rewrite Z2Nat.id in * by lia.
    eexists s, _. split; [done|]. split.
    + split; simpl; try done.
      * lia.
      * intros a Ha. apply clear_phys_zero; unfold PAGE_SIZE in *; [lia|].
        rewrite u64_small; lia.
      * intros a Ha. apply clear_phys_frame; unfold PAGE_SIZE in *; [lia|].
        rewrite u64_small; lia.
    + intros s' Hs' Hr. apply (Hlow s'); [lia|]. apply run_at_free; [lia|lia|done].
  - right. split; [done|]. intros s Hrun.
    destruct (Hrun s) as [Hs _]; [lia|].
    destruct (Hrun (s + count - 1)) as [He _]; [lia|].
    apply (Hscan s); [lia|lia|]. apply run_at_free; [lia|lia|done].
Qed.

(** Releasing pages: the bits of the range are cleared, the others kept. *)
Lemma pmm_free_pages_wf page count m :
  pmm_wf (pmm m) -> 0 < page < 2 ^ 64 -> 0 < count < 2 ^ 63 ->
  let m' := pmm_free_pages page count m in
  pmm_wf (pmm m') /\ total_pages (pmm m') = total_pages (pmm m) /\ mem m' = mem m /\
  forall j, 0 <= j < total_pages (pmm m) ->
    bitmap_test j (pmm m') = bitmap_test j (pmm m)
      && negb ((page / PAGE_SIZE <=? j) && (j <? page / PAGE_SIZE + count)).
Proof.
  intros Hwf Hp Hc. simpl. unfold pmm_free_pages.
  destruct (Z.eqb_spec page 0); [lia|]. destruct (Z.eqb_spec count 0); [lia|]. simpl.
  set (pn := page / PAGE_SIZE).
  assert (0 <= pn < 2 ^ 52) as Hpn.
  { unfold pn, PAGE_SIZE. split; [apply Z.div_pos; lia|apply Z.div_lt_upper_bound; lia]. }
  pose proof (for_range_ind (fun i q =>
    pmm_wf q /\ total_pages q = total_pages (pmm m) /\
    forall j, 0 <= j < total_pages (pmm m) ->
      bitmap_test j q = bitmap_test j (pmm m) && negb ((pn <=? j) && (j <? pn + i)))
    (fun i p => let current_page := u64 (pn + i) in
       if total_pages p <=? current_page then p
       else if negb (bitmap_test current_page p) then p
       else used_decr (bitmap_clear current_page p)) (Z.to_nat count) 0 (pmm m)) as Hgen.
  rewrite Z.add_0_l, Z2Nat.id in Hgen by lia.
  destruct Hgen as (H1 & H2 & H3); [| |split_and!; done].
  - split_and!; [done|done|]. intros j Hj.
    destruct (Z.leb_spec pn j), (Z.ltb_spec j (pn + 0)); simpl; rewrite ?andb_true_r; lia || done.
  - intros i q Hi (Hwq & Htq & Hbq). simpl. rewrite u64_small by lia.
    destruct (Z.leb_spec (total_pages q) (pn + i)).
    { split_and!; [done|done|]. intros j Hj. rewrite Hbq by done.
      destruct (Z.ltb_spec j (pn + i)), (Z.ltb_spec j (pn + (i + 1))); lia || done. }
    destruct (bitmap_test (pn + i) q) eqn:E; simpl.
    + destruct (release_wf (pn + i) q Hwq) as (R1 & R2 & R3); [split; [lia|done]|].
      split_and!; [done|done|]. intros j Hj. rewrite R3, Hbq by done.
      destruct (Z.eqb_spec j (pn + i)), (Z.leb_spec pn j), (Z.ltb_spec j (pn + i)),
        (Z.ltb_spec j (pn + (i + 1))), (bitmap_test j (pmm m)); simpl; lia || done.
    + split_and!; [done|done|]. intros j Hj. rewrite Hbq by done.
      destruct (Z.ltb_spec j (pn + i)), (Z.ltb_spec j (pn + (i + 1))); try lia; try done.
      replace j with (pn + i) by lia. rewrite Hbq in E by lia.
      destruct (bitmap_test (pn + i) (pmm m)); [|done].
      destruct (Z.leb_spec pn (pn + i)), (Z.ltb_spec (pn + i) (pn + i)); simpl in *; lia || done.
Qed.

End specs.

(** ** Initialisation

    What the boot loader documents about its memory map: usable entries are
    page aligned and do not overlap, and no entry wraps around the address
    space. *)
Definition usable (e : memmap_entry) : bool := type e =? LIMINE_MEMMAP_USABLE.
Definition reserved (e : memmap_entry) : bool :=
  (type e =? LIMINE_MEMMAP_EXECUTABLE_AND_MODULES)
  || (type e =? LIMINE_MEMMAP_BOOTLOADER_RECLAIMABLE).

(** Page [i] is one of the whole pages of the region of [e]. *)
Definition covers (e : memmap_entry) (i : Z) : bool :=
  (base e / PAGE_SIZE <=? i) && (i <? base e / PAGE_SIZE + len e / PAGE_SIZE).
(** Page [i] is one of the pages counted from the base of [e] until its length
    is exhausted, the last one rounded up. *)
Definition touches (e : memmap_entry) (i : Z) : bool :=
  (base e / PAGE_SIZE <=? i) && (i <? base e / PAGE_SIZE + (len e + PAGE_SIZE - 1) / PAGE_SIZE).

Definition entry_ok (e : memmap_entry) : Prop :=
  0 <= base e /\ 0 <= len e /\ base e + len e < 2 ^ 64 - PAGE_SIZE.

Fixpoint usable_disjoint (es : list memmap_entry) : Prop :=
  match es with
  | [] => True
  | e :: es' =>
      (forall e' i, e' ∈ es' -> usable e = true -> usable e' = true ->
         covers e i = true -> covers e' i = false) /\ usable_disjoint es'
  end.

(** [released es i]: page [i] belongs to a usable entry; [kept es i]: to a
    reserved one. *)
Definition released (es : list memmap_entry) (i : Z) : bool :=
  existsb (fun e => usable e && covers e i) es.
Definition kept (es : list memmap_entry) (i : Z) : bool :=
  existsb (fun e => reserved e && touches e i) es.

(** The pages holding a bitmap of [size] bytes placed at physical [addr]. *)
Definition holds_bitmap (addr size i : Z) : bool :=
  (addr / PAGE_SIZE <=? i) && (i <? addr / PAGE_SIZE + (size + PAGE_SIZE - 1) / PAGE_SIZE).

Lemma entry_pages e :
  entry_ok e ->
  0 <= base e / PAGE_SIZE < 2 ^ 52 /\ 0 <= len e / PAGE_SIZE < 2 ^ 52 /\
  0 <= (len e + PAGE_SIZE - 1) / PAGE_SIZE < 2 ^ 52 /\
  u64 (len e + PAGE_SIZE - 1) = len e + PAGE_SIZE - 1.
Proof.
  unfold entry_ok, PAGE_SIZE. intros (H1 & H2 & H3).
  rewrite u64_small by lia.
  split_and!; try done; try (apply Z.div_pos; lia); apply Z.div_lt_upper_bound; lia.
Qed.

(** One loop of [init_clear] over pages not yet released. *)
Lemma init_clear_loop b n p :
  pmm_wf p -> 0 <= b < 2 ^ 52 -> Z.of_nat n < 2 ^ 52 ->
  (forall i, 0 <= i < total_pages p -> b <= i < b + Z.of_nat n -> bitmap_test i p = true) ->
  let p' := for_range (fun j => init_clear (u64 (b + j))) 0 n p in
  pmm_wf p' /\ total_pages p' = total_pages p /\ bitmap_ptr p' = bitmap_ptr p /\
  bitmap_size p' = bitmap_size p /\
  forall i, 0 <= i < total_pages p ->
    bitmap_test i p' = bitmap_test i p && negb ((b <=? i) && (i <? b + Z.of_nat n)).
Proof.
  intros Hwf Hb Hn Hset. simpl.
  assert (Hgen := for_range_ind (fun k q =>
    pmm_wf q /\ total_pages q = total_pages p /\ bitmap_ptr q = bitmap_ptr p /\
    bitmap_size q = bitmap_size p /\
    forall i, 0 <= i < total_pages p ->
      bitmap_test i q = bitmap_test i p && negb ((b <=? i) && (i <? b + k)))
    (fun j => init_clear (u64 (b + j))) n 0 p).
  rewrite Z.add_0_l in Hgen. apply Hgen; clear Hgen.
  - split_and!; try done. intros i Hi. case_bools; simpl; rewrite ?andb_true_r; lia || done.
  - intros k q Hk (Hwq & Htq & Hpq & Hsq & Hbq). unfold init_clear. rewrite u64_small by lia.
    destruct (Z.ltb_spec (b + k) (total_pages q)).
    + destruct (release_wf (b + k) q Hwq) as (R1 & R2 & R3).
      { split; [lia|]. rewrite Hbq, Hset by lia. case_bools; simpl; lia || done. }
      split_and!; try done. intros i Hi. rewrite R3, Hbq by done.
      case_bools; destruct (bitmap_test i p); simpl; lia || done.
    + split_and!; try done. intros i Hi. rewrite Hbq by done. case_bools; simpl; lia || done.
Qed.

(** One loop of [init_reserve]. *)
Lemma init_reserve_loop b n p :
  pmm_wf p -> 0 <= b < 2 ^ 52 -> Z.of_nat n <= 2 ^ 52 ->
  let p' := for_range (fun j => init_reserve (u64 (b + j))) 0 n p in
  pmm_wf p' /\ total_pages p' = total_pages p /\ bitmap_ptr p' = bitmap_ptr p /\
  bitmap_size p' = bitmap_size p /\
  forall i, 0 <= i < total_pages p ->
    bitmap_test i p' = bitmap_test i p || ((b <=? i) && (i <? b + Z.of_nat n)).
Proof.
  intros Hwf Hb Hn. simpl.
  assert (Hgen := for_range_ind (fun k q =>
    pmm_wf q /\ total_pages q = total_pages p /\ bitmap_ptr q = bitmap_ptr p /\
    bitmap_size q = bitmap_size p /\
    forall i, 0 <= i < total_pages p ->
      bitmap_test i q = bitmap_test i p || ((b <=? i) && (i <? b + k)))
    (fun j => init_reserve (u64 (b + j))) n 0 p).
  rewrite Z.add_0_l in Hgen. apply Hgen; clear Hgen.
  - split_and!; try done. intros i Hi. case_bools; simpl; rewrite ?orb_false_r; lia || done.
  - intros k q Hk (Hwq & Htq & Hpq & Hsq & Hbq). unfold init_reserve. rewrite u64_small by lia.
    destruct (Z.ltb_spec (b + k) (total_pages q)); simpl.
    + destruct (bitmap_test (b + k) q) eqn:E; simpl.
      * split_and!; try done. intros i Hi. rewrite Hbq by done.
        destruct (decide (i = b + k)) as [->|].
        -- rewrite <- Hbq, E by done. case_bools; simpl; try lia; by rewrite orb_true_r.
        -- case_bools; simpl; lia || done.
      * destruct (take_wf (b + k) q Hwq) as (R1 & R2 & R3); [split; [lia|done]|].
        split_and!; try done. intros i Hi. rewrite R3, Hbq by done.
        case_bools; destruct (bitmap_test i p); simpl; lia || done.
    + split_and!; try done. intros i Hi. rewrite Hbq by done. case_bools; simpl; lia || done.
Qed.

Lemma released_cons e es i : released (e :: es) i = (usable e && covers e i) || released es i.
Proof. done. Qed.
Lemma kept_cons e es i : kept (e :: es) i = (reserved e && touches e i) || kept es i.
Proof. done. Qed.

Lemma free_usable_all es : forall p,
  pmm_wf p -> Forall entry_ok es -> usable_disjoint es ->
  (forall i, 0 <= i < total_pages p -> released es i = true -> bitmap_test i p = true) ->
  let p' := fold_left (fun p e => free_usable_entry e p) es p in
  pmm_wf p' /\ total_pages p' = total_pages p /\ bitmap_ptr p' = bitmap_ptr p /\
  bitmap_size p' = bitmap_size p /\
  forall i, 0 <= i < total_pages p ->
    bitmap_test i p' = bitmap_test i p && negb (released es i).
Proof.
  induction es as [|e es IH]; intros p Hwf Hok Hd Hset; simpl.
  { split_and!; try done. intros. by rewrite andb_true_r. }
  apply Forall_cons_1 in Hok as [He Hok]. destruct Hd as [Hde Hd].
  pose proof (entry_pages e He) as (P1 & P2 & P3 & _).
  assert (Hone : pmm_wf (free_usable_entry e p) /\
    total_pages (free_usable_entry e p) = total_pages p /\
    bitmap_ptr (free_usable_entry e p) = bitmap_ptr p /\
    bitmap_size (free_usable_entry e p) = bitmap_size p /\
    forall i, 0 <= i < total_pages p ->
      bitmap_test i (free_usable_entry e p)
      = bitmap_test i p && negb (usable e && covers e i)).
  { unfold free_usable_entry. fold (usable e). destruct (usable e) eqn:Eu; simpl.
    - destruct (init_clear_loop (base e / PAGE_SIZE) (Z.to_nat (len e / PAGE_SIZE)) p)
        as (R1 & R2 & R3 & R4 & R5); try done; try lia.
      + intros i Hi Hr. apply Hset; [done|]. rewrite released_cons, Eu. unfold covers.
        case_bools; simpl; lia || done.
      + rewrite Z2Nat.id in R5 by lia. split_and!; done.
    - split_and!; try done. intros. by rewrite andb_true_r. }
  destruct Hone as (W1 & W2 & W3 & W4 & W5).
  destruct (IH (free_usable_entry e p) W1 Hok Hd) as (V1 & V2 & V3 & V4 & V5).
  - intros i Hi Hr. rewrite W2 in Hi. rewrite W5 by done.
    rewrite Hset by (done || (rewrite released_cons, Hr; apply orb_true_r)). simpl.
    apply negb_true_iff. destruct (usable e) eqn:Eu; [|done].
    destruct (covers e i) eqn:Ec; [|done]. simpl.
    unfold released in Hr. apply existsb_exists in Hr as (e' & Hin & Hb).
    apply andb_prop in Hb as [Hu' Hc'].
    rewrite (Hde e' i) in Hc'; try done. by apply list_elem_of_In.
  - split_and!; try congruence. intros i Hi. rewrite V5 by (by rewrite W2). rewrite W5 by done.
    rewrite ?released_cons.
    destruct (bitmap_test i p), (usable e && covers e i), (released es i); done.
Qed.

Lemma reserve_all es : forall p,
  pmm_wf p -> Forall entry_ok es ->
  let p' := fold_left (fun p e => reserve_entry e p) es p in
  pmm_wf p' /\ total_pages p' = total_pages p /\ bitmap_ptr p' = bitmap_ptr p /\
  bitmap_size p' = bitmap_size p /\
  forall i, 0 <= i < total_pages p -> bitmap_test i p' = bitmap_test i p || kept es i.
Proof.
  induction es as [|e es IH]; intros p Hwf Hok; simpl.
  { split_and!; try done. intros. by rewrite orb_false_r. }
  apply Forall_cons_1 in Hok as [He Hok].
  pose proof (entry_pages e He) as (P1 & P2 & P3 & P4).
  assert (Hone : pmm_wf (reserve_entry e p) /\
    total_pages (reserve_entry e p) = total_pages p /\
    bitmap_ptr (reserve_entry e p) = bitmap_ptr p /\
    bitmap_size (reserve_entry e p) = bitmap_size p /\
    forall i, 0 <= i < total_pages p ->
      bitmap_test i (reserve_entry e p) = bitmap_test i p || (reserved e && touches e i)).
  { unfold reserve_entry. fold (reserved e). destruct (reserved e) eqn:Eu; simpl.
    - rewrite P4.
      destruct (init_reserve_loop (base e / PAGE_SIZE)
                  (Z.to_nat ((len e + PAGE_SIZE - 1) / PAGE_SIZE)) p)
        as (R1 & R2 & R3 & R4 & R5); try done; try lia.
      rewrite Z2Nat.id in R5 by lia. split_and!; done.
    - split_and!; try done. intros. by rewrite orb_false_r. }
  destruct Hone as (W1 & W2 & W3 & W4 & W5).
  destruct (IH (reserve_entry e p) W1 Hok) as (V1 & V2 & V3 & V4 & V5).
  split_and!; try congruence. intros i Hi. rewrite V5 by (by rewrite W2). rewrite W5 by done.
  by rewrite ?kept_cons, orb_assoc.
Qed.

Section init.
Context `{BootInfo}.

Lemma highest_of_max es : forall h,
  Forall entry_ok es -> 0 <= h < 2 ^ 64 ->
  h <= highest_of es h < 2 ^ 64 /\ forall e, e ∈ es -> base e + len e <= highest_of es h.
Proof.
  induction es as [|e es IH]; intros h Hok Hh.
  { simpl. split; [lia|]. intros e He. by apply elem_of_nil in He. }
  apply Forall_cons_1 in Hok as [He Hok].
  destruct He as (H1 & H2 & H3). unfold PAGE_SIZE in H3.
  set (h' := if h <? base e + len e then base e + len e else h).
  assert (highest_of (e :: es) h = highest_of es h') as ->.
  { unfold highest_of, h'. simpl. by rewrite u64_small by lia. }
  assert (h <= h' < 2 ^ 64 /\ base e + len e <= h') as [Hh1 Hh2] by (unfold h'; case_bools; lia).
  destruct (IH h' Hok ltac:(lia)) as [Hr Hmax].
  split; [lia|]. intros e' He'. apply elem_of_cons in He' as [->|He']; [lia|by apply Hmax].
Qed.

Lemma find_bitmap_entry_Some size es e :
  find_bitmap_entry size es = Some e -> e ∈ es /\ usable e = true /\ size <= len e.
Proof.
  induction es as [|e' es IH]; simpl; [done|]. intros E.
  destruct ((type e' =? LIMINE_MEMMAP_USABLE) && (size <=? len e')) eqn:Et.
  - injection E as ->. prop_bools. split_and!; [left|by apply Z.eqb_eq|done].
  - destruct (IH E) as (H1 & H2 & H3). split_and!; [by right|done|done].
Qed.

(** What [pmm_init] establishes, given the memory map [es] and the usable entry
    [e] that receives the bitmap: the invariant holds, and a page is free
    exactly when it is a whole page of a usable entry, holds no part of the
    bitmap and is not touched by a reserved entry. *)
Lemma pmm_init_cases es e :
  Forall entry_ok es -> usable_disjoint es ->
  let highest := highest_of es 0 in
  let total := highest / PAGE_SIZE in
  let size := (total + 7) / 8 in
  find_bitmap_entry size es = Some e -> P2V (base e) <> 0 ->
  let p := pmm_init (Some es) pmm_boot in
  pmm_wf p /\ total_pages p = total /\ bitmap_ptr p = P2V (base e) /\ bitmap_size p = size /\
  forall i, 0 <= i < total ->
    bitmap_test i p = negb (released es i) || holds_bitmap (base e) size i || kept es i.
Proof.
  intros Hok Hd highest total size He Hv p.
  destruct (highest_of_max es 0 Hok ltac:(lia)) as [Hh Hmax].
  destruct (find_bitmap_entry_Some _ _ _ He) as (Hin & Hu & Hsz).
  assert (He' : entry_ok e) by (rewrite List.Forall_forall in Hok; by apply Hok, list_elem_of_In).
  assert (Ht : 0 <= total < 2 ^ 52).
  { unfold total, PAGE_SIZE. split; [apply Z.div_pos; lia|apply Z.div_lt_upper_bound; lia]. }
  assert (Hs : 0 <= size < 2 ^ 50 /\ total <= 8 * size).
  { unfold size. pose proof (Z.div_mod (total + 7) 8). pose proof (Z.mod_pos_bound (total + 7) 8).
    lia. }
  unfold p, pmm_init. simpl highest_addr. fold highest. fold total.
  rewrite (u64_small (total + 7)) by lia. fold size. rewrite He.
  destruct (Z.eqb_spec (P2V (base e)) 0); [done|].
  set (p1 := mkPmm (P2V (base e)) _ size total total highest).
  assert (Hb1 : forall i, 0 <= i < total -> bitmap_test i p1 = true).
  { intros i Hi. rewrite bitmap_test_bit. simpl. pose proof (Z.mod_pos_bound i 8).
    assert (0 <= i / 8 < size) by (split; [apply Z.div_pos|apply Z.div_lt_upper_bound]; lia).
    rewrite aget_replicate, testbit_u8 by lia.
    change 0xFF with (Z.ones 8). apply Z.ones_spec_low. lia. }
  assert (Hw1 : pmm_wf p1).
  { split; simpl; [lia|rewrite length_replicate; lia|].
    unfold used_count. rewrite count_below_full; simpl; [lia|]. intros i Hi. apply Hb1. lia. }
  destruct (free_usable_all es p1 Hw1 Hok Hd) as (W1 & W2 & W3 & W4 & W5).
  { intros i Hi _. by apply Hb1. }
  set (p2 := fold_left _ es p1) in *.
  assert (Hbase : V2P (bitmap_ptr p2) = base e).
  { rewrite W3. unfold V2P, P2V, p1. simpl. apply VIRT_PHYS_VIRT.
    destruct He' as (? & ? & ?). unfold PAGE_SIZE in *. lia. }
  pose proof (entry_pages e He') as (Q1 & Q2 & Q3 & Q4).
  assert (Hbp : 0 <= (size + PAGE_SIZE - 1) / PAGE_SIZE < 2 ^ 52).
  { unfold PAGE_SIZE. split; [apply Z.div_pos; lia|apply Z.div_lt_upper_bound; lia]. }
  assert (Hres := init_reserve_loop (base e / PAGE_SIZE)
    (Z.to_nat ((size + PAGE_SIZE - 1) / PAGE_SIZE)) p2 W1 Q1 ltac:(lia)).
  rewrite Z2Nat.id in Hres by lia.
  unfold reserve_bitmap. rewrite Hbase, W4. simpl bitmap_size.
  rewrite (u64_small (size + PAGE_SIZE - 1)) by (unfold PAGE_SIZE; lia).
  set (p3 := for_range _ 0 _ p2) in *. simpl in Hres.
  destruct Hres as (V1 & V2 & V3 & V4 & V5).
  destruct (reserve_all es p3 V1 Hok) as (U1 & U2 & U3 & U4 & U5).
  set (p4 := fold_left _ es p3) in *.
  assert (total_pages p4 = total) by (rewrite U2, V2, W2; done).
  split_and!; [done|done|by rewrite U3, V3, W3|by rewrite U4, V4, W4|].
  intros i Hi. rewrite U5, V5, W5, Hb1; try done; try (rewrite ?V2, W2; done).
Qed.

(** ** Properties *)

(** [pmm_init] sets the bitmap up exactly: after it, the allocator's
    invariant holds, [used_pages] counts the pages in use, a page is free iff
    it is a whole page of a usable region and neither holds part of the bitmap
    itself nor is touched by a region of the kernel, its modules or the boot
    loader. *)
Theorem pmm_init_spec es e :
  Forall entry_ok es -> usable_disjoint es ->
  let total := highest_of es 0 / PAGE_SIZE in
  let size := (total + 7) / 8 in
  find_bitmap_entry size es = Some e -> P2V (base e) <> 0 ->
  let p := pmm_init (Some es) pmm_boot in
  pmm_wf p /\ total_pages p = total /\
  forall i, 0 <= i < total ->
    (page_free p i <-> released es i = true /\ holds_bitmap (base e) size i = false /\
                       kept es i = false).
Proof.
  intros Hok Hd total size He Hv p.
  destruct (pmm_init_cases es e Hok Hd He Hv) as (H1 & H2 & _ & _ & H5).
  fold total size in H2, H5. fold p in H1, H2, H5.
  split_and!; [done|done|]. intros i Hi. unfold page_free. rewrite H2, (H5 i Hi).
  destruct (released es i), (holds_bitmap _ _ i), (kept es i); simpl;
    intuition (congruence || lia).
Qed.

(** C18: [pmm_alloc_pages] is an exact first-fit allocator of contiguous
    physical memory: it returns the lowest run of [count] free pages, now
    marked used and cleared, with every other page and byte untouched, and it
    fails, changing nothing, exactly when no such run exists. *)
Theorem pmm_alloc_pages_first_fit count m :
  pmm_wf (pmm m) -> 0 < count < 2 ^ 64 ->
  (exists s m', pmm_alloc_pages count m = (m', s * PAGE_SIZE) /\ taken m m' s count /\
     forall s', 0 <= s' < s -> ~ (forall k, s' <= k < s' + count -> page_free (pmm m) k)) \/
  (pmm_alloc_pages count m = (m, 0) /\
     forall s, ~ (forall k, s <= k < s + count -> page_free (pmm m) k)).
Proof. apply pmm_alloc_pages_cases. Qed.

(** releasing what was just allocated restores the allocator: every bit and
    the count of used pages are those before the allocation. *)
Theorem pmm_alloc_free_roundtrip count m m' r :
  pmm_wf (pmm m) -> 0 < count < 2 ^ 63 ->
  pmm_alloc_pages count m = (m', r) -> r <> 0 ->
  let m'' := pmm_free_pages r count m' in
  used_pages (pmm m'') = used_pages (pmm m) /\ pmm_wf (pmm m'') /\
  forall i, 0 <= i < total_pages (pmm m) -> bitmap_test i (pmm m'') = bitmap_test i (pmm m).
Proof.
  intros Hwf Hc Hr Hne m''.
  destruct (pmm_alloc_pages_cases count m Hwf ltac:(lia)) as [(s & m1 & Ha & T & _)|[Ha _]];
    rewrite Ha in Hr; [|congruence].
  injection Hr as <- <-. destruct (taken_range _ _ _ _ T) as (Hs & _ & He).
  destruct (page_addr (pmm m) s Hwf) as (_ & Hdiv & Hrange); [lia|].
  destruct (pmm_free_pages_wf (s * PAGE_SIZE) count m1 (taken_wf _ _ _ _ T)) as (F1 & F2 & _ & F4);
    [lia|lia|]. fold m'' in F1, F2, F4. rewrite Hdiv in F4.
  assert (Hbits : forall i, 0 <= i < total_pages (pmm m) ->
            bitmap_test i (pmm m'') = bitmap_test i (pmm m)).
  { intros i Hi. rewrite F4 by (by rewrite (taken_total _ _ _ _ T)).
    rewrite (taken_bits _ _ _ _ T).
    destruct (decide (s <= i < s + count)) as [Hin|Hout].
    - destruct (taken_free _ _ _ _ T i Hin) as [_ ->]. case_bools; simpl; lia || done.
    - case_bools; simpl; try lia; by rewrite andb_true_r. }
  split_and!; [|done|done].
  rewrite (wf_used _ F1), (wf_used _ Hwf). unfold used_count.
  rewrite F2, (taken_total _ _ _ _ T). apply count_below_ext.
  intros i Hi. apply Hbits. pose proof (wf_total _ Hwf). lia.
Qed.
End init.

(** Witnesses: the map of a small machine, with the direct map where the boot
    loader puts it. *)
Definition limine_boot : BootInfo := {| hhdm_offset := 0xFFFF800000000000 |}.
Definition small_map : list memmap_entry :=
  [mkEntry 0 0x1000 1; mkEntry 0x1000 0x6000 LIMINE_MEMMAP_USABLE;
   mkEntry 0x7000 0x1800 LIMINE_MEMMAP_EXECUTABLE_AND_MODULES;
   mkEntry 0x9000 0x3000 LIMINE_MEMMAP_USABLE].
Definition small_machine : machine :=
  mkMachine (@pmm_init limine_boot (Some small_map) pmm_boot) (fun _ => 0xCC).

Lemma small_map_ok : Forall entry_ok small_map /\ usable_disjoint small_map.
Proof.
  split; [repeat constructor; unfold entry_ok, PAGE_SIZE; simpl; lia|].
  simpl. split_and!; try done; intros e' i He' Hu Hu' Hc;
    repeat (apply elem_of_cons in He' as [->|He']); try (by apply elem_of_nil in He');
    try discriminate Hu; try discriminate Hu';
    unfold covers, PAGE_SIZE in *; simpl base in *; simpl len in *; prop_bools;
    apply andb_false_iff; rewrite Z.leb_gt, Z.ltb_ge; zdiv_lia.
Qed.

Lemma small_machine_wf : pmm_wf (pmm small_machine).
Proof.
  split; [vm_compute; split; congruence|vm_compute; congruence|vm_compute; reflexivity].
Qed.

Lemma pmm_init_spec_witness :
  pmm_wf (pmm small_machine) /\ total_pages (pmm small_machine) = 12 /\
  forall i, 0 <= i < 12 ->
    (page_free (pmm small_machine) i <-> released small_map i = true /\
       holds_bitmap 0x1000 2 i = false /\ kept small_map i = false).
Proof.
  exact (@pmm_init_spec limine_boot small_map (mkEntry 0x1000 0x6000 LIMINE_MEMMAP_USABLE)
    (proj1 small_map_ok) (proj2 small_map_ok) eq_refl ltac:(vm_compute; congruence)).
Defined.

Lemma pmm_alloc_pages_first_fit_witness :
  (exists s m', @pmm_alloc_pages limine_boot 3 small_machine = (m', s * PAGE_SIZE) /\
     taken small_machine m' s 3 /\
     forall s', 0 <= s' < s -> ~ (forall k, s' <= k < s' + 3 -> page_free (pmm small_machine) k)) \/
  (@pmm_alloc_pages limine_boot 3 small_machine = (small_machine, 0) /\
     forall s, ~ (forall k, s <= k < s + 3 -> page_free (pmm small_machine) k)).
Proof. apply (@pmm_alloc_pages_first_fit limine_boot 3 small_machine small_machine_wf). lia. Defined.

Lemma pmm_alloc_free_roundtrip_witness :
  let '(m', r) := @pmm_alloc_pages limine_boot 3 small_machine in
  r = 0x2000 /\
  used_pages (pmm (pmm_free_pages r 3 m')) = used_pages (pmm small_machine) /\
  pmm_wf (pmm (pmm_free_pages r 3 m')) /\
  forall i, 0 <= i < 12 ->
    bitmap_test i (pmm (pmm_free_pages r 3 m')) = bitmap_test i (pmm small_machine).
Proof.
  destruct (@pmm_alloc_pages limine_boot 3 small_machine) as [m' r] eqn:E.
  assert (r = 0x2000) as Hr by (vm_compute in E; injection E as _ <-; reflexivity).
  split; [exact Hr|].
  apply (@pmm_alloc_free_roundtrip limine_boot 3 small_machine m' r small_machine_wf);
    [lia|exact E|rewrite Hr; lia].
Defined.
