(* ===== verification/Vmm.v ===== *)
(** * Virtual memory manager (src/kernel/mem/vmm.c, vmm.h)

    Four-level x86-64 page tables.  The tables live in physical memory and are
    read and written through the direct map, 64 bits at a time, as the code
    does; new tables come from the physical memory manager.

    The static variable [kernel_space], assigned once by [vmm_init], is a
    parameter of the operations.  The TLB is not modelled: [vmm_invlpg] has no
    effect on the tables. *)

From S2P Require Import Prelude PhysMem Pmm.

Definition PAGE_PRESENT : Z := 2 ^ 0.
Definition PAGE_WRITE : Z := 2 ^ 1.
Definition PAGE_USER : Z := 2 ^ 2.
Definition PAGE_NOCACHE : Z := 2 ^ 4.
Definition PAGE_NX : Z := 2 ^ 63.
Definition VMM_USER_PAGE : Z := Z.lor (Z.lor PAGE_PRESENT PAGE_WRITE) PAGE_USER.
Definition VMM_KERNEL_PAGE : Z := Z.lor PAGE_PRESENT PAGE_WRITE.
Definition PAGE_MASK : Z := 0xFFFFFFFFFFFFF000.

Definition PML4_INDEX (addr : Z) : Z := Z.land (Z.shiftr addr 39) 0x1FF.
Definition PDPT_INDEX (addr : Z) : Z := Z.land (Z.shiftr addr 30) 0x1FF.
Definition PD_INDEX (addr : Z) : Z := Z.land (Z.shiftr addr 21) 0x1FF.
Definition PT_INDEX (addr : Z) : Z := Z.land (Z.shiftr addr 12) 0x1FF.

Definition PTE_GET_ADDR (entry : Z) : Z := Z.land entry PAGE_MASK.
Definition PTE_CREATE (addr flags : Z) : Z := Z.lor (Z.land addr PAGE_MASK) flags.

(** address_space_t: the physical and the direct-map address of the PML4. *)
Record address_space := mkSpace { pml4 : Z; pml4_virt : Z }.

(** A pointer to an address space: NULL, the static [kernel_space], or a
    structure in the direct map. *)
Inductive as_ptr := AS_NULL | AS_KERNEL | AS_AT (va : Z).

#[export] Instance as_ptr_eq_dec : EqDecision as_ptr.
Proof. solve_decision. Defined.

Definition present (entry : Z) : bool := negb (Z.land entry PAGE_PRESENT =? 0).

Section vmm.
Context `{BootInfo} (kernel_space : address_space).

(** 64-bit access and [memset] at a direct-map address. *)
Definition kload64 (va : Z) (m : machine) : Z := load64 (mem m) (V2P va).
Definition kstore64 (va v : Z) (m : machine) : machine :=
  mkMachine (pmm m) (store64 (mem m) (V2P va) (u64 v)).
Definition kmemset (va v n : Z) (m : machine) : machine :=
  mkMachine (pmm m) (fill (mem m) (V2P va) n v).

(** [table->entries[index]]. *)
Definition table_entry (table index : Z) (m : machine) : Z := kload64 (u64 (table + 8 * index)) m.
Definition set_entry (table index v : Z) (m : machine) : machine :=
  kstore64 (u64 (table + 8 * index)) v m.

(** Fields of an address space. *)
Definition space_pml4 (space : as_ptr) (m : machine) : Z :=
  match space with AS_AT va => kload64 va m | _ => pml4 kernel_space end.
Definition space_pml4_virt (space : as_ptr) (m : machine) : Z :=
  match space with AS_AT va => kload64 (u64 (va + 8)) m | _ => pml4_virt kernel_space end.

(** Get or create the page table at the next level; NULL (0) on failure. *)
Definition vmm_get_next_level (current index : Z) (create : bool) (flags : Z) (m : machine)
  : machine * Z :=
  let entry := table_entry current index m in
  if present entry then
    (set_entry current index
       (Z.lor (table_entry current index m) (Z.land flags (Z.lor PAGE_USER PAGE_WRITE))) m,
     P2V (PTE_GET_ADDR entry))
  else if negb create then (m, 0)
  else
    let '(m1, phys) := pmm_alloc m in
    if phys =? 0 then (m1, 0)
    else
      let table := P2V phys in
      let m2 := kmemset table 0 PAGE_SIZE m1 in
      (set_entry current index (PTE_CREATE phys (Z.lor flags PAGE_PRESENT)) m2, table).

Definition vmm_map (space : as_ptr) (virt phys flags : Z) (m : machine) : machine * bool :=
  let virt_addr := Z.land virt PAGE_MASK in
  let phys_addr := Z.land phys PAGE_MASK in
  let table_flags := Z.lor PAGE_WRITE PAGE_USER in
  let '(m1, pdpt) :=
    vmm_get_next_level (space_pml4_virt space m) (PML4_INDEX virt_addr) true table_flags m in
  if pdpt =? 0 then (m1, false) else
  let '(m2, pd) := vmm_get_next_level pdpt (PDPT_INDEX virt_addr) true table_flags m1 in
  if pd =? 0 then (m2, false) else
  let '(m3, pt) := vmm_get_next_level pd (PD_INDEX virt_addr) true table_flags m2 in
  if pt =? 0 then (m3, false) else
  (set_entry pt (PT_INDEX virt_addr) (PTE_CREATE phys_addr (Z.lor flags PAGE_PRESENT)) m3, true).

Definition vmm_unmap (space : as_ptr) (virt : Z) (m : machine) : machine :=
  let virt_addr := Z.land virt PAGE_MASK in
  let '(m1, pdpt) :=
    vmm_get_next_level (space_pml4_virt space m) (PML4_INDEX virt_addr) false 0 m in
  if pdpt =? 0 then m1 else
  let '(m2, pd) := vmm_get_next_level pdpt (PDPT_INDEX virt_addr) false 0 m1 in
  if pd =? 0 then m2 else
  let '(m3, pt) := vmm_get_next_level pd (PD_INDEX virt_addr) false 0 m2 in
  if pt =? 0 then m3 else
  set_entry pt (PT_INDEX virt_addr) 0 m3.

(** The physical address of [virt], NULL when it is not mapped.  The walk goes
    through [vmm_get_next_level], which writes the flags of the entries it
    passes, so it threads the machine too. *)
Definition vmm_get_physical (space : as_ptr) (virt_addr : Z) (m : machine) : machine * Z :=
  let '(m1, pdpt) :=
    vmm_get_next_level (space_pml4_virt space m) (PML4_INDEX virt_addr) false 0 m in
  if pdpt =? 0 then (m1, 0) else
  let '(m2, pd) := vmm_get_next_level pdpt (PDPT_INDEX virt_addr) false 0 m1 in
  if pd =? 0 then (m2, 0) else
  let '(m3, pt) := vmm_get_next_level pd (PD_INDEX virt_addr) false 0 m2 in
  if pt =? 0 then (m3, 0) else
  let entry := table_entry pt (PT_INDEX virt_addr) m3 in
  if present entry then
    let phys := PTE_GET_ADDR entry in
    let offset := Z.land virt_addr (Z.lnot PAGE_MASK) in
    (m3, Z.lor phys offset)
  else (m3, 0).

Definition vmm_is_mapped (space : as_ptr) (virt : Z) (m : machine) : machine * bool :=
  let '(m', r) := vmm_get_physical space virt m in (m', negb (r =? 0)).

(** The rollback of [vmm_map_range]. *)
Definition unmap_first (space : as_ptr) (virt : Z) (n : nat) (m : machine) : machine :=
  for_range (fun j => vmm_unmap space (u64 (virt + j * PAGE_SIZE))) 0 n m.

(** The loop of [vmm_map_range] with [n] of the pages left, [i] done. *)
Fixpoint map_range_loop (space : as_ptr) (virt flags : Z) (i : nat) (n : nat)
    (virt_addr phys_addr : Z) (m : machine) : machine * bool :=
  match n with
  | O => (m, true)
  | S n' =>
      let '(m', ok) := vmm_map space virt_addr phys_addr flags m in
      if ok then
        map_range_loop space virt flags (S i) n' (u64 (virt_addr + PAGE_SIZE))
          (u64 (phys_addr + PAGE_SIZE)) m'
      else (unmap_first space virt i m', false)
  end.

Definition vmm_map_range (space : as_ptr) (virt phys pages flags : Z) (m : machine)
  : machine * bool :=
  map_range_loop space virt flags 0 (Z.to_nat pages) virt phys m.

Definition vmm_unmap_range (space : as_ptr) (virt pages : Z) (m : machine) : machine :=
  for_range (fun i => vmm_unmap space (u64 (virt + i * PAGE_SIZE))) 0 (Z.to_nat pages) m.

Definition vmm_map_contiguous (space : as_ptr) (virt count flags : Z) (m : machine)
  : machine * Z :=
  if (count =? 0) || (virt =? 0) then (m, 0) else
  let '(m1, phys) := pmm_alloc_pages count m in
  if phys =? 0 then (m1, 0) else
  let '(m2, ok) := vmm_map_range space virt phys count flags m1 in
  if ok then (m2, virt) else (pmm_free_pages phys count m2, 0).

Definition vmm_alloc_page (space : as_ptr) (virt flags : Z) (m : machine) : machine * Z :=
  let '(m1, phys) := pmm_alloc m in
  if phys =? 0 then (m1, 0) else
  let '(m2, ok) := vmm_map space virt phys flags m1 in
  if ok then (m2, virt) else (pmm_free phys m2, 0).

Definition vmm_alloc_pages (space : as_ptr) (virt count flags : Z) (m : machine) : machine * Z :=
  let '(m1, phys) := pmm_alloc_pages count m in
  if phys =? 0 then (m1, 0) else
  let '(m2, ok) := vmm_map_range space virt phys count flags m1 in
  if ok then (m2, virt) else (pmm_free_pages phys count m2, 0).

Definition vmm_free_page (space : as_ptr) (virt : Z) (m : machine) : machine :=
  let '(m1, phys) := vmm_get_physical space virt m in
  if phys =? 0 then m1 else pmm_free phys (vmm_unmap space virt m1).

Definition vmm_free_pages (space : as_ptr) (virt count : Z) (m : machine) : machine :=
  for_range (fun i => vmm_free_page space (u64 (virt + i * PAGE_SIZE))) 0 (Z.to_nat count) m.

(** A new address space.  [if (!space)] tests the direct-map address of the
    page, not the page. *)
Definition vmm_create_address_space (m : machine) : machine * as_ptr :=
  let '(m1, page) := pmm_alloc m in
  let space := P2V page in
  if space =? 0 then (m1, AS_NULL) else
  let '(m2, pml4_phys) := pmm_alloc m1 in
  if pml4_phys =? 0 then (pmm_free (V2P space) m2, AS_NULL) else
  let m3 := kstore64 space pml4_phys m2 in
  let m4 := kstore64 (u64 (space + 8)) (P2V pml4_phys) m3 in
  let new_pml4 := kload64 (u64 (space + 8)) m4 in
  let m5 := kmemset new_pml4 0 PAGE_SIZE m4 in
  (for_range (fun i m => set_entry new_pml4 i (table_entry (pml4_virt kernel_space) i m) m)
     256 256 m5, AS_AT space).

(** The three nested loops of [vmm_destroy_address_space]. *)
Definition destroy_pd (pd pde : Z) (m : machine) : machine :=
  let e := table_entry pd pde m in
  if present e then pmm_free (V2P (P2V (PTE_GET_ADDR e))) m else m.
Definition destroy_pdpt (pdpt pdpte : Z) (m : machine) : machine :=
  let e := table_entry pdpt pdpte m in
  if present e then
    let pd := P2V (PTE_GET_ADDR e) in
    pmm_free (V2P pd) (for_range (destroy_pd pd) 0 512 m)
  else m.
Definition destroy_pml4 (pml4 pml4e : Z) (m : machine) : machine :=
  let e := table_entry pml4 pml4e m in
  if present e then
    let pdpt := P2V (PTE_GET_ADDR e) in
    pmm_free (V2P pdpt) (for_range (destroy_pdpt pdpt) 0 512 m)
  else m.

Definition vmm_destroy_address_space (space : as_ptr) (m : machine) : machine :=
  match space with
  | AS_NULL | AS_KERNEL => m
  | AS_AT va =>
      let m1 := for_range (destroy_pml4 (space_pml4_virt space m)) 0 256 m in
      let m2 := pmm_free (space_pml4 space m1) m1 in
      pmm_free (V2P va) m2
  end.

(** [vmm_switch_space]: the value of CR3 afterwards. *)
Definition vmm_switch_space (space : as_ptr) (m : machine) (cr3 : Z) : Z :=
  match space with AS_NULL => cr3 | _ => space_pml4 space m end.

(** [setup_user_space]: map 4 MiB at 0x400000, a fresh frame per page. *)
Fixpoint setup_user_loop (n : nat) (vaddr : Z) (m : machine) : machine :=
  match n with
  | O => m
  | S n' =>
      let '(m1, phys) := pmm_alloc m in
      if phys =? 0 then m1
      else
        let '(m2, _) := vmm_map AS_KERNEL vaddr phys
                          (Z.lor (Z.lor PAGE_PRESENT PAGE_WRITE) PAGE_USER) m1 in
        setup_user_loop n' (vaddr + PAGE_SIZE) m2
  end.
Definition setup_user_space (m : machine) : machine := setup_user_loop 1024 0x400000 m.

End vmm.

(** [vmm_init]: the address space of the tables CR3 points at. *)
Definition vmm_init `{BootInfo} (current_cr3 : Z) : address_space :=
  let pml4_phys := Z.land current_cr3 PAGE_MASK in
  mkSpace pml4_phys (P2V pml4_phys).

(** ** Page-table walks

    [walk m root p]: the physical address reached from the table at [root] by
    following the present entries at the indices [p]; a path of three indices
    leads to a page table, one of four to the mapped frame. *)
Definition step (m : ram) (f i : Z) : option Z :=
  let e := load64 m (f + 8 * i) in
  if present e then Some (PTE_GET_ADDR e) else None.

Fixpoint walk (m : ram) (f : Z) (p : list Z) : option Z :=
  match p with
  | [] => Some f
  | i :: p' => match step m f i with Some g => walk m g p' | None => None end
  end.

Definition va_path (va : Z) : list Z := [PML4_INDEX va; PDPT_INDEX va; PD_INDEX va; PT_INDEX va].

(** The translation of [va] by the tables at [root]. *)
Definition translate (m : ram) (root va : Z) : option Z := walk m root (va_path va).

Lemma walk_app m p q : forall f,
  walk m f (p ++ q) = match walk m f p with Some g => walk m g q | None => None end.
Proof.
  induction p as [|i p IH]; intros f; simpl; [done|]. destruct (step m f i); [apply IH|done].
Qed.

Lemma walk_snoc m f p i :
  walk m f (p ++ [i]) = match walk m f p with Some g => step m g i | None => None end.
Proof.
  rewrite walk_app. destruct (walk m f p); [|done]. simpl. by destruct (step m z i).
Qed.

Lemma step_ram_eq m m' f i : ram_eq m m' -> step m f i = step m' f i.
Proof. intros E. unfold step. by rewrite (load64_proper m m' E (f + 8 * i) _ eq_refl). Qed.

Lemma walk_ram_eq m m' p : ram_eq m m' -> forall f, walk m f p = walk m' f p.
Proof.
  intros E. induction p as [|i p IH]; intros f; simpl; [done|].
  rewrite (step_ram_eq m m') by done. destruct (step m' f i); [apply IH|done].
Qed.

(** ** Arithmetic of addresses and entries *)

Lemma land_1FF_range x : 0 <= Z.land x 0x1FF < 512.
Proof. change 0x1FF with (2 ^ 9 - 1). rewrite land_ones_mod by lia. apply Z.mod_pos_bound. lia. Qed.

Lemma PAGE_MASK_bits i :
  0 <= i -> Z.testbit PAGE_MASK i = (12 <=? i) && (i <? 64).
Proof.
  intros Hi. change PAGE_MASK with (Z.shiftl (Z.ones 52) 12).
  destruct (Z.leb_spec 12 i).
  - rewrite Z.shiftl_spec by lia. destruct (Z.ltb_spec i 64); simpl.
    + apply Z.ones_spec_low. lia.
    + apply Z.ones_spec_high. lia.
  - rewrite Z.shiftl_spec_low by lia. done.
Qed.

(** Masking a 64-bit address rounds it down to its page. *)
Lemma land_PAGE_MASK x : 0 <= x < 2 ^ 64 -> Z.land x PAGE_MASK = x / PAGE_SIZE * PAGE_SIZE.
Proof.
  intros Hx. transitivity (Z.land x (Z.lnot (Z.ones 12))).
  - apply Z.bits_inj'. intros i Hi. rewrite !Z.land_spec, PAGE_MASK_bits, Z.lnot_spec by done.
    destruct (Z.ltb_spec i 64).
    + destruct (Z.leb_spec 12 i).
      * rewrite Z.ones_spec_high by lia. done.
      * rewrite Z.ones_spec_low by lia. done.
    + rewrite (testbit_high 64 x) by lia. done.
  - rewrite land_lnot_ones by lia. unfold PAGE_SIZE. change (2 ^ 12) with 4096.
    pose proof (Z.div_mod x 4096). lia.
Qed.

Lemma PTE_GET_ADDR_range e : 0 <= e -> 0 <= PTE_GET_ADDR e < 2 ^ 64.
Proof.
  intros He. unfold PTE_GET_ADDR. pose proof (land_range_r e PAGE_MASK ltac:(done)).
  unfold PAGE_MASK in *. lia.
Qed.

(** An address in an entry is kept apart from the low flag bits. *)
Lemma PTE_GET_ADDR_CREATE addr flags :
  Z.land flags PAGE_MASK = 0 -> PTE_GET_ADDR (PTE_CREATE addr flags) = Z.land addr PAGE_MASK.
Proof.
  intros Hf. unfold PTE_GET_ADDR, PTE_CREATE.
  rewrite Z.land_lor_distr_l, Hf, Z.lor_0_r, <- Z.land_assoc, Z.land_diag. done.
Qed.

Lemma PTE_GET_ADDR_lor e flags :
  Z.land flags PAGE_MASK = 0 -> PTE_GET_ADDR (Z.lor e flags) = PTE_GET_ADDR e.
Proof. intros Hf. unfold PTE_GET_ADDR. by rewrite Z.land_lor_distr_l, Hf, Z.lor_0_r. Qed.

Lemma present_bit e : present e = Z.testbit e 0.
Proof. unfold present, PAGE_PRESENT. by apply land_pow2_ne0. Qed.

Lemma present_lor e f : present (Z.lor e f) = present e || present f.
Proof. by rewrite !present_bit, Z.lor_spec. Qed.

Lemma low_flags f : 0 <= f < PAGE_SIZE -> Z.land f PAGE_MASK = 0.
Proof.
  intros Hf. unfold PAGE_SIZE in Hf. rewrite land_PAGE_MASK by lia.
  unfold PAGE_SIZE. rewrite Z.div_small by lia. done.
Qed.

Lemma PTE_CREATE_range addr flags :
  0 <= addr -> 0 <= flags < 2 ^ 64 -> 0 <= PTE_CREATE addr flags < 2 ^ 64.
Proof.
  intros Ha Hf. apply lor_range; [lia| |done].
  pose proof (land_range_r addr PAGE_MASK ltac:(done)). unfold PAGE_MASK in *. lia.
Qed.

(** Two addresses have the same path exactly when they lie on the same of the
    2^36 pages a four-level walk distinguishes. *)
Definition vpn (va : Z) : Z := va / PAGE_SIZE mod 2 ^ 36.

Lemma index_div va k : 0 <= k -> Z.land (Z.shiftr va k) 0x1FF = va / 2 ^ k mod 512.
Proof.
  intros Hk. change 0x1FF with (2 ^ 9 - 1). rewrite land_ones_mod by lia.
  by rewrite Z.shiftr_div_pow2.
Qed.

Lemma va_path_vpn va va' : va_path va = va_path va' <-> vpn va = vpn va'.
Proof.
  unfold va_path, PML4_INDEX, PDPT_INDEX, PD_INDEX, PT_INDEX, vpn, PAGE_SIZE.
  rewrite !index_div by lia.
  assert (Hv : forall v, v / 2 ^ 39 = v / 4096 / 2 ^ 27 /\ v / 2 ^ 30 = v / 4096 / 2 ^ 18
                /\ v / 2 ^ 21 = v / 4096 / 2 ^ 9 /\ v / 2 ^ 12 = v / 4096).
  { intros v. change 4096 with (2 ^ 12). rewrite !Z.div_div by lia. done. }
  destruct (Hv va) as (-> & -> & -> & ->). destruct (Hv va') as (-> & -> & -> & ->).
  generalize (va / 4096) (va' / 4096). intros x y. split; intros E.
  - injection E as E1 E2 E3 E4. zdiv_lia.
  - f_equal; [zdiv_lia|]. f_equal; [zdiv_lia|]. f_equal; [zdiv_lia|]. f_equal. zdiv_lia.
Qed.

Lemma va_path_mask va : 0 <= va < 2 ^ 64 -> va_path (Z.land va PAGE_MASK) = va_path va.
Proof.
  intros Hv. apply va_path_vpn. unfold vpn. rewrite land_PAGE_MASK by done.
  rewrite Z.div_mul by done. done.
Qed.

(** ** Well-formed address spaces *)
Section walks.
Context `{BootInfo}.

(** The direct map reaches every page, and no table has address NULL in it. *)
Record machine_wf (m : machine) : Prop := {
  mw_pmm : pmm_wf (pmm m);
  mw_bytes : ram_bytes (mem m);
  mw_hhdm : 0 < hhdm_offset;
  mw_top : total_pages (pmm m) * PAGE_SIZE + hhdm_offset <= 2 ^ 64
}.

Definition used_frame (m : machine) (f : Z) : Prop :=
  exists i, f = i * PAGE_SIZE /\ page_used (pmm m) i.

Definition idx_ok (i : Z) : Prop := 0 <= i < 512.

(** A path of valid indices whose first one is in the part [D] of the PML4. *)
Definition path_in (D : Z -> Prop) (p : list Z) : Prop :=
  Forall idx_ok p /\ forall i, head p = Some i -> D i.

(** The part [D] of the address space rooted at [root] is a tree of tables:
    each table is a page in use, and no two paths share a table. *)
Record space_wf (D : Z -> Prop) (root : Z) (m : machine) : Prop := {
  sw_frame : forall p f, path_in D p -> (length p <= 3)%nat ->
    walk (mem m) root p = Some f -> used_frame m f;
  sw_inj : forall p q f, path_in D p -> (length p <= 3)%nat ->
    path_in D q -> (length q <= 3)%nat ->
    walk (mem m) root p = Some f -> walk (mem m) root q = Some f -> p = q
}.

Definition is_table (D : Z -> Prop) (root : Z) (m : machine) (f : Z) : Prop :=
  exists p, path_in D p /\ (length p <= 3)%nat /\ walk (mem m) root p = Some f.

(** [evolves D root m m']: between [m] and [m'] tables were added to the part
    [D] of the space at [root], or flags of its entries changed; every mapping
    and every page in use that is not one of the tables is unchanged. *)
Record evolves (D : Z -> Prop) (root : Z) (m m' : machine) : Prop := {
  ev_machine : machine_wf m';
  ev_space : space_wf D root m';
  ev_total : total_pages (pmm m') = total_pages (pmm m);
  ev_used : forall i, page_used (pmm m) i -> page_used (pmm m') i;
  ev_walk : forall p, path_in D p -> (length p <= 4)%nat ->
    (length p = 4%nat \/ is_Some (walk (mem m) root p)) ->
    walk (mem m') root p = walk (mem m) root p;
  ev_new : forall f, is_table D root m' f -> is_table D root m f \/ ~ used_frame m f;
  ev_data : forall i a, page_used (pmm m) i -> ~ is_table D root m (i * PAGE_SIZE) ->
    i * PAGE_SIZE <= a < (i + 1) * PAGE_SIZE -> mem m' a = mem m a
}.

Lemma evolves_refl D root m : machine_wf m -> space_wf D root m -> evolves D root m m.
Proof. intros Hm Hs. split; auto. Qed.

Lemma evolves_trans D root m1 m2 m3 :
  evolves D root m1 m2 -> evolves D root m2 m3 -> evolves D root m1 m3.
Proof.
  intros E1 E2. split.
  - apply E2.
  - apply E2.
  - by rewrite (ev_total _ _ _ _ E2), (ev_total _ _ _ _ E1).
  - intros i Hi. by apply E2, E1.
  - intros p Hp Hl Hw. pose proof (ev_walk _ _ _ _ E1 p Hp Hl Hw) as W1.
    rewrite (ev_walk _ _ _ _ E2 p Hp Hl); [done|]. by rewrite W1.
  - intros f Ht. destruct (ev_new _ _ _ _ E2 f Ht) as [Ht'|Hf].
    + by apply E1.
    + right. intros (i & -> & Hi). apply Hf. exists i. split; [done|]. by apply E1.
  - intros i a Hi Hn Ha.
    rewrite (ev_data _ _ _ _ E2 i a); [by apply (ev_data _ _ _ _ E1 i)|by apply E1| |done].
    intros Ht. destruct (ev_new _ _ _ _ E1 _ Ht) as [|Hf]; [done|]. apply Hf. by exists i.
Qed.

Lemma used_frame_range m f :
  machine_wf m -> used_frame m f ->
  0 <= f < 2 ^ 64 - PAGE_SIZE /\ f + PAGE_SIZE + hhdm_offset <= 2 ^ 64 /\
  f mod PAGE_SIZE = 0 /\ P2V f = f + hhdm_offset.
Proof.
  intros Hm (i & -> & [Hi _]). pose proof (mw_hhdm m Hm). pose proof (mw_top m Hm).
  unfold PAGE_SIZE in *. split_and!; [lia|lia|lia|by apply Z.mod_mul|].
  unfold P2V, PHYS_TO_VIRT. apply u64_small. lia.
Qed.

Lemma used_frame_apart m f g :
  used_frame m f -> used_frame m g -> f <> g -> f + PAGE_SIZE <= g \/ g + PAGE_SIZE <= f.
Proof. intros (i & -> & _) (j & -> & _). unfold PAGE_SIZE. lia. Qed.

Lemma V2P_offset m f d :
  machine_wf m -> used_frame m f -> 0 <= d < PAGE_SIZE -> V2P (u64 (P2V f + d)) = f + d.
Proof.
  intros Hm Hf Hd. destruct (used_frame_range m f Hm Hf) as (H1 & H2 & _ & ->).
  pose proof (mw_hhdm m Hm). unfold V2P, VIRT_TO_PHYS. rewrite (u64_small (f + _ + d)) by lia.
  replace (f + hhdm_offset + d - hhdm_offset) with (f + d) by lia. apply u64_small. lia.
Qed.

Lemma table_entry_used m f i :
  machine_wf m -> used_frame m f -> idx_ok i ->
  table_entry (P2V f) i m = load64 (mem m) (f + 8 * i).
Proof.
  intros Hm Hf Hi. unfold idx_ok in Hi. unfold table_entry, kload64.
  rewrite (V2P_offset m) by (done || unfold PAGE_SIZE; lia). done.
Qed.

Lemma set_entry_used m f i v :
  machine_wf m -> used_frame m f -> idx_ok i ->
  set_entry (P2V f) i v m = mkMachine (pmm m) (store64 (mem m) (f + 8 * i) (u64 v)).
Proof.
  intros Hm Hf Hi. unfold idx_ok in Hi. unfold set_entry, kstore64.
  rewrite (V2P_offset m) by (done || unfold PAGE_SIZE; lia). done.
Qed.

Lemma step_agree m m' f i :
  (forall a, f <= a < f + PAGE_SIZE -> m' a = m a) -> idx_ok i -> step m' f i = step m f i.
Proof.
  intros Hag Hi. unfold idx_ok in Hi. unfold step.
  rewrite (load64_agree m' m); [done|]. intros x Hx. apply Hag. unfold PAGE_SIZE. lia.
Qed.

(** The step through an entry just stored, and through any other entry. *)
Lemma step_store_eq m f i v :
  0 <= v < 2 ^ 64 ->
  step (store64 m (f + 8 * i) v) f i = if present v then Some (PTE_GET_ADDR v) else None.
Proof. intros Hv. unfold step. by rewrite load64_store64_eq. Qed.

Lemma step_store_ne m f i v g j :
  f mod PAGE_SIZE = 0 -> g mod PAGE_SIZE = 0 -> idx_ok i -> idx_ok j ->
  (f, i) <> (g, j) -> step (store64 m (f + 8 * i) v) g j = step m g j.
Proof.
  unfold idx_ok, PAGE_SIZE. intros Hf Hg Hi Hj Hne. unfold step.
  rewrite load64_store64_ne; [done|].
  destruct (decide (f = g)) as [->|Hfg].
  - assert (i <> j) by congruence. lia.
  - pose proof (Z.div_mod f 4096). pose proof (Z.div_mod g 4096). lia.
Qed.

Lemma path_in_app D p q : path_in D (p ++ q) -> path_in D p.
Proof.
  intros [Hf Hd]. apply Forall_app in Hf as [Hf _]. split; [done|].
  intros i Hi. apply Hd. destruct p; [done|exact Hi].
Qed.

Lemma path_in_last D p i : path_in D (p ++ [i]) -> idx_ok i.
Proof. intros [Hf _]. apply Forall_app in Hf as [_ Hf]. by apply Forall_cons_1 in Hf as [? _]. Qed.

(** Walks depend only on the steps at the tables they pass. *)
Lemma walk_ext D root (m m' : ram) :
  (forall p g j, path_in D (p ++ [j]) -> (length p <= 3)%nat -> walk m root p = Some g ->
     step m' g j = step m g j) ->
  forall p, path_in D p -> (length p <= 4)%nat -> walk m' root p = walk m root p.
Proof.
  intros Hst p. induction p as [|j p IH] using rev_ind; intros Hp Hl; [done|].
  rewrite length_app in Hl. simpl in Hl.
  rewrite !walk_snoc, IH by (try lia; by eapply path_in_app).
  destruct (walk m root p) as [g|] eqn:E; [|done]. apply (Hst p); [done|lia|done].
Qed.

(** The tables of a space of which every walk is unchanged. *)
Lemma space_wf_ext D root m m' :
  space_wf D root m ->
  (forall i, page_used (pmm m) i -> page_used (pmm m') i) ->
  (forall p, path_in D p -> (length p <= 3)%nat -> walk (mem m') root p = walk (mem m) root p) ->
  space_wf D root m'.
Proof.
  intros Hs Hu Hw. split.
  - intros p f Hp Hl Hf. rewrite Hw in Hf by done.
    destruct (sw_frame _ _ _ Hs p f Hp Hl Hf) as (i & -> & Hi). exists i. auto.
  - intros p q f Hp Hl Hq Hl' Hf Hg. rewrite Hw in Hf, Hg by done.
    by apply (sw_inj _ _ _ Hs p q f).
Qed.

Lemma evolves_same_walks D root m m' :
  machine_wf m -> space_wf D root m -> machine_wf m' ->
  total_pages (pmm m') = total_pages (pmm m) ->
  (forall i, page_used (pmm m) i -> page_used (pmm m') i) ->
  (forall p, path_in D p -> (length p <= 4)%nat -> walk (mem m') root p = walk (mem m) root p) ->
  (forall i a, page_used (pmm m) i -> ~ is_table D root m (i * PAGE_SIZE) ->
    i * PAGE_SIZE <= a < (i + 1) * PAGE_SIZE -> mem m' a = mem m a) ->
  evolves D root m m'.
Proof.
  intros Hm Hs Hm' Ht Hu Hw Hd. split; try done.
  - apply (space_wf_ext D root m); [done|done|]. intros p Hp Hl. apply Hw; [done|lia].
  - intros p Hp Hl _. by apply Hw.
  - intros f (p & Hp & Hl & Hf). left. exists p. rewrite <- Hw by (done || lia). done.
Qed.

Lemma machine_wf_mem m r : machine_wf m -> ram_bytes r -> machine_wf (mkMachine (pmm m) r).
Proof. intros [H1 H2 H3 H4] Hr. by split. Qed.

(** A store inside a table leaves every used page that is not a table alone. *)
Lemma store_in_table_data D root m f i v k a :
  machine_wf m -> is_table D root m f -> space_wf D root m -> idx_ok i ->
  page_used (pmm m) k -> ~ is_table D root m (k * PAGE_SIZE) ->
  k * PAGE_SIZE <= a < (k + 1) * PAGE_SIZE ->
  store64 (mem m) (f + 8 * i) v a = mem m a.
Proof.
  intros Hm (p & Hp & Hl & Hw) Hs Hi Hk Hn Ha. unfold idx_ok in Hi.
  apply store64_outside. intros Hin. pose proof (sw_frame _ _ _ Hs p f Hp Hl Hw) as Hf.
  destruct (used_frame_apart m f (k * PAGE_SIZE)) as [Hd|Hd]; [done|by exists k| |..].
  - intros ->. apply Hn. exists p. done.
  - unfold PAGE_SIZE in *. lia.
  - unfold PAGE_SIZE in *. lia.
Qed.

(** Changing flags of an entry without touching its address or presence. *)
Lemma set_flags_evolves D root m p f i fl :
  machine_wf m -> space_wf D root m -> path_in D (p ++ [i]) -> (length p <= 3)%nat ->
  walk (mem m) root p = Some f -> is_Some (step (mem m) f i) -> 0 <= fl < PAGE_SIZE ->
  evolves D root m
    (mkMachine (pmm m) (store64 (mem m) (f + 8 * i) (u64 (Z.lor (load64 (mem m) (f + 8 * i)) fl)))).
Proof.
  intros Hm Hs Hp Hl Hw Hst Hfl. pose proof (path_in_app _ _ _ Hp) as Hp'.
  pose proof (path_in_last _ _ _ Hp) as Hi.
  pose proof (load64_range (mem m) (f + 8 * i) (mw_bytes m Hm)) as Hr.
  set (e := load64 (mem m) (f + 8 * i)) in *.
  assert (Hlor : 0 <= Z.lor e fl < 2 ^ 64) by (apply lor_range; unfold PAGE_SIZE in *; lia).
  rewrite u64_small by done.
  pose proof (sw_frame _ _ _ Hs p f Hp' Hl Hw) as Hf.
  apply evolves_same_walks; try done.
  - apply machine_wf_mem; [done|]. apply store64_bytes, Hm.
  - apply walk_ext. intros q g j Hq Hlq Hg. simpl.
    pose proof (sw_frame _ _ _ Hs q g (path_in_app _ _ _ Hq) Hlq Hg) as Hgf.
    destruct (decide ((f, i) = (g, j))) as [[= <- <-]|Hne].
    + rewrite step_store_eq by done. rewrite present_lor, PTE_GET_ADDR_lor by by apply low_flags.
      destruct Hst as [h Hst]. unfold step in *. fold e in Hst |- *. by destruct (present e).
    + apply step_store_ne; try done; try (by eapply used_frame_range); by eapply path_in_last.
  - intros k a Hk Hn Ha. simpl. apply (store_in_table_data D root m f i _ k); try done.
    by exists p.
Qed.

(** [vmm_get_next_level] through an entry that is present. *)
Lemma next_level_present D root m p f i create flags g :
  machine_wf m -> space_wf D root m -> path_in D (p ++ [i]) -> (length p <= 2)%nat ->
  walk (mem m) root p = Some f -> step (mem m) f i = Some g -> 0 <= flags ->
  exists m', vmm_get_next_level (P2V f) i create flags m = (m', P2V g) /\
    evolves D root m m' /\ pmm m' = pmm m /\ (flags = 0 -> ram_eq (mem m') (mem m)).
Proof.
  intros Hm Hs Hp Hl Hw Hst Hfl. pose proof (path_in_app _ _ _ Hp) as Hp'.
  pose proof (path_in_last _ _ _ Hp) as Hi.
  pose proof (sw_frame _ _ _ Hs p f Hp' ltac:(lia) Hw) as Hf.
  unfold vmm_get_next_level. rewrite table_entry_used by done.
  pose proof Hst as Hst'. unfold step in Hst'.
  destruct (present (load64 (mem m) (f + 8 * i))) eqn:Ep; [|done]. injection Hst' as Hg.
  rewrite Hg, set_entry_used by done.
  eexists. split; [reflexivity|]. split_and!; [|done|].
  - apply (set_flags_evolves D root m p); try done; [lia|].
    pose proof (land_range_r flags (Z.lor PAGE_USER PAGE_WRITE) ltac:(done)) as Hr.
    change (Z.lor PAGE_USER PAGE_WRITE) with 6 in *. unfold PAGE_SIZE. lia.
  - intros ->. simpl. rewrite Z.lor_0_r, u64_small by (apply load64_range, Hm).
    apply store64_load64, Hm.
Qed.

(** ... and through an absent one when no table is to be created. *)
Lemma next_level_absent D root m p f i flags :
  machine_wf m -> space_wf D root m -> path_in D (p ++ [i]) -> (length p <= 2)%nat ->
  walk (mem m) root p = Some f -> step (mem m) f i = None ->
  vmm_get_next_level (P2V f) i false flags m = (m, 0).
Proof.
  intros Hm Hs Hp Hl Hw Hst. pose proof (path_in_app _ _ _ Hp) as Hp'.
  pose proof (path_in_last _ _ _ Hp) as Hi.
  pose proof (sw_frame _ _ _ Hs p f Hp' ltac:(lia) Hw) as Hf.
  unfold vmm_get_next_level. rewrite table_entry_used by done.
  unfold step in Hst. by destruct (present (load64 (mem m) (f + 8 * i))).
Qed.

(** Taking free pages and writing to them touches no table. *)
Lemma taken_keeps m m1 n c r k a :
  taken m m1 n c ->
  (forall a, ~ (n * PAGE_SIZE <= a < (n + c) * PAGE_SIZE) -> r a = mem m a) ->
  page_used (pmm m) k -> k * PAGE_SIZE <= a < (k + 1) * PAGE_SIZE -> r a = mem m a.
Proof.
  intros T Hr [Hk Hu] Ha. apply Hr. intros Hin.
  destruct (taken_free _ _ _ _ T k) as [_ Hfree]; [unfold PAGE_SIZE in *; lia|congruence].
Qed.

Lemma taken_walks D root m m1 n c r :
  space_wf D root m -> taken m m1 n c ->
  (forall a, ~ (n * PAGE_SIZE <= a < (n + c) * PAGE_SIZE) -> r a = mem m a) ->
  forall p, path_in D p -> (length p <= 4)%nat -> walk r root p = walk (mem m) root p.
Proof.
  intros Hs T Hr. apply walk_ext. intros p g j Hp Hl Hg.
  destruct (sw_frame _ _ _ Hs p g (path_in_app _ _ _ Hp) Hl Hg) as (k & -> & Hk).
  apply step_agree; [|by eapply path_in_last]. intros a Ha.
  apply (taken_keeps m m1 n c r k); try done. unfold PAGE_SIZE in *. lia.
Qed.

Lemma taken_evolves D root m m1 n c r :
  machine_wf m -> space_wf D root m -> taken m m1 n c -> ram_bytes r ->
  (forall a, ~ (n * PAGE_SIZE <= a < (n + c) * PAGE_SIZE) -> r a = mem m a) ->
  evolves D root m (mkMachine (pmm m1) r).
Proof.
  intros Hm Hs T Hb Hr. apply evolves_same_walks; try done.
  - split; simpl; [apply T|done|apply Hm|]. rewrite (taken_total _ _ _ _ T). apply Hm.
  - apply T.
  - intros i [Hi Hu]. split; simpl; [by rewrite (taken_total _ _ _ _ T)|].
    by rewrite (taken_bits _ _ _ _ T), Hu, orb_true_r.
  - by apply (taken_walks D root m m1 n c).
  - intros i a Hi _ Ha. by apply (taken_keeps m m1 n c r i).
Qed.

(** ** Writing one entry *)
Section write_entry.
Context (D : Z -> Prop) (root : Z) (m : machine) (p : list Z) (f i v : Z).
Hypotheses (Hm : machine_wf m) (Hs : space_wf D root m) (Hp : path_in D (p ++ [i]))
  (Hl : (length p <= 3)%nat) (Hw : walk (mem m) root p = Some f) (Hv : 0 <= v < 2 ^ 64).

Let r' : ram := store64 (mem m) (f + 8 * i) v.

(** Only the walks through the written entry change. *)
Lemma write_entry_other q :
  path_in D q -> (length q <= 4)%nat -> ~ (p ++ [i]) `prefix_of` q ->
  walk r' root q = walk (mem m) root q.
Proof.
  induction q as [|j q IH] using rev_ind; intros Hq Hlq Hnp; [done|].
  rewrite length_app in Hlq. simpl in Hlq. pose proof (path_in_app _ _ _ Hq) as Hq'.
  rewrite !walk_snoc, IH; [|done|lia|].
  2:{ intros Hpre. apply Hnp. by apply prefix_app_r. }
  destruct (walk (mem m) root q) as [g|] eqn:E; [|done].
  apply step_store_ne.
  - eapply used_frame_range; [done|]. apply (sw_frame _ _ _ Hs p); [|done..].
    by eapply path_in_app.
  - eapply used_frame_range; [done|]. apply (sw_frame _ _ _ Hs q); [done|lia|done].
  - by eapply path_in_last.
  - by eapply path_in_last.
  - intros [= <- <-]. apply Hnp.
    rewrite (sw_inj _ _ _ Hs p q f); [done|by eapply path_in_app|done|done|lia|done|done].
Qed.

Lemma write_entry_at :
  walk r' root (p ++ [i]) = if present v then Some (PTE_GET_ADDR v) else None.
Proof.
  rewrite walk_snoc, write_entry_other, Hw; [by apply step_store_eq|by eapply path_in_app|lia|].
  intros Hpre. apply prefix_length in Hpre. rewrite length_app in Hpre. simpl in Hpre. lia.
Qed.
End write_entry.

(** Linking the cleared page [n] below an absent entry. *)
Section link_table.
Context (D : Z -> Prop) (root : Z) (m : machine) (p : list Z) (f i n v : Z).
Hypotheses (Hm : machine_wf m) (Hs : space_wf D root m) (Hp : path_in D (p ++ [i]))
  (Hl : (length p <= 2)%nat) (Hw : walk (mem m) root p = Some f)
  (Hno : step (mem m) f i = None) (Hn : page_used (pmm m) n)
  (Hnt : ~ is_table D root m (n * PAGE_SIZE))
  (Hz : forall a, n * PAGE_SIZE <= a < (n + 1) * PAGE_SIZE -> mem m a = 0)
  (Hv : 0 <= v < 2 ^ 64) (Hpr : present v = true) (Had : PTE_GET_ADDR v = n * PAGE_SIZE).

Let m' : machine := mkMachine (pmm m) (store64 (mem m) (f + 8 * i) v).

Lemma link_walk_new : walk (mem m') root (p ++ [i]) = Some (n * PAGE_SIZE).
Proof.
  simpl. rewrite (write_entry_at D) by (done || lia). by rewrite Hpr, Had.
Qed.

Lemma link_walk_below j q :
  path_in D ((p ++ [i]) ++ j :: q) -> walk (mem m') root ((p ++ [i]) ++ j :: q) = None.
Proof.
  intros Hq. rewrite walk_app, link_walk_new. simpl.
  assert (idx_ok j) as Hj.
  { destruct Hq as [Hq _]. apply Forall_app in Hq as [_ Hq].
    by apply Forall_cons_1 in Hq as [? _]. }
  pose proof (path_in_app _ _ _ Hp) as Hp'.
  assert (step (store64 (mem m) (f + 8 * i) v) (n * PAGE_SIZE) j = None) as ->; [|done].
  rewrite step_store_ne.
  - unfold step, idx_ok in *.
    assert (load64 (mem m) (n * PAGE_SIZE + 8 * j) = 0) as ->; [|done].
    unfold load64. rewrite !Hz by (unfold PAGE_SIZE; lia). done.
  - eapply used_frame_range; [done|]. by apply (sw_frame _ _ _ Hs p); [|lia|].
  - eapply used_frame_range; [done|]. by exists n.
  - by eapply path_in_last.
  - done.
  - intros [= -> _]. apply Hnt. exists p. split_and!; [done|lia|done].
Qed.

Lemma link_table_walk q :
  path_in D q -> (length q <= 4)%nat -> (length q = 4%nat \/ is_Some (walk (mem m) root q)) ->
  walk (mem m') root q = walk (mem m) root q.
Proof.
  intros Hq Hlq Hc. destruct (decide ((p ++ [i]) `prefix_of` q)) as [[r ->]|Hnp].
  - assert (walk (mem m) root ((p ++ [i]) ++ r) = None) as Hnone
      by (by rewrite walk_app, walk_snoc, Hw, Hno).
    destruct Hc as [Hc|[? Hc]]; [|congruence]. rewrite Hnone.
    destruct r as [|j r]; [|by apply link_walk_below].
    rewrite !length_app in Hc. simpl in Hc. lia.
  - simpl. apply (write_entry_other D root m p f i v); (done || lia).
Qed.

Lemma link_table_is_table g : is_table D root m' g -> is_table D root m g \/ g = n * PAGE_SIZE.
Proof.
  intros (q & Hq & Hlq & Hg). destruct (decide ((p ++ [i]) `prefix_of` q)) as [[r ->]|Hnp].
  - destruct r as [|j r].
    + rewrite app_nil_r, link_walk_new in Hg. right. congruence.
    + rewrite link_walk_below in Hg; done.
  - left. exists q. split_and!; [done|done|].
    rewrite <- Hg. symmetry. simpl. apply (write_entry_other D root m p f i v); (done || lia).
Qed.

Lemma link_table_space : space_wf D root m'.
Proof.
  assert (Hcase : forall q g, path_in D q -> (length q <= 3)%nat -> walk (mem m') root q = Some g ->
    (q = p ++ [i] /\ g = n * PAGE_SIZE) \/ walk (mem m) root q = Some g).
  { intros q g Hq Hlq Hg. destruct (decide ((p ++ [i]) `prefix_of` q)) as [[r ->]|Hnp].
    - destruct r as [|j r].
      + rewrite app_nil_r, link_walk_new in Hg. left. rewrite app_nil_r. by injection Hg.
      + rewrite link_walk_below in Hg; done.
    - right. rewrite <- Hg. symmetry. simpl.
      apply (write_entry_other D root m p f i v); (done || lia). }
  split.
  - intros q g Hq Hlq Hg. destruct (Hcase q g Hq Hlq Hg) as [[_ ->]|Hg']; [by exists n|].
    by apply (sw_frame _ _ _ Hs q).
  - intros q1 q2 g Hq1 Hl1 Hq2 Hl2 Hg1 Hg2.
    destruct (Hcase q1 g Hq1 Hl1 Hg1) as [[-> ->]|Hg1'],
      (Hcase q2 _ Hq2 Hl2 Hg2) as [[-> E]|Hg2']; try done.
    + exfalso. apply Hnt. by exists q2.
    + subst g. exfalso. apply Hnt. by exists q1.
    + by apply (sw_inj _ _ _ Hs q1 q2 g).
Qed.
End link_table.

(** The entry of a fresh table. *)
Lemma link_value page flags :
  0 <= page < 2 ^ 64 -> 0 <= flags < PAGE_SIZE -> page mod PAGE_SIZE = 0 ->
  let v := PTE_CREATE page (Z.lor flags PAGE_PRESENT) in
  0 <= v < 2 ^ 64 /\ present v = true /\ PTE_GET_ADDR v = page.
Proof.
  intros Hp Hfl Hmod v. unfold PAGE_SIZE in *.
  assert (0 <= Z.lor flags PAGE_PRESENT < 2 ^ 12) as Hf'
    by (apply lor_range; unfold PAGE_PRESENT; lia).
  split; [apply PTE_CREATE_range; lia|]. split.
  - unfold v, PTE_CREATE. rewrite !present_lor. change (present PAGE_PRESENT) with true.
    by rewrite !orb_true_r.
  - unfold v. rewrite PTE_GET_ADDR_CREATE by (apply low_flags; unfold PAGE_SIZE; lia).
    rewrite land_PAGE_MASK by lia. unfold PAGE_SIZE. zdiv_lia.
Qed.

(** From [m] (the page [n] free) over [m2] (the page taken and cleared) to the
    page linked. *)
Lemma link_evolves D root m m2 p f i n v :
  evolves D root m m2 ->
  (forall q, path_in D q -> (length q <= 4)%nat -> walk (mem m2) root q = walk (mem m) root q) ->
  path_in D (p ++ [i]) -> (length p <= 2)%nat -> walk (mem m2) root p = Some f ->
  step (mem m2) f i = None -> page_used (pmm m2) n -> ~ is_table D root m2 (n * PAGE_SIZE) ->
  ~ used_frame m (n * PAGE_SIZE) ->
  (forall a, n * PAGE_SIZE <= a < (n + 1) * PAGE_SIZE -> mem m2 a = 0) ->
  0 <= v < 2 ^ 64 -> present v = true -> PTE_GET_ADDR v = n * PAGE_SIZE ->
  evolves D root m (mkMachine (pmm m2) (store64 (mem m2) (f + 8 * i) v)).
Proof.
  intros Hev Hwalks Hp Hl Hw Hno Hn Hnt Hfree Hz Hv Hpr Had.
  pose proof (ev_machine _ _ _ _ Hev) as Hm2. pose proof (ev_space _ _ _ _ Hev) as Hs2.
  assert (Htab : is_table D root m2 f)
    by (exists p; split_and!; [by eapply path_in_app|lia|done]).
  split.
  - apply machine_wf_mem; [done|]. apply store64_bytes, Hm2.
  - by apply (link_table_space D root m2 p f i n v).
  - apply Hev.
  - apply Hev.
  - intros q Hq Hlq Hc. rewrite <- Hwalks in Hc |- * by done.
    by apply (link_table_walk D root m2 p f i n v).
  - intros g Hg. destruct (link_table_is_table D root m2 p f i n v Hm2 Hs2 Hp Hl Hw Hno Hn Hnt
      Hz Hv Hpr Had g Hg) as [Hg2| ->]; [|by right].
    left. destruct Hg2 as (q & Hq & Hlq & Hwq). exists q. by rewrite <- Hwalks by (done || lia).
  - intros k a Hk Hnk Ha. simpl. rewrite (store_in_table_data D root m2 f i _ k); try done.
    + by apply (ev_data _ _ _ _ Hev k).
    + by eapply path_in_last.
    + by apply Hev.
    + intros (q & Hq & Hlq & Hwq). apply Hnk. exists q. by rewrite <- Hwalks by (done || lia).
Qed.

(** [vmm_get_next_level] creating a missing table: the space evolves, and
    either the entry now leads to the table returned or NULL is returned. *)
Lemma next_level_create D root m p f i flags :
  machine_wf m -> space_wf D root m -> path_in D (p ++ [i]) -> (length p <= 2)%nat ->
  walk (mem m) root p = Some f -> step (mem m) f i = None -> 0 <= flags < PAGE_SIZE ->
  exists m' r, vmm_get_next_level (P2V f) i true flags m = (m', r) /\ evolves D root m m' /\
    (r = 0 \/ exists g, r = P2V g /\ r <> 0 /\ walk (mem m') root (p ++ [i]) = Some g).
Proof.
  intros Hm Hs Hp Hl Hw Hst Hfl. pose proof (path_in_app _ _ _ Hp) as Hp'.
  pose proof (path_in_last _ _ _ Hp) as Hi.
  pose proof (sw_frame _ _ _ Hs p f Hp' ltac:(lia) Hw) as Hf.
  unfold vmm_get_next_level. rewrite table_entry_used by done.
  pose proof Hst as Hst'. unfold step in Hst'.
  destruct (present (load64 (mem m) (f + 8 * i))) eqn:Ep; [done|]. clear Hst'. simpl.
  destruct (pmm_alloc_cases m (mw_pmm m Hm)) as [(n & m1 & -> & T & _)|[-> _]].
  2:{ simpl. eexists _, _. split; [done|]. split; [by apply evolves_refl|by left]. }
  pose proof (taken_range _ _ _ _ T) as (Hn0 & _ & Hnt).
  destruct (Z.eqb_spec (n * PAGE_SIZE) 0) as [E0|E0].
  { eexists _, _. split; [done|]. split; [|by left].
    replace m1 with (mkMachine (pmm m1) (mem m1)) by by destruct m1.
    apply (taken_evolves D root m m1 n 1); try done; [by eapply taken_ram_bytes, Hm|].
    intros a Ha. by apply (taken_frame _ _ _ _ T). }
  destruct (page_addr (pmm m) n (mw_pmm m Hm)) as (_ & _ & Hnr); [lia|].
  assert (Hv2p : V2P (P2V (n * PAGE_SIZE)) = n * PAGE_SIZE) by by apply VIRT_PHYS_VIRT.
  set (m2 := kmemset (P2V (n * PAGE_SIZE)) 0 PAGE_SIZE m1).
  assert (Hm2r : forall a, ~ (n * PAGE_SIZE <= a < (n + 1) * PAGE_SIZE) -> mem m2 a = mem m a).
  { intros a Ha. unfold m2. simpl. rewrite Hv2p, fill_outside by (unfold PAGE_SIZE in *; lia).
    by apply (taken_frame _ _ _ _ T). }
  assert (Hz : forall a, n * PAGE_SIZE <= a < (n + 1) * PAGE_SIZE -> mem m2 a = 0).
  { intros a Ha. unfold m2. simpl. rewrite Hv2p. by rewrite fill_inside by (unfold PAGE_SIZE in *; lia). }
  assert (Hb2 : ram_bytes (mem m2)) by (apply fill_bytes; by eapply taken_ram_bytes, Hm).
  pose proof (taken_walks D root m m1 n 1 (mem m2) Hs T Hm2r) as Hwalks.
  pose proof (taken_evolves D root m m1 n 1 (mem m2) Hm Hs T Hb2 Hm2r) as Hev.
  change (mkMachine (pmm m1) (mem m2)) with m2 in Hev.
  assert (Hused : page_used (pmm m2) n).
  { split; simpl; [rewrite (taken_total _ _ _ _ T); lia|]. rewrite (taken_bits _ _ _ _ T).
    case_bools; simpl; lia || done. }
  assert (Hfree : ~ used_frame m (n * PAGE_SIZE)).
  { intros (k & Hk & _ & Hu). assert (k = n) as -> by (unfold PAGE_SIZE in *; lia).
    destruct (taken_free _ _ _ _ T n) as [_ Hfr]; [lia|congruence]. }
  assert (Hntab : ~ is_table D root m2 (n * PAGE_SIZE)).
  { intros (q & Hq & Hlq & Hwq). apply Hfree, (sw_frame _ _ _ Hs q); [done|done|].
    by rewrite <- Hwalks by (done || lia). }
  set (v := PTE_CREATE (n * PAGE_SIZE) (Z.lor flags PAGE_PRESENT)).
  destruct (link_value (n * PAGE_SIZE) flags ltac:(lia) Hfl) as (Hvr & Hvp & Hva).
  { unfold PAGE_SIZE. apply Z.mod_mul. lia. }
  fold v in Hvr, Hvp, Hva.
  pose proof (ev_machine _ _ _ _ Hev) as Hmw2. pose proof (ev_space _ _ _ _ Hev) as Hs2.
  assert (Hf2 : used_frame m2 f) by (destruct Hf as (k & -> & Hk); exists k; split; [done|by apply Hev]).
  assert (Hw2 : walk (mem m2) root p = Some f) by (rewrite Hwalks; (done || lia)).
  assert (Hst2 : step (mem m2) f i = None).
  { assert (length (p ++ [i]) <= 4)%nat as Hlp by (rewrite length_app; simpl; lia).
    pose proof (Hwalks (p ++ [i]) Hp Hlp) as Hpi.
    rewrite !walk_snoc, Hw2, Hw, Hst in Hpi. done. }
  rewrite (set_entry_used m2) by done. rewrite u64_small by done.
  eexists _, _. split; [reflexivity|]. split.
  - apply (link_evolves D root m m2 p f i n v); done.
  - right. exists (n * PAGE_SIZE). split_and!; [done| |].
    + destruct (used_frame_range m2 (n * PAGE_SIZE) Hmw2) as (? & ? & _ & ->); [by exists n|].
      pose proof (mw_hhdm m Hm). lia.
    + by apply (link_walk_new D root m2 p f i n v).
Qed.

(** ** Updates of a space

    [vm_update D root P m m']: from [m] to [m'] the space stayed well formed,
    only translations of addresses satisfying [P] changed, and no page in use
    was written except the tables. *)
Record vm_update (D : Z -> Prop) (root : Z) (P : Z -> Prop) (m m' : machine) : Prop := {
  vu_machine : machine_wf m';
  vu_space : space_wf D root m';
  vu_total : total_pages (pmm m') = total_pages (pmm m);
  vu_used : forall i, page_used (pmm m) i -> page_used (pmm m') i;
  vu_new : forall f, is_table D root m' f -> is_table D root m f \/ ~ used_frame m f;
  vu_data : forall i a, page_used (pmm m) i -> ~ is_table D root m (i * PAGE_SIZE) ->
    i * PAGE_SIZE <= a < (i + 1) * PAGE_SIZE -> mem m' a = mem m a;
  vu_other : forall va, D (PML4_INDEX va) -> ~ P va ->
    translate (mem m') root va = translate (mem m) root va
}.

Lemma va_path_in D va : D (PML4_INDEX va) -> path_in D (va_path va).
Proof.
  intros HD. split; [|intros i [= <-]; done].
  unfold va_path, PML4_INDEX, PDPT_INDEX, PD_INDEX, PT_INDEX, idx_ok.
  repeat (constructor; [apply land_1FF_range|]). constructor.
Qed.

Lemma evolves_update D root P m m' : evolves D root m m' -> vm_update D root P m m'.
Proof.
  intros E. split; try apply E. intros va HD _. unfold translate.
  apply E; [by apply va_path_in|done|by left].
Qed.

Lemma vm_update_refl D root P m : machine_wf m -> space_wf D root m -> vm_update D root P m m.
Proof. intros. by apply evolves_update, evolves_refl. Qed.

Lemma vm_update_trans D root (P Q R : Z -> Prop) m1 m2 m3 :
  vm_update D root P m1 m2 -> vm_update D root Q m2 m3 ->
  (forall va, P va \/ Q va -> R va) -> vm_update D root R m1 m3.
Proof.
  intros U1 U2 HR. split.
  - apply U2.
  - apply U2.
  - by rewrite (vu_total _ _ _ _ _ U2), (vu_total _ _ _ _ _ U1).
  - intros i Hi. by apply U2, U1.
  - intros f Ht. destruct (vu_new _ _ _ _ _ U2 f Ht) as [Ht'|Hf].
    + by apply U1.
    + right. intros (i & -> & Hi). apply Hf. exists i. split; [done|]. by apply U1.
  - intros i a Hi Hn Ha.
    rewrite (vu_data _ _ _ _ _ U2 i a); [by apply (vu_data _ _ _ _ _ U1 i)|by apply U1| |done].
    intros Ht. destruct (vu_new _ _ _ _ _ U1 _ Ht) as [|Hf]; [done|]. apply Hf. by exists i.
  - intros va HD HnR. rewrite (vu_other _ _ _ _ _ U2), (vu_other _ _ _ _ _ U1); auto.
Qed.

Lemma vm_update_mono D root (P Q : Z -> Prop) m m' :
  vm_update D root P m m' -> (forall va, P va -> Q va) -> vm_update D root Q m m'.
Proof. intros [] HQ. split; auto. Qed.

(** Storing a leaf entry of the last-level table of [va]. *)
Lemma write_leaf D root m va pt v :
  machine_wf m -> space_wf D root m -> D (PML4_INDEX va) ->
  walk (mem m) root [PML4_INDEX va; PDPT_INDEX va; PD_INDEX va] = Some pt -> 0 <= v < 2 ^ 64 ->
  let m' := mkMachine (pmm m) (store64 (mem m) (pt + 8 * PT_INDEX va) v) in
  vm_update D root (fun va' => vpn va' = vpn va) m m' /\
  translate (mem m') root va = if present v then Some (PTE_GET_ADDR v) else None.
Proof.
  intros Hm Hs HD Hw Hv m'.
  set (p := [PML4_INDEX va; PDPT_INDEX va; PD_INDEX va]) in *.
  assert (Hp : path_in D (p ++ [PT_INDEX va])) by by apply (va_path_in D va).
  assert (Hsame : forall q, path_in D q -> (length q <= 3)%nat ->
            walk (mem m') root q = walk (mem m) root q).
  { intros q Hq Hl. apply (write_entry_other D root m p pt (PT_INDEX va) v); try done; try (simpl; lia).
    intros Hpre. apply prefix_length in Hpre. simpl in Hpre. lia. }
  assert (Htab : is_table D root m pt) by (exists p; split_and!; [by eapply path_in_app|done|done]).
  split.
  - split; try done.
    + apply machine_wf_mem; [done|]. apply store64_bytes, Hm.
    + by apply (space_wf_ext D root m).
    + intros f (q & Hq & Hl & Hf). left. exists q. by rewrite <- Hsame.
    + intros i a Hi Hn Ha. apply (store_in_table_data D root m pt (PT_INDEX va) v i); try done.
      by eapply path_in_last.
    + intros va' HD' Hne.
      apply (write_entry_other D root m p pt (PT_INDEX va) v); try done.
      * by apply va_path_in.
      * intros Hpre. apply Hne. symmetry. apply va_path_vpn.
        destruct Hpre as [r Hr]. change (p ++ [PT_INDEX va]) with (va_path va) in Hr.
        destruct r; [by rewrite app_nil_r in Hr|]. by apply (f_equal length) in Hr.
  - apply (write_entry_at D root m p pt (PT_INDEX va) v); try done.
Qed.

(** [vmm_get_next_level] with [create]. *)
Lemma next_level_walk D root m p f i flags :
  machine_wf m -> space_wf D root m -> path_in D (p ++ [i]) -> (length p <= 2)%nat ->
  walk (mem m) root p = Some f -> 0 <= flags < PAGE_SIZE ->
  exists m' r, vmm_get_next_level (P2V f) i true flags m = (m', r) /\ evolves D root m m' /\
    (r = 0 \/ exists g, r = P2V g /\ r <> 0 /\ walk (mem m') root (p ++ [i]) = Some g).
Proof.
  intros Hm Hs Hp Hl Hw Hfl. destruct (step (mem m) f i) as [g|] eqn:Est.
  - destruct (next_level_present D root m p f i true flags g) as (m' & E & Hev & _ & _);
      try done; [lia|].
    assert (Hwi : walk (mem m) root (p ++ [i]) = Some g) by by rewrite walk_snoc, Hw.
    assert (length (p ++ [i]) <= 3)%nat as Hlp by (rewrite length_app; simpl; lia).
    exists m', (P2V g). split_and!; [done|done|]. right. exists g. split_and!; [done| |].
    + destruct (used_frame_range m g Hm) as (? & ? & _ & ->).
      * by apply (sw_frame _ _ _ Hs (p ++ [i])).
      * pose proof (mw_hhdm m Hm). lia.
    + rewrite (ev_walk _ _ _ _ Hev); [done|done|lia|]. right. by exists g.
  - by apply next_level_create.
Qed.

End walks.

(** ** Specifications of the operations *)
Section specs.
Context `{BootInfo} (kernel_space : address_space).

(** [space_at D root sp m]: [sp] denotes the space whose PML4 is the frame
    [root]; a structure in the direct map lies in a page that is in use and is
    not one of its tables. *)
Definition space_at (D : Z -> Prop) (root : Z) (sp : as_ptr) (m : machine) : Prop :=
  match sp with
  | AS_AT va => exists k, va = P2V (k * PAGE_SIZE) /\ page_used (pmm m) k /\
      ~ is_table D root m (k * PAGE_SIZE) /\
      load64 (mem m) (k * PAGE_SIZE) = root /\ load64 (mem m) (k * PAGE_SIZE + 8) = P2V root
  | _ => pml4 kernel_space = root /\ pml4_virt kernel_space = P2V root
  end.

(** A space ready to be operated on. *)
Record space_ok (D : Z -> Prop) (root : Z) (sp : as_ptr) (m : machine) : Prop := {
  so_machine : machine_wf m;
  so_space : space_wf D root m;
  so_at : space_at D root sp m
}.

Lemma space_at_virt D root sp m :
  machine_wf m -> space_at D root sp m -> space_pml4_virt kernel_space sp m = P2V root.
Proof.
  intros Hm Hsp. destruct sp as [| |va]; simpl; [apply Hsp|apply Hsp|].
  destruct Hsp as (k & -> & Hk & _ & _ & Hv). unfold kload64.
  assert (used_frame m (k * PAGE_SIZE)) as Hf by by exists k.
  rewrite (V2P_offset m) by (done || unfold PAGE_SIZE; lia). done.
Qed.

Lemma space_at_update D root sp P m m' :
  vm_update D root P m m' -> space_at D root sp m -> space_at D root sp m'.
Proof.
  intros U Hsp. destruct sp as [| |va]; [done|done|].
  destruct Hsp as (k & -> & Hk & Hn & H1 & H2). exists k. split_and!; [done|by apply U| | |].
  - intros Ht. destruct (vu_new _ _ _ _ _ U _ Ht) as [|Hf]; [done|]. apply Hf. by exists k.
  - rewrite <- H1. apply load64_agree. intros x Hx. apply (vu_data _ _ _ _ _ U k); try done.
    unfold PAGE_SIZE in *. lia.
  - rewrite <- H2. apply load64_agree. intros x Hx. apply (vu_data _ _ _ _ _ U k); try done.
    unfold PAGE_SIZE in *. lia.
Qed.

Lemma space_ok_update D root sp P m m' :
  space_ok D root sp m -> vm_update D root P m m' -> space_ok D root sp m'.
Proof. intros [H1 H2 H3] U. split; [apply U|apply U|by eapply space_at_update]. Qed.

Lemma walk_nil D root m : path_in D [] /\ walk m root [] = Some root.
Proof. split; [split; [constructor|done]|done]. Qed.

Lemma path_prefix3 D va :
  D (PML4_INDEX va) ->
  path_in D ([] ++ [PML4_INDEX va]) /\ path_in D ([PML4_INDEX va] ++ [PDPT_INDEX va]) /\
  path_in D ([PML4_INDEX va; PDPT_INDEX va] ++ [PD_INDEX va]).
Proof.
  intros HD. pose proof (va_path_in D va HD) as Hp.
  split_and!.
  - by apply (path_in_app D [PML4_INDEX va] [PDPT_INDEX va; PD_INDEX va; PT_INDEX va]).
  - by apply (path_in_app D [PML4_INDEX va; PDPT_INDEX va] [PD_INDEX va; PT_INDEX va]).
  - by apply (path_in_app D [PML4_INDEX va; PDPT_INDEX va; PD_INDEX va] [PT_INDEX va]).
Qed.

Lemma flags_value flags phys :
  0 <= phys < 2 ^ 64 -> 0 <= flags < PAGE_SIZE ->
  let v := PTE_CREATE (Z.land phys PAGE_MASK) (Z.lor flags PAGE_PRESENT) in
  0 <= v < 2 ^ 64 /\ present v = true /\ PTE_GET_ADDR v = Z.land phys PAGE_MASK.
Proof.
  intros Hp Hf. rewrite (land_PAGE_MASK phys) by done. apply link_value; [|done|].
  - pose proof (Z.div_mod phys PAGE_SIZE). unfold PAGE_SIZE in *.
    pose proof (Z.mod_pos_bound phys 4096). lia.
  - unfold PAGE_SIZE. apply Z.mod_mul. lia.
Qed.

Lemma vmm_map_cases D root sp virt phys flags m :
  space_ok D root sp m -> D (PML4_INDEX virt) -> 0 <= virt < 2 ^ 64 ->
  0 <= phys < 2 ^ 64 -> 0 <= flags < PAGE_SIZE ->
  exists m' ok, vmm_map kernel_space sp virt phys flags m = (m', ok) /\
    space_ok D root sp m' /\
    (ok = true /\ vm_update D root (fun va => vpn va = vpn virt) m m' /\
       translate (mem m') root virt = Some (Z.land phys PAGE_MASK) \/
     ok = false /\ evolves D root m m').
Proof.
  intros Hok HD Hv Hp Hf. pose proof Hok as [Hm Hs Hat].
  destruct (path_prefix3 D virt HD) as (P1 & P2 & P3).
  assert (HE : va_path (Z.land virt PAGE_MASK) = va_path virt) by by apply va_path_mask.
  unfold va_path in HE. injection HE as E1 E2 E3 E4.
  unfold vmm_map. rewrite E1, E2, E3, E4, (space_at_virt D root sp m Hm Hat).
  assert (0 <= Z.lor PAGE_WRITE PAGE_USER < PAGE_SIZE) as Htf by done.
  destruct (next_level_walk D root m [] root _ _ Hm Hs P1 ltac:(simpl; lia) eq_refl Htf)
    as (m1 & r1 & -> & Ev1 & C1).
  destruct C1 as [->|(g1 & -> & Hr1 & W1)].
  { eexists _, _. split; [done|]. split; [|by right].
    by eapply space_ok_update, (evolves_update D root (fun _ => False)). }
  destruct (Z.eqb_spec (P2V g1) 0); [done|].
  destruct (next_level_walk D root m1 _ g1 _ _ (ev_machine _ _ _ _ Ev1) (ev_space _ _ _ _ Ev1)
    P2 ltac:(simpl; lia) W1 Htf) as (m2 & r2 & -> & Ev2 & C2).
  pose proof (evolves_trans _ _ _ _ _ Ev1 Ev2) as Ev12.
  destruct C2 as [->|(g2 & -> & Hr2 & W2)].
  { eexists _, _. split; [done|]. split; [|by right].
    by eapply space_ok_update, (evolves_update D root (fun _ => False)). }
  destruct (Z.eqb_spec (P2V g2) 0); [done|].
  destruct (next_level_walk D root m2 _ g2 _ _ (ev_machine _ _ _ _ Ev2) (ev_space _ _ _ _ Ev2)
    P3 ltac:(simpl; lia) W2 Htf) as (m3 & r3 & -> & Ev3 & C3).
  pose proof (evolves_trans _ _ _ _ _ Ev12 Ev3) as Ev13.
  destruct C3 as [->|(g3 & -> & Hr3 & W3)].
  { eexists _, _. split; [done|]. split; [|by right].
    by eapply space_ok_update, (evolves_update D root (fun _ => False)). }
  destruct (Z.eqb_spec (P2V g3) 0); [done|].
  destruct (flags_value flags phys Hp Hf) as (V1 & V2 & V3).
  set (v := PTE_CREATE _ _) in *.
  pose proof (ev_machine _ _ _ _ Ev3) as Hm3. pose proof (ev_space _ _ _ _ Ev3) as Hs3.
  assert (Hf3 : used_frame m3 g3).
  { apply (sw_frame _ _ _ Hs3 [PML4_INDEX virt; PDPT_INDEX virt; PD_INDEX virt]); done. }
  assert (Hi : idx_ok (PT_INDEX virt)) by apply land_1FF_range.
  rewrite (set_entry_used m3) by done. rewrite u64_small by done.
  destruct (write_leaf D root m3 virt g3 v Hm3 Hs3 HD W3 V1) as [U T].
  rewrite V2, V3 in T.
  pose proof (vm_update_trans D root (fun _ => False) _ _ _ _ _ (evolves_update _ _ _ _ _ Ev13) U
    (fun va Hva => match Hva with or_introl F => match F with end | or_intror E => E end)) as U'.
  eexists _, _. split; [reflexivity|]. split; [by eapply space_ok_update|]. left. done.
Qed.

(** The read-only walk shared by [vmm_unmap] and [vmm_get_physical]: it leaves
    memory as it is and reaches the last-level table iff there is one. *)
Definition lookup_table (space : as_ptr) (va : Z) (m : machine) : machine * Z :=
  let '(m1, pdpt) :=
    vmm_get_next_level (space_pml4_virt kernel_space space m) (PML4_INDEX va) false 0 m in
  if pdpt =? 0 then (m1, 0) else
  let '(m2, pd) := vmm_get_next_level pdpt (PDPT_INDEX va) false 0 m1 in
  if pd =? 0 then (m2, 0) else
  vmm_get_next_level pd (PD_INDEX va) false 0 m2.

Definition unchanged (m m' : machine) : Prop := pmm m' = pmm m /\ ram_eq (mem m') (mem m).

Lemma unchanged_refl m : unchanged m m.
Proof. done. Qed.
Lemma unchanged_trans m1 m2 m3 : unchanged m1 m2 -> unchanged m2 m3 -> unchanged m1 m3.
Proof.
  intros [P1 R1] [P2 R2]. split; [congruence|]. intros a. by rewrite R2, R1.
Qed.

Lemma next_level_read D root m p f i :
  machine_wf m -> space_wf D root m -> path_in D (p ++ [i]) -> (length p <= 2)%nat ->
  walk (mem m) root p = Some f ->
  exists m' r, vmm_get_next_level (P2V f) i false 0 m = (m', r) /\ evolves D root m m' /\
    unchanged m m' /\
    match walk (mem m) root (p ++ [i]) with
    | Some g => r = P2V g /\ r <> 0 /\ walk (mem m') root (p ++ [i]) = Some g
    | None => r = 0
    end.
Proof.
  intros Hm Hs Hp Hl Hw. rewrite walk_snoc, Hw. destruct (step (mem m) f i) as [g|] eqn:Est.
  - destruct (next_level_present D root m p f i false 0 g) as (m' & E & Hev & Hpm & Hme);
      try done.
    assert (Hwi : walk (mem m) root (p ++ [i]) = Some g) by by rewrite walk_snoc, Hw.
    assert (length (p ++ [i]) <= 3)%nat as Hlp by (rewrite length_app; simpl; lia).
    exists m', (P2V g). split_and!; try done; [split; [done|by apply Hme]| |].
    + destruct (used_frame_range m g Hm) as (? & ? & _ & ->).
      * by apply (sw_frame _ _ _ Hs (p ++ [i])).
      * pose proof (mw_hhdm m Hm). lia.
    + rewrite (ev_walk _ _ _ _ Hev); [done|done|lia|]. right. by exists g.
  - rewrite (next_level_absent D root m p f i 0) by done.
    eexists _, _. split; [done|]. split; [by apply evolves_refl|]. done.
Qed.

Lemma lookup_table_spec D root sp va m :
  space_ok D root sp m -> D (PML4_INDEX va) ->
  exists m' r, lookup_table sp va m = (m', r) /\ space_ok D root sp m' /\ unchanged m m' /\
    evolves D root m m' /\
    match walk (mem m) root [PML4_INDEX va; PDPT_INDEX va; PD_INDEX va] with
    | Some g => r = P2V g /\ r <> 0 /\ used_frame m' g /\
        walk (mem m') root [PML4_INDEX va; PDPT_INDEX va; PD_INDEX va] = Some g
    | None => r = 0
    end.
Proof.
  intros Hok HD. pose proof Hok as [Hm Hs Hat].
  destruct (path_prefix3 D va HD) as (P1 & P2 & P3).
  unfold lookup_table. rewrite (space_at_virt D root sp m Hm Hat).
  destruct (next_level_read D root m [] root _ Hm Hs P1 ltac:(simpl; lia) eq_refl)
    as (m1 & r1 & -> & Ev1 & U1 & C1). simpl app in C1.
  destruct (walk (mem m) root [PML4_INDEX va]) as [g1|] eqn:W1.
  2:{ subst r1. eexists _, _. split; [done|]. split.
      { by eapply space_ok_update, (evolves_update D root (fun _ => False)). }
      split_and!; [done|done|].
      change [PML4_INDEX va; PDPT_INDEX va; PD_INDEX va]
        with ([PML4_INDEX va] ++ [PDPT_INDEX va; PD_INDEX va]).
      by rewrite walk_app, W1. }
  destruct C1 as (-> & Hr1 & W1'). destruct (Z.eqb_spec (P2V g1) 0); [done|].
  destruct (next_level_read D root m1 _ g1 _ (ev_machine _ _ _ _ Ev1) (ev_space _ _ _ _ Ev1)
    P2 ltac:(simpl; lia) W1') as (m2 & r2 & -> & Ev2 & U2 & C2). simpl app in C2.
  pose proof (evolves_trans _ _ _ _ _ Ev1 Ev2) as Ev12.
  pose proof (unchanged_trans _ _ _ U1 U2) as U12.
  assert (Hwm : forall q, walk (mem m1) root q = walk (mem m) root q)
    by (intros q; apply walk_ram_eq, U1).
  assert (Hwm2 : forall q, walk (mem m2) root q = walk (mem m) root q)
    by (intros q; apply walk_ram_eq, U12).
  rewrite Hwm in C2.
  destruct (walk (mem m) root [PML4_INDEX va; PDPT_INDEX va]) as [g2|] eqn:W2.
  2:{ subst r2. eexists _, _. split; [done|]. split.
      { by eapply space_ok_update, (evolves_update D root (fun _ => False)). }
      split_and!; [done|done|].
      change [PML4_INDEX va; PDPT_INDEX va; PD_INDEX va]
        with ([PML4_INDEX va; PDPT_INDEX va] ++ [PD_INDEX va]).
      by rewrite walk_app, W2. }
  destruct C2 as (-> & Hr2 & W2'). destruct (Z.eqb_spec (P2V g2) 0); [done|].
  destruct (next_level_read D root m2 _ g2 _ (ev_machine _ _ _ _ Ev2) (ev_space _ _ _ _ Ev2)
    P3 ltac:(simpl; lia) W2') as (m3 & r3 & -> & Ev3 & U3 & C3). simpl app in C3.
  pose proof (evolves_trans _ _ _ _ _ Ev12 Ev3) as Ev13.
  pose proof (unchanged_trans _ _ _ U12 U3) as U13.
  rewrite Hwm2 in C3. eexists _, _. split; [done|]. split.
  { by eapply space_ok_update, (evolves_update D root (fun _ => False)). }
  split_and!; [done|done|].
  revert C3.
  destruct (walk (mem m) root [PML4_INDEX va; PDPT_INDEX va; PD_INDEX va]) as [g3|]; [|done].
  intros (-> & Hr3 & W3').
  split_and!; [done|done| |done].
  apply (sw_frame _ _ _ (ev_space _ _ _ _ Ev13) [PML4_INDEX va; PDPT_INDEX va; PD_INDEX va]);
    done.
Qed.

Lemma vmm_unmap_cases D root sp virt m :
  space_ok D root sp m -> D (PML4_INDEX virt) -> 0 <= virt < 2 ^ 64 ->
  let m' := vmm_unmap kernel_space sp virt m in
  space_ok D root sp m' /\ vm_update D root (fun va => vpn va = vpn virt) m m' /\
  translate (mem m') root virt = None /\ pmm m' = pmm m.
Proof.
  intros Hok HD Hv m'.
  assert (HE : va_path (Z.land virt PAGE_MASK) = va_path virt) by by apply va_path_mask.
  unfold va_path in HE. injection HE as E1 E2 E3 E4.
  destruct (lookup_table_spec D root sp virt m Hok HD) as (m3 & r & El & Hok3 & [Hp3 Hr3] & Ev & C).
  pose proof (evolves_update D root (fun va => vpn va = vpn virt) _ _ Ev) as Uev.
  assert (Hm' : m' = if r =? 0 then m3 else set_entry r (PT_INDEX virt) 0 m3).
  { unfold m', vmm_unmap. rewrite E1, E2, E3, E4. unfold lookup_table in El.
    destruct (vmm_get_next_level _ _ false 0 m) as [a1 b1]. 
    destruct (b1 =? 0); [injection El as <- <-; done|].
    destruct (vmm_get_next_level b1 _ false 0 a1) as [a2 b2].
    destruct (b2 =? 0); [injection El as <- <-; done|]. rewrite El. done. }
  destruct (walk (mem m) root _) as [g|] eqn:W.
  - destruct C as (-> & Hne & Hg & W3). destruct (Z.eqb_spec (P2V g) 0); [done|].
    destruct Hok3 as [Hm3 Hs3 Hat3].
    rewrite (set_entry_used m3) in Hm' by (done || apply land_1FF_range).
    rewrite u64_small in Hm' by lia.
    destruct (write_leaf D root m3 virt g 0 Hm3 Hs3 HD W3 ltac:(lia)) as [U T].
    rewrite <- Hm' in U, T.
    pose proof (vm_update_trans D root _ _ (fun va => vpn va = vpn virt) _ _ _ Uev U
      ltac:(tauto)) as U'.
    split_and!; [by eapply space_ok_update|done|done|by rewrite Hm'].
  - subst r. simpl in Hm'. subst m'. rewrite Hm'. split_and!; [done|done| |done].
    unfold translate. rewrite (walk_ram_eq _ (mem m)) by done.
    change (va_path virt) with ([PML4_INDEX virt; PDPT_INDEX virt; PD_INDEX virt] ++ [PT_INDEX virt]).
    by rewrite walk_app, W.
Qed.

(** [vmm_get_physical] reads the translation and leaves the machine as it
    was. *)
Lemma vmm_get_physical_cases D root sp virt m :
  space_ok D root sp m -> D (PML4_INDEX virt) ->
  exists m', vmm_get_physical kernel_space sp virt m =
      (m', match translate (mem m) root virt with
           | Some f => Z.lor f (Z.land virt (Z.lnot PAGE_MASK))
           | None => 0
           end) /\
    space_ok D root sp m' /\ unchanged m m' /\ evolves D root m m'.
Proof.
  intros Hok HD.
  destruct (lookup_table_spec D root sp virt m Hok HD) as (m3 & r & El & Hok3 & Hun & Ev & C).
  assert (Hg : vmm_get_physical kernel_space sp virt m =
    if r =? 0 then (m3, 0) else
    let entry := table_entry r (PT_INDEX virt) m3 in
    if present entry then
      (m3, Z.lor (PTE_GET_ADDR entry) (Z.land virt (Z.lnot PAGE_MASK)))
    else (m3, 0)).
  { unfold vmm_get_physical. unfold lookup_table in El.
    destruct (vmm_get_next_level _ _ false 0 m) as [a1 b1].
    destruct (b1 =? 0); [injection El as <- <-; done|].
    destruct (vmm_get_next_level b1 _ false 0 a1) as [a2 b2].
    destruct (b2 =? 0); [injection El as <- <-; done|]. rewrite El. done. }
  exists m3. split; [|done]. rewrite Hg. unfold translate.
  change (va_path virt) with ([PML4_INDEX virt; PDPT_INDEX virt; PD_INDEX virt] ++ [PT_INDEX virt]).
  rewrite walk_snoc.
  destruct (walk (mem m) root _) as [g|] eqn:W.
  - destruct C as (-> & Hne & Hgf & W3). destruct (Z.eqb_spec (P2V g) 0); [done|].
    destruct Hok3 as [Hm3 Hs3 Hat3].
    rewrite (table_entry_used m3) by (done || apply land_1FF_range).
    destruct Hun as [_ Hr]. unfold step.
    rewrite (load64_proper _ _ Hr (g + 8 * PT_INDEX virt) _ eq_refl).
    destruct (present _); done.
  - by subst r.
Qed.

(** ** Ranges *)

(** [n] consecutive pages from [va] without wrapping around. *)
Definition page_range (virt : Z) (n : nat) : Prop :=
  0 <= virt /\ virt + Z.of_nat n * PAGE_SIZE <= 2 ^ 64.

Definition in_pages (virt : Z) (n : nat) (va : Z) : Prop :=
  exists j, 0 <= j < Z.of_nat n /\ vpn va = vpn (virt + j * PAGE_SIZE).

Lemma page_range_last virt n :
  page_range virt (S n) ->
  page_range virt n /\ 0 <= virt + Z.of_nat n * PAGE_SIZE < 2 ^ 64 /\
  u64 (virt + Z.of_nat n * PAGE_SIZE) = virt + Z.of_nat n * PAGE_SIZE.
Proof.
  unfold page_range, PAGE_SIZE. intros Hr. split_and!; [lia..|]. apply u64_small. lia.
Qed.

Lemma unmap_first_S sp virt n m :
  page_range virt (S n) ->
  unmap_first kernel_space sp virt (S n) m =
  vmm_unmap kernel_space sp (virt + Z.of_nat n * PAGE_SIZE) (unmap_first kernel_space sp virt n m).
Proof.
  intros Hr. unfold unmap_first. rewrite for_range_S_r, Z.add_0_l.
  destruct (page_range_last virt n Hr) as (_ & _ & E). by rewrite E.
Qed.

(** Unmapping one more page of a range. *)
Lemma unmap_step D root virt n m mn m' :
  (forall j, 0 <= j < Z.of_nat (S n) -> D (PML4_INDEX (virt + j * PAGE_SIZE))) ->
  vm_update D root (in_pages virt n) m mn ->
  (forall j, 0 <= j < Z.of_nat n -> translate (mem mn) root (virt + j * PAGE_SIZE) = None) ->
  vm_update D root (fun va => vpn va = vpn (virt + Z.of_nat n * PAGE_SIZE)) mn m' ->
  translate (mem m') root (virt + Z.of_nat n * PAGE_SIZE) = None ->
  vm_update D root (in_pages virt (S n)) m m' /\
  forall j, 0 <= j < Z.of_nat (S n) -> translate (mem m') root (virt + j * PAGE_SIZE) = None.
Proof.
  intros HD U1 T1 U2 T2. split.
  - eapply vm_update_trans; [exact U1|exact U2|]. intros va [(j & Hj & E)|E].
    + exists j. split; [lia|done].
    + exists (Z.of_nat n). split; [lia|done].
  - intros j Hj. destruct (decide (j = Z.of_nat n)) as [->|]; [done|].
    destruct (decide (vpn (virt + j * PAGE_SIZE) = vpn (virt + Z.of_nat n * PAGE_SIZE))) as [E|E].
    + unfold translate in *. by rewrite (proj2 (va_path_vpn _ _) E).
    + rewrite (vu_other _ _ _ _ _ U2); [|by apply HD|done]. apply T1. lia.
Qed.

Lemma unmap_first_cases D root sp virt n m :
  space_ok D root sp m -> page_range virt n ->
  (forall j, 0 <= j < Z.of_nat n -> D (PML4_INDEX (virt + j * PAGE_SIZE))) ->
  space_ok D root sp (unmap_first kernel_space sp virt n m) /\
  vm_update D root (in_pages virt n) m (unmap_first kernel_space sp virt n m) /\
  pmm (unmap_first kernel_space sp virt n m) = pmm m /\
  forall j, 0 <= j < Z.of_nat n ->
    translate (mem (unmap_first kernel_space sp virt n m)) root (virt + j * PAGE_SIZE) = None.
Proof.
  intros Hok. induction n as [|n IH]; intros Hr HD.
  { split_and!; [done|by apply vm_update_refl; apply Hok|done|]. intros j Hj. lia. }
  destruct (page_range_last virt n Hr) as (Hr' & Hva & _).
  destruct IH as (H1 & H2 & H3 & H4); [done|intros j Hj; apply HD; lia|].
  rewrite unmap_first_S by done.
  revert H1 H2 H3 H4. generalize (unmap_first kernel_space sp virt n m). intros mn H1 H2 H3 H4.
  assert (HDn : D (PML4_INDEX (virt + Z.of_nat n * PAGE_SIZE))) by (apply HD; lia).
  destruct (vmm_unmap_cases D root sp _ mn H1 HDn Hva) as (K1 & K2 & K3 & K4).
  destruct (unmap_step D root virt n m mn _ HD H2 H4 K2 K3) as [U T].
  split_and!; [done|done|congruence|done].
Qed.

(** Pages [i] to [i + n] of the range at [virt]. *)
Definition in_pages_from (virt : Z) (i n : nat) (va : Z) : Prop :=
  exists j, Z.of_nat i <= j < Z.of_nat (i + n) /\ vpn va = vpn (virt + j * PAGE_SIZE).

Lemma vpn_page virt j k n :
  page_range virt n -> Z.of_nat n <= 2 ^ 36 -> 0 <= j < Z.of_nat n -> 0 <= k < Z.of_nat n ->
  vpn (virt + j * PAGE_SIZE) = vpn (virt + k * PAGE_SIZE) -> j = k.
Proof.
  unfold vpn, page_range, PAGE_SIZE. intros Hr Hn Hj Hk.
  rewrite !Z.div_add by lia. generalize (virt / 4096). intros x E. zdiv_lia.
Qed.

Lemma range_addr virt i n :
  page_range virt (i + S n) ->
  0 <= virt + Z.of_nat i * PAGE_SIZE < 2 ^ 64 /\
  u64 (virt + Z.of_nat i * PAGE_SIZE) = virt + Z.of_nat i * PAGE_SIZE /\
  u64 (u64 (virt + Z.of_nat i * PAGE_SIZE) + PAGE_SIZE) = u64 (virt + Z.of_nat (S i) * PAGE_SIZE).
Proof.
  unfold page_range, PAGE_SIZE. intros Hr.
  assert (0 <= virt + Z.of_nat i * 4096 < 2 ^ 64) as Hv by lia.
  rewrite !(u64_small (virt + Z.of_nat i * 4096)) by done. split_and!; [lia..|]. f_equal. lia.
Qed.

Lemma page_range_le virt n k : page_range virt n -> (k <= n)%nat -> page_range virt k.
Proof. unfold page_range, PAGE_SIZE. lia. Qed.

Section map_range.
Context (D : Z -> Prop) (root : Z) (sp : as_ptr) (virt phys flags : Z) (N : nat).
Hypotheses (Hf : 0 <= flags < PAGE_SIZE) (Hrv : page_range virt N) (Hrp : page_range phys N)
  (HN : Z.of_nat N <= 2 ^ 36)
  (HD : forall j, 0 <= j < Z.of_nat N -> D (PML4_INDEX (virt + j * PAGE_SIZE))).

Definition pages_mapped (i n : nat) (m' : machine) : Prop :=
  forall j, Z.of_nat i <= j < Z.of_nat (i + n) ->
    translate (mem m') root (virt + j * PAGE_SIZE) = Some (Z.land (phys + j * PAGE_SIZE) PAGE_MASK).

Definition rolled_back (k : nat) (m m' : machine) : Prop :=
  vm_update D root (in_pages virt k) m m' /\
  forall j, 0 <= j < Z.of_nat k -> translate (mem m') root (virt + j * PAGE_SIZE) = None.

Lemma map_range_step i n m m1 m' :
  (i + S n = N)%nat ->
  vm_update D root (fun va => vpn va = vpn (virt + Z.of_nat i * PAGE_SIZE)) m m1 ->
  translate (mem m1) root (virt + Z.of_nat i * PAGE_SIZE)
    = Some (Z.land (phys + Z.of_nat i * PAGE_SIZE) PAGE_MASK) ->
  vm_update D root (in_pages_from virt (S i) n) m1 m' -> pages_mapped (S i) n m' ->
  vm_update D root (in_pages_from virt i (S n)) m m' /\ pages_mapped i (S n) m'.
Proof.
  intros HiN U1 T1 U2 T2. split.
  - eapply vm_update_trans; [exact U1|exact U2|]. intros va [E|(j & Hj & E)].
    + exists (Z.of_nat i). split; [lia|done].
    + exists j. split; [lia|done].
  - intros j Hj. destruct (decide (j = Z.of_nat i)) as [->|]; [|apply T2; lia].
    rewrite (vu_other _ _ _ _ _ U2); [done|apply HD; lia|].
    intros (k & Hk & E). apply (vpn_page virt _ _ N) in E; (done || lia).
Qed.

Lemma map_range_loop_cases n : forall i m,
  (i + n = N)%nat -> space_ok D root sp m ->
  exists m' ok, map_range_loop kernel_space sp virt flags i n
      (u64 (virt + Z.of_nat i * PAGE_SIZE)) (u64 (phys + Z.of_nat i * PAGE_SIZE)) m = (m', ok) /\
    space_ok D root sp m' /\
    (ok = true /\ vm_update D root (in_pages_from virt i n) m m' /\ pages_mapped i n m' \/
     ok = false /\ exists k, (i <= k < N)%nat /\ rolled_back k m m').
Proof.
  induction n as [|n IH]; intros i m HiN Hok.
  { simpl. eexists _, _. split; [done|]. split; [done|]. left. split; [done|].
    split; [by apply vm_update_refl; apply Hok|]. intros j Hj. lia. }
  assert (Hrv' : page_range virt (i + S n)) by by rewrite HiN.
  assert (Hrp' : page_range phys (i + S n)) by by rewrite HiN.
  destruct (range_addr virt i n Hrv') as (Hv & Ev & Ev').
  destruct (range_addr phys i n Hrp') as (Hp & Ep & Ep').
  assert (HDi : D (PML4_INDEX (virt + Z.of_nat i * PAGE_SIZE))) by (apply HD; lia).
  simpl map_range_loop. rewrite Ev', Ep', Ev, Ep.
  destruct (vmm_map_cases D root sp _ _ flags m Hok HDi Hv Hp Hf)
    as (m1 & ok & -> & Hok1 & [(-> & U1 & T1)|(-> & Ev1)]).
  - destruct (IH (S i) m1) as (m' & ok & -> & Hok' & C); [lia|done|].
    eexists _, _. split; [done|]. split; [done|].
    destruct C as [(-> & U2 & T2)|(-> & k & Hk & U2 & T2)].
    + left. split; [done|]. by apply (map_range_step i n m m1 m').
    + right. split; [done|]. exists k. split; [lia|]. split; [|done].
      eapply vm_update_trans; [exact U1|exact U2|]. intros va [E|E]; [|done].
      exists (Z.of_nat i). split; [lia|done].
  - destruct (unmap_first_cases D root sp virt i m1 Hok1) as (H1 & H2 & _ & H4).
    { apply (page_range_le virt N); [done|lia]. }
    { intros j Hj. apply HD. lia. }
    eexists _, _. split; [done|]. split; [done|]. right. split; [done|].
    exists i. split; [lia|]. split; [|done].
    eapply vm_update_trans; [exact (evolves_update D root (fun _ => False) _ _ Ev1)|exact H2|].
    intros va [[]|E]; done.
Qed.
End map_range.

Lemma vmm_map_range_cases D root sp virt phys n flags m :
  space_ok D root sp m -> 0 <= flags < PAGE_SIZE ->
  page_range virt n -> page_range phys n -> virt < 2 ^ 64 -> phys < 2 ^ 64 ->
  Z.of_nat n <= 2 ^ 36 ->
  (forall j, 0 <= j < Z.of_nat n -> D (PML4_INDEX (virt + j * PAGE_SIZE))) ->
  exists m' ok, vmm_map_range kernel_space sp virt phys (Z.of_nat n) flags m = (m', ok) /\
    space_ok D root sp m' /\
    (ok = true /\ vm_update D root (in_pages virt n) m m' /\ pages_mapped root virt phys 0 n m' \/
     ok = false /\ exists k, (k < n)%nat /\ rolled_back D root virt k m m').
Proof.
  intros Hok Hf Hv Hp Hv' Hp' Hn HD. unfold vmm_map_range. rewrite Nat2Z.id.
  destruct (map_range_loop_cases D root sp virt phys flags n Hf Hv Hp Hn HD n 0 m)
    as (m' & ok & E & Hok' & C); [done|done|].
  rewrite Z.mul_0_l, !Z.add_0_r, !u64_small in E by (unfold page_range in *; lia).
  exists m', ok. split; [done|]. split; [done|].
  destruct C as [(-> & U & T)|(-> & k & Hk & R)]; [left|right].
  - split_and!; done.
  - split; [done|]. exists k. split; [lia|done].
Qed.
End specs.
