(* ===== verification/Dma.v ===== *)
(** * Memory for devices (src/kernel/mem/dma.c)

    Buffers for devices are physically contiguous pages of the physical memory
    manager, mapped into a window of 65536 pages of the kernel's address
    space.  The state is that of the two managers below, a bitmap of the
    window, the table of live buffers and a pool of pages below 16 MB.

    [dma_alloc] tries again after a failure, for ever: [dma_round] is one
    attempt, and [fuel] bounds the attempts.  The spin locks are not modelled:
    an operation is one step. *)

From S2P Require Import Prelude PhysMem Pmm Vmm.

Definition DMA_VIRT_BASE : Z := 0xFFFFE00000000000.
Definition DMA_VIRT_PAGE_COUNT : Z := 65536.
Definition ISA_LIMIT_PHYS : Z := 16 * 1024 * 1024.
Definition ISA_POOL_PAGES : Z := 64.
Definition ISA_POOL_MAX_TRIES : Z := ISA_POOL_PAGES * 8.
Definition META_CAP : Z := 256.
Definition DMA_ZONE_NORMAL : Z := 0.
Definition DMA_ZONE_ISA : Z := 1.
Definition PAGE_GLOBAL : Z := 2 ^ 8.
Definition DMA_MAP_FLAGS : Z := Z.lor (Z.lor (Z.lor PAGE_PRESENT PAGE_WRITE) PAGE_NOCACHE) PAGE_GLOBAL.

(** [meta_t]: a buffer. *)
Record meta_t := mkMeta {
  virt : Z; phys : Z; size : Z; pages : Z; zone : Z; from_isa_pool : bool; used : bool
}.
Definition no_meta : meta_t := mkMeta 0 0 0 0 0 false false.

(** The static variables over the machine.  A node of the pool is a page and
    the index of the next node; -1 is NULL. *)
Record dma_state := mkDma {
  mach : machine;
  virt_bitmap : list Z;
  meta : list meta_t;
  isa_nodes : list (Z * Z);
  isa_free_list : Z;
  isa_pool_size : Z
}.
Definition set_mach (m : machine) (s : dma_state) : dma_state :=
  mkDma m (virt_bitmap s) (meta s) (isa_nodes s) (isa_free_list s) (isa_pool_size s).
Definition set_virt (b : list Z) (s : dma_state) : dma_state :=
  mkDma (mach s) b (meta s) (isa_nodes s) (isa_free_list s) (isa_pool_size s).
Definition set_meta (t : list meta_t) (s : dma_state) : dma_state :=
  mkDma (mach s) (virt_bitmap s) t (isa_nodes s) (isa_free_list s) (isa_pool_size s).
Definition set_pool (nodes : list (Z * Z)) (free n : Z) (s : dma_state) : dma_state :=
  mkDma (mach s) (virt_bitmap s) (meta s) nodes free n.

(** ** The window *)

Definition virt_used (b : list Z) (i : Z) : bool :=
  negb (Z.land (aget 0 b (Z.shiftr i 6)) (Z.shiftl 1 (Z.land i 63)) =? 0).
Definition virt_set (i : Z) (b : list Z) : list Z :=
  aset b (Z.shiftr i 6) (Z.lor (aget 0 b (Z.shiftr i 6)) (Z.shiftl 1 (Z.land i 63))).
Definition virt_clear (i : Z) (b : list Z) : list Z :=
  aset b (Z.shiftr i 6) (Z.land (aget 0 b (Z.shiftr i 6)) (Z.lnot (Z.shiftl 1 (Z.land i 63)))).

(** The address, or 0. *)
Definition virt_range_alloc (n : Z) (s : dma_state) : dma_state * Z :=
  match scan_run (fun i => negb (virt_used (virt_bitmap s) i)) n 0 (Z.to_nat DMA_VIRT_PAGE_COUNT) 0 0 with
  | Some start =>
      (set_virt (for_range virt_set start (Z.to_nat n) (virt_bitmap s)) s, u64 (DMA_VIRT_BASE + start * PAGE_SIZE))
  | None => (s, 0)
  end.

Definition virt_range_free (va n : Z) (s : dma_state) : dma_state :=
  let start := u64 (va - DMA_VIRT_BASE) / PAGE_SIZE in
  set_virt (for_range virt_clear start (Z.to_nat n) (virt_bitmap s)) s.

(** ** The pool *)

Section dma.
Context `{BootInfo} (kernel_space : address_space).

Fixpoint isa_pool_loop (tries : nat) (s : dma_state) : dma_state :=
  match tries with
  | O => s
  | S tries' =>
      if ISA_POOL_PAGES <=? isa_pool_size s then s
      else
        let '(m, p) := pmm_alloc (mach s) in
        if p =? 0 then set_mach m s
        else if ISA_LIMIT_PHYS <=? p then isa_pool_loop tries' (set_mach (pmm_free p m) s)
        else
          let n := isa_pool_size s in
          isa_pool_loop tries' (set_pool (aset (isa_nodes s) n (p, isa_free_list s)) n (n + 1) (set_mach m s))
  end.
Definition isa_pool_init (s : dma_state) : dma_state := isa_pool_loop (Z.to_nat ISA_POOL_MAX_TRIES) s.
Definition dma_init (s : dma_state) : dma_state := isa_pool_init s.

Definition isa_page_alloc (s : dma_state) : dma_state * Z :=
  if isa_free_list s =? -1 then (s, 0)
  else
    let '(p, next) := aget (0, -1) (isa_nodes s) (isa_free_list s) in
    (set_pool (isa_nodes s) next (isa_pool_size s) s, p).

Definition isa_page_free (p : Z) (s : dma_state) : dma_state :=
  match find_first (fun i => fst (aget (0, -1) (isa_nodes s) i) =? p) 0 (Z.to_nat (isa_pool_size s)) with
  | Some i => set_pool (aset (isa_nodes s) i (p, isa_free_list s)) i (isa_pool_size s) s
  | None => set_mach (pmm_free p (mach s)) s
  end.

(** ** The table *)

Definition meta_at (s : dma_state) (i : Z) : meta_t := aget no_meta (meta s) i.
Definition set_used (u : bool) (e : meta_t) : meta_t :=
  mkMeta (virt e) (phys e) (size e) (pages e) (zone e) (from_isa_pool e) u.
Definition meta_alloc (s : dma_state) : option Z :=
  find_first (fun i => negb (used (meta_at s i))) 0 (Z.to_nat META_CAP).
Definition meta_find (va : Z) (s : dma_state) : option Z :=
  find_first (fun i => used (meta_at s i) && (virt (meta_at s i) =? va)) 0 (Z.to_nat META_CAP).
Definition meta_free (i : Z) (s : dma_state) : dma_state := set_meta (aset (meta s) i (set_used false (meta_at s i))) s.

(** ** Buffers *)

(** [memset(virt, 0, pages * PAGE_SIZE)] through the page tables. *)
Definition clear_mapped (va n : Z) (m : machine) : machine :=
  for_range (fun j m =>
    match translate (mem m) (pml4 kernel_space) (u64 (va + j * PAGE_SIZE)) with
    | Some f => mkMachine (pmm m) (fill (mem m) f PAGE_SIZE 0)
    | None => m
    end) 0 (Z.to_nat n) m.

(** The label [retry]: the page is given back. *)
Definition give_back (from_pool : bool) (p n : Z) (s : dma_state) : dma_state :=
  if from_pool then isa_page_free p s
  else if negb (p =? 0) then set_mach (pmm_free_pages p n (mach s)) s else s.

(** [size - 1] bytes behind [p] lie in another block of [boundary] bytes. *)
Definition crosses (p sz boundary : Z) : bool :=
  negb (boundary =? 0) &&
  negb (Z.land p (Z.lnot (boundary - 1)) =? Z.land (u64 (p + sz - 1)) (Z.lnot (boundary - 1))).
Definition misaligned (p alignment : Z) : bool := negb (alignment =? 0) && negb (Z.land p (alignment - 1) =? 0).

(** Map the pages at [p] and enter them into the table; [None]: retry. *)
Definition dma_place (sz n zn : Z) (from_pool : bool) (p : Z) (s : dma_state) : dma_state * option Z :=
  let '(s1, va) := virt_range_alloc n s in
  if va =? 0 then (give_back from_pool p n s1, None)
  else
    let '(m, ok) := vmm_map_range kernel_space AS_KERNEL va p n DMA_MAP_FLAGS (mach s1) in
    let s2 := set_mach m s1 in
    if negb ok then (give_back from_pool p n (virt_range_free va n s2), None)
    else
      let s3 := set_mach (clear_mapped va n m) s2 in
      match meta_alloc s3 with
      | None =>
          let s4 := set_mach (vmm_unmap_range kernel_space AS_KERNEL va n (mach s3)) s3 in
          (give_back from_pool p n (virt_range_free va n s4), None)
      | Some i => (set_meta (aset (meta s3) i (mkMeta va p sz n zn from_pool true)) s3, Some va)
      end.

(** One round of the loop; 0 is NULL. *)
Definition dma_round (sz alignment boundary zn n : Z) (s : dma_state) : dma_state * option Z :=
  let check (from_pool : bool) (p : Z) (s : dma_state) :=
    if misaligned p alignment || crosses p sz boundary then (give_back from_pool p n s, None)
    else dma_place sz n zn from_pool p s in
  if (zn =? DMA_ZONE_ISA) && (n =? 1) then
    let '(s1, p) := isa_page_alloc s in
    if p =? 0 then (s1, Some 0) else check true p s1
  else
    let '(m, p) := pmm_alloc_pages n (mach s) in
    let s1 := set_mach m s in
    if p =? 0 then (s1, Some 0)
    else if (zn =? DMA_ZONE_ISA) && (ISA_LIMIT_PHYS <=? p) then (give_back false p n s1, None)
    else check false p s1.

Fixpoint alloc_loop (fuel : nat) (sz alignment boundary zn n : Z) (s : dma_state) : option (dma_state * Z) :=
  match fuel with
  | O => None
  | S fuel' =>
      match dma_round sz alignment boundary zn n s with
      | (s', Some va) => Some (s', va)
      | (s', None) => alloc_loop fuel' sz alignment boundary zn n s'
      end
  end.

Definition not_pow2 (x : Z) : bool := negb (x =? 0) && negb (Z.land x (x - 1) =? 0).

Definition dma_alloc (fuel : nat) (sz alignment boundary zn : Z) (s : dma_state) : option (dma_state * Z) :=
  if sz =? 0 then Some (s, 0)
  else if not_pow2 alignment then Some (s, 0)
  else if not_pow2 boundary then Some (s, 0)
  else alloc_loop fuel sz alignment boundary zn (u64 (sz + PAGE_SIZE - 1) / PAGE_SIZE) s.

Definition dma_free (ptr : Z) (s : dma_state) : dma_state :=
  if ptr =? 0 then s
  else
    match meta_find ptr s with
    | None => s
    | Some i =>
        let e := meta_at s i in
        let s1 := set_mach (vmm_unmap_range kernel_space AS_KERNEL (virt e) (pages e) (mach s)) s in
        let s2 := virt_range_free (virt e) (pages e) s1 in
        let s3 := if from_isa_pool e then isa_page_free (phys e) s2
                  else set_mach (pmm_free_pages (phys e) (pages e) (mach s2)) s2 in
        meta_free i s3
    end.
End dma.
