(* ===== verification/DisplayFacts.v ===== *)
(** * The screen shows the text (lemmas about Display.v)

    First the framebuffer at 32 bits per pixel, pixel by pixel: drawing,
    scrolling and clearing.  Then the specification of the text renderer, a
    grid of cells with a cursor, and the proof that the renderer implements
    it. *)

From S2P Require Import Prelude PhysMem CString Pmm Vmm Display.

(** A framebuffer of 32 bits per pixel inside the address space. *)
Record fb_ok (f : fbinfo) : Prop := {
  ok_addr : 0 < fb_addr f;
  ok_bpp : fb_bpp f = 32;
  ok_width : 0 < fb_width f;
  ok_height : 0 < fb_height f;
  ok_aligned : fb_pitch f mod 4 = 0;
  ok_pitch : 4 * fb_width f <= fb_pitch f;
  ok_size : fb_pitch f * fb_height f < 2 ^ 32;
  ok_end : fb_addr f + fb_pitch f * fb_height f < 2 ^ 64
}.

Definition pixel_at (f : fbinfo) (x y : Z) : Z := fb_addr f + y * fb_pitch f + 4 * x.
Definition pixel (f : fbinfo) (m : ram) (x y : Z) : Z := load32 m (pixel_at f x y).
Definition on_screen (f : fbinfo) (x y : Z) : Prop := 0 <= x < fb_width f /\ 0 <= y < fb_height f.

Section framebuffer.
Context (f : fbinfo) (Hf : fb_ok f).

Lemma row_bound y k : 0 <= y < fb_height f -> 0 <= k <= fb_pitch f -> y * fb_pitch f + k <= fb_pitch f * fb_height f.
Proof using Hf. intros. destruct Hf. nia. Qed.
Lemma pixel_apart x y x' y' : on_screen f x y -> on_screen f x' y' -> (x, y) <> (x', y') ->
  pixel_at f x y + 4 <= pixel_at f x' y' \/ pixel_at f x' y' + 4 <= pixel_at f x y.
Proof using Hf.
  intros [Hx Hy] [Hx' Hy'] Hne. destruct Hf. unfold pixel_at.
  destruct (Z.lt_trichotomy y y') as [H|[->|H]].
  - left. assert ((y + 1) * fb_pitch f <= y' * fb_pitch f) by nia. lia.
  - assert (x <> x') by congruence. lia.
  - right. assert ((y' + 1) * fb_pitch f <= y * fb_pitch f) by nia. lia.
Qed.
Lemma pixel_store x y c m x' y' : on_screen f x y -> on_screen f x' y' -> 0 <= c < 2 ^ 32 ->
  pixel f (store32 m (pixel_at f x y) c) x' y' = if (x' =? x) && (y' =? y) then c else pixel f m x' y'.
Proof using Hf.
  intros H H' Hc. unfold pixel. destruct (Z.eqb_spec x' x) as [->|], (Z.eqb_spec y' y) as [->|]; cbn [andb];
    [by apply load32_store32_eq|apply load32_store32_ne; apply pixel_apart; congruence..].
Qed.

Lemma u64_in a : 0 <= a <= fb_pitch f * fb_height f -> u64 (fb_addr f + a) = fb_addr f + a.
Proof using Hf. intros. destruct Hf. apply u64_small. lia. Qed.
Lemma u32_in a : 0 <= a <= fb_pitch f * fb_height f -> u32 a = a.
Proof using Hf. intros. destruct Hf. apply u32_small. lia. Qed.

Lemma putpixel_store x y c m : on_screen f x y -> fb_putpixel f x y c m = store32 m (pixel_at f x y) c.
Proof using Hf.
  intros [Hx Hy]. unfold fb_putpixel. pose proof (ok_addr f Hf). pose proof (ok_pitch f Hf). pose proof (ok_bpp f Hf) as E.
  destruct (Z.eqb_spec (fb_addr f) 0); [lia|]. destruct (Z.leb_spec (fb_width f) x); [lia|].
  destruct (Z.leb_spec (fb_height f) y); [lia|]. cbn [orb]. rewrite E. change (32 / 8) with 4. cbn [Z.eqb Pos.eqb].
  pose proof (row_bound y (4 * x) Hy ltac:(lia)). assert (0 <= y * fb_pitch f) by nia.
  rewrite !u32_in by lia. f_equal. unfold pixel_at. rewrite <- !Z.add_assoc, u64_in by lia. lia.
Qed.

Lemma putpixel_off x y c m : fb_width f <= x \/ fb_height f <= y -> fb_putpixel f x y c m = m.
Proof using Hf.
  intros H. unfold fb_putpixel. destruct (_ =? 0); [done|].
  destruct (Z.leb_spec (fb_width f) x), (Z.leb_spec (fb_height f) y); cbn [orb]; done || lia.
Qed.

(** ** Loops over pixels *)

(** A loop whose step sets one pixel of a row. *)
Lemma row_loop (g : Z -> ram -> ram) (color : Z -> Z) x0 y n m :
  (forall j m', 0 <= j < Z.of_nat n -> g j m' = store32 m' (pixel_at f (x0 + j) y) (color j)) ->
  (forall j, 0 <= j < Z.of_nat n -> on_screen f (x0 + j) y /\ 0 <= color j < 2 ^ 32) ->
  forall x' y', on_screen f x' y' -> pixel f (for_range g 0 n m) x' y' =
    if (x0 <=? x') && (x' <? x0 + Z.of_nat n) && (y' =? y) then color (x' - x0) else pixel f m x' y'.
Proof using Hf.
  intros Hg Hc x' y' Hs.
  apply (for_range_ind (fun i mm => pixel f mm x' y' =
    if (x0 <=? x') && (x' <? x0 + i) && (y' =? y) then color (x' - x0) else pixel f m x' y')).
  - destruct (Z.leb_spec x0 x'), (Z.ltb_spec x' (x0 + 0)); cbn [andb]; done || lia.
  - intros j mm Hj IH. destruct (Hc j ltac:(lia)) as [Ho Hcj]. rewrite Hg, pixel_store, IH by (done || lia).
    destruct (Z.eqb_spec x' (x0 + j)) as [->|].
    + destruct (Z.leb_spec x0 (x0 + j)), (Z.ltb_spec (x0 + j) (x0 + j)), (Z.ltb_spec (x0 + j) (x0 + (j + 1))); try lia.
      cbn [andb]. by replace (x0 + j - x0) with j by lia.
    + destruct (Z.ltb_spec x' (x0 + j)), (Z.ltb_spec x' (x0 + (j + 1))); done || lia.
Qed.

(** A loop over the rows of a rectangle. *)
Lemma rect_loop (g : Z -> ram -> ram) (color : Z -> Z -> Z) x0 y0 w n m :
  0 <= w ->
  (forall j m' x' y', 0 <= j < Z.of_nat n -> on_screen f x' y' -> pixel f (g j m') x' y' =
    if (x0 <=? x') && (x' <? x0 + w) && (y' =? y0 + j) then color j (x' - x0) else pixel f m' x' y') ->
  forall x' y', on_screen f x' y' -> pixel f (for_range g 0 n m) x' y' =
    if (x0 <=? x') && (x' <? x0 + w) && (y0 <=? y') && (y' <? y0 + Z.of_nat n) then color (y' - y0) (x' - x0)
    else pixel f m x' y'.
Proof using Hf.
  intros Hw Hg x' y' Hs.
  apply (for_range_ind (fun i mm => pixel f mm x' y' =
    if (x0 <=? x') && (x' <? x0 + w) && (y0 <=? y') && (y' <? y0 + i) then color (y' - y0) (x' - x0) else pixel f m x' y')).
  - destruct (Z.leb_spec y0 y'), (Z.ltb_spec y' (y0 + 0)); rewrite ?andb_false_r; done || lia.
  - intros j mm Hj IH. rewrite Hg, IH by (done || lia). destruct ((x0 <=? x') && (x' <? x0 + w)); [|done]. cbn [andb].
    destruct (Z.eqb_spec y' (y0 + j)) as [->|].
    + destruct (Z.leb_spec y0 (y0 + j)), (Z.ltb_spec (y0 + j) (y0 + (j + 1))); try lia. cbn [andb].
      by replace (y0 + j - y0) with j by lia.
    + destruct (Z.leb_spec y0 y'), (Z.ltb_spec y' (y0 + j)), (Z.ltb_spec y' (y0 + (j + 1))); done || lia.
Qed.

(** Drawing a cell that lies on the screen. *)
Lemma draw_cell_pixel px py w h color m :
  0 <= px -> 0 <= py -> 0 <= w -> 0 <= h -> px + w <= fb_width f -> py + h <= fb_height f -> fb_width f < 2 ^ 32 ->
  fb_height f < 2 ^ 32 -> (forall y x, 0 <= color y x < 2 ^ 32) ->
  forall x' y', on_screen f x' y' -> pixel f (draw_cell f px py w h color m) x' y' =
    if (px <=? x') && (x' <? px + w) && (py <=? y') && (y' <? py + h) then color (y' - py) (x' - px) else pixel f m x' y'.
Proof using Hf.
  intros. unfold draw_cell. rewrite <- (Z2Nat.id h) at 2 by lia. apply rect_loop; [lia| |done].
  intros j m' x y Hj Hs. rewrite <- (Z2Nat.id w) at 2 by lia. apply row_loop; [| |done].
  - intros i m'' Hi. rewrite (u32_small (px + i)), (u32_small (py + j)) by lia. apply putpixel_store. unfold on_screen. lia.
  - intros i Hi. unfold on_screen. split; [lia|done].
Qed.

Lemma fb_clear_pixel color m x' y' : 0 <= color < 2 ^ 32 -> on_screen f x' y' -> pixel f (fb_clear f color m) x' y' = color.
Proof using Hf.
  intros Hc Hs. pose proof Hf as [Ha Hb Hw Hh Hal Hp Hsz He]. unfold fb_clear.
  destruct (Z.eqb_spec (fb_addr f) 0); [lia|]. rewrite Hb. cbn [Z.eqb Pos.eqb negb].
  assert (4 * (fb_pitch f / 4) = fb_pitch f) as E by (pose proof (Z.div_mod (fb_pitch f) 4); lia).
  rewrite (rect_loop _ (fun _ _ => color) 0 0 (fb_width f)); [|lia| |done].
  - destruct Hs. destruct (Z.leb_spec 0 x'), (Z.ltb_spec x' (0 + fb_width f)), (Z.leb_spec 0 y'),
      (Z.ltb_spec y' (0 + Z.of_nat (Z.to_nat (fb_height f)))); done || lia.
  - intros j m' x y Hj Hxy. rewrite <- (Z2Nat.id (fb_width f)) at 2 by lia.
    rewrite (Z.add_0_l j). apply (row_loop _ (fun _ => color)); [| |done].
    + intros i m'' Hi. f_equal. unfold pixel_at. pose proof (row_bound j (4 * i) ltac:(lia) ltac:(lia)).
      assert (0 <= j * fb_pitch f) by nia. assert (4 * (j * (fb_pitch f / 4) + i) = j * fb_pitch f + 4 * i) as E2 by lia.
      rewrite u32_small by nia. rewrite E2, u64_in by lia. lia.
    + intros i Hi. unfold on_screen. split; [lia|done].
Qed.

(** ** Scrolling *)

Lemma store8_bytes m a v : ram_bytes m -> ram_bytes (store8 m a v).
Proof using. intros H x. unfold store8. destruct (_ =? _); [apply u8_range|apply H]. Qed.
Lemma memcpy_bytes d s n m : ram_bytes m -> ram_bytes (memcpy d s n m).
Proof using. intros H. apply (for_range_inv ram_bytes); [done|]. intros. by apply store8_bytes. Qed.

(** Rows moved up by [d] bytes, at least one row. *)
Lemma move_rows_spec addr d row n m :
  ram_bytes m -> 0 <= addr -> 0 < row <= d -> addr + d + Z.of_nat n * row < 2 ^ 64 ->
  ram_bytes (move_rows addr (addr + d) row (Z.of_nat n) m) /\
  forall a, move_rows addr (addr + d) row (Z.of_nat n) m a =
    if (addr <=? a) && (a <? addr + Z.of_nat n * row) then m (a + d) else m a.
Proof using.
  intros Hb Ha Hd Hn. unfold move_rows. rewrite Nat2Z.id.
  apply (for_range_ind (fun i mm => ram_bytes mm /\ forall a, mm a =
    if (addr <=? a) && (a <? addr + i * row) then m (a + d) else m a)).
  - split; [done|]. intros a. destruct (Z.leb_spec addr a), (Z.ltb_spec a (addr + 0 * row)); cbn [andb]; done || lia.
  - intros j mm Hj [Hbm IH]. split; [by apply memcpy_bytes|]. intros a.
    assert (0 <= j * row) by nia. assert ((j + 1) * row <= Z.of_nat n * row) by nia.
    rewrite !u64_small by lia. rewrite memcpy_spec by (done || lia).
    destruct (decide (addr + j * row <= a < addr + j * row + row)) as [Hin|Hout].
    + rewrite blit_inside by done. rewrite IH.
      replace (addr + d + j * row + (a - (addr + j * row))) with (a + d) by lia.
      destruct (Z.leb_spec addr (a + d)), (Z.ltb_spec (a + d) (addr + j * row)); try lia. cbn [andb].
      destruct (Z.leb_spec addr a), (Z.ltb_spec a (addr + (j + 1) * row)); try lia. done.
    + rewrite blit_outside by done. rewrite IH. f_equal. f_equal.
      destruct (Z.ltb_spec a (addr + j * row)), (Z.ltb_spec a (addr + (j + 1) * row)); done || lia.
Qed.

Lemma for_range_app {S : Type} (g : Z -> S -> S) a : forall i b (s : S),
  for_range g i (a + b) s = for_range g (i + Z.of_nat a) b (for_range g i a s).
Proof using.
  induction a as [|a IH]; intros i b s; [by rewrite Z.add_0_r|]. cbn [Nat.add for_range]. rewrite IH. f_equal. lia.
Qed.
(** The unrolled loop sets the same words as a plain one. *)
Lemma unrolled_loop {S : Type} (g : Z -> S -> S) n (s : S) :
  for_range (fun u s => for_range g (8 * u) 8 s) 0 n s = for_range g 0 (8 * n) s.
Proof using.
  induction n as [|n IH]; [done|]. rewrite for_range_S_r, IH. replace (8 * Datatypes.S n)%nat with (8 * n + 8)%nat by lia.
  rewrite for_range_app. f_equal. lia.
Qed.
Lemma clear_pixels_flat bottom count color m : 0 <= count ->
  clear_pixels bottom count color m = for_range (fun i m => store32 m (bottom + 4 * i) color) 0 (Z.to_nat count) m.
Proof using.
  intros Hc. unfold clear_pixels. rewrite unrolled_loop. pose proof (Z.div_mod count 8 ltac:(lia)).
  pose proof (Z.mod_pos_bound count 8 ltac:(lia)).
  replace (Z.to_nat count) with (8 * Z.to_nat (count / 8) + Z.to_nat (count - 8 * (count / 8)))%nat by lia.
  rewrite for_range_app. f_equal. lia.
Qed.
Lemma clear_pixels_spec bottom count color m : 0 <= count -> 0 <= color < 2 ^ 32 ->
  (forall k, 0 <= k < count -> load32 (clear_pixels bottom count color m) (bottom + 4 * k) = color) /\
  (forall a, a + 4 <= bottom -> load32 (clear_pixels bottom count color m) a = load32 m a).
Proof using.
  intros Hc Hcol. rewrite clear_pixels_flat by done.
  cut ((forall k, 0 <= k < 0 + Z.of_nat (Z.to_nat count) ->
      load32 (for_range (fun i m => store32 m (bottom + 4 * i) color) 0 (Z.to_nat count) m) (bottom + 4 * k) = color) /\
    (forall a, a + 4 <= bottom ->
      load32 (for_range (fun i m => store32 m (bottom + 4 * i) color) 0 (Z.to_nat count) m) a = load32 m a)).
  { intros [H1 H2]. split; [intros k Hk; apply H1; lia|done]. }
  apply (for_range_ind (fun i mm => (forall k, 0 <= k < i -> load32 mm (bottom + 4 * k) = color) /\
    (forall a, a + 4 <= bottom -> load32 mm a = load32 m a))); [split; [lia|done]|].
  intros j mm Hj [H1 H2]. split; intros k Hk.
  - destruct (decide (k = j)) as [->|]; [by rewrite load32_store32_eq by lia|]. rewrite load32_store32_ne by lia. apply H1. lia.
  - rewrite load32_store32_ne by lia. by apply H2.
Qed.

Lemma in_range lo hi a : lo <= a < hi -> (lo <=? a) && (a <? hi) = true.
Proof using. intros. destruct (Z.leb_spec lo a), (Z.ltb_spec a hi); done || lia. Qed.

Lemma fb_scroll_pixel pixels color m x y :
  ram_bytes m -> 0 < pixels < fb_height f -> 0 <= color < 2 ^ 32 -> on_screen f x y ->
  pixel f (fb_scroll f pixels color m) x y = if y + pixels <? fb_height f then pixel f m x (y + pixels) else color.
Proof using Hf.
  intros Hb Hp Hc [Hx Hy]. pose proof Hf as [Ha Hbpp Hw Hh Hal Hpi Hsz He]. unfold fb_scroll.
  destruct (Z.eqb_spec (fb_addr f) 0), (Z.eqb_spec pixels 0), (Z.leb_spec (fb_height f) pixels); try lia.
  rewrite Hbpp. cbn [Z.eqb Pos.eqb negb]. set (P := fb_pitch f) in *. set (HH := fb_height f) in *.
  assert (0 <= pixels * P) by nia. assert (0 <= (HH - pixels) * P) by nia.
  assert ((HH - pixels) * P + pixels * P = P * HH) as Hsum by lia.
  assert (4 * (P / 4) = P) as E4 by (pose proof (Z.div_mod P 4); lia). assert (0 <= pixels * (P / 4)) by nia.
  rewrite (u32_small (pixels * P)), (u32_small ((HH - pixels) * P)), (u32_small (pixels * (P / 4))) by nia.
  rewrite !u64_small by lia. replace (HH - pixels) with (Z.of_nat (Z.to_nat (HH - pixels))) at 2 by lia.
  destruct (move_rows_spec (fb_addr f) (pixels * P) P (Z.to_nat (HH - pixels)) m) as [_ Hm]; [done|lia|nia|lia|].
  rewrite Z2Nat.id in Hm |- * by lia.
  edestruct (clear_pixels_spec (fb_addr f + (HH - pixels) * P) (pixels * (P / 4)) color) as [Hbot Htop]; [lia|done|].
  unfold pixel, pixel_at. fold P. destruct (Z.ltb_spec (y + pixels) HH) as [Hlt|Hge].
  - assert ((y + 1) * P <= (HH - pixels) * P) by nia. assert (0 <= y * P) by nia. rewrite Htop by lia. unfold load32. rewrite !Hm.
    rewrite !in_range by lia. replace ((y + pixels) * P) with (y * P + pixels * P) by lia.
    assert (forall k, fb_addr f + y * P + 4 * x + k + pixels * P = fb_addr f + (y * P + pixels * P) + 4 * x + k) as Hk by lia.
    rewrite !Hk. replace (fb_addr f + y * P + 4 * x + pixels * P) with (fb_addr f + (y * P + pixels * P) + 4 * x) by lia. done.
  - replace (fb_addr f + y * P + 4 * x) with (fb_addr f + (HH - pixels) * P + 4 * ((y - (HH - pixels)) * (P / 4) + x)) by nia.
    apply Hbot. nia.
Qed.
End framebuffer.

(** ** Memory stays bytes *)

Lemma putpixel_bytes f x y c m : ram_bytes m -> ram_bytes (fb_putpixel f x y c m).
Proof.
  intros H. unfold fb_putpixel. repeat case_match; auto using store8_bytes with kernel.
Qed.
Lemma draw_cell_bytes f px py w h c m : ram_bytes m -> ram_bytes (draw_cell f px py w h c m).
Proof. intros H. do 2 (apply (for_range_inv ram_bytes); [done|]; intros). by apply putpixel_bytes. Qed.
Lemma clear_bytes f c m : ram_bytes m -> ram_bytes (fb_clear f c m).
Proof. intros H. unfold fb_clear. repeat case_match; [done..|]. do 2 (apply (for_range_inv ram_bytes); [done|]; intros). by apply store32_bytes. Qed.
Lemma scroll_bytes f p c m : ram_bytes m -> ram_bytes (fb_scroll f p c m).
Proof.
  intros H. unfold fb_scroll. repeat case_match; [done..|by apply clear_bytes|]. unfold clear_pixels.
  apply (for_range_inv ram_bytes); [|auto with kernel]. apply (for_range_inv ram_bytes).
  - apply (for_range_inv ram_bytes); [done|]. intros. by apply memcpy_bytes.
  - intros. apply (for_range_inv ram_bytes); auto with kernel.
Qed.

(** ** The specification: a grid of cells

    A cell shows a character in two colours, or a colour alone; [None] stands
    for a cell whose pixels are not known.  The rows the cursor reaches leave a
    strip at the bottom of the screen; [strip] is its colour. *)
Inductive cell := Glyph (c fg bg : Z) | Blank (bg : Z).
Record term := mkTerm { tx : Z; ty : Z; tfg : Z; tbg : Z; grid : Z -> Z -> option cell; strip : option Z }.

Section terminal.
Context (C C' R : Z).
(** [C] columns are written before the line breaks; [C'] is the number of whole
    columns, where a backspace over the left edge goes; [R] rows. *)
Definition t_set (x y : Z) (v : cell) (g : Z -> Z -> option cell) : Z -> Z -> option cell :=
  fun x' y' => if (x' =? x) && (y' =? y) then Some v else g x' y'.
Definition t_scroll (t : term) : Z -> Z -> option cell :=
  fun x y => if y + 1 <? R then grid t x (y + 1)
             else if bool_decide (strip t = Some (tbg t)) then Some (Blank (tbg t)) else None.
Definition t_newline (t : term) : term :=
  if R <=? ty t + 1 then mkTerm 0 (ty t) (tfg t) (tbg t) (t_scroll t) (Some (tbg t))
  else mkTerm 0 (ty t + 1) (tfg t) (tbg t) (grid t) (strip t).
Definition t_putc (c : Z) (t : term) : term :=
  if c =? 10 then t_newline t
  else if c =? 13 then mkTerm 0 (ty t) (tfg t) (tbg t) (grid t) (strip t)
  else
    let t' := mkTerm (tx t + 1) (ty t) (tfg t) (tbg t) (t_set (tx t) (ty t) (Glyph c (tfg t) (tbg t)) (grid t)) (strip t) in
    if C <=? tx t + 1 then t_newline t' else t'.
Definition t_backspace (t : term) : term :=
  if (tx t =? 0) && (ty t =? 0) then t
  else
    let '(x, y) := if tx t =? 0 then (C' - 1, ty t - 1) else (tx t - 1, ty t) in
    mkTerm x y (tfg t) (tbg t) (t_set x y (Blank (tbg t)) (grid t)) (strip t).
Definition t_clear (t : term) : term :=
  mkTerm 0 0 (tfg t) (tbg t) (fun _ _ => Some (Blank (tbg t))) (Some (tbg t)).
Definition t_set_color (fg bg : Z) (t : term) : term := mkTerm (tx t) (ty t) fg bg (grid t) (strip t).
End terminal.

(** The operations of the renderer, and a run of some of them. *)
Inductive op := Putc (c : Z) | Backspace | Clear | SetColor (fg bg : Z).
Definition do_op (o : op) (d : display) : option display :=
  match o with
  | Putc c => Some (tr_putc c d)
  | Backspace => tr_backspace d
  | Clear => Some (tr_clear d)
  | SetColor fg bg => Some (tr_set_color fg bg d)
  end.
Fixpoint do_ops (os : list op) (d : display) : option display :=
  match os with [] => Some d | o :: os' => match do_op o d with Some d' => do_ops os' d' | None => None end end.
Definition t_op (C C' R : Z) (o : op) (t : term) : term :=
  match o with
  | Putc c => t_putc C R c t
  | Backspace => t_backspace C' t
  | Clear => t_clear t
  | SetColor fg bg => t_set_color fg bg t
  end.
Definition op_ok (o : op) : Prop :=
  match o with SetColor fg bg => 0 <= fg < 2 ^ 32 /\ 0 <= bg < 2 ^ 32 | _ => True end.

(** A renderer at work: a font that fits the screen at least once. *)
Record tr_ok (d : display) : Prop := {
  tr_fb : fb_ok (fb d);
  tr_bytes : ram_bytes (vram d);
  tr_started : started (tr d) = true;
  tr_width : screen_width (tr d) = fb_width (fb d);
  tr_height : screen_height (tr d) = fb_height (fb d);
  tr_font_w : 0 < width (font d) < 256;
  tr_font_h : 0 < height (font d) < 256;
  tr_cols : width (font d) < fb_width (fb d);
  tr_rows : height (font d) < fb_height (fb d);
  tr_fg : 0 <= fg_color (tr d) < 2 ^ 32;
  tr_bg : 0 <= bg_color (tr d) < 2 ^ 32
}.

Definition columns (d : display) : Z := (fb_width (fb d) - 1) / width (font d).
Definition whole_columns (d : display) : Z := fb_width (fb d) / width (font d).
Definition text_rows (d : display) : Z := (fb_height (fb d) - 1) / height (font d).

Definition cell_color (fn : font_t) (v : cell) (y x : Z) : Z :=
  match v with Glyph c fg bg => glyph_color fn (font_get_glyph fn c) fg bg y x | Blank bg => bg end.
Definition shows (d : display) (x y : Z) (v : cell) : Prop :=
  forall i j, 0 <= i < width (font d) -> 0 <= j < height (font d) ->
    pixel (fb d) (vram d) (x * width (font d) + i) (y * height (font d) + j) = cell_color (font d) v j i.

Record screen_shows (d : display) (g : Z -> Z -> option cell) (s : option Z) : Prop := {
  sh_grid : forall x y v, 0 <= x < whole_columns d -> 0 <= y < text_rows d -> g x y = Some v -> shows d x y v;
  sh_strip : forall c x y, s = Some c -> 0 <= x < fb_width (fb d) ->
    text_rows d * height (font d) <= y < fb_height (fb d) -> pixel (fb d) (vram d) x y = c
}.

(** The screen shows the grid, and the cursor is inside it. *)
Record renders (d : display) (t : term) : Prop := {
  rn_x : cursor_x (tr d) = tx t;
  rn_y : cursor_y (tr d) = ty t;
  rn_fg : fg_color (tr d) = tfg t;
  rn_bg : bg_color (tr d) = tbg t;
  rn_col : 0 <= tx t < whole_columns d;
  rn_row : 0 <= ty t < text_rows d;
  rn_screen : screen_shows d (grid t) (strip t)
}.

Section steps.
Context (d : display) (Hd : tr_ok d).
#[local] Abbreviation w := (width (font d)).
#[local] Abbreviation h := (height (font d)).
#[local] Abbreviation WW := (fb_width (fb d)).
#[local] Abbreviation HH := (fb_height (fb d)).

Lemma screen_small : WW < 2 ^ 30 /\ HH < 2 ^ 30.
Proof using Hd. destruct (tr_fb d Hd), (tr_cols d Hd). pose proof (tr_font_w d Hd). split; nia. Qed.
Lemma columns_spec : whole_columns d * w <= WW /\ WW < (whole_columns d + 1) * w /\ 0 < columns d <= whole_columns d /\
  forall k, 0 <= k -> (columns d <=? k) = (WW <=? (k + 1) * w).
Proof using Hd.
  pose proof (tr_font_w d Hd). pose proof (tr_cols d Hd). unfold whole_columns, columns.
  pose proof (Z.div_mod WW w ltac:(lia)). pose proof (Z.mod_pos_bound WW w ltac:(lia)).
  pose proof (Z.div_mod (WW - 1) w ltac:(lia)). pose proof (Z.mod_pos_bound (WW - 1) w ltac:(lia)).
  assert ((WW - 1) / w <= WW / w) by (apply Z.div_le_mono; lia). split_and!; [lia|lia|nia|done|].
  intros k Hk. destruct (Z.leb_spec ((WW - 1) / w) k), (Z.leb_spec WW ((k + 1) * w)); try done; nia.
Qed.
Lemma rows_spec : text_rows d * h < HH /\ HH <= (text_rows d + 1) * h /\ 0 < text_rows d /\
  forall k, 0 <= k -> (text_rows d <=? k) = (HH <=? (k + 1) * h).
Proof using Hd.
  pose proof (tr_font_h d Hd). pose proof (tr_rows d Hd). unfold text_rows.
  pose proof (Z.div_mod (HH - 1) h ltac:(lia)). pose proof (Z.mod_pos_bound (HH - 1) h ltac:(lia)). split_and!; [lia|lia|nia|].
  intros k Hk. destruct (Z.leb_spec ((HH - 1) / h) k), (Z.leb_spec HH ((k + 1) * h)); try done; nia.
Qed.

(** A cell of the grid lies on the screen, above the strip. *)
Lemma cell_on_screen x y i j : 0 <= x < whole_columns d -> 0 <= y < text_rows d -> 0 <= i < w -> 0 <= j < h ->
  on_screen (fb d) (x * w + i) (y * h + j) /\ y * h + j < text_rows d * h.
Proof using Hd.
  intros Hx Hy Hi Hj. destruct columns_spec as (Hcol & _), rows_spec as (Hrow & _). unfold on_screen.
  assert ((x + 1) * w <= whole_columns d * w) by nia. assert ((y + 1) * h <= text_rows d * h) by nia. nia.
Qed.

(** Drawing in one cell. *)
Lemma draw_shows g s x y v color :
  screen_shows d g s -> 0 <= x < whole_columns d -> 0 <= y < text_rows d ->
  (forall j i, color j i = cell_color (font d) v j i) -> (forall j i, 0 <= color j i < 2 ^ 32) ->
  screen_shows (draw (draw_cell (fb d) (u32 (x * w)) (u32 (y * h)) w h color) d) (t_set x y v g) s.
Proof using Hd.
  intros [Hg Hs] Hx Hy Hv Hc. pose proof screen_small. pose proof (tr_font_w d Hd). pose proof (tr_font_h d Hd).
  destruct columns_spec as (Hcol & _), rows_spec as (Hrow & _).
  assert ((x + 1) * w <= whole_columns d * w) by nia. assert ((y + 1) * h <= text_rows d * h) by nia.
  rewrite !u32_small by nia.
  assert (Hp : forall x' y', on_screen (fb d) x' y' -> pixel (fb d) (draw_cell (fb d) (x * w) (y * h) w h color (vram d)) x' y' =
    if (x * w <=? x') && (x' <? x * w + w) && (y * h <=? y') && (y' <? y * h + h) then color (y' - y * h) (x' - x * w)
    else pixel (fb d) (vram d) x' y').
  { intros. apply draw_cell_pixel; try done; try lia; [apply (tr_fb d Hd)|nia..]. }
  split.
  - intros x' y' v' Hx' Hy' Hg'. intros i j Hi Hj. cbn in *. destruct (cell_on_screen x' y' i j) as [Ho _]; [done..|].
    rewrite Hp by done. unfold t_set in Hg'. destruct (Z.eqb_spec x' x) as [->|Hnx]; cbn [andb] in Hg'.
    + destruct (Z.eqb_spec y' y) as [->|Hny].
      * injection Hg' as <-. rewrite (in_range (x * w) (x * w + w)), <- andb_assoc, in_range by lia. cbn [andb].
        rewrite Hv. f_equal; lia.
      * rewrite (Hg _ _ _ Hx' Hy' Hg' i j Hi Hj).
        destruct (Z.leb_spec (y * h) (y' * h + j)), (Z.ltb_spec (y' * h + j) (y * h + h)); rewrite ?andb_false_r; try done. nia.
    + rewrite (Hg _ _ _ Hx' Hy' Hg' i j Hi Hj).
      destruct (Z.leb_spec (x * w) (x' * w + i)), (Z.ltb_spec (x' * w + i) (x * w + w)); cbn [andb]; try done. nia.
  - intros c x' y' Hsc Hx' Hy'. cbn in *. change (text_rows _) with (text_rows d) in Hy'. rewrite Hp by (unfold on_screen; nia). rewrite (Hs c x' y' Hsc Hx' Hy').
    destruct (Z.ltb_spec y' (y * h + h)); [|by rewrite andb_false_r].
    exfalso. nia.
Qed.

Lemma clear_shows : screen_shows (tr_clear d) (fun _ _ => Some (Blank (bg_color (tr d)))) (Some (bg_color (tr d))).
Proof using Hd.
  pose proof (tr_fb d Hd). pose proof (tr_bg d Hd). split.
  - intros x y v Hx Hy [= <-] i j Hi Hj. cbn in *. apply fb_clear_pixel; [done..|].
    by destruct (cell_on_screen x y i j) as [Ho _].
  - intros c x y [= <-] Hx Hy. cbn in *. destruct rows_spec as (_ & _ & ? & _). change (text_rows _) with (text_rows d) in Hy.
    pose proof (tr_font_h d Hd). apply fb_clear_pixel; [done..|]. unfold on_screen. nia.
Qed.

Lemma scroll_shows t d' : fb d' = fb d -> vram d' = vram d -> font d' = font d -> tbg t = bg_color (tr d) ->
  screen_shows d (grid t) (strip t) ->
  screen_shows (draw (fb_scroll (fb d) h (bg_color (tr d))) d') (t_scroll (text_rows d) t) (Some (tbg t)).
Proof using Hd.
  intros Ef Ev En Eb [Hg Hs]. pose proof (tr_fb d Hd) as Hf. pose proof (tr_bg d Hd). pose proof (tr_font_h d Hd) as Hh.
  pose proof (tr_rows d Hd). destruct rows_spec as (Hrow & Hrow2 & Hrow3 & _).
  assert (Hp : forall x y, on_screen (fb d) x y -> pixel (fb d) (fb_scroll (fb d) h (bg_color (tr d)) (vram d)) x y =
    if y + h <? HH then pixel (fb d) (vram d) x (y + h) else bg_color (tr d)).
  { intros. apply fb_scroll_pixel; try done; [apply (tr_bytes d Hd)|lia]. }
  split; unfold shows, whole_columns, text_rows; cbn; rewrite Ef, Ev, En; fold (whole_columns d) (text_rows d).
  - intros x y v Hx Hy Hgv i j Hi Hj. destruct (cell_on_screen x y i j) as [Ho _]; [done..|]. rewrite Hp by done.
    unfold t_scroll in Hgv. destruct (Z.ltb_spec (y + 1) (text_rows d)) as [Hlt|Hge].
    + destruct (cell_on_screen x (y + 1) i j) as [[_ Ho2] _]; [lia..|].
      replace (y * h + j + h) with ((y + 1) * h + j) by lia. destruct (Z.ltb_spec ((y + 1) * h + j) HH); [|lia].
      apply (Hg x (y + 1) v); [done|lia|done|done|done].
    + destruct (bool_decide_reflect (strip t = Some (tbg t))) as [Est|]; [|done]. injection Hgv as <-. cbn. rewrite Eb.
      replace y with (text_rows d - 1) by lia. destruct (Z.ltb_spec ((text_rows d - 1) * h + j + h) HH); [|done].
      rewrite <- Eb. apply (Hs (tbg t)); [done| |lia]. destruct Ho. lia.
  - intros c x y [= <-] Hx Hy. rewrite Hp by (unfold on_screen; nia). destruct (Z.ltb_spec (y + h) HH); [lia|done].
Qed.
End steps.

(** ** The renderer implements the grid *)

(** One step from [d] to [d'], which shows [t']. *)
Record implements (d d' : display) (t' : term) : Prop := {
  im_fb : fb d' = fb d;
  im_font : font d' = font d;
  im_ok : tr_ok d';
  im_renders : renders d' t'
}.

Lemma ok_after d d' : tr_ok d -> fb d' = fb d -> font d' = font d -> ram_bytes (vram d') -> started (tr d') = started (tr d) ->
  screen_width (tr d') = screen_width (tr d) -> screen_height (tr d') = screen_height (tr d) ->
  0 <= fg_color (tr d') < 2 ^ 32 -> 0 <= bg_color (tr d') < 2 ^ 32 -> tr_ok d'.
Proof. intros [] Ef En ? E1 E2 E3 ? ?. split; rewrite ?Ef, ?En; try done; congruence. Qed.

(** The contents of the screen do not depend on the cursor and the colours. *)
Lemma shows_ext d d' g s : fb d' = fb d -> font d' = font d -> vram d' = vram d -> screen_shows d g s -> screen_shows d' g s.
Proof.
  intros Ef En Ev [Hg Hs]. split; unfold shows, whole_columns, text_rows; rewrite Ef, En, Ev; [apply Hg|apply Hs].
Qed.

Section refine.
Context (d : display) (t : term) (Hd : tr_ok d) (Hr : renders d t).

Lemma set_cursor_implements x y :
  0 <= x < whole_columns d -> 0 <= y < text_rows d ->
  implements d (set_cursor x y d) (mkTerm x y (tfg t) (tbg t) (grid t) (strip t)).
Proof using Hd Hr.
  intros Hx Hy. split; try done; [by apply (ok_after d); destruct Hd|]. destruct Hr. split; try done.
  cbn. by apply (shows_ext d).
Qed.

Lemma newline_implements x : x <= whole_columns d ->
  implements d (newline (set_cursor x (cursor_y (tr d)) d)) (t_newline (text_rows d) t).
Proof using Hd Hr.
  intros Hx. pose proof (screen_small d Hd). pose proof (tr_font_h d Hd). destruct (rows_spec d Hd) as (Hrow & Hrow2 & Hrow3 & Hk).
  destruct (columns_spec d Hd) as (_ & _ & Hcols & _). destruct Hr as [Ex Ey Efg Ebg Hcx Hcy Hs]. unfold newline, t_newline. cbn [tr cursor_y set_cursor font fb screen_height bg_color].
  rewrite Ey, (tr_height d Hd), Hk by lia. assert ((ty t + 1) * height (font d) <= text_rows d * height (font d)) by nia.
  rewrite (u32_small (ty t + 1)), (u32_small (ty t + 1 + 1)) by lia. rewrite u32_small by nia.
  replace ((ty t + 1 + 1) * height (font d)) with ((ty t + 1 + 1) * height (font d)) by done.
  destruct (Z.leb_spec (fb_height (fb d)) ((ty t + 1 + 1) * height (font d))).
  - rewrite u32_small by lia. replace (ty t + 1 - 1) with (ty t) by lia. split; try done.
    + apply (ok_after d); try done; [apply scroll_bytes|..]; by destruct Hd.
    + split; try done; cbn; [change (whole_columns _) with (whole_columns d); lia|].
      apply (scroll_shows d Hd); done.
  - split; try done; [by apply (ok_after d); destruct Hd|]. split; try done; cbn.
    + change (whole_columns _) with (whole_columns d). lia.
    + change (text_rows _) with (text_rows d). assert ((text_rows d <=? ty t + 1) = false) as E by (rewrite Hk by lia; apply Z.leb_gt; lia).
      apply Z.leb_gt in E. lia.
    + by apply (shows_ext d).
Qed.

(** A cell drawn at the place [x, y] of the grid, the cursor left where it is. *)
Lemma draw_implements x y v color :
  0 <= x < whole_columns d -> 0 <= y < text_rows d ->
  (forall j i, color j i = cell_color (font d) v j i) -> (forall j i, 0 <= color j i < 2 ^ 32) ->
  implements d (draw (draw_cell (fb d) (u32 (x * width (font d))) (u32 (y * height (font d))) (width (font d)) (height (font d)) color) d)
    (mkTerm (tx t) (ty t) (tfg t) (tbg t) (t_set x y v (grid t)) (strip t)).
Proof using Hd Hr.
  intros Hx Hy Hv Hc. split; try done.
  - apply (ok_after d); try done; [apply draw_cell_bytes|..]; by destruct Hd.
  - destruct Hr. split; try done. by apply (draw_shows d Hd).
Qed.

Lemma backspace_implements : exists d', tr_backspace d = Some d' /\ implements d d' (t_backspace (whole_columns d) t).
Proof using Hd Hr.
  pose proof (screen_small d Hd). pose proof (tr_font_w d Hd) as Hw. destruct (columns_spec d Hd) as (Hcol & _ & Hcols & _).
  pose proof Hr as [Ex Ey Efg Ebg Hcx Hcy Hs]. unfold tr_backspace, t_backspace. rewrite (tr_started d Hd), Ex, Ey. cbn [negb].
  destruct ((tx t =? 0) && (ty t =? 0)) eqn:E0; [exists d; split; [done|]; by split|].
  assert (Hgo : forall x y, 0 <= x < whole_columns d -> 0 <= y < text_rows d -> implements d
    (draw (draw_cell (fb d) (u32 (x * width (font d))) (u32 (y * height (font d))) (width (font d)) (height (font d)) (fun _ _ => bg_color (tr d)))
      (set_cursor x y d)) (mkTerm x y (tfg t) (tbg t) (t_set x y (Blank (tbg t)) (grid t)) (strip t))).
  { intros x y Hx Hy. rewrite <- Ebg. destruct (set_cursor_implements x y Hx Hy) as [_ _ Hok Hrn]. split; try done.
    - apply (ok_after d); try done; [apply draw_cell_bytes|..]; by destruct Hd.
    - split; try done. cbn [grid strip]. apply (shows_ext (draw (draw_cell (fb d) (u32 (x * width (font d))) (u32 (y * height (font d)))
        (width (font d)) (height (font d)) (fun _ _ => bg_color (tr d))) d)); try done.
      apply (draw_shows d Hd); try done. intros. apply (tr_bg d Hd). }
  destruct (Z.eqb_spec (tx t) 0) as [Htx|Htx].
  - destruct (Z.eqb_spec (width (font d)) 0); [lia|]. eexists. split; [done|]. cbn [tr set_cursor cursor_x cursor_y].
    rewrite (tr_width d Hd). fold (whole_columns d). assert (whole_columns d <= fb_width (fb d)) by nia.
    rewrite (u32_small (whole_columns d - 1)) by lia. cbn [andb] in E0. apply Z.eqb_neq in E0.
    pose proof (rows_spec d Hd) as (Hrow & _). pose proof (tr_font_h d Hd). rewrite (u32_small (ty t - 1)) by nia. apply Hgo; lia.
  - eexists. split; [done|]. cbn [tr set_cursor cursor_x cursor_y]. rewrite (u32_small (tx t - 1)) by nia. apply Hgo; lia.
Qed.

Lemma clear_implements : implements d (tr_clear d) (t_clear t).
Proof using Hd Hr.
  pose proof Hr as [Ex Ey Efg Ebg Hcx Hcy Hs]. split; try done.
  - apply (ok_after d); try done; [apply clear_bytes|..]; by destruct Hd.
  - split; try done; [change (0 <= 0 < whole_columns d); lia|change (0 <= 0 < text_rows d); lia|].
    cbn [grid strip t_clear]. rewrite <- Ebg. by apply clear_shows.
Qed.

Lemma set_color_implements fg bg : 0 <= fg < 2 ^ 32 -> 0 <= bg < 2 ^ 32 ->
  implements d (tr_set_color fg bg d) (t_set_color fg bg t).
Proof using Hd Hr.
  intros. split; try done; [apply (ok_after d); try done; by destruct Hd|]. destruct Hr. split; try done. by apply (shows_ext d).
Qed.
End refine.

Lemma implements_trans d d1 d2 t : implements d d1 t -> forall t2, implements d1 d2 t2 -> implements d d2 t2.
Proof. intros [E1 E2 _ _] t2 [E3 E4 ? ?]. split; [congruence..|done|done]. Qed.

Lemma putc_implements d t c : tr_ok d -> renders d t -> implements d (tr_putc c d) (t_putc (columns d) (text_rows d) c t).
Proof.
  intros Hd Hr. pose proof (screen_small d Hd). pose proof (tr_font_w d Hd) as Hw.
  destruct (columns_spec d Hd) as (Hcol & _ & Hcols & Hk). pose proof Hr as [Ex Ey Efg Ebg Hcx Hcy Hs].
  unfold tr_putc, t_putc. rewrite (tr_started d Hd). cbn [negb]. destruct (c =? 10) eqn:E10.
  { pose proof (newline_implements d t Hd Hr (tx t) ltac:(lia)) as H1. by rewrite <- Ex in H1. }
  destruct (c =? 13) eqn:E13; [rewrite Ey; apply set_cursor_implements; try done; lia|].
  assert (implements d (draw_char (u32 (cursor_x (tr d) * width (font d))) (u32 (cursor_y (tr d) * height (font d))) c d)
    (mkTerm (tx t) (ty t) (tfg t) (tbg t) (t_set (tx t) (ty t) (Glyph c (tfg t) (tbg t)) (grid t)) (strip t))) as H1.
  { rewrite Ex, Ey. apply draw_implements; try done; [by rewrite <- Efg, <- Ebg|].
    intros j i. unfold glyph_color. pose proof (tr_fg d Hd). pose proof (tr_bg d Hd). by case_match. }
  set (d1 := draw_char _ _ _ _) in *. destruct H1 as [Efb Efont Hok1 Hr1].
  assert (Etr : tr d1 = tr d) by done. cbn [tr set_cursor cursor_x cursor_y screen_width font]. rewrite Ex, Ey.
  assert (0 <= whole_columns d < 2 ^ 30) by nia. rewrite (u32_small (tx t + 1)), (u32_small (tx t + 1 + 1)) by lia.
  rewrite Etr, (tr_width d Hd), Efont, u32_small, Hk by nia. destruct (Z.leb_spec (fb_width (fb d)) ((tx t + 1 + 1) * width (font d))) as [Hge|Hlt].
  - apply (implements_trans d d1 _ _ ltac:(split; done)).
    pose proof (newline_implements d1 _ Hok1 Hr1 (tx t + 1)) as Hn. rewrite Etr, Ey in Hn.
    unfold whole_columns, text_rows in Hn |- *. rewrite Efb, Efont in Hn. apply Hn. fold (whole_columns d). lia.
  - apply (implements_trans d d1 _ _ ltac:(split; done)).
    apply (set_cursor_implements d1 _ Hok1 Hr1 (tx t + 1) (ty t)); unfold whole_columns, text_rows; rewrite Efb, Efont;
      fold (whole_columns d) (text_rows d); [|lia].
    assert ((columns d <=? tx t + 1) = false) as E by (rewrite Hk by lia; apply Z.leb_gt; lia). apply Z.leb_gt in E. lia.
Qed.

(** C29: whatever characters are written and erased, the pixels on the screen are
    those of the grid the same operations produce: every character stands in
    its cell in the colours it was written in, lines break and scroll, and the
    cursor stays on the screen. *)
Theorem screen_shows_text os d t :
  tr_ok d -> renders d t -> Forall op_ok os ->
  exists d', do_ops os d = Some d' /\ tr_ok d' /\
    renders d' (fold_left (fun t o => t_op (columns d) (whole_columns d) (text_rows d) o t) os t).
Proof.
  intros Hd Hr Hos. revert d t Hd Hr. induction Hos as [|o os Ho _ IH]; intros d t Hd Hr; [by exists d|]. cbn [do_ops fold_left].
  assert (exists d1, do_op o d = Some d1 /\ implements d d1 (t_op (columns d) (whole_columns d) (text_rows d) o t)) as (d1 & -> & [Efb Efont Hok1 Hr1]).
  { destruct o; cbn [do_op t_op].
    - eexists. split; [done|]. by apply putc_implements.
    - by apply backspace_implements.
    - eexists. split; [done|]. by apply clear_implements.
    - eexists. split; [done|]. destruct Ho. by apply set_color_implements. }
  destruct (IH d1 _ Hok1 Hr1) as (d' & Hrun & Hok' & Hr'). exists d'. split_and!; [done|done|].
  unfold columns, whole_columns, text_rows in Hr' |- *. by rewrite Efb, Efont in Hr'.
Qed.

(** A screen of three by three cells, the last row and column out of use. *)
Definition demo_fb : fbinfo := mkFb 0x1000 0x1000 24 24 96 32 2304.
Definition demo_display : display :=
  mkDisplay demo_fb (fun _ => 0) (mkFont 8 8 128 (fun i => i mod 256)) (mkTr 0 0 0xFFFFFF 0 24 24 true).
Definition demo_term : term := mkTerm 0 0 0xFFFFFF 0 (fun _ _ => None) None.
Lemma demo_display_ok : tr_ok demo_display.
Proof. split; try (by split); try (intros a; cbn; lia); cbn; lia. Qed.
Lemma demo_renders : renders demo_display demo_term.
Proof. split; cbn; try done. Qed.
Lemma screen_shows_text_witness :
  exists d', do_ops [Putc 72; Putc 10; Backspace; SetColor 0xAA0000 0; Putc 105; Clear] demo_display = Some d' /\ tr_ok d' /\
    renders d' (fold_left (fun t o => t_op 2 3 2 o t) [Putc 72; Putc 10; Backspace; SetColor 0xAA0000 0; Putc 105; Clear] demo_term).
Proof.
  apply (screen_shows_text _ demo_display demo_term); [apply demo_display_ok|apply demo_renders|].
  repeat constructor; cbn; lia.
Defined.
