(* ===== verification/FontLoader.v ===== *)
(** * Fonts from a boot module (src/kernel/fb/font/fontloader.c)

    [font_load] reads a font in BDF format.  The module is the memory at
    [buf 0], ..., [buf (size - 1)]; the code also looks at the bytes behind it,
    so [buf] is defined everywhere.  [None] is a run that does not end within
    [fuel] steps or that uses a number it never read.

    The theorem at the end bounds the glyph rows of a font that was accepted. *)

From S2P Require Import Prelude PhysMem CString Pmm Vmm Display Stdio.
From stdpp Require Import strings.
#[local] Open Scope Z_scope.

(** The font the kernel is built with: 128 glyphs of 8 bytes. *)
Definition default_font (std_font : Z -> Z) : font_t := mkFont 8 8 128 std_font.

Section load.
Context (buf : Z -> Z) (size : Z).

Definition is_digit (c : Z) : bool := (48 <=? c) && (c <=? 57).
Fixpoint skip_while (fuel : nat) (p : Z -> bool) (i : Z) : option Z :=
  match fuel with
  | O => None
  | S fuel' => if p (buf i) then skip_while fuel' p (i + 1) else Some i
  end.
Fixpoint digits (fuel : nat) (i val : Z) : option (Z * Z) :=
  match fuel with
  | O => None
  | S fuel' => if is_digit (buf i) then digits fuel' (i + 1) (int32 (int32 (val * 10) + (buf i - 48))) else Some (i, val)
  end.
Definition blank (c : Z) : bool := (c =? 32) || (c =? 9).
Definition space (c : Z) : bool := c =? 32.
(** The place after the number, and the number; without digits the place stays
    and the variable keeps its value. *)
Definition parse_int (fuel : nat) (str : Z) : option (Z * option Z) :=
  i ← skip_while fuel blank str;
  let '(sign, i) := if buf i =? 45 then (-1, i + 1) else if buf i =? 43 then (1, i + 1) else (1, i) in
  if negb (is_digit (buf i)) then Some (str, None)
  else '(i, val) ← digits fuel i 0; Some (i, Some (int32 (val * sign))).

Definition hex_digit (c : Z) : Z :=
  if is_digit c then c - 48
  else if (65 <=? c) && (c <=? 70) then c - 65 + 10
  else if (97 <=? c) && (c <=? 102) then c - 97 + 10
  else -1.
Definition parse_hex_byte (str : Z) : Z :=
  let high := hex_digit (buf str) in
  let low := hex_digit (buf (str + 1)) in
  if (high <? 0) || (low <? 0) then 0 else u8 (Z.lor (Z.shiftl high 4) low).

Fixpoint starts_with (line : Z) (prefix : list Z) : bool :=
  match prefix with [] => true | c :: prefix' => (buf line =? c) && starts_with (line + 1) prefix' end.

Fixpoint to_newline (fuel : nat) (ptr : Z) : option Z :=
  match fuel with
  | O => None
  | S fuel' => if (ptr <? size) && negb (buf ptr =? 10) then to_newline fuel' (ptr + 1) else Some ptr
  end.
Definition next_line (fuel : nat) (ptr : Z) : option Z :=
  ptr ← to_newline fuel ptr; Some (if (ptr <? size) && (buf ptr =? 10) then ptr + 1 else ptr).

(** What has been read so far; [font_buffer] has 256 glyphs of 16 rows. *)
Record bdf := mkBdf {
  font_width : Z; font_height : Z; font_ascent : Z; font_descent : Z; default_char : Z; font_buffer : Z -> Z; glyph_count : Z
}.
Definition set_size (w h : Z) (b : bdf) : bdf :=
  mkBdf w h (font_ascent b) (font_descent b) (default_char b) (font_buffer b) (glyph_count b).
Definition set_glyphs (data : Z -> Z) (count : Z) (b : bdf) : bdf :=
  mkBdf (font_width b) (font_height b) (font_ascent b) (font_descent b) (default_char b) data count.

(** A field of the header: the keyword is skipped, then the number read. *)
Definition number_field (fuel : nat) (ptr len : Z) : option (Z * option Z) :=
  p ← skip_while fuel space (ptr + len); parse_int fuel p.

(** [FONTBOUNDINGBOX]: four numbers; the first two must be there. *)
Definition bounding_box (fuel : nat) (ptr : Z) (b : bdf) : option (Z * bdf) :=
  '(p1, w) ← number_field fuel ptr 15;
  '(p2, h) ← number_field fuel p1 0;
  '(p3, _) ← number_field fuel p2 0;
  '(p4, _) ← number_field fuel p3 0;
  w ← w; h ← h; Some (p4, set_size w h b).

(** The rows of a glyph. *)
Fixpoint glyph_rows (fuel : nat) (encoding row ptr : Z) (height : Z) (data : Z -> Z) : option (Z * (Z -> Z)) :=
  match fuel with
  | O => None
  | S fuel' =>
      if (ptr <? size) && negb (starts_with ptr (text "ENDCHAR")) && (row <? 16) then
        ptr ← skip_while fuel blank ptr;
        let '(row', data') :=
          if 0 <=? hex_digit (buf ptr) then
            (row + 1, if row <? height then store8 data (encoding * 16 + row) (parse_hex_byte ptr) else data)
          else (row, data) in
        ptr ← next_line fuel ptr;
        glyph_rows fuel' encoding row' ptr height data'
      else Some (ptr, data)
  end.

Fixpoint skip_to_bitmap (fuel : nat) (ptr : Z) : option Z :=
  match fuel with
  | O => None
  | S fuel' =>
      if (ptr <? size) && negb (starts_with ptr (text "BITMAP")) then
        ptr ← next_line fuel ptr; skip_to_bitmap fuel' ptr
      else Some ptr
  end.

(** A glyph; the flag is true when the line after it is to be skipped, false
    after [continue]; no place means that the end was reached. *)
Definition start_char (fuel : nat) (ptr : Z) (b : bdf) : option (option (Z * bool) * bdf) :=
  ptr ← next_line fuel ptr;
  if negb (starts_with ptr (text "ENCODING")) then ptr ← next_line fuel ptr; Some (Some (ptr, false), b)
  else
    '(ptr, encoding) ← number_field fuel ptr 8;
    encoding ← encoding;
    ptr ← next_line fuel ptr;
    ptr ← skip_to_bitmap fuel ptr;
    if size <=? ptr then Some (None, b)
    else
      ptr ← next_line fuel ptr;
      if (0 <=? encoding) && (encoding <? 256) then
        '(ptr, data) ← glyph_rows fuel encoding 0 ptr (font_height b) (font_buffer b);
        Some (Some (ptr, true), set_glyphs data (if glyph_count b <=? encoding then encoding + 1 else glyph_count b) b)
      else Some (Some (ptr, true), b).

(** One line of the file. *)
Definition bdf_line (fuel : nat) (ptr : Z) (b : bdf) : option (option (Z * bool) * bdf) :=
  let field len set :=
    '(p, v) ← number_field fuel ptr len; Some (Some (p, true), match v with Some v => set v | None => b end) in
  if starts_with ptr (text "FONTBOUNDINGBOX") then
    '(p, b') ← bounding_box fuel ptr b; Some (Some (p, true), b')
  else if starts_with ptr (text "FONT_ASCENT") then
    field 11 (fun v => mkBdf (font_width b) (font_height b) v (font_descent b) (default_char b) (font_buffer b) (glyph_count b))
  else if starts_with ptr (text "FONT_DESCENT") then
    field 12 (fun v => mkBdf (font_width b) (font_height b) (font_ascent b) v (default_char b) (font_buffer b) (glyph_count b))
  else if starts_with ptr (text "DEFAULT_CHAR") then
    field 12 (fun v => mkBdf (font_width b) (font_height b) (font_ascent b) (font_descent b) v (font_buffer b) (glyph_count b))
  else if starts_with ptr (text "STARTCHAR") then start_char fuel ptr b
  else Some (Some (ptr, true), b).

Fixpoint skip_blanks_to (fuel : nat) (ptr : Z) : option Z :=
  match fuel with
  | O => None
  | S fuel' => if (ptr <? size) && blank (buf ptr) then skip_blanks_to fuel' (ptr + 1) else Some ptr
  end.
Fixpoint bdf_loop (fuel : nat) (ptr : Z) (b : bdf) : option bdf :=
  match fuel with
  | O => None
  | S fuel' =>
      if ptr <? size then
        ptr ← skip_blanks_to fuel ptr;
        '(r, b') ← bdf_line fuel ptr b;
        match r with
        | None => Some b'
        | Some (p, false) => bdf_loop fuel' p b'
        | Some (p, true) => p ← next_line fuel p; bdf_loop fuel' p b'
        end
      else Some b
  end.
End load.

Definition empty_bdf : bdf := mkBdf 0 0 0 0 (-1) (fun _ => 0) 0.

(** [module]: what [limine_get_module] finds, the contents and the size. *)
Definition font_load (fuel : nat) (module : option ((Z -> Z) * Z)) (current_font : font_t) : option (font_t * bool) :=
  match module with
  | None => Some (current_font, false)
  | Some (buf, size) =>
      if negb (starts_with buf 0 (text "STARTFONT")) then Some (current_font, false)
      else
        b ← bdf_loop buf size fuel 0 empty_bdf;
        if (font_width b =? 0) || (font_height b =? 0) then Some (current_font, false)
        else if 16 <? font_height b then Some (current_font, false)
        else if glyph_count b =? 0 then Some (current_font, false)
        else Some (mkFont (u8 (font_width b)) (u8 (font_height b)) (u16 (glyph_count b)) (font_buffer b), true)
  end.

(** ** The rows of the glyphs *)

Definition bdf_ok (b : bdf) : Prop := 0 <= glyph_count b <= 256.

Lemma bounding_box_ok buf fuel ptr b p b' : bounding_box buf fuel ptr b = Some (p, b') -> bdf_ok b -> bdf_ok b'.
Proof.
  unfold bounding_box. intros H Hb. repeat (simplify_option_eq; case_match); simplify_option_eq; done.
Qed.

Lemma start_char_ok buf size fuel ptr b r b' : start_char buf size fuel ptr b = Some (r, b') -> bdf_ok b -> bdf_ok b'.
Proof.
  unfold start_char, bdf_ok. intros H Hb. repeat (simplify_option_eq; case_match); simplify_option_eq; cbn; try done.
  all: repeat match goal with E : (_ && _) = true |- _ => apply andb_true_iff in E as [? ?] end; try case_match; lia.
Qed.

Lemma bdf_line_ok buf size fuel ptr b r b' : bdf_line buf size fuel ptr b = Some (r, b') -> bdf_ok b -> bdf_ok b'.
Proof.
  unfold bdf_line. intros H Hb. repeat case_match; simplify_option_eq; eauto using start_char_ok, bounding_box_ok.
  all: repeat (case_match; simplify_option_eq); eauto using bounding_box_ok.
Qed.

Lemma bdf_loop_ok buf size fuel : forall ptr b b', bdf_loop buf size fuel ptr b = Some b' -> bdf_ok b -> bdf_ok b'.
Proof.
  induction fuel as [|fuel IH]; intros ptr b b' H Hb; [done|]. cbn [bdf_loop] in H.
  destruct (ptr <? size); [|by injection H as <-].
  destruct (skip_blanks_to _ _ _ _) as [p|]; [|done]. cbn [mbind option_bind] in H.
  destruct (bdf_line _ _ _ p b) as [[r b1]|] eqn:El; [|done]. cbn in H. apply bdf_line_ok in El; [|done].
  destruct r as [[q [|]]|]; [|by eauto|by injection H as <-].
  destruct (next_line buf size (S fuel) q) as [q'|] eqn:En; [|by unfold next_line in En; cbn in En; rewrite En in H].
  unfold next_line in En. cbn in En, H. rewrite En in H. by eauto.
Qed.

(** Every row the text renderer reads of a font that was loaded, and is at most
    16 rows high, lies in the buffer of 4096 bytes. *)
Lemma loaded_rows_in_buffer fuel module old fn c j :
  font_load fuel module old = Some (fn, true) -> height fn <= 16 -> 0 <= c < 256 -> 0 <= j < height fn ->
  0 <= font_get_glyph fn c + j < 256 * 16.
Proof.
  unfold font_load. intros H Hh Hc Hj. destruct module as [[buf size]|]; [|done]. destruct (negb _); [done|].
  destruct (bdf_loop _ _ _ _ _) as [b|] eqn:E; [|done]. cbn [mbind option_bind] in H. apply bdf_loop_ok in E; [|by split].
  repeat case_match; simplify_eq. unfold font_get_glyph. cbn in *. unfold u16. unfold bdf_ok in E. rewrite Z.mod_small by lia.
  destruct (Z.leb_spec (glyph_count b) c); [destruct (Z.leb_spec (glyph_count b) 63)|]; lia.
Qed.

(** A font of height -5 is accepted as one of 251 rows. *)
Definition negative_font : list Z :=
  text "STARTFONT 2.1" ++ [10] ++ text "FONTBOUNDINGBOX 8 -5 0 0" ++ [10] ++ text "STARTCHAR A" ++ [10] ++
  text "ENCODING 65" ++ [10] ++ text "BITMAP" ++ [10] ++ text "3C" ++ [10] ++ text "ENDCHAR" ++ [10].
Lemma negative_height_accepted old :
  (fun r => (height r.1, num_glyphs r.1, r.2)) <$>
    font_load 40 (Some (aget 0 negative_font, Z.of_nat (length negative_font))) old = Some (251, 66, true).
Proof. vm_compute. done. Qed.

(** The default font is stored in 8 bytes a glyph and read in steps of 16: a
    character shows the glyph of twice its code, and from [@] on what lies
    behind the table. *)
Lemma default_font_overrun std_font c : 64 <= c < 128 -> 128 * 8 <= font_get_glyph (default_font std_font) c.
Proof. intros Hc. unfold font_get_glyph. cbn. destruct (Z.leb_spec 128 c); lia. Qed.
