(* ===== verification/AddressSpace.v ===== *)
(** * Life of an address space (src/kernel/mem/vmm.c)

    What [vmm_create_address_space] and [vmm_destroy_address_space] of Vmm.v
    do, and the properties of the virtual memory manager. *)

From S2P Require Import Prelude PhysMem Pmm Vmm.

(** The user half of a PML4. *)
Definition user_half (i : Z) : Prop := 0 <= i < 256.

Section spaces.
Context `{BootInfo} (kernel_space : address_space).

(** ** Releasing pages

    [frees S m m']: memory is unchanged and of the pages in use exactly those
    satisfying [S] were released. *)
Record frees (S : Z -> Prop) (m m' : machine) : Prop := {
  fr_mem : mem m' = mem m;
  fr_total : total_pages (pmm m') = total_pages (pmm m);
  fr_wf : pmm_wf (pmm m');
  fr_used : forall i, page_used (pmm m') i <-> page_used (pmm m) i /\ ~ S i
}.

Lemma frees_refl m : pmm_wf (pmm m) -> frees (fun _ => False) m m.
Proof. intros Hm. split; [done..|]. intros i. tauto. Qed.

Lemma frees_trans (S1 S2 : Z -> Prop) m1 m2 m3 :
  frees S1 m1 m2 -> frees S2 m2 m3 -> frees (fun i => S1 i \/ S2 i) m1 m3.
Proof.
  intros [M1 T1 W1 U1] [M2 T2 W2 U2]. split; [congruence|congruence|done|].
  intros i. rewrite U2, U1. tauto.
Qed.

Lemma frees_iff (S1 S2 : Z -> Prop) m m' :
  (forall i, S1 i <-> S2 i) -> frees S1 m m' -> frees S2 m m'.
Proof. intros HS [M T W U]. split; [done..|]. intros i. by rewrite U, HS. Qed.

Lemma pmm_free_frees a m :
  pmm_wf (pmm m) -> 0 <= a < 2 ^ 64 -> a mod PAGE_SIZE = 0 ->
  frees (fun i => i <> 0 /\ a = i * PAGE_SIZE) m (pmm_free a m).
Proof.
  intros Hm Ha Hmod.
  assert (Hdiv : forall i, a = i * PAGE_SIZE <-> i = a / PAGE_SIZE)
    by (intros i; unfold PAGE_SIZE in *; zdiv_lia).
  assert (0 <= a / PAGE_SIZE) as Hpos by (apply Z.div_pos; [lia|done]).
  unfold pmm_free, pmm_free_p. destruct (Z.eqb_spec a 0) as [->|Hne].
  { split; [done..|]. intros i. simpl. unfold PAGE_SIZE. split; [|tauto].
    intros Hu. split; [done|]. intros [? ?]. lia. }
  destruct (Z.leb_spec (total_pages (pmm m)) (a / PAGE_SIZE)).
  { split; [done..|]. intros i. simpl. split; [|tauto]. intros Hu. split; [done|].
    intros [_ E]. apply Hdiv in E. destruct Hu as [Hr _]. lia. }
  destruct (bitmap_test (a / PAGE_SIZE) (pmm m)) eqn:Et; simpl.
  - destruct (release_wf (a / PAGE_SIZE) (pmm m) Hm) as (R1 & _ & R3); [split; [lia|done]|].
    split; [done|done|done|]. intros i. unfold page_used. rewrite R3, Hdiv.
    change (total_pages (used_decr _)) with (total_pages (pmm m)).
    destruct (Z.eqb_spec i (a / PAGE_SIZE)) as [->|Hi]; simpl; [|tauto].
    split; [intros [_ ?]; done|]. intros [_ Hn]. exfalso. apply Hn. split; [|done].
    intros E0. apply Hne. unfold PAGE_SIZE in *. zdiv_lia.
  - split; [done..|]. intros i. simpl. split; [|tauto]. intros Hu. split; [done|].
    intros [_ E]. apply Hdiv in E. subst i. destruct Hu. congruence.
Qed.

(** A loop each of whose steps releases a set of pages releases their union. *)
Lemma frees_for_range (f : Z -> machine -> machine) (S : Z -> Z -> Prop) (r : ram) n m :
  mem m = r -> pmm_wf (pmm m) ->
  (forall j m', 0 <= j < Z.of_nat n -> mem m' = r -> pmm_wf (pmm m') ->
     frees (S j) m' (f j m')) ->
  frees (fun i => exists j, 0 <= j < Z.of_nat n /\ S j i) m (for_range f 0 n m).
Proof.
  intros Hr Hm Hf.
  apply (for_range_ind (fun k m' => frees (fun i => exists j, 0 <= j < k /\ S j i) m m') f n 0 m).
  - apply (frees_iff (fun _ => False)); [|by apply frees_refl].
    intros i. split; [done|]. intros (j & Hj & _). lia.
  - intros j m' Hj Fr. pose proof (Hf j m' Hj ltac:(by rewrite (fr_mem _ _ _ Fr)) (fr_wf _ _ _ Fr)) as Fj.
    eapply frees_iff; [|exact (frees_trans _ _ _ _ _ Fr Fj)]. intros i. simpl. split.
    + intros [(k & Hk & HS)|HS]; [exists k; split; [lia|done]|exists j; split; [lia|done]].
    + intros (k & Hk & HS). destruct (decide (k = j)) as [->|]; [by right|].
      left. exists k. split; [lia|done].
Qed.

(** ** Destruction

    [m0] is the machine before; the loops only release pages, so the tables
    they read are those of [m0]. *)
Section destroy.
Context (root : Z) (m0 : machine).
Hypotheses (Hm0 : machine_wf m0) (Hs0 : space_wf user_half root m0).

Definition table_at (p : list Z) (f : Z) : Prop :=
  path_in user_half p /\ (length p <= 3)%nat /\ walk (mem m0) root p = Some f.

Lemma table_at_frame p f : table_at p f -> used_frame m0 f.
Proof. intros (Hp & Hl & Hw). by apply (sw_frame _ _ _ Hs0 p). Qed.

Lemma table_at_step p f i g :
  table_at p f -> (length p <= 2)%nat -> path_in user_half (p ++ [i]) ->
  step (mem m0) f i = Some g -> table_at (p ++ [i]) g.
Proof.
  intros (Hp & Hl & Hw) Hl' Hpi Hst. split; [done|]. split.
  - rewrite length_app. simpl. lia.
  - by rewrite walk_snoc, Hw.
Qed.

Lemma table_entry_at m p f i :
  mem m = mem m0 -> table_at p f -> idx_ok i ->
  table_entry (P2V f) i m = load64 (mem m0) (f + 8 * i).
Proof.
  intros Hm Ht Hi. transitivity (table_entry (P2V f) i m0).
  - unfold table_entry, kload64. by rewrite Hm.
  - apply table_entry_used; [done|by eapply table_at_frame|done].
Qed.

Lemma table_frame_free p f m :
  table_at p f -> pmm_wf (pmm m) ->
  frees (fun i => i <> 0 /\ f = i * PAGE_SIZE) m (pmm_free (V2P (P2V f)) m).
Proof.
  intros Ht Hm. pose proof (table_at_frame p f Ht) as Hf.
  destruct (used_frame_range m0 f Hm0 Hf) as (Hr & _ & Hmod & _).
  assert (0 <= f < 2 ^ 64) as Hr' by (unfold PAGE_SIZE in Hr; lia).
  unfold V2P, P2V. rewrite VIRT_PHYS_VIRT by done. by apply pmm_free_frees.
Qed.

(** The page numbers of the tables strictly below or at the entry [i] of the
    table reached by [p]. *)
Definition below (p : list Z) (k : nat) (i : Z) : Prop :=
  i <> 0 /\ exists q, (length q <= k)%nat /\ table_at (p ++ q) (i * PAGE_SIZE).

Lemma path_in_idx p i : path_in user_half (p ++ [i]) -> idx_ok i.
Proof. apply path_in_last. Qed.

Lemma below_absent p f i k j :
  table_at p f -> step (mem m0) f i = None -> ~ below (p ++ [i]) k j.
Proof.
  intros (_ & _ & Hw) Hst (_ & q & _ & _ & _ & Hq).
  by rewrite walk_app, walk_snoc, Hw, Hst in Hq.
Qed.

Lemma below_split p f k i :
  table_at p f ->
  below p (S k) i <-> (i <> 0 /\ f = i * PAGE_SIZE) \/ exists j, below (p ++ [j]) k i.
Proof.
  intros Ht. split.
  - intros (Hi & q & Hq & Htq). destruct q as [|j q].
    + left. split; [done|]. rewrite app_nil_r in Htq. destruct Ht as (_ & _ & Hw).
      destruct Htq as (_ & _ & Hw'). congruence.
    + right. exists j. split; [done|]. exists q. simpl in Hq. split; [lia|].
      by rewrite <- app_assoc.
  - intros [[Hi ->]|(j & Hi & q & Hq & Htq)].
    + split; [done|]. exists []. rewrite app_nil_r. split; [simpl; lia|done].
    + split; [done|]. exists (j :: q). rewrite <- app_assoc in Htq. split; [simpl; lia|done].
Qed.

Lemma below_leaf p f i : table_at p f -> below p 0 i <-> i <> 0 /\ f = i * PAGE_SIZE.
Proof.
  intros Ht. split.
  - intros (Hi & q & Hq & Htq). split; [done|]. destruct q; [|simpl in Hq; lia].
    rewrite app_nil_r in Htq. destruct Ht as (_ & _ & Hw), Htq as (_ & _ & Hw'). congruence.
  - intros [Hi ->]. split; [done|]. exists []. by rewrite app_nil_r.
Qed.

Lemma below_index p f k j i :
  table_at p f -> below (p ++ [j]) k i -> path_in user_half (p ++ [j]).
Proof.
  intros _ (_ & q & _ & Hp & _). by apply path_in_app in Hp.
Qed.

Lemma present_step f i g :
  step (mem m0) f i = g ->
  present (load64 (mem m0) (f + 8 * i)) = match g with Some _ => true | None => false end /\
  (forall a, g = Some a -> PTE_GET_ADDR (load64 (mem m0) (f + 8 * i)) = a).
Proof.
  unfold step. intros <-. destruct (present _); split; try done. by intros a [= <-].
Qed.

(** One present entry: release what is below the table it leads to, then
    the table. *)
Lemma release_table p f k n (body : Z -> machine -> machine) m :
  table_at p f -> mem m = mem m0 -> pmm_wf (pmm m) ->
  (forall j i, below (p ++ [j]) k i -> 0 <= j < Z.of_nat n) ->
  (forall j m', 0 <= j < Z.of_nat n -> mem m' = mem m0 -> pmm_wf (pmm m') ->
     frees (below (p ++ [j]) k) m' (body j m')) ->
  frees (below p (S k)) m (pmm_free (V2P (P2V f)) (for_range body 0 n m)).
Proof.
  intros Ht Hm Hwf Hidx Hbody.
  pose proof (frees_for_range body (fun j => below (p ++ [j]) k) (mem m0) n m Hm Hwf Hbody) as F1.
  pose proof (table_frame_free p f _ Ht (fr_wf _ _ _ F1)) as F2.
  eapply frees_iff; [|exact (frees_trans _ _ _ _ _ F1 F2)]. intros i. simpl.
  rewrite (below_split p f k i Ht). split.
  - intros [(j & Hj & Hb)|Hf]; [right; by exists j|by left].
  - intros [Hf|(j & Hb)]; [by right|left]. exists j. split; [by eapply Hidx|done].
Qed.

Lemma destroy_pd_frees p pd j m :
  table_at p pd -> length p = 2%nat -> idx_ok j -> mem m = mem m0 -> pmm_wf (pmm m) ->
  frees (below (p ++ [j]) 0) m (destroy_pd (P2V pd) j m).
Proof.
  intros Ht Hl Hj Hm Hwf. unfold destroy_pd. rewrite (table_entry_at m p pd j) by done.
  destruct (step (mem m0) pd j) as [g|] eqn:Est; destruct (present_step _ _ _ Est) as [-> Hg].
  - rewrite (Hg g eq_refl).
    assert (Htg : table_at (p ++ [j]) g).
    { apply (table_at_step p pd j g); [done|lia| |done].
      destruct Ht as ([Hf Hd] & _). split; [apply Forall_app; split; [done|by constructor]|].
      destruct p; [done|exact Hd]. }
    eapply frees_iff; [|by apply (table_frame_free (p ++ [j]))].
    intros i. by rewrite (below_leaf (p ++ [j]) g).
  - eapply frees_iff; [|by apply frees_refl]. intros i. split; [done|].
    by apply below_absent with pd.
Qed.

Lemma below_idx_ok p f k j i : table_at p f -> below (p ++ [j]) k i -> 0 <= j < 512.
Proof. intros Ht Hb. exact (path_in_idx p j (below_index _ _ _ _ _ Ht Hb)). Qed.

Lemma path_extend p f j : table_at p f -> p <> [] -> idx_ok j -> path_in user_half (p ++ [j]).
Proof.
  intros ([Hf Hd] & _) Hp Hj. split; [apply Forall_app; split; [done|by constructor]|].
  destruct p; [done|exact Hd].
Qed.

Lemma destroy_pdpt_frees p pdpt j m :
  table_at p pdpt -> length p = 1%nat -> idx_ok j -> mem m = mem m0 -> pmm_wf (pmm m) ->
  frees (below (p ++ [j]) 1) m (destroy_pdpt (P2V pdpt) j m).
Proof.
  intros Ht Hl Hj Hm Hwf. unfold destroy_pdpt. rewrite (table_entry_at m p pdpt j) by done.
  destruct (step (mem m0) pdpt j) as [g|] eqn:Est; destruct (present_step _ _ _ Est) as [-> Hg].
  - rewrite (Hg g eq_refl).
    assert (Htg : table_at (p ++ [j]) g).
    { apply (table_at_step p pdpt j g); [done|lia| |done].
      apply (path_extend p pdpt); [done| |done]. by destruct p. }
    apply release_table; try done.
    + intros l i Hb. by apply (below_idx_ok _ _ _ _ _ Htg) in Hb.
    + intros l m' Hlr Hm' Hwf'. apply destroy_pd_frees; try done.
      rewrite length_app, Hl. done.
  - eapply frees_iff; [|by apply frees_refl]. intros i. split; [done|].
    by apply below_absent with pdpt.
Qed.

Lemma destroy_pml4_frees j m :
  table_at [] root -> 0 <= j < 256 -> mem m = mem m0 -> pmm_wf (pmm m) ->
  frees (below [j] 2) m (destroy_pml4 (P2V root) j m).
Proof.
  intros Ht Hj Hm Hwf. unfold destroy_pml4.
  assert (Hi : idx_ok j) by (unfold idx_ok; lia).
  rewrite (table_entry_at m [] root j) by done.
  destruct (step (mem m0) root j) as [g|] eqn:Est; destruct (present_step _ _ _ Est) as [-> Hg].
  - rewrite (Hg g eq_refl).
    assert (Htg : table_at ([] ++ [j]) g).
    { apply (table_at_step [] root j g); [done|simpl; lia| |done].
      split; [by constructor|]. by intros i [= <-]. }
    apply release_table; try done.
    + intros l i Hb. by apply (below_idx_ok _ _ _ _ _ Htg) in Hb.
    + intros l m' Hlr Hm' Hwf'. by apply destroy_pdpt_frees.
  - eapply frees_iff; [|by apply frees_refl]. intros i. split; [done|].
    by apply (below_absent [] root j).
Qed.

(** The whole lower half. *)
Lemma destroy_tables_frees :
  table_at [] root ->
  frees (fun i => i <> 0 /\ is_table user_half root m0 (i * PAGE_SIZE) /\ i * PAGE_SIZE <> root)
    m0 (for_range (destroy_pml4 (P2V root)) 0 256 m0).
Proof.
  intros Ht. eapply frees_iff.
  2:{ apply (frees_for_range _ (fun j => below [j] 2) (mem m0)); [done|apply Hm0|].
      intros j m' Hj Hm' Hwf'. apply destroy_pml4_frees; [done|lia|done|done]. }
  intros i. simpl. split.
  - intros (j & Hj & Hi & q & Hq & Hp & Hl & Hw). split; [done|]. split; [by exists ([j] ++ q)|].
    intros E. destruct Ht as (Hp0 & Hl0 & Hw0). rewrite <- E in Hw0 at 2.
    by pose proof (sw_inj _ _ _ Hs0 _ _ _ Hp Hl Hp0 Hl0 Hw Hw0).
  - intros (Hi & (q & Hp & Hl & Hw) & Hne). destruct q as [|j q].
    + simpl in Hw. congruence.
    + exists j. split; [|split; [done|]].
      * destruct Hp as [_ Hd]. apply Hd. done.
      * exists q. simpl in Hl |- *. split; [lia|done].
Qed.
End destroy.

Lemma vmm_destroy_cases root k m :
  space_ok kernel_space user_half root (AS_AT (P2V (k * PAGE_SIZE))) m -> root <> 0 -> k <> 0 ->
  load64 (mem m) (k * PAGE_SIZE) = root ->
  page_used (pmm m) k ->
  let m' := vmm_destroy_address_space kernel_space (AS_AT (P2V (k * PAGE_SIZE))) m in
  mem m' = mem m /\ pmm_wf (pmm m') /\ total_pages (pmm m') = total_pages (pmm m) /\
  forall i, i <> 0 -> (page_used (pmm m') i <->
    page_used (pmm m) i /\ ~ is_table user_half root m (i * PAGE_SIZE) /\ i <> k).
Proof.
  intros [Hm Hs Hat] Hroot Hk Hpml4 Hku m'.
  assert (Hkf : used_frame m (k * PAGE_SIZE)) by by exists k.
  destruct (used_frame_range m _ Hm Hkf) as (Hkr & _ & Hkm & _).
  assert (Hkr' : 0 <= k * PAGE_SIZE < 2 ^ 64) by (unfold PAGE_SIZE in *; lia).
  assert (Ht : table_at root m [] root).
  { split; [split; [constructor|done]|]. split; [simpl; lia|done]. }
  destruct (used_frame_range m root Hm (table_at_frame root m Hs [] root Ht)) as (Hrr & _ & Hrm & _).
  assert (Hrr' : 0 <= root < 2 ^ 64) by (unfold PAGE_SIZE in *; lia).
  pose proof (destroy_tables_frees root m Hm Hs Ht) as F1.
  unfold m', vmm_destroy_address_space. rewrite (space_at_virt kernel_space user_half root _ m Hm Hat).
  clear m'. revert F1. generalize (for_range (destroy_pml4 (P2V root)) 0 256 m). intros m1 F1.
  assert (Hp4 : space_pml4 kernel_space (AS_AT (P2V (k * PAGE_SIZE))) m1 = root).
  { simpl. unfold kload64, V2P, P2V. rewrite VIRT_PHYS_VIRT by done. by rewrite (fr_mem _ _ _ F1). }
  rewrite Hp4.
  pose proof (pmm_free_frees root m1 (fr_wf _ _ _ F1) Hrr' Hrm) as F2.
  pose proof (frees_trans _ _ _ _ _ F1 F2) as F12.
  assert (Hv2p : V2P (P2V (k * PAGE_SIZE)) = k * PAGE_SIZE)
    by by apply VIRT_PHYS_VIRT.
  pose proof (pmm_free_frees (k * PAGE_SIZE) _ (fr_wf _ _ _ F2) Hkr' Hkm) as F3.
  pose proof (frees_trans _ _ _ _ _ F12 F3) as [Fm Ft Fw Fu].
  rewrite Hv2p. split_and!; [done|done|done|]. intros i Hi. rewrite Fu. simpl.
  assert (Hroot_tab : is_table user_half root m root) by by exists [].
  assert (k * PAGE_SIZE = i * PAGE_SIZE <-> i = k) as -> by (unfold PAGE_SIZE; lia).
  destruct (decide (i * PAGE_SIZE = root)) as [E|E].
  - rewrite E. split; [|tauto]. intros [Hu Hn]. exfalso. apply Hn. left. right. done.
  - split; [|intros (H1 & H2 & H3); split; [done|]; intros [[(?&?&?)|[_ E']]|[_ ?]]; done].
    intros [Hu Hn]. split; [done|]. split.
    + intros Ht'. apply Hn. left. left. done.
    + intros Ek. apply Hn. right. done.
Qed.

(** ** Creation *)

(** Memory writes that stay inside the pages [k] and [r]. *)
Definition within (k r : Z) (m m' : ram) : Prop :=
  forall a, ~ (k * PAGE_SIZE <= a < (k + 1) * PAGE_SIZE) ->
    ~ (r * PAGE_SIZE <= a < (r + 1) * PAGE_SIZE) -> m' a = m a.

(** Two pages taken one after the other, then written to. *)
Record two_taken (m m' : machine) (k r : Z) : Prop := {
  tt_k : page_free (pmm m) k;
  tt_r : page_free (pmm m) r;
  tt_ne : k <> r;
  tt_total : total_pages (pmm m') = total_pages (pmm m);
  tt_used : forall i, page_used (pmm m') i <-> page_used (pmm m) i \/ i = k \/ i = r;
  tt_wf : machine_wf m';
  tt_mem : within k r (mem m) (mem m')
}.

Lemma two_taken_intro m m1 m2 k r rm :
  machine_wf m -> taken m m1 k 1 -> taken m1 m2 r 1 -> ram_bytes rm ->
  within k r (mem m) rm -> two_taken m (mkMachine (pmm m2) rm) k r.
Proof.
  intros Hm T1 T2 Hb Hw. pose proof (taken_range _ _ _ _ T1) as R1. pose proof (taken_range _ _ _ _ T2) as R2.
  assert (Ht : total_pages (pmm m2) = total_pages (pmm m))
    by (rewrite (taken_total _ _ _ _ T2); apply T1).
  destruct (taken_free _ _ _ _ T1 k ltac:(lia)) as [Hk1 Hk2].
  destruct (taken_free _ _ _ _ T2 r ltac:(lia)) as [Hr1 Hr2].
  rewrite (taken_bits _ _ _ _ T1) in Hr2. apply orb_false_elim in Hr2 as [Hr2 Hr3].
  rewrite (taken_total _ _ _ _ T1) in Hr1.
  assert (k <> r) as Hne by (apply andb_false_iff in Hr2; rewrite Z.leb_gt, Z.ltb_ge in Hr2; lia).
  split; try done.
  - intros i. unfold page_used. simpl.
    rewrite Ht, (taken_bits _ _ _ _ T2), (taken_bits _ _ _ _ T1), !orb_true_iff, !andb_true_iff,
      !Z.leb_le, !Z.ltb_lt.
    split; [intros [? [?|[?|?]]]|intros [?|[->| ->]]]; [right; lia|right; lia|left; tauto| | |].
    + tauto.
    + split; [done|]. right. left. lia.
    + split; [done|]. left. lia.
  - split; simpl; [apply T2|done|apply Hm|]. rewrite Ht. apply Hm.
Qed.

Lemma two_taken_keeps m m' k r i a :
  two_taken m m' k r -> page_used (pmm m) i -> i * PAGE_SIZE <= a < (i + 1) * PAGE_SIZE ->
  mem m' a = mem m a.
Proof.
  intros T [_ Hi] Ha. destruct (tt_k _ _ _ _ T) as [_ Hk], (tt_r _ _ _ _ T) as [_ Hr].
  apply (tt_mem _ _ _ _ T); intros Hin.
  - assert (i = k) by (unfold PAGE_SIZE in *; lia). congruence.
  - assert (i = r) by (unfold PAGE_SIZE in *; lia). congruence.
Qed.

(** The loop that copies the kernel half. *)
Lemma copy_kernel_half m kroot root :
  machine_wf m -> used_frame m kroot -> used_frame m root -> kroot <> root ->
  pml4_virt kernel_space = P2V kroot ->
  let m' := for_range (fun i m => set_entry (P2V root) i
              (table_entry (pml4_virt kernel_space) i m) m) 256 256 m in
  pmm m' = pmm m /\ ram_bytes (mem m') /\
  (forall a, ~ (root <= a < root + PAGE_SIZE) -> mem m' a = mem m a) /\
  forall i, idx_ok i -> load64 (mem m') (root + 8 * i) =
    load64 (mem m) (if 256 <=? i then kroot + 8 * i else root + 8 * i).
Proof.
  intros Hm Hk Hr Hne Hkv. cbv zeta. rewrite Hkv.
  pose proof (used_frame_range m root Hm Hr) as (Hrr & _).
  pose proof (used_frame_apart m kroot root Hk Hr Hne) as Hap.
  pose proof (for_range_ind (fun n m' => pmm m' = pmm m /\ ram_bytes (mem m') /\
    (forall a, ~ (root <= a < root + PAGE_SIZE) -> mem m' a = mem m a) /\
    forall i, idx_ok i -> load64 (mem m') (root + 8 * i) =
      load64 (mem m) (if (256 <=? i) && (i <? n) then kroot + 8 * i else root + 8 * i))
    (fun i m => set_entry (P2V root) i (table_entry (P2V kroot) i m) m) 256 256 m) as HI.
  destruct HI as (H1 & H2 & H3 & H4).
  - split_and!; [done|apply Hm|done|]. intros i Hi.
    destruct (Z.leb_spec 256 i), (Z.ltb_spec i 256); simpl; lia || done.
  - intros j m' Hj (Hp & Hb & Hfr & Hld).
    assert (Hj' : idx_ok j) by (unfold idx_ok; lia).
    assert (Hm' : machine_wf m').
    { destruct m' as [pm' mm']. simpl in *. subst pm'. by apply machine_wf_mem. }
    assert (Hu : forall f, used_frame m f -> used_frame m' f) by (unfold used_frame; by rewrite Hp).
    rewrite (table_entry_used m') by auto.
    rewrite (set_entry_used m') by auto. simpl.
    rewrite (u64_small (load64 _ _)) by (by apply load64_range).
    assert (Hsrc : load64 (mem m') (kroot + 8 * j) = load64 (mem m) (kroot + 8 * j)).
    { apply load64_agree. intros x Hx. apply Hfr. unfold idx_ok, PAGE_SIZE in *. lia. }
    rewrite Hsrc. split_and!; [done|by apply store64_bytes| |].
    + intros a Ha. rewrite store64_outside by (unfold idx_ok, PAGE_SIZE in *; lia). by apply Hfr.
    + intros i Hi. destruct (decide (i = j)) as [->|Hij].
      * rewrite load64_store64_eq by (apply load64_range, Hm).
        destruct (Z.leb_spec 256 j), (Z.ltb_spec j (j + 1)); lia || done.
      * rewrite load64_store64_ne by lia. rewrite Hld by done.
        destruct (Z.ltb_spec i j), (Z.ltb_spec i (j + 1)); lia || done.
  - split_and!; [exact H1|exact H2|exact H3|]. intros i Hi. rewrite H4 by exact Hi. unfold idx_ok in Hi.
    destruct (Z.ltb_spec i (256 + Z.of_nat 256)); [|lia]. by rewrite andb_true_r.
Qed.

(** The result of a successful creation: [k] is the page of the structure,
    [r] the page of the PML4, [kroot] the PML4 of the kernel. *)
Record created (m m' : machine) (kroot k r : Z) : Prop := {
  cr_taken : two_taken m m' k r;
  cr_nonnull : r * PAGE_SIZE <> 0;
  cr_pml4 : load64 (mem m') (k * PAGE_SIZE) = r * PAGE_SIZE;
  cr_pml4_virt : load64 (mem m') (k * PAGE_SIZE + 8) = P2V (r * PAGE_SIZE);
  cr_user : forall i, 0 <= i < 256 -> load64 (mem m') (r * PAGE_SIZE + 8 * i) = 0;
  cr_kernel : forall i, 256 <= i < 512 ->
    load64 (mem m') (r * PAGE_SIZE + 8 * i) = load64 (mem m) (kroot + 8 * i)
}.

Lemma taken_machine_wf m m' s c : machine_wf m -> taken m m' s c -> machine_wf m'.
Proof.
  intros Hm T. split; [apply T|by eapply taken_ram_bytes, Hm|apply Hm|].
  rewrite (taken_total _ _ _ _ T). apply Hm.
Qed.

Lemma taken_used m m' s c i :
  taken m m' s c -> page_used (pmm m) i \/ s <= i < s + c -> page_used (pmm m') i.
Proof.
  intros T Hi. pose proof (taken_range _ _ _ _ T). unfold page_used.
  rewrite (taken_total _ _ _ _ T), (taken_bits _ _ _ _ T).
  destruct Hi as [[Hr ->]|Hi]; [by rewrite orb_true_r|]. split; [lia|].
  destruct (Z.leb_spec s i), (Z.ltb_spec i (s + c)); lia || done.
Qed.

Lemma P2V_nonnull m f : machine_wf m -> used_frame m f -> P2V f <> 0.
Proof.
  intros Hm Hf. destruct (used_frame_range m f Hm Hf) as (? & _ & _ & ->).
  pose proof (mw_hhdm m Hm). unfold PAGE_SIZE in *. lia.
Qed.

Lemma kstore64_used m f d v :
  machine_wf m -> used_frame m f -> 0 <= d < PAGE_SIZE ->
  kstore64 (u64 (P2V f + d)) v m = mkMachine (pmm m) (store64 (mem m) (f + d) (u64 v)).
Proof. intros Hm Hf Hd. unfold kstore64. by rewrite (V2P_offset m). Qed.

(** Filling in the structure and the PML4 once both pages are taken. *)
Lemma fill_space m m1 m2 kroot k r :
  machine_wf m -> used_frame m kroot -> pml4_virt kernel_space = P2V kroot ->
  taken m m1 k 1 -> taken m1 m2 r 1 -> r * PAGE_SIZE <> 0 ->
  let space := P2V (k * PAGE_SIZE) in
  let m3 := kstore64 space (r * PAGE_SIZE) m2 in
  let m4 := kstore64 (u64 (space + 8)) (P2V (r * PAGE_SIZE)) m3 in
  let new_pml4 := kload64 (u64 (space + 8)) m4 in
  let m5 := kmemset new_pml4 0 PAGE_SIZE m4 in
  created m (for_range (fun i m => set_entry new_pml4 i
    (table_entry (pml4_virt kernel_space) i m) m) 256 256 m5) kroot k r.
Proof.
  intros Hm Hkf Hkv T1 T2 Hr0 space m3 m4 new_pml4 m5.
  pose proof (taken_machine_wf _ _ _ _ Hm T1) as Hm1.
  pose proof (taken_machine_wf _ _ _ _ Hm1 T2) as Hm2.
  assert (Hku : used_frame m2 (k * PAGE_SIZE)).
  { exists k. split; [done|]. eapply taken_used; [exact T2|]. left.
    eapply taken_used; [exact T1|]. right. lia. }
  assert (Hru : used_frame m2 (r * PAGE_SIZE)).
  { exists r. split; [done|]. eapply taken_used; [exact T2|]. right. lia. }
  assert (Hkfu : used_frame m2 kroot).
  { destruct Hkf as (i & -> & Hi). exists i. split; [done|].
    eapply taken_used; [exact T2|]. left. eapply taken_used; [exact T1|]. by left. }
  pose proof (two_taken_intro m m1 m2 k r (mem m2) Hm T1 T2 (mw_bytes _ Hm2)) as TT0.
  assert (Hw2 : within k r (mem m) (mem m2)).
  { intros a Ha1 Ha2. rewrite (taken_frame _ _ _ _ T2) by done. by apply (taken_frame _ _ _ _ T1). }
  specialize (TT0 Hw2). pose proof (tt_ne _ _ _ _ TT0) as Hne.
  assert (Hkr : kroot <> k * PAGE_SIZE /\ kroot <> r * PAGE_SIZE).
  { destruct Hkf as (i & -> & _ & Hi). destruct (tt_k _ _ _ _ TT0), (tt_r _ _ _ _ TT0).
    unfold PAGE_SIZE. split; intros E; [assert (i = k) by lia|assert (i = r) by lia]; congruence. }
  destruct (used_frame_range m2 _ Hm2 Hku) as (Hkb & _ & _ & Hkp).
  destruct (used_frame_range m2 _ Hm2 Hru) as (Hrb & Hrt & _ & Hrp).
  pose proof (mw_hhdm _ Hm) as Hh.
  assert (Hv2p : V2P (P2V (r * PAGE_SIZE)) = r * PAGE_SIZE)
    by (apply VIRT_PHYS_VIRT; unfold PAGE_SIZE in *; lia).
  assert (Em3 : m3 = mkMachine (pmm m2) (store64 (mem m2) (k * PAGE_SIZE) (r * PAGE_SIZE))).
  { unfold m3. replace space with (u64 (space + 0)).
    - unfold space. rewrite (kstore64_used m2) by (done || unfold PAGE_SIZE; lia).
      rewrite Z.add_0_r, u64_small by (unfold PAGE_SIZE in *; lia). done.
    - rewrite Z.add_0_r. apply u64_idemp. }
  assert (Hm3 : machine_wf m3) by (rewrite Em3; apply machine_wf_mem; [done|apply store64_bytes, Hm2]).
  assert (Hku3 : used_frame m3 (k * PAGE_SIZE)) by by rewrite Em3.
  assert (Hpv : 0 <= P2V (r * PAGE_SIZE) < 2 ^ 64) by apply u64_range.
  assert (Em4 : m4 = mkMachine (pmm m2) (store64 (store64 (mem m2) (k * PAGE_SIZE) (r * PAGE_SIZE))
                       (k * PAGE_SIZE + 8) (P2V (r * PAGE_SIZE)))).
  { unfold m4, space. rewrite (kstore64_used m3) by (done || unfold PAGE_SIZE; lia).
    rewrite (u64_small (P2V _)) by done. by rewrite Em3. }
  assert (Hm4 : machine_wf m4) by (rewrite Em4; apply machine_wf_mem; [done|apply store64_bytes, store64_bytes, Hm2]).
  assert (En : new_pml4 = P2V (r * PAGE_SIZE)).
  { assert (Hku4 : used_frame m4 (k * PAGE_SIZE)) by by rewrite Em4.
    unfold new_pml4, kload64, space. rewrite (V2P_offset m4) by (done || unfold PAGE_SIZE; lia).
    rewrite Em4. simpl. by apply load64_store64_eq. }
  assert (Em5 : m5 = mkMachine (pmm m2) (fill (mem m4) (r * PAGE_SIZE) PAGE_SIZE 0)).
  { unfold m5, kmemset. rewrite En, Hv2p. by rewrite Em4. }
  assert (Hm5 : machine_wf m5) by (rewrite Em5; apply machine_wf_mem; [done|apply fill_bytes, Hm4]).
  rewrite En. clearbody m5 new_pml4.
  destruct (copy_kernel_half m5 kroot (r * PAGE_SIZE)) as (P & B & F & L);
    [done|by rewrite Em5|by rewrite Em5|by apply Hkr|done|].
  set (m6 := for_range _ 256 256 m5) in *. clearbody m6.
  assert (Hap : r * PAGE_SIZE + PAGE_SIZE <= k * PAGE_SIZE \/ k * PAGE_SIZE + PAGE_SIZE <= r * PAGE_SIZE)
    by (unfold PAGE_SIZE; lia).
  assert (Hkst : forall d, 0 <= d <= PAGE_SIZE - 8 ->
    load64 (mem m6) (k * PAGE_SIZE + d) = load64 (mem m4) (k * PAGE_SIZE + d)).
  { intros d Hd. transitivity (load64 (mem m5) (k * PAGE_SIZE + d)).
    - apply load64_agree. intros x Hx. apply F. lia.
    - rewrite Em5. apply load64_fill_ne. lia. }
  assert (W4 : within k r (mem m2) (mem m4)).
  { intros a Ha1 Ha2. rewrite Em4. simpl. by rewrite !store64_outside by (unfold PAGE_SIZE in *; lia). }
  assert (W5 : within k r (mem m2) (mem m5)).
  { intros a Ha1 Ha2. rewrite Em5. simpl. rewrite fill_outside by (unfold PAGE_SIZE in *; lia).
    by apply W4. }
  assert (W6 : within k r (mem m2) (mem m6)).
  { intros a Ha1 Ha2. rewrite F by (unfold PAGE_SIZE in *; lia). by apply W5. }
  split.
  - replace m6 with (mkMachine (pmm m2) (mem m6)).
    + apply (two_taken_intro m m1); try done. intros a Ha1 Ha2. rewrite W6 by done. by apply Hw2.
    + assert (pmm m6 = pmm m2) as <- by by rewrite P, Em5. by destruct m6.
  - done.
  - rewrite <- (Z.add_0_r (k * PAGE_SIZE)), Hkst, Z.add_0_r by (unfold PAGE_SIZE; lia).
    rewrite Em4. simpl. rewrite load64_store64_ne by lia. apply load64_store64_eq.
    unfold PAGE_SIZE in *. lia.
  - rewrite Hkst by (unfold PAGE_SIZE; lia). rewrite Em4. simpl. by apply load64_store64_eq.
  - intros i Hi. rewrite L by (unfold idx_ok; lia). destruct (Z.leb_spec 256 i); [lia|].
    rewrite Em5. simpl. apply load64_fill0; unfold PAGE_SIZE; lia.
  - intros i Hi. rewrite L by (unfold idx_ok; lia). destruct (Z.leb_spec 256 i); [|lia].
    apply load64_agree. intros x Hx.
    pose proof (used_frame_apart m2 kroot (k * PAGE_SIZE) Hkfu Hku ltac:(tauto)).
    pose proof (used_frame_apart m2 kroot (r * PAGE_SIZE) Hkfu Hru ltac:(tauto)).
    destruct Hkf as (j & -> & Hj).
    rewrite W5 by (unfold PAGE_SIZE in *; lia). apply Hw2; unfold PAGE_SIZE in *; lia.
Qed.

(** [vmm_create_address_space]: two pages, or NULL with at most page 0 lost
    (whose physical address the code cannot tell from NULL). *)
Lemma vmm_create_cases m kroot :
  machine_wf m -> used_frame m kroot -> pml4_virt kernel_space = P2V kroot ->
  page_used (pmm m) 0 ->
  (exists m' k r, vmm_create_address_space kernel_space m = (m', AS_AT (P2V (k * PAGE_SIZE))) /\
     created m m' kroot k r) \/
  (exists m', vmm_create_address_space kernel_space m = (m', AS_NULL) /\
     pmm_wf (pmm m') /\ (forall i, page_used (pmm m') i <-> page_used (pmm m) i) /\
     forall i a, page_used (pmm m) i -> i * PAGE_SIZE <= a < (i + 1) * PAGE_SIZE ->
       mem m' a = mem m a).
Proof.
  intros Hm Hkf Hkv H0. unfold vmm_create_address_space.
  assert (Hnz : forall m' s, total_pages (pmm m') = total_pages (pmm m) ->
    page_free (pmm m') s -> page_used (pmm m') 0 -> s * PAGE_SIZE <> 0).
  { intros m' s _ [_ Hf] [_ Hu] E. assert (s = 0) as -> by (unfold PAGE_SIZE in E; lia). congruence. }
  destruct (pmm_alloc_cases m (mw_pmm m Hm)) as [(k & m1 & -> & T1 & _)|[-> Hno]].
  - pose proof (taken_machine_wf _ _ _ _ Hm T1) as Hm1.
    assert (Hkn : P2V (k * PAGE_SIZE) <> 0).
    { apply (P2V_nonnull m1); [done|]. exists k. split; [done|].
      eapply taken_used; [exact T1|]. right. lia. }
    destruct (Z.eqb_spec (P2V (k * PAGE_SIZE)) 0); [done|].
    assert (Hu1 : page_used (pmm m1) 0) by (eapply taken_used; [exact T1|]; by left).
    destruct (pmm_alloc_cases m1 (mw_pmm m1 Hm1)) as [(r & m2 & -> & T2 & _)|[-> _]].
    + assert (r * PAGE_SIZE <> 0) as Hr.
      { apply (Hnz m1); [apply T1|apply (taken_free _ _ _ _ T2); lia|done]. }
      destruct (Z.eqb_spec (r * PAGE_SIZE) 0); [done|]. left. eexists _, k, r. split; [reflexivity|].
      by apply fill_space with m1.
    + right. simpl. eexists. split; [reflexivity|].
      pose proof (taken_range _ _ _ _ T1) as (Hk1 & _ & Hk2).
      pose proof (wf_total _ (mw_pmm _ Hm)) as Htot.
      assert (Hkb : 0 <= k * PAGE_SIZE < 2 ^ 64) by (unfold PAGE_SIZE; lia).
      assert (Hv : V2P (P2V (k * PAGE_SIZE)) = k * PAGE_SIZE) by by apply VIRT_PHYS_VIRT.
      rewrite Hv.
      destruct (pmm_free_frees (k * PAGE_SIZE) m1 (mw_pmm _ Hm1) Hkb) as [Fm Ft Fw Fu];
        [unfold PAGE_SIZE; apply Z.mod_mul; lia|].
      assert (Hkf' : page_free (pmm m) k) by (apply (taken_free _ _ _ _ T1); lia).
      split_and!; [done| |].
      * intros i. rewrite Fu. split.
        -- intros [[Hi1 Hi2] Hn]. rewrite (taken_total _ _ _ _ T1) in Hi1. split; [done|].
           rewrite (taken_bits _ _ _ _ T1) in Hi2. apply orb_true_iff in Hi2 as [Hi2|]; [|done].
           apply andb_true_iff in Hi2. rewrite Z.leb_le, Z.ltb_lt in Hi2.
           assert (i = k) as -> by lia. exfalso. apply Hn. split; [|done].
           intros ->. destruct H0 as [_ H0], Hkf'. congruence.
        -- intros Hi. split; [eapply taken_used; [exact T1|by left]|].
           intros [_ E]. assert (k = i) as -> by (unfold PAGE_SIZE in E; lia).
           destruct Hi, Hkf'. congruence.
      * intros i a Hi Ha. rewrite Fm. apply (taken_frame _ _ _ _ T1). intros Hin.
        assert (k = i) as -> by (unfold PAGE_SIZE in *; lia). destruct Hi, Hkf'. congruence.
  - destruct (Z.eqb_spec (P2V 0) 0) as [E|E].
    { right. eexists. split; [done|]. split_and!; [apply Hm|done|done]. }
    destruct (pmm_alloc_cases m (mw_pmm m Hm)) as [(r & m2 & _ & T2 & _)|[-> _]].
    + exfalso. apply (Hno r), (taken_free _ _ _ _ T2). lia.
    + right. simpl. eexists. split; [done|]. simpl.
      assert (V2P (P2V 0) = 0) as Hv by by apply VIRT_PHYS_VIRT.
      rewrite Hv. split_and!; [apply Hm|done|done].
Qed.

Lemma created_walk m m' kroot k r i q :
  created m m' kroot k r -> path_in user_half (i :: q) ->
  walk (mem m') (r * PAGE_SIZE) (i :: q) = None.
Proof.
  intros C [_ Hd]. simpl. unfold step. rewrite (cr_user _ _ _ _ _ C) by by apply Hd. done.
Qed.

Lemma created_is_table m m' kroot k r f :
  created m m' kroot k r -> is_table user_half (r * PAGE_SIZE) m' f -> f = r * PAGE_SIZE.
Proof.
  intros C (p & Hp & _ & Hw). destruct p as [|i q]; [simpl in Hw; congruence|].
  by rewrite (created_walk _ _ _ _ _ _ _ C Hp) in Hw.
Qed.

(** A new space is ready for the operations on its user half. *)
Lemma created_ok m m' kroot k r :
  created m m' kroot k r ->
  space_ok kernel_space user_half (r * PAGE_SIZE) (AS_AT (P2V (k * PAGE_SIZE))) m'.
Proof.
  intros C. pose proof (cr_taken _ _ _ _ _ C) as T. split; [apply T| |].
  - split.
    + intros p f Hp Hl Hw. exists r. split.
      * apply (created_is_table m m' kroot k r); [done|]. by exists p.
      * apply T. right. by right.
    + intros p q f Hp Hl Hq Hl' Hw Hw'.
      destruct p as [|i p], q as [|j q]; try done;
        rewrite (created_walk _ _ _ _ _ _ _ C) in Hw || rewrite (created_walk _ _ _ _ _ _ _ C) in Hw';
        done.
  - exists k. split_and!; [done|apply T; right; by left| |apply C|apply C].
    intros Ht. apply (created_is_table _ _ _ _ _ _ C) in Ht.
    apply (tt_ne _ _ _ _ T). unfold PAGE_SIZE in Ht. lia.
Qed.

Lemma created_user m m' kroot k r va :
  created m m' kroot k r -> user_half (PML4_INDEX va) ->
  translate (mem m') (r * PAGE_SIZE) va = None.
Proof.
  intros C Hva. apply (created_walk _ _ _ _ _ _ _ C). by apply va_path_in.
Qed.

Definition kernel_half (i : Z) : Prop := 256 <= i < 512.

(** ... and sees what the kernel sees in the other half. *)
Lemma created_kernel m m' kroot k r va :
  machine_wf m -> created m m' kroot k r -> space_wf kernel_half kroot m ->
  kernel_half (PML4_INDEX va) ->
  translate (mem m') (r * PAGE_SIZE) va = translate (mem m) kroot va.
Proof.
  intros Hm C Hs Hva. pose proof (cr_taken _ _ _ _ _ C) as T.
  pose proof (va_path_in kernel_half va Hva) as Hp.
  assert (Hsame : forall p, path_in kernel_half p -> (length p <= 4)%nat ->
    walk (mem m') kroot p = walk (mem m) kroot p).
  { apply walk_ext. intros p g j Hpj Hl Hg.
    destruct (sw_frame _ _ _ Hs p g (path_in_app _ _ _ Hpj) Hl Hg) as (i & -> & Hi).
    apply step_agree; [|by eapply path_in_last]. intros a Ha.
    apply (two_taken_keeps m m' k r i); try done. unfold PAGE_SIZE in *. lia. }
  unfold translate. rewrite <- Hsame by done. unfold va_path. simpl.
  unfold step. rewrite (cr_kernel _ _ _ _ _ C) by done.
  assert (load64 (mem m') (kroot + 8 * PML4_INDEX va) = load64 (mem m) (kroot + 8 * PML4_INDEX va)) as ->;
    [|done].
  destruct (sw_frame _ _ _ Hs [] kroot) as (i & -> & Hi); [by split; [constructor|]|simpl; lia|done|].
  apply load64_agree. intros x Hx. apply (two_taken_keeps m m' k r i); try done.
  unfold kernel_half, PAGE_SIZE in *. lia.
Qed.

(** ** Properties *)

(** C3: [vmm_map] refines the insertion into the map from pages to frames that
    an address space denotes: on success [virt] translates to the frame of
    [phys], every other page of the space translates as before, no page in use
    but the tables was written; on failure (no page left for a table) no
    translation changed.  The space stays well formed either way. *)
Theorem vmm_map_refines D root sp virt phys flags m :
  space_ok kernel_space D root sp m -> D (PML4_INDEX virt) -> 0 <= virt < 2 ^ 64 ->
  0 <= phys < 2 ^ 64 -> 0 <= flags < PAGE_SIZE ->
  let '(m', ok) := vmm_map kernel_space sp virt phys flags m in
  space_ok kernel_space D root sp m' /\
  (forall va, D (PML4_INDEX va) ->
     translate (mem m') root va =
       if ok && (vpn va =? vpn virt) then Some (Z.land phys PAGE_MASK)
       else translate (mem m) root va) /\
  forall i a, page_used (pmm m) i -> ~ is_table D root m (i * PAGE_SIZE) ->
    i * PAGE_SIZE <= a < (i + 1) * PAGE_SIZE -> mem m' a = mem m a.
Proof.
  intros Hok HD Hv Hp Hf.
  destruct (vmm_map_cases kernel_space D root sp virt phys flags m Hok HD Hv Hp Hf)
    as (m' & ok & -> & Hok' & [(-> & U & T)|(-> & Ev)]).
  - split_and!; [done| |apply U]. intros va HDva. simpl. destruct (Z.eqb_spec (vpn va) (vpn virt)) as [E|E].
    + unfold translate in *. by rewrite (proj2 (va_path_vpn _ _) E).
    + by apply U.
  - pose proof (evolves_update D root (fun _ => False) _ _ Ev) as U.
    split_and!; [done| |apply U]. intros va HDva. by apply U; [|intros []].
Qed.


(** [vmm_unmap] removes exactly the page of [virt] from the space, and
    [vmm_get_physical] then finds nothing there; it takes and releases no
    page. *)
Theorem vmm_unmap_removes D root sp virt m :
  space_ok kernel_space D root sp m -> D (PML4_INDEX virt) -> 0 <= virt < 2 ^ 64 ->
  let m' := vmm_unmap kernel_space sp virt m in
  space_ok kernel_space D root sp m' /\ pmm m' = pmm m /\
  (forall va, D (PML4_INDEX va) -> translate (mem m') root va =
     if vpn va =? vpn virt then None else translate (mem m) root va) /\
  snd (vmm_get_physical kernel_space sp virt m') = 0.
Proof.
  intros Hok HD Hv. pose proof (vmm_unmap_cases kernel_space D root sp virt m Hok HD Hv) as C.
  cbv zeta in C |- *. revert C. generalize (vmm_unmap kernel_space sp virt m).
  intros m' (Hok' & U & T & P). split_and!; [done|done| |].
  - intros va HDva. destruct (Z.eqb_spec (vpn va) (vpn virt)) as [E|E]; [|by apply U].
    unfold translate in *. by rewrite (proj2 (va_path_vpn _ _) E).
  - destruct (vmm_get_physical_cases kernel_space D root sp virt m' Hok' HD) as (m'' & -> & _).
    by rewrite T.
Qed.

(** C19: an address space can be created, used and destroyed, and destroying it
    releases its page tables and its structure but none of the frames it maps:
    of the pages in use, exactly the tables of the user half, the PML4 and the
    page of the structure are released. *)
Theorem vmm_destroy_frees_exactly root k m :
  space_ok kernel_space user_half root (AS_AT (P2V (k * PAGE_SIZE))) m -> root <> 0 -> k <> 0 ->
  load64 (mem m) (k * PAGE_SIZE) = root -> page_used (pmm m) k ->
  let m' := vmm_destroy_address_space kernel_space (AS_AT (P2V (k * PAGE_SIZE))) m in
  mem m' = mem m /\ pmm_wf (pmm m') /\ total_pages (pmm m') = total_pages (pmm m) /\
  forall i, i <> 0 -> (page_used (pmm m') i <->
    page_used (pmm m) i /\ ~ is_table user_half root m (i * PAGE_SIZE) /\ i <> k).
Proof. exact (vmm_destroy_cases root k m). Qed.

(** a new address space has an empty user half and the kernel's mappings in
    the other half; only two pages, free before, were taken, and no page in
    use was written.  When the pages cannot be had the result is NULL and the
    pages in use are those before. *)
Theorem vmm_create_spec m kroot :
  machine_wf m -> used_frame m kroot -> pml4_virt kernel_space = P2V kroot ->
  page_used (pmm m) 0 -> space_wf kernel_half kroot m ->
  let '(m', sp) := vmm_create_address_space kernel_space m in
  (forall i a, page_used (pmm m) i -> i * PAGE_SIZE <= a < (i + 1) * PAGE_SIZE -> mem m' a = mem m a) /\
  (sp = AS_NULL /\ (forall i, page_used (pmm m') i <-> page_used (pmm m) i) \/
   exists k r, sp = AS_AT (P2V (k * PAGE_SIZE)) /\ two_taken m m' k r /\
     space_ok kernel_space user_half (r * PAGE_SIZE) sp m' /\
     forall va, translate (mem m') (r * PAGE_SIZE) va =
       if PML4_INDEX va <? 256 then None else translate (mem m) kroot va).
Proof.
  intros Hm Hkf Hkv H0 Hs.
  destruct (vmm_create_cases m kroot Hm Hkf Hkv H0) as [(m' & k & r & -> & C)|(m' & -> & Hw & Hu & Hd)].
  - pose proof (cr_taken _ _ _ _ _ C) as T. split.
    + intros i a Hi Ha. by apply (two_taken_keeps m m' k r i).
    + right. exists k, r. split_and!; [done|done|by eapply created_ok|]. intros va.
      pose proof (land_1FF_range (Z.shiftr va 39)) as Hi.
      destruct (Z.ltb_spec (PML4_INDEX va) 256); unfold PML4_INDEX in *.
      * eapply created_user; [done|]. unfold user_half, PML4_INDEX. lia.
      * eapply created_kernel; try done. unfold kernel_half, PML4_INDEX. lia.
  - split; [done|]. by left.
Qed.

End spaces.

(** ** Witnesses: an address space of the small machine of Pmm.v *)
#[local] Existing Instance limine_boot.

(** The kernel's PML4 is page 7, a page of the kernel's own memory. *)
Definition small_kernel : address_space := vmm_init 0x7000.
Definition small_space_machine : machine := fst (vmm_create_address_space small_kernel small_machine).
Definition small_space : as_ptr := AS_AT (P2V (2 * PAGE_SIZE)).

Lemma small_machine_ok : machine_wf small_machine.
Proof.
  split; [exact small_machine_wf|intros a; vm_compute; split; congruence|done|].
  vm_compute. congruence.
Qed.

Lemma small_used i : 0 <= i < 12 -> bitmap_test i (pmm small_machine) = true ->
  page_used (pmm small_machine) i.
Proof. intros Hi Ht. split; [|done]. change (total_pages (pmm small_machine)) with 12. done. Qed.

Lemma small_kernel_wf : space_wf kernel_half 0x7000 small_machine.
Proof.
  assert (Hw : forall i q, walk (mem small_machine) 0x7000 (i :: q) = None) by done.
  split.
  - intros [|i q] f _ _ Hf; [|by rewrite Hw in Hf]. injection Hf as <-. exists 7.
    split; [done|]. apply small_used; [lia|by vm_compute].
  - intros [|i p] [|j q] f _ _ _ _ Hf Hg; rewrite ?Hw in *; done.
Qed.

Lemma created_at kernel_space m kroot k r :
  machine_wf m -> used_frame m kroot -> pml4_virt kernel_space = P2V kroot ->
  page_used (pmm m) 0 -> 0 <= k * PAGE_SIZE < 2 ^ 64 ->
  snd (vmm_create_address_space kernel_space m) = AS_AT (P2V (k * PAGE_SIZE)) ->
  load64 (mem (fst (vmm_create_address_space kernel_space m))) (k * PAGE_SIZE) = r * PAGE_SIZE ->
  created m (fst (vmm_create_address_space kernel_space m)) kroot k r.
Proof.
  intros Hm Hkf Hkv H0 Hkr.
  destruct (vmm_create_cases kernel_space m kroot Hm Hkf Hkv H0)
    as [(m' & k' & r' & -> & C)|(m' & -> & _)]; [|done]. simpl. intros [= Hsp] Hr.
  pose proof (cr_taken _ _ _ _ _ C) as T. destruct (tt_k _ _ _ _ T) as [Hk _].
  pose proof (wf_total _ (mw_pmm _ Hm)).
  apply PHYS_TO_VIRT_inj in Hsp; [|unfold PAGE_SIZE; lia|done].
  assert (k' = k) as -> by (unfold PAGE_SIZE in Hsp; lia).
  rewrite (cr_pml4 _ _ _ _ _ C) in Hr. assert (r' = r) as -> by (unfold PAGE_SIZE in Hr; lia).
  done.
Qed.

Lemma small_created : created small_machine small_space_machine 0x7000 2 3.
Proof.
  apply created_at.
  - exact small_machine_ok.
  - exists 7. split; [done|]. apply small_used; [lia|by vm_compute].
  - done.
  - apply small_used; [lia|by vm_compute].
  - done.
  - by vm_compute.
  - by vm_compute.
Qed.

Lemma small_space_ok : space_ok small_kernel user_half 0x3000 small_space small_space_machine.
Proof. exact (created_ok small_kernel _ _ _ _ _ small_created). Qed.

Lemma vmm_map_refines_witness :
  snd (vmm_map small_kernel small_space 0x400000 0x5000 3 small_space_machine) = true /\
  let '(m', ok) := vmm_map small_kernel small_space 0x400000 0x5000 3 small_space_machine in
  space_ok small_kernel user_half 0x3000 small_space m' /\
  (forall va, user_half (PML4_INDEX va) -> translate (mem m') 0x3000 va =
     if ok && (vpn va =? vpn 0x400000) then Some 0x5000
     else translate (mem small_space_machine) 0x3000 va) /\
  forall i a, page_used (pmm small_space_machine) i ->
    ~ is_table user_half 0x3000 small_space_machine (i * PAGE_SIZE) ->
    i * PAGE_SIZE <= a < (i + 1) * PAGE_SIZE -> mem m' a = mem small_space_machine a.
Proof.
  split; [by vm_compute|].
  apply (vmm_map_refines small_kernel user_half 0x3000 small_space 0x400000 0x5000 3
    small_space_machine small_space_ok); vm_compute; intuition congruence.
Defined.

Lemma small_pages_user j : 0 <= j < 2 -> user_half (PML4_INDEX (0x400000 + j * PAGE_SIZE)).
Proof.
  intros Hj. assert (j = 0 \/ j = 1) as [->| ->] by lia; vm_compute; split; congruence.
Qed.

Lemma small_unmapped va : user_half (PML4_INDEX va) ->
  translate (mem small_space_machine) 0x3000 va = None.
Proof. apply (created_user _ _ _ _ _ _ small_created). Qed.


Definition small_mapped_machine : machine :=
  fst (vmm_map small_kernel small_space 0x400000 0x5000 3 small_space_machine).

Lemma small_mapped :
  space_ok small_kernel user_half 0x3000 small_space small_mapped_machine /\
  translate (mem small_mapped_machine) 0x3000 0x400000 = Some 0x5000 /\
  page_used (pmm small_mapped_machine) 2.
Proof.
  unfold small_mapped_machine.
  assert (Hok : snd (vmm_map small_kernel small_space 0x400000 0x5000 3 small_space_machine) = true)
    by by vm_compute.
  revert Hok.
  destruct (vmm_map_cases small_kernel user_half 0x3000 small_space 0x400000 0x5000 3
    small_space_machine small_space_ok) as (m' & ok & -> & Hok' & C);
    [vm_compute; intuition congruence..|].
  intros Hok. simpl in Hok. subst ok. destruct C as [(_ & U & T)|[? _]]; [|done].
  split_and!; [done|exact T|]. apply U.
  apply (tt_used _ _ _ _ (cr_taken _ _ _ _ _ small_created)). right. by left.
Qed.

Lemma vmm_unmap_removes_witness :
  let m' := vmm_unmap small_kernel small_space 0x400000 small_mapped_machine in
  space_ok small_kernel user_half 0x3000 small_space m' /\ pmm m' = pmm small_mapped_machine /\
  (forall va, user_half (PML4_INDEX va) -> translate (mem m') 0x3000 va =
     if vpn va =? vpn 0x400000 then None else translate (mem small_mapped_machine) 0x3000 va) /\
  snd (vmm_get_physical small_kernel small_space 0x400000 m') = 0.
Proof.
  apply (vmm_unmap_removes small_kernel user_half 0x3000 small_space 0x400000 small_mapped_machine
    (proj1 small_mapped)); vm_compute; intuition congruence.
Defined.

Lemma vmm_destroy_frees_exactly_witness :
  let m' := vmm_destroy_address_space small_kernel (AS_AT (P2V (2 * PAGE_SIZE))) small_mapped_machine in
  mem m' = mem small_mapped_machine /\ pmm_wf (pmm m') /\
  total_pages (pmm m') = total_pages (pmm small_mapped_machine) /\
  forall i, i <> 0 -> (page_used (pmm m') i <-> page_used (pmm small_mapped_machine) i /\
    ~ is_table user_half 0x3000 small_mapped_machine (i * PAGE_SIZE) /\ i <> 2).
Proof.
  apply (vmm_destroy_frees_exactly small_kernel 0x3000 2 small_mapped_machine (proj1 small_mapped)).
  - done.
  - done.
  - by vm_compute.
  - exact (proj2 (proj2 small_mapped)).
Defined.

Lemma vmm_create_spec_witness :
  let '(m', sp) := vmm_create_address_space small_kernel small_machine in
  (forall i a, page_used (pmm small_machine) i -> i * PAGE_SIZE <= a < (i + 1) * PAGE_SIZE ->
     mem m' a = mem small_machine a) /\
  (sp = AS_NULL /\ (forall i, page_used (pmm m') i <-> page_used (pmm small_machine) i) \/
   exists k r, sp = AS_AT (P2V (k * PAGE_SIZE)) /\ two_taken small_machine m' k r /\
     space_ok small_kernel user_half (r * PAGE_SIZE) sp m' /\
     forall va, translate (mem m') (r * PAGE_SIZE) va =
       if PML4_INDEX va <? 256 then None else translate (mem small_machine) 0x7000 va).
Proof.
  apply (vmm_create_spec small_kernel small_machine 0x7000 small_machine_ok).
  - exists 7. split; [done|]. apply small_used; [lia|by vm_compute].
  - done.
  - apply small_used; [lia|by vm_compute].
  - exact small_kernel_wf.
Defined.

(** An entry with the no-execute bit: [PAGE_MASK] keeps bit 63, so the address
    read back from such an entry is not the one stored. *)
Lemma PTE_NX_address addr :
  0 <= addr < 2 ^ 52 -> addr mod PAGE_SIZE = 0 ->
  PTE_GET_ADDR (PTE_CREATE addr (Z.lor VMM_KERNEL_PAGE PAGE_NX)) = addr + 2 ^ 63.
Proof.
  intros Ha Hmod. unfold PTE_GET_ADDR, PTE_CREATE.
  rewrite Z.land_lor_distr_l, <- Z.land_assoc, Z.land_diag.
  change (Z.land (Z.lor VMM_KERNEL_PAGE PAGE_NX) PAGE_MASK) with (2 ^ 63).
  rewrite (land_PAGE_MASK addr) by lia.
  assert (addr / PAGE_SIZE * PAGE_SIZE = addr) as -> by (unfold PAGE_SIZE in *; zdiv_lia).
  apply lor_disjoint_add. apply Z.bits_inj'. intros i Hi. rewrite Z.land_spec, Z.bits_0.
  destruct (decide (i = 63)) as [->|Hne].
  - rewrite (testbit_high 52 addr) by lia. done.
  - rewrite Z.pow2_bits_false by done. apply andb_false_r.
Qed.
