(* ===== verification/DmaFacts.v ===== *)
(** * Memory for devices: what it promises

    [dma_ok] says that the live buffers are what the table says: each has its
    own pages of the window, mapped to its own physical pages, which are in
    use and none of the kernel's page tables; the rest of the window is not
    mapped.  [dma_alloc] and [dma_free] keep it. *)

From S2P Require Import Prelude PhysMem Pmm Vmm Dma AddressSpace.

(** ** The bitmap of the window *)

Lemma virt_used_bit b i : virt_used b i = Z.testbit (aget 0 b (i / 64)) (i mod 64).
Proof.
  unfold virt_used. rewrite Z.shiftr_div_pow2 by lia. change (2 ^ 6) with 64.
  change 63 with (2 ^ 6 - 1). rewrite land_ones_mod by lia. change (2 ^ 6) with 64.
  rewrite Z.shiftl_1_l. apply land_pow2_ne0. apply Z.mod_pos_bound. lia.
Qed.

Definition in_window (b : list Z) (i : Z) : Prop := 0 <= i < 64 * Z.of_nat (length b).

Lemma word_index b i : in_window b i -> 0 <= i / 64 < Z.of_nat (length b) /\ 0 <= i mod 64 < 64.
Proof.
  unfold in_window. intros Hi. split; [|apply Z.mod_pos_bound; lia].
  split; [apply Z.div_pos; lia|apply Z.div_lt_upper_bound; lia].
Qed.
Lemma word_index_inj i j : i / 64 = j / 64 -> i mod 64 = j mod 64 -> i = j.
Proof. pose proof (Z.div_mod i 64). pose proof (Z.div_mod j 64). lia. Qed.

Lemma virt_used_set b i j : in_window b i -> 0 <= j -> virt_used (virt_set i b) j = (j =? i) || virt_used b j.
Proof.
  intros Hi Hj. rewrite !virt_used_bit. unfold virt_set. rewrite Z.shiftr_div_pow2 by lia. change (2 ^ 6) with 64.
  change 63 with (2 ^ 6 - 1). rewrite land_ones_mod by lia. change (2 ^ 6) with 64.
  destruct (word_index b i Hi) as [Hw Hm]. pose proof (Z.mod_pos_bound j 64 ltac:(lia)).
  destruct (decide (j / 64 = i / 64)) as [E|E].
  - rewrite E, aget_aset_eq by lia. rewrite Z.lor_spec, Z.shiftl_1_l, Z.pow2_bits_eqb by lia.
    destruct (Z.eqb_spec j i) as [->|Hne]; [rewrite Z.eqb_refl; apply orb_true_r|].
    destruct (Z.eqb_spec (i mod 64) (j mod 64)); [|by rewrite orb_false_r].
    exfalso. by apply Hne, word_index_inj.
  - rewrite aget_aset_ne by lia. destruct (Z.eqb_spec j i) as [->|]; [lia|done].
Qed.

Lemma virt_used_clear b i j : in_window b i -> 0 <= j -> virt_used (virt_clear i b) j = negb (j =? i) && virt_used b j.
Proof.
  intros Hi Hj. rewrite !virt_used_bit. unfold virt_clear. rewrite Z.shiftr_div_pow2 by lia. change (2 ^ 6) with 64.
  change 63 with (2 ^ 6 - 1). rewrite land_ones_mod by lia. change (2 ^ 6) with 64.
  destruct (word_index b i Hi) as [Hw Hm]. pose proof (Z.mod_pos_bound j 64 ltac:(lia)).
  destruct (decide (j / 64 = i / 64)) as [E|E].
  - rewrite E, aget_aset_eq by lia. rewrite Z.land_spec, Z.lnot_spec, Z.shiftl_1_l, Z.pow2_bits_eqb by lia.
    destruct (Z.eqb_spec j i) as [->|Hne]; [rewrite Z.eqb_refl; apply andb_false_r|].
    destruct (Z.eqb_spec (i mod 64) (j mod 64)); [|cbn; by rewrite andb_true_r].
    exfalso. by apply Hne, word_index_inj.
  - rewrite aget_aset_ne by lia. destruct (Z.eqb_spec j i) as [->|]; [lia|done].
Qed.

(** The bits of a run of pages. *)
Definition in_run (s n j : Z) : bool := (s <=? j) && (j <? s + n).
Lemma in_run_spec s n j : in_run s n j = true <-> s <= j < s + n.
Proof. unfold in_run. rewrite andb_true_iff, Z.leb_le, Z.ltb_lt. done. Qed.

Lemma virt_set_run b s (n : nat) : 0 <= s -> s + Z.of_nat n <= 64 * Z.of_nat (length b) ->
  let b' := for_range virt_set s n b in
  length b' = length b /\ forall j, 0 <= j -> virt_used b' j = in_run s (Z.of_nat n) j || virt_used b j.
Proof.
  intros Hs Hn b'. unfold b'. replace (Z.of_nat n) with (s + Z.of_nat n - s) by lia.
  apply (for_range_ind (fun i c => length c = length b /\ forall j, 0 <= j -> virt_used c j = in_run s (i - s) j || virt_used b j)).
  - split; [done|]. intros j Hj. unfold in_run. destruct (Z.leb_spec s j), (Z.ltb_spec j (s + (s - s))); try done; lia.
  - intros i c Hi [Hl Hc]. split; [unfold virt_set; by rewrite length_aset|]. intros j Hj.
    rewrite virt_used_set, Hc by (unfold in_window; rewrite ?Hl; lia). unfold in_run.
    destruct (Z.eqb_spec j i), (Z.leb_spec s j), (Z.ltb_spec j (s + (i - s))), (Z.ltb_spec j (s + (i + 1 - s))); try done; lia.
Qed.

Lemma virt_clear_run b s (n : nat) : 0 <= s -> s + Z.of_nat n <= 64 * Z.of_nat (length b) ->
  let b' := for_range virt_clear s n b in
  length b' = length b /\ forall j, 0 <= j -> virt_used b' j = negb (in_run s (Z.of_nat n) j) && virt_used b j.
Proof.
  intros Hs Hn b'. unfold b'. replace (Z.of_nat n) with (s + Z.of_nat n - s) by lia.
  apply (for_range_ind (fun i c => length c = length b /\ forall j, 0 <= j -> virt_used c j = negb (in_run s (i - s) j) && virt_used b j)).
  - split; [done|]. intros j Hj. unfold in_run. destruct (Z.leb_spec s j), (Z.ltb_spec j (s + (s - s))); try done; lia.
  - intros i c Hi [Hl Hc]. split; [unfold virt_clear; by rewrite length_aset|]. intros j Hj.
    rewrite virt_used_clear, Hc by (unfold in_window; rewrite ?Hl; lia). unfold in_run.
    destruct (Z.eqb_spec j i), (Z.leb_spec s j), (Z.ltb_spec j (s + (i - s))), (Z.ltb_spec j (s + (i + 1 - s))); try done; lia.
Qed.

Section dma.
Context `{BootInfo} (ks : address_space).
#[local] Abbreviation root := (pml4 ks).
#[local] Abbreviation tables := (is_table kernel_half root).

(** ** Pages of the window *)

Definition page (i : Z) : Z := DMA_VIRT_BASE + i * PAGE_SIZE.

Lemma page_sum a j : page a + j * PAGE_SIZE = page (a + j).
Proof. unfold page. lia. Qed.
Lemma page_small i : 0 <= i <= DMA_VIRT_PAGE_COUNT -> 0 < page i < 2 ^ 64 /\ u64 (page i) = page i.
Proof. unfold page, DMA_VIRT_BASE, DMA_VIRT_PAGE_COUNT, PAGE_SIZE. intros Hi. split; [lia|]. apply u64_small. lia. Qed.
Lemma page_kernel i : 0 <= i < DMA_VIRT_PAGE_COUNT -> kernel_half (PML4_INDEX (page i)).
Proof.
  unfold page, DMA_VIRT_PAGE_COUNT. intros Hi. unfold PML4_INDEX. rewrite index_div by lia.
  replace ((DMA_VIRT_BASE + i * PAGE_SIZE) / 2 ^ 39) with (DMA_VIRT_BASE / 2 ^ 39).
  - vm_compute. split; congruence.
  - unfold DMA_VIRT_BASE, PAGE_SIZE. change (0xFFFFE00000000000 / 2 ^ 39) with 33554368.
    apply Z.div_unique with (i * 4096); lia.
Qed.
Lemma page_inj i j : 0 <= i < DMA_VIRT_PAGE_COUNT -> 0 <= j < DMA_VIRT_PAGE_COUNT -> vpn (page i) = vpn (page j) -> i = j.
Proof.
  intros Hi Hj. apply (vpn_page DMA_VIRT_BASE i j (Z.to_nat DMA_VIRT_PAGE_COUNT));
    unfold page_range, DMA_VIRT_BASE, DMA_VIRT_PAGE_COUNT, PAGE_SIZE in *; lia.
Qed.
Lemma page_run a n : 0 <= a -> 0 <= n -> a + n <= DMA_VIRT_PAGE_COUNT -> page_range (page a) (Z.to_nat n).
Proof. unfold page_range, page, DMA_VIRT_BASE, DMA_VIRT_PAGE_COUNT, PAGE_SIZE. lia. Qed.
Lemma not_in_pages a n p : 0 <= a -> a + n <= DMA_VIRT_PAGE_COUNT -> 0 <= p < DMA_VIRT_PAGE_COUNT ->
  ~ (a <= p < a + n) -> ~ in_pages (page a) (Z.to_nat n) (page p).
Proof.
  intros Ha Hn Hp Hout (j & Hj & E). rewrite page_sum in E. apply page_inj in E; [|done|lia]. lia.
Qed.

(** ** The invariant *)

Definition first (e : meta_t) : Z := (virt e - DMA_VIRT_BASE) / PAGE_SIZE.
Definition frame (e : meta_t) : Z := phys e / PAGE_SIZE.
Definition covers (e : meta_t) (p : Z) : Prop := first e <= p < first e + pages e.
Definition owns (e : meta_t) (k : Z) : Prop := frame e <= k < frame e + pages e.
Definition live (s : dma_state) (i : Z) : Prop := 0 <= i < META_CAP /\ used (meta_at s i) = true.

(** Pages in use that are no page tables. *)
Definition data_pages (m : machine) (f n : Z) : Prop :=
  forall k, f <= k < f + n -> page_used (pmm m) k /\ ~ tables m (k * PAGE_SIZE).
Definition maps (m : machine) (a f n : Z) : Prop :=
  forall j, 0 <= j < n -> translate (mem m) root (page (a + j)) = Some ((f + j) * PAGE_SIZE).

Record buffer_ok (m : machine) (e : meta_t) : Prop := {
  b_virt : virt e = page (first e);
  b_phys : phys e = frame e * PAGE_SIZE;
  b_pages : 0 < pages e < 2 ^ 63;
  b_window : 0 <= first e /\ first e + pages e <= DMA_VIRT_PAGE_COUNT;
  b_frame : 0 < frame e < 2 ^ 52;
  b_normal : from_isa_pool e = false;
  b_data : data_pages m (frame e) (pages e);
  b_maps : maps m (first e) (frame e) (pages e)
}.

(** [w]: pages of the window on their way into or out of the table. *)
Record dma_inv (w : Z -> Prop) (s : dma_state) : Prop := {
  d_space : space_ok ks kernel_half root AS_KERNEL (mach s);
  d_bitmap : Z.of_nat (length (virt_bitmap s)) = DMA_VIRT_PAGE_COUNT / 64;
  d_meta : Z.of_nat (length (meta s)) = META_CAP;
  d_live : forall i, live s i -> buffer_ok (mach s) (meta_at s i);
  d_apart : forall i j, live s i -> live s j -> i <> j ->
    (forall p, covers (meta_at s i) p -> ~ covers (meta_at s j) p) /\
    (forall k, owns (meta_at s i) k -> ~ owns (meta_at s j) k);
  d_new : forall i p, live s i -> covers (meta_at s i) p -> ~ w p;
  d_bits : forall p, 0 <= p < DMA_VIRT_PAGE_COUNT ->
    (virt_used (virt_bitmap s) p = true <-> (exists i, live s i /\ covers (meta_at s i) p) \/ w p);
  d_rest : forall p, 0 <= p < DMA_VIRT_PAGE_COUNT -> virt_used (virt_bitmap s) p = false ->
    translate (mem (mach s)) root (page p) = None
}.
Definition dma_ok (s : dma_state) : Prop := dma_inv (fun _ => False) s.

(** Pages that belong to no buffer. *)
Definition fresh (s : dma_state) (f n : Z) : Prop :=
  data_pages (mach s) f n /\ forall i k, live s i -> f <= k < f + n -> ~ owns (meta_at s i) k.

(** ** Steps of the machine *)

Record keeps (w : Z -> Prop) (s : dma_state) (m : machine) : Prop := {
  k_space : space_ok ks kernel_half root AS_KERNEL m;
  k_data : forall i, live s i -> data_pages m (frame (meta_at s i)) (pages (meta_at s i));
  k_walk : forall p, 0 <= p < DMA_VIRT_PAGE_COUNT -> ~ w p ->
    translate (mem m) root (page p) = translate (mem (mach s)) root (page p)
}.

Lemma inv_keeps w s m : dma_inv w s -> keeps w s m -> dma_inv w (set_mach m s).
Proof.
  intros I K. split; [apply K|apply (d_bitmap _ _ I)|apply (d_meta _ _ I)| |apply (d_apart _ _ I)|apply (d_new _ _ I)|apply (d_bits _ _ I)|].
  - intros i Hi. change (meta_at (set_mach m s) i) with (meta_at s i). change (live s i) in Hi.
    destruct (d_live _ _ I i Hi) as [H1 H2 H3 H4 H5 H6 H7 H8].
    split; [done..|by apply K|]. intros j Hj. cbn [mach set_mach].
    rewrite (k_walk _ _ _ K); [by apply H8|lia|]. apply (d_new _ _ I i); [done|unfold covers; lia].
  - intros p Hp Hu. cbn [mach set_mach virt_bitmap] in *. rewrite (k_walk _ _ _ K); [by apply (d_rest _ _ I)|done|].
    intros Hw. assert (virt_used (virt_bitmap s) p = true) by (apply (d_bits _ _ I); [done|by right]). congruence.
Qed.

(** Taking free pages. *)
Lemma keeps_taken w s m f n : dma_inv w s -> taken (mach s) m f n ->
  keeps w s m /\ fresh (set_mach m s) f n.
Proof.
  intros I T. destruct (d_space _ _ I) as [Hm Hs Hat].
  pose proof (taken_evolves kernel_half root _ _ f n (mem m) Hm Hs T
    (taken_ram_bytes _ _ _ _ T (mw_bytes _ Hm)) (taken_frame _ _ _ _ T)) as Ev.
  replace (mkMachine (pmm m) (mem m)) with m in Ev by (by destruct m).
  assert (Hnt : forall k, page_used (pmm (mach s)) k -> ~ tables (mach s) (k * PAGE_SIZE) -> ~ tables m (k * PAGE_SIZE)).
  { intros k Hk Hn Ht. destruct (ev_new _ _ _ _ Ev _ Ht) as [|Hf]; [done|]. apply Hf. by exists k. }
  split; [split|split].
  - eapply space_ok_update; [exact (d_space _ _ I)|]. exact (evolves_update _ _ (fun _ => False) _ _ Ev).
  - intros i Hi k Hk. destruct (b_data _ _ (d_live _ _ I i Hi) k Hk) as [Hu Hn].
    split; [by apply (ev_used _ _ _ _ Ev)|by apply Hnt].
  - intros p Hp _. apply (ev_walk _ _ _ _ Ev); [by apply va_path_in, page_kernel|done|by left].
  - intros k Hk. cbn [mach set_mach]. split; [eapply taken_used; [done|by right]|].
    intros (p & Hp & Hl & Hw). rewrite (taken_walks kernel_half root (mach s) m f n (mem m) Hs T (taken_frame _ _ _ _ T)) in Hw by (done || lia).
    destruct (sw_frame _ _ _ Hs p _ Hp Hl Hw) as (j & Ej & [_ Hj]). assert (k = j) as -> by (unfold PAGE_SIZE in Ej; lia).
    destruct (taken_free _ _ _ _ T j Hk) as [_ Hfree]. congruence.
  - intros i k Hi Hk Ho. destruct (b_data _ _ (d_live _ _ I i Hi) k Ho) as [[_ Hu] _].
    destruct (taken_free _ _ _ _ T k Hk) as [_ Hfree]. congruence.
Qed.

(** Giving pages back that are nobody's. *)
Lemma keeps_freed w s f n : dma_inv w s -> fresh s f n -> 0 < f < 2 ^ 52 -> 0 < n < 2 ^ 63 ->
  keeps w s (pmm_free_pages (f * PAGE_SIZE) n (mach s)).
Proof.
  intros I [Hd Ho] Hf Hn. destruct (d_space _ _ I) as [Hm Hs Hat].
  destruct (pmm_free_pages_wf (f * PAGE_SIZE) n (mach s) (mw_pmm _ Hm)) as (Hwf & Ht & Emem & Hb); [unfold PAGE_SIZE; lia|done|].
  rewrite Z.div_mul in Hb by done. set (m := pmm_free_pages (f * PAGE_SIZE) n (mach s)) in *.
  assert (Hu : forall k, page_used (pmm (mach s)) k -> ~ (f <= k < f + n) -> page_used (pmm m) k).
  { intros k [Hk Hu] Hout. split; [by rewrite Ht|]. rewrite Hb by done. rewrite Hu.
    destruct (Z.leb_spec f k), (Z.ltb_spec k (f + n)); try done; lia. }
  assert (Htab : forall g, tables m g -> tables (mach s) g) by (intros g (p & Hp & Hl & Hw); exists p; by rewrite Emem in Hw).
  assert (Hdata : forall k, page_used (pmm (mach s)) k -> ~ (f <= k < f + n) -> ~ tables (mach s) (k * PAGE_SIZE) ->
    page_used (pmm m) k /\ ~ tables m (k * PAGE_SIZE)) by (intros k H1 H2 H3; split; [by apply Hu|by intros Hx%Htab]).
  split.
  - split; [|split|].
    + split; [done|by rewrite Emem; apply Hm|apply Hm|rewrite Ht; apply Hm].
    + intros p g Hp Hl Hw. rewrite Emem in Hw. destruct (sw_frame _ _ _ Hs p g Hp Hl Hw) as (k & -> & Hk).
      exists k. split; [done|]. apply Hu; [done|]. intros Hin. apply (Hd k Hin). by exists p.
    + intros p q g Hp Hl Hq Hl' Hw Hw'. rewrite Emem in Hw, Hw'. by apply (sw_inj _ _ _ Hs p q g).
    + exact Hat.
  - intros i Hi k Hk. destruct (b_data _ _ (d_live _ _ I i Hi) k Hk) as [H1 H2]. apply Hdata; [done| |done].
    intros Hin. by apply (Ho i k).
  - intros p Hp _. by rewrite Emem.
Qed.

(** Changing the translations of pages on their way. *)
Lemma keeps_update w s m a n f k :
  dma_inv w s -> vm_update kernel_half root (in_pages (page a) (Z.to_nat n)) (mach s) m ->
  0 <= a -> a + n <= DMA_VIRT_PAGE_COUNT -> (forall p, a <= p < a + n -> w p) -> fresh s f k ->
  keeps w s m /\ fresh (set_mach m s) f k.
Proof.
  intros I U Ha Hn Hw [Hd Ho]. pose proof (d_space _ _ I) as Hok.
  assert (Hkeep : forall j, page_used (pmm (mach s)) j -> ~ tables (mach s) (j * PAGE_SIZE) ->
    page_used (pmm m) j /\ ~ tables m (j * PAGE_SIZE)).
  { intros j Hj Hnt. split; [by apply (vu_used _ _ _ _ _ U)|]. intros Ht.
    destruct (vu_new _ _ _ _ _ U _ Ht) as [|Hf]; [done|]. apply Hf. by exists j. }
  split; [split|split].
  - by eapply space_ok_update.
  - intros i Hi j Hj. destruct (b_data _ _ (d_live _ _ I i Hi) j Hj). by apply Hkeep.
  - intros p Hp Hnw. apply (vu_other _ _ _ _ _ U); [by apply page_kernel|].
    apply not_in_pages; [done..|]. intros Hin. by apply Hnw, Hw.
  - intros j Hj. destruct (Hd j Hj). by apply Hkeep.
  - done.
Qed.

(** Clearing pages that are no tables. *)
Lemma clear_mapped_ok m a f n :
  space_ok ks kernel_half root AS_KERNEL m -> 0 <= a -> a + n <= DMA_VIRT_PAGE_COUNT -> 0 <= n ->
  data_pages m f n -> maps m a f n ->
  let m' := clear_mapped ks (page a) n m in
  pmm m' = pmm m /\ ram_bytes (mem m') /\
  (forall p, path_in kernel_half p -> (length p <= 4)%nat -> walk (mem m') root p = walk (mem m) root p) /\
  (forall x, f * PAGE_SIZE <= x < (f + n) * PAGE_SIZE -> mem m' x = 0) /\
  (forall x, ~ (f * PAGE_SIZE <= x < (f + n) * PAGE_SIZE) -> mem m' x = mem m x).
Proof.
  intros [Hm Hs Hat] Ha Hw Hn Hd Hmap m'. unfold m', clear_mapped.
  set (body := fun j m => match translate (mem m) root (u64 (page a + j * PAGE_SIZE)) with
    | Some g => mkMachine (pmm m) (fill (mem m) g PAGE_SIZE 0) | None => m end).
  assert (Hgen : forall k : nat, Z.of_nat k <= n -> let c := for_range body 0 k m in
    pmm c = pmm m /\ ram_bytes (mem c) /\
    (forall p, path_in kernel_half p -> (length p <= 4)%nat -> walk (mem c) root p = walk (mem m) root p) /\
    (forall x, f * PAGE_SIZE <= x < (f + Z.of_nat k) * PAGE_SIZE -> mem c x = 0) /\
    (forall x, ~ (f * PAGE_SIZE <= x < (f + Z.of_nat k) * PAGE_SIZE) -> mem c x = mem m x)).
  2: { replace n with (Z.of_nat (Z.to_nat n)) by lia. rewrite Nat2Z.id. apply Hgen. lia. }
  induction k as [|k IH]; intros Hk c.
  { split_and!; [done|apply Hm|done|intros x Hx; unfold PAGE_SIZE in *; lia|done]. }
  unfold c. rewrite for_range_S_r. specialize (IH ltac:(lia)). cbv zeta in IH. revert IH.
  generalize (for_range body 0 k m). intros c0 (Hp0 & Hb0 & Hw0 & Hz0 & Ho0). rewrite Z.add_0_l.
  assert (translate (mem c0) root (u64 (page a + Z.of_nat k * PAGE_SIZE)) = Some ((f + Z.of_nat k) * PAGE_SIZE)) as Htr.
  { rewrite page_sum, (proj2 (page_small (a + Z.of_nat k) ltac:(lia))). unfold translate.
    rewrite Hw0; [by apply Hmap; lia|by apply va_path_in, page_kernel; lia|done]. }
  unfold body. rewrite Htr. cbn [pmm mem]. split_and!; [done|by apply fill_bytes| | |].
  - intros p Hp Hl. rewrite <- Hw0 by done. revert p Hp Hl. apply walk_ext. intros p g j Hp Hl Hg.
    rewrite Hw0 in Hg by (done || lia || by eapply path_in_app).
    destruct (sw_frame _ _ _ Hs p g (path_in_app _ _ _ Hp) Hl Hg) as (i & -> & Hi).
    apply step_agree; [|by eapply path_in_last]. intros x Hx. apply fill_outside.
    destruct (Hd (f + Z.of_nat k) ltac:(lia)) as [_ Hnt]. assert (i <> f + Z.of_nat k).
    { intros ->. apply Hnt. exists p. split; [by eapply path_in_app|done]. }
    unfold PAGE_SIZE in *. lia.
  - intros x Hx. destruct (decide ((f + Z.of_nat k) * PAGE_SIZE <= x < (f + Z.of_nat k) * PAGE_SIZE + PAGE_SIZE)).
    + by rewrite fill_inside.
    + rewrite fill_outside by done. apply Hz0. unfold PAGE_SIZE in *. lia.
  - intros x Hx. rewrite fill_outside by (unfold PAGE_SIZE in *; lia). apply Ho0. unfold PAGE_SIZE in *. lia.
Qed.

Lemma keeps_cleared w s a f n :
  dma_inv w s -> fresh s f n -> 0 <= a -> a + n <= DMA_VIRT_PAGE_COUNT -> 0 <= n -> maps (mach s) a f n ->
  let m := clear_mapped ks (page a) n (mach s) in
  keeps w s m /\ fresh (set_mach m s) f n /\ maps m a f n /\
  (forall x, f * PAGE_SIZE <= x < (f + n) * PAGE_SIZE -> mem m x = 0) /\
  (forall x, ~ (f * PAGE_SIZE <= x < (f + n) * PAGE_SIZE) -> mem m x = mem (mach s) x).
Proof.
  intros I [Hd Ho] Ha Hw Hn Hmap m.
  destruct (clear_mapped_ok (mach s) a f n (d_space _ _ I) Ha Hw Hn Hd Hmap) as (Hp & Hb & Hwalk & Hz & Hrest).
  fold m in Hp, Hb, Hwalk, Hz, Hrest. destruct (d_space _ _ I) as [Hm Hs Hat].
  assert (Htab : forall g, tables m g -> tables (mach s) g).
  { intros g (p & H1 & H2 & H3). exists p. split_and!; [done|done|]. by rewrite <- Hwalk by (done || lia). }
  assert (Hdata : forall g k, data_pages (mach s) g k -> data_pages m g k).
  { intros g k H1 j Hj. destruct (H1 j Hj) as [H2 H3]. rewrite Hp. split; [done|]. by intros Hx%Htab. }
  assert (Htr : forall p, 0 <= p < DMA_VIRT_PAGE_COUNT -> translate (mem m) root (page p) = translate (mem (mach s)) root (page p)).
  { intros p Hpr. apply Hwalk; [by apply va_path_in, page_kernel|done]. }
  split_and!; [split|split| |done|done].
  - split; [|split|exact Hat].
    + destruct Hm as [H1 H2 H3 H4]. split; [by rewrite Hp|done|done|by rewrite Hp].
    + intros p g H1 H2 H3. rewrite Hwalk in H3 by (done || lia). unfold used_frame. rewrite Hp. by apply (sw_frame _ _ _ Hs p).
    + intros p q g H1 H2 H3 H4 H5 H6. rewrite Hwalk in H5, H6 by (done || lia). by apply (sw_inj _ _ _ Hs p q g).
  - intros i Hi. apply Hdata, (b_data _ _ (d_live _ _ I i Hi)).
  - intros p Hpr _. by apply Htr.
  - by apply Hdata.
  - exact Ho.
  - intros j Hj. rewrite Htr by lia. by apply Hmap.
Qed.

(** ** The window and the table *)

Definition run (a n p : Z) : Prop := a <= p < a + n.

(** No [n] pages of the window in a row are free. *)
Definition window_full (s : dma_state) (n : Z) : Prop :=
  forall a, 0 <= a -> a + n <= DMA_VIRT_PAGE_COUNT -> exists p, run a n p /\ virt_used (virt_bitmap s) p = true.

Lemma not_all_free s n a : 0 <= n -> ~ run_at (fun i => negb (virt_used (virt_bitmap s) i)) a n ->
  exists p, run a n p /\ virt_used (virt_bitmap s) p = true.
Proof.
  intros Hn H1. destruct (find_first (virt_used (virt_bitmap s)) a (Z.to_nat n)) as [p|] eqn:E.
  - apply find_first_Some in E as (Hp & Hu & _). exists p. split; [unfold run; lia|done].
  - exfalso. apply H1. intros k Hk. rewrite find_first_None in E. rewrite E by lia. done.
Qed.

(** Taking pages of the window. *)
Lemma virt_range_alloc_cases n s : dma_ok s -> 0 < n ->
  (virt_range_alloc n s = (s, 0) /\ window_full s n \/
   exists a b, virt_range_alloc n s = (set_virt b s, page a) /\ 0 <= a /\ a + n <= DMA_VIRT_PAGE_COUNT /\
     (forall p, run a n p -> virt_used (virt_bitmap s) p = false) /\
     (forall s', 0 <= s' < a -> ~ (forall p, run s' n p -> virt_used (virt_bitmap s) p = false)) /\
     dma_inv (run a n) (set_virt b s)).
Proof.
  intros I Hn. unfold virt_range_alloc.
  pose proof (scan_run_first (fun i => negb (virt_used (virt_bitmap s) i)) n (Z.to_nat DMA_VIRT_PAGE_COUNT) Hn) as Hscan.
  destruct (scan_run _ n 0 _ 0 0) as [a|].
  2: { left. split; [done|]. intros a Ha Hend. apply not_all_free; [lia|]. apply Hscan; [done|lia]. }
  right.
  destruct Hscan as (Ha & Hend & Hrun & Hlow). rewrite Z2Nat.id in Hend by done.
  assert (Hfree : forall p, run a n p -> virt_used (virt_bitmap s) p = false) by (intros p Hp; by apply negb_true_iff, Hrun).
  pose proof (d_bitmap _ _ I) as Hlen.
  assert (64 * Z.of_nat (length (virt_bitmap s)) = DMA_VIRT_PAGE_COUNT) as Hlen' by (rewrite Hlen; done).
  destruct (virt_set_run (virt_bitmap s) a (Z.to_nat n)) as [Hl Hset]; [lia|lia|]. cbv zeta in Hl, Hset.
  rewrite Z2Nat.id in Hset by lia.
  exists a, (for_range virt_set a (Z.to_nat n) (virt_bitmap s)). split_and!; [|done|done|done| |].
  - f_equal. apply page_small. lia.
  - intros s' Hs' Hf. apply (Hlow s' Hs'). intros p Hp. by apply negb_true_iff, Hf.
  - split; [apply (d_space _ _ I)|by rewrite <- Hlen; cbn [virt_bitmap set_virt]; f_equal|apply (d_meta _ _ I)|apply (d_live _ _ I)|apply (d_apart _ _ I)| | |].
    + intros i p Hi Hc Hw. pose proof (b_window _ _ (d_live _ _ I i Hi)).
      assert (virt_used (virt_bitmap s) p = true) by (apply (d_bits _ _ I); [unfold covers, meta_at, set_virt in *; cbn [meta] in *; lia|left; by exists i]).
      rewrite Hfree in *; done.
    + intros p Hp. cbn [virt_bitmap set_virt]. rewrite Hset by lia. rewrite orb_true_iff, in_run_spec, (d_bits _ _ I p Hp).
      unfold run. tauto.
    + intros p Hp Hu. cbn [virt_bitmap set_virt mach] in *. rewrite Hset in Hu by lia. apply orb_false_elim in Hu as [_ Hu].
      by apply (d_rest _ _ I).
Qed.

(** Giving them back, when they are no longer mapped. *)
Lemma virt_range_free_ok a n s : dma_inv (run a n) s -> 0 < n -> 0 <= a -> a + n <= DMA_VIRT_PAGE_COUNT ->
  (forall p, run a n p -> translate (mem (mach s)) root (page p) = None) ->
  dma_ok (virt_range_free (page a) n s).
Proof.
  intros I Hn Ha Hend Hnone. unfold virt_range_free.
  assert (u64 (page a - DMA_VIRT_BASE) / PAGE_SIZE = a) as ->.
  { unfold page. replace (DMA_VIRT_BASE + a * PAGE_SIZE - DMA_VIRT_BASE) with (a * PAGE_SIZE) by lia.
    rewrite u64_small by (unfold PAGE_SIZE, DMA_VIRT_PAGE_COUNT in *; lia). by apply Z.div_mul. }
  pose proof (d_bitmap _ _ I) as Hlen.
  assert (64 * Z.of_nat (length (virt_bitmap s)) = DMA_VIRT_PAGE_COUNT) as Hlen' by (rewrite Hlen; done).
  destruct (virt_clear_run (virt_bitmap s) a (Z.to_nat n)) as [Hl Hclr]; [lia|lia|]. cbv zeta in Hl, Hclr.
  rewrite Z2Nat.id in Hclr by lia.
  split; [apply (d_space _ _ I)|by rewrite <- Hlen; cbn [virt_bitmap set_virt]; f_equal|apply (d_meta _ _ I)|apply (d_live _ _ I)|apply (d_apart _ _ I)|tauto| |].
  - intros p Hp. cbn [virt_bitmap set_virt]. rewrite Hclr by lia. rewrite andb_true_iff, negb_true_iff.
    rewrite (d_bits _ _ I p Hp). split.
    + intros [Hout [Hc|Hw]]; [by left|]. apply in_run_spec in Hw. congruence.
    + intros [(i & Hi & Hc)|[]]. split; [|left; by exists i]. apply not_true_iff_false. rewrite in_run_spec.
      by apply (d_new _ _ I i).
  - intros p Hp Hu. cbn [virt_bitmap set_virt mach] in *. rewrite Hclr in Hu by lia.
    destruct (virt_used (virt_bitmap s) p) eqn:E; [|by apply (d_rest _ _ I)].
    rewrite andb_true_r in Hu. apply negb_false_iff, in_run_spec in Hu. by apply Hnone.
Qed.

Lemma meta_at_put s i j e : 0 <= i < META_CAP -> Z.of_nat (length (meta s)) = META_CAP ->
  meta_at (set_meta (aset (meta s) i e) s) j = if decide (j = i) then e else meta_at s j.
Proof.
  intros Hi Hl. unfold meta_at. cbn [meta set_meta]. destruct (decide (j = i)) as [->|Hne].
  - apply aget_aset_eq. lia.
  - apply aget_aset_ne; [congruence|lia].
Qed.

(** A buffer enters the table. *)
Lemma enter_ok s i a n f sz zn :
  dma_inv (run a n) s -> fresh s f n -> maps (mach s) a f n -> meta_alloc s = Some i ->
  0 < f < 2 ^ 52 -> 0 < n < 2 ^ 63 -> 0 <= a -> a + n <= DMA_VIRT_PAGE_COUNT ->
  let e := mkMeta (page a) (f * PAGE_SIZE) sz n zn false true in
  let s' := set_meta (aset (meta s) i e) s in
  dma_ok s' /\ live s' i /\ meta_at s' i = e /\ ~ live s i /\ first e = a /\ frame e = f /\
  forall j, j <> i -> meta_at s' j = meta_at s j.
Proof.
  intros I [Hd Ho] Hmap Hi Hf Hn Ha Hend e s'. apply find_first_Some in Hi as (Hi & Hfree & _).
  assert (0 <= i < META_CAP) as Hi' by (unfold META_CAP in *; lia). apply negb_true_iff in Hfree.
  assert (Hat : forall j, meta_at s' j = if decide (j = i) then e else meta_at s j) by (intros j; by apply meta_at_put, (d_meta _ _ I)).
  assert (first e = a) as Ef.
  { unfold first, e, page. cbn [virt]. replace (DMA_VIRT_BASE + a * PAGE_SIZE - DMA_VIRT_BASE) with (a * PAGE_SIZE) by lia. by apply Z.div_mul. }
  assert (frame e = f) as Eg by (unfold frame, e; cbn [phys]; by apply Z.div_mul).
  assert (Hlive : forall j, live s' j <-> j = i \/ live s j).
  { intros j. unfold live. rewrite Hat. destruct (decide (j = i)) as [->|Hne]; [|tauto]. split; [by left|done]. }
  assert (Hne : forall j, live s j -> j <> i) by (intros j [_ Hj] ->; congruence).
  assert (Hold : forall j, live s j -> meta_at s' j = meta_at s j) by (intros j Hj; rewrite Hat, decide_False by (by apply Hne); done).
  assert (Hnew : meta_at s' i = e) by (rewrite Hat; by rewrite decide_True).
  split_and!; [split|by apply Hlive; left|done|intros Hl; by apply (Hne i)|done|done|].
  - apply (d_space _ _ I).
  - apply (d_bitmap _ _ I).
  - unfold s'. cbn [meta set_meta]. rewrite length_aset. apply (d_meta _ _ I).
  - intros j [->|Hj]%Hlive; [|rewrite Hold by done; by apply (d_live _ _ I)]. rewrite Hnew. change (mach s') with (mach s).
    split; rewrite ?Ef, ?Eg; try done.
  - intros j k [->|Hj]%Hlive [->|Hk]%Hlive Hjk; [done| | |].
    + rewrite Hnew, Hold by done. unfold covers, owns. rewrite Ef, Eg. cbn [pages e]. split; intros p Hp Hc.
      * by apply (d_new _ _ I k p Hk Hc).
      * by apply (Ho k p).
    + rewrite Hnew, Hold by done. unfold covers at 2, owns at 2. rewrite Ef, Eg. cbn [pages e]. split; intros p Hp Hc.
      * by apply (d_new _ _ I j p Hj Hp).
      * by apply (Ho j p).
    + rewrite !Hold by done. by apply (d_apart _ _ I).
  - by intros j p _ _ [].
  - intros p Hp. change (virt_bitmap s') with (virt_bitmap s). rewrite (d_bits _ _ I p Hp). split.
    + intros [(j & Hj & Hc)|Hw]; left.
      * exists j. split; [apply Hlive; by right|by rewrite Hold].
      * exists i. split; [apply Hlive; by left|]. rewrite Hnew. unfold covers. by rewrite Ef.
    + intros [(j & Hj & Hc)|[]]. apply Hlive in Hj as [->|Hj].
      * right. rewrite Hnew in Hc. unfold covers in Hc. by rewrite Ef in Hc.
      * left. exists j. by rewrite Hold in Hc.
  - apply (d_rest _ _ I).
  - intros j Hj. rewrite Hat. by rewrite decide_False.
Qed.

(** A buffer leaves the table. *)
Lemma remove_ok s i :
  dma_ok s -> live s i ->
  let e := meta_at s i in
  let s' := meta_free i s in
  dma_inv (run (first e) (pages e)) s' /\ fresh s' (frame e) (pages e) /\
  forall j, live s' j <-> live s j /\ j <> i.
Proof.
  intros I Hl e s'. destruct Hl as [Hi Hu]. unfold meta_free in s'.
  assert (Hat : forall j, meta_at s' j = if decide (j = i) then set_used false e else meta_at s j) by (intros j; by apply meta_at_put, (d_meta _ _ I)).
  assert (Hlive : forall j, live s' j <-> live s j /\ j <> i).
  { intros j. unfold live. rewrite Hat. destruct (decide (j = i)) as [->|Hne]; [|tauto]. split; [by intros [_ [=]]|tauto]. }
  assert (Hold : forall j, live s' j -> meta_at s' j = meta_at s j) by (intros j [_ Hj]%Hlive; rewrite Hat; by rewrite decide_False).
  assert (Hap : forall j, live s' j -> (forall p, covers (meta_at s j) p -> ~ covers e p) /\ (forall k, owns (meta_at s j) k -> ~ owns e k)).
  { intros j [Hj Hne]%Hlive. by apply (d_apart _ _ I). }
  split; [split|split; [split|done]].
  - apply (d_space _ _ I).
  - apply (d_bitmap _ _ I).
  - unfold s'. cbn [meta set_meta]. rewrite length_aset. apply (d_meta _ _ I).
  - intros j Hj. rewrite Hold by done. apply Hlive in Hj as [Hj _]. by apply (d_live _ _ I).
  - intros j k Hj Hk Hjk. rewrite !Hold by done. apply Hlive in Hj as [Hj _]. apply Hlive in Hk as [Hk _]. by apply (d_apart _ _ I).
  - intros j p Hj. rewrite Hold by done. apply Hap, Hj.
  - intros p Hp. change (virt_bitmap s') with (virt_bitmap s). rewrite (d_bits _ _ I p Hp). split.
    + intros [(j & Hj & Hc)|[]]. destruct (decide (j = i)) as [->|Hne]; [by right|left].
      exists j. split; [by apply Hlive|]. rewrite Hold by (by apply Hlive). done.
    + intros [(j & Hj & Hc)|Hw]; left.
      * exists j. rewrite Hold in Hc by done. by apply Hlive in Hj as [Hj _].
      * by exists i.
  - apply (d_rest _ _ I).
  - apply (b_data _ _ (d_live _ _ I i (conj Hi Hu))).
  - intros j k Hj Hk Ho. rewrite Hold in Ho by done. by apply (proj2 (Hap j Hj) k Ho).
Qed.

(** ** Allocation *)

(** The data pages of [m] are as in [s]. *)
Definition same_data (s : dma_state) (m : machine) : Prop :=
  forall k x, page_used (pmm (mach s)) k -> ~ tables (mach s) (k * PAGE_SIZE) ->
    k * PAGE_SIZE <= x < (k + 1) * PAGE_SIZE -> mem m x = mem (mach s) x.
(** The live buffers are as before, and what is in them. *)
Definition intact (s s' : dma_state) : Prop :=
  forall j, live s j -> meta_at s' j = meta_at s j /\
    forall x, phys (meta_at s j) <= x < phys (meta_at s j) + pages (meta_at s j) * PAGE_SIZE ->
      mem (mach s') x = mem (mach s) x.

Lemma intact_refl s : intact s s.
Proof. done. Qed.
Lemma intact_trans s1 s2 s3 : intact s1 s2 -> intact s2 s3 -> intact s1 s3.
Proof.
  intros H1 H2 j Hj. destruct (H1 j Hj) as [E1 M1].
  assert (live s2 j) as Hj2 by (split; [apply Hj|rewrite E1; apply Hj]). destruct (H2 j Hj2) as [E2 M2].
  split; [by rewrite E2|]. intros x Hx. rewrite M2, M1 by (rewrite ?E1; done). done.
Qed.

Lemma owned_byte w s j x : dma_inv w s -> live s j ->
  phys (meta_at s j) <= x < phys (meta_at s j) + pages (meta_at s j) * PAGE_SIZE ->
  owns (meta_at s j) (x / PAGE_SIZE) /\ x / PAGE_SIZE * PAGE_SIZE <= x < (x / PAGE_SIZE + 1) * PAGE_SIZE.
Proof.
  intros I Hj Hx. pose proof (d_live _ _ I j Hj) as B. rewrite (b_phys _ _ B) in Hx. unfold owns, PAGE_SIZE in *.
  split; zdiv_lia.
Qed.

Lemma same_intact w s m : dma_inv w s -> same_data s m -> intact s (set_mach m s).
Proof.
  intros I Hs j Hj. split; [done|]. intros x Hx. destruct (owned_byte w s j x I Hj Hx) as [Ho Hp].
  destruct (b_data _ _ (d_live _ _ I j Hj) _ Ho). by apply (Hs (x / PAGE_SIZE)).
Qed.

Lemma give_back_ok s f n : dma_ok s -> fresh s f n -> 0 < f < 2 ^ 52 -> 0 < n < 2 ^ 63 ->
  dma_ok (give_back false (f * PAGE_SIZE) n s) /\ intact s (give_back false (f * PAGE_SIZE) n s) /\
  forall i, meta_at (give_back false (f * PAGE_SIZE) n s) i = meta_at s i.
Proof.
  intros I F Hf Hn. unfold give_back. destruct (Z.eqb_spec (f * PAGE_SIZE) 0); [unfold PAGE_SIZE in *; lia|]. cbn [negb].
  split_and!; [by apply inv_keeps, keeps_freed| |done].
  apply (same_intact (fun _ => False)); [done|]. intros k x _ _ _.
  destruct (pmm_free_pages_wf (f * PAGE_SIZE) n (mach s) (mw_pmm _ (so_machine _ _ _ _ _ (d_space _ _ I)))) as (_ & _ & -> & _);
    [unfold PAGE_SIZE; lia|done|done].
Qed.

(** What an attempt to place the pages at [f] leads to. *)
Definition placed (s s' : dma_state) (va sz n zn f : Z) : Prop :=
  exists i, ~ live s i /\ live s' i /\ meta_at s' i = mkMeta va (f * PAGE_SIZE) sz n zn false true /\
    (forall j, j <> i -> meta_at s' j = meta_at s j) /\
    forall x, f * PAGE_SIZE <= x < (f + n) * PAGE_SIZE -> mem (mach s') x = 0.

(** Why an attempt fails: the window or the table is full, or the pages cannot
    be mapped. *)
Definition no_place (s : dma_state) (n f : Z) : Prop :=
  window_full s n \/ meta_alloc s = None \/
  exists a, snd (vmm_map_range ks AS_KERNEL (page a) (f * PAGE_SIZE) n DMA_MAP_FLAGS (mach s)) = false.

Lemma fresh_phys s f n : dma_ok s -> fresh s f n -> 0 < f -> 0 < n ->
  page_range (f * PAGE_SIZE) (Z.to_nat n) /\ f * PAGE_SIZE < 2 ^ 64 /\ f < 2 ^ 52.
Proof.
  intros I [Hd _] Hf Hn. destruct (Hd (f + n - 1) ltac:(lia)) as [[Hr _] _].
  pose proof (mw_top _ (so_machine _ _ _ _ _ (d_space _ _ I))). pose proof (mw_hhdm _ (so_machine _ _ _ _ _ (d_space _ _ I))).
  unfold page_range, PAGE_SIZE in *. lia.
Qed.

Lemma update_data s m P : vm_update kernel_half root P (mach s) m -> same_data s m.
Proof. intros U k x H1 H2 H3. by apply (vu_data _ _ _ _ _ U k). Qed.

Lemma maps_of_range m a f n : 0 < f -> 0 <= n -> f * PAGE_SIZE + n * PAGE_SIZE <= 2 ^ 64 ->
  pages_mapped root (page a) (f * PAGE_SIZE) 0 (Z.to_nat n) m -> maps m a f n.
Proof.
  intros Hf Hn Hend HM j Hj. specialize (HM j ltac:(lia)). rewrite page_sum in HM. rewrite HM.
  f_equal. replace (f * PAGE_SIZE + j * PAGE_SIZE) with ((f + j) * PAGE_SIZE) by lia.
  rewrite land_PAGE_MASK by (unfold PAGE_SIZE in *; lia). by rewrite Z.div_mul.
Qed.

(** Undoing an attempt whose pages are no longer mapped. *)
Lemma undo_ok s a n f :
  dma_inv (run a n) s -> fresh s f n -> 0 < f < 2 ^ 52 -> 0 < n -> 0 <= a -> a + n <= DMA_VIRT_PAGE_COUNT ->
  (forall p, run a n p -> translate (mem (mach s)) root (page p) = None) ->
  let s' := give_back false (f * PAGE_SIZE) n (virt_range_free (page a) n s) in
  dma_ok s' /\ intact s s' /\ forall i, meta_at s' i = meta_at s i.
Proof.
  intros I F Hf Hn Ha Hend Hnone s'.
  pose proof (virt_range_free_ok a n s I Hn Ha Hend Hnone) as I1.
  destruct (give_back_ok (virt_range_free (page a) n s) f n I1 F Hf) as (H1 & H2 & H3); [unfold DMA_VIRT_PAGE_COUNT in *; lia|].
  split_and!; [done|exact H2|exact H3].
Qed.

(** The pages of an attempt are mapped, or nothing is. *)
Lemma map_attempt s a n f :
  dma_inv (run a n) s -> fresh s f n -> 0 < f -> 0 < n -> 0 <= a -> a + n <= DMA_VIRT_PAGE_COUNT ->
  page_range (f * PAGE_SIZE) (Z.to_nat n) -> f * PAGE_SIZE < 2 ^ 64 ->
  (forall p, run a n p -> translate (mem (mach s)) root (page p) = None) ->
  exists m ok, vmm_map_range ks AS_KERNEL (page a) (f * PAGE_SIZE) n DMA_MAP_FLAGS (mach s) = (m, ok) /\
    dma_inv (run a n) (set_mach m s) /\ fresh (set_mach m s) f n /\ same_data s m /\
    if ok then maps m a f n else forall p, run a n p -> translate (mem m) root (page p) = None.
Proof.
  intros I F Hf Hn Ha Hend Hpr Hp64 Hnone. destruct (page_small a ltac:(lia)) as [Hva _].
  assert (HD : forall j, 0 <= j < Z.of_nat (Z.to_nat n) -> kernel_half (PML4_INDEX (page a + j * PAGE_SIZE)))
    by (intros j Hj; rewrite page_sum; apply page_kernel; lia).
  destruct (vmm_map_range_cases ks kernel_half root AS_KERNEL (page a) (f * PAGE_SIZE) (Z.to_nat n) DMA_MAP_FLAGS (mach s)
    (d_space _ _ I) ltac:(done) (page_run a n ltac:(lia) ltac:(lia) Hend) Hpr ltac:(lia) Hp64 ltac:(unfold DMA_VIRT_PAGE_COUNT in *; lia) HD)
    as (m & ok & Emap & Hok & C).
  rewrite Z2Nat.id in Emap by lia. exists m, ok. split; [exact Emap|].
  assert (vm_update kernel_half root (in_pages (page a) (Z.to_nat n)) (mach s) m) as U.
  { destruct C as [(_ & U & _)|(_ & k & Hk & U & _)]; [done|]. apply (vm_update_mono _ _ _ _ _ _ U).
    intros va (j & Hj & E). exists j. split; [lia|done]. }
  destruct (keeps_update (run a n) s m a n f n I U Ha Hend ltac:(done) F) as [K F1].
  split_and!; [by apply inv_keeps|done|by eapply update_data|].
  destruct C as [(-> & _ & T)|(-> & k & Hk & Uk & T)].
  - apply maps_of_range; [done|lia|unfold page_range in Hpr; lia|done].
  - intros p Hp. unfold run in Hp. destruct (decide (p < a + Z.of_nat k)).
    + specialize (T (p - a) ltac:(lia)). rewrite page_sum in T. by replace (a + (p - a)) with p in T by lia.
    + rewrite (vu_other _ _ _ _ _ Uk); [by apply Hnone|apply page_kernel; lia|].
      replace k with (Z.to_nat (Z.of_nat k)) by lia. apply not_in_pages; lia.
Qed.

Lemma dma_place_spec s sz n zn f :
  dma_ok s -> fresh s f n -> 0 < f -> 0 < n ->
  let '(s', r) := dma_place ks sz n zn false (f * PAGE_SIZE) s in
  dma_ok s' /\ intact s s' /\
  match r with
  | None => (forall i, meta_at s' i = meta_at s i) /\ no_place s n f
  | Some va => va <> 0 /\ placed s s' va sz n zn f
  end.
Proof.
  intros I F Hf Hn. destruct (fresh_phys s f n I F Hf Hn) as (Hpr & Hp64 & Hf52). unfold dma_place.
  destruct (virt_range_alloc_cases n s I Hn) as [[-> Hfull] | (a & b & -> & Ha & Hend & Hfree & _ & I1)].
  { cbn [Z.eqb]. destruct (give_back_ok s f n I F) as (H1 & H2 & H3); [lia|unfold page_range, PAGE_SIZE in *; lia|].
    split_and!; [done|done|done|by left]. }
  destruct (page_small a ltac:(lia)) as [Hva _]. destruct (Z.eqb_spec (page a) 0); [lia|].
  destruct (map_attempt (set_virt b s) a n f I1 F Hf Hn Ha Hend Hpr Hp64) as (m & ok & Emap & I2 & F2 & Sm & Hm).
  { intros p Hp. unfold run in Hp. apply (d_rest _ _ I); [lia|by apply Hfree]. }
  rewrite Emap. set (s2 := set_mach m (set_virt b s)) in *.
  assert (intact s s2) as In2 by exact (same_intact _ _ _ I1 Sm).
  destruct ok; cbn [negb].
  2: { destruct (undo_ok s2 a n f I2 F2 ltac:(lia) Hn Ha Hend Hm) as (H1 & H2 & H3).
    split_and!; [done|by apply (intact_trans _ s2)|exact H3|]. right. right. exists a. change (mach s) with (mach (set_virt b s)). by rewrite Emap. }
  destruct (keeps_cleared (run a n) s2 a f n I2 F2 Ha Hend ltac:(lia) Hm) as (K3 & F3 & M3 & Hz & Hrest).
  change (mach s2) with m in *. set (m3 := clear_mapped ks (page a) n m) in *. set (s3 := set_mach m3 s2) in *.
  pose proof (inv_keeps _ _ _ I2 K3) as I3. fold s3 in I3.
  assert (intact s2 s3) as In3.
  { intros j Hj. split; [done|]. intros x Hx. apply Hrest. intros Hin.
    destruct (owned_byte _ _ j x I2 Hj Hx) as [Ho _]. apply (proj2 F2 j (x / PAGE_SIZE)); [done| |done].
    unfold PAGE_SIZE in *. zdiv_lia. }
  destruct (meta_alloc s3) as [i|] eqn:Ei.
  - destruct (enter_ok s3 i a n f sz zn I3 F3 M3 Ei ltac:(lia) ltac:(unfold DMA_VIRT_PAGE_COUNT in *; lia) Ha Hend)
      as (H1 & H2 & H3 & H4 & _ & _ & H5).
    split_and!; [exact H1| |done|].
    + apply (intact_trans _ s2); [done|]. apply (intact_trans _ s3); [done|]. intros j Hj. split; [|done]. apply H5.
      intros ->. by apply H4.
    + exists i. split_and!; [exact H4|exact H2|exact H3|exact H5|exact Hz].
  - destruct (unmap_first_cases ks kernel_half root AS_KERNEL (page a) (Z.to_nat n) (mach s3) (d_space _ _ I3)
      (page_run a n ltac:(lia) ltac:(lia) Hend)) as (_ & U4 & _ & T4).
    { intros j Hj. rewrite page_sum. apply page_kernel. lia. }
    change (unmap_first ks AS_KERNEL (page a) (Z.to_nat n) (mach s3)) with (vmm_unmap_range ks AS_KERNEL (page a) n (mach s3)) in *.
    set (m4 := vmm_unmap_range ks AS_KERNEL (page a) n (mach s3)) in *.
    destruct (keeps_update (run a n) s3 m4 a n f n I3 U4 Ha Hend ltac:(done) F3) as [K4 F4].
    pose proof (inv_keeps _ _ _ I3 K4) as I4. set (s4 := set_mach m4 s3) in *.
    assert (intact s3 s4) as In4 by (apply (same_intact _ _ _ I3); by eapply update_data).
    destruct (undo_ok s4 a n f I4 F4 ltac:(lia) Hn Ha Hend) as (H1 & H2 & H3).
    { intros p Hp. unfold run in Hp. specialize (T4 (p - a) ltac:(lia)). rewrite page_sum in T4. by replace (a + (p - a)) with p in T4 by lia. }
    split_and!; [exact H1| |exact H3|right; by left].
    apply (intact_trans _ s2); [done|]. apply (intact_trans _ s3); [done|]. by apply (intact_trans _ s4).
Qed.

(** ** Whole calls *)

Definition page_count (sz : Z) : Z := u64 (sz + PAGE_SIZE - 1) / PAGE_SIZE.
Lemma page_count_bounds sz : 0 < sz <= 2 ^ 63 -> 0 < page_count sz < 2 ^ 63 /\ sz <= page_count sz * PAGE_SIZE.
Proof. intros Hs. unfold page_count. rewrite u64_small by (unfold PAGE_SIZE; lia). unfold PAGE_SIZE. zdiv_lia. Qed.

(** The frames [f] to [f + n] lie as asked for. *)
Definition well_placed (f sz alignment boundary : Z) : Prop :=
  (forall k, 0 <= k -> alignment = 2 ^ k -> (f * PAGE_SIZE) mod 2 ^ k = 0) /\
  (forall k, 0 <= k -> boundary = 2 ^ k -> f * PAGE_SIZE / 2 ^ k = (f * PAGE_SIZE + sz - 1) / 2 ^ k).

Lemma well_placed_checks f sz alignment boundary :
  0 <= f * PAGE_SIZE -> 0 < sz -> f * PAGE_SIZE + sz <= 2 ^ 64 ->
  misaligned (f * PAGE_SIZE) alignment = false -> crosses (f * PAGE_SIZE) sz boundary = false ->
  well_placed f sz alignment boundary.
Proof.
  intros Hf Hsz Hend Hm Hc. split; intros k Hk ->; pose proof (Z.pow_pos_nonneg 2 k ltac:(lia) Hk) as Hpow.
  - unfold misaligned in Hm. destruct (Z.eqb_spec (2 ^ k) 0); [lia|]. cbn [negb andb] in Hm.
    rewrite land_ones_mod in Hm by done. by prop_bools.
  - unfold crosses in Hc. destruct (Z.eqb_spec (2 ^ k) 0); [lia|]. cbn [negb andb] in Hc.
    apply negb_false_iff, Z.eqb_eq in Hc. replace (2 ^ k - 1) with (Z.ones k) in Hc by (rewrite Z.ones_equiv; lia).
    rewrite !land_lnot_ones, u64_small in Hc by lia.
    pose proof (Z.div_mod (f * PAGE_SIZE) (2 ^ k) ltac:(lia)). pose proof (Z.div_mod (f * PAGE_SIZE + sz - 1) (2 ^ k) ltac:(lia)).
    nia.
Qed.

(** The lowest run of free pages is at [f]. *)
Definition lowest_run (m : machine) (f n : Z) : Prop :=
  (forall k, run f n k -> page_free (pmm m) k) /\
  forall f', 0 <= f' < f -> ~ (forall k, run f' n k -> page_free (pmm m) k).

Lemma lowest_run_unique m f g n : 0 < n -> lowest_run m f n -> lowest_run m g n -> f = g.
Proof.
  intros Hn [F1 F2] [G1 G2]. assert (0 <= f /\ 0 <= g) as [Hf Hg].
  { destruct (F1 f) as [? _]; [unfold run; lia|]. destruct (G1 g) as [? _]; [unfold run; lia|]. lia. }
  destruct (Z.lt_trichotomy f g) as [|[|]]; [|done|].
  - exfalso. by apply (G2 f).
  - exfalso. by apply (F2 g).
Qed.

(** Why a round of the loop gives the pages back. *)
Definition retry_reason (s : dma_state) (sz alignment boundary n f : Z) : Prop :=
  misaligned (f * PAGE_SIZE) alignment = true \/ crosses (f * PAGE_SIZE) sz boundary = true \/
  exists m, taken (mach s) m f n /\ no_place (set_mach m s) n f.

Lemma dma_round_spec s sz alignment boundary zn :
  dma_ok s -> 0 < sz <= 2 ^ 63 -> zn <> DMA_ZONE_ISA ->
  let n := page_count sz in
  let '(s', r) := dma_round ks sz alignment boundary zn n s in
  dma_ok s' /\ intact s s' /\
  match r with
  | Some va =>
      (va = 0 /\ (forall i, meta_at s' i = meta_at s i) /\ forall f, 0 < f -> ~ lowest_run (mach s) f n) \/
      (va <> 0 /\ exists f, lowest_run (mach s) f n /\ placed s s' va sz n zn f /\ well_placed f sz alignment boundary)
  | None => (forall i, meta_at s' i = meta_at s i) /\
      exists f, lowest_run (mach s) f n /\ retry_reason s sz alignment boundary n f
  end.
Proof.
  intros I Hsz Hz n. destruct (page_count_bounds sz Hsz) as [Hn Hszn]. fold n in Hn, Hszn. unfold dma_round.
  destruct (Z.eqb_spec zn DMA_ZONE_ISA) as [|_]; [done|]. cbn [andb].
  pose proof (so_machine _ _ _ _ _ (d_space _ _ I)) as Hm.
  destruct (pmm_alloc_pages_cases n (mach s) (mw_pmm _ Hm) ltac:(lia)) as [(f & m & -> & T & Hlow)|[-> Hno]].
  2: { rewrite Z.eqb_refl. replace (set_mach (mach s) s) with s by (by destruct s). split_and!; [done|done|].
    left. split_and!; [done|done|]. intros f _ [Hf _]. by apply (Hno f). }
  assert (lowest_run (mach s) f n) as Hlr by (split; [apply (taken_free _ _ _ _ T)|exact Hlow]).
  destruct (keeps_taken _ s m f n I T) as [K F]. pose proof (inv_keeps _ _ _ I K) as I1.
  assert (intact s (set_mach m s)) as In1.
  { apply (same_intact (fun _ => False)); [done|]. intros k x Hk _ Hx.
    by apply (taken_keeps (mach s) m f n (mem m) k x T (taken_frame _ _ _ _ T)). }
  destruct (taken_range _ _ _ _ T) as (Hf0 & _ & _).
  destruct (Z.eqb_spec (f * PAGE_SIZE) 0) as [E0|E0].
  { split_and!; [done|done|]. left. split_and!; [done|done|]. intros g Hg Hgr.
    pose proof (lowest_run_unique (mach s) f g n ltac:(lia) Hlr Hgr). unfold PAGE_SIZE in *. lia. }
  assert (0 < f) as Hf by (unfold PAGE_SIZE in *; lia).
  destruct (fresh_phys _ f n I1 F Hf ltac:(lia)) as (Hpr & Hp64 & Hf52).
  destruct (misaligned (f * PAGE_SIZE) alignment || crosses (f * PAGE_SIZE) sz boundary) eqn:Ebad.
  - destruct (give_back_ok _ f n I1 F ltac:(lia) Hn) as (H1 & H2 & H3).
    split_and!; [exact H1|by apply (intact_trans _ (set_mach m s))|exact H3|].
    exists f. split; [done|]. apply orb_prop in Ebad as [Eb|Eb]; [by left|by right; left].
  - apply orb_false_elim in Ebad as [Em Ec].
    pose proof (dma_place_spec _ sz n zn f I1 F Hf ltac:(lia)) as Hpl.
    destruct (dma_place ks sz n zn false (f * PAGE_SIZE) (set_mach m s)) as [s' [va|]]; destruct Hpl as (H1 & H2 & H3).
    + split_and!; [done|by apply (intact_trans _ (set_mach m s))|]. right. destruct H3 as [Hva P]. split; [done|].
      exists f. split_and!; [done|exact P|]. apply well_placed_checks; [unfold PAGE_SIZE; lia|lia| |done|done].
      unfold page_range in Hpr. rewrite Z2Nat.id in Hpr by lia. lia.
    + destruct H3 as [H3 Hr]. split_and!; [done|by apply (intact_trans _ (set_mach m s))|exact H3|].
      exists f. split; [done|]. right. right. by exists m.
Qed.


Lemma meta_find_live s i : dma_ok s -> live s i -> meta_find (virt (meta_at s i)) s = Some i.
Proof.
  intros I Hl. pose proof Hl as [Hi Hu]. apply find_first_exact; [unfold META_CAP in *; lia|by rewrite Hu, Z.eqb_refl|].
  intros k Hk. apply not_true_iff_false. rewrite andb_true_iff, Z.eqb_eq. intros [Hk1 Hk2].
  assert (live s k) as Hlk by (split; [lia|done]).
  destruct (d_apart _ _ I k i Hlk Hl ltac:(lia)) as [Hap _]. apply (Hap (first (meta_at s k))).
  - pose proof (b_pages _ _ (d_live _ _ I k Hlk)). unfold covers. lia.
  - pose proof (b_pages _ _ (d_live _ _ I i Hl)). unfold covers, first. rewrite Hk2. lia.
Qed.

(** [dma_free] of a live buffer takes it out of the table, frees its
    physical pages and unmaps its pages of the window; every other buffer
    stays live with its contents. *)
Theorem dma_free_spec s i :
  dma_ok s -> live s i ->
  let e := meta_at s i in
  let s' := dma_free ks (virt e) s in
  dma_ok s' /\ (forall j, live s' j <-> live s j /\ j <> i) /\
  (forall k, owns e k -> page_free (pmm (mach s')) k) /\
  (forall p, covers e p -> translate (mem (mach s')) root (page p) = None /\ virt_used (virt_bitmap s') p = false) /\
  forall j, live s' j -> meta_at s' j = meta_at s j /\
    forall x, phys (meta_at s j) <= x < phys (meta_at s j) + pages (meta_at s j) * PAGE_SIZE ->
      mem (mach s') x = mem (mach s) x.
Proof.
  intros I Hl e s'. pose proof (d_live _ _ I i Hl) as B. fold e in B.
  destruct B as [B1 B2 B3 [B4 B4'] B5 B6 B7 B8].
  destruct (remove_ok s i I Hl) as (I0 & F0 & Hlive). fold e in I0, F0. set (s0 := meta_free i s) in *.
  set (m1 := vmm_unmap_range ks AS_KERNEL (page (first e)) (pages e) (mach s0)).
  set (s1 := set_mach m1 s0).
  assert (s' = give_back false (frame e * PAGE_SIZE) (pages e) (virt_range_free (page (first e)) (pages e) s1)) as Es'.
  { pose proof (meta_find_live s i I Hl) as Hfind. fold e in Hfind.
    unfold s', dma_free. rewrite Hfind. fold e. rewrite B6, B1, B2.
    destruct (page_small (first e) ltac:(lia)) as [Hv _]. destruct (Z.eqb_spec (page (first e)) 0); [lia|].
    unfold give_back. destruct (Z.eqb_spec (frame e * PAGE_SIZE) 0); [unfold PAGE_SIZE in *; lia|]. done. }
  destruct (unmap_first_cases ks kernel_half root AS_KERNEL (page (first e)) (Z.to_nat (pages e)) (mach s0) (d_space _ _ I0)
    (page_run (first e) (pages e) B4 ltac:(lia) B4')) as (_ & U1 & _ & T1).
  { intros j Hj. rewrite page_sum. apply page_kernel. lia. }
  change (unmap_first ks AS_KERNEL (page (first e)) (Z.to_nat (pages e)) (mach s0)) with m1 in *.
  destruct (keeps_update _ s0 m1 (first e) (pages e) _ _ I0 U1 B4 B4' ltac:(done) F0) as [K1 F1].
  pose proof (inv_keeps _ _ _ I0 K1) as I1. fold s1 in I1, F1.
  assert (Hnone : forall p, run (first e) (pages e) p -> translate (mem (mach s1)) root (page p) = None).
  { intros p Hp. unfold run in Hp. specialize (T1 (p - first e) ltac:(lia)). rewrite page_sum in T1.
    by replace (first e + (p - first e)) with p in T1 by lia. }
  destruct (undo_ok s1 (first e) (pages e) (frame e) I1 F1 B5 ltac:(lia) B4 B4' Hnone) as (I2 & In2 & M2).
  rewrite <- Es' in I2, In2, M2.
  assert (In1 : intact s0 s1) by (apply (same_intact _ _ _ I0); by eapply update_data).
  assert (Hl' : forall j, live s' j <-> live s j /\ j <> i) by (intros j; rewrite <- Hlive; unfold live; by rewrite M2).
  assert (Hcov : forall p, covers e p -> virt_used (virt_bitmap s') p = false).
  { intros p Hp. apply not_true_iff_false. unfold covers in Hp. rewrite (d_bits _ _ I2 p) by lia. intros [(j & Hj & Hc)|[]].
    rewrite M2 in Hc. apply (d_new _ _ I1 j p); [by apply Hlive, Hl'|exact Hc|exact Hp]. }
  split_and!; [done|done| | |].
  - intros k Hk. rewrite Es'. unfold give_back. destruct (Z.eqb_spec (frame e * PAGE_SIZE) 0); [unfold PAGE_SIZE in *; lia|]. cbn [negb mach set_mach].
    change (mach (virt_range_free (page (first e)) (pages e) s1)) with m1.
    destruct (pmm_free_pages_wf (frame e * PAGE_SIZE) (pages e) m1 (mw_pmm _ (so_machine _ _ _ _ _ (d_space _ _ I1)))) as (_ & Ht & _ & Hb);
      [unfold PAGE_SIZE; lia|done|]. destruct (proj1 F1 k Hk) as [[Hr Hu] _]. split; [by rewrite Ht|].
    rewrite Z.div_mul in Hb by done. rewrite Hb by done. unfold owns in Hk.
    destruct (Z.leb_spec (frame e) k), (Z.ltb_spec k (frame e + pages e)); try lia.
  - intros p Hp. split; [|by apply Hcov]. unfold covers in Hp. by apply (d_rest _ _ I2); [lia|apply Hcov].
  - intros j Hj. apply Hl' in Hj as Hj'. apply Hlive in Hj'. destruct (intact_trans _ _ _ In1 In2 j Hj') as [E M].
    assert (meta_at s0 j = meta_at s j) as E0.
    { unfold s0, meta_free. rewrite meta_at_put by (apply (d_meta _ _ I) || apply Hl). rewrite decide_False; [done|]. apply Hl' in Hj. by destruct Hj. }
    rewrite E0 in E, M. by split.
Qed.

(** A request that the lowest run of free pages does not meet is never
    answered: the pages are given back and found again. *)
Lemma dma_alloc_never_returns fuel sz alignment boundary zn : forall s f,
  pmm_wf (pmm (mach s)) -> 0 < sz <= 2 ^ 63 -> zn <> DMA_ZONE_ISA -> not_pow2 alignment = false -> not_pow2 boundary = false ->
  0 < f -> lowest_run (mach s) f (page_count sz) -> misaligned (f * PAGE_SIZE) alignment = true ->
  dma_alloc ks fuel sz alignment boundary zn s = None.
Proof.
  intros s f Hwf Hsz Hz Ha Hb Hf Hlr Hmis. unfold dma_alloc. rewrite Ha, Hb. destruct (Z.eqb_spec sz 0) as [|_]; [lia|].
  fold (page_count sz). destruct (page_count_bounds sz Hsz) as [Hn _]. set (n := page_count sz) in *. clearbody n.
  revert s Hwf Hlr. induction fuel as [|fuel IH]; intros s Hwf Hlr; [done|]. cbn [alloc_loop]. unfold dma_round.
  destruct (Z.eqb_spec zn DMA_ZONE_ISA) as [|_]; [done|]. cbn [andb].
  destruct (pmm_alloc_pages_cases n (mach s) Hwf ltac:(lia)) as [(g & m & -> & T & Hlow)|[-> Hno]].
  2: { destruct Hlr as [Hlr _]. by exfalso; apply (Hno f). }
  assert (g = f) as ->.
  { apply (lowest_run_unique (mach s) g f n); [lia| |done]. split; [apply (taken_free _ _ _ _ T)|exact Hlow]. }
  destruct (Z.eqb_spec (f * PAGE_SIZE) 0); [unfold PAGE_SIZE in *; lia|]. rewrite Hmis. cbn [orb]. unfold give_back.
  destruct (Z.eqb_spec (f * PAGE_SIZE) 0); [done|]. cbn [negb]. apply IH; cbn [mach set_mach];
    destruct (taken_range _ _ _ _ T) as (_ & _ & Hend); pose proof (wf_total _ Hwf);
    (destruct (pmm_free_pages_wf (f * PAGE_SIZE) n m (taken_wf _ _ _ _ T)) as (Hwf' & Ht & _ & Hbits);
      [unfold PAGE_SIZE; lia|lia|]); rewrite Z.div_mul in Hbits by done; [done|].
  assert (Hsame : forall k, page_free (pmm (pmm_free_pages (f * PAGE_SIZE) n m)) k <-> page_free (pmm (mach s)) k).
  { intros k. unfold page_free. rewrite Ht, (taken_total _ _ _ _ T). split; intros [Hk Hu]; (split; [done|]);
      rewrite Hbits, (taken_bits _ _ _ _ T) in * by (rewrite (taken_total _ _ _ _ T); done).
    - destruct (Z.leb_spec f k), (Z.ltb_spec k (f + n)); cbn in Hu; rewrite ?andb_true_r in Hu; try done.
      by apply (taken_free _ _ _ _ T).
    - rewrite Hu. destruct (Z.leb_spec f k), (Z.ltb_spec k (f + n)); done. }
  destruct Hlr as [H1 H2]. split.
  - intros k Hk. by apply Hsame, H1.
  - intros f' Hf' Hrun. apply (H2 f' Hf'). intros k Hk. by apply Hsame, Hrun.
Qed.
End dma.

(** ** A small machine *)

#[local] Existing Instance limine_boot.

Definition demo_dma : dma_state := mkDma small_machine (replicate 1024 0) (replicate 256 no_meta) [] (-1) 0.

Lemma aget_all_same {A} (x : A) n i : aget x (replicate n x) i = x.
Proof.
  unfold aget. destruct (0 <=? i); [|done]. destruct (replicate n x !! Z.to_nat i) eqn:E; [|done].
  by apply lookup_replicate in E as [-> _].
Qed.

Lemma demo_dma_ok : dma_ok small_kernel demo_dma.
Proof.
  assert (Hlive : forall i, ~ live demo_dma i).
  { intros i [_ Hu]. unfold meta_at, demo_dma in Hu. cbn [meta] in Hu. by rewrite aget_all_same in Hu. }
  assert (Hbits : forall p, virt_used (virt_bitmap demo_dma) p = false).
  { intros p. unfold virt_used, demo_dma. cbn [virt_bitmap]. by rewrite aget_all_same, Z.land_0_l. }
  assert (Hwalk : forall i q, walk (mem small_machine) 0x7000 (i :: q) = None) by done.
  split.
  - split; [exact small_machine_ok|exact small_kernel_wf|done].
  - done.
  - done.
  - intros i Hi. by apply Hlive in Hi.
  - intros i j Hi. by apply Hlive in Hi.
  - intros i p Hi. by apply Hlive in Hi.
  - intros p _. rewrite Hbits. split; [done|]. intros [(i & Hi & _)|[]]. by apply Hlive in Hi.
  - intros p _ _. apply Hwalk.
Qed.


Lemma dma_free_spec_witness : exists s i, live s i /\
  let s' := dma_free small_kernel (virt (meta_at s i)) s in
  dma_ok small_kernel s' /\ ~ live s' i /\ forall k, owns (meta_at s i) k -> page_free (pmm (mach s')) k.
Proof.
  pose proof (dma_round_spec small_kernel demo_dma 4096 0 0 0 demo_dma_ok ltac:(done) ltac:(done)) as R.
  assert (snd (dma_round small_kernel 4096 0 0 0 (page_count 4096) demo_dma) = Some (page 0)) as E by (vm_compute; reflexivity).
  cbv zeta in R. destruct (dma_round small_kernel 4096 0 0 0 (page_count 4096) demo_dma) as [s r]. cbn [snd] in E. subst r.
  destruct R as (Hok & _ & [(H0 & _)|(_ & f & _ & (i & _ & Hl & _) & _)]); [done|].
  exists s, i. split; [exact Hl|].
  destruct (dma_free_spec small_kernel s i Hok Hl) as (H1 & H2 & H3 & _).
  split; [exact H1|]. split; [|exact H3]. intros Hl'. by apply (proj1 (H2 i)) in Hl' as [_ Hne].
Defined.
