(* ===== verification/Ext2Cache.v ===== *)
(** * The block cache of the ext2 driver (src/kernel/drivers/fs/ext/ext2.c)

    [ext2_fs] is [struct ext2_filesystem].  Blocks of the device are read into
    cache entries, of which there are at most [max_cache_entries]; the list is
    kept in order of use and the least recently used entry nobody holds makes
    room for a new one.  [ext2_get_block] hands out a pointer to the data of an
    entry and counts the holders; [ext2_put_block] gives the pointer back.

    The doubly linked list is the list of its entries from [cache_head] to
    [cache_tail].  A pointer to the data of an entry is named by the number of
    the block: an entry is found by its block number before one is made, so
    there is never a second entry for the same block ([cw_nodup]).  A write
    outside the data of an entry, which in C runs over the heap, is lost and
    recorded in [overrun].

    [mallocs] counts the calls of [kmalloc]; the parameter [kmalloc_ok] says
    which of them succeed.  [kfree] has no effect on the model. *)

From S2P Require Import Prelude Bytes StateMonad BlockDev.

Definition EXT2_CACHE_SIZE : Z := 64.

Definition EXT2_SUCCESS : Z := 0.
Definition EXT2_ERROR : Z := -1.
Definition EXT2_ERROR_NO_MEM : Z := -2.
Definition EXT2_ERROR_IO : Z := -3.
Definition EXT2_ERROR_NOT_FOUND : Z := -4.
Definition EXT2_ERROR_EXISTS : Z := -5.
Definition EXT2_ERROR_NO_SPACE : Z := -6.
Definition EXT2_ERROR_INVALID : Z := -7.
Definition EXT2_ERROR_IS_DIR : Z := -8.
Definition EXT2_ERROR_NOT_DIR : Z := -9.
Definition EXT2_ERROR_NOT_EMPTY : Z := -10.
Definition EXT2_ERROR_PERM : Z := -11.

Record cache_entry := mkEntry { ce_block : Z; ce_data : list Z; ce_dirty : bool; ce_ref : Z }.

Record ext2_fs (D : Type) := mkFs {
  device : D;
  superblock : list Z;
  group_desc : list Z;
  block_size : Z;
  inode_size : Z;
  num_groups : Z;
  first_data_block : Z;
  cache : list cache_entry;
  cache_size : Z;
  max_cache_entries : Z;
  mallocs : nat;
  overrun : bool
}.
Arguments mkFs {D}.
Arguments device {D}.
Arguments superblock {D}.
Arguments group_desc {D}.
Arguments block_size {D}.
Arguments inode_size {D}.
Arguments num_groups {D}.
Arguments first_data_block {D}.
Arguments cache {D}.
Arguments cache_size {D}.
Arguments max_cache_entries {D}.
Arguments mallocs {D}.
Arguments overrun {D}.

Section setters.
Context {D : Type}.
Implicit Type s : ext2_fs D.

Definition set_device (d : D) s : ext2_fs D :=
  mkFs d (superblock s) (group_desc s) (block_size s) (inode_size s) (num_groups s) (first_data_block s)
       (cache s) (cache_size s) (max_cache_entries s) (mallocs s) (overrun s).
Definition set_superblock (b : list Z) s : ext2_fs D :=
  mkFs (device s) b (group_desc s) (block_size s) (inode_size s) (num_groups s) (first_data_block s)
       (cache s) (cache_size s) (max_cache_entries s) (mallocs s) (overrun s).
Definition set_group_desc (b : list Z) s : ext2_fs D :=
  mkFs (device s) (superblock s) b (block_size s) (inode_size s) (num_groups s) (first_data_block s)
       (cache s) (cache_size s) (max_cache_entries s) (mallocs s) (overrun s).
Definition set_cache (c : list cache_entry) (n : Z) s : ext2_fs D :=
  mkFs (device s) (superblock s) (group_desc s) (block_size s) (inode_size s) (num_groups s) (first_data_block s)
       c n (max_cache_entries s) (mallocs s) (overrun s).
Definition set_mallocs (n : nat) s : ext2_fs D :=
  mkFs (device s) (superblock s) (group_desc s) (block_size s) (inode_size s) (num_groups s) (first_data_block s)
       (cache s) (cache_size s) (max_cache_entries s) n (overrun s).
Definition set_overrun (b : bool) s : ext2_fs D :=
  mkFs (device s) (superblock s) (group_desc s) (block_size s) (inode_size s) (num_groups s) (first_data_block s)
       (cache s) (cache_size s) (max_cache_entries s) (mallocs s) b.
End setters.

(** ** Lists of entries *)

Definition ext2_cache_find (c : list cache_entry) (b : Z) : option cache_entry :=
  List.find (fun e => ce_block e =? b) c.
Arguments ext2_cache_find : simpl never.

(** Unlink the entry of block [b]. *)
Fixpoint unlink (b : Z) (c : list cache_entry) : list cache_entry :=
  match c with
  | [] => []
  | e :: c' => if ce_block e =? b then c' else e :: unlink b c'
  end.

(** Change the entry of block [b] in place. *)
Fixpoint update_entry (b : Z) (f : cache_entry -> cache_entry) (c : list cache_entry) : list cache_entry :=
  match c with
  | [] => []
  | e :: c' => if ce_block e =? b then f e :: c' else e :: update_entry b f c'
  end.

Definition hold (e : cache_entry) : cache_entry :=
  mkEntry (ce_block e) (ce_data e) (ce_dirty e) (u32 (ce_ref e + 1)).
Definition release (dirty : bool) (e : cache_entry) : cache_entry :=
  mkEntry (ce_block e) (ce_data e) (if dirty then true else ce_dirty e) (u32 (ce_ref e - 1)).
Definition clean (e : cache_entry) : cache_entry :=
  mkEntry (ce_block e) (ce_data e) false (ce_ref e).
Definition with_data (f : list Z -> list Z) (e : cache_entry) : cache_entry :=
  mkEntry (ce_block e) (f (ce_data e)) (ce_dirty e) (ce_ref e).

Section cache.
Context {D : Type} `{!BlockDevice D} (kmalloc_ok : nat -> bool).
Abbreviation fs := (ext2_fs D).

Definition kmalloc : M fs bool :=
  let* s := gets id in
  do* modify (set_mallocs (S (mallocs s))) in
  ret (kmalloc_ok (mallocs s)).

Definition ext2_cache_remove (b : Z) : M fs unit :=
  modify (fun s => set_cache (unlink b (cache s)) (u32 (cache_size s - 1)) s).

Definition ext2_cache_add_front (e : cache_entry) : M fs unit :=
  modify (fun s => set_cache (e :: cache s) (u32 (cache_size s + 1)) s).

Definition ext2_cache_move_front (b : Z) : M fs unit :=
  let* c := gets cache in
  match head c, ext2_cache_find c b with
  | Some h, Some e =>
      if ce_block h =? b then ret tt
      else do* ext2_cache_remove b in ext2_cache_add_front e
  | _, _ => ret tt
  end.

Definition sectors_per_block (s : fs) : Z := block_size s / dev_sector_size (device s).

Definition ext2_read_block (b : Z) : M fs (option (list Z)) :=
  let* s := gets id in
  let lba := u32 (b * sectors_per_block s) in
  let '(d, r) := dev_read lba (sectors_per_block s) (device s) in
  do* modify (set_device d) in
  ret r.

Definition ext2_write_block (b : Z) (buf : list Z) : M fs Z :=
  let* s := gets id in
  let lba := u32 (b * sectors_per_block s) in
  let '(d, ok) := dev_write lba (sectors_per_block s) buf (device s) in
  do* modify (set_device d) in
  ret (if ok then EXT2_SUCCESS else EXT2_ERROR_IO).

Definition ext2_cache_flush_entry (e : cache_entry) : M fs Z :=
  if negb (ce_dirty e) then ret EXT2_SUCCESS
  else
    let* result := ext2_write_block (ce_block e) (ce_data e) in
    do* if result =? EXT2_SUCCESS
        then modify (fun s => set_cache (update_entry (ce_block e) clean (cache s)) (cache_size s) s)
        else ret tt in
    ret result.

(** The walk from the tail stops at the first entry nobody holds. *)
Definition ext2_cache_evict : M fs Z :=
  let* c := gets cache in
  match List.find (fun e => ce_ref e =? 0) (rev c) with
  | None => ret EXT2_ERROR_NO_MEM
  | Some e =>
      let* result := ext2_cache_flush_entry e in
      if negb (result =? EXT2_SUCCESS) then ret result
      else do* ext2_cache_remove (ce_block e) in ret EXT2_SUCCESS
  end.

(** The pointer returned is the number of the block it is to the data of. *)
Definition ext2_get_block (b : Z) : M fs (option Z) :=
  let* s := gets id in
  match ext2_cache_find (cache s) b with
  | Some _ =>
      do* modify (fun s => set_cache (update_entry b hold (cache s)) (cache_size s) s) in
      do* ext2_cache_move_front b in
      ret (Some b)
  | None =>
      let* result := if max_cache_entries s <=? cache_size s then ext2_cache_evict else ret EXT2_SUCCESS in
      if negb (result =? EXT2_SUCCESS) then ret None
      else
        let* k1 := kmalloc in
        if negb k1 then ret None
        else
          let* k2 := kmalloc in
          if negb k2 then ret None
          else
            let* r := ext2_read_block b in
            match r with
            | None => ret None
            | Some data =>
                do* ext2_cache_add_front (mkEntry b data false 1) in
                ret (Some b)
            end
  end.

Definition ext2_put_block (h : Z) (dirty : bool) : M fs unit :=
  modify (fun s => set_cache (update_entry h (release dirty) (cache s)) (cache_size s) s).

(** Read and write through a pointer [h]. *)
Definition block_data (h : Z) : M fs (list Z) :=
  gets (fun s => match ext2_cache_find (cache s) h with Some e => ce_data e | None => [] end).

Definition block_write (h off : Z) (src : list Z) : M fs unit :=
  modify (fun s =>
    let s' := set_cache (update_entry h (with_data (fun d => write_at d off src)) (cache s)) (cache_size s) s in
    if (0 <=? off) && (off + Z.of_nat (length src) <=? block_size s) then s' else set_overrun true s').

(** Several stores through one pointer. *)
Fixpoint block_writes (h : Z) (ws : list (Z * list Z)) : M fs unit :=
  match ws with
  | [] => ret tt
  | (off, src) :: ws' => do* block_write h off src in block_writes h ws'
  end.

Definition flush_step (e : cache_entry) : M fs (option Z) :=
  if ce_dirty e then
    let* result := ext2_cache_flush_entry e in
    ret (if negb (result =? EXT2_SUCCESS) then Some result else None)
  else ret None.

Definition ext2_flush_cache : M fs Z :=
  let* c := gets cache in
  let* r := for_each flush_step c in
  ret (default EXT2_SUCCESS r).
End cache.

(** ** Lemmas on lists of entries *)

Lemma find_block c b e : ext2_cache_find c b = Some e -> ce_block e = b /\ e ∈ c.
Proof.
  intros H. apply List.find_some in H as [Hin Hb]. apply Z.eqb_eq in Hb.
  split; [done|]. by apply list_elem_of_In.
Qed.

Lemma find_none c b e : ext2_cache_find c b = None -> e ∈ c -> ce_block e <> b.
Proof.
  intros H He Hb. apply list_elem_of_In in He.
  pose proof (List.find_none _ _ H e He) as Hn. by apply Z.eqb_neq in Hn.
Qed.

Lemma find_in c e :
  NoDup (map ce_block c) -> e ∈ c -> ext2_cache_find c (ce_block e) = Some e.
Proof.
  induction c as [|e' c IH]; intros Hn He; [by apply not_elem_of_nil in He|].
  cbn [map] in Hn. apply list.NoDup_cons in Hn as [Hnot Hn]. unfold ext2_cache_find; cbn [List.find].
  apply elem_of_cons in He as [->|He]; [by rewrite Z.eqb_refl|].
  destruct (Z.eqb_spec (ce_block e') (ce_block e)) as [E|]; [|by apply IH].
  destruct Hnot. rewrite E. apply list_elem_of_fmap. by exists e.
Qed.

Section update.
Context (b : Z) (f : cache_entry -> cache_entry) (Hf : forall e, ce_block (f e) = ce_block e).

Lemma update_blocks c : map ce_block (update_entry b f c) = map ce_block c.
Proof.
  induction c as [|e c IH]; [done|]. cbn [update_entry].
  destruct (ce_block e =? b); cbn [map]; [by rewrite Hf|by rewrite IH].
Qed.

Lemma find_update_eq c e :
  ext2_cache_find c b = Some e -> ext2_cache_find (update_entry b f c) b = Some (f e).
Proof.
  induction c as [|e' c IH]; [done|]. unfold ext2_cache_find; cbn [List.find update_entry].
  destruct (ce_block e' =? b) eqn:E.
  - intros [= ->]. cbn [List.find]. by rewrite Hf, E.
  - intros H. cbn [List.find]. rewrite E. by apply IH.
Qed.

Lemma find_update_ne c b' :
  b' <> b -> ext2_cache_find (update_entry b f c) b' = ext2_cache_find c b'.
Proof.
  intros Hne. induction c as [|e' c IH]; [done|]. unfold ext2_cache_find; cbn [List.find update_entry].
  destruct (Z.eqb_spec (ce_block e') b) as [E|E].
  - cbn [List.find]. rewrite Hf, E. by destruct (Z.eqb_spec b b').
  - cbn [List.find]. destruct (ce_block e' =? b'); [done|]. apply IH.
Qed.

Lemma update_forall (P : cache_entry -> Prop) c :
  Forall P c -> (forall e, e ∈ c -> ce_block e = b -> P e -> P (f e)) -> Forall P (update_entry b f c).
Proof.
  induction c as [|e c IH]; intros Hc HP; [done|]. apply Forall_cons_1 in Hc as [He Hc]. cbn [update_entry].
  destruct (Z.eqb_spec (ce_block e) b) as [E|E]; constructor; try done.
  - apply HP; [by left|done|done].
  - apply IH; [done|]. intros e' He'. apply HP. by right.
Qed.

Lemma update_entries (P Q : cache_entry -> Prop) c :
  NoDup (map ce_block c) -> Forall P c ->
  (forall e, e ∈ c -> ce_block e <> b -> P e -> Q e) ->
  (forall e, e ∈ c -> ce_block e = b -> P e -> Q (f e)) ->
  Forall Q (update_entry b f c).
Proof.
  induction c as [|e c IH]; intros Hn Hc H1 H2; [done|]. cbn [map] in Hn.
  apply list.NoDup_cons in Hn as [Hnot Hn]. apply Forall_cons_1 in Hc as [He Hc]. cbn [update_entry].
  destruct (Z.eqb_spec (ce_block e) b) as [E|E]; constructor.
  - apply H2; [by left|done|done].
  - apply list.Forall_forall. intros e' He'. apply H1; [by right| |by eapply (proj1 (list.Forall_forall _ _) Hc)].
    intros E'. destruct Hnot. rewrite E, <- E'. apply list_elem_of_fmap. by exists e'.
  - apply H1; [by left|done|done].
  - apply IH; [done|done| |]; intros e' He'; [apply H1|apply H2]; by right.
Qed.

Lemma length_update c : length (update_entry b f c) = length c.
Proof. induction c as [|e c IH]; [done|]. cbn [update_entry]. destruct (ce_block e =? b); cbn; by rewrite ?IH. Qed.
End update.

Lemma unlink_sublist b c : sublist (unlink b c) c.
Proof.
  induction c as [|e c IH]; [constructor|]. cbn [unlink].
  destruct (ce_block e =? b); by constructor.
Qed.

Lemma length_unlink b c e : ext2_cache_find c b = Some e -> length c = S (length (unlink b c)).
Proof.
  induction c as [|e' c IH]; [done|]. unfold ext2_cache_find; cbn [List.find unlink].
  destruct (ce_block e' =? b); [done|]. intros H. cbn. by rewrite <- IH.
Qed.

Lemma find_unlink_ne b b' c : b' <> b -> ext2_cache_find (unlink b c) b' = ext2_cache_find c b'.
Proof.
  intros Hne. induction c as [|e c IH]; [done|]. unfold ext2_cache_find; cbn [List.find unlink].
  destruct (Z.eqb_spec (ce_block e) b) as [E|E].
  - by destruct (Z.eqb_spec (ce_block e) b') as [E'|E']; [lia|].
  - cbn [List.find]. destruct (ce_block e =? b'); [done|]. apply IH.
Qed.

Lemma unlink_nodup b c : NoDup (map ce_block c) -> NoDup (map ce_block (unlink b c)).
Proof. intros H. eapply sublist_NoDup; [exact H|]. apply fmap_sublist, unlink_sublist. Qed.

Lemma find_unlink_eq b c : NoDup (map ce_block c) -> ext2_cache_find (unlink b c) b = None.
Proof.
  induction c as [|e c IH]; intros Hn; [done|]. cbn [map] in Hn. apply list.NoDup_cons in Hn as [Hnot Hn].
  cbn [unlink]. destruct (Z.eqb_spec (ce_block e) b) as [E|E].
  - destruct (ext2_cache_find c b) as [e'|] eqn:F; [|done]. apply find_block in F as [Hb Hin].
    destruct Hnot. rewrite E, <- Hb. apply list_elem_of_fmap. by exists e'.
  - unfold ext2_cache_find; cbn [List.find]. destruct (Z.eqb_spec (ce_block e) b); [done|]. by apply IH.
Qed.

Lemma unlink_forall (P : cache_entry -> Prop) b c : Forall P c -> Forall P (unlink b c).
Proof.
  intros H. apply list.Forall_forall. intros e He. eapply list.Forall_forall; [exact H|].
  eapply elem_of_sublist; [exact He|apply unlink_sublist].
Qed.

(** ** Coherence

    What the callers of the cache see: for every block a list of bytes,
    [view].  Entries nobody changed are as on the device; [H] lists the
    pointers handed out and not given back. *)
Section coherence.
Context {D : Type} `{!BlockDevice D} `{!BlockDeviceLaws D} (kmalloc_ok : nat -> bool).
Abbreviation fs := (ext2_fs D).

Definition on_device (s : fs) (b : Z) : list Z :=
  slice (b * block_size s) (block_size s) (contents (device s)).

Definition view (s : fs) (b : Z) : list Z :=
  if 0 <=? b then match ext2_cache_find (cache s) b with Some e => ce_data e | None => on_device s b end
  else [].

(** The sector number of the block does not wrap around. *)
Definition addressable (s : fs) (b : Z) : Prop := 0 <= b /\ b * sectors_per_block s < 2 ^ 32.
Definition on_disk (s : fs) (b : Z) : Prop := (b + 1) * block_size s <= Z.of_nat (length (contents (device s))).

Record entry_ok (s : fs) (e : cache_entry) : Prop := {
  en_addr : addressable s (ce_block e);
  en_disk : on_disk s (ce_block e);
  en_len : Z.of_nat (length (ce_data e)) = block_size s;
  en_bytes : bytes_ok (ce_data e);
  en_clean : ce_dirty e = false -> ce_data e = on_device s (ce_block e)
}.

Definition holders (H : list Z) (b : Z) : Z := Z.of_nat (count_occ Z.eq_dec H b).

Record cache_ok (H : list Z) (s : fs) : Prop := {
  cw_dev : dev_ok (device s);
  cw_block : 0 < block_size s < 2 ^ 32 /\ block_size s mod dev_sector_size (device s) = 0;
  cw_nodup : NoDup (map ce_block (cache s));
  cw_size : cache_size s = Z.of_nat (length (cache s));
  cw_max : 0 < max_cache_entries s < 2 ^ 31 /\ cache_size s <= max_cache_entries s;
  cw_entries : Forall (entry_ok s) (cache s);
  cw_refs : Forall (fun e => ce_ref e = holders H (ce_block e)) (cache s);
  cw_held : forall h, h ∈ H -> ext2_cache_find (cache s) h <> None;
  cw_few : Z.of_nat (length H) < 2 ^ 31
}.

(** What no operation of the cache changes. *)
Record same_fs (s s' : fs) : Prop := {
  sf_super : superblock s' = superblock s;
  sf_desc : group_desc s' = group_desc s;
  sf_block : block_size s' = block_size s;
  sf_inode : inode_size s' = inode_size s;
  sf_groups : num_groups s' = num_groups s;
  sf_first : first_data_block s' = first_data_block s;
  sf_max : max_cache_entries s' = max_cache_entries s;
  sf_over : overrun s' = overrun s;
  sf_sector : dev_sector_size (device s') = dev_sector_size (device s);
  sf_length : length (contents (device s')) = length (contents (device s))
}.

(** The same, and every block reads the same. *)
Definition frame (s s' : fs) : Prop := same_fs s s' /\ forall b, view s' b = view s b.

Lemma same_refl s : same_fs s s.
Proof. by split. Qed.
Lemma same_trans s1 s2 s3 : same_fs s1 s2 -> same_fs s2 s3 -> same_fs s1 s3.
Proof. intros [] []. split; congruence. Qed.
Lemma frame_refl s : frame s s.
Proof. split; [apply same_refl|done]. Qed.
Lemma frame_trans s1 s2 s3 : frame s1 s2 -> frame s2 s3 -> frame s1 s3.
Proof. intros [H1 V1] [H2 V2]. split; [by eapply same_trans|]. intros b. by rewrite V2. Qed.

Lemma same_addressable s s' b : same_fs s s' -> addressable s' b <-> addressable s b.
Proof. intros []. unfold addressable, sectors_per_block. by rewrite sf_block0, sf_sector0. Qed.
Lemma same_on_disk s s' b : same_fs s s' -> on_disk s' b <-> on_disk s b.
Proof. intros []. unfold on_disk. by rewrite sf_block0, sf_length0. Qed.

Lemma block_bytes H s : cache_ok H s -> sectors_per_block s * dev_sector_size (device s) = block_size s.
Proof.
  intros Hc. destruct (cw_block _ _ Hc) as [Hb Hm]. pose proof (law_sector_size _ (cw_dev _ _ Hc)).
  unfold sectors_per_block. apply Z.div_exact in Hm; lia.
Qed.

Lemma sectors_range H s : cache_ok H s -> 0 < sectors_per_block s < 2 ^ 32.
Proof.
  intros Hc. pose proof (block_bytes H s Hc). destruct (cw_block _ _ Hc) as [Hb _].
  pose proof (law_sector_size _ (cw_dev _ _ Hc)). nia.
Qed.

(** Replacing the device by one with the same contents. *)
Lemma set_device_ok H s d :
  cache_ok H s -> dev_ok d -> dev_sector_size d = dev_sector_size (device s) ->
  contents d = contents (device s) -> cache_ok H (set_device d s) /\ frame s (set_device d s).
Proof.
  intros Hc Hd Hs Hcon. split.
  - destruct Hc. split; cbn [device block_size cache cache_size max_cache_entries set_device]; try done.
    + by rewrite Hs.
    + apply list.Forall_forall. intros e He. pose proof (proj1 (list.Forall_forall _ _) cw_entries0 e He) as [].
      split; try done.
      * unfold addressable, sectors_per_block. cbn. by rewrite Hs.
      * unfold on_disk. cbn. by rewrite Hcon.
      * unfold on_device. cbn. by rewrite Hcon.
  - split; [split; cbn; (done || by rewrite Hcon)|]. intros b. unfold view, on_device. cbn. by rewrite Hcon.
Qed.

Lemma set_mallocs_ok H s n :
  cache_ok H s -> cache_ok H (set_mallocs n s) /\ frame s (set_mallocs n s).
Proof.
  intros Hc. split; [|by split; [split|]]. destruct Hc. split; try done.
  apply list.Forall_forall. intros e He. pose proof (proj1 (list.Forall_forall _ _) cw_entries0 e He) as []. by split.
Qed.

Lemma read_block_spec H s b :
  cache_ok H s -> addressable s b ->
  wp (ext2_read_block b) (fun r s' =>
    cache_ok H s' /\ frame s s' /\ cache s' = cache s /\
    (forall data, r = Some data -> on_disk s b /\ data = on_device s' b) /\
    (Reliable D -> on_disk s b -> r <> None)) s.
Proof.
  intros Hc [Hb Ha]. unfold ext2_read_block. wp_steps. cbn [id].
  pose proof (sectors_range H s Hc) as Hs. pose proof (block_bytes H s Hc) as Hbb.
  assert (0 <= b * sectors_per_block s < 2 ^ 32) as Hlba by nia. rewrite u32_small by done.
  assert (0 <= sectors_per_block s < 2 ^ 32) as Hn by lia.
  destruct (dev_read _ _ _) as [d r] eqn:E. wp_steps.
  destruct (law_read _ _ _ _ _ (cw_dev _ _ Hc) Hlba Hn E) as (Hd & Hss & Hcon & Hr).
  destruct (set_device_ok H s d Hc Hd Hss Hcon) as [Hc' Hf]. split_and!; [done|done|done| |].
  - intros data ->. destruct (Hr data eq_refl) as [Hin ->]. unfold on_disk, on_device. cbn.
    rewrite Hcon. split; [nia|]. f_equal; nia.
  - intros HR Hin. unfold on_disk in Hin.
    eapply read_goes_through; [apply (cw_dev _ _ Hc)|exact Hlba|exact Hn| |exact E]. nia.
Qed.

Lemma entry_in H s b e :
  cache_ok H s -> ext2_cache_find (cache s) b = Some e ->
  ce_block e = b /\ entry_ok s e /\ ce_ref e = holders H b.
Proof.
  intros Hc F. apply find_block in F as [<- Hin]. split_and!; [done| |].
  - exact (proj1 (list.Forall_forall _ _) (cw_entries _ _ Hc) e Hin).
  - exact (proj1 (list.Forall_forall _ _) (cw_refs _ _ Hc) e Hin).
Qed.

(** Blocks of the device do not overlap. *)
Lemma other_block (bs : Z) (bytes data : list Z) b b' :
  0 < bs -> 0 <= b -> 0 <= b' -> b <> b' -> Z.of_nat (length data) = bs ->
  slice (b' * bs) bs (write_at bytes (b * bs) data) = slice (b' * bs) bs bytes.
Proof.
  intros Hbs Hb Hb' Hne Hl. apply slice_write_at_out; [nia|nia|lia|]. rewrite Hl.
  destruct (Z.lt_total b b') as [|[|]]; [right|done|left]; nia.
Qed.

(** Writing the data of an entry to the device and marking the entry clean. *)
Lemma write_back_ok H s e d :
  cache_ok H s -> ext2_cache_find (cache s) (ce_block e) = Some e ->
  dev_ok d -> dev_sector_size d = dev_sector_size (device s) ->
  contents d = write_at (contents (device s)) (ce_block e * block_size s) (ce_data e) ->
  let s' := set_cache (update_entry (ce_block e) clean (cache s)) (cache_size s) (set_device d s) in
  cache_ok H s' /\ frame s s'.
Proof.
  intros Hc F Hd Hss Hcon s'. destruct (entry_in H s _ e Hc F) as (_ & He & _).
  destruct (cw_block _ _ Hc) as [Hbs _]. destruct He as [[Hb0 Haddr] Hdisk Hlen Hby _].
  assert (Hfix : forall e', ce_block (clean e') = ce_block e') by done.
  assert (Hself : on_device s' (ce_block e) = ce_data e).
  { unfold on_device. cbn. rewrite Hcon, <- Hlen. unfold on_disk in Hdisk.
    apply slice_write_at_eq; nia. }
  assert (Hother : forall b, 0 <= b -> b <> ce_block e -> on_device s' b = on_device s b).
  { intros b Hb Hne. unfold on_device. cbn. rewrite Hcon. apply other_block; lia. }
  assert (Hsame : same_fs s s').
  { split; try done. cbn. by rewrite Hcon, length_write_at. }
  assert (Hok : forall e', entry_ok s e' -> ce_block e' <> ce_block e -> entry_ok s' e').
  { intros e' [A B C E1 E2] Hne. split; [by apply (same_addressable s s')|by apply (same_on_disk s s')|done|done|].
    intros Hcl. rewrite Hother; [by apply E2|apply A|done]. }
  split.
  - destruct Hc. split; cbn; try done.
    + by rewrite Hss.
    + by rewrite update_blocks.
    + by rewrite length_update.
    + (* entries *)
      eapply update_entries; [done|exact cw_entries0|..].
      * intros e' _ Hne He'. by apply Hok.
      * intros e' Hin Heq [A B C E1 E2]. rewrite <- Heq, find_in in F by done. injection F as ->.
        split; cbn; try done; first [by apply (same_addressable s s')|by apply (same_on_disk s s')].
    + apply update_forall; done.
    + intros h Hh. destruct (decide (h = ce_block e)) as [->|Hne].
      * by rewrite (find_update_eq _ _ Hfix _ _ F).
      * rewrite find_update_ne by done. by apply cw_held0.
  - split; [done|]. intros b. unfold view. destruct (Z.leb_spec 0 b); [|done]. cbn [cache set_cache s'].
    destruct (decide (b = ce_block e)) as [->|Hne].
    + by rewrite (find_update_eq _ _ Hfix _ _ F), F.
    + rewrite find_update_ne by done. destruct (ext2_cache_find (cache s) b); [done|].
      by apply (Hother b).
Qed.

Lemma flush_entry_spec H s e :
  cache_ok H s -> ext2_cache_find (cache s) (ce_block e) = Some e ->
  wp (ext2_cache_flush_entry e) (fun r s' =>
    cache_ok H s' /\ frame s s' /\ length (cache s') = length (cache s) /\
    (r = EXT2_SUCCESS -> exists e', ext2_cache_find (cache s') (ce_block e) = Some e' /\
       ce_dirty e' = false /\ ce_ref e' = ce_ref e) /\
    (forall b, b <> ce_block e -> ext2_cache_find (cache s') b = ext2_cache_find (cache s) b) /\
    (Reliable D -> r = EXT2_SUCCESS)) s.
Proof.
  intros Hc F. unfold ext2_cache_flush_entry. destruct (ce_dirty e) eqn:Edirty; cbn [negb].
  2:{ wp_steps. split_and!; [done|apply frame_refl|done|by exists e|done|done]. }
  unfold ext2_write_block. wp_steps. cbn [id].
  destruct (entry_in H s _ e Hc F) as (_ & [[Hb0 Haddr] Hdisk Hlen Hby _] & _).
  pose proof (sectors_range H s Hc) as Hs. pose proof (block_bytes H s Hc) as Hbb.
  assert (0 <= ce_block e * sectors_per_block s < 2 ^ 32) as Hlba by nia. rewrite u32_small by done.
  assert (0 <= sectors_per_block s < 2 ^ 32) as Hn by lia.
  destruct (dev_write _ _ _ _) as [d ok] eqn:E. wp_steps.
  assert (Z.of_nat (length (ce_data e)) = sectors_per_block s * dev_sector_size (device s)) as Hl by lia.
  destruct (law_write _ _ _ _ _ _ (cw_dev _ _ Hc) Hlba Hn Hl Hby E) as (Hd & Hss & _ & Hcon).
  destruct ok; cbn [Z.eqb EXT2_SUCCESS EXT2_ERROR_IO].
  - destruct (write_back_ok H s e d Hc F Hd Hss) as [Hc' Hf].
    { rewrite Hcon. f_equal. nia. }
    wp_steps. split_and!; [exact Hc'|exact Hf|cbn; by rewrite length_update| | |done].
    + intros _. exists (clean e). cbn. rewrite (find_update_eq _ clean (fun _ => eq_refl) _ _ F). done.
    + intros b Hne. cbn. by rewrite find_update_ne.
  - destruct (set_device_ok H s d Hc Hd Hss Hcon) as [Hc' Hf]. wp_steps.
    split_and!; [done|done|done|done|done|].
    intros HR. unfold on_disk in Hdisk. exfalso.
    assert (false = true) as [=]. eapply write_goes_through; [apply (cw_dev _ _ Hc)|exact Hlba|exact Hn| |exact E]. nia.
Qed.

(** Dropping a clean entry nobody holds. *)
Lemma drop_entry_ok H s e :
  cache_ok H s -> ext2_cache_find (cache s) (ce_block e) = Some e -> ce_dirty e = false -> ce_ref e = 0 ->
  let s' := set_cache (unlink (ce_block e) (cache s)) (u32 (cache_size s - 1)) s in
  cache_ok H s' /\ frame s s' /\ cache_size s' = cache_size s - 1.
Proof.
  intros Hc F Hd Hr s'. destruct (entry_in H s _ e Hc F) as (_ & He & Hh).
  pose proof (length_unlink _ _ _ F) as Hl.
  assert (cache_size s' = cache_size s - 1) as Hsize.
  { cbn. apply u32_small. destruct (cw_max _ _ Hc). rewrite (cw_size _ _ Hc) in *. lia. }
  assert (Hsame : same_fs s s') by done.
  split_and!; [|split; [done|]|done].
  - destruct Hc. split; cbn; try done.
    + by apply unlink_nodup.
    + change (cache_size s' = Z.of_nat (length (unlink (ce_block e) (cache s)))). rewrite Hsize, cw_size0. lia.
    + split; [apply cw_max0|]. change (cache_size s' <= max_cache_entries s). lia.
    + apply unlink_forall. eapply list.Forall_impl; [exact cw_entries0|]. intros e' []. by split.
    + by apply unlink_forall.
    + intros h Hin. rewrite find_unlink_ne; [by apply cw_held0|]. intros ->.
      unfold holders in Hh. rewrite Hr in Hh. apply list_elem_of_In in Hin.
      apply (count_occ_In Z.eq_dec) in Hin. lia.
  - intros b. unfold view. destruct (Z.leb_spec 0 b); [|done]. cbn [cache set_cache s'].
    destruct (decide (b = ce_block e)) as [->|Hne].
    + rewrite find_unlink_eq by apply (cw_nodup _ _ Hc). rewrite F. symmetry. by apply He.
    + by rewrite find_unlink_ne.
Qed.

(** With fewer holders than entries, some entry is free. *)
Lemma unheld_entry H s :
  cache_ok H s -> Z.of_nat (length H) < cache_size s ->
  exists e, List.find (fun e => ce_ref e =? 0) (rev (cache s)) = Some e.
Proof.
  intros Hc Hlt. destruct (List.find _ _) as [e|] eqn:F; [by exists e|]. exfalso.
  assert (Hall : map ce_block (cache s) ⊆ H).
  { intros b Hb. apply list_elem_of_fmap in Hb as (e & -> & He).
    pose proof (proj1 (list.Forall_forall _ _) (cw_refs _ _ Hc) e He) as Hr. cbv beta in Hr.
    assert (In e (rev (cache s))) as Hin by (apply in_rev; rewrite rev_involutive; by apply list_elem_of_In).
    pose proof (List.find_none _ _ F e Hin) as Hz. cbv beta in Hz. apply Z.eqb_neq in Hz.
    apply list_elem_of_In, (count_occ_In Z.eq_dec). unfold holders in Hr. lia. }
  pose proof (submseteq_length _ _ (NoDup_submseteq _ _ (cw_nodup _ _ Hc) Hall)) as Hlen.
  rewrite length_map, (cw_size _ _ Hc) in *. lia.
Qed.

Lemma evict_spec H s :
  cache_ok H s ->
  wp ext2_cache_evict (fun r s' =>
    cache_ok H s' /\ frame s s' /\
    (forall b, ext2_cache_find (cache s) b = None -> ext2_cache_find (cache s') b = None) /\
    (r = EXT2_SUCCESS -> cache_size s' = cache_size s - 1) /\
    (Reliable D -> Z.of_nat (length H) < cache_size s -> r = EXT2_SUCCESS)) s.
Proof.
  intros Hc. unfold ext2_cache_evict. wp_steps.
  destruct (List.find _ _) as [e|] eqn:F.
  2:{ wp_steps. split_and!; [done|apply frame_refl|done|done|].
      intros _ Hlt. destruct (unheld_entry H s Hc Hlt) as [e He]. congruence. }
  apply List.find_some in F as [Hin Hr]. apply Z.eqb_eq in Hr. apply in_rev, list_elem_of_In in Hin.
  pose proof (find_in _ _ (cw_nodup _ _ Hc) Hin) as F. wp_steps.
  wp_call flush_entry_spec; [exact Hc|exact F|]. intros r s1 (Hc1 & Hf1 & Hlen & Hfound & Hother & HR).
  assert (Habs : forall b, ext2_cache_find (cache s) b = None -> ext2_cache_find (cache s1) b = None).
  { intros b Hb. rewrite Hother; [done|]. intros ->. congruence. }
  destruct (Z.eqb_spec r EXT2_SUCCESS) as [->|Hne]; cbn [negb].
  - destruct (Hfound eq_refl) as (e' & F' & Hd' & Hr'). unfold ext2_cache_remove. wp_steps.
    pose proof (find_block _ _ _ F') as [Eb _]. rewrite <- Eb in F'.
    destruct (drop_entry_ok H s1 e' Hc1 F' Hd' ltac:(lia)) as (Hc2 & Hf2 & Hs2). rewrite Eb in Hc2, Hf2, Hs2.
    split_and!; [exact Hc2|by eapply frame_trans| | |done].
    + intros b Hb. cbn. destruct (decide (b = ce_block e)) as [->|Hne].
      * apply find_unlink_eq, (cw_nodup _ _ Hc1).
      * rewrite find_unlink_ne by done. by apply Habs.
    + intros _. rewrite Hs2, (cw_size _ _ Hc1), (cw_size _ _ Hc). lia.
  - wp_steps. split_and!; [done|done|done|done|]. intros HRel _. by apply HR.
Qed.

(** Moving an entry to the front of the list. *)
Lemma relink_ok H s b e :
  cache_ok H s -> ext2_cache_find (cache s) b = Some e ->
  let s' := set_cache (e :: unlink b (cache s)) (cache_size s) s in
  cache_ok H s' /\ frame s s'.
Proof.
  intros Hc F s'. destruct (entry_in H s b e Hc F) as (Eb & He & Hr).
  assert (Hfind : forall b', ext2_cache_find (e :: unlink b (cache s)) b' = ext2_cache_find (cache s) b').
  { intros b'. unfold ext2_cache_find at 1. cbn [List.find]. rewrite Eb.
    destruct (Z.eqb_spec b b') as [<-|Hne]; [by rewrite F|]. by apply (find_unlink_ne b). }
  split.
  - destruct Hc. split; cbn; try done.
    + constructor; [|by apply unlink_nodup]. rewrite Eb. intros Hin.
      apply list_elem_of_fmap in Hin as (e' & Heq & Hin).
      exact (find_none _ _ _ (find_unlink_eq b _ cw_nodup0) Hin (eq_sym Heq)).
    + by rewrite cw_size0, (length_unlink _ _ _ F).
    + constructor; [by destruct He|]. apply unlink_forall. eapply list.Forall_impl; [exact cw_entries0|].
      intros e' []. by split.
    + constructor; [by rewrite Eb|]. by apply unlink_forall.
    + intros h Hh. rewrite Hfind. by apply cw_held0.
  - split; [done|]. intros b'. unfold view. cbn [cache set_cache s']. by rewrite Hfind.
Qed.

Lemma move_front_spec H s b :
  cache_ok H s -> ext2_cache_find (cache s) b <> None ->
  wp (ext2_cache_move_front b) (fun _ s' => cache_ok H s' /\ frame s s') s.
Proof.
  intros Hc Hb. destruct (ext2_cache_find (cache s) b) as [e|] eqn:F; [|done]. clear Hb.
  unfold ext2_cache_move_front. wp_steps. rewrite F. destruct (head (cache s)) as [h|] eqn:Eh.
  2:{ wp_steps. split; [done|apply frame_refl]. }
  destruct (ce_block h =? b); [wp_steps; split; [done|apply frame_refl]|].
  unfold ext2_cache_remove, ext2_cache_add_front. wp_steps.
  destruct (relink_ok H s b e Hc F) as [Hc' Hf'].
  assert (u32 (u32 (cache_size s - 1) + 1) = cache_size s) as E.
  { pose proof (length_unlink _ _ _ F). destruct (cw_max _ _ Hc). rewrite (cw_size _ _ Hc) in *.
    rewrite (u32_small (_ - 1)) by lia. rewrite u32_small by lia. lia. }
  unfold set_cache in *. cbn in *. rewrite E. done.
Qed.

Lemma holders_cons h H b : holders (h :: H) b = (if decide (h = b) then 1 else 0) + holders H b.
Proof. unfold holders. cbn [count_occ]. destruct (Z.eq_dec h b), (decide (h = b)); lia || done. Qed.

Lemma holders_range H b : 0 <= holders H b <= Z.of_nat (length H).
Proof. unfold holders. pose proof (count_occ_bound Z.eq_dec b H). lia. Qed.

(** One more holder of a cached block. *)
Lemma hold_ok H s b :
  cache_ok H s -> ext2_cache_find (cache s) b <> None -> Z.of_nat (length H) + 1 < 2 ^ 31 ->
  let s' := set_cache (update_entry b hold (cache s)) (cache_size s) s in
  cache_ok (b :: H) s' /\ frame s s' /\ ext2_cache_find (cache s') b <> None.
Proof.
  intros Hc Hb Hlen s'. destruct (ext2_cache_find (cache s) b) as [e|] eqn:F; [|done]. clear Hb.
  assert (Hfix : forall e', ce_block (hold e') = ce_block e') by done.
  split_and!; [|split; [done|]|cbn; by rewrite (find_update_eq b hold Hfix _ _ F)].
  - destruct Hc. split; cbn; try done.
    + by rewrite update_blocks.
    + by rewrite length_update.
    + eapply update_entries; [exact cw_nodup0|exact cw_entries0| |]; intros e' _ _ []; by split.
    + eapply update_entries; [exact cw_nodup0|exact cw_refs0| |]; cbv beta; intros e' _ Hne Hr; rewrite holders_cons.
      * rewrite decide_False by done. lia.
      * cbn [hold ce_ref ce_block]. rewrite Hne, decide_True by done. rewrite Hr, Hne.
        pose proof (holders_range H b). rewrite u32_small by lia. lia.
    + intros h Hh. destruct (decide (h = b)) as [->|Hne].
      * by rewrite (find_update_eq b hold Hfix _ _ F).
      * rewrite find_update_ne by done. apply cw_held0. by apply elem_of_cons in Hh as [->|].
    + lia.
  - intros b'. unfold view. cbn [cache set_cache s']. destruct (decide (b' = b)) as [->|Hne].
    + by rewrite (find_update_eq b hold Hfix _ _ F), F.
    + by rewrite find_update_ne.
Qed.

(** A new entry for a block that was read. *)
Lemma add_entry_ok H s b :
  cache_ok H s -> ext2_cache_find (cache s) b = None -> Z.of_nat (length H) + 1 < 2 ^ 31 ->
  cache_size s < max_cache_entries s -> addressable s b -> on_disk s b ->
  let s' := set_cache (mkEntry b (on_device s b) false 1 :: cache s) (u32 (cache_size s + 1)) s in
  cache_ok (b :: H) s' /\ frame s s'.
Proof.
  intros Hc F Hlen Hsz Ha Hd s'. pose proof (cw_block _ _ Hc) as [Hbs _].
  assert (Hfind : forall b', b' <> b -> ext2_cache_find (cache s') b' = ext2_cache_find (cache s) b').
  { intros b' Hne. unfold ext2_cache_find. cbn. by destruct (Z.eqb_spec b b'). }
  assert (Hnew : ext2_cache_find (cache s') b = Some (mkEntry b (on_device s b) false 1)).
  { unfold ext2_cache_find. cbn. by rewrite Z.eqb_refl. }
  assert (Hno : holders H b = 0).
  { unfold holders. destruct (count_occ Z.eq_dec H b) eqn:E; [done|]. exfalso.
    apply (cw_held _ _ Hc b); [|done]. apply list_elem_of_In, (count_occ_In Z.eq_dec). lia. }
  split.
  - destruct Ha as [Ha0 Ha]. unfold on_disk in Hd. destruct Hc. split; cbn; try done.
    + constructor; [|done]. intros Hin. apply list_elem_of_fmap in Hin as (e & -> & Hin).
      by apply (find_none _ _ _ F Hin).
    + rewrite u32_small by lia. lia.
    + rewrite u32_small by lia. lia.
    + constructor.
      * split; cbn; try done.
        -- unfold on_device. rewrite length_slice by nia. lia.
        -- by apply bytes_slice, law_contents.
      * eapply list.Forall_impl; [exact cw_entries0|]. intros e []. by split.
    + constructor; cbn [ce_ref ce_block].
      * rewrite holders_cons, decide_True by done. lia.
      * apply list.Forall_forall. intros e He. rewrite holders_cons, decide_False.
        -- exact (proj1 (list.Forall_forall _ _) cw_refs0 e He).
        -- intros Heq. by apply (find_none _ _ _ F He).
    + intros h Hh. change (ext2_cache_find (cache s') h <> None). destruct (decide (h = b)) as [->|Hne]; [by rewrite Hnew|]. rewrite Hfind by done.
      apply cw_held0. by apply elem_of_cons in Hh as [->|].
    + lia.
  - split; [done|]. intros b'. unfold view. destruct (Z.leb_spec 0 b'); [|done].
    destruct (decide (b' = b)) as [->|Hne]; [by rewrite Hnew, F|]. by rewrite Hfind.
Qed.

(** When [ext2_get_block] cannot fail. *)
Definition works (H : list Z) (s : fs) (b : Z) : Prop :=
  (forall n, kmalloc_ok n = true) /\ Reliable D /\ on_disk s b /\ Z.of_nat (length H) < max_cache_entries s.

Lemma get_block_spec H s b :
  cache_ok H s -> addressable s b -> Z.of_nat (length H) + 1 < 2 ^ 31 ->
  wp (ext2_get_block kmalloc_ok b) (fun r s' =>
    frame s s' /\ (forall h, r = Some h -> h = b /\ cache_ok (b :: H) s') /\
    (r = None -> cache_ok H s' /\ ~ works H s b)) s.
Proof.
  intros Hc Ha Hlen. unfold ext2_get_block. wp_steps. cbn [id].
  destruct (ext2_cache_find (cache s) b) as [e|] eqn:F.
  { wp_steps. destruct (hold_ok H s b Hc ltac:(by rewrite F) Hlen) as (Hc1 & Hf1 & Hb1).
    wp_call move_front_spec; [exact Hc1|exact Hb1|]. intros _ s' [Hc' Hf']. wp_steps.
    split_and!; [by eapply frame_trans|by intros h [= <-]|done]. }
  wp_steps.
  set (m := if max_cache_entries s <=? cache_size s then ext2_cache_evict else ret EXT2_SUCCESS).
  assert (Hm : wp m (fun r s' => cache_ok H s' /\ frame s s' /\ ext2_cache_find (cache s') b = None /\
    (r = EXT2_SUCCESS -> cache_size s' < max_cache_entries s') /\ (works H s b -> r = EXT2_SUCCESS)) s).
  { subst m. destruct (Z.leb_spec (max_cache_entries s) (cache_size s)) as [Hle|Hle].
    - wp_call evict_spec; [exact Hc|]. intros r s' (Hc' & Hf' & Habs & Hsz & HR).
      split_and!; [done|done|by apply Habs| |].
      + intros Hr. rewrite (sf_max _ _ (proj1 Hf')), Hsz by done. destruct (cw_max _ _ Hc). lia.
      + intros (_ & Hrel & _ & Hfew). apply HR; [done|]. destruct (cw_max _ _ Hc). lia.
    - wp_steps. split_and!; [done|apply frame_refl|done|done|done]. }
  eapply wp_mono; [exact Hm|]. clear Hm m. cbv beta. intros r s1 (Hc1 & Hf1 & F1 & Hsz & Hok).
  destruct (Z.eqb_spec r EXT2_SUCCESS) as [->|Hne]; cbn [negb].
  2:{ wp_steps. split_and!; [done|done|]. intros _. split; [done|]. intros Hw. by apply Hne, Hok. }
  specialize (Hsz eq_refl). clear Hok. unfold kmalloc. wp_steps. cbn [id].
  destruct (set_mallocs_ok H s1 (S (mallocs s1)) Hc1) as [Hc2 Hf2].
  destruct (kmalloc_ok (mallocs s1)) eqn:K1; cbn [negb].
  2:{ wp_steps. split_and!; [by eapply frame_trans|done|]. intros _. split; [done|].
      intros (Hk & _). by rewrite Hk in K1. }
  wp_steps. set (s2 := set_mallocs (S (mallocs s1)) s1) in *. cbn [id].
  destruct (set_mallocs_ok H s2 (S (mallocs s2)) Hc2) as [Hc3 Hf3].
  pose proof (frame_trans _ _ _ (frame_trans _ _ _ Hf1 Hf2) Hf3) as Hf03.
  destruct (kmalloc_ok (mallocs s2)) eqn:K2; cbn [negb].
  2:{ wp_steps. split_and!; [done|done|]. intros _. split; [done|].
      intros (Hk & _). by rewrite Hk in K2. }
  wp_steps. set (s3 := set_mallocs (S (mallocs s2)) s2) in *.
  wp_call read_block_spec; [exact Hc3|by apply (same_addressable s s3); [apply Hf03|]|].
  intros r s4 (Hc4 & Hf4 & Ecache & Hdata & Hsome). pose proof (frame_trans _ _ _ Hf03 Hf4) as Hf04.
  destruct r as [data|].
  - destruct (Hdata data eq_refl) as [Hdisk ->]. unfold ext2_cache_add_front. wp_steps.
    assert (max_cache_entries s4 = max_cache_entries s1) as Em
      by (rewrite (sf_max _ _ (proj1 Hf4)); done).
    assert (cache_size s4 < max_cache_entries s4) as Hsz4.
    { rewrite (cw_size _ _ Hc4), Ecache, Em. change (cache s3) with (cache s1).
      by rewrite <- (cw_size _ _ Hc1). }
    destruct (add_entry_ok H s4 b Hc4) as [Hc5 Hf5]; [by rewrite Ecache|done|done| | |].
    { by apply (same_addressable s s4); [apply Hf04|]. }
    { apply (same_on_disk s s4); [apply Hf04|]. by apply (same_on_disk s s3) in Hdisk; [|apply Hf03]. }
    split_and!; [by eapply frame_trans| |done]. intros h [= <-]. done.
  - wp_steps. split_and!; [done|done|]. intros _. split; [done|]. intros (_ & Hrel & Hdisk & _).
    apply Hsome; [done| |done]. by apply (same_on_disk s s3); [apply Hf03|].
Qed.

(** Giving a pointer back. *)
Lemma put_block_spec H s h dirty :
  cache_ok (h :: H) s -> wp (ext2_put_block h dirty) (fun _ s' => cache_ok H s' /\ frame s s') s.
Proof.
  intros Hc. unfold ext2_put_block. wp_steps.
  assert (Hfix : forall e', ce_block (release dirty e') = ce_block e') by done.
  split.
  - destruct Hc. split; cbn; try done.
    + by rewrite update_blocks.
    + by rewrite length_update.
    + eapply update_entries; [exact cw_nodup0|exact cw_entries0| |]; intros e' _ _ []; split; try done.
      cbn. by destruct dirty.
    + eapply update_entries; [exact cw_nodup0|exact cw_refs0| |]; cbv beta; intros e' _ Hne Hr; rewrite holders_cons in Hr.
      * rewrite decide_False in Hr by done. lia.
      * cbn [release ce_ref ce_block]. rewrite Hne, decide_True in Hr by done. rewrite Hr, Hne.
        pose proof (holders_range H h). cbn [length] in cw_few0. rewrite u32_small by lia. lia.
    + intros h' Hh. destruct (ext2_cache_find (cache s) h) as [e|] eqn:F; [|exfalso; apply (cw_held0 h); [by left|done]].
      destruct (decide (h' = h)) as [->|Hne]; [by rewrite (find_update_eq h (release dirty) Hfix _ _ F)|].
      rewrite find_update_ne by done. apply cw_held0. by right.
    + cbn [length] in cw_few0. lia.
  - split; [done|]. intros b. unfold view. cbn [cache set_cache].
    destruct (decide (b = h)) as [->|Hne]; [|by rewrite find_update_ne].
    destruct (ext2_cache_find (cache s) h) as [e|] eqn:F.
    + by rewrite (find_update_eq h (release dirty) Hfix _ _ F).
    + exfalso. apply (cw_held _ _ Hc h); [by left|done].
Qed.

Lemma view_held H s h : cache_ok H s -> h ∈ H ->
  exists e, ext2_cache_find (cache s) h = Some e /\ view s h = ce_data e /\ entry_ok s e /\ ce_block e = h.
Proof.
  intros Hc Hh. destruct (ext2_cache_find (cache s) h) as [e|] eqn:F; [|by destruct (cw_held _ _ Hc h Hh)].
  destruct (entry_in H s h e Hc F) as (Eb & He & _). exists e. split_and!; [done| |done|done].
  unfold view. rewrite F. destruct He as [[Hb _] _ _ _ _]. rewrite Eb in Hb.
  by destruct (Z.leb_spec 0 h); [|lia].
Qed.

Lemma block_data_spec H s h :
  cache_ok H s -> h ∈ H -> wp (block_data h) (fun d s' => s' = s /\ d = view s h) s.
Proof.
  intros Hc Hh. destruct (view_held H s h Hc Hh) as (e & F & V & _). unfold block_data. wp_steps.
  by rewrite F, V.
Qed.

(** What is seen of a block that is held, or was read, is a whole block. *)
Lemma view_block H s b :
  cache_ok H s -> 0 <= b -> on_disk s b -> Z.of_nat (length (view s b)) = block_size s /\ bytes_ok (view s b).
Proof.
  intros Hc Hb Hd. unfold view. destruct (Z.leb_spec 0 b); [|lia].
  destruct (ext2_cache_find (cache s) b) as [e|] eqn:F.
  - destruct (entry_in H s b e Hc F) as (_ & [] & _). done.
  - pose proof (cw_block _ _ Hc) as [Hbs _]. unfold on_disk in Hd. unfold on_device. split.
    + rewrite length_slice by nia. lia.
    + by apply bytes_slice, law_contents, (cw_dev _ _ Hc).
Qed.

(** Stores applied to the bytes of a block. *)
Definition stores (ws : list (Z * list Z)) (d : list Z) : list Z :=
  fold_left (fun d w => write_at d (fst w) (snd w)) ws d.

Definition store_ok (bs : Z) (w : Z * list Z) : Prop :=
  0 <= fst w /\ fst w + Z.of_nat (length (snd w)) <= bs /\ bytes_ok (snd w).

Lemma length_stores ws d : length (stores ws d) = length d.
Proof. revert d. induction ws as [|w ws IH]; intros d; [done|]. cbn. by rewrite IH, length_write_at. Qed.

Lemma stores_bytes bs ws d : Forall (store_ok bs) ws -> bytes_ok d -> bytes_ok (stores ws d).
Proof.
  revert d. induction ws as [|w ws IH]; intros d Hw Hd; [done|]. apply Forall_cons_1 in Hw as [Hw Hws].
  cbn. apply IH; [done|]. apply bytes_write_at; [done|apply Hw].
Qed.

Lemma update_update b f g c : (forall e, ce_block (f e) = ce_block e) ->
  update_entry b g (update_entry b f c) = update_entry b (fun e => g (f e)) c.
Proof.
  intros Hf. induction c as [|e c IH]; [done|]. cbn [update_entry].
  destruct (ce_block e =? b) eqn:E; cbn [update_entry].
  - by rewrite Hf, E.
  - by rewrite E, IH.
Qed.

Lemma block_writes_run h ws : forall s : fs, Forall (store_ok (block_size s)) ws ->
  block_writes h ws s =
    Some (tt, set_cache (update_entry h (with_data (stores ws)) (cache s)) (cache_size s) s).
Proof.
  induction ws as [|[off src] ws IH]; intros s Hw.
  - cbn. unfold ret. do 2 f_equal. destruct s; unfold set_cache; cbn. f_equal.
    generalize cache0 as c. induction c as [|e c IHc]; [done|]. cbn.
    destruct (ce_block e =? h); [by destruct e|by rewrite <- IHc].
  - apply Forall_cons_1 in Hw as [(H1 & H2 & _) Hws]. cbn [block_writes fst snd] in *.
    unfold bind, block_write, modify. destruct (Z.leb_spec 0 off); [|lia].
    destruct (Z.leb_spec (off + Z.of_nat (length src)) (block_size s)); [|lia]. cbn [andb].
    rewrite IH by done. cbn [cache cache_size set_cache]. rewrite update_update by done. done.
Qed.

(** Stores through a pointer that is then given back as dirty. *)
Lemma writes_put_spec H s h ws :
  cache_ok (h :: H) s -> Forall (store_ok (block_size s)) ws ->
  wp (do* block_writes h ws in ext2_put_block h true) (fun _ s' =>
    cache_ok H s' /\ same_fs s s' /\
    forall b, view s' b = if decide (b = h) then stores ws (view s h) else view s b) s.
Proof.
  intros Hc Hw. destruct (view_held _ s h Hc ltac:(by left)) as (e & F & V & He & Eb).
  rewrite wp_bind. unfold wp at 1. rewrite block_writes_run by done. unfold ext2_put_block. wp_steps.
  cbn [cache cache_size set_cache]. rewrite update_update by done.
  set (f := fun e0 => release true (with_data (stores ws) e0)).
  assert (Hfix : forall e', ce_block (f e') = ce_block e') by done.
  split_and!.
  - destruct Hc. split; cbn; try done.
    + by rewrite update_blocks.
    + by rewrite length_update.
    + eapply update_entries; [exact cw_nodup0|exact cw_entries0| |]; intros e' _ _ []; split; try done.
      * cbn. by rewrite length_stores.
      * cbn. by eapply stores_bytes.
    + eapply update_entries; [exact cw_nodup0|exact cw_refs0| |]; cbv beta; intros e' _ Hne Hr; rewrite holders_cons in Hr.
      * rewrite decide_False in Hr by done. lia.
      * cbn [f release with_data ce_ref ce_block]. rewrite Hne, decide_True in Hr by done. rewrite Hr, Hne.
        pose proof (holders_range H h). cbn [length] in cw_few0. rewrite u32_small by lia. lia.
    + intros h' Hh. destruct (decide (h' = h)) as [->|Hne]; [by rewrite (find_update_eq h f Hfix _ _ F)|].
      rewrite find_update_ne by done. apply cw_held0. by right.
    + cbn [length] in cw_few0. lia.
  - done.
  - intros b. rewrite V. unfold view. cbn [cache set_cache]. destruct (decide (b = h)) as [->|Hne].
    + rewrite (find_update_eq h f Hfix _ _ F). destruct He as [[Hb _] _ _ _ _]. rewrite Eb in Hb.
      by destruct (Z.leb_spec 0 h); [|lia].
    + by rewrite find_update_ne.
Qed.

Lemma cache_ok_perm H H' s : H ≡ₚ H' -> cache_ok H s -> cache_ok H' s.
Proof.
  intros Hp []. split; try done.
  - eapply list.Forall_impl; [exact cw_refs0|]. cbv beta. intros e ->. unfold holders.
    by rewrite (proj1 (Permutation_count_occ Z.eq_dec H H') Hp).
  - intros h Hh. apply cw_held0. by rewrite Hp.
  - by rewrite <- Hp.
Qed.

(** What is left to write back while [ext2_flush_cache] walks the list. *)
Record flushing (H : list Z) (s0 : fs) (l : list cache_entry) (s : fs) : Prop := {
  fl_ok : cache_ok H s;
  fl_frame : frame s0 s;
  fl_nodup : NoDup (map ce_block l);
  fl_rest : forall e, e ∈ l -> ext2_cache_find (cache s) (ce_block e) = Some e;
  fl_done : forall e, e ∈ cache s -> ce_dirty e = false \/ ce_block e ∈ map ce_block l
}.

Lemma flush_step_spec H s0 e l s :
  flushing H s0 (e :: l) s ->
  wp (flush_step e) (fun r s' =>
    (Reliable D -> r = None) /\
    match r with
    | None => flushing H s0 l s'
    | Some b => b <> EXT2_SUCCESS /\ cache_ok H s' /\ frame s0 s'
    end) s.
Proof.
  intros [Hc Hf Hn Hrest Hdone]. unfold flush_step. cbn [map] in Hn. apply list.NoDup_cons in Hn as [Hnot Hn].
  destruct (ce_dirty e) eqn:Ed.
  - wp_steps. wp_call flush_entry_spec; [exact Hc|apply Hrest; by left|].
    intros r s' (Hc' & Hf' & Hlen & Hfound & Hother & HR). wp_steps.
    pose proof (frame_trans _ _ _ Hf Hf') as Hf2. split.
    { intros Hrel. by rewrite (HR Hrel). }
    destruct (Z.eqb_spec r EXT2_SUCCESS) as [->|Hne]; cbn [negb]; [|done].
    destruct (Hfound eq_refl) as (e' & F' & Hd' & _). split; try done.
    + intros e2 Hin. rewrite Hother; [by apply Hrest; right|]. intros Heq. apply Hnot.
      rewrite <- Heq. apply list_elem_of_fmap. by exists e2.
    + intros e2 Hin. pose proof (find_in _ _ (cw_nodup _ _ Hc') Hin) as F2.
      destruct (decide (ce_block e2 = ce_block e)) as [E|E].
      * rewrite E, F' in F2. injection F2 as ->. by left.
      * rewrite Hother in F2 by done. apply find_block in F2 as [_ Hin'].
        destruct (Hdone e2 Hin') as [|Hb]; [by left|]. cbn [map] in Hb.
        apply elem_of_cons in Hb as [|]; [done|by right].
  - wp_steps. split; [done|]. split; try done.
    + intros e2 Hin. by apply Hrest; right.
    + intros e2 Hin. destruct (Hdone e2 Hin) as [|Hb]; [by left|]. cbn [map] in Hb.
      apply elem_of_cons in Hb as [Hb|]; [|by right]. left.
      pose proof (find_in _ _ (cw_nodup _ _ Hc) Hin) as F2. rewrite Hb, Hrest in F2 by by left.
      by injection F2 as <-.
Qed.

Lemma flush_cache_spec H s :
  cache_ok H s ->
  wp ext2_flush_cache (fun r s' =>
    cache_ok H s' /\ frame s s' /\ (Reliable D -> r = EXT2_SUCCESS) /\
    (r = EXT2_SUCCESS -> forall b, 0 <= b -> on_device s' b = view s b)) s.
Proof.
  intros Hc. unfold ext2_flush_cache. wp_steps.
  eapply wp_mono; [eapply (wp_for_each flush_step (flushing H s)
    (fun r s' => (Reliable D -> r = None) /\ match r with
       | None => flushing H s [] s'
       | Some b => b <> EXT2_SUCCESS /\ cache_ok H s' /\ frame s s' end))|].
  - split; [done|apply frame_refl|apply (cw_nodup _ _ Hc)| |].
    + intros e He. apply find_in; [apply (cw_nodup _ _ Hc)|done].
    + intros e He. right. apply list_elem_of_fmap. by exists e.
  - intros s1 HI. split; done.
  - intros e l s1 HI. wp_call flush_step_spec; [exact HI|]. intros [b|] s2; [done|]. by intros [_ HI'].
  - intros [b|] s' [HR Hs']; wp_steps; cbn [default].
    + destruct Hs' as (Hne & Hc' & Hf'). split_and!; [done|done| |done]. intros Hrel. by specialize (HR Hrel).
    + destruct Hs' as [Hc' Hf' _ _ Hdone]. split_and!; [done|done|done|].
      intros _ b Hb. destruct Hf' as [_ Hv]. rewrite <- Hv. unfold view. destruct (Z.leb_spec 0 b); [|lia].
      destruct (ext2_cache_find (cache s') b) as [e|] eqn:F; [|done].
      destruct (entry_in H s' b e Hc' F) as (Eb & He & _). apply find_block in F as [_ Hin].
      destruct (Hdone e Hin) as [Hd|Hd]; [|by apply not_elem_of_nil in Hd]. rewrite <- Eb.
      symmetry. by apply He.
Qed.

(** ** Clients of the cache

    A run of a client: calls of the cache in any order, with the pointers it
    holds and the stores it made, the first one first.  Stores are followed by
    the [ext2_put_block] that marks the entry dirty. *)
Inductive client_run : fs -> list Z -> list (Z * list (Z * list Z)) -> fs -> list Z -> Prop :=
  | run_done s H : client_run s H [] s H
  | run_perm s H H' tr s2 H2 : H ≡ₚ H' -> client_run s H' tr s2 H2 -> client_run s H tr s2 H2
  | run_get s H b r s1 tr s2 H2 :
      addressable s b -> Z.of_nat (length H) + 1 < 2 ^ 31 ->
      ext2_get_block kmalloc_ok b s = Some (r, s1) ->
      client_run s1 (match r with Some h => h :: H | None => H end) tr s2 H2 ->
      client_run s H tr s2 H2
  | run_put s h H dirty s1 tr s2 H2 :
      ext2_put_block h dirty s = Some (tt, s1) -> client_run s1 H tr s2 H2 ->
      client_run s (h :: H) tr s2 H2
  | run_write s h H ws s1 tr s2 H2 :
      Forall (store_ok (block_size s)) ws ->
      (do* block_writes h ws in ext2_put_block h true) s = Some (tt, s1) ->
      client_run s1 H tr s2 H2 -> client_run s (h :: H) ((h, ws) :: tr) s2 H2
  | run_flush s H r s1 tr s2 H2 :
      ext2_flush_cache s = Some (r, s1) -> client_run s1 H tr s2 H2 -> client_run s H tr s2 H2.

(** The same stores on a plain array of blocks. *)
Definition store_block (v : Z -> list Z) (w : Z * list (Z * list Z)) : Z -> list Z :=
  fun b => if decide (b = fst w) then stores (snd w) (v b) else v b.

Definition apply_stores (tr : list (Z * list (Z * list Z))) (v : Z -> list Z) : Z -> list Z :=
  fold_left store_block tr v.

Lemma apply_stores_ext tr : forall v v' : Z -> list Z,
  (forall b, v b = v' b) -> forall b, apply_stores tr v b = apply_stores tr v' b.
Proof.
  induction tr as [|w tr IH]; intros v v' H b; [apply H|]. apply (IH (store_block v w)). intros b'.
  unfold store_block. by rewrite H.
Qed.

Lemma client_run_ok s H tr s' H' :
  client_run s H tr s' H' -> cache_ok H s ->
  cache_ok H' s' /\ same_fs s s' /\ forall b, view s' b = apply_stores tr (view s) b.
Proof.
  induction 1 as [s H|s H H' tr s2 H2 Hp _ IH|s H b r s1 tr s2 H2 Ha Hl E _ IH|s h H dirty s1 tr s2 H2 E _ IH
    |s h H ws s1 tr s2 H2 Hw E _ IH|s H r s1 tr s2 H2 E _ IH]; intros Hc.
  - split_and!; [done|apply same_refl|done].
  - apply IH. by eapply cache_ok_perm.
  - destruct (wp_ran _ _ _ _ _ E (get_block_spec H s b Hc Ha Hl)) as ([Hs Hv] & Hsome & Hnone).
    destruct IH as (Hc2 & Hs2 & Hv2).
    { destruct r as [h|]; [|by apply Hnone]. by destruct (Hsome h eq_refl) as [-> ?]. }
    split_and!; [done|by eapply same_trans|]. intros b'. rewrite Hv2. by apply apply_stores_ext.
  - destruct (wp_ran _ _ _ _ _ E (put_block_spec H s h dirty Hc)) as (Hc1 & Hs & Hv).
    destruct (IH Hc1) as (Hc2 & Hs2 & Hv2). split_and!; [done|by eapply same_trans|].
    intros b'. rewrite Hv2. by apply apply_stores_ext.
  - destruct (wp_ran _ _ _ _ _ E (writes_put_spec H s h ws Hc Hw)) as (Hc1 & Hs & Hv).
    destruct (IH Hc1) as (Hc2 & Hs2 & Hv2). split_and!; [done|by eapply same_trans|].
    intros b'. rewrite Hv2. cbn [apply_stores fold_left]. apply apply_stores_ext. intros b2.
    rewrite Hv. unfold store_block. cbn [fst snd]. case_decide as E2; [by rewrite E2|done].
  - destruct (wp_ran _ _ _ _ _ E (flush_cache_spec H s Hc)) as (Hc1 & [Hs Hv] & _).
    destruct (IH Hc1) as (Hc2 & Hs2 & Hv2). split_and!; [done|by eapply same_trans|].
    intros b'. rewrite Hv2. by apply apply_stores_ext.
Qed.

(** C2: the cache is transparent.  Whatever a client does - pointers held
    across other calls, evictions, writes back, accesses of the device and
    allocations that fail - the cached file system shows the blocks of the
    device with the client's stores applied in order, and after a flush that
    succeeds the device itself holds exactly these. *)
Theorem cache_refines_blocks s H tr s1 H1 r s2 :
  cache_ok H s -> client_run s H tr s1 H1 -> ext2_flush_cache s1 = Some (r, s2) ->
  (forall b, view s1 b = apply_stores tr (view s) b) /\
  (r = EXT2_SUCCESS -> forall b, 0 <= b -> on_device s2 b = apply_stores tr (view s) b) /\
  (Reliable D -> r = EXT2_SUCCESS).
Proof.
  intros Hc Hrun E. destruct (client_run_ok _ _ _ _ _ Hrun Hc) as (Hc1 & _ & Hv1).
  destruct (wp_ran _ _ _ _ _ E (flush_cache_spec H1 s1 Hc1)) as (_ & _ & HR & Hd).
  split_and!; [done| |done]. intros Hr b Hb. by rewrite Hd.
Qed.
End coherence.

(** ** An example: a cache of two entries on a device of four blocks of 4 bytes *)
Definition demo_fs : ext2_fs mem_disk :=
  mkFs (mkMem (mkDevice [] 4 4 0 0) (seqZ 0 16)) [] [] 4 128 1 0 [] 0 2 0 false.

Definition after {A} (m : M (ext2_fs mem_disk) A) (s : ext2_fs mem_disk) : ext2_fs mem_disk :=
  match m s with Some (_, s') => s' | None => s end.

Definition get_demo (b : Z) : M (ext2_fs mem_disk) (option Z) := ext2_get_block (fun _ => true) b.
Definition demo_stores : list (Z * list Z) := [(1, [7; 8]); (2, [9])].
(** Block 1 is changed; then blocks 2 and 3 push it out. *)
Definition demo1 : ext2_fs mem_disk := after (get_demo 1) demo_fs.
Definition demo2 : ext2_fs mem_disk := after (do* block_writes 1 demo_stores in ext2_put_block 1 true) demo1.
Definition demo3 : ext2_fs mem_disk := after (get_demo 2) demo2.
Definition demo4 : ext2_fs mem_disk := after (get_demo 3) demo3.
Definition demo5 : ext2_fs mem_disk := after ext2_flush_cache demo4.

Lemma demo_ok : cache_ok [] demo_fs.
Proof.
  split; cbn; try done.
  - split; cbn; try done; try lia. vm_compute. repeat constructor; done.
  - constructor.
  - intros h Hh. by apply not_elem_of_nil in Hh.
Qed.

Lemma demo_run : client_run (fun _ => true) demo_fs [] [(1, demo_stores)] demo4 [3; 2].
Proof.
  eapply (run_get _ demo_fs [] 1 (Some 1) demo1); [by split; vm_compute|by vm_compute|by vm_compute|].
  eapply (run_write _ demo1 1 [] demo_stores demo2); [|by vm_compute|].
  { repeat (apply List.Forall_cons; [split_and!; [done|done|repeat constructor; lia]|]). apply List.Forall_nil. }
  eapply (run_get _ demo2 [] 2 (Some 2) demo3); [by split; vm_compute|by vm_compute|by vm_compute|].
  eapply (run_get _ demo3 [2] 3 (Some 3) demo4); [by split; vm_compute|by vm_compute|by vm_compute|].
  apply run_done.
Qed.

Lemma cache_refines_blocks_witness :
  map ce_block (cache demo4) = [3; 2] /\ on_device demo5 1 = [4; 7; 9; 7] /\ view demo4 1 = [4; 7; 9; 7].
Proof.
  split; [by vm_compute|].
  destruct (cache_refines_blocks (fun _ => true) demo_fs [] _ demo4 [3; 2] EXT2_SUCCESS demo5
    demo_ok demo_run ltac:(by vm_compute)) as (Hv & Hd & _).
  split; [rewrite (Hd eq_refl 1 ltac:(lia))|rewrite Hv]; by vm_compute.
Defined.
