(* ===== verification/Heap.v ===== *)
(** * Kernel heap (src/kernel/heap.c)

    A first-fit allocator over one contiguous range of virtual memory.  The
    headers ([Block] structures of 32 bytes) live in that memory, in front of
    the bytes they describe, and are read and written there with the offsets
    the compiler gives the fields: [magic] at 0, [size] at 8, [is_free] at 16,
    [next] at 24.

    [heap] is the static variables of heap.c together with the memory at the
    heap's virtual addresses.  Where the pages come from is the interface
    [PageBacking], implemented by [vmm_alloc_pages] of Vmm.v.

    The loops over the list of blocks run on fuel, one unit per block visited,
    and return [None] without enough of it.  [heap_fuel] is more than the
    number of headers that fit into the heap; the theorems show that the
    operations never run out of it. *)

From S2P Require Import Prelude PhysMem Pmm Vmm.

Definition HEAP_VIRTUAL_BASE : Z := 0xFFFFFFFF90000000.
Definition DEFAULT_HEAP_SIZE : Z := 16 * 1024 * 1024.
Definition BLOCK_MAGIC : Z := 0xDEADBEEF.

(** [sizeof(Block)] and the fields of the header at [b]. *)
Definition BLOCK : Z := 32.
Definition blk_magic (m : ram) (b : Z) : Z := load32 m b.
Definition blk_size (m : ram) (b : Z) : Z := load64 m (b + 8).
Definition blk_is_free (m : ram) (b : Z) : bool := negb (load32 m (b + 16) =? 0).
Definition blk_next (m : ram) (b : Z) : Z := load64 m (b + 24).

Definition set_magic (b v : Z) (m : ram) : ram := store32 m b v.
Definition set_size (b v : Z) (m : ram) : ram := store64 m (b + 8) (u64 v).
Definition set_is_free (b v : Z) (m : ram) : ram := store32 m (b + 16) v.
Definition set_next (b v : Z) (m : ram) : ram := store64 m (b + 24) v.

(** Where the heap gets its pages: [backing_alloc virt count flags s] maps
    fresh pages at [virt] and returns [virt], or 0. *)
Class PageBacking (S : Type) := backing_alloc : Z -> Z -> Z -> S -> S * Z.

#[export] Instance vmm_backing `{BootInfo} (kernel_space : address_space) : PageBacking machine :=
  fun virt count flags => vmm_alloc_pages kernel_space AS_KERNEL virt count flags.

Record heap (S : Type) := mkHeap {
  free_list : Z;
  heap_initialized : bool;
  heap_start : Z;
  heap_size : Z;
  hmem : ram;
  pages : S
}.
Arguments mkHeap {S}.
Arguments free_list {S}.
Arguments heap_initialized {S}.
Arguments heap_start {S}.
Arguments heap_size {S}.
Arguments hmem {S}.
Arguments pages {S}.

Record HeapStats := mkStats {
  total_size : Z; used_size : Z; free_size : Z; num_blocks : Z; num_free_blocks : Z
}.

Definition align (size : Z) : Z := Z.land (u64 (size + 15)) (u64 (Z.lnot 15)).

Section heap.
Context {S : Type} `{!PageBacking S}.

Definition set_mem (r : ram) (h : heap S) : heap S :=
  mkHeap (free_list h) (heap_initialized h) (heap_start h) (heap_size h) r (pages h).

(** One unit per header that fits, and two for the ends of the loops. *)
Definition heap_fuel (h : heap S) : nat := Z.to_nat (heap_size h / BLOCK + 2).

Definition init_heap (h : heap S) : heap S :=
  if heap_initialized h then h
  else
    let start := HEAP_VIRTUAL_BASE in
    let size := DEFAULT_HEAP_SIZE in
    let pages_needed := u64 (size + PAGE_SIZE - 1) / PAGE_SIZE in
    let '(s, result) := backing_alloc start pages_needed (Z.lor PAGE_WRITE PAGE_PRESENT) (pages h) in
    if result =? 0 then mkHeap (free_list h) false start size (hmem h) s
    else
      let m1 := set_magic start BLOCK_MAGIC (hmem h) in
      let m2 := set_size start (size - BLOCK) m1 in
      let m3 := set_is_free start 1 m2 in
      let m4 := set_next start 0 m3 in
      mkHeap start true start size m4 s.

(** The body of the loop of [kmalloc] for a block that is taken. *)
Definition take_block (current aligned_size : Z) (m : ram) : ram :=
  let m1 :=
    if u64 (aligned_size + BLOCK + 16) <=? blk_size m current then
      let new_block := u64 (current + BLOCK + aligned_size) in
      let m := set_magic new_block BLOCK_MAGIC m in
      let m := set_size new_block (blk_size m current - aligned_size - BLOCK) m in
      let m := set_is_free new_block 1 m in
      let m := set_next new_block (blk_next m current) m in
      let m := set_size current aligned_size m in
      set_next current new_block m
    else m in
  set_is_free current 0 m1.

Fixpoint kmalloc_loop (fuel : nat) (aligned_size current : Z) (m : ram) : option (ram * Z) :=
  match fuel with
  | O => None
  | Datatypes.S fuel' =>
      if current =? 0 then Some (m, 0)
      else if negb (blk_magic m current =? BLOCK_MAGIC) then Some (m, 0)
      else if blk_is_free m current && (aligned_size <=? blk_size m current) then
        Some (take_block current aligned_size m, u64 (current + BLOCK))
      else kmalloc_loop fuel' aligned_size (blk_next m current) m
  end.

Definition kmalloc (size : Z) (h0 : heap S) : option (heap S * Z) :=
  let h := if heap_initialized h0 then h0 else init_heap h0 in
  if negb (heap_initialized h) then Some (h, 0)
  else if size =? 0 then Some (h, 0)
  else
    match kmalloc_loop (heap_fuel h) (align size) (free_list h) (hmem h) with
    | Some (m, ptr) => Some (set_mem m h, ptr)
    | None => None
    end.

(** The search of [kfree] for the block whose [next] is [block]; 0 if none. *)
Fixpoint find_prev (fuel : nat) (block current : Z) (m : ram) : option Z :=
  match fuel with
  | O => None
  | Datatypes.S fuel' =>
      if current =? 0 then Some 0
      else if blk_next m current =? block then Some current
      else find_prev fuel' block (blk_next m current) m
  end.

(** [a->size += sizeof(Block) + b->size]. *)
Definition grow (a b : Z) (m : ram) : ram := set_size a (blk_size m a + BLOCK + blk_size m b) m.

(** Merge with the next block if that is free. *)
Definition coalesce_next (block : Z) (m : ram) : ram :=
  if negb (blk_next m block =? 0) && blk_is_free m (blk_next m block) then
    let m1 := grow block (blk_next m block) m in
    set_next block (blk_next m1 (blk_next m1 block)) m1
  else m.

Definition coalesce_prev (prev block : Z) (m : ram) : ram :=
  if negb (prev =? 0) && blk_is_free m prev then
    let m1 := grow prev block m in
    set_next prev (blk_next m1 block) m1
  else m.

Definition kfree (ptr : Z) (h : heap S) : option (heap S) :=
  if ptr =? 0 then Some h
  else if negb (heap_initialized h) then Some h
  else
    let heap_end := u64 (heap_start h + heap_size h) in
    if (ptr <? heap_start h) || (heap_end <=? ptr) then Some h
    else
      let block := u64 (ptr - BLOCK) in
      let m := hmem h in
      if negb (blk_magic m block =? BLOCK_MAGIC) then Some h
      else if blk_is_free m block then Some h
      else
        let m1 := coalesce_next block (set_is_free block 1 m) in
        match find_prev (heap_fuel h) block (free_list h) m1 with
        | Some prev => Some (set_mem (coalesce_prev prev block m1) h)
        | None => None
        end.

Fixpoint stats_loop (fuel : nat) (current : Z) (m : ram) (st : HeapStats) : option HeapStats :=
  match fuel with
  | O => None
  | Datatypes.S fuel' =>
      if current =? 0 then Some st
      else
        let size := blk_size m current in
        let st' :=
          if blk_is_free m current
          then mkStats (total_size st) (used_size st) (u64 (free_size st + size))
                 (u64 (num_blocks st + 1)) (u64 (num_free_blocks st + 1))
          else mkStats (total_size st) (u64 (used_size st + size)) (free_size st)
                 (u64 (num_blocks st + 1)) (num_free_blocks st) in
        stats_loop fuel' (blk_next m current) m st'
  end.

(** [get_heap_stats] on a structure with the contents [st]; NULL is not
    passed. *)
Definition get_heap_stats (h : heap S) (st : HeapStats) : option HeapStats :=
  if negb (heap_initialized h) then Some st
  else stats_loop (heap_fuel h) (free_list h) (hmem h) (mkStats (heap_size h) 0 0 0 0).

Fixpoint defrag_loop (fuel : nat) (current : Z) (m : ram) : option ram :=
  match fuel with
  | O => None
  | Datatypes.S fuel' =>
      if current =? 0 then Some m
      else if blk_is_free m current && (negb (blk_next m current =? 0)
                && blk_is_free m (blk_next m current)) then
        let m1 := grow current (blk_next m current) m in
        defrag_loop fuel' current (set_next current (blk_next m1 (blk_next m1 current)) m1)
      else defrag_loop fuel' (blk_next m current) m
  end.

Definition defrag_heap (h : heap S) : option (heap S) :=
  if negb (heap_initialized h) then Some h
  else
    match defrag_loop (heap_fuel h) (free_list h) (hmem h) with
    | Some m => Some (set_mem m h)
    | None => None
    end.
End heap.

(** ** Abstract heap

    The heap is a list of blocks, each a payload size and whether it is free,
    laid out one after the other: a header, then the payload. *)
Abbreviation block := (Z * bool)%type.

Fixpoint span (bs : list block) : Z :=
  match bs with [] => 0 | (s, _) :: bs' => BLOCK + s + span bs' end.

(** First fit: the blocks before the first free one of at least [need] bytes,
    its size, and the blocks after it. *)
Definition fits (need : Z) (b : block) : bool := snd b && (need <=? fst b).
Fixpoint first_fit (need : Z) (bs : list block) : option (list block * Z * list block) :=
  match bs with
  | [] => None
  | b :: bs' =>
      if fits need b then Some ([], fst b, bs')
      else match first_fit need bs' with
           | Some (pre, s, post) => Some (b :: pre, s, post)
           | None => None
           end
  end.

(** What is left of a free block of [s] bytes after taking [need]. *)
Definition carve (need s : Z) : list block :=
  if need + BLOCK + 16 <=? s then [(need, false); (s - need - BLOCK, true)] else [(s, false)].

(** Releasing a block of [s] bytes between [pre] and [post]. *)
Definition merge_next (s : Z) (post : list block) : list block :=
  match post with
  | (s', true) :: post' => (s + BLOCK + s', true) :: post'
  | _ => (s, true) :: post
  end.
Fixpoint merge_prev (pre post : list block) : list block :=
  match pre with
  | [] => post
  | [(s, true)] => match post with (s', _) :: post' => (s + BLOCK + s', true) :: post' | [] => pre end
  | b :: pre' => b :: merge_prev pre' post
  end.
Definition release (pre : list block) (s : Z) (post : list block) : list block :=
  merge_prev pre (merge_next s post).

(** No two free blocks in a row. *)
Fixpoint coalesced (bs : list block) : bool :=
  match bs with
  | (_, f) :: (((_, f') :: _) as bs') => negb (f && f') && coalesced bs'
  | _ => true
  end.

(** Merging every row of free blocks. *)
Fixpoint coalesce (bs : list block) : list block :=
  match bs with
  | [] => []
  | (s, f) :: bs' =>
      match coalesce bs' with
      | (s', true) :: r => if f then (s + BLOCK + s', true) :: r else (s, f) :: (s', true) :: r
      | r => (s, f) :: r
      end
  end.

(** ** The layout in memory *)

(** The header at [a] of a block of [s] bytes; the last block ends at [stop]
    and has no successor. *)
Record block_at (m : ram) (stop a s : Z) (f : bool) : Prop := {
  ba_magic : blk_magic m a = BLOCK_MAGIC;
  ba_size : blk_size m a = s;
  ba_free : blk_is_free m a = f;
  ba_next : blk_next m a = if a + BLOCK + s =? stop then 0 else a + BLOCK + s
}.

Fixpoint seg (m : ram) (stop a : Z) (bs : list block) : Prop :=
  match bs with
  | [] => True
  | (s, f) :: bs' => block_at m stop a s f /\ seg m stop (a + BLOCK + s) bs'
  end.

Definition sizes_ok (bs : list block) : Prop := Forall (fun b => 0 <= fst b /\ fst b mod 16 = 0) bs.

(** Byte [x] belongs to the payload of a block in use. *)
Fixpoint in_used (a : Z) (bs : list block) (x : Z) : Prop :=
  match bs with
  | [] => False
  | (s, f) :: bs' =>
      (f = false /\ a + BLOCK <= x < a + BLOCK + s) \/ in_used (a + BLOCK + s) bs' x
  end.

(** The invariant: the blocks [bs] tile the heap. *)
Record heap_ok {S} (h : heap S) (bs : list block) : Prop := {
  ho_init : heap_initialized h = true;
  ho_list : free_list h = heap_start h;
  ho_start : 4096 <= heap_start h;
  ho_end : heap_start h + heap_size h < 2 ^ 64;
  ho_span : span bs = heap_size h;
  ho_nonempty : bs <> [];
  ho_sizes : sizes_ok bs;
  ho_bytes : ram_bytes (hmem h);
  ho_seg : seg (hmem h) (heap_start h + heap_size h) (heap_start h) bs
}.

Lemma span_app l1 l2 : span (l1 ++ l2) = span l1 + span l2.
Proof. induction l1 as [|[s f] l1 IH]; simpl; lia. Qed.

Lemma span_nonneg bs : sizes_ok bs -> BLOCK * Z.of_nat (length bs) <= span bs.
Proof.
  unfold BLOCK. induction 1 as [|[s f] bs [Hs _] _ IH]; [done|]. cbn [span fst length] in *.
  unfold BLOCK. lia.
Qed.

Lemma seg_app m stop l1 l2 : forall a,
  seg m stop a (l1 ++ l2) <-> seg m stop a l1 /\ seg m stop (a + span l1) l2.
Proof.
  induction l1 as [|[s f] l1 IH]; intros a; simpl.
  - rewrite Z.add_0_r. tauto.
  - rewrite IH. replace (a + BLOCK + s + span l1) with (a + (BLOCK + s + span l1)) by lia. tauto.
Qed.

Lemma sizes_app l1 l2 : sizes_ok (l1 ++ l2) <-> sizes_ok l1 /\ sizes_ok l2.
Proof. apply Forall_app. Qed.

Lemma sizes_cons s f bs : sizes_ok ((s, f) :: bs) <-> (0 <= s /\ s mod 16 = 0) /\ sizes_ok bs.
Proof. unfold sizes_ok. split; [intros H; inversion H; auto|intros [? ?]; by constructor]. Qed.

Lemma block_at_agree m m' stop a s f :
  (forall x, a <= x < a + BLOCK -> m' x = m x) -> block_at m stop a s f -> block_at m' stop a s f.
Proof.
  unfold BLOCK. intros Hag [H1 H2 H3 H4].
  split; rewrite <- ?H1, <- ?H2, <- ?H3, <- ?H4; unfold blk_magic, blk_size, blk_is_free, blk_next.
  - apply load32_agree. intros x Hx. apply Hag. lia.
  - apply load64_agree. intros x Hx. apply Hag. lia.
  - do 2 f_equal. apply load32_agree. intros x Hx. apply Hag. lia.
  - unfold blk_next, blk_size in *. rewrite H2, <- H4.
    apply load64_agree. intros x Hx. apply Hag. lia.
Qed.

Lemma seg_agree m m' stop bs : forall a,
  sizes_ok bs -> (forall x, a <= x < a + span bs -> m' x = m x) -> seg m stop a bs -> seg m' stop a bs.
Proof.
  induction bs as [|[s f] bs IH]; intros a Hs Hag; simpl; [done|].
  apply sizes_cons in Hs as [[Hs _] Hss]. pose proof (span_nonneg bs Hss) as Hn.
  simpl span in Hag. unfold BLOCK in *. intros [Hb Hg]. split.
  - apply (block_at_agree m); [|done]. intros x Hx. apply Hag. unfold BLOCK in *. lia.
  - apply IH; [done| |done]. intros x Hx. apply Hag. lia.
Qed.

Lemma seg_ends bs stop a m :
  seg m stop a bs -> forall pre s f post, bs = pre ++ (s, f) :: post ->
  block_at m stop (a + span pre) s f.
Proof.
  intros Hg pre s f post ->. apply seg_app in Hg as [_ Hg]. by destruct Hg as [Hg _].
Qed.

(** [first_fit] finds the first block that fits. *)
Lemma first_fit_Some need bs pre s post :
  first_fit need bs = Some (pre, s, post) ->
  bs = pre ++ (s, true) :: post /\ need <= s /\ Forall (fun b => fits need b = false) pre.
Proof.
  revert pre. induction bs as [|[s0 f0] bs IH]; simpl; intros pre H; [done|].
  destruct (fits need (s0, f0)) eqn:E.
  - injection H as <- <- <-. unfold fits in E. simpl in E. apply andb_true_iff in E as [-> E].
    apply Z.leb_le in E. split_and!; [done|done|constructor].
  - destruct (first_fit need bs) as [[[pre' s'] post']|] eqn:E'; [|done].
    injection H as <- <- <-. destruct (IH pre' eq_refl) as (-> & Hn & Hf).
    split_and!; [done|done|by constructor].
Qed.

Lemma first_fit_None need bs :
  first_fit need bs = None -> Forall (fun b => fits need b = false) bs.
Proof.
  induction bs as [|b bs IH]; simpl; intros H; [constructor|].
  destruct (fits need b) eqn:E; [done|].
  destruct (first_fit need bs) as [[[? ?] ?]|]; [done|]. constructor; auto.
Qed.

(** ** The loops *)
Section loops.
Context (m : ram) (stop : Z).

(** The loop of [kmalloc] passes over blocks that do not fit. *)
Lemma kmalloc_loop_skip need pre : forall a fuel rest,
  0 < a -> sizes_ok pre -> Forall (fun b => fits need b = false) pre -> seg m stop a pre ->
  a + span pre <= stop -> (rest <> 0 <-> a + span pre <> stop) ->
  (rest <> 0 -> rest = a + span pre) ->
  (pre = [] -> a = rest) ->
  kmalloc_loop (length pre + fuel) need a m = kmalloc_loop fuel need rest m.
Proof.
  induction pre as [|[s f] pre IH]; intros a fuel rest Ha Hs Hf Hg Hle Hr Hr' Hnil.
  { simpl. by rewrite (Hnil eq_refl). }
  apply sizes_cons in Hs as [[Hs _] Hss]. inversion Hf as [|? ? Hf1 Hf2]; subst.
  destruct Hg as [[B1 B2 B3 B4] Hg]. pose proof (span_nonneg pre Hss) as Hn.
  simpl span in *. unfold BLOCK in *. simpl.
  destruct (Z.eqb_spec a 0); [lia|]. rewrite B1, Z.eqb_refl. simpl. rewrite B2, B3.
  unfold fits in Hf1. simpl in Hf1. rewrite Hf1, B4.
  destruct (Z.eqb_spec (a + 32 + s) stop) as [E|E].
  - assert (pre = []) as ->.
    { destruct pre as [|[s1 f1] pre]; [done|]. exfalso. simpl span in *. unfold BLOCK in *.
      apply sizes_cons in Hss as [[? _] Hss]. pose proof (span_nonneg pre Hss).
      unfold BLOCK in *. lia. }
    simpl in *. assert (rest = 0) as -> by lia. done.
  - apply IH; try done; try lia.
    intros ->. simpl in *. lia.
Qed.

(** The loop stops at the first block that fits ... *)
Lemma kmalloc_loop_found need pre s post a fuel :
  0 < a -> sizes_ok (pre ++ (s, true) :: post) -> seg m stop a (pre ++ (s, true) :: post) ->
  a + span (pre ++ (s, true) :: post) = stop -> need <= s ->
  Forall (fun b => fits need b = false) pre -> (length pre < fuel)%nat ->
  kmalloc_loop fuel need a m =
    Some (take_block (a + span pre) need m, u64 (a + span pre + BLOCK)).
Proof.
  intros Ha Hs Hg Hsp Hn Hf Hfuel. pose proof Hs as Hs'. apply sizes_app in Hs as [Hs1 Hs2].
  apply sizes_cons in Hs2 as [[Hs2 _] Hs3]. rewrite span_app in Hsp. simpl in Hsp.
  pose proof (span_nonneg pre Hs1). pose proof (span_nonneg post Hs3). unfold BLOCK in *.
  apply seg_app in Hg as [Hg1 Hg2]. destruct Hg2 as [[B1 B2 B3 B4] _].
  replace fuel with (length pre + S (fuel - length pre - 1))%nat by lia.
  rewrite (kmalloc_loop_skip need pre a _ (a + span pre)); try done; try lia.
  2:{ intros ->. simpl. lia. }
  simpl. destruct (Z.eqb_spec (a + span pre) 0); [lia|].
  rewrite B1, Z.eqb_refl. simpl. rewrite B2, B3. destruct (Z.leb_spec need s); [|lia].
  done.
Qed.

(** ... or reaches the end. *)
Lemma kmalloc_loop_none need bs a fuel :
  0 < a -> sizes_ok bs -> seg m stop a bs -> a + span bs = stop -> bs <> [] ->
  Forall (fun b => fits need b = false) bs -> (length bs < fuel)%nat ->
  kmalloc_loop fuel need a m = Some (m, 0).
Proof.
  intros Ha Hs Hg Hsp Hne Hf Hfuel.
  replace fuel with (length bs + S (fuel - length bs - 1))%nat by lia.
  by rewrite (kmalloc_loop_skip need bs a _ 0); try done; try lia.
Qed.

(** The search for the predecessor of the block after [pre]. *)
Lemma find_prev_found pre s f post : forall a fuel target,
  0 < a -> sizes_ok (pre ++ (s, f) :: post) -> seg m stop a (pre ++ (s, f) :: post) ->
  a + span pre + BLOCK + s = target -> target <> stop -> (length pre < fuel)%nat ->
  a + span (pre ++ (s, f) :: post) <= stop ->
  find_prev fuel target a m = Some (a + span pre).
Proof.
  induction pre as [|[s0 f0] pre IH]; intros a fuel target Ha Hs Hg Ht Hne Hfuel Hle.
  - destruct fuel as [|fuel]; [simpl in Hfuel; lia|]. simpl in Ht |- *.
    destruct (Z.eqb_spec a 0); [lia|]. destruct Hg as [[_ _ _ B4] _]. rewrite B4, Z.add_0_r in *.
    destruct (Z.eqb_spec (a + BLOCK + s) stop); [lia|].
    destruct (Z.eqb_spec (a + BLOCK + s) target); [done|lia].
  - destruct fuel as [|fuel]; [simpl in Hfuel; lia|]. simpl in Hfuel.
    change (((s0, f0) :: pre) ++ (s, f) :: post) with ((s0, f0) :: (pre ++ (s, f) :: post)) in *.
    apply sizes_cons in Hs as [[Hs0 _] Hs]. destruct Hg as [[_ _ _ B4] Hg].
    pose proof (proj1 (sizes_app _ _) Hs) as [Hsp Hsq]. apply sizes_cons in Hsq as [[Hs1 _] Hsq].
    pose proof (span_nonneg pre Hsp). pose proof (span_nonneg post Hsq).
    simpl span in *. rewrite span_app in Hle. simpl span in Hle. unfold BLOCK in *. simpl.
    destruct (Z.eqb_spec a 0); [lia|]. rewrite B4. unfold BLOCK.
    destruct (Z.eqb_spec (a + 32 + s0) stop); [lia|].
    destruct (Z.eqb_spec (a + 32 + s0) target); [lia|].
    rewrite (IH (a + 32 + s0)); try done; try lia.
    + f_equal. lia.
    + rewrite span_app. simpl span. unfold BLOCK. lia.
Qed.

(** No block of the list precedes its first one. *)
Lemma find_prev_none bs : forall a fuel target,
  0 < a -> sizes_ok bs -> seg m stop a bs -> a + span bs = stop -> bs <> [] ->
  0 < target <= a -> (length bs < fuel)%nat -> find_prev fuel target a m = Some 0.
Proof.
  induction bs as [|[s f] bs IH]; intros a fuel target Ha Hs Hg Hsp Hne Ht Hfuel; [done|].
  destruct fuel as [|fuel]; [simpl in Hfuel; lia|]. simpl in Hfuel. simpl.
  apply sizes_cons in Hs as [[Hs _] Hss]. destruct Hg as [[_ _ _ B4] Hg].
  pose proof (span_nonneg bs Hss). simpl span in Hsp. unfold BLOCK in *.
  destruct (Z.eqb_spec a 0); [lia|]. rewrite B4. unfold BLOCK.
  destruct (Z.eqb_spec (a + 32 + s) stop) as [E|E].
  - destruct (Z.eqb_spec 0 target); [lia|]. destruct fuel; [simpl in *; lia|]. done.
  - destruct (Z.eqb_spec (a + 32 + s) target); [lia|].
    apply IH; try done; try lia. intros ->. simpl in Hsp. lia.
Qed.
End loops.

Lemma block_at_ranges m stop a s f :
  ram_bytes m -> block_at m stop a s f -> 0 <= blk_size m a < 2 ^ 64 /\ 0 <= blk_next m a < 2 ^ 64.
Proof. intros Hb _. split; apply load64_range, Hb. Qed.

Ltac heap_unfold :=
  unfold set_magic, set_size, set_is_free, set_next, blk_magic, blk_size, blk_is_free, blk_next,
    BLOCK, BLOCK_MAGIC in *.

(** A header just written. *)
Lemma block_at_intro m stop a s (f : bool) :
  blk_magic m a = BLOCK_MAGIC -> blk_size m a = s -> load32 m (a + 16) = (if f then 1 else 0) ->
  blk_next m a = (if a + BLOCK + s =? stop then 0 else a + BLOCK + s) -> block_at m stop a s f.
Proof.
  intros H1 H2 H3 H4. split; [done|done| |done]. unfold blk_is_free. rewrite H3. by destruct f.
Qed.

(** Changing the [is_free] field of a header. *)
Lemma set_is_free_spec m stop a s (f g : bool) :
  ram_bytes m -> block_at m stop a s f ->
  let m' := set_is_free a (if g then 1 else 0) m in
  ram_bytes m' /\ (forall x, ~ (a <= x < a + BLOCK) -> m' x = m x) /\ block_at m' stop a s g.
Proof.
  intros Hb [B1 B2 B3 B4] m'. unfold m'. heap_unfold. split_and!; [by apply store32_bytes| |].
  - intros x Hx. by rewrite store32_outside by lia.
  - apply block_at_intro; heap_unfold; mem_simpl; try done. destruct g; by mem_simpl.
Qed.

Lemma take_block_spec m stop c need s :
  ram_bytes m -> block_at m stop c s true -> 0 <= need <= s -> need mod 16 = 0 ->
  4096 <= c -> c + BLOCK + s <= stop -> stop < 2 ^ 64 ->
  let m' := take_block c need m in
  ram_bytes m' /\ (forall x, ~ (c <= x < c + BLOCK + s) -> m' x = m x) /\
  seg m' stop c (carve need s).
Proof.
  intros Hb Hblk Hn Hmod Hc Hle Hst m'. unfold m', take_block, carve.
  pose proof Hblk as [B1 B2 B3 B4]. rewrite B2. unfold BLOCK in *.
  rewrite (u64_small (need + 32 + 16)) by lia.
  destruct (Z.leb_spec (need + 32 + 16) s) as [Hsp|Hsp].
  2:{ destruct (set_is_free_spec m stop c s true false Hb Hblk) as (H1 & H2 & H3).
      split_and!; [done| |split; done]. intros x Hx. apply H2. unfold BLOCK. lia. }
  rewrite (u64_small (c + 32 + need)) by lia.
  set (new := c + 32 + need). heap_unfold.
  mem_simpl. rewrite B2, !u64_small by lia. mem_simpl. rewrite B4.
  set (nx := if c + 32 + s =? stop then 0 else c + 32 + s).
  assert (Hnx : 0 <= nx < 2 ^ 64) by (unfold nx; destruct (c + 32 + s =? stop); lia).
  split_and!.
  - auto 10 with kernel.
  - intros x Hx. by rewrite !store32_outside, !store64_outside, !store32_outside, !store64_outside,
      !store32_outside by lia.
  - simpl. unfold BLOCK. split_and!; [|fold new|done].
    + apply block_at_intro; heap_unfold; fold new; mem_simpl; try done.
      destruct (Z.eqb_spec new stop); [lia|done].
    + apply block_at_intro; heap_unfold; mem_simpl; try done; try lia.
      unfold nx. replace (new + 32 + (s - need - 32)) with (c + 32 + s) by lia. done.
Qed.

Lemma in_used_app l1 l2 x : forall a,
  in_used a (l1 ++ l2) x <-> in_used a l1 x \/ in_used (a + span l1) l2 x.
Proof.
  induction l1 as [|[s f] l1 IH]; intros a; simpl.
  - rewrite Z.add_0_r. tauto.
  - rewrite IH. replace (a + BLOCK + s + span l1) with (a + (BLOCK + s + span l1)) by lia. tauto.
Qed.

Lemma in_used_range bs x : forall a, sizes_ok bs -> in_used a bs x -> a <= x < a + span bs.
Proof.
  induction bs as [|[s f] bs IH]; intros a Hs; simpl; [done|].
  apply sizes_cons in Hs as [[Hs _] Hss]. pose proof (span_nonneg bs Hss). unfold BLOCK in *.
  intros [[_ Hx]|Hx]; [lia|]. apply IH in Hx; [lia|done].
Qed.

Section specs.
Context {S : Type} `{!PageBacking S}.
Implicit Types h : heap S.

(** Replacing the blocks in the middle of the heap. *)
Lemma heap_ok_replace h pre mid post mid' m' :
  heap_ok h (pre ++ mid ++ post) -> ram_bytes m' -> sizes_ok mid' -> mid' <> [] ->
  span mid' = span mid ->
  (forall x, ~ (heap_start h + span pre <= x < heap_start h + span pre + span mid) ->
     m' x = hmem h x) ->
  seg m' (heap_start h + heap_size h) (heap_start h + span pre) mid' ->
  heap_ok (set_mem m' h) (pre ++ mid' ++ post).
Proof.
  intros [H1 H2 H3 H4 H5 H6 H7 H8 H9] Hb Hs Hne Hsp Hfr Hg.
  apply sizes_app in H7 as [S1 S2]. apply sizes_app in S2 as [S2 S3].
  apply seg_app in H9 as [G1 G2]. apply seg_app in G2 as [G2 G3].
  split; try done.
  - simpl. rewrite !span_app, Hsp, <- !span_app. done.
  - by destruct pre, mid'.
  - apply sizes_app. split; [done|]. by apply sizes_app.
  - simpl. apply seg_app. split; [|apply seg_app; split; [done|]].
    + apply (seg_agree (hmem h)); [done| |done]. intros x Hx. apply Hfr. lia.
    + rewrite Hsp. apply (seg_agree (hmem h)); [done| |done]. intros x Hx. apply Hfr. lia.
Qed.

Lemma used_outside h pre mid post x :
  heap_ok h (pre ++ mid ++ post) -> in_used (heap_start h) (pre ++ mid ++ post) x ->
  ~ in_used (heap_start h + span pre) mid x ->
  ~ (heap_start h + span pre <= x < heap_start h + span pre + span mid).
Proof.
  intros Hok Hx Hn. pose proof (ho_sizes _ _ Hok) as Hs.
  apply sizes_app in Hs as [S1 S2]. apply sizes_app in S2 as [S2 S3].
  apply in_used_app in Hx as [Hx|Hx].
  - apply in_used_range in Hx; [lia|done].
  - apply in_used_app in Hx as [Hx|Hx]; [done|]. apply in_used_range in Hx; [lia|done].
Qed.

Lemma heap_fuel_enough h bs : heap_ok h bs -> (length bs + 1 < heap_fuel h)%nat.
Proof.
  intros [_ _ _ _ Hsp _ Hs _ _]. pose proof (span_nonneg bs Hs). unfold heap_fuel, BLOCK in *.
  assert (Z.of_nat (length bs) <= heap_size h / 32) by (apply Z.div_le_lower_bound; lia). lia.
Qed.

(** Where the list of blocks splits, its addresses are inside the heap. *)
Lemma heap_split h pre s f post :
  heap_ok h (pre ++ (s, f) :: post) ->
  0 <= s /\ s mod 16 = 0 /\ sizes_ok pre /\ sizes_ok post /\
  4096 <= heap_start h <= heap_start h + span pre /\
  heap_start h + span pre + BLOCK + s + span post = heap_start h + heap_size h /\
  heap_start h + heap_size h < 2 ^ 64 /\ 0 <= span post /\
  block_at (hmem h) (heap_start h + heap_size h) (heap_start h + span pre) s f.
Proof.
  intros Hok. pose proof Hok as [_ _ H3 H4 H5 _ H7 _ H9].
  apply sizes_app in H7 as [S1 S2]. apply sizes_cons in S2 as [[S2 S2'] S3].
  pose proof (span_nonneg pre S1). pose proof (span_nonneg post S3).
  rewrite span_app in H5. simpl in H5. unfold BLOCK in *.
  split_and!; try done; try lia. by apply (seg_ends _ _ _ _ H9 pre s f post).
Qed.

(** The abstract allocation: the new list and the offset of the block. *)
Definition alloc (need : Z) (bs : list block) : option (list block * Z) :=
  match first_fit need bs with
  | Some (pre, s, post) => Some (pre ++ carve need s ++ post, span pre)
  | None => None
  end.

Lemma align_spec size :
  0 <= size < 2 ^ 64 -> 0 <= align size < 2 ^ 64 /\ align size mod 16 = 0 /\
  (size <= 2 ^ 64 - 16 -> size <= align size < size + 16).
Proof.
  intros Hs. unfold align. change (u64 (Z.lnot 15)) with (Z.land (Z.lnot (Z.ones 4)) (Z.ones 64)).
  rewrite Z.land_assoc, land_lnot_ones by lia. rewrite Z.land_ones by lia.
  change (2 ^ 4) with 16. pose proof (u64_range (size + 15)) as Hr.
  set (y := u64 (size + 15)) in *.
  assert (0 <= y - y mod 16 < 2 ^ 64) as Hy by zdiv_lia.
  rewrite (Z.mod_small (y - y mod 16) (2 ^ 64)) by done.
  split; [done|]. split; [zdiv_lia|]. intros Hs'.
  assert (y = size + 15) as E by (unfold y; apply u64_small; lia). clearbody y. subst y. zdiv_lia.
Qed.

Lemma carve_sizes need s :
  0 <= need <= s -> need mod 16 = 0 -> s mod 16 = 0 -> sizes_ok (carve need s) /\
  span (carve need s) = BLOCK + s /\ carve need s <> [].
Proof.
  intros Hn Hm Hs. unfold carve, BLOCK. destruct (Z.leb_spec (need + 32 + 16) s).
  - split_and!; [|simpl; unfold BLOCK; lia|done]. repeat constructor; simpl; try lia; try done.
    zdiv_lia.
  - split_and!; [|simpl; unfold BLOCK; lia|done]. repeat constructor; simpl; try lia; done.
Qed.

Lemma kmalloc_cases h bs size :
  heap_ok h bs -> 0 < size < 2 ^ 64 ->
  match alloc (align size) bs with
  | Some (bs', off) =>
      exists h', kmalloc size h = Some (h', heap_start h + off + BLOCK) /\ heap_ok h' bs' /\
        heap_start h' = heap_start h /\ heap_size h' = heap_size h /\
        forall x, in_used (heap_start h) bs x -> hmem h' x = hmem h x
  | None => kmalloc size h = Some (set_mem (hmem h) h, 0)
  end.
Proof.
  intros Hok Hsz. destruct (align_spec size ltac:(lia)) as (Ha1 & Ha2 & _).
  set (need := align size) in *.
  pose proof (heap_fuel_enough h bs Hok) as Hfuel.
  unfold kmalloc. rewrite (ho_init _ _ Hok). simpl. rewrite (ho_init _ _ Hok). simpl.
  destruct (Z.eqb_spec size 0); [lia|]. rewrite (ho_list _ _ Hok). fold need.
  pose proof (ho_start _ _ Hok). pose proof (ho_span _ _ Hok) as Hspan.
  unfold alloc. destruct (first_fit need bs) as [[[pre s] post]|] eqn:Eff.
  - destruct (first_fit_Some _ _ _ _ _ Eff) as (-> & Hn & Hf).
    destruct (heap_split h pre s true post Hok) as (K1 & K2 & K3 & K4 & K5 & K6 & K7 & K8 & K9).
    rewrite length_app in Hfuel. cbn [length] in Hfuel. unfold BLOCK in K6.
    rewrite (kmalloc_loop_found _ (heap_start h + heap_size h) need pre s post); try done; try lia;
      [|apply Hok|apply Hok].
    destruct (take_block_spec (hmem h) (heap_start h + heap_size h) (heap_start h + span pre) need s)
      as (T1 & T2 & T3); [apply Hok|done|lia|done|lia|unfold BLOCK; lia|lia|].
    destruct (carve_sizes need s ltac:(lia) Ha2 K2) as (C1 & C2 & C3).
    rewrite u64_small by (unfold BLOCK; lia).
    eexists. split; [reflexivity|]. split_and!; [|done|done|].
    + change (pre ++ (s, true) :: post) with (pre ++ [(s, true)] ++ post) in Hok.
      apply (heap_ok_replace h pre [(s, true)] post); try done.
      * simpl. lia.
      * intros x Hx. apply T2. simpl span in Hx. unfold BLOCK in *. lia.
    + intros x Hx. simpl. apply T2.
      pose proof (used_outside h pre [(s, true)] post x Hok Hx) as Ho.
      simpl in Ho. unfold BLOCK in *. intros Hin. apply Ho; [intuition congruence|lia].
  - rewrite (kmalloc_loop_none _ (heap_start h + heap_size h) need bs); try done; try apply Hok; try lia.
    by apply first_fit_None.
Qed.
End specs.

Lemma used_not_free a pre s post x :
  sizes_ok (pre ++ (s, true) :: post) -> in_used a (pre ++ (s, true) :: post) x ->
  ~ (a + span pre <= x < a + span pre + BLOCK + s).
Proof.
  intros Hs Hx. apply sizes_app in Hs as [S1 S2]. apply sizes_cons in S2 as [[? _] S3].
  apply in_used_app in Hx as [Hx|Hx].
  - apply in_used_range in Hx; [lia|done].
  - simpl in Hx. destruct Hx as [[? _]|Hx]; [done|]. apply in_used_range in Hx; [lia|done].
Qed.

Lemma merge_prev_snoc p sp fp s1 post :
  merge_prev (p ++ [(sp, fp)]) ((s1, true) :: post) =
  p ++ (if fp then (sp + BLOCK + s1, true) :: post else (sp, fp) :: (s1, true) :: post).
Proof.
  induction p as [|[sb fb] p IH]; [by destruct fp|].
  change (((sb, fb) :: p) ++ [(sp, fp)]) with ((sb, fb) :: (p ++ [(sp, fp)])).
  destruct (p ++ [(sp, fp)]) as [|q r] eqn:E; [by destruct p|].
  destruct fb; cbn [merge_prev app]; f_equal; exact IH.
Qed.

(** [merge_next] always leaves a free block in front. *)
Lemma merge_next_shape s post :
  0 <= s -> s mod 16 = 0 -> sizes_ok post ->
  exists s1 post1, merge_next s post = (s1, true) :: post1 /\ 0 <= s1 /\ s1 mod 16 = 0 /\
    sizes_ok post1 /\ s1 + span post1 = s + span post /\ s <= s1.
Proof.
  intros Hs Hm Hp. unfold merge_next.
  destruct post as [|[s' [|]] post']; [eexists _, _; split_and!; done| |eexists _, _; split_and!; done].
  apply sizes_cons in Hp as [[? ?] ?]. eexists _, _. split; [done|].
  simpl. unfold BLOCK. split_and!; try done; try lia. zdiv_lia.
Qed.

Section coalescing.
Context (m : ram) (stop c s : Z) (post : list block).
Hypotheses (Hb : ram_bytes m) (Hblk : block_at m stop c s true) (Hs : 0 <= s)
  (Hp : sizes_ok post) (Hg : seg m stop (c + BLOCK + s) post) (Hc : 4096 <= c)
  (Hend : c + BLOCK + s + span post = stop) (Hst : stop < 2 ^ 64).

Lemma coalesce_next_spec :
  let m1 := coalesce_next c m in
  ram_bytes m1 /\ (forall x, ~ (c <= x < c + BLOCK) -> m1 x = m x) /\
  seg m1 stop c (merge_next s post).
Proof.
  cbv zeta. unfold coalesce_next. pose proof Hblk as [B1 B2 B3 B4]. rewrite B4.
  pose proof (span_nonneg post Hp) as Hn. unfold BLOCK in *.
  destruct post as [|[s2 f2] post'].
  { simpl in Hend. destruct (Z.eqb_spec (c + 32 + s) stop); [|lia]. simpl.
    split_and!; done. }
  apply sizes_cons in Hp as [[Hs2 _] Hp']. pose proof (span_nonneg post' Hp') as Hn'.
  destruct Hg as [Hblk2 Hg']. pose proof Hblk2 as [C1 C2 C3 C4].
  simpl in Hend. unfold BLOCK in *.
  destruct (Z.eqb_spec (c + 32 + s) stop); [lia|].
  destruct (Z.eqb_spec (c + 32 + s) 0); [lia|]. rewrite C3. simpl negb. simpl andb.
  destruct f2; cbn [negb andb]; cbv iota; [|split_and!; done].
  unfold grow. rewrite B2, C2. heap_unfold. rewrite u64_small by lia.
  assert (load64 (store64 m (c + 8) (s + 32 + s2)) (c + 24) = c + 32 + s) as -> by by mem_simpl.
  assert (load64 (store64 m (c + 8) (s + 32 + s2)) (c + 32 + s + 24) =
          if c + 32 + s + 32 + s2 =? stop then 0 else c + 32 + s + 32 + s2) as -> by by mem_simpl.
  set (nx := if c + 32 + s + 32 + s2 =? stop then 0 else c + 32 + s + 32 + s2).
  assert (Hnx : 0 <= nx < 2 ^ 64) by (unfold nx; destruct (c + 32 + s + 32 + s2 =? stop); lia).
  split_and!; [auto with kernel| |].
  - intros x Hx. by mem_simpl.
  - split.
    + split; heap_unfold; mem_simpl; try done. unfold nx.
      by replace (c + 32 + (s + 32 + s2)) with (c + 32 + s + 32 + s2) by lia.
    + unfold BLOCK. apply (seg_agree m); [done| |].
      * intros x Hx. by mem_simpl.
      * by replace (c + 32 + (s + 32 + s2)) with (c + 32 + s + 32 + s2) by lia.
Qed.
End coalescing.

Lemma coalesce_prev_spec m stop a sp fp s1 post :
  ram_bytes m -> block_at m stop a sp fp -> block_at m stop (a + BLOCK + sp) s1 true ->
  0 <= sp -> 0 <= s1 -> sizes_ok post -> 4096 <= a -> stop < 2 ^ 64 ->
  a + BLOCK + sp + BLOCK + s1 + span post = stop ->
  seg m stop (a + BLOCK + sp + BLOCK + s1) post ->
  let m' := coalesce_prev a (a + BLOCK + sp) m in
  ram_bytes m' /\ (forall x, ~ (a <= x < a + BLOCK) -> m' x = m x) /\
  seg m' stop a (if fp then (sp + BLOCK + s1, true) :: post else (sp, fp) :: (s1, true) :: post).
Proof.
  intros Hb [B1 B2 B3 B4] Hblk Hsp Hs1 Hp Ha Hst Hend Hg. pose proof Hblk as [C1 C2 C3 C4].
  cbv zeta. unfold coalesce_prev. pose proof (span_nonneg post Hp).
  destruct (Z.eqb_spec a 0); [unfold BLOCK in *; lia|]. rewrite B3. destruct fp; cbn [negb andb].
  2:{ split_and!; done. }
  unfold grow. rewrite B2, C2. heap_unfold. rewrite u64_small by lia.
  assert (load64 (store64 m (a + 8) (sp + 32 + s1)) (a + 32 + sp + 24) =
    if a + 32 + sp + 32 + s1 =? stop then 0 else a + 32 + sp + 32 + s1) as -> by by mem_simpl.
  set (nx := if a + 32 + sp + 32 + s1 =? stop then 0 else a + 32 + sp + 32 + s1).
  assert (Hnx : 0 <= nx < 2 ^ 64) by (unfold nx; destruct (a + 32 + sp + 32 + s1 =? stop); lia).
  split_and!; [auto with kernel| |].
  - intros x Hx. by mem_simpl.
  - split.
    + split; heap_unfold; mem_simpl; try done. unfold nx.
      by replace (a + 32 + (sp + 32 + s1)) with (a + 32 + sp + 32 + s1) by lia.
    + unfold BLOCK. apply (seg_agree m); [done| |].
      * intros x Hx. by mem_simpl.
      * by replace (a + 32 + (sp + 32 + s1)) with (a + 32 + sp + 32 + s1) by lia.
Qed.

Section free.
Context {S : Type} `{!PageBacking S}.
Implicit Types h : heap S.

(** The tests of [kfree] on the pointer to the block after [pre]. *)
Lemma kfree_guards h pre s f post :
  heap_ok h (pre ++ (s, f) :: post) -> (f = false -> 0 < s \/ post <> []) ->
  let c := heap_start h + span pre in
  kfree (c + BLOCK) h =
    if f then Some h
    else
      let m1 := coalesce_next c (set_is_free c 1 (hmem h)) in
      match find_prev (heap_fuel h) c (heap_start h) m1 with
      | Some prev => Some (set_mem (coalesce_prev prev c m1) h)
      | None => None
      end.
Proof.
  intros Hok Hne c.
  destruct (heap_split h pre s f post Hok) as (K1 & K2 & K3 & K4 & K5 & K6 & K7 & K8 & [B1 B2 B3 B4]).
  assert (Hlt : f = false -> c + BLOCK < heap_start h + heap_size h).
  { intros Hf. unfold c, BLOCK in *. destruct (Hne Hf) as [|Hp]; [lia|].
    destruct post as [|[s2 f2] post]; [done|]. apply sizes_cons in K4 as [[? _] K4].
    pose proof (span_nonneg post K4). simpl span in *. unfold BLOCK in *. lia. }
  unfold kfree. fold c in B1, B3. unfold BLOCK in *.
  destruct (Z.eqb_spec (c + 32) 0); [unfold c in *; lia|].
  rewrite (ho_init _ _ Hok). simpl. rewrite (u64_small (heap_start h + heap_size h)) by lia.
  rewrite (u64_small (c + 32 - 32)) by (unfold c in *; lia).
  replace (c + 32 - 32) with c by lia. rewrite B1, Z.eqb_refl, B3. simpl negb. cbv iota.
  rewrite (ho_list _ _ Hok).
  destruct (Z.ltb_spec (c + 32) (heap_start h)); [unfold c in *; lia|].
  destruct (Z.leb_spec (heap_start h + heap_size h) (c + 32)); [|by destruct f].
  destruct f; [done|]. exfalso. unfold c in *. specialize (Hlt eq_refl). lia.
Qed.

(** After merging with the next block. *)
Lemma kfree_next h pre s post :
  heap_ok h (pre ++ (s, false) :: post) ->
  let c := heap_start h + span pre in
  let m1 := coalesce_next c (set_is_free c 1 (hmem h)) in
  heap_ok (set_mem m1 h) (pre ++ merge_next s post) /\
  forall x, ~ (c <= x < c + BLOCK) -> m1 x = hmem h x.
Proof.
  intros Hok c m1.
  destruct (heap_split h pre s false post Hok) as (K1 & K2 & K3 & K4 & K5 & K6 & K7 & K8 & K9).
  pose proof (proj2 (proj1 (seg_app _ _ pre _ _) (ho_seg _ _ Hok))) as [_ Hg]. fold c in K9, Hg.
  destruct (set_is_free_spec _ _ _ _ _ true (ho_bytes _ _ Hok) K9) as (F1 & F2 & F3).
  cbv iota in F1, F2, F3.
  destruct (coalesce_next_spec (set_is_free c 1 (hmem h)) (heap_start h + heap_size h) c s post)
    as (N1 & N2 & N3); try done; try (unfold c in *; lia).
  { apply (seg_agree (hmem h)); [done| |done]. intros x Hx. apply F2. unfold BLOCK in *. lia. }
  fold m1 in N1, N2, N3.
  assert (Hfr : forall x, ~ (c <= x < c + BLOCK) -> m1 x = hmem h x)
    by (intros x Hx; rewrite N2, F2 by done; done).
  split; [|done].
  destruct (merge_next_shape s post K1 K2 K4) as (s1 & post1 & E & M1 & M2 & M3 & M4 & _).
  pose proof (heap_ok_replace h pre ((s, false) :: post) [] (merge_next s post) m1) as R.
  rewrite !app_nil_r in R. apply R; try done.
  - rewrite E. apply sizes_cons. done.
  - by rewrite E.
  - rewrite E. simpl. lia.
  - intros x Hx. apply Hfr. fold c in Hx. simpl in Hx. unfold BLOCK in *. lia.
Qed.

Lemma kfree_cases h pre s post :
  heap_ok h (pre ++ (s, false) :: post) -> 0 < s \/ post <> [] ->
  exists h', kfree (heap_start h + span pre + BLOCK) h = Some h' /\
    heap_ok h' (release pre s post) /\
    heap_start h' = heap_start h /\ heap_size h' = heap_size h /\
    forall x, in_used (heap_start h) (release pre s post) x -> hmem h' x = hmem h x.
Proof.
  intros Hok Hne. rewrite (kfree_guards h pre s false post Hok (fun _ => Hne)). cbv iota zeta.
  set (c := heap_start h + span pre).
  destruct (kfree_next h pre s post Hok) as [Hok1 Hfr]. cbv zeta in Hok1, Hfr. fold c in Hok1, Hfr.
  destruct (heap_split h pre s false post Hok) as (K1 & K2 & K3 & K4 & K5 & K6 & K7 & K8 & K9).
  destruct (merge_next_shape s post K1 K2 K4) as (s1 & post1 & E & M1 & M2 & M3 & M4 & _).
  unfold release. rewrite E in *. revert Hok1 Hfr.
  generalize (coalesce_next c (set_is_free c 1 (hmem h))). intros m1 Hok1 Hfr.
  pose proof (heap_fuel_enough _ _ Hok1) as Hfuel.
  change (heap_fuel (set_mem m1 h)) with (heap_fuel h) in Hfuel. rewrite length_app in Hfuel.
  cbn [length] in Hfuel. pose proof (ho_seg _ _ Hok1) as Hseg. pose proof (ho_sizes _ _ Hok1) as Hsz.
  pose proof (ho_span _ _ Hok1) as Hspan. pose proof (ho_bytes _ _ Hok1) as Hb1.
  cbn [set_mem hmem heap_start heap_size] in Hseg, Hspan, Hb1.
  destruct pre as [|[sp fp] p _] using rev_ind.
  - assert (c = heap_start h) as Hc by (unfold c; simpl; lia). rewrite Hc in *.
    rewrite (find_prev_none _ (heap_start h + heap_size h) ((s1, true) :: post1)); try done; try lia;
      [|cbn [app] in Hspan; lia|cbn [length] in *; lia].
    eexists. split; [reflexivity|]. cbn [merge_prev]. unfold coalesce_prev. simpl negb. cbv iota.
    split_and!; try done. intros x Hx. apply Hfr.
    pose proof (used_not_free (heap_start h) [] s1 post1 x Hsz Hx) as Hu. simpl in Hu.
    unfold BLOCK in *. lia.
  - rewrite <- app_assoc in Hseg, Hsz, Hspan. simpl app in *.
    assert (Hc : c = heap_start h + span p + BLOCK + sp) by (unfold c; rewrite span_app; simpl; lia).
    pose proof (proj1 (sizes_app _ _) Hsz) as [Sp S2]. apply sizes_cons in S2 as [[Ssp Ssp'] S2].
    pose proof (span_nonneg p Sp). pose proof (span_nonneg post1 M3).
    rewrite span_app in Hspan. cbn [span] in Hspan.
    rewrite length_app in Hfuel. cbn [length] in Hfuel.
    unfold BLOCK in *.
    rewrite (find_prev_found m1 (heap_start h + heap_size h) p sp fp ((s1, true) :: post1));
      try done; try (unfold BLOCK; lia); [|rewrite span_app; cbn [span]; unfold BLOCK; lia].
    pose proof (seg_ends _ _ _ _ Hseg p sp fp _ eq_refl) as Ba.
    apply seg_app in Hseg as [G1 (_ & Bc & G3)].
    rewrite Hc. rewrite merge_prev_snoc.
    destruct (coalesce_prev_spec m1 (heap_start h + heap_size h) (heap_start h + span p) sp fp s1 post1)
      as (P1 & P2 & P3); try done; try (unfold BLOCK; lia).
    unfold BLOCK in *. set (m2 := coalesce_prev _ _ m1) in *.
    eexists. split; [reflexivity|].
    set (mid' := if fp then (sp + 32 + s1, true) :: post1 else (sp, fp) :: (s1, true) :: post1) in *.
    assert (Hmid : sizes_ok mid' /\ mid' <> [] /\ span mid' = 32 + sp + (32 + s1 + span post1)).
    { unfold mid'. destruct fp.
      - split_and!; [|done|simpl; unfold BLOCK; lia]. apply sizes_cons. split; [|done]. zdiv_lia.
      - split_and!; [|done|simpl; unfold BLOCK; lia]. by apply sizes_cons. }
    destruct Hmid as (Hm1 & Hm2 & Hm3).
    split_and!; [|done|done|].
    + rewrite <- app_assoc in Hok1. simpl app in Hok1.
      pose proof (heap_ok_replace (set_mem m1 h) p ((sp, fp) :: (s1, true) :: post1) [] mid' m2) as R.
      rewrite !app_nil_r in R. apply R; try done.
      * intros x Hx. apply P2. cbn [span heap_start set_mem] in Hx. unfold BLOCK in *. lia.
    + intros x Hx. cbn [hmem set_mem].
      assert (~ (c <= x < c + 32) /\ (fp = true -> ~ (heap_start h + span p <= x < heap_start h + span p + 32)))
        as [Hx1 Hx2].
      { unfold mid' in *. destruct fp.
        - assert (sizes_ok (p ++ (sp + 32 + s1, true) :: post1)) as Hz by by apply sizes_app.
          pose proof (used_not_free _ _ _ _ _ Hz Hx) as Hu. unfold BLOCK in Hu. split; lia.
        - split; [|done].
          assert (sizes_ok ((p ++ [(sp, false)]) ++ (s1, true) :: post1)) as Hz
            by by rewrite <- app_assoc.
          change (p ++ (sp, false) :: (s1, true) :: post1)
            with (p ++ [(sp, false)] ++ (s1, true) :: post1) in Hx. rewrite app_assoc in Hx.
          pose proof (used_not_free _ _ _ _ _ Hz Hx) as Hu. rewrite span_app in Hu.
          cbn [span] in Hu. unfold BLOCK in Hu. lia. }
      destruct fp.
      * rewrite P2 by auto. by apply Hfr.
      * unfold m2, coalesce_prev.
        destruct Ba as [_ _ Bf _]. rewrite Bf, andb_false_r. by apply Hfr.
Qed.
End free.

(** ** Statistics and defragmentation *)

Fixpoint sum_sizes (free : bool) (bs : list block) : Z :=
  match bs with
  | [] => 0
  | (s, f) :: bs' => (if Bool.eqb f free then s else 0) + sum_sizes free bs'
  end.

Definition num_free (bs : list block) : Z := Z.of_nat (length (filter (fun b => snd b = true) bs)).

Lemma sum_sizes_span bs :
  sum_sizes false bs + sum_sizes true bs + BLOCK * Z.of_nat (length bs) = span bs.
Proof. unfold BLOCK. induction bs as [|[s f] bs IH]; [done|]. cbn [length sum_sizes span].
  unfold BLOCK. destruct f; simpl Bool.eqb; cbv iota; lia. Qed.

Lemma sum_sizes_nonneg f bs : sizes_ok bs -> 0 <= sum_sizes f bs.
Proof. induction 1 as [|[s g] bs [Hs _] _ IH]; simpl in *; [lia|]. destruct (Bool.eqb g f); lia. Qed.

Lemma num_free_cons s f bs : num_free ((s, f) :: bs) = (if f then 1 else 0) + num_free bs.
Proof. unfold num_free. rewrite filter_cons. destruct f; case_decide as E; cbn in E; try done; cbn [length]; lia. Qed.

Lemma num_free_range bs : 0 <= num_free bs <= Z.of_nat (length bs).
Proof. unfold num_free. pose proof (length_filter (fun b : block => snd b = true) bs). lia. Qed.

Lemma next_cons stop a s bs :
  sizes_ok bs -> a + BLOCK + s + span bs = stop ->
  bs = [] /\ (a + BLOCK + s =? stop) = true \/
  (exists s2 f2 bs', bs = (s2, f2) :: bs') /\ (a + BLOCK + s =? stop) = false.
Proof.
  intros Hs Hsp. destruct bs as [|[s2 f2] bs].
  - left. split; [done|]. simpl in Hsp. apply Z.eqb_eq. lia.
  - right. split; [by eexists _, _, _|]. apply sizes_cons in Hs as [[? _] Hs].
    pose proof (span_nonneg bs Hs). simpl in Hsp. unfold BLOCK in *. apply Z.eqb_neq. lia.
Qed.

Lemma stats_loop_spec m stop bs : forall a fuel st,
  0 < a -> sizes_ok bs -> seg m stop a bs -> a + span bs = stop -> bs <> [] ->
  (length bs < fuel)%nat -> stop < 2 ^ 64 ->
  0 <= used_size st -> used_size st + span bs < 2 ^ 64 ->
  0 <= free_size st -> free_size st + span bs < 2 ^ 64 ->
  0 <= num_free_blocks st <= num_blocks st -> num_blocks st + span bs < 2 ^ 64 ->
  stats_loop fuel a m st = Some (mkStats (total_size st) (used_size st + sum_sizes false bs)
    (free_size st + sum_sizes true bs) (num_blocks st + Z.of_nat (length bs))
    (num_free_blocks st + num_free bs)).
Proof.
  induction bs as [|[s f] bs IH]; intros a fuel st Ha Hs Hg Hsp Hne Hf Hst U1 U2 F1 F2 N1 N2; [done|].
  destruct fuel as [|fuel]; [simpl in Hf; lia|]. cbn [length] in *. cbn [stats_loop].
  apply sizes_cons in Hs as [[Hs _] Hss]. destruct Hg as [[_ B2 B3 B4] Hg].
  pose proof (span_nonneg bs Hss) as Hn. cbn [span sum_sizes] in *. rewrite num_free_cons.
  destruct (Z.eqb_spec a 0); [lia|]. rewrite B2, B3, B4.
  set (st' := if f then _ else _).
  assert (E : st' = mkStats (total_size st) (used_size st + if f then 0 else s)
     (free_size st + if f then s else 0) (num_blocks st + 1)
     (num_free_blocks st + if f then 1 else 0)).
  { unfold st', BLOCK in *. destruct f; rewrite !u64_small by lia; f_equal; lia. }
  rewrite E. clearbody st'. subst st'.
  destruct (next_cons stop a s bs Hss ltac:(lia)) as [[-> ->]|[Hex ->]].
  - destruct fuel; [simpl in Hf; lia|]. simpl. unfold num_free. simpl.
    f_equal. f_equal; destruct f; simpl; lia.
  - rewrite IH; cbn [used_size free_size num_blocks num_free_blocks total_size]; try done;
      try (unfold BLOCK in *; destruct f; lia).
    + f_equal. f_equal; destruct f; simpl Bool.eqb; cbv iota; lia.
    + by destruct Hex as (? & ? & ? & ->).
Qed.

Lemma coalesce_head s f bs : exists s' r, coalesce ((s, f) :: bs) = (s', f) :: r.
Proof.
  simpl. destruct (coalesce bs) as [|[s1 [|]] r]; [by eexists _, _| |by eexists _, _].
  destruct f; by eexists _, _.
Qed.

Lemma coalesce_merge s s2 bs :
  coalesce ((s, true) :: (s2, true) :: bs) = coalesce ((s + BLOCK + s2, true) :: bs).
Proof.
  simpl. destruct (coalesce bs) as [|[s1 [|]] r]; [done| |done]. f_equal. f_equal. lia.
Qed.

Lemma coalesce_coalesced bs : coalesced (coalesce bs) = true.
Proof.
  induction bs as [|[s f] bs IH]; [done|]. simpl.
  destruct (coalesce bs) as [|[s1 [|]] r]; [done| |].
  - destruct f; [|exact IH]. destruct r as [|[s2 f2] r]; [done|]. exact IH.
  - destruct f; exact IH.
Qed.

Lemma span_coalesce bs : span (coalesce bs) = span bs.
Proof.
  induction bs as [|[s f] bs IH]; [done|]. simpl.
  destruct (coalesce bs) as [|[s1 [|]] r]; simpl in *; [lia| |lia]. destruct f; simpl; lia.
Qed.

Lemma coalesce_sizes bs : sizes_ok bs -> sizes_ok (coalesce bs).
Proof.
  induction bs as [|[s f] bs IH]; [done|]. intros Hs. apply sizes_cons in Hs as [[Hs Hm] Hss].
  specialize (IH Hss). simpl. destruct (coalesce bs) as [|[s1 [|]] r]; [by apply sizes_cons| |by apply sizes_cons].
  destruct f; [|by apply sizes_cons]. apply sizes_cons in IH as [[? ?] ?]. apply sizes_cons.
  unfold BLOCK. split; [|done]. zdiv_lia.
Qed.

Lemma coalesce_used bs x : forall a, in_used a (coalesce bs) x <-> in_used a bs x.
Proof.
  induction bs as [|[s f] bs IH]; [done|]. intros a. simpl. rewrite <- IH.
  destruct (coalesce bs) as [|[s1 [|]] r]; simpl; [tauto| |tauto].
  destruct f; simpl; [|tauto].
  replace (a + BLOCK + (s + BLOCK + s1)) with (a + BLOCK + s + BLOCK + s1) by lia.
  intuition congruence.
Qed.

(** The loop of [defrag_heap] computes [coalesce] and writes only headers. *)
Lemma defrag_loop_spec stop n : forall bs a fuel m,
  (length bs <= n)%nat -> 4096 <= a -> sizes_ok bs -> seg m stop a bs -> a + span bs = stop ->
  bs <> [] -> (length bs < fuel)%nat -> stop < 2 ^ 64 -> ram_bytes m ->
  exists m', defrag_loop fuel a m = Some m' /\ ram_bytes m' /\ seg m' stop a (coalesce bs) /\
    (forall x, x < a -> m' x = m x) /\ (forall x, in_used a bs x -> m' x = m x).
Proof.
  induction n as [|n IH]; intros bs a fuel m Hl Ha Hs Hg Hsp Hne Hf Hst Hb;
    destruct bs as [|[s f] bs]; try done; [simpl in Hl; lia|].
  destruct fuel as [|fuel]; [simpl in Hf; lia|]. cbn [length] in Hl, Hf. cbn [defrag_loop].
  pose proof Hs as Hs'. apply sizes_cons in Hs' as [[Hs0 Hmod] Hss]. pose proof Hg as [Hblk Hg'].
  pose proof Hblk as [_ B2 B3 B4]. pose proof (span_nonneg bs Hss) as Hn. cbn [span] in Hsp.
  destruct (Z.eqb_spec a 0); [lia|]. rewrite B3, B4.
  assert (Hafter :
    coalesce ((s, f) :: bs) = (s, f) :: coalesce bs -> bs <> [] ->
    exists m', defrag_loop fuel (a + BLOCK + s) m = Some m' /\ ram_bytes m' /\
      seg m' stop a (coalesce ((s, f) :: bs)) /\
      (forall x, x < a -> m' x = m x) /\ (forall x, in_used a ((s, f) :: bs) x -> m' x = m x)).
  { intros Hco Hnil. unfold BLOCK in *.
    destruct (IH bs (a + 32 + s) fuel m) as (m' & -> & H1 & H2 & H3 & H4); try done; try lia.
    exists m'. split; [done|]. split; [done|]. rewrite Hco. split_and!.
    - split; [|done]. apply (block_at_agree m); [|done]. intros x Hx. unfold BLOCK in Hx. apply H3. lia.
    - intros x Hx. apply H3. lia.
    - intros x [[_ Hx]|Hx]; [|by apply H4]. unfold BLOCK in *. apply H3. lia. }
  destruct (next_cons stop a s bs Hss ltac:(lia)) as [[-> ->]|[(s2 & f2 & bs' & ->) ->]].
  - destruct fuel; [simpl in Hf; lia|]. rewrite andb_false_r. exists m. simpl. done.
  - destruct Hg' as [Hblk2 Hg'']. pose proof Hblk2 as [_ _ C3 _]. rewrite C3.
    destruct (Z.eqb_spec (a + BLOCK + s) 0); [unfold BLOCK in *; lia|]. cbn [negb andb].
    destruct (f && f2) eqn:Eff.
    + apply andb_true_iff in Eff as [-> ->].
      destruct (coalesce_next_spec m stop a s ((s2, true) :: bs')) as (N1 & N2 & N3); try done; try lia.
      set (m1 := coalesce_next a m) in *.
      assert (Em1 : m1 = set_next a (blk_next (grow a (a + BLOCK + s) m) (blk_next (grow a (a + BLOCK + s) m) a))
                (grow a (a + BLOCK + s) m)).
      { unfold m1, coalesce_next. rewrite B4.
        destruct (next_cons stop a s ((s2, true) :: bs') Hss ltac:(lia)) as [[? _]|[_ ->]]; [done|].
        rewrite C3. destruct (Z.eqb_spec (a + BLOCK + s) 0); [lia|]. done. }
      rewrite <- Em1. clearbody m1. simpl merge_next in N3.
      apply sizes_cons in Hss as [[Hs2 Hm2] Hss']. cbn [length span] in *.
      destruct (IH ((s + BLOCK + s2, true) :: bs') a fuel m1) as (m' & -> & H1 & H2 & H3 & H4);
        try done; try (cbn [length]; lia).
      { apply sizes_cons. unfold BLOCK. split; [zdiv_lia|done]. }
      { cbn [span]. lia. }
      exists m'. rewrite coalesce_merge. split_and!; try done.
      * intros x Hx. rewrite H3, N2; [done|lia|lia].
      * intros x [[? _]|[[? _]|Hx]]; [done|done|].
        pose proof (in_used_range bs' x _ Hss' Hx) as Hr. unfold BLOCK in *.
        rewrite H4, N2; [done|lia|].
        right. by replace (a + BLOCK + (s + 32 + s2)) with (a + 32 + s + 32 + s2) by (unfold BLOCK; lia).
    + apply Hafter; [|done].
      destruct (coalesce_head s2 f2 bs') as (s' & r & E). 
      change (coalesce ((s, f) :: (s2, f2) :: bs')) with
        (match coalesce ((s2, f2) :: bs') with
         | (s', true) :: r => if f then (s + BLOCK + s', true) :: r else (s, f) :: (s', true) :: r
         | r => (s, f) :: r end).
      rewrite E. by destruct f, f2.
Qed.

(** ** Round trip *)

Lemma merge_prev_used pre X :
  coalesced (pre ++ [(0, true)]) = true -> merge_prev pre X = pre ++ X.
Proof.
  induction pre as [|[s f] pre IH]; [done|]. intros H.
  destruct pre as [|[s2 f2] pre].
  - simpl in H |- *. by destruct f.
  - assert (coalesced (((s2, f2) :: pre) ++ [(0, true)]) = true) as H'.
    { simpl in H. apply andb_true_iff in H as [_ H]. exact H. }
    specialize (IH H'). destruct f; simpl in *; by rewrite IH.
Qed.

Lemma coalesced_split pre s post :
  coalesced (pre ++ (s, true) :: post) = true ->
  coalesced (pre ++ [(0, true)]) = true /\
  match post with (_, true) :: _ => False | _ => True end.
Proof.
  induction pre as [|[s1 f1] pre IH]; intros H.
  - split; [done|]. destruct post as [|[s2 [|]] post]; done.
  - destruct pre as [|[s2 f2] pre].
    + simpl in H |- *. apply andb_true_iff in H as [H1 H2]. split; [by destruct f1|].
      destruct post as [|[s2 [|]] post]; [done|done|done].
    + assert (coalesced (((s2, f2) :: pre) ++ (s, true) :: post) = true) as H'.
      { simpl in H. by apply andb_true_iff in H as [_ H]. }
      apply IH in H' as [Ha Hb]. split; [|done].
      simpl in H |- *. apply andb_true_iff in H as [-> _]. exact Ha.
Qed.

Section properties.
Context {S : Type} `{!PageBacking S}.
Implicit Types h : heap S.

(** C13: [kmalloc] is first fit and refines the abstract allocator: it takes the
    first free block large enough for the request rounded up to 16 bytes,
    splits it when a further block fits behind, keeps the blocks tiling the
    heap, returns a payload of at least [size] bytes, and no byte of a block
    in use changes; NULL means that no free block is large enough. *)
Theorem kmalloc_first_fit h bs size :
  heap_ok h bs -> 0 < size <= 2 ^ 64 - 16 ->
  let need := align size in
  size <= need < size + 16 /\
  ((exists pre s post h', bs = pre ++ (s, true) :: post /\ need <= s /\
      Forall (fun b => fits need b = false) pre /\
      kmalloc size h = Some (h', heap_start h + span pre + BLOCK) /\
      heap_ok h' (pre ++ carve need s ++ post) /\
      forall x, in_used (heap_start h) bs x -> hmem h' x = hmem h x) \/
   (Forall (fun b => fits need b = false) bs /\ kmalloc size h = Some (set_mem (hmem h) h, 0))).
Proof.
  intros Hok Hsz need. destruct (align_spec size ltac:(lia)) as (_ & _ & Ha). split; [apply Ha; lia|].
  pose proof (kmalloc_cases h bs size Hok ltac:(lia)) as C. fold need in C. unfold alloc in C.
  destruct (first_fit need bs) as [[[pre s] post]|] eqn:E.
  - left. destruct (first_fit_Some _ _ _ _ _ E) as (-> & Hn & Hf).
    destruct C as (h' & C1 & C2 & _ & _ & C5). exists pre, s, post, h'. done.
  - right. split; [by apply first_fit_None|done].
Qed.

(** C14: [kfree] of a block in use releases it and merges it with the free
    blocks around it, no byte of a block still in use changing; a second
    [kfree] of a block that still starts with its header, NULL and a pointer
    outside the heap change nothing. *)
Theorem kfree_releases h pre s f post :
  heap_ok h (pre ++ (s, f) :: post) -> 0 < s ->
  (exists h', kfree (heap_start h + span pre + BLOCK) h = Some h' /\
    (if f then h' = h
     else heap_ok h' (release pre s post) /\
       forall x, in_used (heap_start h) (release pre s post) x -> hmem h' x = hmem h x)) /\
  forall p, p = 0 \/ p < heap_start h \/ heap_start h + heap_size h <= p -> kfree p h = Some h.
Proof.
  intros Hok Hs. split.
  - destruct f.
    + exists h. split; [|done]. apply (kfree_guards h pre s true post Hok). done.
    + destruct (kfree_cases h pre s post Hok) as (h' & K1 & K2 & _ & _ & K5); [by left|].
      by exists h'.
  - intros p Hp. unfold kfree. pose proof (ho_start _ _ Hok). pose proof (ho_end _ _ Hok).
    destruct (heap_split h pre s f post Hok) as (_ & _ & _ & _ & _ & K & _). 
    destruct (Z.eqb_spec p 0); [done|]. rewrite (ho_init _ _ Hok). simpl.
    rewrite u64_small by (unfold BLOCK in K; pose proof (ho_span _ _ Hok) as E;
      pose proof (span_nonneg _ (ho_sizes _ _ Hok)) as N; unfold BLOCK in N; lia).
    destruct (Z.ltb_spec p (heap_start h)), (Z.leb_spec (heap_start h + heap_size h) p); done || lia.
Qed.

(** releasing a block just allocated gives back the heap as it was, block
    by block, when no two free blocks were adjacent. *)
Theorem kmalloc_kfree_roundtrip h bs size h' ptr :
  heap_ok h bs -> coalesced bs = true -> 0 < size <= 2 ^ 64 - 16 ->
  kmalloc size h = Some (h', ptr) -> ptr <> 0 ->
  exists h'', kfree ptr h' = Some h'' /\ heap_ok h'' bs /\
    forall x, in_used (heap_start h) bs x -> hmem h'' x = hmem h x.
Proof.
  intros Hok Hco Hsz Hk Hne. destruct (align_spec size ltac:(lia)) as (_ & _ & Ha).
  specialize (Ha ltac:(lia)). pose proof (kmalloc_cases h bs size Hok ltac:(lia)) as C.
  unfold alloc in C. set (need := align size) in *.
  destruct (first_fit need bs) as [[[pre s] post]|] eqn:E; [|congruence].
  destruct (first_fit_Some _ _ _ _ _ E) as (-> & Hn & Hf).
  destruct C as (h1 & C1 & C2 & C3 & C4 & C5). rewrite C1 in Hk. injection Hk as <- <-.
  destruct (coalesced_split pre s post Hco) as [Hp Hq].
  assert (Hrel : exists s' post', carve need s ++ post = (s', false) :: post' /\ 0 < s' /\
            release pre s' post' = pre ++ (s, true) :: post).
  { unfold carve, release. destruct (Z.leb_spec (need + BLOCK + 16) s).
    - eexists _, _. split; [reflexivity|]. split; [lia|]. cbn [merge_next app].
      rewrite merge_prev_used by done. do 3 f_equal. lia.
    - eexists _, _. split; [reflexivity|]. split; [lia|]. cbn [app].
      rewrite merge_prev_used by done. destruct post as [|[s2 [|]] post]; done. }
  destruct Hrel as (s' & post' & Ec & Hs' & Er). rewrite Ec in C2.
  destruct (kfree_cases h1 pre s' post' C2 ltac:(by left)) as (h2 & K1 & K2 & _ & _ & K5).
  rewrite Er, C3 in *. exists h2. split_and!; [done|done|].
  intros x Hx. rewrite K5 by done. by apply C5.
Qed.

(** [get_heap_stats] reports the sums over the blocks, and they account
    for every byte of the heap: used and free payload and one header per block
    add up to its size. *)
Theorem heap_stats_account h bs st :
  heap_ok h bs ->
  exists st', get_heap_stats h st = Some st' /\ total_size st' = heap_size h /\
    used_size st' = sum_sizes false bs /\ free_size st' = sum_sizes true bs /\
    num_blocks st' = Z.of_nat (length bs) /\ num_free_blocks st' = num_free bs /\
    used_size st' + free_size st' + BLOCK * num_blocks st' = total_size st'.
Proof.
  intros Hok. pose proof (heap_fuel_enough h bs Hok) as Hfuel.
  pose proof Hok as [H1 H2 H3 H4 H5 H6 H7 H8 H9].
  unfold get_heap_stats. rewrite H1, H2. cbn [negb].
  pose proof (span_nonneg bs H7) as Hn. unfold BLOCK in Hn.
  rewrite (stats_loop_spec _ (heap_start h + heap_size h) bs); cbn [total_size used_size free_size
    num_blocks num_free_blocks]; try done; try lia.
  eexists. split; [reflexivity|]. cbn [total_size used_size free_size num_blocks num_free_blocks].
  pose proof (sum_sizes_span bs) as E. split_and!; lia.
Qed.

(** [defrag_heap] merges every row of free blocks and nothing else:
    afterwards no two free blocks are adjacent, and the blocks in use keep
    their places and their contents. *)
Theorem defrag_heap_coalesces h bs :
  heap_ok h bs ->
  exists h', defrag_heap h = Some h' /\ heap_ok h' (coalesce bs) /\
    coalesced (coalesce bs) = true /\
    (forall x, in_used (heap_start h) (coalesce bs) x <-> in_used (heap_start h) bs x) /\
    forall x, in_used (heap_start h) bs x -> hmem h' x = hmem h x.
Proof.
  intros Hok. pose proof (heap_fuel_enough h bs Hok) as Hfuel.
  pose proof Hok as [H1 H2 H3 H4 H5 H6 H7 H8 H9].
  unfold defrag_heap. rewrite H1, H2. cbn [negb].
  destruct (defrag_loop_spec (heap_start h + heap_size h) (length bs) bs (heap_start h) (heap_fuel h) (hmem h))
    as (m' & -> & D1 & D2 & _ & D4); try done; try lia.
  eexists. split; [reflexivity|]. split_and!; [|apply coalesce_coalesced| |done].
  - split; try done; cbn [set_mem heap_size heap_start hmem].
    + by rewrite span_coalesce.
    + destruct bs as [|[s f] bs]; [done|]. destruct (coalesce_head s f bs) as (? & ? & ->). done.
    + by apply coalesce_sizes.
  - intros x. apply coalesce_used.
Qed.
End properties.

(** ** Witnesses: a heap whose pages are always there *)
Definition ready_backing : PageBacking unit := fun virt _ _ s => (s, virt).
#[local] Existing Instance ready_backing.

Definition fresh_heap : heap unit := init_heap (mkHeap 0 false 0 0 (fun _ => 0) tt).

(** [init_heap] establishes the invariant with one free block. *)
Lemma fresh_heap_ok : heap_ok fresh_heap [(DEFAULT_HEAP_SIZE - BLOCK, true)].
Proof.
  split.
  - done.
  - done.
  - done.
  - done.
  - done.
  - done.
  - constructor; [|constructor]. split; [vm_compute; congruence|done].
  - unfold fresh_heap, init_heap, ready_backing, backing_alloc. simpl.
    unfold set_magic, set_size, set_is_free, set_next.
    apply store64_bytes, store32_bytes, store64_bytes, store32_bytes. intros a. lia.
  - split; [|done]. split; vm_compute; reflexivity.
Qed.

Lemma kmalloc_first_fit_witness :
  let need := align 100 in
  100 <= need < 100 + 16 /\
  ((exists pre s post h', [(DEFAULT_HEAP_SIZE - BLOCK, true)] = pre ++ (s, true) :: post /\ need <= s /\
      Forall (fun b => fits need b = false) pre /\
      kmalloc 100 fresh_heap = Some (h', heap_start fresh_heap + span pre + BLOCK) /\
      heap_ok h' (pre ++ carve need s ++ post) /\
      forall x, in_used (heap_start fresh_heap) [(DEFAULT_HEAP_SIZE - BLOCK, true)] x ->
        hmem h' x = hmem fresh_heap x) \/
   (Forall (fun b => fits need b = false) [(DEFAULT_HEAP_SIZE - BLOCK, true)] /\
    kmalloc 100 fresh_heap = Some (set_mem (hmem fresh_heap) fresh_heap, 0))).
Proof. apply (kmalloc_first_fit fresh_heap _ 100 fresh_heap_ok). lia. Defined.

(** The heap after one allocation of 100 bytes: 112 in use, the rest free. *)
Definition used_heap : heap unit :=
  match kmalloc 100 fresh_heap with Some (h, _) => h | None => fresh_heap end.

Definition used_blocks : list block := [(112, false); (DEFAULT_HEAP_SIZE - BLOCK - 112 - BLOCK, true)].

Lemma used_heap_ok : heap_ok used_heap used_blocks.
Proof.
  unfold used_heap. pose proof (kmalloc_cases fresh_heap _ 100 fresh_heap_ok ltac:(lia)) as C.
  assert (E : alloc (align 100) [(DEFAULT_HEAP_SIZE - BLOCK, true)] = Some (used_blocks, 0))
    by by vm_compute.
  rewrite E in C. destruct C as (h' & -> & C & _). exact C.
Qed.

Lemma kfree_releases_witness :
  (exists h', kfree (heap_start used_heap + span [] + BLOCK) used_heap = Some h' /\
     (heap_ok h' (release [] 112 [(DEFAULT_HEAP_SIZE - BLOCK - 112 - BLOCK, true)]) /\
      forall x, in_used (heap_start used_heap)
        (release [] 112 [(DEFAULT_HEAP_SIZE - BLOCK - 112 - BLOCK, true)]) x ->
        hmem h' x = hmem used_heap x)) /\
  forall p, p = 0 \/ p < heap_start used_heap \/ heap_start used_heap + heap_size used_heap <= p ->
    kfree p used_heap = Some used_heap.
Proof.
  apply (kfree_releases used_heap [] 112 false [(DEFAULT_HEAP_SIZE - BLOCK - 112 - BLOCK, true)] used_heap_ok).
  lia.
Defined.

Lemma kmalloc_kfree_roundtrip_witness :
  exists ptr, kmalloc 100 fresh_heap = Some (used_heap, ptr) /\
  exists h'', kfree ptr used_heap = Some h'' /\ heap_ok h'' [(DEFAULT_HEAP_SIZE - BLOCK, true)] /\
    forall x, in_used (heap_start fresh_heap) [(DEFAULT_HEAP_SIZE - BLOCK, true)] x ->
      hmem h'' x = hmem fresh_heap x.
Proof.
  assert (E : exists ptr, kmalloc 100 fresh_heap = Some (used_heap, ptr) /\ ptr <> 0).
  { unfold used_heap. pose proof (kmalloc_cases fresh_heap _ 100 fresh_heap_ok ltac:(lia)) as C.
    assert (E : alloc (align 100) [(DEFAULT_HEAP_SIZE - BLOCK, true)] = Some (used_blocks, 0))
      by by vm_compute.
    rewrite E in C. destruct C as (h' & -> & _). by eexists. }
  destruct E as (ptr & E & Hne). exists ptr. split; [exact E|].
  apply (kmalloc_kfree_roundtrip fresh_heap _ 100 used_heap ptr fresh_heap_ok); [done|lia|exact E|exact Hne].
Defined.

Lemma heap_stats_account_witness :
  exists st', get_heap_stats used_heap (mkStats 0 0 0 0 0) = Some st' /\
    total_size st' = heap_size used_heap /\
    used_size st' = sum_sizes false used_blocks /\ free_size st' = sum_sizes true used_blocks /\
    num_blocks st' = Z.of_nat (length used_blocks) /\ num_free_blocks st' = num_free used_blocks /\
    used_size st' + free_size st' + BLOCK * num_blocks st' = total_size st'.
Proof. exact (heap_stats_account used_heap used_blocks (mkStats 0 0 0 0 0) used_heap_ok). Defined.

Lemma defrag_heap_coalesces_witness :
  exists h', defrag_heap used_heap = Some h' /\ heap_ok h' (coalesce used_blocks) /\
    coalesced (coalesce used_blocks) = true /\
    (forall x, in_used (heap_start used_heap) (coalesce used_blocks) x <->
       in_used (heap_start used_heap) used_blocks x) /\
    forall x, in_used (heap_start used_heap) used_blocks x -> hmem h' x = hmem used_heap x.
Proof. exact (defrag_heap_coalesces used_heap used_blocks used_heap_ok). Defined.

(** A request close to 2^64 wraps around in [align] and gets a block of 0
    bytes. *)
Lemma align_wraps : align (2 ^ 64 - 1) = 0.
Proof. reflexivity. Qed.
