(* ===== verification/UnixSocket.v ===== *)
(** * UNIX-domain sockets (src/kernel/net/unix_socket.c, unix_socket.h)

    The table of 64 sockets, their state machine, the ring buffers of received
    bytes and the ring of pending connections of a listener.

    A call that has to wait blocks the calling process and yields; what other
    processes do then is not part of the call.  Such a call is modelled by the
    pieces of it that run without interruption: each takes the system as it is
    when the process runs again and either returns a result or yields
    ([Wait]).  Processes are the interface [ProcOps].

    Paths are C strings, modelled by the list of the bytes before the NUL;
    [strncpy] into the 108 bytes of [path] keeps the first 107 of them. *)

From S2P Require Import Prelude.

Definition SOCK_STREAM : Z := 1.
Definition SOCK_DGRAM : Z := 2.
Definition UNIX_PATH_MAX : Z := 108.
Definition UNIX_BUF_SIZE : Z := 8192.
Definition UNIX_BACKLOG_MAX : Z := 8.
Definition MAX_UNIX_SOCKETS : Z := 64.

Record unix_ring := mkRing { data : list Z; head : Z; tail : Z; count : Z }.

Record unix_pending := mkPending {
  client_sock_id : Z; client_pid : Z; accepted : bool; peer_sock_id : Z
}.

Inductive unix_sock_state :=
  US_FREE | US_CREATED | US_BOUND | US_LISTENING | US_CONNECTED | US_CLOSED.

#[export] Instance unix_sock_state_eq_dec : EqDecision unix_sock_state.
Proof. solve_decision. Defined.

Record unix_socket := mkSocket {
  in_use : bool;
  state : unix_sock_state;
  type : Z;
  path : list Z;
  peer_id : Z;
  rx : unix_ring;
  backlog : list unix_pending;
  backlog_head : Z;
  backlog_tail : Z;
  backlog_count : Z;
  blocked_reader_pid : Z;
  owner_pid : Z
}.

(** What [memset] to 0 leaves. *)
Definition zero_ring : unix_ring := mkRing (replicate (Z.to_nat UNIX_BUF_SIZE) 0) 0 0 0.
Definition zero_pending : unix_pending := mkPending 0 0 false 0.
Definition zero_socket : unix_socket :=
  mkSocket false US_FREE 0 [] 0 zero_ring (replicate (Z.to_nat UNIX_BACKLOG_MAX) zero_pending)
    0 0 0 0 0.

Definition set_state (x : unix_sock_state) (s : unix_socket) : unix_socket :=
  mkSocket (in_use s) x (type s) (path s) (peer_id s) (rx s) (backlog s) (backlog_head s)
    (backlog_tail s) (backlog_count s) (blocked_reader_pid s) (owner_pid s).
Definition set_in_use (x : bool) (s : unix_socket) : unix_socket :=
  mkSocket x (state s) (type s) (path s) (peer_id s) (rx s) (backlog s) (backlog_head s)
    (backlog_tail s) (backlog_count s) (blocked_reader_pid s) (owner_pid s).
Definition set_path (x : list Z) (s : unix_socket) : unix_socket :=
  mkSocket (in_use s) (state s) (type s) x (peer_id s) (rx s) (backlog s) (backlog_head s)
    (backlog_tail s) (backlog_count s) (blocked_reader_pid s) (owner_pid s).
Definition set_peer (x : Z) (s : unix_socket) : unix_socket :=
  mkSocket (in_use s) (state s) (type s) (path s) x (rx s) (backlog s) (backlog_head s)
    (backlog_tail s) (backlog_count s) (blocked_reader_pid s) (owner_pid s).
Definition set_rx (x : unix_ring) (s : unix_socket) : unix_socket :=
  mkSocket (in_use s) (state s) (type s) (path s) (peer_id s) x (backlog s) (backlog_head s)
    (backlog_tail s) (backlog_count s) (blocked_reader_pid s) (owner_pid s).
Definition set_blocked (x : Z) (s : unix_socket) : unix_socket :=
  mkSocket (in_use s) (state s) (type s) (path s) (peer_id s) (rx s) (backlog s) (backlog_head s)
    (backlog_tail s) (backlog_count s) x (owner_pid s).
Definition set_backlog (b : list unix_pending) (h t c : Z) (s : unix_socket) : unix_socket :=
  mkSocket (in_use s) (state s) (type s) (path s) (peer_id s) (rx s) b h t c
    (blocked_reader_pid s) (owner_pid s).

(** ** Ring buffers *)

Definition rb_write_loop (src : list Z) (rb : unix_ring) : unix_ring :=
  fold_left (fun rb b => mkRing (aset (data rb) (tail rb) b) (head rb)
                           ((tail rb + 1) mod UNIX_BUF_SIZE) (count rb)) src rb.

(** [src] holds the [len] bytes to write. *)
Definition rb_write (rb : unix_ring) (src : list Z) : unix_ring * bool :=
  let len := Z.of_nat (length src) in
  if UNIX_BUF_SIZE <? u32 (count rb + len) then (rb, false)
  else
    let rb' := rb_write_loop src rb in
    (mkRing (data rb') (head rb') (tail rb') (u32 (count rb' + len)), true).

Fixpoint rb_read_loop (n : nat) (rb : unix_ring) : unix_ring * list Z :=
  match n with
  | O => (rb, [])
  | S n' =>
      let b := aget 0 (data rb) (head rb) in
      let '(rb', bs) :=
        rb_read_loop n' (mkRing (data rb) ((head rb + 1) mod UNIX_BUF_SIZE) (tail rb) (count rb)) in
      (rb', b :: bs)
  end.

(** The bytes read; the value returned is their number. *)
Definition rb_read (rb : unix_ring) (want : Z) : unix_ring * list Z :=
  let n := if want <? count rb then want else count rb in
  let '(rb', bs) := rb_read_loop (Z.to_nat n) rb in
  (mkRing (data rb') (head rb') (tail rb') (count rb' - n), bs).

(** ** The system: the socket table and the processes *)

(** What the sockets need of processes (src/kernel/proc/proc.c). *)
Class ProcOps (P : Type) := {
  proc_get_current_pid : P -> Z;
  proc_block : Z -> P -> P;
  proc_unblock : Z -> P -> P
}.

Record sys (P : Type) := mkSys { sock_table : list unix_socket; procs : P }.
Arguments mkSys {P}.
Arguments sock_table {P}.
Arguments procs {P}.

(** How a piece of a call ends. *)
Inductive outcome (A : Type) := Ret (a : A) | Wait.
Arguments Ret {A}.
Arguments Wait {A}.

Section sockets.
Context {P : Type} `{!ProcOps P}.
Implicit Types st : sys P.

(** [sock_table[id]], for [id] in the table. *)
Definition sock st (id : Z) : unix_socket := aget zero_socket (sock_table st) id.
Definition upd (id : Z) (f : unix_socket -> unix_socket) st : sys P :=
  mkSys (aset (sock_table st) id (f (sock st id))) (procs st).
Definition on_procs (f : P -> P) st : sys P := mkSys (sock_table st) (f (procs st)).
Definition current st : Z := proc_get_current_pid (procs st).

Definition unix_sock_init st : sys P :=
  mkSys (map (fun s => set_blocked (-1) (set_peer (-1) s))
           (replicate (Z.to_nat MAX_UNIX_SOCKETS) zero_socket)) (procs st).

Definition unix_sock_get st (id : Z) : option unix_socket :=
  if (id <? 0) || (MAX_UNIX_SOCKETS <=? id) then None
  else if in_use (sock st id) then Some (sock st id) else None.

Definition slot (p : unix_socket -> bool) st : option Z :=
  find_first (fun i => p (sock st i)) 0 (Z.to_nat MAX_UNIX_SOCKETS).

(** [strcmp(s.path, p) == 0]. *)
Definition path_is (p : list Z) (s : unix_socket) : bool := bool_decide (path s = p).

Definition find_listener (p : list Z) st : option Z :=
  slot (fun s => in_use s && bool_decide (state s = US_LISTENING) && path_is p s) st.
Definition is_bound (s : unix_socket) : bool :=
  in_use s && (bool_decide (state s = US_BOUND) || bool_decide (state s = US_LISTENING)).
Definition find_bound (p : list Z) st : option Z :=
  slot (fun s => is_bound s && path_is p s) st.

Definition wake_reader (id : Z) st : sys P :=
  if 0 <=? blocked_reader_pid (sock st id) then
    upd id (set_blocked (-1)) (on_procs (proc_unblock (blocked_reader_pid (sock st id))) st)
  else st.

(** A fresh slot: zeroed, then initialised. *)
Definition init_slot (x : unix_sock_state) (ty : Z) (peer : Z) (p : list Z) (owner : Z)
  : unix_socket :=
  mkSocket true x ty p peer (rx zero_socket) (backlog zero_socket) 0 0 0 (-1) owner.

Definition unix_sock_create (ty : Z) st : sys P * Z :=
  if negb (ty =? SOCK_STREAM) && negb (ty =? SOCK_DGRAM) then (st, -1)
  else
    match slot (fun s => negb (in_use s)) st with
    | Some i => (upd i (fun _ => init_slot US_CREATED ty (-1) [] (current st)) st, i)
    | None => (st, -1)
    end.

(** Remove the first pending connection. *)
Definition pop_backlog (s : unix_socket) : unix_socket :=
  set_backlog (backlog s) ((backlog_head s + 1) mod UNIX_BACKLOG_MAX) (backlog_tail s)
    (backlog_count s - 1) s.
Definition first_pending (s : unix_socket) : unix_pending :=
  aget zero_pending (backlog s) (backlog_head s).

(** Release every client still queued, [n] of them. *)
Fixpoint drain_backlog (n : nat) (id : Z) st : sys P :=
  match n with
  | O => st
  | S n' =>
      let e := first_pending (sock st id) in
      let st1 := upd id pop_backlog st in
      drain_backlog n' id
        (if 0 <=? client_pid e then on_procs (proc_unblock (client_pid e)) st1 else st1)
  end.

Definition unix_sock_destroy (id : Z) st : sys P :=
  match unix_sock_get st id with
  | None => st
  | Some _ =>
      let st1 := wake_reader id st in
      let peer := peer_id (sock st1 id) in
      let st2 :=
        if 0 <=? peer then
          let st' :=
            match unix_sock_get st1 peer with
            | Some _ => wake_reader peer (upd peer (fun s => set_peer (-1) (set_state US_CLOSED s)) st1)
            | None => st1
            end in
          upd id (set_peer (-1)) st'
        else st1 in
      let st3 := drain_backlog (Z.to_nat (backlog_count (sock st2 id))) id st2 in
      upd id (fun s => set_in_use false (set_state US_CLOSED s)) st3
  end.

(** [strncpy(dst, src, UNIX_PATH_MAX - 1)] with the last byte NUL. *)
Definition copy_path (p : list Z) : list Z := take (Z.to_nat (UNIX_PATH_MAX - 1)) p.

(** [p] is [None] for NULL. *)
Definition unix_sock_bind (id : Z) (p : option (list Z)) st : sys P * Z :=
  match unix_sock_get st id with
  | None => (st, -1)
  | Some s =>
      if negb (bool_decide (state s = US_CREATED)) then (st, -1)
      else
        match p with
        | None | Some [] => (st, -1)
        | Some pth =>
            match find_bound pth st with
            | Some _ => (st, -1)
            | None => (upd id (fun s => set_state US_BOUND (set_path (copy_path pth) s)) st, 0)
            end
        end
  end.

Definition unix_sock_listen (id bl : Z) st : sys P * Z :=
  match unix_sock_get st id with
  | None => (st, -1)
  | Some s =>
      if negb (type s =? SOCK_STREAM) then (st, -1)
      else if negb (bool_decide (state s = US_BOUND)) then (st, -1)
      else (upd id (set_state US_LISTENING) st, 0)
  end.

(** One round of [unix_sock_accept]: the test before the loop and the one after
    waking up are the same, so resuming is another round. *)
Definition unix_sock_accept (id : Z) st : sys P * outcome Z :=
  match unix_sock_get st id with
  | None => (st, Ret (-1))
  | Some server =>
      if negb (bool_decide (state server = US_LISTENING)) then (st, Ret (-1))
      else if backlog_count server =? 0 then
        (on_procs (proc_block (current st)) (upd id (set_blocked (current st)) st), Wait)
      else
        let entry := first_pending server in
        let st1 := upd id pop_backlog st in
        let unblock := fun st => if 0 <=? client_pid entry
                                 then on_procs (proc_unblock (client_pid entry)) st else st in
        match slot (fun s => negb (in_use s)) st1 with
        | None => (unblock st1, Ret (-1))
        | Some new_id =>
            let st2 := upd new_id (fun _ => init_slot US_CONNECTED (type server) (client_sock_id entry)
                                     (copy_path (path server)) (current st1)) st1 in
            let st3 :=
              match unix_sock_get st2 (client_sock_id entry) with
              | Some _ => upd (client_sock_id entry)
                            (fun s => set_peer new_id (set_state US_CONNECTED s)) st2
              | None => st2
              end in
            (unblock st3, Ret new_id)
        end
  end.

(** [unix_sock_connect] up to its [proc_yield], and the rest of it. *)
Definition push_backlog (e : unix_pending) (s : unix_socket) : unix_socket :=
  set_backlog (aset (backlog s) (backlog_tail s) e) (backlog_head s)
    ((backlog_tail s + 1) mod UNIX_BACKLOG_MAX) (backlog_count s + 1) s.

Definition unix_sock_connect (id : Z) (p : list Z) st : sys P * outcome Z :=
  match unix_sock_get st id with
  | None => (st, Ret (-1))
  | Some client =>
      if negb (bool_decide (state client = US_CREATED)) && negb (bool_decide (state client = US_BOUND))
      then (st, Ret (-1))
      else if negb (type client =? SOCK_STREAM) then (st, Ret (-1))
      else
        match find_listener p st with
        | None => (st, Ret (-1))
        | Some srv =>
            if UNIX_BACKLOG_MAX <=? backlog_count (sock st srv) then (st, Ret (-1))
            else
              let e := mkPending id (current st) false (-1) in
              let st1 := wake_reader srv (upd srv (push_backlog e) st) in
              (on_procs (proc_block (current st1)) st1, Wait)
        end
  end.

Definition unix_sock_connect_resume (id : Z) st : Z :=
  match unix_sock_get st id with
  | Some client => if bool_decide (state client = US_CONNECTED) then 0 else -1
  | None => -1
  end.

(** One round of the loop of [unix_sock_write] with [written] bytes of [buf]
    done; [Again] goes round without yielding. *)
Inductive progress := Done (r : Z) | Again (written : Z) | Full (written : Z).

Definition write_round (id : Z) (buf : list Z) (written : Z) st : sys P * progress :=
  let count' := u32 (Z.of_nat (length buf)) in
  if count' <=? written then (st, Done (int32 written))
  else
    let peer := peer_id (sock st id) in
    match unix_sock_get st peer with
    | None => (st, Done (int32 written))
    | Some p =>
        if bool_decide (state p = US_CLOSED) then (st, Done (int32 written))
        else
          let space := u32 (UNIX_BUF_SIZE - count (rx p)) in
          if space =? 0 then (st, Full written)
          else
            let chunk0 := u32 (Z.of_nat (length buf) - written) in
            let chunk := if space <? chunk0 then space else chunk0 in
            let src := take (Z.to_nat chunk) (drop (Z.to_nat written) buf) in
            let st1 := upd peer (fun s => set_rx (fst (rb_write (rx s) src)) s) st in
            (wake_reader peer st1, Again (u32 (written + chunk)))
    end.

(** Rounds until the call returns or has to yield; it goes round at most twice
    more after the first. *)
Fixpoint write_rounds (fuel : nat) (id : Z) (buf : list Z) (written : Z) st
  : option (sys P * progress) :=
  match fuel with
  | O => None
  | S fuel' =>
      match write_round id buf written st with
      | (st', Again w) => write_rounds fuel' id buf w st'
      | r => Some r
      end
  end.

Definition unix_sock_write (id : Z) (buf : list Z) st : option (sys P * progress) :=
  match unix_sock_get st id with
  | None => Some (st, Done (-1))
  | Some s =>
      if negb (bool_decide (state s = US_CONNECTED)) then Some (st, Done (-1))
      else write_rounds 3 id buf 0 st
  end.

(** The loop of [unix_sock_read], and the call before and after yielding.  The
    result is the value returned and the bytes stored. *)
Definition read_loop (id want : Z) st : sys P * outcome (Z * list Z) :=
  let s := sock st id in
  if count (rx s) =? 0 then
    if (peer_id s <? 0) || negb (in_use (sock st (peer_id s)))
       || bool_decide (state (sock st (peer_id s)) = US_CLOSED)
    then (st, Ret (0, []))
    else (on_procs (proc_block (current st)) (upd id (set_blocked (current st)) st), Wait)
  else
    let '(rb, bs) := rb_read (rx s) (u32 want) in
    (upd id (set_rx rb) st, Ret (int32 (Z.of_nat (length bs)), bs)).

Definition unix_sock_read (id want : Z) st : sys P * outcome (Z * list Z) :=
  match unix_sock_get st id with
  | None => (st, Ret (-1, []))
  | Some s =>
      if negb (bool_decide (state s = US_CONNECTED)) && negb (bool_decide (state s = US_CLOSED))
      then (st, Ret (-1, []))
      else read_loop id want st
  end.
Definition unix_sock_read_resume (id want : Z) st : sys P * outcome (Z * list Z) :=
  match unix_sock_get st id with
  | None => (st, Ret (-1, []))
  | Some _ => read_loop id want st
  end.

Definition unix_sock_sendto (id : Z) (buf : list Z) (dest : list Z) st : sys P * Z :=
  match unix_sock_get st id with
  | None => (st, -1)
  | Some s =>
      if negb (type s =? SOCK_DGRAM) then (st, -1)
      else
        match find_bound dest st with
        | None => (st, -1)
        | Some d =>
            if u32 (UNIX_BUF_SIZE - count (rx (sock st d))) <? Z.of_nat (length buf) then (st, -1)
            else
              let st1 := upd d (fun s => set_rx (fst (rb_write (rx s) buf)) s) st in
              (wake_reader d st1, int32 (Z.of_nat (length buf)))
        end
  end.

Definition recvfrom_loop (id want : Z) st : sys P * outcome (Z * list Z) :=
  let s := sock st id in
  if count (rx s) =? 0 then
    (on_procs (proc_block (current st)) (upd id (set_blocked (current st)) st), Wait)
  else
    let '(rb, bs) := rb_read (rx s) (u32 want) in
    (upd id (set_rx rb) st, Ret (int32 (Z.of_nat (length bs)), bs)).

Definition unix_sock_recvfrom (id want : Z) st : sys P * outcome (Z * list Z) :=
  match unix_sock_get st id with
  | None => (st, Ret (-1, []))
  | Some s =>
      if negb (type s =? SOCK_DGRAM) then (st, Ret (-1, [])) else recvfrom_loop id want st
  end.
Definition unix_sock_recvfrom_resume (id want : Z) st : sys P * outcome (Z * list Z) :=
  match unix_sock_get st id with
  | None => (st, Ret (-1, []))
  | Some _ => recvfrom_loop id want st
  end.
End sockets.

(** ** Rings as queues *)

(** The [n] bytes of the array [d] from position [h], around its end; the bytes
    a ring holds. *)
Fixpoint window (d : list Z) (h : Z) (n : nat) : list Z :=
  match n with
  | O => []
  | S n' => aget 0 d (h mod UNIX_BUF_SIZE) :: window d (h + 1) n'
  end.
Definition contents (rb : unix_ring) : list Z := window (data rb) (head rb) (Z.to_nat (count rb)).

Record ring_wf (rb : unix_ring) : Prop := {
  rw_data : Z.of_nat (length (data rb)) = UNIX_BUF_SIZE;
  rw_head : 0 <= head rb < UNIX_BUF_SIZE;
  rw_count : 0 <= count rb <= UNIX_BUF_SIZE;
  rw_tail : tail rb = (head rb + count rb) mod UNIX_BUF_SIZE
}.

Lemma zero_ring_wf : ring_wf zero_ring.
Proof. split; done. Qed.

Lemma length_window d n : forall h, length (window d h n) = n.
Proof. induction n as [|n IH]; intros h; simpl; [done|]. by rewrite IH. Qed.

Lemma length_contents rb : ring_wf rb -> Z.of_nat (length (contents rb)) = count rb.
Proof. intros [_ _ Hc _]. unfold contents. rewrite length_window. lia. Qed.

Lemma window_app d n k : forall h, window d h (n + k) = window d h n ++ window d (h + Z.of_nat n) k.
Proof.
  induction n as [|n IH]; intros h; simpl.
  - by rewrite Z.add_0_r.
  - rewrite IH. do 3 f_equal. lia.
Qed.

Lemma window_mod d n : forall h h', h mod UNIX_BUF_SIZE = h' mod UNIX_BUF_SIZE -> window d h n = window d h' n.
Proof.
  induction n as [|n IH]; intros h h' E; simpl; [done|]. rewrite E. f_equal. apply IH.
  by rewrite <- (Zplus_mod_idemp_l h), <- (Zplus_mod_idemp_l h'), E.
Qed.

Lemma window_ext d d' n : forall h,
  (forall i, h <= i < h + Z.of_nat n -> aget 0 d' (i mod UNIX_BUF_SIZE) = aget 0 d (i mod UNIX_BUF_SIZE)) ->
  window d' h n = window d h n.
Proof.
  induction n as [|n IH]; intros h H; simpl; [done|]. rewrite H by lia. f_equal.
  apply IH. intros i Hi. apply H. lia.
Qed.

Lemma drop_window d n k h : window d (h + Z.of_nat n) k = drop n (window d h (n + k)).
Proof.
  rewrite window_app. rewrite drop_app_length'; [done|by rewrite length_window].
Qed.

(** One byte written behind [n] others. *)
Lemma window_push d h n b :
  Z.of_nat (length d) = UNIX_BUF_SIZE -> Z.of_nat n < UNIX_BUF_SIZE ->
  window (aset d ((h + Z.of_nat n) mod UNIX_BUF_SIZE) b) h (n + 1) = window d h n ++ [b].
Proof.
  intros Hd Hn. rewrite window_app.
  assert (0 <= (h + Z.of_nat n) mod UNIX_BUF_SIZE < UNIX_BUF_SIZE) as Hr by (by apply Z.mod_pos_bound).
  f_equal.
  - apply window_ext. intros i Hi. apply aget_aset_ne; [|lia].
    unfold UNIX_BUF_SIZE in *. zdiv_lia.
  - simpl. by rewrite aget_aset_eq by lia.
Qed.

Lemma rb_write_loop_spec src : forall rb n,
  Z.of_nat (length (data rb)) = UNIX_BUF_SIZE ->
  Z.of_nat n + Z.of_nat (length src) <= UNIX_BUF_SIZE ->
  tail rb = (head rb + Z.of_nat n) mod UNIX_BUF_SIZE ->
  let rb' := rb_write_loop src rb in
  length (data rb') = length (data rb) /\ head rb' = head rb /\ count rb' = count rb /\
  tail rb' = (head rb + Z.of_nat n + Z.of_nat (length src)) mod UNIX_BUF_SIZE /\
  window (data rb') (head rb) (n + length src) = window (data rb) (head rb) n ++ src.
Proof.
  induction src as [|b src IH]; intros rb n Hd Hle Ht rb'.
  - cbn [length]. change (Z.of_nat 0) with 0. rewrite !Z.add_0_r, Nat.add_0_r, app_nil_r. done.
  - cbn [length] in Hle. unfold rb', rb_write_loop. cbn [fold_left].
    fold (rb_write_loop src (mkRing (aset (data rb) (tail rb) b) (head rb)
      ((tail rb + 1) mod UNIX_BUF_SIZE) (count rb))).
    destruct (IH (mkRing (aset (data rb) (tail rb) b) (head rb)
      ((tail rb + 1) mod UNIX_BUF_SIZE) (count rb)) (n + 1)%nat) as (I1 & I2 & I3 & I4 & I5);
      cbn [data head tail count] in *.
    + by rewrite length_aset.
    + lia.
    + rewrite Ht, Zplus_mod_idemp_l. f_equal. lia.
    + cbn [length]. rewrite length_aset in I1. split_and!; [done|done|done| |].
      * rewrite I4. f_equal. lia.
      * replace (n + S (length src))%nat with (n + 1 + length src)%nat by lia.
        rewrite I5, Ht, window_push by (done || lia). by rewrite <- app_assoc.
Qed.

Lemma rb_write_cases rb src :
  ring_wf rb -> Z.of_nat (length src) < 2 ^ 31 ->
  let '(rb', ok) := rb_write rb src in
  ring_wf rb' /\
  if count rb + Z.of_nat (length src) <=? UNIX_BUF_SIZE
  then ok = true /\ contents rb' = contents rb ++ src /\ count rb' = count rb + Z.of_nat (length src)
  else ok = false /\ rb' = rb.
Proof.
  intros Hwf Hl. pose proof Hwf as [Hd Hh Hc Ht]. unfold rb_write.
  assert (UNIX_BUF_SIZE = 8192) as HS by done.
  rewrite u32_small by lia.
  destruct (Z.ltb_spec UNIX_BUF_SIZE (count rb + Z.of_nat (length src))) as [H1|H1],
    (Z.leb_spec (count rb + Z.of_nat (length src)) UNIX_BUF_SIZE); try lia; [done|].
  destruct (rb_write_loop_spec src rb (Z.to_nat (count rb))) as (L1 & L2 & L3 & L4 & L5);
    [lia|lia|by rewrite Z2Nat.id by lia|].
  rewrite Z2Nat.id in L4 by lia.
  set (rb' := rb_write_loop src rb) in *. rewrite u32_small by lia. split.
  - split; cbn [data head tail count]; [lia|lia|lia|].
    rewrite L4, L2, L3. f_equal. lia.
  - split_and!; [done| |cbn [count]; lia]. unfold contents. cbn [count data head]. rewrite L2, L3.
    rewrite Z2Nat.inj_add, Nat2Z.id by lia. exact L5.
Qed.

Lemma rb_read_loop_spec n : forall rb,
  0 <= head rb < UNIX_BUF_SIZE ->
  rb_read_loop n rb =
    (mkRing (data rb) ((head rb + Z.of_nat n) mod UNIX_BUF_SIZE) (tail rb) (count rb),
     window (data rb) (head rb) n).
Proof.
  induction n as [|n IH]; intros rb Hh; cbn [rb_read_loop window].
  - change (Z.of_nat 0) with 0. rewrite Z.add_0_r, Z.mod_small by done. by destruct rb.
  - rewrite IH by (cbn [head]; by apply Z.mod_pos_bound). cbn [data head tail count].
    rewrite (Z.mod_small (head rb)) by done. f_equal.
    + f_equal. rewrite Zplus_mod_idemp_l. f_equal. lia.
    + f_equal. apply window_mod. rewrite Zmod_mod. done.
Qed.

Lemma rb_read_cases rb want :
  ring_wf rb -> 0 <= want ->
  let '(rb', bs) := rb_read rb want in
  ring_wf rb' /\ bs = take (Z.to_nat want) (contents rb) /\
  contents rb' = drop (Z.to_nat want) (contents rb).
Proof.
  intros Hwf Hw. pose proof Hwf as [Hd Hh Hc Ht]. unfold rb_read.
  set (n := if want <? count rb then want else count rb).
  assert (Hn : 0 <= n <= count rb /\ n <= want /\ (want < count rb -> n = want) /\
               (count rb <= want -> n = count rb))
    by (unfold n; destruct (Z.ltb_spec want (count rb)); lia).
  clearbody n. rewrite rb_read_loop_spec by done. cbn [data head tail count].
  rewrite Z2Nat.id by lia.
  assert (Hsplit : contents rb = window (data rb) (head rb) (Z.to_nat n) ++
                     window (data rb) (head rb + n) (Z.to_nat (count rb - n))).
  { unfold contents. replace (Z.to_nat (count rb)) with (Z.to_nat n + Z.to_nat (count rb - n))%nat by lia.
    rewrite window_app, Z2Nat.id by lia. done. }
  assert (Hlen : length (window (data rb) (head rb) (Z.to_nat n)) = Z.to_nat n) by apply length_window.
  pose proof (length_contents rb Hwf) as Hlc.
  assert (Htd : Z.to_nat want = Z.to_nat n \/ (length (contents rb) <= Z.to_nat want)%nat /\ n = count rb) by lia.
  split_and!.
  - split; cbn [data head tail count]; [done|by apply Z.mod_pos_bound|lia|].
    rewrite Ht, Zplus_mod_idemp_l. f_equal. lia.
  - destruct Htd as [->|[Hge E]].
    + rewrite Hsplit, take_app_length' by done. done.
    + rewrite take_ge by done. rewrite Hsplit, E, Z.sub_diag. simpl. by rewrite app_nil_r.
  - unfold contents at 1. cbn [data head count].
    rewrite (window_mod _ _ _ (head rb + n)) by by rewrite Zmod_mod.
    destruct Htd as [->|[Hge E]].
    + rewrite Hsplit, drop_app_length' by done. done.
    + rewrite drop_ge by done. by rewrite E, Z.sub_diag.
Qed.

(** ** The invariant of the table *)

(** An index of a socket. *)
Definition sock_index (i : Z) : Prop := 0 <= i < MAX_UNIX_SOCKETS.

Record sock_wf (s : unix_socket) : Prop := {
  sk_ring : ring_wf (rx s);
  sk_backlog : Z.of_nat (length (backlog s)) = UNIX_BACKLOG_MAX;
  sk_bhead : 0 <= backlog_head s < UNIX_BACKLOG_MAX;
  sk_bcount : 0 <= backlog_count s <= UNIX_BACKLOG_MAX;
  sk_btail : backlog_tail s = (backlog_head s + backlog_count s) mod UNIX_BACKLOG_MAX;
  sk_pending : Forall (fun e => sock_index (client_sock_id e)) (backlog s);
  sk_peer : peer_id s = -1 \/ sock_index (peer_id s);
  sk_path : Z.of_nat (length (path s)) < UNIX_PATH_MAX
}.

Lemma zero_socket_wf : sock_wf zero_socket.
Proof.
  split; [apply zero_ring_wf|done|done|done|done| |by right|done].
  repeat (constructor; [done|]). constructor.
Qed.

Lemma zero_backlog_ok : Forall (fun e => sock_index (client_sock_id e)) (backlog zero_socket).
Proof. apply zero_socket_wf. Qed.

Lemma init_slot_wf x ty peer p owner :
  (peer = -1 \/ sock_index peer) -> Z.of_nat (length p) < UNIX_PATH_MAX ->
  sock_wf (init_slot x ty peer p owner).
Proof. intros Hp Hl. split; [apply zero_ring_wf|done|done|done|done|apply zero_backlog_ok|done|done]. Qed.

Lemma copy_path_length p : Z.of_nat (length (copy_path p)) < UNIX_PATH_MAX.
Proof. unfold copy_path, UNIX_PATH_MAX. rewrite length_take. lia. Qed.

Lemma copy_path_short p : Z.of_nat (length p) < UNIX_PATH_MAX -> copy_path p = p.
Proof. intros H. unfold copy_path, UNIX_PATH_MAX in *. apply take_ge. lia. Qed.

Lemma pop_backlog_wf s : sock_wf s -> 0 < backlog_count s -> sock_wf (pop_backlog s).
Proof.
  intros [H1 H2 H3 H4 H5 H6 H7 H8] Hc. unfold pop_backlog, set_backlog, UNIX_BACKLOG_MAX in *.
  split; cbn; unfold UNIX_BACKLOG_MAX in *; try done; try lia; zdiv_lia.
Qed.

Lemma push_backlog_wf e s :
  sock_wf s -> sock_index (client_sock_id e) -> backlog_count s < UNIX_BACKLOG_MAX ->
  sock_wf (push_backlog e s).
Proof.
  intros [H1 H2 H3 H4 H5 H6 H7 H8] He Hc. unfold push_backlog, set_backlog.
  split; cbn [rx backlog backlog_head backlog_tail backlog_count peer_id path]; try done.
  - by rewrite length_aset.
  - lia.
  - rewrite H5, Zplus_mod_idemp_l. f_equal. lia.
  - unfold aset. destruct (0 <=? backlog_tail s); [|done]. by apply Forall_insert.
Qed.

Lemma first_pending_index s : sock_wf s -> sock_index (client_sock_id (first_pending s)).
Proof.
  intros [_ H2 H3 _ _ H6 _ _]. unfold first_pending.
  pose proof (aget_inside zero_pending (backlog s) (backlog_head s) ltac:(lia)) as E.
  exact (proj1 (Forall_lookup _ _) H6 _ _ E).
Qed.

Section invariant.
Context {P : Type} `{!ProcOps P}.
Implicit Types st : sys P.

(** The table is well formed and no two sockets are bound to one path. *)
Record table_ok st : Prop := {
  to_length : Z.of_nat (length (sock_table st)) = MAX_UNIX_SOCKETS;
  to_wf : forall i, sock_wf (sock st i);
  to_unique : forall i j, sock_index i -> sock_index j -> is_bound (sock st i) = true ->
    is_bound (sock st j) = true -> path (sock st i) = path (sock st j) -> i = j
}.

Lemma sock_upd st id f i :
  Z.of_nat (length (sock_table st)) = MAX_UNIX_SOCKETS -> sock_index id ->
  sock (upd id f st) i = if i =? id then f (sock st id) else sock st i.
Proof.
  unfold sock_index. intros Hl Hid. unfold sock at 1, upd. cbn [sock_table].
  destruct (Z.eqb_spec i id) as [->|Hne]; [apply aget_aset_eq; lia|].
  rewrite aget_aset_ne by lia. done.
Qed.

(** [f] does not bind: a socket bound after it was bound to that path before. *)
Definition keeps_binding (f : unix_socket -> unix_socket) (s : unix_socket) : Prop :=
  is_bound (f s) = true -> is_bound s = true /\ path (f s) = path s.

Lemma table_ok_upd st id f :
  table_ok st -> sock_index id -> sock_wf (f (sock st id)) -> keeps_binding f (sock st id) ->
  table_ok (upd id f st).
Proof.
  intros [H1 H2 H3] Hid Hf Hk.
  assert (Hs : forall i, sock (upd id f st) i = if i =? id then f (sock st id) else sock st i)
    by (intros; by apply sock_upd).
  split.
  - unfold upd. cbn [sock_table]. by rewrite length_aset.
  - intros i. rewrite Hs. by destruct (i =? id).
  - intros i j Hi Hj. rewrite !Hs.
    destruct (Z.eqb_spec i id) as [->|], (Z.eqb_spec j id) as [->|]; intros B1 B2 E; [done| | |by apply H3].
    + destruct (Hk B1) as [B1' E']. apply H3; try done. by rewrite <- E'.
    + destruct (Hk B2) as [B2' E']. apply H3; try done. by rewrite E, <- E'.
Qed.

Lemma table_ok_procs st f : table_ok st -> table_ok (on_procs f st).
Proof. intros [H1 H2 H3]. by split. Qed.

Lemma unix_sock_get_Some st id s :
  unix_sock_get st id = Some s -> sock_index id /\ s = sock st id /\ in_use s = true.
Proof.
  unfold unix_sock_get, sock_index.
  destruct (Z.ltb_spec id 0), (Z.leb_spec MAX_UNIX_SOCKETS id); try done. simpl.
  destruct (in_use (sock st id)) eqn:E; [|done]. by intros [= <-].
Qed.

Lemma slot_Some p st i :
  slot p st = Some i -> sock_index i /\ p (sock st i) = true.
Proof. intros H. apply find_first_Some in H as (Hi & Hp & _). by split. Qed.

Lemma slot_None p st i : slot p st = None -> sock_index i -> p (sock st i) = false.
Proof. intros H Hi. unfold slot in H. rewrite find_first_None in H. by apply H. Qed.

(** Updates that leave the binding of a socket alone. *)
Ltac keep := intros ?; done.

Lemma wake_reader_ok st id : table_ok st -> sock_index id -> table_ok (wake_reader id st).
Proof.
  intros Hok Hid. unfold wake_reader. destruct (0 <=? _); [|done].
  apply table_ok_upd; [by apply table_ok_procs|done| |keep].
  destruct (to_wf _ Hok id). by split.
Qed.

Lemma unix_sock_create_ok st ty : table_ok st -> table_ok (fst (unix_sock_create ty st)).
Proof.
  intros Hok. unfold unix_sock_create. destruct (_ && _); [done|].
  destruct (slot _ st) as [i|] eqn:E; [|done]. apply slot_Some in E as [Hi _].
  apply table_ok_upd; [done|done|by apply init_slot_wf; [left|]|]. done.
Qed.

Lemma drain_backlog_ok n : forall id st,
  table_ok st -> sock_index id -> Z.of_nat n = backlog_count (sock st id) ->
  table_ok (drain_backlog n id st).
Proof.
  induction n as [|n IH]; intros id st Hok Hid Hn; [done|]. cbn [drain_backlog].
  assert (Hok1 : table_ok (upd id pop_backlog st)).
  { apply table_ok_upd; [done|done| |keep]. apply pop_backlog_wf; [apply Hok|lia]. }
  assert (Hc : Z.of_nat n = backlog_count (sock (upd id pop_backlog st) id)).
  { rewrite sock_upd by (done || apply Hok). rewrite Z.eqb_refl. cbn. lia. }
  destruct (0 <=? _); apply IH; try done. by apply table_ok_procs.
Qed.

Lemma unix_sock_destroy_ok st id : table_ok st -> table_ok (unix_sock_destroy id st).
Proof.
  intros Hok. unfold unix_sock_destroy. destruct (unix_sock_get st id) as [s|] eqn:E; [|done].
  apply unix_sock_get_Some in E as (Hid & _ & _).
  pose proof (wake_reader_ok st id Hok Hid) as Hok1. set (st1 := wake_reader id st) in *.
  assert (Hpeer : forall st p, table_ok st -> sock_index p ->
    table_ok (upd p (fun s => set_peer (-1) (set_state US_CLOSED s)) st)).
  { intros st' p Hok' Hp. apply table_ok_upd; [done|done| |].
    - destruct (to_wf _ Hok' p). split; try done. by left.
    - intros Hb. unfold is_bound in Hb. cbn in Hb. by rewrite andb_false_r in Hb. }
  assert (Hm1 : forall st, table_ok st -> table_ok (upd id (set_peer (-1)) st)).
  { intros st' Hok'. apply table_ok_upd; [done|done| |keep].
    destruct (to_wf _ Hok' id). split; try done. by left. }
  set (st2 := if 0 <=? peer_id (sock st1 id) then _ else st1).
  assert (Hok2 : table_ok st2).
  { unfold st2. destruct (0 <=? _); [|done]. apply Hm1.
    destruct (unix_sock_get st1 _) as [p|] eqn:E; [|done].
    apply unix_sock_get_Some in E as (Hp & _ & _). apply wake_reader_ok; [by apply Hpeer|done]. }
  clearbody st2. pose proof (sk_bcount _ (to_wf _ Hok2 id)) as Hc.
  pose proof (drain_backlog_ok (Z.to_nat (backlog_count (sock st2 id))) id st2 Hok2 Hid ltac:(lia)) as Hok3.
  apply table_ok_upd; [done|done| |].
  - destruct (to_wf _ Hok3 id). by split.
  - intros Hb. done.
Qed.

Lemma unix_sock_bind_ok st id p :
  table_ok st -> (forall l, p = Some l -> Z.of_nat (length l) < UNIX_PATH_MAX) ->
  table_ok (fst (unix_sock_bind id p st)).
Proof.
  intros Hok Hshort. unfold unix_sock_bind.
  destruct (unix_sock_get st id) as [s|] eqn:E; [|done]. apply unix_sock_get_Some in E as (Hid & _ & _).
  case_bool_decide; [|done]. cbn [negb]. destruct p as [[|c l]|]; try done.
  specialize (Hshort (c :: l) eq_refl).
  destruct (find_bound (c :: l) st) eqn:Ef; [done|]. cbn [fst]. unfold find_bound in Ef.
  set (f := fun s => set_state US_BOUND _).
  assert (Hs : forall i, sock (upd id f st) i = if i =? id then f (sock st id) else sock st i)
    by (intros; apply sock_upd; [apply Hok|done]).
  assert (Hno : forall i, sock_index i -> is_bound (sock st i) = true -> path (sock st i) <> c :: l).
  { intros i Hi Hb Hp. pose proof (slot_None _ _ i Ef Hi) as Hn. simpl in Hn.
    rewrite Hb in Hn. unfold path_is in Hn. by rewrite bool_decide_true in Hn. }
  split.
  - unfold upd. cbn [sock_table]. rewrite length_aset. apply Hok.
  - intros i. rewrite Hs. destruct (i =? id); [|apply Hok].
    destruct (to_wf _ Hok id). split; try done. apply copy_path_length.
  - intros i j Hi Hj. rewrite !Hs.
    destruct (Z.eqb_spec i id) as [->|], (Z.eqb_spec j id) as [->|]; intros B1 B2 E; [done| | |].
    + exfalso. apply (Hno j); [done|done|]. rewrite <- E. exact (copy_path_short _ Hshort).
    + exfalso. apply (Hno i); [done|done|]. rewrite E. exact (copy_path_short _ Hshort).
    + by apply Hok.
Qed.

Lemma unix_sock_listen_ok st id bl : table_ok st -> table_ok (fst (unix_sock_listen id bl st)).
Proof.
  intros Hok. unfold unix_sock_listen.
  destruct (unix_sock_get st id) as [s|] eqn:E; [|done].
  apply unix_sock_get_Some in E as (Hid & Es & Hu).
  destruct (negb _); [done|]. case_bool_decide as Hst; [|done]. cbn [negb fst].
  apply table_ok_upd; [done|done| |].
  - destruct (to_wf _ Hok id). by split.
  - intros _. split; [|done]. unfold is_bound. rewrite <- Es, Hu, bool_decide_true by done. done.
Qed.

Lemma set_blocked_ok st id v : table_ok st -> sock_index id -> table_ok (upd id (set_blocked v) st).
Proof.
  intros Hok Hid. apply table_ok_upd; [done|done| |keep]. destruct (to_wf _ Hok id). by split.
Qed.

Lemma unix_sock_accept_ok st id : table_ok st -> table_ok (fst (unix_sock_accept id st)).
Proof.
  intros Hok. unfold unix_sock_accept.
  destruct (unix_sock_get st id) as [s|] eqn:E; [|done].
  apply unix_sock_get_Some in E as (Hid & Es & Hu).
  destruct (negb _); [done|]. pose proof (to_wf _ Hok id) as Hwf. rewrite <- Es in Hwf.
  destruct (Z.eqb_spec (backlog_count s) 0) as [|Hc]; [by apply table_ok_procs, set_blocked_ok|].
  assert (Hok1 : table_ok (upd id pop_backlog st)).
  { apply table_ok_upd; [done|done| |keep].
    pose proof (sk_bcount _ Hwf). rewrite <- Es. apply pop_backlog_wf; [done|lia]. }
  set (st1 := upd id pop_backlog st) in *.
  assert (Hub : forall st', table_ok st' -> table_ok (if 0 <=? client_pid (first_pending s)
     then on_procs (proc_unblock (client_pid (first_pending s))) st' else st')).
  { intros st' Hok'. destruct (0 <=? _); [by apply table_ok_procs|done]. }
  pose proof (first_pending_index s Hwf) as Hci.
  destruct (slot _ st1) as [n|] eqn:En; [|by apply Hub]. apply slot_Some in En as [Hn _].
  cbn [fst]. apply Hub.
  assert (Hok2 : table_ok (upd n (fun _ => init_slot US_CONNECTED (type s)
    (client_sock_id (first_pending s)) (copy_path (path s)) (current st1)) st1)).
  { apply table_ok_upd; [done|done| |done]. apply init_slot_wf; [by right|apply copy_path_length]. }
  set (st2 := upd n _ st1) in *. destruct (unix_sock_get st2 _) as [c|]; [|done].
  apply table_ok_upd; [done|done| |].
  - destruct (to_wf _ Hok2 (client_sock_id (first_pending s))). split; try done. by right.
  - intros Hb. unfold is_bound in Hb. cbn in Hb. by rewrite andb_false_r in Hb.
Qed.

Lemma unix_sock_connect_ok st id p : table_ok st -> table_ok (fst (unix_sock_connect id p st)).
Proof.
  intros Hok. unfold unix_sock_connect.
  destruct (unix_sock_get st id) as [s|] eqn:E; [|done].
  apply unix_sock_get_Some in E as (Hid & Es & Hu).
  destruct (_ && _); [done|]. destruct (negb _); [done|].
  destruct (find_listener p st) as [srv|] eqn:Ef; [|done]. apply slot_Some in Ef as [Hsrv _].
  destruct (Z.leb_spec UNIX_BACKLOG_MAX (backlog_count (sock st srv))); [done|].
  cbn [fst]. apply table_ok_procs, wake_reader_ok; [|done].
  apply table_ok_upd; [done|done| |keep]. by apply push_backlog_wf; [apply Hok| |].
Qed.

Lemma set_rx_ok st id rb : table_ok st -> sock_index id -> ring_wf rb -> table_ok (upd id (set_rx rb) st).
Proof.
  intros Hok Hid Hr. apply table_ok_upd; [done|done| |keep]. destruct (to_wf _ Hok id). by split.
Qed.

Lemma rb_write_ok st id src :
  table_ok st -> sock_index id -> Z.of_nat (length src) < 2 ^ 31 ->
  table_ok (upd id (fun s => set_rx (fst (rb_write (rx s) src)) s) st).
Proof.
  intros Hok Hid Hl. pose proof (rb_write_cases (rx (sock st id)) src (sk_ring _ (to_wf _ Hok id)) Hl) as W.
  apply table_ok_upd; [done|done| |keep].
  destruct (to_wf _ Hok id). destruct (rb_write _ src) as [rb' ok]. by split; try apply W.
Qed.
End invariant.

Section transfer.
Context {P : Type} `{!ProcOps P}.
Implicit Types st : sys P.

(** The bytes waiting at a socket. *)
Definition inbox st (i : Z) : list Z := contents (rx (sock st i)).

Lemma sock_on_procs f st i : sock (on_procs f st) i = sock st i.
Proof. done. Qed.

Lemma sock_wake st p i :
  table_ok st -> sock_index p ->
  sock (wake_reader p st) i =
    if (i =? p) && (0 <=? blocked_reader_pid (sock st p)) then set_blocked (-1) (sock st p) else sock st i.
Proof.
  intros Hok Hp. unfold wake_reader. destruct (0 <=? blocked_reader_pid (sock st p)).
  - rewrite sock_upd by (done || apply Hok). rewrite andb_true_r. by rewrite !sock_on_procs.
  - by rewrite andb_false_r.
Qed.

(** Delivering bytes to [p]: only the ring of [p] and the process waiting on it
    change. *)
Lemma deliver_spec st p src :
  table_ok st -> sock_index p ->
  count (rx (sock st p)) + Z.of_nat (length src) <= UNIX_BUF_SIZE ->
  let st' := wake_reader p (upd p (fun s => set_rx (fst (rb_write (rx s) src)) s) st) in
  table_ok st' /\ inbox st' p = inbox st p ++ src /\
  count (rx (sock st' p)) = count (rx (sock st p)) + Z.of_nat (length src) /\
  in_use (sock st' p) = in_use (sock st p) /\ state (sock st' p) = state (sock st p) /\
  peer_id (sock st' p) = peer_id (sock st p) /\ blocked_reader_pid (sock st' p) < 0 /\
  forall i, i <> p -> sock st' i = sock st i.
Proof.
  intros Hok Hp Hle st'. pose proof (sk_ring _ (to_wf _ Hok p)) as Hr.
  pose proof (rw_count _ Hr) as Hc. unfold UNIX_BUF_SIZE in Hle, Hc.
  pose proof (rb_write_cases (rx (sock st p)) src Hr ltac:(lia)) as W.
  pose proof (rb_write_ok st p src Hok Hp ltac:(lia)) as Hok1.
  set (st1 := upd p _ st) in *.
  assert (H1 : sock st1 p = set_rx (fst (rb_write (rx (sock st p)) src)) (sock st p))
    by (unfold st1; rewrite sock_upd by (done || apply Hok); by rewrite Z.eqb_refl).
  assert (Hi1 : forall i, i <> p -> sock st1 i = sock st i).
  { intros i Hi. unfold st1. rewrite sock_upd by (done || apply Hok). by destruct (Z.eqb_spec i p). }
  destruct (rb_write (rx (sock st p)) src) as [rb' ok]. cbn [fst] in H1.
  destruct W as [W1 W2]. destruct (Z.leb_spec (count (rx (sock st p)) + Z.of_nat (length src)) UNIX_BUF_SIZE) as [_|Hx];
    [|unfold UNIX_BUF_SIZE in Hx; lia]. destruct W2 as (_ & W2 & W3).
  assert (Hs' : forall i, sock st' i = if (i =? p) && (0 <=? blocked_reader_pid (sock st1 p))
    then set_blocked (-1) (sock st1 p) else sock st1 i) by (intros; by apply sock_wake).
  split; [by apply wake_reader_ok|]. unfold inbox. rewrite !Hs', Z.eqb_refl. cbn [andb].
  split_and!; try (by destruct (0 <=? _); rewrite H1).
  - destruct (Z.leb_spec 0 (blocked_reader_pid (sock st1 p))); simpl; lia.
  - intros i Hi. rewrite Hs'. destruct (Z.eqb_spec i p); [done|]. by apply Hi1.
Qed.

(** [unix_sock_write] on a connected socket whose peer is there. *)
Lemma unix_sock_write_cases st id buf s ps :
  table_ok st -> Z.of_nat (length buf) < 2 ^ 31 ->
  unix_sock_get st id = Some s -> state s = US_CONNECTED ->
  unix_sock_get st (peer_id s) = Some ps -> state ps <> US_CLOSED ->
  let n := Z.min (Z.of_nat (length buf)) (UNIX_BUF_SIZE - count (rx ps)) in
  exists st', unix_sock_write id buf st =
      Some (st', if n =? Z.of_nat (length buf) then Done n else Full n) /\
    table_ok st' /\ inbox st' (peer_id s) = inbox st (peer_id s) ++ take (Z.to_nat n) buf /\
    in_use (sock st' (peer_id s)) = true /\ state (sock st' (peer_id s)) = state ps /\
    (forall i, i <> peer_id s -> sock st' i = sock st i).
Proof.
  intros Hok Hl Hs Hst Hp Hps n. pose proof Hs as Hs'.
  apply unix_sock_get_Some in Hs as (Hid & Es & Hu).
  pose proof Hp as Hp'. apply unix_sock_get_Some in Hp as (Hpi & Eps & Hpu).
  pose proof (rw_count _ (sk_ring _ (to_wf _ Hok (peer_id s)))) as Hc. rewrite <- Eps in Hc.
  unfold unix_sock_write. rewrite Hs', bool_decide_true by done. cbn [negb].
  set (p := peer_id s) in *. unfold UNIX_BUF_SIZE in *.
  destruct (Z.eqb_spec (Z.of_nat (length buf)) 0) as [E0|E0].
  { assert (n = 0) as -> by lia. cbn [write_rounds]. unfold write_round. rewrite E0, u32_small by lia.
    simpl. eexists. split; [reflexivity|]. rewrite take_0, app_nil_r, Eps in *. done. }
  destruct (Z.eqb_spec (8192 - count (rx ps)) 0) as [Ef|Ef].
  { assert (n = 0) as -> by lia. cbn [write_rounds]. unfold write_round. rewrite u32_small by lia.
    destruct (Z.leb_spec (Z.of_nat (length buf)) 0); [lia|]. rewrite <- Es. fold p. rewrite Hp'.
    rewrite bool_decide_false by done. unfold UNIX_BUF_SIZE. rewrite (u32_small (8192 - _)) by lia.
    destruct (Z.eqb_spec (8192 - count (rx ps)) 0); [|done]. eexists. split.
    - destruct (Z.eqb_spec 0 (Z.of_nat (length buf))); [lia|]. reflexivity.
    - rewrite take_0, app_nil_r, Eps in *. done. }
  assert (Hlen : Z.of_nat (length (take (Z.to_nat n) buf)) = n) by (rewrite length_take; lia).
  destruct (deliver_spec st p (take (Z.to_nat n) buf) Hok Hpi) as (D1 & D2 & D3 & D4 & D5 & D6 & _ & D8).
  { unfold UNIX_BUF_SIZE. rewrite <- Eps, Hlen. lia. }
  set (st' := wake_reader p _) in *. exists st'.
  split; [|rewrite D4, D5, <- Eps; done].
  assert (Hround1 : write_round id buf 0 st = (st', Again n)).
  { unfold write_round. rewrite u32_small by lia.
    destruct (Z.leb_spec (Z.of_nat (length buf)) 0); [lia|]. rewrite <- Es. fold p. rewrite Hp'.
    rewrite bool_decide_false by done. unfold UNIX_BUF_SIZE. rewrite (u32_small (8192 - _)) by lia.
    destruct (Z.eqb_spec (8192 - count (rx ps)) 0); [done|]. rewrite Z.sub_0_r, u32_small by lia.
    change (Z.to_nat 0) with 0%nat. rewrite drop_0.
    assert ((if 8192 - count (rx ps) <? Z.of_nat (length buf) then 8192 - count (rx ps)
             else Z.of_nat (length buf)) = n) as ->.
    { destruct (Z.ltb_spec (8192 - count (rx ps)) (Z.of_nat (length buf))); lia. }
    rewrite Z.add_0_l, u32_small by lia. done. }
  change (write_rounds 3 id buf 0 st) with (match write_round id buf 0 st with
    | (st', Again w) => write_rounds 2 id buf w st' | r => Some r end).
  rewrite Hround1. cbn [write_rounds]. unfold write_round at 1. rewrite u32_small by lia.
  destruct (Z.leb_spec (Z.of_nat (length buf)) n) as [Hd|Hd].
  - destruct (Z.eqb_spec n (Z.of_nat (length buf))); [|lia]. rewrite int32_small by lia. done.
  - destruct (Z.eqb_spec n (Z.of_nat (length buf))); [lia|].
    assert (peer_id (sock st' id) = p) as ->.
    { destruct (decide (id = p)) as [->|Hne]; [rewrite D6|rewrite D8 by done]; by rewrite <- Es. }
    assert (unix_sock_get st' p = Some (sock st' p)) as ->.
    { unfold unix_sock_get, sock_index in *.
      destruct (Z.ltb_spec p 0), (Z.leb_spec MAX_UNIX_SOCKETS p); try lia. simpl.
      by rewrite D4, <- Eps, Hpu. }
    rewrite bool_decide_false by by rewrite D5, <- Eps.
    rewrite D3, Hlen, <- Eps. unfold UNIX_BUF_SIZE.
    replace (8192 - (count (rx ps) + n)) with 0 by lia. done.
Qed.

Lemma take_pos_length (l : list Z) want :
  l <> [] -> 0 < want -> take (Z.to_nat want) l <> [].
Proof. intros Hl Hw. destruct l; [done|]. destruct (Z.to_nat want) eqn:E; [lia|done]. Qed.

(** Reading from a socket that has bytes. *)
Lemma read_loop_cases st id want :
  table_ok st -> sock_index id -> 0 <= want < 2 ^ 31 -> inbox st id <> [] ->
  exists st', read_loop id want st =
      (st', Ret (Z.of_nat (length (take (Z.to_nat want) (inbox st id))), take (Z.to_nat want) (inbox st id))) /\
    recvfrom_loop id want st = read_loop id want st /\
    table_ok st' /\ inbox st' id = drop (Z.to_nat want) (inbox st id) /\
    (forall i, i <> id -> sock st' i = sock st i).
Proof.
  intros Hok Hid Hw Hne. pose proof (sk_ring _ (to_wf _ Hok id)) as Hr.
  pose proof (length_contents _ Hr) as Hlc. unfold inbox in *. pose proof (rw_count _ Hr) as Hcr.
  unfold read_loop, recvfrom_loop. destruct (Z.eqb_spec (count (rx (sock st id))) 0) as [E|E].
  { destruct (contents _); [done|]. simpl in Hlc. lia. }
  rewrite u32_small by lia. pose proof (rb_read_cases (rx (sock st id)) want Hr ltac:(lia)) as R.
  destruct (rb_read (rx (sock st id)) want) as [rb' bs]. destruct R as (R1 & R2 & R3).
  assert (Z.of_nat (length bs) < 2 ^ 31) as Hb.
  { rewrite R2, length_take. unfold UNIX_BUF_SIZE in *. lia. }
  rewrite int32_small, R2 in * by lia.
  eexists. split; [reflexivity|]. split; [done|]. split; [by apply set_rx_ok|].
  rewrite sock_upd by (done || apply Hok). rewrite Z.eqb_refl. split; [done|].
  intros i Hi. rewrite sock_upd by (done || apply Hok). by destruct (Z.eqb_spec i id).
Qed.

(** ... and from one that has none. *)
Lemma read_loop_empty st id want :
  table_ok st -> inbox st id = [] ->
  (peer_id (sock st id) < 0 \/ in_use (sock st (peer_id (sock st id))) = false \/
   state (sock st (peer_id (sock st id))) = US_CLOSED) /\ read_loop id want st = (st, Ret (0, [])) \/
  snd (read_loop id want st) = Wait.
Proof.
  intros Hok He. pose proof (sk_ring _ (to_wf _ Hok id)) as Hr.
  pose proof (length_contents _ Hr) as Hlc. unfold inbox in He. rewrite He in Hlc. simpl in Hlc.
  unfold read_loop. rewrite <- Hlc. simpl.
  destruct (Z.ltb_spec (peer_id (sock st id)) 0); [left; split; [by left|done]|].
  destruct (in_use (sock st (peer_id (sock st id)))); simpl; [|left; split; [right; by left|done]].
  case_bool_decide; [left; split; [right; by right|done]|by right].
Qed.

Lemma read_loop_ok st id want : table_ok st -> sock_index id -> table_ok (fst (read_loop id want st)).
Proof.
  intros Hok Hid. unfold read_loop. destruct (_ =? 0).
  - destruct (_ || _); [done|]. by apply table_ok_procs, set_blocked_ok.
  - pose proof (rb_read_cases (rx (sock st id)) (u32 want) (sk_ring _ (to_wf _ Hok id))
      ltac:(pose proof (u32_range want); lia)) as R.
    destruct (rb_read _ _) as [rb bs]. apply set_rx_ok; [done|done|apply R].
Qed.

Lemma recvfrom_loop_ok st id want : table_ok st -> sock_index id -> table_ok (fst (recvfrom_loop id want st)).
Proof.
  intros Hok Hid. unfold recvfrom_loop. destruct (_ =? 0).
  - by apply table_ok_procs, set_blocked_ok.
  - pose proof (rb_read_cases (rx (sock st id)) (u32 want) (sk_ring _ (to_wf _ Hok id))
      ltac:(pose proof (u32_range want); lia)) as R.
    destruct (rb_read _ _) as [rb bs]. apply set_rx_ok; [done|done|apply R].
Qed.

Lemma write_round_ok st id buf w : table_ok st -> table_ok (fst (write_round id buf w st)).
Proof.
  intros Hok. unfold write_round. destruct (_ <=? w); [done|].
  destruct (unix_sock_get st _) as [ps|] eqn:E; [|done]. apply unix_sock_get_Some in E as (Hp & Eps & _).
  case_bool_decide; [done|]. destruct (_ =? 0); [done|]. cbn [fst].
  apply wake_reader_ok; [|done]. apply rb_write_ok; [done|done|].
  pose proof (rw_count _ (sk_ring _ (to_wf _ Hok (peer_id (sock st id))))) as Hc. rewrite <- Eps in Hc.
  rewrite length_take. unfold UNIX_BUF_SIZE in *. rewrite (u32_small (8192 - _)) by lia.
  destruct (Z.ltb_spec (8192 - count (rx ps)) (u32 (Z.of_nat (length buf) - w))); lia.
Qed.

Lemma unix_sock_sendto_ok st id buf dest : table_ok st -> table_ok (fst (unix_sock_sendto id buf dest st)).
Proof.
  intros Hok. unfold unix_sock_sendto. destruct (unix_sock_get st id); [|done].
  destruct (negb _); [done|]. destruct (find_bound dest st) as [d|] eqn:E; [|done].
  apply slot_Some in E as [Hd _].
  pose proof (rw_count _ (sk_ring _ (to_wf _ Hok d))) as Hc. unfold UNIX_BUF_SIZE in *.
  rewrite u32_small by lia.
  destruct (Z.ltb_spec (8192 - count (rx (sock st d))) (Z.of_nat (length buf))); [done|].
  apply wake_reader_ok; [|done]. apply rb_write_ok; [done|done|lia].
Qed.
End transfer.

(** ** Steps of the system

    Every piece of a call that runs without interruption, with any arguments
    (paths satisfying [Q]), and anything the processes do besides. *)
Section steps.
Context {P : Type} `{!ProcOps P}.

Inductive sock_step (Q : list Z -> Prop) : sys P -> sys P -> Prop :=
| step_create ty st : sock_step Q st (fst (unix_sock_create ty st))
| step_destroy id st : sock_step Q st (unix_sock_destroy id st)
| step_bind id p st : (forall l, p = Some l -> Q l) -> sock_step Q st (fst (unix_sock_bind id p st))
| step_listen id bl st : sock_step Q st (fst (unix_sock_listen id bl st))
| step_accept id st : sock_step Q st (fst (unix_sock_accept id st))
| step_connect id p st : sock_step Q st (fst (unix_sock_connect id p st))
| step_write id buf w st : sock_step Q st (fst (write_round id buf w st))
| step_read id want st : sock_step Q st (fst (unix_sock_read id want st))
| step_read_resume id want st : sock_step Q st (fst (unix_sock_read_resume id want st))
| step_sendto id buf dest st : sock_step Q st (fst (unix_sock_sendto id buf dest st))
| step_recvfrom id want st : sock_step Q st (fst (unix_sock_recvfrom id want st))
| step_recvfrom_resume id want st : sock_step Q st (fst (unix_sock_recvfrom_resume id want st))
| step_procs f st : sock_step Q st (on_procs f st).

Definition short_path (p : list Z) : Prop := Z.of_nat (length p) < UNIX_PATH_MAX.

Lemma unix_sock_init_ok (st : sys P) : table_ok (unix_sock_init st).
Proof.
  assert (Hs : forall i, sock (unix_sock_init st) i = set_blocked (-1) (set_peer (-1) zero_socket)
                         \/ sock (unix_sock_init st) i = zero_socket).
  { intros i. unfold sock, unix_sock_init. cbn [sock_table]. unfold aget.
    destruct (0 <=? i); [|by right].
    destruct (map _ _ !! _) as [x|] eqn:E; [|by right]. left. simpl.
    change (map ?f ?l) with (f <$> l) in E. apply list_lookup_fmap_Some in E as (y & -> & E).
    by apply lookup_replicate in E as [-> _]. }
  pose proof zero_socket_wf as Hz.
  assert (Hb : forall i, is_bound (sock (unix_sock_init st) i) = false)
    by (intros i; destruct (Hs i) as [-> | ->]; done).
  split; [done| |].
  - intros i. destruct (Hs i) as [-> | ->]; [|done]. destruct Hz. split; try done. by left.
  - intros i j _ _ Hi. by rewrite Hb in Hi.
Qed.

Lemma sock_step_ok st st' : sock_step short_path st st' -> table_ok st -> table_ok st'.
Proof.
  intros Hstep Hok. destruct Hstep.
  - by apply unix_sock_create_ok.
  - by apply unix_sock_destroy_ok.
  - by apply unix_sock_bind_ok.
  - by apply unix_sock_listen_ok.
  - by apply unix_sock_accept_ok.
  - by apply unix_sock_connect_ok.
  - by apply write_round_ok.
  - unfold unix_sock_read. destruct (unix_sock_get st id) eqn:E; [|done].
    destruct (_ && _); [done|]. apply unix_sock_get_Some in E as [Hid _]. by apply read_loop_ok.
  - unfold unix_sock_read_resume. destruct (unix_sock_get st id) eqn:E; [|done].
    apply unix_sock_get_Some in E as [Hid _]. by apply read_loop_ok.
  - by apply unix_sock_sendto_ok.
  - unfold unix_sock_recvfrom. destruct (unix_sock_get st id) eqn:E; [|done].
    destruct (negb _); [done|]. apply unix_sock_get_Some in E as [Hid _]. by apply recvfrom_loop_ok.
  - unfold unix_sock_recvfrom_resume. destruct (unix_sock_get st id) eqn:E; [|done].
    apply unix_sock_get_Some in E as [Hid _]. by apply recvfrom_loop_ok.
  - by apply table_ok_procs.
Qed.

Lemma table_ok_sock_table (st st' : sys P) : sock_table st' = sock_table st -> table_ok st -> table_ok st'.
Proof.
  intros E [H1 H2 H3]. assert (Hs : forall i, sock st' i = sock st i) by (intros; unfold sock; by rewrite E).
  split; [by rewrite E|intros i; by rewrite Hs|intros i j; rewrite !Hs; apply H3].
Qed.

(** A pending connection in an empty backlog is the first one. *)
Lemma push_first s e :
  sock_wf s -> backlog_count s = 0 ->
  first_pending (push_backlog e s) = e /\ backlog_count (push_backlog e s) = 1.
Proof.
  intros [_ H2 H3 _ H5 _ _ _] Hc. rewrite Hc, Z.add_0_r, Z.mod_small in H5 by done.
  unfold first_pending, push_backlog, set_backlog. cbn. rewrite H5, Hc. split; [|done].
  apply aget_aset_eq. lia.
Qed.

(** What [unix_sock_connect] does when it gets as far as waiting. *)
Lemma unix_sock_connect_cases st c p s v :
  table_ok st -> unix_sock_get st c = Some s -> state s = US_CREATED \/ state s = US_BOUND ->
  type s = SOCK_STREAM -> find_listener p st = Some v -> backlog_count (sock st v) = 0 ->
  exists st1, unix_sock_connect c p st = (st1, Wait) /\ table_ok st1 /\
    (forall i, i <> v -> sock st1 i = sock st i) /\
    in_use (sock st1 v) = true /\ state (sock st1 v) = US_LISTENING /\
    path (sock st1 v) = p /\ type (sock st1 v) = type (sock st v) /\
    backlog_count (sock st1 v) = 1 /\
    first_pending (sock st1 v) = mkPending c (current st) false (-1).
Proof.
  intros Hok Hc Hst Hty Hv Hb. pose proof Hc as Hc'. apply unix_sock_get_Some in Hc as (Hci & -> & Hcu).
  pose proof Hv as Hv'. apply slot_Some in Hv as [Hvi Hvp].
  apply andb_true_iff in Hvp as [Hvp Hvpath]. apply andb_true_iff in Hvp as [Hvu Hvs].
  apply bool_decide_eq_true in Hvs. unfold path_is in Hvpath. apply bool_decide_eq_true in Hvpath.
  pose proof (unix_sock_connect_ok st c p Hok) as Hok1. revert Hok1.
  unfold unix_sock_connect. rewrite Hc'.
  assert ((negb (bool_decide (state (sock st c) = US_CREATED)) && negb (bool_decide (state (sock st c) = US_BOUND))) = false) as ->.
  { destruct Hst as [-> | ->]; [done|]. by rewrite andb_false_r. }
  rewrite Hty, Z.eqb_refl, Hv', Hb. cbn [negb fst].
  destruct (Z.leb_spec UNIX_BACKLOG_MAX 0); [done|]. intros Hok1.
  assert (Hpush : table_ok (upd v (push_backlog (mkPending c (current st) false (-1))) st)).
  { apply table_ok_upd; [done|done| |intros ?; done].
    apply push_backlog_wf; [apply Hok|done|rewrite Hb; done]. }
  eexists. split; [reflexivity|]. split; [exact Hok1|]. rewrite !sock_on_procs.
  destruct (push_first (sock st v) (mkPending c (current st) false (-1)) (to_wf _ Hok v) Hb) as [F1 F2].
  assert (Hs : forall i, sock (wake_reader v (upd v (push_backlog (mkPending c (current st) false (-1))) st)) i =
    if i =? v then (if 0 <=? blocked_reader_pid (sock st v)
       then set_blocked (-1) (push_backlog (mkPending c (current st) false (-1)) (sock st v))
       else push_backlog (mkPending c (current st) false (-1)) (sock st v)) else sock st i).
  { intros i. rewrite sock_wake by done. rewrite !sock_upd by (done || apply Hok). rewrite Z.eqb_refl.
    change (blocked_reader_pid (push_backlog _ _)) with (blocked_reader_pid (sock st v)).
    by destruct (i =? v), (0 <=? blocked_reader_pid (sock st v)). }
  split.
  - intros i Hi. rewrite sock_on_procs, Hs. by destruct (Z.eqb_spec i v).
  - rewrite !Hs, Z.eqb_refl. destruct (0 <=? _); done.
Qed.

(** What [unix_sock_accept] does with a pending client that is still there. *)
Lemma unix_sock_accept_cases st v n e :
  table_ok st -> sock_index v -> in_use (sock st v) = true -> state (sock st v) = US_LISTENING ->
  backlog_count (sock st v) = 1 -> first_pending (sock st v) = e ->
  client_sock_id e <> v -> in_use (sock st (client_sock_id e)) = true ->
  slot (fun s => negb (in_use s)) st = Some n ->
  exists st', unix_sock_accept v st = (st', Ret n) /\ table_ok st' /\
    sock st' n = init_slot US_CONNECTED (type (sock st v)) (client_sock_id e) (path (sock st v)) (current st) /\
    sock st' (client_sock_id e) = set_peer n (set_state US_CONNECTED (sock st (client_sock_id e))) /\
    sock st' v = pop_backlog (sock st v) /\
    forall i, i <> n -> i <> client_sock_id e -> i <> v -> sock st' i = sock st i.
Proof.
  intros Hok Hv Hu Hs Hb He Hcv Hcu Hn. set (c := client_sock_id e) in *.
  assert (Hgv : unix_sock_get st v = Some (sock st v)).
  { unfold unix_sock_get, sock_index in *.
    destruct (Z.ltb_spec v 0), (Z.leb_spec MAX_UNIX_SOCKETS v); try lia. simpl. by rewrite Hu. }
  pose proof (slot_Some _ _ _ Hn) as [Hni Hnu]. apply negb_true_iff in Hnu.
  assert (Hnv : n <> v) by (intros ->; congruence). assert (Hnc : n <> c) by (intros ->; congruence).
  assert (Hci : sock_index c) by (unfold c; rewrite <- He; apply first_pending_index, Hok).
  pose proof (unix_sock_accept_ok st v Hok) as Hok'. revert Hok'. unfold unix_sock_accept.
  rewrite Hgv, bool_decide_true by done. cbn [negb]. rewrite Hb. cbn [Z.eqb].
  change (1 =? 0) with false. cbv iota. rewrite He. fold c.
  set (st1 := upd v pop_backlog st).
  assert (Hs1 : forall i, sock st1 i = if i =? v then pop_backlog (sock st v) else sock st i)
    by (intros; apply sock_upd; [apply Hok|done]).
  assert (Hl1 : Z.of_nat (length (sock_table st1)) = MAX_UNIX_SOCKETS)
    by (unfold st1, upd; cbn [sock_table]; rewrite length_aset; apply Hok).
  assert (Hn1 : slot (fun s => negb (in_use s)) st1 = Some n).
  { unfold slot in *. apply find_first_Some in Hn as (Ha & Hp & Hk). apply find_first_exact; [done| |].
    - rewrite Hs1. destruct (Z.eqb_spec n v); [done|]. exact Hp.
    - intros k Hkr. rewrite Hs1. destruct (Z.eqb_spec k v) as [->|]; [|by apply Hk].
      change (in_use (pop_backlog (sock st v))) with (in_use (sock st v)). by rewrite Hu. }
  rewrite Hn1.
  set (st2 := upd n _ st1).
  assert (Hs2 : forall i, sock st2 i = if i =? n then init_slot US_CONNECTED (type (sock st v)) c
                    (copy_path (path (sock st v))) (current st1) else sock st1 i)
    by (intros; apply sock_upd; done).
  assert (Hl2 : Z.of_nat (length (sock_table st2)) = MAX_UNIX_SOCKETS)
    by (unfold st2, upd; cbn [sock_table]; by rewrite length_aset).
  assert (Hgc : unix_sock_get st2 c = Some (sock st2 c)).
  { unfold unix_sock_get, sock_index in *.
    destruct (Z.ltb_spec c 0), (Z.leb_spec MAX_UNIX_SOCKETS c); try lia. simpl.
    rewrite Hs2. destruct (Z.eqb_spec c n); [congruence|]. rewrite Hs1.
    destruct (Z.eqb_spec c v); [done|]. by rewrite Hcu. }
  rewrite Hgc. set (st3 := upd c _ st2).
  assert (Hs3 : forall i, sock st3 i = if i =? c then set_peer n (set_state US_CONNECTED (sock st2 c)) else sock st2 i)
    by (intros; apply sock_upd; done).
  rewrite (copy_path_short (path (sock st v))) in * by apply Hok.
  intros Hok'. eexists. split; [reflexivity|]. split; [exact Hok'|].
  assert (Hproj : forall i, sock (if 0 <=? client_pid e then on_procs (proc_unblock (client_pid e)) st3 else st3) i
    = sock st3 i) by (intros; by destruct (0 <=? client_pid e)).
  rewrite !Hproj, !Hs3, !Hs2, !Hs1, !Z.eqb_refl.
  destruct (Z.eqb_spec n c), (Z.eqb_spec c n), (Z.eqb_spec c v), (Z.eqb_spec v c), (Z.eqb_spec v n); try congruence.
  split_and!; try done. intros i H1 H2 H3. rewrite Hproj, Hs3, (Hs2 i), (Hs1 i).
  destruct (Z.eqb_spec i c), (Z.eqb_spec i n), (Z.eqb_spec i v); congruence.
Qed.
End steps.

(** ** Properties *)
Section properties.
Context {P : Type} `{!ProcOps P}.
Implicit Types st : sys P.


(** C15: a connection is a reliable byte stream: what a read returns is the
    oldest bytes written to the socket, in order, none lost or repeated.  A
    write appends as many bytes as fit and reports how many (or waits for
    room, keeping count); the read that follows returns the front of the
    stream and leaves the rest. *)
Theorem socket_stream_fifo st id buf want s ps :
  table_ok st -> Z.of_nat (length buf) < 2 ^ 31 -> 0 < want < 2 ^ 31 ->
  unix_sock_get st id = Some s -> state s = US_CONNECTED ->
  unix_sock_get st (peer_id s) = Some ps -> state ps = US_CONNECTED ->
  inbox st (peer_id s) ++ buf <> [] ->
  let n := Z.min (Z.of_nat (length buf)) (UNIX_BUF_SIZE - count (rx ps)) in
  let stream := inbox st (peer_id s) ++ take (Z.to_nat n) buf in
  exists st1 st2,
    unix_sock_write id buf st = Some (st1, if n =? Z.of_nat (length buf) then Done n else Full n) /\
    inbox st1 (peer_id s) = stream /\
    unix_sock_read (peer_id s) want st1 =
      (st2, Ret (Z.of_nat (length (take (Z.to_nat want) stream)), take (Z.to_nat want) stream)) /\
    inbox st2 (peer_id s) = drop (Z.to_nat want) stream /\
    forall i, i <> peer_id s -> sock st2 i = sock st i.
Proof.
  intros Hok Hl Hw Hs Hst Hp Hps Hne n stream.
  destruct (unix_sock_write_cases st id buf s ps Hok Hl Hs Hst Hp ltac:(congruence))
    as (st1 & W & Hok1 & Hin & Hu1 & Hst1 & Hoth). fold n in W, Hin. fold stream in Hin.
  pose proof Hp as Hp'. apply unix_sock_get_Some in Hp as (Hpi & Eps & Hpu).
  assert (Hns : stream <> []).
  { unfold stream. intros E. apply app_eq_nil in E as [E1 E2].
    pose proof (length_contents _ (sk_ring _ (to_wf _ Hok (peer_id s)))) as Hlc.
    unfold inbox in *. rewrite E1 in *. simpl in Hlc, Hne. rewrite <- Eps in Hlc.
    apply (f_equal length) in E2. rewrite length_take in E2. unfold n, UNIX_BUF_SIZE in E2.
    destruct buf; [done|]. simpl in *. lia. }
  rewrite <- Hin in Hns.
  destruct (read_loop_cases st1 (peer_id s) want Hok1 Hpi ltac:(lia) Hns) as (st2 & R & _ & _ & R2 & R3).
  exists st1, st2. rewrite Hin in *. split_and!; try done.
  - assert (Hg : unix_sock_get st1 (peer_id s) = Some (sock st1 (peer_id s))).
    { unfold unix_sock_get, sock_index in *.
      destruct (Z.ltb_spec (peer_id s) 0), (Z.leb_spec MAX_UNIX_SOCKETS (peer_id s)); try lia.
      simpl. by rewrite Hu1. }
    unfold unix_sock_read. rewrite Hg, Hst1, Hps. exact R.
  - intros i Hi. rewrite R3, Hoth; done.
Qed.

(** connecting and accepting pairs two sockets: a client that connects to
    a listener with an empty backlog waits, and when the listener next accepts
    (the processes having run in between, the sockets not having changed),
    the client and a new socket are connected to each other, the listener
    listens on with its backlog empty again, every other socket is as before,
    and the client's call returns 0. *)
Theorem connect_accept_pairs st c p s v st1 f n :
  table_ok st -> unix_sock_get st c = Some s -> state s = US_CREATED \/ state s = US_BOUND ->
  type s = SOCK_STREAM -> find_listener p st = Some v -> backlog_count (sock st v) = 0 -> c <> v ->
  unix_sock_connect c p st = (st1, Wait) ->
  slot (fun s => negb (in_use s)) (on_procs f st1) = Some n ->
  exists st2, unix_sock_accept v (on_procs f st1) = (st2, Ret n) /\ table_ok st2 /\
    state (sock st2 c) = US_CONNECTED /\ peer_id (sock st2 c) = n /\
    state (sock st2 n) = US_CONNECTED /\ peer_id (sock st2 n) = c /\ inbox st2 n = [] /\
    path (sock st2 n) = p /\
    unix_sock_connect_resume c st2 = 0 /\
    state (sock st2 v) = US_LISTENING /\ backlog_count (sock st2 v) = 0 /\
    forall i, i <> n -> i <> c -> i <> v -> sock st2 i = sock st i.
Proof.
  intros Hok Hc Hst Hty Hv Hb Hcv E1 Hn.
  destruct (unix_sock_connect_cases st c p s v Hok Hc Hst Hty Hv Hb)
    as (st1' & E1' & Hok1 & Hoth & V1 & V2 & V3 & V4 & V5 & V6).
  rewrite E1 in E1'. injection E1' as <-. pose proof Hc as Hc'.
  apply unix_sock_get_Some in Hc as (Hci & Es & Hcu). apply slot_Some in Hv as [Hvi _].
  assert (Hc1 : sock (on_procs f st1) c = s) by (rewrite sock_on_procs, Hoth; done).
  destruct (unix_sock_accept_cases (on_procs f st1) v n (mkPending c (current st) false (-1)))
    as (st2 & A1 & A2 & A3 & A4 & A5 & A6); try done; [by apply table_ok_procs|cbn [client_sock_id]; by rewrite Hc1|].
  cbn [client_sock_id] in *. rewrite Hc1 in *. rewrite !sock_on_procs in *.
  exists st2. unfold inbox. rewrite A3, A4, A5. unfold unix_sock_connect_resume.
  assert (Hg : unix_sock_get st2 c = Some (sock st2 c)).
  { unfold unix_sock_get, sock_index in *.
    destruct (Z.ltb_spec c 0), (Z.leb_spec MAX_UNIX_SOCKETS c); try lia. simpl. rewrite A4.
    cbn. by rewrite Hcu. }
  rewrite Hg, A4. split_and!; try done.
  - cbn. lia.
  - intros i I1 I2 I3. rewrite A6 by done. rewrite sock_on_procs. by apply Hoth.
Qed.

(** the uniqueness of bound paths rests on their length: a path of
    [UNIX_PATH_MAX] bytes or more can be bound by two sockets, because
    [find_bound] compares it in full with the truncated copies. *)
Theorem long_path_bound_twice st a b p :
  table_ok st -> UNIX_PATH_MAX <= Z.of_nat (length p) -> a <> b ->
  unix_sock_get st a = Some (sock st a) -> state (sock st a) = US_CREATED ->
  unix_sock_get st b = Some (sock st b) -> state (sock st b) = US_CREATED ->
  exists st1 st2, unix_sock_bind a (Some p) st = (st1, 0) /\ unix_sock_bind b (Some p) st1 = (st2, 0) /\
    is_bound (sock st2 a) = true /\ is_bound (sock st2 b) = true /\
    path (sock st2 a) = path (sock st2 b).
Proof.
  intros Hok Hp Hab Ha Hsa Hb Hsb.
  assert (Hno : forall st', (forall i, sock_wf (sock st' i)) -> find_bound p st' = None).
  { intros st' Hwf. apply find_first_None. intros k _. apply andb_false_iff. right.
    unfold path_is. apply bool_decide_false. intros E. pose proof (sk_path _ (Hwf k)) as Hk.
    rewrite E in Hk. lia. }
  destruct p as [|x p']; [done|]. set (p := x :: p') in *.
  apply unix_sock_get_Some in Ha as (Hai & _ & Hau). apply unix_sock_get_Some in Hb as (Hbi & _ & Hbu).
  set (fb := fun s => set_state US_BOUND (set_path (copy_path p) s)).
  assert (Hstep : forall st' i, Z.of_nat (length (sock_table st')) = MAX_UNIX_SOCKETS ->
    (forall j, sock_wf (sock st' j)) -> sock_index i -> in_use (sock st' i) = true ->
    state (sock st' i) = US_CREATED -> unix_sock_bind i (Some p) st' = (upd i fb st', 0)).
  { intros st' i Hl Hwf Hi Hu Hs. unfold unix_sock_bind, unix_sock_get, sock_index in *.
    destruct (Z.ltb_spec i 0), (Z.leb_spec MAX_UNIX_SOCKETS i); try lia. simpl.
    rewrite Hu, bool_decide_true by done. cbn [negb]. by rewrite Hno. }
  exists (upd a fb st), (upd b fb (upd a fb st)).
  assert (Hl1 : Z.of_nat (length (sock_table (upd a fb st))) = MAX_UNIX_SOCKETS)
    by (unfold upd; cbn [sock_table]; rewrite length_aset; apply Hok).
  assert (Hs1 : forall i, sock (upd a fb st) i = if i =? a then fb (sock st a) else sock st i)
    by (intros; apply sock_upd; [apply Hok|done]).
  assert (Hba : (b =? a) = false) by (apply Z.eqb_neq; congruence).
  assert (Hab' : (a =? b) = false) by (by apply Z.eqb_neq).
  split; [by apply Hstep; try apply Hok|]. split.
  - apply Hstep; try done; rewrite ?Hs1, ?Hba; try done.
    intros j. rewrite Hs1. destruct (j =? a); [|apply Hok].
    destruct (to_wf _ Hok a). split; try done. apply copy_path_length.
  - assert (Hs2 : forall i, sock (upd b fb (upd a fb st)) i =
      if i =? b then fb (sock (upd a fb st) b) else sock (upd a fb st) i) by (intros; by apply sock_upd).
    rewrite !Hs2, Hab', Z.eqb_refl, !Hs1, Z.eqb_refl, Hba.
    unfold is_bound. cbn. by rewrite Hau, Hbu.
Qed.
(** [unix_sock_accept] trusts the slot number recorded when the client
    connected: whatever socket occupies that slot by then, in any state and of
    any owner, is made the peer of the new connection. *)
Theorem accept_pairs_any_socket st v n e :
  table_ok st -> sock_index v -> in_use (sock st v) = true -> state (sock st v) = US_LISTENING ->
  backlog_count (sock st v) = 1 -> first_pending (sock st v) = e ->
  client_sock_id e <> v -> in_use (sock st (client_sock_id e)) = true ->
  slot (fun s => negb (in_use s)) st = Some n ->
  exists st', unix_sock_accept v st = (st', Ret n) /\
    state (sock st' (client_sock_id e)) = US_CONNECTED /\ peer_id (sock st' (client_sock_id e)) = n /\
    peer_id (sock st' n) = client_sock_id e /\
    owner_pid (sock st' (client_sock_id e)) = owner_pid (sock st (client_sock_id e)).
Proof.
  intros H1 H2 H3 H4 H5 H6 H7 H8 H9.
  destruct (unix_sock_accept_cases st v n e H1 H2 H3 H4 H5 H6 H7 H8 H9)
    as (st' & A1 & _ & A3 & A4 & _ & _).
  exists st'. rewrite A3, A4. done.
Qed.
End properties.

(** ** Witnesses: processes reduced to the number of the running one *)
Definition demo_procs : ProcOps Z :=
  {| proc_get_current_pid := fun pid => pid; proc_block := fun _ pid => pid;
     proc_unblock := fun _ pid => pid |}.
#[local] Existing Instance demo_procs.

Definition demo_path : list Z := [47; 115].
Definition demo_init : sys Z := unix_sock_init (mkSys [] 1).
(** Socket 0 listens, socket 1 is fresh. *)
Definition demo_listen : sys Z :=
  let st := fst (unix_sock_create SOCK_STREAM demo_init) in
  let st := fst (unix_sock_create SOCK_STREAM st) in
  let st := fst (unix_sock_bind 0 (Some demo_path) st) in
  fst (unix_sock_listen 0 5 st).
(** Sockets 1 and 2 are connected. *)
Definition demo_pending : sys Z := fst (unix_sock_connect 1 demo_path demo_listen).
Definition demo_pair : sys Z := fst (unix_sock_accept 0 demo_pending).
(** The client went away while pending and another process took its slot. *)
Definition demo_stale : sys Z :=
  fst (unix_sock_create SOCK_STREAM (on_procs (fun _ => 7) (unix_sock_destroy 1 demo_pending))).

Lemma demo_listen_ok : table_ok demo_listen.
Proof.
  unfold demo_listen. apply unix_sock_listen_ok, unix_sock_bind_ok.
  - by apply unix_sock_create_ok, unix_sock_create_ok, unix_sock_init_ok.
  - intros l [= <-]. done.
Qed.
Lemma demo_pending_ok : table_ok demo_pending.
Proof. apply unix_sock_connect_ok, demo_listen_ok. Qed.
Lemma demo_pair_ok : table_ok demo_pair.
Proof. apply unix_sock_accept_ok, demo_pending_ok. Qed.
Lemma demo_stale_ok : table_ok demo_stale.
Proof. apply unix_sock_create_ok, table_ok_procs, unix_sock_destroy_ok, demo_pending_ok. Qed.


Lemma socket_stream_fifo_witness :
  let n := Z.min 3 (UNIX_BUF_SIZE - 0) in
  let stream := inbox demo_pair 1 ++ take (Z.to_nat n) [10; 20; 30] in
  exists st1 st2,
    unix_sock_write 2 [10; 20; 30] demo_pair = Some (st1, if n =? 3 then Done n else Full n) /\
    inbox st1 1 = stream /\
    unix_sock_read 1 2 st1 =
      (st2, Ret (Z.of_nat (length (take (Z.to_nat 2) stream)), take (Z.to_nat 2) stream)) /\
    inbox st2 1 = drop (Z.to_nat 2) stream /\ forall i, i <> 1 -> sock st2 i = sock demo_pair i.
Proof.
  apply (socket_stream_fifo demo_pair 2 [10; 20; 30] 2 (sock demo_pair 2) (sock demo_pair 1) demo_pair_ok);
    vm_compute; intuition congruence.
Defined.

Lemma connect_accept_pairs_witness :
  exists st2, unix_sock_accept 0 (on_procs (fun p => p) demo_pending) = (st2, Ret 2) /\ table_ok st2 /\
    state (sock st2 1) = US_CONNECTED /\ peer_id (sock st2 1) = 2 /\
    state (sock st2 2) = US_CONNECTED /\ peer_id (sock st2 2) = 1 /\ inbox st2 2 = [] /\
    path (sock st2 2) = demo_path /\
    unix_sock_connect_resume 1 st2 = 0 /\
    state (sock st2 0) = US_LISTENING /\ backlog_count (sock st2 0) = 0 /\
    forall i, i <> 2 -> i <> 1 -> i <> 0 -> sock st2 i = sock demo_listen i.
Proof.
  apply (connect_accept_pairs demo_listen 1 demo_path (sock demo_listen 1) 0 demo_pending (fun p => p) 2
    demo_listen_ok).
  - by vm_compute.
  - left. by vm_compute.
  - by vm_compute.
  - by vm_compute.
  - by vm_compute.
  - lia.
  - by vm_compute.
  - by vm_compute.
Defined.

Definition demo_long : list Z := replicate 200 97.
Definition demo_two : sys Z :=
  fst (unix_sock_create SOCK_DGRAM (fst (unix_sock_create SOCK_DGRAM demo_init))).
Lemma demo_two_ok : table_ok demo_two.
Proof. by apply unix_sock_create_ok, unix_sock_create_ok, unix_sock_init_ok. Qed.

Lemma long_path_bound_twice_witness :
  exists st1 st2, unix_sock_bind 0 (Some demo_long) demo_two = (st1, 0) /\
    unix_sock_bind 1 (Some demo_long) st1 = (st2, 0) /\
    is_bound (sock st2 0) = true /\ is_bound (sock st2 1) = true /\
    path (sock st2 0) = path (sock st2 1).
Proof.
  apply (long_path_bound_twice demo_two 0 1 demo_long demo_two_ok).
  - by vm_compute.
  - lia.
  - by vm_compute.
  - by vm_compute.
  - by vm_compute.
  - by vm_compute.
Defined.

Lemma accept_pairs_any_socket_witness :
  owner_pid (sock demo_stale 1) = 7 /\
  exists st', unix_sock_accept 0 demo_stale = (st', Ret 2) /\
    state (sock st' 1) = US_CONNECTED /\ peer_id (sock st' 1) = 2 /\
    peer_id (sock st' 2) = 1 /\ owner_pid (sock st' 1) = owner_pid (sock demo_stale 1).
Proof.
  split; [by vm_compute|].
  apply (accept_pairs_any_socket demo_stale 0 2 (mkPending 1 1 false (-1)) demo_stale_ok).
  - done.
  - by vm_compute.
  - by vm_compute.
  - by vm_compute.
  - by vm_compute.
  - cbn. lia.
  - by vm_compute.
  - by vm_compute.
Defined.
