(* ===== verification/Keyboard.v ===== *)
(** * Keyboards (src/kernel/drivers/input/keyboard/ps2.c, drivers/usb/xhci/hid_keyboard.c)

    The PS/2 keyboard: the interrupt handler from the scan code it reads to the
    ring of characters.  The USB keyboard: the search of the configuration
    descriptor, the set-up of a device, and the reports.

    The USB transfers are those of xhci.c: an interface here.  The bytes of a
    descriptor are a list; a byte behind its end has no value ([None]). *)

From S2P Require Import Prelude Bytes.
#[local] Open Scope Z_scope.

(** ** PS/2 *)

Definition KEY_LSHIFT : Z := 0x2A.
Definition KEY_RSHIFT : Z := 0x36.
Definition KEY_LCTRL : Z := 0x1D.
Definition KEY_LALT : Z := 0x38.
Definition KEY_CAPSLOCK : Z := 0x3A.
Definition KEYBOARD_BUFFER_SIZE : Z := 256.

(** The tables go on with zeros to their 128 entries. *)
Definition scancode_lowercase : list Z :=
  [0; 27; 49; 50; 51; 52; 53; 54; 55; 56; 57; 48; 45; 61; 8; 9; 113; 119; 101; 114; 116; 121; 117; 105; 111; 112; 91; 93; 10;
   0; 97; 115; 100; 102; 103; 104; 106; 107; 108; 59; 39; 96; 0; 92; 122; 120; 99; 118; 98; 110; 109; 44; 46; 47; 0; 42; 0; 32;
   0; 0; 0; 0; 0; 0; 0; 0; 0; 0; 0; 0; 0; 0; 0; 0; 45; 0; 0; 0; 43].
Definition scancode_uppercase : list Z :=
  [0; 27; 33; 64; 35; 36; 37; 94; 38; 42; 40; 41; 95; 43; 8; 9; 81; 87; 69; 82; 84; 89; 85; 73; 79; 80; 123; 125; 10;
   0; 65; 83; 68; 70; 71; 72; 74; 75; 76; 58; 34; 126; 0; 124; 90; 88; 67; 86; 66; 78; 77; 60; 62; 63; 0; 42; 0; 32;
   0; 0; 0; 0; 0; 0; 0; 0; 0; 0; 0; 0; 0; 0; 0; 0; 45; 0; 0; 0; 43].

Record ps2_keyboard := mkPs2 {
  shift_pressed : bool; ctrl_pressed : bool; alt_pressed : bool; capslock_on : bool;
  keyboard_buffer : list Z; buffer_write_pos : Z; buffer_read_pos : Z
}.
Definition set_keys (sh ct al ca : bool) (k : ps2_keyboard) : ps2_keyboard :=
  mkPs2 sh ct al ca (keyboard_buffer k) (buffer_write_pos k) (buffer_read_pos k).

Definition ps2_keyboard_init (k : ps2_keyboard) : ps2_keyboard := mkPs2 false false false false (keyboard_buffer k) 0 0.

Definition keyboard_buffer_push (c : Z) (k : ps2_keyboard) : ps2_keyboard :=
  let next_pos := (buffer_write_pos k + 1) mod KEYBOARD_BUFFER_SIZE in
  if negb (next_pos =? buffer_read_pos k) then
    mkPs2 (shift_pressed k) (ctrl_pressed k) (alt_pressed k) (capslock_on k)
      (aset (keyboard_buffer k) (buffer_write_pos k) c) next_pos (buffer_read_pos k)
  else k.
(** 0: the buffer is empty. *)
Definition ps2_keyboard_getchar (k : ps2_keyboard) : ps2_keyboard * Z :=
  if buffer_read_pos k =? buffer_write_pos k then (k, 0)
  else
    (mkPs2 (shift_pressed k) (ctrl_pressed k) (alt_pressed k) (capslock_on k) (keyboard_buffer k) (buffer_write_pos k)
       ((buffer_read_pos k + 1) mod KEYBOARD_BUFFER_SIZE),
     aget 0 (keyboard_buffer k) (buffer_read_pos k)).
Definition ps2_keyboard_has_input (k : ps2_keyboard) : bool := negb (buffer_read_pos k =? buffer_write_pos k).

(** The handler, for the byte read from the data port: the new state, and the
    character the callback is called with. *)
Definition keyboard_irq_handler (data : Z) (k : ps2_keyboard) : ps2_keyboard * option Z :=
  let key_released := negb (Z.land data 0x80 =? 0) in
  let scancode := Z.land data 0x7F in
  if (scancode =? KEY_LSHIFT) || (scancode =? KEY_RSHIFT) then
    (set_keys (negb key_released) (ctrl_pressed k) (alt_pressed k) (capslock_on k) k, None)
  else if scancode =? KEY_LCTRL then
    (set_keys (shift_pressed k) (negb key_released) (alt_pressed k) (capslock_on k) k, None)
  else if scancode =? KEY_LALT then
    (set_keys (shift_pressed k) (ctrl_pressed k) (negb key_released) (capslock_on k) k, None)
  else if (scancode =? KEY_CAPSLOCK) && negb key_released then
    (set_keys (shift_pressed k) (ctrl_pressed k) (alt_pressed k) (negb (capslock_on k)) k, None)
  else if key_released then (k, None)
  else
    let uppercase := xorb (shift_pressed k) (capslock_on k) in
    let c := aget 0 (if uppercase then scancode_uppercase else scancode_lowercase) scancode in
    if c =? 0 then (k, None) else (keyboard_buffer_push c k, Some c).

(** ** USB: the configuration descriptor *)

Definition USB_DESC_TYPE_INTERFACE : Z := 4.
Definition USB_DESC_TYPE_ENDPOINT : Z := 5.
Definition USB_CLASS_HID : Z := 3.
Definition USB_HID_PROTOCOL_KEYBOARD : Z := 1.

Record endpoint := mkEndpoint { iface_num : Z; ep_addr : Z; ep_attrs : Z; ep_max_pkt : Z; ep_interval : Z }.

Section descriptor.
Context (buf : list Z).
Definition rd (i : Z) : option Z := if 0 <=? i then buf !! Z.to_nat i else None.
Definition rd16 (i : Z) : option Z := a ← rd i; b ← rd (i + 1); Some (a + 2 ^ 8 * b).

(** One descriptor at [p]: an endpoint found, or the state after it. *)
Definition scan_descriptor (p bLength bType : Z) (in_kbd : bool) (current : Z) : option (endpoint + bool * Z) :=
  if bType =? USB_DESC_TYPE_INTERFACE then
    if bLength <? 9 then Some (inr (in_kbd, current))
    else
      cls ← rd (p + 5); proto ← rd (p + 7); num ← rd (p + 2);
      Some (inr ((cls =? USB_CLASS_HID) && (proto =? USB_HID_PROTOCOL_KEYBOARD), num))
  else if bType =? USB_DESC_TYPE_ENDPOINT then
    if negb in_kbd then Some (inr (in_kbd, current))
    else if bLength <? 7 then Some (inr (in_kbd, current))
    else
      addr ← rd (p + 2); attrs ← rd (p + 3); pkt ← rd16 (p + 4); interval ← rd (p + 6);
      if negb (Z.land addr 0x80 =? 0) && (Z.land attrs 0x03 =? 3) && (pkt <=? 8) then
        Some (inl (mkEndpoint current addr attrs pkt interval))
      else Some (inr (in_kbd, current))
  else Some (inr (in_kbd, current)).

(** The outer option is a read behind the end, or fuel that ran out. *)
Fixpoint find_loop (fuel : nat) (p end_ : Z) (in_kbd : bool) (current : Z) : option (option endpoint) :=
  match fuel with
  | O => None
  | S fuel' =>
      if p <? end_ then
        if end_ <? p + 2 then Some None
        else
          bLength ← rd p; bType ← rd (p + 1);
          if (bLength =? 0) || (end_ <? p + bLength) then Some None
          else
            r ← scan_descriptor p bLength bType in_kbd current;
            match r with
            | inl ep => Some (Some ep)
            | inr (in_kbd', current') => find_loop fuel' (p + bLength) end_ in_kbd' current'
            end
      else Some None
  end.
(** The configuration value, and the endpoint if there is one. *)
Definition _find_hid_keyboard_interface (total_len : Z) : option (Z * option endpoint) :=
  config_val ← rd 5;
  ep ← find_loop (S (Z.to_nat total_len)) 0 total_len false 0;
  Some (config_val, ep).
End descriptor.

(** ** USB: reports *)

Definition HID_SPECIAL_KEY_NONE : Z := 0.
Definition HID_KEY_NONE : Z := 0.
Definition HID_KEY_ERR_ROLLOVER : Z := 1.
Definition HID_KEY_CAPS_LOCK : Z := 0x39.
Definition HID_MOD_SHIFT : Z := Z.lor 2 32.
Definition HID_MOD_CTRL : Z := Z.lor 1 16.

Definition _keymap_normal : list Z :=
  [0; 0; 0; 0; 97; 98; 99; 100; 101; 102; 103; 104; 105; 106; 107; 108; 109; 110; 111; 112; 113; 114; 115; 116; 117; 118; 119; 120;
   121; 122; 49; 50; 51; 52; 53; 54; 55; 56; 57; 48; 10; 27; 8; 9; 32; 45; 61; 91; 93; 92; 0; 59; 39; 96; 44; 46; 47].
Definition _keymap_shifted : list Z :=
  [0; 0; 0; 0; 65; 66; 67; 68; 69; 70; 71; 72; 73; 74; 75; 76; 77; 78; 79; 80; 81; 82; 83; 84; 85; 86; 87; 88;
   89; 90; 33; 64; 35; 36; 37; 94; 38; 42; 40; 41; 10; 27; 8; 9; 32; 95; 43; 123; 125; 124; 0; 58; 34; 126; 60; 62; 63].

(** The [switch] for keys outside the table of characters. *)
Definition special_key (keycode : Z) : Z :=
  if (0x3A <=? keycode) && (keycode <=? 0x45) then 0x100 + (keycode - 0x3A)
  else
    match keycode with
    | 0x52 => 0x200 | 0x51 => 0x201 | 0x50 => 0x202 | 0x4F => 0x203
    | 0x4A => 0x204 | 0x4D => 0x205 | 0x4B => 0x206 | 0x4E => 0x207
    | 0x49 => 0x208 | 0x4C => 0x7F | 0x39 => 0x300
    | 0x54 => 47 | 0x55 => 42 | 0x56 => 45 | 0x57 => 43 | 0x58 => 13 | 0x63 => 46
    | _ =>
        if (0x59 <=? keycode) && (keycode <=? 0x59 + 8) then 49 + (keycode - 0x59)
        else if keycode =? 0x62 then 48
        else HID_SPECIAL_KEY_NONE
    end.
Definition _keycode_to_char (keycode modifiers : Z) (caps_lock : bool) : Z :=
  let shift := negb (Z.land modifiers HID_MOD_SHIFT =? 0) in
  let is_alpha := (4 <=? keycode) && (keycode <=? 0x1D) in
  let upper := xorb shift (caps_lock && is_alpha) in
  let ctrl := negb (Z.land modifiers HID_MOD_CTRL =? 0) in
  let c := if keycode <? 128 then aget 0 (if upper then _keymap_shifted else _keymap_normal) keycode else 0 in
  if c =? 0 then special_key keycode
  else if ctrl && (97 <=? c) && (c <=? 122) then c - 97 + 1
  else if ctrl && (65 <=? c) && (c <=? 90) then c - 65 + 1
  else c.

Record report := mkReport { modifiers : Z; keycodes : list Z }.
Definition _keycode_in_report (r : report) (code : Z) : bool := existsb (fun k => k =? code) (take 6 (keycodes r)).

(** The device: [queued] is whether a transfer waits for the next report. *)
Record hid_keyboard := mkHid { prev_report : report; hid_modifiers : Z; caps_lock_active : bool; queued : bool }.

(** The loop over the key codes of a report: the first new key that means
    something; a key that means nothing leaves [NONE]. *)
Fixpoint new_key (codes : list Z) (prev : report) (mods : Z) (caps : bool) : Z :=
  match codes with
  | [] => HID_SPECIAL_KEY_NONE
  | code :: codes' =>
      if code =? HID_KEY_NONE then new_key codes' prev mods caps
      else if _keycode_in_report prev code then new_key codes' prev mods caps
      else
        let result := _keycode_to_char code mods caps in
        if result =? HID_SPECIAL_KEY_NONE then new_key codes' prev mods caps else result
  end.

(** [hid_keyboard_read_key] of an active keyboard: each element of [waits] is one
    call of [xhci_wait_transfer] of 100 ms, with the report that the keyboard has
    by then.  Without a queued transfer a wait ends without one.  [None]: no key
    yet after these waits. *)
Fixpoint hid_keyboard_read_key (waits : list (option report)) (kbd : hid_keyboard) : option (hid_keyboard * Z) :=
  match waits with
  | [] => None
  | w :: waits' =>
      match (if queued kbd then w else None) with
      | None => hid_keyboard_read_key waits' kbd
      | Some r =>
          if aget 0 (keycodes r) 0 =? HID_KEY_ERR_ROLLOVER then
            hid_keyboard_read_key waits' (mkHid (prev_report kbd) (hid_modifiers kbd) (caps_lock_active kbd) false)
          else
            let caps := if _keycode_in_report r HID_KEY_CAPS_LOCK && negb (_keycode_in_report (prev_report kbd) HID_KEY_CAPS_LOCK)
                        then negb (caps_lock_active kbd) else caps_lock_active kbd in
            let result := new_key (take 6 (keycodes r)) (prev_report kbd) (modifiers r) caps in
            let kbd' := mkHid r (modifiers r) caps true in
            if result =? HID_SPECIAL_KEY_NONE then hid_keyboard_read_key waits' kbd' else Some (kbd', result)
      end
  end.

(** ** USB: setting a keyboard up *)

Record usb_setup_packet := mkSetup { bmRequestType : Z; bRequest : Z; wValue : Z; wIndex : Z; wLength : Z }.

(** What the keyboard driver uses of xhci.c and of its memory: the state [X] has
    the controller and the devices, and a device is a number. *)
Class UsbOps (X : Type) := {
  xhci_control_transfer : Z -> usb_setup_packet -> list Z -> X -> X * option (list Z);
  xhci_configure_endpoint : Z -> endpoint -> X -> X * bool;
  xhci_queue_transfer : Z -> Z -> Z -> X -> X * bool;
  alloc_xhci_memory : Z -> X -> X * bool;
  device_class : Z -> X -> Z
}.

Definition HID_MAX_KEYBOARDS : Z := 4.
Definition USB_REQ_GET_DESCRIPTOR : Z := 6.
Definition USB_REQ_SET_CONFIGURATION : Z := 9.
Definition USB_HID_REQ_SET_REPORT : Z := 9.
Definition USB_HID_REQ_SET_IDLE : Z := 0x0A.
Definition USB_HID_REQ_SET_PROTOCOL : Z := 0x0B.
Definition USB_HID_REQTYPE_OUT : Z := Z.lor 0x20 0x01.

Record hid_keyboard_device := mkHidDevice {
  active : bool; hid_dev : Z; intr_ep : endpoint; config_value : Z; reports : hid_keyboard; hid_error : bool
}.
Definition no_device : hid_keyboard_device :=
  mkHidDevice false 0 (mkEndpoint 0 0 0 0 0) 0 (mkHid (mkReport 0 [0; 0; 0; 0; 0; 0]) 0 false false) false.
Record hid_driver := mkHidDriver { m_keyboards : list hid_keyboard_device; m_keyboard_count : Z; m_active_kbd_idx : Z }.
Definition hid_keyboard_init (h : hid_driver) : hid_driver :=
  mkHidDriver (replicate (Z.to_nat HID_MAX_KEYBOARDS) no_device) 0 (m_active_kbd_idx h).

Section probe.
Context {X : Type} `{!UsbOps X}.

(** A transfer without data. *)
Definition no_data (dev : Z) (s : usb_setup_packet) (x : X) : X * bool :=
  let '(x', r) := xhci_control_transfer dev s [] x in (x', match r with Some _ => true | None => false end).
Definition _set_configuration (dev config_val : Z) : X -> X * bool := no_data dev (mkSetup 0 USB_REQ_SET_CONFIGURATION config_val 0 0).
Definition _set_protocol (dev iface protocol : Z) : X -> X * bool :=
  no_data dev (mkSetup USB_HID_REQTYPE_OUT USB_HID_REQ_SET_PROTOCOL protocol iface 0).
Definition _set_idle (dev iface duration report_id : Z) : X -> X * bool :=
  no_data dev (mkSetup USB_HID_REQTYPE_OUT USB_HID_REQ_SET_IDLE (u16 (Z.lor (Z.shiftl duration 8) report_id)) iface 0).
Definition _set_leds_raw (dev iface leds : Z) (x : X) : X * bool :=
  let '(x1, ok) := alloc_xhci_memory 4 x in
  if negb ok then (x1, false)
  else
    let '(x2, r) := xhci_control_transfer dev (mkSetup USB_HID_REQTYPE_OUT USB_HID_REQ_SET_REPORT (Z.shiftl 2 8) iface 1) [leds] x1 in
    (x2, match r with Some _ => true | None => false end).

(** The bytes a transfer brings are those the buffer, cleared before, has then. *)
Definition _read_full_config_descriptor (dev : Z) (x : X) : X * option (list Z) :=
  let get len := mkSetup 0x80 USB_REQ_GET_DESCRIPTOR (Z.shiftl 2 8) 0 len in
  let '(x1, ok) := alloc_xhci_memory 16 x in
  if negb ok then (x1, None)
  else
    let '(x2, hdr) := xhci_control_transfer dev (get 9) [] x1 in
    match hdr with
    | None => (x2, None)
    | Some hdr =>
        let total_len := get16 hdr 2 in
        if (total_len <? 9) || (4096 <? total_len) then (x2, None)
        else
          let '(x3, ok) := alloc_xhci_memory (u16 (Z.land (total_len + 63) (u32 (Z.lnot 63)))) x2 in
          if negb ok then (x3, None)
          else
            let '(x4, full) := xhci_control_transfer dev (get total_len) [] x3 in
            (x4, match full with Some bytes => Some (take (Z.to_nat total_len) (bytes ++ zeros total_len)) | None => None end)
    end.

(** The set-up of the endpoint that was found. *)
Definition attach (dev config_val : Z) (ep : endpoint) (h : hid_driver) (x : X) : X * hid_driver :=
  let '(x1, _) := _set_protocol dev (iface_num ep) 0 x in
  let '(x2, _) := _set_idle dev (iface_num ep) 0 0 x1 in
  let '(x3, ok) := xhci_configure_endpoint dev ep x2 in
  if negb ok then (x3, h)
  else
    let '(x4, ok) := alloc_xhci_memory (ep_max_pkt ep) x3 in
    if negb ok then (x4, h)
    else
      let kbd := mkHidDevice true dev ep config_val (mkHid (mkReport 0 [0; 0; 0; 0; 0; 0]) 0 false true) false in
      let slots := aset (m_keyboards h) (m_keyboard_count h) kbd in
      let '(x5, ok) := xhci_queue_transfer dev (ep_addr ep) (ep_max_pkt ep) x4 in
      (x5, mkHidDriver slots (if ok then m_keyboard_count h + 1 else m_keyboard_count h) (m_active_kbd_idx h)).

(** The outer option is that of the search. *)
Definition _probe (dev : Z) (h : hid_driver) (x : X) : option (X * hid_driver) :=
  if HID_MAX_KEYBOARDS <=? m_keyboard_count h then Some (x, h)
  else if negb (device_class dev x =? USB_CLASS_HID) && negb (device_class dev x =? 0) then Some (x, h)
  else
    let '(x1, cfg) := _read_full_config_descriptor dev x in
    match cfg with
    | None => Some (x1, h)
    | Some cfg =>
        let '(x2, ok) := _set_configuration dev (aget 0 cfg 5) x1 in
        if negb ok then Some (x2, h)
        else
          '(config_val, found) ← _find_hid_keyboard_interface cfg (Z.of_nat (length cfg));
          match found with
          | None => Some (x2, h)
          | Some ep => Some (attach dev config_val ep h x2)
          end
    end.
End probe.

Definition hid_keyboard_key_available (completed : bool) (h : hid_driver) : bool :=
  if m_keyboard_count h =? 0 then false
  else let kbd := aget no_device (m_keyboards h) (m_active_kbd_idx h) in active kbd && completed.
Definition hid_keyboard_has_error (h : hid_driver) : bool :=
  if m_keyboard_count h =? 0 then false else hid_error (aget no_device (m_keyboards h) (m_active_kbd_idx h)).

(** ** The PS/2 ring is a queue *)

Record ring_ok (k : ps2_keyboard) : Prop := {
  ring_len : length (keyboard_buffer k) = Z.to_nat KEYBOARD_BUFFER_SIZE;
  ring_w : 0 <= buffer_write_pos k < KEYBOARD_BUFFER_SIZE;
  ring_r : 0 <= buffer_read_pos k < KEYBOARD_BUFFER_SIZE
}.
Definition ring_count (k : ps2_keyboard) : Z := (buffer_write_pos k - buffer_read_pos k) mod KEYBOARD_BUFFER_SIZE.
(** The characters in it, the oldest first. *)
Definition ring_chars (k : ps2_keyboard) : list Z :=
  map (fun i => aget 0 (keyboard_buffer k) ((buffer_read_pos k + Z.of_nat i) mod KEYBOARD_BUFFER_SIZE)) (seq 0 (Z.to_nat (ring_count k))).

Lemma ring_full w r : 0 <= w < 256 -> 0 <= r < 256 -> (w + 1) mod 256 = r -> (w - r) mod 256 = 255.
Proof. intros Hw Hr E. assert (r = w + 1 /\ w < 255 \/ r = 0 /\ w = 255) as [[-> ?]|[-> ->]] by zdiv_lia; [|done]. replace (w - (w + 1)) with (-1) by lia. done. Qed.
Lemma ring_room w r : 0 <= w < 256 -> 0 <= r < 256 -> (w + 1) mod 256 <> r ->
  (w - r) mod 256 < 255 /\ ((w + 1) mod 256 - r) mod 256 = (w - r) mod 256 + 1.
Proof.
  intros Hw Hr E. destruct (decide (r <= w)).
  - rewrite (Z.mod_small (w - r)) by lia. destruct (decide (w = 255)) as [->|].
    + change ((255 + 1) mod 256) with 0 in *. replace (0 - r) with (256 - r + (-1) * 256) by lia. rewrite Z.mod_add, Z.mod_small; lia.
    + rewrite (Z.mod_small (w + 1)) in * by lia. rewrite Z.mod_small; lia.
  - rewrite (Z.mod_small (w + 1)) in * by lia. replace (w - r) with (w - r + 256 + (-1) * 256) by lia.
    replace (w + 1 - r) with (w + 1 - r + 256 + (-1) * 256) by lia. rewrite !Z.mod_add, !Z.mod_small; lia.
Qed.

Lemma ring_push c k : ring_ok k ->
  ring_ok (keyboard_buffer_push c k) /\
  ring_chars (keyboard_buffer_push c k) = if ring_count k <? KEYBOARD_BUFFER_SIZE - 1 then ring_chars k ++ [c] else ring_chars k.
Proof.
  unfold KEYBOARD_BUFFER_SIZE. intros [Hl Hw Hr]. unfold keyboard_buffer_push, ring_count, ring_chars, KEYBOARD_BUFFER_SIZE in *.
  set (w := buffer_write_pos k) in *. set (r := buffer_read_pos k) in *.
  destruct (Z.eqb_spec ((w + 1) mod 256) r) as [E|E]; cbn [negb].
  - rewrite (ring_full w r) by done. split; [by split|done].
  - destruct (ring_room w r Hw Hr E) as [Hc Hc2]. destruct (Z.ltb_spec ((w - r) mod 256) (256 - 1)); [|lia].
    cbn [buffer_write_pos buffer_read_pos keyboard_buffer]. unfold ring_count. fold w r. cbn [buffer_write_pos buffer_read_pos].
    split; [split; cbn; unfold KEYBOARD_BUFFER_SIZE; rewrite ?length_aset; done || zdiv_lia|].
    unfold KEYBOARD_BUFFER_SIZE. rewrite Hc2.
    replace (Z.to_nat ((w - r) mod 256 + 1)) with (Z.to_nat ((w - r) mod 256) + 1)%nat by zdiv_lia. rewrite seq_app, map_app. f_equal.
    + apply map_ext_in. intros i Hi%in_seq. pose proof (Z.mod_pos_bound (w - r) 256 ltac:(lia)).
      assert (Z.of_nat i < (w - r) mod 256) as Hi2 by lia. clear Hi. apply aget_aset_ne; [|lia]. zdiv_lia.
    + cbn [seq map Nat.add]. f_equal. replace ((r + Z.of_nat (Z.to_nat ((w - r) mod 256))) mod 256) with w by zdiv_lia. apply aget_aset_eq. lia.
Qed.

Lemma ring_getchar k : ring_ok k ->
  match ring_chars k with
  | [] => ps2_keyboard_getchar k = (k, 0)
  | c :: cs => (ps2_keyboard_getchar k).2 = c /\ ring_ok (ps2_keyboard_getchar k).1 /\ ring_chars (ps2_keyboard_getchar k).1 = cs
  end.
Proof.
  unfold KEYBOARD_BUFFER_SIZE. intros [Hl Hw Hr]. unfold ps2_keyboard_getchar, ring_count, ring_chars, KEYBOARD_BUFFER_SIZE in *.
  unfold ring_count, KEYBOARD_BUFFER_SIZE. set (w := buffer_write_pos k) in *. set (r := buffer_read_pos k) in *.
  destruct (Z.eqb_spec r w) as [E|E].
  - rewrite <- E, Z.sub_diag. done.
  - destruct (Z.to_nat ((w - r) mod 256)) as [|n] eqn:En; [zdiv_lia|]. cbn [seq map fst snd buffer_write_pos buffer_read_pos keyboard_buffer]. fold w.
    split; [f_equal; zdiv_lia|]. split; [split; cbn; unfold KEYBOARD_BUFFER_SIZE; done || zdiv_lia|].
    replace (Z.to_nat ((w - (r + 1) mod 256) mod 256)) with n by zdiv_lia. rewrite <- seq_shift, map_map. apply map_ext. intros i. f_equal. zdiv_lia.
Qed.

(** ** The search of the descriptor *)

Lemma rd_in buf i : 0 <= i < Z.of_nat (length buf) -> exists b, rd buf i = Some b /\ b = aget 0 buf i.
Proof.
  intros Hi. unfold rd, aget. destruct (Z.leb_spec 0 i); [|lia]. destruct (lookup_lt_is_Some_2 buf (Z.to_nat i)) as [b ->]; [lia|]. by exists b.
Qed.

(** The endpoint descriptor an endpoint was read from. *)
Definition endpoint_at (buf : list Z) (total_len p : Z) (ep : endpoint) : Prop :=
  0 <= p /\ p + 7 <= total_len /\ p + aget 0 buf p <= total_len /\ aget 0 buf (p + 1) = USB_DESC_TYPE_ENDPOINT /\
  ep_addr ep = aget 0 buf (p + 2) /\ ep_attrs ep = aget 0 buf (p + 3) /\ ep_max_pkt ep = get16 buf (p + 4) /\
  ep_interval ep = aget 0 buf (p + 6) /\
  Z.land (ep_addr ep) 0x80 <> 0 /\ Z.land (ep_attrs ep) 3 = 3 /\ ep_max_pkt ep <= 8.

Lemma scan_descriptor_spec buf n p in_kbd current bLength :
  0 <= p -> n <= Z.of_nat (length buf) -> bLength = aget 0 buf p -> p + bLength <= n ->
  exists r, scan_descriptor buf p bLength (aget 0 buf (p + 1)) in_kbd current = Some r /\
    forall ep, r = inl ep -> endpoint_at buf n p ep.
Proof.
  intros Hp Hn Hb Hle. unfold scan_descriptor. destruct (_ =? USB_DESC_TYPE_INTERFACE).
  { destruct (Z.ltb_spec bLength 9); [eexists; split; [done|]; done|].
    do 3 (match goal with |- context [rd buf ?i] => destruct (rd_in buf i) as (? & -> & _); [lia|cbn [mbind option_bind]] end).
    eexists. split; [done|]. done. }
  destruct (Z.eqb_spec (aget 0 buf (p + 1)) USB_DESC_TYPE_ENDPOINT) as [Et|]; [|by eexists].
  destruct in_kbd; [|by eexists]. cbn [negb]. destruct (Z.ltb_spec bLength 7); [by eexists|]. unfold rd16.
  do 5 (match goal with |- context [rd buf ?i] => destruct (rd_in buf i) as (? & -> & ->); [lia|cbn [mbind option_bind]] end).
  destruct (_ && _ && _) eqn:E; [|by eexists]. eexists. split; [done|]. intros ep [= <-].
  apply andb_true_iff in E as [[E1%negb_true_iff E2]%andb_true_iff E3]. apply Z.eqb_neq in E1. apply Z.eqb_eq in E2. apply Z.leb_le in E3.
  unfold endpoint_at, get16. cbn. rewrite <- Hb. replace (p + 4 + 1) with (p + 5) in * by lia. split_and!; done || lia.
Qed.

Lemma find_loop_spec buf n fuel : forall p in_kbd current,
  0 <= p <= n -> bytes_ok buf -> n <= Z.of_nat (length buf) -> n - p < Z.of_nat fuel ->
  exists r, find_loop buf fuel p n in_kbd current = Some r /\ forall ep, r = Some ep -> exists q, endpoint_at buf n q ep.
Proof.
  induction fuel as [|fuel IH]; intros p in_kbd current Hp Hok Hn Hf; cbn [find_loop].
  - lia.
  - destruct (Z.ltb_spec p n); [|by exists None]. destruct (Z.ltb_spec n (p + 2)); [by exists None|].
    destruct (rd_in buf p) as (? & -> & ->); [lia|]. cbn [mbind option_bind].
    destruct (rd_in buf (p + 1)) as (? & -> & ->); [lia|]. cbn [mbind option_bind].
    pose proof (aget_bytes buf p Hok). destruct (Z.eqb_spec (aget 0 buf p) 0); [by exists None|].
    destruct (Z.ltb_spec n (p + aget 0 buf p)); [by exists None|]. cbn [orb].
    destruct (scan_descriptor_spec buf n p in_kbd current (aget 0 buf p)) as (r & -> & Hr); [lia|done|done|done|]. cbn [mbind option_bind].
    destruct r as [ep|[in_kbd' current']].
    + exists (Some ep). split; [done|]. intros ? [= <-]. exists p. by apply Hr.
    + apply IH; [lia|done|done|lia].
Qed.

(** C32: the search of a configuration descriptor always ends, whatever lengths
    the device put into it, and never reads behind its end; the endpoint it
    finds is an interrupt endpoint for input of at most 8 bytes, described
    completely inside the descriptor. *)
Theorem hid_descriptor_safe buf total_len :
  bytes_ok buf -> 6 <= total_len <= Z.of_nat (length buf) ->
  exists r, _find_hid_keyboard_interface buf total_len = Some (aget 0 buf 5, r) /\
    forall ep, r = Some ep -> exists p, endpoint_at buf total_len p ep.
Proof.
  intros Hok Hn. unfold _find_hid_keyboard_interface. destruct (rd_in buf 5) as (? & -> & ->); [lia|]. cbn [mbind option_bind].
  destruct (find_loop_spec buf total_len (S (Z.to_nat total_len)) 0 false 0) as (r & -> & Hr); [lia|done|lia|lia|]. by exists r.
Qed.

(** A configuration with a boot keyboard: configuration, interface, HID and
    endpoint descriptors. *)
Definition keyboard_config : list Z :=
  [9; 2; 34; 0; 1; 1; 0; 0xA0; 50; 9; 4; 0; 0; 1; 3; 1; 1; 0; 9; 0x21; 0x11; 1; 0; 1; 0x22; 63; 0; 7; 5; 0x81; 3; 8; 0; 10].
Lemma hid_descriptor_safe_witness :
  exists r, _find_hid_keyboard_interface keyboard_config 34 = Some (aget 0 keyboard_config 5, r) /\
    forall ep, r = Some ep -> exists p, endpoint_at keyboard_config 34 p ep.
Proof. apply (hid_descriptor_safe keyboard_config 34); [repeat constructor; lia|cbn; lia]. Defined.
Lemma keyboard_config_found :
  _find_hid_keyboard_interface keyboard_config 34 = Some (1, Some (mkEndpoint 0 0x81 3 8 10)).
Proof. vm_compute. done. Qed.

(** ** Reports *)

(** After a report with the rollover code no transfer is queued: whatever the
    keyboard sends afterwards, no key is read any more. *)
Lemma no_transfer_no_key waits : forall kbd, queued kbd = false -> hid_keyboard_read_key waits kbd = None.
Proof.
  induction waits as [|w waits IH]; intros kbd Hk; [done|]. cbn [hid_keyboard_read_key]. rewrite Hk. by apply IH.
Qed.
Lemma rollover_ends_input r waits kbd :
  aget 0 (keycodes r) 0 = HID_KEY_ERR_ROLLOVER -> queued kbd = true -> hid_keyboard_read_key (Some r :: waits) kbd = None.
Proof.
  intros Hr Hq. cbn [hid_keyboard_read_key]. rewrite Hq, Hr. cbn [Z.eqb Pos.eqb HID_KEY_ERR_ROLLOVER]. by apply no_transfer_no_key.
Qed.
