(* ===== verification/Console.v ===== *)
(** * The console (src/kernel/console/console.c, console.h, drivers/driverman.c)

    The line being typed, the processes that wait for it, the escape sequences
    of the output, the settings of the terminal; and the loop of driverman.c
    that takes the keys.  The state is that of the console, with its screen, and
    the processes; the processes are an interface.

    A computation without a result is a fault: a write behind the line buffer, a
    pointer that [kmalloc] did not give, the screen without a font.  A [char] is
    its byte. *)

From S2P Require Import Prelude Bytes StateMonad PhysMem Pmm Vmm Display Stdio UnixSocket.
From stdpp Require Import strings.
#[local] Open Scope Z_scope.

Definition CONSOLE_BUFFER_SIZE : Z := 128.
Definition NCCS : Z := 19.
Definition ICRNL : Z := 0x0100.
Definition IXON : Z := 0x0400.
Definition OPOST : Z := 0x0001.
Definition ONLCR : Z := 0x0004.
Definition CS8 : Z := 0x0030.
Definition CREAD : Z := 0x0080.
Definition CLOCAL : Z := 0x0800.
Definition ISIG : Z := 0x0001.
Definition ICANON : Z := 0x0002.
Definition ECHO : Z := 0x0008.
Definition ECHOE : Z := 0x0010.
Definition ECHOK : Z := 0x0020.
Definition IEXTEN : Z := 0x8000.
Definition TCIFLUSH : Z := 0.
Definition TCIOFLUSH : Z := 2.

Record termios := mkTermios { c_iflag : Z; c_oflag : Z; c_cflag : Z; c_lflag : Z; c_line : Z; c_cc : list Z }.
Record winsize := mkWinsize { ws_row : Z; ws_col : Z; ws_xpixel : Z; ws_ypixel : Z }.

(** [InputManager], and a process that waits. *)
Record InputManager := mkInput { buffer : list Z; in_length : Z; capacity : Z }.
Record WaitingProc := mkWaiting { wp_pid : Z; wp_buffer : Z; wp_buf_size : Z; wp_active : bool }.

Record console := mkConsole {
  screen : display;
  input : option InputManager;
  waitingProcesses : list WaitingProc;
  c_current_key : Z;
  c_escape_mode : bool; c_escape_buf : list Z; c_escape_pos : Z;
  c_special_buf : list Z; c_special_buf_pos : Z;
  c_termios : termios; c_winsize : winsize; c_pgrp : Z
}.

Definition initial_termios : termios :=
  mkTermios (Z.lor ICRNL IXON) (Z.lor OPOST ONLCR) (Z.lor (Z.lor CS8 CREAD) CLOCAL)
    (Z.lor (Z.lor (Z.lor (Z.lor (Z.lor ICANON ECHO) ECHOE) ECHOK) ISIG) IEXTEN) 0
    [3; 28; 127; 21; 4; 0; 1; 0; 17; 19; 26; 0; 0; 0; 0; 0; 0; 0; 0].
Definition initial_winsize : winsize := mkWinsize 25 80 0 0.
(** The static variables at the start. *)
Definition initial_console (d : display) : console :=
  mkConsole d None [] 0 false (replicate 26 0) 0 (replicate 26 0) 0 initial_termios initial_winsize 0.

(** What the console needs of the processes beyond [ProcOps]:
    [proc_write_to_user], and a look at memory through a pointer. *)
Class ConsoleProcs (P : Type) := {
  write_to_user : Z -> Z -> list Z -> P -> P * bool;
  load_bytes : P -> Z -> Z -> list Z
}.

Section console.
Context {P : Type} `{!ProcOps P} `{!ConsoleProcs P}.
Abbreviation con := (P * console)%type.

Definition on_procs (f : P -> P) : M con unit := modify (fun '(p, c) => (f p, c)).
Definition on_console (f : console -> console) : M con unit := modify (fun '(p, c) => (p, f c)).
Definition the (A : Type) (f : console -> A) : M con A := gets (fun s => f s.2).
Arguments the {A}.

Definition set_screen (d : display) (c : console) : console :=
  mkConsole d (input c) (waitingProcesses c) (c_current_key c) (c_escape_mode c) (c_escape_buf c) (c_escape_pos c)
    (c_special_buf c) (c_special_buf_pos c) (c_termios c) (c_winsize c) (c_pgrp c).
Definition set_input (i : option InputManager) (c : console) : console :=
  mkConsole (screen c) i (waitingProcesses c) (c_current_key c) (c_escape_mode c) (c_escape_buf c) (c_escape_pos c)
    (c_special_buf c) (c_special_buf_pos c) (c_termios c) (c_winsize c) (c_pgrp c).
Definition set_waiting (w : list WaitingProc) (c : console) : console :=
  mkConsole (screen c) (input c) w (c_current_key c) (c_escape_mode c) (c_escape_buf c) (c_escape_pos c)
    (c_special_buf c) (c_special_buf_pos c) (c_termios c) (c_winsize c) (c_pgrp c).
Definition set_key (k : Z) (c : console) : console :=
  mkConsole (screen c) (input c) (waitingProcesses c) k (c_escape_mode c) (c_escape_buf c) (c_escape_pos c)
    (c_special_buf c) (c_special_buf_pos c) (c_termios c) (c_winsize c) (c_pgrp c).
Definition set_escape (m : bool) (b : list Z) (pos : Z) (c : console) : console :=
  mkConsole (screen c) (input c) (waitingProcesses c) (c_current_key c) m b pos
    (c_special_buf c) (c_special_buf_pos c) (c_termios c) (c_winsize c) (c_pgrp c).
Definition set_special (b : list Z) (pos : Z) (c : console) : console :=
  mkConsole (screen c) (input c) (waitingProcesses c) (c_current_key c) (c_escape_mode c) (c_escape_buf c) (c_escape_pos c)
    b pos (c_termios c) (c_winsize c) (c_pgrp c).
Definition set_settings (t : termios) (w : winsize) (pg : Z) (c : console) : console :=
  mkConsole (screen c) (input c) (waitingProcesses c) (c_current_key c) (c_escape_mode c) (c_escape_buf c) (c_escape_pos c)
    (c_special_buf c) (c_special_buf_pos c) t w pg.

(** ** The screen *)

Definition on_screen (f : display -> option display) : M con unit := fun '(p, c) =>
  match f (screen c) with Some d => Some (tt, (p, set_screen d c)) | None => None end.
Definition c_backspace : M con unit := on_screen tr_backspace.
Definition c_putc (ch : Z) : M con unit := on_screen (fun d => Some (tr_putc ch d)).
Definition draw_cursor : M con unit := c_putc 95.
Definition console_clear_text : M con unit :=
  do* on_screen (fun d => Some (tr_clear d)) in draw_cursor.

Definition rgb (r g b : Z) : Z := Z.lor (Z.lor (Z.shiftl r 16) (Z.shiftl g 8)) b.
(** The [switch] on a number of the sequence: the colours, -1 for none. *)
Definition sgr (val : Z) (fg bg : Z) : Z * Z :=
  match val with
  | 0 => (rgb 255 255 255, rgb 0 0 0)
  | 30 => (rgb 85 85 85, bg) | 31 => (rgb 255 85 85, bg) | 32 => (rgb 85 225 85, bg) | 33 => (rgb 255 255 85, bg)
  | 34 => (rgb 85 85 255, bg) | 35 => (rgb 255 85 255, bg) | 36 => (rgb 85 255 255, bg) | 37 => (rgb 255 255 255, bg)
  | 40 => (fg, rgb 0 0 0) | 41 => (fg, rgb 170 0 0) | 42 => (fg, rgb 0 170 0) | 43 => (fg, rgb 170 85 0)
  | 44 => (fg, rgb 0 0 170) | 45 => (fg, rgb 170 0 170) | 46 => (fg, rgb 0 170 170) | 47 => (fg, rgb 170 170 170)
  | _ => (fg, bg)
  end.
Fixpoint sgr_loop (s : list Z) (val fg bg : Z) : Z * Z :=
  match s with
  | [] => (fg, bg)
  | ch :: s' =>
      if ch =? 0 then (fg, bg)
      else if (48 <=? ch) && (ch <=? 57) then sgr_loop s' (int32 (int32 (val * 10) + (ch - 48))) fg bg
      else if (ch =? 59) || (ch =? 109) then let '(fg', bg') := sgr val fg bg in sgr_loop s' 0 fg' bg'
      else sgr_loop s' val fg bg
  end.

(** The colours of the console are never changed: white on black. *)
Definition fg_color : Z := 0xFFFFFF.
Definition bg_color : Z := 0.
Definition end_escape : M con unit := on_console (fun c => set_escape false (c_escape_buf c) 0 c).
Definition handle_escape_sequence : M con unit :=
  do* on_console (fun c => set_escape (c_escape_mode c) (aset (c_escape_buf c) (c_escape_pos c) 0) (c_escape_pos c) c) in
  let* buf := the c_escape_buf in
  let* pos := the c_escape_pos in
  if (2 <=? pos) && (aget 0 buf 0 =? 91) && (pos =? 3) && (aget 0 buf 1 =? 50) && (aget 0 buf 2 =? 74) then
    do* console_clear_text in end_escape
  else
    let '(fg, bg) := if (2 <=? pos) && (aget 0 buf (pos - 1) =? 109) then sgr_loop buf 0 (-1) (-1) else (-1, -1) in
    do* (if negb (fg =? -1) || negb (bg =? -1) then
           on_screen (fun d => Some (tr_set_color (if fg =? -1 then fg_color else fg) (if bg =? -1 then bg_color else bg) d))
         else ret tt) in
    end_escape.

Definition is_letter (ch : Z) : bool := ((65 <=? ch) && (ch <=? 90)) || ((97 <=? ch) && (ch <=? 122)).
Definition console_putc (ch : Z) : M con unit :=
  let* esc := the c_escape_mode in
  if (esc : bool) then
    do* on_console (fun c =>
      if c_escape_pos c <? 15 then set_escape true (aset (c_escape_buf c) (c_escape_pos c) ch) (c_escape_pos c + 1) c else c) in
    if is_letter ch then handle_escape_sequence else ret tt
  else if ch =? 27 then on_console (fun c => set_escape true (c_escape_buf c) 0 c)
  else do* c_backspace in do* c_putc ch in draw_cursor.
(** Writing a string, a character at a time. *)
Fixpoint console_write (s : list Z) : M con unit :=
  match s with [] => ret tt | ch :: s' => do* console_putc ch in console_write s' end.

(** ** The line *)

(** The two allocations of [console_init]. *)
Definition console_init (got_manager got_buffer : bool) (garbage : list Z) : M con bool :=
  let* i := the input in
  match i with
  | Some _ => ret false
  | None =>
      if negb got_manager then ret false
      else if negb got_buffer then ret false
      else
        do* on_console (fun c => set_waiting [] (set_input (Some (mkInput garbage 0 CONSOLE_BUFFER_SIZE)) c)) in ret true
  end.

Definition console_addchar (ch : Z) : M con bool :=
  let* i := the input in
  match i with
  | None => ret false
  | Some m =>
      if capacity m <=? in_length m then ret false
      else do* on_console (set_input (Some (mkInput (aset (buffer m) (in_length m) ch) (in_length m + 1) (capacity m)))) in ret true
  end.
Definition console_rmchar : M con bool :=
  let* i := the input in
  match i with
  | None => ret false
  | Some m =>
      if in_length m =? 0 then ret false
      else do* on_console (set_input (Some (mkInput (buffer m) (in_length m - 1) (capacity m)))) in ret true
  end.
Definition console_get_length : M con Z :=
  let* i := the input in ret (match i with None => u64 (-1) | Some m => in_length m end).

Definition console_user_put_c (ch : Z) : M con unit :=
  let* ok := console_addchar ch in
  if (ok : bool) then do* c_backspace in do* c_putc ch in draw_cursor else ret tt.
Definition console_backspace_no_input : M con unit :=
  do* c_backspace in do* c_backspace in draw_cursor.
Definition console_backspace : M con unit :=
  let* ok := console_rmchar in
  if (ok : bool) then console_backspace_no_input else ret tt.
Definition console_backspace_no_dispaly : M con unit := do* console_rmchar in ret tt.

(** ** The processes that wait *)

(** [kmalloc]: the structure was allocated; the code writes it unchecked. *)
Definition console_register_proc (kmalloc : bool) (pid buf buf_size : Z) : M con unit :=
  if negb kmalloc then diverge
  else
    do* on_console (fun c => set_waiting (waitingProcesses c ++ [mkWaiting pid buf buf_size true]) c) in
    on_procs (proc_block pid).

(** What a process that waits gets of the line; the line keeps the NUL. *)
Definition deliver_line (wp : WaitingProc) : M con unit :=
  do* (if negb (wp_buffer wp =? 0) && wp_active wp then
         let* i := the input in
         match i with
         | None => diverge
         | Some m =>
             let room := u64 (wp_buf_size wp - 1) in
             let copy_len := if in_length m <? room then in_length m else room in
             if Z.of_nat (length (buffer m)) <=? copy_len then diverge
             else
               let line := aset (buffer m) copy_len 0 in
               do* on_console (set_input (Some (mkInput line (in_length m) (capacity m)))) in
               on_procs (fun p => fst (write_to_user (wp_pid wp) (wp_buffer wp) (slice 0 (copy_len + 1) line) p))
         end
       else ret tt) in
  on_procs (proc_unblock (wp_pid wp)).
Fixpoint deliver_all (deliver : WaitingProc -> M con unit) (ws : list WaitingProc) : M con unit :=
  match ws with [] => ret tt | wp :: ws' => do* deliver wp in deliver_all deliver ws' end.
Definition console_clear : M con unit :=
  let* i := the input in
  match i with
  | None => ret tt
  | Some _ =>
      let* ws := the waitingProcesses in
      do* deliver_all deliver_line ws in
      on_console (fun c => set_waiting []
        (set_input (match input c with Some m => Some (mkInput (buffer m) 0 (capacity m)) | None => None end) c))
  end.
Definition console_free : M con unit :=
  let* i := the input in
  match i with None => ret tt | Some _ => do* console_clear in on_console (set_input None) end.

(** ** Keys *)

Definition console_is_raw_mode (c : console) : bool :=
  let t := c_termios c in
  (Z.land (c_lflag t) ICANON =? 0) && (Z.land (c_lflag t) ECHO =? 0) && (Z.land (c_lflag t) ISIG =? 0) &&
  (Z.land (c_iflag t) IXON =? 0) && (Z.land (c_iflag t) ICRNL =? 0) && (Z.land (c_oflag t) OPOST =? 0).
Definition deliver_key (ch : Z) (wp : WaitingProc) : M con unit :=
  do* (if negb (wp_buffer wp =? 0) && wp_active wp && (0 <? wp_buf_size wp) then
         on_procs (fun p => fst (write_to_user (wp_pid wp) (wp_buffer wp) [ch] p))
       else ret tt) in
  on_procs (proc_unblock (wp_pid wp)).
Definition console_set_current_c (ch : Z) : M con unit :=
  do* on_console (set_key ch) in
  let* raw := the console_is_raw_mode in
  if (raw : bool) then
    let* ws := the waitingProcesses in
    do* deliver_all (deliver_key ch) ws in
    on_console (set_waiting [])
  else ret tt.
Definition console_get_current_c : M con Z := the c_current_key.

Definition console_add_special_char (sc : Z) : M con unit :=
  on_console (fun c => if 26 <=? c_special_buf_pos c then c
                       else set_special (aset (c_special_buf c) (c_special_buf_pos c) sc) (c_special_buf_pos c + 1) c).
Definition console_reset_special_char : M con unit := on_console (set_special (replicate 26 0) 0).
Definition console_read_special_char (count : Z) : M con (list Z) :=
  the (fun c => map (fun sc => Z.land sc 0xFF) (take (Z.to_nat count) (c_special_buf c))).

(** ** Settings *)

Definition console_get_termios : M con termios := the c_termios.
Definition console_set_termios (t : termios) : M con unit := on_console (fun c => set_settings t (c_winsize c) (c_pgrp c) c).
Definition console_get_winsize : M con winsize := the c_winsize.
Definition console_set_winsize (w : winsize) : M con unit := on_console (fun c => set_settings (c_termios c) w (c_pgrp c) c).
Definition console_tcflush (queue : Z) : M con unit :=
  on_console (fun c =>
    match input c with
    | Some m => if (queue =? TCIFLUSH) || (queue =? TCIOFLUSH) then set_input (Some (mkInput (buffer m) 0 (capacity m))) c else c
    | None => c
    end).
Definition console_get_pgrp : M con Z := the c_pgrp.
Definition console_set_pgrp (pgrp : Z) : M con unit := on_console (fun c => set_settings (c_termios c) (c_winsize c) pgrp c).

(** ** The loop of the drivers *)

Definition input_keyboard_binding (ch : Z) : M con unit :=
  if (ch =? 8) || (ch =? 127) then
    let* n := console_get_length in
    if n =? 0 then ret tt else console_backspace
  else if ch =? 10 then do* console_clear in console_write [10]
  else console_user_put_c ch.

(** What [hid_keyboard_loop] prints for a key that is not a character. *)
Definition special_name (key : Z) : option (list Z) :=
  if key =? 0x200 then Some (text "<UP>") else if key =? 0x201 then Some (text "<DOWN>")
  else if key =? 0x202 then Some (text "<LEFT>") else if key =? 0x203 then Some (text "<RIGHT>")
  else if (0x100 <=? key) && (key <=? 0x10B) then vfprintf (text "<F%d>") [VInt (key - 0x100 + 1)]
  else if key =? 0x204 then Some (text "<HOME>") else if key =? 0x205 then Some (text "<END>")
  else if key =? 0x206 then Some (text "<PGUP>") else if key =? 0x207 then Some (text "<PGDN>")
  else if key =? 0x208 then Some (text "<INS>") else if key =? 0x7F then Some (text "<DEL>")
  else if key =? 0x300 then Some (text "<CAPS>") else None.
(** One round of the loop for the key that was read. *)
Definition hid_keyboard_loop (key : Z) : M con unit :=
  if key =? 0 then ret tt
  else
    match special_name key with
    | Some name => do* console_write name in console_add_special_char key
    | None => do* input_keyboard_binding (u8 key) in console_set_current_c (u8 key)
    end.
End console.

Arguments the {P A} f.
