(* ===== verification/ConsoleFacts.v ===== *)
(** * The console (lemmas about Console.v)

    The output never faults and keeps the escape buffer within its bounds; what
    is typed is edited in the line buffer and reaches the processes that wait
    for it. *)

From S2P Require Import Prelude Bytes StateMonad PhysMem Pmm Vmm Display DisplayFacts Stdio UnixSocket Console.
#[local] Open Scope Z_scope.

Definition display_ok (d : display) : Prop := tr_ok d /\ exists t, renders d t.

Lemma display_putc ch d : display_ok d -> display_ok (tr_putc ch d).
Proof. intros [Hd [t Ht]]. destruct (putc_implements d t ch Hd Ht) as [_ _ ? ?]. split; eauto. Qed.
Lemma display_backspace d : display_ok d -> exists d', tr_backspace d = Some d' /\ display_ok d'.
Proof.
  intros [Hd [t Ht]]. destruct (backspace_implements d t Hd Ht) as (d' & -> & [_ _ ? ?]). exists d'. split; [done|]. split; eauto.
Qed.
Lemma display_clear d : display_ok d -> display_ok (tr_clear d).
Proof. intros [Hd [t Ht]]. destruct (clear_implements d t Hd Ht) as [_ _ ? ?]. split; eauto. Qed.
Lemma display_color fg bg d : 0 <= fg < 2 ^ 32 -> 0 <= bg < 2 ^ 32 -> display_ok d -> display_ok (tr_set_color fg bg d).
Proof. intros Hf Hb [Hd [t Ht]]. destruct (set_color_implements d t Hd Ht fg bg Hf Hb) as [_ _ ? ?]. split; eauto. Qed.

(** The console between two operations. *)
Record console_ok (c : console) : Prop := {
  co_screen : display_ok (screen c);
  co_escape : length (c_escape_buf c) = 26%nat;
  co_pos : 0 <= c_escape_pos c <= 15;
  co_input : forall m, input c = Some m ->
    length (buffer m) = Z.to_nat CONSOLE_BUFFER_SIZE /\ capacity m = CONSOLE_BUFFER_SIZE /\ 0 <= in_length m <= CONSOLE_BUFFER_SIZE
}.

Create HintDb console.

(** What the output leaves alone. *)
Record same_input (c c' : console) : Prop := {
  si_input : input c' = input c;
  si_waiting : waitingProcesses c' = waitingProcesses c;
  si_termios : c_termios c' = c_termios c
}.

Section facts.
Context {P : Type} `{!ProcOps P} `{!ConsoleProcs P}.

Lemma wp_on_console f Q (p : P) c : wp (on_console f) Q (p, c) <-> Q tt (p, f c).
Proof using. done. Qed.
Lemma wp_on_procs f Q (p : P) c : wp (on_procs f) Q (p, c) <-> Q tt (f p, c).
Proof using. done. Qed.
Lemma wp_the {A} (f : console -> A) Q (p : P) c : wp (the f) Q (p, c) <-> Q (f c) (p, c).
Proof using. done. Qed.

Lemma same_input_refl c : same_input c c.
Proof using. done. Qed.
Lemma same_input_trans c1 c2 c3 : same_input c1 c2 -> same_input c2 c3 -> same_input c1 c3.
Proof using. intros [] []. split; congruence. Qed.

(** An output operation: it returns, changes no process, and keeps the console
    as it should be. *)
Definition outputs (m : M (P * console) unit) : Prop :=
  forall p c, console_ok c -> wp m (fun _ s => s.1 = p /\ console_ok s.2 /\ same_input c s.2) (p, c).

Lemma outputs_ret : outputs (ret tt).
Proof using. intros p c H. by apply wp_ret. Qed.
Lemma outputs_seq m1 m2 : outputs m1 -> outputs m2 -> outputs (do* m1 in m2).
Proof using.
  intros H1 H2 p c Hc. apply wp_bind. eapply wp_mono; [by apply H1|]. intros _ [p1 c1] (Ep & Hc1 & Hs1). cbn in *. subst p1.
  eapply wp_mono; [by apply H2|]. intros _ [p2 c2] (Ep2 & Hc2 & Hs2). cbn in *. split_and!; [done|done|by eapply same_input_trans].
Qed.
Lemma outputs_screen f : (forall d, display_ok d -> exists d', f d = Some d' /\ display_ok d') -> outputs (on_screen f).
Proof using.
  intros Hf p c Hc. unfold wp, on_screen. destruct (Hf _ (co_screen c Hc)) as (d' & -> & Hd'). cbn.
  split_and!; [done| |done]. destruct Hc. by split.
Qed.
Lemma outputs_putc ch : outputs (c_putc ch).
Proof using. apply outputs_screen. intros d Hd. eexists. split; [done|]. by apply display_putc. Qed.
Lemma outputs_backspace : outputs c_backspace.
Proof using. apply outputs_screen. apply display_backspace. Qed.
Lemma outputs_clear_text : outputs console_clear_text.
Proof using.
  apply outputs_seq; [|apply outputs_putc]. apply outputs_screen. intros d Hd. eexists. split; [done|]. by apply display_clear.
Qed.
Lemma outputs_console (f : console -> console) : (forall c, console_ok c -> console_ok (f c) /\ same_input c (f c)) -> outputs (on_console f).
Proof using. intros Hf p c Hc. by destruct (Hf c Hc). Qed.
Lemma outputs_end_escape : outputs end_escape.
Proof using. apply outputs_console. intros c []. split; [by split|done]. Qed.
End facts.
Ltac con_steps := repeat first [wp_step | rewrite wp_on_console | rewrite wp_on_procs | rewrite wp_the]; cbv beta.
#[export] Hint Resolve outputs_ret outputs_seq outputs_putc outputs_backspace outputs_clear_text outputs_end_escape : console.

Lemma rgb_range r g b : 0 <= r < 256 -> 0 <= g < 256 -> 0 <= b < 256 -> 0 <= rgb r g b < 2 ^ 24.
Proof.
  intros Hr Hg Hb. unfold rgb. rewrite !Z.shiftl_mul_pow2 by lia.
  apply lor_range; [lia| |lia]. apply lor_range; lia.
Qed.

(** A colour, or -1 for none. *)
Definition color_or_none (v : Z) : Prop := v = -1 \/ 0 <= v < 2 ^ 24.
Lemma sgr_colors val fg bg : color_or_none fg -> color_or_none bg -> color_or_none (sgr val fg bg).1 /\ color_or_none (sgr val fg bg).2.
Proof.
  intros Hf Hb. unfold sgr. repeat case_match; cbn [fst snd]; split; try done; right; apply rgb_range; lia.
Qed.
Lemma sgr_loop_colors s : forall val fg bg, color_or_none fg -> color_or_none bg ->
  color_or_none (sgr_loop s val fg bg).1 /\ color_or_none (sgr_loop s val fg bg).2.
Proof.
  induction s as [|ch s IH]; intros val fg bg Hf Hb; cbn [sgr_loop]; [done|].
  pose proof (sgr_colors val fg bg Hf Hb) as Hc. destruct (ch =? 0); [done|]. destruct (_ && _); [by apply IH|].
  destruct (_ || _); [|by apply IH]. destruct (sgr val fg bg) as [fg' bg']. destruct Hc. by apply IH.
Qed.

Section output.
Context {P : Type} `{!ProcOps P} `{!ConsoleProcs P}.
Abbreviation con := (P * console)%type.

Lemma outputs_color fg bg : color_or_none fg -> color_or_none bg ->
  outputs (P := P) (if negb (fg =? -1) || negb (bg =? -1) then
     on_screen (fun d => Some (tr_set_color (if fg =? -1 then fg_color else fg) (if bg =? -1 then bg_color else bg) d)) else ret tt).
Proof using.
  intros Hf Hb. case_match; [|apply outputs_ret]. apply outputs_screen. intros d Hd. eexists. split; [done|].
  apply display_color; [..|done]; unfold fg_color, bg_color; case_match; destruct Hf, Hb; lia.
Qed.

Lemma outputs_handle_escape : outputs (P := P) handle_escape_sequence.
Proof using.
  intros p c Hc. unfold handle_escape_sequence. con_steps. set (c1 := set_escape _ _ _ c).
  assert (console_ok c1) as Hc1 by (destruct Hc; split; cbn; rewrite ?length_aset; done).
  assert (same_input c c1) as Hs by done.
  assert (Hgo : forall m, outputs m -> wp m (fun _ s => s.1 = p /\ console_ok s.2 /\ same_input c s.2) (p, c1)).
  { intros m Hm. eapply wp_mono; [by apply Hm|]. intros _ s (H1 & H2 & H3). split_and!; [done|done|by eapply same_input_trans]. }
  case_match.
  - apply Hgo. auto with console.
  - destruct (if (2 <=? c_escape_pos c1) && _ then _ else _) as [fg bg] eqn:E.
    assert (color_or_none fg /\ color_or_none bg) as [Hf Hb].
    { pose proof (sgr_loop_colors (c_escape_buf c1) 0 (-1) (-1) ltac:(by left) ltac:(by left)) as Hloop.
      match type of E with (if ?b then _ else _) = _ => destruct b end; [by rewrite E in Hloop|]. injection E as <- <-. split; by left. }
    apply Hgo. apply outputs_seq; [|auto with console]. by apply outputs_color.
Qed.

Lemma outputs_console_putc ch : outputs (P := P) (console_putc ch).
Proof using.
  intros p c Hc. unfold console_putc. con_steps. destruct (c_escape_mode c).
  - revert p c Hc. fold (outputs (P := P) (do* on_console (fun c => if c_escape_pos c <? 15
      then set_escape true (aset (c_escape_buf c) (c_escape_pos c) ch) (c_escape_pos c + 1) c else c) in
      if is_letter ch then handle_escape_sequence else ret tt)).
    apply outputs_seq; [|case_match; auto using outputs_handle_escape with console]. apply outputs_console.
    intros c Hc. destruct (Z.ltb_spec (c_escape_pos c) 15); [|done]. destruct Hc. split; [|done].
    split; cbn; rewrite ?length_aset; try done. lia.
  - destruct (ch =? 27).
    + revert p c Hc. apply outputs_console. intros c []. split; [split; cbn; try done; lia|done].
    + apply (outputs_seq c_backspace (do* c_putc ch in draw_cursor)); [auto with console| |done].
      apply outputs_seq; [auto with console|]. apply outputs_putc.
Qed.

(** C31: whatever bytes are written, escape sequences of any length among them,
    the console returns, keeps the escape buffer within its bounds, the cursor
    and the colours on the screen, and changes neither the line being typed nor
    any process. *)
Theorem console_output_safe s p c :
  console_ok c ->
  exists c', console_write (P := P) s (p, c) = Some (tt, (p, c')) /\ console_ok c' /\ same_input c c'.
Proof using.
  intros Hc. assert (outputs (P := P) (console_write s)) as Hw.
  { induction s as [|ch s IH]; cbn [console_write]; [apply outputs_ret|].
    apply outputs_seq; [apply outputs_console_putc|done]. }
  specialize (Hw p c Hc). apply wp_run in Hw as ([] & [p' c'] & Hrun & Hp & H1 & H2). cbn in *. subst p'. by exists c'.
Qed.
End output.

(** ** The line *)

(** One key of the line being edited. *)
Definition edit (l : list Z) (k : Z) : list Z :=
  if (k =? 8) || (k =? 127) then take (length l - 1) l
  else if Z.of_nat (length l) <? CONSOLE_BUFFER_SIZE then l ++ [k] else l.
(** The line buffer holds [l]. *)
Definition line_is (c : console) (l : list Z) : Prop :=
  exists m, input c = Some m /\ in_length m = Z.of_nat (length l) /\ take (length l) (buffer m) = l.

Lemma take_aset l (b : list Z) k : take (length l) b = l -> (length l < length b)%nat ->
  take (S (length l)) (aset b (Z.of_nat (length l)) k) = l ++ [k].
Proof.
  intros Hl Hlt. unfold aset. destruct (Z.leb_spec 0 (Z.of_nat (length l))); [|lia]. rewrite Nat2Z.id.
  rewrite (take_S_r _ _ k) by (apply list_lookup_insert_eq; lia). by rewrite take_insert_ge, Hl by lia.
Qed.

Section line.
Context {P : Type} `{!ProcOps P} `{!ConsoleProcs P}.
Abbreviation con := (P * console)%type.

(** What follows the change of the line: the screen. *)
Lemma then_outputs (m : M con unit) (Q : con -> Prop) p c :
  outputs m -> console_ok c -> (forall c', console_ok c' -> same_input c c' -> Q (p, c')) -> wp m (fun _ s => Q s) (p, c).
Proof using.
  intros Hm Hc HQ. eapply wp_mono; [by apply Hm|]. intros _ [p' c'] (E & Hc' & Hs). cbn in *. subst p'. by apply HQ.
Qed.

Lemma input_changed c m : console_ok c -> length (buffer m) = Z.to_nat CONSOLE_BUFFER_SIZE -> capacity m = CONSOLE_BUFFER_SIZE ->
  0 <= in_length m <= CONSOLE_BUFFER_SIZE -> console_ok (set_input (Some m) c).
Proof using. intros [] ? ? ?. split; try done. cbn. by intros ? [= <-]. Qed.

Lemma key_edits k l p c :
  console_ok c -> line_is c l -> k <> 10 ->
  wp (input_keyboard_binding (P := P) k) (fun _ s => s.1 = p /\ console_ok s.2 /\ line_is s.2 (edit l k) /\
    waitingProcesses s.2 = waitingProcesses c /\ c_termios s.2 = c_termios c) (p, c).
Proof using.
  intros Hc (m & Em & Hlen & Hl) Hk. destruct (co_input c Hc m Em) as (Hb & Hcap & Hr). unfold input_keyboard_binding, edit.
  destruct (_ || _); [|destruct (Z.eqb_spec k 10); [done|]].
  - unfold console_get_length. con_steps. rewrite Em. con_steps. rewrite Hlen.
    destruct (Z.eqb_spec (Z.of_nat (length l)) 0).
    { con_steps. split_and!; try done. destruct l; [|done]. exists m. split_and!; done. }
    unfold console_backspace, console_rmchar. con_steps. rewrite Em, Hlen.
    destruct (Z.eqb_spec (Z.of_nat (length l)) 0); [done|]. con_steps.
    apply then_outputs; [unfold console_backspace_no_input, draw_cursor; auto with console|by apply input_changed; cbn; (done || lia)|].
    intros c' Hc' [Ei Ew Et]. cbn. unfold line_is. rewrite Ei, Ew, Et. split_and!; try done.
    eexists. split; [done|]. rewrite length_take. cbn. split; [lia|].
    transitivity (take (length l - 1) (take (length l) (buffer m))); [rewrite take_take; f_equal; lia|by rewrite Hl].
  - unfold console_user_put_c, console_addchar. con_steps. rewrite Em, Hcap, Hlen.
    destruct (Z.leb_spec CONSOLE_BUFFER_SIZE (Z.of_nat (length l))); destruct (Z.ltb_spec (Z.of_nat (length l)) CONSOLE_BUFFER_SIZE); try lia.
    + con_steps. split_and!; try done. by exists m.
    + rewrite wp_bind, wp_on_console, wp_ret. cbv beta iota. unfold CONSOLE_BUFFER_SIZE in *. apply then_outputs.
      * unfold draw_cursor. auto with console.
      * apply input_changed; unfold CONSOLE_BUFFER_SIZE; cbn; rewrite ?length_aset; done || lia.
      * intros c' Hc' [Ei Ew Et]. cbn. unfold line_is. rewrite Ei, Ew, Et. split_and!; try done.
        eexists. split; [done|]. rewrite length_app. cbn. split; [lia|].
        rewrite Nat.add_1_r. apply take_aset; [done|lia].
Qed.

Fixpoint type_keys (ks : list Z) : M con unit :=
  match ks with [] => ret tt | k :: ks' => do* input_keyboard_binding k in type_keys ks' end.

Lemma keys_edit ks : forall l p c, console_ok c -> line_is c l -> Forall (fun k => k <> 10) ks ->
  wp (type_keys ks) (fun _ s => s.1 = p /\ console_ok s.2 /\ line_is s.2 (fold_left edit ks l) /\
    waitingProcesses s.2 = waitingProcesses c /\ c_termios s.2 = c_termios c) (p, c).
Proof using.
  induction ks as [|k ks IH]; intros l p c Hc Hl Hks; cbn [type_keys fold_left]; [by con_steps|].
  apply list.Forall_cons in Hks as [Hk Hks]. con_steps. wp_call key_edits; [done|done|done|].
  intros _ [p1 c1] (Ep & Hc1 & Hl1 & Ew & Et). cbn in *. subst p1. wp_call IH; [done|done|done|].
  intros _ [p2 c2] (Ep2 & Hc2 & Hl2 & Ew2 & Et2). cbn in *. split_and!; congruence || done.
Qed.

(** What a process that waits sees of the line [l]. *)
Definition given (l : list Z) (p : P) (wp : WaitingProc) : P :=
  proc_unblock (wp_pid wp) (fst (write_to_user (wp_pid wp) (wp_buffer wp) (l ++ [0]) p)).
Definition room_for (l : list Z) (wp : WaitingProc) : Prop :=
  wp_active wp = true /\ wp_buffer wp <> 0 /\ Z.of_nat (length l) < wp_buf_size wp < 2 ^ 64.

Lemma deliver_line_spec wp l p c :
  console_ok c -> line_is c l -> Z.of_nat (length l) < CONSOLE_BUFFER_SIZE -> room_for l wp ->
  StateMonad.wp (deliver_line (P := P) wp) (fun _ s => s.1 = given l p wp /\ console_ok s.2 /\ line_is s.2 l /\
    screen s.2 = screen c /\ c_termios s.2 = c_termios c) (p, c).
Proof using.
  intros Hc (m & Em & Hlen & Hl) Hlt (Ha & Hb & Hsz). destruct (co_input c Hc m Em) as (Hbl & Hcap & Hr).
  unfold deliver_line. con_steps. rewrite Ha. destruct (Z.eqb_spec (wp_buffer wp) 0); [done|]. cbn [negb andb]. con_steps. rewrite Em.
  rewrite u64_small by lia. unfold CONSOLE_BUFFER_SIZE in *.
  assert ((if in_length m <? wp_buf_size wp - 1 then in_length m else wp_buf_size wp - 1) = Z.of_nat (length l)) as ->
    by (destruct (Z.ltb_spec (in_length m) (wp_buf_size wp - 1)); lia).
  destruct (Z.leb_spec (Z.of_nat (length (buffer m))) (Z.of_nat (length l))); [lia|]. con_steps. cbn [fst snd].
  assert (length l < length (buffer m))%nat as Hlb by lia. split_and!; try done.
  - unfold given. do 2 f_equal. unfold slice. cbn [Z.to_nat drop]. rewrite <- (take_aset l (buffer m) 0) by done. cbn. f_equal. f_equal. lia.
  - apply input_changed; unfold CONSOLE_BUFFER_SIZE; cbn; rewrite ?length_aset; done || lia.
  - eexists. split; [done|]. cbn. split; [lia|]. pose proof (take_aset l (buffer m) 0 Hl Hlb) as E.
    apply (f_equal (take (length l))) in E. rewrite take_take, take_app_length in E. by rewrite Nat.min_l in E by lia.
Qed.

Lemma deliver_all_spec ws l : forall p c,
  console_ok c -> line_is c l -> Z.of_nat (length l) < CONSOLE_BUFFER_SIZE -> Forall (room_for l) ws ->
  StateMonad.wp (deliver_all deliver_line ws) (fun _ s => s.1 = fold_left (given l) ws p /\ console_ok s.2 /\ line_is s.2 l) (p, c).
Proof using.
  induction ws as [|w ws IH]; intros p c Hc Hl Hlt Hws; cbn [deliver_all fold_left]; [by con_steps|].
  apply list.Forall_cons in Hws as [Hw Hws]. con_steps. wp_call deliver_line_spec; [done|done|done|done|].
  intros _ [p1 c1] (Ep & Hc1 & Hl1 & _). cbn in *. subst p1. by apply IH.
Qed.

Lemma enter_delivers l p c :
  console_ok c -> line_is c l -> Z.of_nat (length l) < CONSOLE_BUFFER_SIZE -> Forall (room_for l) (waitingProcesses c) ->
  StateMonad.wp (input_keyboard_binding (P := P) 10) (fun _ s => s.1 = fold_left (given l) (waitingProcesses c) p /\
    console_ok s.2 /\ line_is s.2 [] /\ waitingProcesses s.2 = []) (p, c).
Proof using.
  intros Hc Hl Hlt Hws. unfold input_keyboard_binding. cbn [Z.eqb Pos.eqb orb]. rewrite wp_bind.
  apply (wp_mono _ (fun _ s => s.1 = fold_left (given l) (waitingProcesses c) p /\ console_ok s.2 /\ line_is s.2 [] /\
    waitingProcesses s.2 = [])).
  - unfold console_clear. rewrite wp_bind, wp_the. destruct Hl as (m & Em & Hm). rewrite Em.
    rewrite wp_bind, wp_the, wp_bind. eapply wp_mono; [apply (deliver_all_spec _ l); [done|by exists m|done|done]|].
    intros _ [p1 c1] (Ep & Hc1 & m1 & Em1 & _). cbn in Ep, Hc1, Em1. subst p1. apply wp_on_console. rewrite Em1. cbn. split; [done|].
    destruct (co_input c1 Hc1 m1 Em1) as (Hb & Hcap & Hr). split_and!; [|by eexists|done].
    destruct Hc1. split; try done. cbn. intros ? [= <-]. cbn. unfold CONSOLE_BUFFER_SIZE in *. split_and!; done || lia.
  - intros _ [p1 c1] (Ep & Hc1 & Hl1 & Ew). cbn in Ep, Hc1, Hl1, Ew. apply then_outputs; [|done|].
    + cbn [console_write]. apply outputs_seq; [apply outputs_console_putc|apply outputs_ret].
    + intros c' Hc' [Ei Ew' Et]. cbn. unfold line_is. by rewrite Ei, Ew', Ep.
Qed.


(** A full line: the NUL falls behind the buffer. *)
Lemma full_line_faults wp p c m :
  input c = Some m -> in_length m = CONSOLE_BUFFER_SIZE -> length (buffer m) = Z.to_nat CONSOLE_BUFFER_SIZE ->
  wp_active wp = true -> wp_buffer wp <> 0 -> CONSOLE_BUFFER_SIZE < wp_buf_size wp < 2 ^ 64 -> deliver_line (P := P) wp (p, c) = None.
Proof using.
  unfold CONSOLE_BUFFER_SIZE. intros Em Hlen Hb Ha Hbuf Hsz. unfold deliver_line, bind, the, gets. rewrite Ha.
  destruct (Z.eqb_spec (wp_buffer wp) 0); [done|]. cbn. rewrite Em, Hlen, u64_small, Hb by lia.
  destruct (Z.ltb_spec 128 (wp_buf_size wp - 1)); destruct (Z.leb_spec (Z.of_nat (Z.to_nat 128)) 128),
    (Z.leb_spec (Z.of_nat (Z.to_nat 128)) (wp_buf_size wp - 1)); done || lia.
Qed.
(** A reader that asks for 0 bytes gets the whole line. *)
Lemma zero_size_reader_overrun wp p c m :
  input c = Some m -> 0 <= in_length m < Z.of_nat (length (buffer m)) -> in_length m < CONSOLE_BUFFER_SIZE ->
  wp_active wp = true -> wp_buffer wp <> 0 -> wp_buf_size wp = 0 ->
  exists c' line, deliver_line (P := P) wp (p, c) =
    Some (tt, (proc_unblock (wp_pid wp) (fst (write_to_user (wp_pid wp) (wp_buffer wp) line p)), c')) /\
    Z.of_nat (length line) = in_length m + 1.
Proof using.
  unfold CONSOLE_BUFFER_SIZE. intros Em Hlen Hlt Ha Hbuf Hsz. unfold deliver_line, bind, the, gets. rewrite Ha.
  destruct (Z.eqb_spec (wp_buffer wp) 0); [done|]. cbn. rewrite Em, Hsz. change (u64 (0 - 1)) with (2 ^ 64 - 1).
  destruct (Z.ltb_spec (in_length m) (2 ^ 64 - 1)); [|lia]. destruct (Z.leb_spec (Z.of_nat (length (buffer m))) (in_length m)); [lia|].
  eexists _, _. split; [done|]. unfold slice. rewrite length_take, length_drop, length_aset. lia.
Qed.
End line.

(** ** Witnesses: a log of what the processes are sent *)

#[export] Instance log_procs : ProcOps (list (Z * list Z)) :=
  {| proc_get_current_pid _ := 1; proc_block pid p := p; proc_unblock pid p := p ++ [(pid, [])] |}.
#[export] Instance log_console : ConsoleProcs (list (Z * list Z)) :=
  {| write_to_user pid _ bytes p := (p ++ [(pid, bytes)], true); load_bytes _ a n := map (fun i => (a + Z.of_nat i) mod 256) (seq 0 (Z.to_nat n)) |}.

Definition demo_console : console :=
  set_input (Some (mkInput (replicate 128 7) 0 128)) (set_waiting [mkWaiting 3 0x1000 64 true; mkWaiting 5 0x2000 32 true] (initial_console demo_display)).
Lemma demo_console_ok : console_ok demo_console.
Proof.
  split; cbn; try done.
  - split; [apply demo_display_ok|]. exists demo_term. apply demo_renders.
  - intros m [= <-]. done.
Qed.

Lemma console_output_safe_witness :
  exists c', console_write ([104; 105; 27; 91; 51; 49; 109; 33]) ([] : list (Z * list Z), demo_console) = Some (tt, ([], c')) /\
    console_ok c' /\ same_input demo_console c'.
Proof. apply console_output_safe. apply demo_console_ok. Defined.

(** What the two processes get there. *)
Lemma demo_line_log : fold_left (given (fold_left edit [108; 120; 8; 115] [])) (waitingProcesses demo_console) [] =
  [(3, [108; 115; 0]); (3, []); (5, [108; 115; 0]); (5, [])].
Proof. vm_compute. done. Qed.
