(* ===== verification/Sha256.v ===== *)
(** * SHA-256 (src/kernel/user/sha256.c)

    The hash the user database keeps of passwords.  Words are 32-bit integers
    with the wrap-around of every sum and shift written out; bytes are integers
    below 256; arrays are lists.

    [sha256] hashes the whole blocks of the message in place and pads the rest
    in one or two blocks of its own; [sha256_pads] proves this equal to hashing
    the blocks of the padded message of FIPS 180-4. *)

From S2P Require Import Prelude.

Definition ROTR32 (x n : Z) : Z := u32 (Z.lor (Z.shiftr x n) (Z.shiftl x (32 - n))).
Definition CH (x y z : Z) : Z := Z.lxor (Z.land x y) (Z.land (u32 (Z.lnot x)) z).
Definition MAJ (x y z : Z) : Z := Z.lxor (Z.lxor (Z.land x y) (Z.land x z)) (Z.land y z).
Definition EP0 (x : Z) : Z := Z.lxor (Z.lxor (ROTR32 x 2) (ROTR32 x 13)) (ROTR32 x 22).
Definition EP1 (x : Z) : Z := Z.lxor (Z.lxor (ROTR32 x 6) (ROTR32 x 11)) (ROTR32 x 25).
Definition SIG0 (x : Z) : Z := Z.lxor (Z.lxor (ROTR32 x 7) (ROTR32 x 18)) (Z.shiftr x 3).
Definition SIG1 (x : Z) : Z := Z.lxor (Z.lxor (ROTR32 x 17) (ROTR32 x 19)) (Z.shiftr x 10).

(** The round constants, a row per line of the source table. *)
Definition K : list Z :=
  mjoin [
    [0x428a2f98; 0x71374491; 0xb5c0fbcf; 0xe9b5dba5];
    [0x3956c25b; 0x59f111f1; 0x923f82a4; 0xab1c5ed5];
    [0xd807aa98; 0x12835b01; 0x243185be; 0x550c7dc3];
    [0x72be5d74; 0x80deb1fe; 0x9bdc06a7; 0xc19bf174];
    [0xe49b69c1; 0xefbe4786; 0x0fc19dc6; 0x240ca1cc];
    [0x2de92c6f; 0x4a7484aa; 0x5cb0a9dc; 0x76f988da];
    [0x983e5152; 0xa831c66d; 0xb00327c8; 0xbf597fc7];
    [0xc6e00bf3; 0xd5a79147; 0x06ca6351; 0x14292967];
    [0x27b70a85; 0x2e1b2138; 0x4d2c6dfc; 0x53380d13];
    [0x650a7354; 0x766a0abb; 0x81c2c92e; 0x92722c85];
    [0xa2bfe8a1; 0xa81a664b; 0xc24b8b70; 0xc76c51a3];
    [0xd192e819; 0xd6990624; 0xf40e3585; 0x106aa070];
    [0x19a4c116; 0x1e376c08; 0x2748774c; 0x34b0bcb5];
    [0x391c0cb3; 0x4ed8aa4a; 0x5b9cca4f; 0x682e6ff3];
    [0x748f82ee; 0x78a5636f; 0x84c87814; 0x8cc70208];
    [0x90befffa; 0xa4506ceb; 0xbef9a3f7; 0xc67178f2] ].

(** The message schedule. *)
Definition schedule_word (block : list Z) (i : Z) : Z :=
  Z.lor (Z.lor (Z.lor (Z.shiftl (aget 0 block (i * 4)) 24) (Z.shiftl (aget 0 block (i * 4 + 1)) 16))
           (Z.shiftl (aget 0 block (i * 4 + 2)) 8)) (aget 0 block (i * 4 + 3)).

Definition schedule (block : list Z) : list Z :=
  let W := for_range (fun i W => aset W i (schedule_word block i)) 0 16 (replicate 64 0) in
  for_range (fun i W =>
    aset W i (u32 (SIG1 (aget 0 W (i - 2)) + aget 0 W (i - 7) + SIG0 (aget 0 W (i - 15))
                   + aget 0 W (i - 16)))) 16 48 W.

(** The working variables a to h. *)
Definition round (W : list Z) (i : Z) (s : list Z) : list Z :=
  match s with
  | [a; b; c; d; e; f; g; h] =>
      let t1 := u32 (h + EP1 e + CH e f g + aget 0 K i + aget 0 W i) in
      let t2 := u32 (EP0 a + MAJ a b c) in
      [u32 (t1 + t2); a; b; c; u32 (d + t1); e; f; g]
  | _ => s
  end.

Definition sha256_transform (state : list Z) (block : list Z) : list Z :=
  zip_with (fun x y => u32 (x + y)) state (for_range (round (schedule block)) 0 64 state).

Definition initial_state : list Z :=
  [0x6a09e667; 0xbb67ae85; 0x3c6ef372; 0xa54ff53a; 0x510e527f; 0x9b05688c; 0x1f83d9ab; 0x5be0cd19].

(** The loop over the whole blocks: the state, and the bytes that remain.  Each
    round consumes 64 bytes, so as many rounds as there are bytes suffice. *)
Fixpoint whole_blocks (fuel : nat) (state p : list Z) : list Z * list Z :=
  match fuel with
  | O => (state, p)
  | S fuel' =>
      if (64 <=? length p)%nat
      then whole_blocks fuel' (sha256_transform state (take 64 p)) (drop 64 p)
      else (state, p)
  end.

(** The eight bytes of the length in bits, most significant first. *)
Definition length_bytes (len : Z) : list Z :=
  let bit_len := u64 (len * 8) in
  [u8 (Z.shiftr bit_len 56); u8 (Z.shiftr bit_len 48); u8 (Z.shiftr bit_len 40);
   u8 (Z.shiftr bit_len 32); u8 (Z.shiftr bit_len 24); u8 (Z.shiftr bit_len 16);
   u8 (Z.shiftr bit_len 8); u8 bit_len].

Definition word_bytes (x : Z) : list Z :=
  [u8 (Z.shiftr x 24); u8 (Z.shiftr x 16); u8 (Z.shiftr x 8); u8 x].

Definition sha256 (data : list Z) : list Z :=
  let '(state, p) := whole_blocks (length data) initial_state data in
  let remaining := length p in
  let block := p ++ [0x80] ++ replicate (64 - (remaining + 1)) 0 in
  let '(state, block) :=
    if (56 <=? remaining)%nat then (sha256_transform state block, replicate 64 0)
    else (state, block) in
  let block := take 56 block ++ length_bytes (Z.of_nat (length data)) in
  let state := sha256_transform state block in
  concat (map word_bytes state).

(** Hexadecimal digits. *)
Definition hex_digit (v : Z) : Z := if v <? 10 then 48 + v else 97 + (v - 10).
Definition hex_of_byte (b : Z) : list Z := [hex_digit (Z.shiftr b 4); hex_digit (Z.land b 0xf)].
Definition hex_string (bytes : list Z) : list Z := concat (map hex_of_byte bytes).
Definition sha256_hex (data : list Z) : list Z := hex_string (sha256 data).

(** ** The standard's definition

    The message, the bit 1, zeros up to 56 modulo 64, the length; hashed block
    by block. *)
Definition padding (n : nat) : list Z :=
  [0x80] ++ replicate (if (n mod 64 <? 56)%nat then 55 - n mod 64 else 119 - n mod 64) 0
  ++ length_bytes (Z.of_nat n).
Definition padded (data : list Z) : list Z := data ++ padding (length data).

Fixpoint chunks (fuel : nat) (l : list Z) : list (list Z) :=
  match fuel, l with
  | O, _ | _, [] => []
  | S fuel', _ => take 64 l :: chunks fuel' (drop 64 l)
  end.

Definition sha256_spec (data : list Z) : list Z :=
  concat (map word_bytes
    (fold_left sha256_transform (chunks (length (padded data)) (padded data)) initial_state)).

(** ** Lemmas *)

Lemma chunks_fuel l : forall n k, (length l <= n)%nat -> (length l <= k)%nat -> chunks n l = chunks k l.
Proof.
  intros n. revert l. induction n as [|n IH]; intros l k Hn Hk.
  - destruct l; [|simpl in Hn; lia]. by destruct k.
  - destruct k as [|k]; [destruct l; [done|simpl in Hk; lia]|].
    destruct l as [|x l]; [done|]. cbn [chunks]. f_equal.
    apply IH; rewrite length_drop; simpl in *; lia.
Qed.

Lemma chunks_step l n : l <> [] -> (length l <= n)%nat ->
  chunks n l = take 64 l :: chunks (length (drop 64 l)) (drop 64 l).
Proof.
  intros Hl Hn. destruct n as [|n]; [destruct l; [done|simpl in Hn; lia]|].
  destruct l as [|x l]; [done|]. cbn [chunks]. f_equal. apply chunks_fuel; [|done].
  rewrite length_drop. simpl in *. lia.
Qed.

(** The whole blocks of a message are chunks of any longer message. *)
Lemma whole_blocks_spec fuel : forall state p rest n,
  (length p <= fuel)%nat -> (length (p ++ rest) <= n)%nat ->
  let '(state', p') := whole_blocks fuel state p in
  (length p' < 64)%nat /\ length p' = (length p mod 64)%nat /\
  fold_left sha256_transform (chunks n (p ++ rest)) state =
    fold_left sha256_transform (chunks (length (p' ++ rest)) (p' ++ rest)) state'.
Proof.
  induction fuel as [|fuel IH]; intros state p rest n Hp Hn.
  - destruct p; [|simpl in Hp; lia]. simpl. split_and!; [lia|done|]. f_equal. by apply chunks_fuel.
  - cbn [whole_blocks]. destruct (Nat.leb_spec 64 (length p)) as [Hl|Hl].
    + specialize (IH (sha256_transform state (take 64 p)) (drop 64 p) rest (length (drop 64 p ++ rest))).
      destruct (whole_blocks fuel _ _) as [state' p'].
      destruct IH as (I1 & I2 & I3); [rewrite length_drop; lia|done|]. split_and!; [done| |].
      * rewrite I2, length_drop. replace (length p) with (length p - 64 + 1 * 64)%nat at 2 by lia.
        by rewrite Nat.Div0.mod_add.
      * rewrite <- I3, (chunks_step (p ++ rest)) by (done || (destruct p; [simpl in Hl; lia|done])).
        cbn [fold_left]. rewrite take_app_le, drop_app_le by done. done.
    + split_and!; [done|by rewrite Nat.mod_small|]. f_equal. by apply chunks_fuel.
Qed.

Lemma chunks_one l : length l = 64%nat -> chunks 64 l = [l].
Proof.
  intros Hl. rewrite chunks_step by (rewrite ?Hl; done || by destruct l).
  rewrite take_ge, drop_ge by lia. done.
Qed.

Lemma sha256_eq_spec data : sha256 data = sha256_spec data.
Proof.
  unfold sha256, sha256_spec, padded.
  pose proof (whole_blocks_spec (length data) initial_state data (padding (length data))
    (length (data ++ padding (length data))) ltac:(lia) ltac:(lia)) as W.
  destruct (whole_blocks _ _ data) as [state p]. destruct W as (W1 & W2 & ->).
  unfold padding. rewrite <- W2. set (r := length p) in *. set (lb := length_bytes _).
  assert (Hlb : length lb = 8%nat) by done.
  destruct (Nat.leb_spec 56 r) as [Hr|Hr], (Nat.ltb_spec r 56) as [Hr'|Hr']; try lia.
  - set (b1 := p ++ [0x80] ++ replicate (64 - (r + 1)) 0).
    assert (Hb1 : length b1 = 64%nat)
      by (unfold b1; rewrite !length_app, length_replicate; simpl; fold r; lia).
    set (b2 := take 56 (replicate 64 0) ++ lb).
    assert (E : p ++ [0x80] ++ replicate (119 - r) 0 ++ lb = b1 ++ b2).
    { unfold b1, b2. rewrite take_replicate, <- !app_assoc. do 2 f_equal. rewrite !app_assoc.
      f_equal. rewrite <- replicate_add. f_equal. lia. }
    rewrite E, chunks_step by (done || (intros E0; apply (f_equal length) in E0; rewrite length_app, Hb1 in E0; done)).
    rewrite take_app_length', drop_app_length' by done.
    assert (Hb2 : length b2 = 64%nat) by done. rewrite Hb2, chunks_one by done. done.
  - set (b := p ++ [0x80] ++ replicate (55 - r) 0 ++ lb).
    assert (E : take 56 (p ++ [0x80] ++ replicate (64 - (r + 1)) 0) ++ lb = b).
    { unfold b. rewrite !(app_assoc p), take_app.
      rewrite take_ge by (rewrite length_app; simpl; fold r; lia). rewrite <- app_assoc. f_equal.
      rewrite take_replicate, length_app. simpl. fold r. do 2 f_equal. lia. }
    rewrite E. assert (Hb : length b = 64%nat)
      by (unfold b; rewrite !length_app, length_replicate; simpl; fold r; lia).
    rewrite Hb, chunks_one by done. done.
Qed.

(** The standard's test vector: the hash of the three bytes of abc. *)
Example sha256_abc : sha256 [97; 98; 99] =
  [0xba; 0x78; 0x16; 0xbf; 0x8f; 0x01; 0xcf; 0xea; 0x41; 0x41; 0x40; 0xde; 0x5d; 0xae; 0x22; 0x23;
   0xb0; 0x03; 0x61; 0xa3; 0x96; 0x17; 0x7a; 0x9c; 0xb4; 0x10; 0xff; 0x61; 0xf2; 0x00; 0x15; 0xad].
Proof. vm_compute. reflexivity. Qed.

(** The hash has 32 bytes and its text 64 digits. *)
Lemma length_transform state block : length state = 8%nat -> length (sha256_transform state block) = 8%nat.
Proof.
  intros Hs. unfold sha256_transform. rewrite length_zip_with.
  assert (length (for_range (round (schedule block)) 0 64 state) = 8%nat) as ->; [|lia].
  apply (for_range_inv (fun s => length s = 8%nat)); [done|]. intros j s _ Hl.
  do 9 (destruct s as [|? s]; try done).
Qed.

Lemma length_fold_transform bs : forall state,
  length state = 8%nat -> length (fold_left sha256_transform bs state) = 8%nat.
Proof. induction bs as [|b bs IH]; intros state Hs; [done|]. by apply IH, length_transform. Qed.

Lemma length_words l : length (concat (map word_bytes l)) = (4 * length l)%nat.
Proof. induction l as [|x l IH]; simpl; [done|]. rewrite IH. lia. Qed.

Lemma length_sha256_spec data : length (sha256_spec data) = 32%nat.
Proof. unfold sha256_spec. rewrite length_words, length_fold_transform; done. Qed.

Lemma word_bytes_range l : Forall (fun b => 0 <= b < 256) (concat (map word_bytes l)).
Proof.
  induction l as [|x l IH]; simpl; [constructor|]. do 4 (constructor; [apply u8_range|]). exact IH.
Qed.

Lemma length_hex_string bs : length (hex_string bs) = (2 * length bs)%nat.
Proof. unfold hex_string. induction bs as [|b bs IH]; simpl; [done|]. rewrite IH. lia. Qed.

Lemma hex_string_app l1 l2 : hex_string (l1 ++ l2) = hex_string l1 ++ hex_string l2.
Proof. unfold hex_string. by rewrite map_app, concat_app. Qed.

(** The digits determine the bytes. *)
Lemma hex_digit_inj a b : 0 <= a < 16 -> 0 <= b < 16 -> hex_digit a = hex_digit b -> a = b.
Proof. unfold hex_digit. intros Ha Hb. destruct (Z.ltb_spec a 10), (Z.ltb_spec b 10); lia. Qed.

Lemma nibbles b : 0 <= b < 256 ->
  0 <= Z.shiftr b 4 < 16 /\ 0 <= Z.land b 0xf < 16 /\ b = 16 * Z.shiftr b 4 + Z.land b 0xf.
Proof.
  intros Hb. rewrite Z.shiftr_div_pow2 by lia. change 0xf with (2 ^ 4 - 1).
  rewrite land_ones_mod by lia. change (2 ^ 4) with 16. zdiv_lia.
Qed.

Lemma hex_string_inj l1 : forall l2,
  Forall (fun b => 0 <= b < 256) l1 -> Forall (fun b => 0 <= b < 256) l2 ->
  hex_string l1 = hex_string l2 -> l1 = l2.
Proof.
  induction l1 as [|a l1 IH]; intros [|b l2] H1 H2 E; try done.
  unfold hex_string in E. simpl in E. injection E as E1 E2 E.
  apply Forall_cons_1 in H1 as [Ha H1]. apply Forall_cons_1 in H2 as [Hb H2].
  destruct (nibbles a Ha) as (A1 & A2 & A3). destruct (nibbles b Hb) as (B1 & B2 & B3).
  apply hex_digit_inj in E1; [|done|done]. apply hex_digit_inj in E2; [|done|done].
  f_equal; [lia|]. by apply IH.
Qed.

Lemma length_sha256 data : length (sha256 data) = 32%nat.
Proof. rewrite sha256_eq_spec. apply length_sha256_spec. Qed.

Lemma sha256_range data : Forall (fun b => 0 <= b < 256) (sha256 data).
Proof. rewrite sha256_eq_spec. apply word_bytes_range. Qed.

(** ** Properties *)

(** [sha256] computes SHA-256 as the standard defines it, for every
    message: the padding it writes into its own block, with a second block
    when the message leaves 56 bytes or more, is that of FIPS 180-4. *)
Theorem sha256_pads data : sha256 data = sha256_spec data.
Proof. apply sha256_eq_spec. Qed.
