(* ===== verification/User.v ===== *)
(** * User database (src/kernel/user/user.c, user.h)

    Users, groups and their permission levels, passwords, and the three text
    files the database is kept in.

    A C string is the list of its bytes before the NUL.  The member
    [password_hash] is an array that is also read past the end of the string
    in it, so it is the list of its 128 bytes.  Whether a [kmalloc] succeeds
    is the parameter [kmalloc_ok]; [strdup] is taken to succeed.  The file
    system is the interface [Ext2Ops]. *)

From S2P Require Import Prelude Sha256.
From stdpp Require Import strings.
#[local] Open Scope Z_scope.

(** The bytes of a string literal. *)
Definition str (s : string) : list Z := map (fun c => Z.of_nat (Ascii.nat_of_ascii c)) (String.list_ascii_of_string s).

Definition MAX_GROUPS : Z := 124.
Definition MAX_USERS : Z := 124.
Definition SHADOW_HASH_LEN : Z := 128.
Definition USER_HOME_LEN : Z := 128.
Definition USER_SHELL_LEN : Z := 64.

(** perm_flags_t. *)
Definition ROOT : Z := 0.
Definition SUDO : Z := 1.
Definition USER : Z := 2.

Record group_t := mkGroup { groupname : list Z; gid : Z; perms : Z; group_exists : bool }.
Record user_t := mkUser {
  uid : Z; group : Z; username : list Z; password_hash : list Z; home : list Z; shell : list Z;
  exists_ : bool
}.

Record user_db := mkDb { groups : list group_t; users : list user_t; salt_state : Z }.

Definition null_group : group_t := mkGroup [] 0 0 false.
Definition null_user : user_t := mkUser 0 0 [] [] [] [] false.

Definition the_user (db : user_db) (i : Z) : user_t := aget null_user (users db) i.
Definition the_group (db : user_db) (i : Z) : group_t := aget null_group (groups db) i.
Definition set_user (i : Z) (u : user_t) (db : user_db) : user_db :=
  mkDb (groups db) (aset (users db) i u) (salt_state db).
Definition set_group (i : Z) (g : group_t) (db : user_db) : user_db :=
  mkDb (aset (groups db) i g) (users db) (salt_state db).
Definition set_hash (h : list Z) (u : user_t) : user_t :=
  mkUser (uid u) (group u) (username u) h (home u) (shell u) (exists_ u).

(** ** Strings *)

(** The string at the start of an array, and storing a string there. *)
Fixpoint cstr (buf : list Z) : list Z :=
  match buf with
  | [] => []
  | c :: buf' => if c =? 0 then [] else c :: cstr buf'
  end.
Definition put_str (s buf : list Z) : list Z := s ++ 0 :: drop (length s + 1) buf.

Definition hex_nibble (v c : Z) : Z :=
  if (48 <=? c) && (c <=? 57) then Z.lor v (u8 (c - 48))
  else if (97 <=? c) && (c <=? 102) then Z.lor v (u8 (c - 97 + 10))
  else if (65 <=? c) && (c <=? 70) then Z.lor v (u8 (c - 65 + 10))
  else v.
Definition hex_byte (c0 c1 : Z) : Z :=
  hex_nibble (u8 (Z.shiftl (hex_nibble (u8 (Z.shiftl 0 4)) c0) 4)) c1.

(** [u_strncmp] of the bytes from two addresses; past the end of a list is its
    NUL. *)
Fixpoint u_strncmp (a b : list Z) (n : nat) : Z :=
  match n with
  | O => 0
  | S n' =>
      let x := aget 0 a 0 in
      let y := aget 0 b 0 in
      if negb (x =? y) then x - y
      else if x =? 0 then 0
      else u_strncmp (tail a) (tail b) n'
  end.

(** The string [u_strlcpy] leaves in [dst] of [size] bytes. *)
Definition u_strlcpy (src : list Z) (size : Z) : list Z := take (Z.to_nat (size - 1)) src.

(** The digits of an unsigned number, last one first, then [u_itoa] into a
    buffer large enough. *)
Fixpoint digits_rev (fuel : nat) (v : Z) : list Z :=
  match fuel with
  | O => []
  | S fuel' => if v =? 0 then [] else (48 + v mod 10) :: digits_rev fuel' (v / 10)
  end.
Definition u_itoa (v : Z) : list Z :=
  let digits := fun v => if v =? 0 then [48] else rev (digits_rev 10 v) in
  if v <? 0 then 45 :: digits (- v) else digits v.

Inductive fmt_arg := AStr (s : option (list Z)) | AInt (v : Z).

(** [u_fmt] with room for [room] more bytes before the NUL. *)
Fixpoint u_fmt_loop (room : nat) (fmt : list Z) (args : list fmt_arg) : list Z :=
  match fmt with
  | [] => []
  | c :: fmt' =>
      if (room =? 0)%nat then []
      else if negb (c =? 37) then c :: u_fmt_loop (room - 1) fmt' args
      else
        match fmt' with
        | [] => []
        | d :: fmt'' =>
            if d =? 115 then
              let s := match args with AStr (Some s) :: _ => s | _ => str "(null)" end in
              let out := take room s in
              out ++ u_fmt_loop (room - length out) fmt'' (tail args)
            else if (d =? 100) || (d =? 117) then
              let v := match args with AInt v :: _ => v | _ => 0 end in
              let out := take room (u_itoa v) in
              out ++ u_fmt_loop (room - length out) fmt'' (tail args)
            else u_fmt_loop room fmt'' args
        end
  end.
Definition u_fmt (dstsz : Z) (fmt : list Z) (args : list fmt_arg) : list Z :=
  u_fmt_loop (Z.to_nat (dstsz - 1)) fmt args.

(** [simple_atoi]; the sum is an [int]. *)
Fixpoint atoi_loop (v : Z) (s : list Z) : Z :=
  match s with
  | [] => v
  | c :: s' => if (48 <=? c) && (c <=? 57) then atoi_loop (int32 (v * 10 + (c - 48))) s' else v
  end.
Definition simple_atoi (s : list Z) : Z := atoi_loop 0 s.

(** [split_fields]: the fields, of which [left] more may begin. *)
Fixpoint split_loop (left : nat) (cur l : list Z) : list (list Z) :=
  match l with
  | [] => [cur]
  | c :: l' =>
      match left with
      | O => [cur ++ l]
      | S left' => if c =? 58 then cur :: split_loop left' [] l' else split_loop left (cur ++ [c]) l'
      end
  end.
Definition split_fields (line : list Z) (max_fields : nat) : list (list Z) :=
  split_loop (max_fields - 1) [] line.

(** The lines of a file, as the loops of [user_load_from_disk] find them. *)
Fixpoint lines_of (cur text : list Z) : list (list Z) :=
  match text with
  | [] => match cur with [] => [] | _ => [cur] end
  | c :: text' => if c =? 10 then cur :: lines_of [] text' else lines_of (cur ++ [c]) text'
  end.

(** ** Salt *)

Definition salt_seed (tsc : Z) (db : user_db) : user_db :=
  mkDb (groups db) (users db) (if u64 tsc =? 0 then 0xdeadbeefcafe1234 else u64 tsc).

Definition next_salt (s0 : Z) : Z :=
  let s1 := u64 (Z.lxor s0 (Z.shiftl s0 13)) in
  let s2 := Z.lxor s1 (Z.shiftr s1 7) in
  u64 (Z.lxor s2 (Z.shiftl s2 17)).
Definition gen_salt (db : user_db) : user_db * Z :=
  let s := next_salt (salt_state db) in (mkDb (groups db) (users db) s, s).
Definition salt_bytes (s : Z) : list Z :=
  map (fun i => u8 (Z.shiftr s (i * 8))) [0; 1; 2; 3; 4; 5; 6; 7].

(** ** Users and groups *)
Section db.
Context (kmalloc_ok : Z -> bool).

Definition user_exists (db : user_db) (u : Z) : bool :=
  if (u <? 0) || (MAX_USERS <=? u) then false else exists_ (the_user db u).

Definition user_create_group (name : list Z) (p : Z) (db : user_db) : user_db * Z :=
  match find_first (fun i => negb (group_exists (the_group db i))) 0 (Z.to_nat MAX_GROUPS) with
  | None => (db, -1)
  | Some i => (set_group i (mkGroup name i p true) db, i)
  end.

Definition user_create_user_full (name : list Z) (g : Z) (home_ shell_ : option (list Z)) (db : user_db)
  : user_db * Z :=
  if MAX_GROUPS <=? g then (db, -1)
  else
    match find_first (fun i => negb (exists_ (the_user db i))) 0 (Z.to_nat MAX_USERS) with
    | None => (db, -1)
    | Some i =>
        (set_user i (mkUser i g name (put_str [] (password_hash (the_user db i)))
           (u_strlcpy (default (str "/") home_) USER_HOME_LEN)
           (u_strlcpy (default (str "/bin/mountshell") shell_) USER_SHELL_LEN) true) db, i)
    end.

(** The arrays are indexed with any [int] below their size: an index below 0
    is outside them, where the model reads a user that does not exist. *)
Definition user_check_perms (db : user_db) (reqU recU : Z) : bool :=
  if reqU =? recU then true
  else if (MAX_USERS <=? reqU) || (MAX_USERS <=? recU) then false
  else if negb (exists_ (the_user db reqU)) || negb (exists_ (the_user db recU)) then false
  else
    let reqG := group (the_user db reqU) in
    let recG := group (the_user db recU) in
    if (MAX_GROUPS <=? reqG) || (MAX_GROUPS <=? recG) then false
    else perms (the_group db reqG) <=? perms (the_group db recG).

Definition user_get_gid (db : user_db) (u : Z) : Z :=
  if negb (user_exists db u) then -1 else group (the_user db u).

Definition group_valid (db : user_db) (g : Z) : bool :=
  negb ((g <? 0) || (MAX_GROUPS <=? g) || negb (group_exists (the_group db g))).

Definition user_is_root (db : user_db) (u : Z) : bool :=
  if negb (user_exists db u) then false
  else if negb (group_valid db (group (the_user db u))) then false
  else perms (the_group db (group (the_user db u))) =? ROOT.

Definition user_get_perm_level (db : user_db) (u : Z) : Z :=
  if negb (user_exists db u) then USER
  else if negb (group_valid db (group (the_user db u))) then USER
  else perms (the_group db (group (the_user db u))).

Definition user_find_by_name (db : user_db) (name : option (list Z)) : Z :=
  match name with
  | None => -1
  | Some n =>
      default (-1) (find_first (fun i => exists_ (the_user db i) && bool_decide (username (the_user db i) = n))
                      0 (Z.to_nat MAX_USERS))
  end.

Definition group_find_by_name (db : user_db) (name : option (list Z)) : Z :=
  match name with
  | None => -1
  | Some n =>
      default (-1) (find_first (fun i => group_exists (the_group db i) && bool_decide (groupname (the_group db i) = n))
                      0 (Z.to_nat MAX_GROUPS))
  end.

(** ** Passwords *)

Definition hash_fmt : list Z := str "$sha256$%s$%s".

Definition user_set_password (u : Z) (password : option (list Z)) (db : user_db) : user_db * Z :=
  match password with
  | None => (db, -1)
  | Some pw =>
      if negb (user_exists db u) then (db, -1)
      else
        let '(db1, s) := gen_salt db in
        let salt := salt_bytes s in
        if negb (kmalloc_ok (8 + Z.of_nat (length pw))) then (db1, -1)
        else
          let hash := sha256 (salt ++ pw) in
          let text := u_fmt SHADOW_HASH_LEN hash_fmt
                        [AStr (Some (hex_string salt)); AStr (Some (hex_string hash))] in
          (set_user u (set_hash (put_str text (password_hash (the_user db1 u))) (the_user db1 u)) db1, 0)
  end.

Definition user_authenticate (name password : option (list Z)) (db : user_db) : Z :=
  match name, password with
  | Some _, Some pw =>
      let u := user_find_by_name db name in
      if u <? 0 then -2
      else
        let stored := password_hash (the_user db u) in
        if (aget 0 stored 0 =? 0) || (aget 0 stored 0 =? 33) then -3
        else if negb (u_strncmp stored (str "$sha256$") 8 =? 0) then -4
        else
          let salt_hex := drop 8 stored in
          let hash_hex := drop 17 salt_hex in
          let salt := map (fun i => hex_byte (aget 0 salt_hex (i * 2)) (aget 0 salt_hex (i * 2 + 1)))
                        [0; 1; 2; 3; 4; 5; 6; 7] in
          if negb (kmalloc_ok (8 + Z.of_nat (length pw))) then -5
          else
            let computed := hex_string (sha256 (salt ++ pw)) in
            if negb (u_strncmp computed hash_hex 64 =? 0) then -6 else u
  | _, _ => -1
  end.

(** [user_init], given what the time-stamp counter reads; the arrays come from
    [kmalloc] with any contents. *)
Definition user_init (tsc : Z) (db : user_db) : user_db * Z :=
  let db0 := salt_seed tsc db in
  if negb (kmalloc_ok (24 * MAX_GROUPS)) then (db0, -1)
  else
    let db1 := mkDb (map (fun g => mkGroup (groupname g) (gid g) (perms g) false) (groups db0))
                 (users db0) (salt_state db0) in
    if negb (kmalloc_ok (344 * MAX_USERS)) then (db1, -1)
    else
      let db2 := mkDb (groups db1)
                   (map (fun u => mkUser (uid u) (group u) (username u) (password_hash u) (home u) (shell u) false)
                      (users db1)) (salt_state db1) in
      let '(db3, rootG) := user_create_group (str "root") ROOT db2 in
      if rootG <? 0 then (db3, -1)
      else
        let '(db4, rootU) := user_create_user_full (str "root") rootG (Some (str "/root"))
                               (Some (str "/bin/mountshell")) db3 in
        if rootU <? 0 then (db4, -1)
        else (fst (user_set_password rootU (Some (str "bmroot")) db4), 0).
End db.

(** ** Files *)

(** What the database needs of the file system (src/kernel/drivers/fs/ext,
    src/kernel/hal/vfs.c).  A file is named by its path and opened as a
    handle; [ext2_read] returns the bytes read. *)
Class Ext2Ops (F : Type) := {
  ext2_mkdir : list Z -> F -> F;
  ext2_delete : list Z -> F -> F;
  ext2_create : list Z -> Z -> F -> F * bool;
  ext2_open : list Z -> F -> option Z;
  ext2_size : Z -> F -> Z;
  ext2_read : Z -> Z -> F -> list Z;
  ext2_write : Z -> list Z -> F -> F * Z;
  VFS_Create : list Z -> bool -> F -> F
}.

Section files.
Context {F : Type} `{!Ext2Ops F} (kmalloc_ok : Z -> bool).

(** [rootfs] is not NULL, and [mounted]. *)
Record disk := mkDisk { fs : F; has_rootfs : bool; mounted : bool }.

Definition read_full_file (path : list Z) (d : disk) : option (list Z) :=
  if negb (has_rootfs d) then None
  else
    match ext2_open path (fs d) with
    | None => None
    | Some f =>
        let size := ext2_size f (fs d) in
        if (size =? 0) || (65536 <? size) then None
        else if negb (kmalloc_ok (size + 1)) then None
        else Some (cstr (ext2_read f size (fs d)))
    end.

Definition write_full_file (path buf : list Z) (d : disk) : disk * Z :=
  if negb (has_rootfs d) then (d, -1)
  else
    let f1 := ext2_delete path (fs d) in
    let '(f2, ok) := ext2_create path 416 f1 in
    if negb ok then (mkDisk f2 (has_rootfs d) (mounted d), -1)
    else
      match ext2_open path f2 with
      | None => (mkDisk f2 (has_rootfs d) (mounted d), -1)
      | Some f =>
          let '(f3, r) := ext2_write f buf f2 in
          (mkDisk f3 (has_rootfs d) (mounted d), if 0 <=? r then 0 else -1)
      end.

Definition user_create_user (name : list Z) (g : Z) (db : user_db) (d : disk) : user_db * disk * Z :=
  let home_ := u_fmt USER_HOME_LEN (str "/home/%s") [AStr (Some name)] in
  let f1 := VFS_Create (str "/home") true (fs d) in
  let f2 := VFS_Create home_ true f1 in
  let '(db', r) := user_create_user_full name g (Some home_) (Some (str "/bin/mountshell")) db in
  (db', mkDisk f2 (has_rootfs d) (mounted d), r).

Definition newline : list Z := [10].
Definition passwd_fmt : list Z := str "%s:x:%d:%d::%s:%s" ++ newline.
Definition shadow_fmt : list Z := str "%s:%s:0:0:99999:7:::" ++ newline.
Definition group_fmt : list Z := str "%s:x:%d:%d" ++ newline.

(** The text built in a buffer of [size] bytes by one [u_fmt] per entry. *)
Definition build {A} (size : Z) (keep : A -> bool) (fmt : list Z) (args : A -> list fmt_arg) (l : list A)
  : list Z :=
  fold_left (fun buf x => if keep x then buf ++ u_fmt (size - Z.of_nat (length buf)) fmt (args x) else buf)
    l [].

Definition passwd_args (u : user_t) : list fmt_arg :=
  [AStr (Some (username u)); AInt (uid u); AInt (group u); AStr (Some (home u)); AStr (Some (shell u))].
Definition stored_hash (u : user_t) : list Z :=
  if negb (aget 0 (password_hash u) 0 =? 0) then cstr (password_hash u) else str "!".
Definition shadow_args (u : user_t) : list fmt_arg := [AStr (Some (username u)); AStr (Some (stored_hash u))].
Definition group_args (g : group_t) : list fmt_arg := [AStr (Some (groupname g)); AInt (gid g); AInt (perms g)].

Definition user_save_to_disk (db : user_db) (d : disk) : disk * Z :=
  if negb (mounted d) || negb (has_rootfs d) then (d, -1)
  else
    let d0 := mkDisk (ext2_mkdir (str "/etc") (fs d)) (has_rootfs d) (mounted d) in
    if negb (kmalloc_ok 32768) || negb (kmalloc_ok 16384) then (d0, -1)
    else
      let pbuf := build 32768 exists_ passwd_fmt passwd_args (users db) in
      let sbuf := build 32768 exists_ shadow_fmt shadow_args (users db) in
      let gbuf := build 16384 group_exists group_fmt group_args (groups db) in
      let '(d1, r1) := write_full_file (str "/etc/passwd") pbuf d0 in
      let '(d2, r2) := write_full_file (str "/etc/shadow") sbuf d1 in
      let '(d3, r3) := write_full_file (str "/etc/group") gbuf d2 in
      (d3, if (r1 <? 0) || (r2 <? 0) || (r3 <? 0) then -1 else 0).

Definition field (fields : list (list Z)) (i : nat) : list Z := nth i fields [].

Definition load_group_line (db : user_db) (line : list Z) : user_db :=
  match line with
  | [] => db
  | _ =>
      let fields := split_fields line 8 in
      if (4 <=? length fields)%nat then
        let g := simple_atoi (field fields 2) in
        let perm := simple_atoi (field fields 3) in
        if (0 <=? g) && (g <? MAX_GROUPS) then set_group g (mkGroup (field fields 0) g perm true) db
        else db
      else db
  end.

Definition load_passwd_line (db : user_db) (line : list Z) : user_db :=
  match line with
  | [] => db
  | _ =>
      let fields := split_fields line 8 in
      if (7 <=? length fields)%nat then
        let u := simple_atoi (field fields 2) in
        let g := simple_atoi (field fields 3) in
        if (0 <=? u) && (u <? MAX_USERS) then
          set_user u (mkUser u g (field fields 0) (password_hash (the_user db u))
            (u_strlcpy (field fields 5) USER_HOME_LEN) (u_strlcpy (field fields 6) USER_SHELL_LEN) true) db
        else db
      else db
  end.

Definition load_shadow_line (db : user_db) (line : list Z) : user_db :=
  match line with
  | [] => db
  | _ =>
      let fields := split_fields line 10 in
      if (2 <=? length fields)%nat then
        let u := user_find_by_name db (Some (field fields 0)) in
        if 0 <=? u then
          set_user u (set_hash (put_str (u_strlcpy (field fields 1) SHADOW_HASH_LEN)
                                  (password_hash (the_user db u))) (the_user db u)) db
        else db
      else db
  end.

Definition clear_groups (db : user_db) : user_db :=
  mkDb (map (fun g => mkGroup (groupname g) (gid g) (perms g) false) (groups db)) (users db) (salt_state db).
Definition clear_users (db : user_db) : user_db :=
  mkDb (groups db)
    (map (fun u => mkUser (uid u) (group u) (username u) (put_str [] (password_hash u)) (home u) (shell u) false)
       (users db)) (salt_state db).

Definition user_load_from_disk (db : user_db) (d : disk) : user_db * Z :=
  if negb (mounted d) || negb (has_rootfs d) then (db, -1)
  else
    let db1 := match read_full_file (str "/etc/group") d with
               | Some text => fold_left load_group_line (lines_of [] text) (clear_groups db)
               | None => db end in
    let db2 := match read_full_file (str "/etc/passwd") d with
               | Some text => fold_left load_passwd_line (lines_of [] text) (clear_users db1)
               | None => db1 end in
    let db3 := match read_full_file (str "/etc/shadow") d with
               | Some text => fold_left load_shadow_line (lines_of [] text) db2
               | None => db2 end in
    (db3, 0).
End files.
Arguments disk : clear implicits.

(** ** Lemmas: strings *)

Lemma cstr_app s rest : Forall (fun c => c <> 0) s -> cstr (s ++ 0 :: rest) = s.
Proof.
  induction s as [|c s IH]; simpl; intros H; [done|]. apply Forall_cons_1 in H as [Hc H].
  destruct (Z.eqb_spec c 0); [done|]. by rewrite IH.
Qed.

Lemma cstr_put s buf : Forall (fun c => c <> 0) s -> cstr (put_str s buf) = s.
Proof. intros H. unfold put_str. by apply cstr_app. Qed.

Lemma u_strncmp_eq a : forall b c d,
  Forall (fun x => x <> 0) a -> length b = length a ->
  u_strncmp (a ++ c) (b ++ d) (length a) = 0 <-> a = b.
Proof.
  induction a as [|x a IH]; intros [|y b] c d Ha Hl; try done.
  apply Forall_cons_1 in Ha as [Hx Ha]. simpl in Hl. cbn [app u_strncmp length].
  change (aget 0 (x :: a ++ c) 0) with x. change (aget 0 (y :: b ++ d) 0) with y.
  destruct (Z.eqb_spec x y) as [->|Hne]; cbn [negb].
  - destruct (Z.eqb_spec y 0); [done|]. cbn [tail]. rewrite IH by (done || lia).
    split; [by intros -> |by intros [= ->]].
  - split; [lia|]. by intros [= -> _].
Qed.

Lemma hex_digit_range v : 0 <= v < 16 -> 48 <= hex_digit v <= 102 /\ hex_digit v <> 58 /\
  hex_nibble 0 (hex_digit v) = v.
Proof.
  intros Hv. unfold hex_digit, hex_nibble. destruct (Z.ltb_spec v 10).
  - destruct (Z.leb_spec 48 (48 + v)), (Z.leb_spec (48 + v) 57); try lia. cbn [andb].
    rewrite u8_small by lia. split_and!; try lia. rewrite Z.lor_0_l. lia.
  - destruct (Z.leb_spec 48 (97 + (v - 10))), (Z.leb_spec (97 + (v - 10)) 57); try lia.
    destruct (Z.leb_spec 97 (97 + (v - 10))), (Z.leb_spec (97 + (v - 10)) 102); try lia. cbn [andb].
    rewrite u8_small by lia. split_and!; try lia. rewrite Z.lor_0_l. lia.
Qed.

Lemma hex_nibble_lor v w : 0 <= w < 16 -> hex_nibble v (hex_digit w) = Z.lor v w.
Proof.
  intros Hw. destruct (hex_digit_range w Hw) as (_ & _ & E). revert E. unfold hex_nibble. rewrite !Z.lor_0_l.
  destruct (_ && _); [by intros ->|]. destruct (_ && _); [by intros ->|].
  destruct (_ && _); [by intros ->|]. intros <-. by rewrite Z.lor_0_r.
Qed.

Lemma hex_byte_digits b :
  0 <= b < 256 -> hex_byte (hex_digit (Z.shiftr b 4)) (hex_digit (Z.land b 0xf)) = b.
Proof.
  intros Hb. destruct (nibbles b Hb) as (H1 & H2 & H3). unfold hex_byte.
  rewrite !hex_nibble_lor by done. change (u8 (Z.shiftl 0 4)) with 0. rewrite Z.lor_0_l.
  rewrite Z.shiftl_mul_pow2 by lia. change (2 ^ 4) with 16. rewrite u8_small by lia.
  rewrite lor_disjoint_add; [lia|]. apply Z.bits_inj'. intros i Hi.
  rewrite Z.land_spec, Z.bits_0. destruct (decide (i < 4)).
  - replace (Z.shiftr b 4 * 16) with (Z.shiftr b 4 * 2 ^ 4) by lia.
    by rewrite Z.mul_pow2_bits_low.
  - rewrite (testbit_high 4 (Z.land b 15)) by lia. apply andb_false_r.
Qed.

Lemma hex_string_nonzero bs : Forall (fun b => 0 <= b < 256) bs -> Forall (fun c => 48 <= c <= 102 /\ c <> 58) (hex_string bs).
Proof.
  induction 1 as [|b bs Hb _ IH]; [constructor|]. destruct (nibbles b Hb) as (H1 & H2 & _).
  destruct (hex_digit_range _ H1) as (? & ? & _). destruct (hex_digit_range _ H2) as (? & ? & _).
  constructor; [done|]. constructor; [done|]. exact IH.
Qed.

Lemma salt_bytes_range s : Forall (fun b => 0 <= b < 256) (salt_bytes s).
Proof. repeat (constructor; [apply u8_range|]). constructor. Qed.

(** ** The database *)

Record db_ok (db : user_db) : Prop := {
  dk_users : Z.of_nat (length (users db)) = MAX_USERS;
  dk_groups : Z.of_nat (length (groups db)) = MAX_GROUPS
}.

Lemma the_user_set db i u j :
  db_ok db -> 0 <= i < MAX_USERS -> the_user (set_user i u db) j = if j =? i then u else the_user db j.
Proof.
  intros [Hu _] Hi. unfold the_user, set_user. cbn [users]. destruct (Z.eqb_spec j i) as [->|Hne].
  - apply aget_aset_eq. lia.
  - apply aget_aset_ne; lia.
Qed.

Lemma the_group_set db i g j :
  db_ok db -> 0 <= i < MAX_GROUPS -> the_group (set_group i g db) j = if j =? i then g else the_group db j.
Proof.
  intros [_ Hg] Hi. unfold the_group, set_group. cbn [groups]. destruct (Z.eqb_spec j i) as [->|Hne].
  - apply aget_aset_eq. lia.
  - apply aget_aset_ne; lia.
Qed.

Lemma set_user_ok db i u : db_ok db -> db_ok (set_user i u db).
Proof. intros [Hu Hg]. split; cbn [set_user users groups]; [by rewrite length_aset|done]. Qed.
Lemma set_group_ok db i g : db_ok db -> db_ok (set_group i g db).
Proof. intros [Hu Hg]. split; cbn [set_group users groups]; [done|by rewrite length_aset]. Qed.

Lemma user_exists_range db u : user_exists db u = true -> 0 <= u < MAX_USERS /\ exists_ (the_user db u) = true.
Proof.
  unfold user_exists. destruct (Z.ltb_spec u 0), (Z.leb_spec MAX_USERS u); try done.
Qed.

(** The text of a password: the salt and the hash in hexadecimal. *)
Definition password_text (salt hash : list Z) : list Z :=
  str "$sha256$" ++ hex_string salt ++ [36] ++ hex_string hash.

Lemma u_fmt_str room s fmt args :
  (length s <= room)%nat -> (0 < room)%nat ->
  u_fmt_loop room (37 :: 115 :: fmt) (AStr (Some s) :: args) = s ++ u_fmt_loop (room - length s) fmt args.
Proof.
  intros Hs Hr. cbn [u_fmt_loop]. destruct (Nat.eqb_spec room 0); [lia|]. simpl negb. cbv iota.
  rewrite take_ge by done. done.
Qed.

Lemma u_fmt_char room c fmt args :
  (0 < room)%nat -> c <> 37 -> u_fmt_loop room (c :: fmt) args = c :: u_fmt_loop (room - 1) fmt args.
Proof.
  intros Hr Hc. cbn [u_fmt_loop]. destruct (Nat.eqb_spec room 0); [lia|].
  by destruct (Z.eqb_spec c 37).
Qed.

Lemma hash_text salt hash :
  length salt = 8%nat -> length hash = 32%nat ->
  u_fmt SHADOW_HASH_LEN hash_fmt [AStr (Some (hex_string salt)); AStr (Some (hex_string hash))]
  = password_text salt hash.
Proof.
  intros Hs Hh. pose proof (length_hex_string salt). pose proof (length_hex_string hash).
  unfold u_fmt, password_text. change (Z.to_nat (SHADOW_HASH_LEN - 1)) with 127%nat.
  change hash_fmt with (str "$sha256$" ++ [37; 115; 36; 37; 115]). change (str "$sha256$") with [36; 115; 104; 97; 50; 53; 54; 36].
  cbn [app]. do 8 (rewrite u_fmt_char by (lia || done); f_equal).
  rewrite u_fmt_str by lia. f_equal. rewrite u_fmt_char by (lia || done). f_equal.
  rewrite u_fmt_str by lia. cbn [u_fmt_loop]. apply app_nil_r.
Qed.

Lemma list8 {A} (l : list A) : length l = 8%nat -> exists a b c d e f g h, l = [a; b; c; d; e; f; g; h].
Proof. intros H. do 8 (destruct l as [|? l]; [done|]). destruct l; [|done]. by repeat eexists. Qed.

(** The salt read back from the text. *)
Lemma salt_back salt rest :
  length salt = 8%nat -> Forall (fun b => 0 <= b < 256) salt ->
  map (fun i => hex_byte (aget 0 (hex_string salt ++ rest) (i * 2)) (aget 0 (hex_string salt ++ rest) (i * 2 + 1)))
    [0; 1; 2; 3; 4; 5; 6; 7] = salt.
Proof.
  intros Hl Hs. destruct (list8 salt Hl) as (a & b & c & d & e & f & g & h & ->).
  repeat (apply Forall_cons_1 in Hs as [? Hs]).
  cbv -[hex_byte hex_digit Z.shiftr Z.land Z.le Z.lt].
  rewrite !hex_byte_digits by done. done.
Qed.

Section passwords.
Context (kmalloc_ok : Z -> bool).

Lemma user_set_password_cases u pw db :
  user_exists db u = true -> kmalloc_ok (8 + Z.of_nat (length pw)) = true ->
  let salt := salt_bytes (next_salt (salt_state db)) in
  user_set_password kmalloc_ok u (Some pw) db =
    (set_user u (set_hash (put_str (password_text salt (sha256 (salt ++ pw))) (password_hash (the_user db u)))
                   (the_user db u)) (mkDb (groups db) (users db) (next_salt (salt_state db))), 0).
Proof.
  intros He Hk salt. unfold user_set_password. rewrite He. cbn [negb gen_salt]. rewrite Hk. cbn [negb].
  fold salt. by rewrite hash_text by (done || apply length_sha256).
Qed.

(** Checking a password against a stored text. *)
Lemma user_authenticate_cases u name pw salt hash buf db :
  user_find_by_name db (Some name) = u -> 0 <= u ->
  password_hash (the_user db u) = put_str (password_text salt hash) buf ->
  length salt = 8%nat -> length hash = 32%nat ->
  Forall (fun b => 0 <= b < 256) salt -> Forall (fun b => 0 <= b < 256) hash ->
  kmalloc_ok (8 + Z.of_nat (length pw)) = true ->
  user_authenticate kmalloc_ok (Some name) (Some pw) db =
    if bool_decide (sha256 (salt ++ pw) = hash) then u else -6.
Proof.
  intros Hf Hu Hp Hs Hh Rs Rh Hk. unfold user_authenticate. rewrite Hf.
  destruct (Z.ltb_spec u 0); [lia|]. rewrite Hp. unfold put_str, password_text.
  set (after := 0 :: drop _ buf).
  assert (E8 : (str "$sha256$" ++ hex_string salt ++ [36] ++ hex_string hash) ++ after =
          str "$sha256$" ++ hex_string salt ++ [36] ++ hex_string hash ++ after)
    by by rewrite <- !app_assoc.
  rewrite E8. change (aget 0 (str "$sha256$" ++ hex_string salt ++ [36] ++ hex_string hash ++ after) 0) with 36.
  change ((36 =? 0) || (36 =? 33)) with false. cbv iota.
  assert (Hpre : u_strncmp (str "$sha256$" ++ hex_string salt ++ [36] ++ hex_string hash ++ after)
            (str "$sha256$") 8 = 0).
  { rewrite <- (app_nil_r (str "$sha256$")) at 2. change 8%nat with (length (str "$sha256$")).
    apply u_strncmp_eq; [|done|done]. repeat (constructor; [done|]). constructor. }
  rewrite Hpre. cbn [Z.eqb negb].
  assert (Hsalt : drop 8 (str "$sha256$" ++ hex_string salt ++ [36] ++ hex_string hash ++ after)
    = hex_string salt ++ [36] ++ hex_string hash ++ after) by done.
  rewrite Hsalt, salt_back by done. rewrite Hk. cbn [negb].
  assert (Hhash : drop 17 (hex_string salt ++ [36] ++ hex_string hash ++ after) = hex_string hash ++ after).
  { rewrite app_assoc. apply drop_app_length'. rewrite length_app, length_hex_string, Hs. done. }
  rewrite Hhash. pose proof (sha256_range (salt ++ pw)) as Rc.
  pose proof (length_sha256 (salt ++ pw)) as Lc.
  pose proof (u_strncmp_eq (hex_string (sha256 (salt ++ pw))) (hex_string hash) [] after) as Hcmp.
  rewrite app_nil_r, !length_hex_string, Lc, Hh in Hcmp. change (2 * 32)%nat with 64%nat in Hcmp.
  destruct Hcmp as [C1 C2]; [|done|].
  { eapply Forall_impl; [by apply hex_string_nonzero|]. simpl. intros; lia. }
  case_bool_decide as Heq.
  - subst hash. rewrite C2 by done. done.
  - destruct (Z.eqb_spec (u_strncmp (hex_string (sha256 (salt ++ pw))) (hex_string hash ++ after) 64) 0) as [E|E];
      [|done]. exfalso. apply Heq. apply hex_string_inj; [done|done|by apply C1].
Qed.

(** [user_find_by_name] depends only on the names. *)
Lemma user_find_ext db db' n :
  (forall i, exists_ (the_user db' i) = exists_ (the_user db i)) ->
  (forall i, exists_ (the_user db i) = true -> username (the_user db' i) = username (the_user db i)) ->
  user_find_by_name db' (Some n) = user_find_by_name db (Some n).
Proof.
  intros H1 H2. unfold user_find_by_name. f_equal. generalize (Z.to_nat MAX_USERS) as k.
  intros k. generalize 0. induction k as [|k IH]; intros i; [done|]. cbn [find_first].
  rewrite H1. destruct (exists_ (the_user db i)) eqn:E; cbn [andb]; [|apply IH].
  rewrite H2 by done. by destruct (bool_decide _).
Qed.

Lemma user_find_Some db n u :
  user_find_by_name db (Some n) = u -> 0 <= u ->
  0 <= u < MAX_USERS /\ exists_ (the_user db u) = true /\ username (the_user db u) = n /\
  forall i, 0 <= i < u -> exists_ (the_user db i) = true -> username (the_user db i) <> n.
Proof.
  unfold user_find_by_name. intros Hf Hu. destruct (find_first _ _ _) as [i|] eqn:E; [|simpl in Hf; lia].
  simpl in Hf. subst i. apply find_first_Some in E as (Hr & Hp & Hlow).
  apply andb_true_iff in Hp as [He Hn]. apply bool_decide_eq_true in Hn.
  split_and!; [lia|unfold MAX_USERS in *; lia|done|done|]. intros j Hj Hje Hjn.
  specialize (Hlow j Hj). rewrite Hje, bool_decide_true in Hlow; done.
Qed.

(** Setting a password changes the hash of one user only. *)
Lemma set_password_users u pw db i :
  db_ok db -> user_exists db u = true -> kmalloc_ok (8 + Z.of_nat (length pw)) = true ->
  let db' := fst (user_set_password kmalloc_ok u (Some pw) db) in
  db_ok db' /\ groups db' = groups db /\
  the_user db' i = if i =? u then set_hash (put_str (password_text (salt_bytes (salt_state db'))
      (sha256 (salt_bytes (salt_state db') ++ pw))) (password_hash (the_user db u))) (the_user db u)
    else the_user db i.
Proof.
  intros Hok He Hk. cbv zeta. rewrite user_set_password_cases by done. cbn [fst].
  destruct (user_exists_range db u He) as [Hu _].
  split; [by apply set_user_ok; destruct Hok|]. split; [done|].
  rewrite the_user_set by (done || by destruct Hok). done.
Qed.
End passwords.

(** ** Numbers and fields as text *)

Lemma atoi_app l1 : forall v l2,
  Forall (fun c => 48 <= c <= 57) l1 -> atoi_loop v (l1 ++ l2) = atoi_loop (atoi_loop v l1) l2.
Proof.
  induction l1 as [|c l1 IH]; intros v l2 H; [done|]. apply Forall_cons_1 in H as [Hc H]. cbn [app atoi_loop].
  destruct (Z.leb_spec 48 c), (Z.leb_spec c 57); try lia. cbn [andb]. by apply IH.
Qed.

Lemma digits_rev_digits fuel : forall v, 0 <= v -> Forall (fun c => 48 <= c <= 57) (digits_rev fuel v).
Proof.
  induction fuel as [|fuel IH]; intros v Hv; [constructor|]. cbn [digits_rev].
  destruct (v =? 0); [constructor|]. constructor; [zdiv_lia|]. apply IH. zdiv_lia.
Qed.

Lemma atoi_digits fuel : forall v,
  0 <= v < 10 ^ Z.of_nat fuel -> v < 2 ^ 31 -> atoi_loop 0 (rev (digits_rev fuel v)) = v.
Proof.
  induction fuel as [|fuel IH]; intros v Hv Hm; [simpl in *; lia|]. cbn [digits_rev].
  destruct (Z.eqb_spec v 0) as [->|Hne]; [done|]. cbn [rev].
  rewrite atoi_app by (apply Forall_rev, digits_rev_digits; zdiv_lia).
  rewrite IH; [|rewrite Nat2Z.inj_succ, Z.pow_succ_r in Hv by lia; zdiv_lia|zdiv_lia].
  cbn [atoi_loop].
  assert (Hd : 0 <= v mod 10 < 10) by (apply Z.mod_pos_bound; lia).
  destruct (Z.leb_spec 48 (48 + v mod 10)), (Z.leb_spec (48 + v mod 10) 57); try lia. cbn [andb].
  pose proof (Z.div_mod v 10 ltac:(lia)). rewrite int32_small by lia. lia.
Qed.

(** Printing a number and reading it back. *)
Lemma atoi_itoa v : 0 <= v < 2 ^ 31 -> simple_atoi (u_itoa v) = v.
Proof.
  intros Hv. unfold simple_atoi, u_itoa. destruct (Z.ltb_spec v 0); [lia|].
  destruct (Z.eqb_spec v 0) as [->|]; [done|]. apply atoi_digits; [|lia].
  change (10 ^ Z.of_nat 10) with 10000000000. lia.
Qed.

(** A field holds no separator. *)
Definition field_ok (s : list Z) : Prop := Forall (fun c => c <> 0 /\ c <> 10 /\ c <> 58) s.

Lemma itoa_field v : 0 <= v < 2 ^ 31 -> field_ok (u_itoa v).
Proof.
  intros Hv. unfold u_itoa. destruct (Z.ltb_spec v 0); [lia|]. unfold field_ok.
  destruct (v =? 0); [repeat constructor; lia|].
  eapply Forall_impl; [apply Forall_rev, digits_rev_digits; lia|]. simpl. lia.
Qed.

Lemma split_field f : forall left cur rest,
  field_ok f -> split_loop (S left) cur (f ++ 58 :: rest) = (cur ++ f) :: split_loop left [] rest.
Proof.
  induction f as [|c f IH]; intros left cur rest Hf; cbn [app split_loop].
  - by rewrite app_nil_r.
  - apply Forall_cons_1 in Hf as [Hc Hf]. destruct (Z.eqb_spec c 58); [lia|].
    rewrite IH by done. by rewrite <- app_assoc.
Qed.

Lemma split_last f : forall left cur, field_ok f -> split_loop left cur f = [cur ++ f].
Proof.
  induction f as [|c f IH]; intros left cur Hf; cbn [split_loop]; [by rewrite app_nil_r|].
  destruct left; [done|]. apply Forall_cons_1 in Hf as [Hc Hf].
  destruct (Z.eqb_spec c 58); [lia|]. rewrite IH by done. by rewrite <- app_assoc.
Qed.

Lemma lines_of_line l : forall cur text,
  Forall (fun c => c <> 10) l -> lines_of cur (l ++ 10 :: text) = (cur ++ l) :: lines_of [] text.
Proof.
  induction l as [|c l IH]; intros cur text Hl; cbn [app lines_of]; [by rewrite app_nil_r|].
  apply Forall_cons_1 in Hl as [Hc Hl]. destruct (Z.eqb_spec c 10); [done|].
  rewrite IH by done. by rewrite <- app_assoc.
Qed.

Lemma lines_of_concat ls :
  Forall (Forall (fun c => c <> 10)) ls -> lines_of [] (concat (map (fun l => l ++ [10]) ls)) = ls.
Proof.
  induction 1 as [|l ls Hl _ IH]; [done|]. cbn [map concat]. rewrite <- app_assoc. cbn [app].
  by rewrite lines_of_line, IH.
Qed.

(** ** [u_fmt] without a limit *)
Fixpoint expand (fmt : list Z) (args : list fmt_arg) : list Z :=
  match fmt with
  | [] => []
  | c :: fmt' =>
      if negb (c =? 37) then c :: expand fmt' args
      else
        match fmt' with
        | [] => []
        | d :: fmt'' =>
            if d =? 115 then
              match args with AStr (Some s) :: _ => s | _ => str "(null)" end ++ expand fmt'' (tail args)
            else if (d =? 100) || (d =? 117) then
              u_itoa (match args with AInt v :: _ => v | _ => 0 end) ++ expand fmt'' (tail args)
            else expand fmt'' args
        end
  end.

Lemma take_app_room {A} room (s t : list A) :
  take room (s ++ t) = take room s ++ take (room - length (take room s)) t.
Proof. rewrite take_app, length_take. do 2 f_equal. lia. Qed.

Lemma u_fmt_expand n : forall fmt, (length fmt <= n)%nat -> forall room args,
  u_fmt_loop room fmt args = take room (expand fmt args).
Proof.
  induction n as [|n IH]; intros [|c fmt] Hn room args; cbn [length] in Hn; try lia.
  1-2: cbn [u_fmt_loop expand]; by rewrite take_nil.
  cbn [u_fmt_loop expand]. cbn [length] in Hn.
  destruct (Nat.eqb_spec room 0) as [->|Hr]; [by rewrite take_0|].
  destruct (negb (c =? 37)).
  - destruct room; [done|]. cbn [take]. f_equal. rewrite IH by lia. f_equal. lia.
  - destruct fmt as [|d fmt]; [by rewrite take_nil|]. cbn [length] in Hn.
    destruct (d =? 115); [|destruct ((d =? 100) || (d =? 117))].
    + rewrite take_app_room. f_equal. apply IH. lia.
    + rewrite take_app_room. f_equal. apply IH. lia.
    + apply IH. lia.
Qed.

Lemma u_fmt_full size fmt args :
  Z.of_nat (length (expand fmt args)) < size -> u_fmt size fmt args = expand fmt args.
Proof.
  intros H. unfold u_fmt. rewrite (u_fmt_expand (length fmt)) by done. apply take_ge. lia.
Qed.

(** The text of all entries, when it fits. *)
Lemma build_full {A} size keep fmt (args : A -> list fmt_arg) l : forall pre,
  Z.of_nat (length (pre ++ concat (map (fun x => expand fmt (args x)) (List.filter keep l)))) < size ->
  fold_left (fun buf x => if keep x then buf ++ u_fmt (size - Z.of_nat (length buf)) fmt (args x) else buf) l pre
  = pre ++ concat (map (fun x => expand fmt (args x)) (List.filter keep l)).
Proof.
  induction l as [|x l IH]; intros pre Hl; cbn [fold_left List.filter map concat] in *; [by rewrite app_nil_r|].
  destruct (keep x); cbn [map concat] in *; [|by apply IH].
  rewrite app_assoc in Hl |- *. rewrite u_fmt_full.
  - by apply IH.
  - rewrite !length_app in Hl. lia.
Qed.

(** The lines of the three files. *)
Definition passwd_line (u : user_t) : list Z :=
  username u ++ 58 :: [120] ++ 58 :: u_itoa (uid u) ++ 58 :: u_itoa (group u) ++ 58 :: [] ++ 58 :: home u ++ 58 :: shell u.
Definition shadow_line (u : user_t) : list Z :=
  username u ++ 58 :: stored_hash u ++ 58 :: str "0:0:99999:7:::".
Definition group_line (g : group_t) : list Z :=
  groupname g ++ 58 :: [120] ++ 58 :: u_itoa (gid g) ++ 58 :: u_itoa (perms g).

Lemma expand_char c fmt args : c <> 37 -> expand (c :: fmt) args = c :: expand fmt args.
Proof. intros Hc. cbn [expand]. by destruct (Z.eqb_spec c 37). Qed.
Lemma expand_s s fmt args : expand (37 :: 115 :: fmt) (AStr (Some s) :: args) = s ++ expand fmt args.
Proof. done. Qed.
Lemma expand_d v fmt args : expand (37 :: 100 :: fmt) (AInt v :: args) = u_itoa v ++ expand fmt args.
Proof. done. Qed.

Ltac expand_all :=
  repeat first [rewrite expand_s | rewrite expand_d | rewrite expand_char by done];
  change (expand [] []) with (@nil Z);
  repeat (rewrite <- app_assoc || rewrite <- app_comm_cons); try done.

Lemma expand_passwd u : expand passwd_fmt (passwd_args u) = passwd_line u ++ [10].
Proof.
  change passwd_fmt with [37; 115; 58; 120; 58; 37; 100; 58; 37; 100; 58; 58; 37; 115; 58; 37; 115; 10].
  unfold passwd_line, passwd_args. cbn [app]. expand_all.
Qed.
Lemma expand_shadow u : expand shadow_fmt (shadow_args u) = shadow_line u ++ [10].
Proof.
  change shadow_fmt with (37 :: 115 :: 58 :: 37 :: 115 :: 58 :: [48; 58; 48; 58; 57; 57; 57; 57; 57; 58; 55; 58; 58; 58; 10]).
  unfold shadow_line, shadow_args. change (str "0:0:99999:7:::") with [48; 58; 48; 58; 57; 57; 57; 57; 57; 58; 55; 58; 58; 58].
  expand_all.
Qed.
Lemma expand_group g : expand group_fmt (group_args g) = group_line g ++ [10].
Proof.
  change group_fmt with [37; 115; 58; 120; 58; 37; 100; 58; 37; 100; 10].
  unfold group_line, group_args. cbn [app]. expand_all.
Qed.

(** ** Loading *)

Record saveable_user (db : user_db) (i : Z) (u : user_t) : Prop := {
  su_uid : uid u = i;
  su_group : 0 <= group u < 2 ^ 31;
  su_name : field_ok (username u) /\ username u <> [];
  su_home : field_ok (home u) /\ Z.of_nat (length (home u)) < USER_HOME_LEN;
  su_shell : field_ok (shell u) /\ Z.of_nat (length (shell u)) < USER_SHELL_LEN;
  su_hash : field_ok (stored_hash u) /\ Z.of_nat (length (stored_hash u)) < SHADOW_HASH_LEN;
  su_unique : forall j, 0 <= j < MAX_USERS -> exists_ (the_user db j) = true ->
    username (the_user db j) = username u -> j = i
}.

Record saveable_group (i : Z) (g : group_t) : Prop := {
  sg_gid : gid g = i;
  sg_perms : 0 <= perms g < 2 ^ 31;
  sg_name : field_ok (groupname g) /\ groupname g <> []
}.

Lemma field_no_newline s : field_ok s -> Forall (fun c => c <> 10) s.
Proof. intros H. eapply Forall_impl; [exact H|]. simpl. lia. Qed.

Lemma field_no_nul s : field_ok s -> Forall (fun c => c <> 0) s.
Proof. intros H. eapply Forall_impl; [exact H|]. simpl. lia. Qed.

(** No line holds a newline or a NUL. *)
Definition line_ok (l : list Z) : Prop := Forall (fun c => c <> 0 /\ c <> 10) l.

Lemma field_line s : field_ok s -> line_ok s.
Proof. intros H. eapply Forall_impl; [exact H|]. simpl. lia. Qed.

Lemma line_app a b : line_ok a -> line_ok b -> line_ok (a ++ b).
Proof. intros. by apply Forall_app. Qed.
Lemma line_cons c l : c <> 0 /\ c <> 10 -> line_ok l -> line_ok (c :: l).
Proof. intros. by constructor. Qed.

Ltac line_tac :=
  repeat first
    [ apply line_app | apply line_cons; [split; done|] | (apply field_line; assumption)
    | (apply field_line, itoa_field; lia) | (by constructor) ].

Lemma passwd_line_ok db i u : 0 <= i < MAX_USERS -> saveable_user db i u -> line_ok (passwd_line u).
Proof.
  intros Hi [<- Hg [Hn _] [Hh _] [Hs _] _ _]. unfold passwd_line, MAX_USERS in *. line_tac.
Qed.
Lemma shadow_line_ok db i u : saveable_user db i u -> line_ok (shadow_line u).
Proof.
  intros [_ _ [Hn _] _ _ [Hp _] _]. unfold shadow_line.
  change (str "0:0:99999:7:::") with [48; 58; 48; 58; 57; 57; 57; 57; 57; 58; 55; 58; 58; 58]. line_tac.
Qed.
Lemma group_line_ok i g : 0 <= i < MAX_GROUPS -> saveable_group i g -> line_ok (group_line g).
Proof. intros Hi [<- Hp [Hn _]]. unfold group_line, MAX_GROUPS in *. line_tac. Qed.

Lemma split_passwd db i u :
  0 <= i < MAX_USERS -> saveable_user db i u ->
  split_fields (passwd_line u) 8 =
    [username u; [120]; u_itoa (uid u); u_itoa (group u); []; home u; shell u].
Proof.
  intros Hi [<- Hg [Hn _] [Hh _] [Hs _] _ _]. unfold split_fields, passwd_line, MAX_USERS in *.
  change (8 - 1)%nat with 7%nat.
  rewrite split_field by done. rewrite split_field by (repeat constructor; lia).
  rewrite split_field by (apply itoa_field; lia). rewrite split_field by (by apply itoa_field).
  rewrite split_field by constructor. rewrite split_field by done. by rewrite split_last.
Qed.

Lemma split_group i g :
  0 <= i < MAX_GROUPS -> saveable_group i g ->
  split_fields (group_line g) 8 = [groupname g; [120]; u_itoa (gid g); u_itoa (perms g)].
Proof.
  intros Hi [<- Hp [Hn _]]. unfold split_fields, group_line, MAX_GROUPS in *. change (8 - 1)%nat with 7%nat.
  rewrite split_field by done. rewrite split_field by (repeat constructor; lia).
  rewrite split_field by (apply itoa_field; lia). by rewrite split_last by (by apply itoa_field).
Qed.

Lemma split_shadow db i u :
  saveable_user db i u ->
  exists rest, split_fields (shadow_line u) 10 = username u :: stored_hash u :: rest.
Proof.
  intros [_ _ [Hn _] _ _ [Hp _] _]. unfold split_fields, shadow_line. change (10 - 1)%nat with 9%nat.
  rewrite split_field by done. rewrite split_field by done. by eexists.
Qed.

Lemma load_passwd_step db0 i u db :
  0 <= i < MAX_USERS -> saveable_user db0 i u ->
  load_passwd_line db (passwd_line u) =
    set_user i (mkUser i (group u) (username u) (password_hash (the_user db i)) (home u) (shell u) true) db.
Proof.
  intros Hi Hs. pose proof (split_passwd db0 i u Hi Hs) as E. destruct Hs as [<- Hg [Hn Hnn] [Hh Hhl] [Hsh Hsl] _ _].
  unfold load_passwd_line. destruct (passwd_line u) as [|c l] eqn:El.
  { unfold passwd_line in El. by apply app_eq_nil in El as [? _]. }
  rewrite E. cbn [length]. change (7 <=? 7)%nat with true. cbv iota. unfold field. cbn [nth].
  unfold MAX_USERS in *. rewrite !atoi_itoa by lia.
  destruct (Z.leb_spec 0 (uid u)), (Z.ltb_spec (uid u) 124); try lia. cbn [andb].
  unfold u_strlcpy, USER_HOME_LEN, USER_SHELL_LEN in *. by rewrite !take_ge by lia.
Qed.

Lemma load_group_step i g db :
  0 <= i < MAX_GROUPS -> saveable_group i g ->
  load_group_line db (group_line g) = set_group i (mkGroup (groupname g) i (perms g) true) db.
Proof.
  intros Hi Hs. pose proof (split_group i g Hi Hs) as E. destruct Hs as [<- Hp [Hn Hnn]].
  unfold load_group_line. destruct (group_line g) as [|c l] eqn:El.
  { unfold group_line in El. by apply app_eq_nil in El as [? _]. }
  rewrite E. cbn [length]. change (4 <=? 4)%nat with true. cbv iota. unfold field. cbn [nth].
  unfold MAX_GROUPS in *. rewrite !atoi_itoa by lia.
  destruct (Z.leb_spec 0 (gid g)), (Z.ltb_spec (gid g) 124); try lia. done.
Qed.

Lemma load_shadow_step db0 i u db :
  0 <= i < MAX_USERS -> saveable_user db0 i u -> user_find_by_name db (Some (username u)) = i ->
  load_shadow_line db (shadow_line u) =
    set_user i (set_hash (put_str (stored_hash u) (password_hash (the_user db i))) (the_user db i)) db.
Proof.
  intros Hi Hs Hf. destruct (split_shadow db0 i u Hs) as [rest E]. destruct Hs as [_ _ [Hn Hnn] _ _ [Hp Hpl] _].
  unfold load_shadow_line. destruct (shadow_line u) as [|c l] eqn:El.
  { unfold shadow_line in El. by apply app_eq_nil in El as [? _]. }
  rewrite E. cbn [length]. change (2 <=? S (S (length rest)))%nat with true. cbv iota.
  unfold field. cbn [nth]. rewrite Hf. destruct (Z.leb_spec 0 i); [|lia].
  unfold u_strlcpy, SHADOW_HASH_LEN in *. by rewrite take_ge by lia.
Qed.

(** Folding a loader over the lines of the entries that exist. *)
Lemma load_fold {A} (load : user_db -> list Z -> user_db) (line : A -> list Z) (keep : A -> bool)
    (Inv : Z -> user_db -> Prop) (l : list A) : forall n db,
  Inv n db ->
  (forall k x db, l !! k = Some x -> Inv (n + Z.of_nat k) db ->
     Inv (n + Z.of_nat k + 1) (if keep x then load db (line x) else db)) ->
  Inv (n + Z.of_nat (length l)) (fold_left load (map line (List.filter keep l)) db).
Proof.
  induction l as [|x l IH]; intros n db H0 Hs; cbn [List.filter map fold_left length].
  - by rewrite Z.add_0_r.
  - pose proof (Hs 0%nat x db eq_refl ltac:(by rewrite Z.add_0_r)) as H1. rewrite Z.add_0_r in H1.
    replace (n + Z.of_nat (S (length l))) with (n + 1 + Z.of_nat (length l)) by lia.
    assert (Hn : forall db', Inv (n + 1) db' ->
      Inv (n + 1 + Z.of_nat (length l)) (fold_left load (map line (List.filter keep l)) db')).
    { intros db' Hdb'. apply IH; [done|]. intros k y db'' Hk Hi.
      specialize (Hs (S k) y db'' Hk). rewrite Nat2Z.inj_succ in Hs.
      replace (n + Z.succ (Z.of_nat k)) with (n + 1 + Z.of_nat k) in Hs by lia. by apply Hs. }
    destruct (keep x); cbn [map fold_left]; by apply Hn.
Qed.
(** ** What the database relies on of the file system

    [view p f]: the size and the contents of the file at [p], if there is one. *)
Definition view {F} `{!Ext2Ops F} (p : list Z) (f : F) : option (Z * list Z) :=
  match ext2_open p f with
  | Some h => Some (ext2_size h f, ext2_read h (ext2_size h f) f)
  | None => None
  end.

(** A file just created and written holds what was written, and deleting,
    creating and writing one file leaves the others alone. *)
Class Ext2Laws (F : Type) `{!Ext2Ops F} : Prop := {
  law_write : forall p mode buf f f1 h f2 r, ext2_create p mode f = (f1, true) ->
    ext2_open p f1 = Some h -> ext2_write h buf f1 = (f2, r) -> 0 <= r ->
    view p f2 = Some (Z.of_nat (length buf), buf);
  law_delete : forall p q f, p <> q -> view q (ext2_delete p f) = view q f;
  law_create : forall p q mode f, p <> q -> view q (fst (ext2_create p mode f)) = view q f;
  law_write_other : forall p q h buf f, p <> q -> ext2_open p f = Some h ->
    view q (fst (ext2_write h buf f)) = view q f
}.

Section roundtrip.
Context {F : Type} `{!Ext2Ops F} `{!Ext2Laws F} (kmalloc_ok : Z -> bool).

Lemma read_full_view p (d : disk F) n text :
  has_rootfs d = true -> view p (fs d) = Some (n, text) -> 0 < n <= 65536 -> kmalloc_ok (n + 1) = true ->
  Forall (fun c => c <> 0) text -> read_full_file kmalloc_ok p d = Some text.
Proof.
  intros Hr Hv Hn Hk Ht. unfold read_full_file. rewrite Hr. cbn [negb]. unfold view in Hv.
  destruct (ext2_open p (fs d)) as [h|]; [|done]. injection Hv as E1 E2. rewrite E1 in *.
  destruct (Z.eqb_spec n 0), (Z.ltb_spec 65536 n); try lia. cbn [orb]. rewrite Hk. cbn [negb].
  rewrite E2. f_equal. rewrite <- (app_nil_r text) at 1. clear -Ht.
  induction text as [|c text IH]; [done|]. apply Forall_cons_1 in Ht as [Hc Ht]. cbn [app cstr].
  destruct (Z.eqb_spec c 0); [done|]. by rewrite IH.
Qed.

Lemma write_full_view p buf (d d' : disk F) r :
  write_full_file p buf d = (d', r) -> has_rootfs d = true ->
  has_rootfs d' = true /\ mounted d' = mounted d /\ (r = 0 \/ r = -1) /\
  (r = 0 -> view p (fs d') = Some (Z.of_nat (length buf), buf)) /\
  forall q, p <> q -> view q (fs d') = view q (fs d).
Proof.
  intros H Hr. unfold write_full_file in H. rewrite Hr in H. cbn [negb] in H.
  pose proof (law_create p) as Lc. destruct (ext2_create p 416 (ext2_delete p (fs d))) as [f1 ok] eqn:E1.
  assert (Hq1 : forall q, p <> q -> view q f1 = view q (fs d)).
  { intros q Hq. specialize (Lc q 416 (ext2_delete p (fs d)) Hq). rewrite E1 in Lc. cbn [fst] in Lc.
    rewrite Lc. by apply law_delete. }
  destruct ok; cbn [negb] in H; [|injection H as <- <-; split_and!; (done || by right)].
  destruct (ext2_open p f1) as [h|] eqn:E2; [|injection H as <- <-; split_and!; (done || by right)].
  destruct (ext2_write h buf f1) as [f2 w] eqn:E3. injection H as <- <-. cbn [has_rootfs mounted fs].
  split_and!; [done|done|destruct (0 <=? w); [by left|by right]| |].
  - intros Hw. destruct (Z.leb_spec 0 w); [|done]. by eapply law_write.
  - intros q Hq. pose proof (law_write_other p q h buf f1 Hq E2) as Lw. rewrite E3 in Lw.
    cbn [fst] in Lw. rewrite Lw. by apply Hq1.
Qed.

(** The three texts. *)
Definition file_text {A} (line : A -> list Z) (keep : A -> bool) (l : list A) : list Z :=
  concat (map (fun x => line x ++ [10]) (List.filter keep l)).

Lemma build_text {A} size keep fmt args (line : A -> list Z) (l : list A) :
  (forall x, expand fmt (args x) = line x ++ [10]) ->
  Z.of_nat (length (file_text line keep l)) < size -> build size keep fmt args l = file_text line keep l.
Proof.
  intros He Hs. unfold build, file_text in *.
  assert (E : forall l', map (fun x => expand fmt (args x)) l' = map (fun x => line x ++ [10]) l')
    by (intros l'; apply map_ext, He).
  rewrite build_full; rewrite E; done.
Qed.

Lemma file_text_lines {A} (line : A -> list Z) keep (l : list A) :
  (forall x, In x l -> keep x = true -> line_ok (line x)) ->
  lines_of [] (file_text line keep l) = map line (List.filter keep l) /\
  Forall (fun c => c <> 0) (file_text line keep l).
Proof.
  intros H. unfold file_text.
  assert (Hf : Forall line_ok (map line (List.filter keep l))).
  { apply List.Forall_forall. intros x Hx. apply in_map_iff in Hx as (y & <- & Hy).
    apply filter_In in Hy as [Hy1 Hy2]. by apply H. }
  rewrite <- (map_map line (fun x => x ++ [10])). split.
  - apply lines_of_concat. eapply Forall_impl; [exact Hf|]. intros x Hx. eapply Forall_impl; [exact Hx|].
    simpl. tauto.
  - induction Hf as [|x ls Hx _ IH]; [constructor|]. cbn [map concat]. apply Forall_app. split; [|done].
    apply Forall_app. split; [|by repeat constructor]. eapply Forall_impl; [exact Hx|]. simpl. tauto.
Qed.

(** What saving needs: entries in their slots, fields without separators, and
    texts that fit into the buffers of [user_save_to_disk]. *)
Record saveable (db : user_db) : Prop := {
  sv_ok : db_ok db;
  sv_users : forall i, 0 <= i < MAX_USERS -> exists_ (the_user db i) = true -> saveable_user db i (the_user db i);
  sv_groups : forall i, 0 <= i < MAX_GROUPS -> group_exists (the_group db i) = true ->
    saveable_group i (the_group db i);
  sv_passwd : 0 < Z.of_nat (length (file_text passwd_line exists_ (users db))) < 32768;
  sv_shadow : 0 < Z.of_nat (length (file_text shadow_line exists_ (users db))) < 32768;
  sv_group : 0 < Z.of_nat (length (file_text group_line group_exists (groups db))) < 16384
}.

Lemma lookup_the_user db k u : users db !! k = Some u -> the_user db (Z.of_nat k) = u.
Proof. intros H. unfold the_user. apply aget_lookup; [lia|]. by rewrite Nat2Z.id. Qed.
Lemma lookup_the_group db k g : groups db !! k = Some g -> the_group db (Z.of_nat k) = g.
Proof. intros H. unfold the_group. apply aget_lookup; [lia|]. by rewrite Nat2Z.id. Qed.

Lemma In_user db u : db_ok db -> In u (users db) -> exists i, 0 <= i < MAX_USERS /\ the_user db i = u.
Proof.
  intros [Hl _] H. apply list_elem_of_In, list_elem_of_lookup in H as [k Hk].
  exists (Z.of_nat k). apply lookup_lt_Some in Hk as Hlt. split; [lia|by apply lookup_the_user].
Qed.
Lemma In_group db g : db_ok db -> In g (groups db) -> exists i, 0 <= i < MAX_GROUPS /\ the_group db i = g.
Proof.
  intros [_ Hl] H. apply list_elem_of_In, list_elem_of_lookup in H as [k Hk].
  exists (Z.of_nat k). apply lookup_lt_Some in Hk as Hlt. split; [lia|by apply lookup_the_group].
Qed.

(** [user_save_to_disk] leaves the three texts in the three files. *)
Lemma save_files db (d d' : disk F) :
  saveable db -> (forall n, kmalloc_ok n = true) -> user_save_to_disk kmalloc_ok db d = (d', 0) ->
  has_rootfs d' = true /\ mounted d' = true /\
  (exists n, view (str "/etc/passwd") (fs d') = Some (n, file_text passwd_line exists_ (users db)) /\
     n = Z.of_nat (length (file_text passwd_line exists_ (users db)))) /\
  (exists n, view (str "/etc/shadow") (fs d') = Some (n, file_text shadow_line exists_ (users db)) /\
     n = Z.of_nat (length (file_text shadow_line exists_ (users db)))) /\
  (exists n, view (str "/etc/group") (fs d') = Some (n, file_text group_line group_exists (groups db)) /\
     n = Z.of_nat (length (file_text group_line group_exists (groups db)))).
Proof.
  intros Hsv Hk H. unfold user_save_to_disk in H.
  destruct (negb (mounted d) || negb (has_rootfs d)) eqn:Em; [done|].
  apply orb_false_elim in Em as [Hm Hr]. apply negb_false_iff in Hm, Hr.
  rewrite !Hk in H. cbn [negb orb] in H.
  rewrite (build_text 32768 exists_ passwd_fmt passwd_args passwd_line) in H by (apply expand_passwd || apply Hsv).
  rewrite (build_text 32768 exists_ shadow_fmt shadow_args shadow_line) in H by (apply expand_shadow || apply Hsv).
  rewrite (build_text 16384 group_exists group_fmt group_args group_line) in H by (apply expand_group || apply Hsv).
  destruct (write_full_file (str "/etc/passwd") _ _) as [d1 r1] eqn:W1.
  destruct (write_full_file (str "/etc/shadow") _ d1) as [d2 r2] eqn:W2.
  destruct (write_full_file (str "/etc/group") _ d2) as [d3 r3] eqn:W3.
  injection H as -> Hres.
  apply write_full_view in W1 as (R1 & M1 & C1 & V1 & O1); [|done].
  apply write_full_view in W2 as (R2 & M2 & C2 & V2 & O2); [|done].
  apply write_full_view in W3 as (R3 & M3 & C3 & V3 & O3); [|done].
  assert (r1 = 0 /\ r2 = 0 /\ r3 = 0) as (-> & -> & ->).
  { destruct C1 as [->| ->], C2 as [->| ->], C3 as [->| ->]; done. }
  specialize (V1 eq_refl). specialize (V2 eq_refl). specialize (V3 eq_refl).
  split_and!; [done|by rewrite M3, M2, M1| | |].
  - eexists. split; [|reflexivity]. rewrite O3, O2 by done. exact V1.
  - eexists. split; [|reflexivity]. rewrite O3 by done. exact V2.
  - eexists. split; [|reflexivity]. exact V3.
Qed.
(** What a loaded group and a loaded user agree on with the saved one. *)
Definition group_as (g g' : group_t) : Prop :=
  group_exists g' = group_exists g /\
  (group_exists g = true -> gid g' = gid g /\ groupname g' = groupname g /\ perms g' = perms g).
Definition user_as (u u' : user_t) : Prop :=
  exists_ u' = exists_ u /\
  (exists_ u = true -> uid u' = uid u /\ group u' = group u /\ username u' = username u /\
     home u' = home u /\ shell u' = shell u).

Lemma the_user_clear db i : exists_ (the_user (clear_users db) i) = false.
Proof.
  unfold the_user, clear_users, aget. cbn [users]. destruct (0 <=? i); [|done].
  rewrite list_lookup_fmap. by destruct (users db !! Z.to_nat i).
Qed.
Lemma the_group_clear db i : group_exists (the_group (clear_groups db) i) = false.
Proof.
  unfold the_group, clear_groups, aget. cbn [groups]. destruct (0 <=? i); [|done].
  rewrite list_lookup_fmap. by destruct (groups db !! Z.to_nat i).
Qed.

(** Loading the group file that was saved. *)
Lemma load_groups db db0 :
  saveable db -> db_ok db0 ->
  let db1 := fold_left load_group_line (map group_line (List.filter group_exists (groups db))) (clear_groups db0) in
  db_ok db1 /\ users db1 = users db0 /\
  forall j, 0 <= j < MAX_GROUPS -> group_as (the_group db j) (the_group db1 j).
Proof.
  intros [[Hlu Hlg] _ Hg _ _ _] Hok0. cbv zeta.
  pose proof (load_fold load_group_line group_line group_exists
    (fun n x => db_ok x /\ users x = users db0 /\ forall j, 0 <= j < MAX_GROUPS ->
       if j <? n then group_as (the_group db j) (the_group x j) else group_exists (the_group x j) = false)
    (groups db) 0 (clear_groups db0)) as H.
  destruct H as (H1 & H2 & H3).
  - split_and!; [|done|].
    + destruct Hok0. split; unfold clear_groups; cbn [users groups]; [done|by rewrite length_map].
    + intros j Hj. destruct (Z.ltb_spec j 0); [lia|]. apply the_group_clear.
  - intros k g x Hk. rewrite !Z.add_0_l. intros (Hx & Hu & Hj). apply lookup_lt_Some in Hk as Hlt.
    apply lookup_the_group in Hk. set (n := Z.of_nat k) in *. assert (0 <= n < MAX_GROUPS) as Hn by lia.
    pose proof (Hj n Hn) as Hn'. rewrite Z.ltb_irrefl in Hn'.
    destruct (group_exists g) eqn:Eg.
    + assert (Hs : saveable_group n g) by (rewrite <- Hk; apply Hg; [done|by rewrite Hk]).
      rewrite (load_group_step n) by done. split_and!; [by apply set_group_ok|done|].
      intros j Hj'. rewrite the_group_set by done. specialize (Hj j Hj').
      destruct (Z.eqb_spec j n) as [->|Hne].
      * rewrite (proj2 (Z.ltb_lt n (n + 1))) by lia. rewrite Hk. destruct Hs as [<- _ _].
        split; [done|]. by intros _.
      * destruct (Z.ltb_spec j n), (Z.ltb_spec j (n + 1)); (done || lia).
    + split_and!; [done|done|]. intros j Hj'. specialize (Hj j Hj').
      destruct (Z.eqb_spec j n) as [->|Hne].
      * rewrite (proj2 (Z.ltb_lt n (n + 1))) by lia. rewrite Hk. split; [by rewrite Hn'|]. by rewrite Eg.
      * destruct (Z.ltb_spec j n), (Z.ltb_spec j (n + 1)); (done || lia).
  - split_and!; [done|done|]. intros j Hj. specialize (H3 j Hj). destruct (Z.ltb_spec j (0 + Z.of_nat (length (groups db)))); [done|lia].
Qed.

Lemma load_passwd db db0 :
  saveable db -> db_ok db0 ->
  let db1 := fold_left load_passwd_line (map passwd_line (List.filter exists_ (users db))) (clear_users db0) in
  db_ok db1 /\ groups db1 = groups db0 /\
  forall j, 0 <= j < MAX_USERS -> user_as (the_user db j) (the_user db1 j).
Proof.
  intros [[Hlu Hlg] Hsu _ _ _ _] Hok0. cbv zeta.
  pose proof (load_fold load_passwd_line passwd_line exists_
    (fun n x => db_ok x /\ groups x = groups db0 /\ forall j, 0 <= j < MAX_USERS ->
       if j <? n then user_as (the_user db j) (the_user x j) else exists_ (the_user x j) = false)
    (users db) 0 (clear_users db0)) as H.
  destruct H as (H1 & H2 & H3).
  - split_and!; [|done|].
    + destruct Hok0. split; unfold clear_users; cbn [users groups]; [by rewrite length_map|done].
    + intros j Hj. destruct (Z.ltb_spec j 0); [lia|]. apply the_user_clear.
  - intros k u x Hk. rewrite !Z.add_0_l. intros (Hx & Hu & Hj). apply lookup_lt_Some in Hk as Hlt.
    apply lookup_the_user in Hk. set (n := Z.of_nat k) in *. assert (0 <= n < MAX_USERS) as Hn by lia.
    pose proof (Hj n Hn) as Hn'. rewrite Z.ltb_irrefl in Hn'.
    destruct (exists_ u) eqn:Eu.
    + assert (Hs : saveable_user db n u) by (rewrite <- Hk; apply Hsu; [done|by rewrite Hk]).
      rewrite (load_passwd_step db n) by done. split_and!; [by apply set_user_ok|done|].
      intros j Hj'. rewrite the_user_set by done. specialize (Hj j Hj').
      destruct (Z.eqb_spec j n) as [->|Hne].
      * rewrite (proj2 (Z.ltb_lt n (n + 1))) by lia. rewrite Hk. destruct Hs as [<- _ _ _ _ _ _].
        split; [done|]. by intros _.
      * destruct (Z.ltb_spec j n), (Z.ltb_spec j (n + 1)); (done || lia).
    + split_and!; [done|done|]. intros j Hj'. specialize (Hj j Hj').
      destruct (Z.eqb_spec j n) as [->|Hne].
      * rewrite (proj2 (Z.ltb_lt n (n + 1))) by lia. rewrite Hk. split; [by rewrite Hn'|]. by rewrite Eu.
      * destruct (Z.ltb_spec j n), (Z.ltb_spec j (n + 1)); (done || lia).
  - split_and!; [done|done|]. intros j Hj. specialize (H3 j Hj). destruct (Z.ltb_spec j (0 + Z.of_nat (length (users db)))); [done|lia].
Qed.

(** In a database that agrees with a saved one a name is found where it was. *)
Lemma find_agrees db x i :
  saveable db -> (forall j, 0 <= j < MAX_USERS -> user_as (the_user db j) (the_user x j)) ->
  0 <= i < MAX_USERS -> exists_ (the_user db i) = true ->
  user_find_by_name x (Some (username (the_user db i))) = i.
Proof.
  intros Hsv Hx Hi He. unfold user_find_by_name. destruct (Hx i Hi) as [Ei Hi'].
  destruct (Hi' He) as (_ & _ & En & _). rewrite (find_first_exact _ _ _ i); [done| | |].
  - unfold MAX_USERS in *. lia.
  - rewrite Ei, He, En. by rewrite bool_decide_true.
  - intros k Hk. assert (0 <= k < MAX_USERS) as Hkr by lia. destruct (Hx k Hkr) as [Ek Hk']. rewrite Ek.
    destruct (exists_ (the_user db k)) eqn:E; [|done]. destruct (Hk' eq_refl) as (_ & _ & Enk & _).
    cbn [andb]. apply bool_decide_eq_false. rewrite Enk. intros Heq.
    pose proof (su_unique db i _ (sv_users db Hsv i Hi He) k Hkr E Heq). lia.
Qed.

Lemma load_shadow db db0 :
  saveable db -> db_ok db0 -> (forall j, 0 <= j < MAX_USERS -> user_as (the_user db j) (the_user db0 j)) ->
  let db1 := fold_left load_shadow_line (map shadow_line (List.filter exists_ (users db))) db0 in
  db_ok db1 /\ groups db1 = groups db0 /\
  forall j, 0 <= j < MAX_USERS -> user_as (the_user db j) (the_user db1 j) /\
    (exists_ (the_user db j) = true -> cstr (password_hash (the_user db1 j)) = stored_hash (the_user db j)).
Proof.
  intros Hsv Hok0 Has0. cbv zeta.
  pose proof (load_fold load_shadow_line shadow_line exists_
    (fun n x => db_ok x /\ groups x = groups db0 /\ forall j, 0 <= j < MAX_USERS ->
       user_as (the_user db j) (the_user x j) /\
       (j < n -> exists_ (the_user db j) = true -> cstr (password_hash (the_user x j)) = stored_hash (the_user db j)))
    (users db) 0 db0) as H.
  pose proof (dk_users db (sv_ok db Hsv)) as Hlu.
  destruct H as (H1 & H2 & H3).
  - split_and!; [done|done|]. intros j Hj. split; [by apply Has0|lia].
  - intros k u x Hk. rewrite !Z.add_0_l. intros (Hx & Hu & Hj). apply lookup_lt_Some in Hk as Hlt.
    apply lookup_the_user in Hk. set (n := Z.of_nat k) in *. assert (0 <= n < MAX_USERS) as Hn by lia.
    destruct (exists_ u) eqn:Eu.
    + assert (Hs : saveable_user db n u) by (rewrite <- Hk; apply (sv_users db Hsv); [done|by rewrite Hk]).
      rewrite (load_shadow_step db n); [|done|done|].
      2: { rewrite <- Hk. apply find_agrees; [done| |done|by rewrite Hk]. intros j Hj'. apply (Hj j Hj'). }
      split_and!; [by apply set_user_ok|done|].
      intros j Hj'. rewrite the_user_set by done. destruct (Hj j Hj') as [Ha Hh].
      destruct (Z.eqb_spec j n) as [->|Hne]; [|split; [done|intros; apply Hh; [lia|done]]].
      split; [exact Ha|]. intros _ _. cbn [set_hash password_hash]. rewrite Hk.
      apply cstr_put, field_no_nul, Hs.
    + split_and!; [done|done|]. intros j Hj'. destruct (Hj j Hj') as [Ha Hh]. split; [done|].
      intros Hlt' He. apply Hh; [|done]. destruct (decide (j = n)) as [->|]; [|lia]. by rewrite Hk, Eu in He.
  - split_and!; [done|done|]. intros j Hj. destruct (H3 j Hj) as [Ha Hh]. split; [done|]. apply Hh. lia.
Qed.
End roundtrip.

(** A new group and a new user take the lowest free slot. *)
Lemma create_group_cases name p db :
  db_ok db ->
  (exists i, 0 <= i < MAX_GROUPS /\ group_exists (the_group db i) = false /\
     (forall j, 0 <= j < i -> group_exists (the_group db j) = true) /\
     user_create_group name p db = (set_group i (mkGroup name i p true) db, i)) \/
  ((forall j, 0 <= j < MAX_GROUPS -> group_exists (the_group db j) = true) /\
     user_create_group name p db = (db, -1)).
Proof.
  intros _. unfold user_create_group. destruct (find_first _ _ _) as [i|] eqn:E.
  - left. apply find_first_Some in E as (Hr & Hp & Hlow). apply negb_true_iff in Hp.
    exists i. split_and!; [lia|unfold MAX_GROUPS in *; lia|done| |done].
    intros j Hj. apply negb_false_iff, Hlow, Hj.
  - right. rewrite find_first_None in E. split; [|done]. intros j Hj. apply negb_false_iff, E.
    unfold MAX_GROUPS in *. lia.
Qed.

Definition new_user (db : user_db) (i g : Z) (name : list Z) (home_ shell_ : option (list Z)) : user_t :=
  mkUser i g name (put_str [] (password_hash (the_user db i)))
    (u_strlcpy (default (str "/") home_) USER_HOME_LEN)
    (u_strlcpy (default (str "/bin/mountshell") shell_) USER_SHELL_LEN) true.

Lemma create_user_cases name g home_ shell_ db :
  db_ok db -> g < MAX_GROUPS ->
  (exists i, 0 <= i < MAX_USERS /\ exists_ (the_user db i) = false /\
     (forall j, 0 <= j < i -> exists_ (the_user db j) = true) /\
     user_create_user_full name g home_ shell_ db = (set_user i (new_user db i g name home_ shell_) db, i)) \/
  ((forall j, 0 <= j < MAX_USERS -> exists_ (the_user db j) = true) /\
     user_create_user_full name g home_ shell_ db = (db, -1)).
Proof.
  intros _ Hg. unfold user_create_user_full. destruct (Z.leb_spec MAX_GROUPS g); [lia|].
  destruct (find_first _ _ _) as [i|] eqn:E.
  - left. apply find_first_Some in E as (Hr & Hp & Hlow). apply negb_true_iff in Hp.
    exists i. split_and!; [lia|unfold MAX_USERS in *; lia|done| |done].
    intros j Hj. apply negb_false_iff, Hlow, Hj.
  - right. rewrite find_first_None in E. split; [|done]. intros j Hj. apply negb_false_iff, E.
    unfold MAX_USERS in *. lia.
Qed.

(** An account whose hash is empty refuses every password. *)
Lemma authenticate_no_hash kmalloc_ok name pw db u :
  user_find_by_name db (Some name) = u -> 0 <= u -> cstr (password_hash (the_user db u)) = [] ->
  user_authenticate kmalloc_ok (Some name) (Some pw) db = -3.
Proof.
  intros Hf Hu Hh. unfold user_authenticate. rewrite Hf. destruct (Z.ltb_spec u 0); [lia|].
  assert (E : aget 0 (password_hash (the_user db u)) 0 = 0).
  { destruct (password_hash (the_user db u)) as [|c h]; [done|]. simpl in Hh.
    destruct (Z.eqb_spec c 0); [by subst|done]. }
  by rewrite E.
Qed.

Lemma clear_users_ok db : db_ok db -> db_ok (clear_users db).
Proof. intros []. split; unfold clear_users; cbn [users groups]; by rewrite ?length_map. Qed.

(** The two accounts [user_init] creates in empty tables take slot 0. *)
Lemma first_accounts db2 :
  db_ok db2 -> (forall i, exists_ (the_user db2 i) = false) -> (forall i, group_exists (the_group db2 i) = false) ->
  exists db3 db4 u, user_create_group (str "root") ROOT db2 = (db3, 0) /\
    user_create_user_full (str "root") 0 (Some (str "/root")) (Some (str "/bin/mountshell")) db3 = (db4, 0) /\
    db_ok db4 /\ (forall i, the_user db4 i = if i =? 0 then u else the_user db2 i) /\
    (forall i, the_group db4 i = if i =? 0 then mkGroup (str "root") 0 ROOT true else the_group db2 i) /\
    (exists_ u = true /\ uid u = 0 /\ username u = str "root") /\ group u = 0.
Proof.
  intros Hok2 Hu2 Hg2.
  destruct (create_group_cases (str "root") ROOT db2 Hok2) as [(g & Hg & _ & Hlow & ->)|[H _]].
  2: { specialize (H 0 ltac:(done)). by rewrite Hg2 in H. }
  assert (g = 0) as ->.
  { destruct (decide (g = 0)); [done|]. specialize (Hlow 0 ltac:(lia)). by rewrite Hg2 in Hlow. }
  set (db3 := set_group 0 _ db2). assert (Hok3 : db_ok db3) by by apply set_group_ok.
  assert (Hu3 : forall i, exists_ (the_user db3 i) = false) by (intros i; apply (Hu2 i)).
  destruct (create_user_cases (str "root") 0 (Some (str "/root")) (Some (str "/bin/mountshell")) db3 Hok3 ltac:(done))
    as [(i & Hi & _ & Hlowu & E)|[H _]].
  2: { specialize (H 0 ltac:(done)). by rewrite Hu3 in H. }
  assert (i = 0) as ->.
  { destruct (decide (i = 0)); [done|]. specialize (Hlowu 0 ltac:(lia)). by rewrite Hu3 in Hlowu. }
  exists db3. eexists. eexists. split; [done|]. split; [exact E|]. split; [by apply set_user_ok|].
  split; [intros i; by rewrite the_user_set|]. split; [|done].
  intros i. rewrite <- (the_group_set db2 0 (mkGroup (str "root") 0 ROOT true) i) by done. reflexivity.
Qed.

(** ** Properties *)
Section properties.
Context (kmalloc_ok : Z -> bool).

(** after [user_set_password] the account authenticates with exactly the
    passwords whose salted SHA-256 is that of the password set, returning its
    uid; every other account keeps its record, so that its stored hash, and
    who can log in to it, is untouched. *)
Theorem password_roundtrip db u pw name pw' :
  db_ok db -> user_exists db u = true -> user_find_by_name db (Some name) = u ->
  kmalloc_ok (8 + Z.of_nat (length pw)) = true -> kmalloc_ok (8 + Z.of_nat (length pw')) = true ->
  exists db', user_set_password kmalloc_ok u (Some pw) db = (db', 0) /\ db_ok db' /\
    (let salt := salt_bytes (salt_state db') in
     user_authenticate kmalloc_ok (Some name) (Some pw') db' =
       if bool_decide (sha256 (salt ++ pw') = sha256 (salt ++ pw)) then u else -6) /\
    user_authenticate kmalloc_ok (Some name) (Some pw) db' = u /\
    forall i, i <> u -> the_user db' i = the_user db i.
Proof.
  intros Hok He Hf Hk Hk'. destruct (user_exists_range db u He) as [Hu Heu].
  pose proof (set_password_users kmalloc_ok u pw db) as Hset.
  destruct (user_set_password kmalloc_ok u (Some pw) db) as [db' r] eqn:E.
  pose proof (user_set_password_cases kmalloc_ok u pw db He Hk) as Hc. rewrite E in Hc. injection Hc as Hdb ->.
  cbn [fst] in Hset. exists db'. split; [done|].
  assert (Hf' : user_find_by_name db' (Some name) = u).
  { rewrite <- Hf. apply user_find_ext.
    - intros i. destruct (Hset i Hok He Hk) as (_ & _ & ->). by destruct (Z.eqb_spec i u) as [->|].
    - intros i _. destruct (Hset i Hok He Hk) as (_ & _ & ->). by destruct (Z.eqb_spec i u) as [->|]. }
  destruct (Hset u Hok He Hk) as (Hok' & _ & Hu'). rewrite Z.eqb_refl in Hu'.
  assert (Hauth : forall q, kmalloc_ok (8 + Z.of_nat (length q)) = true ->
    user_authenticate kmalloc_ok (Some name) (Some q) db' =
      if bool_decide (sha256 (salt_bytes (salt_state db') ++ q) = sha256 (salt_bytes (salt_state db') ++ pw))
      then u else -6).
  { intros q Hq. eapply user_authenticate_cases; try done; [lia|by rewrite Hu'|apply length_sha256|
      apply salt_bytes_range|apply sha256_range]. }
  split; [done|]. split; [by apply Hauth|]. split.
  - rewrite Hauth by done. by rewrite bool_decide_true.
  - intros i Hi. destruct (Hset i Hok He Hk) as (_ & _ & ->). by destruct (Z.eqb_spec i u).
Qed.
(** [user_create_user_full] takes the lowest free slot and returns it as
    the uid of an account with the given name and group; when the name was not
    in use the account is found by it and refuses every password, until one is
    set.  No other account or group changes.  With no slot free, or a group
    number past the table, it returns -1 and nothing changes. *)
Theorem user_create_spec db name g home_ shell_ pw :
  db_ok db -> g < MAX_GROUPS ->
  let '(db', r) := user_create_user_full name g home_ shell_ db in
  db_ok db' /\ groups db' = groups db /\
  ((r = -1 /\ db' = db /\ forall j, 0 <= j < MAX_USERS -> exists_ (the_user db j) = true) \/
   (0 <= r < MAX_USERS /\ exists_ (the_user db r) = false /\
    (forall j, 0 <= j < r -> exists_ (the_user db j) = true) /\
    uid (the_user db' r) = r /\ group (the_user db' r) = g /\ username (the_user db' r) = name /\
    exists_ (the_user db' r) = true /\
    (user_find_by_name db (Some name) = -1 ->
       user_find_by_name db' (Some name) = r /\
       user_authenticate kmalloc_ok (Some name) (Some pw) db' = -3) /\
    forall i, i <> r -> the_user db' i = the_user db i)).
Proof.
  intros Hok Hg.
  destruct (create_user_cases name g home_ shell_ db Hok Hg) as [(i & Hi & He & Hlow & ->)|[Hfull ->]].
  2: { split; [done|]. split; [done|]. by left. }
  assert (Hget : forall j, the_user (set_user i (new_user db i g name home_ shell_) db) j =
    if j =? i then new_user db i g name home_ shell_ else the_user db j)
    by (intros; by apply the_user_set).
  split; [by apply set_user_ok|]. split; [done|]. right.
  split_and!; try done; try lia; try (rewrite Hget, Z.eqb_refl; done).
  - intros Hnone. assert (Hf : user_find_by_name (set_user i (new_user db i g name home_ shell_) db) (Some name) = i).
    { unfold user_find_by_name. rewrite (find_first_exact _ _ _ i); [done|unfold MAX_USERS in *; lia| |].
      - rewrite Hget, Z.eqb_refl. cbn. by rewrite bool_decide_true.
      - intros k Hk. rewrite Hget. destruct (Z.eqb_spec k i); [lia|]. unfold user_find_by_name in Hnone.
        destruct (find_first _ _ _) as [n0|] eqn:E; [apply find_first_Some in E; simpl in Hnone; lia|].
        rewrite find_first_None in E. apply E. unfold MAX_USERS in *. lia. }
    split; [done|]. eapply authenticate_no_hash; [done|lia|]. rewrite Hget, Z.eqb_refl. done.
  - intros j Hj. rewrite Hget. by destruct (Z.eqb_spec j i).
Qed.

(** [user_init] with both arrays allocated leaves exactly one group and
    one account, [root], with uid 0, that [user_is_root] accepts and that logs
    in with the password [bmroot]. *)
Theorem user_init_root db tsc :
  db_ok db -> (forall n, kmalloc_ok n = true) ->
  exists db', user_init kmalloc_ok tsc db = (db', 0) /\ db_ok db' /\
    (forall i, exists_ (the_user db' i) = (i =? 0)) /\ (forall i, group_exists (the_group db' i) = (i =? 0)) /\
    user_is_root db' 0 = true /\ user_find_by_name db' (Some (str "root")) = 0 /\
    user_authenticate kmalloc_ok (Some (str "root")) (Some (str "bmroot")) db' = 0.
Proof.
  intros Hok Hk. unfold user_init. rewrite !Hk. cbn [negb].
  set (db2 := mkDb _ _ _).
  assert (Hok2 : db_ok db2) by (destruct Hok; split; cbn [db2 users groups]; by rewrite length_map).
  assert (Hu2 : forall i, exists_ (the_user db2 i) = false).
  { intros i. unfold the_user, aget. destruct (0 <=? i); [|done]. cbn [db2 users salt_seed groups].
    rewrite list_lookup_fmap. by destruct (users db !! Z.to_nat i). }
  assert (Hg2 : forall i, group_exists (the_group db2 i) = false).
  { intros i. unfold the_group, aget. destruct (0 <=? i); [|done]. cbn [db2 users salt_seed groups].
    rewrite list_lookup_fmap. by destruct (groups db !! Z.to_nat i). }
  clearbody db2.
  destruct (first_accounts db2 Hok2 Hu2 Hg2) as (db3 & db4 & u & -> & E4 & Hok4 & Hu4 & Hg4 & Hu & Hgrp).
  change (0 <? 0) with false. cbv iota. rewrite E4. change (0 <? 0) with false. cbv iota. clear E4.
  assert (He4 : user_exists db4 0 = true) by (unfold user_exists; rewrite Hu4; apply Hu).
  pose proof (fun i => set_password_users kmalloc_ok 0 (str "bmroot") db4 i Hok4 He4 (Hk _)) as Hset.
  revert Hset. generalize (fst (user_set_password kmalloc_ok 0 (Some (str "bmroot")) db4)). intros db5 Hset.
  exists db5. cbv zeta in Hset. destruct (Hset 0) as (Hok5 & Hgr & H0).
  rewrite Z.eqb_refl, Hu4, Z.eqb_refl in H0.
  assert (Hu5 : forall i, exists_ (the_user db5 i) = (i =? 0)).
  { intros i. destruct (Hset i) as (_ & _ & ->). destruct (Z.eqb_spec i 0) as [->|Hi]; [rewrite Hu4; apply Hu|].
    rewrite Hu4. destruct (Z.eqb_spec i 0); [done|apply Hu2]. }
  assert (Hg5 : forall i, the_group db5 i = the_group db4 i) by (intros i; unfold the_group; by rewrite Hgr).
  assert (Hf : user_find_by_name db5 (Some (str "root")) = 0).
  { unfold user_find_by_name. rewrite (find_first_exact _ _ _ 0); [done|unfold MAX_USERS; lia| |lia].
    rewrite Hu5, H0. cbn. by rewrite (proj2 (proj2 Hu)), bool_decide_true. }
  split; [done|]. split; [done|]. split; [done|]. split.
  { intros i. rewrite Hg5, Hg4. destruct (Z.eqb_spec i 0); [done|apply Hg2]. }
  split; [|split; [done|]].
  - unfold user_is_root, user_exists, group_valid. rewrite Hu5, H0. cbn [orb negb group set_hash].
    rewrite Hgrp, Hg5, Hg4. done.
  - rewrite (user_authenticate_cases kmalloc_ok 0 (str "root") (str "bmroot") (salt_bytes (salt_state db5))
      (sha256 (salt_bytes (salt_state db5) ++ str "bmroot")) (password_hash u)); try done.
    + by rewrite bool_decide_true.
    + by rewrite H0.
    + apply salt_bytes_range.
    + apply sha256_range.
Qed.
End properties.

Section reload.
Context {F : Type} `{!Ext2Ops F} `{!Ext2Laws F} (kmalloc_ok : Z -> bool).

End reload.

(** ** Witnesses *)

(** A file system that is a list of paths with their contents; a handle is a
    position in the list. *)
Definition list_fs : Type := list (list Z * list Z).
Fixpoint fs_open (p : list Z) (f : list_fs) : option nat :=
  match f with
  | [] => None
  | e :: f' => if bool_decide (e.1 = p) then Some O else S <$> fs_open p f'
  end.
Definition fs_content (h : Z) (f : list_fs) : list Z := (default ([], []) (f !! Z.to_nat h)).2.
#[local] Instance list_fs_ops : Ext2Ops list_fs := {
  ext2_mkdir _ f := f;
  ext2_delete p f := List.filter (fun e => negb (bool_decide (e.1 = p))) f;
  ext2_create p _ f := ((p, []) :: f, true);
  ext2_open p f := Z.of_nat <$> fs_open p f;
  ext2_size h f := Z.of_nat (length (fs_content h f));
  ext2_read h n f := take (Z.to_nat n) (fs_content h f);
  ext2_write h buf f := (alter (fun e => (e.1, buf)) (Z.to_nat h) f, Z.of_nat (length buf));
  VFS_Create _ _ f := f
}.

Fixpoint fs_find (p : list Z) (f : list_fs) : option (list Z) :=
  match f with
  | [] => None
  | e :: f' => if bool_decide (e.1 = p) then Some e.2 else fs_find p f'
  end.
Lemma fs_view p (f : list_fs) : view p f = (fun c => (Z.of_nat (length c), c)) <$> fs_find p f.
Proof.
  unfold view. cbn [ext2_open ext2_size ext2_read list_fs_ops].
  assert (H : forall f, match fs_open p f with
    | Some h => fs_find p f = Some (fs_content (Z.of_nat h) f)
    | None => fs_find p f = None end).
  { clear f. induction f as [|e f IH]; [done|]. cbn [fs_open fs_find]. case_bool_decide as E; [done|].
    destruct (fs_open p f) as [h|]; cbn [fmap option_fmap option_map]; [|done]. rewrite IH. unfold fs_content.
    rewrite !Nat2Z.id. done. }
  specialize (H f). destruct (fs_open p f) as [h|]; cbn [fmap option_fmap option_map]; rewrite H; [|done].
  cbn [fmap option_fmap option_map]. rewrite Nat2Z.id, firstn_all. done.
Qed.
Lemma fs_find_alter p q buf (f : list_fs) h :
  fs_open p f = Some h -> fs_find q (alter (fun e => (e.1, buf)) h f) = if bool_decide (p = q) then Some buf else fs_find q f.
Proof.
  revert h. induction f as [|e f IH]; intros h H; [done|]. cbn [fs_open] in H.
  case_bool_decide as E.
  - injection H as <-. cbn. rewrite E. case_bool_decide; done.
  - destruct (fs_open p f) as [h'|]; [|done]. injection H as <-. cbn. specialize (IH h' eq_refl).
    change (list_alter (fun e0 : list Z * list Z => (e0.1, buf)) h' f) with (alter (fun e0 : list Z * list Z => (e0.1, buf)) h' f).
    rewrite IH. destruct (bool_decide (e.1 = q)) eqn:Eq; [|done]. apply bool_decide_eq_true in Eq.
    rewrite bool_decide_false by congruence. done.
Qed.
#[local] Instance list_fs_laws : Ext2Laws list_fs.
Proof.
  split.
  - intros p mode buf f f1 h f2 r Hc Ho Hw _. rewrite fs_view. injection Hw as <- _.
    cbn in Ho. destruct (fs_open p f1) as [n|] eqn:E; [|done]. injection Ho as <-. rewrite Nat2Z.id.
    rewrite (fs_find_alter p) by done. by rewrite bool_decide_true.
  - intros p q f Hne. rewrite !fs_view. cbn [ext2_delete list_fs_ops]. f_equal.
    induction f as [|e f IH]; [done|]. cbn [List.filter fs_find]. case_bool_decide as E; cbn [negb]; [|cbn [fs_find]; by rewrite IH].
    rewrite bool_decide_false by congruence. done.
  - intros p q mode f Hne. rewrite !fs_view. cbn. by rewrite bool_decide_false.
  - intros p q h buf f Hne Ho. rewrite !fs_view. cbn [ext2_write list_fs_ops fst]. cbn in Ho.
    destruct (fs_open p f) as [n|] eqn:E; [|done]. injection Ho as <-. rewrite Nat2Z.id.
    rewrite (fs_find_alter p) by done. by rewrite bool_decide_false.
Qed.

(** A database with the root account, as [user_init] leaves it, and a second
    account that has no password. *)
Definition demo_user (i g : Z) (name h : list Z) : user_t :=
  mkUser i g name h (str "/home") (str "/bin/mountshell") true.
Definition demo_db : user_db :=
  mkDb (mkGroup (str "root") 0 ROOT true :: replicate 123 null_group)
    (demo_user 0 0 (str "root") (str "$sha256$00") :: demo_user 1 0 (str "guest") [] :: replicate 122 null_user) 7.

Lemma demo_user_cases i : exists_ (the_user demo_db i) = true -> i = 0 \/ i = 1.
Proof.
  unfold the_user, aget. destruct (Z.leb_spec 0 i) as [Hi|Hi]; [|done].
  destruct (Z.to_nat i) as [|[|n]] eqn:E; [lia|lia|]. cbn [users demo_db lookup list_lookup].
  destruct (replicate 122 null_user !! n) as [u|] eqn:El; [|done].
  apply lookup_replicate in El as [-> _]. done.
Qed.
Lemma demo_group_cases i : group_exists (the_group demo_db i) = true -> i = 0.
Proof.
  unfold the_group, aget. destruct (Z.leb_spec 0 i) as [Hi|Hi]; [|done].
  destruct (Z.to_nat i) as [|n] eqn:E; [lia|]. cbn [groups demo_db lookup list_lookup].
  destruct (replicate 123 null_group !! n) as [u|] eqn:El; [|done].
  apply lookup_replicate in El as [-> _]. done.
Qed.
Lemma demo_saveable : saveable demo_db.
Proof.
  assert (Hf : forall l, forallb (fun c => negb (c =? 0) && negb (c =? 10) && negb (c =? 58)) l = true -> field_ok l).
  { intros l H. apply List.Forall_forall. intros c Hc. rewrite forallb_forall in H. specialize (H c Hc).
    prop_bools. done. }
  split; [done| | |vm_compute; done|vm_compute; done|vm_compute; done].
  - intros i Hi He. pose proof (demo_user_cases i He) as [->| ->]; split; try done;
      try (split; [by apply Hf|done]).
    + intros j _ Hj En. by destruct (demo_user_cases j Hj) as [->| ->].
    + intros j _ Hj En. by destruct (demo_user_cases j Hj) as [->| ->].
  - intros i Hi He. rewrite (demo_group_cases i He). split; [done|done|]. split; [by apply Hf|done].
Qed.

Definition demo_disk : disk list_fs := mkDisk [(str "/etc/group", [65])] true true.

Lemma password_roundtrip_witness :
  user_exists demo_db 0 = true /\
  exists db', user_set_password (fun _ => true) 0 (Some (str "bmroot")) demo_db = (db', 0) /\
    user_authenticate (fun _ => true) (Some (str "root")) (Some (str "bmroot")) db' = 0.
Proof.
  split; [reflexivity|].
  destruct (password_roundtrip (fun _ => true) demo_db 0 (str "bmroot") (str "root") (str "toor"))
    as (db' & H1 & _ & _ & H2 & _);
    [by split|reflexivity|vm_compute; reflexivity|reflexivity|reflexivity|].
  exists db'. by split.
Defined.


Lemma user_create_spec_witness :
  user_find_by_name demo_db (Some (str "new")) = -1 /\
  exists db', user_create_user_full (str "new") 0 None None demo_db = (db', 2) /\
    user_find_by_name db' (Some (str "new")) = 2 /\
    user_authenticate (fun _ => true) (Some (str "new")) (Some []) db' = -3.
Proof.
  split; [vm_compute; reflexivity|].
  pose proof (user_create_spec (fun _ => true) demo_db (str "new") 0 None None [] ltac:(by split) ltac:(done)) as H.
  revert H. destruct (user_create_user_full (str "new") 0 None None demo_db) as [db' r] eqn:E.
  assert (r = 2) as -> by (vm_compute in E; by injection E as _ <-).
  intros (_ & _ & [[H _]|H]); [done|]. destruct H as (_ & _ & _ & _ & _ & _ & _ & H & _).
  exists db'. split; [reflexivity|]. apply H. vm_compute. reflexivity.
Defined.

Lemma user_init_root_witness :
  exists db', user_init (fun _ => true) 7 demo_db = (db', 0) /\ user_is_root db' 0 = true /\
    exists_ (the_user db' 1) = false.
Proof.
  destruct (user_init_root (fun _ => true) demo_db 7) as (db' & H1 & _ & H2 & _ & H3 & _); [by split|done|].
  exists db'. split; [exact H1|]. split; [exact H3|]. by rewrite H2.
Defined.
