(* ===== verification/Ext2.v ===== *)
(** * The ext2 driver (src/kernel/drivers/fs/ext/ext2.c, ext2.h)

    Inodes, the two bitmaps, the map from the blocks of a file to the blocks
    of the device, directories, paths, files and permissions, over the block
    cache of Ext2Cache.v.  The packed structures of ext2.h are byte buffers
    with the fields at their offsets; an [ext2_inode_t] is the list of its 128
    bytes.

    A function that returns an error code and fills a result through a pointer
    returns the code ([inl]) or the result ([inr]).  A loop over the entries
    of a directory does not end when an entry has [rec_len] 0; it has fuel for
    every offset below the size of the directory, and out of fuel stands for
    not ending.

    Pointers that are NULL are not modelled.  Paths and names are the bytes
    before the NUL.  An access outside a structure or a table in memory, which
    C leaves undefined, reads 0. *)

From S2P Require Import Prelude Bytes StateMonad BlockDev Ext2Cache.

Definition EXT2_SUPER_MAGIC : Z := 0xEF53.
Definition EXT2_FT_REG_FILE : Z := 1.
Definition EXT2_FT_DIR : Z := 2.
Definition EXT2_S_IFREG : Z := 0x8000.
Definition EXT2_S_IFDIR : Z := 0x4000.
Definition EXT2_S_PERM_MASK : Z := 0x0FFF.
Definition EXT2_ROOT_INO : Z := 2.
Definition EXT2_NDIR_BLOCKS : Z := 12.
Definition EXT2_IND_BLOCK : Z := 12.
Definition EXT2_DIND_BLOCK : Z := 13.
Definition EXT2_TIND_BLOCK : Z := 14.
Definition EXT2_SEEK_SET : Z := 0.
Definition EXT2_SEEK_CUR : Z := 1.
Definition EXT2_SEEK_END : Z := 2.
Definition ACCESS_READ : Z := 4.
Definition ACCESS_WRITE : Z := 2.
Definition ACCESS_EXEC : Z := 1.

(** ** Structures *)

(** [ext2_superblock_t]. *)
Definition s_inodes_count (sb : list Z) : Z := get32 sb 0.
Definition s_blocks_count (sb : list Z) : Z := get32 sb 4.
Definition s_free_blocks_count (sb : list Z) : Z := get32 sb 12.
Definition s_free_inodes_count (sb : list Z) : Z := get32 sb 16.
Definition s_first_data_block (sb : list Z) : Z := get32 sb 20.
Definition s_log_block_size (sb : list Z) : Z := get32 sb 24.
Definition s_blocks_per_group (sb : list Z) : Z := get32 sb 32.
Definition s_inodes_per_group (sb : list Z) : Z := get32 sb 40.
Definition s_magic (sb : list Z) : Z := get16 sb 56.
Definition s_inode_size (sb : list Z) : Z := get16 sb 88.

(** [ext2_group_desc_t], 32 bytes each, in the table [group_desc]. *)
Definition DESC_SIZE : Z := 32.
Definition bg_block_bitmap (t : list Z) (g : Z) : Z := get32 t (g * DESC_SIZE).
Definition bg_inode_bitmap (t : list Z) (g : Z) : Z := get32 t (g * DESC_SIZE + 4).
Definition bg_inode_table (t : list Z) (g : Z) : Z := get32 t (g * DESC_SIZE + 8).
Definition bg_free_blocks_count (t : list Z) (g : Z) : Z := get16 t (g * DESC_SIZE + 12).
Definition bg_free_inodes_count (t : list Z) (g : Z) : Z := get16 t (g * DESC_SIZE + 14).
Definition bg_used_dirs_count (t : list Z) (g : Z) : Z := get16 t (g * DESC_SIZE + 16).

(** [ext2_inode_t]. *)
Definition INODE_BYTES : Z := 128.
Definition i_mode (ino : list Z) : Z := get16 ino 0.
Definition i_uid (ino : list Z) : Z := get16 ino 2.
Definition i_size (ino : list Z) : Z := get32 ino 4.
Definition i_gid (ino : list Z) : Z := get16 ino 24.
Definition i_links_count (ino : list Z) : Z := get16 ino 26.
Definition i_block (ino : list Z) (x : Z) : Z := get32 ino (40 + 4 * x).
Definition set_mode (v : Z) (ino : list Z) : list Z := set16 ino 0 v.
Definition set_uid (v : Z) (ino : list Z) : list Z := set16 ino 2 v.
Definition set_size (v : Z) (ino : list Z) : list Z := set32 ino 4 v.
Definition set_gid (v : Z) (ino : list Z) : list Z := set16 ino 24 v.
Definition set_links (v : Z) (ino : list Z) : list Z := set16 ino 26 v.
Definition set_block (x v : Z) (ino : list Z) : list Z := set32 ino (40 + 4 * x) v.

(** [ext2_dir_entry_t] at offset [o] of a block. *)
Definition d_inode (d : list Z) (o : Z) : Z := get32 d o.
Definition d_rec_len (d : list Z) (o : Z) : Z := get16 d (o + 4).
Definition d_name_len (d : list Z) (o : Z) : Z := aget 0 d (o + 6).
Definition d_file_type (d : list Z) (o : Z) : Z := aget 0 d (o + 7).
Definition d_name (d : list Z) (o : Z) : list Z := slice (o + 8) (d_name_len d o) d.

(** The stores that fill an entry. *)
Definition entry_stores (o inode rec_len name_len ty : Z) (nm : list Z) : list (Z * list Z) :=
  [(o, le32 inode); (o + 4, le16 rec_len); (o + 6, [u8 name_len]); (o + 7, [u8 ty]); (o + 8, nm)].

Definition ALIGN_UP4 (x : Z) : Z := u32 (Z.land (x + 3) (Z.lnot 3)).

(** ** Bitmaps *)
Definition ext2_test_bit (bitmap : list Z) (bit : Z) : bool :=
  negb (Z.land (aget 0 bitmap (bit / 8)) (2 ^ (bit mod 8)) =? 0).
Definition ext2_set_bit (bitmap : list Z) (bit : Z) : Z * list Z :=
  (bit / 8, [u8 (Z.lor (aget 0 bitmap (bit / 8)) (2 ^ (bit mod 8)))]).
Definition ext2_clear_bit (bitmap : list Z) (bit : Z) : Z * list Z :=
  (bit / 8, [u8 (Z.land (aget 0 bitmap (bit / 8)) (Z.lnot (2 ^ (bit mod 8))))]).

Record ext2_file := mkFile { f_inode_num : Z; f_inode : list Z; f_position : Z; f_is_directory : bool }.
Record ext2_dir_iter := mkIter { it_dir : ext2_file; it_offset : Z }.

Section ext2.
Context {D : Type} `{!BlockDevice D} (kmalloc_ok : nat -> bool).
Abbreviation fs := (ext2_fs D).
Abbreviation get_block := (ext2_get_block kmalloc_ok).

(** ** Inodes *)

(** Group, block and offset of an inode in the inode table. *)
Definition inode_place (s : fs) (inode_num : Z) : Z * Z :=
  let n := inode_num - 1 in
  let group := n / s_inodes_per_group (superblock s) in
  let index := n mod s_inodes_per_group (superblock s) in
  let inode_table := bg_inode_table (group_desc s) group in
  (u32 (inode_table + u32 (index * inode_size s) / block_size s), u32 (index * inode_size s) mod block_size s).

Definition inode_num_ok (s : fs) (inode_num : Z) : bool :=
  negb ((inode_num =? 0) || (s_inodes_count (superblock s) <? inode_num)).

Definition ext2_read_inode (inode_num : Z) : M fs (Z + list Z) :=
  let* s := gets id in
  if negb (inode_num_ok s inode_num) then ret (inl EXT2_ERROR_INVALID)
  else
    let '(block, offset) := inode_place s inode_num in
    let* h := get_block block in
    match h with
    | None => ret (inl EXT2_ERROR_IO)
    | Some h =>
        let* d := block_data h in
        do* ext2_put_block h false in
        ret (inr (slice offset INODE_BYTES d))
    end.

Definition ext2_write_inode (inode_num : Z) (inode : list Z) : M fs Z :=
  let* s := gets id in
  if negb (inode_num_ok s inode_num) then ret EXT2_ERROR_INVALID
  else
    let '(block, offset) := inode_place s inode_num in
    let* h := get_block block in
    match h with
    | None => ret EXT2_ERROR_IO
    | Some h =>
        do* (do* block_writes h [(offset, inode)] in ext2_put_block h true) in
        ret EXT2_SUCCESS
    end.

(** ** Free blocks and inodes *)

(** Add to a 16-bit count of a group and to a 32-bit count of the superblock. *)
Definition add_desc (g off k : Z) (s : fs) : fs :=
  set_group_desc (set16 (group_desc s) (g * DESC_SIZE + off)
                        (u16 (get16 (group_desc s) (g * DESC_SIZE + off) + k))) s.
Definition add_super (off k : Z) (s : fs) : fs :=
  set_superblock (set32 (superblock s) off (u32 (get32 (superblock s) off + k))) s.

(** Copy the descriptor of a group to the block of descriptors. *)
Definition write_group_desc (group : Z) : M fs unit :=
  let* s := gets id in
  let* h := get_block (u32 (first_data_block s + 1)) in
  match h with
  | None => ret tt
  | Some h =>
      do* block_writes h [(group * DESC_SIZE, slice (group * DESC_SIZE) DESC_SIZE (group_desc s))] in
      ext2_put_block h true
  end.

Definition blocks_in_group (s : fs) (group : Z) : Z :=
  if group =? num_groups s - 1
  then u32 (s_blocks_count (superblock s) - u32 (group * s_blocks_per_group (superblock s)))
  else s_blocks_per_group (superblock s).

Definition alloc_block_in (group : Z) : M fs (option (Z + Z)) :=
  let* s := gets id in
  if bg_free_blocks_count (group_desc s) group =? 0 then ret None
  else
    let* h := get_block (bg_block_bitmap (group_desc s) group) in
    match h with
    | None => ret (Some (inl EXT2_ERROR_IO))
    | Some h =>
        let* bitmap := block_data h in
        match find_first (fun i => negb (ext2_test_bit bitmap i)) 0 (Z.to_nat (blocks_in_group s group)) with
        | Some i =>
            do* (do* block_writes h [ext2_set_bit bitmap i] in ext2_put_block h true) in
            do* modify (add_desc group 12 (-1)) in
            do* modify (add_super 12 (-1)) in
            do* write_group_desc group in
            ret (Some (inr (u32 (u32 (group * s_blocks_per_group (superblock s)) + first_data_block s + i))))
        | None =>
            do* ext2_put_block h false in
            ret None
        end
    end.

Definition ext2_alloc_block : M fs (Z + Z) :=
  let* s := gets id in
  let* r := for_each alloc_block_in (seqZ 0 (num_groups s)) in
  ret (default (inl EXT2_ERROR_NO_SPACE) r).

Definition ext2_free_block (block_num : Z) : M fs Z :=
  let* s := gets id in
  if (block_num <? first_data_block s) || (s_blocks_count (superblock s) <=? block_num)
  then ret EXT2_ERROR_INVALID
  else
    let n := block_num - first_data_block s in
    let group := n / s_blocks_per_group (superblock s) in
    let index := n mod s_blocks_per_group (superblock s) in
    let* h := get_block (bg_block_bitmap (group_desc s) group) in
    match h with
    | None => ret EXT2_ERROR_IO
    | Some h =>
        let* bitmap := block_data h in
        do* (do* block_writes h [ext2_clear_bit bitmap index] in ext2_put_block h true) in
        do* modify (add_desc group 12 1) in
        do* modify (add_super 12 1) in
        do* write_group_desc group in
        ret EXT2_SUCCESS
    end.

Definition alloc_inode_in (preferred : Z) (is_dir : bool) (attempt : Z) : M fs (option (Z + Z)) :=
  let* s := gets id in
  let group := u32 (preferred + attempt) mod num_groups s in
  if bg_free_inodes_count (group_desc s) group =? 0 then ret None
  else
    let* h := get_block (bg_inode_bitmap (group_desc s) group) in
    match h with
    | None => ret (Some (inl EXT2_ERROR_IO))
    | Some h =>
        let* bitmap := block_data h in
        match find_first (fun i => negb (ext2_test_bit bitmap i)) 0
                (Z.to_nat (s_inodes_per_group (superblock s))) with
        | Some i =>
            do* (do* block_writes h [ext2_set_bit bitmap i] in ext2_put_block h true) in
            do* modify (add_desc group 14 (-1)) in
            do* modify (add_super 16 (-1)) in
            do* (if is_dir then modify (add_desc group 16 1) else ret tt) in
            do* write_group_desc group in
            ret (Some (inr (u32 (group * s_inodes_per_group (superblock s) + i + 1))))
        | None =>
            do* ext2_put_block h false in
            ret None
        end
    end.

Definition ext2_alloc_inode (parent_inode : Z) (is_dir : bool) : M fs (Z + Z) :=
  let* s := gets id in
  let preferred :=
    if 0 <? parent_inode then (parent_inode - 1) / s_inodes_per_group (superblock s) else 0 in
  let* r := for_each (alloc_inode_in preferred is_dir) (seqZ 0 (num_groups s)) in
  ret (default (inl EXT2_ERROR_NO_SPACE) r).

Definition is_dir_mode (mode : Z) : bool := negb (Z.land mode EXT2_S_IFDIR =? 0).

Definition ext2_free_inode (inode_num : Z) : M fs Z :=
  let* s := gets id in
  if negb (inode_num_ok s inode_num) then ret EXT2_ERROR_INVALID
  else
    let* r := ext2_read_inode inode_num in
    match r with
    | inl _ => ret EXT2_ERROR_IO
    | inr inode =>
        let is_dir := is_dir_mode (i_mode inode) in
        let n := inode_num - 1 in
        let group := n / s_inodes_per_group (superblock s) in
        let index := n mod s_inodes_per_group (superblock s) in
        let* h := get_block (bg_inode_bitmap (group_desc s) group) in
        match h with
        | None => ret EXT2_ERROR_IO
        | Some h =>
            let* bitmap := block_data h in
            do* (do* block_writes h [ext2_clear_bit bitmap index] in ext2_put_block h true) in
            do* modify (add_desc group 14 1) in
            do* modify (add_super 16 1) in
            do* (if is_dir then modify (add_desc group 16 (-1)) else ret tt) in
            do* write_group_desc group in
            ret EXT2_SUCCESS
        end
    end.

(** ** The blocks of a file *)

(** [memset] a block just allocated; nothing happens if it cannot be had. *)
Definition zero_block (b : Z) : M fs unit :=
  let* s := gets id in
  let* h := get_block b in
  match h with
  | None => ret tt
  | Some h => do* block_writes h [(0, zeros (block_size s))] in ext2_put_block h true
  end.

(** A pointer of the inode: the number of the block, and the inode. *)
Definition root_pointer (x : Z) (allocate : bool) (inode : list Z) : M fs (Z * list Z) :=
  if i_block inode x =? 0 then
    if negb allocate then ret (0, inode)
    else
      let* r := ext2_alloc_block in
      match r with
      | inl _ => ret (0, inode)
      | inr new_block =>
          do* zero_block new_block in
          ret (new_block, set_block x new_block inode)
      end
  else ret (i_block inode x, inode).

(** A pointer of an indirect block.  The pointer block is not given back when
    the allocation fails. *)
Definition indirect_pointer (b idx : Z) (allocate : bool) : M fs Z :=
  let* h := get_block b in
  match h with
  | None => ret 0
  | Some h =>
      let* ptrs := block_data h in
      let block_num := get32 ptrs (4 * idx) in
      if (block_num =? 0) && allocate then
        let* r := ext2_alloc_block in
        match r with
        | inl _ => ret 0
        | inr new_block =>
            do* (do* block_writes h [(4 * idx, le32 new_block)] in ext2_put_block h true) in
            do* zero_block new_block in
            ret new_block
        end
      else
        do* ext2_put_block h false in
        ret block_num
  end.

(** Follow the indirect pointers [path] from block [b]. *)
Fixpoint follow (path : list Z) (allocate : bool) (b : Z) : M fs Z :=
  match path with
  | [] => ret b
  | idx :: path' =>
      if b =? 0 then ret 0
      else
        let* b' := indirect_pointer b idx allocate in
        follow path' allocate b'
  end.

Definition ptrs_per_block (s : fs) : Z := block_size s / 4.

(** The pointer of the inode and the indirect pointers that lead to block
    [block_index] of a file. *)
Definition block_path (s : fs) (block_index : Z) : option (Z * list Z) :=
  let p := ptrs_per_block s in
  let i1 := block_index - EXT2_NDIR_BLOCKS in
  let i2 := i1 - p in
  let i3 := i2 - u32 (p * p) in
  if block_index <? EXT2_NDIR_BLOCKS then Some (block_index, [])
  else if i1 <? p then Some (EXT2_IND_BLOCK, [i1])
  else if i2 <? u32 (p * p) then Some (EXT2_DIND_BLOCK, [i2 / p; i2 mod p])
  else if i3 <? u32 (u32 (p * p) * p) then Some (EXT2_TIND_BLOCK, [i3 / u32 (p * p); i3 / p mod p; i3 mod p])
  else None.

Definition ext2_get_block_num (inode : list Z) (block_index : Z) (allocate : bool) : M fs (Z * list Z) :=
  let* s := gets id in
  match block_path s block_index with
  | None => ret (0, inode)
  | Some (x, path) =>
      let* (b, inode') := root_pointer x allocate inode in
      let* b' := follow path allocate b in
      ret (b', inode')
  end.

(** ** Directories *)

(** One step of a loop over the entries: the block of offset [offset], or
    [None] when there is none.  The pointer to the block is still held. *)
Definition dir_block (inode : list Z) (offset : Z) : M fs (option (option Z)) :=
  let* s := gets id in
  let* (block_num, _) := ext2_get_block_num inode (offset / block_size s) false in
  if block_num =? 0 then ret None
  else
    let* h := get_block block_num in
    ret (Some h).

Definition is_entry (d : list Z) (o : Z) (nm : list Z) : bool :=
  negb (d_inode d o =? 0) && (d_name_len d o =? Z.of_nat (length nm)) && bool_decide (d_name d o = nm).

Definition lookup_step (inode nm : list Z) (offset : Z) : M fs (Z + (Z + Z)) :=
  let* s := gets id in
  if negb (offset <? i_size inode) then ret (inr (inl EXT2_ERROR_NOT_FOUND))
  else
    let* r := dir_block inode offset in
    match r with
    | None => ret (inr (inl EXT2_ERROR_NOT_FOUND))
    | Some None => ret (inr (inl EXT2_ERROR_IO))
    | Some (Some h) =>
        let* d := block_data h in
        let o := offset mod block_size s in
        do* ext2_put_block h false in
        if is_entry d o nm then ret (inr (inr (d_inode d o)))
        else ret (inl (u32 (offset + d_rec_len d o)))
    end.

Definition dir_fuel (inode : list Z) : nat := S (Z.to_nat (i_size inode)).

Definition ext2_lookup (dir_inode_num : Z) (nm : list Z) : M fs (Z + Z) :=
  let* r := ext2_read_inode dir_inode_num in
  match r with
  | inl _ => ret (inl EXT2_ERROR_IO)
  | inr dir_inode =>
      if negb (is_dir_mode (i_mode dir_inode)) then ret (inl EXT2_ERROR_NOT_DIR)
      else iter (dir_fuel dir_inode) (lookup_step dir_inode nm) 0
  end.

(** The search for an entry with room behind it; [inr (inl tt)] when there is
    none. *)
Definition add_step (dir_inode nm : list Z) (inode ty : Z) (offset : Z) : M fs (Z + (unit + Z)) :=
  let* s := gets id in
  let name_len := Z.of_nat (length nm) in
  let required_len := ALIGN_UP4 (8 + name_len) in
  if negb (offset <? i_size dir_inode) then ret (inr (inl tt))
  else
    let* r := dir_block dir_inode offset in
    match r with
    | None => ret (inr (inl tt))
    | Some None => ret (inr (inr EXT2_ERROR_IO))
    | Some (Some h) =>
        let* d := block_data h in
        let o := offset mod block_size s in
        let real_len := ALIGN_UP4 (8 + d_name_len d o) in
        let extra_space := u32 (d_rec_len d o - real_len) in
        if required_len <=? extra_space then
          do* (do* block_writes h ((o + 4, le16 real_len)
                                   :: entry_stores (o + real_len) inode extra_space name_len ty nm)
               in ext2_put_block h true) in
          ret (inr (inr EXT2_SUCCESS))
        else
          do* ext2_put_block h false in
          ret (inl (u32 (offset + d_rec_len d o)))
    end.

Definition ext2_add_dir_entry (dir_inode_num : Z) (nm : list Z) (inode ty : Z) : M fs Z :=
  let* s := gets id in
  let* r := ext2_read_inode dir_inode_num in
  match r with
  | inl _ => ret EXT2_ERROR_IO
  | inr dir_inode =>
      if negb (is_dir_mode (i_mode dir_inode)) then ret EXT2_ERROR_NOT_DIR
      else
        let* found := iter (dir_fuel dir_inode) (add_step dir_inode nm inode ty) 0 in
        match found with
        | inr code => ret code
        | inl _ =>
            let* (block_num, dir_inode') :=
              ext2_get_block_num dir_inode (i_size dir_inode / block_size s) true in
            if block_num =? 0 then ret EXT2_ERROR_NO_SPACE
            else
              let* h := get_block block_num in
              match h with
              | None => ret EXT2_ERROR_IO
              | Some h =>
                  do* (do* block_writes h (entry_stores 0 inode (block_size s) (Z.of_nat (length nm)) ty nm)
                       in ext2_put_block h true) in
                  do* ext2_write_inode dir_inode_num
                        (set_size (u32 (i_size dir_inode' + block_size s)) dir_inode') in
                  ret EXT2_SUCCESS
              end
        end
  end.

(** [prev]: the block and the offset of the entry before. *)
Definition remove_step (dir_inode nm : list Z) (st : Z * option (Z * Z)) : M fs ((Z * option (Z * Z)) + Z) :=
  let '(offset, prev) := st in
  let* s := gets id in
  let not_found :=
    do* match prev with Some (ph, _) => ext2_put_block ph false | None => ret tt end in
    ret (inr EXT2_ERROR_NOT_FOUND) in
  if negb (offset <? i_size dir_inode) then not_found
  else
    let* r := dir_block dir_inode offset in
    match r with
    | None => not_found
    | Some None => ret (inr EXT2_ERROR_IO)
    | Some (Some h) =>
        let* d := block_data h in
        let o := offset mod block_size s in
        if is_entry d o nm then
          match prev with
          | Some (ph, po) =>
              let* pd := block_data ph in
              do* (do* block_writes ph [(po + 4, le16 (u16 (d_rec_len pd po + d_rec_len d o)))]
                   in ext2_put_block ph true) in
              do* ext2_put_block h false in
              ret (inr EXT2_SUCCESS)
          | None =>
              do* (do* block_writes h [(o, le32 0)] in ext2_put_block h true) in
              ret (inr EXT2_SUCCESS)
          end
        else
          do* match prev with
              | Some (ph, _) => if ph =? h then ret tt else ext2_put_block ph false
              | None => ret tt
              end in
          ret (inl (u32 (offset + d_rec_len d o), Some (h, o)))
    end.

Definition ext2_remove_dir_entry (dir_inode_num : Z) (nm : list Z) : M fs Z :=
  let* r := ext2_read_inode dir_inode_num in
  match r with
  | inl _ => ret EXT2_ERROR_IO
  | inr dir_inode =>
      if negb (is_dir_mode (i_mode dir_inode)) then ret EXT2_ERROR_NOT_DIR
      else iter (dir_fuel dir_inode) (remove_step dir_inode nm) (0, None)
  end.

(** ** Paths *)

(** The pieces of a path between its slashes. *)
Fixpoint split_slash (cur p : list Z) : list (list Z) :=
  match p with
  | [] => [cur]
  | c :: p' => if c =? 47 then cur :: split_slash [] p' else split_slash (cur ++ [c]) p'
  end.

(** The loop over the components.  [last]: the buffer for the last component,
    if the caller wants it; what the buffer held is [garbage]. *)
Fixpoint resolve_loop (want_last : bool) (garbage : list Z) (tokens : list (list Z)) (inode_num : Z)
  : M fs (Z * Z * list Z) :=
  match tokens with
  | [] => ret (EXT2_SUCCESS, inode_num, [])
  | token :: rest =>
      if bool_decide (token = []) then ret (EXT2_SUCCESS, inode_num, [])
      else if bool_decide (rest = []) && want_last then ret (EXT2_SUCCESS, inode_num, token)
      else
        let* r := ext2_lookup inode_num token in
        match r with
        | inl code => ret (code, inode_num, garbage)
        | inr next_inode => resolve_loop want_last garbage rest next_inode
        end
  end.

(** The code, [*inode_num] and the last component. *)
Definition ext2_resolve_path (path : list Z) (want_last : bool) (garbage : list Z) : M fs (Z * Z * list Z) :=
  match path with
  | c :: rest =>
      if negb (c =? 47) then ret (EXT2_ERROR_INVALID, 0, garbage)
      else if bool_decide (rest = []) then ret (EXT2_SUCCESS, EXT2_ROOT_INO, [])
      else resolve_loop want_last garbage (split_slash [] (take 255 rest)) EXT2_ROOT_INO
  | [] => ret (EXT2_ERROR_INVALID, 0, garbage)
  end.

(** ** Mounting *)
Definition ext2_mount (dev : D) : option (D * option fs) :=
  let ss := dev_sector_size dev in
  if negb (kmalloc_ok 0) then Some (dev, None)
  else if negb (kmalloc_ok 1) then Some (dev, None)
  else
    let '(dev1, r) := dev_read (1024 / ss) (1024 / ss) dev in
    match r with
    | None => Some (dev1, None)
    | Some sb_buffer =>
        let sb := slice 0 1024 sb_buffer in
        if negb (s_magic sb =? EXT2_SUPER_MAGIC) then Some (dev1, None)
        else
          let bsize := u32 (Z.shiftl 1024 (s_log_block_size sb)) in
          let isize := if s_inode_size sb =? 0 then 128 else s_inode_size sb in
          let groups := u32 (u32 (s_blocks_count sb + s_blocks_per_group sb) - 1) / s_blocks_per_group sb in
          let s := mkFs dev1 sb [] bsize isize groups (s_first_data_block sb) [] 0 EXT2_CACHE_SIZE 4 false in
          if negb (kmalloc_ok 2) then Some (dev1, None)
          else if negb (kmalloc_ok 3) then Some (dev1, None)
          else
            match ext2_read_block (u32 (first_data_block s + 1)) s with
            | None => None
            | Some (None, s') => Some (device s', None)
            | Some (Some gd_buffer, s') =>
                Some (device s', Some (set_group_desc (slice 0 (u32 (groups * DESC_SIZE)) gd_buffer) s'))
            end
    end.

Definition ext2_unmount : M fs Z :=
  do* ext2_flush_cache in
  do* modify (set_cache [] 0) in
  ret EXT2_SUCCESS.

(** ** Files *)
Definition ext2_open (path : list Z) : M fs (option ext2_file) :=
  let* ((r, inode_num), _) := ext2_resolve_path path false [] in
  if negb (r =? EXT2_SUCCESS) then ret None
  else
    let* k := kmalloc kmalloc_ok in
    if negb k then ret None
    else
      let* r := ext2_read_inode inode_num in
      match r with
      | inl _ => ret None
      | inr inode => ret (Some (mkFile inode_num inode 0 (is_dir_mode (i_mode inode))))
      end.

Definition ext2_close (file : ext2_file) : M fs Z :=
  do* ext2_write_inode (f_inode_num file) (f_inode file) in
  ret EXT2_SUCCESS.

Definition seek_to (p : Z) (file : ext2_file) : ext2_file :=
  mkFile (f_inode_num file) (f_inode file) p (f_is_directory file).
Definition with_inode (ino : list Z) (file : ext2_file) : ext2_file :=
  mkFile (f_inode_num file) ino (f_position file) (f_is_directory file).

(** State of the loop of [ext2_read]: the bytes read so far and the file. *)
Definition read_step (to_read : Z) (st : list Z * ext2_file)
  : M fs ((list Z * ext2_file) + (Z * list Z * ext2_file)) :=
  let '(got, file) := st in
  let* s := gets id in
  let bytes_read := Z.of_nat (length got) in
  if negb (bytes_read <? to_read) then ret (inr (int32 bytes_read, got, file))
  else
    let block_index := u32 (f_position file / block_size s) in
    let block_offset := f_position file mod block_size s in
    let chunk_size := Z.min (to_read - bytes_read) (block_size s - block_offset) in
    let next := seek_to (u64 (f_position file + chunk_size)) file in
    let* (block_num, _) := ext2_get_block_num (f_inode file) block_index false in
    if block_num =? 0 then ret (inl (got ++ zeros chunk_size, next))
    else
      let* h := get_block block_num in
      match h with
      | None => ret (inr (EXT2_ERROR_IO, got, file))
      | Some h =>
          let* d := block_data h in
          do* ext2_put_block h false in
          ret (inl (got ++ slice block_offset chunk_size d, next))
      end.

(** The result, the bytes in the buffer, and the file. *)
Definition ext2_read (file : ext2_file) (size : Z) : M fs (Z * list Z * ext2_file) :=
  if f_is_directory file then ret (EXT2_ERROR_IS_DIR, [], file)
  else
    let file_size := i_size (f_inode file) in
    if file_size <=? f_position file then ret (0, [], file)
    else
      let to_read := Z.min size (file_size - f_position file) in
      iter (S (Z.to_nat to_read)) (read_step to_read) ([], file).

(** State of the loop of [ext2_write]: how many bytes are written, the file. *)
Definition write_step (buffer : list Z) (st : Z * ext2_file) : M fs ((Z * ext2_file) + (Z * ext2_file)) :=
  let '(bytes_written, file) := st in
  let* s := gets id in
  let size := Z.of_nat (length buffer) in
  if negb (bytes_written <? size) then
    do* ext2_write_inode (f_inode_num file) (f_inode file) in
    ret (inr (int32 bytes_written, file))
  else
    let block_index := u32 (f_position file / block_size s) in
    let block_offset := f_position file mod block_size s in
    let chunk_size := Z.min (size - bytes_written) (block_size s - block_offset) in
    let* (block_num, inode') := ext2_get_block_num (f_inode file) block_index true in
    if block_num =? 0 then ret (inr (EXT2_ERROR_NO_SPACE, with_inode inode' file))
    else
      let* h := get_block block_num in
      match h with
      | None => ret (inr (EXT2_ERROR_IO, with_inode inode' file))
      | Some h =>
          do* (do* block_writes h [(block_offset, slice bytes_written chunk_size buffer)]
               in ext2_put_block h true) in
          let position := u64 (f_position file + chunk_size) in
          let inode'' := if i_size inode' <? position then set_size (u32 position) inode' else inode' in
          ret (inl (bytes_written + chunk_size, seek_to position (with_inode inode'' file)))
      end.

Definition ext2_write (file : ext2_file) (buffer : list Z) : M fs (Z * ext2_file) :=
  if f_is_directory file then ret (EXT2_ERROR_IS_DIR, file)
  else iter (S (length buffer)) (write_step buffer) (0, file).

Definition ext2_seek (file : ext2_file) (offset whence : Z) : Z * ext2_file :=
  let move new_pos :=
    if new_pos <? 0 then (EXT2_ERROR_INVALID, file) else (EXT2_SUCCESS, seek_to new_pos file) in
  if whence =? EXT2_SEEK_SET then move offset
  else if whence =? EXT2_SEEK_CUR then move (int64 (f_position file + offset))
  else if whence =? EXT2_SEEK_END then move (int64 (i_size (f_inode file) + offset))
  else (EXT2_ERROR_INVALID, file).

Definition ext2_tell (file : ext2_file) : Z := f_position file.
Definition ext2_size (file : ext2_file) : Z := i_size (f_inode file).

(** ** Creating and deleting

    [garbage]: what the stack holds where [last_component] is. *)
Definition new_inode (mode links size : Z) : list Z :=
  set_links links (set_size size (set_mode mode (zeros INODE_BYTES))).

(** The part the two creators share: the directory to create in and the name;
    [inl] is the code to return. *)
Definition create_where (path garbage : list Z) : M fs (Z + Z * list Z) :=
  let* ((result, parent_inode), last_component) := ext2_resolve_path path true garbage in
  if negb (result =? EXT2_SUCCESS) && negb (result =? EXT2_ERROR_NOT_FOUND) then ret (inl result)
  else if bool_decide (last_component = []) then ret (inl EXT2_ERROR_INVALID)
  else
    let* r := ext2_lookup parent_inode last_component in
    match r with
    | inr _ => ret (inl EXT2_ERROR_EXISTS)
    | inl _ => ret (inr (parent_inode, last_component))
    end.

Definition ext2_create (path : list Z) (mode : Z) (garbage : list Z) : M fs Z :=
  let* w := create_where path garbage in
  match w with
  | inl code => ret code
  | inr (parent_inode, last_component) =>
      let* r := ext2_alloc_inode parent_inode false in
      match r with
      | inl code => ret code
      | inr new_num =>
          let* result := ext2_write_inode new_num (new_inode (u16 (Z.lor mode EXT2_S_IFREG)) 1 0) in
          if negb (result =? EXT2_SUCCESS) then
            do* ext2_free_inode new_num in
            ret result
          else
            let* result := ext2_add_dir_entry parent_inode last_component new_num EXT2_FT_REG_FILE in
            if negb (result =? EXT2_SUCCESS) then
              do* ext2_free_inode new_num in
              ret result
            else ret EXT2_SUCCESS
      end
  end.

(** The inode a path names in its parent directory. *)
Definition delete_where (path : list Z) : M fs (Z + Z * list Z * Z * list Z) :=
  let* ((result, parent_inode), last_component) := ext2_resolve_path path true [] in
  if negb (result =? EXT2_SUCCESS) then ret (inl result)
  else if bool_decide (last_component = []) then ret (inl EXT2_ERROR_INVALID)
  else
    let* r := ext2_lookup parent_inode last_component in
    match r with
    | inl code => ret (inl code)
    | inr inode_num =>
        let* r := ext2_read_inode inode_num in
        match r with
        | inl code => ret (inl code)
        | inr inode => ret (inr (parent_inode, last_component, inode_num, inode))
        end
    end.

(** Free the direct blocks up to the first that is missing. *)
Definition free_direct (inode : list Z) (i : Z) : M fs (option unit) :=
  if i_block inode i =? 0 then ret (Some tt)
  else
    do* ext2_free_block (i_block inode i) in
    ret None.

Definition free_blocks (inode : list Z) : M fs unit :=
  do* for_each (free_direct inode) (seqZ 0 EXT2_NDIR_BLOCKS) in ret tt.

Definition ext2_delete (path : list Z) : M fs Z :=
  let* w := delete_where path in
  match w with
  | inl code => ret code
  | inr (parent_inode, last_component, inode_num, inode) =>
      if is_dir_mode (i_mode inode) then ret EXT2_ERROR_IS_DIR
      else
        let* result := ext2_remove_dir_entry parent_inode last_component in
        if negb (result =? EXT2_SUCCESS) then ret result
        else
          let inode' := set_links (u16 (i_links_count inode - 1)) inode in
          do* if i_links_count inode' =? 0 then
                do* free_blocks inode' in
                ext2_free_inode inode_num
              else ext2_write_inode inode_num inode' in
          ret EXT2_SUCCESS
  end.

(** Change the link count of a directory by [k], if it can be read. *)
Definition add_links (dir_inode k : Z) : M fs unit :=
  let* r := ext2_read_inode dir_inode in
  match r with
  | inl _ => ret tt
  | inr parent =>
      do* ext2_write_inode dir_inode (set_links (u16 (i_links_count parent + k)) parent) in
      ret tt
  end.

(** The first block of a directory. *)
Definition dot_stores (bsize self parent : Z) : list (Z * list Z) :=
  (0, zeros bsize) :: entry_stores 0 self 12 1 EXT2_FT_DIR [46]
  ++ entry_stores 12 parent (bsize - 12) 2 EXT2_FT_DIR [46; 46].

Definition ext2_mkdir (path garbage : list Z) : M fs Z :=
  let* w := create_where path garbage in
  match w with
  | inl code => ret code
  | inr (parent_inode, last_component) =>
      let* r := ext2_alloc_inode parent_inode true in
      match r with
      | inl code => ret code
      | inr new_num =>
          let* r := ext2_alloc_block in
          match r with
          | inl code => do* ext2_free_inode new_num in ret code
          | inr dir_block =>
              let undo code :=
                do* ext2_free_block dir_block in
                do* ext2_free_inode new_num in
                ret code in
              let* s := gets id in
              let inode := set_block 0 dir_block (new_inode (Z.lor 493 EXT2_S_IFDIR) 2 (block_size s)) in
              let* result := ext2_write_inode new_num inode in
              if negb (result =? EXT2_SUCCESS) then undo result
              else
                let* h := get_block dir_block in
                match h with
                | None => undo EXT2_ERROR_IO
                | Some h =>
                    do* (do* block_writes h (dot_stores (block_size s) new_num parent_inode)
                         in ext2_put_block h true) in
                    let* result := ext2_add_dir_entry parent_inode last_component new_num EXT2_FT_DIR in
                    if negb (result =? EXT2_SUCCESS) then undo result
                    else
                      do* add_links parent_inode 1 in
                      ret EXT2_SUCCESS
                end
          end
      end
  end.

Definition ext2_rmdir (path : list Z) : M fs Z :=
  let* w := delete_where path in
  match w with
  | inl code => ret code
  | inr (parent_inode, last_component, inode_num, inode) =>
      if negb (is_dir_mode (i_mode inode)) then ret EXT2_ERROR_NOT_DIR
      else if 2 <? i_links_count inode then ret EXT2_ERROR_NOT_EMPTY
      else
        let* result := ext2_remove_dir_entry parent_inode last_component in
        if negb (result =? EXT2_SUCCESS) then ret result
        else
          do* free_blocks inode in
          do* ext2_free_inode inode_num in
          do* add_links parent_inode (-1) in
          ret EXT2_SUCCESS
  end.

(** ** Reading directories *)
Definition ext2_opendir (path : list Z) : M fs (option ext2_dir_iter) :=
  let* f := ext2_open path in
  match f with
  | None => ret None
  | Some dir =>
      if negb (f_is_directory dir) then do* ext2_close dir in ret None
      else
        let* k := kmalloc kmalloc_ok in
        if negb k then do* ext2_close dir in ret None
        else ret (Some (mkIter dir 0))
  end.

(** The entry found - name, inode, type - or the code, and the iterator. *)
Definition readdir_step (dir : ext2_file) (offset : Z) : M fs (Z + (Z + list Z * Z * Z) * Z) :=
  let* s := gets id in
  if negb (offset <? i_size (f_inode dir)) then ret (inr (inl EXT2_ERROR_NOT_FOUND, offset))
  else
    let* (block_num, _) := ext2_get_block_num (f_inode dir) (u32 (offset / block_size s)) false in
    if block_num =? 0 then ret (inr (inl EXT2_ERROR_IO, offset))
    else
      let* h := get_block block_num in
      match h with
      | None => ret (inr (inl EXT2_ERROR_IO, offset))
      | Some h =>
          let* d := block_data h in
          let o := offset mod block_size s in
          do* ext2_put_block h false in
          let offset' := u64 (offset + d_rec_len d o) in
          if negb (d_inode d o =? 0)
          then ret (inr (inr (d_name d o, d_inode d o, d_file_type d o), offset'))
          else ret (inl offset')
      end.

Definition ext2_readdir (iter_ : ext2_dir_iter) : M fs ((Z + list Z * Z * Z) * ext2_dir_iter) :=
  let* (r, offset) := iter (dir_fuel (f_inode (it_dir iter_))) (readdir_step (it_dir iter_)) (it_offset iter_) in
  ret (r, mkIter (it_dir iter_) offset).

Definition ext2_closedir (iter_ : ext2_dir_iter) : M fs Z :=
  do* ext2_close (it_dir iter_) in
  ret EXT2_SUCCESS.

(** ** Attributes *)
Definition ext2_stat (path : list Z) : M fs (Z + list Z) :=
  let* ((result, inode_num), _) := ext2_resolve_path path false [] in
  if negb (result =? EXT2_SUCCESS) then ret (inl result)
  else ext2_read_inode inode_num.

Definition ext2_exists (path : list Z) : M fs bool :=
  let* ((result, _), _) := ext2_resolve_path path false [] in
  ret (result =? EXT2_SUCCESS).

Definition ext2_get_mode (path : list Z) : M fs Z :=
  let* r := ext2_stat path in
  match r with
  | inl _ => ret 0
  | inr inode => ret (i_mode inode)
  end.

(** Read the inode of a path, change it, write it back. *)
Definition change_inode (path : list Z) (f : list Z -> list Z) : M fs Z :=
  let* ((result, inode_num), _) := ext2_resolve_path path false [] in
  if negb (result =? EXT2_SUCCESS) then ret result
  else
    let* r := ext2_read_inode inode_num in
    match r with
    | inl code => ret code
    | inr inode => ext2_write_inode inode_num (f inode)
    end.

Definition chmod_mode (mode old : Z) : Z :=
  Z.lor (u16 (Z.land old (Z.lnot EXT2_S_PERM_MASK))) (Z.land mode EXT2_S_PERM_MASK).

Definition ext2_chmod (path : list Z) (mode : Z) : M fs Z :=
  change_inode path (fun inode => set_mode (chmod_mode mode (i_mode inode)) inode).

Definition ext2_get_owner (path : list Z) : M fs (Z + Z * Z) :=
  let* r := ext2_stat path in
  match r with
  | inl code => ret (inl code)
  | inr inode => ret (inr (i_uid inode, i_gid inode))
  end.

Definition NO_CHANGE : Z := 0xFFFF.

Definition ext2_chown (path : list Z) (uid gid : Z) : M fs Z :=
  change_inode path (fun inode =>
    let inode1 := if negb (uid =? NO_CHANGE) then set_uid uid inode else inode in
    if negb (gid =? NO_CHANGE) then set_gid gid inode1 else inode1).
End ext2.
