(* ===== verification/Ext2Inv.v ===== *)
(** * The layout of an ext2 file system

    What the blocks of a mounted file system are used for: the block of group
    descriptors and the two bitmaps of every group ([bookkeeping]), the inode
    tables ([in_table]), and the blocks a bitmap has as free ([block_free]).
    [layout] is the invariant that keeps these apart; it is stated of what
    the cache shows, [view].  [geom] relates two states of one file system:
    everything but counts, bitmaps and contents is the same. *)

From S2P Require Import Prelude Bytes StateMonad BlockDev Ext2Cache Ext2.

(** ** Bits of a bitmap *)
Lemma ext2_test_bit_spec bitmap bit :
  ext2_test_bit bitmap bit = Z.testbit (aget 0 bitmap (bit / 8)) (bit mod 8).
Proof. unfold ext2_test_bit. apply land_pow2_ne0. apply Z.mod_pos_bound. lia. Qed.

Section bits.
Context (bitmap : list Z) (i : Z) (Hi : 0 <= i < 8 * Z.of_nat (length bitmap)).

Lemma byte_in_bitmap : 0 <= i / 8 < Z.of_nat (length bitmap).
Proof. split; [apply Z.div_pos; lia|apply Z.div_lt_upper_bound; lia]. Qed.

Lemma aget_byte v j :
  aget 0 (stores [(i / 8, [v])] bitmap) (j / 8) = if decide (j / 8 = i / 8) then v else aget 0 bitmap (j / 8).
Proof.
  pose proof byte_in_bitmap. cbn [stores fold_left fst snd]. case_decide as E.
  - rewrite E, aget_write_at_in by (cbn [length]; lia). by rewrite Z.sub_diag.
  - by rewrite aget_write_at_out by (cbn [length]; lia).
Qed.

Lemma test_set_bit j :
  ext2_test_bit (stores [ext2_set_bit bitmap i] bitmap) j = (j =? i) || ext2_test_bit bitmap j.
Proof.
  rewrite !ext2_test_bit_spec. unfold ext2_set_bit. rewrite aget_byte.
  pose proof (Z.mod_pos_bound i 8). pose proof (Z.mod_pos_bound j 8). case_decide as E.
  - rewrite testbit_u8, Z.lor_spec, Z.pow2_bits_eqb by lia. rewrite E.
    destruct (Z.eqb_spec j i) as [->|Hne]; [rewrite Z.eqb_refl; apply orb_true_r|].
    destruct (Z.eqb_spec (i mod 8) (j mod 8)); [|by rewrite orb_false_r].
    exfalso. by apply Hne, byte_index_split.
  - by destruct (Z.eqb_spec j i) as [->|].
Qed.

Lemma test_clear_bit j :
  ext2_test_bit (stores [ext2_clear_bit bitmap i] bitmap) j = negb (j =? i) && ext2_test_bit bitmap j.
Proof.
  rewrite !ext2_test_bit_spec. unfold ext2_clear_bit. rewrite aget_byte.
  pose proof (Z.mod_pos_bound i 8). pose proof (Z.mod_pos_bound j 8). case_decide as E.
  - rewrite testbit_u8, Z.land_spec, Z.lnot_spec, Z.pow2_bits_eqb by lia. rewrite E.
    destruct (Z.eqb_spec j i) as [->|Hne]; [by rewrite Z.eqb_refl, andb_false_r|].
    destruct (Z.eqb_spec (i mod 8) (j mod 8)); [|by rewrite andb_true_r].
    exfalso. by apply Hne, byte_index_split.
  - by destruct (Z.eqb_spec j i) as [->|].
Qed.

Lemma bit_store_ok v bs : Z.of_nat (length bitmap) = bs -> store_ok bs (i / 8, [u8 v]).
Proof.
  pose proof byte_in_bitmap. intros <-. split_and!; cbn [fst snd length]; [lia|lia|].
  repeat constructor; apply u8_range.
Qed.
End bits.

Section layout.
Context {D : Type} `{!BlockDevice D} `{!BlockDeviceLaws D}.
Abbreviation fs := (ext2_fs D).

(** ** Geometry *)
Record geom (s s' : fs) : Prop := {
  ge_block : block_size s' = block_size s;
  ge_inode : inode_size s' = inode_size s;
  ge_groups : num_groups s' = num_groups s;
  ge_first : first_data_block s' = first_data_block s;
  ge_max : max_cache_entries s' = max_cache_entries s;
  ge_over : overrun s' = overrun s;
  ge_sector : dev_sector_size (device s') = dev_sector_size (device s);
  ge_length : length (contents (device s')) = length (contents (device s));
  ge_super : length (superblock s') = length (superblock s);
  ge_inodes : s_inodes_count (superblock s') = s_inodes_count (superblock s);
  ge_blocks : s_blocks_count (superblock s') = s_blocks_count (superblock s);
  ge_bpg : s_blocks_per_group (superblock s') = s_blocks_per_group (superblock s);
  ge_ipg : s_inodes_per_group (superblock s') = s_inodes_per_group (superblock s);
  ge_desc : length (group_desc s') = length (group_desc s);
  ge_bb : forall g, bg_block_bitmap (group_desc s') g = bg_block_bitmap (group_desc s) g;
  ge_ib : forall g, bg_inode_bitmap (group_desc s') g = bg_inode_bitmap (group_desc s) g;
  ge_it : forall g, bg_inode_table (group_desc s') g = bg_inode_table (group_desc s) g
}.

Lemma geom_refl s : geom s s.
Proof. by split. Qed.
Lemma geom_trans s1 s2 s3 : geom s1 s2 -> geom s2 s3 -> geom s1 s3.
Proof. intros [] []. split; intros; congruence. Qed.
Lemma same_geom s s' : same_fs s s' -> geom s s'.
Proof. intros [E1 E2 ? ? ? ? ? ? ? ?]. by split; rewrite ?E1, ?E2. Qed.

Section transport.
Context (s s' : fs) (G : geom s s').

Lemma geom_addressable b : addressable s' b <-> addressable s b.
Proof. destruct G. unfold addressable, sectors_per_block. by rewrite ge_block0, ge_sector0. Qed.
Lemma geom_on_disk b : on_disk s' b <-> on_disk s b.
Proof. destruct G. unfold on_disk. by rewrite ge_block0, ge_length0. Qed.
Lemma geom_blocks_in_group g : blocks_in_group s' g = blocks_in_group s g.
Proof. destruct G. unfold blocks_in_group. by rewrite ge_groups0, ge_blocks0, ge_bpg0. Qed.
Lemma geom_inode_num_ok i : inode_num_ok s' i = inode_num_ok s i.
Proof. destruct G. unfold inode_num_ok. by rewrite ge_inodes0. Qed.
Lemma geom_inode_place i : inode_place s' i = inode_place s i.
Proof. destruct G. unfold inode_place. by rewrite ge_ipg0, ge_it0, ge_inode0, ge_block0. Qed.
Lemma geom_block_path i : block_path s' i = block_path s i.
Proof. destruct G. unfold block_path, ptrs_per_block. by rewrite ge_block0. Qed.
End transport.

(** ** What blocks are used for *)

(** A block number that can be read. *)
Definition valid (s : fs) (b : Z) : Prop := 0 < b < 2 ^ 32 /\ addressable s b /\ on_disk s b.

Definition group_of (s : fs) (n : Z) : Z := (n - first_data_block s) / s_blocks_per_group (superblock s).
Definition index_of (s : fs) (n : Z) : Z := (n - first_data_block s) mod s_blocks_per_group (superblock s).

Definition in_groups (s : fs) (n : Z) : Prop :=
  first_data_block s <= n /\ 0 <= group_of s n < num_groups s /\ index_of s n < blocks_in_group s (group_of s n).

Definition block_bit (s : fs) (n : Z) : bool :=
  ext2_test_bit (view s (bg_block_bitmap (group_desc s) (group_of s n))) (index_of s n).

Definition block_free (s : fs) (n : Z) : Prop := in_groups s n /\ block_bit s n = false.

Definition desc_block (s : fs) : Z := first_data_block s + 1.

Definition bookkeeping (s : fs) (b : Z) : Prop :=
  b = desc_block s \/
  exists g, 0 <= g < num_groups s /\ (b = bg_block_bitmap (group_desc s) g \/ b = bg_inode_bitmap (group_desc s) g).

Definition in_table (s : fs) (b : Z) : Prop :=
  exists i, 0 < i /\ inode_num_ok s i = true /\ b = fst (inode_place s i).

Record layout (s : fs) : Prop := {
  ly_block : 1024 <= block_size s <= 65536 /\ block_size s mod 4 = 0;
  ly_first : 0 <= first_data_block s;
  ly_groups : 0 < num_groups s /\ num_groups s * DESC_SIZE <= block_size s;
  ly_per_group : 0 < s_blocks_per_group (superblock s) <= 8 * block_size s /\
                 0 < s_inodes_per_group (superblock s) <= 8 * block_size s;
  ly_numbers : num_groups s * s_blocks_per_group (superblock s) + first_data_block s + 1 < 2 ^ 32 /\
               num_groups s * s_inodes_per_group (superblock s) < 2 ^ 32;
  ly_in_group : forall g, 0 <= g < num_groups s ->
    0 <= blocks_in_group s g <= s_blocks_per_group (superblock s);
  ly_super : Z.of_nat (length (superblock s)) = 1024 /\ bytes_ok (superblock s);
  ly_desc : Z.of_nat (length (group_desc s)) = num_groups s * DESC_SIZE /\ bytes_ok (group_desc s);
  ly_desc_block : valid s (desc_block s);
  ly_bitmaps : forall g, 0 <= g < num_groups s ->
    valid s (bg_block_bitmap (group_desc s) g) /\ valid s (bg_inode_bitmap (group_desc s) g) /\
    bg_block_bitmap (group_desc s) g <> desc_block s /\ bg_inode_bitmap (group_desc s) g <> desc_block s;
  ly_apart : forall g g', 0 <= g < num_groups s -> 0 <= g' < num_groups s ->
    bg_block_bitmap (group_desc s) g <> bg_inode_bitmap (group_desc s) g' /\
    (bg_block_bitmap (group_desc s) g = bg_block_bitmap (group_desc s) g' -> g = g') /\
    (bg_inode_bitmap (group_desc s) g = bg_inode_bitmap (group_desc s) g' -> g = g');
  ly_table : forall i, 0 < i -> inode_num_ok s i = true ->
    valid s (fst (inode_place s i)) /\ ~ bookkeeping s (fst (inode_place s i)) /\
    0 <= snd (inode_place s i) /\ snd (inode_place s i) + INODE_BYTES <= block_size s;
  ly_table_apart : forall i j, 0 < i -> 0 < j -> inode_num_ok s i = true -> inode_num_ok s j = true ->
    fst (inode_place s i) = fst (inode_place s j) -> i = j \/
    snd (inode_place s i) + INODE_BYTES <= snd (inode_place s j) \/
    snd (inode_place s j) + INODE_BYTES <= snd (inode_place s i);
  ly_sync : slice 0 (num_groups s * DESC_SIZE) (view s (desc_block s)) = group_desc s;
  ly_free : forall n, block_free s n -> valid s n /\ ~ bookkeeping s n /\ ~ in_table s n
}.

Section transport2.
Context (s s' : fs) (G : geom s s').

Lemma geom_valid b : valid s' b <-> valid s b.
Proof. unfold valid. by rewrite (geom_addressable s s' G), (geom_on_disk s s' G). Qed.
Lemma geom_group_of n : group_of s' n = group_of s n.
Proof. destruct G. unfold group_of. by rewrite ge_first0, ge_bpg0. Qed.
Lemma geom_index_of n : index_of s' n = index_of s n.
Proof. destruct G. unfold index_of. by rewrite ge_first0, ge_bpg0. Qed.
Lemma geom_in_groups n : in_groups s' n <-> in_groups s n.
Proof.
  unfold in_groups. rewrite geom_group_of, geom_index_of, (geom_blocks_in_group s s' G).
  by rewrite (ge_first _ _ G), (ge_groups _ _ G).
Qed.
Lemma geom_desc_block : desc_block s' = desc_block s.
Proof. unfold desc_block. by rewrite (ge_first _ _ G). Qed.
Lemma geom_bookkeeping b : bookkeeping s' b <-> bookkeeping s b.
Proof.
  unfold bookkeeping. rewrite geom_desc_block, (ge_groups _ _ G).
  setoid_rewrite (ge_bb _ _ G). by setoid_rewrite (ge_ib _ _ G).
Qed.
Lemma geom_in_table b : in_table s' b <-> in_table s b.
Proof.
  unfold in_table. setoid_rewrite (geom_inode_num_ok s s' G). by setoid_rewrite (geom_inode_place s s' G).
Qed.

(** The invariant in another state of the same geometry. *)
Lemma layout_geom :
  layout s -> bytes_ok (superblock s') -> bytes_ok (group_desc s') ->
  slice 0 (num_groups s * DESC_SIZE) (view s' (desc_block s)) = group_desc s' ->
  (forall n, block_free s' n -> valid s n /\ ~ bookkeeping s n /\ ~ in_table s n) ->
  layout s'.
Proof.
  intros [] Hsb Hgd Hsync Hfree.
  pose proof G as [E1 E2 E3 E4 E5 E6 E7 E8 E9 E10 E11 E12 E13 E14 E15 E16 E17].
  split; rewrite ?geom_desc_block, ?E1, ?E3, ?E4, ?E9, ?E12, ?E13, ?E14; try done.
  - intros g Hg. rewrite (geom_blocks_in_group s s' G). by apply ly_in_group0.
  - by split; [apply ly_super0|].
  - by split; [apply ly_desc0|].
  - by apply geom_valid.
  - intros g Hg. rewrite E15, E16, !geom_valid. by apply ly_bitmaps0.
  - intros g g'. rewrite !E15, !E16. apply ly_apart0.
  - intros i. rewrite (geom_inode_num_ok s s' G), (geom_inode_place s s' G), geom_valid, geom_bookkeeping.
    apply ly_table0.
  - intros i j. rewrite !(geom_inode_num_ok s s' G), !(geom_inode_place s s' G). apply ly_table_apart0.
  - intros n. rewrite geom_valid, geom_bookkeeping, geom_in_table. apply Hfree.
Qed.
End transport2.

(** Nothing a reader of the cache does matters. *)
Lemma frame_block_free s s' n : frame s s' -> block_free s' n <-> block_free s n.
Proof.
  intros [Hs Hv]. pose proof (same_geom _ _ Hs) as G. unfold block_free, block_bit.
  by rewrite (geom_in_groups s s' G), (geom_group_of s s' G), (geom_index_of s s' G), (ge_bb _ _ G), Hv.
Qed.

Lemma frame_layout s s' : frame s s' -> layout s -> layout s'.
Proof.
  intros Hf Hl. pose proof Hf as [Hs Hv]. pose proof (same_geom _ _ Hs) as G.
  apply (layout_geom s s' G Hl).
  - rewrite (sf_super _ _ Hs). apply Hl.
  - rewrite (sf_desc _ _ Hs). apply Hl.
  - rewrite Hv, (sf_desc _ _ Hs). apply Hl.
  - intros n Hn. apply Hl. by apply (frame_block_free s s').
Qed.

(** ** Calls that cannot fail

    From here on the device is reliable and memory does not run out; the
    [room] left in the cache is what operations need for the pointers they
    hold at the same time. *)
Context (kmalloc_ok : nat -> bool).
Definition memory_left : Prop := forall n, kmalloc_ok n = true.

Definition room (k : Z) (H : list Z) (s : fs) : Prop := Z.of_nat (length H) + k <= max_cache_entries s.

Context (HR : Reliable D) (Hk : memory_left).

Lemma get_ok H s b :
  cache_ok H s -> valid s b -> Z.of_nat (length H) < max_cache_entries s ->
  wp (ext2_get_block kmalloc_ok b) (fun r s' => r = Some b /\ cache_ok (b :: H) s' /\ frame s s') s.
Proof.
  intros Hc (_ & Ha & Hd) Hlen. destruct (cw_max _ _ Hc) as [Hm _].
  wp_call get_block_spec; [exact Hc|exact Ha|lia|]. intros r s' (Hf & Hsome & Hnone).
  destruct r as [h|].
  - by destruct (Hsome h eq_refl) as [-> ?].
  - destruct (Hnone eq_refl) as [_ []]. by split_and!.
Qed.

(** Read a block and give it back. *)
Lemma read_block_then {B} H s b (k : list Z -> M fs B) (Q : B -> fs -> Prop) (e : M fs B) :
  cache_ok H s -> valid s b -> Z.of_nat (length H) < max_cache_entries s ->
  (forall s', cache_ok H s' -> frame s s' -> wp (k (view s b)) Q s') ->
  wp (let* h := ext2_get_block kmalloc_ok b in
      match h with
      | None => e
      | Some h => let* d := block_data h in do* ext2_put_block h false in k d
      end) Q s.
Proof.
  intros Hc Hv Hl HQ. wp_steps. wp_call get_ok; [exact Hc|exact Hv|exact Hl|].
  intros r s1 (-> & Hc1 & Hf1). wp_steps. wp_call block_data_spec; [exact Hc1|by left|].
  intros d s2 [-> ->]. wp_steps. wp_call put_block_spec; [exact Hc1|]. intros _ s2 [Hc2 Hf2].
  rewrite (proj2 Hf1). apply HQ; [done|]. by eapply frame_trans.
Qed.
End layout.
