(* ===== verification/Ext2Alloc.v ===== *)
(** * Allocation of blocks and inodes (src/kernel/drivers/fs/ext/ext2.c)

    What [ext2_alloc_block], [ext2_free_block], [ext2_alloc_inode] and
    [ext2_free_inode] do to the bitmaps, the counts and everything else. *)

From S2P Require Import Prelude Bytes StateMonad BlockDev Ext2Cache Ext2 Ext2Inv.

Section alloc.
Context {D : Type} `{!BlockDevice D} `{!BlockDeviceLaws D} (kmalloc_ok : nat -> bool).
Context (HR : Reliable D) (Hk : memory_left kmalloc_ok).
Abbreviation fs := (ext2_fs D).

(** ** Counts

    [recounted g s s1]: only counts - of group [g] and of the superblock - and
    nothing else differ. *)
Record recounted (g : Z) (s s1 : fs) : Prop := {
  rc_geom : geom s s1;
  rc_device : device s1 = device s;
  rc_cache : cache s1 = cache s /\ cache_size s1 = cache_size s;
  rc_super : bytes_ok (superblock s) -> bytes_ok (superblock s1);
  rc_desc : bytes_ok (group_desc s) -> bytes_ok (group_desc s1);
  rc_other : forall i, ~ (g * DESC_SIZE <= i < g * DESC_SIZE + DESC_SIZE) ->
    aget 0 (group_desc s1) i = aget 0 (group_desc s) i
}.

Lemma recounted_refl g s : recounted g s s.
Proof. split; try done; apply geom_refl. Qed.

Lemma recounted_trans g s1 s2 s3 : recounted g s1 s2 -> recounted g s2 s3 -> recounted g s1 s3.
Proof.
  intros [] []. split; try congruence; try by auto.
  - by eapply geom_trans.
  - destruct rc_cache0, rc_cache1. split; congruence.
  - intros i Hi. by rewrite rc_other1, rc_other0.
Qed.

Lemma add_desc_recounted g off k s :
  0 <= g -> (off = 12 \/ off = 14 \/ off = 16) -> recounted g s (add_desc g off k s).
Proof.
  intros Hg Hoff. unfold DESC_SIZE in *.
  assert (Hget : forall g' j, 0 <= j <= 8 ->
    get32 (group_desc (add_desc g off k s)) (g' * 32 + j) = get32 (group_desc s) (g' * 32 + j)).
  { intros g' j Hj. cbn. apply get32_write_at_out; [unfold DESC_SIZE; lia|]. rewrite length_le16. unfold DESC_SIZE.
    destruct (Z.lt_total g' g) as [|[->|]]; lia. }
  split; try done.
  - split; try done; cbn.
    + by rewrite length_set16.
    + intros g'. pose proof (Hget g' 0 ltac:(lia)) as E. rewrite Z.add_0_r in E. exact E.
    + intros g'. apply (Hget g' 4). lia.
    + intros g'. apply (Hget g' 8). lia.
  - intros Hb. cbn. apply bytes_write_at; [done|apply bytes_le16].
  - intros i Hi. cbn. unfold set16, DESC_SIZE in *. apply aget_write_at_out; rewrite ?length_le16; lia.
Qed.

Lemma add_super_recounted g off k s : off = 12 \/ off = 16 -> recounted g s (add_super off k s).
Proof.
  intros Hoff. split; try done.
  - split; try done; cbn; rewrite ?length_set32; try done;
      apply get32_write_at_out; rewrite ?length_le32; lia.
  - intros Hb. cbn. apply bytes_write_at; [done|apply bytes_le32].
Qed.

Lemma recounted_cache_ok g H s s1 : recounted g s s1 -> cache_ok H s -> cache_ok H s1.
Proof.
  intros [G Ed [Ec Es] _ _ _] Hc. pose proof (ge_block _ _ G) as Eb. pose proof (ge_max _ _ G) as Em.
  pose proof (cw_entries _ _ Hc) as He. destruct Hc. split; rewrite ?Ed, ?Ec, ?Es, ?Eb, ?Em; try done.
  eapply list.Forall_impl; [exact He|]. intros e [A B C E F].
  split; rewrite ?(geom_addressable s s1 G), ?(geom_on_disk s s1 G), ?Eb; try done.
  intros Hd. unfold on_device. rewrite Ed, Eb. by apply F.
Qed.

Lemma recounted_view g s s1 b : recounted g s s1 -> view s1 b = view s b.
Proof.
  intros [G Ed [Ec Es] _ _ _]. unfold view, on_device. by rewrite Ed, Ec, (ge_block _ _ G).
Qed.

(** Writing the descriptor of group [g] makes the block of descriptors agree
    with the table again. *)
Lemma write_group_desc_spec H g s s1 :
  cache_ok H s -> layout s -> 0 <= g < num_groups s -> Z.of_nat (length H) < max_cache_entries s ->
  recounted g s s1 ->
  wp (write_group_desc kmalloc_ok g) (fun _ s' =>
    cache_ok H s' /\ geom s s' /\ (forall b, b <> desc_block s -> view s' b = view s b) /\
    slice 0 (num_groups s * DESC_SIZE) (view s' (desc_block s)) = group_desc s' /\
    superblock s' = superblock s1 /\ group_desc s' = group_desc s1) s1.
Proof.
  intros Hc Hl Hg Hlen Hr. pose proof (recounted_cache_ok _ _ _ _ Hr Hc) as Hc1.
  pose proof Hr as [G Ed Ec Hsb Hgd Hother].
  unfold write_group_desc. wp_steps. cbn [id].
  destruct (ly_groups _ Hl) as [Hng Hfit]. destruct (ly_desc _ Hl) as [Hdl Hdb].
  destruct (ly_numbers _ Hl) as [Hnum _]. destruct (ly_per_group _ Hl) as [Hbpg _].
  assert (u32 (first_data_block s1 + 1) = desc_block s) as ->.
  { rewrite (ge_first _ _ G). pose proof (ly_first _ Hl). assert (0 <= num_groups s * s_blocks_per_group (superblock s)) by nia. unfold desc_block. apply u32_small. lia. }
  assert (valid s1 (desc_block s)) as Hv by (apply (geom_valid s s1 G), Hl).
  wp_call get_ok; [exact HR|exact Hk|exact Hc1|exact Hv|by rewrite (ge_max _ _ G)|].
  intros r s2 (-> & Hc2 & Hs2 & Hv2). set (src := slice (g * DESC_SIZE) DESC_SIZE (group_desc s1)).
  assert (Hsrc : length src = 32%nat).
  { unfold src, DESC_SIZE in *. rewrite length_slice; [done|lia|lia|]. rewrite (ge_desc _ _ G). lia. }
  wp_call writes_put_spec; [exact Hc2| |].
  { apply List.Forall_cons; [|apply List.Forall_nil]. cbn [fst snd]. split_and!; cbn [fst snd].
    - unfold DESC_SIZE. lia.
    - rewrite Hsrc, (sf_block _ _ Hs2), (ge_block _ _ G). unfold DESC_SIZE in *. lia.
    - apply bytes_slice, Hgd, Hdb. }
  intros _ s3 (Hc3 & Hs3 & Hv3). pose proof (same_geom _ _ (same_trans _ _ _ Hs2 Hs3)) as G3.
  assert (Hdesc : group_desc s3 = group_desc s1) by by rewrite (sf_desc _ _ Hs3), (sf_desc _ _ Hs2).
  split_and!; [done|by eapply geom_trans| | |by rewrite (sf_super _ _ Hs3), (sf_super _ _ Hs2)|done].
  - intros b Hb. rewrite Hv3, decide_False, Hv2 by done. by eapply recounted_view.
  - rewrite Hv3, decide_True, Hv2, (recounted_view _ _ _ _ Hr) by done. rewrite Hdesc.
    cbn [stores fold_left fst snd].
    pose proof (view_block _ _ (desc_block s) Hc) as [Hvl Hvb].
    { destruct (ly_desc_block _ Hl) as (? & _). lia. }
    { apply (ly_desc_block _ Hl). }
    assert (Hlen3 : length (slice 0 (num_groups s * DESC_SIZE) (write_at (view s (desc_block s)) (g * DESC_SIZE) src))
                    = length (group_desc s1)).
    { unfold DESC_SIZE in *. rewrite length_slice by (rewrite ?length_write_at; lia). rewrite (ge_desc _ _ G). lia. }
    apply buf_ext; [done|]. intros i Hi. rewrite Hlen3, (ge_desc _ _ G), Hdl in Hi.
    unfold DESC_SIZE in *. rewrite aget_slice by lia. rewrite Z.add_0_l.
    destruct (decide (g * 32 <= i < g * 32 + 32)) as [Hin|Hout].
    + rewrite aget_write_at_in by (rewrite ?Hsrc; lia). unfold src. rewrite aget_slice by lia. f_equal. lia.
    + rewrite aget_write_at_out by (rewrite ?Hsrc; lia). rewrite Hother by done.
      rewrite <- (ly_sync _ Hl) at 1. unfold DESC_SIZE. by rewrite aget_slice by lia.
Qed.

(** ** Bits and block numbers *)

Definition block_number (s : fs) (g i : Z) : Z := g * s_blocks_per_group (superblock s) + first_data_block s + i.

Lemma block_number_index s g i :
  0 <= i < s_blocks_per_group (superblock s) ->
  group_of s (block_number s g i) = g /\ index_of s (block_number s g i) = i.
Proof.
  intros Hi. unfold group_of, index_of, block_number.
  replace (g * s_blocks_per_group (superblock s) + first_data_block s + i - first_data_block s)
    with (i + g * s_blocks_per_group (superblock s)) by lia.
  rewrite Z.div_add, Z.mod_add, Z.div_small, Z.mod_small by lia. lia.
Qed.

Lemma index_block_number s n :
  layout s -> in_groups s n -> n = block_number s (group_of s n) (index_of s n) /\
  0 <= index_of s n < s_blocks_per_group (superblock s).
Proof.
  intros Hl (H1 & H2 & H3). destruct (ly_per_group _ Hl) as [Hb _]. unfold block_number, group_of, index_of in *.
  pose proof (Z.div_mod (n - first_data_block s) (s_blocks_per_group (superblock s)) ltac:(lia)).
  pose proof (Z.mod_pos_bound (n - first_data_block s) (s_blocks_per_group (superblock s)) ltac:(lia)). lia.
Qed.

(** After one bit of the block bitmap of group [g] changed. *)
Lemma block_bit_changed s s2 g i v bm :
  layout s -> same_fs s s2 -> 0 <= g < num_groups s -> 0 <= i < blocks_in_group s g ->
  (forall b, view s2 b = if decide (b = bg_block_bitmap (group_desc s) g) then bm else view s b) ->
  (forall j, ext2_test_bit bm j =
     if decide (j = i) then v else ext2_test_bit (view s (bg_block_bitmap (group_desc s) g)) j) ->
  forall m, block_free s2 m <->
    in_groups s m /\ (if decide (m = block_number s g i) then v else block_bit s m) = false.
Proof.
  intros Hl Hs Hg Hi Hv Hbm m. pose proof (same_geom _ _ Hs) as G.
  destruct (ly_in_group _ Hl g Hg) as [_ Hig].
  unfold block_free, block_bit. rewrite (geom_in_groups s s2 G), (geom_group_of s s2 G), (geom_index_of s s2 G).
  rewrite (ge_bb _ _ G), Hv. split; intros [Hm Hb]; (split; [done|]); revert Hb;
    destruct (index_block_number s m Hl Hm) as [Em Him];
    destruct (block_number_index s g i ltac:(lia)) as [Eg Ei].
  all: assert (group_of s m = g /\ index_of s m = i <-> m = block_number s g i) as Hiff
    by (split; [intros [<- <-]; done|by intros ->]).
  all: destruct (decide (bg_block_bitmap (group_desc s) (group_of s m) = bg_block_bitmap (group_desc s) g)) as [Eb|Eb].
  1, 3: destruct (ly_apart _ Hl (group_of s m) g) as (_ & Hinj & _); [apply Hm|done|];
    pose proof (Hinj Eb) as Egm; rewrite Hbm, Egm.
  1, 2: destruct (decide (index_of s m = i)) as [E|E]; [rewrite decide_True by (by apply Hiff); done|];
    rewrite decide_False by (intros E2; apply E; by apply Hiff); done.
  all: rewrite decide_False; [done|]; intros E2; apply Eb; by rewrite (proj1 (proj2 Hiff E2)).
Qed.

(** The rest of an allocation or a release, after the bitmap: the counts and
    the block of descriptors. *)
Lemma book_done H g s2 s3 :
  cache_ok H s2 -> layout s2 -> 0 <= g < num_groups s2 -> Z.of_nat (length H) < max_cache_entries s2 ->
  recounted g s2 s3 ->
  wp (write_group_desc kmalloc_ok g) (fun _ s' =>
    cache_ok H s' /\ layout s' /\ geom s2 s' /\ (forall m, block_free s' m <-> block_free s2 m) /\
    (forall b, b <> desc_block s2 -> view s' b = view s2 b) /\
    superblock s' = superblock s3 /\ group_desc s' = group_desc s3) s3.
Proof.
  intros Hc Hl Hg Hlen Hr. wp_call write_group_desc_spec; [exact Hc|exact Hl|exact Hg|exact Hlen|exact Hr|].
  intros _ s' (Hc' & G & Hv & Hsync & Esb & Egd).
  assert (Hfree : forall m, block_free s' m <-> block_free s2 m).
  { intros m. unfold block_free, block_bit.
    rewrite (geom_in_groups s2 s' G), (geom_group_of s2 s' G), (geom_index_of s2 s' G), (ge_bb _ _ G).
    split; intros [Hm Hb]; (split; [done|]); rewrite <- Hb; [symmetry|]; f_equal; apply Hv;
      apply (ly_bitmaps _ Hl); apply Hm. }
  split_and!; try done. apply (layout_geom s2 s' G Hl).
  - rewrite Esb. apply (rc_super _ _ _ Hr), Hl.
  - rewrite Egd. apply (rc_desc _ _ _ Hr), Hl.
  - done.
  - intros n Hn. apply Hl. by apply Hfree.
Qed.

Lemma bitmap_block s g :
  layout s -> 0 <= g < num_groups s -> bookkeeping s (bg_block_bitmap (group_desc s) g).
Proof. intros Hl Hg. right. exists g. auto. Qed.

(** Stores that leave the bookkeeping alone. *)
Lemma contents_changed s s' :
  layout s -> same_fs s s' -> (forall b, bookkeeping s b -> view s' b = view s b) ->
  layout s' /\ forall m, block_free s' m <-> block_free s m.
Proof.
  intros Hl Hs Hv. pose proof (same_geom _ _ Hs) as G.
  assert (Hfree : forall m, block_free s' m <-> block_free s m).
  { intros m. unfold block_free, block_bit.
    rewrite (geom_in_groups s s' G), (geom_group_of s s' G), (geom_index_of s s' G), (ge_bb _ _ G).
    split; intros [Hm Hb]; (split; [done|]); rewrite <- Hb; [symmetry|]; f_equal; apply Hv, bitmap_block;
      (done || apply Hm). }
  split; [|done]. apply (layout_geom s s' G Hl).
  - rewrite (sf_super _ _ Hs). apply Hl.
  - rewrite (sf_desc _ _ Hs). apply Hl.
  - rewrite Hv by (by left). rewrite (sf_desc _ _ Hs). apply Hl.
  - intros m Hm. apply Hl. by apply Hfree.
Qed.

(** ** Blocks *)

(** [n] was free and is not any more; nothing but bookkeeping changed. *)
Record block_taken (n : Z) (s s' : fs) : Prop := {
  bt_geom : geom s s';
  bt_layout : layout s';
  bt_was : block_free s n;
  bt_free : forall m, block_free s' m <-> block_free s m /\ m <> n;
  bt_view : forall b, ~ bookkeeping s b -> view s' b = view s b;
  bt_count : bg_free_blocks_count (group_desc s') (group_of s n) =
             bg_free_blocks_count (group_desc s) (group_of s n) - 1
}.

Lemma count_decremented (s : fs) g off n :
  bytes_ok (group_desc s) -> Z.of_nat (length (group_desc s)) = num_groups s * DESC_SIZE ->
  0 <= g < num_groups s -> 0 <= off <= 16 -> get16 (group_desc s) (g * DESC_SIZE + off) <> 0 ->
  get16 (group_desc (add_super n (-1) (add_desc g off (-1) s))) (g * DESC_SIZE + off) =
  get16 (group_desc s) (g * DESC_SIZE + off) - 1.
Proof.
  intros Hb Hl Hg Hoff Hne. pose proof (get16_range (group_desc s) (g * DESC_SIZE + off) Hb).
  cbn [add_super add_desc set_superblock set_group_desc group_desc].
  assert (E : u16 (get16 (group_desc s) (g * DESC_SIZE + off) + -1) = get16 (group_desc s) (g * DESC_SIZE + off) - 1).
  { unfold u16. rewrite Z.mod_small by lia. lia. }
  rewrite E. unfold DESC_SIZE in *. apply get16_set16_eq; lia.
Qed.

Lemma alloc_block_in_spec H g s :
  cache_ok H s -> layout s -> room 1 H s -> 0 <= g < num_groups s ->
  wp (alloc_block_in kmalloc_ok g) (fun r s' =>
    cache_ok H s' /\
    match r with
    | None => frame s s' /\ (bg_free_blocks_count (group_desc s) g = 0 \/ forall n, block_free s n -> group_of s n <> g)
    | Some (inr n) => block_taken n s s'
    | Some (inl _) => False
    end) s.
Proof.
  intros Hc Hl Hroom Hg. unfold alloc_block_in, room in *. wp_steps. cbn [id].
  destruct (Z.eqb_spec (bg_free_blocks_count (group_desc s) g) 0) as [E0|E0].
  { wp_steps. split_and!; [done|apply frame_refl|by left]. }
  wp_steps. destruct (ly_bitmaps _ Hl g Hg) as (Hbv & _ & Hbd & _).
  wp_call get_ok; [exact HR|exact Hk|exact Hc|exact Hbv|lia|].
  intros r s1 (-> & Hc1 & Hf1). pose proof Hf1 as [Hs1 Hv1]. wp_steps.
  wp_call block_data_spec; [exact Hc1|by left|]. intros bitmap s1' [-> ->]. rewrite Hv1.
  set (bm := view s (bg_block_bitmap (group_desc s) g)).
  destruct (view_block _ _ (bg_block_bitmap (group_desc s) g) Hc) as [Hbl Hbb]; [destruct Hbv; lia|apply Hbv|].
  fold bm in Hbl, Hbb.
  destruct (ly_in_group _ Hl g Hg) as [Hig0 Hig]. destruct (ly_per_group _ Hl) as [Hbpg _].
  destruct (find_first _ _ _) as [i|] eqn:F.
  - apply find_first_Some in F as (Hi & Hbit & _). rewrite Z2Nat.id in Hi by lia. apply negb_true_iff in Hbit.
    assert (Hi8 : 0 <= i < 8 * Z.of_nat (length bm)) by lia.
    assert (Hn : u32 (u32 (g * s_blocks_per_group (superblock s)) + first_data_block s + i) = block_number s g i).
    { destruct (ly_numbers _ Hl) as [Hnum _]. pose proof (ly_first _ Hl).
      assert (0 <= g * s_blocks_per_group (superblock s) <= (num_groups s - 1) * s_blocks_per_group (superblock s)) by nia.
      rewrite (u32_small (g * _)) by lia. unfold block_number. apply u32_small. lia. }
    destruct (block_number_index s g i ltac:(lia)) as [Eg Ei].
    wp_steps. rewrite <- wp_bind. wp_call writes_put_spec; [exact Hc1| |].
    { apply List.Forall_cons; [|apply List.Forall_nil]. unfold ext2_set_bit. apply bit_store_ok with bm; [done|].
      by rewrite (sf_block _ _ Hs1). }
    intros _ s2 (Hc2 & Hs2 & Hv2). pose proof (same_trans _ _ _ Hs1 Hs2) as Hs12.
    rewrite !Hv1 in Hv2. fold bm in Hv2.
    assert (Hv2' : forall b, view s2 b = if decide (b = bg_block_bitmap (group_desc s) g)
                     then stores [ext2_set_bit bm i] bm else view s b).
    { intros b. rewrite Hv2. case_decide; [done|apply Hv1]. }
    pose proof (block_bit_changed s s2 g i true _ Hl Hs12 Hg Hi Hv2') as Hfree2.
    specialize (Hfree2 ltac:(intros j; rewrite test_set_bit by done; destruct (Z.eqb_spec j i), (decide (j = i)); done)).
    assert (Hl2 : layout s2).
    { apply (layout_geom s s2 (same_geom _ _ Hs12) Hl).
      - rewrite (sf_super _ _ Hs12). apply Hl.
      - rewrite (sf_desc _ _ Hs12). apply Hl.
      - rewrite Hv2', decide_False by done. rewrite (sf_desc _ _ Hs12). apply Hl.
      - intros m Hm. apply Hl. apply Hfree2 in Hm as [Hm Hb]. case_decide; [done|]. by split. }
    wp_steps. wp_call (book_done H g s2); [exact Hc2|exact Hl2| | | |].
    { by rewrite (sf_groups _ _ Hs12). }
    { rewrite (sf_max _ _ Hs12). lia. }
    { eapply recounted_trans; [apply add_desc_recounted; [lia|by left]|apply add_super_recounted; by left]. }
    intros _ s' (Hc' & Hl' & G' & Hfree' & Hv' & _ & Egd). wp_steps. rewrite Hn. split; [done|].
    assert (Hnfree : block_free s (block_number s g i)).
    { split; [|by unfold block_bit; rewrite Eg, Ei].
      split_and!; [unfold block_number; nia|rewrite Eg; lia|rewrite Eg; lia|rewrite Ei, Eg; lia]. }
    split; try done.
    + eapply geom_trans; [by apply same_geom|exact G'].
    + intros m. rewrite Hfree', Hfree2. unfold block_free. case_decide.
      * split; [by intros [_ ?]|by intros [_ ?]].
      * split; [by intros [??]; split_and!|by intros [[??]?]].
    + intros b Hb. rewrite Hv'.
      * rewrite Hv2', decide_False; [done|]. intros ->. by apply Hb, bitmap_block.
      * intros E. apply Hb. left. by rewrite E, (geom_desc_block s s2 (same_geom _ _ Hs12)).
    + rewrite Egd, Eg. unfold bg_free_blocks_count in *. rewrite count_decremented;
        rewrite ?(sf_desc _ _ Hs12), ?(sf_groups _ _ Hs12); [done|apply Hl|apply Hl|done|lia|done].
  - wp_steps. wp_call put_block_spec; [exact Hc1|]. intros _ s2 [Hc2 Hf2]. wp_steps.
    split_and!; [done|by eapply frame_trans|]. right. intros n [Hin Hb] E. rewrite find_first_None in F.
    destruct (index_block_number s n Hl Hin) as [_ Hix]. destruct Hin as (_ & _ & Hin). rewrite E in Hin.
    specialize (F (index_of s n)). rewrite Z2Nat.id in F by lia. specialize (F ltac:(lia)).
    apply negb_false_iff in F. unfold block_bit in Hb. rewrite E in Hb. fold bm in Hb. congruence.
Qed.

Definition exhausted (s : fs) (g : Z) : Prop :=
  bg_free_blocks_count (group_desc s) g = 0 \/ forall n, block_free s n -> group_of s n <> g.

Lemma frame_block_taken n s s1 s' : frame s s1 -> block_taken n s1 s' -> block_taken n s s'.
Proof.
  intros Hf [G L Was Free V C]. pose proof Hf as [Hs Hv]. pose proof (same_geom _ _ Hs) as G1. split; try done.
  - by eapply geom_trans.
  - by apply (frame_block_free s s1).
  - intros m. by rewrite Free, (frame_block_free s s1).
  - intros b Hb. rewrite V, Hv; [done|]. by rewrite (geom_bookkeeping s s1 G1).
  - by rewrite <- (geom_group_of s s1 G1), C, (sf_desc _ _ Hs).
Qed.

Lemma alloc_block_spec H s :
  cache_ok H s -> layout s -> room 1 H s ->
  wp (ext2_alloc_block kmalloc_ok) (fun r s' =>
    cache_ok H s' /\
    match r with
    | inl code => code = EXT2_ERROR_NO_SPACE /\ frame s s' /\ forall g, 0 <= g < num_groups s -> exhausted s g
    | inr n => block_taken n s s'
    end) s.
Proof.
  intros Hc Hl Hroom. unfold ext2_alloc_block. wp_steps. cbn [id].
  eapply wp_mono; [eapply (wp_for_each (alloc_block_in kmalloc_ok)
    (fun l s1 => cache_ok H s1 /\ frame s s1 /\ (forall g, g ∈ l -> 0 <= g < num_groups s) /\
                 forall g, 0 <= g < num_groups s -> g ∈ l \/ exhausted s g)
    (fun r s' => cache_ok H s' /\ match r with
       | None => frame s s' /\ forall g, 0 <= g < num_groups s -> exhausted s g
       | Some (inr n) => block_taken n s s'
       | Some (inl _) => False end))|].
  - split_and!; [done|apply frame_refl| |].
    + intros g Hg. apply elem_of_seqZ in Hg. lia.
    + intros g Hg. left. apply elem_of_seqZ. lia.
  - intros s1 (Hc1 & Hf1 & _ & Hex). split_and!; [done|done|]. intros g Hg.
    destruct (Hex g Hg) as [Hin|]; [by apply not_elem_of_nil in Hin|done].
  - intros g l s1 (Hc1 & Hf1 & Hrange & Hex). pose proof Hf1 as [Hs1 _].
    wp_call (alloc_block_in_spec H); [exact Hc1|by eapply frame_layout| | |].
    + unfold room in *. by rewrite (sf_max _ _ Hs1).
    + rewrite (sf_groups _ _ Hs1). apply Hrange. by left.
    + intros [[code|n]|] s2 [Hc2 Hr]; [done|split; [done|by eapply frame_block_taken]|].
      destruct Hr as [Hf2 Hno]. split_and!; [done|by eapply frame_trans| |].
      * intros g' Hg'. apply Hrange. by right.
      * intros g' Hg'. destruct (Hex g' Hg') as [Hin|]; [|by right].
        apply elem_of_cons in Hin as [->|]; [right|by left]. unfold exhausted.
        rewrite <- (sf_desc _ _ Hs1). destruct Hno as [|Hno]; [by left|right]. intros n Hn.
        rewrite <- (geom_group_of s s1 (same_geom _ _ Hs1)). apply Hno. by apply (frame_block_free s s1).
  - intros [[code|n]|] s' [Hc' Hr]; wp_steps; cbn [default]; [done|done|].
    split; [done|]. by destruct Hr.
Qed.

(** [n] was in use and is free again. *)
Record block_given_back (n : Z) (s s' : fs) : Prop := {
  bg_geom : geom s s';
  bg_layout : layout s';
  bg_free : forall m, block_free s' m <-> block_free s m \/ m = n;
  bg_view : forall b, ~ bookkeeping s b -> view s' b = view s b;
  bg_count : bg_free_blocks_count (group_desc s') (group_of s n) =
             u16 (bg_free_blocks_count (group_desc s) (group_of s n) + 1)
}.

Lemma free_block_spec H s n :
  cache_ok H s -> layout s -> room 1 H s ->
  in_groups s n -> n < s_blocks_count (superblock s) -> valid s n -> ~ bookkeeping s n -> ~ in_table s n ->
  wp (ext2_free_block kmalloc_ok n) (fun r s' =>
    cache_ok H s' /\ r = EXT2_SUCCESS /\ block_given_back n s s') s.
Proof.
  intros Hc Hl Hroom Hin Hlt Hval Hbook Htab. unfold ext2_free_block, room in *. wp_steps. cbn [id].
  destruct (index_block_number s n Hl Hin) as [En Hix]. pose proof Hin as (Hfirst & Hg & Hi).
  destruct (Z.ltb_spec n (first_data_block s)); [lia|].
  destruct (Z.leb_spec (s_blocks_count (superblock s)) n); [lia|]. cbn [orb].
  fold (group_of s n). fold (index_of s n). set (g := group_of s n) in *. set (i := index_of s n) in *.
  destruct (ly_bitmaps _ Hl g Hg) as (Hbv & _ & Hbd & _).
  wp_steps. wp_call get_ok; [exact HR|exact Hk|exact Hc|exact Hbv|lia|].
  intros r s1 (-> & Hc1 & Hf1). pose proof Hf1 as [Hs1 Hv1]. wp_steps.
  wp_call block_data_spec; [exact Hc1|by left|]. intros bitmap s1' [-> ->]. rewrite Hv1.
  set (bm := view s (bg_block_bitmap (group_desc s) g)).
  destruct (view_block _ _ (bg_block_bitmap (group_desc s) g) Hc) as [Hbl Hbb]; [destruct Hbv; lia|apply Hbv|].
  fold bm in Hbl, Hbb. destruct (ly_per_group _ Hl) as [Hbpg _].
  assert (Hi8 : 0 <= i < 8 * Z.of_nat (length bm)) by lia.
  wp_steps. rewrite <- wp_bind. wp_call writes_put_spec; [exact Hc1| |].
  { apply List.Forall_cons; [|apply List.Forall_nil]. unfold ext2_clear_bit. apply bit_store_ok with bm; [done|].
    by rewrite (sf_block _ _ Hs1). }
  intros _ s2 (Hc2 & Hs2 & Hv2). pose proof (same_trans _ _ _ Hs1 Hs2) as Hs12.
  rewrite !Hv1 in Hv2. fold bm in Hv2.
  assert (Hv2' : forall b, view s2 b = if decide (b = bg_block_bitmap (group_desc s) g)
                   then stores [ext2_clear_bit bm i] bm else view s b).
  { intros b. rewrite Hv2. case_decide; [done|apply Hv1]. }
  pose proof (block_bit_changed s s2 g i false _ Hl Hs12 Hg ltac:(lia) Hv2') as Hfree2.
  specialize (Hfree2 ltac:(intros j; rewrite test_clear_bit by done; destruct (Z.eqb_spec j i), (decide (j = i)); done)).
  rewrite <- En in Hfree2.
  assert (Hl2 : layout s2).
  { apply (layout_geom s s2 (same_geom _ _ Hs12) Hl).
    - rewrite (sf_super _ _ Hs12). apply Hl.
    - rewrite (sf_desc _ _ Hs12). apply Hl.
    - rewrite Hv2', decide_False by done. rewrite (sf_desc _ _ Hs12). apply Hl.
    - intros m Hm. apply Hfree2 in Hm as [Hm Hb]. case_decide as E; [by rewrite E|]. by apply Hl. }
  wp_steps. wp_call (book_done H g s2); [exact Hc2|exact Hl2| | | |].
  { by rewrite (sf_groups _ _ Hs12). }
  { rewrite (sf_max _ _ Hs12). lia. }
  { eapply recounted_trans; [apply add_desc_recounted; [lia|by left]|apply add_super_recounted; by left]. }
  intros _ s' (Hc' & Hl' & G' & Hfree' & Hv' & _ & Egd). wp_steps. split_and!; [done|done|].
  split; try done.
  - eapply geom_trans; [by apply same_geom|exact G'].
  - intros m. rewrite Hfree', Hfree2. unfold block_free. case_decide as E.
    + split; [by right|]. intros _. by rewrite E.
    + split; [by left|]. by intros [|].
  - intros b Hb. rewrite Hv'.
    + rewrite Hv2', decide_False; [done|]. intros ->. by apply Hb, bitmap_block.
    + intros E. apply Hb. left. by rewrite E, (geom_desc_block s s2 (same_geom _ _ Hs12)).
  - rewrite Egd. unfold bg_free_blocks_count. cbn [add_super add_desc set_superblock set_group_desc group_desc].
    rewrite (sf_desc _ _ Hs12). destruct (ly_desc _ Hl) as [Hdl _]. unfold DESC_SIZE in *. fold g.
    apply get16_set16_eq; [lia|lia|]. unfold u16. apply Z.mod_pos_bound. lia.
Qed.

(** ** Inodes *)
Definition inode_group (s : fs) (i : Z) : Z := (i - 1) / s_inodes_per_group (superblock s).
Definition inode_index (s : fs) (i : Z) : Z := (i - 1) mod s_inodes_per_group (superblock s).
Definition inode_used (s : fs) (i : Z) : bool :=
  ext2_test_bit (view s (bg_inode_bitmap (group_desc s) (inode_group s i))) (inode_index s i).
Definition inode_number (s : fs) (g k : Z) : Z := g * s_inodes_per_group (superblock s) + k + 1.

(** [i] changed from [was] to [is_]; nothing but bookkeeping changed. *)
Record inode_marked (i : Z) (is_ : bool) (s s' : fs) : Prop := {
  im_geom : geom s s';
  im_layout : layout s';
  im_blocks : forall m, block_free s' m <-> block_free s m;
  im_used : forall j, 0 <= inode_group s j < num_groups s ->
    inode_used s' j = if decide (j = i) then is_ else inode_used s j;
  im_view : forall b, ~ bookkeeping s b -> view s' b = view s b
}.

Lemma inode_number_index s g k :
  0 <= k < s_inodes_per_group (superblock s) ->
  inode_group s (inode_number s g k) = g /\ inode_index s (inode_number s g k) = k.
Proof.
  intros Hi. unfold inode_group, inode_index, inode_number.
  replace (g * s_inodes_per_group (superblock s) + k + 1 - 1)
    with (k + g * s_inodes_per_group (superblock s)) by lia.
  rewrite Z.div_add, Z.mod_add, Z.div_small, Z.mod_small by lia. lia.
Qed.

Lemma index_inode_number s i :
  layout s -> i = inode_number s (inode_group s i) (inode_index s i) /\
  0 <= inode_index s i < s_inodes_per_group (superblock s).
Proof.
  intros Hl. destruct (ly_per_group _ Hl) as [_ Hb]. unfold inode_number, inode_group, inode_index in *.
  pose proof (Z.div_mod (i - 1) (s_inodes_per_group (superblock s)) ltac:(lia)).
  pose proof (Z.mod_pos_bound (i - 1) (s_inodes_per_group (superblock s)) ltac:(lia)). lia.
Qed.

(** The bitmap, the counts and the descriptors of an inode marked used or
    free: [s2] is the state after the bitmap, [s3] after the counts. *)
Lemma mark_inode_done H s s2 s3 g k v bm :
  cache_ok H s2 -> layout s -> same_fs s s2 -> 0 <= g < num_groups s ->
  0 <= k < s_inodes_per_group (superblock s) -> Z.of_nat (length H) < max_cache_entries s ->
  (forall b, view s2 b = if decide (b = bg_inode_bitmap (group_desc s) g) then bm else view s b) ->
  (forall j, ext2_test_bit bm j =
     if decide (j = k) then v else ext2_test_bit (view s (bg_inode_bitmap (group_desc s) g)) j) ->
  recounted g s2 s3 ->
  wp (write_group_desc kmalloc_ok g) (fun _ s' => cache_ok H s' /\ inode_marked (inode_number s g k) v s s') s3.
Proof.
  intros Hc Hl Hs Hg Hkr Hlen Hv Hbm Hr. pose proof (same_geom _ _ Hs) as G.
  assert (Hbb : forall g', 0 <= g' < num_groups s ->
    view s2 (bg_block_bitmap (group_desc s) g') = view s (bg_block_bitmap (group_desc s) g')).
  { intros g' Hg'. rewrite Hv, decide_False; [done|]. by apply (ly_apart _ Hl). }
  assert (Hfree2 : forall m, block_free s2 m <-> block_free s m).
  { intros m. unfold block_free, block_bit.
    rewrite (geom_in_groups s s2 G), (geom_group_of s s2 G), (geom_index_of s s2 G), (ge_bb _ _ G).
    split; intros [Hm Hb]; (split; [done|]); rewrite <- Hb; [symmetry|]; f_equal; apply Hbb, Hm. }
  destruct (ly_bitmaps _ Hl g Hg) as (_ & Hiv & _ & Hid).
  assert (Hl2 : layout s2).
  { apply (layout_geom s s2 G Hl).
    - rewrite (sf_super _ _ Hs). apply Hl.
    - rewrite (sf_desc _ _ Hs). apply Hl.
    - rewrite Hv, decide_False by done. rewrite (sf_desc _ _ Hs). apply Hl.
    - intros m Hm. apply Hl. by apply Hfree2. }
  wp_call (book_done H g s2); [exact Hc|exact Hl2| | |exact Hr|].
  { by rewrite (sf_groups _ _ Hs). }
  { by rewrite (sf_max _ _ Hs). }
  intros _ s' (Hc' & Hl' & G' & Hfree' & Hv' & _ & _). split; [done|].
  pose proof (geom_trans _ _ _ G G') as G2. rewrite (geom_desc_block s s2 G) in Hv'. split; try done.
  - intros m. by rewrite Hfree', Hfree2.
  - intros j Hj. unfold inode_used, inode_group, inode_index in *. rewrite (ge_ipg _ _ G2), (ge_ib _ _ G2).
    fold (inode_group s j) in *. fold (inode_index s j).
    rewrite Hv' by apply (ly_bitmaps _ Hl _ Hj). rewrite Hv.
    destruct (index_inode_number s j Hl) as [Ej _]. destruct (inode_number_index s g k Hkr) as [Eg Ek].
    destruct (decide (bg_inode_bitmap (group_desc s) (inode_group s j) = bg_inode_bitmap (group_desc s) g)) as [E|E].
    + destruct (ly_apart _ Hl (inode_group s j) g Hj Hg) as (_ & _ & Hinj). pose proof (Hinj E) as Egj.
      rewrite Hbm. rewrite Egj in *. destruct (decide (inode_index s j = k)) as [Ek2|Ek2].
      * rewrite decide_True; [done|]. by rewrite Ej, Ek2.
      * rewrite decide_False; [done|]. intros ->. by rewrite Ek in Ek2.
    + rewrite decide_False; [done|]. intros ->. by rewrite Eg in E.
  - intros b Hb. rewrite Hv'; [|intros ->; apply Hb; by left]. rewrite Hv, decide_False; [done|].
    intros ->. apply Hb. right. exists g. auto.
Qed.

Lemma alloc_inode_in_spec H pref dir a s :
  cache_ok H s -> layout s -> room 1 H s ->
  wp (alloc_inode_in kmalloc_ok pref dir a) (fun r s' =>
    cache_ok H s' /\
    match r with
    | None => frame s s'
    | Some (inr i) => 0 <= inode_group s i < num_groups s /\ inode_used s i = false /\ inode_marked i true s s'
    | Some (inl _) => False
    end) s.
Proof.
  intros Hc Hl Hroom. unfold alloc_inode_in, room in *. wp_steps. cbn [id].
  set (g := u32 (pref + a) mod num_groups s).
  assert (Hg : 0 <= g < num_groups s) by (apply Z.mod_pos_bound; destruct (ly_groups _ Hl); lia).
  destruct (Z.eqb_spec (bg_free_inodes_count (group_desc s) g) 0) as [E0|E0].
  { wp_steps. split; [done|apply frame_refl]. }
  wp_steps. destruct (ly_bitmaps _ Hl g Hg) as (_ & Hiv & _ & Hid).
  wp_call get_ok; [exact HR|exact Hk|exact Hc|exact Hiv|lia|].
  intros r s1 (-> & Hc1 & Hf1). pose proof Hf1 as [Hs1 Hv1]. wp_steps.
  wp_call block_data_spec; [exact Hc1|by left|]. intros bitmap s1' [-> ->]. rewrite Hv1.
  set (bm := view s (bg_inode_bitmap (group_desc s) g)).
  destruct (view_block _ _ (bg_inode_bitmap (group_desc s) g) Hc) as [Hbl Hbb]; [destruct Hiv; lia|apply Hiv|].
  fold bm in Hbl, Hbb. destruct (ly_per_group _ Hl) as [_ Hipg]. destruct (ly_numbers _ Hl) as [_ Hnum].
  destruct (find_first _ _ _) as [k|] eqn:F.
  - apply find_first_Some in F as (Hkr & Hbit & _). rewrite Z2Nat.id in Hkr by lia. apply negb_true_iff in Hbit.
    assert (Hk8 : 0 <= k < 8 * Z.of_nat (length bm)) by lia.
    assert (Hn : u32 (g * s_inodes_per_group (superblock s) + k + 1) = inode_number s g k).
    { assert (0 <= g * s_inodes_per_group (superblock s) <= (num_groups s - 1) * s_inodes_per_group (superblock s)) by nia.
      unfold inode_number. apply u32_small. lia. }
    destruct (inode_number_index s g k ltac:(lia)) as [Eg Ek].
    wp_steps. rewrite <- wp_bind. wp_call writes_put_spec; [exact Hc1| |].
    { apply List.Forall_cons; [|apply List.Forall_nil]. unfold ext2_set_bit. apply bit_store_ok with bm; [done|].
      by rewrite (sf_block _ _ Hs1). }
    intros _ s2 (Hc2 & Hs2 & Hv2). pose proof (same_trans _ _ _ Hs1 Hs2) as Hs12.
    rewrite !Hv1 in Hv2. fold bm in Hv2.
    assert (Hv2' : forall b, view s2 b = if decide (b = bg_inode_bitmap (group_desc s) g)
                     then stores [ext2_set_bit bm k] bm else view s b).
    { intros b. rewrite Hv2. case_decide; [done|apply Hv1]. }
    assert (Hbm : forall j, ext2_test_bit (stores [ext2_set_bit bm k] bm) j =
                    if decide (j = k) then true else ext2_test_bit bm j).
    { intros j. rewrite test_set_bit by done. by destruct (Z.eqb_spec j k), (decide (j = k)). }
    wp_steps.
    assert (Hrc : recounted g s2 (add_super 16 (-1) (add_desc g 14 (-1) s2))).
    { eapply recounted_trans; [apply add_desc_recounted; [lia|by right; left]|apply add_super_recounted; by right]. }
    set (s3 := add_super 16 (-1) (add_desc g 14 (-1) s2)) in *.
    assert (Hdir : wp (if dir then modify (add_desc g 16 1) else ret tt) (fun _ s4 => recounted g s2 s4) s3).
    { destruct dir; wp_steps; [|done]. eapply recounted_trans; [exact Hrc|].
      apply add_desc_recounted; [lia|by right; right]. }
    eapply wp_mono; [exact Hdir|]. cbv beta. intros _ s4 Hr4. wp_steps.
    wp_call (mark_inode_done H s s2); [exact Hc2|exact Hl|exact Hs12|exact Hg|exact Hkr|lia|exact Hv2'|exact Hbm|exact Hr4|].
    intros _ s' [Hc' Hm]. wp_steps. rewrite Hn. split_and!; [done|rewrite Eg; lia|rewrite Eg; lia| |done].
    unfold inode_used. by rewrite Eg, Ek.
  - wp_steps. wp_call put_block_spec; [exact Hc1|]. intros _ s2 [Hc2 Hf2]. wp_steps.
    split; [done|by eapply frame_trans].
Qed.

Lemma frame_inode_used s s1 j : frame s s1 -> inode_used s1 j = inode_used s j.
Proof.
  intros [Hs Hv]. unfold inode_used, inode_group, inode_index.
  by rewrite Hv, (sf_desc _ _ Hs), (sf_super _ _ Hs).
Qed.

Lemma frame_inode_marked i v s s1 s' : frame s s1 -> inode_marked i v s1 s' -> inode_marked i v s s'.
Proof.
  intros Hf [G L Bl Us V]. pose proof Hf as [Hs Hv]. pose proof (same_geom _ _ Hs) as G1. split; try done.
  - by eapply geom_trans.
  - intros m. by rewrite Bl, (frame_block_free s s1).
  - intros j Hj. rewrite Us; [by rewrite (frame_inode_used s s1 j Hf)|].
    unfold inode_group in *. by rewrite (sf_super _ _ Hs), (sf_groups _ _ Hs).
  - intros b Hb. rewrite V, Hv; [done|]. by rewrite (geom_bookkeeping s s1 G1).
Qed.

Lemma alloc_inode_spec H parent dir s :
  cache_ok H s -> layout s -> room 1 H s ->
  wp (ext2_alloc_inode kmalloc_ok parent dir) (fun r s' =>
    cache_ok H s' /\
    match r with
    | inl code => code = EXT2_ERROR_NO_SPACE /\ frame s s'
    | inr i => 0 <= inode_group s i < num_groups s /\ inode_used s i = false /\ inode_marked i true s s'
    end) s.
Proof.
  intros Hc Hl Hroom. unfold ext2_alloc_inode. wp_steps. cbn [id].
  set (pref := if 0 <? parent then _ else 0). clearbody pref.
  eapply wp_mono; [eapply (wp_for_each (alloc_inode_in kmalloc_ok pref dir)
    (fun l s1 => cache_ok H s1 /\ frame s s1)
    (fun r s' => cache_ok H s' /\ match r with
       | None => frame s s'
       | Some (inr i) => 0 <= inode_group s i < num_groups s /\ inode_used s i = false /\ inode_marked i true s s'
       | Some (inl _) => False end))|].
  - split; [done|apply frame_refl].
  - done.
  - intros a l s1 [Hc1 Hf1]. pose proof Hf1 as [Hs1 _].
    wp_call (alloc_inode_in_spec H); [exact Hc1|by eapply frame_layout|unfold room in *; by rewrite (sf_max _ _ Hs1)|].
    intros [[code|i]|] s2 [Hc2 Hr]; [done| |].
    + destruct Hr as (Hg & Hu & Hm). split_and!; try done.
      * unfold inode_group in *. rewrite (sf_super _ _ Hs1) in Hg. lia.
      * unfold inode_group in *. rewrite (sf_super _ _ Hs1), (sf_groups _ _ Hs1) in Hg. lia.
      * by rewrite <- (frame_inode_used s s1 i Hf1).
      * by eapply frame_inode_marked.
    + split; [done|by eapply frame_trans].
  - intros [[code|i]|] s' [Hc' Hr]; wp_steps; cbn [default]; done.
Qed.
End alloc.
