(* ===== verification/Ext2File.v ===== *)
(** * Files of the ext2 driver (src/kernel/drivers/fs/ext/ext2.c)

    The tree of blocks behind an inode, what [ext2_get_block_num] does to it,
    and reading and writing a file as operations on the bytes of the file. *)

From S2P Require Import Prelude Bytes StateMonad BlockDev Ext2Cache Ext2 Ext2Inv Ext2Alloc.

(** ** Walking down pointers *)

(** From block [b] of the array [v] of blocks, follow the indices [p]. *)
Fixpoint walk (v : Z -> list Z) (b : Z) (p : list Z) : Z :=
  match p with
  | [] => b
  | i :: p' => if b =? 0 then 0 else walk v (get32 (v b) (4 * i)) p'
  end.

(** A block of the file [ino] is named by its path: the index of a pointer of
    the inode, then the indices in the indirect blocks. *)
Definition node (v : Z -> list Z) (ino : list Z) (q : list Z) : Z :=
  match q with [] => 0 | x :: p => walk v (i_block ino x) p end.

Lemma walk_0 v p : walk v 0 p = 0.
Proof. by destruct p. Qed.

Lemma blocks_walk_app v p p' : forall b, walk v b (p ++ p') = walk v (walk v b p) p'.
Proof.
  induction p as [|i p IH]; intros b; [done|]. cbn [app walk]. destruct (b =? 0); [by rewrite walk_0|apply IH].
Qed.

Lemma node_snoc v ino q j :
  q <> [] ->
  node v ino (q ++ [j]) = if node v ino q =? 0 then 0 else get32 (v (node v ino q)) (4 * j).
Proof.
  destruct q as [|x p]; [done|]. intros _. cbn [app node]. rewrite blocks_walk_app. cbn [walk].
  by destruct (walk v (i_block ino x) p =? 0).
Qed.

Lemma node_app v ino q p : q <> [] -> node v ino (q ++ p) = walk v (node v ino q) p.
Proof. destruct q as [|x q]; [done|]. intros _. cbn [app node]. apply blocks_walk_app. Qed.

(** How many levels of indirect blocks a pointer of the inode has. *)
Definition depth (x : Z) : nat :=
  if x =? EXT2_IND_BLOCK then 1 else if x =? EXT2_DIND_BLOCK then 2 else if x =? EXT2_TIND_BLOCK then 3 else 0.

(** Paths of the blocks of a file; [leaf]: of its data. *)
Definition valid_path (n : Z) (q : list Z) : Prop :=
  match q with
  | [] => False
  | x :: p => 0 <= x < 15 /\ (length p <= depth x)%nat /\ Forall (fun i => 0 <= i < n) p
  end.
Definition leaf (q : list Z) : Prop :=
  match q with [] => False | x :: p => length p = depth x end.

Lemma valid_prefix n q j : valid_path n (q ++ [j]) -> q <> [] -> valid_path n q /\ 0 <= j < n /\ ~ leaf q.
Proof.
  destruct q as [|x p]; [done|]. cbn [app valid_path leaf]. intros (Hx & Hl & Hf) _.
  rewrite length_app in Hl. cbn [length] in Hl. apply Forall_app in Hf as [Hf Hj].
  apply Forall_cons_1 in Hj as [Hj _]. split_and!; try done; lia.
Qed.

Lemma snoc_inj (q q' : list Z) j j' : q ++ [j] = q' ++ [j'] -> q = q' /\ j = j'.
Proof. intros H. by apply app_inj_tail in H. Qed.

Section file.
Context {D : Type} `{!BlockDevice D} `{!BlockDeviceLaws D} (kmalloc_ok : nat -> bool).
Context (HR : Reliable D) (Hk : memory_left kmalloc_ok).
Abbreviation fs := (ext2_fs D).

(** ** Inodes *)
Definition inode_at (s : fs) (i : Z) : list Z :=
  slice (snd (inode_place s i)) INODE_BYTES (view s (fst (inode_place s i))).

Definition inode_ok (ino : list Z) : Prop := Z.of_nat (length ino) = INODE_BYTES /\ bytes_ok ino.

Lemma inode_num_pos (s : fs) i : 0 <= i -> inode_num_ok s i = true -> 0 < i.
Proof.
  unfold inode_num_ok. intros Hi H. apply negb_true_iff, orb_false_iff in H as [H _].
  apply Z.eqb_neq in H. lia.
Qed.

Lemma read_inode_spec H s i :
  cache_ok H s -> layout s -> room 1 H s -> 0 <= i -> inode_num_ok s i = true ->
  wp (ext2_read_inode kmalloc_ok i) (fun r s' => cache_ok H s' /\ frame s s' /\ r = inr (inode_at s i)) s.
Proof.
  intros Hc Hl Hroom Hi Hok. pose proof (inode_num_pos s i Hi Hok) as Hpos.
  destruct (ly_table _ Hl i Hpos Hok) as (Hv & _). unfold ext2_read_inode. wp_steps. cbn [id].
  rewrite Hok. cbn [negb]. unfold inode_at. destruct (inode_place s i) as [b o]. cbn [fst snd] in *.
  apply (read_block_then kmalloc_ok HR Hk H); [done|done|unfold room in *; lia|].
  intros s' Hc' Hf'. by wp_steps.
Qed.

Lemma inode_at_ok H (s : fs) i :
  cache_ok H s -> layout s -> 0 <= i -> inode_num_ok s i = true -> inode_ok (inode_at s i).
Proof.
  intros Hc Hl Hi Hok. pose proof (inode_num_pos s i Hi Hok) as Hpos.
  destruct (ly_table _ Hl i Hpos Hok) as (([? _] & [? ?] & Hd) & _ & Ho & Hfit).
  destruct (view_block H s (fst (inode_place s i)) Hc ltac:(lia) Hd) as [Hlen Hb].
  unfold inode_at, inode_ok, INODE_BYTES in *. split; [|by apply bytes_slice].
  rewrite length_slice by lia. lia.
Qed.

(** What writing one inode changes. *)
Record inode_written (i : Z) (ino : list Z) (s s' : fs) : Prop := {
  iw_same : same_fs s s';
  iw_layout : layout s';
  iw_free : forall m, block_free s' m <-> block_free s m;
  iw_used : forall j, inode_used s' j = inode_used s j \/ ~ 0 <= inode_group s j < num_groups s;
  iw_view : forall b, ~ in_table s b -> view s' b = view s b;
  iw_at : forall j, 0 <= j -> inode_num_ok s j = true ->
    inode_at s' j = if decide (j = i) then ino else inode_at s j
}.

Lemma write_inode_spec H s i ino :
  cache_ok H s -> layout s -> room 1 H s -> 0 <= i -> inode_num_ok s i = true -> inode_ok ino ->
  wp (ext2_write_inode kmalloc_ok i ino) (fun r s' =>
    cache_ok H s' /\ r = EXT2_SUCCESS /\ inode_written i ino s s') s.
Proof.
  intros Hc Hl Hroom Hi Hok [Hlen Hbytes]. pose proof (inode_num_pos s i Hi Hok) as Hpos.
  destruct (ly_table _ Hl i Hpos Hok) as (Hv & Hbook & Ho & Hfit).
  assert (Hplace : inode_place s i = (fst (inode_place s i), snd (inode_place s i))) by by destruct (inode_place s i).
  unfold ext2_write_inode. wp_steps. cbn [id]. rewrite Hok. cbn [negb]. rewrite Hplace.
  set (b := fst (inode_place s i)) in *. set (o := snd (inode_place s i)) in *. wp_steps.
  wp_call get_ok; [exact HR|exact Hk|exact Hc|exact Hv|unfold room in *; lia|].
  intros r s1 (-> & Hc1 & Hs1 & Hv1). wp_steps. rewrite <- wp_bind. wp_call writes_put_spec; [exact Hc1| |].
  { apply List.Forall_cons; [|apply List.Forall_nil]. split_and!; cbn [fst snd]; [lia| |done].
    rewrite (sf_block _ _ Hs1). lia. }
  intros _ s2 (Hc2 & Hs2 & Hv2). pose proof (same_trans _ _ _ Hs1 Hs2) as Hs. wp_steps. split_and!; [done|done|].
  assert (Hvw : forall c, view s2 c = if decide (c = b) then write_at (view s b) o ino else view s c).
  { intros c. rewrite Hv2, !Hv1. by case_decide. }
  pose proof (same_geom _ _ Hs) as G.
  assert (Htab : in_table s b) by (exists i; done).
  assert (Hother : forall c, ~ in_table s c -> view s2 c = view s c).
  { intros c Hc'. rewrite Hvw, decide_False; [done|]. by intros ->. }
  assert (Hnbook : forall c, bookkeeping s c -> view s2 c = view s c).
  { intros c Hc'. rewrite Hvw, decide_False; [done|]. by intros ->. }
  destruct (contents_changed s s2 Hl Hs Hnbook) as [Hl2 Hfree].
  split; try done.
  - intros j. destruct (decide (0 <= inode_group s j < num_groups s)) as [Hg|]; [left|by right].
    unfold inode_used, inode_group, inode_index in *. rewrite (sf_super _ _ Hs), (sf_desc _ _ Hs).
    rewrite Hnbook; [done|]. right. exists ((j - 1) / s_inodes_per_group (superblock s)). auto.
  - intros j Hj Hjok. pose proof (inode_num_pos s j Hj Hjok) as Hjpos.
    destruct (ly_table _ Hl j Hjpos Hjok) as (_ & _ & Hoj & Hfitj).
    assert (Hvl : Z.of_nat (length (view s b)) = block_size s).
    { apply (view_block H s b Hc); [destruct Hv; lia|apply Hv]. }
    unfold inode_at. rewrite (geom_inode_place s s2 G), Hvw. fold b o in Hplace, Hoj, Hfitj, Hvl |- *.
    destruct (decide (j = i)) as [->|Hne].
    + fold b o. rewrite decide_True by done. rewrite <- Hlen. apply slice_write_at_eq; lia.
    + case_decide as E; [|done]. rewrite E. apply slice_write_at_out; unfold INODE_BYTES in *; try lia.
      destruct (ly_table_apart _ Hl i j Hpos Hjpos Hok Hjok) as [|Hd]; [by fold b|by subst|].
      fold o in Hd. unfold INODE_BYTES in *. rewrite Hlen. lia.
Qed.

(** ** The tree of blocks of a file *)

(** A block that belongs to a file. *)
Definition file_block (s : fs) (b : Z) : Prop :=
  valid s b /\ ~ bookkeeping s b /\ ~ in_table s b /\ ~ block_free s b.

Record file_tree (s : fs) (ino : list Z) : Prop := {
  ft_inode : inode_ok ino;
  ft_block : forall q, valid_path (ptrs_per_block s) q -> node (view s) ino q <> 0 ->
    file_block s (node (view s) ino q);
  ft_inj : forall q q', valid_path (ptrs_per_block s) q -> valid_path (ptrs_per_block s) q' ->
    node (view s) ino q <> 0 -> node (view s) ino q = node (view s) ino q' -> q = q'
}.

(** The block of the data at byte [pos], and that byte; holes read 0. *)
Definition leaf_of (s : fs) (ino : list Z) (idx : Z) : Z :=
  match block_path s idx with Some (x, p) => node (view s) ino (x :: p) | None => 0 end.

Definition file_byte (s : fs) (ino : list Z) (pos : Z) : Z :=
  let b := leaf_of s ino (pos / block_size s) in
  if b =? 0 then 0 else aget 0 (view s b) (pos mod block_size s).

(** More blocks may belong to the file and their contents may be different;
    everything else in the file system is as before, and of the inode only the
    size and the pointers change. *)
Record touched (s : fs) (ino : list Z) (s' : fs) (ino' : list Z) : Prop := {
  tc_geom : geom s s';
  tc_layout : layout s';
  tc_tree : file_tree s' ino';
  tc_free : forall m, block_free s' m -> block_free s m;
  tc_nodes : forall q, valid_path (ptrs_per_block s) q -> node (view s) ino q <> 0 ->
    node (view s') ino' q = node (view s) ino q;
  tc_new : forall q, valid_path (ptrs_per_block s) q -> node (view s') ino' q <> node (view s) ino q ->
    node (view s) ino q = 0 /\ block_free s (node (view s') ino' q);
  tc_view : forall b, ~ bookkeeping s b -> ~ block_free s b ->
    (forall q, valid_path (ptrs_per_block s) q -> node (view s) ino q <> b) -> view s' b = view s b;
  tc_fields : forall i, i < 4 \/ 8 <= i < 40 \/ 100 <= i -> aget 0 ino' i = aget 0 ino i
}.

(** More blocks may belong to the file, but its bytes are the same. *)
Record grown (s : fs) (ino : list Z) (s' : fs) (ino' : list Z) : Prop := {
  gr_touched :> touched s ino s' ino';
  gr_leaf : forall q, valid_path (ptrs_per_block s) q -> leaf q -> node (view s) ino q <> 0 ->
    view s' (node (view s) ino q) = view s (node (view s) ino q);
  gr_zero : forall q, valid_path (ptrs_per_block s) q -> leaf q -> node (view s') ino' q <> node (view s) ino q ->
    view s' (node (view s') ino' q) = zeros (block_size s);
  gr_size : i_size ino' = i_size ino
}.

Lemma geom_ptrs s s' : geom s s' -> ptrs_per_block s' = ptrs_per_block s.
Proof. intros G. unfold ptrs_per_block. by rewrite (ge_block _ _ G). Qed.

Lemma frame_node s s' ino q : frame s s' -> node (view s') ino q = node (view s) ino q.
Proof.
  intros [_ Hv]. destruct q as [|x p]; [done|]. cbn [node]. revert x.
  enough (forall b, walk (view s') b p = walk (view s) b p) as E by (intros; apply E).
  induction p as [|i p IH]; intros b; [done|]. cbn [walk]. by rewrite Hv, IH.
Qed.

Lemma frame_file_block s s' b : frame s s' -> file_block s' b <-> file_block s b.
Proof.
  intros Hf. pose proof (same_geom _ _ (proj1 Hf)) as G. unfold file_block.
  by rewrite (geom_valid s s' G), (geom_bookkeeping s s' G), (geom_in_table s s' G), (frame_block_free s s').
Qed.

Lemma frame_tree s s' ino : frame s s' -> file_tree s ino -> file_tree s' ino.
Proof.
  intros Hf []. pose proof (same_geom _ _ (proj1 Hf)) as G. split; rewrite ?(geom_ptrs s s' G); [done| |].
  - intros q Hq. rewrite (frame_node s s') by done. intros Hn. by apply (frame_file_block s s'), ft_block0.
  - intros q q'. rewrite !(frame_node s s') by done. apply ft_inj0.
Qed.

Lemma frame_touched s s' ino : frame s s' -> layout s -> file_tree s ino -> touched s ino s' ino.
Proof.
  intros Hf Hl Ht. pose proof Hf as [Hs Hv]. split; try done.
  - by apply same_geom.
  - by eapply frame_layout.
  - by eapply frame_tree.
  - intros m. by apply (frame_block_free s s').
  - intros q _ _. by apply frame_node.
  - intros q _ Hn. by rewrite (frame_node s s') in Hn.
Qed.

Lemma frame_grown s s' ino : frame s s' -> layout s -> file_tree s ino -> grown s ino s' ino.
Proof.
  intros Hf Hl Ht. pose proof Hf as [Hs Hv]. split; try done.
  - by apply frame_touched.
  - intros q _ _ Hn. by rewrite (frame_node s s') in Hn.
Qed.

Lemma touched_trans s ino s1 ino1 s2 ino2 :
  touched s ino s1 ino1 -> touched s1 ino1 s2 ino2 -> touched s ino s2 ino2.
Proof.
  intros A B. pose proof (tc_geom _ _ _ _ A) as G. pose proof (geom_ptrs s s1 G) as Ep. split.
  - eapply geom_trans; [exact G|apply B].
  - apply B.
  - apply B.
  - intros m Hm. by apply (tc_free _ _ _ _ A), (tc_free _ _ _ _ B).
  - intros q Hq Hn. pose proof (tc_nodes _ _ _ _ A q Hq Hn) as E. rewrite (tc_nodes _ _ _ _ B); rewrite ?Ep, ?E; done.
  - intros q Hq Hn. destruct (decide (node (view s1) ino1 q = node (view s) ino q)) as [E|E].
    + rewrite <- E in Hn |- *. rewrite <- Ep in Hq. destruct (tc_new _ _ _ _ B q Hq Hn) as [? Hf].
      split; [done|]. by apply (tc_free _ _ _ _ A).
    + destruct (tc_new _ _ _ _ A q Hq E) as [E0 Hf]. split; [done|].
      assert (node (view s1) ino1 q <> 0) as Hn0 by (intros E1; by rewrite E0, E1 in E).
      rewrite (tc_nodes _ _ _ _ B); [done|by rewrite Ep|done].
  - intros b Hb Hfr Hno. rewrite (tc_view _ _ _ _ B).
    + by apply (tc_view _ _ _ _ A).
    + by rewrite (geom_bookkeeping s s1 G).
    + intros Hf. by apply Hfr, (tc_free _ _ _ _ A).
    + rewrite Ep. intros q Hq E. destruct (decide (node (view s1) ino1 q = node (view s) ino q)) as [E1|E1].
      * apply (Hno q Hq). congruence.
      * destruct (tc_new _ _ _ _ A q Hq E1) as [_ Hf]. by rewrite E in Hf.
  - intros i Hi. rewrite (tc_fields _ _ _ _ B), (tc_fields _ _ _ _ A); done.
Qed.

Lemma grown_trans s ino s1 ino1 s2 ino2 :
  grown s ino s1 ino1 -> grown s1 ino1 s2 ino2 -> grown s ino s2 ino2.
Proof.
  intros A B. pose proof (tc_geom _ _ _ _ A) as G. pose proof (geom_ptrs s s1 G) as Ep. split.
  - eapply touched_trans; [apply A|apply B].
  - intros q Hq Hlf Hn. pose proof (tc_nodes _ _ _ _ A q Hq Hn) as E. rewrite <- E.
    rewrite (gr_leaf _ _ _ _ B); [|by rewrite Ep|done|by rewrite E]. rewrite E. by apply (gr_leaf _ _ _ _ A).
  - intros q Hq Hlf Hn. destruct (decide (node (view s2) ino2 q = node (view s1) ino1 q)) as [E|E].
    + rewrite E in Hn |- *. destruct (tc_new _ _ _ _ A q Hq Hn) as [E0 _].
      assert (node (view s1) ino1 q <> 0) as Hn0 by congruence.
      rewrite (gr_leaf _ _ _ _ B); [|by rewrite Ep|done|done]. by apply (gr_zero _ _ _ _ A).
    + rewrite <- (ge_block _ _ G). apply (gr_zero _ _ _ _ B); [by rewrite Ep|done|done].
  - by rewrite (gr_size _ _ _ _ B), (gr_size _ _ _ _ A).
Qed.

(** The paths of data blocks, and different ones for different blocks. *)
Lemma block_path_valid s idx x p :
  layout s -> 0 <= idx -> block_path s idx = Some (x, p) ->
  valid_path (ptrs_per_block s) (x :: p) /\ leaf (x :: p).
Proof.
  intros Hl Hi. destruct (ly_block _ Hl) as [Hb _]. unfold block_path.
  assert (256 <= ptrs_per_block s <= 16384) as Hp by (unfold ptrs_per_block; split; zdiv_lia).
  set (n := ptrs_per_block s) in *. unfold EXT2_NDIR_BLOCKS, EXT2_IND_BLOCK, EXT2_DIND_BLOCK, EXT2_TIND_BLOCK.
  assert (0 <= n * n < 2 ^ 32) as Hnn by nia. rewrite (u32_small (n * n)) by done.
  assert (0 <= u32 (n * n * n) <= n * n * n) as Hnnn.
  { unfold u32. split; [apply Z.mod_pos_bound; lia|apply Z.mod_le; [nia|lia]]. }
  assert (Hdiv : forall a m, 0 <= a < n * m -> 0 < m -> 0 <= a / m < n).
  { intros a m Ha Hm. split; [apply Z.div_pos; lia|]. apply Z.div_lt_upper_bound; lia. }
  destruct (Z.ltb_spec idx 12); [|destruct (Z.ltb_spec (idx - 12) n); [|destruct (Z.ltb_spec (idx - 12 - n) (n * n));
    [|destruct (Z.ltb_spec (idx - 12 - n - n * n) (u32 (n * n * n))); [|done]]]]; intros [= <- <-];
    cbn [valid_path leaf length].
  - unfold depth, EXT2_IND_BLOCK, EXT2_DIND_BLOCK, EXT2_TIND_BLOCK. case_bools; try lia. split_and!; (done || lia).
  - split_and!; try done. repeat constructor; lia.
  - split_and!; try done. pose proof (Hdiv (idx - 12 - n) n ltac:(lia) ltac:(lia)).
    pose proof (Z.mod_pos_bound (idx - 12 - n) n). repeat constructor; lia.
  - split_and!; try done. assert (0 <= idx - 12 - n - n * n < n * (n * n)) as Ha by (rewrite Z.mul_assoc; lia).
    pose proof (Hdiv (idx - 12 - n - n * n) (n * n) Ha ltac:(nia)).
    pose proof (Z.mod_pos_bound (idx - 12 - n - n * n) n).
    pose proof (Z.mod_pos_bound ((idx - 12 - n - n * n) / n) n). repeat constructor; lia.
Qed.

(** Growing keeps every byte of the file. *)
Lemma grown_bytes s ino s' ino' pos :
  layout s -> 0 <= pos -> grown s ino s' ino' -> file_byte s' ino' pos = file_byte s ino pos.
Proof.
  intros Hl Hpos Hg. pose proof (tc_geom _ _ _ _ Hg) as G. unfold file_byte, leaf_of.
  rewrite (ge_block _ _ G), (geom_block_path s s' G). destruct (ly_block _ Hl) as [Hb _].
  destruct (block_path s (pos / block_size s)) as [[x p]|] eqn:E; [|done].
  assert (0 <= pos / block_size s) as Hidx by (apply Z.div_pos; lia).
  destruct (block_path_valid s _ x p Hl Hidx E) as [Hv Hlf]. cbv zeta.
  destruct (decide (node (view s') ino' (x :: p) = node (view s) ino (x :: p))) as [En|En].
  - rewrite En. destruct (Z.eqb_spec (node (view s) ino (x :: p)) 0); [done|].
    by rewrite (gr_leaf _ _ _ _ Hg).
  - destruct (tc_new _ _ _ _ Hg _ Hv En) as [-> _]. rewrite (gr_zero _ _ _ _ Hg) by done.
    rewrite aget_zeros. by destruct (_ =? 0).
Qed.

(** ** Adding a block to a file *)

(** The data blocks a grown file had are still its blocks, with the same data. *)
Lemma grown_leaf s ino s' ino' k :
  layout s -> 0 <= k -> grown s ino s' ino' -> leaf_of s ino k <> 0 ->
  leaf_of s' ino' k = leaf_of s ino k /\ view s' (leaf_of s ino k) = view s (leaf_of s ino k).
Proof.
  intros Hl Hk0 Hg. pose proof (tc_geom _ _ _ _ Hg) as G. unfold leaf_of. rewrite (geom_block_path s s' G).
  destruct (block_path s k) as [[x p]|] eqn:E; [|done]. destruct (block_path_valid s k x p Hl Hk0 E) as [Hv Hlf].
  intros Hn. split; [by apply (tc_nodes _ _ _ _ Hg)|by apply (gr_leaf _ _ _ _ Hg)].
Qed.

(** The common part: one node, missing before, is now the block [n], zeroed,
    which was free; pointers change in blocks of pointers only. *)
Lemma linked s ino s' ino' qn n :
  layout s -> file_tree s ino -> geom s s' -> layout s' ->
  (forall m, block_free s' m <-> block_free s m /\ m <> n) -> block_free s n ->
  node (view s) ino qn = 0 ->
  (forall q, valid_path (ptrs_per_block s) q ->
     node (view s') ino' q = if decide (q = qn) then n else node (view s) ino q) ->
  view s' n = zeros (block_size s) ->
  (forall c, ~ bookkeeping s c -> c <> n -> view s' c = view s c \/
     exists q, valid_path (ptrs_per_block s) q /\ ~ leaf q /\ node (view s) ino q = c /\ c <> 0) ->
  inode_ok ino' -> (forall i, i < 40 \/ 100 <= i -> aget 0 ino' i = aget 0 ino i) ->
  grown s ino s' ino'.
Proof.
  intros Hl [Hi Hblk Hinj] G Hl' Hfree Hn Hqn Hnode Hz Hview Hi' Hfields.
  destruct (ly_free _ Hl n Hn) as (Hnv & Hnb & Hnt).
  assert (Hnew : forall q, valid_path (ptrs_per_block s) q -> node (view s) ino q <> 0 -> node (view s) ino q <> n).
  { intros q Hq Hq0 E. apply (Hblk q Hq) in Hq0 as (_ & _ & _ & Hq0). by rewrite E in Hq0. }
  assert (Hfb : forall b, file_block s b -> file_block s' b).
  { intros b (A & B & C & E). split_and!; [by apply (geom_valid s s' G)|by rewrite (geom_bookkeeping s s' G)
      |by rewrite (geom_in_table s s' G)|]. rewrite Hfree. by intros [? _]. }
  assert (Hfn : file_block s' n).
  { split_and!; [by apply (geom_valid s s' G)|by rewrite (geom_bookkeeping s s' G)
      |by rewrite (geom_in_table s s' G)|]. rewrite Hfree. by intros [_ ?]. }
  split; [split; try done|..].
  - split; rewrite ?(geom_ptrs s s' G); [done| |].
    + intros q Hq. rewrite Hnode by done. case_decide; [done|]. intros Hq0. by apply Hfb, Hblk.
    + intros q q' Hq Hq'. rewrite !Hnode by done.
      destruct (decide (q = qn)) as [Eq|Eq], (decide (q' = qn)) as [Eq'|Eq']; intros Hq0 E; [congruence| | |by apply Hinj].
      * destruct (decide (node (view s) ino q' = 0)) as [E0|E0]; [congruence|by destruct (Hnew q' Hq' E0)].
      * by destruct (Hnew q Hq Hq0).
  - intros m Hm. by apply Hfree in Hm as [? _].
  - intros q Hq Hq0. rewrite Hnode by done. rewrite decide_False; [done|]. intros ->. by rewrite Hqn in Hq0.
  - intros q Hq. rewrite Hnode by done. case_decide as E; [by rewrite E|done].
  - intros b Hb Hfr Hno. destruct (Hview b Hb) as [|(q & Hq & _ & E & _)]; [by intros ->|done|].
    by destruct (Hno q Hq).
  - intros i Hi'2. apply Hfields. lia.
  - intros q Hq Hlf Hq0. destruct (Hblk q Hq Hq0) as (_ & Hb & _ & _).
    destruct (Hview (node (view s) ino q) Hb (Hnew q Hq Hq0)) as [|(q2 & Hq2 & Hnl & E & _)]; [done|].
    destruct Hnl. by rewrite <- (Hinj q q2 Hq Hq2 Hq0 (eq_sym E)).
  - intros q Hq Hlf. rewrite Hnode by done. by case_decide.
  - destruct Hi as [Hi _], Hi' as [Hi' _]. unfold INODE_BYTES in *. unfold i_size. apply get32_agree.
    intros k Hk4. apply Hfields. lia.
Qed.

(** The nodes after a pointer to the zeroed block [n] is stored at index [j]
    of the pointer block at [qb]. *)
Lemma node_link s ino v' qb j n :
  layout s -> file_tree s ino -> valid_path (ptrs_per_block s) (qb ++ [j]) -> qb <> [] ->
  node (view s) ino qb <> 0 -> node (view s) ino (qb ++ [j]) = 0 ->
  Z.of_nat (length (view s (node (view s) ino qb))) = block_size s -> 0 < n < 2 ^ 32 ->
  (forall q, valid_path (ptrs_per_block s) q -> node (view s) ino q <> 0 -> node (view s) ino q <> n) ->
  (forall q, valid_path (ptrs_per_block s) q -> node (view s) ino q <> 0 -> q <> qb ->
     v' (node (view s) ino q) = view s (node (view s) ino q)) ->
  v' (node (view s) ino qb) = write_at (view s (node (view s) ino qb)) (4 * j) (le32 n) ->
  v' n = zeros (block_size s) ->
  forall q, valid_path (ptrs_per_block s) q ->
    node v' ino q = if decide (q = qb ++ [j]) then n else node (view s) ino q.
Proof.
  intros Hl [_ _ Hinj] Hqj Hqb Hb0 Hj0 Hlen Hn Hnew Hkeep Hset Hz.
  destruct (valid_prefix _ _ _ Hqj Hqb) as (Hvb & Hjr & _).
  destruct (ly_block _ Hl) as [Hbs _].
  assert (4 * ptrs_per_block s <= block_size s) as Hfit by (unfold ptrs_per_block; zdiv_lia).
  intros q. induction q as [|i q IH] using rev_ind; [done|]. intros Hq.
  destruct q as [|x q].
  { rewrite decide_False; [done|]. intros E. destruct qb as [|? [|? ?]]; done. }
  set (q0 := x :: q) in *. assert (q0 <> []) as Hne by done.
  destruct (valid_prefix _ _ _ Hq Hne) as (Hq0 & Hir & _). specialize (IH Hq0).
  rewrite !node_snoc, IH by done. destruct (decide (q0 = qb ++ [j])) as [E|E].
  - (* below the new block *)
    rewrite Hz, get32_zeros, E, Hj0, Z.eqb_refl. rewrite decide_False; [by destruct (n =? 0)|].
    intros E2. apply (f_equal length) in E2. rewrite !length_app in E2. cbn [length] in E2. lia.
  - destruct (Z.eqb_spec (node (view s) ino q0) 0) as [E0|E0].
    + rewrite decide_False; [done|]. intros E2. apply snoc_inj in E2 as [-> _]. done.
    + destruct (decide (q0 = qb)) as [->|Hqne].
      * rewrite Hset. destruct (decide (i = j)) as [->|Hij].
        -- rewrite decide_True by done. rewrite get32_write_at_in by (rewrite ?length_le32; lia).
           rewrite Z.sub_diag. apply get32_le32. lia.
        -- rewrite decide_False by (intros E2; by apply snoc_inj in E2 as [_ ?]).
           apply get32_write_at_out; rewrite ?length_le32; lia.
      * rewrite Hkeep by done. rewrite decide_False; [done|]. intros E2. by apply snoc_inj in E2 as [? _].
Qed.

Lemma write_at_all (buf src : list Z) : length src = length buf -> write_at buf 0 src = src.
Proof.
  intros Hl. apply list_eq. intros i. rewrite write_at_lookup by lia. rewrite Nat.sub_0_r.
  case_decide; [done|]. rewrite !lookup_ge_None_2 by lia. done.
Qed.

Lemma zero_block_spec H s n :
  cache_ok H s -> layout s -> room 1 H s -> valid s n ->
  wp (zero_block kmalloc_ok n) (fun _ s' => cache_ok H s' /\ same_fs s s' /\
    forall b, view s' b = if decide (b = n) then zeros (block_size s) else view s b) s.
Proof.
  intros Hc Hl Hroom Hv. destruct (ly_block _ Hl) as [Hbs _]. unfold zero_block, room in *. wp_steps. cbn [id].
  wp_call get_ok; [exact HR|exact Hk|exact Hc|exact Hv|lia|]. intros r s1 (-> & Hc1 & Hs1 & Hv1).
  wp_call writes_put_spec; [exact Hc1| |].
  { apply List.Forall_cons; [|apply List.Forall_nil]. split_and!; cbn [fst snd]; [lia| |apply bytes_zeros].
    rewrite length_zeros, (sf_block _ _ Hs1). lia. }
  intros _ s2 (Hc2 & Hs2 & Hv2). split_and!; [done|by eapply same_trans|]. intros b. rewrite Hv2, !Hv1.
  case_decide; [|done]. cbn [stores fold_left fst snd]. apply write_at_all. rewrite length_zeros.
  destruct Hv as (? & _ & Hd). destruct (view_block H s n Hc ltac:(lia) Hd). lia.
Qed.

(** ** The block of a position *)

Lemma follow_read_spec H ino path : forall q s,
  cache_ok H s -> layout s -> room 1 H s -> file_tree s ino -> q <> [] ->
  valid_path (ptrs_per_block s) (q ++ path) ->
  wp (follow kmalloc_ok path false (node (view s) ino q)) (fun b s' =>
    b = node (view s) ino (q ++ path) /\ cache_ok H s' /\ frame s s') s.
Proof.
  induction path as [|i path IH]; intros q s Hc Hl Hroom Ht Hq Hv; cbn [follow].
  { wp_steps. rewrite app_nil_r. split_and!; [done|done|apply frame_refl]. }
  destruct (Z.eqb_spec (node (view s) ino q) 0) as [E|E].
  { wp_steps. rewrite node_app by done. rewrite E, walk_0. split_and!; [done|done|apply frame_refl]. }
  replace (q ++ i :: path) with ((q ++ [i]) ++ path) in * by by rewrite <- app_assoc.
  assert (Hvi : valid_path (ptrs_per_block s) (q ++ [i])).
  { destruct q as [|x q]; [done|]. cbn [app valid_path] in *. destruct Hv as (H1 & H2 & H3).
    apply Forall_app in H3 as [H3 _]. rewrite length_app in H2. split; [done|split; [lia|done]]. }
  destruct (valid_prefix _ _ _ Hvi Hq) as (Hvq & _).
  destruct (ft_block _ _ Ht q Hvq E) as (Hb & _).
  unfold indirect_pointer. wp_steps. wp_call get_ok; [exact HR|exact Hk|exact Hc|exact Hb|unfold room in *; lia|].
  intros r s1 (-> & Hc1 & Hf1). wp_steps. wp_call block_data_spec; [exact Hc1|by left|].
  intros d s1' [-> ->]. rewrite andb_false_r. wp_steps. wp_call put_block_spec; [exact Hc1|].
  intros _ s2 [Hc2 Hf2]. wp_steps. rewrite (proj2 Hf1).
  assert (get32 (view s (node (view s) ino q)) (4 * i) = node (view s) ino (q ++ [i])) as ->.
  { rewrite node_snoc by done. by destruct (Z.eqb_spec (node (view s) ino q) 0). }
  pose proof (frame_trans _ _ _ Hf1 Hf2) as Hf. pose proof (same_geom _ _ (proj1 Hf)) as G.
  rewrite <- (frame_node s s2 ino (q ++ [i]) Hf).
  wp_call (IH (q ++ [i])); [exact Hc2|by eapply frame_layout| |by eapply frame_tree|by destruct q| |].
  - unfold room in *. by rewrite (sf_max _ _ (proj1 Hf)).
  - by rewrite (geom_ptrs s s2 G).
  - intros b s3 (-> & Hc3 & Hf3). split_and!; [by apply frame_node|done|by eapply frame_trans].
Qed.

Lemma get_block_num_read_spec H s ino idx :
  cache_ok H s -> layout s -> room 1 H s -> file_tree s ino -> 0 <= idx ->
  wp (ext2_get_block_num kmalloc_ok ino idx false) (fun r s' =>
    r = (leaf_of s ino idx, ino) /\ cache_ok H s' /\ frame s s') s.
Proof.
  intros Hc Hl Hroom Ht Hidx. unfold ext2_get_block_num, leaf_of. wp_steps. cbn [id].
  destruct (block_path s idx) as [[x p]|] eqn:E.
  2:{ wp_steps. split_and!; [done|done|apply frame_refl]. }
  destruct (block_path_valid s idx x p Hl Hidx E) as [Hv _]. unfold root_pointer. wp_steps.
  assert (wp (if i_block ino x =? 0 then if negb false then ret (0, ino) else ret (0, ino) else ret (i_block ino x, ino))
             (fun r s' => r = (i_block ino x, ino) /\ s' = s) s) as Hroot.
  { cbn [negb]. destruct (Z.eqb_spec (i_block ino x) 0) as [->|]; by wp_steps. }
  cbn [negb] in *. eapply wp_mono; [|intros r s' Hr; exact Hr].
  destruct (Z.eqb_spec (i_block ino x) 0) as [E0|E0]; wp_steps; [rewrite <- E0|];
    (wp_call (follow_read_spec H ino p [x]); [done|done|done|done|done|exact Hv|]); intros b s' (-> & Hc' & Hf');
    wp_steps; done.
Qed.

(** What an allocating step returns: the node, and whether a pointer was not
    given back, which happens only when it is missing. *)
Definition stepped (H : list Z) (b : Z) (s' : fs) : Prop :=
  cache_ok H s' \/ (b = 0 /\ exists h, cache_ok (h :: H) s').

Lemma ext2_inode_bounds ino x : inode_ok ino -> 0 <= x < 15 ->
  0 <= 40 + 4 * x /\ 40 + 4 * x + 4 <= 100 /\ 100 <= Z.of_nat (length ino).
Proof. intros [Hl _] Hx. unfold INODE_BYTES in Hl. lia. Qed.

(** No group has a block to give. *)
Definition disk_full (s : fs) : Prop := forall g, 0 <= g < num_groups s -> exhausted s g.

Lemma frame_disk_full s s' : frame s s' -> disk_full s -> disk_full s'.
Proof.
  intros Hf Hfull g Hg. pose proof Hf as [Hs _]. rewrite (sf_groups _ _ Hs) in Hg.
  destruct (Hfull g Hg) as [E|Hn]; [left|right]; [by rewrite (sf_desc _ _ Hs)|].
  intros n Hfree. rewrite (geom_group_of s s' (same_geom _ _ Hs)). apply Hn. by apply (frame_block_free s s').
Qed.

Lemma root_pointer_spec H s ino x :
  cache_ok H s -> layout s -> room 1 H s -> file_tree s ino -> 0 <= x < 15 ->
  wp (root_pointer kmalloc_ok x true ino) (fun '(b, ino') s' =>
    cache_ok H s' /\ grown s ino s' ino' /\ b = node (view s') ino' [x] /\ (b = 0 -> disk_full s')) s.
Proof.
  intros Hc Hl Hroom Ht Hx. unfold root_pointer.
  destruct (Z.eqb_spec (i_block ino x) 0) as [E0|E0]; cbn [negb].
  2:{ wp_steps. split_and!; [done|apply frame_grown; [apply frame_refl|done|done]|done|done]. }
  wp_steps. wp_call (alloc_block_spec kmalloc_ok HR Hk H); [done|done|done|]. intros [code|n] s1 [Hc1 Hr]; wp_steps.
  { destruct Hr as (_ & Hf & Hfull). split_and!; [done|by apply frame_grown| |intros _; by eapply frame_disk_full].
    cbn [node walk]. by rewrite E0. }
  destruct Hr as [G1 Hl1 Hwas Hfree1 Hv1 _]. destruct (ly_free _ Hl n Hwas) as (Hnv & Hnb & Hnt).
  wp_call zero_block_spec; [exact Hc1|exact Hl1| | |].
  { unfold room in *. by rewrite (ge_max _ _ G1). }
  { by apply (geom_valid s s1 G1). }
  intros _ s2 (Hc2 & Hs2 & Hv2). wp_steps. pose proof (geom_trans _ _ _ G1 (same_geom _ _ Hs2)) as G.
  rewrite (ge_block _ _ G1) in Hv2.
  destruct (contents_changed s1 s2 Hl1 Hs2) as [Hl2 Hfree2].
  { intros b Hb. rewrite Hv2, decide_False; [done|]. intros ->. by apply (geom_bookkeeping s s1 G1) in Hb. }
  destruct (ext2_inode_bounds ino x (ft_inode _ _ Ht) Hx) as (B1 & B2 & B3).
  assert (Hroot : forall y, 0 <= y < 15 -> i_block (set_block x n ino) y = if decide (y = x) then n else i_block ino y).
  { intros y Hy. unfold i_block, set_block. case_decide as E.
    - subst y. apply get32_set32_eq; [lia|lia|]. destruct Hnv. lia.
    - apply get32_set32_ne; lia. }
  assert (Hkeep : forall c, ~ bookkeeping s c -> c <> n -> view s2 c = view s c).
  { intros c Hb Hne. by rewrite Hv2, decide_False, Hv1. }
  assert (Hnew : forall q, valid_path (ptrs_per_block s) q -> node (view s) ino q <> 0 -> node (view s) ino q <> n).
  { intros q Hq Hq0 E. apply (ft_block _ _ Ht q Hq) in Hq0 as (_ & _ & _ & Hq0). by rewrite E in Hq0. }
  assert (Hz : view s2 n = zeros (block_size s)) by by rewrite Hv2, decide_True.
  assert (Hnode : forall q, valid_path (ptrs_per_block s) q ->
    node (view s2) (set_block x n ino) q = if decide (q = [x]) then n else node (view s) ino q).
  { intros q. induction q as [|i q IH] using rev_ind; [done|]. intros Hq. destruct q as [|y q].
    - cbn [app node walk]. rewrite Hroot by apply Hq. repeat case_decide; congruence.
    - set (q0 := y :: q) in *. assert (q0 <> []) as Hne by done.
      destruct (valid_prefix _ _ _ Hq Hne) as (Hq0 & _). specialize (IH Hq0).
      rewrite !node_snoc, IH by done. rewrite (decide_False (P := q0 ++ [i] = [x])) by (subst q0; destruct q; done).
      destruct (decide (q0 = [x])) as [->|E].
      + rewrite Hz, get32_zeros. cbn [node walk]. rewrite E0. by destruct (n =? 0).
      + destruct (Z.eqb_spec (node (view s) ino q0) 0); [done|]. f_equal. apply Hkeep; [|by apply Hnew].
        by apply (ft_block _ _ Ht). }
  split_and!; [done| | |].
  - apply (linked s ino s2 _ [x] n); try done.
    + intros m. by rewrite Hfree2, Hfree1.
    + intros c Hb Hne. left. by apply Hkeep.
    + destruct (ft_inode _ _ Ht) as [Hil Hib]. split; [unfold set_block; by rewrite length_set32|].
      apply bytes_write_at; [done|apply bytes_le32].
    + intros i Hi. unfold set_block, set32. apply aget_write_at_out; rewrite ?length_le32; lia.
  - cbn [node walk]. by rewrite Hroot, decide_True.
  - destruct Hnv. lia.
Qed.

Lemma indirect_pointer_spec H s ino q j :
  cache_ok H s -> layout s -> room 2 H s -> file_tree s ino -> q <> [] ->
  valid_path (ptrs_per_block s) (q ++ [j]) -> node (view s) ino q <> 0 ->
  wp (indirect_pointer kmalloc_ok (node (view s) ino q) j true) (fun b s' =>
    grown s ino s' ino /\ b = node (view s') ino (q ++ [j]) /\ stepped H b s' /\ (b = 0 -> disk_full s')) s.
Proof.
  intros Hc Hl Hroom Ht Hq Hqj E0. destruct (valid_prefix _ _ _ Hqj Hq) as (Hvq & Hj & Hnl).
  destruct (ft_block _ _ Ht q Hvq E0) as (Hbv & Hbb & Hbt & Hbf). set (b := node (view s) ino q) in *.
  unfold indirect_pointer, room in *. wp_steps.
  wp_call get_ok; [exact HR|exact Hk|exact Hc|exact Hbv|lia|].
  intros r s1 (-> & Hc1 & Hf1). wp_steps. wp_call block_data_spec; [exact Hc1|by left|].
  intros d s1' [-> ->]. rewrite (proj2 Hf1).
  assert (get32 (view s b) (4 * j) = node (view s) ino (q ++ [j])) as Ej.
  { rewrite node_snoc by done. fold b. by destruct (Z.eqb_spec b 0). }
  destruct (Z.eqb_spec (get32 (view s b) (4 * j)) 0) as [Ez|Ez]; cbn [andb].
  2:{ wp_steps. wp_call put_block_spec; [exact Hc1|]. intros _ s2 [Hc2 Hf2]. wp_steps.
      pose proof (frame_trans _ _ _ Hf1 Hf2) as Hf. split_and!; [by apply frame_grown| |by left|done].
      by rewrite (frame_node s s2 ino _ Hf). }
  pose proof (same_geom _ _ (proj1 Hf1)) as G1.
  wp_steps. wp_call (alloc_block_spec kmalloc_ok HR Hk (b :: H)); [done|by eapply frame_layout| |].
  { unfold room. rewrite (ge_max _ _ G1). cbn [length]. lia. }
  intros [code|n] s2 [Hc2 Hr]; wp_steps.
  { destruct Hr as (_ & Hf2 & Hfull). pose proof (frame_trans _ _ _ Hf1 Hf2) as Hf.
    split_and!; [by apply frame_grown| |right; split; [done|by exists b]|intros _; exact (frame_disk_full s1 s2 Hf2 Hfull)].
    by rewrite (frame_node s s2 ino _ Hf), <- Ej. }
  apply (frame_block_taken n s s1 s2 Hf1) in Hr as [G2 Hl2 Hwas Hfree2 Hv2 _].
  destruct (ly_free _ Hl n Hwas) as (Hnv & Hnb & Hnt).
  destruct (ly_block _ Hl) as [Hbs _].
  assert (4 * ptrs_per_block s <= block_size s) as Hfit by (unfold ptrs_per_block; zdiv_lia).
  rewrite <- wp_bind. wp_call writes_put_spec; [exact Hc2| |].
  { apply List.Forall_cons; [|apply List.Forall_nil]. split_and!; cbn [fst snd]; [lia| |apply bytes_le32].
    rewrite length_le32, (ge_block _ _ G2). lia. }
  intros _ s3 (Hc3 & Hs3 & Hv3). pose proof (geom_trans _ _ _ G2 (same_geom _ _ Hs3)) as G3. wp_steps.
  cbn [stores fold_left fst snd] in Hv3. rewrite (Hv2 b Hbb) in Hv3.
  destruct (contents_changed s2 s3 Hl2 Hs3) as [Hl3 Hfree3].
  { intros c Hb. rewrite Hv3, decide_False; [done|]. intros ->. by apply (geom_bookkeeping s s2 G2) in Hb. }
  wp_call zero_block_spec; [exact Hc3|exact Hl3| |by apply (geom_valid s s3 G3)|].
  { unfold room. rewrite (ge_max _ _ G3). lia. }
  intros _ s4 (Hc4 & Hs4 & Hv4). wp_steps. pose proof (geom_trans _ _ _ G3 (same_geom _ _ Hs4)) as G4.
  rewrite (ge_block _ _ G3) in Hv4.
  destruct (contents_changed s3 s4 Hl3 Hs4) as [Hl4 Hfree4].
  { intros c Hb. rewrite Hv4, decide_False; [done|]. intros ->. by apply (geom_bookkeeping s s3 G3) in Hb. }
  assert (Hnew : forall q', valid_path (ptrs_per_block s) q' -> node (view s) ino q' <> 0 -> node (view s) ino q' <> n).
  { intros q' Hq' Hq0 E. apply (ft_block _ _ Ht q' Hq') in Hq0 as (_ & _ & _ & Hq0). by rewrite E in Hq0. }
  assert (Hview : forall c, ~ bookkeeping s c -> c <> n ->
    view s4 c = if decide (c = b) then write_at (view s b) (4 * j) (le32 n) else view s c).
  { intros c Hcb Hcn. rewrite Hv4, decide_False by done. rewrite Hv3. case_decide; [done|]. by apply Hv2. }
  assert (Hbn : b <> n) by by apply Hnew.
  assert (Hnode : forall q', valid_path (ptrs_per_block s) q' ->
    node (view s4) ino q' = if decide (q' = q ++ [j]) then n else node (view s) ino q').
  { apply (node_link s ino (view s4) q j n); try done.
    - by rewrite <- Ej.
    - destruct Hbv as (? & _ & Hd). destruct (view_block H s b Hc ltac:(lia) Hd). done.
    - apply Hnv.
    - intros q' Hq' Hq0 Hne. rewrite Hview; [|by apply (ft_block _ _ Ht)|by apply Hnew].
      rewrite decide_False; [done|]. intros E. apply Hne. by apply (ft_inj _ _ Ht).
    - fold b. by rewrite Hview, decide_True.
    - by rewrite Hv4, decide_True. }
  split_and!; [| |by left|destruct Hnv; lia].
  - apply (linked s ino s4 ino (q ++ [j]) n); try done.
    + intros m. by rewrite Hfree4, Hfree3, Hfree2.
    + by rewrite <- Ej.
    + by rewrite Hv4, decide_True.
    + intros c Hcb Hcn. rewrite Hview by done. case_decide as E; [right|by left]. exists q. by rewrite E.
    + apply Ht.
  - by rewrite Hnode, decide_True.
Qed.

Lemma follow_alloc_spec H ino path : forall q s,
  cache_ok H s -> layout s -> room 2 H s -> file_tree s ino -> q <> [] ->
  valid_path (ptrs_per_block s) (q ++ path) -> (node (view s) ino q = 0 -> disk_full s) ->
  wp (follow kmalloc_ok path true (node (view s) ino q)) (fun b s' =>
    grown s ino s' ino /\ b = node (view s') ino (q ++ path) /\ stepped H b s' /\ (b = 0 -> disk_full s')) s.
Proof.
  induction path as [|i path IH]; intros q s Hc Hl Hroom Ht Hq Hv Hq0; cbn [follow].
  { wp_steps. rewrite app_nil_r. split_and!; [apply frame_grown; [apply frame_refl|done|done]|done|by left|by auto]. }
  destruct (Z.eqb_spec (node (view s) ino q) 0) as [E|E].
  { wp_steps. rewrite node_app by done. rewrite E, walk_0.
    split_and!; [apply frame_grown; [apply frame_refl|done|done]|done|by left|by auto]. }
  replace (q ++ i :: path) with ((q ++ [i]) ++ path) in * by by rewrite <- app_assoc.
  assert (Hvi : valid_path (ptrs_per_block s) (q ++ [i])).
  { destruct q as [|x q]; [done|]. cbn [app valid_path] in *. destruct Hv as (H1 & H2 & H3).
    apply Forall_app in H3 as [H3 _]. rewrite length_app in H2. split; [done|split; [lia|done]]. }
  assert (Hqi : q ++ [i] <> []) by by destruct q.
  wp_steps. wp_call (indirect_pointer_spec H s ino q i); [done..|]. intros b1 s1 (Hg & -> & Hst & Hfull).
  pose proof (tc_geom _ _ _ _ Hg) as G. destruct Hst as [Hc1|[Hb0 [h Hc1]]].
  - wp_call (IH (q ++ [i])); [exact Hc1|apply Hg| |apply Hg|done| | |].
    + unfold room in *. by rewrite (ge_max _ _ G).
    + by rewrite (geom_ptrs s s1 G).
    + exact Hfull.
    + intros b s2 (Hg2 & -> & Hst2 & Hfull2). split_and!; [by eapply grown_trans|done|done|done].
  - rewrite Hb0. assert (wp (follow kmalloc_ok path true 0) (fun b s' => b = 0 /\ s' = s1) s1) as Hf.
    { destruct path; cbn [follow Z.eqb]; by wp_steps. }
    eapply wp_mono; [exact Hf|]. cbv beta. intros b s' [-> ->]. split_and!; [done| |right; split; [done|by exists h]|by auto].
    by rewrite node_app, Hb0, walk_0.
Qed.

(** Why the block of index [idx] cannot be had. *)
Definition no_space (s : fs) (idx : Z) : Prop := block_path s idx = None \/ disk_full s.

Lemma get_block_num_spec H s ino idx :
  cache_ok H s -> layout s -> room 2 H s -> file_tree s ino -> 0 <= idx ->
  wp (ext2_get_block_num kmalloc_ok ino idx true) (fun '(b, ino') s' =>
    grown s ino s' ino' /\ b = leaf_of s' ino' idx /\ stepped H b s' /\ (b = 0 -> no_space s' idx)) s.
Proof.
  intros Hc Hl Hroom Ht Hidx. unfold ext2_get_block_num. wp_steps. cbn [id].
  destruct (block_path s idx) as [[x p]|] eqn:E.
  2:{ wp_steps. split_and!; [apply frame_grown; [apply frame_refl|done|done]|unfold leaf_of; by rewrite E|by left|by left]. }
  destruct (block_path_valid s idx x p Hl Hidx E) as [Hv _].
  wp_steps. wp_call (root_pointer_spec H s ino x); [done|done|unfold room in *; lia|done|apply Hv|].
  intros [b ino1] s1 (Hc1 & Hg1 & -> & Hfull). wp_steps. pose proof (tc_geom _ _ _ _ Hg1) as G1.
  wp_call (follow_alloc_spec H ino1 p [x]); [exact Hc1|apply Hg1| |apply Hg1|done|by rewrite (geom_ptrs s s1 G1)|exact Hfull|].
  { unfold room in *. by rewrite (ge_max _ _ G1). }
  intros b s2 (Hg2 & -> & Hst & Hfull2). wp_steps. pose proof (tc_geom _ _ _ _ Hg2) as G2.
  split_and!; [by eapply grown_trans| |done|right; by auto]. unfold leaf_of.
  by rewrite (geom_block_path s1 s2 G2), (geom_block_path s s1 G1), E.
Qed.

(** ** The bytes of a file *)

Lemma block_path_inj s i j q :
  layout s -> 0 <= i -> 0 <= j -> block_path s i = Some q -> block_path s j = Some q -> i = j.
Proof.
  intros Hl Hi Hj. destruct (ly_block _ Hl) as [Hb _]. unfold block_path.
  assert (256 <= ptrs_per_block s <= 16384) as Hp by (unfold ptrs_per_block; split; zdiv_lia).
  set (n := ptrs_per_block s) in *. unfold EXT2_NDIR_BLOCKS, EXT2_IND_BLOCK, EXT2_DIND_BLOCK, EXT2_TIND_BLOCK.
  assert (0 <= n * n < 2 ^ 32) as Hnn by nia. rewrite (u32_small (n * n)) by done.
  generalize (u32 (n * n * n)) as nnn. intros nnn.
  assert (Htwo : forall a b, a / n = b / n -> a mod n = b mod n -> a = b).
  { intros a b E1 E2. rewrite (Z.div_mod a n), (Z.div_mod b n) by lia. congruence. }
  assert (Hthree : forall a b, a / (n * n) = b / (n * n) -> a / n mod n = b / n mod n -> a mod n = b mod n -> a = b).
  { intros a b E1 E2 E3. apply Htwo; [|done]. apply Htwo; [|done]. rewrite !Z.div_div by lia. done. }
  destruct (Z.ltb_spec i 12); [|destruct (Z.ltb_spec (i - 12) n); [|destruct (Z.ltb_spec (i - 12 - n) (n * n));
    [|destruct (Z.ltb_spec (i - 12 - n - n * n) nnn); [|done]]]]; intros [= <-];
  (destruct (Z.ltb_spec j 12); [|destruct (Z.ltb_spec (j - 12) n); [|destruct (Z.ltb_spec (j - 12 - n) (n * n));
    [|destruct (Z.ltb_spec (j - 12 - n - n * n) nnn); [|done]]]]); intros [=]; try lia.
  - enough (i - 12 - n = j - 12 - n) by lia. by apply Htwo.
  - enough (i - 12 - n - n * n = j - 12 - n - n * n) by lia. by apply Hthree.
Qed.

(** Other contents in the data block of index [idx]. *)
Lemma data_changed s ino idx d s' :
  layout s -> file_tree s ino -> 0 <= idx -> leaf_of s ino idx <> 0 -> same_fs s s' ->
  (forall c, view s' c = if decide (c = leaf_of s ino idx) then d else view s c) ->
  layout s' /\ (forall m, block_free s' m <-> block_free s m) /\
  (forall q, valid_path (ptrs_per_block s) q -> node (view s') ino q = node (view s) ino q) /\ file_tree s' ino.
Proof.
  intros Hl Ht Hidx Hb0 Hs Hv. set (b := leaf_of s ino idx) in *. pose proof (same_geom _ _ Hs) as G.
  assert (exists x p, block_path s idx = Some (x, p) /\ b = node (view s) ino (x :: p)) as (x & p & Ep & Eb).
  { unfold b, leaf_of in *. destruct (block_path s idx) as [[x p]|]; [|done]. by exists x, p. }
  destruct (block_path_valid s idx x p Hl Hidx Ep) as [Hvp Hleaf].
  assert (file_block s b) as (Hbv & Hbb & Hbt & Hbf) by (rewrite Eb in *; by apply (ft_block _ _ Ht)).
  destruct (contents_changed s s' Hl Hs) as [Hl' Hfree].
  { intros c Hc. rewrite Hv, decide_False; [done|]. by intros ->. }
  assert (Hnode : forall q, valid_path (ptrs_per_block s) q -> node (view s') ino q = node (view s) ino q).
  { intros q. induction q as [|i q IH] using rev_ind; [done|]. intros Hq. destruct q as [|y q]; [done|].
    set (q0 := y :: q) in *. assert (q0 <> []) as Hne by done.
    destruct (valid_prefix _ _ _ Hq Hne) as (Hq0 & _ & Hnl). specialize (IH Hq0). rewrite !node_snoc, IH by done.
    destruct (Z.eqb_spec (node (view s) ino q0) 0) as [|Hn0]; [done|]. rewrite Hv, decide_False; [done|].
    intros E. apply Hnl. by rewrite (ft_inj _ _ Ht q0 (x :: p) Hq0 Hvp Hn0 ltac:(congruence)). }
  split_and!; [done|done|done|]. destruct Ht as [Hi Hblk Hinj]. split; rewrite ?(geom_ptrs s s' G); [done| |].
  - intros q Hq. rewrite Hnode by done. intros Hq0. destruct (Hblk q Hq Hq0) as (A & B & C & E).
    split_and!; [by apply (geom_valid s s' G)|by rewrite (geom_bookkeeping s s' G)|by rewrite (geom_in_table s s' G)
      |by rewrite Hfree].
  - intros q q' Hq Hq'. rewrite !Hnode by done. by apply Hinj.
Qed.

(** Different blocks of data have different numbers. *)
Lemma leaf_of_inj s ino i j :
  layout s -> file_tree s ino -> 0 <= i -> 0 <= j -> leaf_of s ino i <> 0 -> leaf_of s ino i = leaf_of s ino j -> i = j.
Proof.
  intros Hl Ht Hi Hj. unfold leaf_of. destruct (block_path s i) as [[x p]|] eqn:Ei; [|done].
  destruct (block_path s j) as [[y p']|] eqn:Ej; [|done]. intros Hn E.
  destruct (block_path_valid s i x p Hl Hi Ei) as [Hv _]. destruct (block_path_valid s j y p' Hl Hj Ej) as [Hv' _].
  pose proof (ft_inj _ _ Ht _ _ Hv Hv' Hn E) as [= -> ->]. by apply (block_path_inj s i j (y, p')).
Qed.

(** Stores in the data block of index [idx]. *)
Lemma data_stored s ino idx off src s' :
  layout s -> file_tree s ino -> 0 <= idx -> leaf_of s ino idx <> 0 ->
  Z.of_nat (length (view s (leaf_of s ino idx))) = block_size s ->
  0 <= off -> off + Z.of_nat (length src) <= block_size s -> same_fs s s' ->
  (forall c, view s' c = if decide (c = leaf_of s ino idx) then write_at (view s (leaf_of s ino idx)) off src else view s c) ->
  layout s' /\ (forall m, block_free s' m <-> block_free s m) /\
  (forall q, valid_path (ptrs_per_block s) q -> node (view s') ino q = node (view s) ino q) /\
  file_tree s' ino /\
  forall pos, 0 <= pos -> file_byte s' ino pos =
    if decide (idx * block_size s + off <= pos < idx * block_size s + off + Z.of_nat (length src))
    then aget 0 src (pos - (idx * block_size s + off)) else file_byte s ino pos.
Proof.
  intros Hl Ht Hidx Hb0 Hlen Hoff Hfit Hs Hv.
  destruct (data_changed s ino idx _ s' Hl Ht Hidx Hb0 Hs Hv) as (Hl' & Hfree & Hnode & Ht').
  split_and!; [done|done|done|done|]. set (b := leaf_of s ino idx) in *.
  destruct (ly_block _ Hl) as [Hbs _]. pose proof (same_geom _ _ Hs) as G.
  intros pos Hpos. assert (0 <= pos / block_size s) as Hpi by (apply Z.div_pos; lia).
  assert (leaf_of s' ino (pos / block_size s) = leaf_of s ino (pos / block_size s)) as El.
  { unfold leaf_of. rewrite (geom_block_path s s' G). destruct (block_path s (pos / block_size s)) as [[y p]|] eqn:Ep; [|done].
    destruct (block_path_valid s _ y p Hl Hpi Ep) as [Hvp _]. by apply Hnode. }
  unfold file_byte. rewrite (ge_block _ _ G), El. cbv zeta.
  pose proof (Z.div_mod pos (block_size s) ltac:(lia)) as Edm.
  pose proof (Z.mod_pos_bound pos (block_size s) ltac:(lia)) as Hm.
  destruct (decide (pos / block_size s = idx)) as [Ei|Ei].
  - rewrite Ei. fold b. destruct (Z.eqb_spec b 0); [done|].
    rewrite Hv, decide_True by done. rewrite Ei in Edm. case_decide as Hin.
    + rewrite aget_write_at_in by lia. f_equal. lia.
    + by rewrite aget_write_at_out by lia.
  - rewrite decide_False by nia. destruct (Z.eqb_spec (leaf_of s ino (pos / block_size s)) 0) as [|Hn0]; [done|].
    rewrite Hv, decide_False; [done|]. intros E. apply Ei. by apply (leaf_of_inj s ino).
Qed.

(** ** Reading *)

(** The [n] bytes of a file from [pos]. *)
Definition file_bytes (s : fs) (ino : list Z) (pos n : Z) : list Z := map (file_byte s ino) (seqZ pos n).

Lemma length_file_bytes s ino pos n : length (file_bytes s ino pos n) = Z.to_nat n.
Proof. unfold file_bytes. by rewrite length_map, length_seqZ. Qed.

Lemma aget_file_bytes s ino pos n i :
  0 <= i < n -> aget 0 (file_bytes s ino pos n) i = file_byte s ino (pos + i).
Proof.
  intros Hi. apply aget_lookup; [lia|]. unfold file_bytes. rewrite list_lookup_fmap.
  rewrite lookup_seqZ_lt by lia. cbn. f_equal. f_equal. lia.
Qed.

Lemma file_bytes_app s ino pos n m : 0 <= n -> 0 <= m ->
  file_bytes s ino pos (n + m) = file_bytes s ino pos n ++ file_bytes s ino (pos + n) m.
Proof. intros. unfold file_bytes. by rewrite seqZ_app, map_app. Qed.

Lemma within_block bs pos k : 0 < bs -> 0 <= k < bs - pos mod bs ->
  (pos + k) / bs = pos / bs /\ (pos + k) mod bs = pos mod bs + k.
Proof.
  intros Hbs Hrange. pose proof (Z.div_mod pos bs ltac:(lia)). pose proof (Z.mod_pos_bound pos bs ltac:(lia)).
  assert ((pos + k) / bs = pos / bs) as E.
  { symmetry. apply Z.div_unique_pos with (pos mod bs + k); lia. }
  split; [done|]. pose proof (Z.div_mod (pos + k) bs ltac:(lia)) as E2. rewrite E in E2. lia.
Qed.

(** The bytes up to the end of a block. *)
Lemma file_bytes_chunk s ino pos n :
  0 < block_size s -> 0 <= n <= block_size s - pos mod block_size s ->
  let b := leaf_of s ino (pos / block_size s) in
  (b <> 0 -> Z.of_nat (length (view s b)) = block_size s) ->
  file_bytes s ino pos n = if b =? 0 then zeros n else slice (pos mod block_size s) n (view s b).
Proof.
  intros Hbs Hn b Hlen. pose proof (Z.mod_pos_bound pos (block_size s) Hbs) as Hm. apply buf_ext.
  - rewrite length_file_bytes. destruct (Z.eqb_spec b 0) as [|Hb]; [by rewrite length_zeros|].
    specialize (Hlen Hb). rewrite length_slice; lia.
  - intros i Hi. rewrite length_file_bytes in Hi. rewrite aget_file_bytes by lia.
    destruct (within_block (block_size s) pos i Hbs ltac:(lia)) as [E1 E2].
    unfold file_byte. rewrite E1, E2. fold b. cbv zeta. destruct (Z.eqb_spec b 0); [by rewrite aget_zeros|].
    by rewrite aget_slice by lia.
Qed.

(** The data block of a position, if there is one, is a whole block. *)
Lemma leaf_of_block H s ino idx :
  cache_ok H s -> layout s -> file_tree s ino -> 0 <= idx -> leaf_of s ino idx <> 0 ->
  file_block s (leaf_of s ino idx) /\
  Z.of_nat (length (view s (leaf_of s ino idx))) = block_size s /\ bytes_ok (view s (leaf_of s ino idx)).
Proof.
  intros Hc Hl Ht Hidx Hn. unfold leaf_of in *. destruct (block_path s idx) as [[x p]|] eqn:E; [|done].
  destruct (block_path_valid s idx x p Hl Hidx E) as [Hv _]. pose proof (ft_block _ _ Ht _ Hv Hn) as Hb.
  split; [done|]. destruct Hb as ((? & _ & Hd) & _). apply (view_block H s _ Hc); [lia|done].
Qed.

Lemma frame_leaf_of s s' ino idx : frame s s' -> leaf_of s' ino idx = leaf_of s ino idx.
Proof.
  intros Hf. unfold leaf_of. rewrite (geom_block_path s s' (same_geom _ _ (proj1 Hf))).
  destruct (block_path s idx) as [[x p]|]; [|done]. by apply frame_node.
Qed.

Lemma frame_file_byte s s' ino pos : frame s s' -> file_byte s' ino pos = file_byte s ino pos.
Proof.
  intros Hf. unfold file_byte. rewrite (sf_block _ _ (proj1 Hf)), (frame_leaf_of s s') by done.
  by rewrite (proj2 Hf).
Qed.

Lemma frame_file_bytes s s' ino pos n : frame s s' -> file_bytes s' ino pos n = file_bytes s ino pos n.
Proof. intros Hf. apply map_ext. intros p. by apply frame_file_byte. Qed.

Lemma read_step_spec H s file to_read got :
  cache_ok H s -> layout s -> room 1 H s -> file_tree s (f_inode file) -> 0 <= f_position file ->
  f_position file + (to_read - Z.of_nat (length got)) < 2 ^ 32 -> Z.of_nat (length got) <= to_read < 2 ^ 31 ->
  wp (read_step kmalloc_ok to_read (got, file)) (fun r s' =>
    cache_ok H s' /\ frame s s' /\
    match r with
    | inr x => x = (to_read, got, file) /\ Z.of_nat (length got) = to_read
    | inl (got', file') => exists n, 0 < n <= to_read - Z.of_nat (length got) /\
        got' = got ++ file_bytes s (f_inode file) (f_position file) n /\
        file' = seek_to (f_position file + n) file
    end) s.
Proof.
  intros Hc Hl Hroom Ht Hpos Hmax Hgot. unfold read_step. wp_steps. cbn [id].
  destruct (Z.ltb_spec (Z.of_nat (length got)) to_read) as [Hlt|Hge]; cbn [negb].
  2:{ wp_steps. split_and!; [done|apply frame_refl| |lia]. rewrite int32_small by lia. do 2 f_equal. lia. }
  destruct (ly_block _ Hl) as [Hbs _].
  pose proof (Z.mod_pos_bound (f_position file) (block_size s) ltac:(lia)) as Hm.
  assert (0 <= f_position file / block_size s <= f_position file) as Hi.
  { split; [apply Z.div_pos; lia|]. apply Z.div_le_upper_bound; nia. }
  rewrite (u32_small (f_position file / block_size s)) by lia.
  set (n := Z.min (to_read - Z.of_nat (length got)) (block_size s - f_position file mod block_size s)) in *.
  assert (0 < n <= to_read - Z.of_nat (length got)) as Hn by lia. rewrite u64_small by lia.
  wp_steps. wp_call get_block_num_read_spec; [exact Hc|done|done|exact Ht|lia|]. intros r s1 (-> & Hc1 & Hf1).
  pose proof (file_bytes_chunk s (f_inode file) (f_position file) n ltac:(lia) ltac:(lia)) as Hchunk.
  cbv zeta in Hchunk. set (b := leaf_of s (f_inode file) (f_position file / block_size s)) in *.
  assert (b <> 0 -> file_block s b /\ Z.of_nat (length (view s b)) = block_size s /\ bytes_ok (view s b)) as Hb.
  { intros Hb. apply (leaf_of_block H); [done|done|done|lia|done]. }
  specialize (Hchunk (fun Hb0 => proj1 (proj2 (Hb Hb0)))).
  destruct (Z.eqb_spec b 0) as [E|E].
  - wp_steps. split_and!; [done|done|]. exists n. by rewrite Hchunk.
  - destruct (Hb E) as ((Hbv & _) & _). wp_steps. wp_call get_ok; [exact HR|exact Hk|exact Hc1| | |].
    { by apply (geom_valid s s1 (same_geom _ _ (proj1 Hf1))). }
    { unfold room in *. rewrite (sf_max _ _ (proj1 Hf1)). lia. }
    intros r s2 (-> & Hc2 & Hf2). wp_steps. wp_call block_data_spec; [exact Hc2|by left|]. intros d s2' [-> ->].
    rewrite (proj2 Hf2), (proj2 Hf1). wp_steps. wp_call put_block_spec; [exact Hc2|]. intros _ s3 [Hc3 Hf3]. wp_steps.
    split_and!; [done|by eapply frame_trans; [eapply frame_trans|]|]. exists n. by rewrite Hchunk.
Qed.

(** [ext2_read] returns the bytes of the file from the position on, up to
    [size] of them and not past the end of the file, and moves the position
    behind them. *)
Lemma read_spec H s file size :
  cache_ok H s -> layout s -> room 1 H s -> file_tree s (f_inode file) -> f_is_directory file = false ->
  0 <= f_position file -> 0 <= size < 2 ^ 31 ->
  wp (ext2_read kmalloc_ok file size) (fun r s' =>
    cache_ok H s' /\ frame s s' /\
    let n := Z.max 0 (Z.min size (i_size (f_inode file) - f_position file)) in
    r = (n, file_bytes s (f_inode file) (f_position file) n, seek_to (f_position file + n) file)) s.
Proof.
  intros Hc Hl Hroom Ht Hdir Hpos Hsize. unfold ext2_read. rewrite Hdir.
  pose proof (get32_range (f_inode file) 4 (proj2 (ft_inode _ _ Ht))) as Hsz. fold (i_size (f_inode file)) in Hsz.
  assert (Hself : forall p, p = f_position file -> seek_to p file = file) by (intros p ->; by destruct file).
  destruct (Z.leb_spec (i_size (f_inode file)) (f_position file)) as [Hle|Hlt].
  { wp_steps. split_and!; [done|apply frame_refl|]. rewrite Z.max_l, Hself by lia. done. }
  set (n := Z.min size (i_size (f_inode file) - f_position file)).
  set (I := fun (st : list Z * ext2_file) (s1 : fs) =>
    cache_ok H s1 /\ frame s s1 /\ Z.of_nat (length (fst st)) <= n /\
    fst st = file_bytes s (f_inode file) (f_position file) (Z.of_nat (length (fst st))) /\
    snd st = seek_to (f_position file + Z.of_nat (length (fst st))) file).
  eapply (wp_iter (read_step kmalloc_ok n) I (fun st => Z.to_nat (n - Z.of_nat (length (fst st))))).
  - split_and!; cbn [fst snd length]; [done|apply frame_refl|lia|done|]. symmetry. apply Hself. lia.
  - cbn [fst length]. lia.
  - intros [got f1] s1 (Hc1 & Hf1 & Hlen & Hgot & Hfile). cbn [fst snd] in *. subst f1.
    pose proof Hf1 as [Hs1 _].
    wp_call (read_step_spec H); cbn [f_inode f_position seek_to];
      [exact Hc1|by eapply frame_layout|unfold room in *; by rewrite (sf_max _ _ Hs1)|by eapply frame_tree|lia|lia|lia|].
    intros [[got' f']|r] s2 (Hc2 & Hf2 & Hr).
    + destruct Hr as (k & Hkr & -> & ->). rewrite (frame_file_bytes s s1) by done.
      assert (Hl' : Z.of_nat (length (got ++ file_bytes s (f_inode file) (f_position file + Z.of_nat (length got)) k))
                    = Z.of_nat (length got) + k).
      { rewrite length_app, length_file_bytes. lia. }
      split; [|cbn [fst]; rewrite Hl'; lia]. split_and!; cbn [fst snd]; rewrite ?Hl'.
      * done.
      * by eapply frame_trans.
      * lia.
      * rewrite file_bytes_app by lia. by rewrite <- Hgot.
      * unfold seek_to. cbn. f_equal. lia.
    + destruct Hr as [-> Hn]. split_and!; [done|by eapply frame_trans|]. rewrite Z.max_r by lia. fold n.
      rewrite Hn in Hgot |- *. by rewrite Hgot at 1.
Qed.
End file.
