(* ===== verification/Mkfs.v ===== *)
(** * Formatting a device (src/kernel/mkfs/ext2_format.c)

    [ext2_format] writes an ext2 file system of 1 KiB blocks with one block
    group: superblock, descriptor, the two bitmaps, the inode table with the
    root directory in it, and the block of the root directory. *)

From S2P Require Import Prelude Bytes StateMonad BlockDev Ext2Cache Ext2.

Definition FMT_BLOCK_SIZE : Z := 1024.
Definition FMT_SECTORS_PER_BLOCK : Z := 2.
Definition FMT_INODE_SIZE : Z := 128.
Definition FMT_BLOCKS_PER_GROUP : Z := 8192.
Definition FMT_FIRST_DATA_BLOCK : Z := 1.
Definition FMT_INODES_RATIO : Z := 4.
Definition FMT_FIRST_INO : Z := 11.
Definition FMT_RESERVED_INODES : Z := 10.

(** The numbers of the layout, from the size of the device. *)
Definition fmt_total_blocks (bytes : Z) : Z := u32 (bytes / FMT_BLOCK_SIZE).
Definition fmt_blocks_in_group (total : Z) : Z := Z.min (u32 (total - FMT_FIRST_DATA_BLOCK)) FMT_BLOCKS_PER_GROUP.
Definition fmt_inodes (in_group : Z) : Z :=
  Z.min 8192 (Z.max 16 (Z.land (in_group / FMT_INODES_RATIO + 7) (Z.lnot 7))).
Definition fmt_table_blocks (inodes : Z) : Z := (inodes * FMT_INODE_SIZE + FMT_BLOCK_SIZE - 1) / FMT_BLOCK_SIZE.
Definition fmt_overhead (table_blocks : Z) : Z := 4 + table_blocks + 1.

Definition blk_sb : Z := 1.
Definition blk_gdt : Z := 2.
Definition blk_bb : Z := 3.
Definition blk_ib : Z := 4.
Definition blk_inode_tbl : Z := 5.
Definition blk_root_dir (table_blocks : Z) : Z := 5 + table_blocks.

(** [bitmap_set] for every bit from [from] below [to]. *)
Definition bitmap_set (bit : Z) (bm : list Z) : list Z :=
  write_at bm (bit / 8) [u8 (Z.lor (aget 0 bm (bit / 8)) (2 ^ (bit mod 8)))].
Definition bitmap_fill (from to : Z) (bm : list Z) : list Z := for_range bitmap_set from (Z.to_nat (to - from)) bm.

Definition fmt_superblock (total in_group inodes free_blocks : Z) : list Z :=
  stores [(0, le32 inodes); (4, le32 total); (8, le32 (total / 20)); (12, le32 free_blocks);
          (16, le32 (inodes - FMT_RESERVED_INODES)); (20, le32 FMT_FIRST_DATA_BLOCK); (24, le32 0); (28, le32 0);
          (32, le32 FMT_BLOCKS_PER_GROUP); (36, le32 FMT_BLOCKS_PER_GROUP); (40, le32 inodes);
          (56, le16 EXT2_SUPER_MAGIC); (58, le16 1); (76, le32 1); (84, le32 FMT_FIRST_INO);
          (88, le16 FMT_INODE_SIZE); (72, le32 0)] (zeros FMT_BLOCK_SIZE).

Definition fmt_group_desc (inodes free_blocks : Z) : list Z :=
  stores [(0, le32 blk_bb); (4, le32 blk_ib); (8, le32 blk_inode_tbl); (12, le16 free_blocks);
          (14, le16 (inodes - FMT_RESERVED_INODES)); (16, le16 1)] (zeros FMT_BLOCK_SIZE).

Definition fmt_block_bitmap (in_group overhead : Z) : list Z :=
  bitmap_fill in_group FMT_BLOCKS_PER_GROUP (bitmap_fill 0 overhead (zeros FMT_BLOCK_SIZE)).
Definition fmt_inode_bitmap (inodes : Z) : list Z :=
  bitmap_fill inodes FMT_BLOCKS_PER_GROUP (bitmap_fill 0 FMT_RESERVED_INODES (zeros FMT_BLOCK_SIZE)).

(** The root directory, inode 2. *)
Definition fmt_root_inode (root_dir : Z) : list (Z * list Z) :=
  [(128, le16 (Z.lor EXT2_S_IFDIR 493)); (130, le16 0); (132, le32 FMT_BLOCK_SIZE); (154, le16 2);
   (156, le32 FMT_SECTORS_PER_BLOCK); (168, le32 root_dir)].
Definition fmt_inode_table (table_blocks : Z) : list Z :=
  stores (fmt_root_inode (blk_root_dir table_blocks)) (zeros (table_blocks * FMT_BLOCK_SIZE)).

Definition fmt_root_dir : list Z :=
  stores (entry_stores 0 EXT2_ROOT_INO 12 1 EXT2_FT_DIR [46]
          ++ entry_stores 12 EXT2_ROOT_INO (FMT_BLOCK_SIZE - 12) 2 EXT2_FT_DIR [46; 46]) (zeros FMT_BLOCK_SIZE).

Section format.
Context {D : Type} `{!BlockDevice D} (kmalloc_ok : nat -> bool).

Definition fmt_write_block (blk : Z) (data : list Z) (dev : D) : D * bool :=
  dev_write (blk * FMT_SECTORS_PER_BLOCK) FMT_SECTORS_PER_BLOCK data dev.

(** The blocks written, in order; each is prepared in a buffer from the
    allocation numbered [fst (fst w)]. *)
Fixpoint fmt_write_all (ws : list (nat * Z * list Z)) (dev : D) : D * Z :=
  match ws with
  | [] => (dev, 0)
  | (n, blk, data) :: ws' =>
      if negb (kmalloc_ok n) then (dev, -1)
      else
        let '(dev', ok) := fmt_write_block blk data dev in
        if negb ok then (dev', -1) else fmt_write_all ws' dev'
  end.

Definition fmt_blocks (total : Z) : list (nat * Z * list Z) :=
  let in_group := fmt_blocks_in_group total in
  let inodes := fmt_inodes in_group in
  let table_blocks := fmt_table_blocks inodes in
  let overhead := fmt_overhead table_blocks in
  let free_blocks := in_group - overhead in
  [(0%nat, blk_sb, fmt_superblock total in_group inodes free_blocks);
   (1%nat, blk_gdt, fmt_group_desc inodes free_blocks);
   (2%nat, blk_bb, fmt_block_bitmap in_group overhead);
   (3%nat, blk_ib, fmt_inode_bitmap inodes)]
  ++ map (fun i => (4%nat, blk_inode_tbl + i, slice (i * FMT_BLOCK_SIZE) FMT_BLOCK_SIZE (fmt_inode_table table_blocks)))
         (seqZ 0 table_blocks)
  ++ [(5%nat, blk_root_dir table_blocks, fmt_root_dir)].

Definition ext2_format (dev : D) : D * Z :=
  let total := fmt_total_blocks (u64 (dev_sector_count dev * dev_sector_size dev)) in
  if total <? 16 then (dev, -1)
  else
    let in_group := fmt_blocks_in_group total in
    if in_group <? fmt_overhead (fmt_table_blocks (fmt_inodes in_group)) then (dev, -1)
    else fmt_write_all (fmt_blocks total) dev.
End format.
