(* ===== verification/Ext2Format.v ===== *)
(** * A formatted device can be mounted (src/kernel/mkfs/ext2_format.c and
    [ext2_mount] of src/kernel/drivers/fs/ext/ext2.c)

    What [ext2_format] writes is a file system for which the invariants of the
    driver hold once [ext2_mount] has read it back: the starting point of every
    theorem about the driver. *)

From S2P Require Import Prelude Bytes StateMonad BlockDev Ext2Cache Ext2 Ext2Inv Ext2Alloc Ext2File Mkfs.

(** ** Bitmaps *)
Lemma length_bitmap_fill from to bm : length (bitmap_fill from to bm) = length bm.
Proof.
  unfold bitmap_fill. generalize (Z.to_nat (to - from)) as k. intros k. revert from bm.
  induction k as [|k IH]; intros from bm; [done|]. cbn [for_range]. rewrite IH. apply length_write_at.
Qed.

Lemma bytes_bitmap_fill from to bm : bytes_ok bm -> bytes_ok (bitmap_fill from to bm).
Proof.
  unfold bitmap_fill. generalize (Z.to_nat (to - from)) as k. intros k. revert from bm.
  induction k as [|k IH]; intros from bm Hb; [done|]. cbn [for_range]. apply IH.
  apply bytes_write_at; [done|]. repeat constructor; apply u8_range.
Qed.

Lemma test_bitmap_fill from to bm j :
  0 <= from -> to <= 8 * Z.of_nat (length bm) ->
  ext2_test_bit (bitmap_fill from to bm) j = bool_decide (from <= j < to) || ext2_test_bit bm j.
Proof.
  unfold bitmap_fill. remember (Z.to_nat (to - from)) as k eqn:Ek. revert from bm Ek.
  induction k as [|k IH]; intros from bm Ek Hf Ht; cbn [for_range].
  - by rewrite bool_decide_false by lia.
  - assert (Hset : forall i, ext2_test_bit (bitmap_set from bm) i = (i =? from) || ext2_test_bit bm i).
    { intros i. apply (test_set_bit bm from). lia. }
    rewrite IH, Hset by (rewrite ?length_write_at; unfold bitmap_set; rewrite ?length_write_at; lia).
    destruct (Z.eqb_spec j from) as [->|Hne].
    + rewrite (bool_decide_true (from <= from < to)) by lia. by rewrite orb_true_r.
    + f_equal. apply bool_decide_ext. lia.
Qed.

(** ** Writing the blocks *)
Section blocks.
Context {D : Type} `{!BlockDevice D} `{!BlockDeviceLaws D} (kmalloc_ok : nat -> bool).
Context (HR : Reliable D) (Hk : memory_left kmalloc_ok).

Definition block_of (c : list Z) (b : Z) : list Z := slice (b * FMT_BLOCK_SIZE) FMT_BLOCK_SIZE c.

(** What block [b] is after the writes. *)
Definition last_written (ws : list (nat * Z * list Z)) (b : Z) (old : list Z) : list Z :=
  fold_left (fun acc w => if decide (snd (fst w) = b) then snd w else acc) ws old.

Definition write_ok (size : Z) (w : nat * Z * list Z) : Prop :=
  0 <= snd (fst w) < 2 ^ 31 /\ (snd (fst w) + 1) * FMT_BLOCK_SIZE <= size /\
  Z.of_nat (length (snd w)) = FMT_BLOCK_SIZE /\ bytes_ok (snd w).

Lemma fmt_write_all_spec ws : forall d,
  dev_ok d -> dev_sector_size d = 512 -> Forall (write_ok (Z.of_nat (length (contents d)))) ws ->
  exists d', fmt_write_all kmalloc_ok ws d = (d', 0) /\ dev_ok d' /\ dev_sector_size d' = 512 /\
    length (contents d') = length (contents d) /\
    forall b, 0 <= b -> block_of (contents d') b = last_written ws b (block_of (contents d) b).
Proof.
  induction ws as [|[[k blk] data] ws IH]; intros d Hd Hss Hws; cbn [fmt_write_all].
  { exists d. done. }
  inversion Hws as [|? ? (Hblk & Hfit & Hlen & Hb) Hrest]; subst. cbn [fst snd] in *.
  rewrite (Hk k). cbn [negb]. unfold FMT_BLOCK_SIZE in *.
  destruct (fmt_write_block blk data d) as [d1 ok] eqn:E. unfold fmt_write_block, FMT_SECTORS_PER_BLOCK in E.
  assert (ok = true) as ->.
  { eapply write_goes_through; [exact Hd| | |rewrite Hss|exact E]; lia. }
  destruct (law_write (blk * 2) 2 data d d1 true Hd ltac:(lia) ltac:(lia) ltac:(rewrite Hss; lia) Hb E) as (Hd1 & Hs1 & _ & Hc1).
  rewrite Hss in Hc1. cbn [negb].
  assert (length (contents d1) = length (contents d)) as Hl1 by (rewrite Hc1; apply length_write_at).
  destruct (IH d1 Hd1 ltac:(congruence)) as (d' & E' & Hd' & Hs' & Hl' & Hb'); [by rewrite Hl1|].
  exists d'. split_and!; [done|done|done|congruence|]. intros b Hb0. rewrite Hb' by done. unfold last_written.
  cbn [fold_left fst snd]. f_equal. rewrite Hc1. unfold block_of, FMT_BLOCK_SIZE. case_decide as Eb.
  - subst blk. replace (b * 2 * 512) with (b * 1024) by lia.
    replace (slice (b * 1024) 1024) with (slice (b * 1024) (Z.of_nat (length data))) by (by rewrite Hlen).
    apply slice_write_at_eq; lia.
  - apply slice_write_at_out; lia.
Qed.

Lemma last_written_app ws ws' b old :
  last_written (ws ++ ws') b old = last_written ws' b (last_written ws b old).
Proof. apply fold_left_app. Qed.

Lemma last_written_other ws b old : (forall w, w ∈ ws -> snd (fst w) <> b) -> last_written ws b old = old.
Proof.
  revert old. induction ws as [|w ws IH]; intros old H; [done|]. unfold last_written. cbn [fold_left].
  rewrite decide_False by (apply H; by left). apply IH. intros w' Hw'. apply H. by right.
Qed.
End blocks.

(** Bytes stored in a cleared buffer. *)
Lemma bytes_stores_zeros ws n : Forall (fun w => bytes_ok (snd w)) ws -> bytes_ok (stores ws (zeros n)).
Proof.
  intros Hws. unfold stores. assert (Hz : bytes_ok (zeros n)) by apply bytes_zeros. revert Hz. generalize (zeros n).
  induction Hws as [|w ws Hw _ IH]; intros z Hz; [done|]. cbn [fold_left]. by apply IH, bytes_write_at.
Qed.

Ltac stores_bytes :=
  apply bytes_stores_zeros; unfold entry_stores; cbn [app];
  repeat (apply List.Forall_cons; [cbn [snd]; first [apply bytes_le16|apply bytes_le32|repeat constructor; (apply u8_range || lia)]|]);
  apply List.Forall_nil.

(** ** The numbers of the layout *)
Section numbers.
Context (total : Z) (Htotal : 16 <= total <= 8192).
Let in_group := fmt_blocks_in_group total.
Let inodes := fmt_inodes in_group.
Let tb := fmt_table_blocks inodes.

Lemma fmt_numbers :
  in_group = total - 1 /\ inodes = 8 * tb /\ 2 <= tb <= 257 /\ fmt_overhead tb = 5 + tb /\ 5 + tb <= in_group.
Proof.
  assert (in_group = total - 1) as Eg.
  { unfold in_group, fmt_blocks_in_group, FMT_FIRST_DATA_BLOCK, FMT_BLOCKS_PER_GROUP. rewrite u32_small by lia. lia. }
  assert (Z.land (in_group / 4 + 7) (Z.lnot 7) = 8 * ((in_group / 4 + 7) / 8)) as El.
  { change (Z.lnot 7) with (Z.lnot (Z.ones 3)). rewrite <- Z.ldiff_land, Z.ldiff_ones_r by lia.
    rewrite Z.shiftr_div_pow2, Z.shiftl_mul_pow2 by lia. change (2 ^ 3) with 8. ring. }
  assert (inodes = 8 * Z.max 2 ((in_group / 4 + 7) / 8)) as Ei.
  { unfold inodes, fmt_inodes, FMT_INODES_RATIO. rewrite El, Eg. zdiv_lia. }
  assert (tb = inodes / 8) as Et.
  { unfold tb, fmt_table_blocks, FMT_INODE_SIZE, FMT_BLOCK_SIZE. rewrite Ei. zdiv_lia. }
  unfold fmt_overhead. rewrite Et, Ei, Eg. split_and!; zdiv_lia.
Qed.

(** The fields [ext2_mount] and the driver read. *)
Let sb := fmt_superblock total in_group inodes (in_group - fmt_overhead tb).

Lemma length_fmt_superblock : Z.of_nat (length sb) = 1024.
Proof. unfold sb, fmt_superblock. by rewrite length_stores, length_zeros. Qed.

Lemma fmt_superblock_fields :
  s_inodes_count sb = inodes /\ s_blocks_count sb = total /\ s_first_data_block sb = 1 /\
  s_log_block_size sb = 0 /\ s_blocks_per_group sb = 8192 /\ s_inodes_per_group sb = inodes /\
  s_magic sb = EXT2_SUPER_MAGIC /\ s_inode_size sb = 128.
Proof.
  destruct fmt_numbers as (Eg & Ei & Ht & _ & Hfit).
  unfold s_inodes_count, s_blocks_count, s_first_data_block, s_log_block_size, s_blocks_per_group,
    s_inodes_per_group, s_magic, s_inode_size, sb, fmt_superblock, FMT_BLOCK_SIZE, FMT_BLOCKS_PER_GROUP.
  unfold stores. cbn [fold_left fst snd].
  split_and!;
    (repeat (rewrite get32_write_at_out by (rewrite ?length_le32, ?length_le16; lia));
     repeat (rewrite get16_write_at_out by (rewrite ?length_le32, ?length_le16; lia));
     (rewrite get32_write_at_in by (rewrite ?length_write_at, ?length_le32, ?length_zeros; lia);
      rewrite Z.sub_diag; apply get32_le32; (done || lia))
     || (rewrite get16_write_at_in by (rewrite ?length_write_at, ?length_le16, ?length_zeros; lia);
      rewrite Z.sub_diag; by apply get16_le16)).
Qed.

Let gd := slice 0 32 (fmt_group_desc inodes (in_group - fmt_overhead tb)).

Lemma length_fmt_group_desc : Z.of_nat (length gd) = 32.
Proof. unfold gd. rewrite length_slice by (try unfold fmt_group_desc; rewrite ?length_stores, ?length_zeros; unfold FMT_BLOCK_SIZE; lia). done. Qed.

Lemma fmt_group_desc_fields :
  bg_block_bitmap gd 0 = 3 /\ bg_inode_bitmap gd 0 = 4 /\ bg_inode_table gd 0 = 5.
Proof.
  unfold bg_block_bitmap, bg_inode_bitmap, bg_inode_table, gd, fmt_group_desc, DESC_SIZE, FMT_BLOCK_SIZE.
  rewrite !get32_slice by lia. unfold stores. cbn [fold_left fst snd].
  split_and!;
    (repeat (rewrite get32_write_at_out by (rewrite ?length_le32, ?length_le16; lia));
     rewrite get32_write_at_in by (rewrite ?length_write_at, ?length_le32, ?length_zeros; lia);
     rewrite Z.sub_diag; by apply get32_le32).
Qed.

Lemma bytes_fmt_blocks : bytes_ok sb /\ bytes_ok gd.
Proof.
  unfold sb, gd, fmt_superblock, fmt_group_desc, stores, FMT_BLOCK_SIZE. cbn [fold_left fst snd].
  split; auto 30 with kernel.
Qed.
End numbers.

(** The pointers and the size of the root directory. *)
Lemma fmt_table_fields n : 2 <= n < 2 ^ 20 ->
  get32 (fmt_inode_table n) 132 = 1024 /\
  forall x, 0 <= x < 15 -> get32 (fmt_inode_table n) (168 + 4 * x) = if decide (x = 0) then 5 + n else 0.
Proof.
  intros Hn. assert (Hlen : Z.of_nat (length (zeros (n * 1024))) = n * 1024) by (rewrite length_zeros; lia).
  unfold fmt_inode_table, fmt_root_inode, stores, blk_root_dir, FMT_BLOCK_SIZE. cbn [fold_left fst snd]. split.
  - repeat rewrite get32_write_at_out by (rewrite ?length_le32, ?length_le16; lia).
    rewrite get32_write_at_in by (rewrite ?length_write_at, ?length_le32, ?Hlen; lia).
    rewrite Z.sub_diag. by apply get32_le32.
  - intros x Hx. case_decide as E.
    + subst x. rewrite get32_write_at_in by (rewrite ?length_write_at, ?length_le32, ?Hlen; lia).
      apply get32_le32. lia.
    + repeat rewrite get32_write_at_out by (rewrite ?length_le32, ?length_le16; lia). apply get32_zeros.
Qed.

Lemma fmt_table_mode n : 2 <= n < 2 ^ 20 -> get16 (fmt_inode_table n) 128 = Z.lor EXT2_S_IFDIR 493.
Proof.
  intros Hn. assert (Hlen : Z.of_nat (length (zeros (n * 1024))) = n * 1024) by (rewrite length_zeros; lia).
  unfold fmt_inode_table, fmt_root_inode, stores, FMT_BLOCK_SIZE. cbn [fold_left fst snd].
  repeat rewrite get16_write_at_out by (rewrite ?length_le32, ?length_le16; lia).
  rewrite get16_write_at_in by (rewrite ?length_le16, ?Hlen; lia).
  rewrite Z.sub_diag. by apply get16_le16.
Qed.

(** ** The mounted file system *)
Section mounted.
Context {D : Type} `{!BlockDevice D} `{!BlockDeviceLaws D}.
Context (total : Z) (Htotal : 16 <= total <= 8192) (d : D).
Let in_group := fmt_blocks_in_group total.
Let inodes := fmt_inodes in_group.
Let tb := fmt_table_blocks inodes.
Let free_blocks := in_group - fmt_overhead tb.
Let sb := fmt_superblock total in_group inodes free_blocks.
Let gd := slice 0 32 (fmt_group_desc inodes free_blocks).

(** What a device holds after [ext2_format]. *)
Record formatted : Prop := {
  fd_ok : dev_ok d;
  fd_sector : dev_sector_size d = 512;
  fd_length : total * 1024 <= Z.of_nat (length (contents d));
  fd_super : block_of (contents d) 1 = sb;
  fd_desc : block_of (contents d) 2 = fmt_group_desc inodes free_blocks;
  fd_bitmap : block_of (contents d) 3 = fmt_block_bitmap in_group (fmt_overhead tb);
  fd_inodes : block_of (contents d) 4 = fmt_inode_bitmap inodes;
  fd_table : block_of (contents d) 5 = slice 0 1024 (fmt_inode_table tb);
  fd_root : block_of (contents d) (5 + tb) = fmt_root_dir
}.

Definition mounted : ext2_fs D := mkFs d sb gd 1024 128 1 1 [] 0 EXT2_CACHE_SIZE 4 false.

Context (Hd : formatted).

Lemma mounted_cache : cache_ok [] mounted.
Proof.
  split; cbn; try done.
  - apply Hd.
  - by rewrite (fd_sector Hd).
  - constructor.
  - intros h Hh. by apply not_elem_of_nil in Hh.
Qed.

Lemma mounted_view b : 0 <= b -> view mounted b = block_of (contents d) b.
Proof. intros Hb. unfold view. by destruct (Z.leb_spec 0 b); [|lia]. Qed.

Lemma mounted_valid b : 0 < b < total -> valid mounted b.
Proof.
  intros Hb. pose proof (fd_length Hd). unfold valid, addressable, on_disk, sectors_per_block. cbn.
  rewrite (fd_sector Hd). change (1024 / 512) with 2. lia.
Qed.

Lemma mounted_place i : 0 < i <= inodes ->
  inode_place mounted i = (5 + (i - 1) / 8, (i - 1) mod 8 * 128).
Proof.
  intros Hi. destruct (fmt_numbers total Htotal) as (_ & Ei & Ht & _). fold in_group inodes tb in Ei, Ht.
  destruct (fmt_superblock_fields total Htotal) as (_ & _ & _ & _ & _ & Eipg & _).
  fold in_group inodes tb free_blocks sb in Eipg.
  destruct (fmt_group_desc_fields total) as (_ & _ & Eit). fold in_group inodes tb free_blocks gd in Eit.
  unfold inode_place. cbn [mounted superblock group_desc inode_size block_size].
  rewrite Eipg, (Z.div_small (i - 1)), (Z.mod_small (i - 1)), Eit by lia.
  rewrite (u32_small ((i - 1) * 128)) by lia. rewrite u32_small by zdiv_lia.
  f_equal; [f_equal|]; zdiv_lia.
Qed.

Lemma mounted_inode_num i : 0 < i -> inode_num_ok mounted i = true -> i <= inodes.
Proof.
  intros Hi. destruct (fmt_superblock_fields total Htotal) as (E & _). fold in_group inodes tb free_blocks sb in E.
  unfold inode_num_ok. cbn [mounted superblock]. rewrite E. intros H.
  apply negb_true_iff, orb_false_iff in H as [_ H]. lia.
Qed.

Lemma mounted_bookkeeping b : bookkeeping mounted b <-> 2 <= b <= 4.
Proof.
  destruct (fmt_group_desc_fields total) as (E1 & E2 & _). fold in_group inodes tb free_blocks gd in E1, E2.
  unfold bookkeeping, desc_block. cbn [mounted first_data_block num_groups group_desc]. split.
  - intros [->|(g & Hg & Hb)]; [lia|]. assert (g = 0) as -> by lia. rewrite E1, E2 in Hb. lia.
  - intros Hb. destruct (decide (b = 2)) as [->|]; [by left|right]. exists 0. rewrite E1, E2. lia.
Qed.

Lemma mounted_in_groups n : in_groups mounted n <-> 1 <= n <= total /\ group_of mounted n = 0 /\ index_of mounted n = n - 1.
Proof.
  destruct (fmt_superblock_fields total Htotal) as (_ & Eb & _ & _ & Ebpg & _).
  fold in_group inodes tb free_blocks sb in Eb, Ebpg.
  unfold in_groups, group_of, index_of, blocks_in_group. cbn [mounted first_data_block num_groups superblock].
  rewrite Ebpg, Eb. split.
  - intros (H1 & H2 & H3). assert ((n - 1) / 8192 = 0) as E0 by lia. rewrite E0 in H3.
    change (0 =? 1 - 1) with true in H3. change (u32 (0 * 8192)) with 0 in H3. cbv iota in H3.
    rewrite u32_small in H3 by lia. zdiv_lia.
  - intros (H1 & -> & ->). change (0 =? 1 - 1) with true. change (u32 (0 * 8192)) with 0. cbv iota.
    rewrite u32_small by lia. lia.
Qed.

Lemma fmt_bitmap_bit i : 0 <= i < 8192 ->
  ext2_test_bit (fmt_block_bitmap in_group (fmt_overhead tb)) i = negb (bool_decide (5 + tb <= i < total - 1)).
Proof.
  intros Hi. destruct (fmt_numbers total Htotal) as (Eg & _ & Ht & Eo & Hfit). fold in_group inodes tb in Eg, Ht, Eo, Hfit.
  unfold fmt_block_bitmap, FMT_BLOCKS_PER_GROUP. rewrite !test_bitmap_fill
    by (rewrite ?length_bitmap_fill, ?length_zeros; unfold FMT_BLOCK_SIZE; lia).
  rewrite ext2_test_bit_spec, aget_zeros, Z.testbit_0_l, orb_false_r, Eo, Eg.
  rewrite <- bool_decide_or, <- bool_decide_not. apply bool_decide_ext. lia.
Qed.

(** The free blocks are those behind the root directory. *)
Lemma mounted_free n : block_free mounted n <-> 6 + tb <= n < total.
Proof.
  destruct (fmt_numbers total Htotal) as (_ & _ & Ht & _). fold in_group inodes tb in Ht.
  destruct (fmt_group_desc_fields total) as (E1 & _). fold in_group inodes tb free_blocks gd in E1.
  unfold block_free, block_bit. rewrite mounted_in_groups. cbn [mounted group_desc]. split.
  - intros [(Hn & -> & ->) Hb]. rewrite E1, mounted_view, (fd_bitmap Hd), fmt_bitmap_bit in Hb by lia.
    case_bool_decide; [lia|done].
  - intros Hn. assert (group_of mounted n = 0 /\ index_of mounted n = n - 1) as [-> ->].
    { destruct (fmt_superblock_fields total Htotal) as (_ & _ & _ & _ & Ebpg & _).
      fold in_group inodes tb free_blocks sb in Ebpg.
      unfold group_of, index_of. cbn [mounted first_data_block superblock]. rewrite Ebpg. split; zdiv_lia. }
    split; [lia|]. rewrite E1, mounted_view, (fd_bitmap Hd), fmt_bitmap_bit by lia.
    by rewrite bool_decide_true by lia.
Qed.

Lemma mounted_layout : layout mounted.
Proof.
  destruct (fmt_numbers total Htotal) as (Eg & Ei & Ht & Eo & Hfit). fold in_group inodes tb in Eg, Ei, Ht, Eo, Hfit.
  destruct (fmt_superblock_fields total Htotal) as (_ & Eb & _ & _ & Ebpg & Eipg & _).
  fold in_group inodes tb free_blocks sb in Eb, Ebpg, Eipg.
  destruct (fmt_group_desc_fields total) as (E1 & E2 & E3). fold in_group inodes tb free_blocks gd in E1, E2, E3.
  destruct (bytes_fmt_blocks total) as [Hsb Hgd]. fold in_group inodes tb free_blocks sb gd in Hsb, Hgd.
  assert (Hone : forall g, 0 <= g < 1 -> g = 0) by lia.
  split; cbn [mounted block_size first_data_block num_groups superblock group_desc]; rewrite ?Ebpg, ?Eipg.
  - split; [lia|reflexivity].
  - lia.
  - split; [lia|]. unfold DESC_SIZE. lia.
  - lia.
  - lia.
  - intros g ->%Hone. unfold blocks_in_group. cbn [mounted num_groups superblock]. rewrite Ebpg, Eb.
    change (0 =? 1 - 1) with true. change (u32 (0 * 8192)) with 0. cbv iota. rewrite u32_small by lia. lia.
  - split; [apply length_fmt_superblock|exact Hsb].
  - split; [apply length_fmt_group_desc|exact Hgd].
  - unfold desc_block. apply mounted_valid. cbn [mounted first_data_block]. lia.
  - intros g ->%Hone. rewrite E1, E2. unfold desc_block. cbn [mounted first_data_block].
    split_and!; (apply mounted_valid; lia) || lia.
  - intros g g' ->%Hone ->%Hone. rewrite E1, E2. lia.
  - intros i Hi Hok. pose proof (mounted_inode_num i Hi Hok). rewrite mounted_place, mounted_bookkeeping by lia.
    cbn [fst snd]. unfold INODE_BYTES. split_and!; [apply mounted_valid; zdiv_lia|zdiv_lia..].
  - intros i j Hi Hj Hi' Hj'. pose proof (mounted_inode_num i Hi Hi'). pose proof (mounted_inode_num j Hj Hj').
    rewrite !mounted_place by lia. cbn [fst snd]. unfold INODE_BYTES. zdiv_lia.
  - unfold desc_block. cbn [mounted first_data_block]. rewrite mounted_view by lia. change (1 + 1) with 2. rewrite (fd_desc Hd). reflexivity.
  - intros n Hn%mounted_free. rewrite mounted_bookkeeping. split_and!; [apply mounted_valid; lia|lia|].
    intros (i & Hi & Hok & E). pose proof (mounted_inode_num i Hi Hok). rewrite mounted_place in E by lia.
    cbn [fst] in E. zdiv_lia.
Qed.

(** The root directory: one block, the last before the free ones. *)
Lemma mounted_root_bytes o : 0 <= o -> o + 4 <= 128 ->
  get32 (inode_at mounted 2) o = get32 (fmt_inode_table tb) (128 + o).
Proof.
  intros Ho Ho4. destruct (fmt_numbers total Htotal) as (_ & Ei & Ht & _). fold in_group inodes tb in Ei, Ht.
  unfold inode_at. rewrite mounted_place by lia. change (5 + (2 - 1) / 8) with 5.
  change ((2 - 1) mod 8 * 128) with 128. cbn [fst snd]. rewrite mounted_view, (fd_table Hd) by lia.
  unfold INODE_BYTES. by rewrite !get32_slice by lia.
Qed.

Lemma mounted_root_mode : i_mode (inode_at mounted 2) = Z.lor EXT2_S_IFDIR 493.
Proof.
  destruct (fmt_numbers total Htotal) as (_ & Ei & Ht & _). fold in_group inodes tb in Ei, Ht.
  unfold inode_at, i_mode. rewrite mounted_place by lia. change (5 + (2 - 1) / 8) with 5.
  change ((2 - 1) mod 8 * 128) with 128. cbn [fst snd]. rewrite mounted_view, (fd_table Hd) by lia.
  unfold INODE_BYTES. rewrite !get16_slice by lia. apply fmt_table_mode. lia.
Qed.

Lemma mounted_root_inode :
  i_size (inode_at mounted 2) = 1024 /\
  forall x, 0 <= x < 15 -> i_block (inode_at mounted 2) x = if decide (x = 0) then 5 + tb else 0.
Proof.
  destruct (fmt_numbers total Htotal) as (_ & Ei & Ht & _). fold in_group inodes tb in Ei, Ht.
  destruct (fmt_table_fields tb ltac:(lia)) as [Es Eb]. unfold i_size, i_block. split.
  - rewrite mounted_root_bytes by lia. exact Es.
  - intros x Hx. rewrite mounted_root_bytes by lia. rewrite <- Eb by done. f_equal. lia.
Qed.

Lemma mounted_root_node q : valid_path 256 q ->
  node (view mounted) (inode_at mounted 2) q = if decide (q = [0]) then 5 + tb else 0.
Proof.
  destruct mounted_root_inode as [_ Hblk]. destruct q as [|x p]; [done|]. intros (Hx & Hlen & _). cbn [node].
  rewrite Hblk by done. destruct (decide (x = 0)) as [->|Hx0].
  - change (depth 0) with 0%nat in Hlen. destruct p; [done|cbn in Hlen; lia].
  - rewrite decide_False by congruence. apply walk_0.
Qed.

Lemma mounted_geometry : block_size mounted = 1024 /\ ptrs_per_block mounted = 256 /\ block_path mounted 0 = Some (0, []).
Proof. by split_and!. Qed.

Lemma mounted_root_tree : file_tree mounted (inode_at mounted 2).
Proof.
  destruct (fmt_numbers total Htotal) as (Eg & Ei & Ht & Eo & Hfit). fold in_group inodes tb in Eg, Ei, Ht, Eo, Hfit.
  assert (ptrs_per_block mounted = 256) as Ep by reflexivity. split; rewrite ?Ep.
  - apply (inode_at_ok []); [apply mounted_cache|apply mounted_layout|lia|].
    destruct (fmt_superblock_fields total Htotal) as (E & _). fold in_group inodes tb free_blocks sb in E.
    unfold inode_num_ok. cbn [mounted superblock]. rewrite E. destruct (Z.ltb_spec inodes 2); [lia|done].
  - intros q Hq. rewrite mounted_root_node by done. case_decide; [|done]. intros _. split_and!.
    + apply mounted_valid. lia.
    + rewrite mounted_bookkeeping. lia.
    + intros (i & Hi & Hok & E). pose proof (mounted_inode_num i Hi Hok). rewrite mounted_place in E by lia.
      cbn [fst] in E. zdiv_lia.
    + rewrite mounted_free. lia.
  - intros q q' Hq Hq'. rewrite !mounted_root_node by done. repeat case_decide; congruence.
Qed.

(** A file that has no block yet. *)
Lemma empty_tree (s : ext2_fs D) ino :
  inode_ok ino -> (forall x, 0 <= x < 15 -> i_block ino x = 0) -> file_tree s ino.
Proof.
  intros Hok Hz. assert (Hn : forall q, valid_path (ptrs_per_block s) q -> node (view s) ino q = 0).
  { intros [|x p]; [done|]. intros (Hx & _). cbn [node]. by rewrite Hz, walk_0. }
  split; [done| |].
  - intros q Hq. by rewrite Hn.
  - intros q q' Hq _. by rewrite Hn.
Qed.
End mounted.

Section format.
Context {D : Type} `{!BlockDevice D} `{!BlockDeviceLaws D} (kmalloc_ok : nat -> bool).
Context (HR : Reliable D) (Hk : memory_left kmalloc_ok).

(** A device of [total] blocks, which fit in one group. *)
Record formattable (total : Z) (d : D) : Prop := {
  fa_ok : dev_ok d;
  fa_sector : dev_sector_size d = 512;
  fa_count : dev_sector_count d * 512 = Z.of_nat (length (contents d));
  fa_total : total = Z.of_nat (length (contents d)) / 1024;
  fa_range : 16 <= total <= 8192
}.

Lemma fmt_blocks_ok total size : 16 <= total <= 8192 -> total * 1024 <= size ->
  Forall (write_ok size) (fmt_blocks total).
Proof.
  intros Ht Hsize. destruct (fmt_numbers total Ht) as (Eg & Ei & Htb & Eo & Hfit).
  destruct (bytes_fmt_blocks total) as [Hsb _].
  unfold fmt_blocks. apply Forall_app. split; [|apply Forall_app; split].
  - repeat apply List.Forall_cons; [..|apply List.Forall_nil]; unfold write_ok, FMT_BLOCK_SIZE, blk_sb, blk_gdt, blk_bb, blk_ib;
      cbn [fst snd]; (split; [lia|]); (split; [lia|]).
    + split; [apply length_fmt_superblock|exact Hsb].
    + split; [unfold fmt_group_desc; rewrite length_stores, length_zeros; done|].
      stores_bytes.
    + split; [unfold fmt_block_bitmap; rewrite !length_bitmap_fill, length_zeros; done|].
      apply bytes_bitmap_fill, bytes_bitmap_fill, bytes_zeros.
    + split; [unfold fmt_inode_bitmap; rewrite !length_bitmap_fill, length_zeros; done|].
      apply bytes_bitmap_fill, bytes_bitmap_fill, bytes_zeros.
  - apply list.Forall_forall. intros w (i & -> & Hi%elem_of_seqZ)%list_elem_of_fmap.
    unfold write_ok, FMT_BLOCK_SIZE, blk_inode_tbl. cbn [fst snd].
    split; [lia|]. split; [lia|]. split.
    + rewrite length_slice; [lia|lia|lia|]. unfold fmt_inode_table. rewrite length_stores, length_zeros.
      unfold FMT_BLOCK_SIZE. lia.
    + apply bytes_slice. stores_bytes.
  - repeat apply List.Forall_cons; [|apply List.Forall_nil]. unfold write_ok, FMT_BLOCK_SIZE, blk_root_dir.
    cbn [fst snd]. split; [lia|]. split; [lia|].
    split; [unfold fmt_root_dir; rewrite length_stores, length_zeros; done|].
    stores_bytes.
Qed.

(** What block [b] holds afterwards. *)
Lemma fmt_blocks_last total b old : 0 <= b ->
  let tb := fmt_table_blocks (fmt_inodes (fmt_blocks_in_group total)) in 1 <= tb ->
  last_written (fmt_blocks total) b old =
    if decide (b = 5 + tb) then fmt_root_dir
    else if decide (5 <= b < 5 + tb) then slice ((b - 5) * 1024) 1024 (fmt_inode_table tb)
    else last_written (take 4 (fmt_blocks total)) b old.
Proof.
  intros Hb tb Htb. unfold fmt_blocks. fold tb. rewrite !last_written_app. cbn [take].
  set (old' := last_written [_; _; _; _] b old).
  assert (Hroot : forall x, last_written [(5%nat, blk_root_dir tb, fmt_root_dir)] b x =
    if decide (b = 5 + tb) then fmt_root_dir else x).
  { intros x. unfold last_written, blk_root_dir. cbn [fold_left fst snd]. repeat case_decide; (done || lia). }
  rewrite Hroot. case_decide; [done|]. case_decide as E.
  - replace (seqZ 0 tb) with (seqZ 0 (b - 5) ++ [b - 5] ++ seqZ (b - 4) (5 + tb - b - 1)).
    + rewrite !map_app, !last_written_app. rewrite last_written_other.
      * unfold last_written. cbn [map fold_left fst snd]. unfold blk_inode_tbl, FMT_BLOCK_SIZE.
        by rewrite decide_True by lia.
      * intros w (i & -> & Hi%elem_of_seqZ)%list_elem_of_fmap. unfold blk_inode_tbl. cbn [fst snd]. lia.
    + replace tb with ((b - 5) + (1 + (5 + tb - b - 1))) at 2 by lia. rewrite !seqZ_app by lia. do 2 f_equal; f_equal; lia.
  - apply last_written_other. intros w (i & -> & Hi%elem_of_seqZ)%list_elem_of_fmap.
    unfold blk_inode_tbl. cbn [fst snd]. lia.
Qed.

Lemma format_spec total d : formattable total d ->
  exists d1, ext2_format kmalloc_ok d = (d1, 0) /\ formatted total d1.
Proof.
  intros [Hd Hss Hcount Htot Hr]. destruct (fmt_numbers total Hr) as (Eg & Ei & Htb & Eo & Hfit).
  assert (total * 1024 <= Z.of_nat (length (contents d)) < 2 ^ 32) as Hlen by zdiv_lia.
  destruct (fmt_write_all_spec kmalloc_ok HR Hk (fmt_blocks total) d Hd Hss) as (d1 & E & Hd1 & Hss1 & Hl1 & Hb1).
  { apply fmt_blocks_ok; [exact Hr|apply Hlen]. }
  exists d1. split.
  - unfold ext2_format. rewrite Hss, Hcount, u64_small by lia.
    assert (fmt_total_blocks (Z.of_nat (length (contents d))) = total) as ->.
    { unfold fmt_total_blocks, FMT_BLOCK_SIZE. rewrite <- Htot. apply u32_small. lia. }
    destruct (Z.ltb_spec total 16); [lia|]. cbv zeta.
    destruct (Z.ltb_spec (fmt_blocks_in_group total) (fmt_overhead (fmt_table_blocks (fmt_inodes (fmt_blocks_in_group total))))); [lia|].
    exact E.
  - split; [exact Hd1|exact Hss1|rewrite Hl1; lia|..]; rewrite Hb1, fmt_blocks_last by lia;
      [rewrite !decide_False by lia; reflexivity..| |].
    + rewrite decide_False by lia. rewrite decide_True by lia. reflexivity.
    + rewrite decide_True by lia. reflexivity.
Qed.

Lemma mount_spec total d : 16 <= total <= 8192 -> formatted total d ->
  exists d1, ext2_mount kmalloc_ok d = Some (d1, Some (mounted total d1)) /\ formatted total d1.
Proof.
  intros Hr Hf. pose proof Hf as [Hd Hss Hlen Hsb Hgd Hbm Hib Htab Hroot].
  destruct (fmt_superblock_fields total Hr) as (_ & Eb & Ef & El & Ebpg & _ & Em & Eis).
  unfold ext2_mount. rewrite !Hk, Hss. change (1024 / 512) with 2. cbn [negb].
  destruct (dev_read 2 2 d) as [d1 r] eqn:E1.
  destruct (law_read 2 2 d d1 r Hd ltac:(lia) ltac:(lia) E1) as (Hd1 & Hs1 & Hc1 & Hbuf).
  pose proof (read_goes_through 2 2 d d1 r Hd ltac:(lia) ltac:(lia) ltac:(rewrite Hss; lia) E1) as Hne.
  destruct r as [buf|]; [|destruct (Hne eq_refl)]. destruct (Hbuf buf eq_refl) as [_ Eb1].
  assert (slice 0 1024 buf = fmt_superblock total (fmt_blocks_in_group total) (fmt_inodes (fmt_blocks_in_group total))
    (fmt_blocks_in_group total - fmt_overhead (fmt_table_blocks (fmt_inodes (fmt_blocks_in_group total))))) as ->.
  { rewrite <- Hsb, Eb1, Hss. change (block_of (contents d) 1) with (slice (2 * 512) (2 * 512) (contents d)).
    apply slice_all. rewrite length_slice by lia. lia. }
  rewrite Em, Z.eqb_refl, El, Eis, Eb, Ebpg, Ef. cbn [negb].
  change (u32 (Z.shiftl 1024 0)) with 1024. change (128 =? 0) with false. cbv iota zeta.
  rewrite (u32_small (total + 8192)), (u32_small (total + 8192 - 1)) by lia.
  assert ((total + 8192 - 1) / 8192 = 1) as -> by zdiv_lia.
  set (s0 := mkFs _ _ _ _ _ _ _ _ _ _ _ _).
  unfold ext2_read_block, gets, modify, bind, ret. cbn [id].
  assert (sectors_per_block s0 = 2) as ->.
  { unfold sectors_per_block, s0. cbn [block_size device]. by rewrite Hs1, Hss. }
  change (u32 (u32 (first_data_block s0 + 1) * 2)) with 4. change (device s0) with d1.
  destruct (dev_read 4 2 d1) as [d2 r2] eqn:E2.
  destruct (law_read 4 2 d1 d2 r2 Hd1 ltac:(lia) ltac:(lia) E2) as (Hd2 & Hs2 & Hc2 & Hbuf2).
  pose proof (read_goes_through 4 2 d1 d2 r2 Hd1 ltac:(lia) ltac:(lia) ltac:(rewrite Hs1, Hss, Hc1; lia) E2) as Hne2.
  destruct r2 as [buf2|]; [|destruct (Hne2 eq_refl)]. destruct (Hbuf2 buf2 eq_refl) as [_ Eb2].
  assert (buf2 = fmt_group_desc (fmt_inodes (fmt_blocks_in_group total))
    (fmt_blocks_in_group total - fmt_overhead (fmt_table_blocks (fmt_inodes (fmt_blocks_in_group total))))) as ->.
  { by rewrite <- Hgd, Eb2, Hs1, Hss, Hc1. }
  exists d2. split; [reflexivity|]. by split; rewrite ?Hc2, ?Hc1, ?Hs2, ?Hs1.
Qed.

(** [ext2_format] and then [ext2_mount]: the file system that results. *)
Lemma format_mount total d : formattable total d ->
  exists d1 d2, ext2_format kmalloc_ok d = (d1, 0) /\
    ext2_mount kmalloc_ok d1 = Some (d2, Some (mounted total d2)) /\ formatted total d2.
Proof.
  intros Hf. destruct (format_spec total d Hf) as (d1 & E1 & H1).
  destruct (mount_spec total d1 (fa_range _ _ Hf) H1) as (d2 & E2 & H2). by exists d1, d2.
Qed.

(** C9: a device of 16 to 8192 blocks of 1 KiB can be formatted and mounted,
    and the mounted file system is well-formed: the cache agrees with the
    device, bitmaps, descriptors, inode tables and free blocks lie apart and
    inside the device, the root directory is inode 2 with one block that is not
    free, and exactly the blocks behind it are free. *)
Theorem format_mount_well_formed total d : formattable total d ->
  exists d1 d2 s, ext2_format kmalloc_ok d = (d1, 0) /\ ext2_mount kmalloc_ok d1 = Some (d2, Some s) /\
    cache_ok [] s /\ layout s /\ file_tree s (inode_at s EXT2_ROOT_INO) /\
    i_size (inode_at s EXT2_ROOT_INO) = block_size s /\
    view s (leaf_of s (inode_at s EXT2_ROOT_INO) 0) = fmt_root_dir /\
    forall n, block_free s n <-> leaf_of s (inode_at s EXT2_ROOT_INO) 0 < n < total.
Proof.
  intros Hf. destruct (format_mount total d Hf) as (d1 & d2 & E1 & E2 & Hd). pose proof (fa_range _ _ Hf) as Hr.
  assert (leaf_of (mounted total d2) (inode_at (mounted total d2) EXT2_ROOT_INO) 0
    = 5 + fmt_table_blocks (fmt_inodes (fmt_blocks_in_group total))) as El.
  { unfold leaf_of. change (block_path (mounted total d2) 0) with (Some (0, @nil Z)). cbv iota beta.
    unfold EXT2_ROOT_INO. by rewrite mounted_root_node. }
  destruct (fmt_numbers total Hr) as (_ & _ & Ht & _).
  exists d1, d2, (mounted total d2). rewrite El. split_and!.
  - exact E1.
  - exact E2.
  - by apply mounted_cache.
  - by apply mounted_layout.
  - by apply mounted_root_tree.
  - unfold EXT2_ROOT_INO. by rewrite (proj1 (mounted_root_inode total Hr d2 Hd)).
  - rewrite mounted_view by lia. apply Hd.
  - intros n. rewrite mounted_free by done. lia.
Qed.
End format.

(** ** An example: a disk of 48 sectors *)
Definition demo_disk : mem_disk := mkMem (mkDevice [] 48 512 0 0) (zeros (48 * 512)).

Lemma demo_formattable : formattable 24 demo_disk.
Proof.
  split; [|by vm_compute..|lia].
  split; [by vm_compute|by vm_compute|apply bytes_zeros|by vm_compute|by vm_compute].
Qed.

(** It with a file system. *)
Definition demo_mounted : ext2_fs mem_disk := mounted 24 (fst (ext2_format (fun _ => true) demo_disk)).

Lemma demo_formatted : formatted 24 (fst (ext2_format (fun _ => true) demo_disk)).
Proof.
  destruct (format_spec (fun _ => true) mem_disk_reliable (fun _ => eq_refl) 24 demo_disk demo_formattable) as (d1 & E & H).
  by rewrite E.
Qed.

Lemma format_mount_well_formed_witness :
  Z.of_nat (length (disk_data demo_disk)) = 24 * 1024 /\
  exists d1 d2 s, ext2_format (fun _ => true) demo_disk = (d1, 0) /\
    ext2_mount (fun _ => true) d1 = Some (d2, Some s) /\ cache_ok [] s /\ layout s /\ ~ block_free s 24.
Proof.
  split; [vm_compute; reflexivity|].
  destruct (format_mount_well_formed (fun _ => true) mem_disk_reliable (fun _ => eq_refl) 24 demo_disk demo_formattable)
    as (d1 & d2 & s & E1 & E2 & Hc & Hl & _ & _ & _ & Hfree).
  exists d1, d2, s. split; [exact E1|]. split; [exact E2|]. split; [exact Hc|]. split; [exact Hl|]. rewrite Hfree. lia.
Defined.
