(* ===== verification/Ext2Write.v ===== *)
(** * Writing to files of the ext2 driver (src/kernel/drivers/fs/ext/ext2.c)

    [ext2_write] as an update of the bytes of a file: what it stores, what it
    does not touch, and that [ext2_read] returns what was written. *)

From S2P Require Import Prelude Bytes StateMonad BlockDev Ext2Cache Ext2 Ext2Inv Ext2Alloc Ext2File.
From S2P Require Import Mkfs Ext2Format.

Section write.
Context {D : Type} `{!BlockDevice D} `{!BlockDeviceLaws D} (kmalloc_ok : nat -> bool).
Context (HR : Reliable D) (Hk : memory_left kmalloc_ok).
Abbreviation fs := (ext2_fs D).

(** ** Inodes that agree on their pointers *)

Definition same_pointers (ino ino' : list Z) : Prop :=
  forall i, 40 <= i < 100 -> aget 0 ino' i = aget 0 ino i.

Lemma same_pointers_node n v ino ino' q :
  same_pointers ino ino' -> valid_path n q -> node v ino' q = node v ino q.
Proof.
  intros Hi. destruct q as [|x p]; [done|]. intros (Hx & _). cbn [node]. f_equal. unfold i_block.
  apply get32_agree. intros k Hk4. apply Hi. lia.
Qed.

Lemma same_pointers_tree (s : fs) ino ino' :
  same_pointers ino ino' -> inode_ok ino' -> file_tree s ino -> file_tree s ino'.
Proof.
  intros Hi Hok [_ Hb Hinj]. split; [done| |].
  - intros q Hq. rewrite (same_pointers_node _ _ _ _ _ Hi Hq). by apply Hb.
  - intros q q' Hq Hq'. rewrite (same_pointers_node _ _ _ _ _ Hi Hq), (same_pointers_node _ _ _ _ _ Hi Hq'). by apply Hinj.
Qed.

Lemma same_pointers_byte (s : fs) ino ino' pos :
  layout s -> same_pointers ino ino' -> 0 <= pos -> file_byte s ino' pos = file_byte s ino pos.
Proof.
  intros Hl Hi Hpos. destruct (ly_block _ Hl) as [Hbs _].
  assert (0 <= pos / block_size s) as Hidx by (apply Z.div_pos; lia). unfold file_byte, leaf_of.
  destruct (block_path s (pos / block_size s)) as [[x p]|] eqn:E; [|done].
  destruct (block_path_valid s _ x p Hl Hidx E) as [Hv _]. by rewrite (same_pointers_node _ _ _ _ _ Hi Hv).
Qed.

Lemma set_size_ok v ino : inode_ok ino -> inode_ok (set_size v ino).
Proof.
  intros [Hl Hb]. split; [unfold set_size; by rewrite length_set32|].
  apply bytes_write_at; [done|apply bytes_le32].
Qed.

Lemma set_size_keeps v ino i : i < 4 \/ 8 <= i -> aget 0 (set_size v ino) i = aget 0 ino i.
Proof. intros Hi. unfold set_size, set32. apply aget_write_at_out; rewrite ?length_le32; lia. Qed.

Lemma i_size_set v ino : inode_ok ino -> 0 <= v < 2 ^ 32 -> i_size (set_size v ino) = v.
Proof.
  intros [Hl _] Hv. unfold i_size, set_size. unfold INODE_BYTES in Hl. by apply get32_set32_eq; [lia|lia|].
Qed.

(** ** What a write does *)

(** [data] was stored at the position of [file], which moved behind it. *)
Record wrote (s : fs) (file : ext2_file) (data : list Z) (s' : fs) (file' : ext2_file) : Prop := {
  wr_touched : touched s (f_inode file) s' (f_inode file');
  wr_num : f_inode_num file' = f_inode_num file;
  wr_dir : f_is_directory file' = f_is_directory file;
  wr_position : f_position file' = f_position file + Z.of_nat (length data);
  wr_size : i_size (f_inode file') =
    if decide (data = []) then i_size (f_inode file)
    else Z.max (i_size (f_inode file)) (f_position file + Z.of_nat (length data));
  wr_bytes : forall p, 0 <= p -> file_byte s' (f_inode file') p =
    if decide (f_position file <= p < f_position file + Z.of_nat (length data))
    then aget 0 data (p - f_position file) else file_byte s (f_inode file) p
}.

Lemma wrote_nil s file ino' s' :
  layout s -> grown s (f_inode file) s' ino' -> wrote s file [] s' (with_inode ino' file).
Proof.
  intros Hl Hg. split; cbn [with_inode f_inode f_inode_num f_is_directory f_position length]; try done.
  - exact (gr_touched _ _ _ _ Hg).
  - lia.
  - exact (gr_size _ _ _ _ Hg).
  - intros p Hp. rewrite decide_False by lia. by apply grown_bytes.
Qed.

Lemma wrote_app s file d1 s1 file1 d2 s2 file2 :
  wrote s file d1 s1 file1 -> wrote s1 file1 d2 s2 file2 -> wrote s file (d1 ++ d2) s2 file2.
Proof.
  intros A B. pose proof (wr_position _ _ _ _ _ A) as Ep. split.
  - eapply touched_trans; [exact (wr_touched _ _ _ _ _ A)|exact (wr_touched _ _ _ _ _ B)].
  - by rewrite (wr_num _ _ _ _ _ B), (wr_num _ _ _ _ _ A).
  - by rewrite (wr_dir _ _ _ _ _ B), (wr_dir _ _ _ _ _ A).
  - rewrite (wr_position _ _ _ _ _ B), Ep, length_app. lia.
  - rewrite (wr_size _ _ _ _ _ B), (wr_size _ _ _ _ _ A), Ep, length_app.
    destruct d1 as [|x d1]; [destruct d2; simpl; repeat case_decide; try done; lia|].
    destruct d2 as [|y d2]; simpl; repeat case_decide; try done; lia.
  - intros p Hp. rewrite (wr_bytes _ _ _ _ _ B), (wr_bytes _ _ _ _ _ A), Ep, length_app by done.
    destruct (decide (f_position file <= p < f_position file + Z.of_nat (length d1))) as [H1|H1].
    + rewrite decide_False by lia. rewrite decide_True by lia. symmetry. apply aget_app_l. lia.
    + destruct (decide (f_position file + Z.of_nat (length d1) <= p < f_position file + Z.of_nat (length d1) + Z.of_nat (length d2))) as [H2|H2].
      * rewrite decide_True by lia. rewrite aget_app_r by lia. f_equal. lia.
      * by rewrite decide_False by lia.
Qed.

(** A chunk stored in one block. *)
Lemma stored_wrote s file ino1 s1 s2 idx off src ino2 :
  layout s -> grown s (f_inode file) s1 ino1 -> 0 <= idx -> leaf_of s1 ino1 idx <> 0 ->
  Z.of_nat (length (view s1 (leaf_of s1 ino1 idx))) = block_size s1 ->
  0 <= off -> off + Z.of_nat (length src) <= block_size s1 -> 0 < Z.of_nat (length src) -> same_fs s1 s2 ->
  (forall c, view s2 c = if decide (c = leaf_of s1 ino1 idx) then write_at (view s1 (leaf_of s1 ino1 idx)) off src else view s1 c) ->
  f_position file = idx * block_size s1 + off ->
  let next := f_position file + Z.of_nat (length src) in next < 2 ^ 32 ->
  ino2 = (if i_size ino1 <? next then set_size next ino1 else ino1) ->
  wrote s file src s2 (seek_to next (with_inode ino2 file)).
Proof.
  intros Hl Hg Hidx Hb Hlen Hoff Hfit Hpos Hs Hv Ep next Hnext Eino.
  pose proof (tc_layout _ _ _ _ Hg) as Hl1. pose proof (tc_tree _ _ _ _ Hg) as Ht1.
  pose proof (ft_inode _ _ Ht1) as Hok1. destruct (ly_block _ Hl1) as [Hbs _].
  destruct (data_stored s1 ino1 idx off src s2 Hl1 Ht1 Hidx Hb Hlen Hoff Hfit Hs Hv) as (Hl2 & Hfree & Hnode & Ht2 & Hbyte).
  assert (Hkeep : forall i, i < 4 \/ 8 <= i -> aget 0 ino2 i = aget 0 ino1 i).
  { intros i Hi. rewrite Eino. destruct (i_size ino1 <? next); [|done]. by apply set_size_keeps. }
  assert (Hsp : same_pointers ino1 ino2) by (intros i Hi; apply Hkeep; lia).
  assert (Hok2 : inode_ok ino2) by (rewrite Eino; destruct (i_size ino1 <? next); [by apply set_size_ok|done]).
  pose proof (same_geom _ _ Hs) as G2.
  split; cbn [seek_to with_inode f_inode f_inode_num f_is_directory f_position]; try done.
  - eapply touched_trans; [exact (gr_touched _ _ _ _ Hg)|]. split; try done.
    + by eapply same_pointers_tree.
    + intros m. apply Hfree.
    + intros q Hq _. by rewrite (same_pointers_node _ _ _ _ _ Hsp Hq), Hnode.
    + intros q Hq. by rewrite (same_pointers_node _ _ _ _ _ Hsp Hq), Hnode.
    + intros c Hc Hf Hno. rewrite Hv. case_decide as E; [|done]. exfalso. unfold leaf_of in *.
      destruct (block_path s1 idx) as [[x p]|] eqn:Epath; [|done].
      destruct (block_path_valid s1 idx x p Hl1 Hidx Epath) as [Hvp _]. by apply (Hno (x :: p)).
    + intros i Hi. apply Hkeep. lia.
  - rewrite Eino, <- (gr_size _ _ _ _ Hg). rewrite decide_False by (intros ->; cbn in Hpos; lia).
    fold next. destruct (Z.ltb_spec (i_size ino1) next); [|lia]. rewrite i_size_set; [lia|done|lia].
  - intros p Hp. rewrite (same_pointers_byte s2 ino1 ino2 p Hl2 Hsp Hp), Hbyte by done. rewrite <- Ep.
    rewrite (grown_bytes s (f_inode file) s1 ino1 p Hl Hp Hg). done.
Qed.

(** ** What a write leaves alone *)

Lemma unchanged_tree (s s' : fs) ino :
  layout s -> geom s s' -> (forall m, block_free s' m -> block_free s m) -> file_tree s ino ->
  (forall q, valid_path (ptrs_per_block s) q -> node (view s) ino q <> 0 ->
     view s' (node (view s) ino q) = view s (node (view s) ino q)) ->
  file_tree s' ino /\ (forall pos, 0 <= pos -> file_byte s' ino pos = file_byte s ino pos) /\
  forall q, valid_path (ptrs_per_block s) q -> node (view s') ino q = node (view s) ino q.
Proof.
  intros Hl G Hfree [Hi Hb Hinj] Hv. destruct (ly_block _ Hl) as [Hbs _].
  assert (Hnode : forall q, valid_path (ptrs_per_block s) q -> node (view s') ino q = node (view s) ino q).
  { intros q. induction q as [|i q IH] using rev_ind; [done|]. intros Hq. destruct q as [|y q]; [done|].
    set (q0 := y :: q) in *. assert (q0 <> []) as Hne by done.
    destruct (valid_prefix _ _ _ Hq Hne) as (Hq0 & _). specialize (IH Hq0). rewrite !node_snoc, IH by done.
    destruct (Z.eqb_spec (node (view s) ino q0) 0); [done|]. by rewrite Hv. }
  split_and!; [split; rewrite ?(geom_ptrs s s' G); [done| |]| |done].
  - intros q Hq. rewrite Hnode by done. intros Hq0. destruct (Hb q Hq Hq0) as (A & B & C & E).
    split_and!; [by apply (geom_valid s s' G)|by rewrite (geom_bookkeeping s s' G)
      |by rewrite (geom_in_table s s' G)|by intros F; apply E, Hfree].
  - intros q q' Hq Hq'. rewrite !Hnode by done. by apply Hinj.
  - intros pos Hpos. unfold file_byte, leaf_of. rewrite (ge_block _ _ G), (geom_block_path s s' G).
    assert (0 <= pos / block_size s) as Hidx by (apply Z.div_pos; lia).
    destruct (block_path s (pos / block_size s)) as [[x p]|] eqn:E; [|done].
    destruct (block_path_valid s _ x p Hl Hidx E) as [Hvp _]. rewrite Hnode by done. cbv zeta.
    destruct (Z.eqb_spec (node (view s) ino (x :: p)) 0); [done|]. by rewrite Hv.
Qed.

(** Files that share no block. *)
Definition apart (s : fs) (ino ino2 : list Z) : Prop :=
  forall q q', valid_path (ptrs_per_block s) q -> valid_path (ptrs_per_block s) q' ->
    node (view s) ino q <> 0 -> node (view s) ino q <> node (view s) ino2 q'.

Lemma touched_other s ino s' ino' ino2 :
  layout s -> touched s ino s' ino' -> file_tree s ino2 -> apart s ino ino2 ->
  file_tree s' ino2 /\ forall pos, 0 <= pos -> file_byte s' ino2 pos = file_byte s ino2 pos.
Proof.
  intros Hl Ht Ht2 Ha. enough (file_tree s' ino2 /\ (forall pos, 0 <= pos -> file_byte s' ino2 pos = file_byte s ino2 pos) /\
    forall q, valid_path (ptrs_per_block s) q -> node (view s') ino2 q = node (view s) ino2 q) as (? & ? & _) by done.
  apply unchanged_tree; [done|apply Ht|apply Ht|done|].
  intros q Hq Hq0. destruct (ft_block _ _ Ht2 q Hq Hq0) as (_ & A & _ & B).
  apply (tc_view _ _ _ _ Ht); [done|done|]. intros q' Hq' E. apply (Ha q' q Hq' Hq); congruence.
Qed.

Lemma touched_inode s ino s' ino' i :
  layout s -> touched s ino s' ino' -> file_tree s ino -> 0 < i -> inode_num_ok s i = true ->
  inode_at s' i = inode_at s i.
Proof.
  intros Hl Ht Hf Hi Hok. destruct (ly_table _ Hl i Hi Hok) as (_ & Hb & _).
  assert (in_table s (fst (inode_place s i))) as Htab by by exists i.
  unfold inode_at. rewrite (geom_inode_place s s' (tc_geom _ _ _ _ Ht)).
  f_equal. apply (tc_view _ _ _ _ Ht); [done| |].
  - intros Hfree. by apply (ly_free _ Hl) in Hfree as (_ & _ & ?).
  - intros q Hq E. destruct (decide (node (view s) ino q = 0)) as [E0|E0].
    + destruct (ly_table _ Hl i Hi Hok) as ((? & _) & _). lia.
    + by destruct (ft_block _ _ Hf q Hq E0) as (_ & _ & Hnt & _); rewrite E in Hnt.
Qed.

Lemma written_tree s i x s' ino :
  layout s -> inode_written i x s s' -> file_tree s ino ->
  file_tree s' ino /\ (forall pos, 0 <= pos -> file_byte s' ino pos = file_byte s ino pos) /\
  forall q, valid_path (ptrs_per_block s) q -> node (view s') ino q = node (view s) ino q.
Proof.
  intros Hl Hw Ht. apply unchanged_tree; [done|apply same_geom, Hw|intros m; apply (iw_free _ _ _ _ Hw)|done|].
  intros q Hq Hq0. apply (iw_view _ _ _ _ Hw). by apply (ft_block _ _ Ht).
Qed.

(** Where a write stops: at a block that is missing and cannot be had. *)
Definition stopped (H : list Z) (s' : fs) (file' : ext2_file) : Prop :=
  let idx := f_position file' / block_size s' in
  stepped H 0 s' /\ leaf_of s' (f_inode file') idx = 0 /\ no_space s' idx.

(** ** The loop *)

Lemma write_step_spec H s buffer w file :
  cache_ok H s -> layout s -> room 2 H s -> file_tree s (f_inode file) -> 0 <= f_position file ->
  0 <= w < Z.of_nat (length buffer) -> bytes_ok buffer ->
  f_position file + (Z.of_nat (length buffer) - w) < 2 ^ 32 ->
  wp (write_step kmalloc_ok buffer (w, file)) (fun r s' =>
    match r with
    | inl (w', file') => cache_ok H s' /\ w < w' <= Z.of_nat (length buffer) /\
        wrote s file (slice w (w' - w) buffer) s' file'
    | inr (code, file') => code = EXT2_ERROR_NO_SPACE /\ stopped H s' file' /\ wrote s file [] s' file'
    end) s.
Proof.
  intros Hc Hl Hroom Ht Hpos Hw Hbuf Hmax. unfold write_step. wp_steps. cbn [id].
  destruct (Z.ltb_spec w (Z.of_nat (length buffer))) as [_|]; [|lia]. cbn [negb].
  destruct (ly_block _ Hl) as [Hbs _].
  pose proof (Z.mod_pos_bound (f_position file) (block_size s) ltac:(lia)) as Hm.
  pose proof (Z.div_mod (f_position file) (block_size s) ltac:(lia)) as Hdm.
  assert (0 <= f_position file / block_size s <= f_position file) as Hi.
  { split; [apply Z.div_pos; lia|]. apply Z.div_le_upper_bound; nia. }
  rewrite (u32_small (f_position file / block_size s)) by lia.
  set (idx := f_position file / block_size s) in *. set (off := f_position file mod block_size s) in *.
  set (n := Z.min (Z.of_nat (length buffer) - w) (block_size s - off)).
  assert (0 < n <= Z.of_nat (length buffer) - w /\ n <= block_size s - off) as [Hn Hnb] by lia.
  wp_steps. wp_call get_block_num_spec; [exact HR|exact Hk|exact Hc|done|done|done|lia|].
  intros [b ino1] s1 (Hg & -> & Hst & Hno). pose proof (tc_geom _ _ _ _ Hg) as G.
  pose proof (tc_layout _ _ _ _ Hg) as Hl1. pose proof (tc_tree _ _ _ _ Hg) as Ht1.
  destruct (Z.eqb_spec (leaf_of s1 ino1 idx) 0) as [E|E].
  { wp_steps. rewrite E in Hst. split_and!; [done| |by apply wrote_nil].
    unfold stopped. cbn [with_inode f_inode f_position]. rewrite (ge_block _ _ G). fold idx. by auto. }
  destruct Hst as [Hc1|[? _]]; [|done].
  destruct (leaf_of_block H s1 ino1 idx Hc1 Hl1 Ht1 ltac:(lia) E) as ((Hbv & _) & Hlen & _).
  wp_steps. wp_call get_ok; [exact HR|exact Hk|exact Hc1|exact Hbv| |].
  { unfold room in *. rewrite (ge_max _ _ G). lia. }
  intros r s2 (-> & Hc2 & Hs2 & Hv2). wp_steps. rewrite <- wp_bind. rewrite (u64_small (f_position file + n)) by lia.
  assert (Z.of_nat (length (slice w n buffer)) = n) as Hsl by (rewrite length_slice; lia).
  wp_call writes_put_spec; [exact Hc2| |].
  { apply List.Forall_cons; [|apply List.Forall_nil]. split_and!; cbn [fst snd]; [lia| |by apply bytes_slice].
    rewrite Hsl, (sf_block _ _ Hs2), (ge_block _ _ G). lia. }
  intros _ s3 (Hc3 & Hs3 & Hv3). wp_steps. split_and!; [done|lia|lia|].
  replace (w + n - w) with n by lia. rewrite <- Hsl at 2.
  rewrite (u32_small (f_position file + n)) by lia. 
  eapply (stored_wrote s file ino1 s1 s3 idx off); rewrite ?Hsl, ?(ge_block _ _ G); try done; try lia.
  - by rewrite <- (ge_block _ _ G).
  - by eapply same_trans.
  - intros c. rewrite Hv3. cbn [stores fold_left fst snd]. by rewrite !Hv2.
Qed.

(** What the whole call did: [n] bytes were stored, and either that is all of
    them and the inode is in the table, or there is no block left. *)
Record write_done (H : list Z) (s : fs) (file : ext2_file) (buffer : list Z) (n r : Z) (s' : fs) (file' : ext2_file) : Prop := {
  wd_range : 0 <= n <= Z.of_nat (length buffer);
  wd_result : r = n /\ n = Z.of_nat (length buffer) /\ cache_ok H s' /\
                inode_at s' (f_inode_num file) = f_inode file'
              \/ r = EXT2_ERROR_NO_SPACE /\ n < Z.of_nat (length buffer) /\ stopped H s' file' /\
                inode_at s' (f_inode_num file) = inode_at s (f_inode_num file);
  wd_geom : geom s s';
  wd_layout : layout s';
  wd_tree : file_tree s' (f_inode file');
  wd_file : f_inode_num file' = f_inode_num file /\ f_is_directory file' = f_is_directory file /\
            f_position file' = f_position file + n;
  wd_size : i_size (f_inode file') =
    if decide (n = 0) then i_size (f_inode file) else Z.max (i_size (f_inode file)) (f_position file + n);
  wd_bytes : forall p, 0 <= p -> file_byte s' (f_inode file') p =
    if decide (f_position file <= p < f_position file + n) then aget 0 buffer (p - f_position file)
    else file_byte s (f_inode file) p;
  wd_nodes : forall q, valid_path (ptrs_per_block s) q -> node (view s) (f_inode file) q <> 0 ->
    node (view s') (f_inode file') q = node (view s) (f_inode file) q;
  wd_other : forall ino2, file_tree s ino2 -> apart s (f_inode file) ino2 ->
    file_tree s' ino2 /\ forall p, 0 <= p -> file_byte s' ino2 p = file_byte s ino2 p;
  wd_inodes : forall i, 0 <= i -> inode_num_ok s i = true -> i <> f_inode_num file -> inode_at s' i = inode_at s i
}.

Lemma wrote_done H s file buffer n s1 file1 :
  layout s -> file_tree s (f_inode file) -> 0 <= n < Z.of_nat (length buffer) ->
  wrote s file (slice 0 n buffer) s1 file1 -> 0 <= f_inode_num file -> inode_num_ok s (f_inode_num file) = true ->
  stopped H s1 file1 -> write_done H s file buffer n EXT2_ERROR_NO_SPACE s1 file1.
Proof.
  intros Hl Ht Hn Hw Hi Hok Hst. pose proof (inode_num_pos s _ Hi Hok) as Hpos.
  pose proof (wr_touched _ _ _ _ _ Hw) as Htc.
  assert (Z.of_nat (length (slice 0 n buffer)) = n) as Hlen by (rewrite length_slice; lia).
  split.
  - lia.
  - right. split_and!; [done|lia|done|]. by eapply touched_inode.
  - apply Htc.
  - apply Htc.
  - apply Htc.
  - rewrite (wr_num _ _ _ _ _ Hw), (wr_dir _ _ _ _ _ Hw), (wr_position _ _ _ _ _ Hw), Hlen. done.
  - rewrite (wr_size _ _ _ _ _ Hw), Hlen. destruct (slice 0 n buffer); cbn in Hlen; repeat case_decide; (done || lia).
  - intros p Hp. rewrite (wr_bytes _ _ _ _ _ Hw), Hlen by done. case_decide; [|done]. rewrite aget_slice by lia. done.
  - apply Htc.
  - intros ino2 Ht2 Ha. by eapply touched_other.
  - intros i Hi0 Hiok _. eapply touched_inode; try done. by apply (inode_num_pos s).
Qed.

(** All of it was stored, and then the inode was written. *)
Lemma wrote_all H s file buffer s1 file1 s' :
  layout s -> file_tree s (f_inode file) -> wrote s file buffer s1 file1 ->
  0 <= f_inode_num file -> inode_num_ok s (f_inode_num file) = true -> cache_ok H s' ->
  inode_written (f_inode_num file) (f_inode file1) s1 s' ->
  write_done H s file buffer (Z.of_nat (length buffer)) (Z.of_nat (length buffer)) s' file1.
Proof.
  intros Hl Ht Hw Hi Hok Hc Hiw. pose proof (wr_touched _ _ _ _ _ Hw) as Htc.
  pose proof (tc_geom _ _ _ _ Htc) as G. pose proof (tc_layout _ _ _ _ Htc) as Hl1.
  destruct (written_tree s1 _ _ s' (f_inode file1) Hl1 Hiw (tc_tree _ _ _ _ Htc)) as (Htree & Hbyte & Hnode).
  assert (Hat : forall i, 0 <= i -> inode_num_ok s i = true ->
    inode_at s' i = if decide (i = f_inode_num file) then f_inode file1 else inode_at s i).
  { intros i Hi0 Hiok. rewrite (iw_at _ _ _ _ Hiw) by (rewrite ?(geom_inode_num_ok s s1 G); done).
    case_decide; [done|]. eapply touched_inode; try done. by apply (inode_num_pos s). }
  split.
  - lia.
  - left. split_and!; [done|done|done|]. by rewrite Hat, decide_True.
  - eapply geom_trans; [exact G|]. apply same_geom, Hiw.
  - apply Hiw.
  - done.
  - by rewrite (wr_num _ _ _ _ _ Hw), (wr_dir _ _ _ _ _ Hw), (wr_position _ _ _ _ _ Hw).
  - rewrite (wr_size _ _ _ _ _ Hw). destruct buffer; cbn [length]; repeat case_decide; (done || lia).
  - intros p Hp. rewrite Hbyte by done. by apply (wr_bytes _ _ _ _ _ Hw).
  - intros q Hq Hq0. rewrite Hnode by (by rewrite (geom_ptrs s s1 G)). by apply (tc_nodes _ _ _ _ Htc).
  - intros ino2 Ht2 Ha. destruct (touched_other _ _ _ _ _ Hl Htc Ht2 Ha) as [Ht2' Hb2].
    destruct (written_tree s1 _ _ s' ino2 Hl1 Hiw Ht2') as (Ht3 & Hb3 & _). split; [done|].
    intros p Hp. by rewrite Hb3, Hb2.
  - intros i Hi0 Hiok Hne. by rewrite Hat, decide_False.
Qed.

Lemma write_spec H s file buffer :
  cache_ok H s -> layout s -> room 2 H s -> file_tree s (f_inode file) -> f_is_directory file = false ->
  0 <= f_inode_num file -> inode_num_ok s (f_inode_num file) = true -> 0 <= f_position file ->
  Z.of_nat (length buffer) < 2 ^ 31 -> f_position file + Z.of_nat (length buffer) < 2 ^ 32 -> bytes_ok buffer ->
  wp (ext2_write kmalloc_ok file buffer) (fun '(r, file') s' => exists n, write_done H s file buffer n r s' file') s.
Proof.
  intros Hc Hl Hroom Ht Hdir Hi Hok Hpos Hlen Hmax Hbuf. unfold ext2_write. rewrite Hdir.
  set (L := Z.of_nat (length buffer)) in *.
  set (I := fun (st : Z * ext2_file) (s1 : fs) =>
    cache_ok H s1 /\ 0 <= fst st <= L /\ wrote s file (slice 0 (fst st) buffer) s1 (snd st)).
  eapply (wp_iter (write_step kmalloc_ok buffer) I (fun st => Z.to_nat (L - fst st))).
  - split_and!; cbn [fst snd]; [done|lia|lia|]. replace (slice 0 0 buffer) with (@nil Z) by done.
    assert (file = with_inode (f_inode file) file) as E by by destruct file.
    rewrite E at 2. apply wrote_nil; [done|]. apply frame_grown; [apply frame_refl|done|done].
  - cbn [fst]. lia.
  - intros [w f1] s1 (Hc1 & Hw & Hwr). cbn [fst snd] in *.
    pose proof (wr_touched _ _ _ _ _ Hwr) as Htc. pose proof (tc_geom _ _ _ _ Htc) as G.
    assert (Z.of_nat (length (slice 0 w buffer)) = w) as Hsl by (rewrite length_slice; lia).
    pose proof (wr_position _ _ _ _ _ Hwr) as Ep. rewrite Hsl in Ep.
    destruct (decide (w < L)) as [Hlt|Hge].
    + wp_call (write_step_spec H); [exact Hc1|apply Htc| |apply Htc|lia|lia|done|lia|].
      { unfold room in *. by rewrite (ge_max _ _ G). }
      intros [[w' f']|[code f']] s2.
      * intros (Hc2 & Hw' & Hwr2). fold L in Hw'. split; [|cbn [fst]; lia].
        split_and!; cbn [fst snd]; [done|lia|lia|].
        rewrite <- (slice_app w w') by lia.
        by eapply wrote_app.
      * intros (-> & Hst & Hwr2). exists w. apply wrote_done; try done; try lia.
        rewrite <- (app_nil_r (slice 0 w buffer)). by eapply wrote_app.
    + assert (w = L) as -> by lia. unfold write_step. wp_steps. cbn [id]. fold L.
      destruct (Z.ltb_spec L L) as [|_]; [lia|]. cbn [negb]. wp_steps.
      rewrite (wr_num _ _ _ _ _ Hwr).
      wp_call write_inode_spec; [exact HR|exact Hk|exact Hc1|apply Htc| |exact Hi| |apply Htc|].
      { unfold room in *. rewrite (ge_max _ _ G). lia. }
      { by rewrite (geom_inode_num_ok s s1 G). }
      intros code s2 (Hc2 & _ & Hiw). wp_steps. rewrite int32_small by lia. exists L.
      rewrite slice_all in Hwr by done. by eapply wrote_all.
Qed.

(** C1: [ext2_write] updates the bytes of the file.  On a well-formed file
    system it always returns: either all of the buffer is stored from the
    position on and the inode in the table is the one of the file, or the disk
    is full, the result says so and a prefix is stored.  The size grows to the
    end of what was stored, every other byte of the file, every file that
    shares no block with it and every other inode are as before, and the
    structures of the file system stay well-formed. *)
Theorem ext2_write_updates H s file buffer :
  cache_ok H s -> layout s -> room 2 H s -> file_tree s (f_inode file) -> f_is_directory file = false ->
  0 <= f_inode_num file -> inode_num_ok s (f_inode_num file) = true -> 0 <= f_position file ->
  Z.of_nat (length buffer) < 2 ^ 31 -> f_position file + Z.of_nat (length buffer) < 2 ^ 32 -> bytes_ok buffer ->
  exists r file' s' n, ext2_write kmalloc_ok file buffer s = Some (r, file', s') /\ write_done H s file buffer n r s' file'.
Proof.
  intros Hc Hl Hroom Ht Hdir Hi Hok Hpos Hlen Hmax Hbuf.
  pose proof (write_spec H s file buffer Hc Hl Hroom Ht Hdir Hi Hok Hpos Hlen Hmax Hbuf) as Hw.
  apply wp_run in Hw as ([r file'] & s' & E & n & Hd). by exists r, file', s', n.
Qed.

(** What was written completely is read back after seeking to where it
    started. *)
Lemma written_reads_back H s file buffer r file' s1 :
  cache_ok H s1 -> room 2 H s -> 0 <= f_position file ->
  f_position file + Z.of_nat (length buffer) < 2 ^ 32 -> Z.of_nat (length buffer) < 2 ^ 31 ->
  write_done H s file buffer (Z.of_nat (length buffer)) r s1 file' -> f_is_directory file = false ->
  wp (ext2_read kmalloc_ok (seek_to (f_position file) file') (Z.of_nat (length buffer)))
    (fun r s2 => r = (Z.of_nat (length buffer), buffer, file') /\ frame s1 s2) s1.
Proof.
  intros Hc1 Hroom Hpos Hmax Hlen Hd Hdir.
  destruct (wd_file _ _ _ _ _ _ _ _ Hd) as (_ & Hdir' & Hp').
  pose proof (wd_geom _ _ _ _ _ _ _ _ Hd) as G.
  assert (room 1 H s1) as Hr1 by (unfold room in *; rewrite (ge_max _ _ G); lia).
  wp_call (read_spec kmalloc_ok HR Hk H); cbn [seek_to f_inode f_is_directory f_position];
    [exact Hc1|apply Hd|exact Hr1|apply Hd|congruence|lia|lia|].
  intros r2 s2 (_ & Hf & ->). split; [|done].
  assert (Hn : Z.max 0 (Z.min (Z.of_nat (length buffer)) (i_size (f_inode file') - f_position file)) = Z.of_nat (length buffer)).
  { rewrite (wd_size _ _ _ _ _ _ _ _ Hd). case_decide; lia. }
  rewrite Hn. f_equal; [f_equal|].
  - apply buf_ext; [rewrite length_file_bytes; lia|]. intros i Hil. rewrite length_file_bytes in Hil.
    rewrite aget_file_bytes, (wd_bytes _ _ _ _ _ _ _ _ Hd), decide_True by lia. f_equal. lia.
  - rewrite <- Hp'. by destruct file'.
Qed.

(** C11: what a complete [ext2_write] stored is what [ext2_read] returns after
    seeking back, whatever was in the file before. *)
Theorem write_then_read H s file buffer file' s1 :
  cache_ok H s -> layout s -> room 2 H s -> file_tree s (f_inode file) -> f_is_directory file = false ->
  0 <= f_inode_num file -> inode_num_ok s (f_inode_num file) = true -> 0 <= f_position file ->
  Z.of_nat (length buffer) < 2 ^ 31 -> f_position file + Z.of_nat (length buffer) < 2 ^ 32 -> bytes_ok buffer ->
  ext2_write kmalloc_ok file buffer s = Some (Z.of_nat (length buffer), file', s1) ->
  exists s2, ext2_read kmalloc_ok (seek_to (f_position file) file') (Z.of_nat (length buffer)) s1
             = Some (Z.of_nat (length buffer), buffer, file', s2) /\ frame s1 s2.
Proof.
  intros Hc Hl Hroom Ht Hdir Hi Hok Hpos Hlen Hmax Hbuf E.
  pose proof (wp_ran _ _ _ _ _ E (write_spec H s file buffer Hc Hl Hroom Ht Hdir Hi Hok Hpos Hlen Hmax Hbuf)) as (n & Hd).
  destruct (wd_result _ _ _ _ _ _ _ _ Hd) as [(Hn & _ & Hc1 & _)|(Hn & Hlt & _)];
    [|unfold EXT2_ERROR_NO_SPACE in Hn; lia].
  subst n. pose proof (written_reads_back H s file buffer _ file' s1 Hc1 Hroom Hpos Hmax Hlen Hd Hdir) as Hrd.
  apply wp_run in Hrd as (r & s2 & E2 & -> & Hf). by exists s2.
Qed.
End write.

(** ** An example: a freshly formatted disk *)
Definition mem (n : nat) : bool := true.
(** Inode 2 has one block; the position is 3. *)
Definition demo_file : ext2_file := mkFile 2 (inode_at demo_mounted 2) 3 false.
Definition demo_text : list Z := [104; 101; 108; 108; 111].

Lemma demo_tree : file_tree demo_mounted (f_inode demo_file).
Proof.
  cbn [demo_file f_inode]. unfold demo_mounted. refine (mounted_root_tree 24 _ _ demo_formatted). lia.
Qed.

Lemma demo_cache : cache_ok [] demo_mounted.
Proof. apply mounted_cache. apply demo_formatted. Qed.
Lemma demo_layout : layout demo_mounted.
Proof. apply mounted_layout; [lia|apply demo_formatted]. Qed.
Lemma demo_room : room 2 [] demo_mounted.
Proof. unfold room, demo_mounted. cbn [mounted max_cache_entries length]. unfold EXT2_CACHE_SIZE. lia. Qed.
Lemma demo_number : 0 <= f_inode_num demo_file.
Proof. cbn [demo_file f_inode_num]. lia. Qed.
Lemma demo_num_ok : inode_num_ok demo_mounted (f_inode_num demo_file) = true.
Proof. by vm_compute. Qed.

Lemma demo_geometry :
  block_size demo_mounted = 1024 /\ ptrs_per_block demo_mounted = 256 /\ block_path demo_mounted 0 = Some (0, []) /\
  node (view demo_mounted) (f_inode demo_file) [0] <> 0.
Proof.
  cbn [demo_file f_inode]. unfold demo_mounted.
  destruct (mounted_geometry 24 (fst (ext2_format (fun _ => true) demo_disk))) as (E1 & E2 & E3).
  split; [exact E1|]. split; [exact E2|]. split; [exact E3|].
  destruct (fmt_numbers 24 ltac:(lia)) as (_ & _ & Ht & _).
  rewrite (mounted_root_node 24 ltac:(lia) _ demo_formatted); [rewrite decide_True by reflexivity; lia|].
  split; [lia|]. by split; [cbn; lia|].
Qed.

Lemma demo_bytes : bytes_ok demo_text.
Proof. repeat constructor; lia. Qed.

Lemma demo_writes :
  exists file' s', ext2_write mem demo_file demo_text demo_mounted = Some (5, file', s').
Proof.
  assert (Hw : wp (ext2_write mem demo_file demo_text) (fun '(r, file') s' =>
    exists n, write_done [] demo_mounted demo_file demo_text n r s' file') demo_mounted).
  { apply (write_spec mem mem_disk_reliable (fun _ => eq_refl)); [exact demo_cache|exact demo_layout|exact demo_room
      |exact demo_tree|reflexivity|exact demo_number|exact demo_num_ok|..|exact demo_bytes];
      cbn [demo_file f_position demo_text length]; lia. }
  destruct (proj1 (wp_run _ _ _) Hw) as ([r file'] & s' & E & n & Hd). clear Hw. exists file', s'. rewrite E. clear E.
  destruct (wd_result _ _ _ _ _ _ _ _ Hd) as [(-> & -> & _)|(_ & Hn & (_ & Hleaf & _) & _)]; [reflexivity|]. exfalso.
  destruct (wd_file _ _ _ _ _ _ _ _ Hd) as (_ & _ & Hp). pose proof (wd_range _ _ _ _ _ _ _ _ Hd) as Hr.
  pose proof (wd_geom _ _ _ _ _ _ _ _ Hd) as G. cbn [demo_file f_position demo_text length] in Hp, Hn.
  destruct demo_geometry as (Ebs & Eptrs & Epath & Eroot).
  rewrite Hp, (ge_block _ _ G), Ebs in Hleaf. rewrite Z.div_small in Hleaf by lia.
  unfold leaf_of in Hleaf. rewrite (geom_block_path _ _ G), Epath in Hleaf.
  rewrite (wd_nodes _ _ _ _ _ _ _ _ Hd) in Hleaf; [exact (Eroot Hleaf)|rewrite Eptrs; split; [lia|by split; [cbn; lia|]]|exact Eroot].
Qed.

Lemma ext2_write_updates_witness :
  exists r file' s' n, ext2_write mem demo_file demo_text demo_mounted = Some (r, file', s') /\
    write_done [] demo_mounted demo_file demo_text n r s' file'.
Proof.
  apply (ext2_write_updates mem mem_disk_reliable (fun _ => eq_refl) [] demo_mounted demo_file demo_text).
  - exact demo_cache.
  - exact demo_layout.
  - exact demo_room.
  - exact demo_tree.
  - reflexivity.
  - exact demo_number.
  - exact demo_num_ok.
  - cbn [demo_file f_position]. lia.
  - cbn [demo_text length]. lia.
  - cbn [demo_file f_position demo_text length]. lia.
  - exact demo_bytes.
Defined.

Lemma write_then_read_witness :
  exists file' s1 s2, ext2_write mem demo_file demo_text demo_mounted = Some (5, file', s1) /\
    ext2_read mem (seek_to 3 file') 5 s1 = Some (5, [104; 101; 108; 108; 111], file', s2).
Proof.
  destruct demo_writes as (file' & s1 & E).
  destruct (write_then_read mem mem_disk_reliable (fun _ => eq_refl) [] demo_mounted demo_file demo_text file' s1) as (s2 & E2 & _).
  - exact demo_cache.
  - exact demo_layout.
  - exact demo_room.
  - exact demo_tree.
  - reflexivity.
  - exact demo_number.
  - exact demo_num_ok.
  - cbn [demo_file f_position]. lia.
  - cbn [demo_text length]. lia.
  - cbn [demo_file f_position demo_text length]. lia.
  - exact demo_bytes.
  - exact E.
  - exists file', s1, s2. split; [exact E|exact E2].
Defined.
