(* ===== verification/Ext2Dir.v ===== *)
(** * Directories of the ext2 driver (src/kernel/drivers/fs/ext/ext2.c)

    A directory as the list of entries its blocks hold, one block after the
    other.  [ext2_lookup] searches this list; [ext2_add_dir_entry] adds to it. *)

From S2P Require Import Prelude Bytes StateMonad BlockDev Ext2Cache Ext2 Ext2Inv Ext2Alloc Ext2File Mkfs Ext2Format Ext2Write.

(** ** The entries of a block *)
Record dentry := mkDentry { de_inode : Z; de_name : list Z; de_len : Z }.

(** The entry is stored at offset [o] of [d]. *)
Record stored_at (d : list Z) (o : Z) (e : dentry) : Prop := {
  sa_inode : d_inode d o = de_inode e;
  sa_name_len : d_name_len d o = Z.of_nat (length (de_name e));
  sa_name : d_name d o = de_name e;
  sa_len : d_rec_len d o = de_len e;
  sa_short : Z.of_nat (length (de_name e)) < 256;
  sa_fits : ALIGN_UP4 (8 + Z.of_nat (length (de_name e))) <= de_len e
}.

(** The entries [l] fill [d] from offset [o] to [stop]. *)
Fixpoint chain (d : list Z) (stop o : Z) (l : list dentry) : Prop :=
  match l with
  | [] => o = stop
  | e :: l' => stored_at d o e /\ o + de_len e <= stop /\ chain d stop (o + de_len e) l'
  end.

Lemma ALIGN_UP4_range x : 0 <= x < 2 ^ 31 -> x <= ALIGN_UP4 x <= x + 3 /\ ALIGN_UP4 x mod 4 = 0.
Proof.
  intros Hx. unfold ALIGN_UP4. change (Z.lnot 3) with (Z.lnot (Z.ones 2)).
  rewrite <- Z.ldiff_land, Z.ldiff_ones_r, Z.shiftr_div_pow2, Z.shiftl_mul_pow2 by lia. change (2 ^ 2) with 4.
  rewrite u32_small by zdiv_lia. zdiv_lia.
Qed.

Lemma stored_len d o e : stored_at d o e -> 8 + Z.of_nat (length (de_name e)) <= de_len e.
Proof. intros []. destruct (ALIGN_UP4_range (8 + Z.of_nat (length (de_name e)))); lia. Qed.

Lemma chain_stop d stop l : forall o, chain d stop o l -> o <= stop.
Proof.
  induction l as [|e l IH]; intros o; cbn [chain]; [lia|]. intros (He & Hs & _). pose proof (stored_len _ _ _ He). lia.
Qed.

Lemma chain_app d stop l1 l2 : forall o,
  chain d stop o (l1 ++ l2) <-> exists m, chain d m o l1 /\ chain d stop m l2.
Proof.
  induction l1 as [|e l1 IH]; intros o; cbn [app chain].
  - split; [intros H; by exists o|]. by intros (m & -> & H).
  - rewrite IH. split.
    + intros (He & Hs & m & H1 & H2). exists m. split_and!; try done. by apply chain_stop in H1.
    + intros (m & (He & Hs & H1) & H2). apply chain_stop in H2 as Hm. split_and!; [done|lia|]. by exists m.
Qed.

(** Entries are where they are read from. *)
Lemma stored_agree d d' o e :
  length d' = length d -> 0 <= o -> o + de_len e <= Z.of_nat (length d) ->
  (forall i, o <= i < o + de_len e -> aget 0 d' i = aget 0 d i) -> stored_at d o e -> stored_at d' o e.
Proof.
  intros Hl Ho Hfit Hi He. pose proof (stored_len _ _ _ He) as Hlen. destruct He as [E1 E2 E3 E4 Hshort Hf].
  assert (d_name_len d' o = d_name_len d o) as En by (apply Hi; lia).
  split; try done.
  - rewrite <- E1. apply get32_agree. intros k Hk. apply Hi. lia.
  - by rewrite En.
  - rewrite <- E3. unfold d_name. rewrite En. apply buf_ext.
    + rewrite E2 in *. apply Nat2Z.inj. rewrite !length_slice by lia. done.
    + intros i Hil. rewrite E2 in *. rewrite length_slice in Hil by lia. rewrite !aget_slice by lia. apply Hi. lia.
  - rewrite <- E4. apply get16_agree. intros k Hk. apply Hi. lia.
Qed.

Lemma chain_agree d d' stop l : forall o,
  length d' = length d -> 0 <= o -> stop <= Z.of_nat (length d) ->
  (forall i, o <= i < stop -> aget 0 d' i = aget 0 d i) -> chain d stop o l -> chain d' stop o l.
Proof.
  induction l as [|e l IH]; intros o Hl Ho Hstop Hi; cbn [chain]; [done|]. intros (He & Hs & Hc).
  pose proof (stored_len _ _ _ He). split_and!; [|done|].
  - apply (stored_agree d); [done|done|lia| |done]. intros i Hio. apply Hi. lia.
  - apply IH; [done|lia|done| |done]. intros i Hio. apply Hi. lia.
Qed.

(** What the code compares: an entry in use with this name. *)
Definition named_entry (nm : list Z) (e : dentry) : bool := negb (de_inode e =? 0) && bool_decide (de_name e = nm).

Lemma is_entry_stored d o e nm : stored_at d o e -> is_entry d o nm = named_entry nm e.
Proof.
  intros [E1 E2 E3 _ _ _]. unfold is_entry, named_entry. rewrite E1, E2, E3. destruct (de_inode e =? 0); [done|].
  cbn [negb andb]. case_bool_decide as E; [|by rewrite andb_false_r]. rewrite E. by rewrite Z.eqb_refl.
Qed.

(** The inode a name stands for. *)
Definition find_name (nm : list Z) (l : list dentry) : option Z :=
  match find (named_entry nm) l with Some e => Some (de_inode e) | None => None end.

Lemma find_name_cons nm e l :
  find_name nm (e :: l) = if named_entry nm e then Some (de_inode e) else find_name nm l.
Proof. unfold find_name. cbn [find]. by destruct (named_entry nm e). Qed.

Lemma find_name_app nm l1 l2 :
  find_name nm (l1 ++ l2) = match find_name nm l1 with Some i => Some i | None => find_name nm l2 end.
Proof.
  induction l1 as [|e l1 IH]; [done|]. cbn [app]. rewrite !find_name_cons, IH. by destruct (named_entry nm e).
Qed.

(** *** Filling an entry *)

Lemma aget_entry_stores o ino rl nl ty nm d i :
  0 <= o -> ~ o <= i < o + 8 + Z.of_nat (length nm) ->
  aget 0 (stores (entry_stores o ino rl nl ty nm) d) i = aget 0 d i.
Proof.
  intros Ho Hi. unfold stores, entry_stores. cbn [fold_left fst snd].
  rewrite !aget_write_at_out by (rewrite ?length_le32, ?length_le16; cbn [length]; lia). done.
Qed.

Lemma entry_stored o ino rl ty nm d :
  0 <= o -> o + 8 + Z.of_nat (length nm) <= Z.of_nat (length d) -> 0 <= ino < 2 ^ 32 -> 0 <= rl < 2 ^ 16 ->
  Z.of_nat (length nm) < 256 -> ALIGN_UP4 (8 + Z.of_nat (length nm)) <= rl ->
  stored_at (stores (entry_stores o ino rl (Z.of_nat (length nm)) ty nm) d) o (mkDentry ino nm rl).
Proof.
  intros Ho Hfit Hino Hrl Hshort Hal. set (d' := stores _ d).
  assert (Hlen : Z.of_nat (length d') = Z.of_nat (length d)) by (unfold d'; by rewrite length_stores).
  assert (d_name_len d' o = Z.of_nat (length nm)) as En.
  { unfold d', d_name_len, stores, entry_stores. cbn [fold_left fst snd].
    rewrite 2!aget_write_at_out by (cbn [length]; lia).
    rewrite aget_write_at_in by (rewrite ?length_write_at; cbn [length]; lia).
    replace (o + 6 - (o + 6)) with 0 by lia. apply u8_small. lia. }
  split; cbn [de_inode de_name de_len]; try done.
  - unfold d', d_inode, stores, entry_stores. cbn [fold_left fst snd].
    repeat rewrite get32_write_at_out by (rewrite ?length_le16; cbn [length]; lia).
    rewrite get32_write_at_in by (rewrite ?length_le32; lia). rewrite Z.sub_diag. by apply get32_le32.
  - unfold d_name. rewrite En. unfold d', stores, entry_stores. cbn [fold_left fst snd].
    apply slice_write_at_eq; rewrite ?length_write_at; lia.
  - unfold d', d_rec_len, stores, entry_stores. cbn [fold_left fst snd].
    repeat rewrite get16_write_at_out by (cbn [length]; lia).
    rewrite get16_write_at_in by (rewrite ?length_write_at, ?length_le16; lia). rewrite Z.sub_diag. by apply get16_le16.
Qed.

(** An entry with room behind it is split. *)
Lemma chain_split d o pre e l ino ty nm :
  let real := ALIGN_UP4 (8 + Z.of_nat (length (de_name e))) in
  let extra := de_len e - real in
  let d' := stores ((o + 4, le16 real) :: entry_stores (o + real) ino extra (Z.of_nat (length nm)) ty nm) d in
  chain d o 0 pre -> chain d (Z.of_nat (length d)) o (e :: l) -> 0 <= o ->
  ALIGN_UP4 (8 + Z.of_nat (length nm)) <= extra -> Z.of_nat (length nm) < 256 -> 0 <= ino < 2 ^ 32 ->
  Z.of_nat (length d) < 2 ^ 16 ->
  chain d' (Z.of_nat (length d)) 0 (pre ++ mkDentry (de_inode e) (de_name e) real :: mkDentry ino nm extra :: l).
Proof.
  intros real extra d' Hpre Hc Ho Hroom Hshort Hino Hsmall. cbn [chain] in Hc. destruct Hc as (He & Hs & Hc).
  pose proof (stored_len _ _ _ He) as Hlen. pose proof He as [_ _ _ _ Hsh _].
  destruct (ALIGN_UP4_range (8 + Z.of_nat (length (de_name e))) ltac:(lia)) as [Hreal _]. fold real in Hreal.
  destruct (ALIGN_UP4_range (8 + Z.of_nat (length nm)) ltac:(lia)) as [Hreq _].
  set (d1 := write_at d (o + 4) (le16 real)).
  assert (Hl1 : length d1 = length d) by apply length_write_at.
  assert (Hd' : d' = stores (entry_stores (o + real) ino extra (Z.of_nat (length nm)) ty nm) d1) by done.
  assert (Hl' : length d' = length d) by (rewrite Hd', length_stores; done).
  assert (Hout : forall i, i < o + 4 \/ o + 6 <= i < o + real \/ o + de_len e <= i -> aget 0 d' i = aget 0 d i).
  { intros i Hi. rewrite Hd', aget_entry_stores by lia. unfold d1. apply aget_write_at_out; rewrite ?length_le16; lia. }
  apply chain_app. exists o. split; [|cbn [chain de_len]; split_and!].
  - apply (chain_agree d); [done|lia|lia| |done]. intros i Hi. apply Hout. lia.
  - assert (stored_at d1 o (mkDentry (de_inode e) (de_name e) real)) as Hst.
    { destruct He as [E1 E2 E3 _ _ _].
      assert (d_name_len d1 o = d_name_len d o) as En by (apply aget_write_at_out; rewrite ?length_le16; lia).
      split; cbn [de_inode de_name de_len]; try done.
      - rewrite <- E1. apply get32_write_at_out; rewrite ?length_le16; lia.
      - by rewrite En.
      - rewrite <- E3. unfold d_name. rewrite En. apply slice_write_at_out; rewrite ?length_le16; lia.
      - unfold d_rec_len, d1. rewrite get16_write_at_in by (rewrite ?length_le16; lia).
        rewrite Z.sub_diag. apply get16_le16. lia. }
    apply (stored_agree d1); [by rewrite Hl', Hl1|lia|cbn [de_len]; rewrite Hl1; lia| |done]. cbn [de_len].
    intros i Hi. rewrite Hd', aget_entry_stores by lia. done.
  - lia.
  - rewrite Hd'. apply entry_stored; rewrite ?Hl1; lia.
  - lia.
  - replace (o + real + extra) with (o + de_len e) by lia.
    apply (chain_agree d); [done|lia|lia| |done]. intros i Hi. apply Hout. lia.
Qed.

(** Adding an entry for a name that is not there. *)
Definition adds (nm : list Z) (inode : Z) (l l' : list dentry) : Prop :=
  forall nm', find_name nm' l' = if decide (nm' = nm) then Some inode else find_name nm' l.

Lemma adds_middle nm inode len l1 e len' l2 :
  find_name nm (l1 ++ e :: l2) = None -> inode <> 0 ->
  adds nm inode (l1 ++ e :: l2) (l1 ++ mkDentry (de_inode e) (de_name e) len' :: mkDentry inode nm len :: l2).
Proof.
  intros Hno Hi nm'. rewrite find_name_app, find_name_cons in Hno. rewrite !find_name_app, !find_name_cons.
  unfold named_entry in *. cbn [de_inode de_name] in *.
  assert ((inode =? 0) = false) as -> by by apply Z.eqb_neq. cbn [negb andb].
  destruct (decide (nm' = nm)) as [->|Hne].
  - destruct (find_name nm l1); [done|]. destruct (negb (de_inode e =? 0) && bool_decide (de_name e = nm)); [done|].
    by rewrite bool_decide_true.
  - by rewrite (bool_decide_false (nm = nm')) by congruence.
Qed.

Lemma adds_end nm inode len l : find_name nm l = None -> inode <> 0 -> adds nm inode l (l ++ [mkDentry inode nm len]).
Proof.
  intros Hno Hi nm'. rewrite find_name_app, find_name_cons. unfold named_entry. cbn [de_inode de_name].
  assert ((inode =? 0) = false) as -> by by apply Z.eqb_neq. cbn [negb andb].
  destruct (decide (nm' = nm)) as [->|Hne].
  - rewrite Hno. by rewrite bool_decide_true.
  - rewrite (bool_decide_false (nm = nm')) by congruence. by destruct (find_name nm' l).
Qed.

(** ** Directories *)
Section dir.
Context {D : Type} `{!BlockDevice D} `{!BlockDeviceLaws D} (kmalloc_ok : nat -> bool).
Context (HR : Reliable D) (Hk : memory_left kmalloc_ok).
Abbreviation fs := (ext2_fs D).

(** The data of block [k] of a file. *)
Definition block_bytes_of (s : fs) (ino : list Z) (k : Z) : list Z := view s (leaf_of s ino k).

(** [ls]: the entries of the blocks of the directory. *)
Record directory (s : fs) (ino : list Z) (ls : list (list dentry)) : Prop := {
  di_tree : file_tree s ino;
  di_mode : is_dir_mode (i_mode ino) = true;
  di_small : block_size s < 2 ^ 16;
  di_size : i_size ino = Z.of_nat (length ls) * block_size s;
  di_room : (Z.of_nat (length ls) + 1) * block_size s < 2 ^ 32;
  di_block : forall k l, ls !! k = Some l -> leaf_of s ino (Z.of_nat k) <> 0;
  di_chain : forall k l, ls !! k = Some l -> chain (block_bytes_of s ino (Z.of_nat k)) (block_size s) 0 l
}.

(** The loops over the entries stand at [offset], in front of [rest]: block
    [k], of which [pre] is done. *)
Definition standing (s : fs) (ls : list (list dentry)) (ino : list Z) (offset : Z) (rest : list dentry) : Prop :=
  (offset = i_size ino /\ rest = []) \/
  exists k o pre l, ls !! k = Some (pre ++ l) /\ l <> [] /\ offset = Z.of_nat k * block_size s + o /\
    chain (block_bytes_of s ino (Z.of_nat k)) o 0 pre /\ 0 <= o < block_size s /\
    chain (block_bytes_of s ino (Z.of_nat k)) (block_size s) o l /\ rest = l ++ mjoin (drop (S k) ls).

Lemma standing_block s ino ls k :
  0 < block_size s -> directory s ino ls -> (k <= length ls)%nat ->
  standing s ls ino (Z.of_nat k * block_size s) (mjoin (drop k ls)).
Proof.
  intros Hbs Hd Hkl. destruct (decide (k = length ls)) as [->|Hne].
  - left. rewrite drop_ge by done. split; [by rewrite (di_size _ _ _ Hd)|done].
  - destruct (lookup_lt_is_Some_2 ls k ltac:(lia)) as [l Hl]. pose proof (di_chain _ _ _ Hd k l Hl) as Hc.
    right. exists k, 0, [], l. split_and!; try done; try lia.
    + intros ->. cbn [chain] in Hc. lia.
    + by rewrite (drop_S ls l k Hl).
Qed.

(** One step of the loops. *)
Lemma standing_cases s ino ls offset rest :
  0 < block_size s -> directory s ino ls -> standing s ls ino offset rest ->
  match rest with
  | [] => offset = i_size ino
  | e :: rest' =>
      let k := offset / block_size s in let o := offset mod block_size s in
      0 <= offset < i_size ino /\ leaf_of s ino k <> 0 /\ stored_at (block_bytes_of s ino k) o e /\
      o + de_len e <= block_size s /\ offset + de_len e <= i_size ino /\
      standing s ls ino (offset + de_len e) rest'
  end.
Proof.
  intros Hbs Hd [[-> ->]|(k & o & pre & l & Hl & Hne & -> & Hpre & Ho & Hc & ->)]; [done|].
  destruct l as [|e l]; [done|]. cbn [app]. cbv zeta.
  assert ((Z.of_nat k * block_size s + o) / block_size s = Z.of_nat k) as Ek.
  { rewrite Z.div_add_l by lia. rewrite Z.div_small by lia. lia. }
  assert ((Z.of_nat k * block_size s + o) mod block_size s = o) as Eo.
  { rewrite Z.add_comm, Z_mod_plus_full, Z.mod_small; lia. }
  rewrite Ek, Eo. cbn [chain] in Hc. destruct Hc as (He & Hs & Hc). pose proof (stored_len _ _ _ He) as Hlen.
  pose proof (lookup_lt_Some _ _ _ Hl) as Hk'. rewrite (di_size _ _ _ Hd).
  split_and!; [lia|nia|by apply (di_block _ _ _ Hd k (pre ++ e :: l))|done|done|nia|].
  destruct l as [|e2 l].
  - cbn [chain] in Hc. cbn [app]. replace (Z.of_nat k * block_size s + o + de_len e) with (Z.of_nat (S k) * block_size s) by lia.
    apply standing_block; [done|done|lia].
  - right. exists k, (o + de_len e), (pre ++ [e]), (e2 :: l). split_and!; try done; try lia.
    + by rewrite <- app_assoc.
    + rewrite chain_app. exists o. split; [done|]. cbn [chain]. split_and!; [done|lia|done].
    + cbn [chain] in Hc. destruct Hc as (He2 & Hs2 & _). pose proof (stored_len _ _ _ He2). lia.
Qed.

(** *** Searching *)

(** Read the block of an offset. *)
Lemma dir_block_spec H s ino ls offset :
  cache_ok H s -> layout s -> room 1 H s -> directory s ino ls -> 0 <= offset ->
  leaf_of s ino (offset / block_size s) <> 0 ->
  wp (dir_block kmalloc_ok ino offset) (fun r s' =>
    r = Some (Some (leaf_of s ino (offset / block_size s))) /\
    cache_ok (leaf_of s ino (offset / block_size s) :: H) s' /\ frame s s') s.
Proof.
  intros Hc Hl Hroom Hd Hoff Hleaf. unfold dir_block. wp_steps. cbn [id]. destruct (ly_block _ Hl) as [Hbs _].
  assert (0 <= offset / block_size s) as Hidx by (apply Z.div_pos; lia).
  wp_call get_block_num_read_spec; [exact HR|exact Hk|exact Hc|done|done|apply Hd|done|].
  intros r s1 (-> & Hc1 & Hf1). destruct (Z.eqb_spec (leaf_of s ino (offset / block_size s)) 0); [done|].
  destruct (leaf_of_block H s ino _ Hc Hl (di_tree _ _ _ Hd) Hidx Hleaf) as ((Hv & _) & _).
  wp_steps. wp_call get_ok; [exact HR|exact Hk|exact Hc1| | |].
  { by apply (geom_valid s s1 (same_geom _ _ (proj1 Hf1))). }
  { unfold room in *. rewrite (sf_max _ _ (proj1 Hf1)). lia. }
  intros h s2 (-> & Hc2 & Hf2). wp_steps. split_and!; [done|done|by eapply frame_trans].
Qed.

Lemma frame_standing s s' ls ino offset rest :
  frame s s' -> standing s ls ino offset rest -> standing s' ls ino offset rest.
Proof.
  intros Hf. unfold standing, block_bytes_of. setoid_rewrite (sf_block _ _ (proj1 Hf)).
  setoid_rewrite (frame_leaf_of s s' ino _ Hf). by setoid_rewrite (proj2 Hf).
Qed.

Lemma frame_directory s s' ino ls : frame s s' -> directory s ino ls -> directory s' ino ls.
Proof.
  intros Hf []. split; rewrite ?(sf_block _ _ (proj1 Hf)); try done.
  - by eapply frame_tree.
  - intros k l Hl. rewrite (frame_leaf_of s s') by done. by eapply di_block0.
  - intros k l Hl. unfold block_bytes_of. rewrite (frame_leaf_of s s'), (proj2 Hf) by done. by eapply di_chain0.
Qed.

Lemma lookup_step_spec H s ino ls nm offset rest :
  cache_ok H s -> layout s -> room 1 H s -> directory s ino ls -> standing s ls ino offset rest -> 0 <= offset ->
  wp (lookup_step kmalloc_ok ino nm offset) (fun r s' => cache_ok H s' /\ frame s s' /\
    match r with
    | inr x => x = match find_name nm rest with Some i => inr i | None => inl EXT2_ERROR_NOT_FOUND end
    | inl offset' => offset < offset' <= i_size ino /\ exists rest', standing s ls ino offset' rest' /\
        find_name nm rest' = find_name nm rest
    end) s.
Proof.
  intros Hc Hl Hroom Hd Hst Hoff. destruct (ly_block _ Hl) as [Hbs _]. unfold lookup_step. wp_steps. cbn [id].
  pose proof (standing_cases s ino ls offset rest ltac:(lia) Hd Hst) as Hcases. destruct rest as [|e rest].
  { subst offset. rewrite Z.ltb_irrefl. cbn [negb]. wp_steps. split_and!; [done|apply frame_refl|done]. }
  cbv zeta in Hcases. destruct Hcases as (Hrange & Hleaf & He & Hfit & Hend & Hnext).
  destruct (Z.ltb_spec offset (i_size ino)); [|lia]. cbn [negb]. wp_steps.
  wp_call dir_block_spec; [exact Hc|done|done|exact Hd|done|exact Hleaf|]. intros r s1 (-> & Hc1 & Hf1).
  wp_steps. wp_call block_data_spec; [exact Hc1|by left|]. intros d s1' [-> ->]. wp_steps.
  wp_call put_block_spec; [exact Hc1|]. intros _ s2 [Hc2 Hf2]. pose proof (frame_trans _ _ _ Hf1 Hf2) as Hf.
  rewrite (proj2 Hf1). fold (block_bytes_of s ino (offset / block_size s)).
  rewrite (is_entry_stored _ _ e nm He), find_name_cons. pose proof (stored_len _ _ _ He) as Hlen.
  destruct (named_entry nm e); wp_steps; split_and!; try done.
  - by rewrite (sa_inode _ _ _ He).
  - rewrite (sa_len _ _ _ He), u32_small by (pose proof (di_room _ _ _ Hd); rewrite (di_size _ _ _ Hd) in *; lia). lia.
  - rewrite (sa_len _ _ _ He), u32_small by (pose proof (di_room _ _ _ Hd); rewrite (di_size _ _ _ Hd) in *; lia). lia.
  - exists rest. split; [|done]. rewrite (sa_len _ _ _ He).
    by rewrite u32_small by (pose proof (di_room _ _ _ Hd); rewrite (di_size _ _ _ Hd) in *; lia).
Qed.

(** [ext2_lookup] finds the first entry of the name. *)
Lemma lookup_spec H s i ls nm :
  cache_ok H s -> layout s -> room 1 H s -> 0 <= i -> inode_num_ok s i = true -> directory s (inode_at s i) ls ->
  wp (ext2_lookup kmalloc_ok i nm) (fun r s' => cache_ok H s' /\ frame s s' /\
    r = match find_name nm (mjoin ls) with Some j => inr j | None => inl EXT2_ERROR_NOT_FOUND end) s.
Proof.
  intros Hc Hl Hroom Hi Hok Hd. destruct (ly_block _ Hl) as [Hbs _]. unfold ext2_lookup. wp_steps.
  wp_call read_inode_spec; [exact HR|exact Hk|exact Hc|done|done|exact Hi|done|]. intros r s1 (Hc1 & Hf1 & ->).
  rewrite (di_mode _ _ _ Hd). cbn [negb]. set (ino := inode_at s i) in *.
  set (I := fun (offset : Z) (s2 : fs) => cache_ok H s2 /\ frame s s2 /\ 0 <= offset <= i_size ino /\
    exists rest, standing s ls ino offset rest /\ find_name nm rest = find_name nm (mjoin ls)).
  eapply (wp_iter (lookup_step kmalloc_ok ino nm) I (fun offset => Z.to_nat (i_size ino - offset))).
  - split_and!; [done|done|lia|rewrite (di_size _ _ _ Hd); lia|]. exists (mjoin ls). split; [|done].
    apply (standing_block s ino ls 0); [lia|done|lia].
  - unfold dir_fuel. lia.
  - intros offset s2 (Hc2 & Hf2 & Hoff & rest & Hst & Hfind). pose proof (proj1 Hf2) as Hs2.
    wp_call lookup_step_spec; [exact Hc2|by eapply frame_layout| |by eapply frame_directory|by eapply frame_standing|lia|].
    { unfold room in *. by rewrite (sf_max _ _ Hs2). }
    intros [offset'|x] s3 (Hc3 & Hf3 & Hr).
    + destruct Hr as (Hlt & rest' & Hst' & Hfind'). split; [|lia]. split_and!; [done|by eapply frame_trans|lia|lia|].
      exists rest'. split; [|congruence]. eapply (frame_standing s2 s); [|done].
      split; [|intros b; by rewrite (proj2 Hf2)]. destruct Hs2. by split.
    + split_and!; [done|by eapply frame_trans|]. by rewrite Hr, Hfind.
Qed.
(** *** Adding *)

(** The directory has one more entry and everything outside it is as before. *)
Record entry_added (nm : list Z) (inode : Z) (ls : list (list dentry)) (s : fs) (ino : list Z) (s' : fs) (ino' : list Z) : Prop := {
  ea_touched : touched s ino s' ino';
  ea_dir : exists ls', directory s' ino' ls' /\ adds nm inode (mjoin ls) (mjoin ls')
}.

Lemma is_dir_touched (s s' : fs) ino ino' : touched s ino s' ino' -> i_mode ino' = i_mode ino.
Proof. intros Ht. apply get16_agree. intros k Hk4. apply (tc_fields _ _ _ _ Ht). lia. Qed.

(** An entry of a block is split in two. *)
Lemma entry_split s ino ls offset e rest inode ty nm s' :
  let b := leaf_of s ino (offset / block_size s) in let o := offset mod block_size s in
  let real := ALIGN_UP4 (8 + Z.of_nat (length (de_name e))) in
  layout s -> directory s ino ls -> standing s ls ino offset (e :: rest) ->
  Z.of_nat (length (view s b)) = block_size s -> find_name nm (mjoin ls) = None ->
  0 < inode < 2 ^ 32 -> Z.of_nat (length nm) < 256 -> ALIGN_UP4 (8 + Z.of_nat (length nm)) <= de_len e - real ->
  same_fs s s' ->
  (forall c, view s' c = if decide (c = b)
     then stores ((o + 4, le16 real) :: entry_stores (o + real) inode (de_len e - real) (Z.of_nat (length nm)) ty nm) (view s b)
     else view s c) ->
  entry_added nm inode ls s ino s' ino.
Proof.
  intros b o real Hl Hd Hst Hlen Hno Hinode Hshort Hroom Hs Hv. pose proof (same_geom _ _ Hs) as G.
  destruct Hst as [[_ ?]|(k & o' & pre & l & Hk' & Hne & Eoff & Hpre & Ho & Hc & Hrest)]; [done|].
  destruct l as [|e0 l]; [done|]. cbn [app] in Hrest. injection Hrest as <- ->.
  destruct (ly_block _ Hl) as [Hbs _].
  assert (offset / block_size s = Z.of_nat k) as Ek.
  { rewrite Eoff, Z.div_add_l by lia. rewrite Z.div_small by lia. lia. }
  assert (o = o') as Eo by (unfold o; rewrite Eoff, Z.add_comm, Z_mod_plus_full, Z.mod_small; lia).
  assert (b = leaf_of s ino (Z.of_nat k)) as Eb by (unfold b; by rewrite Ek).
  pose proof (di_block _ _ _ Hd k _ Hk') as Hb0. rewrite <- Eo in *. clear o' Eo.
  destruct (data_changed s ino (Z.of_nat k) _ s' Hl (di_tree _ _ _ Hd) ltac:(lia) Hb0 Hs ltac:(rewrite <- Eb; exact Hv))
    as (Hl' & Hfree & Hnode & Ht').
  assert (Hleaf : forall j, 0 <= j -> leaf_of s' ino j = leaf_of s ino j).
  { intros j Hj. unfold leaf_of. rewrite (geom_block_path s s' G). destruct (block_path s j) as [[y p]|] eqn:Ep; [|done].
    destruct (block_path_valid s _ y p Hl Hj Ep) as [Hvp _]. by apply Hnode. }
  split.
  - split; try done.
    + intros m. apply Hfree.
    + intros q Hq _. by apply Hnode.
    + intros q Hq. by rewrite Hnode.
    + intros c Hcb Hcf Hcn. rewrite Hv, decide_False; [done|]. intros ->. rewrite Eb in Hcn. unfold leaf_of in *.
      destruct (block_path s (Z.of_nat k)) as [[x p]|] eqn:Ep; [|done].
      destruct (block_path_valid s (Z.of_nat k) x p Hl ltac:(lia) Ep) as [Hvp _]. by apply (Hcn (x :: p)).
  - set (new := pre ++ mkDentry (de_inode e) (de_name e) real :: mkDentry inode nm (de_len e - real) :: l).
    exists (<[k := new]> ls). pose proof (lookup_lt_Some _ _ _ Hk') as Hkl. split.
    + destruct Hd. split; rewrite ?(ge_block _ _ G), ?length_insert; try done.
      * intros j lj Hj. rewrite Hleaf by lia. destruct (lookup_lt_is_Some_2 ls j) as [lj0 Hj0].
        { rewrite <- (length_insert ls k new). by eapply lookup_lt_Some. }
        by eapply di_block0.
      * intros j lj Hj. unfold block_bytes_of. rewrite Hleaf, Hv by lia. destruct (decide (j = k)) as [->|Hjk].
        -- rewrite list_lookup_insert_eq in Hj by done. injection Hj as <-. rewrite <- Eb, decide_True by done.
           rewrite <- Hlen. apply chain_split; try lia; unfold block_bytes_of in Hpre, Hc; rewrite <- Eb in Hpre, Hc;
             [done|by rewrite Hlen].
        -- rewrite list_lookup_insert_ne in Hj by done. rewrite decide_False; [by apply di_chain0|].
           rewrite Eb. intros E. apply Hjk. apply Nat2Z.inj.
           apply (leaf_of_inj s ino); [done|done|lia|lia|by eapply di_block0|done].
    + rewrite insert_take_drop by done. rewrite <- (take_drop_middle ls k _ Hk') in Hno |- * at 1.
      rewrite !join_app in *. cbn [mjoin list_join] in *. unfold new. rewrite <- !app_assoc in *. cbn [app] in *.
      rewrite !(app_assoc (mjoin (take k ls))) in *. apply adds_middle; [done|lia].
Qed.

(** A block is added with one entry that fills it. *)
Lemma entry_appended s ino ls s1 ino1 s2 inode ty nm :
  let n := Z.of_nat (length ls) in let b := leaf_of s1 ino1 n in
  layout s -> directory s ino ls -> grown s ino s1 ino1 -> b <> 0 ->
  Z.of_nat (length (view s1 b)) = block_size s1 ->
  find_name nm (mjoin ls) = None -> 0 < inode < 2 ^ 32 -> Z.of_nat (length nm) < 256 ->
  (Z.of_nat (length ls) + 2) * block_size s < 2 ^ 32 -> same_fs s1 s2 ->
  (forall c, view s2 c = if decide (c = b)
     then stores (entry_stores 0 inode (block_size s) (Z.of_nat (length nm)) ty nm) (view s1 b) else view s1 c) ->
  entry_added nm inode ls s ino s2 (set_size (i_size ino1 + block_size s) ino1).
Proof.
  intros n b Hl Hd Hg Hb0 Hlen Hno Hinode Hshort Hmore Hs Hv.
  pose proof (tc_geom _ _ _ _ Hg) as G1. pose proof (same_geom _ _ Hs) as G2. pose proof (geom_trans _ _ _ G1 G2) as G.
  pose proof (tc_layout _ _ _ _ Hg) as Hl1. pose proof (tc_tree _ _ _ _ Hg) as Ht1. destruct (ly_block _ Hl) as [Hbs _].
  destruct (data_changed s1 ino1 n _ s2 Hl1 Ht1 ltac:(lia) Hb0 Hs Hv) as (Hl2 & Hfree & Hnode & Ht2).
  set (ino2 := set_size _ ino1). pose proof (ft_inode _ _ Ht1) as Hok1.
  assert (Hok2 : inode_ok ino2) by by apply set_size_ok.
  assert (Hsp : same_pointers ino1 ino2) by (intros i Hi; apply set_size_keeps; lia).
  assert (Hi1 : i_size ino1 = n * block_size s) by (rewrite (gr_size _ _ _ _ Hg); apply Hd).
  assert (Htouch : touched s ino s2 ino2).
  { eapply touched_trans; [exact (gr_touched _ _ _ _ Hg)|]. split; try done.
    - by eapply same_pointers_tree.
    - intros m. apply Hfree.
    - intros q Hq _. by rewrite (same_pointers_node _ _ _ _ _ Hsp Hq), Hnode.
    - intros q Hq. by rewrite (same_pointers_node _ _ _ _ _ Hsp Hq), Hnode.
    - intros c Hc Hf Hnot. rewrite Hv. case_decide as E; [|done]. exfalso. unfold b, leaf_of in *.
      destruct (block_path s1 n) as [[x p]|] eqn:Epath; [|done].
      destruct (block_path_valid s1 n x p Hl1 ltac:(lia) Epath) as [Hvp _]. by apply (Hnot (x :: p)).
    - intros i Hi. apply set_size_keeps. lia. }
  assert (Hleaf : forall k, 0 <= k -> leaf_of s2 ino2 k = leaf_of s1 ino1 k).
  { intros k Hk0. unfold leaf_of. rewrite (geom_block_path s1 s2 G2). destruct (block_path s1 k) as [[y p]|] eqn:Ep; [|done].
    destruct (block_path_valid s1 _ y p Hl1 Hk0 Ep) as [Hvp _]. by rewrite (same_pointers_node _ _ _ _ _ Hsp Hvp), Hnode. }
  assert (Hold : forall k l, ls !! k = Some l ->
    leaf_of s2 ino2 (Z.of_nat k) = leaf_of s ino (Z.of_nat k) /\ view s2 (leaf_of s ino (Z.of_nat k)) = view s (leaf_of s ino (Z.of_nat k))).
  { intros k l Hkl. pose proof (di_block _ _ _ Hd k l Hkl) as Hn0. pose proof (lookup_lt_Some _ _ _ Hkl).
    destruct (grown_leaf s ino s1 ino1 (Z.of_nat k) Hl ltac:(lia) Hg Hn0) as [E1 E2]. rewrite Hleaf, E1 by lia.
    split; [done|]. rewrite Hv, decide_False; [done|]. intros E.
    assert (Z.of_nat k = n); [|lia]. apply (leaf_of_inj s1 ino1); try done; try lia; congruence. }
  split; [done|]. exists (ls ++ [[mkDentry inode nm (block_size s)]]). split.
  - assert (Hsz : i_size ino2 = (n + 1) * block_size s) by (unfold ino2; rewrite i_size_set; [lia|done|nia]).
    destruct (ALIGN_UP4_range (8 + Z.of_nat (length nm)) ltac:(lia)) as [Hal _]. pose proof (di_small _ _ _ Hd) as Hsmall.
    split; rewrite ?(ge_block _ _ G), ?length_app; cbn [length]; try done.
    + apply Htouch.
    + rewrite (is_dir_touched s s2 ino ino2 Htouch). apply Hd.
    + rewrite Hsz. unfold n. lia.
    + lia.
    + intros k l Hkl. apply lookup_app_Some in Hkl as [Hkl|[Hge Hkl]].
      * rewrite (proj1 (Hold k l Hkl)). by eapply (di_block _ _ _ Hd).
      * apply list_lookup_singleton_Some in Hkl as [Hk0 <-]. replace (Z.of_nat k) with n by lia. by rewrite Hleaf by lia.
    + intros k l Hkl. unfold block_bytes_of. apply lookup_app_Some in Hkl as [Hkl|[Hge Hkl]].
      * destruct (Hold k l Hkl) as [E1 E2]. rewrite E1, E2. by eapply (di_chain _ _ _ Hd).
      * apply list_lookup_singleton_Some in Hkl as [Hk0 <-]. replace (Z.of_nat k) with n by lia.
        rewrite Hleaf, Hv by lia. fold b. rewrite decide_True by done. rewrite (ge_block _ _ G1) in Hlen.
        cbn [chain de_len]. split_and!; [|lia|lia]. apply entry_stored; try lia.
  - rewrite join_app. cbn [mjoin list_join]. rewrite app_nil_r. apply adds_end; [done|lia].
Qed.

(** The search for room. *)
Lemma add_step_spec H s ino ls nm inode ty offset rest :
  cache_ok H s -> layout s -> room 1 H s -> directory s ino ls -> standing s ls ino offset rest -> 0 <= offset ->
  find_name nm (mjoin ls) = None -> 0 < inode < 2 ^ 32 -> Z.of_nat (length nm) < 256 -> bytes_ok nm ->
  wp (add_step kmalloc_ok ino nm inode ty offset) (fun r s' => cache_ok H s' /\
    match r with
    | inl offset' => frame s s' /\ offset < offset' <= i_size ino /\ exists rest', standing s ls ino offset' rest'
    | inr (inl _) => frame s s'
    | inr (inr code) => code = EXT2_SUCCESS /\ entry_added nm inode ls s ino s' ino
    end) s.
Proof.
  intros Hc Hl Hroom Hd Hst Hoff Hno Hinode Hshort Hnm. destruct (ly_block _ Hl) as [Hbs _].
  unfold add_step. wp_steps. cbn [id].
  pose proof (standing_cases s ino ls offset rest ltac:(lia) Hd Hst) as Hcases. destruct rest as [|e rest].
  { subst offset. rewrite Z.ltb_irrefl. cbn [negb]. wp_steps. split; [done|apply frame_refl]. }
  cbv zeta in Hcases. destruct Hcases as (Hrange & Hleaf & He & Hfit & Hend & Hnext).
  destruct (Z.ltb_spec offset (i_size ino)); [|lia]. cbn [negb]. wp_steps.
  wp_call dir_block_spec; [exact Hc|done|done|exact Hd|done|exact Hleaf|]. intros r s1 (-> & Hc1 & Hf1).
  wp_steps. wp_call block_data_spec; [exact Hc1|by left|]. intros d s1' [-> ->].
  rewrite (proj2 Hf1). fold (block_bytes_of s ino (offset / block_size s)).
  rewrite (sa_name_len _ _ _ He), (sa_len _ _ _ He). pose proof (stored_len _ _ _ He) as Hlen.
  pose proof (sa_short _ _ _ He) as Hesh. pose proof (sa_fits _ _ _ He) as Hefit.
  destruct (ALIGN_UP4_range (8 + Z.of_nat (length (de_name e))) ltac:(lia)) as [Hreal _].
  destruct (ALIGN_UP4_range (8 + Z.of_nat (length nm)) ltac:(lia)) as [Hreq _].
  set (real := ALIGN_UP4 (8 + Z.of_nat (length (de_name e)))) in *.
  assert (i_size ino < 2 ^ 32) as Hisz by (pose proof (di_room _ _ _ Hd); rewrite (di_size _ _ _ Hd); lia).
  pose proof (di_small _ _ _ Hd) as Hsmall.
  assert (0 <= offset / block_size s) as Hidx by (apply Z.div_pos; lia).
  pose proof (Z.mod_pos_bound offset (block_size s) ltac:(lia)) as Hm.
  rewrite (u32_small (de_len e - real)) by lia.
  destruct (Z.leb_spec (ALIGN_UP4 (8 + Z.of_nat (length nm))) (de_len e - real)) as [Hfits|Hnofit].
  - wp_steps. rewrite <- wp_bind. wp_call writes_put_spec; [exact Hc1| |].
    { rewrite (sf_block _ _ (proj1 Hf1)). unfold entry_stores. repeat (apply List.Forall_cons; [split_and!; cbn [fst snd]|]);
        [..|apply List.Forall_nil]; rewrite ?length_le16, ?length_le32; cbn [length]; try lia;
        first [apply bytes_le16|apply bytes_le32|done|repeat constructor; apply u8_range]. }
    intros _ s2 (Hc2 & Hs2 & Hv2). wp_steps. split_and!; [done|done|].
    destruct (leaf_of_block H s ino _ Hc Hl (di_tree _ _ _ Hd) Hidx Hleaf) as (_ & Hblen & _).
    eapply (entry_split s ino ls offset e rest); try done; [by eapply same_trans; [apply Hf1|]|].
    intros c. rewrite Hv2, !(proj2 Hf1). done.
  - wp_steps. wp_call put_block_spec; [exact Hc1|]. intros _ s2 [Hc2 Hf2]. wp_steps.
    rewrite (u32_small (offset + de_len e)) by lia. split_and!; [done|by eapply frame_trans|lia|lia|]. by exists rest.
Qed.

(** What [ext2_add_dir_entry] does to the directory of inode [i]. *)
Record add_done (H : list Z) (i : Z) (nm : list Z) (inode : Z) (ls : list (list dentry)) (s s' : fs) : Prop := {
  ad_cache : cache_ok H s';
  ad_geom : geom s s';
  ad_layout : layout s';
  ad_dir : exists ls', directory s' (inode_at s' i) ls' /\ adds nm inode (mjoin ls) (mjoin ls');
  ad_inodes : forall j, 0 <= j -> inode_num_ok s j = true -> j <> i -> inode_at s' j = inode_at s j;
  ad_other : forall ino2, file_tree s ino2 -> apart s (inode_at s i) ino2 ->
    file_tree s' ino2 /\ forall p, 0 <= p -> file_byte s' ino2 p = file_byte s ino2 p
}.

(** Writing the inode of the directory keeps its entries. *)
Lemma written_directory s i x s' ino ls :
  layout s -> inode_written i x s s' -> directory s ino ls -> directory s' ino ls.
Proof.
  intros Hl Hw Hd. pose proof Hd as [Ht Hmode Hsmall Hsize Hroom Hblk Hch].
  pose proof (same_geom _ _ (iw_same _ _ _ _ Hw)) as G.
  destruct (written_tree s i x s' ino Hl Hw Ht) as (Ht' & _ & Hnode).
  assert (Hleaf : forall k, 0 <= k -> leaf_of s' ino k = leaf_of s ino k).
  { intros k Hk0. unfold leaf_of. rewrite (geom_block_path s s' G). destruct (block_path s k) as [[y p]|] eqn:Ep; [|done].
    destruct (block_path_valid s _ y p Hl Hk0 Ep) as [Hvp _]. by apply Hnode. }
  split; rewrite ?(ge_block _ _ G); try done.
  - intros k l Hkl. rewrite Hleaf by lia. by eapply Hblk.
  - intros k l Hkl. unfold block_bytes_of. rewrite Hleaf by lia. rewrite (iw_view _ _ _ _ Hw); [by apply Hch|].
    specialize (Hblk k l Hkl). unfold leaf_of in *. destruct (block_path s (Z.of_nat k)) as [[y p]|] eqn:Ep; [|done].
    destruct (block_path_valid s _ y p Hl (Zle_0_nat k) Ep) as [Hvp _]. by apply (ft_block _ _ Ht).
Qed.

Lemma frame_entry_added s s2 ino ls nm inode s' ino' :
  frame s s2 -> layout s -> file_tree s ino -> entry_added nm inode ls s2 ino s' ino' -> entry_added nm inode ls s ino s' ino'.
Proof.
  intros Hf Hl Ht [A B]. split; [|done]. eapply touched_trans; [by apply (frame_touched s s2)|done].
Qed.

(** Only the directory changed; its inode may have been written. *)
Lemma entry_added_done H s i ls nm inode s1 ino1 s' :
  layout s -> 0 <= i -> inode_num_ok s i = true -> directory s (inode_at s i) ls ->
  entry_added nm inode ls s (inode_at s i) s1 ino1 -> cache_ok H s' ->
  (s' = s1 /\ ino1 = inode_at s i \/ inode_written i ino1 s1 s') -> add_done H i nm inode ls s s'.
Proof.
  intros Hl Hi Hok Hd [Ht (ls' & Hd' & Hadds)] Hc Hw. pose proof (tc_geom _ _ _ _ Ht) as G.
  pose proof (inode_num_pos s i Hi Hok) as Hpos. pose proof (tc_layout _ _ _ _ Ht) as Hl1.
  assert (Hat : forall j, 0 <= j -> inode_num_ok s j = true -> inode_at s1 j = inode_at s j).
  { intros j Hj Hjok. apply (touched_inode s (inode_at s i) s1 ino1); [done|done|apply Hd|by apply (inode_num_pos s)|done]. }
  assert (Hoth : forall ino2, file_tree s ino2 -> apart s (inode_at s i) ino2 ->
    file_tree s1 ino2 /\ forall p, 0 <= p -> file_byte s1 ino2 p = file_byte s ino2 p).
  { intros ino2 Ht2 Ha. by eapply touched_other. }
  destruct Hw as [[-> ->]|Hw].
  - split; try done.
    + exists ls'. by rewrite Hat.
    + intros j Hj Hjok _. by apply Hat.
  - split; try done.
    + eapply geom_trans; [exact G|]. apply same_geom, Hw.
    + apply Hw.
    + exists ls'. rewrite (iw_at _ _ _ _ Hw), decide_True by (done || by rewrite (geom_inode_num_ok s s1 G)).
      split; [|done]. by eapply written_directory.
    + intros j Hj Hjok Hne. rewrite (iw_at _ _ _ _ Hw) by (done || by rewrite (geom_inode_num_ok s s1 G)).
      rewrite decide_False by done. by apply Hat.
    + intros ino2 Ht2 Ha. destruct (Hoth ino2 Ht2 Ha) as [Ht3 Hb3].
      destruct (written_tree s1 i ino1 s' ino2 Hl1 Hw Ht3) as (Ht4 & Hb4 & _). split; [done|].
      intros p Hp. by rewrite Hb4, Hb3.
Qed.

Lemma add_dir_entry_spec H s i ls nm inode ty :
  cache_ok H s -> layout s -> room 2 H s -> 0 <= i -> inode_num_ok s i = true -> directory s (inode_at s i) ls ->
  find_name nm (mjoin ls) = None -> 0 < inode < 2 ^ 32 -> Z.of_nat (length nm) < 256 -> bytes_ok nm ->
  (Z.of_nat (length ls) + 2) * block_size s < 2 ^ 32 ->
  wp (ext2_add_dir_entry kmalloc_ok i nm inode ty) (fun r s' =>
    r = EXT2_SUCCESS /\ add_done H i nm inode ls s s' \/
    r = EXT2_ERROR_NO_SPACE /\ stepped H 0 s' /\ no_space s' (Z.of_nat (length ls))) s.
Proof.
  intros Hc Hl Hroom Hi Hok Hd Hno Hinode Hshort Hnm Hmore. destruct (ly_block _ Hl) as [Hbs _].
  unfold ext2_add_dir_entry. wp_steps. cbn [id].
  wp_call read_inode_spec; [exact HR|exact Hk|exact Hc|done|unfold room in *; lia|exact Hi|done|]. intros r s1 (Hc1 & Hf1 & ->).
  rewrite (di_mode _ _ _ Hd). cbn [negb]. set (ino := inode_at s i) in *. wp_steps.
  pose proof (inode_num_pos s i Hi Hok) as Hipos.
  set (I := fun (offset : Z) (s2 : fs) => cache_ok H s2 /\ frame s s2 /\ 0 <= offset <= i_size ino /\
    exists rest, standing s ls ino offset rest).
  eapply wp_mono; [eapply (wp_iter (add_step kmalloc_ok ino nm inode ty) I (fun offset => Z.to_nat (i_size ino - offset))
    (fun x s' => match x with
     | inl _ => cache_ok H s' /\ frame s s'
     | inr code => code = EXT2_SUCCESS /\ cache_ok H s' /\ entry_added nm inode ls s ino s' ino
     end))|].
  - split_and!; [done|done|lia|rewrite (di_size _ _ _ Hd); lia|]. exists (mjoin ls).
    apply (standing_block s ino ls 0); [lia|done|lia].
  - unfold dir_fuel. lia.
  - intros offset s2 (Hc2 & Hf2 & Hoff & rest & Hst). pose proof (proj1 Hf2) as Hs2.
    wp_call (add_step_spec H); [exact Hc2|by eapply frame_layout| |by eapply frame_directory|by eapply frame_standing|lia|done..|].
    { unfold room in *. rewrite (sf_max _ _ Hs2). lia. }
    intros [offset'|[[]|code]] s3 [Hc3 Hr].
    + destruct Hr as (Hf3 & Hlt & rest' & Hst'). split; [|lia]. split_and!; [done|by eapply frame_trans|lia|lia|].
      exists rest'. eapply (frame_standing s2 s); [|done].
      split; [|intros b; by rewrite (proj2 Hf2)]. destruct Hs2. by split.
    + split; [done|by eapply frame_trans].
    + destruct Hr as [-> Hadd]. split_and!; [done|done|]. eapply (frame_entry_added s s2); [done|done|apply Hd|done].
  - cbv beta. intros [[]|code] s2.
    + intros (Hc2 & Hf2). pose proof (proj1 Hf2) as Hs2. set (n := Z.of_nat (length ls)) in *.
      assert (i_size ino / block_size s = n) as -> by (rewrite (di_size _ _ _ Hd), Z.div_mul by lia; done).
      wp_steps. wp_call get_block_num_spec; [exact HR|exact Hk|exact Hc2|by eapply frame_layout| |eapply frame_tree; [done|apply Hd]|lia|].
      { unfold room in *. rewrite (sf_max _ _ Hs2). lia. }
      intros [b ino1] s3 (Hg & -> & Hst & Hno_space). pose proof (tc_geom _ _ _ _ Hg) as G3.
      pose proof (tc_layout _ _ _ _ Hg) as Hl3. pose proof (tc_tree _ _ _ _ Hg) as Ht3.
      destruct (Z.eqb_spec (leaf_of s3 ino1 n) 0) as [E|E].
      { wp_steps. right. rewrite E in *. auto. }
      destruct Hst as [Hc3|[? _]]; [|done].
      destruct (leaf_of_block H s3 ino1 n Hc3 Hl3 Ht3 ltac:(lia) E) as ((Hbv & _) & Hblen & _).
      wp_steps. wp_call get_ok; [exact HR|exact Hk|exact Hc3|exact Hbv| |].
      { unfold room in *. rewrite (ge_max _ _ G3), (sf_max _ _ Hs2). lia. }
      intros h s4 (-> & Hc4 & Hf4). wp_steps. rewrite <- wp_bind. pose proof (di_small _ _ _ Hd) as Hsmall.
      assert (block_size s4 = block_size s) as Ebs by by rewrite (sf_block _ _ (proj1 Hf4)), (ge_block _ _ G3), (sf_block _ _ Hs2).
      wp_call writes_put_spec; [exact Hc4| |].
      { rewrite Ebs. unfold entry_stores. repeat (apply List.Forall_cons; [split_and!; cbn [fst snd]|]);
          [..|apply List.Forall_nil]; rewrite ?length_le16, ?length_le32; cbn [length]; try lia;
          first [apply bytes_le16|apply bytes_le32|done|repeat constructor; apply u8_range]. }
      intros _ s5 (Hc5 & Hs5 & Hv5). wp_steps.
      assert (same_fs s3 s5) as Hs35 by (eapply same_trans; [apply Hf4|done]).
      assert (i_size ino1 = n * block_size s) as Hisz1 by (rewrite (gr_size _ _ _ _ Hg); apply Hd).
      rewrite (u32_small (i_size ino1 + block_size s)) by lia.
      assert (entry_added nm inode ls s2 ino s5 (set_size (i_size ino1 + block_size s2) ino1)) as Hadd.
      { eapply (entry_appended s2 ino ls s3 ino1 s5); try done; rewrite ?(sf_block _ _ Hs2); try done.
        - by eapply frame_layout.
        - by eapply frame_directory.
        - intros c. rewrite Hv5, !(proj2 Hf4). done. }
      rewrite (sf_block _ _ Hs2) in Hadd.
      pose proof (tc_geom _ _ _ _ (ea_touched _ _ _ _ _ _ _ Hadd)) as G5.
      wp_call write_inode_spec; [exact HR|exact Hk|exact Hc5|apply (ea_touched _ _ _ _ _ _ _ Hadd)| |exact Hi| | |].
      { unfold room in *. rewrite (ge_max _ _ G5), (sf_max _ _ Hs2). lia. }
      { by rewrite (geom_inode_num_ok s2 s5 G5), (geom_inode_num_ok s s2 (same_geom _ _ Hs2)). }
      { apply set_size_ok. apply Ht3. }
      intros code s6 (Hc6 & _ & Hw6). wp_steps. left. split; [done|].
      eapply entry_added_done; [done|done|done|done| |done|by right].
      eapply (frame_entry_added s s2); [done|done|apply Hd|exact Hadd].
    + intros (-> & Hc2 & Hadd). wp_steps. left. split; [done|].
      eapply entry_added_done; [done|done|done|done|exact Hadd|done|by left].
Qed.

(** C10: directories refine finite maps from names to inodes.  Adding an entry
    for a new name to a well-formed directory always returns; when there is
    room, [ext2_lookup] then finds the new inode under the new name and under
    every other name what it found before, and the file system stays
    well-formed; otherwise no block can be had for the entry. *)
Theorem lookup_after_add H s i ls nm inode ty :
  cache_ok H s -> layout s -> room 2 H s -> 0 <= i -> inode_num_ok s i = true -> directory s (inode_at s i) ls ->
  find_name nm (mjoin ls) = None -> 0 < inode < 2 ^ 32 -> Z.of_nat (length nm) < 256 -> bytes_ok nm ->
  (Z.of_nat (length ls) + 2) * block_size s < 2 ^ 32 ->
  exists r s', ext2_add_dir_entry kmalloc_ok i nm inode ty s = Some (r, s') /\
    (r = EXT2_SUCCESS /\ add_done H i nm inode ls s s' /\
       (forall nm', exists a s1 s2, ext2_lookup kmalloc_ok i nm' s = Some (a, s1) /\
          ext2_lookup kmalloc_ok i nm' s' = Some (if decide (nm' = nm) then inr inode else a, s2))
     \/ r = EXT2_ERROR_NO_SPACE /\ no_space s' (Z.of_nat (length ls))).
Proof.
  intros Hc Hl Hroom Hi Hok Hd Hno Hinode Hshort Hnm Hmore.
  destruct (proj1 (wp_run _ _ _) (add_dir_entry_spec H s i ls nm inode ty Hc Hl Hroom Hi Hok Hd Hno Hinode Hshort Hnm Hmore))
    as (r & s' & E & Hr). exists r, s'. split; [done|].
  destruct Hr as [[-> Hdone]|(-> & _ & Hns)]; [left|by right]. split; [done|]. split; [done|]. intros nm'.
  pose proof Hdone as [Hc' G' Hl' (ls' & Hd' & Hadds) _ _].
  assert (room 1 H s /\ room 1 H s') as [Hr1 Hr2] by (unfold room in *; rewrite (ge_max _ _ G'); lia).
  destruct (proj1 (wp_run _ _ _) (lookup_spec H s i ls nm' Hc Hl Hr1 Hi Hok Hd)) as (a & s1 & E1 & _ & _ & ->).
  destruct (proj1 (wp_run _ _ _) (lookup_spec H s' i ls' nm' Hc' Hl' Hr2 Hi ltac:(by rewrite (geom_inode_num_ok s s' G')) Hd'))
    as (a' & s2 & E2 & _ & _ & ->).
  exists (match find_name nm' (mjoin ls) with Some j => inr j | None => inl EXT2_ERROR_NOT_FOUND end), s1, s2.
  split; [done|]. rewrite E2, (Hadds nm'). by destruct (decide (nm' = nm)).
Qed.
End dir.

(** ** An example: the root directory of a new file system *)
Definition root_entries : list (list dentry) := [[mkDentry 2 [46] 12; mkDentry 2 [46; 46] 1012]].

Lemma root_chain : chain fmt_root_dir 1024 0 (mjoin root_entries).
Proof. repeat split; by vm_compute. Qed.

Lemma mounted_root_directory {D} `{!BlockDevice D} `{!BlockDeviceLaws D} total d :
  16 <= total <= 8192 -> formatted total d ->
  directory (mounted total d) (inode_at (mounted total d) 2) root_entries.
Proof.
  intros Ht Hd. destruct (mounted_root_inode total Ht d Hd) as [Hsize _].
  destruct (mounted_geometry total d) as (Ebs & Eptrs & Epath). destruct (fmt_numbers total Ht) as (_ & _ & Htb & _).
  assert (leaf_of (mounted total d) (inode_at (mounted total d) 2) 0
    = 5 + fmt_table_blocks (fmt_inodes (fmt_blocks_in_group total))) as El.
  { unfold leaf_of. rewrite Epath. rewrite (mounted_root_node total Ht d Hd).
    - rewrite decide_True by reflexivity. reflexivity.
    - split; [lia|]. by split; [cbn; lia|]. }
  split; rewrite ?Ebs.
  - exact (mounted_root_tree total Ht d Hd).
  - rewrite (mounted_root_mode total Ht d Hd). reflexivity.
  - lia.
  - rewrite Hsize. cbn [root_entries length]. lia.
  - cbn [root_entries length]. lia.
  - intros k l [-> <-]%list_lookup_singleton_Some. change (Z.of_nat 0) with 0. rewrite El. lia.
  - intros k l [-> <-]%list_lookup_singleton_Some. unfold block_bytes_of. change (Z.of_nat 0) with 0.
    rewrite El, mounted_view, (fd_root total d Hd) by lia. exact root_chain.
Qed.

Lemma demo_directory : directory demo_mounted (inode_at demo_mounted 2) root_entries.
Proof. unfold demo_mounted. refine (mounted_root_directory 24 _ _ demo_formatted). lia. Qed.

Lemma lookup_after_add_witness :
  exists r s', ext2_add_dir_entry mem 2 [97] 11 EXT2_FT_REG_FILE demo_mounted = Some (r, s') /\
    (r = EXT2_SUCCESS /\ (exists s2, ext2_lookup mem 2 [97] s' = Some (inr 11, s2)) \/ r = EXT2_ERROR_NO_SPACE).
Proof.
  destruct (lookup_after_add mem mem_disk_reliable (fun _ => eq_refl) [] demo_mounted 2 root_entries [97] 11 EXT2_FT_REG_FILE)
    as (r & s' & E & Hr).
  - exact demo_cache.
  - exact demo_layout.
  - exact demo_room.
  - lia.
  - exact demo_num_ok.
  - exact demo_directory.
  - vm_compute. reflexivity.
  - lia.
  - cbn [length]. lia.
  - repeat constructor; lia.
  - destruct demo_geometry as (-> & _). cbn [root_entries length]. lia.
  - exists r, s'. split; [exact E|]. destruct Hr as [(-> & _ & Hlookup)|[-> _]]; [left|by right]. split; [reflexivity|].
    destruct (Hlookup [97]) as (a & s1 & s2 & _ & E2). exists s2. rewrite decide_True in E2 by reflexivity. exact E2.
Defined.
