(* ===== verification/Ext2Perm.v ===== *)
(** * Permissions of files (src/kernel/drivers/fs/ext/ext2.c)

    The layer of the ext2 driver that asks the user database: [ext2_access],
    [ext2_chmod_as], [ext2_chown_as].  The paths they take are resolved
    through the directories of Ext2Dir.v: [reaches] says which inode a path
    names, and [ext2_stat] returns that inode. *)

From Stdlib Require Import String Ascii.
From S2P Require Import Prelude Bytes StateMonad BlockDev User.
From S2P Require Import Ext2Cache Ext2 Ext2Inv Ext2Alloc Ext2File Ext2Format Ext2Write Ext2Dir.

Section perm.
Context {D : Type} `{!BlockDevice D} (kmalloc_ok : nat -> bool).
Abbreviation fs := (ext2_fs D).

(** Which of the three groups of permission bits applies to a user. *)
Definition access_shift (db : user_db) (requesting_uid : Z) (inode : list Z) : Z :=
  if u16 requesting_uid =? i_uid inode then 6
  else if u16 (user_get_gid db requesting_uid) =? i_gid inode then 3
  else 0.

Definition ext2_access (db : user_db) (path : list Z) (requesting_uid mask : Z) : M fs Z :=
  if negb (user_exists db requesting_uid) then ret EXT2_ERROR_INVALID
  else if user_is_root db requesting_uid then ret EXT2_SUCCESS
  else
    let* r := ext2_stat kmalloc_ok path in
    match r with
    | inl result => ret result
    | inr inode =>
        let allowed := Z.land (Z.shiftr (i_mode inode) (access_shift db requesting_uid inode)) 7 in
        if negb (Z.land allowed mask =? mask) then ret EXT2_ERROR_PERM else ret EXT2_SUCCESS
    end.

Definition ext2_chmod_as (db : user_db) (path : list Z) (requesting_uid mode : Z) : M fs Z :=
  if negb (user_exists db requesting_uid) then ret EXT2_ERROR_INVALID
  else if negb (user_is_root db requesting_uid) then
    let* r := ext2_stat kmalloc_ok path in
    match r with
    | inl result => ret result
    | inr inode =>
        if negb (i_uid inode =? u16 requesting_uid) then ret EXT2_ERROR_PERM
        else ext2_chmod kmalloc_ok path mode
    end
  else ext2_chmod kmalloc_ok path mode.

Definition ext2_chown_as (db : user_db) (path : list Z) (requesting_uid new_uid new_gid : Z) : M fs Z :=
  if negb (user_exists db requesting_uid) then ret EXT2_ERROR_INVALID
  else if negb (user_is_root db requesting_uid) then ret EXT2_ERROR_PERM
  else ext2_chown kmalloc_ok path new_uid new_gid.
End perm.

(** ** What a path names *)
Section path.
Context {D : Type} `{!BlockDevice D} `{!BlockDeviceLaws D} (kmalloc_ok : nat -> bool).
Context (HR : Reliable D) (Hk : memory_left kmalloc_ok).
Abbreviation fs := (ext2_fs D).

(** From directory [i] through the names to [j]; the walk stops at an empty
    name. *)
Fixpoint reaches (s : fs) (names : list (list Z)) (i j : Z) : Prop :=
  match names with
  | [] => i = j
  | nm :: names' =>
      if bool_decide (nm = []) then i = j
      else exists ls k, 0 <= i /\ inode_num_ok s i = true /\ directory s (inode_at s i) ls /\
             find_name nm (mjoin ls) = Some k /\ reaches s names' k j
  end.

(** An absolute path that names inode [j]. *)
Definition names_inode (s : fs) (path : list Z) (j : Z) : Prop :=
  exists rest, path = 47 :: rest /\ 0 <= j /\ inode_num_ok s j = true /\
    if bool_decide (rest = []) then j = EXT2_ROOT_INO
    else reaches s (split_slash [] (take 255 rest)) EXT2_ROOT_INO j.

Lemma frame_inode_at (s s' : fs) i : frame s s' -> inode_at s' i = inode_at s i.
Proof. intros [Hs Hv]. unfold inode_at. by rewrite (geom_inode_place s s' (same_geom _ _ Hs)), Hv. Qed.

Lemma frame_reaches (s s' : fs) names : frame s s' -> forall i j, reaches s names i j -> reaches s' names i j.
Proof.
  intros Hf. induction names as [|nm names IH]; intros i j; cbn [reaches]; [done|].
  case_bool_decide; [done|]. intros (ls & k & Hi & Hok & Hd & Hn & Hr). exists ls, k. split_and!; try done.
  - by rewrite (geom_inode_num_ok s s' (same_geom _ _ (proj1 Hf))).
  - rewrite (frame_inode_at s s') by done. by apply (frame_directory s s').
  - by apply IH.
Qed.

Lemma frame_names (s s' : fs) path j : frame s s' -> names_inode s path j -> names_inode s' path j.
Proof.
  intros Hf (rest & -> & Hj & Hok & H). exists rest. split_and!; [done|done| |].
  - by rewrite (geom_inode_num_ok s s' (same_geom _ _ (proj1 Hf))).
  - case_bool_decide; [done|]. by apply (frame_reaches s s').
Qed.

Lemma resolve_loop_spec H want garbage names : forall s i j,
  cache_ok H s -> layout s -> room 1 H s -> reaches s names i j -> want = false ->
  wp (resolve_loop kmalloc_ok want garbage names i) (fun r s' =>
    cache_ok H s' /\ frame s s' /\ exists l, r = (EXT2_SUCCESS, j, l)) s.
Proof using All.
  induction names as [|nm names IH]; intros s i j Hc Hl Hroom Hr ->; cbn [resolve_loop reaches] in *.
  - subst j. wp_steps. split_and!; [done|apply frame_refl|by eexists].
  - case_bool_decide; [subst j; wp_steps; split_and!; [done|apply frame_refl|by eexists]|].
    rewrite andb_false_r. destruct Hr as (ls & k & Hi & Hok & Hd & Hn & Hr). wp_steps.
    wp_call lookup_spec; [exact HR|exact Hk|exact Hc|done|done|exact Hi|done|exact Hd|].
    intros r s1 (Hc1 & Hf1 & ->). rewrite Hn. eapply wp_mono.
    + apply IH; [exact Hc1|by eapply frame_layout| |by apply (frame_reaches s s1)|done].
      unfold room in *. rewrite (sf_max _ _ (proj1 Hf1)). lia.
    + intros r s2 (Hc2 & Hf2 & Hr2). split_and!; [done|by eapply frame_trans|done].
Qed.

Lemma resolve_spec H s path j garbage :
  cache_ok H s -> layout s -> room 1 H s -> names_inode s path j ->
  wp (ext2_resolve_path kmalloc_ok path false garbage) (fun r s' =>
    cache_ok H s' /\ frame s s' /\ exists l, r = (EXT2_SUCCESS, j, l)) s.
Proof using All.
  intros Hc Hl Hroom (rest & -> & Hj & Hok & Hr). unfold ext2_resolve_path. cbn [Z.eqb Pos.eqb negb].
  case_bool_decide; [|by apply resolve_loop_spec].
  subst j. wp_steps. split_and!; [done|apply frame_refl|by eexists].
Qed.

(** [ext2_stat] returns the inode the path names. *)
Lemma stat_spec H s path j :
  cache_ok H s -> layout s -> room 1 H s -> names_inode s path j ->
  wp (ext2_stat kmalloc_ok path) (fun r s' => cache_ok H s' /\ frame s s' /\ r = inr (inode_at s j)) s.
Proof using All.
  intros Hc Hl Hroom Hn. unfold ext2_stat. wp_steps. wp_call resolve_spec; [exact Hc|done|done|exact Hn|].
  intros r s1 (Hc1 & Hf1 & l & ->). cbn [Z.eqb negb]. destruct Hn as (rest & _ & Hj & Hok & _). wp_steps.
  eapply wp_mono.
  - apply (read_inode_spec kmalloc_ok HR Hk H s1 j); [done|by eapply frame_layout| |done|].
    + unfold room in *. rewrite (sf_max _ _ (proj1 Hf1)). lia.
    + by rewrite (geom_inode_num_ok s s1 (same_geom _ _ (proj1 Hf1))).
  - intros r s2 (Hc2 & Hf2 & ->). split_and!; [done|by eapply frame_trans|by rewrite (frame_inode_at s s1)].
Qed.

(** ** Attributes *)

(** An inode that differs in its owner and its permissions only. *)
Record relabelled (ino ino' : list Z) : Prop := {
  rl_ok : inode_ok ino';
  rl_block : forall x, 0 <= x < 15 -> i_block ino' x = i_block ino x;
  rl_size : i_size ino' = i_size ino;
  rl_dir : is_dir_mode (i_mode ino') = is_dir_mode (i_mode ino)
}.

Lemma relabelled_node s ino ino' q n : relabelled ino ino' -> valid_path n q -> node (view s) ino' q = node (view s) ino q.
Proof. intros Hr. destruct q as [|x p]; [done|]. intros (Hx & _). cbn [node]. by rewrite (rl_block _ _ Hr). Qed.

Lemma relabelled_directory (s : fs) ino ino' ls :
  layout s -> relabelled ino ino' -> directory s ino ls -> directory s ino' ls.
Proof.
  intros Hl Hr [[Hi Hb Hinj] Hmode Hsmall Hsize Hroom Hblk Hch].
  assert (Hleaf : forall k, 0 <= k -> leaf_of s ino' k = leaf_of s ino k).
  { intros k Hk0. unfold leaf_of. destruct (block_path s k) as [[y p]|] eqn:Ep; [|done].
    destruct (block_path_valid s _ y p Hl Hk0 Ep) as [Hvp _]. by apply (relabelled_node s ino ino' _ (ptrs_per_block s)). }
  split; try done.
  - split; [apply Hr| |].
    + intros q Hq. rewrite (relabelled_node s ino ino' q _ Hr Hq). by apply Hb.
    + intros q q' Hq Hq'. rewrite (relabelled_node s ino ino' q _ Hr Hq), (relabelled_node s ino ino' q' _ Hr Hq').
      by apply Hinj.
  - by rewrite (rl_dir _ _ Hr).
  - by rewrite (rl_size _ _ Hr).
  - intros k l Hkl. rewrite Hleaf by lia. by eapply Hblk.
  - intros k l Hkl. unfold block_bytes_of. rewrite Hleaf by lia. by eapply Hch.
Qed.

(** Relabelling an inode moves nothing. *)
Lemma relabelled_reaches (s s' : fs) i ino' names :
  layout s -> inode_written i ino' s s' -> relabelled (inode_at s i) ino' ->
  forall a b, reaches s names a b -> reaches s' names a b.
Proof.
  intros Hl Hw Hr. pose proof (same_geom _ _ (iw_same _ _ _ _ Hw)) as G.
  induction names as [|nm names IH]; intros a b; cbn [reaches]; [done|].
  case_bool_decide; [done|]. intros (ls & k & Ha & Hok & Hd & Hn & Hreach). exists ls, k. split_and!; try done.
  - by rewrite (geom_inode_num_ok s s' G).
  - rewrite (iw_at _ _ _ _ Hw) by done. eapply written_directory; [exact Hl|exact Hw|].
    case_decide; [|done]. subst a. by eapply relabelled_directory.
  - by apply IH.
Qed.

Lemma relabelled_names (s s' : fs) i ino' path j :
  layout s -> inode_written i ino' s s' -> relabelled (inode_at s i) ino' -> names_inode s path j -> names_inode s' path j.
Proof.
  intros Hl Hw Hr (rest & -> & Hj & Hok & H). exists rest. split_and!; [done|done| |].
  - by rewrite (geom_inode_num_ok s s' (same_geom _ _ (iw_same _ _ _ _ Hw))).
  - case_bool_decide; [done|]. by eapply relabelled_reaches.
Qed.

(** [ext2_chmod] and [ext2_chown] rewrite the inode the path names. *)
Lemma change_inode_spec H s path j f :
  cache_ok H s -> layout s -> room 1 H s -> names_inode s path j -> relabelled (inode_at s j) (f (inode_at s j)) ->
  wp (change_inode kmalloc_ok path f) (fun r s' => cache_ok H s' /\ r = EXT2_SUCCESS /\
    exists s1, frame s s1 /\ inode_written j (f (inode_at s j)) s1 s') s.
Proof using All.
  intros Hc Hl Hroom Hn Hr. unfold change_inode. wp_steps. wp_call resolve_spec; [exact Hc|done|done|exact Hn|].
  intros r s1 (Hc1 & Hf1 & l & ->). change (negb (EXT2_SUCCESS =? EXT2_SUCCESS)) with false.
  destruct Hn as (rest & _ & Hj & Hok & _). cbv iota. wp_steps.
  assert (forall s2, frame s s2 -> room 1 H s2) as Hroom'.
  { intros s2 [Hs _]. unfold room in *. rewrite (sf_max _ _ Hs). lia. }
  wp_call read_inode_spec; [exact HR|exact Hk|exact Hc1|by eapply frame_layout|by apply Hroom'|exact Hj| |].
  { by rewrite (geom_inode_num_ok s s1 (same_geom _ _ (proj1 Hf1))). }
  intros r s2 (Hc2 & Hf2 & ->). pose proof (frame_trans _ _ _ Hf1 Hf2) as Hf. rewrite (frame_inode_at s s1) by done.
  eapply wp_mono.
  - apply (write_inode_spec kmalloc_ok HR Hk H s2 j); [done|by eapply frame_layout|by apply Hroom'|done| |apply Hr].
    by rewrite (geom_inode_num_ok s s2 (same_geom _ _ (proj1 Hf))).
  - intros r s3 (Hc3 & -> & Hw). split_and!; [done|done|]. by exists s2.
Qed.

Lemma chmod_mode_bits mode old k :
  0 <= k < 16 -> 0 <= mode ->
  Z.testbit (chmod_mode mode old) k = if decide (k < 12) then Z.testbit mode k else Z.testbit old k.
Proof.
  intros Hk0 Hm. unfold chmod_mode, u16, EXT2_S_PERM_MASK. change 0xFFF with (Z.ones 12).
  rewrite Z.lor_spec, Z.mod_pow2_bits_low by lia. rewrite !Z.land_spec, Z.lnot_spec by lia.
  destruct (decide (k < 12)).
  - rewrite Z.ones_spec_low by lia. by rewrite andb_false_r, andb_true_r.
  - rewrite Z.ones_spec_high by lia. cbn. by rewrite andb_true_r, andb_false_r, orb_false_r.
Qed.

Lemma chmod_mode_range mode old : 0 <= mode -> 0 <= chmod_mode mode old < 2 ^ 16.
Proof.
  intros Hm. unfold chmod_mode, EXT2_S_PERM_MASK. apply lor_range; [lia|unfold u16; apply Z.mod_pos_bound; lia|].
  pose proof (land_range_r mode 0xFFF). lia.
Qed.

Lemma chmod_relabels ino mode :
  inode_ok ino -> 0 <= mode -> relabelled ino (set_mode (chmod_mode mode (i_mode ino)) ino).
Proof.
  intros [Hlen Hb] Hm. unfold INODE_BYTES in Hlen. pose proof (chmod_mode_range mode (i_mode ino) Hm) as Hr.
  unfold set_mode. split.
  - split; [by rewrite length_set16|]. apply bytes_write_at; [done|]. apply bytes_le16.
  - intros x Hx. unfold i_block, set16. apply get32_write_at_out; rewrite ?length_le16; lia.
  - unfold i_size, set16. apply get32_write_at_out; rewrite ?length_le16; lia.
  - unfold is_dir_mode, EXT2_S_IFDIR. change 0x4000 with (2 ^ 14). rewrite !land_pow2_ne0 by lia.
    unfold i_mode at 1. rewrite get16_set16_eq by lia. by rewrite chmod_mode_bits by lia.
Qed.
End path.

(** ** Access *)
Section access.
Context {D : Type} `{!BlockDevice D} `{!BlockDeviceLaws D} (kmalloc_ok : nat -> bool).
Context (HR : Reliable D) (Hk : memory_left kmalloc_ok).
Abbreviation fs := (ext2_fs D).

(** The requested operations are among those of the group of bits. *)
Definition permits (mode shift mask : Z) : bool :=
  forallb (fun k => negb (Z.testbit mask k) || Z.testbit mode (shift + k)) [0; 1; 2].

Lemma permits_spec mode shift mask :
  permits mode shift mask = true <->
  forall k, 0 <= k < 3 -> Z.testbit mask k = true -> Z.testbit mode (shift + k) = true.
Proof.
  unfold permits. rewrite forallb_forall. split.
  - intros H k Hkr Hm. specialize (H k). rewrite Hm in H. apply H. cbn. lia.
  - intros H k [<-|[<-|[<-|[]]]]; destruct (Z.testbit mask _) eqn:E; try done; cbn; (apply H; [lia|done]).
Qed.

Lemma permits_mask mode shift mask :
  0 <= shift -> 0 <= mask < 8 ->
  (Z.land (Z.land (Z.shiftr mode shift) 7) mask =? mask) = permits mode shift mask.
Proof.
  intros Hs Hm. apply eq_bool_prop_intro. rewrite !Is_true_true, permits_spec, Z.eqb_eq. split.
  - intros E k Hkr Hb. rewrite <- E, !Z.land_spec, Z.shiftr_spec in Hb by lia.
    apply andb_prop in Hb as [[Hb _]%andb_prop _]. by rewrite Z.add_comm.
  - intros Hp. apply Z.bits_inj'. intros k Hkr. rewrite !Z.land_spec, Z.shiftr_spec by lia.
    destruct (Z.testbit mask k) eqn:E; [|by rewrite andb_false_r]. rewrite andb_true_r.
    destruct (decide (k < 3)).
    + rewrite Z.add_comm, Hp by (done || lia). change 7 with (Z.ones 3). by rewrite Z.ones_spec_low by lia.
    + rewrite (testbit_high 3 mask k) in E by lia. done.
Qed.

Lemma access_shift_cases db u ino : access_shift db u ino = 6 \/ access_shift db u ino = 3 \/ access_shift db u ino = 0.
Proof. unfold access_shift. destruct (_ =? _); [by left|]. destruct (_ =? _); [right; by left|right; by right]. Qed.

Lemma access_spec H s path j db u mask :
  cache_ok H s -> layout s -> room 1 H s -> names_inode s path j -> 0 <= mask < 8 -> user_exists db u = true ->
  wp (ext2_access kmalloc_ok db path u mask) (fun r s' => cache_ok H s' /\ frame s s' /\
    r = if user_is_root db u || permits (i_mode (inode_at s j)) (access_shift db u (inode_at s j)) mask
        then EXT2_SUCCESS else EXT2_ERROR_PERM) s.
Proof using All.
  intros Hc Hl Hroom Hn Hm Hex. unfold ext2_access. rewrite Hex. cbn [negb].
  destruct (user_is_root db u); cbn [orb].
  { wp_steps. split_and!; [done|apply frame_refl|done]. }
  wp_steps. wp_call stat_spec; [exact HR|exact Hk|exact Hc|done|done|exact Hn|]. intros r s1 (Hc1 & Hf1 & ->).
  rewrite permits_mask by (done || (destruct (access_shift_cases db u (inode_at s j)) as [->|[->| ->]]; lia)).
  destruct (permits _ _ _); cbn [negb]; wp_steps; by split_and!.
Qed.

Lemma access_shift_mode db u ino v :
  inode_ok ino -> access_shift db u (set_mode v ino) = access_shift db u ino.
Proof.
  intros [Hlen _]. unfold INODE_BYTES in Hlen. unfold access_shift, i_uid, i_gid, set_mode, set16.
  by rewrite !get16_write_at_out by (rewrite ?length_le16; lia).
Qed.

(** What [chmod] by [u] leaves: the inode with the new permissions, all other
    inodes as they were, and the path as it was. *)
Record mode_changed (H : list Z) (path : list Z) (j mode : Z) (s s' : fs) : Prop := {
  mc_cache : cache_ok H s';
  mc_layout : layout s';
  mc_geom : geom s s';
  mc_names : names_inode s' path j;
  mc_inode : inode_at s' j = set_mode (chmod_mode mode (i_mode (inode_at s j))) (inode_at s j);
  mc_others : forall i, 0 <= i -> inode_num_ok s i = true -> i <> j -> inode_at s' i = inode_at s i
}.

Lemma chmod_spec H s path j mode :
  cache_ok H s -> layout s -> room 1 H s -> names_inode s path j -> 0 <= mode ->
  wp (ext2_chmod kmalloc_ok path mode) (fun r s' => r = EXT2_SUCCESS /\ mode_changed H path j mode s s') s.
Proof using All.
  intros Hc Hl Hroom Hn Hm. pose proof Hn as (rest & _ & Hj & Hok & _).
  pose proof (chmod_relabels _ mode (inode_at_ok H s j Hc Hl Hj Hok) Hm) as Hrel.
  unfold ext2_chmod. wp_call change_inode_spec; [exact HR|exact Hk|exact Hc|done|done|exact Hn|exact Hrel|].
  intros r s' (Hc' & -> & s1 & Hf & Hw). split; [done|].
  pose proof (same_geom _ _ (proj1 Hf)) as G1. pose proof (same_geom _ _ (iw_same _ _ _ _ Hw)) as G2.
  split; [done|apply Hw|by eapply geom_trans| | |].
  - eapply (relabelled_names s1); [by eapply frame_layout|exact Hw| |by eapply frame_names].
    by rewrite (frame_inode_at s s1).
  - rewrite (iw_at _ _ _ _ Hw) by (done || by rewrite (geom_inode_num_ok s s1 G1)). by rewrite decide_True.
  - intros i Hi Hiok Hne. rewrite (iw_at _ _ _ _ Hw) by (done || by rewrite (geom_inode_num_ok s s1 G1)).
    rewrite decide_False by done. by apply frame_inode_at.
Qed.

(** The lowest of the three bits for the owner, for the group of the file and
    for the others, of which a user gets the first that fits. *)
Definition class_bits (db : user_db) (u : Z) (ino : list Z) : Z :=
  match bool_decide (u16 u = i_uid ino), bool_decide (u16 (user_get_gid db u) = i_gid ino) with
  | true, _ => 6
  | false, true => 3
  | false, false => 0
  end.

Lemma access_shift_class db u ino : access_shift db u ino = class_bits db u ino.
Proof.
  unfold access_shift, class_bits.
  destruct (Z.eqb_spec (u16 u) (i_uid ino)); [by rewrite bool_decide_true|]. rewrite (bool_decide_false (u16 u = _)) by done.
  by destruct (Z.eqb_spec (u16 (user_get_gid db u)) (i_gid ino)); [rewrite bool_decide_true|rewrite bool_decide_false].
Qed.

(** C20: the permission bits that [ext2_chmod_as] stores are what
    [ext2_access] grants.  The owner and root may change them; from then on a
    user gets exactly the operations that the bits of the owner, of the group
    or of the others, whichever apply to this user, allow (root: all of
    them), and no other inode changes.  Everyone else gets EXT2_ERROR_PERM and
    changes nothing. *)
Theorem chmod_controls_access H s path j db u mode :
  cache_ok H s -> layout s -> room 1 H s -> names_inode s path j -> 0 <= mode -> user_exists db u = true ->
  exists r s1, ext2_chmod_as kmalloc_ok db path u mode s = Some (r, s1) /\
    if user_is_root db u || (i_uid (inode_at s j) =? u16 u) then
      r = EXT2_SUCCESS /\ mode_changed H path j mode s s1 /\
      forall v mask, user_exists db v = true -> 0 <= mask < 8 ->
        exists r2 s2, ext2_access kmalloc_ok db path v mask s1 = Some (r2, s2) /\
          (r2 = EXT2_SUCCESS <-> user_is_root db v = true \/
             forall k, 0 <= k < 3 -> Z.testbit mask k = true ->
               Z.testbit mode (class_bits db v (inode_at s j) + k) = true)
    else r = EXT2_ERROR_PERM /\ frame s s1.
Proof using All.
  intros Hc Hl Hroom Hn Hm Hex. pose proof Hn as (rest & _ & Hj & Hok & _).
  assert (forall s0, frame s s0 -> cache_ok H s0 ->
    wp (ext2_chmod kmalloc_ok path mode) (fun r s' => r = EXT2_SUCCESS /\ mode_changed H path j mode s s') s0) as Hchmod.
  { intros s0 Hf0 Hc0. pose proof (same_geom _ _ (proj1 Hf0)) as G0.
    wp_call chmod_spec; [exact Hc0|by eapply frame_layout| |by eapply frame_names|done|].
    { unfold room in *. rewrite (sf_max _ _ (proj1 Hf0)). lia. }
    intros r s' (-> & [C L G N I O]). split; [done|]. rewrite (frame_inode_at s s0 j Hf0) in I.
    split; try done; [by eapply geom_trans|].
    intros i Hi Hiok Hne. rewrite O by (done || by rewrite (geom_inode_num_ok s s0 G0)). by apply frame_inode_at. }
  assert (wp (ext2_chmod_as kmalloc_ok db path u mode) (fun r s1 =>
    if user_is_root db u || (i_uid (inode_at s j) =? u16 u) then r = EXT2_SUCCESS /\ mode_changed H path j mode s s1
    else r = EXT2_ERROR_PERM /\ frame s s1) s) as Hwp.
  { unfold ext2_chmod_as. rewrite Hex. cbn [negb]. destruct (user_is_root db u); cbn [orb negb].
    { by apply Hchmod; [apply frame_refl|]. }
    wp_steps. wp_call stat_spec; [exact HR|exact Hk|exact Hc|done|done|exact Hn|]. intros r s1 (Hc1 & Hf1 & ->).
    destruct (_ =? _); cbn [negb]; [by apply Hchmod|]. by wp_steps. }
  apply wp_run in Hwp as (r & s1 & E & Hr). exists r, s1. split; [done|].
  destruct (user_is_root db u || _); [|done]. destruct Hr as [-> Hmc]. split; [done|]. split; [done|].
  intros v mask Hv Hmask. pose proof Hmc as [C L G N I O].
  assert (room 1 H s1) as Hroom1 by (unfold room in *; rewrite (ge_max _ _ G); lia).
  destruct (proj1 (wp_run _ _ _) (access_spec H s1 path j db v mask C L Hroom1 N Hmask Hv)) as (r2 & s2 & E2 & _ & _ & ->).
  exists (if user_is_root db v || permits (i_mode (inode_at s1 j)) (access_shift db v (inode_at s1 j)) mask
          then EXT2_SUCCESS else EXT2_ERROR_PERM), s2. split; [done|].
  pose proof (inode_at_ok H s j Hc Hl Hj Hok) as Hino. rewrite I, access_shift_mode by done.
  unfold i_mode at 1. unfold set_mode. rewrite get16_set16_eq; [|lia| |by apply chmod_mode_range].
  2: { destruct Hino as [-> _]. unfold INODE_BYTES. lia. }
  rewrite <- access_shift_class. set (sh := access_shift db v (inode_at s j)).
  assert (sh = 6 \/ sh = 3 \/ sh = 0) as Hsh by apply access_shift_cases.
  assert (permits (chmod_mode mode (i_mode (inode_at s j))) sh mask = true <->
    forall k, 0 <= k < 3 -> Z.testbit mask k = true -> Z.testbit mode (sh + k) = true) as Hp.
  { rewrite permits_spec. split; intros Hb k Hkr Hkm; specialize (Hb k Hkr Hkm).
    - rewrite chmod_mode_bits, decide_True in Hb by lia. done.
    - rewrite chmod_mode_bits, decide_True by lia. done. }
  rewrite <- Hp. destruct (user_is_root db v); cbn [orb]; [by split; [left|]|].
  clear E2. destruct (permits _ _ _); [by split; auto|]. split; [done|]. by intros [|].
Qed.
End access.

(** ** An example: the root directory of a new file system, made private *)
Definition perm_db : user_db :=
  mkDb (mkGroup (str "root") 0 ROOT true :: mkGroup (str "users") 1 USER true :: replicate 122 null_group)
    (mkUser 0 0 (str "root") [] (str "/") (str "/bin/mountshell") true
     :: mkUser 1 1 (str "guest") [] (str "/") (str "/bin/mountshell") true :: replicate 122 null_user) 0.

Lemma demo_root_path : names_inode demo_mounted [47] 2.
Proof. exists []. split; [reflexivity|]. split; [lia|]. split; [exact demo_num_ok|reflexivity]. Qed.

Lemma demo_room1 : room 1 [] demo_mounted.
Proof. pose proof demo_room as H. unfold room in *. lia. Qed.

Lemma chmod_controls_access_witness :
  user_is_root perm_db 0 = true /\ user_is_root perm_db 1 = false /\
  exists s1 r2 s2, ext2_chmod_as mem perm_db [47] 0 448 demo_mounted = Some (EXT2_SUCCESS, s1) /\
    ext2_access mem perm_db [47] 1 ACCESS_READ s1 = Some (r2, s2) /\
    (r2 = EXT2_SUCCESS -> access_shift perm_db 1 (inode_at demo_mounted 2) = 6).
Proof.
  split; [vm_compute; reflexivity|]. split; [vm_compute; reflexivity|].
  destruct (chmod_controls_access mem mem_disk_reliable (fun _ => eq_refl) [] demo_mounted [47] 2 perm_db 0 448)
    as (r & s1 & E & Hr).
  - exact demo_cache.
  - exact demo_layout.
  - exact demo_room1.
  - exact demo_root_path.
  - lia.
  - vm_compute. reflexivity.
  - assert (user_is_root perm_db 0 = true) as Eroot by (vm_compute; reflexivity). rewrite Eroot in Hr. cbn [orb] in Hr.
    destruct Hr as (-> & _ & Hacc). destruct (Hacc 1 ACCESS_READ) as (r2 & s2 & E2 & Hiff); [vm_compute; reflexivity|unfold ACCESS_READ; lia|].
    exists s1, r2, s2. split; [exact E|]. split; [exact E2|]. intros Hok. apply Hiff in Hok as [Hroot|Hbits].
    + vm_compute in Hroot. discriminate Hroot.
    + specialize (Hbits 2). rewrite <- access_shift_class in Hbits. destruct (access_shift_cases perm_db 1 (inode_at demo_mounted 2)) as [Es|[Es|Es]];
        [exact Es| |]; rewrite Es in Hbits; assert (false = true) as Hf by (apply Hbits; [lia|reflexivity]); discriminate Hf.
Defined.
