(* ===== verification/Vfs.v ===== *)
(** * The virtual file system (src/kernel/hal/vfs.c, vfs.h, src/kernel/device/device.c)

    The table of open files, the mount table, the registry of devices and the
    calls on them, over the ext2 driver, the UNIX-domain sockets, the user
    database and the processes.

    What the C code reaches through pointers is stored by pointer: the mounted
    file systems, the file handles and the directory iterators, which
    [ext2_open] and [ext2_opendir] allocate; [next_ptr] is the next address
    handed out, and addresses are not used twice.  A path is a pointer too:
    [strings] says which string stands there now, since the table keeps the
    pointer of the caller and the code reads the string again later.  Using a
    handle that was freed, and indexing the table outside its bounds, are
    undefined in C: such a call has no result ([None]), like one that does not
    end.

    A call on a socket may have to wait: [Wait] is the yield, after which the
    call goes on with the round of UnixSocket.v it stopped in. *)

From stdpp Require Import strings.
From S2P Require Import Prelude Bytes StateMonad Errno User UnixSocket BlockDev Ext2Cache Ext2 Ext2Perm.
#[local] Open Scope Z_scope.

Definition MAX_OPEN_FILES : Z := 100.
Definition MAX_MOUNTS : Z := 16.
Definition MAX_DEVICES : Z := 32.
Definition KERNEL : Z := 1.
Definition AF_UNIX : Z := 1.
Definition UID_ROOT : Z := 0.

(** The special paths, which [VFS_Open] answers with their place here. *)
Definition special_paths : list (list Z) := [str "/dev/stdin"; str "/dev/stdout"; str "/dev/stderr"; str "/dev/stddbg"].
Definition check_path (p : list Z) : Z :=
  match list_find (fun q => q = p) special_paths with Some (i, _) => Z.of_nat i | None => -1 end.

(** The processes: what the sockets use, and the owner of a process. *)
Class VfsProcs (P : Type) `{!ProcOps P} := { proc_owner : P -> Z -> Z }.

Section vfs.
Context {D P W : Type} `{!BlockDevice D} `{!ProcOps P} `{!VfsProcs P}.
Context (kmalloc_ok : nat -> bool) (garbage : list Z).

(** [device_t]: its functions run on the processes and on what the drivers of
    the devices keep. *)
Record device_t := mkDeviceT {
  dv_path : list Z;
  dispatch : Z -> Z -> Z -> M (P * W) Z;
  dv_write : option (list Z -> M (P * W) Z);
  dv_read : option (Z -> M (P * W) (Z * list Z))
}.

(** [VFS_File_t] without [disk_type], which nothing uses. *)
Record vfs_file := mkVfsFile {
  of_path : Z; of_file : Z; of_iter : Z; of_fs : Z; of_flags : Z; of_pid : Z; of_owner : Z;
  of_exists : bool; of_is_dir : bool; of_dev : option device_t; of_is_dev : bool; of_write_all : bool;
  of_is_socket : bool; of_sock : Z
}.
Definition null_vfs_file : vfs_file := mkVfsFile 0 0 0 0 0 0 0 false false None false false false 0.

(** [vfs_mount_t]; [mt_dev] is the place of the device in the registry. *)
Record vfs_mount := mkMount { mountpoint : list Z; mt_fs : Z; mt_dev : Z; mt_active : bool }.
Definition null_mount : vfs_mount := mkMount [] 0 0 false.

(** [block_devices]: the name of a device and, unless a mounted file system
    holds it, the device. *)
Record kernel := mkKernel {
  open_files : list vfs_file;
  mount_table : list vfs_mount;
  rootfs : Z;
  filesystems : gmap Z (ext2_fs D);
  files : gmap Z (Z * ext2_file);
  iters : gmap Z (Z * ext2_dir_iter);
  next_ptr : Z;
  devices : list (option device_t);
  block_devices : list (option (list Z * option D));
  sockets : sys P;
  user_table : user_db;
  world : W;
  strings : Z -> list Z
}.

Definition set_open (x : list vfs_file) (k : kernel) : kernel :=
  mkKernel x (mount_table k) (rootfs k) (filesystems k) (files k) (iters k) (next_ptr k) (devices k)
    (block_devices k) (sockets k) (user_table k) (world k) (strings k).
Definition set_mounts (x : list vfs_mount) (k : kernel) : kernel :=
  mkKernel (open_files k) x (rootfs k) (filesystems k) (files k) (iters k) (next_ptr k) (devices k)
    (block_devices k) (sockets k) (user_table k) (world k) (strings k).
Definition set_filesystems (x : gmap Z (ext2_fs D)) (k : kernel) : kernel :=
  mkKernel (open_files k) (mount_table k) (rootfs k) x (files k) (iters k) (next_ptr k) (devices k)
    (block_devices k) (sockets k) (user_table k) (world k) (strings k).
Definition set_files (x : gmap Z (Z * ext2_file)) (k : kernel) : kernel :=
  mkKernel (open_files k) (mount_table k) (rootfs k) (filesystems k) x (iters k) (next_ptr k) (devices k)
    (block_devices k) (sockets k) (user_table k) (world k) (strings k).
Definition set_iters (x : gmap Z (Z * ext2_dir_iter)) (k : kernel) : kernel :=
  mkKernel (open_files k) (mount_table k) (rootfs k) (filesystems k) (files k) x (next_ptr k) (devices k)
    (block_devices k) (sockets k) (user_table k) (world k) (strings k).
Definition set_next (x : Z) (k : kernel) : kernel :=
  mkKernel (open_files k) (mount_table k) (rootfs k) (filesystems k) (files k) (iters k) x (devices k)
    (block_devices k) (sockets k) (user_table k) (world k) (strings k).
Definition set_devices (x : list (option device_t)) (k : kernel) : kernel :=
  mkKernel (open_files k) (mount_table k) (rootfs k) (filesystems k) (files k) (iters k) (next_ptr k) x
    (block_devices k) (sockets k) (user_table k) (world k) (strings k).
Definition set_blocks (x : list (option (list Z * option D))) (k : kernel) : kernel :=
  mkKernel (open_files k) (mount_table k) (rootfs k) (filesystems k) (files k) (iters k) (next_ptr k) (devices k)
    x (sockets k) (user_table k) (world k) (strings k).
Definition set_sockets (x : sys P) (k : kernel) : kernel :=
  mkKernel (open_files k) (mount_table k) (rootfs k) (filesystems k) (files k) (iters k) (next_ptr k) (devices k)
    (block_devices k) x (user_table k) (world k) (strings k).
Definition set_world (x : W) (k : kernel) : kernel :=
  mkKernel (open_files k) (mount_table k) (rootfs k) (filesystems k) (files k) (iters k) (next_ptr k) (devices k)
    (block_devices k) (sockets k) (user_table k) x (strings k).

(** The first part of [VFS_Init], on the memory [kmalloc] gave for the table
    and the root file system that its second part mounts at [root]. *)
Definition init_entry (f : vfs_file) : vfs_file :=
  mkVfsFile (of_path f) 0 0 0 (of_flags f) (of_pid f) (of_owner f)
    false false (of_dev f) (of_is_dev f) (of_write_all f) false (of_sock f).
Definition init_mount (m : vfs_mount) : vfs_mount := mkMount (mountpoint m) (mt_fs m) (mt_dev m) false.
Definition init_tables (memory : list vfs_file) (k : kernel) : kernel :=
  mkKernel (map init_entry memory) (map init_mount (mount_table k)) (rootfs k) (filesystems k) (files k) (iters k)
    (next_ptr k) (devices k) (block_devices k) (unix_sock_init (sockets k)) (user_table k) (world k) (strings k).

(** ** Reaching the parts *)

Definition entry (k : kernel) (fd : Z) : vfs_file := aget null_vfs_file (open_files k) fd.
Definition put_entry (fd : Z) (f : vfs_file) (k : kernel) : kernel := set_open (aset (open_files k) fd f) k.
Definition bad_fd (fd : Z) : bool := (fd <? 0) || (MAX_OPEN_FILES <=? fd).
Definition current_pid (k : kernel) : Z := current (sockets k).
Definition owner_of (k : kernel) (pid : Z) : Z := proc_owner (procs (sockets k)) pid.

(** Run a call of the ext2 driver on the file system at [p]. *)
Definition on_fs {A} (p : Z) (m : M (ext2_fs D) A) : M kernel A := fun k =>
  match filesystems k !! p with
  | None => None
  | Some s => match m s with Some (a, s') => Some (a, set_filesystems (<[p := s']> (filesystems k)) k) | None => None end
  end.

(** Run a call of the sockets. *)
Definition on_socks {A} (f : sys P -> sys P * A) : M kernel A := fun k =>
  let '(st, a) := f (sockets k) in Some (a, set_sockets st k).

(** Run a function of a device. *)
Definition on_device {A} (m : M (P * W) A) : M kernel A := fun k =>
  match m (procs (sockets k), world k) with
  | Some (a, (p, w)) => Some (a, set_world w (set_sockets (mkSys (sock_table (sockets k)) p) k))
  | None => None
  end.

(** The handle at a pointer, and the file system it belongs to. *)
Definition file_at (p : Z) : M kernel (Z * ext2_file) := fun k =>
  match files k !! p with Some x => Some (x, k) | None => None end.
Definition iter_at (p : Z) : M kernel (Z * ext2_dir_iter) := fun k =>
  match iters k !! p with Some x => Some (x, k) | None => None end.
Definition new_file (fs : Z) (f : ext2_file) : M kernel Z := fun k =>
  Some (next_ptr k, set_next (next_ptr k + 1) (set_files (<[next_ptr k := (fs, f)]> (files k)) k)).
Definition new_iter (fs : Z) (it : ext2_dir_iter) : M kernel Z := fun k =>
  Some (next_ptr k, set_next (next_ptr k + 1) (set_iters (<[next_ptr k := (fs, it)]> (iters k)) k)).

(** [ext2_close] and [ext2_closedir] free the handle. *)
Definition close_file (p : Z) : M kernel unit :=
  let* (fs, f) := file_at p in
  do* on_fs fs (ext2_close kmalloc_ok f) in
  modify (fun k => set_files (delete p (files k)) k).
Definition close_iter (p : Z) : M kernel unit :=
  let* (fs, it) := iter_at p in
  do* on_fs fs (ext2_closedir kmalloc_ok it) in
  modify (fun k => set_iters (delete p (iters k)) k).

Definition an_error {A} (code : Z) : M A Z := ret (int_error code).

(** ** Paths and access *)

Definition vfs_caller_uid (k : kernel) : Z :=
  let pid := current_pid k in
  if pid <? 0 then UID_ROOT
  else
    let uid := owner_of k pid in
    if negb (user_exists (user_table k) uid) then UID_ROOT else uid.

(** The loop of [resolve_fs]: the best file system, the path in it and how
    long its mount point is. *)
Definition resolve_step (p : list Z) (m : vfs_mount) (best : Z * list Z * Z) : Z * list Z * Z :=
  let '(best_fs, best_rel, best_len) := best in
  if negb (mt_active m) then best
  else
    let mplen := Z.of_nat (length (mountpoint m)) in
    if mplen <=? best_len then best
    else if bool_decide (take (Z.to_nat mplen) p = mountpoint m) then
      let c := aget 0 p mplen in
      if (c =? 47) || (c =? 0) then (mt_fs m, (if c =? 47 then drop (Z.to_nat mplen) p else [47]), mplen) else best
    else best.

Definition resolve_fs (k : kernel) (p : list Z) : Z * list Z :=
  fst (for_range (fun i => resolve_step p (aget null_mount (mount_table k) i)) 0 (Z.to_nat MAX_MOUNTS)
         (rootfs k, p, 0)).

Definition vfs_access_ok (fs : Z) (rel : list Z) (mask : Z) (privileged : bool) : M kernel bool :=
  if privileged then ret true
  else
    let* k := gets id in
    let uid := vfs_caller_uid k in
    if user_is_root (user_table k) uid then ret true
    else
      let* r := on_fs fs (ext2_access kmalloc_ok (user_table k) rel uid mask) in
      ret (r =? EXT2_SUCCESS).
End vfs.

Arguments device_t : clear implicits.
Arguments vfs_file : clear implicits.
Arguments kernel : clear implicits.

Section calls.
Context {D P W : Type} `{!BlockDevice D} `{!ProcOps P} `{!VfsProcs P}.
Context (kmalloc_ok : nat -> bool) (garbage : list Z).
Abbreviation vk := (kernel D P W).
Abbreviation file_t := (vfs_file P W).

(** ** Mounting *)

(** [block_get]. *)
Definition drive_named (source : list Z) (k : vk) (i : Z) : bool :=
  match aget None (block_devices k) i with Some (nm, _) => bool_decide (nm = source) | None => false end.

Definition free_mount (k : vk) : option Z :=
  find_first (fun i => negb (mt_active (aget null_mount (mount_table k) i))) 0 (Z.to_nat MAX_MOUNTS).

(** Unmounting gives the device back. *)
Definition unmount_fs (m : vfs_mount) : M vk unit :=
  do* on_fs (mt_fs m) ext2_unmount in
  modify (fun k =>
    let k1 := match filesystems k !! mt_fs m, aget None (block_devices k) (mt_dev m) with
              | Some s, Some (nm, _) => set_blocks (aset (block_devices k) (mt_dev m) (Some (nm, Some (device s)))) k
              | _, _ => k
              end in
    set_filesystems (delete (mt_fs m) (filesystems k1)) k1).

Definition VFS_Mount (source target : Z) : M vk Z :=
  let* k := gets id in
  match find_first (drive_named (strings k source) k) 0 (length (block_devices k)) with
  | None => an_error ENODEV
  | Some i =>
      match aget None (block_devices k) i with
      | Some (nm, Some dev) =>
          match ext2_mount kmalloc_ok dev with
          | None => diverge
          | Some (dev', None) =>
              do* modify (set_blocks (aset (block_devices k) i (Some (nm, Some dev')))) in
              an_error EIO
          | Some (dev', Some s) =>
              let fs := next_ptr k in
              let m := mkMount (take 255 (strings k target)) fs i true in
              do* modify (fun k => set_next (fs + 1) (set_filesystems (<[fs := s]> (filesystems k))
                                     (set_blocks (aset (block_devices k) i (Some (nm, None))) k))) in
              match free_mount k with
              | Some j => do* modify (fun k => set_mounts (aset (mount_table k) j m) k) in ret 0
              | None => do* unmount_fs m in an_error ENFILE
              end
          end
      | _ => diverge
      end
  end.

Definition deactivate (m : vfs_mount) : vfs_mount := mkMount (mountpoint m) (mt_fs m) (mt_dev m) false.

Definition VFS_Unmount_Path (target : Z) : M vk Z :=
  let* k := gets id in
  let at_target i := mt_active (aget null_mount (mount_table k) i)
                     && bool_decide (mountpoint (aget null_mount (mount_table k) i) = strings k target) in
  match find_first at_target 0 (Z.to_nat MAX_MOUNTS) with
  | None => an_error ENOENT
  | Some i =>
      let m := aget null_mount (mount_table k) i in
      do* unmount_fs m in
      do* modify (fun k => set_mounts (aset (mount_table k) i (deactivate m)) k) in
      ret 0
  end.

(** [mounted]: whether the root file system is there. *)
Definition VFS_Unmount (mounted : bool) : M vk unit :=
  do* (if mounted then let* k := gets id in on_fs (rootfs k) ext2_unmount else ret 0) in
  do* for_each (fun i =>
        let* k := gets id in
        let m := aget null_mount (mount_table k) i in
        if mt_active m then
          do* unmount_fs m in
          do* modify (fun k => set_mounts (aset (mount_table k) i (deactivate m)) k) in
          ret (@None unit)
        else ret None) (seqZ 0 MAX_MOUNTS) in
  ret tt.

(** ** Creating *)
Definition VFS_Create (path : Z) (isDir : bool) : M vk Z :=
  let* k := gets id in
  let '(fs, rel) := resolve_fs k (strings k path) in
  let* ok := vfs_access_ok kmalloc_ok fs rel ACCESS_WRITE false in
  if negb ok then an_error EPERM
  else if isDir then
    let* result := on_fs fs (ext2_mkdir kmalloc_ok rel garbage) in
    if result =? EXT2_SUCCESS then ret 0 else an_error ENOTDIR
  else
    let* result := on_fs fs (ext2_create kmalloc_ok rel 420 garbage) in
    if result =? EXT2_SUCCESS then ret 0 else an_error EIO.

(** ** The registry of devices *)
Definition device_is (p : list Z) (k : vk) (i : Z) : bool :=
  match aget None (devices k) i with Some d => bool_decide (dv_path d = p) | None => false end.

(** [path]: a pointer to the string [dv_path dev]. *)
Definition device_register (dev : device_t P W) (path : Z) : M vk bool :=
  let* k := gets id in
  match find_first (fun i => match aget None (devices k) i with None => true | Some _ => false end)
          0 (Z.to_nat MAX_DEVICES) with
  | Some i =>
      do* modify (fun k => set_devices (aset (devices k) i (Some dev)) k) in
      do* VFS_Create path false in
      ret true
  | None => ret false
  end.

Definition device_get (p : list Z) (k : vk) : option (device_t P W) :=
  match find_first (device_is p k) 0 (Z.to_nat MAX_DEVICES) with
  | Some i => aget None (devices k) i
  | None => None
  end.

Definition device_unregister (p : list Z) (k : vk) : vk * bool :=
  match find_first (device_is p k) 0 (Z.to_nat MAX_DEVICES) with
  | Some i => (set_devices (aset (devices k) i None) k, true)
  | None => (k, false)
  end.

(** ** Opening *)
Definition free_entry (from : Z) (k : vk) : option Z :=
  find_first (fun i => negb (of_exists (entry k i))) from (Z.to_nat (MAX_OPEN_FILES - from)).

Definition open_pid (k : vk) (privileged : bool) : Z := if privileged then -1 else current_pid k.

(** The stores into a free entry; what they leave alone stays. *)
Definition dir_entry (path iter fs owner pid : Z) (privileged : bool) (f : file_t) : file_t :=
  mkVfsFile path 0 iter fs (if privileged then KERNEL else of_flags f) pid owner
    true true (of_dev f) false false false (of_sock f).
Definition file_entry (path file fs owner pid : Z) (privileged : bool) (dev : option (device_t P W)) (f : file_t) : file_t :=
  mkVfsFile path file 0 fs (if privileged then KERNEL else of_flags f) pid owner
    true false (match dev with Some _ => dev | None => of_dev f end)
    (match dev with Some _ => true | None => of_is_dev f end) false false (of_sock f).

Definition is_directory (fs : Z) (rel : list Z) : M vk bool :=
  let* r := on_fs fs (ext2_stat kmalloc_ok rel) in
  ret (match r with inr inode => Z.land (i_mode inode) 0xF000 =? EXT2_S_IFDIR | inl _ => false end).

Definition VFS_Open (path : Z) (privileged : bool) : M vk Z :=
  let* k := gets id in
  let p := strings k path in
  let response := check_path p in
  if negb (response =? -1) && negb privileged then ret response
  else
    let '(fs, rel) := resolve_fs k p in
    let* ok := vfs_access_ok kmalloc_ok fs rel ACCESS_READ privileged in
    if negb ok then an_error EPERM
    else
      let caller_uid := if privileged then UID_ROOT else vfs_caller_uid k in
      let pid := open_pid k privileged in
      let* dir := is_directory fs rel in
      if dir then
        let* it := on_fs fs (ext2_opendir kmalloc_ok rel) in
        match it with
        | None => an_error ENOTDIR
        | Some it =>
            let* iter := new_iter fs it in
            match free_entry 0 k with
            | Some i =>
                do* modify (fun k => put_entry i (dir_entry path iter fs caller_uid pid privileged (entry k i)) k) in
                ret i
            | None => do* close_iter kmalloc_ok iter in an_error EMFILE
            end
        end
      else
        let* f := on_fs fs (ext2_open kmalloc_ok rel) in
        match f with
        | None => an_error ENOENT
        | Some f =>
            let* file := new_file fs f in
            let dev := device_get p k in
            match free_entry 0 k with
            | Some i =>
                do* modify (fun k => put_entry i (file_entry path file fs caller_uid pid privileged
                                                    dev (entry k i)) k) in
                ret i
            | None => do* close_file kmalloc_ok file in an_error EMFILE
            end
        end.

(** [VFS_ioctl] does not test [fd]. *)
Definition VFS_ioctl (fd req arg : Z) : M vk Z :=
  let* k := gets id in
  if bad_fd fd then diverge
  else
    let f := entry k fd in
    if negb (of_exists f) || negb (of_is_dev f) || negb (of_pid f =? current_pid k) then an_error EBADF
    else match of_dev f with Some d => on_device (dispatch d (current_pid k) req arg) | None => diverge end.

(** ** Reading and writing *)

Definition progress_result (p : progress) : outcome Z := match p with Done r => Ret r | _ => Wait end.

Definition sock_write (id : Z) (buf : list Z) : M vk (outcome Z) := fun k =>
  match unix_sock_write id buf (sockets k) with
  | Some (st, p) => Some (progress_result p, set_sockets st k)
  | None => None
  end.

Definition returns {S} (m : M S Z) : M S (outcome Z) := let* r := m in ret (Ret r).

(** The store of a handle back behind its pointer. *)
Definition put_file (p : Z) (x : Z * ext2_file) : M vk unit := modify (fun k => set_files (<[p := x]> (files k)) k).

(** [count] is the length of [buf]. *)
Definition VFS_Write (fd : Z) (buf : list Z) (privileged : bool) : M vk (outcome Z) :=
  let* k := gets id in
  if bad_fd fd then returns (an_error EBADF)
  else
    let f := entry k fd in
    if negb (of_exists f) then returns (an_error EBADF)
    else if of_is_socket f then
      if negb (of_pid f =? current_pid k) then returns (an_error EACCES)
      else sock_write (of_sock f) buf
    else if negb privileged && negb (of_pid f =? current_pid k) && negb (of_write_all f) then returns (an_error EACCES)
    else
      let '(_, rel) := resolve_fs k (strings k (of_path f)) in
      let* ok := if of_is_dev f then ret true else vfs_access_ok kmalloc_ok (of_fs f) rel ACCESS_WRITE privileged in
      if negb ok then returns (an_error EACCES)
      else if of_file f =? 0 then returns (an_error EBADF)
      else
        match (if of_is_dev f then match of_dev f with Some d => dv_write d | None => None end else None) with
        | Some write => returns (on_device (write buf))
        | None =>
            let* (fs, h) := file_at (of_file f) in
            let* (result, h') := on_fs fs (ext2_write kmalloc_ok h (take (Z.to_nat (u32 (Z.of_nat (length buf)))) buf)) in
            do* put_file (of_file f) (fs, h') in
            returns (if result <? 0 then an_error EIO else ret result)
        end.

(** The result and what is stored in the buffer. *)
Definition failed (code : Z) : M vk (outcome (Z * list Z)) := ret (Ret (int_error code, [])).

Definition VFS_Read (fd count : Z) : M vk (outcome (Z * list Z)) :=
  let* k := gets id in
  if bad_fd fd then failed EBADF
  else
    let f := entry k fd in
    if negb (of_exists f) then failed EBADF
    else if of_is_socket f then
      if negb (of_pid f =? current_pid k) then failed EACCES
      else on_socks (unix_sock_read (of_sock f) count)
    else if negb (of_pid f =? -1) && negb (of_pid f =? current_pid k) then failed EACCES
    else if of_file f =? 0 then failed EBADF
    else
      match (if of_is_dev f then match of_dev f with Some d => dv_read d | None => None end else None) with
      | Some read => let* r := on_device (read count) in ret (Ret r)
      | None =>
          let* (fs, h) := file_at (of_file f) in
          let* ((result, got), h') := on_fs fs (ext2_read kmalloc_ok h (u32 count)) in
          do* put_file (of_file f) (fs, h') in
          if result <? 0 then ret (Ret (int_error EIO, got)) else ret (Ret (result, got))
      end.

Definition setwriteall (fd : Z) (k : vk) : vk :=
  let f := entry k fd in
  put_entry fd (mkVfsFile (of_path f) (of_file f) (of_iter f) (of_fs f) (of_flags f) (of_pid f) (of_owner f)
    (of_exists f) (of_is_dir f) (of_dev f) (of_is_dev f) true (of_is_socket f) (of_sock f)) k.

(** ** Closing *)
Definition closed_socket (f : file_t) : file_t :=
  mkVfsFile (of_path f) (of_file f) (of_iter f) (of_fs f) (of_flags f) (of_pid f) (of_owner f)
    false (of_is_dir f) (of_dev f) (of_is_dev f) (of_write_all f) false (of_sock f).
Definition closed_entry (file iter : Z) (f : file_t) : file_t :=
  mkVfsFile (of_path f) file iter (of_fs f) (of_flags f) (of_pid f) (of_owner f)
    false false (of_dev f) (of_is_dev f) (of_write_all f) (of_is_socket f) (of_sock f).

Definition VFS_Close (fd : Z) (privileged : bool) : M vk Z :=
  let* k := gets id in
  if bad_fd fd then an_error EBADF
  else
    let f := entry k fd in
    if negb (of_exists f) then an_error EBADF
    else if of_is_socket f then
      if negb privileged && negb (of_pid f =? current_pid k) then an_error EACCES
      else
        do* on_socks (fun st => (unix_sock_destroy (of_sock f) st, tt)) in
        do* modify (put_entry fd (closed_socket f)) in
        ret 0
    else if negb privileged && negb (Z.land (of_flags f) KERNEL =? 0) then an_error EACCES
    else if negb privileged && negb (of_pid f =? current_pid k) then an_error EACCES
    else if of_is_dir f && negb (of_iter f =? 0) then
      do* close_iter kmalloc_ok (of_iter f) in
      do* modify (put_entry fd (closed_entry (of_file f) 0 f)) in
      ret 0
    else if negb (of_file f =? 0) then
      do* close_file kmalloc_ok (of_file f) in
      do* modify (put_entry fd (closed_entry 0 (of_iter f) f)) in
      ret 0
    else do* modify (put_entry fd (closed_entry (of_file f) (of_iter f) f)) in ret 0.

(** ** Directories *)

(** [sizeof(struct linux_dirent64)] and the stores of one entry. *)
Definition DIRENT_SIZE : Z := 19.
Definition le64 (v : Z) : list Z := le32 (v mod 2 ^ 32) ++ le32 (v / 2 ^ 32 mod 2 ^ 32).
Definition dirent_stores (at_ reclen inode ty : Z) (nm : list Z) : list (Z * list Z) :=
  [(at_, le64 inode); (at_ + 8, le64 (at_ + reclen)); (at_ + 16, le16 (u16 reclen)); (at_ + 18, [ty]); (at_ + 19, nm ++ [0])].
Definition dirent_len (nm : list Z) : Z := Z.land (DIRENT_SIZE + Z.of_nat (length nm) + 1 + 7) (Z.lnot 7).

(** The loop: how much is written, and the stores so far. *)
Fixpoint getdents_loop (fuel : nat) (iter count written : Z) (out : list (Z * list Z)) : M vk (Z * list (Z * list Z)) :=
  match fuel with
  | O => diverge
  | S fuel' =>
      if negb (written <? count) then ret (int32 written, out)
      else
        let* (fs, it) := iter_at iter in
        let* (r, it') := on_fs fs (ext2_readdir kmalloc_ok it) in
        do* modify (fun k => set_iters (<[iter := (fs, it')]> (iters k)) k) in
        match r with
        | inl _ => ret (int32 written, out)
        | inr (nm0, inode, ty) =>
            let nm := cstr nm0 in
            let reclen := dirent_len nm in
            if count <? written + reclen then ret (int32 written, out)
            else getdents_loop fuel' iter count (written + reclen) (out ++ dirent_stores written reclen inode ty nm)
        end
  end.

Definition VFS_GetDents64 (fd count : Z) : M vk (Z * list (Z * list Z)) :=
  let* k := gets id in
  let f := entry k fd in
  if bad_fd fd then ret (int_error EBADF, [])
  else if negb (of_exists f) || negb (of_is_dir f) || (of_iter f =? 0) then ret (int_error ENOTDIR, [])
  else if negb (of_pid f =? current_pid k) then ret (int_error EACCES, [])
  else getdents_loop (S (Z.to_nat count)) (of_iter f) count 0 [].

(** [flags & USER_WRITE] is always 0. *)
Definition VFS_Set_Pos (fd pos : Z) (privileged : bool) : M vk Z :=
  let* k := gets id in
  let f := entry k fd in
  if bad_fd fd then an_error EBADF
  else if negb (of_exists f) || (of_file f =? 0) then an_error EBADF
  else if negb privileged && negb (Z.land (of_flags f) KERNEL =? 0) then an_error EACCES
  else if negb privileged && negb (of_pid f =? current_pid k) then an_error EACCES
  else
    let* (fs, h) := file_at (of_file f) in
    let '(result, h') := ext2_seek h pos EXT2_SEEK_SET in
    do* put_file (of_file f) (fs, h') in
    if result =? EXT2_SUCCESS then ret 0 else an_error ESPIPE.
End calls.

(** ** Sockets *)
Section sockets.
Context {D P W : Type} `{!BlockDevice D} `{!ProcOps P} `{!VfsProcs P}.
Context (kmalloc_ok : nat -> bool) (garbage : list Z).
Abbreviation vk := (kernel D P W).

(** [struct sockaddr_un]: the family, and where the path is. *)
Record sockaddr_un := mkAddr { sun_family : Z; sun_path : Z }.

Definition socket_entry (sock pid : Z) : vfs_file P W :=
  mkVfsFile 0 0 0 0 0 pid 0 true false None false false true sock.

Definition vfs_alloc_socket_fd (sock_id : Z) : M vk Z :=
  let* k := gets id in
  match free_entry 4 k with
  | Some i => do* modify (put_entry i (socket_entry sock_id (current_pid k))) in ret i
  | None => ret (-1)
  end.

Definition VFS_Socket (domain type : Z) : M vk Z :=
  if negb (domain =? AF_UNIX) then an_error EAFNOSUPPORT
  else if negb (type =? SOCK_STREAM) && negb (type =? SOCK_DGRAM) then an_error ESOCKTNOSUPPORT
  else
    let* sock_id := on_socks (unix_sock_create type) in
    if sock_id <? 0 then an_error ENFILE
    else
      let* fd := vfs_alloc_socket_fd sock_id in
      if fd <? 0 then
        do* on_socks (fun st => (unix_sock_destroy sock_id st, tt)) in
        an_error EMFILE
      else ret fd.

(** The tests every call on a socket makes first. *)
Definition with_socket {A} (fd : Z) (fail : Z -> M vk A) (go : vfs_file P W -> M vk A) : M vk A :=
  let* k := gets id in
  let f := entry k fd in
  if bad_fd fd then fail EBADF
  else if negb (of_exists f) || negb (of_is_socket f) then fail ENOTSOCK
  else if negb (of_pid f =? current_pid k) then fail EACCES
  else go f.

Definition with_path (p : Z) (f : vfs_file P W) : vfs_file P W :=
  mkVfsFile p (of_file f) (of_iter f) (of_fs f) (of_flags f) (of_pid f) (of_owner f)
    (of_exists f) (of_is_dir f) (of_dev f) (of_is_dev f) (of_write_all f) (of_is_socket f) (of_sock f).

(** [addr] is [None] for NULL. *)
Definition VFS_Bind (fd : Z) (addr : option sockaddr_un) (addrlen : Z) : M vk Z :=
  with_socket fd an_error (fun f =>
    match addr with
    | None => an_error EINVAL
    | Some a =>
        if addrlen <? 2 then an_error EINVAL
        else if negb (sun_family a =? AF_UNIX) then an_error EAFNOSUPPORT
        else
          do* VFS_Create kmalloc_ok garbage (sun_path a) false in
          let* k := gets id in
          let* rc := on_socks (unix_sock_bind (of_sock f) (Some (strings k (sun_path a)))) in
          if rc <? 0 then an_error EADDRINUSE
          else do* modify (fun k => put_entry fd (with_path (sun_path a) (entry k fd)) k) in ret 0
    end).

Definition VFS_Listen (fd backlog : Z) : M vk Z :=
  with_socket fd an_error (fun f =>
    let* rc := on_socks (unix_sock_listen (of_sock f) backlog) in
    if rc <? 0 then an_error EOPNOTSUPP else ret 0).

(** The path of the peer, for the caller that asks for it. *)
Definition peer_path (new_sock_id : Z) (k : vk) : option (list Z) :=
  match unix_sock_get (sockets k) new_sock_id with
  | Some conn =>
      if 0 <=? peer_id conn then
        match unix_sock_get (sockets k) (peer_id conn) with
        | Some client => Some (copy_path (path client))
        | None => None
        end
      else None
  | None => None
  end.

(** From a round of [unix_sock_accept] on; this is also where the call goes on
    when it has waited.  The result comes with the path stored in
    [*peer_addr]. *)
Definition accept_round (sock_id : Z) (want_peer : bool) : M vk (outcome (Z * option (list Z))) :=
  let* r := on_socks (unix_sock_accept sock_id) in
  match r with
  | Wait => ret Wait
  | Ret new_sock_id =>
      if new_sock_id <? 0 then ret (Ret (int_error EINVAL, None))
      else
        let* k := gets id in
        let peer := if want_peer then peer_path new_sock_id k else None in
        let* new_fd := vfs_alloc_socket_fd new_sock_id in
        if new_fd <? 0 then
          do* on_socks (fun st => (unix_sock_destroy new_sock_id st, tt)) in
          ret (Ret (int_error EMFILE, peer))
        else ret (Ret (new_fd, peer))
  end.

Definition VFS_Accept (fd : Z) (want_peer : bool) : M vk (outcome (Z * option (list Z))) :=
  with_socket fd (fun code => ret (Ret (int_error code, None))) (fun f => accept_round (of_sock f) want_peer).

Definition connect_result (rc : Z) : Z := if rc <? 0 then int_error ECONNREFUSED else 0.

Definition VFS_Connect (fd : Z) (addr : option sockaddr_un) (addrlen : Z) : M vk (outcome Z) :=
  with_socket fd (fun code => returns (an_error code)) (fun f =>
    match addr with
    | None => returns (an_error EINVAL)
    | Some a =>
        if addrlen <? 2 then returns (an_error EINVAL)
        else if negb (sun_family a =? AF_UNIX) then returns (an_error EAFNOSUPPORT)
        else
          let* k := gets id in
          let* r := on_socks (unix_sock_connect (of_sock f) (strings k (sun_path a))) in
          match r with
          | Ret rc => ret (Ret (connect_result rc))
          | Wait => ret Wait
          end
    end).
Definition connect_resume (sock_id : Z) : M vk Z :=
  let* k := gets id in ret (connect_result (unix_sock_connect_resume sock_id (sockets k))).

Definition VFS_SendTo (fd : Z) (buf : list Z) (dest : option sockaddr_un) : M vk (outcome Z) :=
  with_socket fd (fun code => returns (an_error code)) (fun f =>
    let* k := gets id in
    match unix_sock_get (sockets k) (of_sock f) with
    | None => returns (an_error EBADF)
    | Some s =>
        if type s =? SOCK_STREAM then sock_write (of_sock f) buf
        else
          match dest with
          | None => returns (an_error EDESTADDRREQ)
          | Some a =>
              if negb (sun_family a =? AF_UNIX) then returns (an_error EAFNOSUPPORT)
              else
                let* rc := on_socks (unix_sock_sendto (of_sock f) buf (strings k (sun_path a))) in
                returns (if rc <? 0 then an_error ENOENT else ret rc)
          end
    end).

(** [src_path] stays zeroed: [unix_sock_recvfrom] does not fill it. *)
Definition recv_result (r : outcome (Z * list Z)) : outcome (Z * list Z) :=
  match r with
  | Ret (rc, bs) => Ret (if rc <? 0 then (int_error EIO, bs) else (rc, bs))
  | Wait => Wait
  end.

Definition VFS_RecvFrom (fd count : Z) : M vk (outcome (Z * list Z)) :=
  with_socket fd failed (fun f =>
    let* k := gets id in
    match unix_sock_get (sockets k) (of_sock f) with
    | None => failed EBADF
    | Some s =>
        if type s =? SOCK_STREAM then on_socks (unix_sock_read (of_sock f) count)
        else
          let* r := on_socks (unix_sock_recvfrom (of_sock f) count) in
          ret (recv_result r)
    end).
End sockets.
