(* ===== verification/Devices.v ===== *)
(** * The devices of the console (src/kernel/device/tty, stdin, stdout, fb)

    The functions behind /dev/tty, /dev/stdin, /dev/stdout and /dev/fb, on the
    console and the processes.  A pointer argument is an address: the code reads
    through it directly ([load_bytes]) and writes to it with
    [proc_write_to_user] ([write_to_user]).  The initialisers make the file and
    register the device with the VFS. *)

From S2P Require Import Prelude Bytes StateMonad BlockDev PhysMem Pmm Vmm Display DisplayFacts Errno Stdio UnixSocket Console ConsoleFacts User Ext2Cache Ext2 Vfs.
From stdpp Require Import strings.
#[local] Open Scope Z_scope.

Definition TCGETS : Z := 0x5401.
Definition TCSETS : Z := 0x5402.
Definition TCSETSW : Z := 0x5403.
Definition TCSETSF : Z := 0x5404.
Definition TCFLSH : Z := 0x540B.
Definition TIOCGPGRP : Z := 0x540F.
Definition TIOCSPGRP : Z := 0x5410.
Definition TIOCOUTQ : Z := 0x5411.
Definition TIOCGWINSZ : Z := 0x5413.
Definition TIOCSWINSZ : Z := 0x5414.
Definition FIONREAD : Z := 0x541B.
Definition STDIN_RMC : Z := 1.
Definition STDIN_CLEAR : Z := 2.
Definition STDIN_READ_C : Z := 3.
Definition STDOUT_WRITE : Z := 1.
Definition STDOUT_PUTC : Z := 2.
Definition STDOUT_RMC : Z := 3.
Definition FB_GET_INFO : Z := 1.

(** ** The structures as bytes *)

Definition termios_bytes (t : termios) : list Z :=
  le32 (c_iflag t) ++ le32 (c_oflag t) ++ le32 (c_cflag t) ++ le32 (c_lflag t) ++ c_line t :: c_cc t.
Definition termios_of (b : list Z) : termios :=
  mkTermios (get32 b 0) (get32 b 4) (get32 b 8) (get32 b 12) (aget 0 b 16) (slice 17 NCCS b).
Definition sizeof_termios : Z := 36.
Definition winsize_bytes (w : winsize) : list Z := le16 (ws_row w) ++ le16 (ws_col w) ++ le16 (ws_xpixel w) ++ le16 (ws_ypixel w).
Definition winsize_of (b : list Z) : winsize := mkWinsize (get16 b 0) (get16 b 2) (get16 b 4) (get16 b 6).
Definition sizeof_winsize : Z := 8.

Section devices.
Context {P : Type} `{!ProcOps P} `{!ConsoleProcs P}.
Abbreviation con := (P * console)%type.

(** [proc_write_to_user] and the result of the request. *)
Definition put_user (pid arg : Z) (bytes : list Z) : M con Z := fun '(p, c) =>
  let '(p', ok) := write_to_user pid arg bytes p in Some (if ok : bool then 0 else -1, (p', c)).
(** What stands at a pointer. *)
Definition at_pointer (arg n : Z) : M con (list Z) := gets (fun s => load_bytes s.1 arg n).

(** ** /dev/tty *)

Definition tty_tcgets (pid arg : Z) : M con Z :=
  if arg =? 0 then ret (-1) else let* t := console_get_termios in put_user pid arg (termios_bytes t).
Definition tty_tcsets (arg mode : Z) : M con Z :=
  if arg =? 0 then ret (-1)
  else
    do* (if mode =? 2 then console_tcflush TCIFLUSH else ret tt) in
    let* b := at_pointer arg sizeof_termios in
    do* console_set_termios (termios_of b) in ret 0.
Definition tty_tiocgwinsz (pid arg : Z) : M con Z :=
  if arg =? 0 then ret (-1) else let* w := console_get_winsize in put_user pid arg (winsize_bytes w).
Definition tty_tiocswinsz (arg : Z) : M con Z :=
  if arg =? 0 then ret (-1)
  else let* b := at_pointer arg sizeof_winsize in do* console_set_winsize (winsize_of b) in ret 0.
Definition tty_tcflsh (arg : Z) : M con Z :=
  let* queue := if arg =? 0 then ret TCIOFLUSH else let* b := at_pointer arg 4 in ret (int_of_u32 (get32 b 0)) in
  do* console_tcflush queue in ret 0.
Definition tty_tiocgpgrp (pid arg : Z) : M con Z :=
  if arg =? 0 then ret (-1) else let* pgrp := console_get_pgrp in put_user pid arg (le32 (u32 pgrp)).
Definition tty_tiocspgrp (arg : Z) : M con Z :=
  if arg =? 0 then ret (-1)
  else let* b := at_pointer arg 4 in do* console_set_pgrp (int_of_u32 (get32 b 0)) in ret 0.
Definition tty_tiocoutq (pid arg : Z) : M con Z :=
  if arg =? 0 then ret (-1) else put_user pid arg (le32 0).
Definition tty_fionread (pid arg : Z) : M con Z :=
  if arg =? 0 then ret (-1) else let* n := console_get_length in put_user pid arg (le32 (u32 n)).

Definition tty_dispatcher (pid req arg : Z) : M con Z :=
  if req =? TCGETS then tty_tcgets pid arg
  else if req =? TCSETS then tty_tcsets arg 0
  else if req =? TCSETSW then tty_tcsets arg 1
  else if req =? TCSETSF then tty_tcsets arg 2
  else if req =? TCFLSH then tty_tcflsh arg
  else if req =? TIOCGWINSZ then tty_tiocgwinsz pid arg
  else if req =? TIOCSWINSZ then tty_tiocswinsz arg
  else if req =? TIOCGPGRP then tty_tiocgpgrp pid arg
  else if req =? TIOCSPGRP then tty_tiocspgrp arg
  else if req =? TIOCOUTQ then tty_tiocoutq pid arg
  else if req =? FIONREAD then tty_fionread pid arg
  else ret (-1).

(** Reading and writing fail. *)
Definition tty_device (path : list Z) : device_t P console :=
  mkDeviceT path tty_dispatcher (Some (fun _ => ret (-1))) (Some (fun _ => ret (-1, []))).

(** ** /dev/stdin *)

Definition stdin_read_c (pid arg : Z) : M con Z :=
  if arg =? 0 then ret (-1) else let* c := console_get_current_c in put_user pid arg [c].
Definition stdin_dispatcher (pid req arg : Z) : M con Z :=
  if req =? STDIN_RMC then do* console_backspace in ret 0
  else if req =? STDIN_CLEAR then do* console_clear in ret 0
  else if req =? STDIN_READ_C then stdin_read_c pid arg
  else ret (-1).
(** Up to [proc_yield]; [None] then, and the value returned is [count]. *)
Definition stdin_read (kmalloc : bool) (count buf : Z) : M con (option Z) :=
  let* pid := gets (fun s => proc_get_current_pid s.1) in
  if pid <? 0 then ret (Some (int32 (serror ESRCH)))
  else do* console_register_proc kmalloc pid buf count in ret None.

(** ** /dev/stdout *)

(** [write_event_t]: the count, and a pointer to the bytes. *)
Definition get64 (b : list Z) (i : Z) : Z := get32 b i + 2 ^ 32 * get32 b (i + 4).
Definition stdout_write (arg : Z) : M con Z :=
  let* event := at_pointer arg 16 in
  let* bytes := at_pointer (get64 event 8) (get64 event 0) in
  do* console_write bytes in ret 0.
Definition stdout_dispatcher (pid req arg : Z) : M con Z :=
  if req =? STDOUT_WRITE then stdout_write arg
  else if req =? STDOUT_PUTC then do* console_putc (u8 arg) in ret 0
  else if req =? STDOUT_RMC then do* console_backspace_no_input in ret 0
  else ret (-1).
(** [write_p] has no [return]: the value is whatever its caller finds. *)
Definition stdout_write_p (eax : Z) (bytes : list Z) : M con Z := do* console_write bytes in ret eax.
Definition stdout_device (eax : Z) (path : list Z) : device_t P console :=
  mkDeviceT path stdout_dispatcher (Some (stdout_write_p eax)) (Some (fun _ => ret (-1, []))).

(** ** /dev/fb *)

Definition fb_info_bytes (f : fbinfo) : list Z := le32 (fb_width f) ++ le32 (fb_height f) ++ le32 (fb_pitch f) ++ le32 (fb_bpp f).
(** A call from the kernel ([pid] < 0) gets the structure directly; [put_kernel]
    is that store. *)
Definition fb_get_info (put_kernel : Z -> list Z -> P -> P) (pid arg : Z) : M con Z :=
  if arg =? 0 then ret (-1)
  else
    let* info := the (fun c => fb_info_bytes (fb (screen c))) in
    if pid <? 0 then do* on_procs (put_kernel arg info) in ret 0
    else let* cur := gets (fun s => proc_get_current_pid s.1) in put_user cur arg info.
Definition fb_dispatcher (put_kernel : Z -> list Z -> P -> P) (pid req arg : Z) : M con Z :=
  if req =? FB_GET_INFO then fb_get_info put_kernel pid arg else ret (-1).

(** ** Registration *)

Section init.
Context {D : Type} `{!BlockDevice D} `{!VfsProcs P} (kmalloc_ok : nat -> bool) (garbage : list Z).

(** Make the file, allocate, register: whether a device was made.  The name is
    at [path]; the functions that fb leaves unset are arguments. *)
Definition device_init_at (path : Z) (got : bool) (dev : list Z -> device_t P console) : M (kernel D P console) bool :=
  let* k := gets id in
  let* r := VFS_Create kmalloc_ok garbage path false in
  if int32 r <? 0 then ret false
  else if negb got then ret false
  else do* device_register kmalloc_ok garbage (dev (strings k path)) path in ret true.
Definition tty_device_init (path : Z) (got : bool) : M (kernel D P console) bool := device_init_at path got tty_device.
Definition stdout_device_init (eax path : Z) (got : bool) : M (kernel D P console) bool := device_init_at path got (stdout_device eax).
Definition fb_device_init (put_kernel : Z -> list Z -> P -> P) (unset_write : option (list Z -> M con Z))
    (unset_read : option (Z -> M con (Z * list Z))) (path : Z) (got : bool) : M (kernel D P console) bool :=
  device_init_at path got (fun p => mkDeviceT p (fb_dispatcher put_kernel) unset_write unset_read).
End init.
End devices.

(** ** The settings of the terminal *)

Lemma le32_get32 b i : bytes_ok b -> le32 (get32 b i) = [aget 0 b i; aget 0 b (i + 1); aget 0 b (i + 2); aget 0 b (i + 3)].
Proof.
  intros Hb. unfold le32, get32. pose proof (aget_bytes b i Hb). pose proof (aget_bytes b (i + 1) Hb).
  pose proof (aget_bytes b (i + 2) Hb). pose proof (aget_bytes b (i + 3) Hb).
  generalize dependent (aget 0 b (i + 3)). generalize dependent (aget 0 b (i + 2)). generalize dependent (aget 0 b (i + 1)).
  generalize dependent (aget 0 b i). intros x0 H0 x1 H1 x2 H2 x3 H3. set (n := x0 + 2 ^ 8 * x1 + 2 ^ 16 * x2 + 2 ^ 24 * x3).
  assert (n / 2 ^ 8 = x1 + 2 ^ 8 * x2 + 2 ^ 16 * x3) as -> by (symmetry; apply (Z.div_unique _ _ _ x0); lia).
  assert (n / 2 ^ 16 = x2 + 2 ^ 8 * x3) as -> by (symmetry; apply (Z.div_unique _ _ _ (x0 + 2 ^ 8 * x1)); lia).
  assert (n / 2 ^ 24 = x3) as -> by (symmetry; apply (Z.div_unique _ _ _ (x0 + 2 ^ 8 * x1 + 2 ^ 16 * x2)); lia).
  f_equal; [|f_equal; [|f_equal; [|f_equal]]]; symmetry.
  - apply (Z.mod_unique _ _ (x1 + 2 ^ 8 * x2 + 2 ^ 16 * x3)); lia.
  - apply (Z.mod_unique _ _ (x2 + 2 ^ 8 * x3)); lia.
  - apply (Z.mod_unique _ _ x3); lia.
  - rewrite Z.mod_small; lia.
Qed.
Lemma termios_of_bytes b : bytes_ok b -> length b = Z.to_nat sizeof_termios -> termios_bytes (termios_of b) = b.
Proof.
  intros Hb Hl. unfold termios_bytes, termios_of. cbn [c_iflag c_oflag c_cflag c_lflag c_line c_cc]. rewrite !le32_get32 by done.
  clear Hb. do 36 (destruct b as [|? b]; [done|]). destruct b; [|done]. done.
Qed.

Section facts.
Context {P : Type} `{!ProcOps P} `{!ConsoleProcs P}.
Abbreviation con := (P * console)%type.

(** the settings that a program stores with TCSETS, TCSETSW or TCSETSF are
    the bytes a later TCGETS gives back, whatever bytes they are; only TCSETSF
    drops the line being typed. *)
Theorem tty_settings_roundtrip req pid src dst b (p : P) c :
  In req [TCSETS; TCSETSW; TCSETSF] -> src <> 0 -> dst <> 0 ->
  load_bytes p src sizeof_termios = b -> bytes_ok b -> length b = Z.to_nat sizeof_termios ->
  exists c', (do* tty_dispatcher pid req src in tty_dispatcher pid TCGETS dst) (p, c) =
      Some (if snd (write_to_user pid dst b p) then 0 else -1, (fst (write_to_user pid dst b p), c')) /\
    input c' = (if req =? TCSETSF then (fun m => mkInput (buffer m) 0 (capacity m)) <$> input c else input c) /\
    waitingProcesses c' = waitingProcesses c /\ screen c' = screen c.
Proof using.
  intros Hreq Hsrc Hdst Hb Hok Hl. unfold tty_dispatcher at 2. cbn [Z.eqb Pos.eqb TCGETS].
  unfold tty_tcgets. destruct (Z.eqb_spec dst 0); [done|].
  assert (Hset : forall c1, (do* (let* b := at_pointer src sizeof_termios in do* console_set_termios (termios_of b) in ret 0) in
    let* t := console_get_termios in put_user pid dst (termios_bytes t)) (p, c1) =
    Some (if snd (write_to_user pid dst b p) then 0 else -1, (fst (write_to_user pid dst b p),
      set_settings (termios_of b) (c_winsize c1) (c_pgrp c1) c1))).
  { intros c1. unfold bind, at_pointer, gets, console_set_termios, console_get_termios, on_console, modify, the, ret, put_user.
    cbn [fst snd]. rewrite Hb. cbn -[termios_bytes termios_of]. rewrite termios_of_bytes by done. by destruct (write_to_user pid dst b p). }
  destruct Hreq as [<-|[<-|[<-|[]]]]; unfold tty_dispatcher; cbn [Z.eqb Pos.eqb TCSETS TCSETSW TCSETSF TCGETS]; unfold tty_tcsets;
    destruct (Z.eqb_spec src 0); try done; cbn [Z.eqb Pos.eqb].
  - eexists. split; [exact (Hset c)|]. done.
  - eexists. split; [exact (Hset c)|]. done.
  - pose proof (Hset (match input c with Some m => set_input (Some (mkInput (buffer m) 0 (capacity m))) c | None => c end)) as E.
    eexists. split; [|].
    + unfold console_tcflush, on_console, bind at 1 2, modify. cbn. exact E.
    + cbn. destruct (input c) eqn:Ei; cbn; rewrite ?Ei; done.
Qed.
End facts.

Lemma tty_settings_roundtrip_witness :
  exists c', (do* tty_dispatcher 3 TCSETSF 250 in tty_dispatcher 3 TCGETS 0x1000) ([] : list (Z * list Z), demo_console) =
      Some (if snd (write_to_user 3 0x1000 (load_bytes ([] : list (Z * list Z)) 250 36) []) then 0 else -1,
        (fst (write_to_user 3 0x1000 (load_bytes ([] : list (Z * list Z)) 250 36) []), c')) /\
    input c' = (if TCSETSF =? TCSETSF then (fun m => mkInput (buffer m) 0 (capacity m)) <$> input demo_console else input demo_console) /\
    waitingProcesses c' = waitingProcesses demo_console /\ screen c' = screen demo_console.
Proof.
  apply (tty_settings_roundtrip TCSETSF 3 250 0x1000); [cbn; auto|done|done|done| |done].
  apply list.Forall_forall. intros x Hx. unfold load_bytes, log_console in Hx. apply list_elem_of_In, in_map_iff in Hx as (i & <- & _). apply Z.mod_pos_bound. lia.
Defined.
