(* ===== verification/VfsTable.v ===== *)
(** * The table of open files: well-formedness and isolation

    Every call of Vfs.v keeps the table of open files well-formed: each open
    entry owns a live handle of a live file system, no two entries share one,
    and no handle is left over.  A process can do nothing with an entry that
    is not its own. *)

From stdpp Require Import strings.
From S2P Require Import Prelude Bytes StateMonad Errno User UnixSocket BlockDev Ext2Cache Ext2 Ext2Format Ext2Perm Vfs.
#[local] Open Scope Z_scope.

(** ** What a call leaves if it returns *)
Section wlp.
Context {S : Type}.

Definition wlp {A} (m : M S A) (Q : A -> S -> Prop) (s : S) : Prop := forall a s', m s = Some (a, s') -> Q a s'.

Lemma wlp_ret {A} (a : A) Q (s : S) : Q a s -> wlp (ret a) Q s.
Proof. by intros H ? ? [= <- <-]. Qed.
Lemma wlp_bind {A B} (m : M S A) (f : A -> M S B) Q s : wlp m (fun a => wlp (f a) Q) s -> wlp (bind m f) Q s.
Proof. intros H b s' E. unfold bind in E. destruct (m s) as [[a s1]|] eqn:E1; [|done]. by eapply H. Qed.
Lemma wlp_gets {A} (f : S -> A) Q s : Q (f s) s -> wlp (gets f) Q s.
Proof. by intros H ? ? [= <- <-]. Qed.
Lemma wlp_modify (f : S -> S) Q s : Q tt (f s) -> wlp (modify f) Q s.
Proof. by intros H ? ? [= <- <-]. Qed.
Lemma wlp_diverge {A} (Q : A -> S -> Prop) s : wlp diverge Q s.
Proof. done. Qed.
Lemma wlp_mono {A} (m : M S A) (P Q : A -> S -> Prop) s : wlp m P s -> (forall a s', P a s' -> Q a s') -> wlp m Q s.
Proof. intros H HPQ a s' E. by apply HPQ, H. Qed.
End wlp.

(** ** Well-formedness *)
Section table.
Context {D P W : Type} `{!BlockDevice D} `{!ProcOps P} `{!VfsProcs P}.
Context (kmalloc_ok : nat -> bool) (garbage : list Z).
Abbreviation vk := (kernel D P W).
Implicit Types k : vk.

Definition fd_ok (i : Z) : Prop := 0 <= i < MAX_OPEN_FILES.

(** An entry holds a file, a directory or a socket. *)
Definition holds_file (f : vfs_file P W) : Prop := of_exists f = true /\ of_is_socket f = false /\ of_is_dir f = false.
Definition holds_dir (f : vfs_file P W) : Prop := of_exists f = true /\ of_is_socket f = false /\ of_is_dir f = true.

Record vfs_wf (k : vk) : Prop := {
  wf_open : length (open_files k) = Z.to_nat MAX_OPEN_FILES;
  wf_mounts : length (mount_table k) = Z.to_nat MAX_MOUNTS;
  wf_next : 0 < next_ptr k;
  wf_fs_below : forall p, is_Some (filesystems k !! p) -> 0 < p < next_ptr k;
  wf_file_below : forall p, is_Some (files k !! p) -> 0 < p < next_ptr k;
  wf_iter_below : forall p, is_Some (iters k !! p) -> 0 < p < next_ptr k;
  wf_root : is_Some (filesystems k !! rootfs k);
  wf_mounted : forall i, 0 <= i < MAX_MOUNTS -> mt_active (aget null_mount (mount_table k) i) = true ->
    is_Some (filesystems k !! mt_fs (aget null_mount (mount_table k) i));
  wf_file : forall i, fd_ok i -> holds_file (entry k i) ->
    is_Some (filesystems k !! of_fs (entry k i)) /\
    exists f, files k !! of_file (entry k i) = Some (of_fs (entry k i), f);
  wf_dir : forall i, fd_ok i -> holds_dir (entry k i) -> of_file (entry k i) = 0 /\
    is_Some (filesystems k !! of_fs (entry k i)) /\
    exists it, iters k !! of_iter (entry k i) = Some (of_fs (entry k i), it);
  wf_file_owner : forall p x, files k !! p = Some x -> exists i, fd_ok i /\ holds_file (entry k i) /\ of_file (entry k i) = p;
  wf_dir_owner : forall p x, iters k !! p = Some x -> exists i, fd_ok i /\ holds_dir (entry k i) /\ of_iter (entry k i) = p;
  wf_file_unique : forall i j, fd_ok i -> fd_ok j -> holds_file (entry k i) -> holds_file (entry k j) ->
    of_file (entry k i) = of_file (entry k j) -> i = j;
  wf_dir_unique : forall i j, fd_ok i -> fd_ok j -> holds_dir (entry k i) -> holds_dir (entry k j) ->
    of_iter (entry k i) = of_iter (entry k j) -> i = j
}.

(** ** Calls that move no handle *)

(** What well-formedness reads of an entry. *)
Definition skeleton (f : vfs_file P W) : bool * bool * bool * Z * Z * Z :=
  (of_exists f, of_is_socket f, of_is_dir f, of_file f, of_iter f, of_fs f).

Definition same_keys {A} (m m' : gmap Z (Z * A)) : Prop := forall p, fst <$> m' !! p = fst <$> m !! p.

Record quiet (k k' : vk) : Prop := {
  q_length : length (open_files k') = length (open_files k);
  q_entry : forall i, skeleton (entry k' i) = skeleton (entry k i);
  q_mounts : mount_table k' = mount_table k;
  q_root : rootfs k' = rootfs k;
  q_fs : forall p, is_Some (filesystems k' !! p) <-> is_Some (filesystems k !! p);
  q_files : same_keys (files k) (files k');
  q_iters : same_keys (iters k) (iters k');
  q_next : next_ptr k <= next_ptr k'
}.

#[export] Instance quiet_preorder : PreOrder quiet.
Proof.
  split.
  - intros k. split; done || lia.
  - intros k1 k2 k3 [] []. split; try congruence; try lia.
    all: intros p; first [by rewrite q_fs1, q_fs0|by rewrite q_files1, q_files0|by rewrite q_iters1, q_iters0].
Qed.

Lemma same_keys_some {A} (m m' : gmap Z (Z * A)) p : same_keys m m' -> is_Some (m' !! p) <-> is_Some (m !! p).
Proof. intros H. by rewrite <- !(fmap_is_Some fst), H. Qed.

Lemma same_keys_lookup {A} (m m' : gmap Z (Z * A)) p x y :
  same_keys m m' -> m !! p = Some (x, y) -> exists y', m' !! p = Some (x, y').
Proof.
  intros H E. specialize (H p). rewrite E in H. cbn in H. apply fmap_Some in H as ([x' y'] & -> & [= <-]). by exists y'.
Qed.

Lemma same_keys_sym {A} (m m' : gmap Z (Z * A)) : same_keys m m' -> same_keys m' m.
Proof. intros H p. by rewrite H. Qed.

Lemma same_keys_put {A} (m : gmap Z (Z * A)) p x y y' : m !! p = Some (x, y) -> same_keys m (<[p := (x, y')]> m).
Proof.
  intros E q. destruct (decide (q = p)) as [->|]; [|by rewrite lookup_insert_ne].
  by rewrite lookup_insert_eq, E.
Qed.

Lemma skeleton_holds f f' : skeleton f' = skeleton f ->
  (holds_file f' <-> holds_file f) /\ (holds_dir f' <-> holds_dir f) /\
  of_file f' = of_file f /\ of_iter f' = of_iter f /\ of_fs f' = of_fs f.
Proof. unfold skeleton, holds_file, holds_dir. intros [= -> -> -> -> -> ->]. done. Qed.

(** A quiet call keeps the table well-formed. *)
Lemma quiet_wf k k' : quiet k k' -> vfs_wf k -> vfs_wf k'.
Proof.
  intros Q Hwf.
  assert (Hsk : forall i, (holds_file (entry k' i) <-> holds_file (entry k i)) /\ (holds_dir (entry k' i) <-> holds_dir (entry k i)) /\
    of_file (entry k' i) = of_file (entry k i) /\ of_iter (entry k' i) = of_iter (entry k i) /\ of_fs (entry k' i) = of_fs (entry k i)).
  { intros i. apply skeleton_holds, Q. }
  pose proof (q_next _ _ Q) as Hn. split; rewrite ?(q_length _ _ Q), ?(q_mounts _ _ Q), ?(q_root _ _ Q).
  - apply Hwf.
  - apply Hwf.
  - pose proof (wf_next _ Hwf). lia.
  - intros p Hp%(q_fs _ _ Q)%(wf_fs_below _ Hwf). lia.
  - intros p Hp%(same_keys_some _ _ _ (q_files _ _ Q))%(wf_file_below _ Hwf). lia.
  - intros p Hp%(same_keys_some _ _ _ (q_iters _ _ Q))%(wf_iter_below _ Hwf). lia.
  - apply (q_fs _ _ Q), (wf_root _ Hwf).
  - intros i Hi Ha. by apply (q_fs _ _ Q), (wf_mounted _ Hwf).
  - intros i Hi Hh. destruct (Hsk i) as (Hf & _ & E1 & _ & E2). rewrite E1, E2.
    destruct (wf_file _ Hwf i Hi) as (A & f & B); [by apply Hf|]. split; [by apply (q_fs _ _ Q)|].
    by eapply same_keys_lookup; [apply Q|].
  - intros i Hi Hh. destruct (Hsk i) as (_ & Hd & E1 & E2 & E3). rewrite E1, E2, E3.
    destruct (wf_dir _ Hwf i Hi) as (A & B & it & C); [by apply Hd|]. split_and!; [done|by apply (q_fs _ _ Q)|].
    by eapply same_keys_lookup; [apply Q|].
  - intros p [x y] E. destruct (same_keys_lookup _ _ p x y (same_keys_sym _ _ (q_files _ _ Q)) E) as [y' E'].
    destruct (wf_file_owner _ Hwf _ _ E') as (i & Hi & Hh & <-). exists i. destruct (Hsk i) as (Hf & _ & E1 & _).
    split_and!; [done|by apply Hf|done].
  - intros p [x y] E. destruct (same_keys_lookup _ _ p x y (same_keys_sym _ _ (q_iters _ _ Q)) E) as [y' E'].
    destruct (wf_dir_owner _ Hwf _ _ E') as (i & Hi & Hh & <-). exists i. destruct (Hsk i) as (_ & Hd & _ & E2 & _).
    split_and!; [done|by apply Hd|done].
  - intros i j Hi Hj Hhi Hhj. destruct (Hsk i) as (Hf & _ & -> & _), (Hsk j) as (Hf' & _ & -> & _).
    apply (wf_file_unique _ Hwf); tauto.
  - intros i j Hi Hj Hhi Hhj. destruct (Hsk i) as (_ & Hd & _ & -> & _), (Hsk j) as (_ & Hd' & _ & -> & _).
    apply (wf_dir_unique _ Hwf); tauto.
Qed.

(** ** Which calls are quiet *)

Definition quietly {A} (m : M vk A) : Prop := forall k a k', m k = Some (a, k') -> quiet k k'.

Lemma quietly_ret {A} (a : A) : quietly (ret a).
Proof. by intros k ? ? [= <- <-]. Qed.
Lemma quietly_diverge {A} : quietly (@diverge _ A).
Proof. done. Qed.
Lemma quietly_gets {A} (f : vk -> A) : quietly (gets f).
Proof. by intros k ? ? [= <- <-]. Qed.
Lemma quietly_bind {A B} (m : M vk A) (f : A -> M vk B) : quietly m -> (forall a, quietly (f a)) -> quietly (bind m f).
Proof.
  intros Hm Hf k b k' E. unfold bind in E. destruct (m k) as [[a k1]|] eqn:E1; [|done].
  transitivity k1; [by eapply Hm|by eapply Hf].
Qed.

Lemma quiet_filesystems k p s s' : filesystems k !! p = Some s -> quiet k (set_filesystems (<[p := s']> (filesystems k)) k).
Proof.
  intros E. split; try done. intros q. cbn. destruct (decide (q = p)) as [->|]; [|by rewrite lookup_insert_ne].
  rewrite lookup_insert_eq, E. split; intros _; by eexists.
Qed.

Lemma quietly_on_fs {A} p (m : M (ext2_fs D) A) : quietly (on_fs p m).
Proof.
  intros k a k' E. unfold on_fs in E. destruct (filesystems k !! p) as [s|] eqn:Es; [|done].
  destruct (m s) as [[b s']|]; [|done]. injection E as <- <-. by eapply quiet_filesystems.
Qed.
Lemma quietly_on_socks {A} (f : sys P -> sys P * A) : quietly (on_socks f).
Proof. intros k a k' E. unfold on_socks in E. destruct (f (sockets k)). by injection E as <- <-. Qed.
Lemma quietly_on_device {A} (m : M (P * W) A) : quietly (on_device m).
Proof. intros k a k' E. unfold on_device in E. destruct (m _) as [[b [p w]]|]; [|done]. by injection E as <- <-. Qed.
Lemma quietly_sock_write id buf : quietly (sock_write id buf).
Proof. intros k a k' E. unfold sock_write in E. destruct (unix_sock_write _ _ _) as [[st p]|]; [|done]. by injection E as <- <-. Qed.
Lemma quietly_file_at p : quietly (file_at p).
Proof. intros k a k' E. unfold file_at in E. destruct (files k !! p); [|done]. by injection E as <- <-. Qed.
Lemma quietly_iter_at p : quietly (iter_at p).
Proof. intros k a k' E. unfold iter_at in E. destruct (iters k !! p); [|done]. by injection E as <- <-. Qed.

(** Using a file: its handle is stored back where it was. *)
Lemma quietly_use_file {A B} p (m : ext2_file -> M (ext2_fs D) (A * ext2_file)) (G : Z -> A * ext2_file -> M vk B) :
  (forall fs r h', exists f, G fs (r, h') = (do* put_file p (fs, h') in f) /\ quietly f) ->
  quietly (let* (fs, h) := file_at p in let* x := on_fs fs (m h) in G fs x).
Proof.
  intros HG k b k' E. unfold bind at 1, file_at in E. destruct (files k !! p) as [[fs h]|] eqn:Ef; [|done].
  unfold bind at 1, on_fs in E. destruct (filesystems k !! fs) as [s|] eqn:Es; [|done].
  destruct (m h s) as [[[r h'] s']|]; [|done]. destruct (HG fs r h') as (f & Eg & Hf).
  rewrite Eg in E. unfold bind, put_file, modify in E.
  transitivity (set_files (<[p := (fs, h')]> (files k)) (set_filesystems (<[fs := s']> (filesystems k)) k)).
  - etrans; [by eapply quiet_filesystems|]. split; cbn; try done. by eapply same_keys_put.
  - by eapply Hf.
Qed.

Lemma quietly_seek p (pos : Z) (f : Z -> M vk Z) :
  (forall a, quietly (f a)) ->
  quietly (let* (fs, h) := file_at p in
           let '(result, h') := ext2_seek h pos EXT2_SEEK_SET in
           do* put_file p (fs, h') in f result).
Proof.
  intros Hf k b k' E. unfold bind at 1, file_at in E. destruct (files k !! p) as [[fs h]|] eqn:Ef; [|done].
  destruct (ext2_seek h pos EXT2_SEEK_SET) as [r h']. unfold bind, put_file, modify in E.
  transitivity (set_files (<[p := (fs, h')]> (files k)) k); [|by eapply Hf].
  split; cbn; try done. by eapply same_keys_put.
Qed.

Lemma quietly_use_iter {B} p (f : (Z + list Z * Z * Z) -> M vk B) :
  (forall a, quietly (f a)) ->
  quietly (let* (fs, it) := iter_at p in
           let* (r, it') := on_fs fs (ext2_readdir kmalloc_ok it) in
           do* modify (fun k => set_iters (<[p := (fs, it')]> (iters k)) k) in f r).
Proof.
  intros Hf k b k' E. unfold bind at 1, iter_at in E. destruct (iters k !! p) as [[fs it]|] eqn:Ef; [|done].
  unfold bind at 1, on_fs in E. destruct (filesystems k !! fs) as [s|] eqn:Es; [|done].
  destruct (ext2_readdir kmalloc_ok it s) as [[[r it'] s']|]; [|done]. unfold bind, modify in E.
  transitivity (set_iters (<[p := (fs, it')]> (iters k)) (set_filesystems (<[fs := s']> (filesystems k)) k)).
  - etrans; [by eapply quiet_filesystems|]. split; cbn; try done. by eapply same_keys_put.
  - by eapply Hf.
Qed.

Lemma quietly_access fs rel mask privileged : quietly (vfs_access_ok kmalloc_ok fs rel mask privileged).
Proof.
  unfold vfs_access_ok. destruct privileged; [apply quietly_ret|]. apply quietly_bind; [apply quietly_gets|]. intros k.
  destruct (user_is_root _ _); [apply quietly_ret|].
  apply quietly_bind; [apply quietly_on_fs|]. intros r. apply quietly_ret.
Qed.

Ltac quiet_step :=
  first [ apply quietly_access
        | apply quietly_use_file; intros ?fs ?r ?h'; repeat match goal with x : _ * _ |- _ => destruct x end;
          eexists; split; [reflexivity|]
        | apply quietly_seek; intros ?a
        | apply quietly_use_iter; intros ?a
        | apply quietly_ret | apply quietly_diverge | apply quietly_gets | apply quietly_on_fs
        | apply quietly_on_socks | apply quietly_on_device | apply quietly_sock_write
        | apply quietly_bind; [|intros ?a]
        | match goal with |- quietly (match ?x with _ => _ end) => destruct x end ].
Ltac quiet_auto := repeat quiet_step.

Lemma quietly_create path isDir : quietly (VFS_Create kmalloc_ok garbage path isDir).
Proof. unfold VFS_Create, an_error. quiet_auto. Qed.

Lemma quietly_write fd buf privileged : quietly (VFS_Write kmalloc_ok fd buf privileged).
Proof. unfold VFS_Write, returns, an_error. quiet_auto. Qed.

Lemma quietly_read fd count : quietly (VFS_Read kmalloc_ok fd count).
Proof. unfold VFS_Read, failed. quiet_auto. Qed.

Lemma quietly_set_pos fd pos privileged : quietly (VFS_Set_Pos fd pos privileged).
Proof. unfold VFS_Set_Pos, an_error. quiet_auto. Qed.

Lemma quietly_ioctl fd req arg : quietly (VFS_ioctl fd req arg).
Proof. unfold VFS_ioctl, an_error. quiet_auto. Qed.

Lemma quietly_getdents_loop fuel : forall iter count written out,
  quietly (getdents_loop kmalloc_ok fuel iter count written out).
Proof. induction fuel as [|fuel IH]; intros; cbn [getdents_loop]; quiet_auto. apply IH. Qed.

Lemma quietly_getdents fd count : quietly (VFS_GetDents64 kmalloc_ok fd count).
Proof. unfold VFS_GetDents64. quiet_auto. apply quietly_getdents_loop. Qed.

Lemma quietly_listen fd backlog : quietly (VFS_Listen fd backlog).
Proof. unfold VFS_Listen, with_socket, an_error. quiet_auto. Qed.
Lemma quietly_connect fd addr len : quietly (VFS_Connect fd addr len).
Proof. unfold VFS_Connect, with_socket, an_error, returns. quiet_auto. Qed.
Lemma quietly_sendto fd buf dest : quietly (VFS_SendTo fd buf dest).
Proof. unfold VFS_SendTo, with_socket, an_error, returns. quiet_auto. Qed.
Lemma quietly_recvfrom fd count : quietly (VFS_RecvFrom fd count).
Proof. unfold VFS_RecvFrom, with_socket, failed. quiet_auto. Qed.

Lemma wlp_quiet {A} (m : M vk A) (Q : A -> vk -> Prop) k :
  quietly m -> (forall a k', quiet k k' -> Q a k') -> wlp m Q k.
Proof. intros Hm HQ a k' E. by eapply HQ, Hm. Qed.

(** ** Entries *)

Lemma entry_put k i f j : length (open_files k) = Z.to_nat MAX_OPEN_FILES -> fd_ok i ->
  entry (put_entry i f k) j = if decide (i = j) then f else entry k j.
Proof.
  intros Hl [Hi0 Hi]. unfold entry, put_entry. cbn. case_decide as E.
  - subst j. apply aget_aset_eq. rewrite Hl. unfold MAX_OPEN_FILES in *. lia.
  - by apply aget_aset_ne.
Qed.

Lemma free_entry_spec from (k : vk) i : 0 <= from <= MAX_OPEN_FILES -> free_entry from k = Some i ->
  fd_ok i /\ from <= i /\ of_exists (entry k i) = false.
Proof.
  intros Hf E. unfold free_entry in E. apply find_first_Some in E as (Hi & He & _).
  apply negb_true_iff in He. unfold fd_ok. split_and!; [lia|lia|lia|done].
Qed.

(** An entry that holds nothing replaced by one that holds nothing. *)
Lemma put_idle_wf k i f :
  vfs_wf k -> fd_ok i -> ~ holds_file (entry k i) -> ~ holds_dir (entry k i) -> ~ holds_file f -> ~ holds_dir f ->
  vfs_wf (put_entry i f k).
Proof.
  intros Hwf Hi Hf Hd Hf' Hd'. pose proof (wf_open _ Hwf) as Hl.
  assert (He : forall j, entry (put_entry i f k) j = if decide (i = j) then f else entry k j) by (intros; by apply entry_put).
  split; try apply Hwf.
  - cbn. by rewrite length_aset.
  - intros j Hj. rewrite He. case_decide; [done|]. by apply (wf_file _ Hwf).
  - intros j Hj. rewrite He. case_decide; [done|]. by apply (wf_dir _ Hwf).
  - intros p x E. destruct (wf_file_owner _ Hwf p x E) as (j & Hj & Hh & <-). exists j. rewrite He.
    rewrite decide_False; [done|]. by intros ->.
  - intros p x E. destruct (wf_dir_owner _ Hwf p x E) as (j & Hj & Hh & <-). exists j. rewrite He.
    rewrite decide_False; [done|]. by intros ->.
  - intros a b Ha Hb. rewrite !He. repeat case_decide; try done. by apply (wf_file_unique _ Hwf).
  - intros a b Ha Hb. rewrite !He. repeat case_decide; try done. by apply (wf_dir_unique _ Hwf).
Qed.

Lemma free_holds_nothing (f : vfs_file P W) : of_exists f = false -> ~ holds_file f /\ ~ holds_dir f.
Proof. unfold holds_file, holds_dir. intros ->. by split; intros [? _]. Qed.

(** A new handle put into a free entry. *)
Lemma open_file_wf k i f fs h :
  vfs_wf k -> fd_ok i -> of_exists (entry k i) = false -> is_Some (filesystems k !! fs) ->
  holds_file f -> of_file f = next_ptr k -> of_fs f = fs ->
  vfs_wf (put_entry i f (set_next (next_ptr k + 1) (set_files (<[next_ptr k := (fs, h)]> (files k)) k))).
Proof.
  intros Hwf Hi Hfree Hfs Hf Hp Hfsf. pose proof (wf_open _ Hwf) as Hl. destruct (free_holds_nothing _ Hfree) as [Hno _].
  set (k1 := set_next _ _). pose proof (wf_next _ Hwf) as Hnext.
  assert (He : forall j, entry (put_entry i f k1) j = if decide (i = j) then f else entry k j).
  { intros j. by rewrite (entry_put k1). }
  assert (Hfresh : forall j, fd_ok j -> holds_file (entry k j) -> of_file (entry k j) <> next_ptr k).
  { intros j Hj Hh E. destruct (wf_file _ Hwf j Hj Hh) as (_ & g & Hg). rewrite E in Hg.
    pose proof (wf_file_below _ Hwf (next_ptr k) ltac:(by eexists)). lia. }
  assert (Hnd : ~ holds_dir f) by (intros (_ & _ & ?); destruct Hf as (_ & _ & ?); congruence).
  split; cbn [put_entry set_open set_next set_files k1 open_files mount_table rootfs filesystems files iters next_ptr].
  - by rewrite length_aset.
  - apply Hwf.
  - lia.
  - intros p Hp'%(wf_fs_below _ Hwf). lia.
  - intros p [x Hx]. destruct (decide (p = next_ptr k)) as [->|Hne]; [lia|]. rewrite lookup_insert_ne in Hx by done.
    pose proof (wf_file_below _ Hwf p ltac:(by eexists)). lia.
  - intros p Hp'%(wf_iter_below _ Hwf). lia.
  - apply Hwf.
  - apply Hwf.
  - intros j Hj Hh. fold k1. rewrite He in *. case_decide as E.
    + rewrite Hp, Hfsf. split; [done|]. exists h. apply lookup_insert_eq.
    + rewrite lookup_insert_ne by (intros E'; by apply (Hfresh j)). by apply (wf_file _ Hwf).
  - intros j Hj Hh. fold k1. rewrite He in *. case_decide; [done|]. by apply (wf_dir _ Hwf).
  - intros p x E. destruct (decide (p = next_ptr k)) as [->|Hne].
    + exists i. fold k1. rewrite He, decide_True by done. done.
    + rewrite lookup_insert_ne in E by done. destruct (wf_file_owner _ Hwf p x E) as (j & Hj & Hh & <-).
      exists j. fold k1. rewrite He, decide_False; [done|]. by intros ->.
  - intros p x E. destruct (wf_dir_owner _ Hwf p x E) as (j & Hj & Hh & <-). exists j. fold k1. rewrite He, decide_False; [done|].
    intros ->. destruct Hh. congruence.
  - intros a b Ha Hb. fold k1. rewrite !He. repeat case_decide; subst; try done.
    + intros _ Hh E. rewrite Hp in E. by destruct (Hfresh b).
    + intros Hh _ E. rewrite Hp in E. by destruct (Hfresh a).
    + by apply (wf_file_unique _ Hwf).
  - intros a b Ha Hb. fold k1. rewrite !He. repeat case_decide; subst; try done. by apply (wf_dir_unique _ Hwf).
Qed.

Lemma open_dir_wf k i f fs h :
  vfs_wf k -> fd_ok i -> of_exists (entry k i) = false -> is_Some (filesystems k !! fs) ->
  holds_dir f -> of_file f = 0 -> of_iter f = next_ptr k -> of_fs f = fs ->
  vfs_wf (put_entry i f (set_next (next_ptr k + 1) (set_iters (<[next_ptr k := (fs, h)]> (iters k)) k))).
Proof.
  intros Hwf Hi Hfree Hfs Hf Hf0 Hp Hfsf. pose proof (wf_open _ Hwf) as Hl. destruct (free_holds_nothing _ Hfree) as [_ Hno].
  set (k1 := set_next _ _). pose proof (wf_next _ Hwf) as Hnext.
  assert (He : forall j, entry (put_entry i f k1) j = if decide (i = j) then f else entry k j).
  { intros j. by rewrite (entry_put k1). }
  assert (Hfresh : forall j, fd_ok j -> holds_dir (entry k j) -> of_iter (entry k j) <> next_ptr k).
  { intros j Hj Hh E. destruct (wf_dir _ Hwf j Hj Hh) as (_ & _ & g & Hg). rewrite E in Hg.
    pose proof (wf_iter_below _ Hwf (next_ptr k) ltac:(by eexists)). lia. }
  assert (Hnd : ~ holds_file f) by (intros (_ & _ & ?); destruct Hf as (_ & _ & ?); congruence).
  split; cbn [put_entry set_open set_next set_iters k1 open_files mount_table rootfs filesystems files iters next_ptr].
  - by rewrite length_aset.
  - apply Hwf.
  - lia.
  - intros p Hp'%(wf_fs_below _ Hwf). lia.
  - intros p Hp'%(wf_file_below _ Hwf). lia.
  - intros p [x Hx]. destruct (decide (p = next_ptr k)) as [->|Hne]; [lia|]. rewrite lookup_insert_ne in Hx by done.
    pose proof (wf_iter_below _ Hwf p ltac:(by eexists)). lia.
  - apply Hwf.
  - apply Hwf.
  - intros j Hj Hh. fold k1. rewrite He in *. case_decide; [done|]. by apply (wf_file _ Hwf).
  - intros j Hj Hh. fold k1. rewrite He in *. case_decide as E.
    + rewrite Hp, Hfsf. split_and!; [done|done|]. exists h. apply lookup_insert_eq.
    + rewrite lookup_insert_ne by (intros E'; by apply (Hfresh j)). by apply (wf_dir _ Hwf).
  - intros p x E. destruct (wf_file_owner _ Hwf p x E) as (j & Hj & Hh & <-). exists j. fold k1. rewrite He, decide_False; [done|].
    intros ->. destruct Hh. congruence.
  - intros p x E. destruct (decide (p = next_ptr k)) as [->|Hne].
    + exists i. fold k1. rewrite He, decide_True by done. done.
    + rewrite lookup_insert_ne in E by done. destruct (wf_dir_owner _ Hwf p x E) as (j & Hj & Hh & <-).
      exists j. fold k1. rewrite He, decide_False; [done|]. by intros ->.
  - intros a b Ha Hb. fold k1. rewrite !He. repeat case_decide; subst; try done. by apply (wf_file_unique _ Hwf).
  - intros a b Ha Hb. fold k1. rewrite !He. repeat case_decide; subst; try done.
    + intros _ Hh E. rewrite Hp in E. by destruct (Hfresh b).
    + intros Hh _ E. rewrite Hp in E. by destruct (Hfresh a).
    + by apply (wf_dir_unique _ Hwf).
Qed.

(** The handle of an entry freed together with the entry. *)
Lemma close_file_wf k i f :
  vfs_wf k -> fd_ok i -> holds_file (entry k i) -> of_exists f = false ->
  vfs_wf (put_entry i f (set_files (delete (of_file (entry k i)) (files k)) k)).
Proof.
  intros Hwf Hi Hh Hf. pose proof (wf_open _ Hwf) as Hl. destruct (free_holds_nothing _ Hf) as [Hnf Hnd].
  set (k1 := set_files _ _).
  assert (He : forall j, entry (put_entry i f k1) j = if decide (i = j) then f else entry k j) by (intros j; by rewrite (entry_put k1)).
  assert (Hnd' : ~ holds_dir (entry k i)) by (intros (_ & _ & ?); destruct Hh as (_ & _ & ?); congruence).
  split; cbn [put_entry set_open set_files k1 open_files mount_table rootfs filesystems files iters next_ptr]; try apply Hwf.
  - by rewrite length_aset.
  - intros p [x [_ Hx]%lookup_delete_Some]. apply (wf_file_below _ Hwf p). by eexists.
  - intros j Hj. fold k1. rewrite He. case_decide as E; [done|]. intros Hhj. destruct (wf_file _ Hwf j Hj Hhj) as (A & g & B).
    split; [done|]. exists g. rewrite lookup_delete_ne; [done|]. intros E'. by destruct E; apply (wf_file_unique _ Hwf).
  - intros j Hj. fold k1. rewrite He. case_decide; [done|]. by apply (wf_dir _ Hwf).
  - intros p x [Hne E]%lookup_delete_Some. destruct (wf_file_owner _ Hwf p x E) as (j & Hj & Hhj & <-). exists j. fold k1.
    rewrite He, decide_False; [done|]. by intros ->.
  - intros p x E. destruct (wf_dir_owner _ Hwf p x E) as (j & Hj & Hhj & <-). exists j. fold k1.
    rewrite He, decide_False; [done|]. by intros ->.
  - intros a b Ha Hb. fold k1. rewrite !He. repeat case_decide; try done. by apply (wf_file_unique _ Hwf).
  - intros a b Ha Hb. fold k1. rewrite !He. repeat case_decide; try done. by apply (wf_dir_unique _ Hwf).
Qed.

Lemma close_dir_wf k i f :
  vfs_wf k -> fd_ok i -> holds_dir (entry k i) -> of_exists f = false ->
  vfs_wf (put_entry i f (set_iters (delete (of_iter (entry k i)) (iters k)) k)).
Proof.
  intros Hwf Hi Hh Hf. pose proof (wf_open _ Hwf) as Hl. destruct (free_holds_nothing _ Hf) as [Hnf Hnd].
  set (k1 := set_iters _ _).
  assert (He : forall j, entry (put_entry i f k1) j = if decide (i = j) then f else entry k j) by (intros j; by rewrite (entry_put k1)).
  assert (Hnf' : ~ holds_file (entry k i)) by (intros (_ & _ & ?); destruct Hh as (_ & _ & ?); congruence).
  split; cbn [put_entry set_open set_iters k1 open_files mount_table rootfs filesystems files iters next_ptr]; try apply Hwf.
  - by rewrite length_aset.
  - intros p [x [_ Hx]%lookup_delete_Some]. apply (wf_iter_below _ Hwf p). by eexists.
  - intros j Hj. fold k1. rewrite He. case_decide; [done|]. by apply (wf_file _ Hwf).
  - intros j Hj. fold k1. rewrite He. case_decide as E; [done|]. intros Hhj. destruct (wf_dir _ Hwf j Hj Hhj) as (A & B & g & C).
    split_and!; [done|done|]. exists g. rewrite lookup_delete_ne; [done|]. intros E'. by destruct E; apply (wf_dir_unique _ Hwf).
  - intros p x E. destruct (wf_file_owner _ Hwf p x E) as (j & Hj & Hhj & <-). exists j. fold k1.
    rewrite He, decide_False; [done|]. by intros ->.
  - intros p x [Hne E]%lookup_delete_Some. destruct (wf_dir_owner _ Hwf p x E) as (j & Hj & Hhj & <-). exists j. fold k1.
    rewrite He, decide_False; [done|]. by intros ->.
  - intros a b Ha Hb. fold k1. rewrite !He. repeat case_decide; try done. by apply (wf_file_unique _ Hwf).
  - intros a b Ha Hb. fold k1. rewrite !He. repeat case_decide; try done. by apply (wf_dir_unique _ Hwf).
Qed.

(** ** Opening and closing *)

Lemma resolve_fs_live k p : vfs_wf k -> is_Some (filesystems k !! fst (resolve_fs k p)).
Proof.
  intros Hwf. unfold resolve_fs.
  apply (for_range_inv (fun best => is_Some (filesystems k !! fst (fst best)))); [apply Hwf|].
  intros i [[fs rel] len] Hi Hs. unfold resolve_step. cbn [fst] in *. destruct (mt_active _) eqn:Ea; cbn [negb]; [|done].
  destruct (_ <=? _); [done|]. case_bool_decide; [|done]. destruct (_ || _); [|done]. apply (wf_mounted _ Hwf); [|done].
  unfold MAX_MOUNTS in *. lia.
Qed.

Lemma quiet_exists k k' i : quiet k k' -> of_exists (entry k' i) = of_exists (entry k i).
Proof. intros Q. by injection (q_entry _ _ Q i). Qed.

Lemma quiet_free k k' from : quiet k k' -> free_entry from k' = free_entry from k.
Proof.
  intros Q. unfold free_entry. generalize (Z.to_nat (MAX_OPEN_FILES - from)) as n. intros n. revert from.
  induction n as [|n IH]; intros from; [done|]. cbn [find_first]. by rewrite (quiet_exists k k'), IH.
Qed.

Lemma quietly_is_directory fs rel : quietly (is_directory kmalloc_ok fs rel).
Proof. unfold is_directory. quiet_auto. Qed.

(** What [VFS_Open] answers: an error, a special path, or an entry that was
    free and now belongs to the caller. *)
Definition open_post (path : Z) (privileged : bool) k (fd : Z) k' : Prop :=
  fd < 0 /\ (forall i, entry k' i = entry k i) \/
  privileged = false /\ fd = check_path (strings k path) /\ k' = k \/
  fd_ok fd /\ of_exists (entry k fd) = false /\ of_exists (entry k' fd) = true /\
    of_is_socket (entry k' fd) = false /\ of_pid (entry k' fd) = open_pid k privileged /\
    (forall i, i <> fd -> skeleton (entry k' i) = skeleton (entry k i)) /\
    ((exists iter fs uid, entry k' fd = dir_entry path iter fs uid (open_pid k privileged) privileged (entry k fd)) \/
     exists file fs uid, entry k' fd = file_entry path file fs uid (open_pid k privileged) privileged
                                         (device_get (strings k path) k) (entry k fd)).

Lemma int_error_lt0 code : 0 < code < 2 ^ 31 -> int_error code < 0.
Proof. intros H. rewrite int_error_neg by lia. lia. Qed.

(** The table itself is left alone by what [VFS_Open] calls. *)
Lemma on_fs_table {A} p (m : M (ext2_fs D) A) k a k' : on_fs p m k = Some (a, k') ->
  open_files k' = open_files k /\ quiet k k'.
Proof.
  intros E. split; [|by eapply quietly_on_fs]. unfold on_fs in E. destruct (filesystems k !! p); [|done].
  destruct (m _) as [[b s']|]; [|done]. by injection E as <- <-.
Qed.

Definition still k k' : Prop := open_files k' = open_files k /\ quiet k k'.
Definition stilly {A} (m : M vk A) : Prop := forall k a k', m k = Some (a, k') -> still k k'.

Lemma still_trans k1 k2 k3 : still k1 k2 -> still k2 k3 -> still k1 k3.
Proof. intros [E1 Q1] [E2 Q2]. split; [congruence|by etrans]. Qed.

Lemma stilly_bind {A B} (m : M vk A) (f : A -> M vk B) : stilly m -> (forall a, stilly (f a)) -> stilly (bind m f).
Proof.
  intros Hm Hf k b k' E. unfold bind in E. destruct (m k) as [[a k1]|] eqn:E1; [|done].
  eapply still_trans; [by eapply Hm|by eapply Hf].
Qed.
Lemma stilly_on_fs {A} p (m : M (ext2_fs D) A) : stilly (on_fs p m).
Proof. intros k a k' E. by eapply on_fs_table. Qed.
Lemma stilly_ret {A} (a : A) : stilly (ret a).
Proof. intros k ? ? [= <- <-]. split; [done|done]. Qed.
Lemma stilly_gets {A} (f : vk -> A) : stilly (gets f).
Proof. intros k ? ? [= <- <-]. split; [done|done]. Qed.
Lemma stilly_file_at p : stilly (file_at p).
Proof. intros k a k' E. unfold file_at in E. destruct (files k !! p); [|done]. injection E as <- <-. by split. Qed.
Lemma stilly_iter_at p : stilly (iter_at p).
Proof. intros k a k' E. unfold iter_at in E. destruct (iters k !! p); [|done]. injection E as <- <-. by split. Qed.
Lemma stilly_access fs rel mask privileged : stilly (vfs_access_ok kmalloc_ok fs rel mask privileged).
Proof.
  unfold vfs_access_ok. destruct privileged; [apply stilly_ret|]. apply stilly_bind; [apply stilly_gets|]. intros k.
  destruct (user_is_root _ _); [apply stilly_ret|]. apply stilly_bind; [apply stilly_on_fs|]. intros r. apply stilly_ret.
Qed.
Lemma stilly_is_directory fs rel : stilly (is_directory kmalloc_ok fs rel).
Proof. unfold is_directory. apply stilly_bind; [apply stilly_on_fs|]. intros r. apply stilly_ret. Qed.

Lemma wlp_still {A} (m : M vk A) (Q : A -> vk -> Prop) k :
  stilly m -> (forall a k', still k k' -> Q a k') -> wlp m Q k.
Proof. intros Hm HQ a k' E. by eapply HQ, Hm. Qed.

(** Freeing a handle that no entry got. *)
Lemma drop_file_still k k1 fs h :
  vfs_wf k -> still (set_next (next_ptr k + 1) (set_files (<[next_ptr k := (fs, h)]> (files k)) k)) k1 ->
  still k (set_files (delete (next_ptr k) (files k1)) k1).
Proof.
  intros Hwf [E Q]. split; [done|]. pose proof (wf_next _ Hwf).
  assert (files k !! next_ptr k = None) as Hn.
  { destruct (files k !! next_ptr k) eqn:En; [|done].
    pose proof (wf_file_below _ Hwf (next_ptr k) ltac:(by rewrite En)). lia. }
  destruct Q as [A B C F G I J N]. cbn in *. split; cbn; try done; [|lia].
  intros p. specialize (I p). cbn in I. destruct (decide (p = next_ptr k)) as [->|Hne].
  - by rewrite lookup_delete_eq, Hn.
  - rewrite lookup_delete_ne by done. rewrite lookup_insert_ne in I by done. done.
Qed.

Lemma drop_iter_still k k1 fs h :
  vfs_wf k -> still (set_next (next_ptr k + 1) (set_iters (<[next_ptr k := (fs, h)]> (iters k)) k)) k1 ->
  still k (set_iters (delete (next_ptr k) (iters k1)) k1).
Proof.
  intros Hwf [E Q]. split; [done|]. pose proof (wf_next _ Hwf).
  assert (iters k !! next_ptr k = None) as Hn.
  { destruct (iters k !! next_ptr k) eqn:En; [|done].
    pose proof (wf_iter_below _ Hwf (next_ptr k) ltac:(by rewrite En)). lia. }
  destruct Q as [A B C F G I J N]. cbn in *. split; cbn; try done; [|lia].
  intros p. specialize (J p). cbn in J. destruct (decide (p = next_ptr k)) as [->|Hne].
  - by rewrite lookup_delete_eq, Hn.
  - rewrite lookup_delete_ne by done. rewrite lookup_insert_ne in J by done. done.
Qed.

(** Closing the handle at [p] leaves the table alone. *)
Lemma wlp_close_file p (Q : unit -> vk -> Prop) k :
  (forall k', still k k' -> Q tt (set_files (delete p (files k')) k')) -> wlp (close_file kmalloc_ok p) Q k.
Proof.
  intros HQ. unfold close_file. apply wlp_bind, wlp_still; [apply stilly_file_at|]. intros [fs h] k1 Q1. apply wlp_bind.
  apply wlp_still; [apply stilly_on_fs|]. intros r k2 Q2. apply wlp_modify. apply HQ. by eapply still_trans.
Qed.
Lemma wlp_close_iter p (Q : unit -> vk -> Prop) k :
  (forall k', still k k' -> Q tt (set_iters (delete p (iters k')) k')) -> wlp (close_iter kmalloc_ok p) Q k.
Proof.
  intros HQ. unfold close_iter. apply wlp_bind, wlp_still; [apply stilly_iter_at|]. intros [fs h] k1 Q1. apply wlp_bind.
  apply wlp_still; [apply stilly_on_fs|]. intros r k2 Q2. apply wlp_modify. apply HQ. by eapply still_trans.
Qed.

Lemma still_entry k k' i : still k k' -> entry k' i = entry k i.
Proof. intros [E _]. unfold entry. by rewrite E. Qed.

Lemma still_free k k' from : still k k' -> free_entry from k' = free_entry from k.
Proof. intros [_ Q]. by apply quiet_free. Qed.

Lemma still_wf k k' : still k k' -> vfs_wf k -> vfs_wf k'.
Proof. intros [_ Q]. by apply quiet_wf. Qed.

(** The end of [VFS_Open]: the handle goes into the first free entry. *)
Lemma open_finish_file path privileged k k3 fs h uid dev :
  dev = device_get (strings k path) k -> vfs_wf k -> still k k3 -> is_Some (filesystems k !! fs) ->
  wlp (let* file := new_file fs h in
       match free_entry 0 k with
       | Some i => do* modify (fun k' => put_entry i (file_entry path file fs uid (open_pid k privileged) privileged dev (entry k' i)) k') in ret i
       | None => do* close_file kmalloc_ok file in an_error EMFILE
       end) (fun fd k' => vfs_wf k' /\ open_post path privileged k fd k') k3.
Proof.
  intros -> Hwf Hs Hfs. pose proof (still_wf _ _ Hs Hwf) as Hwf3. apply wlp_bind. intros n k4 [= <- <-].
  destruct (free_entry 0 k) as [i|] eqn:Ei.
  - apply wlp_bind, wlp_modify, wlp_ret. apply free_entry_spec in Ei as (Hi & _ & Hfree); [|unfold MAX_OPEN_FILES; lia].
    assert (of_exists (entry k3 i) = false) as Hfree3 by by rewrite (still_entry _ _ i Hs).
    assert (Hlen : length (open_files k3) = Z.to_nat MAX_OPEN_FILES) by apply Hwf3. split.
    + apply open_file_wf; try done. by apply (q_fs _ _ (proj2 Hs)).
    + right; right. rewrite !entry_put by done. rewrite decide_True by done. split_and!; try done.
      * intros j Hj. rewrite entry_put, decide_False by done. by rewrite <- (still_entry _ _ j Hs).
      * right. eexists _, _, _. rewrite <- (still_entry _ _ i Hs). reflexivity.
  - apply wlp_bind, wlp_close_file. intros k5 Hs5. apply wlp_ret. apply (drop_file_still _ _ _ _ Hwf3) in Hs5.
    assert (still k (set_files (delete (next_ptr k3) (files k5)) k5)) as Hs6 by by eapply still_trans.
    split; [by eapply still_wf|]. left. split; [by apply int_error_lt0|]. intros j. by apply still_entry.
Qed.

Lemma open_finish_dir path privileged k k3 fs h uid :
  vfs_wf k -> still k k3 -> is_Some (filesystems k !! fs) ->
  wlp (let* iter := new_iter fs h in
       match free_entry 0 k with
       | Some i => do* modify (fun k' => put_entry i (dir_entry path iter fs uid (open_pid k privileged) privileged (entry k' i)) k') in ret i
       | None => do* close_iter kmalloc_ok iter in an_error EMFILE
       end) (fun fd k' => vfs_wf k' /\ open_post path privileged k fd k') k3.
Proof.
  intros Hwf Hs Hfs. pose proof (still_wf _ _ Hs Hwf) as Hwf3. apply wlp_bind. intros n k4 [= <- <-].
  destruct (free_entry 0 k) as [i|] eqn:Ei.
  - apply wlp_bind, wlp_modify, wlp_ret. apply free_entry_spec in Ei as (Hi & _ & Hfree); [|unfold MAX_OPEN_FILES; lia].
    assert (of_exists (entry k3 i) = false) as Hfree3 by by rewrite (still_entry _ _ i Hs).
    assert (Hlen : length (open_files k3) = Z.to_nat MAX_OPEN_FILES) by apply Hwf3. split.
    + apply open_dir_wf; try done. by apply (q_fs _ _ (proj2 Hs)).
    + right; right. rewrite !entry_put by done. rewrite decide_True by done. split_and!; try done.
      * intros j Hj. rewrite entry_put, decide_False by done. by rewrite <- (still_entry _ _ j Hs).
      * left. eexists _, _, _. rewrite <- (still_entry _ _ i Hs). reflexivity.
  - apply wlp_bind, wlp_close_iter. intros k5 Hs5. apply wlp_ret. apply (drop_iter_still _ _ _ _ Hwf3) in Hs5.
    assert (still k (set_iters (delete (next_ptr k3) (iters k5)) k5)) as Hs6 by by eapply still_trans.
    split; [by eapply still_wf|]. left. split; [by apply int_error_lt0|]. intros j. by apply still_entry.
Qed.

Lemma open_spec path privileged k :
  vfs_wf k -> wlp (VFS_Open kmalloc_ok path privileged) (fun fd k' => vfs_wf k' /\ open_post path privileged k fd k') k.
Proof.
  intros Hwf. assert (forall code k', 0 < code < 2 ^ 31 -> still k k' -> vfs_wf k' /\ open_post path privileged k (int_error code) k') as Herr.
  { intros code k' Hc Hs. split; [by eapply still_wf|]. left. split; [by apply int_error_lt0|]. intros i. by apply still_entry. }
  unfold VFS_Open. apply wlp_bind, wlp_gets. cbn [id].
  destruct (negb (check_path (strings k path) =? -1) && negb privileged) eqn:Esp.
  { apply wlp_ret. split; [done|]. right; left. apply andb_prop in Esp as [_ E%negb_true_iff]. done. }
  pose proof (resolve_fs_live k (strings k path) Hwf) as Hlive. destruct (resolve_fs k (strings k path)) as [fs rel]. cbn [fst] in Hlive.
  apply wlp_bind, wlp_still; [apply stilly_access|]. intros [] k1 S1; cbn [negb]; [|apply wlp_ret; by apply Herr].
  apply wlp_bind, wlp_still; [apply stilly_is_directory|]. intros dir k2 S2. pose proof (still_trans _ _ _ S1 S2) as S12.
  destruct dir.
  - apply wlp_bind, wlp_still; [apply stilly_on_fs|]. intros it k3 S3. pose proof (still_trans _ _ _ S12 S3) as S13.
    destruct it as [it|]; [|apply wlp_ret; by apply Herr]. by apply open_finish_dir.
  - apply wlp_bind, wlp_still; [apply stilly_on_fs|]. intros h k3 S3. pose proof (still_trans _ _ _ S12 S3) as S13.
    destruct h as [h|]; [|apply wlp_ret; by apply Herr]. by apply open_finish_file.
Qed.

(** An entry is reused with the device it had: when [VFS_Open] puts a file that
    is no device into an entry that was one, what is written to the file goes
    to the device. *)
Lemma reused_entry_is_device path privileged k fd k' d write buf :
  vfs_wf k -> VFS_Open kmalloc_ok path privileged k = Some (fd, k') -> 0 <= fd -> of_exists (entry k fd) = false ->
  of_exists (entry k' fd) = true -> of_is_dir (entry k' fd) = false -> of_file (entry k' fd) <> 0 ->
  device_get (strings k path) k = None -> of_is_dev (entry k fd) = true -> of_dev (entry k fd) = Some d ->
  dv_write d = Some write ->
  VFS_Write kmalloc_ok fd buf true k' = returns (on_device (write buf)) k'.
Proof.
  intros Hwf E H0 Hfree Hex Hdir Hfile Hnone Hdev Hd Hw.
  destruct (open_spec path privileged k Hwf fd k' E) as [_ [[H _]|[(_ & _ & ->)|Hp]]]; [lia|congruence|].
  destruct Hp as (Hfd & _ & _ & Hns & _ & _ & Hent). destruct Hent as [(iter & fs & uid & Hent)|(file & fs & uid & Hent)].
  { rewrite Hent in Hdir. discriminate Hdir. }
  assert (of_is_dev (entry k' fd) = true) as Hdev' by (rewrite Hent, Hnone; exact Hdev).
  assert (of_dev (entry k' fd) = Some d) as Hd' by (rewrite Hent, Hnone; exact Hd).
  unfold VFS_Write, bind at 1, gets. cbn [id]. destruct Hfd as [_ Hlt].
  unfold bad_fd. destruct (Z.ltb_spec fd 0); [lia|]. destruct (Z.leb_spec MAX_OPEN_FILES fd); [lia|]. cbn [orb].
  rewrite Hex, Hns, Hdev', Hd', Hw. cbn [negb andb]. destruct (resolve_fs _ _) as [? rel].
  unfold bind at 1, ret. cbn [negb]. by destruct (Z.eqb_spec (of_file (entry k' fd)) 0).
Qed.

(** ** The other calls *)

Lemma close_spec fd privileged k :
  vfs_wf k -> wlp (VFS_Close kmalloc_ok fd privileged) (fun r k' => vfs_wf k' /\
    (r < 0 /\ k' = k \/ r = 0 /\ fd_ok fd /\ of_exists (entry k' fd) = false)) k.
Proof.
  intros Hwf. unfold VFS_Close. apply wlp_bind, wlp_gets. cbn [id].
  assert (forall code, 0 < code < 2 ^ 31 -> wlp (an_error code) (fun r k' => vfs_wf k' /\
    (r < 0 /\ k' = k \/ r = 0 /\ fd_ok fd /\ of_exists (entry k' fd) = false)) k) as Herr.
  { intros code Hc. apply wlp_ret. split; [done|]. left. by split; [apply int_error_lt0|]. }
  destruct (bad_fd fd) eqn:Ebad; [by apply Herr|].
  assert (fd_ok fd) as Hfd. { apply orb_false_iff in Ebad as [H1%Z.ltb_ge H2%Z.leb_gt]. done. }
  assert (Hlen : length (open_files k) = Z.to_nat MAX_OPEN_FILES) by apply Hwf.
  destruct (of_exists (entry k fd)) eqn:Eex; cbn [negb]; [|by apply Herr].
  destruct (of_is_socket (entry k fd)) eqn:Esock.
  { destruct (negb privileged && _); [by apply Herr|].
    apply wlp_bind. intros u k1 [= <- <-]. apply wlp_bind, wlp_modify, wlp_ret.
    set (k1 := set_sockets _ k). assert (quiet k k1) as Q by by split.
    assert (~ holds_file (entry k fd) /\ ~ holds_dir (entry k fd)) as [Hnf Hnd].
    { unfold holds_file, holds_dir. rewrite Esock. by split; intros (_ & ? & _). }
    split.
    - apply put_idle_wf; [by eapply quiet_wf|done|done|done|by intros [? _]|by intros [? _]].
    - right. split_and!; [done|done|]. by rewrite entry_put, decide_True by done. }
  destruct (negb privileged && _); [by apply Herr|]. destruct (negb privileged && _); [by apply Herr|].
  destruct (of_is_dir (entry k fd)) eqn:Edir; cbn [andb].
  - assert (holds_dir (entry k fd)) as Hh by done. destruct (wf_dir _ Hwf fd Hfd Hh) as (_ & _ & it & Hit).
    pose proof (wf_iter_below _ Hwf _ ltac:(by eexists)) as Hpos. destruct (Z.eqb_spec (of_iter (entry k fd)) 0); [lia|]. cbn [negb].
    apply wlp_bind, wlp_close_iter. intros k1 S1. apply wlp_bind, wlp_modify, wlp_ret.
    assert (length (open_files k1) = Z.to_nat MAX_OPEN_FILES) as Hlen1 by by rewrite (proj1 S1).
    split.
    + rewrite <- (still_entry _ _ fd S1). apply close_dir_wf; [by eapply still_wf|done|by rewrite (still_entry _ _ fd S1)|done].
    + right. split_and!; [done|done|]. by rewrite entry_put, decide_True by done.
  - assert (holds_file (entry k fd)) as Hh by done. destruct (wf_file _ Hwf fd Hfd Hh) as (_ & g & Hg).
    pose proof (wf_file_below _ Hwf _ ltac:(by eexists)) as Hpos. destruct (Z.eqb_spec (of_file (entry k fd)) 0); [lia|]. cbn [negb].
    apply wlp_bind, wlp_close_file. intros k1 S1. apply wlp_bind, wlp_modify, wlp_ret.
    assert (length (open_files k1) = Z.to_nat MAX_OPEN_FILES) as Hlen1 by by rewrite (proj1 S1).
    split.
    + rewrite <- (still_entry _ _ fd S1). apply close_file_wf; [by eapply still_wf|done|by rewrite (still_entry _ _ fd S1)|done].
    + right. split_and!; [done|done|]. by rewrite entry_put, decide_True by done.
Qed.

Lemma alloc_socket_wf id k : vfs_wf k -> wlp (vfs_alloc_socket_fd id) (fun _ k' => vfs_wf k') k.
Proof.
  intros Hwf. unfold vfs_alloc_socket_fd. apply wlp_bind, wlp_gets. cbn [Datatypes.id].
  destruct (free_entry 4 k) as [i|] eqn:Ei; [|by apply wlp_ret]. apply wlp_bind, wlp_modify, wlp_ret.
  apply free_entry_spec in Ei as (Hi & _ & Hfree); [|unfold MAX_OPEN_FILES; lia].
  destruct (free_holds_nothing _ Hfree). apply put_idle_wf; try done; by intros (_ & ? & _).
Qed.

Lemma socket_wf domain ty k : vfs_wf k -> wlp (VFS_Socket domain ty) (fun _ k' => vfs_wf k') k.
Proof.
  intros Hwf. unfold VFS_Socket, an_error. destruct (negb _); [by apply wlp_ret|]. destruct (_ && _); [by apply wlp_ret|].
  apply wlp_bind, wlp_quiet; [apply quietly_on_socks|]. intros s k1 Q1. pose proof (quiet_wf _ _ Q1 Hwf) as Hwf1.
  destruct (s <? 0); [by apply wlp_ret|]. apply wlp_bind. eapply wlp_mono; [by apply alloc_socket_wf|].
  intros fd k2 Hwf2. cbn beta in Hwf2. destruct (fd <? 0); [|by apply wlp_ret].
  apply wlp_bind, wlp_quiet; [apply quietly_on_socks|]. intros _ k3 Q3. apply wlp_ret. by eapply quiet_wf.
Qed.

Lemma accept_round_wf id want k : vfs_wf k -> wlp (accept_round id want) (fun _ k' => vfs_wf k') k.
Proof.
  intros Hwf. unfold accept_round. apply wlp_bind, wlp_quiet; [apply quietly_on_socks|]. intros r k1 Q1.
  pose proof (quiet_wf _ _ Q1 Hwf) as Hwf1. destruct r as [n|]; [|by apply wlp_ret]. destruct (n <? 0); [by apply wlp_ret|].
  apply wlp_bind, wlp_gets. apply wlp_bind. eapply wlp_mono; [by apply alloc_socket_wf|].
  intros fd k2 Hwf2. cbn beta in Hwf2. destruct (fd <? 0); [|by apply wlp_ret].
  apply wlp_bind, wlp_quiet; [apply quietly_on_socks|]. intros _ k3 Q3. apply wlp_ret. by eapply quiet_wf.
Qed.

Lemma with_socket_wf {A} fd (fail : Z -> M vk A) (go : vfs_file P W -> M vk A) k :
  vfs_wf k -> (forall code, quietly (fail code)) ->
  (fd_ok fd -> wlp (go (entry k fd)) (fun _ k' => vfs_wf k') k) ->
  wlp (with_socket fd fail go) (fun _ k' => vfs_wf k') k.
Proof.
  intros Hwf Hfail Hgo. assert (forall code, wlp (fail code) (fun _ k' => vfs_wf k') k) as Hf.
  { intros code. apply wlp_quiet; [apply Hfail|]. intros _ k' Q. by eapply quiet_wf. }
  unfold with_socket. apply wlp_bind, wlp_gets. cbn [id]. destruct (bad_fd fd) eqn:Ebad; [done|].
  destruct (_ || _); [done|]. destruct (negb _); [done|]. apply Hgo.
  apply orb_false_iff in Ebad as [H1%Z.ltb_ge H2%Z.leb_gt]. done.
Qed.

Lemma accept_wf fd want k : vfs_wf k -> wlp (VFS_Accept fd want) (fun _ k' => vfs_wf k') k.
Proof.
  intros Hwf. apply with_socket_wf; [done|intros; apply quietly_ret|]. intros _. by apply accept_round_wf.
Qed.

Lemma bind_wf fd addr len k : vfs_wf k -> wlp (VFS_Bind kmalloc_ok garbage fd addr len) (fun _ k' => vfs_wf k') k.
Proof.
  intros Hwf. apply with_socket_wf; [done|intros; apply quietly_ret|]. intros Hfd.
  destruct addr as [a|]; [|by apply wlp_ret]. destruct (len <? 2); [by apply wlp_ret|]. destruct (negb _); [by apply wlp_ret|].
  apply wlp_bind, wlp_quiet; [apply quietly_create|]. intros _ k1 Q1. apply wlp_bind, wlp_gets.
  apply wlp_bind, wlp_quiet; [apply quietly_on_socks|]. intros rc k2 Q2. assert (vfs_wf k2) as Hwf2 by (eapply quiet_wf; [|done]; by etrans).
  destruct (rc <? 0); [by apply wlp_ret|]. apply wlp_bind, wlp_modify, wlp_ret.
  apply (quiet_wf k2); [|done]. assert (length (open_files k2) = Z.to_nat MAX_OPEN_FILES) as Hlen by apply Hwf2.
  split; cbn; try done.
  - by rewrite length_aset.
  - intros i. rewrite entry_put by done. by case_decide; subst.
Qed.

(** ** Mounting *)

(** Changes of the mounted file systems that leave those in use. *)
Lemma remount_wf k k' :
  vfs_wf k -> open_files k' = open_files k -> rootfs k' = rootfs k -> files k' = files k -> iters k' = iters k ->
  next_ptr k <= next_ptr k' -> length (mount_table k') = length (mount_table k) ->
  (forall p, is_Some (filesystems k' !! p) -> 0 < p < next_ptr k') ->
  is_Some (filesystems k' !! rootfs k) ->
  (forall i, 0 <= i < MAX_MOUNTS -> mt_active (aget null_mount (mount_table k') i) = true ->
     is_Some (filesystems k' !! mt_fs (aget null_mount (mount_table k') i))) ->
  (forall i, fd_ok i -> holds_file (entry k i) \/ holds_dir (entry k i) -> is_Some (filesystems k' !! of_fs (entry k i))) ->
  vfs_wf k'.
Proof.
  intros Hwf Eo Er Ef Ei Hn Hm Hbelow Hroot Hmounts Huse.
  assert (He : forall i, entry k' i = entry k i) by (intros i; unfold entry; by rewrite Eo).
  split; rewrite ?Eo, ?Er, ?Hm, ?Ef, ?Ei; try done; try (by apply Hwf).
  - pose proof (wf_next _ Hwf). lia.
  - intros p Hp%(wf_file_below _ Hwf). lia.
  - intros p Hp%(wf_iter_below _ Hwf). lia.
  - intros i Hi. rewrite He. intros Hh. split; [by apply Huse; [|left]|]. by apply (wf_file _ Hwf).
  - intros i Hi. rewrite He. intros Hh. split_and!; [by apply (wf_dir _ Hwf)|by apply Huse; [|right]|]. by apply (wf_dir _ Hwf).
  - intros p x E. destruct (wf_file_owner _ Hwf p x E) as (i & ? & ? & ?). exists i. by rewrite He.
  - intros p x E. destruct (wf_dir_owner _ Hwf p x E) as (i & ? & ? & ?). exists i. by rewrite He.
  - intros a b. rewrite !He. apply (wf_file_unique _ Hwf).
  - intros a b. rewrite !He. apply (wf_dir_unique _ Hwf).
Qed.

Lemma uses_live k i : vfs_wf k -> fd_ok i -> holds_file (entry k i) \/ holds_dir (entry k i) ->
  is_Some (filesystems k !! of_fs (entry k i)).
Proof. intros Hwf Hi [Hh|Hh]; [by apply (wf_file _ Hwf)|by apply (wf_dir _ Hwf)]. Qed.

(** What [unmount_fs] leaves. *)
Lemma wlp_unmount_fs m (Q : unit -> vk -> Prop) k :
  (forall k', still k (set_filesystems (filesystems k) k') -> (forall p, is_Some (filesystems k' !! p) <-> is_Some (filesystems k !! p) /\ p <> mt_fs m) ->
     Q tt k') -> wlp (unmount_fs m) Q k.
Proof.
  intros HQ. unfold unmount_fs. apply wlp_bind. intros r k1 E. pose proof (on_fs_table _ _ _ _ _ E) as [Et Qt].
  apply wlp_modify. apply HQ.
  - split; [destruct (filesystems k1 !! mt_fs m), (aget None (block_devices k1) (mt_dev m)) as [[nm d]|]; cbn; done|].
    destruct Qt as [A B C F G I J N].
    destruct (filesystems k1 !! mt_fs m), (aget None (block_devices k1) (mt_dev m)) as [[nm d]|]; split; cbn; done.
  - intros p.
    assert (is_Some (delete (mt_fs m) (filesystems k1) !! p) <-> is_Some (filesystems k !! p) /\ p <> mt_fs m) as Hd.
    { rewrite lookup_delete_is_Some, (q_fs _ _ Qt). split; intros [? ?]; by split. }
    destruct (filesystems k1 !! mt_fs m), (aget None (block_devices k1) (mt_dev m)) as [[nm d]|]; exact Hd.
Qed.

Lemma mount_wf source target k :
  vfs_wf k -> wlp (VFS_Mount kmalloc_ok source target) (fun _ k' => vfs_wf k') k.
Proof.
  intros Hwf. assert (forall b, quiet k (set_blocks b k)) as Hb by (intros b; by split).
  unfold VFS_Mount, an_error. apply wlp_bind, wlp_gets. cbn [id].
  destruct (find_first _ 0 _) as [i|]; [|by apply wlp_ret].
  destruct (aget None (block_devices k) i) as [[nm [dev|]]|]; [|apply wlp_diverge|apply wlp_diverge].
  destruct (ext2_mount kmalloc_ok dev) as [[dev' [s|]]|]; [| |apply wlp_diverge].
  2: { apply wlp_bind, wlp_modify, wlp_ret. eapply quiet_wf; [apply Hb|done]. }
  set (fs := next_ptr k) in *. pose proof (wf_next _ Hwf) as Hn. apply wlp_bind, wlp_modify.
  set (k1 := set_next (fs + 1) _).
  assert (Hlive : forall p, is_Some (filesystems k !! p) -> is_Some (<[fs := s]> (filesystems k) !! p)).
  { intros p Hp. destruct (decide (p = fs)) as [->|]; [rewrite lookup_insert_eq; by eexists|by rewrite lookup_insert_ne]. }
  assert (Hbelow : forall p, is_Some (<[fs := s]> (filesystems k) !! p) -> 0 < p < fs + 1).
  { intros p Hp. destruct (decide (p = fs)) as [->|Hne]; [lia|]. rewrite lookup_insert_ne in Hp by done.
    pose proof (wf_fs_below _ Hwf p Hp). lia. }
  destruct (free_mount k) as [j|] eqn:Ej.
  - apply wlp_bind, wlp_modify, wlp_ret. apply (remount_wf k); cbn; try done.
    + lia.
    + by rewrite length_aset.
    + apply Hlive, Hwf.
    + intros a Ha. apply find_first_Some in Ej as (Hj & _ & _). destruct (decide (j = a)) as [->|Hne].
      * rewrite aget_aset_eq by (rewrite (wf_mounts _ Hwf); unfold MAX_MOUNTS in *; lia). cbn. intros _. by rewrite lookup_insert_eq.
      * rewrite aget_aset_ne by lia. intros Hact. by apply Hlive, (wf_mounted _ Hwf).
    + intros a Ha Hh. by apply Hlive, uses_live.
  - apply wlp_bind, wlp_unmount_fs. intros k2 [Eo Q] Hfs. apply wlp_ret. cbn [mt_fs] in Hfs.
    assert (Hback : forall p, is_Some (filesystems k !! p) -> is_Some (filesystems k2 !! p)).
    { intros p Hp. apply Hfs. split; [by apply Hlive|]. intros ->. pose proof (wf_fs_below _ Hwf fs Hp). lia. }
    assert (vfs_wf (set_filesystems (filesystems k1) k2)) as Hwf2.
    { apply (quiet_wf k1); [done|]. apply (remount_wf k); cbn; try done.
      - lia.
      - apply Hlive, Hwf.
      - intros a Ha Hact. by apply Hlive, (wf_mounted _ Hwf).
      - intros a Ha Hh. by apply Hlive, uses_live. }
    destruct Q as [QA QB QC QD QE QF QG QH]. cbn in *.
    assert (He : forall a, entry k2 a = entry k a) by (intros a; unfold entry; by rewrite Eo).
    apply (remount_wf (set_filesystems (filesystems k1) k2)); cbn; try done.
    + intros p [Hp _]%Hfs. pose proof (Hbelow p Hp). lia.
    + rewrite QD. apply Hback, Hwf.
    + intros a Ha. rewrite QC. intros Hact. by apply Hback, (wf_mounted _ Hwf).
    + intros a Ha. change (entry (set_filesystems _ k2) a) with (entry k2 a). rewrite He. intros Hh. by apply Hback, uses_live.
Qed.

(** Nothing but the mount at [target] uses its file system. *)
Definition unused_mount k (i : Z) : Prop :=
  let fs := mt_fs (aget null_mount (mount_table k) i) in
  fs <> rootfs k /\
  (forall j, 0 <= j < MAX_MOUNTS -> j <> i -> mt_active (aget null_mount (mount_table k) j) = true ->
     mt_fs (aget null_mount (mount_table k) j) <> fs) /\
  (forall j, fd_ok j -> holds_file (entry k j) \/ holds_dir (entry k j) -> of_fs (entry k j) <> fs).

Lemma unmount_wf target k :
  vfs_wf k -> (forall i, 0 <= i < MAX_MOUNTS -> mountpoint (aget null_mount (mount_table k) i) = strings k target -> unused_mount k i) ->
  wlp (VFS_Unmount_Path target) (fun _ k' => vfs_wf k') k.
Proof.
  intros Hwf Hun. unfold VFS_Unmount_Path, an_error. apply wlp_bind, wlp_gets. cbn [id].
  destruct (find_first _ 0 _) as [i|] eqn:Ei; [|by apply wlp_ret]. apply find_first_Some in Ei as (Hi & Ht & _).
  apply andb_prop in Ht as [_ Ht%bool_decide_eq_true]. assert (0 <= i < MAX_MOUNTS) as Hi' by (unfold MAX_MOUNTS in *; lia).
  destruct (Hun i Hi' Ht) as (Hroot & Hother & Hent). set (m := aget null_mount (mount_table k) i) in *.
  apply wlp_bind, wlp_unmount_fs. intros k1 [Eo Q] Hfs. apply wlp_bind, wlp_modify, wlp_ret.
  pose proof (quiet_wf _ _ Q Hwf) as Hwf1. destruct Q as [QA QB QC QD QE QF QG QH]. cbn in *.
  assert (He : forall a, entry k1 a = entry k a) by (intros a; unfold entry; by rewrite Eo).
  apply (remount_wf (set_filesystems (filesystems k) k1)); cbn; try done.
  - by rewrite length_aset.
  - intros p [Hp _]%Hfs. pose proof (wf_fs_below _ Hwf p Hp). lia.
  - rewrite QD. apply Hfs. split; [apply Hwf|done].
  - intros a Ha. rewrite QC. destruct (decide (i = a)) as [->|Hne].
    + rewrite aget_aset_eq by (rewrite (wf_mounts _ Hwf); unfold MAX_MOUNTS in *; lia). done.
    + rewrite aget_aset_ne by lia. intros Hact. apply Hfs. split; [by apply (wf_mounted _ Hwf)|]. apply Hother; [done|congruence|done].
  - intros a Ha. change (entry (set_filesystems _ k1) a) with (entry k1 a). rewrite He. intros Hh. apply Hfs.
    split; [by apply uses_live|]. by apply Hent.
Qed.

(** ** All calls, in any order *)

(** Other parts of the kernel and the processes change what is not the
    tables: memory, sockets, users, devices, the registry of disks. *)
Definition elsewhere k k' : Prop :=
  open_files k' = open_files k /\ mount_table k' = mount_table k /\ rootfs k' = rootfs k /\
  filesystems k' = filesystems k /\ files k' = files k /\ iters k' = iters k /\ next_ptr k' = next_ptr k.

Inductive vfs_step k k' : Prop :=
| step_create path d r : VFS_Create kmalloc_ok garbage path d k = Some (r, k') -> vfs_step k k'
| step_open path p fd : VFS_Open kmalloc_ok path p k = Some (fd, k') -> vfs_step k k'
| step_read fd n r : VFS_Read kmalloc_ok fd n k = Some (r, k') -> vfs_step k k'
| step_write fd buf p r : VFS_Write kmalloc_ok fd buf p k = Some (r, k') -> vfs_step k k'
| step_close fd p r : VFS_Close kmalloc_ok fd p k = Some (r, k') -> vfs_step k k'
| step_getdents fd n r : VFS_GetDents64 kmalloc_ok fd n k = Some (r, k') -> vfs_step k k'
| step_set_pos fd n p r : VFS_Set_Pos fd n p k = Some (r, k') -> vfs_step k k'
| step_ioctl fd req arg r : VFS_ioctl fd req arg k = Some (r, k') -> vfs_step k k'
| step_socket domain ty r : VFS_Socket domain ty k = Some (r, k') -> vfs_step k k'
| step_bind fd addr len r : VFS_Bind kmalloc_ok garbage fd addr len k = Some (r, k') -> vfs_step k k'
| step_listen fd n r : VFS_Listen fd n k = Some (r, k') -> vfs_step k k'
| step_accept fd w r : VFS_Accept fd w k = Some (r, k') -> vfs_step k k'
| step_accept_resume id w r : accept_round id w k = Some (r, k') -> vfs_step k k'
| step_connect fd addr len r : VFS_Connect fd addr len k = Some (r, k') -> vfs_step k k'
| step_sendto fd buf dest r : VFS_SendTo fd buf dest k = Some (r, k') -> vfs_step k k'
| step_recvfrom fd n r : VFS_RecvFrom fd n k = Some (r, k') -> vfs_step k k'
| step_mount source target r : VFS_Mount kmalloc_ok source target k = Some (r, k') -> vfs_step k k'
| step_unmount target r :
    (forall i, 0 <= i < MAX_MOUNTS -> mountpoint (aget null_mount (mount_table k) i) = strings k target -> unused_mount k i) ->
    VFS_Unmount_Path target k = Some (r, k') -> vfs_step k k'
| step_elsewhere : elsewhere k k' -> vfs_step k k'.

Lemma vfs_step_wf k k' : vfs_step k k' -> vfs_wf k -> vfs_wf k'.
Proof.
  assert (Hq : forall A (m : M vk A) r, quietly m -> m k = Some (r, k') -> vfs_wf k -> vfs_wf k').
  { intros A m r Hm E. apply quiet_wf. by eapply Hm. }
  intros Hstep Hwf. destruct Hstep as [path d r E|path p fd E|fd n r E|fd buf p r E|fd p r E|fd n r E|fd n p r E|fd req arg r E
    |domain ty r E|fd addr len r E|fd n r E|fd w r E|id w r E|fd addr len r E|fd buf dest r E|fd n r E|source target r E|target r Hun E|He].
  - by eapply Hq; [apply quietly_create|..].
  - by eapply open_spec in E as [? _].
  - by eapply Hq; [apply quietly_read|..].
  - by eapply Hq; [apply quietly_write|..].
  - by eapply close_spec in E as [? _].
  - by eapply Hq; [apply quietly_getdents|..].
  - by eapply Hq; [apply quietly_set_pos|..].
  - by eapply Hq; [apply quietly_ioctl|..].
  - by eapply socket_wf in E.
  - by eapply bind_wf in E.
  - by eapply Hq; [apply quietly_listen|..].
  - by eapply accept_wf in E.
  - by eapply accept_round_wf in E.
  - by eapply Hq; [apply quietly_connect|..].
  - by eapply Hq; [apply quietly_sendto|..].
  - by eapply Hq; [apply quietly_recvfrom|..].
  - by eapply mount_wf in E.
  - by eapply unmount_wf in E.
  - destruct He as (E1 & E2 & E3 & E4 & E5 & E6 & E7). apply (quiet_wf k); [|done].
    split; unfold same_keys, entry; rewrite ?E1, ?E2, ?E3, ?E4, ?E5, ?E6, ?E7; done || lia.
Qed.

(** After [VFS_Init]: empty tables over a root file system. *)
Lemma init_wf memory k :
  length memory = Z.to_nat MAX_OPEN_FILES -> length (mount_table k) = Z.to_nat MAX_MOUNTS ->
  files k = ∅ -> iters k = ∅ -> 0 < next_ptr k -> is_Some (filesystems k !! rootfs k) ->
  (forall p, is_Some (filesystems k !! p) -> 0 < p < next_ptr k) -> vfs_wf (init_tables memory k).
Proof.
  intros Hm Ht Hf Hi Hn Hr Hb. unfold init_tables.
  assert (He : forall i, of_exists (aget null_vfs_file (map init_entry memory) i) = false).
  { intros i. unfold aget. destruct (0 <=? i); [|done]. rewrite list_lookup_fmap. by destruct (memory !! Z.to_nat i). }
  assert (Hnone : forall i, ~ holds_file (aget null_vfs_file (map init_entry memory) i) /\ ~ holds_dir (aget null_vfs_file (map init_entry memory) i))
    by (intros i; apply free_holds_nothing, He).
  split; unfold entry; cbn; rewrite ?length_map, ?Hf, ?Hi; try done;
    try (intros i _ Hh; by destruct (Hnone i)); try (intros i j _ _ Hh; by destruct (Hnone i));
    try (intros p x Hx; by rewrite lookup_empty in Hx); try (intros p Hp; rewrite lookup_empty in Hp; by destruct Hp).
  intros i _. unfold aget. destruct (0 <=? i); [|done]. rewrite list_lookup_fmap. by destruct (mount_table k !! Z.to_nat i).
Qed.

End table.

(** ** Isolation *)

(** The calls a process makes on a descriptor. *)
Inductive fd_call :=
| CRead (count : Z) | CWrite (buf : list Z) | CClose | CGetDents (count : Z) | CSetPos (pos : Z) | CIoctl (req arg : Z)
| CBind (addr : option sockaddr_un) (len : Z) | CListen (backlog : Z) | CAccept (want : bool)
| CConnect (addr : option sockaddr_un) (len : Z) | CSendTo (buf : list Z) (dest : option sockaddr_un) | CRecvFrom (count : Z).

Section isolation.
Context {D P W : Type} `{!BlockDevice D} `{!ProcOps P} `{!VfsProcs P}.
Context (kmalloc_ok : nat -> bool) (garbage : list Z).
Abbreviation vk := (kernel D P W).

(** The number a call returns; [Wait]: it waits. *)
Definition result_of {A} (r : outcome (Z * A)) : outcome Z := match r with Ret (z, _) => Ret z | Wait => Wait end.
Definition run_call (fd : Z) (c : fd_call) : M vk (outcome Z) :=
  match c with
  | CRead n => let* r := VFS_Read kmalloc_ok fd n in ret (result_of r)
  | CWrite buf => VFS_Write kmalloc_ok fd buf false
  | CClose => returns (VFS_Close kmalloc_ok fd false)
  | CGetDents n => let* r := VFS_GetDents64 kmalloc_ok fd n in ret (Ret (fst r))
  | CSetPos pos => returns (VFS_Set_Pos fd pos false)
  | CIoctl req arg => returns (VFS_ioctl fd req arg)
  | CBind a len => returns (VFS_Bind kmalloc_ok garbage fd a len)
  | CListen n => returns (VFS_Listen fd n)
  | CAccept w => let* r := VFS_Accept fd w in ret (result_of r)
  | CConnect a len => VFS_Connect fd a len
  | CSendTo buf dest => VFS_SendTo fd buf dest
  | CRecvFrom n => let* r := VFS_RecvFrom fd n in ret (result_of r)
  end.

Ltac listed := repeat first [apply list_elem_of_here | apply list_elem_of_further].

(** The entry belongs to another process: it is neither an entry that the
    kernel opened (its process is -1) nor one that anybody may write. *)
Definition foreign (k : vk) (fd : Z) : Prop :=
  of_pid (entry k fd) <> current_pid k /\ of_pid (entry k fd) <> -1 /\ of_write_all (entry k fd) = false.

Lemma bind_run {A B} (m : M vk A) (f : A -> M vk B) k a k' : m k = Some (a, k') -> bind m f k = f a k'.
Proof. unfold bind. by intros ->. Qed.

Lemma with_socket_foreign {A} fd (fail : Z -> M vk A) go k :
  fd_ok fd -> of_exists (entry k fd) = false \/ of_pid (entry k fd) <> current_pid k ->
  exists code, code ∈ [ENOTSOCK; EACCES] /\ with_socket fd fail go k = fail code k.
Proof.
  intros [H0 H1] Hf. unfold with_socket, bind, gets. cbn [id]. unfold bad_fd.
  destruct (Z.ltb_spec fd 0); [lia|]. destruct (Z.leb_spec MAX_OPEN_FILES fd); [lia|]. cbn [orb].
  destruct (of_exists (entry k fd)) eqn:E; cbn [negb orb].
  - destruct (negb (of_is_socket _)); [exists ENOTSOCK; split; [listed|done]|].
    destruct Hf as [|Hf]; [done|]. apply Z.eqb_neq in Hf. rewrite Hf. exists EACCES. split; [listed|done].
  - exists ENOTSOCK. split; [listed|done].
Qed.

(** C22: descriptors are private.  Whatever a process calls with a descriptor
    that is closed or that belongs to another process - reading, writing,
    closing, listing, seeking, device and socket calls - is refused with
    EBADF, ENOTDIR, ENOTSOCK or EACCES, and no state of the kernel changes. *)
Theorem descriptors_are_private fd c k :
  fd_ok fd -> of_exists (entry k fd) = false \/ foreign k fd ->
  exists code, code ∈ [EBADF; ENOTDIR; ENOTSOCK; EACCES] /\ run_call fd c k = Some (Ret (- code), k).
Proof.
  intros Hfd Hf.
  enough (exists code, code ∈ [EBADF; ENOTDIR; ENOTSOCK; EACCES] /\ run_call fd c k = Some (Ret (int_error code), k)) as (code & Hc & E).
  { exists code. split; [done|]. rewrite E, int_error_neg; [done|]. repeat (apply elem_of_cons in Hc as [->|Hc]; [by vm_compute|]).
    by apply elem_of_nil in Hc. }
  assert (of_exists (entry k fd) = false \/ of_pid (entry k fd) <> current_pid k) as Hf' by (destruct Hf as [|[? _]]; tauto).
  assert (Hsock : forall code, code ∈ [ENOTSOCK; EACCES] -> code ∈ [EBADF; ENOTDIR; ENOTSOCK; EACCES]) by (intros ? [->|[->|[]%elem_of_nil]%elem_of_cons]%elem_of_cons; listed).
  destruct (with_socket_foreign fd (fun code => ret (int_error code)) (fun _ => diverge) k Hfd Hf') as (sc & Hsc & _).
  pose proof Hfd as [H0 H1].
  assert (bad_fd fd = false) as Hbad.
  { unfold bad_fd. destruct (Z.ltb_spec fd 0); [lia|]. by destruct (Z.leb_spec MAX_OPEN_FILES fd); [lia|]. }
  destruct c; cbn [run_call].
  7-12: match goal with
    | |- context [VFS_Bind] => unfold VFS_Bind
    | |- context [VFS_Listen] => unfold VFS_Listen
    | |- context [VFS_Accept] => unfold VFS_Accept
    | |- context [VFS_Connect] => unfold VFS_Connect
    | |- context [VFS_SendTo] => unfold VFS_SendTo
    | |- context [VFS_RecvFrom] => unfold VFS_RecvFrom
    end; match goal with |- context [with_socket ?d ?fail ?go] =>
      destruct (with_socket_foreign d fail go k Hfd Hf') as (code & Hc & E); exists code; split; [by apply Hsock|];
      first [exact E | unfold returns; etransitivity; [apply (bind_run _ _ k _ k E)|reflexivity]] end.
  all: unfold VFS_Read, VFS_Write, VFS_Close, VFS_GetDents64, VFS_Set_Pos, VFS_ioctl, returns, bind, gets; cbn [id]; rewrite Hbad;
    destruct (of_exists (entry k fd)) eqn:Eex; cbn [negb orb].
  all: try (exists EBADF; split; [listed|reflexivity]).
  all: try (exists ENOTDIR; split; [listed|reflexivity]).
  all: destruct Hf as [|(Hpid & Hk & Hall)]; [done|]; apply Z.eqb_neq in Hpid, Hk; rewrite ?Hpid, ?Hk, ?Hall; cbn [negb andb].
  - destruct (of_is_socket _); exists EACCES; split; (listed || reflexivity).
  - destruct (of_is_socket _); exists EACCES; split; (listed || reflexivity).
  - destruct (of_is_socket _); [exists EACCES; split; (listed || reflexivity)|].
    destruct (negb (Z.land _ _ =? 0)); exists EACCES; split; (listed || reflexivity).
  - destruct (negb (of_is_dir _) || _); [exists ENOTDIR|exists EACCES]; split; (listed || reflexivity).
  - destruct (of_file _ =? 0); [exists EBADF; split; (listed || reflexivity)|].
    destruct (negb (Z.land _ _ =? 0)); exists EACCES; split; (listed || reflexivity).
  - destruct (of_is_dev _); exists EBADF; split; (listed || reflexivity).
Qed.
End isolation.

(** ** An example: process 1 of a user, an entry of process 2 *)
#[local] Existing Instance demo_procs.
#[export] Instance demo_owner : VfsProcs Z := {| proc_owner := fun _ pid => pid |}.

Definition other_entry : vfs_file Z unit := mkVfsFile 0 0 0 0 0 2 2 true false None false false true 0.
Definition demo_kernel : kernel mem_disk Z unit :=
  mkKernel (replicate 4 null_vfs_file ++ other_entry :: replicate 95 null_vfs_file) (replicate 16 null_mount) 1
    {[1 := demo_mounted]} ∅ ∅ 2 (replicate 32 None) [] (mkSys [] 1) perm_db tt (fun _ => []).

Lemma demo_fs : filesystems demo_kernel !! 1 = Some demo_mounted.
Proof. unfold demo_kernel. cbn [filesystems]. apply lookup_singleton_eq. Qed.


Lemma descriptors_are_private_witness :
  foreign demo_kernel 4 /\
  exists code, code ∈ [EBADF; ENOTDIR; ENOTSOCK; EACCES] /\
    run_call (fun _ => true) [] 4 CClose demo_kernel = Some (Ret (- code), demo_kernel).
Proof.
  assert (foreign demo_kernel 4) as Hf by (split; [discriminate|split; [discriminate|reflexivity]]). split; [exact Hf|].
  assert (fd_ok 4) as Hfd by (unfold fd_ok, MAX_OPEN_FILES; lia).
  exact (descriptors_are_private (fun _ => true) [] 4 CClose demo_kernel Hfd (or_intror Hf)).
Defined.
