(* ===== verification/VfsFiles.v ===== *)
(** * Files through the VFS: resolving paths, writing and reading back

    [resolve_fs] against a declarative description of the mount a path
    belongs to, and the composition of VFS, permissions, ext2 and its block
    cache: what a process writes to a descriptor is what it reads back. *)

From stdpp Require Import strings.
From S2P Require Import Prelude Bytes StateMonad Errno User UnixSocket BlockDev Ext2Cache Ext2 Ext2Inv Ext2Alloc Ext2File.
From S2P Require Import Mkfs Ext2Format Ext2Write Ext2Dir Ext2Perm Vfs VfsTable.
#[local] Open Scope Z_scope.

(** ** The mount a path belongs to *)
Section resolve.
Context {D P W : Type} `{!BlockDevice D} `{!ProcOps P} `{!VfsProcs P}.
Abbreviation vk := (kernel D P W).
Implicit Types k : vk.

Definition mount_at k (i : Z) : vfs_mount := aget null_mount (mount_table k) i.

(** The mount point is a prefix of the path that ends where a name ends. *)
Definition covers (p : list Z) (m : vfs_mount) : Prop :=
  mt_active m = true /\ mountpoint m <> [] /\
  exists rest, p = mountpoint m ++ rest /\ (rest = [] \/ exists r, rest = 47 :: r).

(** What is left of the path in the mounted file system. *)
Definition relative (p : list Z) (m : vfs_mount) : list Z :=
  let rest := drop (length (mountpoint m)) p in if bool_decide (rest = []) then [47] else rest.

(** The longest mount point so far and, of several, the first. *)
Definition best_mount k (p : list Z) (n : Z) (best : Z * list Z * Z) : Prop :=
  (best = (rootfs k, p, 0) /\ forall j, 0 <= j < n -> ~ covers p (mount_at k j)) \/
  exists i, 0 <= i < n /\ covers p (mount_at k i) /\
    best = (mt_fs (mount_at k i), relative p (mount_at k i), Z.of_nat (length (mountpoint (mount_at k i)))) /\
    forall j, 0 <= j < n -> covers p (mount_at k j) ->
      (length (mountpoint (mount_at k j)) < length (mountpoint (mount_at k i)))%nat \/
      length (mountpoint (mount_at k j)) = length (mountpoint (mount_at k i)) /\ i <= j.

Lemma resolve_step_covers p m fs rel len :
  Forall (fun c => c <> 0) p -> 0 <= len ->
  resolve_step p m (fs, rel, len) = (mt_fs m, relative p m, Z.of_nat (length (mountpoint m))) /\
    covers p m /\ len < Z.of_nat (length (mountpoint m))
  \/ resolve_step p m (fs, rel, len) = (fs, rel, len) /\
    (covers p m -> Z.of_nat (length (mountpoint m)) <= len).
Proof.
  intros Hp Hlen. unfold resolve_step. destruct (mt_active m) eqn:Ea; cbn [negb].
  2: { right. split; [done|]. intros (H & _). congruence. }
  destruct (Z.leb_spec (Z.of_nat (length (mountpoint m))) len) as [Hle|Hlt]; [by right|].
  rewrite Nat2Z.id. case_bool_decide as Hpre.
  2: { right. split; [done|]. intros (_ & _ & rest & -> & _). by rewrite take_app_length in Hpre. }
  assert (p = mountpoint m ++ drop (length (mountpoint m)) p) as Hsplit by (rewrite <- Hpre at 1; by rewrite take_drop).
  set (rest := drop (length (mountpoint m)) p) in *.
  assert (aget 0 p (Z.of_nat (length (mountpoint m))) = match rest with [] => 0 | c :: _ => c end) as Hc.
  { rewrite Hsplit, aget_app_r by lia. rewrite Z.sub_diag. by destruct rest. }
  rewrite Hc. unfold relative. fold rest.
  assert (mountpoint m <> []) as Hne by (intros E; rewrite E in Hlt; cbn in Hlt; lia).
  destruct rest as [|c r] eqn:Er.
  - left. cbn. split_and!; [done| |lia]. split_and!; [done|done|]. exists []. auto.
  - destruct (Z.eqb_spec c 47) as [->|Hc47]; cbn [orb].
    { left. cbn. split_and!; [done| |lia]. split_and!; [done|done|]. exists (47 :: r). eauto. }
    assert (c <> 0) as Hc0.
    { rewrite Hsplit in Hp. apply Forall_app in Hp as [_ Hp]. by inversion Hp. }
    destruct (Z.eqb_spec c 0); [done|]. right. split; [done|].
    intros (_ & _ & rest' & E & H). rewrite E in Hsplit. apply app_inv_head in Hsplit. subst rest'.
    destruct H as [|(? & [=])]; congruence.
Qed.

(** C40: [resolve_fs] finds the mount a path belongs to.  Of the active mounts
    whose mount point is a prefix of the path ending at a "/" or at its end,
    it answers with the one of the longest mount point (the first in the table
    when there are several), and with what is left of the path, "/" if
    nothing is; a path under no mount point stays as it is and belongs to the
    root file system. *)
Theorem resolve_fs_longest k p :
  Forall (fun c => c <> 0) p ->
  (resolve_fs k p = (rootfs k, p) /\ forall j, 0 <= j < MAX_MOUNTS -> ~ covers p (mount_at k j)) \/
  exists i, 0 <= i < MAX_MOUNTS /\ covers p (mount_at k i) /\
    resolve_fs k p = (mt_fs (mount_at k i), relative p (mount_at k i)) /\
    forall j, 0 <= j < MAX_MOUNTS -> covers p (mount_at k j) ->
      (length (mountpoint (mount_at k j)) < length (mountpoint (mount_at k i)))%nat \/
      length (mountpoint (mount_at k j)) = length (mountpoint (mount_at k i)) /\ i <= j.
Proof.
  intros Hp. unfold resolve_fs.
  assert (best_mount k p MAX_MOUNTS
    (for_range (fun i => resolve_step p (mount_at k i)) 0 (Z.to_nat MAX_MOUNTS) (rootfs k, p, 0))) as H.
  { apply (for_range_ind (best_mount k p)).
    - left. split; [done|]. lia.
    - intros n [[fs rel] len] Hn HB.
      assert (0 <= len) as Hlen by (destruct HB as [[[= -> -> ->] _]|(i & _ & _ & [= _ _ ->] & _)]; lia).
      destruct (resolve_step_covers p (mount_at k n) fs rel len Hp Hlen) as [(-> & Hcov & Hlt)|(-> & Hcov)].
      + right. exists n. split_and!; [lia|lia|done|done|]. intros j Hj Hcj.
        destruct (decide (j = n)) as [->|]; [right; split; [done|lia]|]. left.
        destruct HB as [[_ Hno]|(i & Hi & _ & [= _ _ ->] & Hbest)]; [by destruct (Hno j); [lia|]|].
        destruct (Hbest j) as [|[-> _]]; [lia|done|lia|lia].
      + destruct HB as [[E Hno]|(i & Hi & Hci & E & Hbest)].
        * left. split; [done|]. intros j Hj Hcj. destruct (decide (j = n)) as [->|]; [|by apply (Hno j); [lia|]].
          injection E as -> -> ->. specialize (Hcov Hcj). destruct Hcj as (_ & Hne & _).
          destruct (mountpoint _); [done|cbn in Hcov; lia].
        * right. exists i. split_and!; [lia|lia|done|done|]. intros j Hj Hcj.
          destruct (decide (j = n)) as [->|]; [|by apply Hbest; [lia|]].
          injection E as _ _ ->. specialize (Hcov Hcj). lia. }
  unfold mount_at at 1 in H. destruct (for_range _ _ _ _) as [[fs rel] len].
  destruct H as [[[= -> -> ->] Hno]|(i & Hi & Hc & [= -> -> ->] & Hbest)]; [by left|]. right. by exists i.
Qed.
End resolve.

(** ** Writing and reading back *)
Section files.
Context {D P W : Type} `{!BlockDevice D} `{!BlockDeviceLaws D} `{!ProcOps P} `{!VfsProcs P}.
Context (kmalloc_ok : nat -> bool) (HR : Reliable D) (Hk : memory_left kmalloc_ok).
Abbreviation vk := (kernel D P W).
Implicit Types k : vk.

(** The state with another state of the file system at [p]. *)
Definition with_fs (p : Z) (s : ext2_fs D) k : vk := set_filesystems (<[p := s]> (filesystems k)) k.

Lemma with_fs_lookup p s k : filesystems (with_fs p s k) !! p = Some s.
Proof. apply lookup_insert_eq. Qed.
Lemma with_fs_twice p s s' k : with_fs p s' (with_fs p s k) = with_fs p s' k.
Proof. unfold with_fs. cbn. by rewrite insert_insert_eq. Qed.
Lemma with_fs_same p s k : filesystems k !! p = Some s -> with_fs p s k = k.
Proof. intros E. unfold with_fs. rewrite insert_id by done. by destruct k. Qed.

(** A call of the driver that is known to return. *)
Lemma wp_on_fs {A} p (m : M (ext2_fs D) A) Q k s :
  filesystems k !! p = Some s -> wp m (fun a s' => Q a (with_fs p s' k)) s -> wp (on_fs p m) Q k.
Proof.
  intros Hs Hm. apply wp_run in Hm as (a & s' & E & Hq). apply wp_run. exists a, (with_fs p s' k).
  unfold on_fs. by rewrite Hs, E.
Qed.

Lemma wp_file_at p Q k x : files k !! p = Some x -> Q x k -> wp (@file_at D P W p) Q k.
Proof. intros Hx Hq. apply wp_run. exists x, k. unfold file_at. by rewrite Hx. Qed.

(** The caller may use the path so: it is root, or an account whose class the
    mode bits of the inode that the path names allow [mask]. *)
Definition allowed k (s : ext2_fs D) (rel : list Z) (mask : Z) : Prop :=
  let u := vfs_caller_uid k in
  user_is_root (user_table k) u = true \/
  user_exists (user_table k) u = true /\ exists j, names_inode s rel j /\
    permits (i_mode (inode_at s j)) (class_bits (user_table k) u (inode_at s j)) mask = true.

Lemma access_allows H k fs s rel mask :
  filesystems k !! fs = Some s -> cache_ok H s -> layout s -> room 1 H s -> 0 <= mask < 8 -> allowed k s rel mask ->
  wp (vfs_access_ok kmalloc_ok fs rel mask false)
    (fun ok k' => ok = true /\ exists s', k' = with_fs fs s' k /\ cache_ok H s' /\ frame s s') k.
Proof using All.
  intros Hs Hc Hl Hr Hm Hal. unfold vfs_access_ok. apply wp_bind, wp_gets. cbn [id]. unfold allowed in Hal.
  destruct (user_is_root _ _) eqn:Er.
  { apply wp_ret. split; [done|]. exists s. rewrite with_fs_same by done. split_and!; [done|done|apply frame_refl]. }
  destruct Hal as [|(Hex & j & Hn & Hp)]; [done|]. apply wp_bind. eapply wp_on_fs; [done|].
  wp_call (access_spec kmalloc_ok HR Hk H s rel j); [done|done|done|done|done|done|].
  intros r s' (Hc' & Hf & ->). rewrite Er, access_shift_class, Hp. cbn [orb]. apply wp_ret.
  split; [done|]. exists s'. by split_and!.
Qed.

(** ** Opening *)

Lemma kmalloc_spec H s : cache_ok H s ->
  wp (Ext2Cache.kmalloc kmalloc_ok) (fun r s' => r = true /\ cache_ok H s' /\ frame s s') s.
Proof using All.
  intros Hc. apply wp_run. eexists _, _. split; [reflexivity|]. split; [apply Hk|]. by apply set_mallocs_ok.
Qed.

(** The file a path names: its handle when it is opened. *)
Definition opened (s : ext2_fs D) (j : Z) : ext2_file := mkFile j (inode_at s j) 0 (is_dir_mode (i_mode (inode_at s j))).

Lemma open_names H s rel j :
  cache_ok H s -> layout s -> room 1 H s -> names_inode s rel j ->
  wp (ext2_open kmalloc_ok rel) (fun r s' => cache_ok H s' /\ frame s s' /\ r = Some (opened s j)) s.
Proof using All.
  intros Hc Hl Hr Hn. unfold ext2_open. apply wp_bind.
  wp_call (resolve_spec kmalloc_ok HR Hk H s rel j); [done|done|done|done|]. intros r s1 (Hc1 & Hf1 & l & ->).
  cbn [Z.eqb negb EXT2_SUCCESS]. apply wp_bind. wp_call (kmalloc_spec H); [done|]. intros r s2 (-> & Hc2 & Hf2). cbn [negb].
  pose proof (frame_trans _ _ _ Hf1 Hf2) as Hf. pose proof Hn as (rest & _ & Hj & Hok & _). apply wp_bind.
  wp_call (read_inode_spec kmalloc_ok HR Hk H s2 j); [done|by eapply frame_layout| |done| |].
  - unfold room in *. by rewrite (sf_max _ _ (proj1 Hf)).
  - by rewrite (geom_inode_num_ok _ _ (same_geom _ _ (proj1 Hf))).
  - intros r s3 (Hc3 & Hf3 & ->). apply wp_ret. split_and!; [done|by eapply frame_trans|].
    unfold opened. by rewrite (frame_inode_at s s2).
Qed.

Lemma opendir_names H s rel j :
  cache_ok H s -> layout s -> room 1 H s -> names_inode s rel j -> is_dir_mode (i_mode (inode_at s j)) = true ->
  wp (ext2_opendir kmalloc_ok rel) (fun r s' => cache_ok H s' /\ frame s s' /\ r = Some (mkIter (opened s j) 0)) s.
Proof using All.
  intros Hc Hl Hr Hn Hd. unfold ext2_opendir. apply wp_bind. wp_call (open_names H s rel j); [done|done|done|done|].
  intros r s1 (Hc1 & Hf1 & ->). cbn [opened f_is_directory]. rewrite Hd. cbn [negb]. apply wp_bind.
  wp_call (kmalloc_spec H); [done|]. intros r s2 (-> & Hc2 & Hf2). apply wp_ret. split_and!; [done|by eapply frame_trans|].
  unfold opened. by rewrite Hd.
Qed.

Definition is_dir_inode (ino : list Z) : bool := Z.land (i_mode ino) 0xF000 =? EXT2_S_IFDIR.
Lemma dir_inode_mode ino : is_dir_inode ino = true -> is_dir_mode (i_mode ino) = true.
Proof.
  unfold is_dir_inode, is_dir_mode. intros E%Z.eqb_eq. apply negb_true_iff, Z.eqb_neq. intros E0.
  assert (Z.testbit (Z.land (i_mode ino) 0xF000) 14 = true) as Hb by (rewrite E; done).
  assert (Z.testbit (Z.land (i_mode ino) EXT2_S_IFDIR) 14 = false) as Hb' by (rewrite E0; done).
  rewrite Z.land_spec in Hb, Hb'. change (Z.testbit 0xF000 14) with true in Hb. change (Z.testbit EXT2_S_IFDIR 14) with true in Hb'.
  congruence.
Qed.

(** [VFS_Open] of a path that names inode [j] of a file system and that the
    caller may read, when an entry is free: it succeeds, in the first free
    entry. *)
Lemma VFS_Open_names H k path privileged fs rel s j i :
  length (open_files k) = Z.to_nat MAX_OPEN_FILES -> fd_ok i ->
  privileged = true \/ check_path (strings k path) = -1 /\ allowed k s rel ACCESS_READ ->
  resolve_fs k (strings k path) = (fs, rel) -> filesystems k !! fs = Some s ->
  cache_ok H s -> layout s -> room 1 H s -> names_inode s rel j -> free_entry 0 k = Some i ->
  wp (VFS_Open kmalloc_ok path privileged) (fun fd k' => fd = i /\ exists owner s',
    cache_ok H s' /\ frame s s' /\ filesystems k' = <[fs := s']> (filesystems k) /\
    entry k' i = if is_dir_inode (inode_at s j)
      then dir_entry path (next_ptr k) fs owner (open_pid k privileged) privileged (entry k i)
      else file_entry path (next_ptr k) fs owner (open_pid k privileged) privileged (device_get (strings k path) k) (entry k i)) k.
Proof using All.
  intros Hlen Hi Hacc Hres Hs Hc Hl Hr Hn Hfree. unfold VFS_Open. apply wp_bind, wp_gets. cbn [id].
  assert (negb (check_path (strings k path) =? -1) && negb privileged = false) as ->.
  { destruct Hacc as [->|[-> _]]; [by rewrite andb_false_r|done]. }
  rewrite Hres. apply wp_bind.
  assert (wp (vfs_access_ok kmalloc_ok fs rel ACCESS_READ privileged)
    (fun ok k' => ok = true /\ exists s', k' = with_fs fs s' k /\ cache_ok H s' /\ frame s s') k) as Hok.
  { destruct Hacc as [->|[_ Hal]].
    - unfold vfs_access_ok. apply wp_ret. split; [done|]. exists s. rewrite with_fs_same by done.
      split_and!; [done|done|apply frame_refl].
    - destruct privileged; [apply wp_ret; split; [done|]; exists s; rewrite with_fs_same by done;
        split_and!; [done|done|apply frame_refl]|].
      by apply (access_allows H k fs s rel ACCESS_READ); unfold ACCESS_READ. }
  wp_call Hok. intros ok k1 (-> & s1 & -> & Hc1 & Hf1). cbn [negb].
  assert (forall s', frame s s' -> layout s' /\ room 1 H s' /\ names_inode s' rel j) as Hkeep.
  { intros s' Hf. split_and!; [by eapply frame_layout| |by eapply frame_names]. unfold room in *. by rewrite (sf_max _ _ (proj1 Hf)). }
  destruct (Hkeep s1 Hf1) as (Hl1 & Hr1 & Hn1).
  apply wp_bind. unfold is_directory. apply wp_bind. eapply wp_on_fs; [apply with_fs_lookup|].
  wp_call (stat_spec kmalloc_ok HR Hk H s1 rel j); [done|done|done|done|]. intros r s2 (Hc2 & Hf2 & ->).
  apply wp_ret. rewrite with_fs_twice. pose proof (frame_trans _ _ _ Hf1 Hf2) as Hf12.
  rewrite (frame_inode_at s s1) by done. fold (is_dir_inode (inode_at s j)).
  destruct (Hkeep s2 Hf12) as (Hl2 & Hr2 & Hn2). destruct (is_dir_inode (inode_at s j)) eqn:Edir.
  - apply wp_bind. eapply wp_on_fs; [apply with_fs_lookup|].
    wp_call (opendir_names H s2 rel j); [done|done|done|done| |].
    { rewrite (frame_inode_at s s2) by done. by apply dir_inode_mode. }
    intros r s3 (Hc3 & Hf3 & ->). rewrite with_fs_twice. apply wp_bind, wp_run. eexists _, _. split; [reflexivity|].
    rewrite Hfree. apply wp_bind, wp_modify, wp_ret. split; [done|]. eexists _, s3.
    split_and!; [done|by eapply frame_trans|done|]. rewrite entry_put by done. by rewrite decide_True.
  - apply wp_bind. eapply wp_on_fs; [apply with_fs_lookup|].
    wp_call (open_names H s2 rel j); [done|done|done|done|].
    intros r s3 (Hc3 & Hf3 & ->). rewrite with_fs_twice. apply wp_bind, wp_run. eexists _, _. split; [reflexivity|].
    rewrite Hfree. apply wp_bind, wp_modify, wp_ret. split; [done|]. eexists _, s3.
    split_and!; [done|by eapply frame_trans|done|]. rewrite entry_put by done. by rewrite decide_True.
Qed.

(** A descriptor of a regular file that its process may write. *)
Record writable (H : list Z) k (fd fs : Z) (s : ext2_fs D) (h : ext2_file) : Prop := {
  wr_fd : fd_ok fd;
  wr_exists : of_exists (entry k fd) = true;
  wr_not_socket : of_is_socket (entry k fd) = false;
  wr_not_device : of_is_dev (entry k fd) = false;
  wr_pid : of_pid (entry k fd) = current_pid k;
  wr_flags : Z.land (of_flags (entry k fd)) KERNEL = 0;
  wr_file_ptr : of_file (entry k fd) <> 0;
  wr_fs_ptr : of_fs (entry k fd) = fs;
  wr_handle : files k !! of_file (entry k fd) = Some (fs, h);
  wr_fs : filesystems k !! fs = Some s;
  wr_cache : cache_ok H s;
  wr_layout : layout s;
  wr_room : room 2 H s;
  wr_tree : file_tree s (f_inode h);
  wr_regular : f_is_directory h = false;
  wr_number : 0 <= f_inode_num h;
  wr_number_ok : inode_num_ok s (f_inode_num h) = true;
  wr_pos : 0 <= f_position h;
  wr_allowed : allowed k s (snd (resolve_fs k (strings k (of_path (entry k fd))))) ACCESS_WRITE
}.

Lemma fd_not_bad fd : fd_ok fd -> bad_fd fd = false.
Proof. intros [H0 H1]. unfold bad_fd. destruct (Z.ltb_spec fd 0); [lia|]. by destruct (Z.leb_spec MAX_OPEN_FILES fd); [lia|]. Qed.

(** What a write leaves: the handle and the file system as [ext2_write] does. *)
Definition write_left (H : list Z) k (fd fs : Z) (s : ext2_fs D) (h : ext2_file) (buf : list Z) (r : Z) k' : Prop :=
  exists s0 s' h' n, frame s s0 /\ write_done H s0 h buf n r s' h' /\
    k' = set_files (<[of_file (entry k fd) := (fs, h')]> (files k)) (with_fs fs s' k).

Lemma VFS_Write_spec H k fd fs s h buf :
  writable H k fd fs s h -> bytes_ok buf -> Z.of_nat (length buf) < 2 ^ 31 ->
  f_position h + Z.of_nat (length buf) < 2 ^ 32 ->
  wp (VFS_Write kmalloc_ok fd buf false)
    (fun r k' => exists code, write_left H k fd fs s h buf code k' /\ r = Ret (if code <? 0 then int_error EIO else code)) k.
Proof using All.
  intros [Hfd Hex Hns Hnd Hpid Hfl Hfp Hfs Hh Hsys Hc Hl Hr Ht Hd Hn Hok Hpos Hal] Hb Hlen Hmax.
  unfold VFS_Write. apply wp_bind, wp_gets. cbn [id]. rewrite fd_not_bad, Hex, Hns, Hnd, Hpid, Hfs by done.
  rewrite Z.eqb_refl. cbn [negb andb].
  destruct (resolve_fs k (strings k (of_path (entry k fd)))) as [fs' rel] eqn:Eres. cbn [snd] in Hal.
  apply wp_bind. wp_call (access_allows H k fs s rel ACCESS_WRITE); [done|done|done| |unfold ACCESS_WRITE; lia|done|].
  { unfold room in *. lia. }
  intros ok k1 (-> & s0 & -> & Hc0 & Hf0). cbn [negb].
  destruct (Z.eqb_spec (of_file (entry k fd)) 0); [done|].
  apply wp_bind. eapply wp_file_at; [exact Hh|]. cbv beta iota. apply wp_bind. eapply wp_on_fs; [apply with_fs_lookup|].
  assert (Hu : u32 (Z.of_nat (length buf)) = Z.of_nat (length buf)) by (apply Z.mod_small; lia).
  rewrite Hu, Nat2Z.id, firstn_all.
  pose proof (same_geom _ _ (proj1 Hf0)) as G0.
  wp_call (write_spec kmalloc_ok HR Hk H s0 h buf); [done|by eapply frame_layout| |by eapply frame_tree|done|done| |done|done|done|done|].
  { unfold room in *. by rewrite (ge_max _ _ G0). }
  { by rewrite (geom_inode_num_ok _ _ G0). }
  intros [r h'] s' (cnt & Hdone). apply wp_bind, wp_modify. unfold returns, an_error. rewrite with_fs_twice.
  assert (write_left H k fd fs s h buf r (set_files (<[of_file (entry k fd) := (fs, h')]> (files k)) (with_fs fs s' k))) as Hleft
    by (exists s0, s', h', cnt; by split_and!).
  destruct (r <? 0) eqn:Er; apply wp_bind, wp_ret, wp_ret; exists r; rewrite Er; by split.
Qed.

Lemma VFS_Set_Pos_spec k fd fs h pos privileged :
  fd_ok fd -> of_exists (entry k fd) = true -> of_file (entry k fd) <> 0 ->
  privileged = true \/ Z.land (of_flags (entry k fd)) KERNEL = 0 /\ of_pid (entry k fd) = current_pid k ->
  files k !! of_file (entry k fd) = Some (fs, h) -> 0 <= pos ->
  VFS_Set_Pos fd pos privileged k = Some (0, set_files (<[of_file (entry k fd) := (fs, seek_to pos h)]> (files k)) k).
Proof using All.
  intros Hfd Hex Hf Hpr Hh Hpos. unfold VFS_Set_Pos, bind, gets. cbn [id].
  rewrite fd_not_bad, Hex by done. apply Z.eqb_neq in Hf. rewrite Hf. cbn [negb orb].
  assert (negb privileged && negb (Z.land (of_flags (entry k fd)) KERNEL =? 0) = false) as ->.
  { destruct Hpr as [->|[-> _]]; [done|]. by rewrite andb_false_r. }
  assert (negb privileged && negb (of_pid (entry k fd) =? current_pid k) = false) as ->.
  { destruct Hpr as [->|[_ ->]]; [done|]. by rewrite Z.eqb_refl, andb_false_r. }
  unfold file_at. rewrite Hh. unfold ext2_seek. cbn [Z.eqb EXT2_SEEK_SET]. by destruct (Z.ltb_spec pos 0); [lia|].
Qed.

Lemma VFS_Read_spec H k fd fs s0 s h buf r s' h' start :
  fd_ok fd -> of_exists (entry k fd) = true -> of_is_socket (entry k fd) = false -> of_is_dev (entry k fd) = false ->
  of_file (entry k fd) <> 0 -> of_pid (entry k fd) = current_pid k ->
  files k !! of_file (entry k fd) = Some (fs, seek_to start h') -> filesystems k !! fs = Some s' ->
  start = f_position h -> cache_ok H s' -> room 2 H s -> 0 <= f_position h ->
  f_position h + Z.of_nat (length buf) < 2 ^ 32 -> Z.of_nat (length buf) < 2 ^ 31 -> f_is_directory h = false ->
  frame s s0 -> write_done H s0 h buf (Z.of_nat (length buf)) r s' h' ->
  wp (VFS_Read kmalloc_ok fd (Z.of_nat (length buf))) (fun res _ => res = Ret (Z.of_nat (length buf), buf)) k.
Proof using All.
  intros Hfd Hex Hns Hnd Hf Hpid Hh Hs -> Hc Hr Hpos Hmax Hlen Hdir Hf0 Hd.
  unfold VFS_Read. apply wp_bind, wp_gets. cbn [id]. rewrite fd_not_bad, Hex, Hns, Hnd, Hpid, Z.eqb_refl by done.
  cbn [negb andb]. rewrite andb_false_r. destruct (Z.eqb_spec (of_file (entry k fd)) 0); [done|].
  apply wp_bind. eapply wp_file_at; [exact Hh|]. cbv beta iota. apply wp_bind. eapply wp_on_fs; [exact Hs|].
  assert (Hu : u32 (Z.of_nat (length buf)) = Z.of_nat (length buf)) by (apply Z.mod_small; lia). rewrite Hu.
  wp_call (written_reads_back kmalloc_ok HR Hk H s0 h buf r h' s'); [done| |done|done|done|done|done|].
  { unfold room in *. by rewrite (ge_max _ _ (same_geom _ _ (proj1 Hf0))). }
  intros res s2 (-> & _). cbv beta iota. apply wp_bind, wp_modify.
  destruct (Z.ltb_spec (Z.of_nat (length buf)) 0); [lia|]. by apply wp_ret.
Qed.

(** C23: what a process writes to a file is what it reads back, through the
    table of open files, the permissions, the ext2 driver and its block cache.
    A write to the process's own descriptor of a regular file that it is
    allowed to write stores the bytes in the file and touches no other part
    of the kernel.  It either returns their number, and then seeking back and
    reading as many bytes succeeds and returns them, or it returns -EIO, and
    then the driver found no free block for the bytes after the [n] first. *)
Theorem vfs_write_read_back H k fd fs s h buf :
  writable H k fd fs s h -> bytes_ok buf -> Z.of_nat (length buf) < 2 ^ 31 ->
  f_position h + Z.of_nat (length buf) < 2 ^ 32 ->
  exists r code k1, VFS_Write kmalloc_ok fd buf false k = Some (Ret r, k1) /\ write_left H k fd fs s h buf code k1 /\
    ((r = Z.of_nat (length buf) /\
      exists k2 k3, VFS_Set_Pos fd (f_position h) false k1 = Some (0, k2) /\
        VFS_Read kmalloc_ok fd (Z.of_nat (length buf)) k2 = Some (Ret (Z.of_nat (length buf), buf), k3))
     \/ (r = - EIO /\ code = EXT2_ERROR_NO_SPACE)).
Proof using All.
  intros Hw Hb Hlen Hmax. pose proof Hw as [Hfd Hex Hns Hnd Hpid Hfl Hfp Hfs Hh Hsys Hc Hl Hr Ht Hdir Hn Hok Hpos _].
  pose proof (VFS_Write_spec H k fd fs s h buf Hw Hb Hlen Hmax) as Hwp.
  apply wp_run in Hwp as (res & k1 & E & code & Hleft & ->). eexists _, code, k1. split; [exact E|]. split; [exact Hleft|].
  destruct Hleft as (s0 & s' & h' & n & Hf0 & Hd & ->).
  destruct (wd_result _ _ _ _ _ _ _ _ Hd) as [(-> & -> & Hc' & _)|(-> & _)].
  2: { right. split; [|done]. by vm_compute. }
  left. destruct (Z.ltb_spec (Z.of_nat (length buf)) 0); [lia|]. split; [done|].
  set (k1 := set_files _ _).
  assert (files k1 !! of_file (entry k1 fd) = Some (fs, h')) as Hh1 by (cbn; by apply lookup_insert_eq).
  eexists _. unshelve epose proof (VFS_Read_spec H (set_files (<[of_file (entry k1 fd) := (fs, seek_to (f_position h) h')]> (files k1)) k1)
    fd fs s0 s h buf _ s' h' (f_position h) Hfd Hex Hns Hnd Hfp Hpid _ _ eq_refl Hc' Hr Hpos Hmax Hlen Hdir Hf0 Hd) as Hrd.
  { cbn. by apply lookup_insert_eq. }
  { cbn. apply lookup_insert_eq. }
  apply wp_run in Hrd as (res & k3 & Er & ->). exists k3. split; [|exact Er].
  apply VFS_Set_Pos_spec; try done. by right.
Qed.
End files.

(** ** Examples *)
#[local] Existing Instance demo_procs.

(** A kernel with a mount point in another one, and an open file of root. *)
Definition file_kernel : kernel mem_disk Z unit :=
  mkKernel (replicate 4 null_vfs_file
            ++ mkVfsFile 7 2 0 1 0 0 0 true false None false false false 0 :: replicate 95 null_vfs_file)
    (mkMount (str "/mnt") 1 0 true :: mkMount (str "/mnt/a") 5 0 true :: replicate 14 null_mount) 1
    {[1 := demo_mounted]} {[2 := (1, demo_file)]} ∅ 3 (replicate 32 None) [] (mkSys [] 0) perm_db tt (fun _ => str "/x").

Lemma resolve_fs_longest_witness :
  Forall (fun c => c <> 0) (str "/mnt/a/f") /\
  ((resolve_fs file_kernel (str "/mnt/a/f") = (1, str "/mnt/a/f") /\
    forall j, 0 <= j < MAX_MOUNTS -> ~ covers (str "/mnt/a/f") (mount_at file_kernel j)) \/
  exists i, 0 <= i < MAX_MOUNTS /\ covers (str "/mnt/a/f") (mount_at file_kernel i) /\
    resolve_fs file_kernel (str "/mnt/a/f") =
      (mt_fs (mount_at file_kernel i), relative (str "/mnt/a/f") (mount_at file_kernel i)) /\
    forall j, 0 <= j < MAX_MOUNTS -> covers (str "/mnt/a/f") (mount_at file_kernel j) ->
      (length (mountpoint (mount_at file_kernel j)) < length (mountpoint (mount_at file_kernel i)))%nat \/
      length (mountpoint (mount_at file_kernel j)) = length (mountpoint (mount_at file_kernel i)) /\ i <= j).
Proof.
  assert (Forall (fun c => c <> 0) (str "/mnt/a/f")) as Hp by (repeat constructor; discriminate).
  split; [exact Hp|]. exact (resolve_fs_longest file_kernel (str "/mnt/a/f") Hp).
Defined.

Example resolves_to_longest : resolve_fs file_kernel (str "/mnt/a/f") = (5, str "/f").
Proof. vm_compute. reflexivity. Qed.
Example resolves_whole_names : resolve_fs file_kernel (str "/mntx") = (1, str "/mntx").
Proof. vm_compute. reflexivity. Qed.

Lemma file_kernel_writable : writable [] file_kernel 4 1 demo_mounted demo_file.
Proof.
  split.
  - unfold fd_ok, MAX_OPEN_FILES. lia.
  - reflexivity.
  - reflexivity.
  - reflexivity.
  - reflexivity.
  - reflexivity.
  - discriminate.
  - reflexivity.
  - apply lookup_singleton_eq.
  - apply lookup_singleton_eq.
  - exact demo_cache.
  - exact demo_layout.
  - exact demo_room.
  - exact demo_tree.
  - reflexivity.
  - exact demo_number.
  - exact demo_num_ok.
  - cbn [demo_file f_position]. lia.
  - left. vm_compute. reflexivity.
Qed.

Lemma vfs_write_read_back_witness :
  exists r code k1, VFS_Write mem 4 demo_text false file_kernel = Some (Ret r, k1) /\
    ((r = 5 /\ exists k2 k3, VFS_Set_Pos 4 3 false k1 = Some (0, k2) /\ VFS_Read mem 4 5 k2 = Some (Ret (5, demo_text), k3))
     \/ (r = - EIO /\ code = EXT2_ERROR_NO_SPACE)).
Proof.
  destruct (vfs_write_read_back mem mem_disk_reliable (fun _ => eq_refl) [] file_kernel 4 1 demo_mounted demo_file demo_text)
    as (r & code & k1 & E & _ & H).
  - exact file_kernel_writable.
  - exact demo_bytes.
  - cbn [demo_text length]. lia.
  - cbn [demo_file f_position demo_text length]. lia.
  - exists r, code, k1. split; [exact E|exact H].
Defined.
