(* ===== verification/ProcMem.v ===== *)
(** * User memory (src/kernel/proc/proc.c)

    The functions of proc.c that fill, copy and read the memory of a process:
    [map_user_page], the copies through the scratch page, the initial stacks
    and [clone_user_region].

    The kernel reads and writes virtual addresses ([memcpy] to the scratch
    page, to user pointers) through the tables CR3 points at; such an access
    is translated byte by byte with [cr3], the physical address of the root in
    use.  An access of a page that is not mapped faults in the machine; the
    model drops the write and reads 0.  Whether a [kmalloc] succeeds is the
    parameter [kmalloc_ok]. *)

From S2P Require Import Prelude PhysMem Pmm Vmm.

Definition USER_CODE_BASE : Z := 0x00100000.
Definition USER_CODE_LIMIT : Z := 0x20000000.
Definition USER_STACK_ARENA : Z := 0x20000000.
Definition USER_STACK_VSIZE : Z := 0x01000000.
Definition USER_SPACE_END : Z := 0x0000800000000000.
Definition VMM_SCRATCH_VA : Z := 0xFFFFFFFF80F00000.

(** [(x + PAGE_SIZE - 1) & ~(PAGE_SIZE - 1)] and [x & ~(PAGE_SIZE - 1)] of a
    [uint64_t]. *)
Definition page_down (x : Z) : Z := Z.land x (u64 (Z.lnot (PAGE_SIZE - 1))).
Definition page_up (x : Z) : Z := page_down (u64 (u64 (x + PAGE_SIZE) - 1)).
(** [x & ~0xFULL]. *)
Definition align_down16 (x : Z) : Z := Z.land x (u64 (Z.lnot 0xF)).

(** ** Access through the page tables in use *)

(** The physical address behind [va] under the root [cr3]. *)
Definition mmu (cr3 va : Z) (m : machine) : option Z :=
  match translate (mem m) cr3 va with
  | Some f => Some (f + va mod PAGE_SIZE)
  | None => None
  end.

Definition vstore8 (cr3 va v : Z) (m : machine) : machine :=
  match mmu cr3 va m with
  | Some a => mkMachine (pmm m) (store8 (mem m) a v)
  | None => m
  end.
Definition vload8 (cr3 va : Z) (m : machine) : Z :=
  match mmu cr3 va m with Some a => mem m a | None => 0 end.

(** [memcpy] of [n] bytes given by [src] to [va], [memset], and a read. *)
Definition vwrite (cr3 va : Z) (src : Z -> Z) (n : Z) (m : machine) : machine :=
  for_range (fun i => vstore8 cr3 (u64 (va + i)) (src i)) 0 (Z.to_nat n) m.
Definition vfill (cr3 va v n : Z) (m : machine) : machine := vwrite cr3 va (fun _ => v) n m.
Definition vread (cr3 va n : Z) (m : machine) : list Z :=
  map (fun i => vload8 cr3 (u64 (va + Z.of_nat i)) m) (seq 0 (Z.to_nat n)).
(** [memcpy] between two virtual addresses, a byte at a time. *)
Definition vcopy (cr3 dst src n : Z) (m : machine) : machine :=
  for_range (fun i m => vstore8 cr3 (u64 (dst + i)) (vload8 cr3 (u64 (src + i)) m) m) 0 (Z.to_nat n) m.

(** The bytes of a list, of a [uint64_t]. *)
Definition bytes_at (l : list Z) (i : Z) : Z := aget 0 l i.
Definition le64 (v i : Z) : Z := u8 (Z.shiftr v (8 * i)).

Section user_memory.
Context `{BootInfo} (kernel_space : address_space) (kmalloc_ok : Z -> bool).

(** [map_user_page]: a zeroed frame, starting with [copy_len] bytes of [src],
    mapped at [user_va]. *)
Definition map_user_page (proc_space : as_ptr) (user_va : Z) (src : option (Z -> Z)) (copy_len cr3 : Z)
    (m : machine) : machine * bool :=
  let '(m1, kptr) := vmm_alloc_page kernel_space AS_KERNEL VMM_SCRATCH_VA VMM_KERNEL_PAGE m in
  if kptr =? 0 then (m1, false)
  else
    let m2 := match src with
              | Some s => if 0 <? copy_len then vwrite cr3 kptr s copy_len m1 else m1
              | None => m1 end in
    let m3 := if copy_len <? PAGE_SIZE then vfill cr3 (u64 (kptr + copy_len)) 0 (PAGE_SIZE - copy_len) m2
              else m2 in
    let '(m4, phys) := vmm_get_physical kernel_space AS_KERNEL VMM_SCRATCH_VA m3 in
    let m5 := vmm_unmap kernel_space AS_KERNEL VMM_SCRATCH_VA m4 in
    vmm_map kernel_space proc_space user_va phys VMM_USER_PAGE m5.

(** The loop of [proc_write_to_user], one page a turn. *)
Fixpoint write_user_loop (fuel : nat) (proc_space : as_ptr) (udst : Z) (ksrc : Z -> Z) (remaining cr3 : Z)
    (m : machine) : machine * bool :=
  match fuel with
  | O => (m, true)
  | S fuel' =>
      if remaining <=? 0 then (m, true)
      else
        let page_off := Z.land udst (PAGE_SIZE - 1) in
        let chunk := if remaining <? PAGE_SIZE - page_off then remaining else PAGE_SIZE - page_off in
        let page_va := page_down udst in
        let '(m1, phys) := vmm_get_physical kernel_space proc_space page_va m in
        if phys =? 0 then (m1, false)
        else
          let '(m2, ok) := vmm_map kernel_space AS_KERNEL VMM_SCRATCH_VA phys VMM_KERNEL_PAGE m1 in
          if negb ok then (m2, false)
          else
            let m3 := vwrite cr3 (VMM_SCRATCH_VA + page_off) ksrc chunk m2 in
            let m4 := vmm_unmap kernel_space AS_KERNEL VMM_SCRATCH_VA m3 in
            write_user_loop fuel' proc_space (u64 (udst + chunk)) (fun i => ksrc (i + chunk))
              (remaining - chunk) cr3 m4
  end.

(** The loop of [proc_read_from_user]; the result is the bytes read before it
    stopped, and whether it read them all. *)
Fixpoint read_user_loop (fuel : nat) (proc_space : as_ptr) (usrc remaining cr3 : Z) (m : machine)
  : machine * list Z * bool :=
  match fuel with
  | O => (m, [], true)
  | S fuel' =>
      if remaining <=? 0 then (m, [], true)
      else
        let page_off := Z.land usrc (PAGE_SIZE - 1) in
        let chunk := if remaining <? PAGE_SIZE - page_off then remaining else PAGE_SIZE - page_off in
        let page_va := page_down usrc in
        let '(m1, phys) := vmm_get_physical kernel_space proc_space page_va m in
        if phys =? 0 then (m1, [], false)
        else
          let '(m2, _) := vmm_map kernel_space AS_KERNEL VMM_SCRATCH_VA phys VMM_KERNEL_PAGE m1 in
          let got := vread cr3 (VMM_SCRATCH_VA + page_off) chunk m2 in
          let m3 := vmm_unmap kernel_space AS_KERNEL VMM_SCRATCH_VA m2 in
          let '(m4, rest, ok) :=
            read_user_loop fuel' proc_space (u64 (usrc + chunk)) (remaining - chunk) cr3 m3 in
          (m4, got ++ rest, ok)
  end.

(** The loop of [write_bytes_to_user], which maps the pages that are missing. *)
Fixpoint write_bytes_loop (fuel : nat) (proc_space : as_ptr) (dst : Z) (s : Z -> Z) (len cr3 : Z)
    (m : machine) : machine * bool :=
  match fuel with
  | O => (m, true)
  | S fuel' =>
      if len <=? 0 then (m, true)
      else
        let page_va := page_down dst in
        let page_off := dst - page_va in
        let chunk := if len <? PAGE_SIZE - page_off then len else PAGE_SIZE - page_off in
        let '(m1, phys) := vmm_get_physical kernel_space proc_space page_va m in
        let '(m2, phys2) :=
          if phys =? 0 then
            let '(m1', ok) := map_user_page proc_space page_va None 0 cr3 m1 in
            if negb ok then (m1', 0) else vmm_get_physical kernel_space proc_space page_va m1'
          else (m1, phys) in
        if phys2 =? 0 then (m2, false)
        else
          let '(m3, _) := vmm_map kernel_space AS_KERNEL VMM_SCRATCH_VA phys2 VMM_KERNEL_PAGE m2 in
          let m4 := vwrite cr3 (VMM_SCRATCH_VA + page_off) s chunk m3 in
          let m5 := vmm_unmap kernel_space AS_KERNEL VMM_SCRATCH_VA m4 in
          write_bytes_loop fuel' proc_space (u64 (dst + chunk)) (fun i => s (i + chunk)) (len - chunk) cr3 m5
  end.
Definition write_bytes_to_user (proc_space : as_ptr) (dst : Z) (src : Z -> Z) (len cr3 : Z) (m : machine)
  : machine * bool :=
  write_bytes_loop (S (Z.to_nat len)) proc_space dst src len cr3 m.

Definition push64_to_space (proc_space : as_ptr) (val cr3 : Z) (st : machine * Z) : machine * Z :=
  let sp := u64 (snd st - 8) in
  (fst (write_bytes_to_user proc_space sp (le64 val) 8 cr3 (fst st)), sp).
Definition push_all (proc_space : as_ptr) (cr3 : Z) (vals : list Z) (st : machine * Z) : machine * Z :=
  fold_left (fun st v => push64_to_space proc_space v cr3 st) vals st.

(** Bytes pushed as they are: [sp -= n; write_bytes_to_user(...)]. *)
Definition push_bytes (proc_space : as_ptr) (cr3 : Z) (bs : list Z) (st : machine * Z) : machine * Z :=
  let sp := u64 (snd st - Z.of_nat (length bs)) in
  (fst (write_bytes_to_user proc_space sp (bytes_at bs) (Z.of_nat (length bs)) cr3 (fst st)), sp).
Definition align_sp (st : machine * Z) : machine * Z := (fst st, align_down16 (snd st)).

Definition rand_bytes : list Z := [1;2;3;4;5;6;7;8;9;10;11;12;13;14;15;16].
(** The auxiliary vector: two zeros, AT_RANDOM, AT_PAGESZ. *)
Definition auxv (rand_ptr : Z) : list Z := [0; 0; rand_ptr; 25; 0x1000; 6].

Definition setup_user_stack_minimal (proc_space : as_ptr) (stack_top cr3 : Z) (m : machine) : machine * Z :=
  let st0 := (m, align_down16 (u64 (stack_top - 16))) in
  let st1 := push_bytes proc_space cr3 rand_bytes st0 in
  let rand_ptr := snd st1 in
  let st2 := push_bytes proc_space cr3 [112; 114; 111; 103; 0] st1 in
  let name_ptr := snd st2 in
  push_all proc_space cr3 (auxv rand_ptr ++ [0; 0; name_ptr; 1]) (align_sp st2).

(** Push strings, last first; the pointers come out in the order of the
    strings. *)
Definition push_strings (proc_space : as_ptr) (cr3 : Z) (strs : list (list Z)) (st : machine * Z)
  : machine * Z * list Z :=
  fold_right (fun s '(st, ptrs) =>
    let st' := push_bytes proc_space cr3 (s ++ [0]) st in (st', snd st' :: ptrs)) (st, []) strs.

Definition setup_user_stack_argv (proc_space : as_ptr) (stack_top : Z) (argv envp : list (list Z)) (cr3 : Z)
    (m : machine) : machine * Z :=
  let argc := Z.of_nat (length argv) in
  let envc := Z.of_nat (length envp) in
  let st1 := push_bytes proc_space cr3 rand_bytes (m, align_down16 (u64 (stack_top - 16))) in
  let rand_ptr := snd st1 in
  if negb (kmalloc_ok ((envc + 1) * 8)) || negb (kmalloc_ok ((argc + 1) * 8)) then st1
  else
    let '(st2, env_ptrs) := push_strings proc_space cr3 envp st1 in
    let '(st3, arg_ptrs) := push_strings proc_space cr3 argv st2 in
    push_all proc_space cr3 (auxv rand_ptr ++ 0 :: rev env_ptrs ++ 0 :: rev arg_ptrs ++ [u64 argc]) (align_sp st3).

(** [clone_user_region]: the mapped pages of [va_start, va_end) copied through
    a buffer into fresh frames. *)
Fixpoint clone_loop (n : nat) (dst src : as_ptr) (va cr3 : Z) (m : machine) : machine * bool :=
  match n with
  | O => (m, true)
  | S n' =>
      let '(m1, phys_src) := vmm_get_physical kernel_space src va m in
      if phys_src =? 0 then clone_loop n' dst src (u64 (va + PAGE_SIZE)) cr3 m1
      else
        let '(m2, ok) := vmm_map kernel_space AS_KERNEL VMM_SCRATCH_VA phys_src VMM_KERNEL_PAGE m1 in
        if negb ok then (m2, false)
        else
          let page_buf := vread cr3 VMM_SCRATCH_VA PAGE_SIZE m2 in
          let m3 := vmm_unmap kernel_space AS_KERNEL VMM_SCRATCH_VA m2 in
          let '(m4, ok') := map_user_page dst va (Some (bytes_at page_buf)) PAGE_SIZE cr3 m3 in
          if negb ok' then (m4, false) else clone_loop n' dst src (u64 (va + PAGE_SIZE)) cr3 m4
  end.
Definition clone_user_region (dst src : as_ptr) (va_start va_end cr3 : Z) (m : machine) : machine * bool :=
  if negb (kmalloc_ok PAGE_SIZE) then (m, false)
  else clone_loop (Z.to_nat ((va_end - va_start + PAGE_SIZE - 1) / PAGE_SIZE)) dst src va_start cr3 m.

(** Copying an image: the pages of the loops of [proc_create_user_image]. *)
Definition page_len (image_size off : Z) : Z :=
  if off <? image_size then (if image_size - off <? PAGE_SIZE then image_size - off else PAGE_SIZE) else 0.
Fixpoint image_loop (n : nat) (proc_space : as_ptr) (load_vaddr : Z) (image : Z -> Z) (image_size off cr3 : Z)
    (m : machine) : machine * bool :=
  match n with
  | O => (m, true)
  | S n' =>
      let src := if off <? image_size then Some (fun i => image (off + i)) else None in
      let '(m1, ok) := map_user_page proc_space (u64 (load_vaddr + off)) src (page_len image_size off) cr3 m in
      if negb ok then (m1, false)
      else image_loop n' proc_space load_vaddr image image_size (off + PAGE_SIZE) cr3 m1
  end.

(** The eight pages below the top of a stack. *)
Fixpoint stack_loop (n : nat) (proc_space : as_ptr) (page_va cr3 : Z) (m : machine) : machine * bool :=
  match n with
  | O => (m, true)
  | S n' =>
      let '(m1, ok) := map_user_page proc_space page_va None 0 cr3 m in
      if negb ok then (m1, false) else stack_loop n' proc_space (page_va + PAGE_SIZE) cr3 m1
  end.

(** The pages of a program that runs in the address space of the kernel,
    copied from [entry]. *)
Fixpoint code_loop (n : nat) (user_code_va entry code_size off cr3 : Z) (m : machine) : machine * bool :=
  match n with
  | O => (m, true)
  | S n' =>
      let va := u64 (user_code_va + off) in
      let '(m1, mapped) := vmm_alloc_page kernel_space AS_KERNEL va VMM_USER_PAGE m in
      if mapped =? 0 then (m1, false)
      else
        let copy_len := page_len code_size off in
        let m2 := if copy_len =? 0 then m1 else vcopy cr3 va (u64 (entry + off)) copy_len m1 in
        let m3 := if copy_len <? PAGE_SIZE then vfill cr3 (u64 (va + copy_len)) 0 (PAGE_SIZE - copy_len) m2
                  else m2 in
        code_loop n' user_code_va entry code_size (off + PAGE_SIZE) cr3 m3
  end.

(** The pages [proc_brk] adds, up to [n] of them from [va]. *)
Fixpoint grow_loop (n : nat) (space : as_ptr) (va cr3 : Z) (m : machine) : machine * bool :=
  match n with
  | O => (m, true)
  | S n' =>
      let '(m1, ok) :=
        match space with
        | AS_NULL => let '(m', p) := vmm_alloc_page kernel_space AS_KERNEL va VMM_USER_PAGE m in
                     (m', negb (p =? 0))
        | _ => map_user_page space va None 0 cr3 m
        end in
      if negb ok then (m1, false) else grow_loop n' space (u64 (va + PAGE_SIZE)) cr3 m1
  end.
(** ... and the pages it removes. *)
Definition shrink_loop (n : nat) (space : as_ptr) (va : Z) (m : machine) : machine :=
  for_range (fun i => vmm_unmap kernel_space space (u64 (va + i * PAGE_SIZE))) 0 n m.
End user_memory.
