(* ===== verification/Proc.v ===== *)
(** * Processes (src/kernel/proc/proc.c, proc.h)

    The table of the 64 process control blocks, the round-robin scheduler,
    creation, fork, vfork and clone, exit and wait, the program break, and the
    user and group ids.

    The state is the static variables of proc.c with the machine and the two
    registers the functions write: CR3 and the kernel stack of the TSS.  A
    function that never returns to its caller ([proc_exit]) gives the state and
    what the CPU does next.  [proc_wait_pid] is cut at its [proc_yield]: the
    part before and the part after it.  The address of the kernel stack of a
    slot is fixed by the linker: the parameter [kernel_stack]. *)

From S2P Require Import Prelude PhysMem Pmm Vmm User ProcMem.
#[local] Open Scope Z_scope.

Definition MAX_PROCESSES : Z := 64.
Definition PROC_STACK_SIZE : Z := 8192.
Definition CLONE_VM : Z := 0x00000100.
Definition CLONE_VFORK : Z := 0x00004000.
Definition UID_ROOT : Z := 0.
(** (uint32_t)-1. *)
Definition NO_PID : Z := 2 ^ 32 - 1.

Inductive ProcType := PROC_TYPE_KERNEL | PROC_TYPE_USER.
Inductive ProcState := PROC_UNUSED | PROC_READY | PROC_RUNNING | PROC_ZOMBIE | PROC_BLOCKED.
#[export] Instance ProcState_eq_dec : EqDecision ProcState.
Proof. solve_decision. Defined.
#[export] Instance ProcType_eq_dec : EqDecision ProcType.
Proof. solve_decision. Defined.

(** src/kernel/arch/x86_64/isr.h. *)
Record Registers := mkRegs {
  r15 : Z; r14 : Z; r13 : Z; r12 : Z; r11 : Z; r10 : Z; r9 : Z; r8 : Z;
  rdi : Z; rsi : Z; rbp : Z; rdx : Z; rcx : Z; rbx : Z; rax : Z;
  interrupt : Z; error : Z;
  rip : Z; cs : Z; rflags : Z; rsp : Z; ss : Z
}.
Definition zero_regs : Registers := mkRegs 0 0 0 0 0 0 0 0 0 0 0 0 0 0 0 0 0 0 0 0 0 0.
Definition set_rax (v : Z) (r : Registers) : Registers :=
  mkRegs (r15 r) (r14 r) (r13 r) (r12 r) (r11 r) (r10 r) (r9 r) (r8 r) (rdi r) (rsi r) (rbp r) (rdx r)
    (rcx r) (rbx r) v (interrupt r) (error r) (rip r) (cs r) (rflags r) (rsp r) (ss r).
Definition set_rsp (v : Z) (r : Registers) : Registers :=
  mkRegs (r15 r) (r14 r) (r13 r) (r12 r) (r11 r) (r10 r) (r9 r) (r8 r) (rdi r) (rsi r) (rbp r) (rdx r)
    (rcx r) (rbx r) (rax r) (interrupt r) (error r) (rip r) (cs r) (rflags r) v (ss r).

Record Proc_t := mkProc {
  PID : Z; PPID : Z; Priority : Z; CPUTime : Z; WaitingFor : Z; ExitCode : Z; Type_ : ProcType;
  Owner : Z; EUID : Z; SavedUID : Z; Group : Z; EGroup : Z; SavedGID : Z
}.
Definition zero_proc : Proc_t := mkProc 0 0 0 0 0 0 PROC_TYPE_KERNEL 0 0 0 0 0 0.

(** The memory layout of a process. *)
Record layout := mkLayout {
  code_vaddr_start : Z; code_vaddr_end : Z; stack_vaddr_base : Z; stack_vaddr_top : Z;
  heap_start : Z; heap_end : Z
}.
Definition no_layout : layout := mkLayout 0 0 0 0 0 0.

(** A PCB; [cwd] is the string in the array of 256 bytes. *)
Record PCB := mkPCB {
  proc : Proc_t; state : ProcState; context : Registers; space : as_ptr;
  kernel_stack_top : Z; lay : layout; vfork_parent : Z; cwd : list Z
}.
Definition null_pcb : PCB := mkPCB zero_proc PROC_UNUSED zero_regs AS_NULL 0 no_layout 0 [].

(** Assignments to members. *)
Definition set_PWaiting (w : Z) (p : Proc_t) : Proc_t :=
  mkProc (PID p) (PPID p) (Priority p) (CPUTime p) w (ExitCode p) (Type_ p) (Owner p) (EUID p) (SavedUID p)
    (Group p) (EGroup p) (SavedGID p).
Definition set_PExit (e : Z) (p : Proc_t) : Proc_t :=
  mkProc (PID p) (PPID p) (Priority p) (CPUTime p) (WaitingFor p) e (Type_ p) (Owner p) (EUID p) (SavedUID p)
    (Group p) (EGroup p) (SavedGID p).
Definition set_PType (t : ProcType) (p : Proc_t) : Proc_t :=
  mkProc (PID p) (PPID p) (Priority p) (CPUTime p) (WaitingFor p) (ExitCode p) t (Owner p) (EUID p) (SavedUID p)
    (Group p) (EGroup p) (SavedGID p).
Definition set_PTime (t : Z) (p : Proc_t) : Proc_t :=
  mkProc (PID p) (PPID p) (Priority p) t (WaitingFor p) (ExitCode p) (Type_ p) (Owner p) (EUID p) (SavedUID p)
    (Group p) (EGroup p) (SavedGID p).
Definition set_PUids (o e s : Z) (p : Proc_t) : Proc_t :=
  mkProc (PID p) (PPID p) (Priority p) (CPUTime p) (WaitingFor p) (ExitCode p) (Type_ p) o e s
    (Group p) (EGroup p) (SavedGID p).
Definition set_PGids (g e s : Z) (p : Proc_t) : Proc_t :=
  mkProc (PID p) (PPID p) (Priority p) (CPUTime p) (WaitingFor p) (ExitCode p) (Type_ p) (Owner p) (EUID p)
    (SavedUID p) g e s.

Definition set_proc (x : Proc_t) (b : PCB) : PCB :=
  mkPCB x (state b) (context b) (space b) (kernel_stack_top b) (lay b) (vfork_parent b) (cwd b).
Definition set_state (x : ProcState) (b : PCB) : PCB :=
  mkPCB (proc b) x (context b) (space b) (kernel_stack_top b) (lay b) (vfork_parent b) (cwd b).
Definition set_context (x : Registers) (b : PCB) : PCB :=
  mkPCB (proc b) (state b) x (space b) (kernel_stack_top b) (lay b) (vfork_parent b) (cwd b).
Definition set_space (x : as_ptr) (b : PCB) : PCB :=
  mkPCB (proc b) (state b) (context b) x (kernel_stack_top b) (lay b) (vfork_parent b) (cwd b).
Definition set_vfork (x : Z) (b : PCB) : PCB :=
  mkPCB (proc b) (state b) (context b) (space b) (kernel_stack_top b) (lay b) x (cwd b).
Definition set_cwd (x : list Z) (b : PCB) : PCB :=
  mkPCB (proc b) (state b) (context b) (space b) (kernel_stack_top b) (lay b) (vfork_parent b) x.
Definition set_heap_end (x : Z) (b : PCB) : PCB :=
  mkPCB (proc b) (state b) (context b) (space b) (kernel_stack_top b)
    (mkLayout (code_vaddr_start (lay b)) (code_vaddr_end (lay b)) (stack_vaddr_base (lay b))
       (stack_vaddr_top (lay b)) (heap_start (lay b)) x) (vfork_parent b) (cwd b).
(** [memset(pcb, 0, offsetof(PCB, kernel_stack))]. *)
Definition clear_pcb (b : PCB) : PCB :=
  mkPCB zero_proc PROC_UNUSED zero_regs AS_NULL (kernel_stack_top b) (lay b) (vfork_parent b) (cwd b).

(** The static variables, the machine, CR3 and the kernel stack of the TSS. *)
Record procs := mkProcs {
  proc_table : list PCB;
  current_proc : Z;
  next_pid : Z;
  scheduling_enabled : bool;
  next_user_code_addr : Z;
  current_syscall_frame : Z;
  mach : machine; cr3 : Z; tss_rsp0 : Z
}.

Definition pcb_at (s : procs) (i : Z) : PCB := aget null_pcb (proc_table s) i.
Definition set_table (t : list PCB) (s : procs) : procs :=
  mkProcs t (current_proc s) (next_pid s) (scheduling_enabled s) (next_user_code_addr s)
    (current_syscall_frame s) (mach s) (cr3 s) (tss_rsp0 s).
Definition set_mach (m : machine) (s : procs) : procs :=
  mkProcs (proc_table s) (current_proc s) (next_pid s) (scheduling_enabled s) (next_user_code_addr s)
    (current_syscall_frame s) m (cr3 s) (tss_rsp0 s).
Definition set_current (c : Z) (s : procs) : procs :=
  mkProcs (proc_table s) c (next_pid s) (scheduling_enabled s) (next_user_code_addr s)
    (current_syscall_frame s) (mach s) (cr3 s) (tss_rsp0 s).
Definition set_next_pid (n : Z) (s : procs) : procs :=
  mkProcs (proc_table s) (current_proc s) n (scheduling_enabled s) (next_user_code_addr s)
    (current_syscall_frame s) (mach s) (cr3 s) (tss_rsp0 s).
Definition set_enabled (e : bool) (s : procs) : procs :=
  mkProcs (proc_table s) (current_proc s) (next_pid s) e (next_user_code_addr s)
    (current_syscall_frame s) (mach s) (cr3 s) (tss_rsp0 s).
Definition set_next_code (a : Z) (s : procs) : procs :=
  mkProcs (proc_table s) (current_proc s) (next_pid s) (scheduling_enabled s) a
    (current_syscall_frame s) (mach s) (cr3 s) (tss_rsp0 s).
Definition set_cpu (c t : Z) (s : procs) : procs :=
  mkProcs (proc_table s) (current_proc s) (next_pid s) (scheduling_enabled s) (next_user_code_addr s)
    (current_syscall_frame s) (mach s) c t.

(** [proc_table[i] = f(proc_table[i])]. *)
Definition upd (i : Z) (f : PCB -> PCB) (s : procs) : procs :=
  set_table (aset (proc_table s) i (f (pcb_at s i))) s.
Definition upd_proc (i : Z) (f : Proc_t -> Proc_t) (s : procs) : procs :=
  upd i (fun b => set_proc (f (proc b)) b) s.

(** What the CPU does after a function that does not return. *)
Inductive cpu := Resume (ctx : Registers) | Halted.
(** What [proc_wait_pid] does: return, or yield and go on when scheduled. *)
Inductive wait_result := Returned (r : Z) | Yielded.

Definition u64_error : Z := 2 ^ 64 - 1.

Section operations.
Context `{BootInfo} (kernel_space : address_space) (kernel_stack : Z -> Z) (kmalloc_ok : Z -> bool)
  (udb : user_db).

Definition pcb_space (b : PCB) : as_ptr := match space b with AS_NULL => AS_KERNEL | sp => sp end.

Definition find_slot (p : PCB -> bool) (s : procs) : Z :=
  default (-1) (find_first (fun i => p (pcb_at s i)) 0 (Z.to_nat MAX_PROCESSES)).
Definition proc_find_index (pid : Z) (s : procs) : Z := find_slot (fun b => PID (proc b) =? u32 pid) s.
Definition is_unused (b : PCB) : bool := bool_decide (state b = PROC_UNUSED).
Definition pcb_alloc_slot (s : procs) : Z := find_slot is_unused s.

Definition proc_is_blocked (pid : Z) (s : procs) : bool :=
  let index := proc_find_index pid s in
  if index <? 0 then false else bool_decide (state (pcb_at s index) = PROC_BLOCKED).
Definition proc_block (pid : Z) (s : procs) : procs :=
  let index := proc_find_index pid s in
  if index <? 0 then s else upd index (set_state PROC_BLOCKED) s.
Definition proc_unblock (pid : Z) (s : procs) : procs :=
  let index := proc_find_index pid s in
  if index <? 0 then s else upd index (set_state PROC_READY) s.

(** [if (pcb->address_space) { vmm_destroy_address_space(...); = NULL; }
    memset(...); state = PROC_UNUSED], of [proc_kill_children] and
    [proc_reap]. *)
Definition discard (i : Z) (s : procs) : procs :=
  let m := match space (pcb_at s i) with
           | AS_NULL => mach s
           | sp => vmm_destroy_address_space kernel_space sp (mach s)
           end in
  upd i clear_pcb (set_mach m s).
Definition live (b : PCB) : bool :=
  negb (bool_decide (state b = PROC_UNUSED)) && negb (bool_decide (state b = PROC_ZOMBIE)).

Fixpoint proc_kill_children (fuel : nat) (parent_pid : Z) (s : procs) : procs :=
  match fuel with
  | O => s
  | S fuel' =>
      for_range (fun i s =>
        let child := pcb_at s i in
        if negb (live child) then s
        else if negb (PPID (proc child) =? parent_pid) then s
        else discard i (proc_kill_children fuel' (PID (proc child)) s)) 0 (Z.to_nat MAX_PROCESSES) s
  end.
(** The recursion is no deeper than the table is long. *)
Definition kill_children (parent_pid : Z) (s : procs) : procs :=
  proc_kill_children (S (Z.to_nat MAX_PROCESSES)) parent_pid s.

(** The part of [proc_terminate] for a child of [vfork]. *)
Definition release_vfork_parent (index : Z) (s : procs) : procs :=
  if 0 <? vfork_parent (pcb_at s index) then
    let vidx := proc_find_index (vfork_parent (pcb_at s index)) s in
    let s1 := if (0 <=? vidx) && bool_decide (state (pcb_at s vidx) = PROC_BLOCKED)
              then upd vidx (set_state PROC_READY) (upd_proc vidx (set_PWaiting NO_PID) s)
              else s in
    upd index (set_vfork (-1)) (upd index (set_space AS_NULL) s1)
  else s.
(** ... and for the parent that waits. *)
Definition release_parent (index pid : Z) (s : procs) : procs :=
  let parent_idx := proc_find_index (PPID (proc (pcb_at s index))) s in
  if 0 <=? parent_idx then
    if WaitingFor (proc (pcb_at s parent_idx)) =? pid then
      let s1 := upd_proc parent_idx (set_PWaiting NO_PID) s in
      proc_unblock (PID (proc (pcb_at s1 parent_idx))) s1
    else s
  else s.
Definition proc_terminate (index exit_code : Z) (s : procs) : procs :=
  let pid := PID (proc (pcb_at s index)) in
  let s1 := upd index (set_state PROC_ZOMBIE) (upd_proc index (set_PExit (u32 exit_code)) s) in
  let s2 := kill_children pid s1 in
  release_parent index pid (release_vfork_parent index s2).

Definition proc_reap (index : Z) (s : procs) : procs := discard index s.

Definition proc_is_valid_demand_addr (vaddr : Z) (s : procs) : bool :=
  if current_proc s <? 0 then false
  else
    let l := lay (pcb_at s (current_proc s)) in
    if (stack_vaddr_base l <=? vaddr) && (vaddr <? stack_vaddr_top l) then true
    else if (code_vaddr_start l <=? vaddr) && (vaddr <? page_up (code_vaddr_end l)) then true
    else if (heap_start l <=? vaddr) && (vaddr <? heap_end l) then true
    else false.

(** ** Scheduling *)

Definition is_ready (b : PCB) : bool := bool_decide (state b = PROC_READY).
(** The C remainder truncates: from -1 the first index tried is 0. *)
Definition find_next (s : procs) : Z :=
  let start := current_proc s in
  match find_first (fun i => is_ready (pcb_at s (Z.rem (start + i) MAX_PROCESSES))) 1 (Z.to_nat MAX_PROCESSES) with
  | Some i => Z.rem (start + i) MAX_PROCESSES
  | None => -1
  end.

(** [current_proc = i; state = PROC_RUNNING], the TSS and CR3. *)
Definition switch_to (i : Z) (s : procs) : procs :=
  let s1 := upd i (set_state PROC_RUNNING) (set_current i s) in
  set_cpu (vmm_switch_space kernel_space (pcb_space (pcb_at s1 i)) (mach s1) (cr3 s1))
    (kernel_stack_top (pcb_at s1 i)) s1.

Definition proc_schedule_interrupt (frame : Registers) (s : procs) : procs * Registers :=
  if negb (scheduling_enabled s) then (s, frame)
  else
    let old := current_proc s in
    let s1 :=
      if (0 <=? old) && negb (is_unused (pcb_at s old)) then
        upd old (fun b => let b1 := set_context frame b in
          if bool_decide (state b1 = PROC_RUNNING) then set_state PROC_READY b1 else b1) s
      else s in
    let next := find_next s1 in
    if next <? 0 then (s1, frame)
    else let s2 := switch_to next s1 in (s2, context (pcb_at s2 next)).

(** [proc_yield] raises the interrupt of the scheduler. *)
Definition yields (s : procs) : bool := scheduling_enabled s && (0 <=? current_proc s).

Definition proc_enter_syscall (s : procs) : procs := upd_proc (current_proc s) (set_PType PROC_TYPE_KERNEL) s.
Definition proc_exit_syscall (s : procs) : procs := upd_proc (current_proc s) (set_PType PROC_TYPE_USER) s.

Definition is_ready_user (b : PCB) : bool := is_ready b && bool_decide (Type_ (proc b) = PROC_TYPE_USER).
(** The result is the entry and the stack [enter_usermode] is called with. *)
Definition proc_start_scheduling (s : procs) : procs * option (Z * Z) :=
  let s0 := set_enabled true s in
  let i := find_slot is_ready_user s0 in
  if 0 <=? i then
    let s1 := switch_to i s0 in
    (s1, Some (rip (context (pcb_at s1 i)), rsp (context (pcb_at s1 i))))
  else
    let j := find_slot is_ready s0 in
    if 0 <=? j then (upd j (set_state PROC_RUNNING) (set_current j s0), None) else (s0, None).

Definition proc_update_time (ticks : Z) (s : procs) : procs :=
  if 0 <=? current_proc s then
    upd_proc (current_proc s) (fun p => set_PTime (u64 (CPUTime p + ticks)) p) s
  else s.
Definition proc_get_current_pid (s : procs) : Z :=
  if current_proc s <? 0 then -1 else int_of_u32 (PID (proc (pcb_at s (current_proc s)))).
Definition proc_getppid (s : procs) : Z :=
  if current_proc s <? 0 then -1 else int_of_u32 (PPID (proc (pcb_at s (current_proc s)))).
Definition proc_set_syscall_frame (frame : Z) (s : procs) : procs :=
  mkProcs (proc_table s) (current_proc s) (next_pid s) (scheduling_enabled s) (next_user_code_addr s)
    frame (mach s) (cr3 s) (tss_rsp0 s).
Definition proc_get_syscall_frame (s : procs) : Z := current_syscall_frame s.

(** ** Exit and wait *)

Definition halt (s : procs) : procs * cpu :=
  let s1 :=
    if 0 <=? current_proc s then
      match space (pcb_at s (current_proc s)) with
      | AS_NULL => s
      | dying =>
          let s' := set_cpu (vmm_switch_space kernel_space AS_KERNEL (mach s) (cr3 s)) (tss_rsp0 s) s in
          set_mach (vmm_destroy_address_space kernel_space dying (mach s')) s'
      end
    else s in
  (set_current (-1) s1, Halted).

Definition proc_exit (exit_code : Z) (s : procs) : procs * cpu :=
  if current_proc s <? 0 then halt s
  else
    let exiting := current_proc s in
    let s1 := proc_terminate exiting exit_code s in
    let old_space := space (pcb_at s1 exiting) in
    let next := find_next s1 in
    if next <? 0 then halt s1
    else
      let s2 := switch_to next s1 in
      let s3 :=
        match old_space with
        | AS_NULL => s2
        | sp => if bool_decide (sp = space (pcb_at s2 next)) then s2
                else set_mach (vmm_destroy_address_space kernel_space sp (mach s2)) s2
        end in
      (s3, Resume (context (pcb_at s3 next))).

Definition wait_collect (pid : Z) (s : procs) : procs * Z :=
  let child_idx := proc_find_index pid s in
  if child_idx <? 0 then (s, u64_error)
  else (proc_reap child_idx s, ExitCode (proc (pcb_at s child_idx))).
(** [proc_wait_pid] as far as its [proc_yield], and [wait_collect] from there.
    When the yield does nothing the two run on. *)
Definition proc_wait_pid (pid : Z) (s : procs) : procs * wait_result :=
  let child_idx := proc_find_index pid s in
  if child_idx <? 0 then (s, Returned u64_error)
  else if bool_decide (state (pcb_at s child_idx) = PROC_ZOMBIE) then
    let '(s', r) := wait_collect pid s in (s', Returned r)
  else
    let parent_idx := proc_find_index (proc_get_current_pid s) s in
    if parent_idx <? 0 then (s, Returned u64_error)
    else
      let s1 := upd parent_idx (set_state PROC_BLOCKED) (upd_proc parent_idx (set_PWaiting (u32 pid)) s) in
      if yields s1 then (s1, Yielded) else let '(s', r) := wait_collect pid s1 in (s', Returned r).

(** ** Creation *)

Definition x86_64_GDT_CODE_SEGMENT : Z := 0x08.
Definition x86_64_GDT_DATA_SEGMENT : Z := 0x10.
Definition x86_64_GDT_USER_CODE_SEGMENT : Z := 0x20.
Definition x86_64_GDT_USER_DATA_SEGMENT : Z := 0x18.

Definition kernel_stack_end (slot : Z) : Z := align_down16 (kernel_stack slot + PROC_STACK_SIZE).
Definition new_proc (s : procs) (parent priority : Z) (t : ProcType) (owner : Z) : Proc_t :=
  let g := user_get_gid udb owner in
  mkProc (next_pid s) parent priority 0 NO_PID 0 t owner owner owner g g g.

Definition proc_create_internal (entry priority parent : Z) (t : ProcType)
    (code_start code_end stack_base stack_top initial_rsp : Z) (sp : as_ptr) (owner : Z) (s : procs)
  : procs * Z :=
  let slot := pcb_alloc_slot s in
  if slot <? 0 then (s, -1)
  else
    let k := kernel_stack_end slot in
    let regs := fun c d sp' => mkRegs 0 0 0 0 0 0 0 0 0 0 0 0 0 0 0 0 0 entry c 0x202 sp' d in
    let pcb :=
      match t with
      | PROC_TYPE_KERNEL =>
          mkPCB (new_proc s parent priority t owner) PROC_READY
            (regs x86_64_GDT_CODE_SEGMENT x86_64_GDT_DATA_SEGMENT k) sp k no_layout (-1) [47]
      | PROC_TYPE_USER =>
          mkPCB (new_proc s parent priority t owner) PROC_READY
            (regs (Z.lor x86_64_GDT_USER_CODE_SEGMENT 3) (Z.lor x86_64_GDT_USER_DATA_SEGMENT 3) initial_rsp) sp k
            (mkLayout code_start code_end stack_base stack_top (page_up code_end) (page_up code_end)) (-1) [47]
      end in
    (set_next_pid (u32 (next_pid s + 1)) (upd slot (fun _ => pcb) s), int_of_u32 (next_pid s)).

Definition proc_create_kernel_as (owner entry priority parent : Z) (s : procs) : procs * Z :=
  if negb (user_exists udb owner) then (s, -1)
  else proc_create_internal entry priority parent PROC_TYPE_KERNEL 0 0 0 0 0 AS_NULL owner s.
Definition proc_create_kernel (entry priority parent : Z) (s : procs) : procs * Z :=
  proc_create_internal entry priority parent PROC_TYPE_KERNEL 0 0 0 0 0 AS_NULL UID_ROOT s.

(** [idle_fn] is the address of [idle]. *)
Definition proc_init (idle_fn : Z) (s : procs) : procs :=
  fst (proc_create_kernel idle_fn 0 0
    (mkProcs (replicate (Z.to_nat MAX_PROCESSES) null_pcb) (-1) 1 false USER_CODE_BASE 0
       (mach s) (cr3 s) (tss_rsp0 s))).

(** The stack of the next process: base, top and first stack pointer. *)
Definition user_map_stack (proc_space : as_ptr) (s : procs) : machine * option (Z * Z * Z) :=
  let slot := pcb_alloc_slot s in
  if slot <? 0 then (mach s, None)
  else
    let stack_top := USER_STACK_ARENA + (slot + 1) * USER_STACK_VSIZE in
    let stack_base := stack_top - USER_STACK_VSIZE in
    if USER_SPACE_END <? stack_top then (mach s, None)
    else
      let first_stack_page := page_down (stack_top - 8 * PAGE_SIZE) in
      let '(m1, ok) := stack_loop kernel_space 8 proc_space first_stack_page (cr3 s) (mach s) in
      if negb ok then (m1, None)
      else (m1, Some (stack_top, stack_base, align_down16 (stack_top - 16))).

(** [proc_create_user] for [owner]: the program [entry, end_marker) of the
    kernel image, copied into the address space of the kernel. *)
Definition create_user_for (owner entry end_marker priority parent : Z) (s : procs) : procs * Z :=
  if (entry =? 0) || (end_marker =? 0) then (s, -1)
  else
    let code_size := u64 (end_marker - entry) in
    if (code_size =? 0) || (USER_CODE_LIMIT - USER_CODE_BASE <? code_size) then (s, -1)
    else
      let alloc_size := page_up code_size in
      let user_code_va := next_user_code_addr s in
      if USER_CODE_LIMIT <=? u64 (user_code_va + alloc_size) then (s, -1)
      else
        let '(m1, ok) := code_loop kernel_space (Z.to_nat (alloc_size / PAGE_SIZE)) user_code_va entry code_size
                           0 (cr3 s) (mach s) in
        let s1 := set_mach m1 s in
        if negb ok then (s1, -1)
        else
          let '(m2, stack) := user_map_stack AS_KERNEL s1 in
          let s2 := set_mach m2 s1 in
          match stack with
          | None => (s2, -1)
          | Some (stack_top, stack_base, initial_rsp) =>
              let '(s3, pid) := proc_create_internal user_code_va priority parent PROC_TYPE_USER user_code_va
                                  (user_code_va + code_size) stack_base stack_top initial_rsp AS_NULL owner s2 in
              if pid <? 0 then (s3, -1) else (set_next_code (user_code_va + alloc_size) s3, pid)
          end.
Definition proc_create_user (entry end_marker priority parent : Z) (s : procs) : procs * Z :=
  create_user_for UID_ROOT entry end_marker priority parent s.
Definition proc_create_user_as (owner entry end_marker priority parent : Z) (s : procs) : procs * Z :=
  if negb (user_exists udb owner) then (s, -1) else create_user_for owner entry end_marker priority parent s.

(** [proc_create_user_image] for [owner]; [stack] builds the initial stack:
    [setup_user_stack_minimal] or [setup_user_stack_argv]. *)
Definition create_image_for (owner : Z) (stack : as_ptr -> Z -> Z -> machine -> machine * Z)
    (image : option (Z -> Z)) (image_size load_vaddr entry_vaddr priority parent : Z) (s : procs) : procs * Z :=
  match image with
  | None => (s, -1)
  | Some bytes =>
      if image_size =? 0 then (s, -1)
      else if (load_vaddr <? USER_CODE_BASE) || (USER_CODE_LIMIT <=? load_vaddr) then (s, -1)
      else if (entry_vaddr <? load_vaddr) || (u64 (load_vaddr + image_size) <=? entry_vaddr) then (s, -1)
      else
        let alloc_size := page_up image_size in
        if USER_CODE_LIMIT <? u64 (load_vaddr + alloc_size) then (s, -1)
        else
          let '(m1, proc_space) := vmm_create_address_space kernel_space (mach s) in
          let s1 := set_mach m1 s in
          match proc_space with
          | AS_NULL => (s1, -1)
          | _ =>
              let '(m2, ok) := image_loop kernel_space (Z.to_nat (alloc_size / PAGE_SIZE)) proc_space load_vaddr
                                 bytes image_size 0 (cr3 s) m1 in
              if negb ok then (set_mach (vmm_destroy_address_space kernel_space proc_space m2) s, -1)
              else
                let '(m3, st) := user_map_stack proc_space (set_mach m2 s) in
                match st with
                | None => (set_mach (vmm_destroy_address_space kernel_space proc_space m3) s, -1)
                | Some (stack_top, stack_base, _) =>
                    let '(m4, initial_rsp) := stack proc_space stack_top (cr3 s) m3 in
                    let '(s5, pid) := proc_create_internal entry_vaddr priority parent PROC_TYPE_USER load_vaddr
                                        (load_vaddr + image_size) stack_base stack_top initial_rsp proc_space owner
                                        (set_mach m4 s) in
                    if pid <? 0 then (set_mach (vmm_destroy_address_space kernel_space proc_space (mach s5)) s5, -1)
                    else (s5, pid)
                end
          end
  end.
Definition proc_create_user_image := create_image_for UID_ROOT (setup_user_stack_minimal kernel_space).
Definition proc_create_user_image_as (owner : Z) (image : option (Z -> Z))
    (image_size load_vaddr entry_vaddr priority parent : Z) (s : procs) : procs * Z :=
  if negb (user_exists udb owner) then (s, -1)
  else create_image_for owner (setup_user_stack_minimal kernel_space) image image_size load_vaddr entry_vaddr
         priority parent s.
Definition proc_create_user_image_argv (image : option (Z -> Z))
    (image_size load_vaddr entry_vaddr priority parent : Z) (argv envp : list (list Z)) (s : procs) : procs * Z :=
  create_image_for UID_ROOT
    (fun sp top c m => setup_user_stack_argv kernel_space kmalloc_ok sp top argv envp c m)
    image image_size load_vaddr entry_vaddr priority parent s.

(** ** Fork *)

Definition pcb_init_child (slot parent : Z) (sp : as_ptr) (frame : Registers) (s : procs) : procs :=
  let b := pcb_at s parent in
  let p := proc b in
  let child := mkProc (next_pid s) (PID p) (Priority p) 0 NO_PID 0 (Type_ p) (Owner p) (EUID p) (SavedUID p)
                 (Group p) (EGroup p) (SavedGID p) in
  set_next_pid (u32 (next_pid s + 1))
    (upd slot (fun _ => mkPCB child PROC_READY (set_rax 0 frame) sp (kernel_stack_end slot) (lay b) (-1) (cwd b)) s).

(** The three regions [proc_fork] copies. *)
Definition fork_regions (dst : as_ptr) (parent : PCB) (c : Z) (m : machine) : machine * bool :=
  let l := lay parent in
  let region := fun lo hi '((m, ok) : machine * bool) =>
    if ok && (lo <? hi) then clone_user_region kernel_space kmalloc_ok dst (space parent) lo hi c m else (m, ok) in
  region (heap_start l) (page_up (heap_end l))
    (region (stack_vaddr_base l) (stack_vaddr_top l)
       (region (code_vaddr_start l) (page_up (code_vaddr_end l)) (m, true))).

Definition proc_fork (frame : Registers) (s : procs) : procs * Z :=
  if current_proc s <? 0 then (s, -1)
  else
    let slot := pcb_alloc_slot s in
    if slot <? 0 then (s, -1)
    else
      let parent := pcb_at s (current_proc s) in
      match space parent with
      | AS_NULL => (pcb_init_child slot (current_proc s) AS_NULL frame s, int_of_u32 (next_pid s))
      | _ =>
          let '(m1, child_space) := vmm_create_address_space kernel_space (mach s) in
          match child_space with
          | AS_NULL => (set_mach m1 s, -1)
          | _ =>
              let '(m2, ok) := fork_regions child_space parent (cr3 s) m1 in
              if negb ok then (set_mach (vmm_destroy_address_space kernel_space child_space m2) s, -1)
              else (pcb_init_child slot (current_proc s) child_space frame (set_mach m2 s), int_of_u32 (next_pid s))
          end
      end.

Definition proc_vfork (frame : Registers) (s : procs) : procs * Z :=
  if current_proc s <? 0 then (s, -1)
  else
    let slot := pcb_alloc_slot s in
    if slot <? 0 then (s, -1)
    else
      let parent := current_proc s in
      let s1 := pcb_init_child slot parent (space (pcb_at s parent)) frame s in
      let child_pid := PID (proc (pcb_at s1 slot)) in
      let s2 := upd slot (set_vfork (int_of_u32 (PID (proc (pcb_at s1 parent))))) s1 in
      let s3 := upd parent (fun b => set_state PROC_BLOCKED (set_context (set_rax child_pid frame) b)) s2 in
      (upd_proc parent (set_PWaiting child_pid) s3, int_of_u32 child_pid).

Definition set_child_stack (pid child_stack : Z) (s : procs) : procs :=
  if (0 <? pid) && negb (child_stack =? 0) then
    let idx := proc_find_index pid s in
    if 0 <=? idx then upd idx (fun b => set_context (set_rsp child_stack (context b)) b) s else s
  else s.

Definition proc_clone (frame : Registers) (flags child_stack : Z) (s : procs) : procs * Z :=
  if negb (Z.land flags CLONE_VFORK =? 0) then
    let '(s1, pid) := proc_vfork frame s in (set_child_stack pid child_stack s1, pid)
  else if negb (Z.land flags CLONE_VM =? 0) then
    if current_proc s <? 0 then (s, -1)
    else
      let slot := pcb_alloc_slot s in
      if slot <? 0 then (s, -1)
      else
        let s1 := pcb_init_child slot (current_proc s) (space (pcb_at s (current_proc s))) frame s in
        let s2 := if negb (child_stack =? 0)
                  then upd slot (fun b => set_context (set_rsp child_stack (context b)) b) s1 else s1 in
        (s2, int_of_u32 (next_pid s))
  else
    let '(s1, pid) := proc_fork frame s in (set_child_stack pid child_stack s1, pid).

(** ** The program break *)

Definition pages_between (a b : Z) : nat := Z.to_nat ((b - a) / PAGE_SIZE).
Definition brk_limit (b : PCB) : Z :=
  if stack_vaddr_base (lay b) =? 0 then USER_CODE_LIMIT else stack_vaddr_base (lay b).

Definition proc_brk (new_brk : Z) (s : procs) : procs * Z :=
  if current_proc s <? 0 then (s, u64_error)
  else
    let c := current_proc s in
    let b := pcb_at s c in
    if new_brk =? 0 then (s, heap_end (lay b))
    else if (new_brk <? heap_start (lay b)) || (brk_limit b <? new_brk) then (s, u64_error)
    else
      let old_end := heap_end (lay b) in
      let old_page := page_up old_end in
      let new_page := page_up new_brk in
      if old_end <? new_brk then
        let '(m, ok) := grow_loop kernel_space (pages_between old_page new_page) (space b) old_page (cr3 s) (mach s) in
        if negb ok then (set_mach m s, u64_error)
        else (upd c (set_heap_end new_brk) (set_mach m s), old_end)
      else if new_brk <? old_end then
        let m := shrink_loop kernel_space (pages_between new_page old_page) (pcb_space b) new_page (mach s) in
        (upd c (set_heap_end new_brk) (set_mach m s), old_end)
      else (upd c (set_heap_end new_brk) s, old_end).

Definition proc_sbrk (increment : Z) (s : procs) : procs * Z :=
  if current_proc s <? 0 then (s, -1)
  else
    let b := pcb_at s (current_proc s) in
    let old_brk := heap_end (lay b) in
    if increment =? 0 then (s, int64 old_brk)
    else
      let brk_to := fun new_brk =>
        let '(s', r) := proc_brk new_brk s in if r =? u64_error then (s', -1) else (s', int64 old_brk) in
      if 0 <? increment then
        let new_brk := u64 (old_brk + increment) in
        if new_brk <? old_brk then (s, -1) else brk_to new_brk
      else
        let dec := u64 (- increment) in
        if u64 (old_brk - heap_start (lay b)) <? dec then (s, -1) else brk_to (u64 (old_brk - dec)).

(** ** Memory of another process *)

Definition proc_write_to_user (pid user_dst : Z) (src : option (Z -> Z)) (n : Z) (s : procs) : procs * bool :=
  match src with
  | None => (s, false)
  | Some bytes =>
      if (user_dst =? 0) || (n =? 0) then (s, false)
      else
        let idx := proc_find_index pid s in
        if idx <? 0 then (s, false)
        else
          match space (pcb_at s idx) with
          | AS_NULL => (set_mach (vwrite (cr3 s) user_dst bytes n (mach s)) s, true)
          | sp =>
              let '(m, ok) := write_user_loop kernel_space (S (Z.to_nat n)) sp user_dst bytes n (cr3 s) (mach s) in
              (set_mach m s, ok)
          end
  end.
(** The bytes stored to [dst] come back as a list. *)
Definition proc_read_from_user (pid user_src n : Z) (s : procs) : procs * list Z * bool :=
  if (user_src =? 0) || (n =? 0) then (s, [], false)
  else
    let idx := proc_find_index pid s in
    if idx <? 0 then (s, [], false)
    else
      match space (pcb_at s idx) with
      | AS_NULL => (s, vread (cr3 s) user_src n (mach s), true)
      | sp =>
          let '(m, got, ok) := read_user_loop kernel_space (S (Z.to_nat n)) sp user_src n (cr3 s) (mach s) in
          (set_mach m s, got, ok)
      end.

(** ** Owners and permissions *)

Definition proc_can_act (actor pid : Z) (s : procs) : bool :=
  if negb (user_exists udb actor) then false
  else
    let idx := proc_find_index pid s in
    if idx <? 0 then false
    else
      let owner := Owner (proc (pcb_at s idx)) in
      if actor =? owner then true
      else user_get_perm_level udb actor <? user_get_perm_level udb owner.

Definition proc_get_owner (pid : Z) (s : procs) : Z :=
  let idx := proc_find_index pid s in if idx <? 0 then -1 else Owner (proc (pcb_at s idx)).
Definition proc_set_owner (pid new_owner : Z) (s : procs) : procs * Z :=
  if negb (user_exists udb new_owner) then (s, -1)
  else
    let idx := proc_find_index pid s in
    if idx <? 0 then (s, -1)
    else (upd_proc idx (fun p => set_PUids new_owner (EUID p) (SavedUID p) p) s, 0).

Definition proc_kill_as (actor pid : Z) (s : procs) : procs * Z :=
  if negb (proc_can_act actor pid s) then (s, -1)
  else
    let idx := proc_find_index pid s in
    if idx <? 0 then (s, -1) else (proc_terminate idx 1 s, 0).
Definition proc_block_as (actor pid : Z) (s : procs) : procs * Z :=
  if negb (proc_can_act actor pid s) then (s, -1) else (proc_block pid s, 0).
Definition proc_unblock_as (actor pid : Z) (s : procs) : procs * Z :=
  if negb (proc_can_act actor pid s) then (s, -1) else (proc_unblock pid s, 0).
Definition proc_wait_pid_as (actor pid : Z) (s : procs) : procs * wait_result :=
  if negb (proc_can_act actor pid s) then (s, Returned u64_error) else proc_wait_pid pid s.

(** ** User and group ids of the current process *)

Definition cur (s : procs) : Proc_t := proc (pcb_at s (current_proc s)).
Definition set_cur (f : Proc_t -> Proc_t) (s : procs) : procs := upd_proc (current_proc s) f s.

Definition proc_getuid (s : procs) : Z := if current_proc s <? 0 then -1 else Owner (cur s).
Definition proc_geteuid (s : procs) : Z := if current_proc s <? 0 then -1 else EUID (cur s).
Definition proc_setuid (uid : Z) (s : procs) : procs * Z :=
  if current_proc s <? 0 then (s, -1)
  else
    let p := cur s in
    if user_is_root udb (EUID p) then (set_cur (set_PUids uid uid uid) s, 0)
    else if (uid =? Owner p) || (uid =? SavedUID p) then (set_cur (set_PUids (Owner p) uid (SavedUID p)) s, 0)
    else (s, -1).
Definition proc_seteuid (uid : Z) (s : procs) : procs * Z :=
  if current_proc s <? 0 then (s, -1)
  else
    let p := cur s in
    if user_is_root udb (EUID p) then (set_cur (set_PUids (Owner p) uid (SavedUID p)) s, 0)
    else if (uid =? Owner p) || (uid =? SavedUID p) then (set_cur (set_PUids (Owner p) uid (SavedUID p)) s, 0)
    else (s, -1).

(** The three ids of a process as [proc_setreuid] and [proc_setregid] treat
    them: new real, effective and saved id, and the result. *)
Definition setre (root : bool) (real eff saved : Z) (r e : Z) : Z * Z * Z * Z :=
  if negb (r =? -1) && negb root && negb (r =? real) && negb (r =? eff) then (real, eff, saved, -1)
  else
    let real1 := if r =? -1 then real else r in
    if negb (e =? -1) && negb root && negb (e =? real) && negb (e =? eff) && negb (e =? saved)
    then (real1, eff, saved, -1)
    else
      let eff1 := if e =? -1 then eff else e in
      let saved1 := if negb (r =? -1) || (negb (e =? -1) && negb (e =? real)) then eff1 else saved in
      (real1, eff1, saved1, 0).
Definition proc_setreuid (ruid euid : Z) (s : procs) : procs * Z :=
  if current_proc s <? 0 then (s, -1)
  else
    let p := cur s in
    let '(o, e, sv, r) := setre (user_is_root udb (EUID p)) (Owner p) (EUID p) (SavedUID p) ruid euid in
    (set_cur (set_PUids o e sv) s, r).
Definition proc_apply_setuid_exec (file_owner file_mode : Z) (s : procs) : procs * Z :=
  if current_proc s <? 0 then (s, -1)
  else if negb (Z.land file_mode 0x0800 =? 0)
       then (set_cur (set_PUids (Owner (cur s)) file_owner file_owner) s, 0)
  else (s, 0).

Definition proc_getgid (s : procs) : Z := if current_proc s <? 0 then -1 else Group (cur s).
Definition proc_getegid (s : procs) : Z := if current_proc s <? 0 then -1 else EGroup (cur s).
Definition proc_setgid (g : Z) (s : procs) : procs * Z :=
  if current_proc s <? 0 then (s, -1)
  else
    let p := cur s in
    if user_is_root udb (EUID p) then (set_cur (set_PGids g g g) s, 0)
    else if (g =? Group p) || (g =? SavedGID p) then (set_cur (set_PGids (Group p) g (SavedGID p)) s, 0)
    else (s, -1).
Definition proc_setegid (g : Z) (s : procs) : procs * Z :=
  if current_proc s <? 0 then (s, -1)
  else
    let p := cur s in
    if user_is_root udb (EUID p) then (set_cur (set_PGids (Group p) g (SavedGID p)) s, 0)
    else if (g =? Group p) || (g =? SavedGID p) then (set_cur (set_PGids (Group p) g (SavedGID p)) s, 0)
    else (s, -1).
Definition proc_setregid (rgid egid : Z) (s : procs) : procs * Z :=
  if current_proc s <? 0 then (s, -1)
  else
    let p := cur s in
    let '(g, e, sv, r) := setre (user_is_root udb (EUID p)) (Group p) (EGroup p) (SavedGID p) rgid egid in
    (set_cur (set_PGids g e sv) s, r).
Definition resgid_allowed (x : Z) (p : Proc_t) : bool :=
  (x =? -1) || (x =? Group p) || (x =? EGroup p) || (x =? SavedGID p).
Definition proc_setresgid (rgid egid sgid : Z) (s : procs) : procs * Z :=
  if current_proc s <? 0 then (s, -1)
  else
    let p := cur s in
    if negb (user_is_root udb (EUID p)) &&
       negb (resgid_allowed rgid p && resgid_allowed egid p && resgid_allowed sgid p) then (s, -1)
    else
      (set_cur (set_PGids (if rgid =? -1 then Group p else rgid) (if egid =? -1 then EGroup p else egid)
                  (if sgid =? -1 then SavedGID p else sgid)) s, 0).
Definition proc_getresgid (s : procs) : option (Z * Z * Z) :=
  if current_proc s <? 0 then None else Some (Group (cur s), EGroup (cur s), SavedGID (cur s)).

(** ** Working directory *)

(** The string stored in a buffer of [size] bytes. *)
Definition proc_getcwd (size : Z) (s : procs) : option (list Z) :=
  if (size =? 0) || (current_proc s <? 0) then None
  else
    let d := cwd (pcb_at s (current_proc s)) in
    if size <? Z.of_nat (length d) + 1 then None else Some d.
Definition proc_chdir (path : option (list Z)) (s : procs) : procs * Z :=
  match path with
  | None => (s, -1)
  | Some p =>
      if current_proc s <? 0 then (s, -1)
      else if 256 <=? Z.of_nat (length p) then (s, -1)
      else (upd (current_proc s) (set_cwd p) s, 0)
  end.
End operations.
