(* ===== verification/Scheduler.v ===== *)
(** * Scheduling, process trees, exit and wait

    What the operations of [Proc] guarantee of the process table: round-robin
    choice and fairness, saved and restored registers, the exact set of
    processes a kill removes, and the protocol between a child that exits and
    a parent that waits. *)

From S2P Require Import Prelude PhysMem Pmm Vmm User ProcMem Proc.
#[local] Open Scope Z_scope.

(** ** The table *)

Record procs_wf (s : procs) : Prop := {
  pw_table : Z.of_nat (length (proc_table s)) = MAX_PROCESSES;
  pw_current : -1 <= current_proc s < MAX_PROCESSES
}.
Definition in_table (i : Z) : Prop := 0 <= i < MAX_PROCESSES.

Lemma pcb_at_upd s i f j :
  procs_wf s -> in_table i -> pcb_at (upd i f s) j = if j =? i then f (pcb_at s i) else pcb_at s j.
Proof.
  intros [Hl _] Hi. unfold in_table in Hi. unfold pcb_at at 1, upd, set_table. cbn [proc_table].
  destruct (Z.eqb_spec j i) as [->|Hne].
  - apply aget_aset_eq. lia.
  - apply aget_aset_ne; lia.
Qed.

Lemma upd_wf s i f : procs_wf s -> procs_wf (upd i f s).
Proof. intros [Hl Hc]. split; unfold upd, set_table; cbn [proc_table current_proc]; [by rewrite length_aset|done]. Qed.

(** [upd] touches the table only. *)
Lemma upd_fields s i f :
  current_proc (upd i f s) = current_proc s /\ next_pid (upd i f s) = next_pid s /\
  scheduling_enabled (upd i f s) = scheduling_enabled s /\ mach (upd i f s) = mach s /\
  cr3 (upd i f s) = cr3 s.
Proof. done. Qed.

Lemma find_slot_cases p s :
  let r := find_slot p s in
  (in_table r /\ p (pcb_at s r) = true /\ forall j, 0 <= j < r -> p (pcb_at s j) = false) \/
  (r = -1 /\ forall j, in_table j -> p (pcb_at s j) = false).
Proof.
  cbv zeta. unfold find_slot, in_table. change (Z.to_nat MAX_PROCESSES) with 64%nat.
  destruct (find_first _ 0 64) as [i|] eqn:E.
  - left. apply find_first_Some in E as (Hr & Hp & Hlow). simpl. unfold MAX_PROCESSES. split_and!; (lia || done).
  - right. rewrite find_first_None in E. split; [done|]. unfold MAX_PROCESSES. intros j Hj. apply E. lia.
Qed.

Lemma find_slot_exact p s i :
  in_table i -> p (pcb_at s i) = true -> (forall j, in_table j -> j <> i -> p (pcb_at s j) = false) ->
  find_slot p s = i.
Proof.
  intros Hi Hp Hu. destruct (find_slot_cases p s) as [(Hr & Hpr & _)|[_ Hn]].
  - destruct (decide (find_slot p s = i)) as [|Hne]; [done|]. by rewrite Hu in Hpr.
  - by rewrite Hn in Hp.
Qed.

(** ** Round robin *)

(** The number of steps from the current slot to slot [i], going round. *)
Definition ahead (s : procs) (i : Z) : Z := (i - current_proc s - 1) mod MAX_PROCESSES + 1.
Definition slot_ahead (s : procs) (k : Z) : Z := (current_proc s + k) mod MAX_PROCESSES.

Lemma ahead_range s i : 1 <= ahead s i <= MAX_PROCESSES.
Proof. unfold ahead. pose proof (Z.mod_pos_bound (i - current_proc s - 1) MAX_PROCESSES ltac:(done)). lia. Qed.

Lemma slot_ahead_range s k : in_table (slot_ahead s k).
Proof. apply Z.mod_pos_bound. done. Qed.

Lemma slot_ahead_ahead s i : in_table i -> slot_ahead s (ahead s i) = i.
Proof. unfold in_table, slot_ahead, ahead, MAX_PROCESSES. intros. zdiv_lia. Qed.

Lemma ahead_slot_ahead s k : 1 <= k <= MAX_PROCESSES -> ahead s (slot_ahead s k) = k.
Proof. unfold slot_ahead, ahead, MAX_PROCESSES. intros. zdiv_lia. Qed.

Lemma find_next_cases s :
  procs_wf s ->
  (in_table (find_next s) /\ is_ready (pcb_at s (find_next s)) = true /\
   forall k, 1 <= k < ahead s (find_next s) -> is_ready (pcb_at s (slot_ahead s k)) = false) \/
  (find_next s = -1 /\ forall j, in_table j -> is_ready (pcb_at s j) = false).
Proof.
  intros [_ Hc]. unfold find_next. change (Z.to_nat MAX_PROCESSES) with 64%nat.
  assert (Hrem : forall k, 1 <= k -> Z.rem (current_proc s + k) MAX_PROCESSES = slot_ahead s k).
  { intros k Hk. unfold slot_ahead. apply Z.rem_mod_nonneg; [lia|done]. }
  destruct (find_first _ 1 64) as [i|] eqn:E.
  - left. apply find_first_Some in E as (Hr & Hp & Hlow). rewrite Hrem in Hp |- * by lia.
    split; [apply slot_ahead_range|]. split; [done|].
    rewrite ahead_slot_ahead by (unfold MAX_PROCESSES; lia). intros k Hk.
    specialize (Hlow k Hk). by rewrite Hrem in Hlow by lia.
  - right. split; [done|]. rewrite find_first_None in E. intros j Hj.
    pose proof (ahead_range s j). specialize (E (ahead s j) ltac:(unfold MAX_PROCESSES in *; lia)).
    rewrite Hrem in E by lia. by rewrite slot_ahead_ahead in E.
Qed.

(** No ready slot lies between the current slot and the one chosen. *)
Lemma find_next_least s i :
  procs_wf s -> in_table i -> is_ready (pcb_at s i) = true ->
  in_table (find_next s) /\ is_ready (pcb_at s (find_next s)) = true /\ ahead s (find_next s) <= ahead s i.
Proof.
  intros Hw Hi Hr. destruct (find_next_cases s Hw) as [(Hn & Hrn & Hlow)|[_ Hno]]; [|by rewrite Hno in Hr].
  split; [done|]. split; [done|]. destruct (Z.le_gt_cases (ahead s (find_next s)) (ahead s i)) as [|Hgt]; [done|].
  pose proof (ahead_range s i). specialize (Hlow (ahead s i) ltac:(lia)).
  by rewrite slot_ahead_ahead, Hr in Hlow.
Qed.

Section scheduler.
Context `{BootInfo} (kernel_space : address_space).

(** The PCB of the interrupted process with its registers saved. *)
Definition preempt (frame : Registers) (b : PCB) : PCB :=
  if bool_decide (state b = PROC_RUNNING) then set_state PROC_READY (set_context frame b)
  else set_context frame b.

Lemma switch_to_wf i s : procs_wf s -> in_table i -> procs_wf (switch_to kernel_space i s).
Proof.
  intros [Hl Hc] Hi. unfold in_table in Hi. unfold switch_to, set_cpu, upd, set_table, set_current.
  split; cbn [proc_table current_proc]; [by rewrite length_aset|lia].
Qed.

Lemma switch_to_at i s j :
  procs_wf s -> in_table i ->
  pcb_at (switch_to kernel_space i s) j = if j =? i then set_state PROC_RUNNING (pcb_at s i) else pcb_at s j.
Proof.
  intros [Hl _] Hi. unfold in_table in Hi. change (pcb_at (switch_to kernel_space i s) j)
    with (aget null_pcb (aset (proc_table s) i (set_state PROC_RUNNING (pcb_at s i))) j).
  destruct (Z.eqb_spec j i) as [->|Hne]; [apply aget_aset_eq; lia|apply aget_aset_ne; lia].
Qed.

Lemma switch_to_current i s : current_proc (switch_to kernel_space i s) = i.
Proof. done. Qed.

(** What one interrupt of the scheduler does. *)
Lemma schedule_cases frame s :
  procs_wf s -> scheduling_enabled s = true ->
  exists s1, procs_wf s1 /\ current_proc s1 = current_proc s /\ scheduling_enabled s1 = true /\
    next_pid s1 = next_pid s /\ mach s1 = mach s /\
    (forall j, pcb_at s1 j =
       if (j =? current_proc s) && (0 <=? current_proc s) && negb (is_unused (pcb_at s j))
       then preempt frame (pcb_at s j) else pcb_at s j) /\
    proc_schedule_interrupt kernel_space frame s =
      if find_next s1 <? 0 then (s1, frame)
      else (switch_to kernel_space (find_next s1) s1, context (pcb_at s1 (find_next s1))).
Proof.
  intros Hw He. unfold proc_schedule_interrupt. rewrite He. cbn [negb].
  match goal with |- context [find_next ?x] => set (s1 := x) end. exists s1.
  assert (Hat : forall j, pcb_at s1 j =
       if (j =? current_proc s) && (0 <=? current_proc s) && negb (is_unused (pcb_at s j))
       then preempt frame (pcb_at s j) else pcb_at s j).
  { intros j. unfold s1. destruct (Z.leb_spec 0 (current_proc s)) as [Hc|Hc]; cbn [andb]; [|by rewrite andb_false_r].
    rewrite andb_true_r. destruct (is_unused (pcb_at s (current_proc s))) eqn:Eu; cbn [negb].
    - destruct (Z.eqb_spec j (current_proc s)) as [->|]; [by rewrite Eu|done].
    - rewrite pcb_at_upd by (done || (split; [lia|by apply Hw])).
      destruct (Z.eqb_spec j (current_proc s)) as [->|]; [|done]. by rewrite Eu. }
  assert (Hrest : procs_wf s1 /\ current_proc s1 = current_proc s /\ scheduling_enabled s1 = true /\
    next_pid s1 = next_pid s /\ mach s1 = mach s).
  { unfold s1. destruct (_ && _); [|done]. split; [by apply upd_wf|done]. }
  destruct Hrest as (Hw1 & Hc1 & He1 & Hn1 & Hm1). split_and!; try done.
  destruct (Z.ltb_spec (find_next s1) 0); [done|]. f_equal.
  destruct (find_next_cases s1 Hw1) as [(Hi & _)|[E _]]; [|lia].
  rewrite switch_to_at by done. by rewrite Z.eqb_refl.
Qed.
End scheduler.

(** ** Fairness

    [sched_run i s n s']: from [s], [n] interrupts of the scheduler lead to
    [s'] without any giving the CPU to slot [i]; before each one the running
    process may have done anything that leaves [i] ready and the scheduler
    on. *)
Section fairness.
Context `{BootInfo} (kernel_space : address_space).

Record quiet (i : Z) (s s' : procs) : Prop := {
  q_wf : procs_wf s'; q_current : current_proc s' = current_proc s;
  q_enabled : scheduling_enabled s' = scheduling_enabled s;
  q_ready : is_ready (pcb_at s i) = true -> is_ready (pcb_at s' i) = true
}.

Inductive sched_run (i : Z) (s : procs) : nat -> procs -> Prop :=
| run_start : sched_run i s O s
| run_tick n s1 s2 frame :
    sched_run i s n s1 -> quiet i s1 s2 ->
    current_proc (fst (proc_schedule_interrupt kernel_space frame s2)) <> i ->
    sched_run i s (S n) (fst (proc_schedule_interrupt kernel_space frame s2)).

Lemma preempt_ready frame b : is_ready b = true -> is_ready (preempt frame b) = true.
Proof.
  unfold is_ready, preempt. rewrite bool_decide_eq_true. intros Hb.
  destruct (bool_decide (state b = PROC_RUNNING)); by apply bool_decide_eq_true.
Qed.

(** An interrupt that does not choose a ready slot brings it nearer. *)
Lemma tick_nearer i frame s :
  procs_wf s -> scheduling_enabled s = true -> in_table i -> is_ready (pcb_at s i) = true ->
  let s' := fst (proc_schedule_interrupt kernel_space frame s) in
  current_proc s' <> i ->
  procs_wf s' /\ scheduling_enabled s' = true /\ is_ready (pcb_at s' i) = true /\ ahead s' i < ahead s i.
Proof.
  intros Hw He Hi Hr. cbv zeta.
  destruct (schedule_cases kernel_space frame s Hw He) as (s1 & Hw1 & Hc1 & He1 & _ & _ & Hat & ->).
  assert (Hr1 : is_ready (pcb_at s1 i) = true).
  { rewrite Hat. destruct (_ && _); [by apply preempt_ready|done]. }
  destruct (find_next_least s1 i Hw1 Hi Hr1) as (Hn & _ & Hle). pose proof (proj1 Hn) as Hn0.
  destruct (Z.ltb_spec (find_next s1) 0); [lia|]. cbn [fst]. rewrite switch_to_current. intros Hne.
  split_and!; [by apply switch_to_wf|done| |].
  - rewrite switch_to_at by done. by destruct (Z.eqb_spec i (find_next s1)).
  - assert (Ea : ahead (switch_to kernel_space (find_next s1) s1) i = (i - find_next s1 - 1) mod MAX_PROCESSES + 1) by done.
    rewrite Ea. revert Hle. unfold ahead, in_table, MAX_PROCESSES in *. rewrite Hc1. destruct Hw as [_ Hc].
    generalize dependent (find_next s1). intros n Hn Hn0 _ Hne _ Hle. unfold MAX_PROCESSES in Hc. zdiv_lia.
Qed.

Lemma sched_run_nearer i s n s' :
  procs_wf s -> scheduling_enabled s = true -> in_table i -> is_ready (pcb_at s i) = true ->
  sched_run i s n s' ->
  procs_wf s' /\ scheduling_enabled s' = true /\ is_ready (pcb_at s' i) = true /\
  ahead s' i + Z.of_nat n <= ahead s i.
Proof.
  intros Hw He Hi Hr. induction 1 as [|n s1 s2 frame _ (Hw1 & He1 & Hr1 & Ha) [Qw Qc Qe Qr] Hne].
  - split_and!; (done || lia).
  - destruct (tick_nearer i frame s2) as (Hw' & He' & Hr' & Ha'); [done|congruence|done|by apply Qr|done|].
    split_and!; [done|done|done|]. assert (ahead s2 i = ahead s1 i) by (unfold ahead; by rewrite Qc). lia.
Qed.
End fairness.

(** ** Properties: scheduling *)
Section scheduling_properties.
Context `{BootInfo} (kernel_space : address_space).

(** C5: no ready process is passed over for ever: whatever the processes that
    run in between do, as long as the process in slot [i] stays ready the
    64th interrupt of the scheduler at the latest gives it the CPU - after at
    most as many as there are slots from the current one to [i]. *)
Theorem scheduler_fair i s n s' :
  procs_wf s -> scheduling_enabled s = true -> in_table i -> is_ready (pcb_at s i) = true ->
  sched_run kernel_space i s n s' ->
  Z.of_nat n < ahead s i <= MAX_PROCESSES /\
  forall frame, let s2 := fst (proc_schedule_interrupt kernel_space frame s') in
    current_proc s2 = i \/ ahead s2 i < ahead s' i.
Proof.
  intros Hw He Hi Hr Hrun. destruct (sched_run_nearer kernel_space i s n s' Hw He Hi Hr Hrun) as (Hw' & He' & Hr' & Ha).
  pose proof (ahead_range s i). pose proof (ahead_range s' i). split; [lia|].
  intros frame s2. destruct (decide (current_proc s2 = i)); [by left|right]. by apply tick_nearer.
Qed.

(** an interrupt of the scheduler saves the registers of the process it
    interrupts, makes it ready again if it was running, marks the next ready
    process going round as running, loads its registers, its page tables and
    its kernel stack, and touches no other process; with no process ready it
    changes nothing but the saved registers. *)
Theorem schedule_switches frame s c :
  procs_wf s -> scheduling_enabled s = true -> current_proc s = c -> 0 <= c ->
  state (pcb_at s c) = PROC_RUNNING ->
  let '(s', regs) := proc_schedule_interrupt kernel_space frame s in
  let n := current_proc s' in
  context (pcb_at s' c) = frame /\ in_table n /\ state (pcb_at s' n) = PROC_RUNNING /\
  (n <> c -> state (pcb_at s' c) = PROC_READY) /\
  regs = (if n =? c then frame else context (pcb_at s n)) /\
  cr3 s' = space_pml4 kernel_space (pcb_space (pcb_at s n)) (mach s) /\
  tss_rsp0 s' = kernel_stack_top (pcb_at s n) /\
  (forall k, 1 <= k < ahead s n -> is_ready (pcb_at s (slot_ahead s k)) = false) /\
  (n <> c -> is_ready (pcb_at s n) = true) /\
  forall j, j <> c -> j <> n -> pcb_at s' j = pcb_at s j.
Proof.
  intros Hw He Hc Hc0 Hrun.
  destruct (schedule_cases kernel_space frame s Hw He) as (s1 & Hw1 & Hc1 & He1 & _ & Hm1 & Hat & ->).
  assert (Hpre : forall j, pcb_at s1 j = if j =? c then set_state PROC_READY (set_context frame (pcb_at s c)) else pcb_at s j).
  { intros j. rewrite Hat, Hc. destruct (Z.eqb_spec j c) as [->|]; [|done]. destruct (Z.leb_spec 0 c); [|lia].
    unfold is_unused, preempt. by rewrite Hrun. }
  assert (Hci : in_table c) by (unfold in_table; destruct Hw; lia).
  assert (Hcr : is_ready (pcb_at s1 c) = true).
  { rewrite Hpre, Z.eqb_refl. by apply bool_decide_eq_true. }
  destruct (find_next_cases s1 Hw1) as [(Hn & Hrn & Hlow)|[_ Hno]]; [|by rewrite Hno in Hcr].
  pose proof (proj1 Hn) as Hn0. destruct (Z.ltb_spec (find_next s1) 0); [lia|]. rewrite switch_to_current.
  assert (Ea : forall j, ahead s1 j = ahead s j) by (intros; unfold ahead; by rewrite Hc1).
  assert (Es : forall k, slot_ahead s1 k = slot_ahead s k) by (intros; unfold slot_ahead; by rewrite Hc1).
  rewrite Ea in Hlow.
  assert (Hsw : forall j, pcb_at (switch_to kernel_space (find_next s1) s1) j =
     if j =? find_next s1 then set_state PROC_RUNNING (pcb_at s1 (find_next s1)) else pcb_at s1 j)
    by (intros; by apply switch_to_at).
  assert (Hspace : space (pcb_at s1 (find_next s1)) = space (pcb_at s (find_next s1)) /\
    kernel_stack_top (pcb_at s1 (find_next s1)) = kernel_stack_top (pcb_at s (find_next s1))).
  { rewrite Hpre. destruct (Z.eqb_spec (find_next s1) c) as [->|]; done. }
  assert (Hcr3 : cr3 (switch_to kernel_space (find_next s1) s1) = space_pml4 kernel_space (pcb_space (pcb_at s (find_next s1))) (mach s)).
  { change (cr3 (switch_to kernel_space (find_next s1) s1)) with
      (vmm_switch_space kernel_space (pcb_space (pcb_at (upd (find_next s1) (set_state PROC_RUNNING) (set_current (find_next s1) s1)) (find_next s1))) (mach s1) (cr3 s1)).
    rewrite Hm1. change (pcb_at (upd (find_next s1) (set_state PROC_RUNNING) (set_current (find_next s1) s1)) (find_next s1))
      with (pcb_at (switch_to kernel_space (find_next s1) s1) (find_next s1)). rewrite Hsw, Z.eqb_refl.
    unfold pcb_space. cbn [set_state space]. destruct Hspace as [-> _]. by destruct (space (pcb_at s (find_next s1))). }
  split_and!.
  - rewrite Hsw. destruct (Z.eqb_spec c (find_next s1)) as [<-|]; rewrite Hpre, Z.eqb_refl; done.
  - apply Hn.
  - rewrite Hsw, Z.eqb_refl. done.
  - intros Hne. rewrite Hsw. destruct (Z.eqb_spec c (find_next s1)); [lia|]. by rewrite Hpre, Z.eqb_refl.
  - rewrite Hpre. by destruct (find_next s1 =? c).
  - exact Hcr3.
  - change (tss_rsp0 (switch_to kernel_space (find_next s1) s1)) with
      (kernel_stack_top (pcb_at (switch_to kernel_space (find_next s1) s1) (find_next s1))).
    rewrite Hsw, Z.eqb_refl. apply Hspace.
  - intros k Hk. specialize (Hlow k Hk). rewrite Es, Hpre in Hlow.
    destruct (Z.eqb_spec (slot_ahead s k) c) as [E|]; [|done]. unfold is_ready. rewrite E, Hrun. by apply bool_decide_eq_false.
  - intros Hne. rewrite Hpre in Hrn. by destruct (Z.eqb_spec (find_next s1) c).
  - intros j Hjc Hjn. rewrite Hsw. destruct (Z.eqb_spec j (find_next s1)); [done|]. rewrite Hpre. by destruct (Z.eqb_spec j c).
Qed.

(** a process that is interrupted gets its registers back, every one of
    them: whatever runs in between, if its PCB is left alone then the interrupt
    that gives it the CPU again returns the frame that was saved. *)
Theorem preempted_resumes frame s c s2 frame2 :
  procs_wf s -> scheduling_enabled s = true -> current_proc s = c -> 0 <= c ->
  state (pcb_at s c) = PROC_RUNNING ->
  (let s1 := fst (proc_schedule_interrupt kernel_space frame s) in
   current_proc s1 <> c /\ pcb_at s2 c = pcb_at s1 c) ->
  procs_wf s2 -> scheduling_enabled s2 = true -> current_proc s2 <> c ->
  current_proc (fst (proc_schedule_interrupt kernel_space frame2 s2)) = c ->
  snd (proc_schedule_interrupt kernel_space frame2 s2) = frame.
Proof.
  intros Hw He Hc Hc0 Hrun [Hne1 Hsame] Hw2 He2 Hne2 Hback.
  destruct (schedule_cases kernel_space frame s Hw He) as (s1 & Hw1 & Hc1 & _ & _ & _ & Hat & E1).
  destruct (schedule_cases kernel_space frame2 s2 Hw2 He2) as (t1 & Hwt & Hct & _ & _ & _ & Hatt & E2).
  rewrite E1 in Hne1, Hsame. rewrite E2 in Hback |- *.
  destruct (Z.ltb_spec (find_next t1) 0); cbn [fst snd] in *; [congruence|].
  rewrite switch_to_current in Hback. rewrite Hback, Hatt.
  destruct (Z.eqb_spec c (current_proc s2)); [congruence|]. cbn [andb]. rewrite Hsame.
  destruct (Z.ltb_spec (find_next s1) 0); cbn [fst] in *; [congruence|]. rewrite switch_to_current in Hne1.
  destruct (find_next_cases s1 Hw1) as [(Hn & _)|[E _]]; [|lia].
  rewrite switch_to_at by done. destruct (Z.eqb_spec c (find_next s1)); [congruence|].
  rewrite Hat, Hc, Z.eqb_refl. destruct (Z.leb_spec 0 c); [|lia]. unfold is_unused, preempt. by rewrite Hrun.
Qed.
End scheduling_properties.

(** ** Witnesses: four processes, the third running *)
#[local] Existing Instance limine_boot.
Definition demo_pcb (pid ppid wait : Z) (st : ProcState) (r : Z) : PCB :=
  mkPCB (mkProc pid ppid 0 0 wait 0 PROC_TYPE_KERNEL 0 0 0 0 0 0) st (set_rax r zero_regs) AS_NULL (4096 * pid)
    no_layout (-1) [47].
Definition demo_procs : procs :=
  mkProcs ([demo_pcb 1 0 NO_PID PROC_READY 10; demo_pcb 2 1 3 PROC_BLOCKED 20;
            demo_pcb 3 2 NO_PID PROC_RUNNING 30; demo_pcb 4 3 NO_PID PROC_READY 40] ++ replicate 60 null_pcb)
    2 5 true USER_CODE_BASE 0 small_machine 0x7000 0.
Definition demo_kernel : address_space := vmm_init 0x7000.

Lemma demo_procs_wf : procs_wf demo_procs.
Proof. by split. Qed.

Lemma scheduler_fair_witness :
  is_ready (pcb_at demo_procs 0) = true /\
  exists s', sched_run demo_kernel 0 demo_procs 1 s' /\ current_proc s' = 3 /\ 1 < ahead demo_procs 0.
Proof.
  split; [reflexivity|].
  assert (Hrun : sched_run demo_kernel 0 demo_procs 1 (fst (proc_schedule_interrupt demo_kernel zero_regs demo_procs))).
  { eapply run_tick; [apply run_start| |vm_compute; discriminate]. split; [exact demo_procs_wf|done|done|done]. }
  exists (fst (proc_schedule_interrupt demo_kernel zero_regs demo_procs)).
  destruct (scheduler_fair demo_kernel 0 demo_procs 1 _ demo_procs_wf eq_refl ltac:(done) eq_refl Hrun) as [[H _] _].
  split; [exact Hrun|]. split; [vm_compute; reflexivity|exact H].
Defined.

Lemma schedule_switches_witness :
  exists s' r, proc_schedule_interrupt demo_kernel zero_regs demo_procs = (s', r) /\ current_proc s' = 3 /\
    context (pcb_at s' 2) = zero_regs /\ r = context (pcb_at demo_procs 3).
Proof.
  pose proof (schedule_switches demo_kernel zero_regs demo_procs 2 demo_procs_wf eq_refl eq_refl ltac:(done) eq_refl) as H.
  destruct (proc_schedule_interrupt demo_kernel zero_regs demo_procs) as [s' r] eqn:E.
  assert (Hc : current_proc s' = 3).
  { change s' with (fst (s', r)). rewrite <- E. vm_compute. reflexivity. }
  exists s', r. rewrite Hc in H. destruct H as (H1 & _ & _ & _ & H2 & _).
  split; [reflexivity|]. split; [exact Hc|]. split; [exact H1|]. exact H2.
Defined.

Lemma preempted_resumes_witness :
  let s1 := fst (proc_schedule_interrupt demo_kernel (set_rax 7 zero_regs) demo_procs) in
  let s2 := fst (proc_schedule_interrupt demo_kernel zero_regs s1) in
  current_proc s2 = 0 /\ snd (proc_schedule_interrupt demo_kernel (set_rax 8 zero_regs) s2) = set_rax 7 zero_regs.
Proof.
  cbv zeta. split; [vm_compute; reflexivity|].
  apply (preempted_resumes demo_kernel (set_rax 7 zero_regs) demo_procs 2).
  - exact demo_procs_wf.
  - reflexivity.
  - reflexivity.
  - discriminate.
  - reflexivity.
  - split; [vm_compute; discriminate|vm_compute; reflexivity].
  - split; [vm_compute; reflexivity|vm_compute; split; [discriminate|reflexivity]].
  - vm_compute. reflexivity.
  - vm_compute. discriminate.
  - vm_compute. reflexivity.
Defined.
