(* ===== verification/ProcTree.v ===== *)
(** * Process trees, exit and wait

    The invariant of the process table, the exact set of processes that
    [proc_kill_children] removes, and the protocol between a child that exits
    and a parent that waits for it. *)

From S2P Require Import Prelude PhysMem Pmm Vmm User ProcMem Proc Scheduler.
From stdpp Require Import strings.
#[local] Open Scope Z_scope.

(** ** Removing a subtree *)

(** [descends s p j]: slot [j] holds a live process whose chain of live
    parents reaches the process with PID [p]. *)
Inductive descends (s : procs) (p : Z) : Z -> Prop :=
| desc_child j : in_table j -> live (pcb_at s j) = true -> PPID (proc (pcb_at s j)) = p -> descends s p j
| desc_step j k : in_table j -> live (pcb_at s j) = true -> descends s p k ->
    PPID (proc (pcb_at s j)) = PID (proc (pcb_at s k)) -> descends s p j.

(** Parents are older than their children: the PIDs grow down the tree. *)
Definition parents_older (s : procs) : Prop :=
  forall j, in_table j -> live (pcb_at s j) = true -> PPID (proc (pcb_at s j)) < PID (proc (pcb_at s j)).

(** The fields [proc_kill_children] keeps. *)
Record same_frame (s s' : procs) : Prop := {
  sf_wf : procs_wf s'; sf_current : current_proc s' = current_proc s; sf_next : next_pid s' = next_pid s;
  sf_enabled : scheduling_enabled s' = scheduling_enabled s; sf_cr3 : cr3 s' = cr3 s;
  sf_tss : tss_rsp0 s' = tss_rsp0 s
}.
Lemma same_frame_trans s1 s2 s3 : same_frame s1 s2 -> same_frame s2 s3 -> same_frame s1 s3.
Proof. intros [] []. split; [done|congruence..]. Qed.

(** The live processes with a PID above [p]. *)
Definition younger (s : procs) (p : Z) : Z :=
  count_below (fun j => live (pcb_at s j) && (p <? PID (proc (pcb_at s j)))) (Z.to_nat MAX_PROCESSES).

Lemma count_below_mono p q n :
  (forall i, 0 <= i < Z.of_nat n -> p i = true -> q i = true) -> count_below p n <= count_below q n.
Proof.
  induction n as [|n IH]; intros H; cbn [count_below]; [lia|].
  assert (Hm : count_below p n <= count_below q n) by (apply IH; intros i Hi; apply H; lia).
  specialize (H (Z.of_nat n) ltac:(lia)).
  destruct (p (Z.of_nat n)), (q (Z.of_nat n)); lia.
Qed.
Lemma count_below_strict p q n k :
  (forall i, 0 <= i < Z.of_nat n -> p i = true -> q i = true) ->
  0 <= k < Z.of_nat n -> p k = false -> q k = true -> count_below p n < count_below q n.
Proof.
  induction n as [|n IH]; intros H Hk Hp Hq; [lia|]. cbn [count_below].
  assert (Hm : forall i, 0 <= i < Z.of_nat n -> p i = true -> q i = true) by (intros i Hi; apply H; lia).
  pose proof (count_below_mono p q n Hm). specialize (H (Z.of_nat n) ltac:(lia)).
  destruct (decide (k = Z.of_nat n)) as [->|].
  - rewrite Hp, Hq. lia.
  - specialize (IH Hm ltac:(lia) Hp Hq). destruct (p (Z.of_nat n)), (q (Z.of_nat n)); lia.
Qed.

Section kill.
Context `{BootInfo} (kernel_space : address_space).

Lemma clear_pcb_idemp b : clear_pcb (clear_pcb b) = clear_pcb b.
Proof. done. Qed.
Lemma clear_pcb_dead b : live (clear_pcb b) = false.
Proof. done. Qed.

Lemma discard_at i s j :
  procs_wf s -> in_table i ->
  pcb_at (discard kernel_space i s) j = if j =? i then clear_pcb (pcb_at s i) else pcb_at s j.
Proof.
  intros Hw Hi. unfold discard. rewrite pcb_at_upd by (done || by destruct Hw). done.
Qed.
Lemma discard_frame i s : procs_wf s -> same_frame s (discard kernel_space i s).
Proof. intros Hw. split; try done. unfold discard. apply upd_wf. by destruct Hw. Qed.

(** Some live processes of [s] were removed, all of them in [D]. *)
Record removed (s s' : procs) (D : Z -> Prop) : Prop := {
  rm_frame : same_frame s s';
  rm_at : forall j, in_table j ->
    pcb_at s' j = pcb_at s j \/ (pcb_at s' j = clear_pcb (pcb_at s j) /\ live (pcb_at s j) = true /\ D j)
}.
Definition gone (s s' : procs) (k : Z) : Prop :=
  in_table k /\ live (pcb_at s k) = true /\ live (pcb_at s' k) = false.

Lemma removed_refl s D : procs_wf s -> removed s s D.
Proof. intros Hw. split; [by split|]. intros. by left. Qed.

Lemma removed_live s s' D j : removed s s' D -> in_table j -> live (pcb_at s' j) = true -> pcb_at s' j = pcb_at s j.
Proof.
  intros [_ Hat] Hj Hl. destruct (Hat j Hj) as [|(E & _)]; [done|]. rewrite E, clear_pcb_dead in Hl. done.
Qed.

Lemma removed_descends s s' D p j : removed s s' D -> descends s' p j -> descends s p j.
Proof.
  intros Hr. induction 1 as [j Hj Hl Hp|j k Hj Hl Hk IH Hp].
  - pose proof (removed_live s s' D j Hr Hj Hl) as E. rewrite E in Hl, Hp. by apply desc_child.
  - assert (Hkl : in_table k /\ live (pcb_at s' k) = true) by (destruct Hk; done).
    pose proof (removed_live s s' D j Hr Hj Hl) as E. rewrite E in Hl, Hp.
    rewrite (removed_live s s' D k) in Hp by tauto. by eapply desc_step.
Qed.

Lemma removed_trans s1 s2 s3 D1 D2 :
  removed s1 s2 D1 -> removed s2 s3 D2 -> removed s1 s3 (fun j => D1 j \/ D2 j).
Proof.
  intros R1 R2. split; [eapply same_frame_trans; [apply R1|apply R2]|]. intros j Hj.
  destruct (rm_at _ _ _ R2 j Hj) as [->|(-> & Hl & HD)].
  - destruct (rm_at _ _ _ R1 j Hj) as [|(-> & Hl & HD)]; [by left|right; tauto].
  - pose proof (removed_live s1 s2 D1 j R1 Hj Hl) as E. rewrite E in Hl |- *. right. tauto.
Qed.
Lemma removed_mono s s' (D D' : Z -> Prop) : (forall j, D j -> D' j) -> removed s s' D -> removed s s' D'.
Proof. intros Hm [Hf Hat]. split; [done|]. intros j Hj. destruct (Hat j Hj) as [|(? & ? & ?)]; [by left|right; auto]. Qed.

Lemma removed_older s s' D : parents_older s -> removed s s' D -> parents_older s'.
Proof. intros Ho R j Hj Hl. rewrite (removed_live s s' D) in Hl |- * by done. by apply Ho. Qed.

Lemma removed_younger s s' D p : removed s s' D -> younger s' p <= younger s p.
Proof.
  intros R. apply count_below_mono. intros i Hi Hl. apply andb_true_iff in Hl as [Hl Hp].
  pose proof (removed_live s s' D i R Hi Hl) as E. rewrite E in Hl, Hp. by rewrite Hl, Hp.
Qed.

Lemma younger_strict s i p :
  in_table i -> live (pcb_at s i) = true -> p < PID (proc (pcb_at s i)) ->
  younger s (PID (proc (pcb_at s i))) < younger s p.
Proof.
  intros Hi El Hp. unfold younger. apply (count_below_strict _ _ _ i).
  - intros j _ Hj. apply andb_true_iff in Hj as [-> Hj]. apply Z.ltb_lt in Hj. cbn [andb]. apply Z.ltb_lt. lia.
  - exact Hi.
  - rewrite El. cbn [andb]. apply Z.ltb_ge. lia.
  - rewrite El. cbn [andb]. by apply Z.ltb_lt.
Qed.

(** Nothing that hangs below [p] or below a removed process is left among the
    slots in [S]. *)
Definition cut (s s' : procs) (p : Z) (S : Z -> Prop) : Prop :=
  (forall j, in_table j -> S j -> live (pcb_at s' j) = true -> PPID (proc (pcb_at s' j)) <> p) /\
  (forall j k, in_table j -> live (pcb_at s' j) = true -> gone s s' k ->
     PPID (proc (pcb_at s' j)) <> PID (proc (pcb_at s k))).

Lemma descends_below s p q j :
  descends s q j -> (exists i, descends s p i /\ PID (proc (pcb_at s i)) = q) -> descends s p j.
Proof.
  intros Hd (i & Hi & Eq). induction Hd as [j Hj Hl Hp|j k Hj Hl Hk IH Hp].
  - apply (desc_step s p j i); [done|done|done|congruence].
  - by apply (desc_step s p j k).
Qed.

Lemma discard_removed i s (D : Z -> Prop) :
  procs_wf s -> in_table i -> live (pcb_at s i) = true -> D i -> removed s (discard kernel_space i s) D.
Proof.
  intros Hw Hi Hl HD. split; [by apply discard_frame|]. intros j _. rewrite discard_at by done.
  destruct (Z.eqb_spec j i) as [->|]; [by right|by left].
Qed.

(** Discarding slot [i] whether it is still live or not. *)
Lemma discard_after s s1 s2 i (D D2 : Z -> Prop) :
  removed s s1 D -> in_table i -> live (pcb_at s1 i) = true -> D i ->
  removed s1 s2 D2 -> (forall j, D2 j -> D j) -> removed s (discard kernel_space i s2) D.
Proof.
  intros R1 Hi Hl HD R2 Hm. pose proof (sf_wf _ _ (rm_frame _ _ _ R2)) as Hw2.
  pose proof (removed_mono _ _ _ D (fun j H => match H with or_introl a => a | or_intror b => Hm j b end)
    (removed_trans _ _ _ _ _ R1 R2)) as R. destruct R as [Hf Hat]. split.
  - eapply same_frame_trans; [exact Hf|]. by apply discard_frame.
  - intros j Hj. rewrite discard_at by done. destruct (Z.eqb_spec j i) as [->|]; [|by apply Hat].
    right. pose proof (removed_live s s1 D i R1 Hi Hl) as E. rewrite E in Hl.
    destruct (Hat i Hi) as [->|(-> & _)]; by rewrite ?clear_pcb_idemp.
Qed.

(** One turn of the loop that finds a child in slot [i]. *)
Lemma kill_step s s1 s2 i p :
  removed s s1 (descends s p) -> cut s s1 p (fun j => j < i) ->
  in_table i -> live (pcb_at s1 i) = true -> PPID (proc (pcb_at s1 i)) = p ->
  removed s1 s2 (descends s1 (PID (proc (pcb_at s1 i)))) ->
  cut s1 s2 (PID (proc (pcb_at s1 i))) (fun _ => True) ->
  removed s (discard kernel_space i s2) (descends s p) /\
  cut s (discard kernel_space i s2) p (fun j => j < i + 1).
Proof.
  intros R1 [C1 C2] Hi Hl Hp R2 [K1 K2].
  pose proof (removed_live s s1 _ i R1 Hi Hl) as Ei.
  assert (Hdi : descends s p i) by (rewrite Ei in Hl, Hp; by apply desc_child).
  assert (Hsub : forall j, descends s1 (PID (proc (pcb_at s1 i))) j -> descends s p j).
  { intros j Hj. apply (removed_descends _ _ _ _ _ R1) in Hj. eapply descends_below; [exact Hj|].
    exists i. by rewrite Ei. }
  split; [by eapply discard_after|].
  pose proof (sf_wf _ _ (rm_frame _ _ _ R2)) as Hw2.
  assert (Hback : forall j, in_table j -> live (pcb_at (discard kernel_space i s2) j) = true ->
    j <> i /\ pcb_at (discard kernel_space i s2) j = pcb_at s2 j /\ live (pcb_at s2 j) = true /\
    pcb_at s2 j = pcb_at s1 j).
  { intros j Hj Hlj. rewrite discard_at in Hlj |- * by done. destruct (Z.eqb_spec j i); [done|].
    split_and!; try done. by eapply removed_live. }
  split.
  - intros j Hj Hlt Hlj. destruct (Hback j Hj Hlj) as (Hne & -> & Hl2 & E12). rewrite E12 in Hl2 |- *.
    apply C1; [done|lia|done].
  - intros j k Hj Hlj (Hk & Hks & Hkd). destruct (Hback j Hj Hlj) as (Hne & -> & Hl2 & E12).
    destruct (live (pcb_at s1 k)) eqn:Elk.
    + pose proof (removed_live s s1 _ k R1 Hk Elk) as Ek. rewrite <- Ek.
      rewrite discard_at in Hkd by done. destruct (Z.eqb_spec k i) as [->|].
      * by apply K1.
      * apply K2; [done|done|by split].
    + rewrite E12 in Hl2 |- *. apply C2; [done|done|by split].
Qed.

Definition kill_turn (rec : Z -> procs -> procs) (p i : Z) (s : procs) : procs :=
  let child := pcb_at s i in
  if negb (live child) then s
  else if negb (PPID (proc child) =? p) then s
  else discard kernel_space i (rec (PID (proc child)) s).
Lemma kill_children_S fuel p s :
  proc_kill_children kernel_space (S fuel) p s =
    for_range (kill_turn (proc_kill_children kernel_space fuel) p) 0 (Z.to_nat MAX_PROCESSES) s.
Proof. reflexivity. Qed.

Lemma younger_range s p : 0 <= younger s p <= MAX_PROCESSES.
Proof. apply count_below_range. Qed.

(** What a loop that has done the slots below [i] guarantees, and a turn of
    it, given the recursive call. *)
Definition killed_upto (s : procs) (p i : Z) (s' : procs) : Prop :=
  removed s s' (descends s p) /\ cut s s' p (fun j => j < i).

Lemma kill_turn_spec (rec : Z -> procs -> procs) s p i s1 :
  (forall q s1, procs_wf s1 -> parents_older s1 -> younger s1 q < younger s p ->
     removed s1 (rec q s1) (descends s1 q) /\ cut s1 (rec q s1) q (fun _ => True)) ->
  parents_older s -> in_table i -> killed_upto s p i s1 -> killed_upto s p (i + 1) (kill_turn rec p i s1).
Proof.
  intros IH Ho Hit [R1 [C1 C2]]. unfold kill_turn. destruct (live (pcb_at s1 i)) eqn:El; cbn [negb].
  2: { split; [done|]. split; [|done]. intros j Hj Hlt Hlj. apply C1; [done| |done].
       destruct (decide (j = i)) as [->|]; [congruence|lia]. }
  destruct (Z.eqb_spec (PPID (proc (pcb_at s1 i))) p) as [Ep|Ep]; cbn [negb].
  2: { split; [done|]. split; [|done]. intros j Hj Hlt Hlj.
       destruct (decide (j = i)) as [->|]; [done|]. apply C1; [done|lia|done]. }
  pose proof (removed_older _ _ _ Ho R1) as Ho1. pose proof (sf_wf _ _ (rm_frame _ _ _ R1)) as Hw1.
  destruct (IH (PID (proc (pcb_at s1 i))) s1 Hw1 Ho1) as [R2 C2'].
  - pose proof (removed_younger s s1 _ p R1) as Hy.
    pose proof (younger_strict s1 i p Hit El) as Hs. rewrite <- Ep in Hs at 1. specialize (Hs (Ho1 i Hit El)). lia.
  - apply (kill_step s s1); try assumption. by split.
Qed.

Lemma kill_loop_spec (rec : Z -> procs -> procs) s p n :
  (forall q s1, procs_wf s1 -> parents_older s1 -> younger s1 q < younger s p ->
     removed s1 (rec q s1) (descends s1 q) /\ cut s1 (rec q s1) q (fun _ => True)) ->
  procs_wf s -> parents_older s -> Z.of_nat n = MAX_PROCESSES ->
  let s' := for_range (kill_turn rec p) 0 n s in
  removed s s' (descends s p) /\ cut s s' p (fun _ => True).
Proof.
  intros IH Hw Ho En. cbv zeta.
  destruct (for_range_ind (killed_upto s p) (kill_turn rec p) n 0 s) as [R [C1 C2]].
  - split; [by apply removed_refl|]. split.
    + intros j Hj Hlt. unfold in_table in Hj. lia.
    + intros j k _ _ (_ & Hl & Hd). congruence.
  - intros i s1 Hi H1. apply kill_turn_spec; try assumption. unfold in_table. lia.
  - split; [exact R|]. split; [|exact C2]. intros j Hj _ Hl. apply C1; try assumption.
    unfold in_table in Hj. lia.
Qed.

Lemma kill_children_spec fuel : forall p s,
  procs_wf s -> parents_older s -> younger s p < Z.of_nat fuel ->
  removed s (proc_kill_children kernel_space fuel p s) (descends s p) /\
  cut s (proc_kill_children kernel_space fuel p s) p (fun _ => True).
Proof.
  induction fuel as [|fuel IH]; intros p s Hw Ho Hf.
  { pose proof (younger_range s p). lia. }
  rewrite kill_children_S. apply kill_loop_spec; [|exact Hw|exact Ho|reflexivity].
  intros q s1 Hw1 Ho1 Hq. apply IH; [exact Hw1|exact Ho1|lia].
Qed.

(** Exactly the descendants go. *)
Lemma kill_children_cases p s :
  procs_wf s -> parents_older s ->
  let s' := kill_children kernel_space p s in
  same_frame s s' /\
  forall j, in_table j ->
    (descends s p j -> pcb_at s' j = clear_pcb (pcb_at s j)) /\
    (~ descends s p j -> pcb_at s' j = pcb_at s j).
Proof.
  intros Hw Ho. cbv zeta. unfold kill_children.
  destruct (kill_children_spec (S (Z.to_nat MAX_PROCESSES)) p s Hw Ho) as [R [C1 C2]].
  { pose proof (younger_range s p). unfold MAX_PROCESSES in *. lia. }
  revert R C1 C2. generalize (proc_kill_children kernel_space (S (Z.to_nat MAX_PROCESSES)) p s).
  intros s' R C1 C2. split; [apply R|]. intros j Hj. split.
  - intros Hd. assert (Hg : gone s s' j \/ pcb_at s' j = clear_pcb (pcb_at s j)).
    { induction Hd as [j Hj' Hl Hp|j k Hj' Hl Hk IH Hp].
      - destruct (rm_at _ _ _ R j Hj) as [E|(E & _)]; [|by right].
        exfalso. apply (C1 j Hj I); by rewrite E.
      - destruct (rm_at _ _ _ R j Hj) as [E|(E & _)]; [|by right]. exfalso.
        assert (Hkt : in_table k /\ live (pcb_at s k) = true) by (clear -Hk; by destruct Hk).
        destruct Hkt as [Hkt Hkl]. apply (C2 j k Hj); [by rewrite E| |by rewrite E].
        split; [done|]. split; [done|]. destruct (IH Hkt) as [(_ & _ & ?)|Ec]; [done|rewrite Ec; apply clear_pcb_dead]. }
    destruct Hg as [(_ & Hl & Hd')|]; [|done].
    destruct (rm_at _ _ _ R j Hj) as [E|(E & _)]; [|done]. rewrite E in Hd'. congruence.
  - intros Hnd. destruct (rm_at _ _ _ R j Hj) as [|(_ & _ & ?)]; done.
Qed.
End kill.

(** ** The invariant *)

Definition used (b : PCB) : Prop := state b <> PROC_UNUSED.

Record procs_inv (s : procs) : Prop := {
  pi_wf : procs_wf s;
  pi_next : 0 < next_pid s;
  pi_unused : forall j, in_table j -> state (pcb_at s j) = PROC_UNUSED -> proc (pcb_at s j) = zero_proc;
  pi_pid : forall j, in_table j -> used (pcb_at s j) ->
    0 < PID (proc (pcb_at s j)) < next_pid s /\ 0 <= PPID (proc (pcb_at s j)) < PID (proc (pcb_at s j));
  pi_unique : forall j k, in_table j -> in_table k -> used (pcb_at s j) -> used (pcb_at s k) ->
    PID (proc (pcb_at s j)) = PID (proc (pcb_at s k)) -> j = k;
  pi_running : forall j, in_table j -> state (pcb_at s j) = PROC_RUNNING -> j = current_proc s
}.

(** A PCB keeps its identity, or is cleared; none starts to run. *)
Definition relabelled (b b' : PCB) : Prop :=
  (PID (proc b') = PID (proc b) /\ PPID (proc b') = PPID (proc b) /\
     (state b' = PROC_UNUSED <-> state b = PROC_UNUSED) /\ (state b' = PROC_RUNNING -> state b = PROC_RUNNING) /\
     (state b = PROC_UNUSED -> proc b' = proc b)) \/
  (proc b' = zero_proc /\ state b' = PROC_UNUSED).
Record relabels (s s' : procs) : Prop := {
  rl_wf : procs_wf s'; rl_next : next_pid s' = next_pid s; rl_current : current_proc s' = current_proc s;
  rl_at : forall j, in_table j -> relabelled (pcb_at s j) (pcb_at s' j)
}.

Lemma relabelled_refl b : relabelled b b.
Proof. left. tauto. Qed.
Lemma relabelled_trans b1 b2 b3 : relabelled b1 b2 -> relabelled b2 b3 -> relabelled b1 b3.
Proof.
  intros [(P1 & Q1 & U1 & R1 & Z1)|[P1 U1]] [(P2 & Q2 & U2 & R2 & Z2)|[P2 U2]].
  - left. split_and!; [congruence|congruence|tauto|tauto|]. intros E. rewrite Z2 by tauto. tauto.
  - by right.
  - right. split; [rewrite Z2 by done; done|by apply U2].
  - by right.
Qed.
Lemma relabels_refl s : procs_wf s -> relabels s s.
Proof. intros. split; [done..|]. intros. apply relabelled_refl. Qed.
Lemma relabels_trans s1 s2 s3 : relabels s1 s2 -> relabels s2 s3 -> relabels s1 s3.
Proof.
  intros [] []. split; [done|congruence|congruence|]. intros. eapply relabelled_trans; eauto.
Qed.

Lemma relabelled_used b b' : relabelled b b' -> used b' ->
  used b /\ PID (proc b') = PID (proc b) /\ PPID (proc b') = PPID (proc b).
Proof. unfold used. intros [(P & Q & U & _ & _)|[_ U]] Hu; [tauto|done]. Qed.

Lemma relabels_inv s s' : relabels s s' -> procs_inv s -> procs_inv s'.
Proof.
  intros [Hw' Hn Hc Hat] [Hw Hp Hu Hpid Huniq Hrun]. split.
  - done.
  - lia.
  - intros j Hj Hs. destruct (Hat j Hj) as [(P & _ & U & _ & Z)|[P _]]; [|done]. rewrite Z by tauto. apply Hu; tauto.
  - intros j Hj Hus. destruct (relabelled_used _ _ (Hat j Hj) Hus) as (Hb & -> & ->). rewrite Hn. by apply Hpid.
  - intros j k Hj Hk Huj Huk E. destruct (relabelled_used _ _ (Hat j Hj) Huj) as (Hbj & Pj & _).
    destruct (relabelled_used _ _ (Hat k Hk) Huk) as (Hbk & Pk & _). apply Huniq; try done. congruence.
  - intros j Hj Hr. rewrite Hc. destruct (Hat j Hj) as [(_ & _ & _ & R & _)|[_ U]]; [auto|congruence].
Qed.

Lemma upd_relabels i f s :
  procs_wf s -> in_table i -> relabelled (pcb_at s i) (f (pcb_at s i)) -> relabels s (upd i f s).
Proof.
  intros Hw Hi Hf. split; [by apply upd_wf|done|done|]. intros j Hj. rewrite pcb_at_upd by done.
  destruct (Z.eqb_spec j i) as [->|]; [done|apply relabelled_refl].
Qed.

(** The three ways a PCB in use is changed. *)
Lemma relabelled_state b x : used b -> x <> PROC_UNUSED -> x <> PROC_RUNNING -> relabelled b (set_state x b).
Proof. unfold used. intros Hu H1 H2. left. cbn [set_state proc state]. tauto. Qed.
Lemma relabelled_proc b f :
  used b -> PID (f (proc b)) = PID (proc b) -> PPID (f (proc b)) = PPID (proc b) -> relabelled b (set_proc (f (proc b)) b).
Proof. unfold used. intros Hu H1 H2. left. cbn [set_proc proc state]. tauto. Qed.

Lemma set_mach_relabels m s : procs_wf s -> relabels s (set_mach m s).
Proof. intros Hw. split; [by destruct Hw|done|done|]. intros. apply relabelled_refl. Qed.

Lemma used_dec b : {used b} + {state b = PROC_UNUSED}.
Proof. unfold used. destruct (state b); (by right) || (by left). Qed.

(** A slot that a positive PID finds is in use, and is the only one. *)
Lemma find_index_cases s pid :
  procs_inv s -> 0 < pid < 2 ^ 32 ->
  let r := proc_find_index pid s in
  (in_table r /\ used (pcb_at s r) /\ PID (proc (pcb_at s r)) = pid) \/
  (r = -1 /\ forall j, in_table j -> PID (proc (pcb_at s j)) <> pid).
Proof.
  intros Hi Hp. cbv zeta. unfold proc_find_index. rewrite u32_small by lia.
  destruct (find_slot_cases (fun b => PID (proc b) =? pid) s) as [(Hr & He & _)|[-> Hno]].
  - left. apply Z.eqb_eq in He. split; [done|]. split; [|done]. destruct (used_dec (pcb_at s (find_slot (fun b => PID (proc b) =? pid) s))); [done|].
    rewrite (pi_unused s Hi) in He by done. cbn in He. lia.
  - right. split; [done|]. intros j Hj. by apply Z.eqb_neq, Hno.
Qed.

Lemma find_index_exact s j :
  procs_inv s -> next_pid s < 2 ^ 31 -> in_table j -> used (pcb_at s j) ->
  proc_find_index (PID (proc (pcb_at s j))) s = j.
Proof.
  intros Hi Hn Hj Hu. destruct (pi_pid s Hi j Hj Hu) as [Hp _].
  destruct (find_index_cases s (PID (proc (pcb_at s j))) Hi ltac:(lia)) as [(Hr & Hru & E)|[_ Hno]].
  - by apply (pi_unique s Hi).
  - by destruct (Hno j Hj).
Qed.

Lemma proc_block_relabels pid s : procs_inv s -> 0 < pid < 2 ^ 32 -> relabels s (proc_block pid s).
Proof.
  intros Hi Hp. unfold proc_block. destruct (find_index_cases s pid Hi Hp) as [(Hr & Hu & _)|[-> _]].
  - destruct (Z.ltb_spec (proc_find_index pid s) 0); [apply relabels_refl, Hi|].
    apply upd_relabels; [apply Hi|done|by apply relabelled_state].
  - apply relabels_refl, Hi.
Qed.
Lemma proc_unblock_relabels pid s : procs_inv s -> 0 < pid < 2 ^ 32 -> relabels s (proc_unblock pid s).
Proof.
  intros Hi Hp. unfold proc_unblock. destruct (find_index_cases s pid Hi Hp) as [(Hr & Hu & _)|[-> _]].
  - destruct (Z.ltb_spec (proc_find_index pid s) 0); [apply relabels_refl, Hi|].
    apply upd_relabels; [apply Hi|done|by apply relabelled_state].
  - apply relabels_refl, Hi.
Qed.

Lemma inv_older s : procs_inv s -> parents_older s.
Proof.
  intros Hi j Hj Hl. apply (pi_pid s Hi j Hj). unfold used, live in *. intros E. by rewrite E in Hl.
Qed.

Lemma find_slot_range p s : procs_wf s -> 0 <= find_slot p s -> in_table (find_slot p s) /\ p (pcb_at s (find_slot p s)) = true.
Proof. intros _ H. destruct (find_slot_cases p s) as [(? & ? & _)|[E _]]; [done|lia]. Qed.

Section relabelling.
Context `{BootInfo} (kernel_space : address_space).

Lemma discard_relabels i s : procs_wf s -> in_table i -> relabels s (discard kernel_space i s).
Proof.
  intros Hw Hi. pose proof (discard_frame kernel_space i s Hw) as []. split; [done..|].
  intros j Hj. rewrite discard_at by done. destruct (Z.eqb_spec j i) as [->|]; [by right|apply relabelled_refl].
Qed.

Lemma kill_children_relabels p s : procs_inv s -> relabels s (kill_children kernel_space p s).
Proof.
  intros Hi. unfold kill_children.
  destruct (kill_children_spec kernel_space (S (Z.to_nat MAX_PROCESSES)) p s (pi_wf s Hi) (inv_older s Hi)) as [[Hf Hat] _].
  { pose proof (younger_range s p). unfold MAX_PROCESSES in *. lia. }
  destruct Hf. split; [done..|]. intros j Hj.
  destruct (Hat j Hj) as [->|(-> & _)]; [apply relabelled_refl|by right].
Qed.

Lemma release_vfork_relabels i s : procs_inv s -> in_table i -> relabels s (release_vfork_parent i s).
Proof.
  intros Hi Hit. unfold release_vfork_parent. destruct (0 <? vfork_parent (pcb_at s i)); [|apply relabels_refl, Hi].
  set (v := proc_find_index (vfork_parent (pcb_at s i)) s).
  match goal with |- relabels s (upd i _ (upd i _ ?x)) => set (s1 := x) end.
  assert (R1 : relabels s s1).
  { unfold s1. destruct ((0 <=? v) && bool_decide (state (pcb_at s v) = PROC_BLOCKED)) eqn:E; [|apply relabels_refl, Hi].
    apply andb_true_iff in E as [Hv Hb]. apply Z.leb_le in Hv. apply bool_decide_eq_true in Hb.
    destruct (find_slot_range _ s (pi_wf s Hi) Hv) as [Hvt _]. fold v in Hvt.
    assert (Hu : used (pcb_at s v)) by (unfold used; by rewrite Hb).
    eapply relabels_trans; apply upd_relabels; [apply Hi|done|by apply relabelled_proc|apply upd_wf, Hi|done|].
    apply relabelled_state; [|done|done]. unfold upd_proc. rewrite pcb_at_upd by (done || apply Hi). by rewrite Z.eqb_refl. }
  clearbody s1. pose proof (rl_wf _ _ R1) as Hw1.
  eapply relabels_trans; [exact R1|].
  eapply relabels_trans; apply upd_relabels; [done|done|left; tauto|by apply upd_wf|done|left; tauto].
Qed.

Lemma release_parent_relabels i pid s :
  procs_inv s -> next_pid s < 2 ^ 31 -> in_table i -> 0 < pid -> relabels s (release_parent i pid s).
Proof.
  intros Hi Hn Hit Hp. unfold release_parent. set (q := proc_find_index _ s).
  destruct (Z.leb_spec 0 q) as [Hq|]; [|apply relabels_refl, Hi].
  destruct (find_slot_range _ s (pi_wf s Hi) Hq) as [Hqt _]. fold q in Hqt.
  destruct (Z.eqb_spec (WaitingFor (proc (pcb_at s q))) pid) as [Ew|]; [|apply relabels_refl, Hi].
  assert (Hu : used (pcb_at s q)).
  { destruct (used_dec (pcb_at s q)) as [|E]; [done|]. rewrite (pi_unused s Hi) in Ew by done. cbn in Ew. lia. }
  assert (R1 : relabels s (upd_proc q (set_PWaiting NO_PID) s))
    by (apply upd_relabels; [apply Hi|done|by apply relabelled_proc]).
  eapply relabels_trans; [exact R1|]. unfold upd_proc in *. rewrite pcb_at_upd by (done || apply Hi). rewrite Z.eqb_refl.
  apply proc_unblock_relabels; [by apply (relabels_inv s)|]. cbn [set_proc proc set_PWaiting PID].
  destruct (pi_pid s Hi q Hqt Hu). lia.
Qed.

Lemma proc_terminate_relabels i code s :
  procs_inv s -> next_pid s < 2 ^ 31 -> in_table i -> used (pcb_at s i) -> relabels s (proc_terminate kernel_space i code s).
Proof.
  intros Hi Hn Hit Hu. unfold proc_terminate.
  assert (R1 : relabels s (upd i (set_state PROC_ZOMBIE) (upd_proc i (set_PExit (u32 code)) s))).
  { eapply relabels_trans; apply upd_relabels; [apply Hi|done|by apply relabelled_proc|apply upd_wf, Hi|done|].
    apply relabelled_state; [|done|done]. unfold upd_proc. rewrite pcb_at_upd by (done || apply Hi). by rewrite Z.eqb_refl. }
  pose proof (relabels_inv _ _ R1 Hi) as I1.
  pose proof (kill_children_relabels (PID (proc (pcb_at s i))) _ I1) as R2. pose proof (relabels_inv _ _ R2 I1) as I2.
  pose proof (release_vfork_relabels i _ I2 Hit) as R3. pose proof (relabels_inv _ _ R3 I2) as I3.
  eapply relabels_trans; [exact R1|]. eapply relabels_trans; [exact R2|]. eapply relabels_trans; [exact R3|].
  destruct (pi_pid s Hi i Hit Hu).
  apply release_parent_relabels; [done| |done|lia].
  rewrite (rl_next _ _ R3), (rl_next _ _ R2), (rl_next _ _ R1). done.
Qed.

Lemma proc_reap_relabels i s : procs_wf s -> in_table i -> relabels s (proc_reap kernel_space i s).
Proof. apply discard_relabels. Qed.
End relabelling.

(** ** Steps that give the CPU away or add a process *)
Section steps.
Context `{BootInfo} (kernel_space : address_space) (kernel_stack : Z -> Z) (kmalloc_ok : Z -> bool)
  (udb : user_db).

Definition nobody_runs (s : procs) : Prop := forall j, in_table j -> state (pcb_at s j) <> PROC_RUNNING.

Lemma switch_to_inv i s :
  procs_inv s -> nobody_runs s -> in_table i -> is_ready (pcb_at s i) = true ->
  procs_inv (switch_to kernel_space i s).
Proof.
  intros [Hw Hn Hu Hpid Huniq _] Hno Hi Hr. apply bool_decide_eq_true in Hr.
  assert (Hat : forall j, proc (pcb_at (switch_to kernel_space i s) j) = proc (pcb_at s j) /\
    (state (pcb_at (switch_to kernel_space i s) j) = PROC_UNUSED <-> state (pcb_at s j) = PROC_UNUSED) /\
    (state (pcb_at (switch_to kernel_space i s) j) = PROC_RUNNING -> j = i \/ state (pcb_at s j) = PROC_RUNNING)).
  { intros j. rewrite switch_to_at by done. destruct (Z.eqb_spec j i) as [->|]; [|tauto].
    cbn [set_state proc state]. rewrite Hr. split; [done|]. split; [done|by left]. }
  split.
  - by apply switch_to_wf.
  - done.
  - intros j Hj E. destruct (Hat j) as (-> & E' & _). by apply Hu, E'.
  - intros j Hj E. destruct (Hat j) as (-> & E' & _). apply Hpid; [done|]. unfold used in *. tauto.
  - intros j k Hj Hk Ej Ek. destruct (Hat j) as (-> & Ej' & _), (Hat k) as (-> & Ek' & _).
    unfold used in *. apply Huniq; unfold used; tauto.
  - intros j Hj E. destruct (Hat j) as (_ & _ & E'). destruct (E' E) as [->|E2]; [done|]. by destruct (Hno j Hj).
Qed.

Lemma schedule_inv frame s : procs_inv s -> procs_inv (fst (proc_schedule_interrupt kernel_space frame s)).
Proof.
  intros Hi. destruct (scheduling_enabled s) eqn:He; [|unfold proc_schedule_interrupt; by rewrite He].
  destruct (schedule_cases kernel_space frame s (pi_wf s Hi) He) as (s1 & Hw1 & Hc1 & _ & Hn1 & _ & Hat & ->).
  assert (R1 : relabels s s1).
  { split; [done|done|done|]. intros j _. rewrite Hat. destruct (_ && _); [|apply relabelled_refl].
    left. unfold preempt. destruct (bool_decide (state (pcb_at s j) = PROC_RUNNING)) eqn:E; [|cbn; tauto].
    apply bool_decide_eq_true in E. cbn [set_state set_context proc state]. rewrite E. split_and!; (done || tauto). }
  pose proof (relabels_inv _ _ R1 Hi) as I1.
  assert (Hno : nobody_runs s1).
  { intros j Hj E. pose proof (pi_running s1 I1 j Hj E) as ->. rewrite Hat, Hc1, Z.eqb_refl in E.
    unfold in_table in Hj. rewrite Hc1 in Hj. destruct (Z.leb_spec 0 (current_proc s)); [|lia]. cbn [andb] in E.
    unfold is_unused, preempt in E. repeat case_bool_decide; cbn [negb set_state set_context state] in E; congruence. }
  destruct (Z.ltb_spec (find_next s1) 0); [done|]. cbn [fst].
  destruct (find_next_cases s1 Hw1) as [(Hn & Hr & _)|[E _]]; [|lia]. by apply switch_to_inv.
Qed.

Lemma set_current_inv c s : procs_inv s -> nobody_runs s -> -1 <= c < MAX_PROCESSES -> procs_inv (set_current c s).
Proof.
  intros [[Hl _] Hn Hu Hpid Huniq _] Hno Hc. split; try done. intros j Hj E. by destruct (Hno j Hj).
Qed.

(** A process that ended does not run, and with it nobody does. *)
Lemma nobody_runs_dead s s' :
  procs_inv s' -> current_proc s' = current_proc s ->
  (in_table (current_proc s) -> state (pcb_at s' (current_proc s)) <> PROC_RUNNING) -> nobody_runs s'.
Proof.
  intros Hi Hc Hd j Hj E. pose proof (pi_running s' Hi j Hj E) as ->. rewrite Hc in *. by apply Hd.
Qed.

Lemma release_vfork_at i s j :
  procs_wf s -> in_table i -> state (pcb_at (release_vfork_parent i s) j) = state (pcb_at s j) \/
    (state (pcb_at s j) = PROC_BLOCKED /\ state (pcb_at (release_vfork_parent i s) j) = PROC_READY).
Proof.
  intros Hw Hi. unfold release_vfork_parent. destruct (0 <? _); [|by left].
  set (v := proc_find_index _ s). match goal with |- context [upd i _ (upd i _ ?x)] => set (s1 := x) end.
  assert (Hw1 : procs_wf s1) by (unfold s1; destruct (_ && _); [by do 2 apply upd_wf|done]).
  assert (E : state (pcb_at (upd i (set_vfork (-1)) (upd i (set_space AS_NULL) s1)) j) = state (pcb_at s1 j)).
  { rewrite !pcb_at_upd by (done || by apply upd_wf). destruct (Z.eqb_spec j i) as [->|]; [|done]. by rewrite Z.eqb_refl. }
  rewrite E. unfold s1. destruct ((0 <=? v) && bool_decide (state (pcb_at s v) = PROC_BLOCKED)) eqn:Ev; [|by left].
  apply andb_true_iff in Ev as [Hv Hb]. apply Z.leb_le in Hv. apply bool_decide_eq_true in Hb.
  destruct (find_slot_range _ s Hw Hv) as [Hvt _]. fold v in Hvt. unfold upd_proc.
  rewrite !pcb_at_upd by (done || by apply upd_wf). destruct (Z.eqb_spec j v) as [->|]; [right|by left]. by rewrite Z.eqb_refl.
Qed.

Lemma release_parent_at i pid s j :
  procs_wf s -> state (pcb_at (release_parent i pid s) j) = state (pcb_at s j) \/
    state (pcb_at (release_parent i pid s) j) = PROC_READY.
Proof.
  intros Hw. unfold release_parent. set (q := proc_find_index _ s). destruct (Z.leb_spec 0 q) as [Hq|]; [|by left].
  destruct (find_slot_range _ s Hw Hq) as [Hqt _]. fold q in Hqt. destruct (_ =? pid); [|by left].
  set (s1 := upd_proc q (set_PWaiting NO_PID) s). assert (Hw1 : procs_wf s1) by by apply upd_wf.
  assert (E1 : state (pcb_at s1 j) = state (pcb_at s j)).
  { unfold s1, upd_proc. rewrite pcb_at_upd by done. by destruct (Z.eqb_spec j q) as [->|]. }
  unfold proc_unblock. set (u := proc_find_index _ s1). destruct (Z.ltb_spec u 0) as [|Hu]; [by left|].
  destruct (find_slot_range _ s1 Hw1 Hu) as [Hut _]. fold u in Hut. rewrite pcb_at_upd by done.
  destruct (j =? u); [by right|by left].
Qed.

(** After [proc_terminate] the slot is not running. *)
Lemma terminate_not_running i code s :
  procs_inv s -> in_table i -> used (pcb_at s i) ->
  state (pcb_at (proc_terminate kernel_space i code s) i) <> PROC_RUNNING.
Proof.
  intros Hi Hit Hu. unfold proc_terminate.
  assert (R1 : relabels s (upd i (set_state PROC_ZOMBIE) (upd_proc i (set_PExit (u32 code)) s))).
  { eapply relabels_trans; apply upd_relabels; [apply Hi|done|by apply relabelled_proc|apply upd_wf, Hi|done|].
    apply relabelled_state; [|done|done]. unfold upd_proc. rewrite pcb_at_upd by (done || apply Hi). by rewrite Z.eqb_refl. }
  assert (E1 : state (pcb_at (upd i (set_state PROC_ZOMBIE) (upd_proc i (set_PExit (u32 code)) s)) i) = PROC_ZOMBIE).
  { rewrite pcb_at_upd by (done || apply upd_wf, Hi). by rewrite Z.eqb_refl. }
  pose proof (relabels_inv _ _ R1 Hi) as I1. revert R1 I1 E1.
  generalize (upd i (set_state PROC_ZOMBIE) (upd_proc i (set_PExit (u32 code)) s)). intros s1 R1 I1 E1.
  generalize (PID (proc (pcb_at s i))). intros pid.
  pose proof (kill_children_relabels kernel_space pid s1 I1) as R2.
  assert (E2 : state (pcb_at (kill_children kernel_space pid s1) i) <> PROC_RUNNING).
  { destruct (rl_at _ _ R2 i Hit) as [(_ & _ & _ & R & _)|[_ ->]]; [|done]. intros E. by rewrite R in E1. }
  revert R2 E2. generalize (kill_children kernel_space pid s1). intros s2 R2 E2.
  pose proof (release_vfork_at i s2 i (rl_wf _ _ R2) Hit) as E3.
  assert (Hw3 : procs_wf (release_vfork_parent i s2)).
  { pose proof (relabels_inv _ _ R2 I1) as I2. apply (release_vfork_relabels i s2 I2 Hit). }
  destruct (release_parent_at i pid (release_vfork_parent i s2) i Hw3) as [->| ->]; [|done].
  destruct E3 as [->|[_ ->]]; done.
Qed.

(** The running process may make system calls: its PCB is in use. *)
Definition active (s : procs) : Prop := in_table (current_proc s) /\ used (pcb_at s (current_proc s)).

Lemma set_mach_inv m s : procs_inv s -> procs_inv (set_mach m s).
Proof. intros Hi. apply (relabels_inv s); [|done]. apply set_mach_relabels, Hi. Qed.

Lemma halt_inv s : procs_inv s -> nobody_runs s -> procs_inv (fst (halt kernel_space s)).
Proof.
  intros Hi Hno. unfold halt. cbn [fst].
  assert (H1 : forall s1, procs_inv s1 -> nobody_runs s1 -> procs_inv (set_current (-1) s1))
    by (intros; by apply set_current_inv).
  destruct (0 <=? current_proc s); [|by apply H1].
  assert (Hc : forall c t, procs_inv (set_cpu c t s)) by (intros; destruct Hi as [[] ]; by split).
  destruct (space (pcb_at s (current_proc s))); [by apply H1|apply H1; [apply set_mach_inv, Hc|done]..].
Qed.

Lemma proc_exit_inv code s :
  procs_inv s -> next_pid s < 2 ^ 31 -> active s -> procs_inv (fst (proc_exit kernel_space code s)).
Proof.
  intros Hi Hn [Hc Hu]. unfold proc_exit. destruct (Z.ltb_spec (current_proc s) 0); [unfold in_table in Hc; lia|].
  pose proof (proc_terminate_relabels kernel_space _ code s Hi Hn Hc Hu) as R.
  pose proof (terminate_not_running _ code s Hi Hc Hu) as Hd.
  revert R Hd. generalize (proc_terminate kernel_space (current_proc s) code s). intros s1 R Hd.
  pose proof (relabels_inv _ _ R Hi) as I1.
  assert (Hno : nobody_runs s1) by (apply (nobody_runs_dead s); [done|apply R|done]).
  destruct (Z.ltb_spec (find_next s1) 0); [by apply halt_inv|].
  destruct (find_next_cases s1 (pi_wf _ I1)) as [(Hn1 & Hr & _)|[E _]]; [|lia].
  pose proof (switch_to_inv (find_next s1) s1 I1 Hno Hn1 Hr) as I2. cbn [fst].
  destruct (space (pcb_at s1 (current_proc s))); [done| |]; case_bool_decide; (done || by apply set_mach_inv).
Qed.

(** A new process in a free slot. *)
Lemma add_inv slot b s :
  procs_inv s -> in_table slot -> state (pcb_at s slot) = PROC_UNUSED -> next_pid s < 2 ^ 31 ->
  PID (proc b) = next_pid s -> 0 <= PPID (proc b) < next_pid s -> state b = PROC_READY ->
  procs_inv (set_next_pid (u32 (next_pid s + 1)) (upd slot (fun _ => b) s)).
Proof.
  intros [Hw Hn Hu Hpid Huniq Hrun] Hs Hfree Hmax Hp Hpp Hr. rewrite u32_small by lia.
  assert (Hat : forall j, pcb_at (set_next_pid (next_pid s + 1) (upd slot (fun _ => b) s)) j =
    if j =? slot then b else pcb_at s j) by (intros; by apply (pcb_at_upd s slot (fun _ => b))).
  split.
  - destruct (upd_wf s slot (fun _ => b) Hw) as [A B]. by split.
  - cbn [next_pid set_next_pid]. lia.
  - intros j Hj. rewrite Hat. destruct (Z.eqb_spec j slot); [congruence|by apply Hu].
  - intros j Hj. rewrite Hat. cbn [next_pid set_next_pid]. destruct (Z.eqb_spec j slot); [intros _; lia|].
    intros Hus. destruct (Hpid j Hj Hus). lia.
  - intros j k Hj Hk. rewrite !Hat. destruct (Z.eqb_spec j slot) as [->|], (Z.eqb_spec k slot) as [->|]; [done| | |by apply Huniq].
    + intros _ Hus E. destruct (Hpid k Hk Hus). lia.
    + intros Hus _ E. destruct (Hpid j Hj Hus). lia.
  - intros j Hj. rewrite Hat. destruct (Z.eqb_spec j slot); [congruence|]. by apply Hrun.
Qed.

Lemma alloc_slot_free s : 0 <= pcb_alloc_slot s -> procs_wf s ->
  in_table (pcb_alloc_slot s) /\ state (pcb_at s (pcb_alloc_slot s)) = PROC_UNUSED.
Proof.
  intros Hs Hw. destruct (find_slot_range is_unused s Hw Hs) as [Hi Hu]. split; [done|].
  by apply bool_decide_eq_true in Hu.
Qed.

Lemma create_internal_inv entry prio parent t cs ce sb st rsp sp owner s :
  procs_inv s -> next_pid s < 2 ^ 31 -> 0 <= parent < next_pid s ->
  procs_inv (fst (proc_create_internal kernel_stack udb entry prio parent t cs ce sb st rsp sp owner s)).
Proof.
  intros Hi Hn Hp. unfold proc_create_internal.
  destruct (Z.ltb_spec (pcb_alloc_slot s) 0) as [|Hs]; [done|].
  destruct (alloc_slot_free s Hs (pi_wf s Hi)) as [Hit Hf]. cbn [fst]. apply add_inv; try done; by destruct t.
Qed.

Lemma init_child_inv slot sp frame s :
  procs_inv s -> next_pid s < 2 ^ 31 -> active s -> in_table slot -> state (pcb_at s slot) = PROC_UNUSED ->
  procs_inv (pcb_init_child kernel_stack slot (current_proc s) sp frame s).
Proof.
  intros Hi Hn [Hc Hu] Hs Hf. unfold pcb_init_child. apply add_inv; try done.
  cbn [proc PPID]. destruct (pi_pid s Hi _ Hc Hu). lia.
Qed.

Lemma upd_context_relabels i f s :
  procs_wf s -> in_table i -> relabels s (upd i (fun b => set_context (f b) b) s).
Proof. intros Hw Hi. apply upd_relabels; [done|done|]. left. cbn. tauto. Qed.

Lemma set_child_stack_relabels pid stack s : procs_wf s -> relabels s (set_child_stack pid stack s).
Proof.
  intros Hw. unfold set_child_stack. destruct (_ && _); [|by apply relabels_refl].
  destruct (Z.leb_spec 0 (proc_find_index pid s)) as [Hi|]; [|by apply relabels_refl].
  apply (upd_context_relabels _ (fun b => set_rsp stack (context b)));
    [done|apply (find_slot_range _ _ Hw Hi)].
Qed.

(** The three ways to make a child, each refusing with -1 first. *)
Lemma fork_guard s (A : Type) (P : A -> Prop) (no yes : A) :
  procs_inv s -> active s -> P no ->
  (in_table (pcb_alloc_slot s) -> state (pcb_at s (pcb_alloc_slot s)) = PROC_UNUSED -> P yes) ->
  P (if current_proc s <? 0 then no else if pcb_alloc_slot s <? 0 then no else yes).
Proof.
  intros Hi [Hc _] Hno Hyes. destruct (Z.ltb_spec (current_proc s) 0); [done|].
  destruct (Z.ltb_spec (pcb_alloc_slot s) 0) as [|Hs]; [done|].
  apply Hyes; by apply (alloc_slot_free s Hs), Hi.
Qed.

Lemma active_mach m s : active s -> active (set_mach m s).
Proof. done. Qed.

Lemma proc_fork_inv frame s :
  procs_inv s -> next_pid s < 2 ^ 31 -> active s ->
  procs_inv (fst (proc_fork kernel_space kernel_stack kmalloc_ok frame s)).
Proof.
  intros Hi Hn Ha. unfold proc_fork. apply (fork_guard s _ (fun r => procs_inv (fst r))); [done|done|done|].
  intros Hs Hf. destruct (space (pcb_at s (current_proc s))); [by apply init_child_inv| |];
    (destruct (vmm_create_address_space kernel_space (mach s)) as [m1 child]; destruct child;
      [by apply set_mach_inv| |];
      (destruct (fork_regions _ _ _ _ _ _) as [m2 ok]; destruct ok; cbn [negb fst];
      [apply (init_child_inv (pcb_alloc_slot s) _ frame (set_mach m2 s));
        [by apply set_mach_inv|done|done|done|done]|by apply set_mach_inv])).
Qed.

Lemma proc_vfork_inv frame s :
  procs_inv s -> next_pid s < 2 ^ 31 -> active s -> procs_inv (fst (proc_vfork kernel_stack frame s)).
Proof.
  intros Hi Hn Ha. unfold proc_vfork. apply (fork_guard s _ (fun r => procs_inv (fst r))); [done|done|done|].
  intros Hs Hf. cbv zeta. cbn [fst].
  pose proof (init_child_inv (pcb_alloc_slot s) (space (pcb_at s (current_proc s))) frame s Hi Hn Ha Hs Hf) as I1.
  assert (Hu1 : used (pcb_at (pcb_init_child kernel_stack (pcb_alloc_slot s) (current_proc s)
                       (space (pcb_at s (current_proc s))) frame s) (current_proc s))).
  { destruct Ha as [Hc Hu]. unfold pcb_init_child.
    match goal with |- used (pcb_at (set_next_pid _ (upd ?k ?f ?x)) ?j) =>
      change (used (pcb_at (upd k f x) j)) end.
    rewrite pcb_at_upd by (done || apply Hi). by destruct (Z.eqb_spec (current_proc s) (pcb_alloc_slot s)) as [<-|]. }
  revert I1 Hu1. generalize (pcb_init_child kernel_stack (pcb_alloc_slot s) (current_proc s)
                       (space (pcb_at s (current_proc s))) frame s). intros s1 I1 Hu1.
  destruct Ha as [Hc _]. eapply relabels_inv; [|exact I1].
  generalize (int_of_u32 (PID (proc (pcb_at s1 (current_proc s))))). intros vp.
  generalize (PID (proc (pcb_at s1 (pcb_alloc_slot s)))). intros cp.
  assert (R1 : relabels s1 (upd (pcb_alloc_slot s) (set_vfork vp) s1))
    by (apply upd_relabels; [apply I1|done|left; cbn; tauto]).
  assert (Hu2 : used (pcb_at (upd (pcb_alloc_slot s) (set_vfork vp) s1) (current_proc s))).
  { rewrite pcb_at_upd by (done || apply I1). by destruct (Z.eqb_spec (current_proc s) (pcb_alloc_slot s)) as [<-|]. }
  eapply relabels_trans; [exact R1|]. pose proof (rl_wf _ _ R1) as W2.
  eapply relabels_trans; apply upd_relabels; try done.
  - unfold used in Hu2. left. cbn. split_and!; [done|done|split; [done|tauto]|done|tauto].
  - by apply upd_wf.
  - apply relabelled_proc; [|done|done]. rewrite pcb_at_upd by done. by rewrite Z.eqb_refl.
Qed.

Lemma proc_clone_inv frame flags stack s :
  procs_inv s -> next_pid s < 2 ^ 31 -> active s ->
  procs_inv (fst (proc_clone kernel_space kernel_stack kmalloc_ok frame flags stack s)).
Proof.
  intros Hi Hn Ha. unfold proc_clone.
  destruct (negb (Z.land flags CLONE_VFORK =? 0)); [|destruct (negb (Z.land flags CLONE_VM =? 0))].
  - pose proof (proc_vfork_inv frame s Hi Hn Ha) as I. destruct (proc_vfork kernel_stack frame s) as [s1 pid].
    eapply relabels_inv; [apply set_child_stack_relabels, I|exact I].
  - apply (fork_guard s _ (fun r => procs_inv (fst r))); [done|done|done|]. intros Hs Hf. cbn [fst].
    pose proof (init_child_inv (pcb_alloc_slot s) (space (pcb_at s (current_proc s))) frame s Hi Hn Ha Hs Hf) as I1.
    destruct (negb (stack =? 0)); [|done]. eapply relabels_inv; [|exact I1].
    apply (upd_context_relabels _ (fun b => set_rsp stack (context b))); [apply I1|done].
  - pose proof (proc_fork_inv frame s Hi Hn Ha) as I.
    destruct (proc_fork kernel_space kernel_stack kmalloc_ok frame s) as [s1 pid].
    eapply relabels_inv; [apply set_child_stack_relabels, I|exact I].
Qed.

Lemma wait_collect_inv pid s : procs_inv s -> procs_inv (fst (wait_collect kernel_space pid s)).
Proof.
  intros Hi. unfold wait_collect. destruct (Z.ltb_spec (proc_find_index pid s) 0) as [|Hs]; [done|].
  eapply relabels_inv; [|exact Hi]. apply proc_reap_relabels; [apply Hi|apply (find_slot_range _ _ (pi_wf _ Hi) Hs)].
Qed.

Lemma proc_wait_pid_inv pid s :
  procs_inv s -> next_pid s < 2 ^ 31 -> active s -> procs_inv (fst (proc_wait_pid kernel_space pid s)).
Proof.
  intros Hi Hn [Hc Hu]. unfold proc_wait_pid. destruct (proc_find_index pid s <? 0); [done|].
  case_bool_decide.
  { pose proof (wait_collect_inv pid s Hi). by destruct (wait_collect kernel_space pid s). }
  unfold proc_get_current_pid. destruct (Z.ltb_spec (current_proc s) 0); [unfold in_table in Hc; lia|].
  destruct (pi_pid s Hi _ Hc Hu). rewrite int_of_u32_small by lia. rewrite find_index_exact by done.
  destruct (Z.ltb_spec (current_proc s) 0); [lia|].
  set (s1 := upd (current_proc s) (set_state PROC_BLOCKED) _).
  assert (R : relabels s s1).
  { eapply relabels_trans; apply upd_relabels; [apply Hi|done|by apply relabelled_proc|apply upd_wf, Hi|done|].
    apply relabelled_state; [|done|done]. unfold upd_proc. rewrite pcb_at_upd by (done || apply Hi). by rewrite Z.eqb_refl. }
  pose proof (relabels_inv _ _ R Hi) as I1. destruct (yields s1); [done|].
  pose proof (wait_collect_inv pid s1 I1). by destruct (wait_collect kernel_space pid s1).
Qed.

(** ** Identity-preserving system calls *)

Lemma cur_proc_relabels f s :
  procs_inv s -> active s -> (forall p, PID (f p) = PID p /\ PPID (f p) = PPID p) -> relabels s (set_cur f s).
Proof.
  intros Hi [Hc Hu] Hf. apply upd_relabels; [apply Hi|done|]. apply relabelled_proc; [done|apply Hf..].
Qed.
Lemma heap_end_relabels x m s : procs_inv s -> active s ->
  relabels s (upd (current_proc s) (set_heap_end x) (set_mach m s)).
Proof.
  intros Hi [Hc Hu]. eapply relabels_trans; [apply set_mach_relabels, Hi|].
  apply upd_relabels; [apply set_mach_relabels, Hi|done|]. left. cbn. tauto.
Qed.

Lemma proc_brk_relabels x s : procs_inv s -> active s -> relabels s (fst (proc_brk kernel_space x s)).
Proof.
  intros Hi Ha. pose proof (relabels_refl s (pi_wf s Hi)) as R0. pose proof Ha as [Hc _]. unfold proc_brk.
  destruct (current_proc s <? 0); [done|]. destruct (x =? 0); [done|]. destruct (_ || _); [done|].
  destruct (_ <? x).
  - destruct (grow_loop _ _ _ _ _ _) as [m ok]. destruct ok; cbn [negb fst];
      [by apply heap_end_relabels|apply set_mach_relabels, Hi].
  - destruct (x <? _); cbn [fst]; [by apply heap_end_relabels|].
    apply upd_relabels; [apply Hi|done|left; cbn; tauto].
Qed.
Lemma proc_sbrk_relabels x s : procs_inv s -> active s -> relabels s (fst (proc_sbrk kernel_space x s)).
Proof.
  intros Hi Ha. pose proof (relabels_refl s (pi_wf s Hi)) as R0. unfold proc_sbrk.
  assert (Hb : forall n, relabels s (fst (let '(s', r) := proc_brk kernel_space n s in
     if r =? u64_error then (s', -1) else (s', int64 (heap_end (lay (pcb_at s (current_proc s)))))))).
  { intros n. pose proof (proc_brk_relabels n s Hi Ha). destruct (proc_brk kernel_space n s) as [s' r].
    by destruct (r =? u64_error). }
  destruct (current_proc s <? 0); [done|]. destruct (x =? 0); [done|].
  destruct (0 <? x); (destruct (_ <? _); [done|apply Hb]).
Qed.

(** The calls that set the ids of the current process. *)
Inductive id_call : (procs -> procs * Z) -> Prop :=
| call_setuid u : id_call (proc_setuid udb u)
| call_seteuid u : id_call (proc_seteuid udb u)
| call_setreuid r e : id_call (proc_setreuid udb r e)
| call_exec o m : id_call (proc_apply_setuid_exec o m)
| call_setgid g : id_call (proc_setgid udb g)
| call_setegid g : id_call (proc_setegid udb g)
| call_setregid r e : id_call (proc_setregid udb r e)
| call_setresgid r e sg : id_call (proc_setresgid udb r e sg).

Lemma id_call_relabels f s : id_call f -> procs_inv s -> active s -> relabels s (fst (f s)).
Proof.
  intros Hf Hi Ha. pose proof (relabels_refl s (pi_wf s Hi)) as R0.
  destruct Hf; unfold proc_setuid, proc_seteuid, proc_setreuid, proc_apply_setuid_exec, proc_setgid, proc_setegid,
    proc_setregid, proc_setresgid; (destruct (current_proc s <? 0); [done|]); cbv zeta;
    repeat match goal with
    | |- relabels _ (fst (if ?c then _ else _)) => destruct c
    | |- context [setre ?a ?b ?c ?d ?e ?f] => destruct (setre a b c d e f) as [[[? ?] ?] ?]
    end; (done || by apply cur_proc_relabels).
Qed.

Lemma create_image_inv owner stack image size load entry prio parent s :
  procs_inv s -> next_pid s < 2 ^ 31 -> 0 <= parent < next_pid s ->
  procs_inv (fst (create_image_for kernel_space kernel_stack udb owner stack image size load entry prio parent s)).
Proof.
  intros Hi Hn Hp. unfold create_image_for. destruct image as [bytes|]; [|done].
  destruct (size =? 0); [done|]. destruct (_ || _); [done|]. destruct (_ || _); [done|].
  destruct (_ <? _); [done|]. destruct (vmm_create_address_space kernel_space (mach s)) as [m1 sp].
  destruct sp as [| |va]; [by apply set_mach_inv| |];
    (destruct (image_loop _ _ _ _ _ _ _ _ _) as [m2 ok]; destruct ok; cbn [negb]; [|by apply set_mach_inv];
     destruct (user_map_stack _ _ _) as [m3 [[[st sb] rsp0]|]]; [|by apply set_mach_inv];
     destruct (stack _ _ _ _) as [m4 rsp];
     match goal with |- context [proc_create_internal ?a ?b ?c ?d ?e ?f ?g ?h ?i ?j ?k ?l ?m ?n] =>
       pose proof (create_internal_inv c d e f g h i j k l m n (set_mach_inv m4 s Hi) Hn Hp) as I;
       destruct (proc_create_internal a b c d e f g h i j k l m n) as [s5 pid] end;
     destruct (pid <? 0); [by apply set_mach_inv|done]).
Qed.

Lemma create_user_inv owner entry end_marker prio parent s :
  procs_inv s -> next_pid s < 2 ^ 31 -> 0 <= parent < next_pid s ->
  procs_inv (fst (create_user_for kernel_space kernel_stack udb owner entry end_marker prio parent s)).
Proof.
  intros Hi Hn Hp. unfold create_user_for. destruct (_ || _); [done|]. destruct (_ || _); [done|].
  destruct (_ <=? _); [done|]. destruct (code_loop _ _ _ _ _ _ _ _) as [m1 ok].
  destruct ok; cbn [negb]; [|by apply set_mach_inv].
  destruct (user_map_stack _ _ _) as [m2 [[[st sb] rsp]|]]; [|apply set_mach_inv; by apply set_mach_inv].
  match goal with |- context [proc_create_internal ?a ?b ?c ?d ?e ?f ?g ?h ?i ?j ?k ?l ?m ?n] =>
    pose proof (create_internal_inv c d e f g h i j k l m n (set_mach_inv m2 _ (set_mach_inv m1 s Hi)) Hn Hp) as I;
    destruct (proc_create_internal a b c d e f g h i j k l m n) as [s3 pid] end.
  destruct (pid <? 0); [done|]. cbn [fst] in *. destruct I as [[] ]. by split.
Qed.

(** ** The step relation

    What the kernel does to the process table: interrupts of the scheduler and
    of the timer, the drivers that create kernel processes, and the system
    calls of the running process.  A process that a kill of its own removed
    makes no further call ([active]), a positive PID is given, a parent is a
    PID that was given out, and fewer than 2^31 processes were created. *)
Inductive proc_step (s : procs) : procs -> Prop :=
| step_tick frame : proc_step s (fst (proc_schedule_interrupt kernel_space frame s))
| step_time ticks : active s -> proc_step s (proc_update_time ticks s)
| step_kernel owner entry prio parent : next_pid s < 2 ^ 31 -> 0 <= parent < next_pid s ->
    proc_step s (fst (proc_create_kernel_as kernel_stack udb owner entry prio parent s))
| step_user owner entry end_marker prio parent : next_pid s < 2 ^ 31 -> 0 <= parent < next_pid s ->
    proc_step s (fst (proc_create_user_as kernel_space kernel_stack udb owner entry end_marker prio parent s))
| step_image owner stack image size load entry prio parent : next_pid s < 2 ^ 31 -> 0 <= parent < next_pid s ->
    proc_step s (fst (create_image_for kernel_space kernel_stack udb owner stack image size load entry prio parent s))
| step_fork frame : next_pid s < 2 ^ 31 -> active s ->
    proc_step s (fst (proc_fork kernel_space kernel_stack kmalloc_ok frame s))
| step_clone frame flags stack : next_pid s < 2 ^ 31 -> active s ->
    proc_step s (fst (proc_clone kernel_space kernel_stack kmalloc_ok frame flags stack s))
| step_exit code : next_pid s < 2 ^ 31 -> active s -> proc_step s (fst (proc_exit kernel_space code s))
| step_kill actor pid : next_pid s < 2 ^ 31 -> 0 < pid < 2 ^ 31 ->
    proc_step s (fst (proc_kill_as kernel_space udb actor pid s))
| step_block : next_pid s < 2 ^ 31 -> active s -> proc_step s (proc_block (proc_get_current_pid s) s)
| step_unblock pid : 0 < pid < 2 ^ 31 -> proc_step s (proc_unblock pid s)
| step_wait actor pid : next_pid s < 2 ^ 31 -> active s -> proc_step s (fst (proc_wait_pid_as kernel_space udb actor pid s))
| step_collect pid : proc_step s (fst (wait_collect kernel_space pid s))
| step_brk x : active s -> proc_step s (fst (proc_brk kernel_space x s))
| step_sbrk x : active s -> proc_step s (fst (proc_sbrk kernel_space x s))
| step_ids f : id_call f -> active s -> proc_step s (fst (f s))
| step_chdir p : active s -> proc_step s (fst (proc_chdir p s))
| step_memory m : proc_step s (set_mach m s).

Lemma proc_step_inv s s' : proc_step s s' -> procs_inv s -> procs_inv s'.
Proof.
  intros Hst Hi. destruct Hst as [frame|ticks Ha|owner entry prio parent Hn Hp|owner entry em prio parent Hn Hp|
    owner stack image size load entry prio parent Hn Hp|frame Hn Ha|frame flags stack Hn Ha|code Hn Ha|
    actor pid Hn Hp|Hn [Hc Hu]|pid Hp|actor pid Hn Ha|pid|x Ha|x Ha|f Hf Ha|p Ha|m].
  - by apply schedule_inv.
  - unfold proc_update_time. destruct (0 <=? _); [|done]. by apply (relabels_inv s); [apply cur_proc_relabels|].
  - unfold proc_create_kernel_as. destruct (user_exists udb owner); [|done]. by apply create_internal_inv.
  - unfold proc_create_user_as. destruct (user_exists udb owner); [|done]. by apply create_user_inv.
  - by apply create_image_inv.
  - by apply proc_fork_inv.
  - by apply proc_clone_inv.
  - by apply proc_exit_inv.
  - unfold proc_kill_as. destruct (proc_can_act udb actor pid s); [|done]. cbn [negb].
    destruct (find_index_cases s pid Hi ltac:(lia)) as [(Ht & Hu & _)|[-> _]]; [|done].
    destruct (Z.ltb_spec (proc_find_index pid s) 0); [done|].
    by apply (relabels_inv s); [apply proc_terminate_relabels|].
  - apply (relabels_inv s); [|done]. apply proc_block_relabels; [done|].
    unfold proc_get_current_pid. destruct (Z.ltb_spec (current_proc s) 0); [unfold in_table in Hc; lia|].
    destruct (pi_pid s Hi _ Hc Hu). rewrite int_of_u32_small by lia. lia.
  - apply (relabels_inv s); [|done]. apply proc_unblock_relabels; [done|lia].
  - unfold proc_wait_pid_as. destruct (proc_can_act udb actor pid s); [|done]. by apply proc_wait_pid_inv.
  - by apply wait_collect_inv.
  - by apply (relabels_inv s); [apply proc_brk_relabels|].
  - by apply (relabels_inv s); [apply proc_sbrk_relabels|].
  - by apply (relabels_inv s); [apply id_call_relabels|].
  - unfold proc_chdir. destruct p as [p|]; [|done]. destruct (_ <? 0); [done|]. destruct (_ <=? _); [done|].
    apply (relabels_inv s); [|done]. destruct Ha. apply upd_relabels; [apply Hi|done|left; cbn; tauto].
  - by apply set_mach_inv.
Qed.

Lemma proc_init_inv idle s : procs_inv (proc_init kernel_stack udb idle s).
Proof.
  unfold proc_init, proc_create_kernel. apply create_internal_inv; [|done|done].
  assert (Hnull : forall m c t j, in_table j -> pcb_at (mkProcs (replicate (Z.to_nat MAX_PROCESSES) null_pcb) (-1) 1 false
    USER_CODE_BASE 0 m c t) j = null_pcb).
  { intros m c t j Hj. apply aget_replicate. exact Hj. }
  split; [by split|done|..]; intros j.
  - intros Hj _. by rewrite Hnull.
  - intros Hj. unfold used. by rewrite Hnull.
  - intros k Hj Hk. unfold used. by rewrite Hnull.
  - intros Hj. by rewrite Hnull.
Qed.
End steps.

(** ** What a process leaves behind *)
Section ending.
Context `{BootInfo} (kernel_space : address_space).

Lemma descends_live s p j : descends s p j -> in_table j /\ live (pcb_at s j) = true.
Proof. by intros []. Qed.
Lemma descends_younger s p j : parents_older s -> descends s p j -> p < PID (proc (pcb_at s j)).
Proof.
  intros Ho. induction 1 as [j Hj Hl Hp|j k Hj Hl Hk IH Hp]; specialize (Ho j Hj Hl); lia.
Qed.

(** Descent depends only on the live PCBs of the descendants. *)
Lemma descends_ext s s' p j :
  (forall k, in_table k -> live (pcb_at s k) = true -> descends s p k ->
     live (pcb_at s' k) = true /\ PID (proc (pcb_at s' k)) = PID (proc (pcb_at s k)) /\
     PPID (proc (pcb_at s' k)) = PPID (proc (pcb_at s k))) ->
  descends s p j -> descends s' p j.
Proof.
  intros Hx Hd. induction Hd as [j Hj Hl Hp|j k Hj Hl Hk IH Hp].
  - destruct (Hx j Hj Hl) as (El & Ei & Ep); [by apply desc_child|]. apply desc_child; [done|done|congruence].
  - destruct (Hx j Hj Hl) as (El & Ei & Ep); [by eapply desc_step|].
    destruct (descends_live _ _ _ Hk) as [Hkt Hkl]. destruct (Hx k Hkt Hkl Hk) as (_ & Ek & _).
    apply (desc_step s' p j k); [done|done|exact IH|congruence].
Qed.

Definition ended (code : Z) (b : PCB) : PCB := set_state PROC_ZOMBIE (set_proc (set_PExit (u32 code) (proc b)) b).
Definition woken (b : PCB) : PCB := set_state PROC_READY (set_proc (set_PWaiting NO_PID (proc b)) b).
(** Slot [j] holds the parent that waits for the process in slot [i]. *)
Definition waits_for (s : procs) (i j : Z) : bool :=
  (PID (proc (pcb_at s j)) =? PPID (proc (pcb_at s i))) && (WaitingFor (proc (pcb_at s j)) =? PID (proc (pcb_at s i))).

Lemma end_descends s i code j :
  procs_inv s -> in_table i -> used (pcb_at s i) ->
  descends s (PID (proc (pcb_at s i))) j <->
  descends (upd i (set_state PROC_ZOMBIE) (upd_proc i (set_PExit (u32 code)) s)) (PID (proc (pcb_at s i))) j.
Proof.
  intros Hi Hit Hu.
  assert (Hat : forall k, pcb_at (upd i (set_state PROC_ZOMBIE) (upd_proc i (set_PExit (u32 code)) s)) k =
    if k =? i then ended code (pcb_at s i) else pcb_at s k).
  { intros k. unfold upd_proc. rewrite !pcb_at_upd by (done || by apply upd_wf, Hi || by apply Hi).
    rewrite Z.eqb_refl. by destruct (k =? i). }
  split; apply descends_ext; intros k Hk Hl Hd.
  - rewrite Hat. destruct (Z.eqb_spec k i) as [->|]; [|done].
    pose proof (descends_younger s _ i (inv_older s Hi) Hd). lia.
  - rewrite Hat in Hl |- *. destruct (Z.eqb_spec k i) as [->|]; [done|done].
Qed.

Lemma find_index_range s pid : procs_wf s -> 0 <= proc_find_index pid s ->
  in_table (proc_find_index pid s) /\ PID (proc (pcb_at s (proc_find_index pid s))) = u32 pid.
Proof.
  intros Hw Hq. unfold proc_find_index in *. destruct (find_slot_range _ s Hw Hq) as [H1 H2].
  split; [exact H1|]. by apply Z.eqb_eq in H2.
Qed.

(** [release_parent] on a table where slot [q] may hold the parent. *)
Lemma release_parent_cases i s j :
  procs_inv s -> next_pid s < 2 ^ 31 -> in_table i -> used (pcb_at s i) -> in_table j ->
  same_frame s (release_parent i (PID (proc (pcb_at s i))) s) /\
  pcb_at (release_parent i (PID (proc (pcb_at s i))) s) j =
    if waits_for s i j then woken (pcb_at s j) else pcb_at s j.
Proof.
  intros Hi Hn Hit Hu Hj. destruct (pi_pid s Hi i Hit Hu) as [Hpid Hpp]. unfold release_parent, waits_for.
  set (pid := PID (proc (pcb_at s i))) in *. set (pp := PPID (proc (pcb_at s i))) in *.
  assert (Hnone : forall k, in_table k -> WaitingFor (proc (pcb_at s k)) = pid -> used (pcb_at s k)).
  { intros k Hk E. destruct (used_dec (pcb_at s k)) as [|E']; [done|].
    rewrite (pi_unused s Hi k Hk E') in E. cbn in E. lia. }
  assert (Hfind : 0 < pp -> forall k, in_table k -> PID (proc (pcb_at s k)) = pp -> proc_find_index pp s = k).
  { intros Hpos k Hk E. rewrite <- E. apply find_index_exact; [done|done|done|].
    destruct (used_dec (pcb_at s k)) as [|E']; [done|]. rewrite (pi_unused s Hi k Hk E') in E. cbn in E. lia. }
  destruct (Z.leb_spec 0 (proc_find_index pp s)) as [Hq|Hq].
  2: { split; [split; (done || apply Hi)|]. destruct (Z.eqb_spec (PID (proc (pcb_at s j))) pp) as [E|]; [|done].
       destruct (decide (0 < pp)) as [Hpos|]; [rewrite (Hfind Hpos j Hj E) in Hq; unfold in_table in Hj; lia|].
       destruct (Z.eqb_spec (WaitingFor (proc (pcb_at s j))) pid) as [Ew|]; [|done].
       destruct (pi_pid s Hi j Hj (Hnone j Hj Ew)). lia. }
  destruct (find_index_range s pp (pi_wf s Hi) Hq) as [Hqt Hqp]. rewrite u32_small in Hqp by lia.
  set (q := proc_find_index pp s) in *.
  destruct (Z.eqb_spec (WaitingFor (proc (pcb_at s q))) pid) as [Ew|Ew].
  - pose proof (Hnone q Hqt Ew) as Huq. destruct (pi_pid s Hi q Hqt Huq) as [Hpq _].
    set (s1 := upd_proc q (set_PWaiting NO_PID) s).
    assert (R1 : relabels s s1) by (apply upd_relabels; [apply Hi|done|by apply relabelled_proc]).
    pose proof (relabels_inv _ _ R1 Hi) as I1.
    assert (Eq1 : pcb_at s1 q = set_proc (set_PWaiting NO_PID (proc (pcb_at s q))) (pcb_at s q)).
    { unfold s1, upd_proc. rewrite pcb_at_upd by (done || apply Hi). by rewrite Z.eqb_refl. }
    assert (Ef : proc_find_index (PID (proc (pcb_at s1 q))) s1 = q).
    { apply find_index_exact; [done|done|done|]. by rewrite Eq1. }
    unfold proc_unblock. rewrite Ef. destruct (Z.ltb_spec q 0); [lia|].
    split; [split; try done; apply upd_wf, R1|]. rewrite pcb_at_upd by (done || apply R1).
    destruct (Z.eqb_spec j q) as [->|Hne].
    + rewrite Eq1, Hqp, Ew, !Z.eqb_refl. done.
    + unfold s1, upd_proc. rewrite pcb_at_upd by (done || apply Hi). destruct (Z.eqb_spec j q); [done|].
      destruct (Z.eqb_spec (PID (proc (pcb_at s j))) pp) as [E|]; [|done]. exfalso. apply Hne.
      assert (0 < pp) by lia. symmetry. by apply Hfind.
  - split; [split; (done || apply Hi)|]. destruct (Z.eqb_spec (PID (proc (pcb_at s j))) pp) as [E|]; [|done].
    destruct (Z.eqb_spec (WaitingFor (proc (pcb_at s j))) pid) as [Ew'|]; [|done].
    destruct (pi_pid s Hi j Hj (Hnone j Hj Ew')) as [Hpj _]. exfalso. apply Ew.
    assert (Eqj : q = j) by (apply Hfind; [lia|done|done]). by rewrite Eqj.
Qed.

(** [proc_terminate] of a process that is no vfork child, slot by slot. *)
Lemma proc_terminate_cases i code s :
  procs_inv s -> next_pid s < 2 ^ 31 -> in_table i -> used (pcb_at s i) -> vfork_parent (pcb_at s i) <= 0 ->
  let s' := proc_terminate kernel_space i code s in
  same_frame s s' /\
  pcb_at s' i = ended code (pcb_at s i) /\
  forall j, in_table j -> j <> i ->
    (descends s (PID (proc (pcb_at s i))) j -> pcb_at s' j = clear_pcb (pcb_at s j)) /\
    (~ descends s (PID (proc (pcb_at s i))) j ->
       pcb_at s' j = if waits_for s i j then woken (pcb_at s j) else pcb_at s j).
Proof.
  intros Hi Hn Hit Hu Hv. cbv zeta. unfold proc_terminate.
  destruct (pi_pid s Hi i Hit Hu) as [Hpid Hpp].
  set (s1 := upd i (set_state PROC_ZOMBIE) (upd_proc i (set_PExit (u32 code)) s)).
  assert (Hat1 : forall k, pcb_at s1 k = if k =? i then ended code (pcb_at s i) else pcb_at s k).
  { intros k. unfold s1, upd_proc. rewrite !pcb_at_upd by (done || by apply upd_wf, Hi || by apply Hi).
    rewrite Z.eqb_refl. by destruct (k =? i). }
  assert (R1 : relabels s s1).
  { unfold s1. eapply relabels_trans; apply upd_relabels; [apply Hi|done|by apply relabelled_proc|apply upd_wf, Hi|done|].
    apply relabelled_state; [|done|done]. unfold upd_proc. rewrite pcb_at_upd by (done || apply Hi). by rewrite Z.eqb_refl. }
  pose proof (relabels_inv _ _ R1 Hi) as I1.
  set (pid := PID (proc (pcb_at s i))) in *.
  destruct (kill_children_cases kernel_space pid s1 (pi_wf _ I1) (inv_older _ I1)) as [F2 Hat2].
  pose proof (kill_children_relabels kernel_space pid s1 I1) as R2. pose proof (relabels_inv _ _ R2 I1) as I2.
  assert (Hdesc : forall j, descends s pid j <-> descends s1 pid j) by (intros; by apply end_descends).
  assert (F1 : same_frame s s1) by (split; try done; apply R1).
  revert F2 Hat2 R2 I2. generalize (kill_children kernel_space pid s1). intros s2 F2 Hat2 R2 I2.
  assert (Hnd : ~ descends s1 pid i).
  { rewrite <- Hdesc. intros Hd. pose proof (descends_younger s pid i (inv_older s Hi) Hd). lia. }
  assert (E2i : pcb_at s2 i = ended code (pcb_at s i)).
  { rewrite (proj2 (Hat2 i Hit) Hnd), Hat1. by rewrite Z.eqb_refl. }
  assert (Evf : release_vfork_parent i s2 = s2).
  { unfold release_vfork_parent. rewrite E2i. cbn [ended set_state set_proc vfork_parent].
    destruct (Z.ltb_spec 0 (vfork_parent (pcb_at s i))); [lia|done]. }
  rewrite Evf. assert (Epid : pid = PID (proc (pcb_at s2 i))) by (by rewrite E2i). rewrite Epid.
  assert (Hn2 : next_pid s2 < 2 ^ 31) by (rewrite (sf_next _ _ F2); exact Hn).
  assert (Hu2 : used (pcb_at s2 i)) by (rewrite E2i; done).
  pose proof (fun j => release_parent_cases i s2 j I2 Hn2 Hit Hu2) as Hrel.
  split; [|split].
  - eapply same_frame_trans; [exact F1|]. eapply same_frame_trans; [exact F2|]. by apply (Hrel i).
  - rewrite (proj2 (Hrel i Hit)). unfold waits_for. rewrite E2i. cbn [ended set_state set_proc proc set_PExit PID PPID].
    destruct (Z.eqb_spec (PID (proc (pcb_at s i))) (PPID (proc (pcb_at s i)))); [fold pid in e; lia|done].
  - intros j Hj Hne. rewrite (proj2 (Hrel j Hj)). unfold waits_for. rewrite E2i. cbn [ended set_state set_proc proc set_PExit PID PPID].
    assert (E1j : pcb_at s1 j = pcb_at s j) by (rewrite Hat1; by destruct (Z.eqb_spec j i)).
    fold pid. split; intros Hd.
    + apply Hdesc in Hd. rewrite (proj1 (Hat2 j Hj) Hd), E1j. cbn [clear_pcb proc zero_proc PID WaitingFor].
      destruct (Z.eqb_spec 0 pid); [lia|]. by rewrite andb_false_r.
    + rewrite Hdesc in Hd. by rewrite (proj2 (Hat2 j Hj) Hd), E1j.
Qed.
End ending.

(** ** Properties *)
Section tree_properties.
Context `{BootInfo} (kernel_space : address_space) (kernel_stack : Z -> Z) (kmalloc_ok : Z -> bool)
  (udb : user_db).


(** C7: [proc_kill_as] by an actor who may act on the process: the process
    becomes a zombie with exit code 1, its parent is woken if it waits for it,
    and exactly its live descendants - children, their children, and so on -
    lose their slots; every other process is untouched.  The recursion of
    [proc_kill_children] ends: 65 levels are enough for any table. *)
Theorem kill_removes_subtree actor pid s i :
  procs_inv s -> next_pid s < 2 ^ 31 -> 0 < pid < 2 ^ 31 -> in_table i -> used (pcb_at s i) ->
  PID (proc (pcb_at s i)) = pid -> vfork_parent (pcb_at s i) <= 0 -> proc_can_act udb actor pid s = true ->
  let '(s', r) := proc_kill_as kernel_space udb actor pid s in
  r = 0 /\ pcb_at s' i = ended 1 (pcb_at s i) /\
  forall j, in_table j -> j <> i ->
    (descends s pid j -> pcb_at s' j = clear_pcb (pcb_at s j)) /\
    (~ descends s pid j -> pcb_at s' j = if waits_for s i j then woken (pcb_at s j) else pcb_at s j).
Proof.
  intros Hi Hn Hp Hit Hu <- Hv Ha. unfold proc_kill_as. rewrite Ha. cbn [negb].
  rewrite find_index_exact by done. pose proof (proj1 Hit). destruct (Z.ltb_spec i 0); [lia|].
  split; [done|]. apply (proc_terminate_cases kernel_space i 1 s); done.
Qed.

(** C6: a process that exits while its parent waits for it: the parent is
    made ready, the process stays behind as a zombie with the low 32 bits of
    its exit code, and when the parent goes on in [proc_wait_pid] it gets that
    code and the slot is free again. *)
Theorem exit_wakes_waiting_parent code s c q :
  procs_inv s -> next_pid s < 2 ^ 31 -> current_proc s = c -> in_table c -> used (pcb_at s c) ->
  vfork_parent (pcb_at s c) <= 0 ->
  in_table q -> PID (proc (pcb_at s q)) = PPID (proc (pcb_at s c)) ->
  WaitingFor (proc (pcb_at s q)) = PID (proc (pcb_at s c)) ->
  let '(s', next) := proc_exit kernel_space code s in
  let n := current_proc s' in
  next = Resume (context (pcb_at s' n)) /\ in_table n /\ n <> c /\ state (pcb_at s' n) = PROC_RUNNING /\
  state (pcb_at s' q) = (if q =? n then PROC_RUNNING else PROC_READY) /\
  WaitingFor (proc (pcb_at s' q)) = NO_PID /\ PID (proc (pcb_at s' q)) = PID (proc (pcb_at s q)) /\
  state (pcb_at s' c) = PROC_ZOMBIE /\
  let '(s'', r) := wait_collect kernel_space (PID (proc (pcb_at s c))) s' in
  r = u32 code /\ state (pcb_at s'' c) = PROC_UNUSED /\ forall j, j <> c -> pcb_at s'' j = pcb_at s' j.
Proof.
  intros Hi Hn Hc Hct Hu Hv Hqt Hqp Hqw. unfold proc_exit. rewrite Hc. pose proof (proj1 Hct).
  destruct (Z.ltb_spec c 0); [lia|].
  destruct (pi_pid s Hi c Hct Hu) as [Hpid Hpp].
  pose proof (proc_terminate_relabels kernel_space c code s Hi Hn Hct Hu) as R.
  destruct (proc_terminate_cases kernel_space c code s Hi Hn Hct Hu Hv) as (F & Ec & Hat).
  revert R F Ec Hat. generalize (proc_terminate kernel_space c code s). intros s1 R F Ec Hat.
  pose proof (relabels_inv _ _ R Hi) as I1. pose proof (pi_wf _ I1) as W1.
  assert (Hqc : q <> c) by (intros ->; lia).
  assert (Eq : pcb_at s1 q = woken (pcb_at s q)).
  { rewrite (proj2 (Hat q Hqt Hqc)).
    - unfold waits_for. by rewrite Hqp, Hqw, !Z.eqb_refl.
    - intros Hd. pose proof (descends_younger s _ q (inv_older s Hi) Hd). lia. }
  assert (Hqr : is_ready (pcb_at s1 q) = true) by (rewrite Eq; by apply bool_decide_eq_true).
  destruct (find_next_least s1 q W1 Hqt Hqr) as (Hn1 & Hr1 & _). pose proof (proj1 Hn1).
  destruct (Z.ltb_spec (find_next s1) 0); [lia|]. revert Hn1 Hr1. generalize (find_next s1). intros n Hn1 Hr1.
  assert (Hnc : n <> c) by (intros ->; by rewrite Ec in Hr1).
  cbv zeta. match goal with |- Resume (context (pcb_at ?x n)) = _ /\ _ => set (s3 := x) end.
  assert (Hsw : forall j, pcb_at s3 j = pcb_at (switch_to kernel_space n s1) j).
  { intros j. unfold s3. destruct (space (pcb_at s1 c)); [done| |]; by case_bool_decide. }
  assert (Hc3 : current_proc s3 = n).
  { unfold s3. destruct (space (pcb_at s1 c)); [done| |]; by case_bool_decide. }
  assert (W3 : procs_wf s3).
  { pose proof (switch_to_wf kernel_space n s1 W1 Hn1) as W2. unfold s3.
    destruct (space (pcb_at s1 c)); [done| |]; case_bool_decide; (done || by destruct W2). }
  clearbody s3. rewrite Hc3.
  assert (Hat3 : forall j, pcb_at s3 j = if j =? n then set_state PROC_RUNNING (pcb_at s1 n) else pcb_at s1 j)
    by (intros; rewrite Hsw; by apply switch_to_at).
  assert (Ec3 : pcb_at s3 c = ended code (pcb_at s c)).
  { rewrite Hat3. destruct (Z.eqb_spec c n); [congruence|done]. }
  assert (Hf : proc_find_index (PID (proc (pcb_at s c))) s3 = c).
  { unfold proc_find_index. apply find_slot_exact; [done| |].
    - rewrite Ec3. cbn [ended set_state set_proc proc set_PExit PID]. rewrite u32_small by lia. apply Z.eqb_refl.
    - intros j Hj Hne. apply Z.eqb_neq. rewrite u32_small by lia. intros E.
      assert (E1 : PID (proc (pcb_at s1 j)) = PID (proc (pcb_at s c))).
      { rewrite <- E, Hat3. by destruct (Z.eqb_spec j n) as [->|]. }
      apply Hne. apply (pi_unique s1 I1); [done|done| |rewrite Ec; done|by rewrite E1, Ec].
      destruct (used_dec (pcb_at s1 j)) as [|Eu]; [done|]. rewrite (pi_unused s1 I1 j Hj Eu) in E1. cbn in E1. lia. }
  split_and!; try done.
  - by rewrite Hat3, Z.eqb_refl.
  - rewrite Hat3. destruct (Z.eqb_spec q n); [done|by rewrite Eq].
  - rewrite Hat3. destruct (Z.eqb_spec q n) as [<-|]; by rewrite Eq.
  - rewrite Hat3. destruct (Z.eqb_spec q n) as [<-|]; by rewrite Eq.
  - by rewrite Ec3.
  - unfold wait_collect. rewrite Hf. destruct (Z.ltb_spec c 0); [lia|]. split; [by rewrite Ec3|].
    unfold proc_reap. split.
    + rewrite discard_at by done. by rewrite Z.eqb_refl.
    + intros j Hj. rewrite discard_at by done. by destruct (Z.eqb_spec j c).
Qed.
End tree_properties.

(** ** Witnesses *)
#[local] Existing Instance limine_boot.

(** The root group and its account, which owns every process of the demo. *)
Definition root_db : user_db :=
  mkDb (mkGroup (str "root") 0 ROOT true :: replicate 123 null_group)
    (mkUser 0 0 (str "root") [] [] [] true :: replicate 123 null_user) 7.

Lemma demo_slots j : in_table j -> j = 0 \/ j = 1 \/ j = 2 \/ j = 3 \/ pcb_at demo_procs j = null_pcb.
Proof.
  intros Hj. unfold in_table, MAX_PROCESSES in Hj. destruct (decide (j < 4)); [lia|]. do 4 right.
  unfold pcb_at, aget, demo_procs. cbn [proc_table]. destruct (Z.leb_spec 0 j); [|lia].
  rewrite lookup_app_r by (cbn [length]; lia). rewrite lookup_replicate_2 by (cbn [length]; lia). done.
Qed.

Lemma demo_inv : procs_inv demo_procs.
Proof.
  assert (Hnu : forall j, in_table j -> used (pcb_at demo_procs j) -> j = 0 \/ j = 1 \/ j = 2 \/ j = 3).
  { intros j Hj Hu. destruct (demo_slots j Hj) as [|[|[|[|E]]]]; try tauto. by rewrite E in Hu. }
  split; [exact demo_procs_wf|done| | | |].
  - intros j Hj E. destruct (demo_slots j Hj) as [->|[->|[->|[->|E']]]]; [done..|]. by rewrite E'.
  - intros j Hj Hu. destruct (Hnu j Hj Hu) as [->|[->|[->| ->]]]; vm_compute; repeat split; discriminate.
  - intros j k Hj Hk Huj Huk. destruct (Hnu j Hj Huj) as [->|[->|[->| ->]]], (Hnu k Hk Huk) as [->|[->|[->| ->]]];
      vm_compute; done.
  - intros j Hj E. destruct (demo_slots j Hj) as [->|[->|[->|[->|E']]]]; [done|done|done|done|]. by rewrite E' in E.
Qed.


Lemma kill_removes_subtree_witness :
  let '(s', r) := proc_kill_as demo_kernel root_db 0 3 demo_procs in
  r = 0 /\ state (pcb_at s' 2) = PROC_ZOMBIE /\ state (pcb_at s' 3) = PROC_UNUSED /\ state (pcb_at s' 1) = PROC_READY.
Proof.
  pose proof (kill_removes_subtree demo_kernel root_db 0 3 demo_procs 2 demo_inv eq_refl ltac:(done) ltac:(done)
    ltac:(done) eq_refl ltac:(done) ltac:(vm_compute; reflexivity)) as H.
  destruct (proc_kill_as demo_kernel root_db 0 3 demo_procs) as [s' r]. destruct H as (Hr & H2 & Hat).
  split; [exact Hr|]. split; [by rewrite H2|]. split.
  - rewrite (proj1 (Hat 3 ltac:(done) ltac:(done))); [reflexivity|]. by apply desc_child.
  - rewrite (proj2 (Hat 1 ltac:(done) ltac:(done))); [reflexivity|].
    intros Hd. pose proof (descends_younger demo_procs 3 1 (inv_older _ demo_inv) Hd) as Hlt. vm_compute in Hlt. discriminate.
Defined.

Lemma exit_wakes_waiting_parent_witness :
  let '(s', next) := proc_exit demo_kernel 7 demo_procs in
  state (pcb_at s' 2) = PROC_ZOMBIE /\ snd (wait_collect demo_kernel 3 s') = 7.
Proof.
  pose proof (exit_wakes_waiting_parent demo_kernel 7 demo_procs 2 1 demo_inv eq_refl eq_refl ltac:(done) ltac:(done)
    ltac:(done) ltac:(done) eq_refl eq_refl) as H.
  destruct (proc_exit demo_kernel 7 demo_procs) as [s' next]. cbv zeta in H.
  destruct H as (_ & _ & _ & _ & _ & _ & _ & Hz & H). split; [exact Hz|].
  change (PID (proc (pcb_at demo_procs 2))) with 3 in H.
  destruct (wait_collect demo_kernel 3 s') as [s'' r]. destruct H as (Hr & _). rewrite Hr. reflexivity.
Defined.
