(* ===== verification/Credentials.v ===== *)
(** * Ids, permissions, the break and the working directory of a process

    What the operations of [Proc] on the current process guarantee: which ids
    a process can reach, who may act on whom, the bounds of the program break,
    and what [proc_exit] does with an address space. *)

From S2P Require Import Prelude PhysMem Pmm Vmm User ProcMem Proc Scheduler ProcTree.
From stdpp Require Import strings.
#[local] Open Scope Z_scope.

(** ** User and group ids *)
Section ids.
Context (udb : user_db).

Definition uids (p : Proc_t) : list Z := [Owner p; EUID p; SavedUID p].
Definition gids (p : Proc_t) : list Z := [Group p; EGroup p; SavedGID p].

(** The calls a program can make; [proc_apply_setuid_exec] is not one. *)
Inductive id_syscall : (procs -> procs * Z) -> Prop :=
| sys_setuid u : id_syscall (proc_setuid udb u)
| sys_seteuid u : id_syscall (proc_seteuid udb u)
| sys_setreuid r e : id_syscall (proc_setreuid udb r e)
| sys_setgid g : id_syscall (proc_setgid udb g)
| sys_setegid g : id_syscall (proc_setegid udb g)
| sys_setregid r e : id_syscall (proc_setregid udb r e)
| sys_setresgid r e sg : id_syscall (proc_setresgid udb r e sg).
Inductive id_step (s : procs) : procs -> Prop :=
| id_step_call f : id_syscall f -> id_step s (fst (f s)).

Lemma cur_set f s : procs_wf s -> in_table (current_proc s) ->
  procs_wf (set_cur f s) /\ current_proc (set_cur f s) = current_proc s /\ cur (set_cur f s) = f (cur s) /\
  forall j, j <> current_proc s -> pcb_at (set_cur f s) j = pcb_at s j.
Proof.
  intros Hw Hc. unfold set_cur, upd_proc, cur. split; [by apply upd_wf|]. split; [done|].
  change (current_proc (upd _ _ s)) with (current_proc s). rewrite pcb_at_upd by done. rewrite Z.eqb_refl.
  split; [done|]. intros j Hj. rewrite pcb_at_upd by done. by destruct (Z.eqb_spec j (current_proc s)).
Qed.

(** Without root the three ids are only ever permuted or copied. *)
Lemma setre_within real eff saved r e :
  let '(r1, e1, s1, _) := setre false real eff saved r e in
  r1 ∈ [real; eff; saved] /\ e1 ∈ [real; eff; saved] /\ s1 ∈ [real; eff; saved].
Proof.
  unfold setre. rewrite andb_true_r.
  repeat match goal with |- context [Z.eqb ?a ?b] => destruct (Z.eqb_spec a b); subst; cbn [negb andb orb] end;
    rewrite ?list_elem_of_In; cbn [In]; tauto.
Qed.

Definition not_root (p : Proc_t) : Prop := Forall (fun u => user_is_root udb u = false) (uids p).

Lemma id_syscall_within f s :
  id_syscall f -> procs_wf s -> in_table (current_proc s) -> not_root (cur s) ->
  let s' := fst (f s) in
  procs_wf s' /\ current_proc s' = current_proc s /\ uids (cur s') ⊆ uids (cur s) /\ gids (cur s') ⊆ gids (cur s) /\
  forall j, j <> current_proc s -> pcb_at s' j = pcb_at s j.
Proof.
  intros Hf Hw Hc Hnr. cbv zeta.
  assert (Hroot : user_is_root udb (EUID (cur s)) = false).
  { apply Forall_cons_1 in Hnr as [_ Hnr]. by apply Forall_cons_1 in Hnr as [? _]. }
  assert (Hset : forall g, uids (g (cur s)) ⊆ uids (cur s) -> gids (g (cur s)) ⊆ gids (cur s) ->
    procs_wf (set_cur g s) /\ current_proc (set_cur g s) = current_proc s /\ uids (cur (set_cur g s)) ⊆ uids (cur s) /\
    gids (cur (set_cur g s)) ⊆ gids (cur s) /\ forall j, j <> current_proc s -> pcb_at (set_cur g s) j = pcb_at s j).
  { intros g Hu Hg. destruct (cur_set g s Hw Hc) as (W & C & E & J). rewrite E. by split_and!. }
  assert (Hsame : forall x : Z, procs_wf (fst (s, x)) /\ current_proc (fst (s, x)) = current_proc s /\
    uids (cur (fst (s, x))) ⊆ uids (cur s) /\ gids (cur (fst (s, x))) ⊆ gids (cur s) /\
    forall j, j <> current_proc s -> pcb_at (fst (s, x)) j = pcb_at s j) by done.
  assert (Hin : forall x l, In x l -> x ∈ (l : list Z)) by (intros; by apply list_elem_of_In).
  pose proof (proj1 Hc) as Hc0.
  destruct Hf; unfold proc_setuid, proc_seteuid, proc_setreuid, proc_setgid, proc_setegid, proc_setregid, proc_setresgid;
    (destruct (Z.ltb_spec (current_proc s) 0); [lia|]); cbv zeta; rewrite Hroot; cbv iota.
  1, 2, 4, 5: match goal with |- context [if ?c then _ else _] => destruct c eqn:E end; [|apply Hsame];
    apply orb_true_iff in E; cbn [fst]; apply Hset; unfold uids, gids; cbn [set_PUids set_PGids Owner EUID SavedUID Group EGroup SavedGID];
    intros x; rewrite !list_elem_of_In; cbn [In]; destruct E as [E|E]; apply Z.eqb_eq in E; subst; tauto.
  - pose proof (setre_within (Owner (cur s)) (EUID (cur s)) (SavedUID (cur s)) r e) as Hs.
    destruct (setre _ _ _ _ _ _) as [[[o e1] sv] res]. destruct Hs as (H1 & H2 & H3). apply Hset; [|done].
    intros x Hx. unfold uids in *. cbn [set_PUids Owner EUID SavedUID] in Hx. rewrite list_elem_of_In in Hx.
    destruct Hx as [<-|[<-|[<-|[]]]]; assumption.
  - pose proof (setre_within (Group (cur s)) (EGroup (cur s)) (SavedGID (cur s)) r e) as Hs.
    destruct (setre _ _ _ _ _ _) as [[[o e1] sv] res]. destruct Hs as (H1 & H2 & H3). apply Hset; [done|].
    intros x Hx. unfold gids in *. cbn [set_PGids Group EGroup SavedGID] in Hx. rewrite list_elem_of_In in Hx.
    destruct Hx as [<-|[<-|[<-|[]]]]; assumption.
  - cbn [negb]. rewrite andb_true_l. destruct (negb _) eqn:E; [apply Hsame|]. apply negb_false_iff in E.
    apply andb_true_iff in E as [E E3]. apply andb_true_iff in E as [E1 E2].
    assert (Hal : forall x, resgid_allowed x (cur s) = true -> x <> -1 -> x ∈ gids (cur s)).
    { intros x Hx Hne. unfold resgid_allowed in Hx. apply list_elem_of_In. cbn.
      destruct (Z.eqb_spec x (-1)), (Z.eqb_spec x (Group (cur s))), (Z.eqb_spec x (EGroup (cur s))),
        (Z.eqb_spec x (SavedGID (cur s))); subst; try done; tauto. }
    cbn [fst]. apply Hset; [done|]. intros x Hx. cbn [set_PGids gids Group EGroup SavedGID] in Hx.
    rewrite list_elem_of_In in Hx.
    destruct Hx as [<-|[<-|[<-|[]]]]; cbn [set_PGids Group EGroup SavedGID];
      match goal with |- (if Z.eqb ?a ?b then _ else _) ∈ _ => destruct (Z.eqb_spec a b) end;
      [apply Hin; cbn; tauto|by apply Hal|apply Hin; cbn; tauto|by apply Hal|apply Hin; cbn; tauto|by apply Hal].
Qed.

(** C8: a process none of whose three user ids belongs to root can never
    reach an id it did not have: whatever sequence of [setuid], [seteuid],
    [setreuid], [setgid], [setegid], [setregid] and [setresgid] calls it makes,
    accepted or refused, its user ids stay among the three it started with,
    its group ids too, and no other process changes. *)
Theorem ids_never_escalate s s' :
  rtc id_step s s' -> procs_wf s -> in_table (current_proc s) -> not_root (cur s) ->
  current_proc s' = current_proc s /\ uids (cur s') ⊆ uids (cur s) /\ gids (cur s') ⊆ gids (cur s) /\
  not_root (cur s') /\ forall j, j <> current_proc s -> pcb_at s' j = pcb_at s j.
Proof.
  assert (Hmono : forall p q, uids p ⊆ uids q -> not_root q -> not_root p).
  { intros p q Hs Hq. unfold not_root in *. rewrite Forall_forall in Hq |- *. intros x Hx. apply Hq.
    by apply Hs. }
  induction 1 as [s|s s1 s' [f Hf] _ IH]; intros Hw Hc Hnr; [by split_and!|].
  destruct (id_syscall_within f s Hf Hw Hc Hnr) as (W1 & C1 & U1 & G1 & J1).
  destruct IH as (C2 & U2 & G2 & N2 & J2); [done|by rewrite C1|by apply (Hmono _ (cur s))|].
  split_and!; [congruence|by etrans|by etrans|done|]. intros j Hj. rewrite J2, J1; [done|done|congruence].
Qed.

(** [proc_setreuid] by a process that is not root checks its second
    argument after it has stored the first: with an acceptable real id and an
    effective id that is not one of its own it returns -1 and has nevertheless
    changed the real id. *)
Theorem setreuid_refuses_half_way s ruid euid :
  procs_wf s -> in_table (current_proc s) -> user_is_root udb (EUID (cur s)) = false ->
  ruid <> -1 -> euid <> -1 -> ruid = EUID (cur s) -> euid ∉ uids (cur s) ->
  let '(s', r) := proc_setreuid udb ruid euid s in
  r = -1 /\ Owner (cur s') = ruid /\ EUID (cur s') = EUID (cur s) /\ SavedUID (cur s') = SavedUID (cur s).
Proof.
  intros Hw Hc Hroot Hr He Er Hne. unfold proc_setreuid. pose proof (proj1 Hc).
  destruct (Z.ltb_spec (current_proc s) 0); [lia|]. rewrite Hroot. unfold setre.
  rewrite list_elem_of_In in Hne. cbn [uids In] in Hne. subst ruid.
  assert (euid <> Owner (cur s) /\ euid <> EUID (cur s) /\ euid <> SavedUID (cur s)) as (N1 & N2 & N3)
    by (split_and!; intros ->; tauto).
  destruct (Z.eqb_spec (EUID (cur s)) (-1)); [done|]. rewrite Z.eqb_refl. cbn [negb]. rewrite !andb_false_r.
  destruct (Z.eqb_spec euid (-1)); [done|]. destruct (Z.eqb_spec euid (Owner (cur s))); [done|].
  destruct (Z.eqb_spec euid (EUID (cur s))); [done|]. destruct (Z.eqb_spec euid (SavedUID (cur s))); [done|].
  cbn [negb andb]. destruct (cur_set (set_PUids (EUID (cur s)) (EUID (cur s)) (SavedUID (cur s))) s Hw Hc) as (_ & _ & -> & _).
  done.
Qed.

(** the [_as] calls are refused, and leave the state alone, unless the
    actor exists and either owns the process or has a strictly higher
    permission level than its owner. *)
Theorem actions_need_permission `{BootInfo} ks s actor pid :
  let owner := proc_get_owner pid s in
  (proc_can_act udb actor pid s = true <->
     user_exists udb actor = true /\ 0 <= proc_find_index pid s /\
     (actor = owner \/ user_get_perm_level udb actor < user_get_perm_level udb owner)) /\
  (proc_can_act udb actor pid s = false ->
     proc_kill_as ks udb actor pid s = (s, -1) /\ proc_block_as udb actor pid s = (s, -1) /\
     proc_unblock_as udb actor pid s = (s, -1) /\
     proc_wait_pid_as ks udb actor pid s = (s, Returned u64_error)).
Proof.
  cbv zeta. split.
  - unfold proc_can_act, proc_get_owner. destruct (user_exists udb actor); cbn [negb]; [|split; [done|intros (? & _); done]].
    destruct (Z.ltb_spec (proc_find_index pid s) 0); [split; [done|intros (_ & ? & _); lia]|].
    destruct (Z.eqb_spec actor (Owner (proc (pcb_at s (proc_find_index pid s))))) as [E|E].
    + split; [intros _|done]. split_and!; [done|done|by left].
    + rewrite Z.ltb_lt. split; [intros Hl; split_and!; [done|done|by right]|]. intros (_ & _ & [?|?]); done.
  - intros Hno. unfold proc_kill_as, proc_block_as, proc_unblock_as, proc_wait_pid_as. by rewrite Hno.
Qed.
End ids.

(** ** The program break and the working directory *)
Section current.
Context `{BootInfo} (kernel_space : address_space).

(** The break of the current process lies between the start of its heap and
    the limit, which is below the end of the user half. *)
Record brk_ok (s : procs) : Prop := {
  bk_wf : procs_wf s; bk_current : in_table (current_proc s);
  bk_start : 0 < heap_start (lay (pcb_at s (current_proc s)));
  bk_end : heap_start (lay (pcb_at s (current_proc s))) <= heap_end (lay (pcb_at s (current_proc s)))
           <= brk_limit (pcb_at s (current_proc s));
  bk_limit : brk_limit (pcb_at s (current_proc s)) < 2 ^ 47
}.

(** What a successful change of the break does to the table. *)
Definition broken_at (x : Z) (s s' : procs) : Prop :=
  procs_wf s' /\ current_proc s' = current_proc s /\
  pcb_at s' (current_proc s) = set_heap_end x (pcb_at s (current_proc s)) /\
  forall j, j <> current_proc s -> pcb_at s' j = pcb_at s j.

Lemma broken_upd x m s : procs_wf s -> in_table (current_proc s) ->
  broken_at x s (upd (current_proc s) (set_heap_end x) (set_mach m s)).
Proof.
  intros Hw Hc. assert (Hwm : procs_wf (set_mach m s)) by by destruct Hw.
  split; [by apply upd_wf|]. split; [done|]. split.
  - rewrite pcb_at_upd by done. by rewrite Z.eqb_refl.
  - intros j Hj. rewrite pcb_at_upd by done. by destruct (Z.eqb_spec j (current_proc s)).
Qed.

Lemma set_mach_id s : set_mach (mach s) s = s.
Proof. by destruct s. Qed.

Lemma proc_brk_cases x s :
  brk_ok s -> x <> 0 ->
  let b := pcb_at s (current_proc s) in
  let '(s', r) := proc_brk kernel_space x s in
  if (heap_start (lay b) <=? x) && (x <=? brk_limit b) then
    (r = heap_end (lay b) /\ broken_at x s s') \/
    (heap_end (lay b) < x /\ r = u64_error /\ proc_table s' = proc_table s /\
     exists m, grow_loop kernel_space (pages_between (page_up (heap_end (lay b))) (page_up x)) (space b)
                 (page_up (heap_end (lay b))) (cr3 s) (mach s) = (m, false))
  else r = u64_error /\ s' = s.
Proof.
  intros [Hw Hc Hst He Hl] Hx. cbv zeta. unfold proc_brk. pose proof (proj1 Hc).
  destruct (Z.ltb_spec (current_proc s) 0); [lia|]. destruct (Z.eqb_spec x 0); [done|].
  destruct (Z.ltb_spec x (heap_start (lay (pcb_at s (current_proc s))))) as [|Hlo];
    destruct (Z.leb_spec (heap_start (lay (pcb_at s (current_proc s)))) x); try lia; cbn [orb andb]; [done|].
  destruct (Z.ltb_spec (brk_limit (pcb_at s (current_proc s))) x) as [|Hhi];
    destruct (Z.leb_spec x (brk_limit (pcb_at s (current_proc s)))); try lia; [done|].
  destruct (Z.ltb_spec (heap_end (lay (pcb_at s (current_proc s)))) x) as [Hg|Hg].
  - destruct (grow_loop _ _ _ _ _ _) as [m ok] eqn:Eg. destruct ok; cbn [negb].
    + left. split; [done|]. by apply broken_upd.
    + right. split_and!; [done|done|done|]. by exists m.
  - destruct (Z.ltb_spec x (heap_end (lay (pcb_at s (current_proc s))))); (left; split; [done|]).
    + by apply broken_upd.
    + pose proof (broken_upd x (mach s) s Hw Hc) as B. by rewrite set_mach_id in B.
Qed.

(** [proc_sbrk] moves the break by [increment] and returns the old one
    exactly when the new one lies between the start of the heap and the limit
    and, for growth, memory was found; otherwise it returns -1 and the process
    table is unchanged.  Sums and differences that leave 64 bits are refused,
    not wrapped. *)
Theorem sbrk_stays_in_bounds s increment :
  brk_ok s -> - 2 ^ 63 <= increment < 2 ^ 63 ->
  let b := pcb_at s (current_proc s) in
  let old := heap_end (lay b) in
  let '(s', r) := proc_sbrk kernel_space increment s in
  (r = old /\ heap_start (lay b) <= old + increment <= brk_limit b /\ broken_at (old + increment) s s' /\ brk_ok s') \/
  (r = -1 /\ proc_table s' = proc_table s /\
   (~ (heap_start (lay b) <= old + increment <= brk_limit b) \/
    (0 < increment /\ exists m, grow_loop kernel_space (pages_between (page_up old) (page_up (old + increment))) (space b)
       (page_up old) (cr3 s) (mach s) = (m, false)))).
Proof.
  intros Hok Hinc. pose proof Hok as [Hw Hc Hst He Hl]. cbv zeta. pose proof (proj1 Hc) as Hc0.
  assert (Hold : int64 (heap_end (lay (pcb_at s (current_proc s)))) = heap_end (lay (pcb_at s (current_proc s)))).
  { unfold int64. rewrite u64_small by lia. by destruct (Z.ltb_spec (heap_end (lay (pcb_at s (current_proc s)))) (2 ^ 63)); [|lia]. }
  unfold proc_sbrk. destruct (Z.ltb_spec (current_proc s) 0); [lia|].
  set (b := pcb_at s (current_proc s)) in *. set (old := heap_end (lay b)) in *.
  assert (Hkeep : forall x s', heap_start (lay b) <= x <= brk_limit b -> broken_at x s s' -> brk_ok s').
  { intros x s' Hx (W & C & P & _). fold b in P. split; [done|by rewrite C|..]; rewrite C, P; cbn; try lia.
    - change (brk_limit (set_heap_end x b)) with (brk_limit b). lia.
    - change (brk_limit (set_heap_end x b)) with (brk_limit b). lia. }
  destruct (Z.eqb_spec increment 0) as [->|Hne].
  { left. rewrite Hold, Z.add_0_r. split; [done|]. split; [done|]. split; [|done]. split; [done|]. split; [done|].
    split; [|done]. fold b. unfold old, set_heap_end. by destruct b as [? ? ? ? ? [] ? ?]. }
  assert (Hto : forall x, x = old + increment -> 0 < x ->
    let '(s', r) := (let '(s', r) := proc_brk kernel_space x s in if r =? u64_error then (s', -1) else (s', int64 old)) in
    (r = old /\ heap_start (lay b) <= old + increment <= brk_limit b /\ broken_at (old + increment) s s' /\ brk_ok s') \/
    (r = -1 /\ proc_table s' = proc_table s /\
     (~ (heap_start (lay b) <= old + increment <= brk_limit b) \/
      (0 < increment /\ exists m, grow_loop kernel_space (pages_between (page_up old) (page_up (old + increment))) (space b)
         (page_up old) (cr3 s) (mach s) = (m, false))))).
  { intros x -> Hx. pose proof (proc_brk_cases (old + increment) s Hok ltac:(lia)) as Hb. cbv zeta in Hb. fold b old in Hb.
    destruct (proc_brk kernel_space (old + increment) s) as [s' r].
    destruct (Z.leb_spec (heap_start (lay b)) (old + increment)), (Z.leb_spec (old + increment) (brk_limit b)); cbn [andb] in Hb.
    2-4: destruct Hb as [-> ->]; right; split; [done|]; split; [done|]; left; lia.
    destruct Hb as [[-> Hb]|(Hgt & -> & Ht & Hm)].
    - assert (old <> u64_error) by (unfold u64_error; lia). destruct (Z.eqb_spec old u64_error); [done|]. left.
      rewrite Hold. split; [done|]. split; [lia|]. split; [done|]. by apply (Hkeep (old + increment)); [lia|].
    - right. split; [done|]. split; [done|]. right. split; [lia|done]. }
  destruct (Z.ltb_spec 0 increment) as [Hp|Hp].
  - rewrite u64_small by lia. destruct (Z.ltb_spec (old + increment) old); [lia|]. apply Hto; lia.
  - rewrite (u64_small (- increment)) by lia. rewrite (u64_small (old - heap_start (lay b))) by lia.
    destruct (Z.ltb_spec (old - heap_start (lay b)) (- increment)).
    + right. split; [done|]. split; [done|]. left. lia.
    + rewrite u64_small by lia. apply Hto; lia.
Qed.

(** [proc_getcwd] returns the path given to the last [proc_chdir], if the
    buffer has room for it and its NUL; a path of 256 bytes or more is refused
    and changes nothing, so a stored path always has its NUL inside the array. *)
Theorem chdir_getcwd s p size :
  procs_wf s -> in_table (current_proc s) -> 0 <= size ->
  let '(s', r) := proc_chdir (Some p) s in
  (if Z.of_nat (length p) <? 256 then
     r = 0 /\ proc_getcwd size s' = (if Z.of_nat (length p) <? size then Some p else None)
   else r = -1 /\ s' = s) /\
  forall j, j <> current_proc s -> pcb_at s' j = pcb_at s j.
Proof.
  intros Hw Hc Hs. pose proof (proj1 Hc). unfold proc_chdir. destruct (Z.ltb_spec (current_proc s) 0); [lia|].
  destruct (Z.leb_spec 256 (Z.of_nat (length p))), (Z.ltb_spec (Z.of_nat (length p)) 256); try lia; [done|].
  split; [|intros j Hj; rewrite pcb_at_upd by done; by destruct (Z.eqb_spec j (current_proc s))].
  split; [done|]. unfold proc_getcwd. change (current_proc (upd _ _ s)) with (current_proc s).
  destruct (Z.ltb_spec (current_proc s) 0); [lia|]. rewrite orb_false_r.
  rewrite pcb_at_upd by done. rewrite Z.eqb_refl. cbn [set_cwd cwd].
  destruct (Z.eqb_spec size 0), (Z.ltb_spec size (Z.of_nat (length p) + 1)), (Z.ltb_spec (Z.of_nat (length p)) size);
    (done || lia).
Qed.

(** a process that exits destroys its address space, yet its PCB keeps the
    pointer: when its parent collects it the space is destroyed a second time,
    after its pages may have been given out again.  And a process that shares
    the space (made by [clone] with CLONE_VM) keeps running on it. *)
Theorem exit_destroys_twice code s c va :
  procs_inv s -> next_pid s < 2 ^ 31 -> current_proc s = c -> in_table c -> used (pcb_at s c) ->
  vfork_parent (pcb_at s c) <= 0 -> space (pcb_at s c) = AS_AT va ->
  let '(s', next) := proc_exit kernel_space code s in
  0 <= current_proc s' -> space (pcb_at s' (current_proc s')) <> AS_AT va ->
  (exists m, mach s' = vmm_destroy_address_space kernel_space (AS_AT va) m) /\
  space (pcb_at s' c) = AS_AT va /\
  mach (fst (wait_collect kernel_space (PID (proc (pcb_at s c))) s')) =
    vmm_destroy_address_space kernel_space (AS_AT va) (mach s') /\
  forall q, in_table q -> q <> c -> used (pcb_at s q) -> PID (proc (pcb_at s q)) < PID (proc (pcb_at s c)) ->
    space (pcb_at s q) = AS_AT va -> space (pcb_at s' q) = AS_AT va.
Proof.
  intros Hi Hn Hc Hct Hu Hv Hsp. unfold proc_exit. rewrite Hc. pose proof (proj1 Hct).
  destruct (Z.ltb_spec c 0); [lia|].
  destruct (pi_pid s Hi c Hct Hu) as [Hpid _].
  pose proof (proc_terminate_relabels kernel_space c code s Hi Hn Hct Hu) as R.
  destruct (proc_terminate_cases kernel_space c code s Hi Hn Hct Hu Hv) as (F & Ec & Hat).
  revert R F Ec Hat. generalize (proc_terminate kernel_space c code s). intros s1 R F Ec Hat.
  pose proof (relabels_inv _ _ R Hi) as I1. pose proof (pi_wf _ I1) as W1.
  destruct (Z.ltb_spec (find_next s1) 0) as [Hneg|Hn0].
  { unfold halt. cbn [set_current current_proc]. lia. }
  destruct (find_next_cases s1 W1) as [(Hn1 & Hr1 & _)|[E _]]; [|lia].
  revert Hn0 Hn1 Hr1. generalize (find_next s1). intros n Hn0 Hn1 Hr1.
  assert (Es1 : space (pcb_at s1 c) = AS_AT va) by by rewrite Ec.
  assert (Hnc : n <> c) by (intros ->; by rewrite Ec in Hr1).
  rewrite Es1. cbv zeta.
  assert (Hsw : forall j, pcb_at (switch_to kernel_space n s1) j = if j =? n then set_state PROC_RUNNING (pcb_at s1 n) else pcb_at s1 j)
    by (intros; by apply switch_to_at).
  pose proof (switch_to_wf kernel_space n s1 W1 Hn1) as W2.
  assert (Hspace : forall j, space (pcb_at (switch_to kernel_space n s1) j) = space (pcb_at s1 j)).
  { intros j. rewrite Hsw. by destruct (Z.eqb_spec j n) as [->|]. }
  intros _ Hne. case_bool_decide as Eq.
  { exfalso. apply Hne. rewrite switch_to_current. done. }
  clear Hne. set (m1 := mach (switch_to kernel_space n s1)).
  split; [by exists m1|]. split; [change (space (pcb_at (switch_to kernel_space n s1) c) = AS_AT va); by rewrite Hspace|].
  split.
  - unfold wait_collect. set (s3 := set_mach _ _).
    assert (Hat3 : forall j, pcb_at s3 j = pcb_at (switch_to kernel_space n s1) j) by done.
    assert (Ec3 : pcb_at s3 c = ended code (pcb_at s c)).
    { rewrite Hat3, Hsw. by destruct (Z.eqb_spec c n); [congruence|]. }
    assert (Hf : proc_find_index (PID (proc (pcb_at s c))) s3 = c).
    { unfold proc_find_index. apply find_slot_exact; [done| |].
      - rewrite Ec3. cbn [ended set_state set_proc proc set_PExit PID]. rewrite u32_small by lia. apply Z.eqb_refl.
      - intros j Hj Hjc. apply Z.eqb_neq. rewrite u32_small by lia. intros E.
        assert (E1 : PID (proc (pcb_at s1 j)) = PID (proc (pcb_at s c))).
        { rewrite <- E, Hat3, Hsw. by destruct (Z.eqb_spec j n) as [->|]. }
        apply Hjc. apply (pi_unique s1 I1); [done|done| |rewrite Ec; done|by rewrite E1, Ec].
        destruct (used_dec (pcb_at s1 j)) as [|Eu]; [done|]. rewrite (pi_unused s1 I1 j Hj Eu) in E1. cbn in E1. lia. }
    rewrite Hf. destruct (Z.ltb_spec c 0); [lia|]. cbn [fst]. unfold proc_reap, discard.
    assert (E3 : space (pcb_at s3 c) = AS_AT va) by (rewrite Ec3; exact Hsp). rewrite E3. reflexivity.
  - intros q Hq Hqc Hqu Hlt Hqs. change (space (pcb_at (switch_to kernel_space n s1) q) = AS_AT va). rewrite Hspace.
    rewrite (proj2 (Hat q Hq Hqc)).
    + by destruct (waits_for s c q).
    + intros Hd. pose proof (descends_younger s _ q (inv_older s Hi) Hd). lia.
Qed.
End current.

(** ** Witnesses *)
#[local] Existing Instance limine_boot.

(** A user who is not root (uid 1, of the group 1), running. *)
Definition user_db1 : user_db :=
  mkDb (mkGroup (str "root") 0 ROOT true :: mkGroup (str "users") 1 USER true :: replicate 122 null_group)
    (mkUser 0 0 (str "root") [] [] [] true :: mkUser 1 1 (str "ann") [] [] [] true ::
     mkUser 2 1 (str "bob") [] [] [] true :: replicate 121 null_user) 7.
Definition user_pcb (pid ppid : Z) (st : ProcState) (sp : as_ptr) : PCB :=
  mkPCB (mkProc pid ppid 0 0 NO_PID 0 PROC_TYPE_USER 1 2 2 1 1 1) st zero_regs sp 4096
    (mkLayout 0x100000 0x101000 0x20000000 0x21000000 0x101000 0x101000) (-1) [47].
Definition user_procs : procs :=
  mkProcs ([demo_pcb 1 0 NO_PID PROC_READY 10; user_pcb 2 1 PROC_READY (AS_AT 0x5000);
            user_pcb 3 2 PROC_RUNNING (AS_AT 0x5000)] ++ replicate 61 null_pcb)
    2 4 true USER_CODE_BASE 0 small_machine 0x7000 0.

Lemma user_procs_wf : procs_wf user_procs.
Proof. by split. Qed.
Lemma user_not_root : not_root user_db1 (cur user_procs).
Proof. repeat (constructor; [vm_compute; reflexivity|]). constructor. Qed.

Lemma ids_never_escalate_witness :
  let s' := fst (proc_setuid user_db1 1 user_procs) in
  EUID (cur s') = 1 /\ uids (cur s') ⊆ [1; 2; 2] /\ not_root user_db1 (cur s').
Proof.
  cbv zeta. split; [vm_compute; reflexivity|].
  destruct (ids_never_escalate user_db1 user_procs (fst (proc_setuid user_db1 1 user_procs))) as (_ & H1 & _ & H2 & _).
  - apply rtc_once. apply id_step_call. apply sys_setuid.
  - exact user_procs_wf.
  - vm_compute. split; [discriminate|reflexivity].
  - exact user_not_root.
  - split; [exact H1|exact H2].
Defined.

Lemma setreuid_refuses_half_way_witness :
  let '(s', r) := proc_setreuid user_db1 2 0 user_procs in
  r = -1 /\ Owner (cur user_procs) = 1 /\ Owner (cur s') = 2.
Proof.
  pose proof (setreuid_refuses_half_way user_db1 user_procs 2 0 user_procs_wf) as H.
  destruct (proc_setreuid user_db1 2 0 user_procs) as [s' r].
  destruct H as (H1 & H2 & _); [vm_compute; split; [discriminate|reflexivity]|vm_compute; reflexivity|done|done|reflexivity| |].
  { rewrite list_elem_of_In. vm_compute. intros [H|[H|[H|H]]]; [discriminate|discriminate|discriminate|exact H]. }
  split; [exact H1|]. split; [reflexivity|exact H2].
Defined.

Lemma user_brk_ok : brk_ok user_procs.
Proof. split; [exact user_procs_wf|..]; vm_compute; repeat split; discriminate. Qed.

Lemma sbrk_stays_in_bounds_witness :
  brk_limit (pcb_at user_procs 2) = 0x20000000 /\
  snd (proc_sbrk (vmm_init 0x7000) 0x20000000 user_procs) = -1.
Proof.
  split; [reflexivity|].
  pose proof (sbrk_stays_in_bounds (vmm_init 0x7000) user_procs 0x20000000 user_brk_ok ltac:(lia)) as H. cbv zeta in H.
  destruct (proc_sbrk (vmm_init 0x7000) 0x20000000 user_procs) as [s' r]. cbn [snd].
  destruct H as [(_ & H & _)|(H & _)]; [|exact H]. exfalso. vm_compute in H. destruct H as [_ H]. apply H. reflexivity.
Defined.

Lemma chdir_getcwd_witness :
  let '(s', r) := proc_chdir (Some (str "/home/ann")) user_procs in
  r = 0 /\ proc_getcwd 10 s' = Some (str "/home/ann").
Proof.
  pose proof (chdir_getcwd user_procs (str "/home/ann") 10 user_procs_wf) as H.
  destruct (proc_chdir (Some (str "/home/ann")) user_procs) as [s' r].
  destruct H as [H _]; [vm_compute; split; [discriminate|reflexivity]|done|]. exact H.
Defined.

Lemma actions_need_permission_witness :
  proc_can_act user_db1 2 3 user_procs = false /\
  proc_kill_as (vmm_init 0x7000) user_db1 2 3 user_procs = (user_procs, -1).
Proof.
  assert (E : proc_can_act user_db1 2 3 user_procs = false) by (vm_compute; reflexivity).
  split; [exact E|]. apply (actions_need_permission user_db1 (vmm_init 0x7000) user_procs 2 3). exact E.
Defined.

Lemma user_slots j : in_table j -> j = 0 \/ j = 1 \/ j = 2 \/ pcb_at user_procs j = null_pcb.
Proof.
  intros Hj. unfold in_table, MAX_PROCESSES in Hj. destruct (decide (j < 3)); [lia|]. do 3 right.
  unfold pcb_at, aget, user_procs. cbn [proc_table]. destruct (Z.leb_spec 0 j); [|lia].
  rewrite lookup_app_r by (cbn [length]; lia). rewrite lookup_replicate_2 by (cbn [length]; lia). done.
Qed.
Lemma user_inv : procs_inv user_procs.
Proof.
  assert (Hnu : forall j, in_table j -> used (pcb_at user_procs j) -> j = 0 \/ j = 1 \/ j = 2).
  { intros j Hj Hu. destruct (user_slots j Hj) as [|[|[|E]]]; try tauto. by rewrite E in Hu. }
  split; [exact user_procs_wf|done| | | |].
  - intros j Hj E. destruct (user_slots j Hj) as [->|[->|[->|E']]]; [done..|]. by rewrite E'.
  - intros j Hj Hu. destruct (Hnu j Hj Hu) as [->|[->| ->]]; vm_compute; repeat split; discriminate.
  - intros j k Hj Hk Huj Huk. destruct (Hnu j Hj Huj) as [->|[->| ->]], (Hnu k Hk Huk) as [->|[->| ->]]; vm_compute; done.
  - intros j Hj E. destruct (user_slots j Hj) as [->|[->|[->|E']]]; [done|done|done|]. by rewrite E' in E.
Qed.

Lemma exit_destroys_twice_witness :
  let '(s', next) := proc_exit (vmm_init 0x7000) 0 user_procs in
  current_proc s' = 0 /\ space (pcb_at s' 1) = AS_AT 0x5000 /\
  mach (fst (wait_collect (vmm_init 0x7000) 3 s')) = vmm_destroy_address_space (vmm_init 0x7000) (AS_AT 0x5000) (mach s').
Proof.
  pose proof (exit_destroys_twice (vmm_init 0x7000) 0 user_procs 2 0x5000 user_inv eq_refl eq_refl ltac:(done) ltac:(done)
    ltac:(done) eq_refl) as H.
  assert (Hc : current_proc (fst (proc_exit (vmm_init 0x7000) 0 user_procs)) = 0) by (vm_compute; reflexivity).
  assert (Hs : space (pcb_at (fst (proc_exit (vmm_init 0x7000) 0 user_procs)) 0) = AS_NULL) by (vm_compute; reflexivity).
  destruct (proc_exit (vmm_init 0x7000) 0 user_procs) as [s' next]. cbn [fst] in Hc, Hs. rewrite Hc in H.
  destruct (H ltac:(done)) as (_ & _ & H1 & H2); [by rewrite Hs|].
  split; [exact Hc|]. split; [by apply (H2 1)|exact H1].
Defined.
