(* ===== verification/Elf.v ===== *)
(** * The ELF loader (src/kernel/loaders/bin_loader.c)

    The validation of the header, the range of addresses the loadable segments
    take, and the flat image they are read into.

    The file is reached through a reader: the class [Reader] is what
    [elf_read_at] promises, and Loader.v gives it with the calls of the VFS.
    The theorems are about any reader of a fixed file.  A store outside the
    buffer it is meant for is undefined in C: the loader then has no result. *)

From S2P Require Import Prelude Bytes StateMonad.
#[local] Open Scope Z_scope.

Definition ELFCLASS64 : Z := 2.
Definition ELFDATA2LSB : Z := 1.
Definition ET_EXEC : Z := 2.
Definition EM_X86_64 : Z := 62.
Definition PT_LOAD : Z := 1.
Definition BIN_MAX_IMAGE_SIZE : Z := 0x20000000.
Definition BIN_MAX_PHDRS : Z := 64.
Definition EHDR_SIZE : Z := 64.
Definition PHDR_SIZE : Z := 56.
Definition UINT64_MAX : Z := 2 ^ 64 - 1.

Definition get64 (l : list Z) (o : Z) : Z := get32 l o + 2 ^ 32 * get32 l (o + 4).

(** Fields of [Elf64_Ehdr] and [Elf64_Phdr]. *)
Definition e_type (h : list Z) : Z := get16 h 16.
Definition e_machine (h : list Z) : Z := get16 h 18.
Definition e_entry (h : list Z) : Z := get64 h 24.
Definition e_phoff (h : list Z) : Z := get64 h 32.
Definition e_phentsize (h : list Z) : Z := get16 h 54.
Definition e_phnum (h : list Z) : Z := get16 h 56.
Definition p_type (p : list Z) : Z := get32 p 0.
Definition p_offset (p : list Z) : Z := get64 p 8.
Definition p_vaddr (p : list Z) : Z := get64 p 16.
Definition p_filesz (p : list Z) : Z := get64 p 32.
Definition p_memsz (p : list Z) : Z := get64 p 40.

(** Whether [elf_validate] returns 0. *)
Definition elf_validate (h : list Z) : bool :=
  negb (negb (aget 0 h 0 =? 0x7F) || negb (aget 0 h 1 =? 69) || negb (aget 0 h 2 =? 76) || negb (aget 0 h 3 =? 70)) &&
  (aget 0 h 4 =? ELFCLASS64) && (aget 0 h 5 =? ELFDATA2LSB) && (e_type h =? ET_EXEC) && (e_machine h =? EM_X86_64) &&
  negb (e_phnum h =? 0) && negb (e_phentsize h <? PHDR_SIZE) && negb (BIN_MAX_PHDRS <? e_phnum h).

(** The program headers, one after the other. *)
Definition phdr_at (phdrs h : list Z) (i : Z) : list Z := slice (i * e_phentsize h) PHDR_SIZE phdrs.
Definition all_phdrs (phdrs h : list Z) : list (list Z) := map (phdr_at phdrs h) (seqZ 0 (e_phnum h)).
Definition loadable (p : list Z) : bool := (p_type p =? PT_LOAD) && negb (p_memsz p =? 0).

(** The loop: base, end and number of the segments so far; [None]: corrupt. *)
Fixpoint parse_loop (l : list (list Z)) (base end_ n : Z) : option (Z * Z * Z) :=
  match l with
  | [] => Some (base, end_, n)
  | p :: l' =>
      if negb (loadable p) then parse_loop l' base end_ n
      else
        let base' := if p_vaddr p <? base then p_vaddr p else base in
        let seg_end := u64 (p_vaddr p + p_memsz p) in
        let end' := if end_ <? seg_end then seg_end else end_ in
        if p_memsz p <? p_filesz p then None else parse_loop l' base' end' (n + 1)
  end.
Definition elf_parse_load_range (phs : list (list Z)) : option (Z * Z) :=
  match parse_loop phs UINT64_MAX 0 0 with
  | Some (base, end_, n) => if n =? 0 then None else Some (base, end_)
  | None => None
  end.

(** [elf_read_at fd off size]: the bytes, or [None] when it fails.  [room] is
    what the buffer holds. *)
Class Reader (S : Type) := elf_read_at : Z -> Z -> Z -> M S (option (list Z)).

Section loader.
Context {S : Type} `{!Reader S} (heap_left : Z -> bool).

Fixpoint elf_read_segments (phs : list (list Z)) (flat_img : list Z) (load_base : Z) : M S (option (list Z)) :=
  match phs with
  | [] => ret (Some flat_img)
  | p :: phs' =>
      if negb (loadable p) then elf_read_segments phs' flat_img load_base
      else
        let flat_size := Z.of_nat (length flat_img) in
        let buf_off := u64 (p_vaddr p - load_base) in
        if flat_size <? u64 (buf_off + p_memsz p) then ret None
        else if 0 <? p_filesz p then
          if 0xFFFFFFFF <? p_offset p then ret None
          else
            let* r := elf_read_at (u32 (p_offset p)) (p_filesz p) (flat_size - buf_off) in
            match r with
            | None => ret None
            | Some bytes => elf_read_segments phs' (write_at flat_img buf_off bytes) load_base
            end
        else elf_read_segments phs' flat_img load_base
  end.

(** [elf_open_and_load] between the open and the close: the image, its base
    and the entry. *)
Definition elf_load : M S (option (list Z * Z * Z)) :=
  let* r := elf_read_at 0 EHDR_SIZE EHDR_SIZE in
  match r with
  | None => ret None
  | Some h =>
      if negb (elf_validate h) then ret None
      else
        let phdrs_bytes := e_phnum h * e_phentsize h in
        if negb (heap_left phdrs_bytes) then ret None
        else if 0xFFFFFFFF <? e_phoff h then ret None
        else
          let* r := elf_read_at (u32 (e_phoff h)) phdrs_bytes phdrs_bytes in
          match r with
          | None => ret None
          | Some phdrs =>
              let phs := all_phdrs phdrs h in
              match elf_parse_load_range phs with
              | None => ret None
              | Some (load_base, load_end) =>
                  let flat_size := u64 (load_end - load_base) in
                  if flat_size =? 0 then ret None
                  else if BIN_MAX_IMAGE_SIZE <? flat_size then ret None
                  else if (e_entry h <? load_base) || (load_end <=? e_entry h) then ret None
                  else if negb (heap_left flat_size) then ret None
                  else
                    let* r := elf_read_segments phs (replicate (Z.to_nat flat_size) 0) load_base in
                    match r with
                    | None => ret None
                    | Some flat_img => ret (Some (flat_img, load_base, e_entry h))
                    end
              end
          end
  end.
End loader.

(** ** What the image must be *)

(** The byte at address [a] of the process: from the last segment of the file
    that has it, else 0. *)
Definition seg_byte (file : list Z) (a b : Z) (p : list Z) : Z :=
  if loadable p && (p_vaddr p <=? a) && (a <? p_vaddr p + p_filesz p)
  then aget 0 file (p_offset p + (a - p_vaddr p)) else b.
Definition image_byte (file : list Z) (phs : list (list Z)) (a : Z) : Z := fold_left (seg_byte file a) phs 0.

(** A file of a reader: in the states of [I] a read of bytes the file has
    returns them, and one of bytes it has not fails, if the buffer is large
    enough. *)
Class ReaderLaws (S : Type) `{!Reader S} (I : S -> Prop) (file : list Z) := {
  reader_reads : forall off size room s, I s -> 0 <= off < 2 ^ 32 -> 0 < size < 2 ^ 31 -> size <= room ->
    wp (elf_read_at off size room) (fun r s' => I s' /\
      r = if bool_decide (off + size <= Z.of_nat (length file)) then Some (slice off size file) else None) s
}.

(** Some loadable segment is so. *)
Definition among (phs : list (list Z)) (P : list Z -> Prop) : Prop := exists p, p ∈ phs /\ loadable p = true /\ P p.

Record ranged (phs : list (list Z)) (base end_ : Z) : Prop := {
  rg_range : 0 <= base <= end_ /\ end_ < 2 ^ 64;
  rg_segments : forall p, p ∈ phs -> loadable p = true ->
    base <= p_vaddr p /\ p_vaddr p + p_memsz p <= end_ /\ p_filesz p <= p_memsz p;
  rg_base : among phs (fun p => p_vaddr p = base);
  rg_end : among phs (fun p => p_vaddr p + p_memsz p = end_)
}.

(** No segment runs over the end of the address space. *)
Definition no_wrap (phs : list (list Z)) : Prop :=
  forall p, p ∈ phs -> loadable p = true -> 0 <= p_vaddr p /\ 0 <= p_memsz p /\ p_vaddr p + p_memsz p < 2 ^ 64.

(** ** Helpers *)

Lemma get64_range l o : bytes_ok l -> 0 <= get64 l o < 2 ^ 64.
Proof.
  intros H. unfold get64. pose proof (get32_range l o H). pose proof (get32_range l (o + 4) H).
  replace (2 ^ 64) with (2 ^ 32 * 2 ^ 32) by done. nia.
Qed.

(** The fields of a header are in their ranges. *)
Lemma phdr_fields p : bytes_ok p -> 0 <= p_offset p /\ 0 <= p_vaddr p /\ 0 <= p_filesz p /\ 0 <= p_memsz p.
Proof.
  intros H. unfold p_offset, p_vaddr, p_filesz, p_memsz.
  pose proof (get64_range p 8 H). pose proof (get64_range p 16 H). pose proof (get64_range p 32 H). pose proof (get64_range p 40 H). lia.
Qed.

Lemma all_phdrs_ok phdrs h : bytes_ok phdrs -> Forall bytes_ok (all_phdrs phdrs h).
Proof.
  intros H. unfold all_phdrs. apply list.Forall_fmap, list.Forall_true. intros i. cbn. by apply bytes_slice.
Qed.

Lemma loadable_memsz p : bytes_ok p -> loadable p = true -> 0 < p_memsz p.
Proof.
  intros H [_ Hm]%andb_prop. apply negb_true_iff, Z.eqb_neq in Hm. pose proof (phdr_fields p H). lia.
Qed.

Lemma among_here p l (P : list Z -> Prop) : loadable p = true -> P p -> among (p :: l) P.
Proof. intros. exists p. split_and!; [apply list_elem_of_here|done|done]. Qed.
Lemma among_there p l P : among l P -> among (p :: l) P.
Proof. intros (q & Hq & ?). exists q. split; [by apply list_elem_of_further|done]. Qed.
Lemma no_wrap_tail p l : no_wrap (p :: l) -> no_wrap l.
Proof. intros H q Hq. apply H. by apply list_elem_of_further. Qed.

(** What the loop over the headers finds. *)
Lemma parse_loop_spec l : forall base end_ n, Forall bytes_ok l -> no_wrap l ->
  match parse_loop l base end_ n with
  | None => among l (fun p => p_memsz p < p_filesz p)
  | Some (b, e, m) =>
      (m = n /\ (forall p, p ∈ l -> loadable p = false) \/ n < m /\ among l (fun _ => True)) /\ b <= base /\ end_ <= e /\
      (forall p, p ∈ l -> loadable p = true -> b <= p_vaddr p /\ p_vaddr p + p_memsz p <= e /\ p_filesz p <= p_memsz p) /\
      (b = base \/ among l (fun p => p_vaddr p = b)) /\ (e = end_ \/ among l (fun p => p_vaddr p + p_memsz p = e))
  end.
Proof.
  induction l as [|p l IH]; intros base end_ n Hok Hnw; cbn [parse_loop].
  { split_and!; try lia; try (by left); [left; split; [done|]|]; intros p Hp; by apply not_elem_of_nil in Hp. }
  apply list.Forall_cons in Hok as [Hp Hok]. pose proof (no_wrap_tail _ _ Hnw) as Hnw'.
  destruct (loadable p) eqn:El; cbn [negb].
  - destruct (Hnw p (list_elem_of_here _ _) El) as (Hv & Hm & Hw).
    assert (u64 (p_vaddr p + p_memsz p) = p_vaddr p + p_memsz p) as -> by (apply Z.mod_small; lia).
    destruct (Z.ltb_spec (p_memsz p) (p_filesz p)); [by apply among_here|].
    specialize (IH (if p_vaddr p <? base then p_vaddr p else base)
      (if end_ <? p_vaddr p + p_memsz p then p_vaddr p + p_memsz p else end_) (n + 1) Hok Hnw').
    destruct (parse_loop l _ _ _) as [[[b e] m]|]; [|by apply among_there].
    destruct IH as (Hn & Hb & He & Hall & Hbase & Hend).
    assert (b <= base /\ b <= p_vaddr p) as [? ?] by (destruct (Z.ltb_spec (p_vaddr p) base); lia).
    assert (end_ <= e /\ p_vaddr p + p_memsz p <= e) as [? ?] by (destruct (Z.ltb_spec end_ (p_vaddr p + p_memsz p)); lia).
    split_and!; try lia.
    + right. split; [destruct Hn as [[-> _]|[? _]]; lia|by apply among_here].
    + intros q [->|Hq]%elem_of_cons Eq; [done|by apply Hall].
    + destruct Hbase as [->|?]; [|right; by apply among_there].
      destruct (p_vaddr p <? base); [right; by apply among_here|by left].
    + destruct Hend as [->|?]; [|right; by apply among_there].
      destruct (end_ <? _); [right; by apply among_here|by left].
  - specialize (IH base end_ n Hok Hnw'). destruct (parse_loop l _ _ _) as [[[b e] m]|]; [|by apply among_there].
    destruct IH as (Hn & Hb & He & Hall & Hbase & Hend). split_and!; try lia.
    + destruct Hn as [[-> Hno]|[? ?]]; [left|right; split; [done|by apply among_there]].
      split; [done|]. intros q [->|Hq]%elem_of_cons; [done|by apply Hno].
    + intros q [->|Hq]%elem_of_cons Eq; [congruence|by apply Hall].
    + destruct Hbase as [->|?]; [by left|right; by apply among_there].
    + destruct Hend as [->|?]; [by left|right; by apply among_there].
Qed.

(** The range is found exactly when there is one. *)
Lemma load_range_spec phs : Forall bytes_ok phs -> no_wrap phs ->
  match elf_parse_load_range phs with
  | Some (base, end_) => ranged phs base end_
  | None => forall base end_, ~ ranged phs base end_
  end.
Proof.
  intros Hok Hnw. unfold elf_parse_load_range. pose proof (parse_loop_spec phs UINT64_MAX 0 0 Hok Hnw) as H.
  destruct (parse_loop phs UINT64_MAX 0 0) as [[[b e] m]|].
  2: { destruct H as (p & Hp & Ep & Hlt). intros base end_ Hr. destruct (rg_segments _ _ _ Hr p Hp Ep). lia. }
  destruct H as (Hm & Hb & He & Hall & Hbase & Hend). destruct (Z.eqb_spec m 0) as [E|Hne].
  { intros base end_ Hr. destruct (rg_base _ _ _ Hr) as (p & Hp & Ep & _).
    destruct Hm as [[_ Hno]|[? _]]; [|lia]. by rewrite (Hno p Hp) in Ep. }
  destruct Hm as [[? _]|[_ (q & Hq & Eq & _)]]; [done|].
  assert (0 < p_memsz q) as Hqm by (apply loadable_memsz; [by eapply (proj1 (list.Forall_forall _ _))|done]).
  destruct (Hnw q Hq Eq) as (Hqv & _ & Hqw). destruct (Hall q Hq Eq) as (Hbq & Heq & _).
  destruct Hbase as [->|Hbase]; [unfold UINT64_MAX in *; lia|]. destruct Hend as [->|Hend]; [lia|].
  pose proof Hbase as (p & Hp & Ep & <-). pose proof Hend as (p' & Hp' & Ep' & <-).
  destruct (Hnw p Hp Ep) as (? & ? & ?). destruct (Hnw p' Hp' Ep') as (? & ? & ?). split; try done. lia.
Qed.

Lemma ranged_unique phs b e b' e' : ranged phs b e -> ranged phs b' e' -> b = b' /\ e = e'.
Proof.
  intros [_ S1 (p & Hp & Ep & <-) (q & Hq & Eq & <-)] [_ S2 (p' & Hp' & Ep' & <-) (q' & Hq' & Eq' & <-)].
  pose proof (S1 p' Hp' Ep'). pose proof (S1 q' Hq' Eq'). pose proof (S2 p Hp Ep). pose proof (S2 q Hq Eq). lia.
Qed.

Section spec.
Context {S : Type} `{!Reader S} (I : S -> Prop) (file : list Z) `{!ReaderLaws S I file}.
Context (heap_left : Z -> bool).

(** The bytes of a segment are in the file, at an offset the VFS can seek to. *)
Definition seg_in_file (p : list Z) : Prop :=
  0 < p_filesz p -> p_offset p <= 0xFFFFFFFF /\ p_offset p + p_filesz p <= Z.of_nat (length file).
#[export] Instance seg_in_file_dec p : Decision (seg_in_file p).
Proof. unfold seg_in_file. apply _. Defined.

Lemma read_segments_spec base end_ phs : forall img (f : Z -> Z) s,
  (forall p, p ∈ phs -> bytes_ok p) ->
  (forall p, p ∈ phs -> loadable p = true -> base <= p_vaddr p /\ p_vaddr p + p_memsz p <= end_ /\ p_filesz p <= p_memsz p) ->
  0 <= base -> end_ < 2 ^ 64 -> end_ - base <= BIN_MAX_IMAGE_SIZE -> Z.of_nat (length img) = end_ - base -> I s ->
  (forall a, base <= a < end_ -> aget 0 img (a - base) = f a) ->
  wp (elf_read_segments phs img base) (fun r s' => I s' /\
    match r with
    | Some img' => (forall p, p ∈ phs -> loadable p = true -> seg_in_file p) /\ Z.of_nat (length img') = end_ - base /\
        forall a, base <= a < end_ -> aget 0 img' (a - base) = fold_left (seg_byte file a) phs (f a)
    | None => among phs (fun p => ~ seg_in_file p)
    end) s.
Proof using All.
  induction phs as [|p phs IH]; intros img f s Hok Hin Hb He Hmax Hlen Hs Hf; cbn [elf_read_segments].
  { apply wp_ret. split; [done|]. split_and!; [|done|done]. intros p Hp. by apply not_elem_of_nil in Hp. }
  assert (Hp := Hok p (list_elem_of_here _ _)). destruct (phdr_fields p Hp) as (Ho & Hv & Hfs & Hms).
  assert (Hok' : forall q, q ∈ phs -> bytes_ok q) by (intros q Hq; apply Hok; by apply list_elem_of_further).
  assert (Hin' : forall q, q ∈ phs -> loadable q = true ->
    base <= p_vaddr q /\ p_vaddr q + p_memsz q <= end_ /\ p_filesz q <= p_memsz q)
    by (intros q Hq; apply Hin; by apply list_elem_of_further).
  (* The step: [seg_byte] has what the image now has. *)
  assert (Hstep : forall img', Z.of_nat (length img') = end_ - base -> (loadable p = true -> seg_in_file p) ->
    (forall a, base <= a < end_ -> aget 0 img' (a - base) = seg_byte file a (f a) p) -> forall s, I s ->
    wp (elf_read_segments phs img' base) (fun r s' => I s' /\
      match r with
      | Some img' => (forall q, q ∈ p :: phs -> loadable q = true -> seg_in_file q) /\ Z.of_nat (length img') = end_ - base /\
          forall a, base <= a < end_ -> aget 0 img' (a - base) = fold_left (seg_byte file a) (p :: phs) (f a)
      | None => among (p :: phs) (fun p => ~ seg_in_file p)
      end) s).
  { intros img' Hlen' Hseg Hf' s' Hs'. wp_call (IH img' (fun a => seg_byte file a (f a) p)); try done.
    intros [r|] s2 [Hs2 Hr]; (split; [done|]).
    - destruct Hr as (Hseg' & Hl & Ha). split_and!; [|done|done]. by intros q [->|Hq]%elem_of_cons; [|apply Hseg'].
    - by apply among_there. }
  destruct (loadable p) eqn:El; cbn [negb].
  2: { apply Hstep; [done|done| |done]. intros a Ha. unfold seg_byte. rewrite El. by apply Hf. }
  destruct (Hin p (list_elem_of_here _ _) El) as (Hpb & Hpe & Hpf).
  assert (u64 (p_vaddr p - base) = p_vaddr p - base) as -> by (apply Z.mod_small; lia).
  assert (u64 (p_vaddr p - base + p_memsz p) = p_vaddr p - base + p_memsz p) as -> by (apply Z.mod_small; lia).
  rewrite Hlen. destruct (Z.ltb_spec (end_ - base) (p_vaddr p - base + p_memsz p)); [lia|].
  unfold BIN_MAX_IMAGE_SIZE in *. destruct (Z.ltb_spec 0 (p_filesz p)) as [Hpos|Hzero].
  2: { apply Hstep; [done| | |done].
       - intros _ ?. lia.
       - intros a Ha. unfold seg_byte. rewrite El.
         destruct (Z.leb_spec (p_vaddr p) a), (Z.ltb_spec a (p_vaddr p + p_filesz p)); cbn; by (apply Hf || lia). }
  destruct (Z.ltb_spec 0xFFFFFFFF (p_offset p)) as [Hbig|Hoff].
  { apply wp_ret. split; [done|]. apply among_here; [done|]. intros Hs'. specialize (Hs' Hpos). lia. }
  assert (u32 (p_offset p) = p_offset p) as -> by (apply Z.mod_small; lia).
  apply wp_bind. wp_call (reader_reads (I := I) (file := file)); [done|lia|lia|lia|]. intros r s1 [Hs1 ->].
  case_bool_decide as Hfit.
  2: { apply wp_ret. split; [done|]. apply among_here; [done|]. intros Hs'. specialize (Hs' Hpos). lia. }
  assert (Z.of_nat (length (slice (p_offset p) (p_filesz p) file)) = p_filesz p) as Hsl by (rewrite length_slice; lia).
  apply Hstep; [by rewrite length_write_at|by intros _ _|intros a Ha|done]. unfold seg_byte. rewrite El.
  destruct (Z.leb_spec (p_vaddr p) a), (Z.ltb_spec a (p_vaddr p + p_filesz p)); cbn [andb].
  - rewrite aget_write_at_in by lia. rewrite aget_slice by lia. f_equal. lia.
  - rewrite aget_write_at_out by lia. by apply Hf.
  - rewrite aget_write_at_out by lia. by apply Hf.
  - rewrite aget_write_at_out by lia. by apply Hf.
Qed.

Lemma valid_sizes h : bytes_ok h -> elf_validate h = true -> 0 < e_phnum h <= 64 /\ 56 <= e_phentsize h < 2 ^ 16.
Proof.
  intros Hh. unfold elf_validate, BIN_MAX_PHDRS, PHDR_SIZE. rewrite !andb_true_iff, !negb_true_iff, Z.eqb_neq, !Z.ltb_ge.
  pose proof (get16_range h 56 Hh) as Hn. pose proof (get16_range h 54 Hh) as Hs. fold (e_phnum h) in Hn. fold (e_phentsize h) in Hs. lia.
Qed.

(** A file the loader takes. *)
Definition header : list Z := slice 0 EHDR_SIZE file.
Definition headers : list (list Z) := all_phdrs (slice (e_phoff header) (e_phnum header * e_phentsize header) file) header.
Record elf_ok (base end_ : Z) : Prop := {
  ek_length : EHDR_SIZE <= Z.of_nat (length file);
  ek_valid : elf_validate header = true;
  ek_phdrs : e_phoff header <= 0xFFFFFFFF /\
             e_phoff header + e_phnum header * e_phentsize header <= Z.of_nat (length file);
  ek_ranged : ranged headers base end_;
  ek_size : end_ - base <= BIN_MAX_IMAGE_SIZE;
  ek_entry : base <= e_entry header < end_;
  ek_segments : forall p, p ∈ headers -> loadable p = true -> seg_in_file p
}.

Lemma wp_none {A} (Q : option A -> S -> Prop) s : Q None s -> wp (ret None) Q s.
Proof. by intros; apply wp_ret. Qed.

(** The loader refuses the file: then the file, were it taken, contradicts. *)
Ltac reject He := apply wp_none; split; [done|]; let b := fresh in let e := fresh in intros b e He.

(** What the loader answers: the image of a file it takes. *)
Definition loaded (r : option (list Z * Z * Z)) : Prop :=
  match r with
  | Some (img, base, entry) => exists end_, elf_ok base end_ /\ entry = e_entry header /\
      Z.of_nat (length img) = end_ - base /\
      forall a, base <= a < end_ -> aget 0 img (a - base) = image_byte file headers a
  | None => forall base end_, ~ elf_ok base end_
  end.

Lemma elf_load_spec s :
  I s -> bytes_ok file -> (forall n, heap_left n = true) -> no_wrap headers ->
  wp (elf_load heap_left) (fun r s' => I s' /\ loaded r) s.
Proof using All.
  intros Hs Hfile Hheap Hnw. unfold elf_load.
  apply wp_bind. wp_call (reader_reads (I := I) (file := file)); [done|unfold EHDR_SIZE; lia..|]. intros r s1 [Hs1 ->].
  case_bool_decide as Hlen; [|reject He; destruct He; lia]. fold header.
  assert (Hh : bytes_ok header) by by apply bytes_slice.
  destruct (elf_validate header) eqn:Ev; cbn [negb]; [|reject He; destruct He; congruence].
  rewrite Hheap. cbn [negb]. pose proof (get64_range header 32 Hh) as Hoff. fold (e_phoff header) in Hoff.
  destruct (Z.ltb_spec 0xFFFFFFFF (e_phoff header)) as [Hbig|Hsmall].
  { reject He. destruct (ek_phdrs _ _ He). lia. }
  assert (u32 (e_phoff header) = e_phoff header) as -> by (apply Z.mod_small; lia).
  assert (0 < e_phnum header * e_phentsize header < 2 ^ 31) as Hsize.
  { destruct (valid_sizes _ Hh Ev). nia. }
  apply wp_bind. wp_call (reader_reads (I := I) (file := file)); [done|lia|lia|lia|]. intros r s2 [Hs2 ->].
  case_bool_decide as Hfit; [|reject He; destruct (ek_phdrs _ _ He); lia].
  fold headers.
  assert (Hok : Forall bytes_ok headers) by by apply all_phdrs_ok, bytes_slice.
  pose proof (load_range_spec headers Hok Hnw) as Hrange. destruct (elf_parse_load_range headers) as [[base end_]|].
  2: { reject He. eapply Hrange, He. }
  assert (forall b' e', elf_ok b' e' -> b' = base /\ e' = end_) as Hun by (intros b' e' He; eapply ranged_unique; [apply He|done]).
  pose proof (rg_range _ _ _ Hrange) as [Hbe Hend].
  assert (u64 (end_ - base) = end_ - base) as -> by (apply Z.mod_small; lia).
  destruct (Z.eqb_spec (end_ - base) 0).
  { reject He. destruct (Hun _ _ He) as [-> ->]. pose proof (ek_entry _ _ He). lia. }
  destruct (Z.ltb_spec BIN_MAX_IMAGE_SIZE (end_ - base)).
  { reject He. destruct (Hun _ _ He) as [-> ->]. pose proof (ek_size _ _ He). lia. }
  destruct (Z.ltb_spec (e_entry header) base); cbn [orb].
  { reject He. destruct (Hun _ _ He) as [-> ->]. pose proof (ek_entry _ _ He). lia. }
  destruct (Z.leb_spec end_ (e_entry header)).
  { reject He. destruct (Hun _ _ He) as [-> ->]. pose proof (ek_entry _ _ He). lia. }
  rewrite Hheap. cbn [negb]. apply wp_bind.
  wp_call (read_segments_spec base end_ headers (replicate (Z.to_nat (end_ - base)) 0) (fun _ => 0));
    [by apply list.Forall_forall|apply Hrange|lia|lia|done|rewrite length_replicate; lia|done| |].
  { intros a Ha. unfold aget. destruct (Z.leb_spec 0 (a - base)); [|lia].
    by rewrite lookup_replicate_2 by lia. }
  intros [img|] s3 [Hs3 Hr]; apply wp_ret; (split; [done|]).
  - destruct Hr as (Hseg & Hl & Ha). exists end_. by split_and!.
  - destruct Hr as (p & Hp & Ep & Hn). intros b' e' He. by apply Hn, (ek_segments _ _ He).
Qed.

End spec.

(** ** Examples: files in memory *)

(** The state is the file; a store that does not fit has no result. *)
#[local] Instance memory_reader : Reader (list Z) := fun off size room file =>
  if bool_decide (off + size <= Z.of_nat (length file)) then
    if room <? size then None else Some (Some (slice off size file), file)
  else Some (None, file).
#[local] Instance memory_reader_laws file : ReaderLaws (list Z) (eq file) file.
Proof.
  split. intros off size room s <- Hoff Hsize Hroom. apply wp_run. unfold elf_read_at, memory_reader.
  case_bool_decide; [|by eexists _, _]. destruct (Z.ltb_spec room size); [lia|]. by eexists _, _.
Qed.

Definition le64_bytes (v : Z) : list Z := le32 (v mod 2 ^ 32) ++ le32 (v / 2 ^ 32).
Definition demo_ehdr (phnum entry : Z) : list Z :=
  [0x7F; 69; 76; 70; 2; 1; 1; 0] ++ replicate 8 0 ++ le16 2 ++ le16 62 ++ le32 1 ++ le64_bytes entry ++ le64_bytes 64
  ++ le64_bytes 0 ++ le32 0 ++ le16 64 ++ le16 56 ++ le16 phnum ++ replicate 6 0.
Definition demo_phdr (offset vaddr filesz memsz : Z) : list Z :=
  le32 1 ++ le32 5 ++ le64_bytes offset ++ le64_bytes vaddr ++ le64_bytes vaddr ++ le64_bytes filesz ++ le64_bytes memsz ++ le64_bytes 4096.
Definition demo_elf : list Z := demo_ehdr 1 0x400001 ++ demo_phdr 120 0x400000 3 5 ++ [10; 20; 30].
(** Address and size of the second segment wrap around. *)
Definition wrapping_elf : list Z :=
  demo_ehdr 2 0x400001 ++ demo_phdr 0 0x400000 4 4 ++ demo_phdr 0 0x400002 100 (2 ^ 64 - 2).

Example demo_image : elf_load (fun _ => true) demo_elf = Some (Some ([10; 20; 30; 0; 0], 0x400000, 0x400001), demo_elf).
Proof. vm_compute. reflexivity. Qed.

(** Without [no_wrap] the theorem fails: this file passes every test and
    its second segment is read past the end of the image. *)
Lemma wrapping_segment_overruns : elf_load (fun _ => true) wrapping_elf = None /\ ~ no_wrap (headers wrapping_elf).
Proof.
  split; [vm_compute; reflexivity|]. intros H.
  destruct (H (demo_phdr 0 0x400002 100 (2 ^ 64 - 2))) as (_ & _ & Hw).
  - replace (headers wrapping_elf) with [demo_phdr 0 0x400000 4 4; demo_phdr 0 0x400002 100 (2 ^ 64 - 2)]
      by (vm_compute; reflexivity).
    apply list_elem_of_further, list_elem_of_here.
  - vm_compute. reflexivity.
  - vm_compute in Hw. discriminate Hw.
Qed.

