(* ===== verification/Syscalls.v ===== *)
(** * System calls (src/kernel/syscalls/sys.c, scman.c, arch/x86_64/syscalls.c)

    The handlers over the VFS (Vfs.v), the processes (Proc.v) and the user
    database, and the table that dispatches to them.

    The arguments are the registers, 64 bits each.  A handler reads and writes
    the memory of the caller directly, through the page tables in use; the
    strings and the socket addresses it is given stand behind their pointers
    ([strings] of the kernel, [sockaddr_at]).  A handler that has to wait
    answers [Wait], like the call of the VFS it waits in. *)

From stdpp Require Import strings.
From S2P Require Import Console.
From S2P Require Import Prelude Bytes StateMonad Errno PhysMem Pmm Vmm User ProcMem Proc.
From S2P Require Import UnixSocket BlockDev Ext2Cache Ext2 Ext2Perm Vfs.
#[local] Open Scope Z_scope.

Definition TCGETS : Z := 0x5401.
Definition O_WRONLY : Z := 1.
Definition O_RDWR : Z := 2.
Definition O_CREAT : Z := 64.
Definition ARCH_SET_GS : Z := 0x1001.
Definition ARCH_SET_FS : Z := 0x1002.
Definition ARCH_GET_FS : Z := 0x1003.
Definition ARCH_GET_GS : Z := 0x1004.

#[export] Instance procs_ops : ProcOps Proc.procs := {|
  UnixSocket.proc_get_current_pid := Proc.proc_get_current_pid;
  UnixSocket.proc_block := Proc.proc_block;
  UnixSocket.proc_unblock := Proc.proc_unblock
|}.
#[export] Instance procs_owner : VfsProcs Proc.procs := {| proc_owner p pid := proc_get_owner pid p |}.
(** The processes as the console and its devices use them. *)
Definition procs_console `{BootInfo} (kernel_space : address_space) : ConsoleProcs Proc.procs := {|
  write_to_user pid dst bytes s := Proc.proc_write_to_user kernel_space pid dst (Some (aget 0 bytes)) (Z.of_nat (length bytes)) s;
  load_bytes s a n := vread (cr3 s) a n (mach s)
|}.

Section syscalls.
Context `{BootInfo} (kernel_space : address_space) (kernel_stack : Z -> Z) (heap_left : Z -> bool).
Context {D W : Type} `{!BlockDevice D} (kmalloc_ok : nat -> bool) (garbage : list Z).
(** The registers saved at a syscall frame, and the socket address at a
    pointer. *)
Context (frame_at : Z -> Registers) (sockaddr_at : Z -> sockaddr_un).
Abbreviation vk := (kernel D Proc.procs W).

(** ** Reaching the processes and the memory of the caller *)

Definition the_procs (k : vk) : Proc.procs := procs (sockets k).
Definition set_procs (p : Proc.procs) (k : vk) : vk := set_sockets (mkSys (sock_table (sockets k)) p) k.
Definition on_procs {A} (f : Proc.procs -> Proc.procs * A) : M vk A := fun k =>
  let '(p, a) := f (the_procs k) in Some (a, set_procs p k).

(** [memcpy((void* )ptr, bytes, ...)]. *)
Definition store_user (ptr : Z) (bytes : list Z) : M vk unit :=
  on_procs (fun p => (set_mach (vwrite (cr3 p) ptr (bytes_at bytes) (Z.of_nat (length bytes)) (mach p)) p, tt)).
Definition store_all (ptr : Z) (stores : list (Z * list Z)) : M vk unit :=
  do* for_each (fun '(off, bytes) => do* store_user (u64 (ptr + off)) bytes in ret (@None unit)) stores in ret tt.
Definition load_user (ptr n : Z) (k : vk) : list Z := vread (cr3 (the_procs k)) ptr n (mach (the_procs k)).
Definition get64 (l : list Z) (o : Z) : Z := get32 l o + 2 ^ 32 * get32 l (o + 4).

(** [if (ptr) *(int* )ptr = v]. *)
Definition store_int (ptr v : Z) : M vk unit := if ptr =? 0 then ret tt else store_user ptr (le32 (u32 v)).

Definition zero_or (code r : Z) : Z := if r =? 0 then 0 else serror code.
(** A result that is an [int], or an error number for a negative one. *)
Definition or_error (code r : Z) : Z := if r <? 0 then serror code else u64 r.

(** ** Processes *)

Definition sys_getpid : M vk Z := gets (fun k => or_error ESRCH (proc_get_current_pid (the_procs k))).
Definition sys_getppid : M vk Z := gets (fun k => or_error ESRCH (proc_getppid (the_procs k))).
Definition sys_getuid : M vk Z := gets (fun k => u64 (proc_getuid (the_procs k))).
Definition sys_geteuid : M vk Z := gets (fun k => u64 (proc_geteuid (the_procs k))).
Definition sys_getgid : M vk Z := gets (fun k => u64 (proc_getgid (the_procs k))).
Definition sys_getegid : M vk Z := gets (fun k => u64 (proc_getegid (the_procs k))).

(** A call that changes ids. *)
Definition change_ids (f : user_db -> Proc.procs -> Proc.procs * Z) : M vk Z :=
  let* k := gets id in let* r := on_procs (f (user_table k)) in ret (zero_or EPERM r).
Definition sys_setuid (uid : Z) : M vk Z := change_ids (fun db => proc_setuid db (int32 uid)).
Definition sys_seteuid (uid : Z) : M vk Z := change_ids (fun db => proc_seteuid db (int32 uid)).
Definition sys_setgid (gid : Z) : M vk Z := change_ids (fun db => proc_setgid db (int32 gid)).
Definition sys_setreuid (ruid euid : Z) : M vk Z := change_ids (fun db => proc_setreuid db (int32 ruid) (int32 euid)).
Definition sys_setregid (rgid egid : Z) : M vk Z := change_ids (fun db => proc_setregid db (int32 rgid) (int32 egid)).
Definition sys_setresgid (rgid egid sgid : Z) : M vk Z :=
  change_ids (fun db => proc_setresgid db (int32 rgid) (int32 egid) (int32 sgid)).

Definition sys_setresuid (ruid euid suid : Z) : M vk Z :=
  let* k := gets id in
  let db := user_table k in
  if proc_get_current_pid (the_procs k) <? 0 then ret (serror ESRCH)
  else if negb (user_is_root db (proc_geteuid (the_procs k))) then
    let* r := on_procs (proc_setreuid db (int32 ruid) (int32 euid)) in
    ret (if r <? 0 then serror EPERM else 0)
  else
    do* on_procs (proc_setreuid db (int32 ruid) (int32 euid)) in
    do* (if negb (suid =? u64_error) then on_procs (proc_seteuid db (int32 suid)) else ret 0) in
    ret 0.

Definition sys_getresuid (ruid_ptr euid_ptr suid_ptr : Z) : M vk Z :=
  let* k := gets id in
  let r := proc_getuid (the_procs k) in
  let e := proc_geteuid (the_procs k) in
  do* store_int ruid_ptr r in
  do* store_int euid_ptr e in
  do* store_int suid_ptr e in
  ret 0.

Definition sys_getresgid (rgid_ptr egid_ptr sgid_ptr : Z) : M vk Z :=
  let* k := gets id in
  match proc_getresgid (the_procs k) with
  | None => ret (serror ESRCH)
  | Some (r, e, s) =>
      do* store_int rgid_ptr r in
      do* store_int egid_ptr e in
      do* store_int sgid_ptr s in
      ret 0
  end.

(** The frame the syscall was entered with. *)
Definition with_frame (go : Registers -> M vk Z) : M vk Z :=
  let* k := gets id in
  let frame := proc_get_syscall_frame (the_procs k) in
  if frame =? 0 then ret (serror EINVAL) else go (frame_at frame).
Definition sys_fork : M vk Z :=
  with_frame (fun frame =>
    let* child := on_procs (proc_fork kernel_space kernel_stack heap_left frame) in ret (or_error ENOMEM child)).
Definition sys_vfork : M vk Z :=
  with_frame (fun frame => let* child := on_procs (proc_vfork kernel_stack frame) in ret (or_error ENOMEM child)).
Definition sys_clone (flags child_stack : Z) : M vk Z :=
  with_frame (fun frame =>
    let* child := on_procs (proc_clone kernel_space kernel_stack heap_left frame flags child_stack) in
    ret (or_error ENOMEM child)).

(** From where [proc_wait_pid_as] has answered. *)
Definition wait4_end (pid wstatus_ptr exit_code : Z) : M vk Z :=
  if exit_code =? u64_error then ret (serror ESRCH)
  else
    do* store_int wstatus_ptr (Z.shiftl (Z.land exit_code 0xFF) 8) in
    ret pid.
Definition sys_wait4 (pid wstatus_ptr : Z) : M vk (outcome Z) :=
  let* k := gets id in
  let actor := proc_getuid (the_procs k) in
  let* r := on_procs (proc_wait_pid_as kernel_space (user_table k) actor pid) in
  match r with
  | Yielded => ret Wait
  | Returned exit_code => returns (wait4_end pid wstatus_ptr exit_code)
  end.
(** The part after the wait. *)
Definition sys_wait4_resume (pid wstatus_ptr : Z) : M vk Z :=
  let* exit_code := on_procs (wait_collect kernel_space pid) in wait4_end pid wstatus_ptr exit_code.

Definition sys_kill (pid sig : Z) : M vk Z :=
  let* k := gets id in
  let actor := proc_getuid (the_procs k) in
  if (sig =? 9) || (sig =? 15) || (sig =? 0) then
    let* r := on_procs (proc_kill_as kernel_space (user_table k) actor (int32 pid)) in
    ret (zero_or EPERM r)
  else ret 0.
Definition sys_tgkill (tgid tid sig : Z) : M vk Z := sys_kill tid sig.

Definition sys_set_tid_address (tidptr : Z) : M vk Z := gets (fun k => u64 (proc_get_current_pid (the_procs k))).

(** It does not return: what the CPU does instead. *)
Definition sys_exit_group (code : Z) : M vk cpu := on_procs (proc_exit kernel_space code).

(** [struct kernel_utsname]: six fields of 65 bytes. *)
Definition UTS_FIELD : Z := 65.
Definition uts_names : list (list Z) :=
  [str "Blackmount"; str "blackmount"; str "1.4.1"; str "#1 26.03.2026"; str "x86_64"; str "(none)"].
Definition sys_uname (buf_ptr : Z) : M vk Z :=
  if buf_ptr =? 0 then ret (serror EFAULT)
  else
    do* store_user buf_ptr (replicate (Z.to_nat (6 * UTS_FIELD)) 0) in
    do* store_all buf_ptr (imap (fun i nm => (UTS_FIELD * Z.of_nat i, nm ++ [0])) uts_names) in
    ret 0.

(** [sys_authu] has no [return]: no result is defined. *)
Definition sys_authu (username password : Z) : M vk (option Z) :=
  ret (if (username =? 0) || (password =? 0) then Some (serror EFAULT) else None).

(** The two MSRs are the result and the argument. *)
Definition sys_arch_prctl (code addr : Z) (fs_gs : Z * Z) : M vk (Z * (Z * Z)) :=
  let c := int32 code in
  if c =? ARCH_SET_FS then ret (0, (addr, snd fs_gs))
  else if c =? ARCH_GET_FS then
    if addr =? 0 then ret (serror EFAULT, fs_gs)
    else do* store_user addr (Vfs.le64 (fst fs_gs)) in ret (0, fs_gs)
  else if c =? ARCH_SET_GS then ret (0, (fst fs_gs, addr))
  else if c =? ARCH_GET_GS then
    if addr =? 0 then ret (serror EFAULT, fs_gs)
    else do* store_user addr (Vfs.le64 (snd fs_gs)) in ret (0, fs_gs)
  else ret (serror EINVAL, fs_gs).

(** ** Working directory and memory *)

Definition sys_getcwd (buf_ptr size : Z) : M vk Z :=
  if (buf_ptr =? 0) || (size =? 0) then ret (serror EFAULT)
  else
    let* k := gets id in
    match proc_getcwd size (the_procs k) with
    | None => ret (serror ERANGE)
    | Some d => do* store_user buf_ptr (d ++ [0]) in ret buf_ptr
    end.

Definition sys_mmap (length : Z) : M vk Z :=
  if length =? 0 then ret (serror EINVAL)
  else
    let* result := on_procs (proc_brk kernel_space 0) in
    if result =? u64_error then ret (serror ENOMEM)
    else
      let aligned := Z.land (u64 (length + 4095)) (u64 (Z.lnot 4095)) in
      let* new_brk := on_procs (proc_sbrk kernel_space (int64 aligned)) in
      if u64 new_brk =? u64_error then ret (serror ENOMEM) else ret (u64 new_brk).
Definition sys_munmap (addr length : Z) : M vk Z := ret 0.
Definition sys_mprotect (addr length prot : Z) : M vk Z := ret 0.
Definition sys_umask (mask : Z) : M vk Z := ret 18.

(** ** Files: what the rootfs is asked directly *)

(** [struct kernel_stat], packed: the stores of [fill_stat_from_inode]. *)
Definition fill_stat_from_inode (inode : list Z) : list (Z * list Z) :=
  [(8, Vfs.le64 0); (0, Vfs.le64 0); (16, Vfs.le64 (i_links_count inode)); (24, le32 (i_mode inode)); (28, le32 (i_uid inode));
   (32, le32 (i_gid inode)); (36, le32 0); (40, Vfs.le64 0); (48, Vfs.le64 (i_size inode)); (56, Vfs.le64 4096);
   (64, Vfs.le64 (get32 inode 28)); (72, Vfs.le64 (get32 inode 8)); (80, Vfs.le64 0); (88, Vfs.le64 (get32 inode 16));
   (96, Vfs.le64 0); (104, Vfs.le64 (get32 inode 12)); (112, Vfs.le64 0)].

(** Run a call of the driver on [rootfs]; the calls answer [null] for NULL. *)
Definition on_root {A} (null : A) (m : M (ext2_fs D) A) : M vk A :=
  let* k := gets id in if rootfs k =? 0 then ret null else on_fs (rootfs k) m.
Definition path_of (p : Z) (k : vk) : list Z := strings k p.

Definition sys_chdir (path_ptr : Z) : M vk Z :=
  if path_ptr =? 0 then ret (serror EFAULT)
  else
    let* k := gets id in
    let path := path_of path_ptr k in
    if rootfs k =? 0 then ret (serror ENOENT)
    else
      let* st := on_root (inl EXT2_ERROR_INVALID) (ext2_stat kmalloc_ok path) in
      match st with
      | inl _ => ret (serror ENOENT)
      | inr inode =>
          if negb (Z.land (i_mode inode) 0xF000 =? EXT2_S_IFDIR) then ret (serror ENOTDIR)
          else
            let* r := on_root EXT2_ERROR_INVALID (ext2_access kmalloc_ok (user_table k) path (proc_geteuid (the_procs k)) ACCESS_EXEC) in
            if negb (r =? EXT2_SUCCESS) then ret (serror EPERM)
            else let* r := on_procs (proc_chdir (Some path)) in ret (zero_or EINVAL r)
      end.

(** The end of [sys_stat] and [sys_fstat]. *)
Definition stat_path (path : list Z) (statbuf_ptr : Z) : M vk Z :=
  let* k := gets id in
  if rootfs k =? 0 then ret (serror ENOENT)
  else
    let* st := on_root (inl EXT2_ERROR_INVALID) (ext2_stat kmalloc_ok path) in
    match st with
    | inl _ => ret (serror ENOENT)
    | inr inode => do* store_all statbuf_ptr (fill_stat_from_inode inode) in ret 0
    end.
Definition sys_stat (path_ptr statbuf_ptr : Z) : M vk Z :=
  if (path_ptr =? 0) || (statbuf_ptr =? 0) then ret (serror EFAULT)
  else let* k := gets id in stat_path (path_of path_ptr k) statbuf_ptr.
Definition sys_lstat (path_ptr statbuf_ptr : Z) : M vk Z := sys_stat path_ptr statbuf_ptr.

(** An open entry with a path; [fd] is unsigned. *)
Definition has_path (fd : Z) (k : vk) : bool := of_exists (entry k fd) && negb (of_path (entry k fd) =? 0).
Definition sys_fstat (fd statbuf_ptr : Z) : M vk Z :=
  if statbuf_ptr =? 0 then ret (serror EFAULT)
  else if MAX_OPEN_FILES <=? fd then ret (serror EBADF)
  else
    let* k := gets id in
    if negb (has_path fd k) then ret (serror EBADF)
    else stat_path (path_of (of_path (entry k fd)) k) statbuf_ptr.

Definition sys_access (path_ptr mode : Z) : M vk Z :=
  if path_ptr =? 0 then ret (serror EFAULT)
  else
    let* k := gets id in
    let path := path_of path_ptr k in
    if mode =? 0 then let* b := on_root false (ext2_exists kmalloc_ok path) in ret (if b then 0 else serror ENOENT)
    else
      let bit m a := if negb (Z.land mode m =? 0) then a else 0 in
      let mask := Z.lor (Z.lor (bit 4 ACCESS_READ) (bit 2 ACCESS_WRITE)) (bit 1 ACCESS_EXEC) in
      let* r := on_root EXT2_ERROR_INVALID (ext2_access kmalloc_ok (user_table k) path (proc_getuid (the_procs k)) mask) in
      ret (zero_or EPERM r).

Definition sys_rmdir (path_ptr : Z) : M vk Z :=
  if path_ptr =? 0 then ret (serror EFAULT)
  else
    let* k := gets id in
    let path := path_of path_ptr k in
    if rootfs k =? 0 then ret (serror ENODEV)
    else
      do* on_root EXT2_ERROR_INVALID (ext2_chown_as kmalloc_ok (user_table k) path (u16 (proc_geteuid (the_procs k))) (u16 (-1)) (u16 (-1))) in
      let* r := on_root EXT2_ERROR_INVALID (ext2_rmdir kmalloc_ok path) in
      ret (zero_or ENOENT r).

Definition sys_unlink (path_ptr : Z) : M vk Z :=
  if path_ptr =? 0 then ret (serror EFAULT)
  else
    let* k := gets id in
    let path := path_of path_ptr k in
    if rootfs k =? 0 then ret (serror ENODEV)
    else
      let* r := on_root EXT2_ERROR_INVALID (ext2_access kmalloc_ok (user_table k) path (proc_geteuid (the_procs k)) ACCESS_WRITE) in
      if negb (r =? EXT2_SUCCESS) then ret (serror EPERM)
      else let* r := on_root EXT2_ERROR_INVALID (ext2_delete kmalloc_ok path) in ret (zero_or ENOENT r).

Definition sys_chmod (path_ptr mode : Z) : M vk Z :=
  if path_ptr =? 0 then ret (serror EFAULT)
  else
    let* k := gets id in
    let* r := on_root EXT2_ERROR_INVALID (ext2_chmod_as kmalloc_ok (user_table k) (path_of path_ptr k) (proc_geteuid (the_procs k)) (u16 mode)) in
    ret (zero_or EPERM r).
Definition sys_chown (path_ptr uid gid : Z) : M vk Z :=
  if path_ptr =? 0 then ret (serror EFAULT)
  else
    let* k := gets id in
    let* r := on_root EXT2_ERROR_INVALID (ext2_chown_as kmalloc_ok (user_table k) (path_of path_ptr k) (u16 (proc_geteuid (the_procs k)))
                         (u16 uid) (u16 gid)) in
    ret (zero_or EPERM r).
(** The path an entry was opened with. *)
Definition on_fd_path (fd : Z) (go : Z -> M vk Z) : M vk Z :=
  if MAX_OPEN_FILES <=? fd then ret (serror EBADF)
  else
    let* k := gets id in
    if negb (has_path fd k) then ret (serror EBADF) else go (of_path (entry k fd)).
Definition sys_fchmod (fd mode : Z) : M vk Z := on_fd_path fd (fun p => sys_chmod p mode).
Definition sys_fchown (fd uid gid : Z) : M vk Z := on_fd_path fd (fun p => sys_chown p uid gid).

(** ** Files: calls of the VFS *)

Definition sys_lseek (fd offset whence : Z) : M vk Z :=
  if MAX_OPEN_FILES <=? fd then ret (serror EBADF)
  else let* r := VFS_Set_Pos (int32 fd) (u32 offset) false in ret (if r =? 0 then offset else serror EINVAL).

(** The structure copied, with a handle of its own; the pointer to a directory
    iterator is the old one. *)
Definition dup_entry (file pid : Z) (f : vfs_file Proc.procs W) : vfs_file Proc.procs W :=
  mkVfsFile (of_path f) file (of_iter f) (of_fs f) (of_flags f) pid (of_owner f)
    (of_exists f) (of_is_dir f) (of_dev f) (of_is_dev f) (of_write_all f) (of_is_socket f) (of_sock f).

(** [path ? ext2_open(rootfs, path) : NULL]. *)
Definition reopen (f : vfs_file Proc.procs W) : M vk Z :=
  if of_path f =? 0 then ret 0
  else
    let* k := gets id in
    let* h := on_root None (ext2_open kmalloc_ok (path_of (of_path f) k)) in
    match h with
    | Some h => new_file (rootfs k) h
    | None => ret 0
    end.

(** Copy entry [fd] to entry [i]. *)
Definition dup_to (fd i : Z) : M vk Z :=
  let* k := gets id in
  let f := entry k fd in
  do* modify (put_entry i (dup_entry 0 (of_pid f) f)) in
  let* file := reopen f in
  do* modify (fun k => put_entry i (dup_entry file (current_pid k) f) k) in
  ret i.

Definition sys_dup (fd : Z) : M vk Z :=
  if MAX_OPEN_FILES <=? fd then ret (serror EBADF)
  else
    let* k := gets id in
    if negb (of_exists (entry k fd)) then ret (serror EBADF)
    else
      match free_entry 0 k with
      | Some i => dup_to fd i
      | None => ret (serror EMFILE)
      end.

Definition sys_dup2 (oldfd newfd : Z) : M vk Z :=
  if (MAX_OPEN_FILES <=? oldfd) || (MAX_OPEN_FILES <=? newfd) then ret (serror EBADF)
  else
    let* k := gets id in
    if negb (of_exists (entry k oldfd)) then ret (serror EBADF)
    else if oldfd =? newfd then ret newfd
    else
      do* (if of_exists (entry k newfd) then VFS_Close kmalloc_ok newfd false else ret 0) in
      dup_to oldfd newfd.

Definition sys_fcntl (fd cmd : Z) : M vk Z :=
  if MAX_OPEN_FILES <=? fd then ret (serror EBADF)
  else if cmd =? 1 then ret fd
  else if cmd =? 2 then sys_dup fd
  else ret 0.

Definition sys_mkdir (path_ptr mode : Z) : M vk Z :=
  if path_ptr =? 0 then ret (serror EFAULT)
  else let* r := VFS_Create kmalloc_ok garbage path_ptr true in ret (zero_or EEXIST r).
Definition sys_create (path is_dir : Z) : M vk Z :=
  if path =? 0 then ret (serror EFAULT)
  else let* r := VFS_Create kmalloc_ok garbage path (negb (is_dir =? 0)) in ret (if r <? 0 then serror EEXIST else 0).

(** [(flags & O_RDWR) || (flags & O_WRONLY)]. *)
Definition wants_write (flags : Z) : bool := negb (Z.land flags O_RDWR =? 0) || negb (Z.land flags O_WRONLY =? 0).
Definition sys_open (path flags : Z) : M vk Z :=
  if path =? 0 then ret (serror EFAULT)
  else
    let* created := (if negb (Z.land flags O_CREAT =? 0) then VFS_Create kmalloc_ok garbage path false else ret 0) in
    if created <? 0 then ret (serror EEXIST)
    else let* fd := VFS_Open kmalloc_ok path (wants_write flags) in ret (or_error ENOENT fd).

Definition sys_close (fd : Z) : M vk Z :=
  let* r := VFS_Close kmalloc_ok (int32 fd) false in ret (if r <? 0 then serror EBADF else 0).

Definition sys_ioctl (fd req arg : Z) : M vk Z :=
  if ((fd =? 1) || (fd =? 2)) && (req =? TCGETS) then
    do* (if arg =? 0 then ret tt else store_user arg (replicate 44 0)) in
    ret 0
  else let* r := VFS_ioctl (int32 fd) req arg in ret (or_error EBADF r).

Definition sys_getdents64 (fd buf size : Z) : M vk Z :=
  if buf =? 0 then ret (serror EFAULT)
  else
    let* (r, stores) := VFS_GetDents64 kmalloc_ok (int32 fd) size in
    do* store_all buf stores in
    ret (or_error EBADF r).

(** [(uint64_t)] of an [int] result that may still be waited for. *)
Definition widen (r : outcome Z) : outcome Z := match r with Ret r => Ret (u64 r) | Wait => Wait end.

Definition sys_write (fd buf count : Z) : M vk (outcome Z) :=
  let* k := gets id in
  let* r := VFS_Write kmalloc_ok (int32 fd) (load_user buf count k) false in
  ret (widen r).
Definition sys_read (fd buf count : Z) : M vk (outcome Z) :=
  let* r := VFS_Read kmalloc_ok (int32 fd) count in
  match r with
  | Wait => ret Wait
  | Ret (r, bytes) => do* store_user buf bytes in ret (Ret (u64 r))
  end.

(** [iov[i]] in the memory of the caller, which the loop reads again after the
    bytes were stored. *)
Definition iov_at (iov_ptr i : Z) (k : vk) : Z * Z :=
  let l := load_user (u64 (iov_ptr + 16 * i)) 16 k in (get64 l 0, get64 l 8).
Fixpoint readv_loop (n : nat) (fd iov_ptr i total : Z) : M vk (outcome Z) :=
  match n with
  | O => ret (Ret total)
  | S n' =>
      let* k := gets id in
      let '(base, len) := iov_at iov_ptr i k in
      if (base =? 0) || (len =? 0) then readv_loop n' fd iov_ptr (i + 1) total
      else
        let* r := VFS_Read kmalloc_ok (int32 fd) len in
        match r with
        | Wait => ret Wait
        | Ret (r, bytes) =>
            do* store_user base bytes in
            if r <? 0 then ret (Ret (if 0 <? total then total else serror EBADF))
            else
              let* k := gets id in
              if u64 r <? snd (iov_at iov_ptr i k) then ret (Ret (u64 (total + r)))
              else readv_loop n' fd iov_ptr (i + 1) (u64 (total + r))
        end
  end.
Definition sys_readv (fd iov_ptr iovcnt : Z) : M vk (outcome Z) :=
  if iov_ptr =? 0 then ret (Ret (serror EFAULT)) else readv_loop (Z.to_nat iovcnt) fd iov_ptr 0 0.

(** [kiov[i]] in the copy of the kernel; the copy is too short when its size
    wrapped. *)
Definition kiov_at (kiov : list Z) (i : Z) : option (Z * Z) :=
  if 16 * (i + 1) <=? Z.of_nat (length kiov) then Some (get64 kiov (16 * i), get64 kiov (16 * i + 8)) else None.
Definition from_user (pid src n : Z) : M vk (list Z * bool) :=
  on_procs (fun p => let '(p', got, ok) := proc_read_from_user kernel_space pid src n p in (p', (got, ok))).
Fixpoint writev_loop (n : nat) (pid fd : Z) (kiov : list Z) (i total : Z) : M vk (outcome Z) :=
  let so_far code := if 0 <? total then total else serror code in
  match n with
  | O => ret (Ret total)
  | S n' =>
      match kiov_at kiov i with
      | None => diverge
      | Some (base, len) =>
          if (base =? 0) || (len =? 0) then writev_loop n' pid fd kiov (i + 1) total
          else if 0x100000 <? len then ret (Ret (so_far EINVAL))
          else if negb (heap_left len) then ret (Ret (so_far ENOMEM))
          else
            let* (kbuf, ok) := from_user pid base len in
            if negb ok then ret (Ret (so_far EFAULT))
            else
              let* r := VFS_Write kmalloc_ok (int32 fd) kbuf false in
              match r with
              | Wait => ret Wait
              | Ret r => if r <? 0 then ret (Ret (so_far EIO)) else writev_loop n' pid fd kiov (i + 1) (u64 (total + r))
              end
      end
  end.
Definition sys_writev (fd iov_ptr iovcnt : Z) : M vk (outcome Z) :=
  if iov_ptr =? 0 then ret (Ret (serror EFAULT))
  else
    let* k := gets id in
    let pid := proc_get_current_pid (the_procs k) in
    let iov_bytes := u64 (iovcnt * 16) in
    if negb (heap_left iov_bytes) then ret (Ret (serror ENOMEM))
    else
      let* (kiov, ok) := from_user pid iov_ptr iov_bytes in
      if negb ok then ret (Ret (serror EFAULT)) else writev_loop (Z.to_nat iovcnt) pid fd kiov 0 0.

(** ** Sockets *)
Definition addr_at (p : Z) : option sockaddr_un := if p =? 0 then None else Some (sockaddr_at p).
Definition sys_socket (domain type protocol : Z) : M vk Z :=
  let* r := VFS_Socket (int32 domain) (int32 type) in ret (u64 r).
Definition sys_bind (fd addr addrlen : Z) : M vk Z :=
  let* r := VFS_Bind kmalloc_ok garbage (int32 fd) (addr_at addr) (u32 addrlen) in ret (u64 r).
Definition sys_listen (fd backlog : Z) : M vk Z := let* r := VFS_Listen (int32 fd) (int32 backlog) in ret (u64 r).
(** [addrlen] is cut to 32 bits before it is used as a pointer: [want_peer]
    says whether it points to a length that is enough there.  The path of the
    peer comes with the result. *)
Definition sys_accept (fd : Z) (want_peer : bool) : M vk (outcome (Z * option (list Z))) :=
  let* r := VFS_Accept (int32 fd) want_peer in
  ret (match r with Ret (r, peer) => Ret (u64 r, peer) | Wait => Wait end).
Definition connect (fd addr addrlen : Z) : M vk (outcome Z) :=
  let* r := VFS_Connect (int32 fd) (addr_at addr) (u32 addrlen) in ret (widen r).
Definition sendto (fd buf count dest : Z) : M vk (outcome Z) :=
  let* k := gets id in
  let* r := VFS_SendTo (int32 fd) (load_user buf count k) (addr_at dest) in ret (widen r).
Definition recvfrom (fd buf count : Z) : M vk (outcome Z) :=
  let* r := VFS_RecvFrom (int32 fd) count in
  match r with
  | Wait => ret Wait
  | Ret (r, bytes) => do* store_user buf bytes in ret (Ret (u64 r))
  end.
End syscalls.

(** ** The table of handlers *)
Definition SYSCALL_MAX_COUNT : Z := 500.

Inductive handler :=
  | H_sys_read | H_sys_write | H_sys_open | H_sys_close | H_sys_stat | H_sys_fstat | H_sys_lstat | H_sys_lseek
  | H_sys_mmap | H_sys_mprotect | H_sys_munmap | H_proc_brk | H_sys_ioctl | H_sys_readv | H_sys_writev
  | H_sys_access | H_sys_dup | H_sys_dup2 | H_sys_fcntl | H_sys_mkdir | H_sys_rmdir | H_sys_unlink
  | H_sys_chmod | H_sys_fchmod | H_sys_chown | H_sys_fchown | H_sys_umask | H_sys_getdents64 | H_proc_yield
  | H_sys_socket | H_connect | H_sys_accept | H_sendto | H_recvfrom | H_sys_bind | H_sys_listen | H_sys_clone
  | H_sys_fork | H_sys_vfork | H_sys_execve | H_proc_exit | H_sys_wait4 | H_sys_kill | H_sys_exit_group
  | H_sys_tgkill | H_sys_getpid | H_sys_getppid | H_sys_uname | H_sys_getcwd | H_sys_chdir | H_sys_arch_prctl
  | H_sys_set_tid_address | H_sys_getuid | H_sys_getgid | H_sys_setuid | H_sys_setgid | H_sys_geteuid
  | H_sys_getegid | H_sys_setreuid | H_sys_setregid | H_sys_setresuid | H_sys_getresuid | H_sys_setresgid
  | H_sys_getresgid | H_shutdown | H_load_bin | H_proc_wait_pid | H_sys_create | H_sys_authu.

(** The calls of [register_syscalls], in order. *)
Definition syscall_table : list (Z * handler) :=
  [(0, H_sys_read); (1, H_sys_write); (2, H_sys_open); (3, H_sys_close); (4, H_sys_stat); (5, H_sys_fstat);
   (6, H_sys_lstat); (8, H_sys_lseek); (9, H_sys_mmap); (10, H_sys_mprotect); (11, H_sys_munmap);
   (12, H_proc_brk); (16, H_sys_ioctl); (19, H_sys_readv); (20, H_sys_writev); (21, H_sys_access);
   (32, H_sys_dup); (33, H_sys_dup2); (72, H_sys_fcntl); (83, H_sys_mkdir); (84, H_sys_rmdir);
   (87, H_sys_unlink); (90, H_sys_chmod); (91, H_sys_fchmod); (92, H_sys_chown); (93, H_sys_fchown);
   (95, H_sys_umask); (217, H_sys_getdents64); (24, H_proc_yield); (35, H_proc_brk); (41, H_sys_socket);
   (42, H_connect); (43, H_sys_accept); (44, H_sendto); (45, H_recvfrom); (49, H_sys_bind); (50, H_sys_listen);
   (56, H_sys_clone); (57, H_sys_fork); (58, H_sys_vfork); (59, H_sys_execve); (60, H_proc_exit);
   (61, H_sys_wait4); (62, H_sys_kill); (231, H_sys_exit_group); (234, H_sys_tgkill); (39, H_sys_getpid);
   (110, H_sys_getppid); (63, H_sys_uname); (79, H_sys_getcwd); (80, H_sys_chdir); (158, H_sys_arch_prctl);
   (218, H_sys_set_tid_address); (102, H_sys_getuid); (104, H_sys_getgid); (105, H_sys_setuid);
   (106, H_sys_setgid); (107, H_sys_geteuid); (108, H_sys_getegid); (113, H_sys_setreuid);
   (114, H_sys_setregid); (117, H_sys_setresuid); (118, H_sys_getresuid); (119, H_sys_setresgid);
   (120, H_sys_getresgid); (48, H_shutdown); (301, H_load_bin); (302, H_proc_wait_pid); (303, H_sys_create);
   (304, H_sys_authu)].

Definition x86_64_Syscall_RegisterHandler (number : Z) (h : handler) (t : list (option handler)) : list (option handler) :=
  if number <? SYSCALL_MAX_COUNT then aset t number (Some h) else t.
Definition register_syscalls (t : list (option handler)) : list (option handler) :=
  fold_left (fun t '(number, h) => x86_64_Syscall_RegisterHandler number h t) syscall_table t.

(** How a call ends: with a result or a wait, or the process does not go on. *)
Inductive served := Served (r : outcome Z) | Left_ (c : cpu).

Section dispatch.
Context `{BootInfo} (kernel_space : address_space) (kernel_stack : Z -> Z) (heap_left : Z -> bool).
Context {D W : Type} `{!BlockDevice D} (kmalloc_ok : nat -> bool) (garbage : list Z).
Context (frame_at : Z -> Registers) (sockaddr_at : Z -> sockaddr_un).
Abbreviation vk := (kernel D Proc.procs W).
(** The handlers that are not modelled. *)
Context (other : handler -> list Z -> M vk served).

Definition serve (m : M vk Z) : M vk served := let* r := m in ret (Served (Ret r)).
Definition serve_wait (m : M vk (outcome Z)) : M vk served := let* r := m in ret (Served r).
Definition leave (m : M vk cpu) : M vk served := let* c := m in ret (Left_ c).

(** [g_SyscallHandlers[number](arg1, ..., arg6)]. *)
Definition run_handler (h : handler) (a b c d e f : Z) : M vk served :=
  match h with
  | H_sys_read => serve_wait (sys_read kmalloc_ok a b c)
  | H_sys_write => serve_wait (sys_write kmalloc_ok a b c)
  | H_sys_open => serve (sys_open kmalloc_ok garbage a b)
  | H_sys_close => serve (sys_close kmalloc_ok a)
  | H_sys_stat => serve (sys_stat kmalloc_ok a b)
  | H_sys_fstat => serve (sys_fstat kmalloc_ok a b)
  | H_sys_lstat => serve (sys_lstat kmalloc_ok a b)
  | H_sys_lseek => serve (sys_lseek a b c)
  | H_sys_mmap => serve (sys_mmap kernel_space b)
  | H_sys_mprotect => serve (sys_mprotect a b c)
  | H_sys_munmap => serve (sys_munmap a b)
  | H_proc_brk => serve (on_procs (proc_brk kernel_space a))
  | H_sys_ioctl => serve (sys_ioctl a b c)
  | H_sys_readv => serve_wait (sys_readv kmalloc_ok a b c)
  | H_sys_writev => serve_wait (sys_writev kernel_space heap_left kmalloc_ok a b c)
  | H_sys_access => serve (sys_access kmalloc_ok a b)
  | H_sys_dup => serve (sys_dup kmalloc_ok a)
  | H_sys_dup2 => serve (sys_dup2 kmalloc_ok a b)
  | H_sys_fcntl => serve (sys_fcntl kmalloc_ok a b)
  | H_sys_mkdir => serve (sys_mkdir kmalloc_ok garbage a b)
  | H_sys_rmdir => serve (sys_rmdir kmalloc_ok a)
  | H_sys_unlink => serve (sys_unlink kmalloc_ok a)
  | H_sys_chmod => serve (sys_chmod kmalloc_ok a b)
  | H_sys_fchmod => serve (sys_fchmod kmalloc_ok a b)
  | H_sys_chown => serve (sys_chown kmalloc_ok a b c)
  | H_sys_fchown => serve (sys_fchown kmalloc_ok a b c)
  | H_sys_umask => serve (sys_umask a)
  | H_sys_getdents64 => serve (sys_getdents64 kmalloc_ok a b c)
  | H_sys_socket => serve (sys_socket a b c)
  | H_connect => serve_wait (connect sockaddr_at a b c)
  | H_sendto => serve_wait (sendto sockaddr_at a b c d)
  | H_recvfrom => serve_wait (recvfrom a b c)
  | H_sys_bind => serve (sys_bind kmalloc_ok garbage sockaddr_at a b c)
  | H_sys_listen => serve (sys_listen a b)
  | H_sys_clone => serve (sys_clone kernel_space kernel_stack heap_left frame_at a b)
  | H_sys_fork => serve (sys_fork kernel_space kernel_stack heap_left frame_at)
  | H_sys_vfork => serve (sys_vfork kernel_stack frame_at)
  | H_proc_exit => leave (sys_exit_group kernel_space a)
  | H_sys_wait4 => serve_wait (sys_wait4 kernel_space a b)
  | H_sys_kill => serve (sys_kill kernel_space a b)
  | H_sys_exit_group => leave (sys_exit_group kernel_space a)
  | H_sys_tgkill => serve (sys_tgkill kernel_space a b c)
  | H_sys_getpid => serve sys_getpid
  | H_sys_getppid => serve sys_getppid
  | H_sys_uname => serve (sys_uname a)
  | H_sys_getcwd => serve (sys_getcwd a b)
  | H_sys_chdir => serve (sys_chdir kmalloc_ok a)
  | H_sys_set_tid_address => serve (sys_set_tid_address a)
  | H_sys_getuid => serve sys_getuid
  | H_sys_getgid => serve sys_getgid
  | H_sys_setuid => serve (sys_setuid a)
  | H_sys_setgid => serve (sys_setgid a)
  | H_sys_geteuid => serve sys_geteuid
  | H_sys_getegid => serve sys_getegid
  | H_sys_setreuid => serve (sys_setreuid a b)
  | H_sys_setregid => serve (sys_setregid a b)
  | H_sys_setresuid => serve (sys_setresuid a b c)
  | H_sys_getresuid => serve (sys_getresuid a b c)
  | H_sys_setresgid => serve (sys_setresgid a b c)
  | H_sys_getresgid => serve (sys_getresgid a b c)
  | H_sys_create => serve (sys_create kmalloc_ok garbage a b)
  | _ => other h [a; b; c; d; e; f]
  end.

Definition x86_64_Syscall_Dispatch (t : list (option handler)) (number a b c d e f : Z) : M vk served :=
  match (if number <? SYSCALL_MAX_COUNT then aget None t number else None) with
  | Some h =>
      do* on_procs (fun p => (proc_enter_syscall p, tt)) in
      let* r := run_handler h a b c d e f in
      match r with
      | Served (Ret _) => do* on_procs (fun p => (proc_exit_syscall p, tt)) in ret r
      | _ => ret r
      end
  | None => ret (Served (Ret u64_error))
  end.
End dispatch.
