(* ===== verification/Loader.v ===== *)
(** * Loading programs (src/kernel/loaders/bin_loader.c, sys_execve of
    hal/vfs.c, load_bin of syscalls/scman.c)

    The loader of Elf.v reading through the VFS, and the two calls that start
    a program from a file. *)

From stdpp Require Import strings.
From S2P Require Import Prelude Bytes StateMonad Errno PhysMem Pmm Vmm User ProcMem Proc.
From S2P Require Import UnixSocket BlockDev Ext2Cache Ext2 Ext2Inv Ext2Alloc Ext2File Ext2Perm Vfs VfsTable VfsFiles Scheduler Syscalls Elf.
#[local] Open Scope Z_scope.

Section loader.
Context `{BootInfo} (kernel_space : address_space) (kernel_stack : Z -> Z) (heap_left : Z -> bool).
Context {D W : Type} `{!BlockDevice D} (kmalloc_ok : nat -> bool).
Abbreviation vk := (kernel D Proc.procs W).

(** [elf_read_at]: seek, read, and fail on a short read.  What was read has
    been stored by then, also when it is too long for the buffer. *)
Definition vfs_read_at (fd : Z) : Reader vk := fun file_offset size room =>
  let* r := VFS_Set_Pos fd file_offset true in
  if r <? 0 then ret None
  else
    let* got := VFS_Read kmalloc_ok fd size in
    match got with
    | Wait => diverge
    | Ret (got, bytes) =>
        if room <? Z.of_nat (length bytes) then diverge
        else if (got <? 0) || (u64 got <? size) then ret None
        else ret (Some bytes)
    end.

Definition elf_open_and_load (path : Z) : M vk (option (list Z * Z * Z)) :=
  let* fd := VFS_Open kmalloc_ok path true in
  if fd <? 0 then ret None
  else
    let* r := @elf_load vk (vfs_read_at fd) heap_left in
    do* VFS_Close kmalloc_ok fd true in
    ret r.

(** [bin_load_elf] and [bin_load_elf_argv] up to the creation of the process. *)
Definition load_and_create (path : Z)
    (create : user_db -> option (Z -> Z) -> Z -> Z -> Z -> Proc.procs -> Proc.procs * Z) : M vk Z :=
  if path =? 0 then ret (-1)
  else
    let* r := elf_open_and_load path in
    match r with
    | None => ret (-1)
    | Some (flat_img, load_base, entry) =>
        let* k := gets id in
        on_procs (create (user_table k) (Some (bytes_at flat_img)) (Z.of_nat (length flat_img)) load_base entry)
    end.
Definition bin_load_elf (path priority parent : Z) : M vk Z :=
  load_and_create path (fun db img size base entry =>
    proc_create_user_image kernel_space kernel_stack db img size base entry priority parent).
Definition bin_load_elf_argv (path priority parent : Z) (argv envp : list (list Z)) : M vk Z :=
  load_and_create path (fun db img size base entry =>
    proc_create_user_image_argv kernel_space kernel_stack heap_left db img size base entry priority parent argv envp).

Definition load_bin (path priority : Z) : M vk Z :=
  let* k := gets id in
  let* pid := bin_load_elf path (u32 priority) (u32 (proc_get_current_pid (the_procs k))) in
  ret (u64 pid).

(** [argv] and [envp]: the strings of the arrays the caller passes. *)
Definition sys_execve (path : Z) (argv envp : list (list Z)) : M vk Z :=
  let* k := gets id in
  let me := proc_get_current_pid (the_procs k) in
  let caller_uid := proc_get_owner me (the_procs k) in
  if negb (user_exists (user_table k) caller_uid) then ret (serror EPERM)
  else
    let* ok := (if user_is_root (user_table k) caller_uid then ret true
                else
                  let '(fs, rel) := resolve_fs k (strings k path) in
                  let* r := on_fs fs (ext2_access kmalloc_ok (user_table k) rel caller_uid ACCESS_EXEC) in
                  ret (r =? EXT2_SUCCESS)) in
    if negb ok then ret (serror EACCES)
    else
      let* pid := bin_load_elf_argv path 1 (u32 me) argv envp in
      let* k := gets id in
      do* (if 0 <? pid then on_procs (proc_set_owner (user_table k) pid caller_uid) else ret 0) in
      ret (u64 pid).
End loader.

(** ** The user a program runs as

    The process is created for root, and [sys_execve] then changes its real
    user only: whoever starts a program, it runs with the effective and the
    saved user of root.  [load_bin] leaves all three. *)
Section user.
Context `{BootInfo} (kernel_space : address_space) (kernel_stack : Z -> Z) (heap_left : Z -> bool) (udb : user_db).

Definition runs_as_root (pid : Z) (s : Proc.procs) : Prop :=
  exists i, in_table i /\ int_of_u32 (PID (proc (pcb_at s i))) = pid /\ Proc.state (pcb_at s i) = PROC_READY /\
    EUID (proc (pcb_at s i)) = Proc.UID_ROOT /\ SavedUID (proc (pcb_at s i)) = Proc.UID_ROOT.

Lemma mach_wf m s : procs_wf s -> procs_wf (set_mach m s).
Proof. by intros [? ?]. Qed.
Lemma mach_root pid m s : runs_as_root pid (set_mach m s) <-> runs_as_root pid s.
Proof. done. Qed.

Lemma create_internal_root entry prio parent t cs ce sb st rsp sp s s' pid :
  procs_wf s -> proc_create_internal kernel_stack udb entry prio parent t cs ce sb st rsp sp Proc.UID_ROOT s = (s', pid) ->
  0 <= pid -> procs_wf s' /\ runs_as_root pid s'.
Proof.
  intros Hw E Hpid. unfold proc_create_internal in E. destruct (Z.ltb_spec (pcb_alloc_slot s) 0) as [|Hs]; [injection E; lia|].
  injection E as <- <-. destruct (find_slot_cases is_unused s) as [(Hr & _)|[Hno _]]; [|unfold pcb_alloc_slot in Hs; lia].
  fold (pcb_alloc_slot s) in Hr. split; [split; [apply (upd_wf s (pcb_alloc_slot s) _ Hw)|apply Hw]|]. exists (pcb_alloc_slot s). split; [done|].
  match goal with |- context [set_next_pid ?n (Proc.upd ?i ?f s)] => assert (forall j, pcb_at (set_next_pid n (Proc.upd i f s)) j =
    if j =? i then f (pcb_at s i) else pcb_at s j) as -> by (intros; by apply pcb_at_upd) end.
  rewrite Z.eqb_refl. by destruct t.
Qed.

Lemma refused {A} (a s' : A) pid : (a, -1) = (s', pid) -> 0 <= pid -> False.
Proof. intros [= _ <-]. lia. Qed.

Lemma create_image_root stack image size load entry prio parent s s' pid :
  procs_wf s -> create_image_for kernel_space kernel_stack udb Proc.UID_ROOT stack image size load entry prio parent s = (s', pid) ->
  0 <= pid -> procs_wf s' /\ runs_as_root pid s'.
Proof.
  intros Hw E Hpid. unfold create_image_for in E. destruct image as [bytes|]; [|by eapply refused in E].
  destruct (size =? 0); [by eapply refused in E|]. destruct (_ || _); [by eapply refused in E|]. destruct (_ || _); [by eapply refused in E|].
  destruct (_ <? _); [by eapply refused in E|]. destruct (vmm_create_address_space kernel_space (mach s)) as [m1 sp].
  destruct sp as [| |va]; [by eapply refused in E| |];
    (destruct (image_loop _ _ _ _ _ _ _ _ _) as [m2 ok]; destruct ok; cbn [negb] in E; [|by eapply refused in E];
     destruct (user_map_stack _ _ _) as [m3 [[[st sb] rsp0]|]]; [|by eapply refused in E];
     destruct (stack _ _ _ _) as [m4 rsp];
     match type of E with context [proc_create_internal ?a ?b ?c ?d ?e ?f ?g ?h ?i ?j ?k ?l ?m ?n] =>
       destruct (proc_create_internal a b c d e f g h i j k l m n) as [s5 pid5] eqn:E5 end;
     destruct (Z.ltb_spec pid5 0); [by eapply refused in E|]; apply pair_equal_spec in E as [<- <-];
     eapply create_internal_root; [apply (mach_wf m4 s Hw)|exact E5|done]).
Qed.

Lemma set_owner_root pid pid' owner s : procs_wf s -> runs_as_root pid s -> runs_as_root pid (fst (proc_set_owner udb pid' owner s)).
Proof.
  intros Hw Hr. unfold proc_set_owner. destruct (negb _); [done|]. cbv zeta.
  destruct (find_slot_cases (fun b => PID (proc b) =? u32 pid') s) as [(Hi & _)|[E _]];
    [|unfold proc_find_index; rewrite E; done].
  fold (proc_find_index pid' s) in Hi. destruct (Z.ltb_spec (proc_find_index pid' s) 0); [done|]. cbn [fst].
  destruct Hr as (i & Hit & Hp & Hst & He & Hsv). exists i. unfold upd_proc. rewrite !pcb_at_upd by done.
  destruct (Z.eqb_spec i (proc_find_index pid' s)) as [<-|]; by split_and!.
Qed.

(** What [sys_execve] does with the processes. *)
Lemma execve_runs_as_root image size load entry prio parent argv envp owner s s1 pid :
  procs_wf s ->
  proc_create_user_image_argv kernel_space kernel_stack heap_left udb image size load entry prio parent argv envp s = (s1, pid) ->
  0 < pid -> runs_as_root pid (fst (proc_set_owner udb pid owner s1)).
Proof.
  intros Hw E Hpid. destruct (create_image_root _ _ _ _ _ _ _ _ _ _ Hw E) as [Hw1 Hr]; [lia|]. by apply set_owner_root.
Qed.

(** What [load_bin] does. *)
Lemma load_bin_runs_as_root image size load entry prio parent s s1 pid :
  procs_wf s -> proc_create_user_image kernel_space kernel_stack udb image size load entry prio parent s = (s1, pid) ->
  0 < pid -> runs_as_root pid s1.
Proof. intros Hw E Hpid. eapply create_image_root; [exact Hw|exact E|lia]. Qed.
End user.

(** ** The reader of the VFS

    A file the kernel opened is a file to the loader: [elf_load_image] holds
    of what the ext2 driver finds on the disk. *)
Section reader.
Context {D W : Type} `{!BlockDevice D} `{!BlockDeviceLaws D} (kmalloc_ok : nat -> bool).
Context (HR : Reliable D) (Hk : memory_left kmalloc_ok).
Abbreviation vk := (kernel D Proc.procs W).

(** Entry [fd] is a file with inode [ino] that the kernel opened; its file
    system holds what it held in [s0]. *)
Definition kernel_file (H : list Z) (fd fs : Z) (s0 : ext2_fs D) (ino : list Z) (k : vk) : Prop :=
  fd_ok fd /\ of_exists (entry k fd) = true /\ of_is_socket (entry k fd) = false /\ of_is_dev (entry k fd) = false /\
  of_pid (entry k fd) = -1 /\ of_file (entry k fd) <> 0 /\
  exists h s, files k !! of_file (entry k fd) = Some (fs, h) /\ f_inode h = ino /\ f_is_directory h = false /\
    filesystems k !! fs = Some s /\ cache_ok H s /\ frame s0 s.

Lemma vfs_reader_laws H fd fs s0 ino :
  layout s0 -> room 1 H s0 -> file_tree s0 ino ->
  @ReaderLaws vk (vfs_read_at kmalloc_ok fd) (kernel_file H fd fs s0 ino) (file_bytes s0 ino 0 (i_size ino)).
Proof using All.
  intros Hl Hr Ht. split. intros off size room0 k (Hfd & Hex & Hns & Hnd & Hpid & Hf & h & s & Hh & Hino & Hdir & Hs & Hc & Hfr) Hoff Hsize Hroom.
  pose proof (get32_range ino 4 (proj2 (ft_inode _ _ Ht))) as Hsz. fold (i_size ino) in Hsz.
  assert (wp (ext2_read kmalloc_ok (seek_to off h) size) (fun r s' => cache_ok H s' /\ frame s0 s' /\
    let n := Z.max 0 (Z.min size (i_size ino - off)) in
    r = (n, file_bytes s0 ino off n, seek_to (off + n) h)) s) as Hread.
  { wp_call (read_spec kmalloc_ok HR Hk H); cbn [seek_to f_inode f_is_directory f_position]; rewrite ?Hino;
      [done|by eapply frame_layout| |by eapply frame_tree|done|lia|lia|].
    { unfold room in *. by rewrite (sf_max _ _ (proj1 Hfr)). }
    intros r s' (Hc' & Hf' & ->). split_and!; [done|by eapply frame_trans|]. cbv zeta. by rewrite (frame_file_bytes s0 s). }
  unfold elf_read_at, vfs_read_at. apply wp_bind, wp_run. eexists _, _.
  split; [apply (VFS_Set_Pos_spec kmalloc_ok HR Hk k fd fs h); try done; [by left|lia]|]. cbn [Z.ltb Z.compare].
  set (k1 := set_files _ k). apply wp_bind. unfold VFS_Read. apply wp_bind, wp_gets. cbn [id].
  change (entry k1 fd) with (entry k fd). rewrite fd_not_bad, Hex, Hns, Hnd, Hpid by done. cbn [negb andb Z.eqb Pos.eqb].
  destruct (Z.eqb_spec (of_file (entry k fd)) 0); [done|].
  assert (u32 size = size) as -> by (apply Z.mod_small; lia).
  apply wp_bind. eapply wp_file_at; [apply lookup_insert_eq|]. cbv beta iota. apply wp_bind. eapply wp_on_fs; [exact Hs|].
  wp_call Hread. intros r s' (Hc' & Hf' & ->). cbv beta iota zeta. apply wp_bind, wp_modify.
  set (k2 := set_files _ _). set (m := Z.max 0 (Z.min size (i_size ino - off))).
  assert (kernel_file H fd fs s0 ino k2) as Hk2.
  { split_and!; try done. exists (seek_to (off + m) h), s'. split_and!; try done; [apply lookup_insert_eq|apply with_fs_lookup]. }
  destruct (Z.ltb_spec m 0); [lia|]. apply wp_ret. rewrite !length_file_bytes.
  assert (u64 m = m) as -> by (apply Z.mod_small; lia).
  destruct (Z.ltb_spec room0 (Z.of_nat (Z.to_nat m))); [lia|]. destruct (Z.ltb_spec m 0); [lia|]. cbn [orb].
  case_bool_decide as Hfit.
  - assert (m = size) as Em by lia. rewrite Em, Z.ltb_irrefl. apply wp_ret. split; [done|]. f_equal.
    apply buf_ext; [rewrite length_slice, length_file_bytes; (done || lia || (rewrite length_file_bytes; lia))|].
    intros i Hi. rewrite length_file_bytes in Hi. rewrite aget_slice, !aget_file_bytes by lia. f_equal; lia.
  - destruct (Z.ltb_spec m size); [|lia]. by apply wp_ret.
Qed.

(** [elf_load] of a file on the disk, through the VFS and the driver. *)
Lemma elf_load_from_disk H fd fs s0 ino heap_left k :
  layout s0 -> room 1 H s0 -> file_tree s0 ino -> kernel_file H fd fs s0 ino k ->
  (forall n, heap_left n = true) -> bytes_ok (file_bytes s0 ino 0 (i_size ino)) ->
  no_wrap (headers (file_bytes s0 ino 0 (i_size ino))) ->
  wp (@elf_load vk (vfs_read_at kmalloc_ok fd) heap_left)
    (fun r k' => kernel_file H fd fs s0 ino k' /\ loaded (file_bytes s0 ino 0 (i_size ino)) r) k.
Proof using All.
  intros Hl Hr Ht Hk0 Hheap Hb Hnw.
  exact (@elf_load_spec vk (vfs_read_at kmalloc_ok fd) (kernel_file H fd fs s0 ino) _ (vfs_reader_laws H fd fs s0 ino Hl Hr Ht)
    heap_left k Hk0 Hb Hheap Hnw).
Qed.
End reader.
