(* ===== verification/SyscallFacts.v ===== *)
(** * What the system calls do

    Opening for writing, copying descriptors, and reserving memory: where the
    handlers of Syscalls.v go their own way around the VFS. *)

From stdpp Require Import strings.
From S2P Require Import Prelude Bytes StateMonad Errno PhysMem Pmm Vmm User ProcMem Proc Scheduler ProcTree.
From S2P Require Import UnixSocket BlockDev Ext2Cache Ext2 Ext2Inv Ext2Alloc Ext2File Mkfs Ext2Format Ext2Write Ext2Dir Ext2Perm.
From S2P Require Import Vfs VfsTable VfsFiles Syscalls.
#[local] Open Scope Z_scope.

Lemma u64_int_error code : 0 <= code < 2 ^ 31 -> u64 (int_error code) = serror code.
Proof.
  intros H. rewrite int_error_neg by done. unfold serror. rewrite (u64_small code) by lia. done.
Qed.

Section facts.
Context `{BI : BootInfo} (kernel_space : address_space) (kernel_stack : Z -> Z) (heap_left : Z -> bool).
Context {D W : Type} `{!BlockDevice D} `{!BlockDeviceLaws D} (kmalloc_ok : nat -> bool) (garbage : list Z).
Context (HR : Reliable D) (Hk : memory_left kmalloc_ok).
Abbreviation vk := (kernel D Proc.procs W).
Implicit Types k : vk.

(** An entry that the kernel opened: no process owns it. *)
Definition kernel_entry (f : vfs_file Proc.procs W) : Prop :=
  of_exists f = true /\ of_pid f = -1 /\ Z.land (of_flags f) KERNEL <> 0 /\ of_is_socket f = false /\
  of_write_all f = false.

Lemma kernel_entry_write k fd buf count :
  fd_ok fd -> kernel_entry (entry k fd) -> 0 <= current_pid k ->
  sys_write kmalloc_ok fd buf count k = Some (Ret (serror EACCES), k).
Proof.
  intros Hfd (Hex & Hpid & Hfl & Hns & Hall) Hcur. unfold sys_write, bind at 1, gets. cbn [id].
  assert (int32 fd = fd) as -> by (apply int32_small; unfold fd_ok, MAX_OPEN_FILES in Hfd; lia).
  unfold VFS_Write, bind, gets. cbn [id]. rewrite fd_not_bad, Hex, Hns, Hpid, Hall by done.
  destruct (Z.eqb_spec (-1) (current_pid k)); [lia|]. cbn [negb andb]. unfold returns, an_error, bind, ret, widen.
  by rewrite u64_int_error.
Qed.

Lemma kernel_entry_close k fd :
  fd_ok fd -> kernel_entry (entry k fd) -> sys_close kmalloc_ok fd k = Some (serror EBADF, k).
Proof.
  intros Hfd (Hex & Hpid & Hfl & Hns & Hall). unfold sys_close, bind.
  assert (int32 fd = fd) as -> by (apply int32_small; unfold fd_ok, MAX_OPEN_FILES in Hfd; lia).
  unfold VFS_Close, bind, gets. cbn [id]. rewrite fd_not_bad, Hex, Hns by done. apply Z.eqb_neq in Hfl. rewrite Hfl. cbn [negb andb].
  unfold an_error, ret. destruct (Z.ltb_spec (int_error EACCES) 0) as [|Hge]; [done|]. exfalso. by vm_compute in Hge.
Qed.


(** ** Copies of descriptors *)

Lemma reopen_keeps (f : vfs_file Proc.procs W) k file k' :
  reopen kmalloc_ok f k = Some (file, k') -> open_files k' = open_files k /\ iters k' = iters k /\ sockets k' = sockets k.
Proof using.
  unfold reopen. destruct (of_path f =? 0); [by intros [= _ <-]|]. unfold bind at 1, gets. cbn [id].
  unfold bind at 1, on_root, bind at 1, gets. cbn [id].
  destruct (rootfs k =? 0); [by intros [= _ <-]|]. unfold on_fs. destruct (filesystems k !! rootfs k) as [s|]; [|done].
  destruct (ext2_open kmalloc_ok _ s) as [[[h|] s']|]; [| |done]; by intros [= _ <-].
Qed.

Lemma dup_to_entry k fd i r k' :
  length (open_files k) = Z.to_nat MAX_OPEN_FILES -> fd_ok i -> dup_to kmalloc_ok fd i k = Some (r, k') ->
  iters k' = iters k /\ current_pid k' = current_pid k /\ length (open_files k') = length (open_files k) /\
  exists file, forall j, entry k' j = if decide (i = j) then dup_entry file (current_pid k) (entry k fd) else entry k j.
Proof using.
  intros Hlen Hi E. unfold dup_to, bind at 1, gets in E. cbn [id] in E. unfold bind at 1, modify in E.
  set (k1 := put_entry i (dup_entry 0 (of_pid (entry k fd)) (entry k fd)) k) in *.
  unfold bind at 1 in E. destruct (reopen kmalloc_ok (entry k fd) k1) as [[file k2]|] eqn:E2; [|done].
  unfold bind at 1, ret in E. apply (inj Some), pair_equal_spec in E as [<- <-]. apply reopen_keeps in E2 as (Ho & Hit & Hso).
  assert (length (open_files k2) = Z.to_nat MAX_OPEN_FILES) as Hlen2.
  { rewrite Ho. unfold k1, put_entry, set_open. cbn [open_files]. by rewrite length_aset. }
  assert (current_pid k2 = current_pid k) as Hcur by (unfold current_pid; by rewrite Hso).
  split_and!; [done|done|unfold put_entry, set_open; cbn [open_files]; rewrite length_aset; by rewrite Hlen2|].
  exists file. intros j. rewrite entry_put, Hcur by done. case_decide; [done|].
  unfold entry at 1. rewrite Ho. fold (entry k1 j). unfold k1. by rewrite entry_put, decide_False by done.
Qed.

(** An open directory of the calling process. *)
Definition own_directory k (fd : Z) : Prop :=
  of_exists (entry k fd) = true /\ of_is_socket (entry k fd) = false /\ of_is_dir (entry k fd) = true /\
  of_iter (entry k fd) <> 0 /\ Z.land (of_flags (entry k fd)) KERNEL = 0 /\ of_pid (entry k fd) = current_pid k.

Lemma close_directory k fd :
  fd_ok fd -> own_directory k fd ->
  VFS_Close kmalloc_ok fd false k =
    (do* close_iter kmalloc_ok (of_iter (entry k fd)) in
     do* modify (put_entry fd (closed_entry (of_file (entry k fd)) 0 (entry k fd))) in ret 0) k.
Proof using.
  intros Hfd (Hex & Hns & Hdir & Hit & Hfl & Hpid). unfold VFS_Close, bind at 1, gets. cbn [id].
  apply Z.eqb_neq in Hit. rewrite fd_not_bad, Hex, Hns, Hdir, Hfl, Hpid, Hit by done.
  by rewrite !Z.eqb_refl.
Qed.

(** [sys_dup] copies the pointer to the iterator of a directory: closing the
    descriptor frees it, and closing the copy uses it again, which is
    undefined. *)
Lemma dup_directory_closed_twice k fd i k1 k2 :
  length (open_files k) = Z.to_nat MAX_OPEN_FILES -> fd_ok fd -> own_directory k fd ->
  sys_dup kmalloc_ok fd k = Some (i, k1) -> fd_ok i -> VFS_Close kmalloc_ok fd false k1 = Some (0, k2) ->
  VFS_Close kmalloc_ok i false k2 = None.
Proof using.
  intros Hlen Hfd Hown Edup Hi Eclose. pose proof Hown as (Hex & Hns & Hdir & Hit & Hfl & Hpid).
  pose proof Hfd as Hfd'. unfold fd_ok in Hfd'. unfold sys_dup in Edup.
  destruct (Z.leb_spec MAX_OPEN_FILES fd); [lia|]. unfold bind at 1, gets in Edup. cbn [id] in Edup.
  rewrite Hex in Edup. cbn [negb] in Edup. destruct (free_entry 0 k) as [i'|] eqn:Ef.
  2: { injection Edup as <- <-. destruct Hi as [_ Hi]. vm_compute in Hi. discriminate Hi. }
  destruct (free_entry_spec 0 k i') as (Hi' & _ & Hfree); [unfold MAX_OPEN_FILES; lia|done|].
  assert (i = i') as ->.
  { unfold dup_to in Edup. unfold bind, gets, modify in Edup. cbn [id] in Edup.
    destruct (reopen _ _ _) as [[? ?]|]; [|done]. unfold ret in Edup. congruence. }
  destruct (dup_to_entry k fd i' i' k1 Hlen Hi' Edup) as (Hiters & Hcur & Hlen1 & file & Hent).
  assert (i' <> fd) as Hne by (intros ->; congruence).
  assert (own_directory k1 fd) as Hown1.
  { unfold own_directory. rewrite Hent, decide_False, Hcur by done. exact Hown. }
  rewrite close_directory in Eclose by done. rewrite Hent, decide_False in Eclose by done.
  unfold bind at 1 in Eclose. destruct (close_iter kmalloc_ok (of_iter (entry k fd)) k1) as [[[] k3]|] eqn:Ec; [|done].
  unfold bind, modify, ret in Eclose. injection Eclose as <-.
  assert (iters k3 !! of_iter (entry k fd) = None /\ current_pid k3 = current_pid k1 /\ open_files k3 = open_files k1) as (Hnone & Hcur3 & Ho3).
  { unfold close_iter, bind, iter_at in Ec. destruct (iters k1 !! _) as [[fs it]|]; [|done].
    unfold on_fs in Ec. destruct (filesystems k1 !! fs) as [s|]; [|done].
    destruct (ext2_closedir kmalloc_ok it s) as [[? s']|]; [|done]. injection Ec as <-. split; [apply lookup_delete_eq|done]. }
  set (k2 := put_entry fd _ k3).
  assert (entry k2 i' = dup_entry file (current_pid k) (entry k fd)) as Ei.
  { unfold k2. rewrite entry_put, decide_False; [|done|by rewrite Ho3, Hlen1|done].
    unfold entry at 1. rewrite Ho3. fold (entry k1 i'). by rewrite Hent, decide_True. }
  rewrite close_directory; [|done|].
  - rewrite Ei. unfold bind at 1, close_iter, bind at 1, iter_at. change (iters k2) with (iters k3).
    cbn [dup_entry of_iter]. by rewrite Hnone.
  - unfold own_directory. rewrite Ei. split_and!; try done.
    change (current_pid k2) with (current_pid k3). cbn [dup_entry of_pid]. congruence.
Qed.

(** ** Memory *)

(** [sys_mmap] of almost 2^64 bytes rounds its length to 0: it succeeds, and
    reserves nothing. *)
Lemma mmap_wraps k length :
  0 <= current_proc (the_procs k) -> 2 ^ 64 - 4096 < length < 2 ^ 64 ->
  let brk := heap_end (lay (pcb_at (the_procs k) (current_proc (the_procs k)))) in
  0 <= brk < 2 ^ 63 -> sys_mmap kernel_space length k = Some (brk, k).
Proof using.
  intros Hcur Hlen brk Hbrk. unfold sys_mmap. destruct (Z.eqb_spec length 0); [lia|].
  assert (u64 (length + 4095) = length + 4095 - 2 ^ 64) as Hw.
  { unfold u64. rewrite <- (Z_mod_plus_full _ (-1)). apply Z.mod_small. lia. }
  assert (Z.land (u64 (length + 4095)) (u64 (Z.lnot 4095)) = 0) as Ha.
  { rewrite Hw. apply Z.bits_inj'. intros b Hb. rewrite Z.land_spec, Z.bits_0. destruct (decide (b < 12)).
    - apply andb_false_intro2. change (u64 (Z.lnot 4095)) with (Z.shiftl (2 ^ 52 - 1) 12). by rewrite Z.shiftl_spec_low.
    - apply andb_false_intro1. destruct (decide (length + 4095 - 2 ^ 64 = 0)) as [->|]; [apply Z.bits_0|].
      apply Z.bits_above_log2; [lia|]. apply Z.log2_lt_pow2; [lia|].
      assert (2 ^ 12 <= 2 ^ b) by (apply Z.pow_le_mono_r; lia). change (2 ^ 12) with 4096 in *. lia. }
  assert (set_procs (the_procs k) k = k) as Hset by (destruct k as [?????????[]???]; done).
  assert (proc_brk kernel_space 0 (the_procs k) = (the_procs k, brk)) as Hb.
  { unfold proc_brk. by destruct (Z.ltb_spec (current_proc (the_procs k)) 0); [lia|]. }
  assert (proc_sbrk kernel_space 0 (the_procs k) = (the_procs k, int64 brk)) as Hs.
  { unfold proc_sbrk. by destruct (Z.ltb_spec (current_proc (the_procs k)) 0); [lia|]. }
  unfold bind at 1, on_procs at 1. rewrite Hb, Hset. destruct (Z.eqb_spec brk u64_error) as [E|]; [unfold u64_error in *; lia|].
  rewrite Ha. unfold bind, on_procs. change (int64 0) with 0. rewrite Hs, Hset.
  assert (u64 (int64 brk) = brk) as ->.
  { unfold int64. rewrite (u64_small brk) by lia. destruct (Z.ltb_spec brk (2 ^ 63)); [apply u64_small|]; lia. }
  by destruct (Z.eqb_spec brk u64_error).
Qed.

(** ** Directories and the table *)

(** [sys_rmdir] asks for no permission: for an ordinary user it is
    [ext2_rmdir]. *)
Lemma rmdir_asks_no_permission k path :
  let u := proc_geteuid (the_procs k) in
  path <> 0 -> rootfs k <> 0 -> is_Some (filesystems k !! rootfs k) -> 0 <= u < 2 ^ 16 ->
  user_exists (user_table k) u = true -> user_is_root (user_table k) u = false ->
  sys_rmdir kmalloc_ok path k =
    (let* r := on_fs (rootfs k) (ext2_rmdir kmalloc_ok (strings k path)) in ret (zero_or ENOENT r)) k.
Proof using.
  intros u Hp Hr [s Hs] Hu Hex Hroot. unfold sys_rmdir. apply Z.eqb_neq in Hp, Hr. rewrite Hp. unfold bind at 1, gets. cbn [id].
  rewrite Hr. unfold bind at 1, on_root at 1, bind at 1, gets. cbn [id]. rewrite Hr. unfold on_fs at 1. rewrite Hs.
  fold u. assert (u16 u = u) as -> by (apply Z.mod_small; lia). unfold ext2_chown_as. rewrite Hex, Hroot. cbn [negb].
  unfold ret at 1. fold (with_fs (rootfs k) s k). rewrite with_fs_same by done.
  unfold bind at 1, on_root, bind at 1, gets. cbn [id]. by rewrite Hr.
Qed.
End facts.

(** Every registered handler is found under its number, and no two handlers
    are registered under one. *)
Lemma registered_handlers :
  NoDup (map fst syscall_table) /\
  Forall (fun '(number, h) => aget None (register_syscalls (replicate (Z.to_nat SYSCALL_MAX_COUNT) None)) number = Some h)
    syscall_table.
Proof.
  split; [apply (bool_decide_eq_true_1 _); vm_compute; reflexivity|].
  repeat (constructor; [vm_compute; reflexivity|]). constructor.
Qed.

(** ** An example: "/" opened for writing *)
Definition open_kernel : kernel mem_disk Proc.procs unit :=
  mkKernel (replicate 100 null_vfs_file) (replicate 16 null_mount) 1 {[1 := demo_mounted]} ∅ ∅ 2 (replicate 32 None) []
    (mkSys [] Scheduler.demo_procs) perm_db tt (fun _ => [47]).

Lemma open_kernel_entry i : entry open_kernel i = null_vfs_file.
Proof.
  unfold entry, open_kernel, aget. cbn [open_files]. destruct (0 <=? i); [|done].
  destruct (replicate 100 null_vfs_file !! Z.to_nat i) as [f|] eqn:E; [|done]. by apply lookup_replicate_1 in E as [-> _].
Qed.

Lemma open_kernel_wf : vfs_wf open_kernel.
Proof.
  assert (Hfree : forall i, of_exists (entry open_kernel i) = false) by (intros i; by rewrite open_kernel_entry).
  split; try reflexivity.
  - intros p Hp. destruct (decide (p = 1)) as [->|Hne]; [done|].
    unfold open_kernel in Hp. cbn [filesystems] in Hp. rewrite lookup_singleton_ne in Hp by congruence. by destruct Hp.
  - intros p [x Hx]. discriminate Hx.
  - intros p [x Hx]. discriminate Hx.
  - exists demo_mounted. apply lookup_singleton_eq.
  - intros i Hi Ha. unfold open_kernel, aget in Ha. cbn [mount_table] in Ha. destruct (0 <=? i); [|done].
    destruct (replicate 16 null_mount !! Z.to_nat i) as [f|] eqn:E; [|done]. by apply lookup_replicate_1 in E as [-> _].
  - intros i _ [Hex _]. congruence.
  - intros i _ [Hex _]. congruence.
  - intros p x Hx. discriminate Hx.
  - intros p x Hx. discriminate Hx.
  - intros i j _ _ [Hex _]. congruence.
  - intros i j _ _ [Hex _]. congruence.
Qed.

