(* ===== verification/XhciRings.v ===== *)
(** * The rings of the USB controller (src/kernel/drivers/usb/xhci/xhci_rings.c,
    xhci_device.c)

    The kernel and an xHCI controller exchange 16-byte blocks (TRBs) through
    rings in memory.  On the command ring and the transfer rings the kernel
    produces and the controller consumes; on the event ring it is the other way
    round.  Nobody writes the other side's index: a block is valid when its
    cycle bit is the one the consumer expects, and both sides flip the bit they
    use each time they go round.

    A ring is the list of its blocks.  [hw_step] and [hw_post] are what the
    controller does to a ring, as its specification has it.  [rings_step] is
    the step relation of kernel and controller working on one ring, in any
    order; the theorems show that such a ring is a queue: nothing is lost,
    repeated or reordered.

    A store outside the memory of a ring is undefined ([None]). *)

From S2P Require Import Prelude.
#[local] Open Scope Z_scope.

(** ** Blocks *)

Record xhci_trb_t := mkTrb { parameter : Z; status : Z; control : Z }.
Definition no_trb : xhci_trb_t := mkTrb 0 0 0.

#[export] Instance xhci_trb_t_eq_dec : EqDecision xhci_trb_t.
Proof. solve_decision. Defined.

(** The bit fields of [control]. *)
Definition cycle_bit (t : xhci_trb_t) : Z := Z.land (control t) 1.
Definition trb_type (t : xhci_trb_t) : Z := Z.land (Z.shiftr (control t) 10) 0x3F.
Definition set_cycle_bit (t : xhci_trb_t) (b : Z) : xhci_trb_t :=
  mkTrb (parameter t) (status t) (Z.lor (Z.ldiff (control t) 1) (Z.land b 1)).

Definition XHCI_TRB_TYPE_LINK : Z := 6.
Definition XHCI_TRB_TYPE_SHIFT : Z := 10.
Definition XHCI_LINK_TRB_TC_BIT : Z := Z.shiftl 1 1.
Definition XHCI_CRCR_RING_CYCLE_STATE : Z := Z.shiftl 1 0.
Definition XHCI_ERDP_EHB : Z := Z.shiftl 1 3.
Definition sizeof_trb : Z := 16.

(** [control] of the block at the end of a ring, which leads back to its start. *)
Definition link_control (b : Z) : Z :=
  Z.lor (Z.lor (Z.shiftl XHCI_TRB_TYPE_LINK XHCI_TRB_TYPE_SHIFT) XHCI_LINK_TRB_TC_BIT) b.

Definition store (l : list xhci_trb_t) (i : Z) (t : xhci_trb_t) : option (list xhci_trb_t) :=
  if (0 <=? i) && (i <? Z.of_nat (length l)) then Some (aset l i t) else None.

(** ** Rings the kernel produces for

    One record for the static variables of the command ring ([m_trbs],
    [m_enqueue_ptr], ...) and for [xhci_transfer_ring_t].  The number of the
    blocks is [max_trb_count]; the last one is the link. *)
Record xhci_transfer_ring_t := mkRing {
  max_trb_count : Z;
  enqueue_ptr : Z;
  trbs : list xhci_trb_t;
  physical_base : Z;
  ring_cycle_bit : Z
}.

(** The initialisers get the memory of [alloc_xhci_memory], which is zero
    ([dma_alloc] clears it), and its physical address. *)
Definition zeroed (max_trbs : Z) : list xhci_trb_t := replicate (Z.to_nat max_trbs) no_trb.

Definition xhci_command_ring_init (max_trbs phys : Z) : option xhci_transfer_ring_t :=
  let mem := zeroed max_trbs in
  mem' ← store mem (max_trbs - 1)
           (mkTrb phys (status (aget no_trb mem (max_trbs - 1))) (link_control 1));
  Some (mkRing max_trbs 0 mem' phys 1).

Definition xhci_transfer_ring_init (max_trbs phys : Z) : option xhci_transfer_ring_t :=
  mem' ← store (zeroed max_trbs) (max_trbs - 1) (mkTrb phys 0 (link_control 1));
  Some (mkRing max_trbs 0 mem' phys 1).

Definition set_control (t : xhci_trb_t) (c : Z) : xhci_trb_t := mkTrb (parameter t) (status t) c.

(** Both write through the caller's pointer: the block the caller has afterwards
    is the one stored. *)
Definition xhci_transfer_ring_enqueue (r : xhci_transfer_ring_t) (t : xhci_trb_t) : option xhci_transfer_ring_t :=
  let n := max_trb_count r in
  mem ← store (trbs r) (enqueue_ptr r) (set_cycle_bit t (ring_cycle_bit r));
  let e := enqueue_ptr r + 1 in
  if e =? n - 1 then
    mem' ← store mem (n - 1) (set_control (aget no_trb mem (n - 1)) (link_control (ring_cycle_bit r)));
    Some (mkRing n 0 mem' (physical_base r) (if ring_cycle_bit r =? 0 then 1 else 0))
  else Some (mkRing n e mem (physical_base r) (ring_cycle_bit r)).

(** [xhci_command_ring_enqueue] is the same code on the static variables. *)
Definition xhci_command_ring_enqueue (m : xhci_transfer_ring_t) (t : xhci_trb_t) : option xhci_transfer_ring_t :=
  xhci_transfer_ring_enqueue m t.
Definition xhci_command_ring_get_physical_base (m : xhci_transfer_ring_t) : Z := physical_base m.
Definition xhci_command_ring_get_cycle_bit (m : xhci_transfer_ring_t) : Z := ring_cycle_bit m.

(** ** The controller as a consumer (xHCI specification 4.9.2)

    It keeps the index of the next block and the cycle bit it expects there.  A
    block with the other bit is not valid yet: nothing happens.  A link leads
    on, flipping the expected bit if its TC bit is set. *)
Record hw_consumer := mkHw { hw_deq : Z; hw_ccs : Z }.

Definition flip (b : Z) : Z := if b =? 0 then 1 else 0.

Definition hw_step (r : xhci_transfer_ring_t) (h : hw_consumer) : option (option xhci_trb_t * hw_consumer) :=
  let t := aget no_trb (trbs r) (hw_deq h) in
  if cycle_bit t =? hw_ccs h then
    if trb_type t =? XHCI_TRB_TYPE_LINK then
      Some (None, mkHw ((parameter t - physical_base r) / sizeof_trb)
                       (if Z.testbit (control t) 1 then flip (hw_ccs h) else hw_ccs h))
    else Some (Some t, mkHw (hw_deq h + 1) (hw_ccs h))
  else None.

(** ** Kernel and controller together

    The ring, the controller, and for the statements: the blocks sent and the
    blocks done so far.  The kernel sends when fewer than [max_trb_count - 2]
    blocks are under way. *)
Record rings := mkRings {
  r_ring : xhci_transfer_ring_t; r_hw : hw_consumer;
  r_sent : list xhci_trb_t; r_done : list xhci_trb_t
}.

(** A block without its cycle bit. *)
Definition payload (t : xhci_trb_t) : xhci_trb_t := set_cycle_bit t 0.

Inductive rings_step : rings -> rings -> Prop :=
  | step_send r h sent dn t r' :
      Z.of_nat (length sent) - Z.of_nat (length dn) < max_trb_count r - 2 ->
      trb_type t <> XHCI_TRB_TYPE_LINK ->
      xhci_transfer_ring_enqueue r t = Some r' ->
      rings_step (mkRings r h sent dn) (mkRings r' h (sent ++ [payload t]) dn)
  | step_link r h sent dn h' :
      hw_step r h = Some (None, h') ->
      rings_step (mkRings r h sent dn) (mkRings r h' sent dn)
  | step_take r h sent dn t h' :
      hw_step r h = Some (Some t, h') ->
      rings_step (mkRings r h sent dn) (mkRings r h' sent (dn ++ [payload t])).

Definition rings_start (r : xhci_transfer_ring_t) : rings := mkRings r (mkHw 0 1) [] [].

(** ** The event ring

    The static variables [e_*], with the register ERDP; the table with the one
    segment holds [e_physical_base] and [e_segment_trb_count]. *)
Record event_ring := mkEvents {
  e_segment_trb_count : Z;
  e_trbs : list xhci_trb_t;
  e_physical_base : Z;
  e_dequeue_ptr : Z;
  e_rcs_bit : Z;
  erdp : Z
}.

Definition set_erdp (v : Z) (e : event_ring) : event_ring :=
  mkEvents (e_segment_trb_count e) (e_trbs e) (e_physical_base e) (e_dequeue_ptr e) (e_rcs_bit e) v.

Definition _update_erdp (e : event_ring) : event_ring :=
  set_erdp (u64 (e_physical_base e + e_dequeue_ptr e * sizeof_trb)) e.

Definition xhci_event_ring_init (max_trbs phys : Z) : event_ring :=
  _update_erdp (mkEvents max_trbs (zeroed max_trbs) phys 0 XHCI_CRCR_RING_CYCLE_STATE 0).

Definition next_event (e : event_ring) : xhci_trb_t := aget no_trb (e_trbs e) (e_dequeue_ptr e).

Definition xhci_event_ring_has_unprocessed_events (e : event_ring) : bool :=
  cycle_bit (next_event e) =? e_rcs_bit e.

(** The pointer it returns is the index of the block. *)
Definition _dequeue_trb (e : event_ring) : event_ring * option Z :=
  if negb (cycle_bit (next_event e) =? e_rcs_bit e) then (e, None)
  else
    let p := e_dequeue_ptr e + 1 in
    let '(p', b) := if p =? e_segment_trb_count e
                    then (0, if e_rcs_bit e =? 0 then 1 else 0) else (p, e_rcs_bit e) in
    (mkEvents (e_segment_trb_count e) (e_trbs e) (e_physical_base e) p' b (erdp e), Some (e_dequeue_ptr e)).

Definition end_of_batch (e : event_ring) : event_ring :=
  let e1 := _update_erdp e in set_erdp (Z.lor (erdp e1) XHCI_ERDP_EHB) e1.

(** The loop stops after [max_count] rounds, so the bound is its fuel. *)
Fixpoint dequeue_loop (max_count : nat) (e : event_ring) : event_ring * list Z :=
  match max_count with
  | O => (e, [])
  | S n =>
      if xhci_event_ring_has_unprocessed_events e then
        match _dequeue_trb e with
        | (e', None) => (e', [])
        | (e', Some p) => let '(e'', ps) := dequeue_loop n e' in (e'', p :: ps)
        end
      else (e, [])
  end.

Definition xhci_event_ring_dequeue_events (max_count : nat) (e : event_ring) : event_ring * list Z :=
  let '(e', ps) := dequeue_loop max_count e in (end_of_batch e', ps).
(** The same code under another name. *)
Definition xhci_event_ring_dequeue (max_count : nat) (e : event_ring) : event_ring * list Z :=
  xhci_event_ring_dequeue_events max_count e.

(** [xhci_event_ring_flush] has no bound: [fuel] bounds its rounds. *)
Fixpoint flush_loop (fuel : nat) (e : event_ring) : option event_ring :=
  if xhci_event_ring_has_unprocessed_events e then
    match fuel with
    | O => None
    | S n => match _dequeue_trb e with
             | (e', None) => Some e'
             | (e', Some _) => flush_loop n e'
             end
    end
  else Some e.
Definition xhci_event_ring_flush (fuel : nat) (e : event_ring) : option event_ring :=
  e' ← flush_loop fuel e; Some (end_of_batch e').

(** ** The controller as a producer (xHCI specification 4.9.4)

    It keeps the index it writes next and its cycle bit, and stops before the
    block ERDP names. *)
Record hw_producer := mkProducer { hw_enq : Z; hw_pcs : Z }.

Definition erdp_index (e : event_ring) : Z := (Z.land (erdp e) (Z.lnot 0xF) - e_physical_base e) / sizeof_trb.

Definition hw_next (e : event_ring) (p : hw_producer) : hw_producer :=
  if hw_enq p + 1 =? e_segment_trb_count e then mkProducer 0 (flip (hw_pcs p))
  else mkProducer (hw_enq p + 1) (hw_pcs p).

Definition hw_post (t : xhci_trb_t) (e : event_ring) (p : hw_producer) : option (event_ring * hw_producer) :=
  if hw_enq (hw_next e p) =? erdp_index e then None
  else Some (mkEvents (e_segment_trb_count e) (aset (e_trbs e) (hw_enq p) (set_cycle_bit t (hw_pcs p)))
               (e_physical_base e) (e_dequeue_ptr e) (e_rcs_bit e) (erdp e), hw_next e p).

(** Controller and kernel together, with the events posted and handled. *)
Record events := mkEv {
  ev_ring : event_ring; ev_hw : hw_producer; ev_posted : list xhci_trb_t; ev_handled : list xhci_trb_t
}.
Definition read_events (e : event_ring) (ps : list Z) : list xhci_trb_t :=
  map (fun i => payload (aget no_trb (e_trbs e) i)) ps.

Inductive events_step : events -> events -> Prop :=
  | step_post e p posted handled t e' p' :
      hw_post t e p = Some (e', p') ->
      events_step (mkEv e p posted handled) (mkEv e' p' (posted ++ [payload t]) handled)
  | step_handle e p posted handled n e' ps :
      xhci_event_ring_dequeue_events n e = (e', ps) ->
      events_step (mkEv e p posted handled) (mkEv e' p posted (handled ++ read_events e ps)).

Definition events_start (max_trbs phys : Z) : events :=
  mkEv (xhci_event_ring_init max_trbs phys) (mkProducer 0 1) [] [].

(** * Theorems *)

(** ** Bit fields *)

Definition is_bit (b : Z) : Prop := b = 0 \/ b = 1.

Lemma bit_cases j : Z.testbit 1 j = (j =? 0).
Proof. destruct (Z.eqb_spec j 0) as [->|H]; [done|]. destruct j as [|p|p]; [done|by destruct p|done]. Qed.

Lemma cycle_bit_set t b : is_bit b -> cycle_bit (set_cycle_bit t b) = b.
Proof.
  intros Hb. unfold cycle_bit, set_cycle_bit. cbn [control].
  rewrite Z.land_lor_distr_l, <- (Z.land_assoc b). change (Z.land 1 1) with 1.
  replace (Z.land (Z.ldiff (control t) 1) 1) with 0; [destruct Hb as [-> | ->]; done|].
  symmetry. apply Z.bits_inj'. intros j Hj. rewrite Z.bits_0. bits_simpl. rewrite bit_cases.
  destruct (j =? 0); [by rewrite andb_false_r|apply andb_false_r].
Qed.

Lemma trb_type_set t b : trb_type (set_cycle_bit t b) = trb_type t.
Proof.
  unfold trb_type, set_cycle_bit. cbn [control]. f_equal.
  apply Z.bits_inj'. intros j Hj. rewrite !Z.shiftr_spec by done. bits_simpl. rewrite bit_cases.
  destruct (Z.eqb_spec (j + 10) 0); [lia|]. by rewrite !andb_false_r, orb_false_r, andb_true_r.
Qed.

Lemma set_cycle_bit_twice t b c : set_cycle_bit (set_cycle_bit t b) c = set_cycle_bit t c.
Proof.
  unfold set_cycle_bit. cbn [parameter status control]. f_equal.
  apply Z.bits_inj'. intros j Hj. bits_simpl. rewrite bit_cases.
  destruct (j =? 0); rewrite ?andb_false_r, ?andb_true_r, ?orb_false_r; done.
Qed.

Lemma payload_set t b : payload (set_cycle_bit t b) = payload t.
Proof. apply set_cycle_bit_twice. Qed.

Lemma link_bits b : is_bit b ->
  Z.land (link_control b) 1 = b /\ Z.land (Z.shiftr (link_control b) 10) 0x3F = XHCI_TRB_TYPE_LINK /\
  Z.testbit (link_control b) 1 = true.
Proof. intros [-> | ->]; done. Qed.

Lemma flip_bit b : is_bit b -> is_bit (1 - b) /\ flip b = 1 - b.
Proof. unfold is_bit, flip. intros [-> | ->]; simpl; auto. Qed.
Lemma bit_ne b c : is_bit b -> is_bit c -> b <> c -> c = 1 - b.
Proof. unfold is_bit. lia. Qed.

Lemma store_inside l i t : 0 <= i < Z.of_nat (length l) -> store l i t = Some (aset l i t).
Proof.
  intros Hi. unfold store. by rewrite (proj2 (Z.leb_le 0 i)), (proj2 (Z.ltb_lt _ _)) by lia.
Qed.

(** A pending block stands [j] places after the first, going round. *)
Definition place (n d j : Z) : Z := if d + j <? n then d + j else d + j - n.

Lemma place_spec n d j : 0 <= d <= n -> 0 <= j < n ->
  (place n d j = d + j /\ d + j < n) \/ (place n d j = d + j - n /\ n <= d + j).
Proof. intros. unfold place. destruct (Z.ltb_spec (d + j) n); auto. Qed.

(** [queued mem n d q]: from place [d] on stand the blocks [q]. *)
Definition queued (mem : list xhci_trb_t) (n d : Z) (q : list xhci_trb_t) : Prop :=
  forall j x, q !! j = Some x -> payload (aget no_trb mem (place n d (Z.of_nat j))) = x.

Lemma queued_app mem n d q i t x :
  0 <= d <= n -> Z.of_nat (length q) < n -> 0 <= i < Z.of_nat (length mem) ->
  i = place n d (Z.of_nat (length q)) -> payload t = x ->
  queued mem n d q -> queued (aset mem i t) n d (q ++ [x]).
Proof.
  intros Hd Hl Hi Hp Hx Hq j y. rewrite lookup_app_Some.
  intros [Hj|[Hj Hy]].
  - pose proof (lookup_lt_Some _ _ _ Hj) as Hlt. rewrite aget_aset_ne; [by apply Hq| |lia].
    subst i. destruct (place_spec n d (Z.of_nat (length q))) as [[-> ?]|[-> ?]]; [lia|lia| |];
      destruct (place_spec n d (Z.of_nat j)) as [[-> ?]|[-> ?]]; lia.
  - apply list_lookup_singleton_Some in Hy as [Hj0 <-].
    replace j with (length q) by lia. rewrite <- Hp. by rewrite aget_aset_eq.
Qed.

Lemma queued_tail mem n d x q :
  queued mem n d (x :: q) -> queued mem n (d + 1) q.
Proof.
  intros Hq j y Hy. rewrite <- (Hq (S j) y Hy). unfold place.
  replace (d + 1 + Z.of_nat j) with (d + Z.of_nat (S j)) by lia. done.
Qed.

Lemma queued_wrap mem n q : Z.of_nat (length q) <= n -> queued mem n n q -> queued mem n 0 q.
Proof.
  intros Hl Hq j x Hj. pose proof (lookup_lt_Some _ _ _ Hj). rewrite <- (Hq j x Hj). unfold place.
  destruct (Z.ltb_spec (n + Z.of_nat j) n); [lia|]. destruct (Z.ltb_spec (0 + Z.of_nat j) n); [|lia].
  do 2 f_equal. lia.
Qed.

Lemma queued_aset_other mem n d q i t :
  0 <= i -> (forall j, 0 <= j < Z.of_nat (length q) -> place n d j <> i) ->
  queued mem n d q -> queued (aset mem i t) n d q.
Proof.
  intros Hi Hne Hq j x Hj. pose proof (lookup_lt_Some _ _ _ Hj).
  rewrite aget_aset_ne; [by apply Hq| |done]. intros ->. eapply (Hne (Z.of_nat j)); [lia|done].
Qed.

(** ** The rings the kernel fills are queues *)

(** [q] are the blocks under way.  The producer is at [enqueue_ptr], the places
    before it carry its bit and those from there on the other one; the consumer
    is in the same round, or in the one before, perhaps in front of the link. *)
Record ring_ok (r : xhci_transfer_ring_t) (h : hw_consumer) (q : list xhci_trb_t) : Prop := {
  ro_max : 3 <= max_trb_count r;
  ro_len : Z.of_nat (length (trbs r)) = max_trb_count r;
  ro_enq : 0 <= enqueue_ptr r < max_trb_count r - 1;
  ro_bit : is_bit (ring_cycle_bit r);
  ro_bits : forall i, 0 <= i < max_trb_count r - 1 ->
    cycle_bit (aget no_trb (trbs r) i) =
      if i <? enqueue_ptr r then ring_cycle_bit r else 1 - ring_cycle_bit r;
  ro_queued : queued (trbs r) (max_trb_count r - 1) (hw_deq h) q;
  ro_types : forall x, x ∈ q -> trb_type x <> XHCI_TRB_TYPE_LINK;
  ro_link : exists b st, is_bit b /\
    aget no_trb (trbs r) (max_trb_count r - 1) = mkTrb (physical_base r) st (link_control b) /\
    (hw_ccs h <> ring_cycle_bit r -> b = hw_ccs h);
  ro_round :
    (hw_ccs h = ring_cycle_bit r /\ 0 <= hw_deq h <= enqueue_ptr r /\
     Z.of_nat (length q) = enqueue_ptr r - hw_deq h) \/
    (hw_ccs h = 1 - ring_cycle_bit r /\ enqueue_ptr r < hw_deq h <= max_trb_count r - 1 /\
     Z.of_nat (length q) = max_trb_count r - 1 - hw_deq h + enqueue_ptr r)
}.

Lemma init_ring_ok r n phys : 3 <= n ->
  xhci_command_ring_init n phys = Some r \/ xhci_transfer_ring_init n phys = Some r ->
  ring_ok r (mkHw 0 1) [].
Proof.
  intros Hn Hr.
  assert (exists st, r = mkRing n 0 (aset (zeroed n) (n - 1) (mkTrb phys st (link_control 1))) phys 1) as [st ->].
  { assert (Z.of_nat (length (zeroed n)) = n) by (unfold zeroed; rewrite length_replicate; lia).
    destruct Hr as [Hr|Hr]; unfold xhci_command_ring_init, xhci_transfer_ring_init in Hr;
      rewrite store_inside in Hr by lia; injection Hr as <-; eauto. }
  split; cbn [max_trb_count trbs enqueue_ptr ring_cycle_bit hw_deq hw_ccs physical_base length].
  - done.
  - rewrite length_aset. unfold zeroed. rewrite length_replicate. lia.
  - lia.
  - by right.
  - intros i Hi. rewrite aget_aset_ne by lia. unfold zeroed. rewrite aget_replicate by lia.
    destruct (Z.ltb_spec i 0); [lia|done].
  - intros j x Hx. done.
  - intros x Hx%elem_of_nil. done.
  - exists 1, st. split_and!; [by right| |done].
    apply aget_aset_eq. unfold zeroed. rewrite length_replicate. lia.
  - left. lia.
Qed.

(** The block is stored at the enqueue index, whatever follows. *)
Lemma enqueue_stores r h q t :
  ring_ok r h q -> Z.of_nat (length q) < max_trb_count r - 2 ->
  queued (aset (trbs r) (enqueue_ptr r) (set_cycle_bit t (ring_cycle_bit r)))
    (max_trb_count r - 1) (hw_deq h) (q ++ [payload t]).
Proof.
  intros [Hm Hl He Hp Hb Hq Ht Hk Hr] Hroom.
  apply queued_app; [lia|lia|lia| |apply payload_set|done].
  destruct (place_spec (max_trb_count r - 1) (hw_deq h) (Z.of_nat (length q))) as [[-> ?]|[-> ?]]; lia.
Qed.

Lemma enqueue_bits r h q t i :
  ring_ok r h q -> 0 <= i < max_trb_count r - 1 ->
  cycle_bit (aget no_trb (aset (trbs r) (enqueue_ptr r) (set_cycle_bit t (ring_cycle_bit r))) i) =
    if i <? enqueue_ptr r + 1 then ring_cycle_bit r else 1 - ring_cycle_bit r.
Proof.
  intros [Hm Hl He Hp Hb Hq Ht Hk Hr] Hi.
  destruct (decide (i = enqueue_ptr r)) as [->|Hne].
  - rewrite aget_aset_eq by lia. rewrite cycle_bit_set by done.
    destruct (Z.ltb_spec (enqueue_ptr r) (enqueue_ptr r + 1)); [done|lia].
  - rewrite aget_aset_ne by lia. rewrite Hb by done.
    destruct (Z.ltb_spec i (enqueue_ptr r)), (Z.ltb_spec i (enqueue_ptr r + 1)); lia || done.
Qed.

Lemma types_app (q : list xhci_trb_t) t :
  (forall x, x ∈ q -> trb_type x <> XHCI_TRB_TYPE_LINK) -> trb_type t <> XHCI_TRB_TYPE_LINK ->
  forall x, x ∈ q ++ [payload t] -> trb_type x <> XHCI_TRB_TYPE_LINK.
Proof.
  intros Hq Ht x Hx. apply elem_of_app in Hx as [Hx|Hx%list_elem_of_singleton].
  - by apply Hq.
  - subst x. unfold payload. by rewrite trb_type_set.
Qed.

Lemma enqueue_ok r h q t :
  ring_ok r h q -> Z.of_nat (length q) < max_trb_count r - 2 -> trb_type t <> XHCI_TRB_TYPE_LINK ->
  exists r', xhci_transfer_ring_enqueue r t = Some r' /\ ring_ok r' h (q ++ [payload t]) /\
             max_trb_count r' = max_trb_count r.
Proof.
  intros Hok Hroom Htype. pose proof (enqueue_stores r h q t Hok Hroom) as Hst.
  pose proof (fun i => enqueue_bits r h q t i Hok) as Hbits.
  destruct Hok as [Hm Hl He Hp Hb Hq Ht Hk Hr].
  unfold xhci_transfer_ring_enqueue. rewrite store_inside by lia. cbn [option_bind mbind].
  destruct (Z.eqb_spec (enqueue_ptr r + 1) (max_trb_count r - 1)) as [Hw|Hw].
  - rewrite store_inside by (rewrite length_aset; lia). cbn [option_bind mbind].
    eexists. split; [done|]. split; [|done].
    assert (ring_cycle_bit r = hw_ccs h /\ 0 < hw_deq h) as [Hc Hd] by lia.
    change (if ring_cycle_bit r =? 0 then 1 else 0) with (flip (ring_cycle_bit r)).
    destruct (flip_bit _ Hp) as [Hp' ->].
    assert (1 - ring_cycle_bit r <> ring_cycle_bit r) by (unfold is_bit in Hp; lia).
    split; cbn [max_trb_count trbs enqueue_ptr ring_cycle_bit physical_base]; rewrite ?length_aset; try lia.
    + done.
    + intros i Hi. rewrite aget_aset_ne by lia. rewrite Hbits by lia.
      destruct (Z.ltb_spec i (enqueue_ptr r + 1)), (Z.ltb_spec i 0); lia.
    + apply queued_aset_other; [lia| |done]. intros j Hj. rewrite length_app in Hj. cbn [length] in Hj.
      destruct (place_spec (max_trb_count r - 1) (hw_deq h) j) as [[-> ?]|[-> ?]]; lia.
    + by apply types_app.
    + destruct Hk as (b & st & Hbit & Hlink & _).
      exists (ring_cycle_bit r), st. split_and!; [done| |done].
      rewrite aget_aset_eq by (rewrite length_aset; lia).
      rewrite aget_aset_ne by lia. by rewrite Hlink.
    + right. rewrite length_app. cbn [length]. lia.
  - eexists. split; [done|]. split; [|done].
    split; cbn [max_trb_count trbs enqueue_ptr ring_cycle_bit physical_base]; rewrite ?length_aset; try (lia || done).
    + by apply types_app.
    + destruct Hk as (b & st & Hbit & Hlink & Hc). exists b, st. split_and!; [done| |done].
      by rewrite aget_aset_ne by lia.
    + rewrite length_app. cbn [length]. lia.
Qed.

(** What the controller finds. *)
Lemma hw_step_sound r h q res h' :
  ring_ok r h q -> hw_step r h = Some (res, h') ->
  match res with
  | None => ring_ok r h' q /\ hw_deq h = max_trb_count r - 1
  | Some t => exists q', q = payload t :: q' /\ ring_ok r h' q'
  end.
Proof.
  intros [Hm Hl He Hp Hb Hq Ht (b & st & Hbit & Hlink & Hcc) Hr] Hs. unfold hw_step in Hs.
  destruct (Z.eqb_spec (cycle_bit (aget no_trb (trbs r) (hw_deq h))) (hw_ccs h)) as [Hc|]; [|done].
  destruct (decide (hw_deq h = max_trb_count r - 1)) as [Hd|Hd].
  - (* the link *)
    assert (b = hw_ccs h) as -> by (apply Hcc; unfold is_bit in *; lia).
    rewrite Hd, Hlink in Hs. unfold trb_type in Hs. cbn [control parameter] in Hs.
    destruct (link_bits _ Hbit) as (_ & Ety & Etc). rewrite Ety, Etc in Hs. cbn in Hs.
    destruct (flip_bit _ Hbit) as [_ Hf]. change (if hw_ccs h =? 0 then 1 else 0) with (flip (hw_ccs h)) in Hs. rewrite Hf in Hs.
    rewrite Z.sub_diag in Hs. change (0 / sizeof_trb) with 0 in Hs. injection Hs as <- <-.
    split; [|done]. split; cbn [hw_deq hw_ccs]; try done.
    + apply queued_wrap; [lia|]. by rewrite Hd in Hq.
    + exists (hw_ccs h), st. split_and!; [done|done|]. unfold is_bit in *. lia.
    + left. unfold is_bit in *. lia.
  - assert (0 <= hw_deq h < max_trb_count r - 1) as Hd' by lia.
    rewrite Hb in Hc by done.
    destruct q as [|x q'].
    { exfalso. cbn [length] in Hr. destruct (Z.ltb_spec (hw_deq h) (enqueue_ptr r)); unfold is_bit in *; lia. }
    pose proof (Hq 0%nat x eq_refl) as Hx. unfold place in Hx.
    replace (hw_deq h + Z.of_nat 0) with (hw_deq h) in Hx by lia.
    destruct (Z.ltb_spec (hw_deq h) (max_trb_count r - 1)); [|lia].
    assert (trb_type (aget no_trb (trbs r) (hw_deq h)) <> XHCI_TRB_TYPE_LINK) as Hty.
    { rewrite <- (trb_type_set _ 0). change (set_cycle_bit ?t 0) with (payload t). rewrite Hx.
      apply Ht, elem_of_cons. by left. }
    rewrite (proj2 (Z.eqb_neq _ _) Hty) in Hs. injection Hs as <- <-.
    exists q'. split; [by rewrite Hx|]. cbn [length] in Hr.
    split; cbn [hw_deq hw_ccs]; try done.
    + by eapply queued_tail.
    + intros y Hy. apply Ht, elem_of_cons. by right.
    + eauto.
    + lia.
Qed.

(** The controller is never stuck while a block waits: it takes one, after
    following the link at most once. *)
Lemma hw_step_live r h q x :
  ring_ok r h (x :: q) ->
  (exists t h', hw_step r h = Some (Some t, h')) \/
  (exists h1 t h', hw_step r h = Some (None, h1) /\ hw_step r h1 = Some (Some t, h')).
Proof.
  intros Hok.
  assert (forall k, ring_ok r k (x :: q) -> hw_deq k <> max_trb_count r - 1 -> exists t h', hw_step r k = Some (Some t, h')) as Hin.
  { intros k [Hm Hl He Hp Hb Hq Ht Hk Hr] Hd. unfold hw_step. cbn [length] in Hr.
    assert (cycle_bit (aget no_trb (trbs r) (hw_deq k)) = hw_ccs k) as ->.
    { rewrite Hb by lia. destruct (Z.ltb_spec (hw_deq k) (enqueue_ptr r)); lia. }
    rewrite Z.eqb_refl. destruct (Z.eqb_spec (trb_type (aget no_trb (trbs r) (hw_deq k))) XHCI_TRB_TYPE_LINK) as [E|]; [|eauto].
    exfalso. apply (Ht x); [apply elem_of_cons; by left|].
    rewrite <- (Hq 0%nat x eq_refl). unfold payload, place. rewrite trb_type_set.
    replace (hw_deq k + Z.of_nat 0) with (hw_deq k) by lia.
    destruct (Z.ltb_spec (hw_deq k) (max_trb_count r - 1)); [done|lia]. }
  destruct (decide (hw_deq h = max_trb_count r - 1)) as [Hd|Hd]; [|left; by apply Hin].
  right. assert (exists h1, hw_step r h = Some (None, h1) /\ hw_deq h1 = 0) as (h1 & Hs & H0).
  { destruct Hok as [Hm Hl He Hp Hb Hq Ht (b & st & Hbit & Hlink & Hcc) Hr].
    assert (b = hw_ccs h) as -> by (apply Hcc; unfold is_bit in *; lia).
    destruct (link_bits _ Hbit) as (Ecy & Ety & _).
    unfold hw_step. rewrite Hd, Hlink. unfold cycle_bit, trb_type. cbn [control parameter].
    rewrite Ecy, Ety, !Z.eqb_refl. eexists. split; [done|]. cbn [hw_deq]. by rewrite Z.sub_diag. }
  pose proof (hw_step_sound _ _ _ _ _ Hok Hs) as [Hok1 _].
  destruct (Hin h1 Hok1) as (t & h' & Ht); [destruct Hok; lia|]. eauto 10.
Qed.

(** The state of ring, controller and statements, reached from the start. *)
Lemma rings_reachable r n phys s :
  3 <= n ->
  xhci_command_ring_init n phys = Some r \/ xhci_transfer_ring_init n phys = Some r ->
  rtc rings_step (rings_start r) s ->
  exists q, r_sent s = r_done s ++ q /\ ring_ok (r_ring s) (r_hw s) q /\ max_trb_count (r_ring s) = n.
Proof.
  intros Hn Hr Hs.
  assert (max_trb_count r = n) as Hmax.
  { destruct Hr as [Hr|Hr]; unfold xhci_command_ring_init, xhci_transfer_ring_init in Hr;
      (rewrite store_inside in Hr by (unfold zeroed; rewrite length_replicate; lia)); by injection Hr as <-. }
  assert (exists q, r_sent (rings_start r) = r_done (rings_start r) ++ q /\
    ring_ok (r_ring (rings_start r)) (r_hw (rings_start r)) q /\ max_trb_count (r_ring (rings_start r)) = n) as H0.
  { exists []. cbn. split_and!; [done|by eapply init_ring_ok|done]. }
  revert H0. induction Hs as [s|s1 s2 s3 H12 _ IH]; [done|]. intros (q & Hsent & Hok & Hm). apply IH.
  destruct H12 as [r1 h sent dn t r' Hroom Hty He | r1 h sent dn h' He | r1 h sent dn t h' He]; cbn in *.
  - subst sent. rewrite length_app in Hroom.
    destruct (enqueue_ok r1 h q t Hok) as (r2 & He' & Hok' & Hm'); [lia|done|].
    rewrite He in He'. injection He' as <-. exists (q ++ [payload t]).
    split_and!; [by rewrite app_assoc|done|lia].
  - destruct (hw_step_sound _ _ _ _ _ Hok He) as [Hok' _]. by exists q.
  - destruct (hw_step_sound _ _ _ _ _ Hok He) as (q' & -> & Hok'). exists q'.
    split_and!; [by rewrite <- app_assoc|done|done].
Qed.


(** ** The event ring is a queue *)

Record events_ok (e : event_ring) (p : hw_producer) (q : list xhci_trb_t) : Prop := {
  eo_max : 2 <= e_segment_trb_count e;
  eo_len : Z.of_nat (length (e_trbs e)) = e_segment_trb_count e;
  eo_enq : 0 <= hw_enq p < e_segment_trb_count e;
  eo_bit : is_bit (hw_pcs p);
  eo_bits : forall i, 0 <= i < e_segment_trb_count e ->
    cycle_bit (aget no_trb (e_trbs e) i) = if i <? hw_enq p then hw_pcs p else 1 - hw_pcs p;
  eo_queued : queued (e_trbs e) (e_segment_trb_count e) (e_dequeue_ptr e) q;
  eo_round :
    (e_rcs_bit e = hw_pcs p /\ 0 <= e_dequeue_ptr e <= hw_enq p /\
     Z.of_nat (length q) = hw_enq p - e_dequeue_ptr e) \/
    (e_rcs_bit e = 1 - hw_pcs p /\ hw_enq p < e_dequeue_ptr e < e_segment_trb_count e /\
     Z.of_nat (length q) = e_segment_trb_count e - e_dequeue_ptr e + hw_enq p)
}.

(** The segment is aligned to a block and lies inside the address space. *)
Definition segment_ok (base n : Z) : Prop :=
  0 <= base /\ base mod sizeof_trb = 0 /\ base + n * sizeof_trb <= 2 ^ 64.

Lemma erdp_after_batch e :
  segment_ok (e_physical_base e) (e_segment_trb_count e) ->
  0 <= e_dequeue_ptr e < e_segment_trb_count e ->
  erdp_index (end_of_batch e) = e_dequeue_ptr e.
Proof.
  unfold segment_ok, sizeof_trb. intros (Hb & Hm & Hend) Hd.
  unfold erdp_index, end_of_batch, _update_erdp, set_erdp, sizeof_trb, XHCI_ERDP_EHB.
  cbn [erdp e_physical_base]. rewrite u64_small by lia.
  assert (e_physical_base e = 16 * (e_physical_base e / 16)) as Eb by zdiv_lia.
  set (k := e_physical_base e / 16) in *. rewrite Eb.
  change (Z.shiftl 1 3) with 8. change 0xF with (Z.ones 4).
  rewrite lor_disjoint_add, land_lnot_ones by first [lia | (apply Z.bits_inj'; intros j Hj; rewrite Z.bits_0;
    bits_simpl; replace (16 * k + e_dequeue_ptr e * 16) with (Z.shiftl (k + e_dequeue_ptr e) 4) by (rewrite Z.shiftl_mul_pow2 by lia; lia);
    rewrite Z.shiftl_spec by done; change 8 with (2 ^ 3); rewrite Z.pow2_bits_eqb by lia;
    destruct (Z.eqb_spec 3 j); [subst j; rewrite Z.testbit_neg_r by lia; done|apply andb_false_r])].
  change (2 ^ 4) with 16. zdiv_lia.
Qed.

Lemma init_events_ok n phys : 2 <= n -> segment_ok phys n ->
  events_ok (xhci_event_ring_init n phys) (mkProducer 0 1) [] /\
  erdp_index (xhci_event_ring_init n phys) = 0.
Proof.
  intros Hn (Hb & Hm & Hend). unfold xhci_event_ring_init, _update_erdp, set_erdp, sizeof_trb in *.
  cbn [e_segment_trb_count e_trbs e_physical_base e_dequeue_ptr e_rcs_bit erdp]. split.
  - split; cbn [e_segment_trb_count e_trbs e_dequeue_ptr e_rcs_bit hw_enq hw_pcs length]; try lia.
    + unfold zeroed. rewrite length_replicate. lia.
    + by right.
    + intros i Hi. unfold zeroed. rewrite aget_replicate by lia. destruct (Z.ltb_spec i 0); [lia|done].
    + intros j x Hx. done.
    + left. unfold XHCI_CRCR_RING_CYCLE_STATE. split_and!; done.
  - unfold erdp_index. cbn [erdp e_physical_base]. rewrite Z.mul_0_l, Z.add_0_r, u64_small by lia.
    change 0xF with (Z.ones 4). rewrite land_lnot_ones by lia. change (2 ^ 4) with 16. rewrite Hm.
    unfold sizeof_trb. by replace (phys - 0 - phys) with 0 by lia.
Qed.

Lemma hw_post_ok e p q t e' p' :
  events_ok e p q -> erdp_index e = e_dequeue_ptr e -> hw_post t e p = Some (e', p') ->
  events_ok e' p' (q ++ [payload t]) /\ e_dequeue_ptr e' = e_dequeue_ptr e /\ erdp e' = erdp e /\
  e_physical_base e' = e_physical_base e /\ e_segment_trb_count e' = e_segment_trb_count e.
Proof.
  intros [Hm Hl He Hp Hb Hq Hr] Hx Hpost. unfold hw_post in Hpost. rewrite Hx in Hpost.
  destruct (Z.eqb_spec (hw_enq (hw_next e p)) (e_dequeue_ptr e)) as [|Hfull]; [done|].
  injection Hpost as <- <-. split; [|done].
  assert (queued (aset (e_trbs e) (hw_enq p) (set_cycle_bit t (hw_pcs p))) (e_segment_trb_count e)
            (e_dequeue_ptr e) (q ++ [payload t])) as Hst.
  { apply queued_app; [lia|lia|lia| |apply payload_set|done].
    destruct (place_spec (e_segment_trb_count e) (e_dequeue_ptr e) (Z.of_nat (length q))) as [[-> ?]|[-> ?]]; lia. }
  assert (forall i, 0 <= i < e_segment_trb_count e ->
    cycle_bit (aget no_trb (aset (e_trbs e) (hw_enq p) (set_cycle_bit t (hw_pcs p))) i) =
      if i <? hw_enq p + 1 then hw_pcs p else 1 - hw_pcs p) as Hbits.
  { intros i Hi. destruct (decide (i = hw_enq p)) as [->|Hne].
    - rewrite aget_aset_eq, cycle_bit_set by (done || lia). destruct (Z.ltb_spec (hw_enq p) (hw_enq p + 1)); [done|lia].
    - rewrite aget_aset_ne, Hb by lia. destruct (Z.ltb_spec i (hw_enq p)), (Z.ltb_spec i (hw_enq p + 1)); lia || done. }
  unfold hw_next in *. destruct (Z.eqb_spec (hw_enq p + 1) (e_segment_trb_count e)) as [Hw|Hw]; cbn [hw_enq hw_pcs] in *.
  - destruct (flip_bit _ Hp) as [Hp' ->].
    split; cbn [e_segment_trb_count e_trbs e_dequeue_ptr e_rcs_bit hw_enq hw_pcs]; rewrite ?length_aset; try (lia || done).
    + intros i Hi. rewrite Hbits by done. destruct (Z.ltb_spec i (hw_enq p + 1)), (Z.ltb_spec i 0); lia.
    + right. rewrite length_app. cbn [length]. lia.
  - split; cbn [e_segment_trb_count e_trbs e_dequeue_ptr e_rcs_bit hw_enq hw_pcs]; rewrite ?length_aset; try (lia || done).
    rewrite length_app. cbn [length]. lia.
Qed.

(** The kernel sees an event exactly when one waits, and takes the oldest. *)
Lemma has_events e p q :
  events_ok e p q -> xhci_event_ring_has_unprocessed_events e = negb (length q =? 0)%nat.
Proof.
  intros [Hm Hl He Hp Hb Hq Hr]. unfold xhci_event_ring_has_unprocessed_events, next_event.
  rewrite Hb by lia. unfold is_bit in Hp.
  destruct (Nat.eqb_spec (length q) 0), (Z.ltb_spec (e_dequeue_ptr e) (hw_enq p));
    first [apply Z.eqb_eq | apply Z.eqb_neq]; lia.
Qed.

Lemma dequeue_trb_ok e p x q :
  events_ok e p (x :: q) ->
  exists e', _dequeue_trb e = (e', Some (e_dequeue_ptr e)) /\
    events_ok e' p q /\ payload (next_event e) = x /\
    e_trbs e' = e_trbs e /\ e_physical_base e' = e_physical_base e /\
    e_segment_trb_count e' = e_segment_trb_count e.
Proof.
  intros Hok. pose proof (has_events _ _ _ Hok) as Hh.
  unfold xhci_event_ring_has_unprocessed_events in Hh. cbn in Hh.
  destruct Hok as [Hm Hl He Hp Hb Hq Hr]. unfold _dequeue_trb. rewrite Hh. cbn [negb].
  assert (payload (next_event e) = x) as Hx.
  { rewrite <- (Hq 0%nat x eq_refl). unfold next_event, place.
    replace (e_dequeue_ptr e + Z.of_nat 0) with (e_dequeue_ptr e) by lia.
    destruct (Z.ltb_spec (e_dequeue_ptr e) (e_segment_trb_count e)); [done|lia]. }
  cbn [length] in Hr. apply queued_tail in Hq. unfold is_bit in Hp.
  destruct (Z.eqb_spec (e_dequeue_ptr e + 1) (e_segment_trb_count e)) as [Hw|Hw]; eexists.
  - split; [done|]. split_and!; try done.
    split; cbn [e_segment_trb_count e_trbs e_dequeue_ptr e_rcs_bit]; try done.
    + rewrite Hw in Hq. apply queued_wrap; [lia|done].
    + destruct (Z.eqb_spec (e_rcs_bit e) 0); lia.
  - split; [done|]. split_and!; try done.
    split; cbn [e_segment_trb_count e_trbs e_dequeue_ptr e_rcs_bit]; try done. lia.
Qed.

Lemma dequeue_loop_ok n : forall e p q, events_ok e p q ->
  exists e' ps, dequeue_loop n e = (e', ps) /\ read_events e ps = take n q /\
    events_ok e' p (drop n q) /\ e_trbs e' = e_trbs e /\
    e_physical_base e' = e_physical_base e /\ e_segment_trb_count e' = e_segment_trb_count e.
Proof.
  induction n as [|n IH]; intros e p q Hok; cbn [dequeue_loop].
  - exists e, []. split_and!; done.
  - rewrite (has_events _ _ _ Hok). destruct q as [|x q]; cbn [length Nat.eqb negb].
    + exists e, []. split_and!; done.
    + destruct (dequeue_trb_ok _ _ _ _ Hok) as (e1 & -> & Hok1 & Hx & Ht & Hb & Hc).
      destruct (IH _ _ _ Hok1) as (e2 & ps & -> & Hps & Hok2 & Ht2 & Hb2 & Hc2).
      exists e2, (e_dequeue_ptr e :: ps). split; [done|].
      split_and!; [|done|congruence|congruence|congruence].
      cbn [take]. rewrite <- Hx, <- Hps. unfold read_events. cbn [map]. by rewrite Ht.
Qed.

Lemma end_of_batch_ok e p q : events_ok e p q -> events_ok (end_of_batch e) p q.
Proof. intros [Hm Hl He Hp Hb Hq Hr]. by split. Qed.

(** The flush ends, within as many rounds as events wait. *)
Lemma flush_ends q : forall e p fuel, events_ok e p q -> (length q <= fuel)%nat ->
  exists e', xhci_event_ring_flush fuel e = Some e' /\ events_ok e' p [].
Proof.
  unfold xhci_event_ring_flush. induction q as [|x q IH]; intros e p fuel Hok Hf.
  - exists (end_of_batch e). split; [|by apply end_of_batch_ok].
    destruct fuel; cbn [flush_loop]; by rewrite (has_events _ _ _ Hok).
  - cbn [length] in Hf. destruct fuel as [|fuel]; [lia|]. cbn [flush_loop]. rewrite (has_events _ _ _ Hok).
    destruct (dequeue_trb_ok _ _ _ _ Hok) as (e1 & -> & Hok1 & _). cbn [length Nat.eqb negb]. apply (IH e1 p); [done|lia].
Qed.

Lemma events_reachable n phys s :
  2 <= n -> segment_ok phys n -> rtc events_step (events_start n phys) s ->
  exists q, ev_posted s = ev_handled s ++ q /\ events_ok (ev_ring s) (ev_hw s) q /\
    erdp_index (ev_ring s) = e_dequeue_ptr (ev_ring s) /\
    e_segment_trb_count (ev_ring s) = n /\ e_physical_base (ev_ring s) = phys.
Proof.
  intros Hn Hseg Hs.
  assert (exists q, ev_posted (events_start n phys) = ev_handled (events_start n phys) ++ q /\
    events_ok (ev_ring (events_start n phys)) (ev_hw (events_start n phys)) q /\
    erdp_index (ev_ring (events_start n phys)) = e_dequeue_ptr (ev_ring (events_start n phys)) /\
    e_segment_trb_count (ev_ring (events_start n phys)) = n /\ e_physical_base (ev_ring (events_start n phys)) = phys) as H0.
  { exists []. destruct (init_events_ok n phys Hn Hseg). by split_and!. }
  revert H0. induction Hs as [s|s1 s2 s3 H12 _ IH]; [done|]. intros (q & Hq & Hok & Hx & Hn' & Hp'). apply IH.
  destruct H12 as [e p posted handled t e' p' He | e p posted handled k e' ps He]; cbn in *.
  - destruct (hw_post_ok _ _ _ _ _ _ Hok Hx He) as (Hok' & Hd & Hr & Hb & Hc).
    exists (q ++ [payload t]). split_and!; [by rewrite Hq, app_assoc|done| |congruence|congruence].
    unfold erdp_index in *. congruence.
  - unfold xhci_event_ring_dequeue_events in He.
    destruct (dequeue_loop_ok k _ _ _ Hok) as (e1 & ps1 & E & Hps & Hok1 & Ht & Hb & Hc).
    rewrite E in He. injection He as <- <-. exists (drop k q).
    split_and!; [|by apply end_of_batch_ok| |cbn; congruence|cbn; congruence].
    + rewrite Hps, <- app_assoc, take_drop. done.
    + rewrite erdp_after_batch; [done|rewrite Hb, Hc, Hn', Hp'; done|].
      destruct Hok1. lia.
Qed.

(** C36: no event of the controller is lost.  In every order of events posted
    and batches handled, the events handled are the first ones posted, in order;
    a batch takes all that wait, up to its bound; the controller finds the ring
    full only when all but one of its blocks hold events that wait; and the
    flush of the ring ends within one round. *)
Theorem event_ring_is_queue n phys s :
  2 <= n -> segment_ok phys n -> rtc events_step (events_start n phys) s ->
  let waiting := (length (ev_posted s) - length (ev_handled s))%nat in
  ev_handled s `prefix_of` ev_posted s /\
  (forall k, length (xhci_event_ring_dequeue_events k (ev_ring s)).2 = Nat.min k waiting) /\
  (forall t, hw_post t (ev_ring s) (ev_hw s) = None -> Z.of_nat waiting = n - 1) /\
  is_Some (xhci_event_ring_flush (Z.to_nat n) (ev_ring s)).
Proof.
  intros Hn Hseg Hs. destruct (events_reachable _ _ _ Hn Hseg Hs) as (q & Hq & Hok & Hx & Hc & Hb).
  cbv zeta. rewrite Hq, length_app. replace (length (ev_handled s) + length q - length (ev_handled s))%nat with (length q) by lia.
  split_and!.
  - by exists q.
  - intros k. destruct (dequeue_loop_ok k _ _ _ Hok) as (e1 & ps & E & Hps & _).
    unfold xhci_event_ring_dequeue_events. rewrite E. cbn [snd].
    rewrite <- length_take, <- Hps. unfold read_events. by rewrite length_map.
  - intros t Hpost. destruct Hok as [Hm Hl He Hp Hbt Hqd Hr]. unfold hw_post in Hpost. rewrite Hx in Hpost.
    destruct (Z.eqb_spec (hw_enq (hw_next (ev_ring s) (ev_hw s))) (e_dequeue_ptr (ev_ring s))) as [Hfull|]; [|done].
    unfold hw_next in Hfull.
    destruct (Z.eqb_spec (hw_enq (ev_hw s) + 1) (e_segment_trb_count (ev_ring s))); cbn [hw_enq] in Hfull; lia.
  - destruct (flush_ends q _ _ (Z.to_nat n) Hok) as (e' & -> & _); [|eauto].
    destruct Hok. lia.
Qed.

(** ** A ring that is filled too far

    The kernel does not count: nothing in the code keeps it two blocks below
    the size of the ring.  One block more, while the controller stands in front
    of the link, and the link's cycle bit is rewritten under it: it never goes
    on, although all the blocks wait. *)
Definition send (t : xhci_trb_t) (s : rings) : rings :=
  match xhci_transfer_ring_enqueue (r_ring s) t with
  | Some r' => mkRings r' (r_hw s) (r_sent s ++ [payload t]) (r_done s)
  | None => s
  end.
Definition take (s : rings) : rings :=
  match hw_step (r_ring s) (r_hw s) with
  | Some (None, h') => mkRings (r_ring s) h' (r_sent s) (r_done s)
  | Some (Some t, h') => mkRings (r_ring s) h' (r_sent s) (r_done s ++ [payload t])
  | None => s
  end.
Definition normal (n : Z) : xhci_trb_t := mkTrb n 8 (Z.shiftl 1 XHCI_TRB_TYPE_SHIFT).
Definition small_ring : xhci_transfer_ring_t :=
  default (mkRing 0 0 [] 0 0) (xhci_transfer_ring_init 4 0x1000).

Lemma overfull_ring_sticks :
  let s := send (normal 6) (send (normal 5) (send (normal 4)
             (take (take (take (send (normal 3) (send (normal 2) (send (normal 1)
               (rings_start small_ring))))))))) in
  length (r_sent s) = 6%nat /\ length (r_done s) = 3%nat /\ hw_step (r_ring s) (r_hw s) = None.
Proof. vm_compute. done. Qed.

(** ** Concrete runs *)

Definition demo_rings : rings :=
  take (take (send (normal 3) (take (send (normal 2) (take (send (normal 1) (rings_start small_ring))))))).

Lemma demo_rings_run : rtc rings_step (rings_start small_ring) demo_rings.
Proof.
  do 3 (eapply rtc_l; [eapply (step_send _ _ _ _ (normal _)); [vm_compute; reflexivity|vm_compute; discriminate|reflexivity]|
                       eapply rtc_l; [eapply step_take; reflexivity|]]).
  apply rtc_once. eapply step_link. reflexivity.
Qed.


Definition demo_events : events :=
  let s0 := events_start 4 0x1000 in
  match hw_post (normal 7) (ev_ring s0) (ev_hw s0) with
  | Some (e, p) => mkEv e p [payload (normal 7)] []
  | None => s0
  end.

Lemma event_ring_is_queue_witness :
  segment_ok 0x1000 4 /\ rtc events_step (events_start 4 0x1000) demo_events /\
  let waiting := (length (ev_posted demo_events) - length (ev_handled demo_events))%nat in
  ev_handled demo_events `prefix_of` ev_posted demo_events /\
  (forall k, length (xhci_event_ring_dequeue_events k (ev_ring demo_events)).2 = Nat.min k waiting) /\
  (forall t, hw_post t (ev_ring demo_events) (ev_hw demo_events) = None -> Z.of_nat waiting = 4 - 1) /\
  is_Some (xhci_event_ring_flush (Z.to_nat 4) (ev_ring demo_events)).
Proof.
  assert (segment_ok 0x1000 4) as Hs by (vm_compute; repeat split; discriminate).
  assert (rtc events_step (events_start 4 0x1000) demo_events) as Hr
    by (apply rtc_once; exact (step_post (xhci_event_ring_init 4 0x1000) (mkProducer 0 1) [] [] (normal 7) _ _ eq_refl)).
  split; [exact Hs|]. split; [exact Hr|].
  apply (event_ring_is_queue 4 0x1000 demo_events); [lia|exact Hs|exact Hr].
Defined.
