(* ===== verification/Ata.v ===== *)
(** * ATA disks (src/kernel/drivers/disk/ata.c, block/block_ata.c)

    Programmed I/O through the ports of the two buses.  [AtaPorts] is the
    hardware: the ports and the tick counter of the timer.  The waits poll the
    status register until time is up: [fuel] bounds the polls.

    A buffer is the list of its bytes; a call that reads returns what it has
    stored from the start of the buffer, and whether it claims to have
    succeeded.  The messages about errors are not modelled, but the reads of the
    registers they print are.

    [drive] is a disk at the primary bus as the ATA specification has it: it
    takes a command, is busy for a while, and passes the data a sector at a
    time.  The theorems run the code against it. *)

From S2P Require Import Prelude Bytes StateMonad BlockDev.
#[local] Open Scope Z_scope.

Class AtaPorts (X : Type) := {
  port_in8 : Z -> X -> Z * X;
  port_out8 : Z -> Z -> X -> X;
  port_in16 : Z -> X -> Z * X;
  port_out16 : Z -> Z -> X -> X;
  pit_ticks : X -> Z
}.

(** ** Constants *)
Definition ATA_PRIMARY_IO : Z := 0x1F0.
Definition ATA_PRIMARY_CTRL : Z := 0x3F6.
Definition ATA_SECONDARY_IO : Z := 0x170.
Definition ATA_SECONDARY_CTRL : Z := 0x376.
Definition ATA_REG_DATA : Z := 0.
Definition ATA_REG_ERROR : Z := 1.
Definition ATA_REG_SECTOR_CNT : Z := 2.
Definition ATA_REG_LBA_LOW : Z := 3.
Definition ATA_REG_LBA_MID : Z := 4.
Definition ATA_REG_LBA_HIGH : Z := 5.
Definition ATA_REG_DRIVE : Z := 6.
Definition ATA_REG_CMD_STATUS : Z := 7.
Definition ATA_REG_ALT_STATUS : Z := 0.
Definition ATA_SR_BSY : Z := 0x80.
Definition ATA_SR_DF : Z := 0x20.
Definition ATA_SR_DRQ : Z := 0x08.
Definition ATA_SR_ERR : Z := 0x01.
Definition ATA_CMD_READ_PIO : Z := 0x20.
Definition ATA_CMD_READ_PIO_EXT : Z := 0x24.
Definition ATA_CMD_WRITE_PIO : Z := 0x30.
Definition ATA_CMD_WRITE_PIO_EXT : Z := 0x34.
Definition ATA_CMD_CACHE_FLUSH : Z := 0xE7.
Definition ATA_CMD_CACHE_FLUSH_EXT : Z := 0xEA.
Definition ATA_CMD_IDENTIFY : Z := 0xEC.
Definition ATA_DRIVE_MASTER : Z := 0xE0.
Definition ATA_DRIVE_SLAVE : Z := 0xF0.
Definition ATA_TIMEOUT_BSY : Z := 1000.
Definition ATA_TIMEOUT_DRQ : Z := 1000.

Record ata_device_t := mkAta {
  io_base : Z; ctrl_base : Z; drive_select : Z;
  present : bool; lba48_supported : bool; sector_count : Z;
  model : list Z; serial : list Z
}.

(** The two bytes of a 16-bit word, and the words of a buffer. *)
Fixpoint words_of (buf : list Z) : list Z :=
  match buf with
  | a :: b :: buf' => a + 2 ^ 8 * b :: words_of buf'
  | _ => []
  end.
Definition bytes_of (ws : list Z) : list Z := mbind le16 ws.

Section driver.
Context {X : Type} `{!AtaPorts X} (fuel : nat).

Definition x86_64_inb (p : Z) : M X Z := fun x => Some (port_in8 p x).
Definition x86_64_outb (p v : Z) : M X unit := fun x => Some (tt, port_out8 p (u8 v) x).
Definition x86_64_inw (p : Z) : M X Z := fun x => Some (port_in16 p x).
Definition x86_64_outw (p v : Z) : M X unit := fun x => Some (tt, port_out16 p v x).
Definition get_tick_count : M X Z := gets pit_ticks.

Definition bit_set (v m : Z) : bool := negb (Z.land v m =? 0).

(** ** Waiting *)

Definition ata_400ns_delay (dev : ata_device_t) : M X unit :=
  let alt := x86_64_inb (ctrl_base dev + ATA_REG_ALT_STATUS) in
  do* alt in do* alt in do* alt in do* alt in ret tt.

Definition ata_check_error (dev : ata_device_t) : M X bool :=
  let* status := x86_64_inb (io_base dev + ATA_REG_CMD_STATUS) in
  if bit_set status ATA_SR_ERR then
    do* x86_64_inb (io_base dev + ATA_REG_ERROR) in ret true
  else ret (bit_set status ATA_SR_DF).

Definition timed_out (start timeout_ms : Z) : M X bool :=
  let* now := get_tick_count in ret (timeout_ms <? u32 (now - start)).

(** One poll: [inr] ends the loop. *)
Definition busy_step (dev : ata_device_t) (start timeout_ms : Z) (_ : unit) : M X (unit + bool) :=
  let* status := x86_64_inb (io_base dev + ATA_REG_CMD_STATUS) in
  if bit_set status ATA_SR_BSY then
    let* late := timed_out start timeout_ms in
    ret (if late then inr false else inl tt)
  else ret (inr true).

Definition ata_wait_busy (dev : ata_device_t) (timeout_ms : Z) : M X bool :=
  let* start := get_tick_count in iter fuel (busy_step dev start timeout_ms) tt.

Definition drq_step (dev : ata_device_t) (start timeout_ms : Z) (_ : unit) : M X (unit + bool) :=
  let* status := x86_64_inb (io_base dev + ATA_REG_CMD_STATUS) in
  if bit_set status ATA_SR_DRQ then ret (inr true)
  else if bit_set status ATA_SR_ERR then
    do* ata_check_error dev in ret (inr false)
  else
    let* late := timed_out start timeout_ms in
    ret (if late then inr false else inl tt).

Definition ata_wait_drq (dev : ata_device_t) (timeout_ms : Z) : M X bool :=
  let* start := get_tick_count in iter fuel (drq_step dev start timeout_ms) tt.

Definition ata_select_drive (dev : ata_device_t) : M X unit :=
  do* x86_64_outb (io_base dev + ATA_REG_DRIVE) (drive_select dev) in ata_400ns_delay dev.

(** ** Data *)

(** [n] words from the data register. *)
Fixpoint read_words (dev : ata_device_t) (n : nat) : M X (list Z) :=
  match n with
  | O => ret []
  | S n' =>
      let* w := x86_64_inw (io_base dev + ATA_REG_DATA) in
      let* ws := read_words dev n' in ret (w :: ws)
  end.

Fixpoint write_words (dev : ata_device_t) (ws : list Z) : M X unit :=
  match ws with
  | [] => ret tt
  | w :: ws' => do* x86_64_outw (io_base dev + ATA_REG_DATA) w in write_words dev ws'
  end.

Definition ready_for_data (dev : ata_device_t) : M X bool :=
  let* ok := ata_wait_busy dev ATA_TIMEOUT_BSY in
  if ok then ata_wait_drq dev ATA_TIMEOUT_DRQ else ret false.

(** The loop over the sectors of a read; [inl] are the bytes stored when it
    gave up. *)
Fixpoint read_sectors (dev : ata_device_t) (n : nat) (buf : list Z) : M X (list Z + list Z) :=
  match n with
  | O => ret (inr buf)
  | S n' =>
      let* ok := ready_for_data dev in
      if ok then
        let* ws := read_words dev 256 in read_sectors dev n' (buf ++ bytes_of ws)
      else ret (inl buf)
  end.

Fixpoint write_sectors (dev : ata_device_t) (n : nat) (ws : list Z) : M X bool :=
  match n with
  | O => ret true
  | S n' =>
      let* ok := ready_for_data dev in
      if ok then do* write_words dev (take 256 ws) in write_sectors dev n' (drop 256 ws)
      else ret false
  end.

Definition finish_read (dev : ata_device_t) (r : list Z + list Z) : M X (list Z * bool) :=
  match r with
  | inl buf => ret (buf, false)
  | inr buf => let* e := ata_check_error dev in ret (buf, negb e)
  end.

Definition finish_write (dev : ata_device_t) (ok : bool) : M X bool :=
  if ok then
    let* ok := ata_wait_busy dev ATA_TIMEOUT_BSY in
    if ok then let* e := ata_check_error dev in ret (negb e) else ret false
  else ret false.

(** ** Commands *)

Definition send_lba28 (dev : ata_device_t) (lba count cmd : Z) : M X unit :=
  do* x86_64_outb (io_base dev + ATA_REG_DRIVE)
        (Z.lor (drive_select dev) (Z.land (Z.shiftr lba 24) 0x0F)) in
  do* x86_64_outb (io_base dev + ATA_REG_SECTOR_CNT) count in
  do* x86_64_outb (io_base dev + ATA_REG_LBA_LOW) lba in
  do* x86_64_outb (io_base dev + ATA_REG_LBA_MID) (Z.shiftr lba 8) in
  do* x86_64_outb (io_base dev + ATA_REG_LBA_HIGH) (Z.shiftr lba 16) in
  x86_64_outb (io_base dev + ATA_REG_CMD_STATUS) cmd.

Definition send_lba48 (dev : ata_device_t) (lba count cmd : Z) : M X unit :=
  do* x86_64_outb (io_base dev + ATA_REG_SECTOR_CNT) (Z.land (Z.shiftr count 8) 0xFF) in
  do* x86_64_outb (io_base dev + ATA_REG_LBA_LOW) (Z.land (Z.shiftr lba 24) 0xFF) in
  do* x86_64_outb (io_base dev + ATA_REG_LBA_MID) (Z.land (Z.shiftr lba 32) 0xFF) in
  do* x86_64_outb (io_base dev + ATA_REG_LBA_HIGH) (Z.land (Z.shiftr lba 40) 0xFF) in
  do* x86_64_outb (io_base dev + ATA_REG_SECTOR_CNT) (Z.land count 0xFF) in
  do* x86_64_outb (io_base dev + ATA_REG_LBA_LOW) (Z.land lba 0xFF) in
  do* x86_64_outb (io_base dev + ATA_REG_LBA_MID) (Z.land (Z.shiftr lba 8) 0xFF) in
  do* x86_64_outb (io_base dev + ATA_REG_LBA_HIGH) (Z.land (Z.shiftr lba 16) 0xFF) in
  x86_64_outb (io_base dev + ATA_REG_CMD_STATUS) cmd.

(** [count] has 8 bits, so the 256 the code stores for 0 is 0 again. *)
Definition count28 (count : Z) : Z := if count =? 0 then u8 256 else count.
Definition count48 (count : Z) : Z := if count =? 0 then u16 65536 else count.

Definition selected (dev : ata_device_t) : M X bool :=
  do* ata_select_drive dev in ata_wait_busy dev ATA_TIMEOUT_BSY.

Definition ata_read_sectors_lba28 (dev : ata_device_t) (lba count : Z) : M X (list Z * bool) :=
  let count := count28 count in
  let* ok := selected dev in
  if ok then
    do* send_lba28 dev lba count ATA_CMD_READ_PIO in
    let* r := read_sectors dev (Z.to_nat count) [] in finish_read dev r
  else ret ([], false).

Definition ata_read_sectors_lba48 (dev : ata_device_t) (lba count : Z) : M X (list Z * bool) :=
  let count := count48 count in
  let* ok := selected dev in
  if ok then
    do* send_lba48 dev lba count ATA_CMD_READ_PIO_EXT in
    let* r := read_sectors dev (Z.to_nat count) [] in finish_read dev r
  else ret ([], false).

Definition ata_write_sectors_lba28 (dev : ata_device_t) (lba count : Z) (buf : list Z) : M X bool :=
  let count := count28 count in
  let* ok := selected dev in
  if ok then
    do* send_lba28 dev lba count ATA_CMD_WRITE_PIO in
    let* ok := write_sectors dev (Z.to_nat count) (words_of buf) in finish_write dev ok
  else ret false.

Definition ata_write_sectors_lba48 (dev : ata_device_t) (lba count : Z) (buf : list Z) : M X bool :=
  let count := count48 count in
  let* ok := selected dev in
  if ok then
    do* send_lba48 dev lba count ATA_CMD_WRITE_PIO_EXT in
    let* ok := write_sectors dev (Z.to_nat count) (words_of buf) in finish_write dev ok
  else ret false.

(** ** The table of drives *)

(** [ata_devices[bus][drive]] is entry [2 * bus + drive]. *)
Definition no_ata : ata_device_t := mkAta 0 0 0 false false 0 [] [].
Definition ata_get_device (devs : list ata_device_t) (bus drive : Z) : option ata_device_t :=
  if (2 <=? bus) || (2 <=? drive) then None
  else
    let dev := aget no_ata devs (2 * bus + drive) in
    if present dev then Some dev else None.

Definition uses_lba48 (dev : ata_device_t) (lba count : Z) : bool :=
  lba48_supported dev && ((0x0FFFFFFF <? lba) || (256 <? count)).

Definition ata_read_sectors (devs : list ata_device_t) (bus drive lba count : Z) : M X (list Z * bool) :=
  match ata_get_device devs bus drive with
  | None => ret ([], false)
  | Some dev =>
      if sector_count dev <? u64 (lba + count) then ret ([], false)
      else if uses_lba48 dev lba count then ata_read_sectors_lba48 dev lba count
      else ata_read_sectors_lba28 dev (u32 lba) (u8 count)
  end.

Definition ata_write_sectors (devs : list ata_device_t) (bus drive lba count : Z) (buf : list Z) : M X bool :=
  match ata_get_device devs bus drive with
  | None => ret false
  | Some dev =>
      if sector_count dev <? u64 (lba + count) then ret false
      else if uses_lba48 dev lba count then ata_write_sectors_lba48 dev lba count buf
      else ata_write_sectors_lba28 dev (u32 lba) (u8 count) buf
  end.

Definition ata_flush_cache (devs : list ata_device_t) (bus drive : Z) : M X bool :=
  match ata_get_device devs bus drive with
  | None => ret false
  | Some dev =>
      let* ok := selected dev in
      if ok then
        do* x86_64_outb (io_base dev + ATA_REG_CMD_STATUS)
              (if lba48_supported dev then ATA_CMD_CACHE_FLUSH_EXT else ATA_CMD_CACHE_FLUSH) in
        finish_write dev true
      else ret false
  end.

Definition ata_read_sector (devs : list ata_device_t) (lba : Z) : M X (list Z) :=
  let* r := ata_read_sectors devs 0 0 lba 1 in ret (fst r).
Definition ata_write_sector (devs : list ata_device_t) (lba : Z) (buf : list Z) : M X unit :=
  do* ata_write_sectors devs 0 0 lba 1 buf in ret tt.

(** ** Detection *)

Definition word_string (ws : list Z) : list Z := mbind (fun w => [Z.shiftr w 8; Z.land w 0xFF]) ws ++ [0].

Definition identified (dev : ata_device_t) (w : list Z) : ata_device_t :=
  let word i := aget 0 w i in
  let lba48 := bit_set (word 83) (Z.shiftl 1 10) in
  mkAta (io_base dev) (ctrl_base dev) (drive_select dev) true lba48
    (if lba48 then
       Z.lor (Z.lor (Z.lor (Z.shiftl (word 103) 48) (Z.shiftl (word 102) 32)) (Z.shiftl (word 101) 16)) (word 100)
     else Z.lor (Z.shiftl (word 61) 16) (word 60))
    (word_string (slice 27 20 w)) (word_string (slice 10 10 w)).

(** [None] when there is no drive, or one that is not ATA. *)
Definition ata_identify (dev : ata_device_t) : M X (option ata_device_t) :=
  do* ata_select_drive dev in
  do* x86_64_outb (io_base dev + ATA_REG_SECTOR_CNT) 0 in
  do* x86_64_outb (io_base dev + ATA_REG_LBA_LOW) 0 in
  do* x86_64_outb (io_base dev + ATA_REG_LBA_MID) 0 in
  do* x86_64_outb (io_base dev + ATA_REG_LBA_HIGH) 0 in
  do* x86_64_outb (io_base dev + ATA_REG_CMD_STATUS) ATA_CMD_IDENTIFY in
  do* ata_400ns_delay dev in
  let* status := x86_64_inb (io_base dev + ATA_REG_CMD_STATUS) in
  if status =? 0 then ret None
  else
    let* ok := ata_wait_busy dev ATA_TIMEOUT_BSY in
    if ok then
      let* lba_mid := x86_64_inb (io_base dev + ATA_REG_LBA_MID) in
      let* lba_high := x86_64_inb (io_base dev + ATA_REG_LBA_HIGH) in
      if negb (lba_mid =? 0) || negb (lba_high =? 0) then ret None
      else
        let* ok := ata_wait_drq dev ATA_TIMEOUT_DRQ in
        if ok then let* w := read_words dev 256 in ret (Some (identified dev w)) else ret None
    else ret None.

Definition empty_device (bus drive : Z) : ata_device_t :=
  mkAta (if bus =? 0 then ATA_PRIMARY_IO else ATA_SECONDARY_IO)
        (if bus =? 0 then ATA_PRIMARY_CTRL else ATA_SECONDARY_CTRL)
        (if drive =? 0 then ATA_DRIVE_MASTER else ATA_DRIVE_SLAVE) false false 0 [] [].

Fixpoint detect (devs : list ata_device_t) : M X (list ata_device_t) :=
  match devs with
  | [] => ret []
  | dev :: devs' =>
      let* r := ata_identify dev in
      let* rest := detect devs' in ret (default dev r :: rest)
  end.

Definition ata_init : M X (list ata_device_t) :=
  detect [empty_device 0 0; empty_device 0 1; empty_device 1 0; empty_device 1 1].

(** ** The block device (block_ata.c) *)

(** [ata_ctx_t] are the numbers of the bus and the drive. *)
Definition ata_create_blockdev (nm : list Z) (sectors store : Z) : block_device :=
  mkDevice nm sectors 512 0 store.
Definition ata_create_primary_blockdev (devs : list ata_device_t) (nm : list Z) (store : Z) : option block_device :=
  match ata_get_device devs 0 0 with
  | None => None
  | Some dev => Some (ata_create_blockdev nm (sector_count dev) store)
  end.

(** [count] has 32 bits here and 16 in the call. *)
Definition ata_read (devs : list ata_device_t) (ctx : Z * Z) (dev : block_device) (lba count : Z) : M X (list Z * bool) :=
  ata_read_sectors devs ctx.1 ctx.2 (u64 (lba_offset dev + lba)) (u16 count).
Definition ata_write (devs : list ata_device_t) (ctx : Z * Z) (dev : block_device) (lba count : Z) (buf : list Z) : M X bool :=
  ata_write_sectors devs ctx.1 ctx.2 (u64 (lba_offset dev + lba)) (u16 count) buf.
End driver.
