(* ===== verification/AtaFacts.v ===== *)
(** * ATA disks: what the driver promises

    A disk as the ATA specification has it, and the proof that the driver reads
    and writes its sectors; and where it does not. *)

From S2P Require Import Prelude Bytes StateMonad BlockDev Ata.
#[local] Open Scope Z_scope.

(** ** A disk at the primary bus

    Each of the registers of an address is a queue of two bytes: the last one
    written and the one before it.  [latency] is the number of polls for which
    the disk shows BSY after a command and after each sector. *)
Inductive ata_phase :=
  | Idle
  | DataIn (now later : list Z)
  | DataOut (lba todo : Z) (got : list Z).

Record drive := mkDrive {
  media : list Z; identity : list Z; latency : nat;
  busy : nat; phase : ata_phase; failed : bool;
  reg_cnt : Z * Z; reg_low : Z * Z; reg_mid : Z * Z; reg_high : Z * Z; reg_drive : Z
}.

Definition put_byte (v : Z) (r : Z * Z) : Z * Z := (v, r.1).
Definition with_phase (ph : ata_phase) (b : nat) (bad : bool) (d : drive) : drive :=
  mkDrive (media d) (identity d) (latency d) b ph bad
    (reg_cnt d) (reg_low d) (reg_mid d) (reg_high d) (reg_drive d).
Definition with_media (m : list Z) (d : drive) : drive :=
  mkDrive m (identity d) (latency d) (busy d) (phase d) (failed d)
    (reg_cnt d) (reg_low d) (reg_mid d) (reg_high d) (reg_drive d).
Definition with_regs (c l m h : Z * Z) (dr : Z) (d : drive) : drive :=
  mkDrive (media d) (identity d) (latency d) (busy d) (phase d) (failed d) c l m h dr.

(** The data still to be read. *)
Definition feed (ws : list Z) (d : drive) : drive :=
  match ws with
  | [] => with_phase Idle 0 false d
  | _ => with_phase (DataIn (take 256 ws) (drop 256 ws)) (latency d) false d
  end.

Definition lba28_of (d : drive) : Z :=
  (reg_low d).1 + 2 ^ 8 * (reg_mid d).1 + 2 ^ 16 * (reg_high d).1 + 2 ^ 24 * Z.land (reg_drive d) 0x0F.
Definition lba48_of (d : drive) : Z :=
  (reg_low d).1 + 2 ^ 8 * (reg_mid d).1 + 2 ^ 16 * (reg_high d).1 +
  2 ^ 24 * (reg_low d).2 + 2 ^ 32 * (reg_mid d).2 + 2 ^ 40 * (reg_high d).2.
Definition count28_of (d : drive) : Z := if (reg_cnt d).1 =? 0 then 256 else (reg_cnt d).1.
Definition count48_of (d : drive) : Z :=
  let n := (reg_cnt d).1 + 2 ^ 8 * (reg_cnt d).2 in if n =? 0 then 65536 else n.

(** A command for sectors that are not there, or not in LBA mode, fails. *)
Definition on_disk (lba n : Z) (d : drive) : bool :=
  ((lba + n) * 512 <=? Z.of_nat (length (media d))) && Z.testbit (reg_drive d) 6.
Definition start_read (lba n : Z) (d : drive) : drive :=
  if on_disk lba n d then feed (words_of (slice (lba * 512) (n * 512) (media d))) d
  else with_phase Idle 0 true d.
Definition start_write (lba n : Z) (d : drive) : drive :=
  if on_disk lba n d then with_phase (DataOut lba n []) (latency d) false d
  else with_phase Idle 0 true d.

Definition exec (cmd : Z) (d : drive) : drive :=
  if cmd =? ATA_CMD_READ_PIO then start_read (lba28_of d) (count28_of d) d
  else if cmd =? ATA_CMD_READ_PIO_EXT then start_read (lba48_of d) (count48_of d) d
  else if cmd =? ATA_CMD_WRITE_PIO then start_write (lba28_of d) (count28_of d) d
  else if cmd =? ATA_CMD_WRITE_PIO_EXT then start_write (lba48_of d) (count48_of d) d
  else if cmd =? ATA_CMD_IDENTIFY then feed (identity d) d
  else with_phase Idle (latency d) false d.

Definition status_of (d : drive) : Z :=
  match phase d with
  | Idle => if failed d then 0x51 else 0x50
  | _ => 0x58
  end.
Definition slave (d : drive) : bool := Z.testbit (reg_drive d) 4.

#[export] Instance drive_ports : AtaPorts drive := {
  port_in8 p d :=
    if slave d then (0, d)
    else if p =? 0x1F7 then
      match busy d with
      | O => (status_of d, d)
      | S b => (0x80, with_phase (phase d) b (failed d) d)
      end
    else if p =? 0x3F6 then (match busy d with O => status_of d | S _ => 0x80 end, d)
    else if p =? 0x1F4 then ((reg_mid d).1, d)
    else if p =? 0x1F5 then ((reg_high d).1, d)
    else (0, d);
  port_out8 p v d :=
    if p =? 0x1F2 then with_regs (put_byte v (reg_cnt d)) (reg_low d) (reg_mid d) (reg_high d) (reg_drive d) d
    else if p =? 0x1F3 then with_regs (reg_cnt d) (put_byte v (reg_low d)) (reg_mid d) (reg_high d) (reg_drive d) d
    else if p =? 0x1F4 then with_regs (reg_cnt d) (reg_low d) (put_byte v (reg_mid d)) (reg_high d) (reg_drive d) d
    else if p =? 0x1F5 then with_regs (reg_cnt d) (reg_low d) (reg_mid d) (put_byte v (reg_high d)) (reg_drive d) d
    else if p =? 0x1F6 then with_regs (reg_cnt d) (reg_low d) (reg_mid d) (reg_high d) v d
    else if (p =? 0x1F7) && negb (slave d) then exec v d
    else d;
  port_in16 p d :=
    match phase d with
    | DataIn (w :: now) later =>
        (w, match now with
            | [] => feed later d
            | _ => with_phase (DataIn now later) (busy d) (failed d) d
            end)
    | _ => (0, d)
    end;
  port_out16 p v d :=
    match phase d with
    | DataOut lba todo got =>
        if (length got =? 255)%nat then
          with_media (write_at (media d) (lba * 512) (bytes_of (got ++ [v])))
            (with_phase (if todo =? 1 then Idle else DataOut (lba + 1) (todo - 1) []) (latency d) false d)
        else with_phase (DataOut lba todo (got ++ [v])) (busy d) (failed d) d
    | _ => d
    end;
  pit_ticks d := 0
}.

(** The descriptor the driver keeps for this disk. *)
Record describes (dev : ata_device_t) (d : drive) : Prop := {
  ds_io : io_base dev = ATA_PRIMARY_IO;
  ds_ctrl : ctrl_base dev = ATA_PRIMARY_CTRL;
  ds_select : drive_select dev = ATA_DRIVE_MASTER;
  ds_present : present dev = true;
  ds_size : sector_count dev * 512 = Z.of_nat (length (media d));
  ds_small : sector_count dev < 2 ^ 48;
  ds_bytes : bytes_ok (media d)
}.

(** The disk waits for a command, and the driver polls often enough. *)
Record waiting (fuel : nat) (d : drive) : Prop := {
  wt_idle : phase d = Idle;
  wt_ok : failed d = false;
  wt_busy : (busy d <= latency d)%nat;
  wt_fuel : (latency d < fuel)%nat
}.

(** ** Words and bytes *)

Lemma bytes_of_words buf n : length buf = (2 * n)%nat -> bytes_ok buf -> bytes_of (words_of buf) = buf.
Proof.
  revert buf. induction n as [|n IH]; intros buf Hl Hb; [by destruct buf|].
  destruct buf as [|a [|b buf]]; [simpl in Hl; lia|simpl in Hl; lia|].
  inversion Hb as [|? ? Ha Hb']; subst. inversion Hb' as [|? ? Hc Hb'']; subst.
  cbn [words_of]. unfold bytes_of. rewrite bind_cons. fold (bytes_of (words_of buf)).
  rewrite IH by (simpl in *; lia || done). unfold le16. cbn [app].
  f_equal; [|f_equal]; cbv beta in *; zdiv_lia.
Qed.

Lemma length_words_of buf n : length buf = (2 * n)%nat -> length (words_of buf) = n.
Proof.
  revert buf. induction n as [|n IH]; intros buf Hl; [by destruct buf|].
  destruct buf as [|a [|b buf]]; [simpl in Hl; lia|simpl in Hl; lia|]. simpl. f_equal. apply IH. simpl in Hl. lia.
Qed.

Lemma length_bytes_of ws : length (bytes_of ws) = (2 * length ws)%nat.
Proof. induction ws as [|w ws IH]; [done|]. unfold bytes_of in *. rewrite bind_cons, length_app, IH. simpl. lia. Qed.

Lemma bytes_of_app a b : bytes_of (a ++ b) = bytes_of a ++ bytes_of b.
Proof. apply bind_app. Qed.

(** ** The waits *)

Lemma bind_runs {S A B} (m : M S A) (k : A -> M S B) s a s' :
  m s = Some (a, s') -> bind m k s = k a s'.
Proof. unfold bind. by intros ->. Qed.

Section waits.
Context (fuel : nat) (dev : ata_device_t).
Context (Hio : io_base dev = ATA_PRIMARY_IO) (Hctrl : ctrl_base dev = ATA_PRIMARY_CTRL).

Lemma inb_status d : slave d = false ->
  x86_64_inb (io_base dev + ATA_REG_CMD_STATUS) d =
    Some (match busy d with O => (status_of d, d) | S b => (0x80, with_phase (phase d) b (failed d) d) end).
Proof using Hio.
  intros Hs. unfold x86_64_inb. rewrite Hio. cbn -[status_of slave Z.eqb Z.add]. rewrite Hs.
  by change (ATA_PRIMARY_IO + ATA_REG_CMD_STATUS =? 503) with true.
Qed.

Lemma status_bits d :
  bit_set (status_of d) ATA_SR_BSY = false /\
  bit_set (status_of d) ATA_SR_DRQ = match phase d with Idle => false | _ => true end /\
  bit_set (status_of d) ATA_SR_ERR = match phase d with Idle => failed d | _ => false end /\
  bit_set (status_of d) ATA_SR_DF = false.
Proof. unfold status_of. destruct (phase d); [destruct (failed d)|..]; done. Qed.

(** BSY goes away after as many polls as the disk is busy, before the time is
    up. *)
Lemma wait_busy_ok n d : 0 <= n -> slave d = false -> (busy d < fuel)%nat ->
  ata_wait_busy fuel dev n d = Some (true, with_phase (phase d) 0 (failed d) d).
Proof using Hio.
  intros Hn Hs Hf. unfold ata_wait_busy. rewrite (bind_runs _ _ _ 0 d) by done.
  revert d Hs Hf. induction fuel as [|f IH]; intros d Hs Hf; [lia|]. cbn [iter].
  destruct (busy d) as [|b] eqn:E.
  - rewrite (bind_runs _ _ _ (inr true) d); [destruct d; cbn in E; by subst|].
    unfold busy_step, bind. rewrite inb_status, E by done. by destruct (status_bits d) as [-> _].
  - rewrite (bind_runs _ _ _ (inl tt) (with_phase (phase d) b (failed d) d)).
    + rewrite IH by (done || (cbn; lia)). done.
    + unfold busy_step, bind. rewrite inb_status, E by done.
      change (bit_set 0x80 ATA_SR_BSY) with true. unfold timed_out, bind, get_tick_count, gets. cbn -[Z.ltb].
      destruct (Z.ltb_spec n (u32 (0 - 0))) as [H|H]; [change (u32 (0 - 0)) with 0 in H; lia|done].
Qed.

Lemma wait_drq_ok n d : slave d = false -> busy d = 0%nat -> phase d <> Idle -> (0 < fuel)%nat ->
  ata_wait_drq fuel dev n d = Some (true, d).
Proof using Hio.
  intros Hs Hb Hp Hf. unfold ata_wait_drq. rewrite (bind_runs _ _ _ 0 d) by done.
  destruct fuel as [|f]; [lia|]. cbn [iter]. rewrite (bind_runs _ _ _ (inr true) d); [done|].
  unfold drq_step, bind. rewrite inb_status, Hb by done. destruct (status_bits d) as (_ & -> & _). by destruct (phase d).
Qed.

Lemma check_error_ok d : slave d = false -> busy d = 0%nat -> phase d = Idle -> failed d = false ->
  ata_check_error dev d = Some (false, d).
Proof using Hio.
  intros Hs Hb Hp Hg. unfold ata_check_error. unfold bind at 1. rewrite inb_status, Hb by done.
  destruct (status_bits d) as (_ & _ & E & F). rewrite E, Hp, Hg. unfold ret. by rewrite F.
Qed.

Lemma ready_for_data_ok d : slave d = false -> (busy d < fuel)%nat -> phase d <> Idle ->
  ready_for_data fuel dev d = Some (true, with_phase (phase d) 0 (failed d) d).
Proof using Hio.
  intros Hs Hf Hp. unfold ready_for_data.
  rewrite (bind_runs _ _ _ _ _ (wait_busy_ok ATA_TIMEOUT_BSY d ltac:(done) Hs Hf)).
  apply wait_drq_ok; [done|done|done|lia].
Qed.

Lemma delay_ok d : ata_400ns_delay dev d = Some (tt, d).
Proof using Hctrl.
  assert (exists v, x86_64_inb (ctrl_base dev + ATA_REG_ALT_STATUS) d = Some (v, d)) as [v E].
  { unfold x86_64_inb. rewrite Hctrl. cbn [port_in8 drive_ports].
    change (ATA_PRIMARY_CTRL + ATA_REG_ALT_STATUS =? 0x1F7) with false.
    change (ATA_PRIMARY_CTRL + ATA_REG_ALT_STATUS =? 0x3F6) with true. destruct (slave d); eauto. }
  unfold ata_400ns_delay. by do 4 (rewrite (bind_runs _ _ _ _ _ E)).
Qed.

Lemma selected_ok d : drive_select dev = ATA_DRIVE_MASTER -> (busy d < fuel)%nat ->
  selected fuel dev d =
    Some (true, with_regs (reg_cnt d) (reg_low d) (reg_mid d) (reg_high d) 0xE0 (with_phase (phase d) 0 (failed d) d)).
Proof using Hio Hctrl.
  intros Hsel Hf. unfold selected, ata_select_drive.
  set (d1 := with_regs (reg_cnt d) (reg_low d) (reg_mid d) (reg_high d) 0xE0 d).
  assert (x86_64_outb (io_base dev + ATA_REG_DRIVE) (drive_select dev) d = Some (tt, d1)) as E
    by (unfold x86_64_outb; rewrite Hio, Hsel; done).
  assert (bind (x86_64_outb (io_base dev + ATA_REG_DRIVE) (drive_select dev)) (fun _ => ata_400ns_delay dev) d = Some (tt, d1)) as E2.
  { rewrite (bind_runs _ _ _ _ _ E). apply delay_ok. }
  rewrite (bind_runs _ _ _ _ _ E2). rewrite wait_busy_ok by done. done.
Qed.

(** ** Reading the data *)

(** A disk that has words to give gives them in order. *)
Lemma read_words_ok ws : forall d later, phase d = DataIn ws later -> failed d = false -> ws <> [] ->
  read_words dev (length ws) d = Some (ws, feed later d).
Proof using Hio.
  induction ws as [|w ws IH]; intros d later Hp Hg Hne; [done|].
  cbn [length read_words]. destruct ws as [|w2 ws].
  - rewrite (bind_runs _ _ _ w (feed later d)); [done|].
    unfold x86_64_inw. cbn [port_in16 drive_ports]. by rewrite Hp.
  - rewrite (bind_runs _ _ _ w (with_phase (DataIn (w2 :: ws) later) (busy d) (failed d) d));
      [|unfold x86_64_inw; cbn [port_in16 drive_ports]; by rewrite Hp].
    assert (w2 :: ws <> []) as Hne2 by done.
    rewrite (bind_runs _ _ _ (w2 :: ws) (feed later (with_phase (DataIn (w2 :: ws) later) (busy d) (failed d) d)));
      [|by apply IH].
    unfold ret. destruct later; done.
Qed.

Lemma feed_phase ws d ph b g : feed ws (with_phase ph b g d) = feed ws d.
Proof. by destruct ws. Qed.
Lemma feed_feed ws vs d : feed ws (feed vs d) = feed ws d.
Proof. destruct vs; apply feed_phase. Qed.
Lemma slave_feed ws d : slave (feed ws d) = slave d.
Proof. by destruct ws. Qed.

Lemma read_sectors_ok n : forall ws buf d,
  length ws = (256 * n)%nat -> slave d = false -> (latency d < fuel)%nat ->
  read_sectors fuel dev n buf (feed ws d) = Some (inr (buf ++ bytes_of ws), feed [] d).
Proof using Hio.
  induction n as [|n IH]; intros ws buf d Hl Hs Hf.
  - destruct ws; [|simpl in Hl; lia]. cbn [read_sectors]. unfold ret. by rewrite app_nil_r.
  - assert (feed ws d = with_phase (DataIn (take 256 ws) (drop 256 ws)) (latency d) false d) as ->
      by (destruct ws; [simpl in Hl; lia|done]).
    cbn [read_sectors].
    assert (ready_for_data fuel dev (with_phase (DataIn (take 256 ws) (drop 256 ws)) (latency d) false d) =
      Some (true, with_phase (DataIn (take 256 ws) (drop 256 ws)) 0 false d)) as E
      by exact (ready_for_data_ok (with_phase (DataIn (take 256 ws) (drop 256 ws)) (latency d) false d) Hs Hf ltac:(done)).
    rewrite (bind_runs _ _ _ _ _ E).
    rewrite (bind_runs _ _ _ (take 256 ws) (feed (drop 256 ws) d)).
    + rewrite IH; [|rewrite length_drop; lia|done|done].
      rewrite <- app_assoc, <- bytes_of_app, take_drop. done.
    + assert (length (take 256 ws) = 256%nat) as H256 by (rewrite length_take; lia).
      rewrite <- H256 at 1. rewrite <- (feed_phase _ _ (DataIn (take 256 ws) (drop 256 ws)) 0 false).
      apply read_words_ok; [done|done|]. intros E0. rewrite E0 in H256. done.
Qed.

(** ** Writing the data *)

Lemma write_words_ok ws : forall d lba todo got,
  phase d = DataOut lba todo got -> failed d = false -> (length got + length ws = 256)%nat -> ws <> [] ->
  write_words dev ws d =
    Some (tt, with_media (write_at (media d) (lba * 512) (bytes_of (got ++ ws)))
                (with_phase (if todo =? 1 then Idle else DataOut (lba + 1) (todo - 1) []) (latency d) false d)).
Proof using Hio.
  induction ws as [|w ws IH]; intros d lba todo got Hp Hg Hl Hne; [done|]. cbn [write_words]. cbn [length] in Hl.
  destruct ws as [|w2 ws].
  - erewrite bind_runs; [|unfold x86_64_outw; cbn [port_out16 drive_ports]; rewrite Hp; reflexivity].
    cbn [length] in Hl. replace (length got) with 255%nat by lia. done.
  - cbn [length] in Hl.
    rewrite (bind_runs _ _ _ tt (with_phase (DataOut lba todo (got ++ [w])) (busy d) (failed d) d)).
    + rewrite (IH _ lba todo (got ++ [w])); [|done|done|rewrite length_app; simpl; lia|done].
      by rewrite <- app_assoc.
    + unfold x86_64_outw. cbn [port_out16 drive_ports]. rewrite Hp.
      destruct (Nat.eqb_spec (length got) 255); [lia|done].
Qed.

Lemma write_sectors_ok n : forall ws d lba,
  length ws = (256 * n)%nat -> (0 < n)%nat -> slave d = false -> (latency d < fuel)%nat -> failed d = false ->
  0 <= lba -> phase d = DataOut lba (Z.of_nat n) [] -> (busy d <= latency d)%nat ->
  write_sectors fuel dev n ws d =
    Some (true, with_media (write_at (media d) (lba * 512) (bytes_of ws)) (with_phase Idle (latency d) false d)).
Proof using Hio.
  induction n as [|n IH]; intros ws d lba Hl Hn Hs Hf Hg Hlba Hp Hb; [lia|].
  cbn [write_sectors].
  rewrite (bind_runs _ _ _ true (with_phase (phase d) 0 (failed d) d));
    [|apply ready_for_data_ok; [done|lia|by rewrite Hp]].
  assert (length (take 256 ws) = 256%nat) as H256 by (rewrite length_take; lia).
  erewrite bind_runs; [|eapply (write_words_ok _ _ lba (Z.of_nat (S n)) []); [done|done|simpl; lia|]; intros E; by rewrite E in H256].
  cbn [app media with_phase].
  destruct n as [|n].
  - cbn [write_sectors]. unfold ret. do 3 f_equal.
    rewrite take_ge by lia. done.
  - destruct (Z.eqb_spec (Z.of_nat (S (S n))) 1); [lia|].
    rewrite (IH _ _ (lba + 1)); [|rewrite length_drop; lia|lia|done|done|done|lia|cbn; f_equal; lia|cbn; lia].
    f_equal. f_equal. cbn [media with_media with_phase]. unfold with_media, with_phase; cbn. f_equal.
    rewrite <- (take_drop 256 ws) at 3. rewrite bytes_of_app, <- write_at_app by lia.
    f_equal. rewrite length_bytes_of, H256. lia.
Qed.
End waits.

(** ** Commands *)

(** What the register queues hold after the writes of [send_lba28] and
    [send_lba48]. *)
Definition addressed28 (lba count : Z) (d : drive) : drive :=
  with_regs (put_byte (u8 count) (reg_cnt d)) (put_byte (u8 lba) (reg_low d))
    (put_byte (u8 (Z.shiftr lba 8)) (reg_mid d)) (put_byte (u8 (Z.shiftr lba 16)) (reg_high d))
    (u8 (Z.lor 0xE0 (Z.land (Z.shiftr lba 24) 0x0F))) d.
Definition addressed48 (lba count : Z) (d : drive) : drive :=
  with_regs (u8 (Z.land count 0xFF), u8 (Z.land (Z.shiftr count 8) 0xFF))
    (u8 (Z.land lba 0xFF), u8 (Z.land (Z.shiftr lba 24) 0xFF))
    (u8 (Z.land (Z.shiftr lba 8) 0xFF), u8 (Z.land (Z.shiftr lba 32) 0xFF))
    (u8 (Z.land (Z.shiftr lba 16) 0xFF), u8 (Z.land (Z.shiftr lba 40) 0xFF)) (reg_drive d) d.

Lemma land_ff x : Z.land x 0xFF = x mod 256.
Proof. change 0xFF with (Z.ones 8). by rewrite Z.land_ones. Qed.
Lemma land_0f x : Z.land x 0x0F = x mod 16.
Proof. change 0x0F with (Z.ones 4). by rewrite Z.land_ones. Qed.
Lemma shiftr_256 x k : 0 <= k -> Z.shiftr x k = x / 2 ^ k.
Proof. intros. by rewrite Z.shiftr_div_pow2. Qed.

(** The register of the drive: the four bits of the address under LBA mode. *)
Lemma drive_register x : 0 <= x < 16 ->
  let r := u8 (Z.lor 0xE0 x) in r = 0xE0 + x /\ Z.land r 0x0F = x /\ Z.testbit r 4 = false /\ Z.testbit r 6 = true.
Proof.
  intros Hx. assert (x = 0 \/ x = 1 \/ x = 2 \/ x = 3 \/ x = 4 \/ x = 5 \/ x = 6 \/ x = 7 \/ x = 8 \/ x = 9 \/
    x = 10 \/ x = 11 \/ x = 12 \/ x = 13 \/ x = 14 \/ x = 15) as H by lia.
  repeat destruct H as [->|H]; try done. by subst.
Qed.

Lemma addressed28_ok lba count d : 0 <= lba < 2 ^ 28 -> 0 <= count < 256 ->
  let d' := addressed28 lba count d in
  lba28_of d' = lba /\ count28_of d' = (if count =? 0 then 256 else count) /\
  slave d' = false /\ Z.testbit (reg_drive d') 6 = true.
Proof.
  intros Hl Hc. cbv zeta. unfold lba28_of, count28_of, slave. cbn [addressed28 with_regs reg_low reg_mid reg_high reg_cnt reg_drive put_byte fst snd].
  rewrite (land_0f (Z.shiftr lba 24)), !shiftr_256 by lia.
  destruct (drive_register ((lba / 2 ^ 24) mod 16)) as (_ & E & -> & ->); [apply Z.mod_pos_bound; lia|].
  rewrite E. split_and!; [|by rewrite (u8_small count) by lia|done|done].
  unfold u8. zdiv_lia.
Qed.

Lemma addressed48_ok lba count d : 0 <= lba < 2 ^ 48 -> 0 <= count < 65536 ->
  let d' := addressed48 lba count d in
  lba48_of d' = lba /\ count48_of d' = (if count =? 0 then 65536 else count).
Proof.
  intros Hl Hc. cbv zeta. unfold lba48_of, count48_of. cbn [addressed48 with_regs reg_low reg_mid reg_high reg_cnt fst snd].
  rewrite !land_ff, !shiftr_256 by lia. unfold u8. split; [zdiv_lia|].
  assert (count mod 256 mod 2 ^ 8 + 2 ^ 8 * ((count / 2 ^ 8) mod 256 mod 2 ^ 8) = count) as -> by zdiv_lia. done.
Qed.

Lemma outb_command dev cmd d : io_base dev = ATA_PRIMARY_IO -> slave d = false -> 0 <= cmd < 256 ->
  x86_64_outb (io_base dev + ATA_REG_CMD_STATUS) cmd d = Some (tt, exec cmd d).
Proof.
  intros Hio Hs Hc. unfold x86_64_outb. rewrite Hio, u8_small by lia. cbn [port_out8 drive_ports].
  change (ATA_PRIMARY_IO + ATA_REG_CMD_STATUS) with 0x1F7.
  change (0x1F7 =? 0x1F2) with false. change (0x1F7 =? 0x1F3) with false. change (0x1F7 =? 0x1F4) with false.
  change (0x1F7 =? 0x1F5) with false. change (0x1F7 =? 0x1F6) with false. change (0x1F7 =? 0x1F7) with true.
  by rewrite Hs.
Qed.

Lemma send_lba28_ok dev lba count cmd d :
  io_base dev = ATA_PRIMARY_IO -> drive_select dev = ATA_DRIVE_MASTER ->
  0 <= lba < 2 ^ 28 -> 0 <= count < 256 -> 0 <= cmd < 256 ->
  send_lba28 dev lba count cmd d = Some (tt, exec cmd (addressed28 lba count d)).
Proof.
  intros Hio Hsel Hl Hc Hcmd. unfold send_lba28. rewrite Hio, Hsel.
  do 5 (erewrite bind_runs; [|reflexivity]).
  pose proof (outb_command dev cmd (addressed28 lba count d) Hio) as E. rewrite Hio in E.
  apply E; [|done]. apply (addressed28_ok lba count d Hl Hc).
Qed.

Lemma send_lba48_ok dev lba count cmd d :
  io_base dev = ATA_PRIMARY_IO -> slave d = false -> 0 <= cmd < 256 ->
  send_lba48 dev lba count cmd d = Some (tt, exec cmd (addressed48 lba count d)).
Proof.
  intros Hio Hs Hcmd. unfold send_lba48. rewrite Hio.
  do 8 (erewrite bind_runs; [|reflexivity]).
  pose proof (outb_command dev cmd (addressed48 lba count d) Hio Hs Hcmd) as E. by rewrite Hio in E.
Qed.

(** ** Reading and writing *)

(** The requests the driver carries out: from one sector up, inside the disk;
    up to 255 sectors at once with a 28-bit address, or with a 48-bit one where
    the driver chooses it. *)
Record request (dev : ata_device_t) (lba count : Z) : Prop := {
  rq_count : 0 < count < 65536;
  rq_lba : 0 <= lba;
  rq_inside : lba + count <= sector_count dev;
  rq_short : uses_lba48 dev lba count = false -> lba < 2 ^ 28 /\ count < 256
}.

(** The disk after a command: registers aside, its media are [m]. *)
Record now_holds (d' d : drive) (m : list Z) : Prop := {
  nh_media : media d' = m;
  nh_latency : latency d' = latency d;
  nh_identity : identity d' = identity d;
  nh_phase : phase d' = Idle;
  nh_ok : failed d' = false;
  nh_busy : (busy d' <= latency d')%nat
}.

Section requests.
Context (fuel : nat) (dev : ata_device_t) (d : drive) (Hd : describes dev d) (Hw : waiting fuel d).

Definition chosen : drive := with_regs (reg_cnt d) (reg_low d) (reg_mid d) (reg_high d) 0xE0 (with_phase Idle 0 false d).

Lemma chosen_ok : selected fuel dev d = Some (true, chosen).
Proof using Hd Hw.
  destruct Hd, Hw. rewrite (selected_ok fuel dev) by (done || lia). unfold chosen. congruence.
Qed.

Lemma request_u64 lba count : request dev lba count -> (sector_count dev <? u64 (lba + count)) = false.
Proof using Hd.
  intros [Hc Hl Hi _]. destruct Hd. apply Z.ltb_ge. rewrite u64_small by lia. done.
Qed.

(** Where a command finds its sectors. *)
Lemma on_disk_ok lba count d' : request dev lba count -> media d' = media d -> Z.testbit (reg_drive d') 6 = true ->
  on_disk lba count d' = true.
Proof using Hd.
  intros [Hc Hl Hi _] Hm Hr. unfold on_disk. rewrite Hm, Hr, andb_true_r. apply Z.leb_le.
  pose proof (ds_size _ _ Hd). lia.
Qed.

(** What the disk gives, is what the driver stores. *)
Lemma read_command lba count d' :
  request dev lba count -> media d' = media d -> latency d' = latency d -> identity d' = identity d ->
  slave d' = false -> Z.testbit (reg_drive d') 6 = true ->
  exists d2,
    bind (read_sectors fuel dev (Z.to_nat count) []) (finish_read dev) (start_read lba count d') =
      Some ((slice (lba * 512) (count * 512) (media d), true), d2) /\ now_holds d2 d (media d).
Proof using Hd Hw.
  intros Hr Hm Hlat Hid Hs Hb. unfold start_read. rewrite (on_disk_ok lba count d' Hr Hm Hb), Hm.
  destruct Hr as [Hc Hl Hi _]. pose proof (ds_size _ _ Hd) as Hsz. pose proof (ds_io _ _ Hd) as Hio.
  assert (Z.to_nat (count * 512) = (2 * (256 * Z.to_nat count))%nat) as Hn by lia.
  assert (length (slice (lba * 512) (count * 512) (media d)) = (2 * (256 * Z.to_nat count))%nat) as Hlen
    by (rewrite length_slice by lia; lia).
  erewrite bind_runs; [|eapply (read_sectors_ok fuel dev Hio); [by apply length_words_of|done|destruct Hw; lia]].
  cbn [app finish_read].
  erewrite bind_runs; [|apply (check_error_ok dev Hio); done].
  eexists. split.
  - unfold ret. rewrite (bytes_of_words _ _ Hlen); [done|]. apply bytes_slice, (ds_bytes _ _ Hd).
  - split; cbn; first [done | lia].
Qed.

Lemma write_command lba count buf d' :
  request dev lba count -> Z.of_nat (length buf) = count * 512 -> bytes_ok buf ->
  media d' = media d -> latency d' = latency d -> identity d' = identity d ->
  slave d' = false -> Z.testbit (reg_drive d') 6 = true ->
  exists d2,
    bind (write_sectors fuel dev (Z.to_nat count) (words_of buf)) (finish_write fuel dev) (start_write lba count d') =
      Some (true, d2) /\ now_holds d2 d (write_at (media d) (lba * 512) buf).
Proof using Hd Hw.
  intros Hr Hlen Hby Hm Hlat Hid Hs Hb. unfold start_write. rewrite (on_disk_ok lba count d' Hr Hm Hb).
  destruct Hr as [Hc Hl Hi _]. pose proof (ds_io _ _ Hd) as Hio.
  assert (length buf = (2 * (256 * Z.to_nat count))%nat) as Hn by lia.
  assert (phase (with_phase (DataOut lba count []) (latency d') false d') = DataOut lba (Z.of_nat (Z.to_nat count)) []) as Hp
    by (cbn; f_equal; lia).
  erewrite bind_runs; [|eapply (write_sectors_ok fuel dev Hio _ _ _ lba); [by apply length_words_of|lia|done|destruct Hw; cbn; lia|done|lia|exact Hp|cbn; lia]].
  cbn [finish_write].
  erewrite bind_runs; [|apply (wait_busy_ok fuel dev Hio); [done|done|destruct Hw; cbn; lia]].
  cbv iota. erewrite bind_runs; [|apply (check_error_ok dev Hio); done].
  eexists. split; [done|]. rewrite (bytes_of_words _ _ Hn Hby).
  split; cbn; first [by rewrite Hm | done | lia].
Qed.
End requests.

(** The descriptor and the readiness of the disk survive a command. *)
Lemma still_describes dev d d' m :
  describes dev d -> now_holds d' d m -> length m = length (media d) -> bytes_ok m -> describes dev d'.
Proof.
  intros [? ? ? ? Hs ? ?] [Hm ? ? ? ? ?] Hl Hb. split; try done; rewrite Hm; [|done]. by rewrite Hl.
Qed.
Lemma still_waiting fuel d d' m : waiting fuel d -> now_holds d' d m -> waiting fuel d'.
Proof. intros [? ? ? ?] [? Hlat ? ? ? ?]. split; [done|done|done|by rewrite Hlat]. Qed.

Lemma request_count28 dev lba count : request dev lba count -> uses_lba48 dev lba count = false ->
  u32 lba = lba /\ u8 count = count /\ count28 count = count /\ 0 <= lba < 2 ^ 28 /\ 0 < count < 256.
Proof.
  intros [Hc Hl Hi Hs] Hu. destruct (Hs Hu). rewrite u32_small, u8_small by lia.
  unfold count28. destruct (Z.eqb_spec count 0); lia.
Qed.
Lemma request_count48 dev lba count : request dev lba count -> count48 count = count.
Proof. intros [Hc _ _ _]. unfold count48. destruct (Z.eqb_spec count 0); [lia|done]. Qed.

Lemma ata_read_ok fuel devs bus drv dev d lba count :
  ata_get_device devs bus drv = Some dev -> describes dev d -> waiting fuel d -> request dev lba count ->
  exists d', ata_read_sectors fuel devs bus drv lba count d =
      Some ((slice (lba * 512) (count * 512) (media d), true), d') /\ now_holds d' d (media d).
Proof.
  intros Hg Hd Hw Hr. unfold ata_read_sectors. rewrite Hg, (request_u64 dev d Hd lba count Hr).
  pose proof (ds_io _ _ Hd) as Hio.
  destruct (uses_lba48 dev lba count) eqn:Hu.
  - unfold ata_read_sectors_lba48. cbv zeta. rewrite (request_count48 dev lba count Hr).
    rewrite (bind_runs _ _ _ _ _ (chosen_ok fuel dev d Hd Hw)).
    rewrite (bind_runs _ _ _ _ _ (send_lba48_ok dev lba count ATA_CMD_READ_PIO_EXT (chosen d) Hio eq_refl ltac:(done))).
    assert (0 <= lba < 2 ^ 48) as Hl by (destruct Hr, Hd; lia).
    destruct (addressed48_ok lba count (chosen d)) as [E1 E2]; [done|destruct Hr; lia|].
    unfold exec. cbn -[start_read lba48_of count48_of addressed48 read_sectors slice]. rewrite E1, E2.
    rewrite (proj2 (Z.eqb_neq count 0)) by (destruct Hr; lia).
    apply (read_command fuel dev d Hd Hw); done.
  - destruct (request_count28 dev lba count Hr Hu) as (-> & -> & Ec & Hl & Hc).
    unfold ata_read_sectors_lba28. cbv zeta. rewrite Ec.
    rewrite (bind_runs _ _ _ _ _ (chosen_ok fuel dev d Hd Hw)).
    rewrite (bind_runs _ _ _ _ _ (send_lba28_ok dev lba count ATA_CMD_READ_PIO (chosen d) Hio (ds_select _ _ Hd) Hl ltac:(lia) ltac:(done))).
    destruct (addressed28_ok lba count (chosen d) Hl) as (E1 & E2 & E3 & E4); [lia|].
    unfold exec. cbn -[start_read lba28_of count28_of addressed28 read_sectors slice]. rewrite E1, E2.
    rewrite (proj2 (Z.eqb_neq count 0)) by lia.
    apply (read_command fuel dev d Hd Hw); done.
Qed.

Lemma ata_write_ok fuel devs bus drv dev d lba count buf :
  ata_get_device devs bus drv = Some dev -> describes dev d -> waiting fuel d -> request dev lba count ->
  Z.of_nat (length buf) = count * 512 -> bytes_ok buf ->
  exists d', ata_write_sectors fuel devs bus drv lba count buf d = Some (true, d') /\
    now_holds d' d (write_at (media d) (lba * 512) buf).
Proof.
  intros Hg Hd Hw Hr Hlen Hby. unfold ata_write_sectors. rewrite Hg, (request_u64 dev d Hd lba count Hr).
  pose proof (ds_io _ _ Hd) as Hio.
  destruct (uses_lba48 dev lba count) eqn:Hu.
  - unfold ata_write_sectors_lba48. cbv zeta. rewrite (request_count48 dev lba count Hr).
    rewrite (bind_runs _ _ _ _ _ (chosen_ok fuel dev d Hd Hw)).
    rewrite (bind_runs _ _ _ _ _ (send_lba48_ok dev lba count ATA_CMD_WRITE_PIO_EXT (chosen d) Hio eq_refl ltac:(done))).
    assert (0 <= lba < 2 ^ 48) as Hl by (destruct Hr, Hd; lia).
    destruct (addressed48_ok lba count (chosen d)) as [E1 E2]; [done|destruct Hr; lia|].
    unfold exec. cbn -[start_write lba48_of count48_of addressed48 write_sectors]. rewrite E1, E2.
    rewrite (proj2 (Z.eqb_neq count 0)) by (destruct Hr; lia).
    apply (write_command fuel dev d Hd Hw); done.
  - destruct (request_count28 dev lba count Hr Hu) as (-> & -> & Ec & Hl & Hc).
    unfold ata_write_sectors_lba28. cbv zeta. rewrite Ec.
    rewrite (bind_runs _ _ _ _ _ (chosen_ok fuel dev d Hd Hw)).
    rewrite (bind_runs _ _ _ _ _ (send_lba28_ok dev lba count ATA_CMD_WRITE_PIO (chosen d) Hio (ds_select _ _ Hd) Hl ltac:(lia) ltac:(done))).
    destruct (addressed28_ok lba count (chosen d) Hl) as (E1 & E2 & E3 & E4); [lia|].
    unfold exec. cbn -[start_write lba28_of count28_of addressed28 write_sectors]. rewrite E1, E2.
    rewrite (proj2 (Z.eqb_neq count 0)) by lia.
    apply (write_command fuel dev d Hd Hw); done.
Qed.


(** ** Where it does not *)

(** Reading 256 sectors with a 28-bit address: the count becomes 0 in its 8
    bits, and 0 again where the code means 256.  The disk has 256 sectors to
    give, the driver takes none and reports success. *)
Lemma read_256_stores_nothing fuel devs bus drv dev d lba :
  ata_get_device devs bus drv = Some dev -> describes dev d -> waiting fuel d ->
  0 <= lba < 2 ^ 28 -> lba + 256 <= sector_count dev ->
  exists d', ata_read_sectors fuel devs bus drv lba 256 d = Some (([], true), d').
Proof.
  intros Hg Hd Hw Hl Hi. unfold ata_read_sectors. rewrite Hg. pose proof (ds_io _ _ Hd) as Hio.
  rewrite (proj2 (Z.ltb_ge _ _)) by (rewrite u64_small by lia; lia).
  assert (uses_lba48 dev lba 256 = false) as ->.
  { unfold uses_lba48. rewrite (proj2 (Z.ltb_ge 0x0FFFFFFF lba)) by lia. cbn. apply andb_false_r. }
  rewrite u32_small by lia. unfold ata_read_sectors_lba28. change (count28 (u8 256)) with 0. cbv zeta.
  rewrite (bind_runs _ _ _ _ _ (chosen_ok fuel dev d Hd Hw)).
  rewrite (bind_runs _ _ _ _ _ (send_lba28_ok dev lba 0 ATA_CMD_READ_PIO (chosen d) Hio (ds_select _ _ Hd) Hl ltac:(lia) ltac:(done))).
  destruct (addressed28_ok lba 0 (chosen d) Hl) as (E1 & E2 & E3 & E4); [lia|].
  set (d2 := exec ATA_CMD_READ_PIO (addressed28 lba 0 (chosen d))).
  assert (slave d2 = false /\ failed d2 = false) as [Hs Hf].
  { subst d2. unfold exec. cbn -[start_read lba28_of count28_of addressed28 slave failed]. rewrite E1, E2. change (if 0 =? 0 then 256 else 0) with 256.
    unfold start_read, on_disk. rewrite E4, andb_true_r. pose proof (ds_size _ _ Hd).
    rewrite (proj2 (Z.leb_le _ _)) by (cbn; lia). cbv iota. rewrite slave_feed. split; [done|]. unfold feed. by destruct (words_of _). }
  change (Z.to_nat 0) with 0%nat. cbn [read_sectors]. unfold bind at 1, ret at 1. cbn [finish_read].
  unfold ata_check_error. unfold bind at 1. unfold bind at 1. rewrite (inb_status dev Hio) by done.
  destruct (busy d2).
  - destruct (status_bits d2) as (_ & _ & -> & ->). rewrite Hf. destruct (phase d2); eexists; done.
  - eexists. done.
Qed.

(** ** A disk of four sectors *)

Definition demo_identity : list Z :=
  replicate 27 0 ++ replicate 20 0x4142 ++ replicate 13 0 ++ [4; 0] ++ replicate 194 0.
Definition demo_drive : drive :=
  mkDrive (zeros 2048) demo_identity 2 0 Idle false (0, 0) (0, 0) (0, 0) (0, 0) 0.
Definition demo_ata : ata_device_t := identified (empty_device 0 0) demo_identity.
Definition demo_devices : list ata_device_t := [demo_ata; empty_device 0 1; empty_device 1 0; empty_device 1 1].

(** [ata_init] finds it, and nothing else. *)
Lemma ata_init_finds_the_disk :
  option_map fst (ata_init 3 demo_drive) = Some demo_devices /\ sector_count demo_ata = 4 /\
  take 4 (model demo_ata) = [0x41; 0x42; 0x41; 0x42].
Proof. vm_compute. done. Qed.

Lemma demo_describes : describes demo_ata demo_drive.
Proof. split; [vm_compute; reflexivity..|apply (bytes_zeros 2048)]. Qed.

