(* ===== verification/Acpi.v ===== *)
(** * ACPI tables (src/kernel/drivers/acpi/acpi.c, acpi.h)

    Finding the root table, finding a table by its signature, the sleep type in
    the DSDT, and the writes that switch the machine off.

    The tables stand in memory, one byte at each virtual address: [mem].  A
    pointer is an address and NULL is 0.  [rsdp_ptr] and [hddm] are what the
    boot loader answers ([limine_get_rsdp], [limine_get_hddm]). *)

From S2P Require Import Prelude Bytes.
#[local] Open Scope Z_scope.

Definition SLP_EN : Z := Z.shiftl 1 13.
(** Sizes of the packed structures. *)
Definition sizeof_RSDP : Z := 20.
Definition sizeof_SDTHeader : Z := 36.

(** Signatures: "RSD PTR ", "FACP", "DSDT", "_S5_". *)
Definition RSD_PTR : list Z := [0x52; 0x53; 0x44; 0x20; 0x50; 0x54; 0x52; 0x20].
Definition FACP : list Z := [0x46; 0x41; 0x43; 0x50].
Definition DSDT : list Z := [0x44; 0x53; 0x44; 0x54].
Definition S5 : list Z := [0x5F; 0x53; 0x35; 0x5F].

(** [sdt_root], [using_xsdt], [hhdm] and the two sleep types. *)
Record acpi_state := mkAcpi {
  sdt_root : Z; using_xsdt : bool; hhdm : Z; s5_slp_typa : Z; s5_slp_typb : Z
}.
Definition acpi_start : acpi_state := mkAcpi 0 false 0 0 0.

Section tables.
Context (mem : Z -> Z).

Definition mem8 (a : Z) : Z := mem a.
Definition mem16 (a : Z) : Z := mem a + 2 ^ 8 * mem (a + 1).
Definition mem32 (a : Z) : Z := mem16 a + 2 ^ 16 * mem16 (a + 2).
Definition mem64 (a : Z) : Z := mem32 a + 2 ^ 32 * mem32 (a + 4).

(** [memcmp(p, sig, n) == 0] *)
Fixpoint same_bytes (p : Z) (sig : list Z) : bool :=
  match sig with
  | [] => true
  | c :: sig' => (mem p =? c) && same_bytes (p + 1) sig'
  end.

Definition acpi_checksum (table length : Z) : bool :=
  for_range (fun i sum => u8 (sum + mem (table + i))) 0 (Z.to_nat length) 0 =? 0.

(** Fields. *)
Definition rsdp_Revision (p : Z) : Z := mem8 (p + 15).
Definition rsdp_RsdtAddress (p : Z) : Z := mem32 (p + 16).
Definition xsdp_Length (p : Z) : Z := mem32 (p + 20).
Definition xsdp_XsdtAddress (p : Z) : Z := mem64 (p + 24).
Definition sdt_Length (p : Z) : Z := mem32 (p + 4).
Definition fadt_Dsdt (p : Z) : Z := mem32 (p + 40).
Definition fadt_SmiCmd (p : Z) : Z := mem32 (p + 48).
Definition fadt_AcpiEnable (p : Z) : Z := mem8 (p + 52).
Definition fadt_PM1aEvtBlk (p : Z) : Z := mem32 (p + 56).
Definition fadt_PM1aCntBlk (p : Z) : Z := mem32 (p + 64).
Definition fadt_PM1bCntBlk (p : Z) : Z := mem32 (p + 68).

Definition set_root (root : Z) (xsdt : bool) (s : acpi_state) : acpi_state :=
  mkAcpi root xsdt (hhdm s) (s5_slp_typa s) (s5_slp_typb s).

(** The root is kept when its checksum holds. *)
Definition check_root (s : acpi_state) : acpi_state :=
  if sdt_root s =? 0 then s
  else if acpi_checksum (sdt_root s) (sdt_Length (sdt_root s)) then s
  else set_root 0 (using_xsdt s) s.

Definition acpi_init (rsdp_ptr hddm : Z) (s : acpi_state) : acpi_state :=
  if rsdp_ptr =? 0 then s
  else
    let s1 := mkAcpi (sdt_root s) (using_xsdt s) hddm (s5_slp_typa s) (s5_slp_typb s) in
    if negb (same_bytes rsdp_ptr RSD_PTR) then s1
    else if negb (acpi_checksum rsdp_ptr sizeof_RSDP) then s1
    else if 2 <=? rsdp_Revision rsdp_ptr then
      if negb (acpi_checksum rsdp_ptr (xsdp_Length rsdp_ptr)) then s1
      else check_root (set_root (u64 (xsdp_XsdtAddress rsdp_ptr + hddm)) true s1)
    else check_root (set_root (u64 (rsdp_RsdtAddress rsdp_ptr + hddm)) false s1).

(** [entry_count] is an [int]. *)
Definition entry_size (s : acpi_state) : Z := if using_xsdt s then 8 else 4.
Definition entry_count (s : acpi_state) : Z :=
  int32 (u64 (sdt_Length (sdt_root s) - sizeof_SDTHeader) / entry_size s).
Definition entry (s : acpi_state) (i : Z) : Z :=
  let entries := sdt_root s + sizeof_SDTHeader in
  let table_phys := if using_xsdt s then mem64 (entries + 8 * i) else mem32 (entries + 4 * i) in
  u64 (table_phys + hhdm s).

(** The first entry with the signature decides. *)
Fixpoint find_loop (s : acpi_state) (signature : list Z) (i : Z) (n : nat) : Z :=
  match n with
  | O => 0
  | S n' =>
      let table := entry s i in
      if table =? 0 then find_loop s signature (i + 1) n'
      else if same_bytes table signature then
        if acpi_checksum table (sdt_Length table) then table else 0
      else find_loop s signature (i + 1) n'
  end.

Definition acpi_find_table (signature : list Z) (s : acpi_state) : Z :=
  if sdt_root s =? 0 then 0 else find_loop s signature 0 (Z.to_nat (entry_count s)).

(** ** The sleep type *)

(** After the name: the package with its length, the number of its elements,
    and the elements, each with the prefix 0x0A. *)
Definition s5_at (p : Z) (s : acpi_state) : acpi_state :=
  let p := p + 3 in
  let '(a, p) := if mem p =? 0x0A then (mem (p + 1), p + 2) else (s5_slp_typa s, p) in
  let b := if mem p =? 0x0A then mem (p + 1) else s5_slp_typb s in
  mkAcpi (sdt_root s) (using_xsdt s) (hhdm s) a b.

Definition is_s5 (aml i : Z) : bool := same_bytes (aml + i) S5 && (mem (aml + i + 4) =? 0x12).

Definition acpi_parse_s5 (s : acpi_state) : acpi_state * bool :=
  let fadt := acpi_find_table FACP s in
  if fadt =? 0 then (s, false)
  else
    let dsdt := u64 (fadt_Dsdt fadt + hhdm s) in
    if negb (same_bytes dsdt DSDT) then (s, false)
    else
      let aml := dsdt + sizeof_SDTHeader in
      let len := u32 (sdt_Length dsdt - sizeof_SDTHeader) in
      match find_first (is_s5 aml) 0 (Z.to_nat (u32 (len - 8))) with
      | Some i => (s5_at (aml + i + 4) s, true)
      | None => (s, false)
      end.

(** ** Switching off *)

(** What goes to the ports: 8 or 16 bits.  [pm1a_status n] is what the n-th
    read of the event register answers; the wait ends after 300 of them. *)
Inductive port_write := Out8 (port v : Z) | Out16 (port v : Z).

Fixpoint enable_wait (pm1a_status : nat -> Z) (k n : nat) : list port_write :=
  match n with
  | O => []
  | S n' =>
      if Z.testbit (pm1a_status k) 0 then [] else Out8 0x80 0 :: enable_wait pm1a_status (S k) n'
  end.

Definition sleep_command (slp_typ : Z) : Z := u16 (Z.lor (u16 (Z.shiftl slp_typ 10)) SLP_EN).

(** The machine is off, or halts for ever, afterwards. *)
Definition acpi_shutdown (pm1a_status : nat -> Z) (s : acpi_state) : list port_write :=
  let fadt := acpi_find_table FACP s in
  if fadt =? 0 then []
  else
    let enable :=
      if negb (fadt_SmiCmd fadt =? 0) && negb (fadt_AcpiEnable fadt =? 0) then
        Out8 (u16 (fadt_SmiCmd fadt)) (fadt_AcpiEnable fadt) :: enable_wait pm1a_status 0 300
      else [] in
    let pm1a := u16 (fadt_PM1aCntBlk fadt) in
    let pm1b := u16 (fadt_PM1bCntBlk fadt) in
    enable ++ [Out16 pm1a (sleep_command (s5_slp_typa s))] ++
    (if pm1b =? 0 then [] else [Out16 pm1b (sleep_command (s5_slp_typb s))]).

(** * Theorems *)

(** The sum of [n] bytes. *)
Fixpoint sum_bytes (a : Z) (n : nat) : Z :=
  match n with O => 0 | S n' => sum_bytes a n' + mem (a + Z.of_nat n') end.

Lemma checksum_sums table length :
  acpi_checksum table length = (sum_bytes table (Z.to_nat length) mod 256 =? 0).
Proof.
  unfold acpi_checksum. f_equal. induction (Z.to_nat length) as [|n IH]; [done|].
  rewrite for_range_S_r, IH. cbn [sum_bytes]. rewrite Z.add_0_l. unfold u8.
  change (2 ^ 8) with 256. by rewrite Z.add_mod_idemp_l.
Qed.

Lemma same_bytes_spec sig : forall p, same_bytes p sig = true <->
  forall k c, sig !! k = Some c -> mem (p + Z.of_nat k) = c.
Proof.
  induction sig as [|c sig IH]; intros p; cbn [same_bytes].
  - split; [done|]. intros _. done.
  - rewrite andb_true_iff, Z.eqb_eq, IH. split.
    + intros [H0 H] [|k] d Hk; cbn in Hk.
      * injection Hk as <-. by rewrite Z.add_0_r.
      * rewrite <- (H k d Hk). f_equal. lia.
    + intros H. split.
      * rewrite <- (H 0%nat c eq_refl). f_equal. lia.
      * intros k d Hk. rewrite <- (H (S k) d Hk). f_equal. lia.
Qed.

(** A table of the list with the signature. *)
Definition wanted (s : acpi_state) (signature : list Z) (i : Z) : bool :=
  negb (entry s i =? 0) && same_bytes (entry s i) signature.

Lemma find_loop_first s signature n : forall i,
  find_loop s signature i n =
    match find_first (wanted s signature) i n with
    | Some j => if acpi_checksum (entry s j) (sdt_Length (entry s j)) then entry s j else 0
    | None => 0
    end.
Proof.
  induction n as [|n IH]; intros i; cbn [find_loop find_first]; [done|].
  unfold wanted at 1. destruct (Z.eqb_spec (entry s i) 0); cbn [negb andb]; [apply IH|].
  destruct (same_bytes (entry s i) signature); [done|apply IH].
Qed.

Lemma init_root rsdp hddm :
  let s := acpi_init rsdp hddm acpi_start in
  sdt_root s <> 0 ->
  same_bytes rsdp RSD_PTR = true /\ acpi_checksum rsdp sizeof_RSDP = true /\
  (using_xsdt s = true -> acpi_checksum rsdp (xsdp_Length rsdp) = true) /\
  acpi_checksum (sdt_root s) (sdt_Length (sdt_root s)) = true.
Proof.
  cbv zeta. unfold acpi_init.
  destruct (rsdp =? 0); [done|].
  destruct (same_bytes rsdp RSD_PTR); cbn [negb]; [|done].
  destruct (acpi_checksum rsdp sizeof_RSDP); cbn [negb]; [|done].
  assert (forall s, sdt_root (check_root s) <> 0 ->
    check_root s = s /\ acpi_checksum (sdt_root s) (sdt_Length (sdt_root s)) = true) as Hc.
  { intros s. unfold check_root. destruct (Z.eqb_spec (sdt_root s) 0); [done|].
    by destruct (acpi_checksum (sdt_root s) (sdt_Length (sdt_root s))). }
  destruct (2 <=? rsdp_Revision rsdp).
  - destruct (acpi_checksum rsdp (xsdp_Length rsdp)) eqn:E; cbn [negb]; [|done].
    intros H. destruct (Hc _ H) as [-> H']. done.
  - intros H. destruct (Hc _ H) as [-> H']. done.
Qed.

(** C38: the kernel uses no table that fails its checks.  A table found by its
    signature after initialisation has this signature and bytes that add up to
    0, it is the first one with the signature in the root table, and the root
    table and the pointer structure of the firmware passed their own checks.
    Conversely such a first table is found unless its checksum is wrong. *)
Theorem acpi_tables_are_checked rsdp hddm signature :
  let s := acpi_init rsdp hddm acpi_start in
  let t := acpi_find_table signature s in
  (t <> 0 ->
     (forall k c, signature !! k = Some c -> mem (t + Z.of_nat k) = c) /\
     sum_bytes t (Z.to_nat (sdt_Length t)) mod 256 = 0 /\
     sum_bytes (sdt_root s) (Z.to_nat (sdt_Length (sdt_root s))) mod 256 = 0 /\
     sum_bytes rsdp 20 mod 256 = 0 /\
     exists i, 0 <= i < entry_count s /\ t = entry s i /\
       forall j, 0 <= j < i -> wanted s signature j = false) /\
  (forall i, sdt_root s <> 0 -> 0 <= i < entry_count s -> wanted s signature i = true ->
     (forall j, 0 <= j < i -> wanted s signature j = false) ->
     t = if sum_bytes (entry s i) (Z.to_nat (sdt_Length (entry s i))) mod 256 =? 0 then entry s i else 0).
Proof.
  cbv zeta. set (s := acpi_init rsdp hddm acpi_start). unfold acpi_find_table.
  rewrite find_loop_first. split.
  - destruct (Z.eqb_spec (sdt_root s) 0) as [|Hr]; [done|].
    destruct (init_root rsdp hddm Hr) as (_ & Hp & _ & Ht). fold s in Ht.
    rewrite checksum_sums, Z.eqb_eq in Hp, Ht.
    destruct (find_first _ 0 _) as [i|] eqn:E; [|done].
    apply find_first_Some in E as (Hi & Hw & Hlow).
    unfold wanted in Hw. apply andb_true_iff in Hw as [_ Hsig].
    destruct (acpi_checksum (entry s i) (sdt_Length (entry s i))) eqn:Ec; [|done].
    rewrite checksum_sums, Z.eqb_eq in Ec. intros _. split_and!; [by apply same_bytes_spec|done|done|done|].
    exists i. split_and!; [lia|lia|done|done].
  - intros i Hr Hi Hw Hlow. rewrite (proj2 (Z.eqb_neq _ _) Hr).
    rewrite (find_first_exact _ _ 0 i) by (lia || done). by rewrite checksum_sums.
Qed.

(** The commands that switch the machine off carry the sleep types. *)
Lemma sleep_command_fields v : 0 <= v < 8 -> sleep_command v = 2 ^ 13 + 2 ^ 10 * v.
Proof.
  intros Hv. assert (v = 0 \/ v = 1 \/ v = 2 \/ v = 3 \/ v = 4 \/ v = 5 \/ v = 6 \/ v = 7) as H by lia.
  repeat destruct H as [->|H]; try done. by subst.
Qed.
End tables.

(** Nothing calls [acpi_parse_s5]: the machine is told to enter sleep type 0,
    whatever the tables say. *)
Lemma shutdown_uses_type_0 mem rsdp hddm pm1a_status :
  let s := acpi_init mem rsdp hddm acpi_start in
  acpi_find_table mem FACP s <> 0 ->
  Out16 (u16 (fadt_PM1aCntBlk mem (acpi_find_table mem FACP s))) (2 ^ 13) ∈ acpi_shutdown mem pm1a_status s.
Proof.
  cbv zeta. intros Hf. unfold acpi_shutdown. rewrite (proj2 (Z.eqb_neq _ _) Hf).
  assert (s5_slp_typa (acpi_init mem rsdp hddm acpi_start) = 0) as ->.
  { unfold acpi_init, check_root. repeat case_match; done. }
  apply elem_of_app. right. apply elem_of_app. left. by apply list_elem_of_singleton.
Qed.

(** ** A root table with one entry *)

Fixpoint memory_of (chunks : list (Z * list Z)) (a : Z) : Z :=
  match chunks with
  | [] => 0
  | (b, l) :: rest => if (b <=? a) && (a <? b + Z.of_nat (length l)) then aget 0 l (a - b) else memory_of rest a
  end.
Definition demo_table (sig : list Z) (len : Z) (body : list Z) : list Z :=
  let bytes := sig ++ le32 len ++ zeros 28 ++ body in
  set8 bytes 9 (256 - foldr Z.add 0 bytes mod 256).
Definition demo_mem : Z -> Z := memory_of
  [(0x1000, set8 (RSD_PTR ++ zeros 7 ++ [0] ++ le32 0x2000) 8 (256 - (foldr Z.add 0 RSD_PTR + 0x20) mod 256));
   (0x2000, demo_table [0x52; 0x53; 0x44; 0x54] 40 (le32 0x3000));
   (0x3000, demo_table FACP 36 [])].

Lemma acpi_finds_the_table : acpi_find_table demo_mem FACP (acpi_init demo_mem 0x1000 0 acpi_start) = 0x3000.
Proof. vm_compute. done. Qed.
