(* ===== verification/Interrupts.v ===== *)
(** * Interrupts (src/kernel/arch/x86_64/irq.c, isr.c, drivers/apic/ioapic.c)

    The I/O APICs and the overrides of the legacy interrupts, as the firmware's
    MADT describes them; the routing of an interrupt to a vector; the handlers
    of the vectors and their dispatch.

    [Mmio] are the 32-bit accesses to device memory.  A handler is a name of
    type [Hd]; dispatching gives the handler to call.  What MSRs hold is a
    parameter ([lapic_id]).  The tables of the firmware are those of Acpi.v. *)

From S2P Require Import Prelude Bytes Acpi.
#[local] Open Scope Z_scope.

Class Mmio (X : Type) := {
  mmio_read32 : Z -> X -> Z;
  mmio_write32 : Z -> Z -> X -> X
}.

Definition IOAPIC_REG_VER : Z := 0x01.
Definition IOAPIC_REDTBL (n : Z) : Z := 0x10 + 2 * n.
Definition IOREGSEL_OFFSET : Z := 0x00.
Definition IOWIN_OFFSET : Z := 0x10.
Definition IOAPIC_MAX : Z := 8.
Definition MAX_ISOS : Z := 24.
Definition IOAPIC_DELIV_FIXED : Z := 0.
Definition IRQ_VECTOR_BASE : Z := 0x20.
Definition IRQ_MAX : Z := 256.
Definition VECTOR_ALLOC_BASE : Z := 0x30.
Definition VECTOR_ALLOC_MAX : Z := 0xEF.
Definition LAPIC_SPURIOUS_VECTOR : Z := 0xFF.
Definition LAPIC_TIMER_VECTOR : Z := 0xEF.
Definition LAPIC_ERROR_VECTOR : Z := 0xEB.
Definition sizeof_MADT : Z := 44.

Record IOAPICInfo := mkApic { id : Z; virt_base : Z; gsi_base : Z; gsi_count : Z }.
Record ISOEntry := mkIso { irq : Z; gsi : Z; flags : Z }.

(** [IOAPICRedirEntry]: the fields written, and the two words. *)
Record IOAPICRedirEntry := mkRedir { low : Z; high : Z }.
Definition redir (vector delivery polarity trigger mask destination : Z) : IOAPICRedirEntry :=
  mkRedir (Z.lor (Z.lor (Z.lor (Z.lor (Z.land vector 0xFF) (Z.shiftl (Z.land delivery 7) 8)) (Z.shiftl polarity 13))
                 (Z.shiftl trigger 15)) (Z.shiftl mask 16))
          (Z.shiftl (Z.land destination 0xFF) 24).
Definition set_mask (b : Z) (e : IOAPICRedirEntry) : IOAPICRedirEntry :=
  mkRedir (Z.lor (Z.ldiff (low e) (2 ^ 16)) (Z.shiftl b 16)) (high e).

(** The tables of ioapic.c are the first entries of their arrays. *)
Record interrupts (Hd X : Type) := mkInts {
  ioapics : list IOAPICInfo;
  isos : list ISOEntry;
  g_IRQHandlers : list (option Hd);
  g_next_vector : Z;
  eois : Z;
  hw : X
}.
Arguments mkInts {Hd X}. Arguments ioapics {Hd X}. Arguments isos {Hd X}. Arguments g_IRQHandlers {Hd X}.
Arguments g_next_vector {Hd X}. Arguments eois {Hd X}. Arguments hw {Hd X}.

Section ioapic.
Context {Hd X : Type} `{!Mmio X}.
#[local] Abbreviation ints := (interrupts Hd X).

Definition set_hw (x : X) (s : ints) : ints :=
  mkInts (ioapics s) (isos s) (g_IRQHandlers s) (g_next_vector s) (eois s) x.
Definition set_ioapics (l : list IOAPICInfo) (s : ints) : ints :=
  mkInts l (isos s) (g_IRQHandlers s) (g_next_vector s) (eois s) (hw s).
Definition set_isos (l : list ISOEntry) (s : ints) : ints :=
  mkInts (ioapics s) l (g_IRQHandlers s) (g_next_vector s) (eois s) (hw s).
Definition set_handlers (l : list (option Hd)) (s : ints) : ints :=
  mkInts (ioapics s) (isos s) l (g_next_vector s) (eois s) (hw s).

(** ** Registers of an I/O APIC *)

Definition ioapic_write (base reg v : Z) (x : X) : X :=
  mmio_write32 (base + IOWIN_OFFSET) v (mmio_write32 (base + IOREGSEL_OFFSET) reg x).
Definition ioapic_read (base reg : Z) (x : X) : X * Z :=
  let x1 := mmio_write32 (base + IOREGSEL_OFFSET) reg x in (x1, mmio_read32 (base + IOWIN_OFFSET) x1).

Definition handles (gsi : Z) (a : IOAPICInfo) : bool :=
  (gsi_base a <=? gsi) && (gsi <? u32 (gsi_base a + gsi_count a)).
Definition ioapic_for_gsi (gsi : Z) (s : ints) : option IOAPICInfo := List.find (handles gsi) (ioapics s).

(** The register numbers have 8 bits. *)
Definition redtbl (a : IOAPICInfo) (gsi : Z) : Z := u8 (IOAPIC_REDTBL (u32 (gsi - gsi_base a))).

Definition ioapic_write_redir (a : IOAPICInfo) (gsi : Z) (e : IOAPICRedirEntry) (x : X) : X :=
  let x1 := ioapic_write (virt_base a) (redtbl a gsi) (low e) x in
  ioapic_write (virt_base a) (u8 (redtbl a gsi + 1)) (high e) x1.
Definition ioapic_read_redir (a : IOAPICInfo) (gsi : Z) (x : X) : X * IOAPICRedirEntry :=
  let '(x1, l) := ioapic_read (virt_base a) (redtbl a gsi) x in
  let '(x2, h) := ioapic_read (virt_base a) (u8 (redtbl a gsi + 1)) x1 in
  (x2, mkRedir l h).

(** ** The MADT *)

(** One entry, at [p]. *)
Definition madt_entry (mem : Z -> Z) (hhdm p : Z) (s : ints) : ints :=
  let type := mem p in
  if type =? 1 then
    if IOAPIC_MAX <=? Z.of_nat (length (ioapics s)) then s
    else
      let base := u64 (mem32 mem (p + 4) + hhdm) in
      let '(x, ver) := ioapic_read base IOAPIC_REG_VER (hw s) in
      set_hw x (set_ioapics (ioapics s ++
        [mkApic (mem (p + 2)) base (mem32 mem (p + 8)) (Z.land (Z.shiftr ver 16) 0xFF + 1)]) s)
  else if type =? 2 then
    if MAX_ISOS <=? Z.of_nat (length (isos s)) then s
    else set_isos (isos s ++ [mkIso (mem (p + 3)) (mem32 mem (p + 4)) (mem16 mem (p + 8))]) s
  else s.

(** [ptr += entry->length] does not move on for an entry of length 0: [None] is
    a loop that has not ended within [fuel] rounds. *)
Fixpoint madt_loop (mem : Z -> Z) (hhdm end_ : Z) (fuel : nat) (p : Z) (s : ints) : option ints :=
  if p <? end_ then
    match fuel with
    | O => None
    | S fuel' => madt_loop mem hhdm end_ fuel' (p + mem (p + 1)) (madt_entry mem hhdm p s)
    end
  else Some s.

Definition parse_madt (mem : Z -> Z) (hhdm : Z) (fuel : nat) (madt : Z) (s : ints) : option ints :=
  madt_loop mem hhdm (madt + sdt_Length mem madt) fuel (madt + sizeof_MADT) s.

Definition masked : IOAPICRedirEntry := redir 0xFF 0 0 0 1 0.

Definition mask_pins (a : IOAPICInfo) (x : X) : X :=
  for_range (fun pin x =>
    let x1 := ioapic_write (virt_base a) (u8 (IOAPIC_REDTBL pin)) (low masked) x in
    ioapic_write (virt_base a) (u8 (IOAPIC_REDTBL pin + 1)) (high masked) x1) 0 (Z.to_nat (gsi_count a)) x.
Definition ioapic_mask_all (s : ints) : ints :=
  set_hw (foldl (fun x a => mask_pins a x) (hw s) (ioapics s)) s.

(** The writes of [pic_disable] go to ports and are not part of the state. *)
Definition ioapic_init (mem : Z -> Z) (hhdm : Z) (fuel : nat) (madt : Z) (s : ints) : option ints :=
  if madt =? 0 then Some s
  else
    s1 ← parse_madt mem hhdm fuel madt s;
    Some (match ioapics s1 with [] => s1 | _ => ioapic_mask_all s1 end).

(** ** Routing *)

Definition ioapic_route (gsi vector delivery_mode active_low level_triggered dest : Z) (s : ints) : ints :=
  match ioapic_for_gsi gsi s with
  | None => s
  | Some a =>
      let e := redir vector delivery_mode (if active_low =? 0 then 0 else 1) (if level_triggered =? 0 then 0 else 1) 0 dest in
      set_hw (ioapic_write_redir a gsi e (hw s)) s
  end.

(** Polarity and trigger mode of an override. *)
Definition iso_active_low (i : ISOEntry) : Z := if Z.land (flags i) 3 =? 3 then 1 else 0.
Definition iso_level (i : ISOEntry) : Z := if Z.land (Z.shiftr (flags i) 2) 3 =? 3 then 1 else 0.

Definition ioapic_route_isa_irq (n vector dest : Z) (s : ints) : ints :=
  match List.find (fun i => irq i =? n) (isos s) with
  | Some i => ioapic_route (gsi i) vector IOAPIC_DELIV_FIXED (iso_active_low i) (iso_level i) dest s
  | None => ioapic_route n vector IOAPIC_DELIV_FIXED 0 0 dest s
  end.

Definition change_mask (b gsi : Z) (s : ints) : ints :=
  match ioapic_for_gsi gsi s with
  | None => s
  | Some a =>
      let '(x, e) := ioapic_read_redir a gsi (hw s) in
      set_hw (ioapic_write_redir a gsi (set_mask b e) x) s
  end.
Definition ioapic_mask_gsi (gsi : Z) (s : ints) : ints := change_mask 1 gsi s.
Definition ioapic_unmask_gsi (gsi : Z) (s : ints) : ints := change_mask 0 gsi s.

(** ** Vectors and handlers (irq.c) *)

Definition lapic_eoi (s : ints) : ints :=
  mkInts (ioapics s) (isos s) (g_IRQHandlers s) (g_next_vector s) (eois s + 1) (hw s).

(** The handler to call; the end of the interrupt is signalled after it, [run]
    being what the handler does. *)
Definition x86_64_IRQ_Handler (run : Hd -> ints -> ints) (interrupt : Z) (s : ints) : ints :=
  let vector := int32 interrupt in
  if (vector <? IRQ_VECTOR_BASE) || (IRQ_MAX <=? vector) then lapic_eoi s
  else
    match aget None (g_IRQHandlers s) vector with
    | Some h => lapic_eoi (run h s)
    | None => lapic_eoi s
    end.

Definition set_handler (vector : Z) (h : Hd) (s : ints) : ints :=
  set_handlers (aset (g_IRQHandlers s) vector (Some h)) s.

Definition x86_64_IRQ_RegisterHandler (n : Z) (h : Hd) (s : ints) : ints :=
  if (n <? 0) || (16 <=? n) then s else set_handler (IRQ_VECTOR_BASE + n) h s.

Definition x86_64_IRQ_Unmask (lapic_id n : Z) (s : ints) : ints :=
  if (n <? 0) || (16 <=? n) then s
  else ioapic_route_isa_irq (u8 n) (u8 (IRQ_VECTOR_BASE + n)) (u8 lapic_id) s.

Definition x86_64_IRQ_RegisterGSI (lapic_id gsi vector : Z) (h : Hd) (s : ints) : ints :=
  if (vector <? IRQ_VECTOR_BASE) || (IRQ_MAX <=? vector) then s
  else ioapic_route gsi vector IOAPIC_DELIV_FIXED 1 0 (u8 lapic_id) (set_handler vector h s).

Definition x86_64_IRQ_MaskGSI (gsi : Z) (s : ints) : ints := ioapic_mask_gsi gsi s.
Definition x86_64_IRQ_UnmaskGSI (gsi : Z) (s : ints) : ints := ioapic_unmask_gsi gsi s.
Definition x86_64_IRQ_EOI (s : ints) : ints := lapic_eoi s.

Definition x86_64_IRQ_AllocVector (s : ints) : ints * Z :=
  if VECTOR_ALLOC_MAX <=? g_next_vector s then (s, 0)
  else (mkInts (ioapics s) (isos s) (g_IRQHandlers s) (u8 (g_next_vector s + 1)) (eois s) (hw s), g_next_vector s).

Definition x86_64_IRQ_RegisterVector (vector : Z) (h : Hd) (s : ints) : ints :=
  if (vector <? VECTOR_ALLOC_BASE) || (IRQ_MAX <=? vector) then s else set_handler vector h s.

Definition get_next_vector (s : ints) : Z := g_next_vector s.

(** The state the static variables start with. *)
Definition ints_start (x : X) : ints := mkInts [] [] (replicate 256 None) VECTOR_ALLOC_BASE 0 x.

(** ** The gates (isr.c) *)

(** [x86_64_ISR_Handler] calls the handler of the vector, or reports; an
    exception without a handler is the end ([None]). *)
Definition x86_64_ISR_Handler (g_ISRHandlers : list (option (ints -> ints))) (interrupt : Z) (s : ints) : option ints :=
  match aget None g_ISRHandlers interrupt with
  | Some h => Some (h s)
  | None => if 32 <=? interrupt then Some s else None
  end.

(** [x86_64_IRQ_Initialize] makes [x86_64_IRQ_Handler] the handler of all
    vectors from 0x20 on. *)
Definition x86_64_ISR_RegisterHandler (n : Z) (h : ints -> ints) (g : list (option (ints -> ints))) : list (option (ints -> ints)) :=
  aset g n (Some h).
Definition irq_gates (run : Hd -> ints -> ints) (g : list (option (ints -> ints))) : list (option (ints -> ints)) :=
  for_range (fun v g => x86_64_ISR_RegisterHandler v (x86_64_IRQ_Handler run v) g) IRQ_VECTOR_BASE 224 g.
Definition x86_64_IRQ_Initialize (run : Hd -> ints -> ints) (mem : Z -> Z) (hhdm : Z) (fuel : nat) (madt : Z)
    (g : list (option (ints -> ints))) (s : ints) : option (list (option (ints -> ints)) * ints) :=
  s' ← ioapic_init mem hhdm fuel madt s; Some (irq_gates run g, s').
End ioapic.

(** * Theorems *)

(** ** The registers of an I/O APIC

    Each one shows two addresses: the number of a register is written to the
    first, the register is read and written at the second.  Their bases are
    multiples of 256. *)
Record apic_bank := mkBank { selected : Z -> Z; regs : Z -> Z -> Z }.

Definition fupd {A} (f : Z -> A) (i : Z) (v : A) : Z -> A := fun j => if j =? i then v else f j.

#[export] Instance apic_mmio : Mmio apic_bank := {
  mmio_read32 a x :=
    let base := a - a mod 256 in
    if a mod 256 =? IOWIN_OFFSET then regs x base (selected x base) else selected x base;
  mmio_write32 a v x :=
    let base := a - a mod 256 in
    if a mod 256 =? IOWIN_OFFSET
    then mkBank (selected x) (fupd (regs x) base (fupd (regs x base) (selected x base) v))
    else if a mod 256 =? IOREGSEL_OFFSET then mkBank (fupd (selected x) base v) (regs x)
    else x
}.

Lemma fupd_eq {A} (f : Z -> A) i v : fupd f i v i = v.
Proof. unfold fupd. by rewrite Z.eqb_refl. Qed.
Lemma fupd_ne {A} (f : Z -> A) i v j : j <> i -> fupd f i v j = f j.
Proof. unfold fupd. intros H. by rewrite (proj2 (Z.eqb_neq _ _) H). Qed.

Lemma page_offsets base : base mod 256 = 0 ->
  (base + IOWIN_OFFSET) mod 256 = IOWIN_OFFSET /\ base + IOWIN_OFFSET - IOWIN_OFFSET = base /\
  (base + IOREGSEL_OFFSET) mod 256 = IOREGSEL_OFFSET /\ base + IOREGSEL_OFFSET - IOREGSEL_OFFSET = base.
Proof. unfold IOWIN_OFFSET, IOREGSEL_OFFSET. intros. split_and!; zdiv_lia. Qed.

Lemma ioapic_write_regs base reg v x b r : base mod 256 = 0 ->
  regs (ioapic_write base reg v x) b r = if (b =? base) && (r =? reg) then v else regs x b r.
Proof.
  intros Hb. destruct (page_offsets base Hb) as (E1 & E2 & E3 & E4).
  unfold ioapic_write. cbn [mmio_write32 apic_mmio]. rewrite E1, E3, E2, E4.
  change (IOWIN_OFFSET =? IOWIN_OFFSET) with true. change (IOREGSEL_OFFSET =? IOWIN_OFFSET) with false.
  change (IOREGSEL_OFFSET =? IOREGSEL_OFFSET) with true. cbn [selected regs]. rewrite fupd_eq.
  unfold fupd. destruct (b =? base) eqn:Eb; [|done]. apply Z.eqb_eq in Eb as ->. by destruct (r =? reg).
Qed.

Lemma ioapic_read_reg base reg x : base mod 256 = 0 ->
  snd (ioapic_read base reg x) = regs x base reg /\ regs (fst (ioapic_read base reg x)) = regs x.
Proof.
  intros Hb. destruct (page_offsets base Hb) as (E1 & E2 & E3 & E4).
  unfold ioapic_read. cbn [mmio_write32 mmio_read32 apic_mmio fst snd]. rewrite E1, E3, E2, E4.
  change (IOWIN_OFFSET =? IOWIN_OFFSET) with true. change (IOREGSEL_OFFSET =? IOWIN_OFFSET) with false.
  change (IOREGSEL_OFFSET =? IOREGSEL_OFFSET) with true. cbn [selected regs]. by rewrite fupd_eq.
Qed.

(** An I/O APIC with at most 120 pins: their registers have numbers below
    256. *)
Record apic_ok (a : IOAPICInfo) : Prop := {
  ao_base : virt_base a mod 256 = 0;
  ao_gsi : 0 <= gsi_base a;
  ao_count : 0 < gsi_count a <= 120;
  ao_top : gsi_base a + gsi_count a < 2 ^ 32
}.

Lemma handles_pin a gsi : apic_ok a -> handles gsi a = true ->
  0 <= gsi - gsi_base a < gsi_count a /\
  redtbl a gsi = 0x10 + 2 * (gsi - gsi_base a) /\ u8 (redtbl a gsi + 1) = 0x11 + 2 * (gsi - gsi_base a).
Proof.
  intros [? ? ? ?] H. unfold handles in H. rewrite andb_true_iff, Z.leb_le, Z.ltb_lt in H.
  rewrite u32_small in H by lia. unfold redtbl, IOAPIC_REDTBL. rewrite (u32_small (gsi - gsi_base a)) by lia.
  rewrite (u8_small (16 + 2 * (gsi - gsi_base a))) by lia. rewrite u8_small by lia. lia.
Qed.

(** The redirection entry of a pin, and that a write changes it only. *)
Definition entry_at (x : apic_bank) (a : IOAPICInfo) (gsi : Z) : IOAPICRedirEntry :=
  mkRedir (regs x (virt_base a) (0x10 + 2 * (gsi - gsi_base a))) (regs x (virt_base a) (0x11 + 2 * (gsi - gsi_base a))).

Lemma write_redir_entry a gsi e x : apic_ok a -> handles gsi a = true ->
  entry_at (ioapic_write_redir a gsi e x) a gsi = e /\
  forall b r, ~ (b = virt_base a /\ (r = 0x10 + 2 * (gsi - gsi_base a) \/ r = 0x11 + 2 * (gsi - gsi_base a))) ->
    regs (ioapic_write_redir a gsi e x) b r = regs x b r.
Proof.
  intros Hok Hh. destruct (handles_pin a gsi Hok Hh) as (Hp & E1 & E2). destruct Hok as [Hb _ _ _].
  unfold ioapic_write_redir, entry_at. rewrite E2, E1. split.
  - rewrite !ioapic_write_regs by done. rewrite !Z.eqb_refl.
    destruct (Z.eqb_spec (16 + 2 * (gsi - gsi_base a)) (17 + 2 * (gsi - gsi_base a))); [lia|]. by destruct e.
  - intros b r Hne. rewrite !ioapic_write_regs by done.
    destruct (Z.eqb_spec b (virt_base a)), (Z.eqb_spec r (17 + 2 * (gsi - gsi_base a))),
      (Z.eqb_spec r (16 + 2 * (gsi - gsi_base a))); cbn; (done || exfalso; apply Hne; auto).
Qed.

(** What the hardware reads in an entry. *)
Lemma redir_fields vector pol trig dest :
  0 <= vector < 256 -> pol = 0 \/ pol = 1 -> trig = 0 \/ trig = 1 -> 0 <= dest < 256 ->
  let e := redir vector IOAPIC_DELIV_FIXED pol trig 0 dest in
  Z.land (low e) 0xFF = vector /\ Z.testbit (low e) 13 = (pol =? 1) /\
  Z.testbit (low e) 15 = (trig =? 1) /\ Z.testbit (low e) 16 = false /\ Z.shiftr (high e) 24 = dest.
Proof.
  intros Hv Hp Ht Hdst. cbv zeta. unfold redir, IOAPIC_DELIV_FIXED. cbn [low high].
  change (Z.land 0 7) with 0. change (Z.shiftl 0 8) with 0. change (Z.shiftl 0 16) with 0. rewrite !Z.lor_0_r.
  assert (forall v, 0 <= v < 256 -> Z.land v 0xFF = v) as Hff
    by (intros v ?; change 0xFF with (Z.ones 8); rewrite Z.land_ones by lia; by apply Z.mod_small).
  rewrite (Hff vector Hv), (Hff dest Hdst). change 0xFF with (Z.ones 8).
  split_and!.
  - apply Z.bits_inj'. intros j Hj. bits_simpl. rewrite (Z.testbit_ones 8) by lia.
    destruct (Z.ltb_spec j 8) as [H8|H8].
    + rewrite (Z.shiftl_spec_low pol), (Z.shiftl_spec_low trig) by lia.
      rewrite !orb_false_r. destruct (Z.leb_spec 0 j); [apply andb_true_r|lia].
    + rewrite (testbit_high 8 vector) by lia. by rewrite !andb_false_r.
  - bits_simpl. rewrite (testbit_high 8 vector) by lia. destruct Hp as [-> | ->], Ht as [-> | ->]; done.
  - bits_simpl. rewrite (testbit_high 8 vector) by lia. destruct Hp as [-> | ->], Ht as [-> | ->]; done.
  - bits_simpl. rewrite (testbit_high 8 vector) by lia. destruct Hp as [-> | ->], Ht as [-> | ->]; done.
  - rewrite Z.shiftr_shiftl_l by lia. apply Z.shiftl_0_r.
Qed.

Section delivery.
Context {Hd : Type} (run : Hd -> interrupts Hd apic_bank -> interrupts Hd apic_bank).

(** The line a legacy interrupt arrives on. *)
Definition line_of (n : Z) (s : interrupts Hd apic_bank) : ISOEntry :=
  default (mkIso n n 0) (List.find (fun i => irq i =? n) (isos s)).

Lemma route_line n vector dest s :
  ioapic_route_isa_irq n vector dest s =
    let i := line_of n s in ioapic_route (gsi i) vector IOAPIC_DELIV_FIXED (iso_active_low i) (iso_level i) dest s.
Proof. unfold ioapic_route_isa_irq, line_of. by destruct (List.find _ _). Qed.

Lemma bit_of_flag (b : bool) : ((if (if b then 1 else 0) =? 0 then 0 else 1) = 0 \/ (if (if b then 1 else 0) =? 0 then 0 else 1) = 1) /\
  ((if (if b then 1 else 0) =? 0 then 0 else 1) =? 1) = b.
Proof. destruct b; auto. Qed.

(** C37: a legacy interrupt reaches its handler.  After the handler is
    registered and the interrupt unmasked, the I/O APIC that has the line the
    firmware's overrides name for it sends vector 0x20 + n with the polarity and
    trigger mode of the override to this processor, unmasked; no other register
    of any I/O APIC has changed; and the dispatcher answers that vector by
    running the handler and signalling the end of the interrupt once, while the
    handlers of the other vectors are what they were. *)
Theorem legacy_irq_reaches_handler n h lapic_id s a :
  0 <= n < 16 -> length (g_IRQHandlers s) = 256%nat ->
  ioapic_for_gsi (gsi (line_of n s)) s = Some a -> apic_ok a ->
  let i := line_of n s in
  let s' := x86_64_IRQ_Unmask lapic_id n (x86_64_IRQ_RegisterHandler n h s) in
  let e := entry_at (hw s') a (gsi i) in
  Z.land (low e) 0xFF = 0x20 + n /\
  Z.testbit (low e) 13 = (Z.land (flags i) 3 =? 3) /\
  Z.testbit (low e) 15 = (Z.land (Z.shiftr (flags i) 2) 3 =? 3) /\
  Z.testbit (low e) 16 = false /\ Z.shiftr (high e) 24 = lapic_id mod 256 /\
  (forall b r, ~ (b = virt_base a /\ (r = 0x10 + 2 * (gsi i - gsi_base a) \/ r = 0x11 + 2 * (gsi i - gsi_base a))) ->
     regs (hw s') b r = regs (hw s) b r) /\
  x86_64_IRQ_Handler run (0x20 + n) s' = lapic_eoi (run h s') /\
  (forall v, 0 <= v -> v <> 0x20 + n -> aget None (g_IRQHandlers s') v = aget None (g_IRQHandlers s) v).
Proof.
  intros Hn Hlen Ha Hok. cbv zeta.
  unfold x86_64_IRQ_Unmask, x86_64_IRQ_RegisterHandler.
  rewrite (proj2 (Z.ltb_ge n 0)), (proj2 (Z.leb_gt 16 n)) by lia. cbn [orb].
  rewrite (u8_small n), (u8_small (IRQ_VECTOR_BASE + n)) by (unfold IRQ_VECTOR_BASE; lia).
  rewrite route_line. cbv zeta.
  change (line_of n (set_handler (IRQ_VECTOR_BASE + n) h s)) with (line_of n s).
  set (i := line_of n s) in *. unfold ioapic_route.
  change (ioapic_for_gsi (gsi i) (set_handler (IRQ_VECTOR_BASE + n) h s)) with (ioapic_for_gsi (gsi i) s). rewrite Ha.
  assert (handles (gsi i) a = true) as Hh by (unfold ioapic_for_gsi in Ha; by apply List.find_some in Ha as [_ ?]).
  destruct (bit_of_flag (Z.land (flags i) 3 =? 3)) as [Hp Ep].
  destruct (bit_of_flag (Z.land (Z.shiftr (flags i) 2) 3 =? 3)) as [Ht Et].
  unfold iso_active_low, iso_level.
  match goal with |- context [ioapic_write_redir a (gsi i) ?e ?x] => set (e0 := e) in *; set (x0 := x) in * end.
  destruct (write_redir_entry a (gsi i) e0 x0 Hok Hh) as [E Hother]. cbn [hw set_hw]. rewrite E.
  destruct (redir_fields (IRQ_VECTOR_BASE + n) _ _ (u8 lapic_id) ltac:(unfold IRQ_VECTOR_BASE; lia) Hp Ht (u8_range _)) as (F1 & F2 & F3 & F4 & F5).
  fold e0 in F1, F2, F3, F4, F5. rewrite Ep in F2. rewrite Et in F3.
  split_and!; [exact F1|exact F2|exact F3|exact F4|exact F5|exact Hother| |].
  - unfold x86_64_IRQ_Handler. rewrite int32_small by lia.
    rewrite (proj2 (Z.ltb_ge _ _)), (proj2 (Z.leb_gt _ _)) by (unfold IRQ_VECTOR_BASE, IRQ_MAX; lia). cbn [orb].
    cbn [g_IRQHandlers set_hw set_handler set_handlers]. change (0x20 + n) with (IRQ_VECTOR_BASE + n).
    rewrite aget_aset_eq by (unfold IRQ_VECTOR_BASE; lia). done.
  - intros v Hv Hne. cbn [g_IRQHandlers set_hw set_handler set_handlers].
    apply aget_aset_ne; unfold IRQ_VECTOR_BASE; lia.
Qed.
End delivery.

(** Masking changes the mask bit of one entry and nothing else of it. *)
Lemma set_mask_bits b e j : b = 0 \/ b = 1 -> 0 <= j ->
  Z.testbit (low (set_mask b e)) j = if j =? 16 then b =? 1 else Z.testbit (low e) j.
Proof.
  intros Hb Hj. unfold set_mask. cbn [low]. bits_simpl. rewrite (Z.pow2_bits_eqb 16) by lia.
  rewrite (Z.eqb_sym 16). destruct (Z.eqb_spec j 16) as [->|Hne].
  - rewrite andb_false_r. destruct Hb as [-> | ->]; done.
  - cbn [negb]. rewrite andb_true_r. rewrite Z.shiftl_spec by done.
    destruct Hb as [-> | ->]; [by rewrite Z.bits_0, orb_false_r|].
    destruct (Z.ltb_spec (j - 16) 0); [by rewrite (Z.testbit_neg_r 1), orb_false_r by done|].
    change 1 with (2 ^ 0). rewrite Z.pow2_bits_eqb by lia. destruct (Z.eqb_spec 0 (j - 16)); [lia|by rewrite orb_false_r].
Qed.

Lemma mask_gsi_spec {Hd} b gsi (s : interrupts Hd apic_bank) a :
  ioapic_for_gsi gsi s = Some a -> apic_ok a ->
  let s' := change_mask b gsi s in
  entry_at (hw s') a gsi = set_mask b (entry_at (hw s) a gsi) /\
  forall b' r, ~ (b' = virt_base a /\ (r = 0x10 + 2 * (gsi - gsi_base a) \/ r = 0x11 + 2 * (gsi - gsi_base a))) ->
    regs (hw s') b' r = regs (hw s) b' r.
Proof.
  intros Ha Hok. cbv zeta. unfold change_mask. rewrite Ha.
  assert (handles gsi a = true) as Hh by (unfold ioapic_for_gsi in Ha; by apply List.find_some in Ha as [_ ?]).
  destruct (handles_pin a gsi Hok Hh) as (_ & E1 & E2).
  unfold ioapic_read_redir. rewrite E2, E1.
  destruct (ioapic_read (virt_base a) (16 + 2 * (gsi - gsi_base a)) (hw s)) as [x1 l] eqn:R1.
  destruct (ioapic_read (virt_base a) (17 + 2 * (gsi - gsi_base a)) x1) as [x2 h] eqn:R2.
  destruct (ioapic_read_reg (virt_base a) (16 + 2 * (gsi - gsi_base a)) (hw s) (ao_base a Hok)) as [V1 F1].
  destruct (ioapic_read_reg (virt_base a) (17 + 2 * (gsi - gsi_base a)) x1 (ao_base a Hok)) as [V2 F2].
  rewrite R1 in V1, F1. rewrite R2 in V2, F2. cbn [fst snd] in *. cbn [hw set_hw].
  destruct (write_redir_entry a gsi (set_mask b (mkRedir l h)) x2 Hok Hh) as [-> Hother].
  split.
  - unfold entry_at. by rewrite V1, V2, F1.
  - intros b' r Hne. by rewrite Hother, F2, F1.
Qed.

(** ** Reading the MADT *)

Section madt.
Context {Hd X : Type} `{!Mmio X}.

(** The tables never overflow. *)
Definition within_tables (s : interrupts Hd X) : Prop :=
  Z.of_nat (length (ioapics s)) <= IOAPIC_MAX /\ Z.of_nat (length (isos s)) <= MAX_ISOS.

Lemma madt_entry_within mem hhdm p s : within_tables s -> within_tables (madt_entry mem hhdm p s).
Proof.
  unfold within_tables, madt_entry, IOAPIC_MAX, MAX_ISOS. intros [Ha Hi].
  destruct (mem p =? 1).
  - destruct (Z.leb_spec 8 (Z.of_nat (length (ioapics s)))); [done|].
    destruct (ioapic_read _ _ _) as [x v]. cbn [ioapics isos set_hw set_ioapics]. rewrite length_app. cbn [length]. lia.
  - destruct (mem p =? 2); [|done].
    destruct (Z.leb_spec 24 (Z.of_nat (length (isos s)))); [done|].
    cbn [ioapics isos set_isos]. rewrite length_app. cbn [length]. lia.
Qed.

(** The loop ends when no entry has length 0, after at most one round for each
    byte, and never writes behind its tables. *)
Lemma madt_loop_ends mem hhdm end_ n : forall p (s : interrupts Hd X),
  (forall q, p <= q < end_ -> 0 < mem (q + 1)) -> end_ - p <= Z.of_nat n -> within_tables s ->
  exists s', madt_loop mem hhdm end_ n p s = Some s' /\ within_tables s'.
Proof.
  induction n as [|n IH]; intros p s Hm Hn Hs; cbn [madt_loop].
  - destruct (Z.ltb_spec p end_); [lia|eauto].
  - destruct (Z.ltb_spec p end_) as [Hp|]; [|eauto].
    pose proof (Hm p ltac:(lia)). apply IH; [|lia|by apply madt_entry_within].
    intros q Hq. apply Hm. lia.
Qed.

(** An entry of length 0 stops the boot: the loop does not end. *)
Lemma empty_entry_never_ends mem hhdm end_ n : forall p (s : interrupts Hd X), p < end_ -> mem (p + 1) = 0 ->
  madt_loop mem hhdm end_ n p s = None.
Proof.
  induction n as [|n IH]; intros p s Hp H0; cbn [madt_loop]; rewrite (proj2 (Z.ltb_lt _ _) Hp); [done|].
  rewrite H0, Z.add_0_r. by apply IH.
Qed.

(** ** Vectors *)

(** The vectors handed out are different, and none is below 0x30 or above
    0xEE. *)
Fixpoint alloc_vectors (n : nat) (s : interrupts Hd X) : list Z :=
  match n with
  | O => []
  | S n' => let '(s', v) := x86_64_IRQ_AllocVector s in v :: alloc_vectors n' s'
  end.

Lemma vectors_are_fresh n : forall s, 0x30 <= g_next_vector s <= 0xEF ->
  forall i v, alloc_vectors n s !! i = Some v ->
    v = if g_next_vector s + Z.of_nat i <? 0xEF then g_next_vector s + Z.of_nat i else 0.
Proof.
  induction n as [|n IH]; intros s Hs i v Hi; cbn [alloc_vectors] in Hi; [done|].
  unfold x86_64_IRQ_AllocVector, VECTOR_ALLOC_MAX in Hi.
  destruct (Z.leb_spec 239 (g_next_vector s)) as [Hfull|Hroom]; destruct i as [|i]; cbn in Hi.
  - injection Hi as <-. by rewrite (proj2 (Z.ltb_ge _ _)) by lia.
  - rewrite (IH s Hs i v Hi). rewrite !(proj2 (Z.ltb_ge _ _)) by lia. done.
  - injection Hi as <-. rewrite Z.add_0_r. by rewrite (proj2 (Z.ltb_lt _ _)) by lia.
  - rewrite u8_small in Hi by lia. apply IH in Hi; cbn [g_next_vector] in *; [|lia].
    replace (g_next_vector s + Z.of_nat (S i)) with (g_next_vector s + 1 + Z.of_nat i) by lia. done.
Qed.

(** The vector of the local APIC's error interrupt is among them, although the
    code means to keep the vectors of the local APIC out. *)
Lemma error_vector_is_handed_out (x : X) :
  alloc_vectors 188 (ints_start x : interrupts Hd X) !! 187%nat = Some LAPIC_ERROR_VECTOR.
Proof. reflexivity. Qed.
End madt.

(** ** A machine with one I/O APIC and the timer's override *)

Definition demo_apic : IOAPICInfo := mkApic 0 0xFEC00000 0 24.
Definition demo_ints : interrupts Z apic_bank :=
  mkInts [demo_apic] [mkIso 0 2 0; mkIso 9 9 0xF] (replicate 256 None) 0x30 0
    (mkBank (fun _ => 0) (fun _ _ => 0)).
Definition demo_run (h : Z) (s : interrupts Z apic_bank) : interrupts Z apic_bank := s.

Lemma legacy_irq_reaches_handler_witness :
  ioapic_for_gsi (gsi (line_of 9 demo_ints)) demo_ints = Some demo_apic /\
  let i := line_of 9 demo_ints in
  let s' := x86_64_IRQ_Unmask 0 9 (x86_64_IRQ_RegisterHandler 9 77 demo_ints) in
  let e := entry_at (hw s') demo_apic (gsi i) in
  Z.land (low e) 0xFF = 0x20 + 9 /\
  Z.testbit (low e) 13 = (Z.land (flags i) 3 =? 3) /\
  Z.testbit (low e) 15 = (Z.land (Z.shiftr (flags i) 2) 3 =? 3) /\
  Z.testbit (low e) 16 = false /\ Z.shiftr (high e) 24 = 0 mod 256 /\
  (forall b r, ~ (b = virt_base demo_apic /\ (r = 0x10 + 2 * (gsi i - gsi_base demo_apic) \/ r = 0x11 + 2 * (gsi i - gsi_base demo_apic))) ->
     regs (hw s') b r = regs (hw demo_ints) b r) /\
  x86_64_IRQ_Handler demo_run (0x20 + 9) s' = lapic_eoi (demo_run 77 s') /\
  (forall v, 0 <= v -> v <> 0x20 + 9 -> aget None (g_IRQHandlers s') v = aget None (g_IRQHandlers demo_ints) v).
Proof.
  split; [reflexivity|].
  apply (legacy_irq_reaches_handler demo_run 9 77 0 demo_ints demo_apic); [lia|reflexivity|reflexivity|].
  split; cbn; lia || reflexivity.
Defined.
