(* ===== verification/Pci.v ===== *)
(** * PCI (src/kernel/drivers/pci/pci.c, pci.h)

    The configuration space of the functions on the PCI buses, reached through
    the memory windows the firmware's MCFG table names or through two ports; the
    scan of the buses; the sizes of the base address registers; the mapping of
    device memory; interrupts.

    [PciHw] are the accesses to ports and to device memory, of a width in bytes.
    Reading does not change the device.  The list of the devices is the linked
    list of the code; a function on a device returns it changed.

    The scan calls itself for the bus behind a bridge, without a bound: [fuel]
    bounds the depth.  Storing behind the six base address registers has no
    result. *)

From S2P Require Import Prelude Bytes StateMonad PhysMem Pmm Vmm Acpi Interrupts.
#[local] Open Scope Z_scope.

Class PciHw (X : Type) := {
  port_read : Z -> Z -> X -> Z;
  port_write : Z -> Z -> Z -> X -> X;
  mem_read : Z -> Z -> X -> Z;
  mem_write : Z -> Z -> Z -> X -> X
}.
#[export] Instance pci_mmio {X} `{!PciHw X} : Mmio X := {
  mmio_read32 a x := mem_read 4 a x;
  mmio_write32 a v x := mem_write 4 a v x
}.

(** ** Constants *)
Definition PCI_REG_VENDOR_ID : Z := 0x00.
Definition PCI_REG_COMMAND : Z := 0x04.
Definition PCI_REG_STATUS : Z := 0x06.
Definition PCI_REG_REVISION_ID : Z := 0x08.
Definition PCI_REG_CACHE_LINE : Z := 0x0C.
Definition PCI_REG_BAR0 : Z := 0x10.
Definition PCI_REG_SUBSYS_VENDOR : Z := 0x2C.
Definition PCI_REG_CAPABILITIES : Z := 0x34.
Definition PCI_REG_INTERRUPT_LINE : Z := 0x3C.
Definition PCI_REG_INTERRUPT_PIN : Z := 0x3D.
Definition PCI_CMD_MEM_SPACE : Z := Z.shiftl 1 1.
Definition PCI_CMD_BUS_MASTER : Z := Z.shiftl 1 2.
Definition PCI_CMD_INT_DISABLE : Z := Z.shiftl 1 10.
Definition PCI_CAP_MSI : Z := 0x05.
Definition PCI_CAP_MSIX : Z := 0x11.
Definition PCI_MSI_CTRL_ENABLE : Z := Z.shiftl 1 0.
Definition PCI_MSI_CTRL_64BIT : Z := Z.shiftl 1 7.
Definition PCI_MSIX_CTRL_ENABLE : Z := Z.shiftl 1 15.
Definition PCI_MSIX_CTRL_MASK_ALL : Z := Z.shiftl 1 14.
Definition PCI_MSIX_CTRL_TABLE_SZ : Z := 0x07FF.
Definition PCI_BAR_TYPE_IO : Z := 0x01.
Definition PCI_BAR_TYPE_MEM_MASK : Z := 0x06.
Definition PCI_BAR_TYPE_MEM64 : Z := 0x04.
Definition PCI_BAR_PREFETCHABLE : Z := 0x08.
Definition PCI_MAX_BARS : Z := 6.
Definition PCI_MSIX_MAX_VECTORS : Z := 2048.
Definition PCI_CONFIG_ADDRESS : Z := 0xCF8.
Definition PCI_CONFIG_DATA : Z := 0xCFC.
Definition MAX_MCFG_ENTRIES : Z := 16.
Definition sizeof_mcfg_table : Z := 44.
Definition sizeof_mcfg_entry : Z := 16.
Definition MCFG : list Z := [0x4D; 0x43; 0x46; 0x47].
Definition PAGE_WRITETHROUGH : Z := 2 ^ 3.
Definition PCI_MMIO_VIRT_BASE : Z := 0xFFFFFF7F00000000.
Definition PCI_MMIO_VIRT_SIZE : Z := 0x100000000.

(** ** Data *)

Inductive pci_irq_mode_t := PCI_IRQ_NONE | PCI_IRQ_INTX | PCI_IRQ_MSI | PCI_IRQ_MSIX.

Record pci_bar_t := mkBar {
  phys_base : Z; bar_virt_base : Z; size : Z; is_io : bool; is_64bit : bool; prefetchable : bool
}.
Definition no_bar : pci_bar_t := mkBar 0 0 0 false false false.

Record pci_device_t := mkPci {
  segment : Z; bus : Z; slot : Z; function : Z;
  vendor_id : Z; device_id : Z; class_code : Z; subclass : Z; prog_if : Z; revision : Z; header_type : Z;
  subsys_vendor_id : Z; subsys_id : Z;
  bars : list pci_bar_t;
  irq_mode : pci_irq_mode_t; irq_vector : Z; msi_cap_off : Z; msix_cap_off : Z;
  msix_table : Z; msix_table_size : Z
}.

(** An entry of [g_ecam_entries]; the list is the first [g_ecam_count]. *)
Record ecam := mkEcam { base : Z; seg : Z; start_bus : Z; end_bus : Z }.

(** The static variables, the physical memory and the interrupts; [kmallocs]
    counts the allocations. *)
Record pci_state (Hd X : Type) := mkPciState {
  g_ecam_entries : list ecam;
  g_device_list : list pci_device_t;
  g_pci_initialised : bool;
  g_mmio_virt_bump : Z;
  kmallocs : nat;
  mach : machine;
  ints : interrupts Hd X
}.
Arguments mkPciState {Hd X}. Arguments g_ecam_entries {Hd X}. Arguments g_device_list {Hd X}.
Arguments g_pci_initialised {Hd X}. Arguments g_mmio_virt_bump {Hd X}. Arguments kmallocs {Hd X}.
Arguments mach {Hd X}. Arguments ints {Hd X}.

Definition testb (v m : Z) : bool := negb (Z.land v m =? 0).

Section pci.
Context {Hd X : Type} `{!PciHw X} `{BootInfo} (kernel_space : address_space) (lapic_id : Z) (kmalloc_ok : nat -> bool).
#[local] Abbreviation S := (pci_state Hd X).

Definition the_hw (s : S) : X := hw (ints s).
Definition on_ints (f : interrupts Hd X -> interrupts Hd X) (s : S) : S :=
  mkPciState (g_ecam_entries s) (g_device_list s) (g_pci_initialised s) (g_mmio_virt_bump s) (kmallocs s) (mach s) (f (ints s)).
Definition on_hw (f : X -> X) (s : S) : S := on_ints (fun i => set_hw (f (hw i)) i) s.
Definition set_ecams (l : list ecam) (s : S) : S :=
  mkPciState l (g_device_list s) (g_pci_initialised s) (g_mmio_virt_bump s) (kmallocs s) (mach s) (ints s).
Definition add_device (d : pci_device_t) (s : S) : S :=
  mkPciState (g_ecam_entries s) (d :: g_device_list s) (g_pci_initialised s) (g_mmio_virt_bump s) (kmallocs s) (mach s) (ints s).
Definition set_initialised (s : S) : S :=
  mkPciState (g_ecam_entries s) (g_device_list s) true (g_mmio_virt_bump s) (kmallocs s) (mach s) (ints s).
Definition set_mapping (bump : Z) (m : machine) (s : S) : S :=
  mkPciState (g_ecam_entries s) (g_device_list s) (g_pci_initialised s) bump (kmallocs s) m (ints s).
Definition count_kmalloc (s : S) : S :=
  mkPciState (g_ecam_entries s) (g_device_list s) (g_pci_initialised s) (g_mmio_virt_bump s) (Datatypes.S (kmallocs s)) (mach s) (ints s).

(** ** Configuration space *)

Definition covers (sg b : Z) (e : ecam) : bool :=
  (seg e =? sg) && (start_bus e <=? b) && (b <=? end_bus e).

Definition ecam_address (entries : list ecam) (sg b sl fn offset : Z) : Z :=
  match List.find (covers sg b) entries with
  | None => 0
  | Some e => u64 (base e + Z.shiftl (b - start_bus e) 20 + Z.shiftl sl 15 + Z.shiftl fn 12 + offset)
  end.

Definition legacy_config_addr (b sl fn offset : Z) : Z :=
  Z.lor (Z.lor (Z.lor (Z.lor (Z.shiftl 1 31) (Z.shiftl b 16)) (Z.shiftl sl 11)) (Z.shiftl fn 8)) (Z.land offset 0xFC).

Definition config_read32_raw (sg b sl fn off : Z) : M S Z :=
  let* a := gets (fun s => ecam_address (g_ecam_entries s) sg b sl fn (Z.land off 0xFFFC)) in
  if negb (a =? 0) then gets (fun s => mem_read 4 a (the_hw s))
  else
    do* modify (on_hw (port_write 4 PCI_CONFIG_ADDRESS (legacy_config_addr b sl fn (u8 off)))) in
    gets (fun s => port_read 4 PCI_CONFIG_DATA (the_hw s)).

Definition config_write32_raw (sg b sl fn off v : Z) : M S unit :=
  let* a := gets (fun s => ecam_address (g_ecam_entries s) sg b sl fn (Z.land off 0xFFFC)) in
  if negb (a =? 0) then modify (on_hw (mem_write 4 a v))
  else
    do* modify (on_hw (port_write 4 PCI_CONFIG_ADDRESS (legacy_config_addr b sl fn (u8 off)))) in
    modify (on_hw (port_write 4 PCI_CONFIG_DATA v)).

Definition pci_read_config32 (d : pci_device_t) (offset : Z) : M S Z :=
  config_read32_raw (segment d) (bus d) (slot d) (function d) offset.
Definition pci_read_config16 (d : pci_device_t) (offset : Z) : M S Z :=
  let* v := config_read32_raw (segment d) (bus d) (slot d) (function d) (Z.land offset 0xFFFC) in
  ret (u16 (Z.shiftr v (Z.land offset 2 * 8))).
Definition pci_read_config8 (d : pci_device_t) (offset : Z) : M S Z :=
  let* v := config_read32_raw (segment d) (bus d) (slot d) (function d) (Z.land offset 0xFFFC) in
  ret (u8 (Z.shiftr v (Z.land offset 3 * 8))).
Definition pci_write_config32 (d : pci_device_t) (offset v : Z) : M S unit :=
  config_write32_raw (segment d) (bus d) (slot d) (function d) offset v.

(** A narrow write is a read and a write of the whole word. *)
Definition merge (mask shift cur v : Z) : Z := Z.lor (Z.ldiff cur (Z.shiftl mask shift)) (Z.shiftl v shift).
Definition pci_write_config16 (d : pci_device_t) (offset v : Z) : M S unit :=
  let* cur := config_read32_raw (segment d) (bus d) (slot d) (function d) (Z.land offset 0xFFFC) in
  config_write32_raw (segment d) (bus d) (slot d) (function d) (Z.land offset 0xFFFC)
    (merge 0xFFFF (Z.land offset 2 * 8) cur v).
Definition pci_write_config8 (d : pci_device_t) (offset v : Z) : M S unit :=
  let* cur := config_read32_raw (segment d) (bus d) (slot d) (function d) (Z.land offset 0xFFFC) in
  config_write32_raw (segment d) (bus d) (slot d) (function d) (Z.land offset 0xFFFC)
    (merge 0xFF (Z.land offset 3 * 8) cur v).

Definition pci_get_command (d : pci_device_t) : M S Z := pci_read_config16 d PCI_REG_COMMAND.
Definition pci_set_command (d : pci_device_t) (cmd : Z) : M S unit := pci_write_config16 d PCI_REG_COMMAND cmd.
Definition change_command (d : pci_device_t) (f : Z -> Z) : M S unit :=
  let* cmd := pci_get_command d in pci_set_command d (f cmd).
Definition pci_enable_bus_mastering (d : pci_device_t) : M S unit :=
  change_command d (fun cmd => Z.lor cmd (Z.lor PCI_CMD_BUS_MASTER PCI_CMD_MEM_SPACE)).
Definition disable_intx (d : pci_device_t) : M S unit :=
  change_command d (fun cmd => Z.lor cmd PCI_CMD_INT_DISABLE).

(** ** Capabilities *)

Fixpoint find_cap_loop (d : pci_device_t) (cap_id : Z) (limit : nat) (ptr : Z) : M S Z :=
  match limit with
  | O => ret 0
  | Datatypes.S limit' =>
      if ptr =? 0 then ret 0
      else
        let* id := pci_read_config8 d ptr in
        let* next := pci_read_config8 d (ptr + 1) in
        if id =? cap_id then ret ptr else find_cap_loop d cap_id limit' (Z.land next 0xFC)
  end.
Definition pci_find_cap (d : pci_device_t) (cap_id : Z) : M S Z :=
  let* status := pci_read_config16 d PCI_REG_STATUS in
  if negb (testb status (Z.shiftl 1 4)) then ret 0
  else
    let* ptr := pci_read_config8 d PCI_REG_CAPABILITIES in
    find_cap_loop d cap_id 48 (Z.land ptr 0xFC).

(** ** Base address registers *)

(** [~sz + 1] *)
Definition size32 (sz : Z) : Z := u32 (Z.lnot sz + 1).
Definition size64 (sz : Z) : Z := u64 (Z.lnot sz + 1).
Definition without (v mask : Z) : Z := Z.ldiff v mask.

Definition bar_at (l : list pci_bar_t) (i : Z) : pci_bar_t := aget no_bar l i.
Definition put_bar (l : list pci_bar_t) (i : Z) (b : pci_bar_t) : M S (list pci_bar_t) :=
  if i <? PCI_MAX_BARS then ret (aset l i b) else diverge.

(** Write ones to a register, read back what sticks, restore it. *)
Definition probe_size (d : pci_device_t) (reg orig : Z) : M S Z :=
  do* pci_write_config32 d reg 0xFFFFFFFF in
  let* sz := pci_read_config32 d reg in
  do* pci_write_config32 d reg orig in ret sz.

(** Register [i]: what it describes, and whether it takes two places. *)
Definition probe_bar (d : pci_device_t) (l : list pci_bar_t) (i : Z) : M S (list pci_bar_t * Z) :=
  let reg := PCI_REG_BAR0 + i * 4 in
  let old := bar_at l i in
  let* orig := pci_read_config32 d reg in
  let io := testb orig PCI_BAR_TYPE_IO in
  if (orig =? 0) || (orig =? 0xFFFFFFFF) then
    let* l' := put_bar l i (mkBar (phys_base old) (bar_virt_base old) (size old) io false false) in ret (l', i + 1)
  else if io then
    let* sz := probe_size d reg orig in
    let* l' := put_bar l i (mkBar (without orig 3) (bar_virt_base old) (Z.land (size32 (without sz 3)) 0xFFFF) true false false) in
    ret (l', i + 1)
  else
    let pre := testb orig PCI_BAR_PREFETCHABLE in
    if Z.land orig PCI_BAR_TYPE_MEM_MASK =? PCI_BAR_TYPE_MEM64 then
      let* orig_hi := pci_read_config32 d (reg + 4) in
      do* pci_write_config32 d reg 0xFFFFFFFF in
      do* pci_write_config32 d (reg + 4) 0xFFFFFFFF in
      let* sz_lo := pci_read_config32 d reg in
      let* sz_hi := pci_read_config32 d (reg + 4) in
      do* pci_write_config32 d reg orig in
      do* pci_write_config32 d (reg + 4) orig_hi in
      let* l1 := put_bar l i (mkBar (Z.lor (without orig 0xF) (Z.shiftl orig_hi 32)) (bar_virt_base old)
                                (size64 (Z.lor (without sz_lo 0xF) (Z.shiftl sz_hi 32))) false true pre) in
      let next := bar_at l1 (i + 1) in
      let* l2 := put_bar l1 (i + 1) (mkBar 0 (bar_virt_base next) 0 (is_io next) (is_64bit next) (prefetchable next)) in
      ret (l2, i + 2)
    else
      let* sz := probe_size d reg orig in
      let* l' := put_bar l i (mkBar (without orig 0xF) (bar_virt_base old) (size32 (without sz 0xF)) false false pre) in
      ret (l', i + 1).

(** At most six registers: [n] bounds the rounds. *)
Fixpoint probe_bars (d : pci_device_t) (bar_count : Z) (n : nat) (l : list pci_bar_t) (i : Z) : M S (list pci_bar_t) :=
  if i <? bar_count then
    match n with
    | O => diverge
    | Datatypes.S n' => let* r := probe_bar d l i in probe_bars d bar_count n' r.1 r.2
    end
  else ret l.

Definition with_bars (l : list pci_bar_t) (d : pci_device_t) : pci_device_t :=
  mkPci (segment d) (bus d) (slot d) (function d) (vendor_id d) (device_id d) (class_code d) (subclass d)
    (prog_if d) (revision d) (header_type d) (subsys_vendor_id d) (subsys_id d) l (irq_mode d) (irq_vector d)
    (msi_cap_off d) (msix_cap_off d) (msix_table d) (msix_table_size d).
Definition with_irq (mode : pci_irq_mode_t) (vector msi msix table table_size : Z) (d : pci_device_t) : pci_device_t :=
  mkPci (segment d) (bus d) (slot d) (function d) (vendor_id d) (device_id d) (class_code d) (subclass d)
    (prog_if d) (revision d) (header_type d) (subsys_vendor_id d) (subsys_id d) (bars d) mode vector
    msi msix table table_size.

Definition pci_probe_bars (d : pci_device_t) : M S pci_device_t :=
  let* l := probe_bars d (if header_type d =? 0 then 6 else 2) 6 (bars d) 0 in ret (with_bars l d).

(** ** Device memory *)

Definition pci_mmio_map_impl (phys sz : Z) : M S Z :=
  if sz =? 0 then ret 0
  else
    let phys_aligned := Z.land phys PAGE_MASK in
    let page_offset := phys - phys_aligned in
    let size_aligned := Z.land (u64 (sz + page_offset + PAGE_SIZE - 1)) PAGE_MASK in
    let* virt := gets g_mmio_virt_bump in
    if PCI_MMIO_VIRT_BASE + PCI_MMIO_VIRT_SIZE <? u64 (virt + size_aligned) then ret 0
    else
      let flags := Z.lor (Z.lor (Z.lor (Z.lor PAGE_PRESENT PAGE_WRITE) PAGE_NOCACHE) PAGE_WRITETHROUGH) PAGE_NX in
      let* r := gets (fun s => vmm_map_range kernel_space AS_KERNEL virt phys_aligned (size_aligned / PAGE_SIZE) flags (mach s)) in
      if snd r then
        do* modify (set_mapping (u64 (virt + size_aligned)) (fst r)) in ret (u64 (virt + page_offset))
      else do* modify (set_mapping virt (fst r)) in ret 0.

Definition with_virt (v : Z) (b : pci_bar_t) : pci_bar_t :=
  mkBar (phys_base b) v (size b) (is_io b) (is_64bit b) (prefetchable b).

Definition pci_map_bar (d : pci_device_t) (index : Z) : M S (pci_device_t * Z) :=
  let bar := bar_at (bars d) index in
  if PCI_MAX_BARS <=? index then diverge
  else if is_io bar || (size bar =? 0) then ret (d, 0)
  else if negb (bar_virt_base bar =? 0) then ret (d, bar_virt_base bar)
  else
    let* virt := pci_mmio_map_impl (phys_base bar) (size bar) in
    ret (with_bars (aset (bars d) index (with_virt virt bar)) d, virt).

(** Accesses to the registers of a device, of a width in bytes. *)
Definition pci_io_read (width : Z) (d : pci_device_t) (bar offset : Z) : M S Z :=
  gets (fun s => port_read width (u16 (phys_base (bar_at (bars d) bar) + offset)) (the_hw s)).
Definition pci_io_write (width : Z) (d : pci_device_t) (bar offset v : Z) : M S unit :=
  modify (on_hw (port_write width (u16 (phys_base (bar_at (bars d) bar) + offset)) v)).
Definition pci_mmio_read (width : Z) (d : pci_device_t) (bar offset : Z) : M S Z :=
  gets (fun s => mem_read width (u64 (bar_virt_base (bar_at (bars d) bar) + offset)) (the_hw s)).
Definition pci_mmio_write (width : Z) (d : pci_device_t) (bar offset v : Z) : M S unit :=
  modify (on_hw (mem_write width (u64 (bar_virt_base (bar_at (bars d) bar) + offset)) v)).

(** ** Interrupts *)

Definition alloc_vector : M S Z :=
  let* r := gets (fun s => x86_64_IRQ_AllocVector (ints s)) in
  do* modify (on_ints (fun _ => fst r)) in ret (snd r).

(** The result: the device and the vector, or -1. *)
Definition pci_enable_intx (d : pci_device_t) (handler : Hd) : M S (pci_device_t * Z) :=
  let* irq_pin := pci_read_config8 d PCI_REG_INTERRUPT_PIN in
  let* irq_line := pci_read_config8 d PCI_REG_INTERRUPT_LINE in
  if (irq_pin =? 0) || (irq_line =? 0xFF) then ret (d, -1)
  else
    do* change_command d (fun cmd => u16 (without cmd PCI_CMD_INT_DISABLE)) in
    let* vector := alloc_vector in
    if vector =? 0 then ret (d, -1)
    else
      do* modify (on_ints (x86_64_IRQ_RegisterGSI lapic_id irq_line vector handler)) in
      ret (with_irq PCI_IRQ_INTX vector (msi_cap_off d) (msix_cap_off d) (msix_table d) (msix_table_size d) d, vector).

Definition with_msi (cap : Z) (d : pci_device_t) : pci_device_t :=
  with_irq (irq_mode d) (irq_vector d) cap (msix_cap_off d) (msix_table d) (msix_table_size d) d.
Definition with_msix (cap table table_size : Z) (d : pci_device_t) : pci_device_t :=
  with_irq (irq_mode d) (irq_vector d) (msi_cap_off d) cap table table_size d.
Definition with_mode (mode : pci_irq_mode_t) (vector : Z) (d : pci_device_t) : pci_device_t :=
  with_irq mode vector (msi_cap_off d) (msix_cap_off d) (msix_table d) (msix_table_size d) d.

Definition pci_enable_msi (d : pci_device_t) (vector : Z) (handler : Hd) : M S (pci_device_t * Z) :=
  let* cap := pci_find_cap d PCI_CAP_MSI in
  if cap =? 0 then ret (d, -1)
  else
    let d := with_msi cap d in
    let* vec := (if vector =? 0 then alloc_vector else ret (u8 vector)) in
    if vec =? 0 then ret (d, -1)
    else
      let* ctrl := pci_read_config16 d (cap + 2) in
      do* disable_intx d in
      do* pci_write_config32 d (cap + 4) 0xFEE00000 in
      do* (if testb ctrl PCI_MSI_CTRL_64BIT then
             do* pci_write_config32 d (cap + 8) 0 in pci_write_config16 d (cap + 12) (Z.land vec 0xFF)
           else pci_write_config16 d (cap + 8) (Z.land vec 0xFF)) in
      do* pci_write_config16 d (cap + 2) (u16 (Z.lor (without ctrl (Z.shiftl 7 4)) PCI_MSI_CTRL_ENABLE)) in
      do* modify (on_ints (x86_64_IRQ_RegisterVector vec handler)) in
      ret (with_mode PCI_IRQ_MSI vec d, 0).

(** The entries of the table, a word each at [table + 4 * k]. *)
Definition write_msix (table k v : Z) : M S unit := modify (on_hw (mem_write 4 (table + 4 * k) v)).

Fixpoint msix_entries (table vector_base : Z) (handlers : list Hd) (count : nat) (i : Z) : M S bool :=
  match count with
  | O => ret true
  | Datatypes.S n =>
      let* vec := (if vector_base =? 0 then alloc_vector else ret (u8 (vector_base + i))) in
      if vec =? 0 then ret false
      else
        do* write_msix table (i * 4) 0xFEE00000 in
        do* write_msix table (i * 4 + 1) 0 in
        do* write_msix table (i * 4 + 2) (Z.land vec 0xFF) in
        let* ctl := gets (fun s => mem_read 4 (table + 4 * (i * 4 + 3)) (the_hw s)) in
        do* write_msix table (i * 4 + 3) (without ctl 1) in
        match handlers with
        | [] => diverge
        | h :: handlers' =>
            do* modify (on_ints (x86_64_IRQ_RegisterVector vec h)) in
            msix_entries table vector_base handlers' n (i + 1)
        end
  end.

Definition pci_enable_msix (d : pci_device_t) (vector_base : Z) (handlers : list Hd) (count : Z) : M S (pci_device_t * Z) :=
  let* cap := pci_find_cap d PCI_CAP_MSIX in
  if cap =? 0 then ret (d, -1)
  else
    let d := with_msix cap (msix_table d) (msix_table_size d) d in
    let* ctrl := pci_read_config16 d (cap + 2) in
    let table_sz := Z.land ctrl PCI_MSIX_CTRL_TABLE_SZ + 1 in
    let count := Z.min count table_sz in
    if PCI_MSIX_MAX_VECTORS <? count then ret (d, -1)
    else
      let* table_info := pci_read_config32 d (cap + 4) in
      let bir := Z.land table_info 7 in
      let* r := (if PCI_MAX_BARS <=? bir then diverge
                 else if bar_virt_base (bar_at (bars d) bir) =? 0 then pci_map_bar d bir
                 else ret (d, 1)) in
      if r.2 =? 0 then ret (r.1, -1)
      else
        let table := u64 (bar_virt_base (bar_at (bars r.1) bir) + without table_info 7) in
        let d := with_msix cap table table_sz r.1 in
        let ctrl := Z.lor ctrl (Z.lor PCI_MSIX_CTRL_MASK_ALL PCI_MSIX_CTRL_ENABLE) in
        do* pci_write_config16 d (cap + 2) ctrl in
        do* disable_intx d in
        let* ok := msix_entries table vector_base handlers (Z.to_nat count) 0 in
        if negb ok then ret (d, -1)
        else
          do* pci_write_config16 d (cap + 2) (u16 (without ctrl PCI_MSIX_CTRL_MASK_ALL)) in
          let* next := gets (fun s => get_next_vector (ints s)) in
          ret (with_mode PCI_IRQ_MSIX (if vector_base =? 0 then next - count else vector_base) d, 0).

Definition pci_disable_irq (d : pci_device_t) : M S pci_device_t :=
  do* disable_intx d in
  do* (if msi_cap_off d =? 0 then ret tt
       else
         let* ctrl := pci_read_config16 d (msi_cap_off d + 2) in
         pci_write_config16 d (msi_cap_off d + 2) (u16 (without ctrl PCI_MSI_CTRL_ENABLE))) in
  do* (if msix_cap_off d =? 0 then ret tt
       else
         let* ctrl := pci_read_config16 d (msix_cap_off d + 2) in
         pci_write_config16 d (msix_cap_off d + 2)
           (u16 (Z.lor (without ctrl PCI_MSIX_CTRL_ENABLE) PCI_MSIX_CTRL_MASK_ALL))) in
  ret (with_mode PCI_IRQ_NONE (-1) d).

(** ** The scan *)

Definition probe_function (sg b sl fn : Z) : M S (option pci_device_t) :=
  let* id_reg := config_read32_raw sg b sl fn PCI_REG_VENDOR_ID in
  if Z.land id_reg 0xFFFF =? 0xFFFF then ret None
  else
    let* ok := gets (fun s => kmalloc_ok (kmallocs s)) in
    do* modify count_kmalloc in
    if negb ok then ret None
    else
      let* class_reg := config_read32_raw sg b sl fn PCI_REG_REVISION_ID in
      let* hdr := config_read32_raw sg b sl fn PCI_REG_CACHE_LINE in
      let* sub_reg := config_read32_raw sg b sl fn PCI_REG_SUBSYS_VENDOR in
      let d := mkPci sg b sl fn (Z.land id_reg 0xFFFF) (u16 (Z.shiftr id_reg 16))
                 (u8 (Z.shiftr class_reg 24)) (u8 (Z.shiftr class_reg 16)) (u8 (Z.shiftr class_reg 8)) (u8 class_reg)
                 (u8 (Z.land (Z.shiftr hdr 16) 0x7F))
                 (Z.land sub_reg 0xFFFF) (u16 (Z.shiftr sub_reg 16))
                 (replicate 6 no_bar) PCI_IRQ_NONE (-1) 0 0 0 0 in
      let* msi := pci_find_cap d PCI_CAP_MSI in
      let d := with_msi msi d in
      let* msix := pci_find_cap d PCI_CAP_MSIX in
      let d := with_msix msix 0 0 d in
      let* d := pci_probe_bars d in ret (Some d).

(** Functions 1 to 7 of a device. *)
Fixpoint scan_functions (sg b sl fn : Z) (n : nat) : M S unit :=
  match n with
  | O => ret tt
  | Datatypes.S n' =>
      let* r := probe_function sg b sl fn in
      do* (match r with Some d => modify (add_device d) | None => ret tt end) in
      scan_functions sg b sl (fn + 1) n'
  end.

(** One slot; [scan_secondary] scans the bus behind a bridge. *)
Definition scan_slot (scan_secondary : Z -> Z -> M S unit) (sg b sl : Z) : M S unit :=
  let* id := config_read32_raw sg b sl 0 PCI_REG_VENDOR_ID in
  if Z.land id 0xFFFF =? 0xFFFF then ret tt
  else
    let* r := probe_function sg b sl 0 in
    match r with
    | None => ret tt
    | Some d =>
        do* modify (add_device d) in
        do* (if Z.land (header_type d) 0x7F =? 1 then
               let* secondary_bus := pci_read_config8 d 0x19 in scan_secondary sg secondary_bus
             else ret tt) in
        if testb (header_type d) 0x80 then scan_functions sg b sl 1 7 else ret tt
    end.

Fixpoint scan_slots (scan_secondary : Z -> Z -> M S unit) (sg b sl : Z) (n : nat) : M S unit :=
  match n with
  | O => ret tt
  | Datatypes.S n' => do* scan_slot scan_secondary sg b sl in scan_slots scan_secondary sg b (sl + 1) n'
  end.

Fixpoint scan_bus (fuel : nat) (sg b : Z) : M S unit :=
  match fuel with
  | O => diverge
  | Datatypes.S fuel' => scan_slots (scan_bus fuel') sg b 0 32
  end.

Fixpoint scan_buses (fuel : nat) (sg b : Z) (n : nat) : M S unit :=
  match n with
  | O => ret tt
  | Datatypes.S n' => do* scan_bus fuel sg (u8 b) in scan_buses fuel sg (b + 1) n'
  end.

(** ** Initialisation *)

(** The windows of the MCFG table at [mcfg]. *)
Definition mcfg_windows (mem : Z -> Z) (mcfg : Z) : list ecam :=
  if sdt_Length mem mcfg <? sizeof_mcfg_table then []
  else
    let entry_count := (sdt_Length mem mcfg - sizeof_mcfg_table) / sizeof_mcfg_entry in
    map (fun i : Z =>
      let e := mcfg + sizeof_mcfg_table + i * sizeof_mcfg_entry in
      mkEcam (mem64 mem e) (mem16 mem (e + 8)) (mem (e + 10)) (mem (e + 11)))
      (seqZ 0 (Z.min entry_count MAX_MCFG_ENTRIES)).

(** Each window is mapped, then its buses are scanned. *)
Fixpoint scan_windows (fuel : nat) (i : Z) (n : nat) : M S unit :=
  match n with
  | O => ret tt
  | Datatypes.S n' =>
      let* e := gets (fun s => aget (mkEcam 0 0 0 0) (g_ecam_entries s) i) in
      let* virt := pci_mmio_map_impl (base e) (u64 (Z.shiftl (end_bus e - start_bus e + 1) 20)) in
      do* (if virt =? 0 then ret tt
           else modify (fun s => set_ecams (aset (g_ecam_entries s) i (mkEcam virt (seg e) (start_bus e) (end_bus e))) s)) in
      do* scan_buses fuel (seg e) (start_bus e) (Z.to_nat (end_bus e - start_bus e + 1)) in
      scan_windows fuel (i + 1) n'
  end.

Definition pci_init (fuel : nat) (mem : Z -> Z) (acpi : acpi_state) : M S unit :=
  let* again := gets g_pci_initialised in
  if again then ret tt
  else
    do* modify set_initialised in
    let mcfg := acpi_find_table mem MCFG acpi in
    do* (if mcfg =? 0 then ret tt else modify (fun s => set_ecams (g_ecam_entries s ++ mcfg_windows mem mcfg) s)) in
    let* n := gets (fun s => length (g_ecam_entries s)) in
    if (0 <? n)%nat then scan_windows fuel 0 n else scan_buses fuel 0 0 256.

Definition pci_get_devices (s : S) : list pci_device_t := g_device_list s.
Definition pci_find_device (vendor device : Z) (s : S) : option pci_device_t :=
  List.find (fun d => ((vendor =? 0xFFFF) || (vendor_id d =? vendor)) && ((device =? 0xFFFF) || (device_id d =? device)))
    (g_device_list s).
Definition pci_find_device_by_class (class sub : Z) (s : S) : option pci_device_t :=
  List.find (fun d => ((class =? 0xFF) || (class_code d =? class)) && ((sub =? 0xFF) || (subclass d =? sub)))
    (g_device_list s).
End pci.
