(* ===== verification/PciFacts.v ===== *)
(** * PCI: what the driver finds

    A configuration space as the PCI specification has it, reached through the
    two ports or through a memory window; the proof that the driver finds the
    base address registers and the capabilities that are there, and leaves the
    registers as they were; and the functions the scan does not find. *)

From S2P Require Import Prelude Bytes StateMonad PhysMem Pmm Vmm Acpi Interrupts Pci.
#[local] Open Scope Z_scope.

(** ** Arithmetic of the registers *)

Lemma lor_field a n c : 0 <= n -> 0 <= c < 2 ^ n -> Z.lor (a * 2 ^ n) c = a * 2 ^ n + c.
Proof.
  intros Hn Hc. apply lor_disjoint_add, Z.bits_inj'. intros i Hi. rewrite Z.bits_0, Z.land_spec.
  destruct (Z.ltb_spec i n).
  - by rewrite Z.mul_pow2_bits_low by lia.
  - rewrite (testbit_high n c i) by lia. apply andb_false_r.
Qed.

(** The bits above [k] of 32. *)
Definition high (k : Z) : Z := 2 ^ 32 - 2 ^ k.

Lemma testbit_high_mask k i : 0 <= k <= 32 -> 0 <= i -> Z.testbit (high k) i = (k <=? i) && (i <? 32).
Proof.
  intros Hk Hi. unfold high.
  replace (2 ^ 32 - 2 ^ k) with (Z.shiftl (Z.ones (32 - k)) k).
  - rewrite Z.shiftl_spec by lia. destruct (Z.leb_spec k i); simpl.
    + rewrite Z.testbit_ones by lia. case_bools; lia.
    + apply Z.testbit_neg_r. lia.
  - rewrite Z.shiftl_mul_pow2, Z.ones_equiv, <- Z.sub_1_r, Z.mul_sub_distr_r, <- Z.pow_add_r by lia.
    f_equal; [f_equal|]; lia.
Qed.

Lemma ldiff_low x n : 0 <= n -> Z.ldiff x (2 ^ n - 1) = x - x mod 2 ^ n.
Proof.
  intros Hn. replace (2 ^ n - 1) with (Z.ones n) by (rewrite Z.ones_equiv; lia).
  by rewrite Z.ldiff_land, land_lnot_ones.
Qed.

(** What is left of a register of which the bits above [k] can be written. *)
Lemma masked_write x v k : 0 <= k <= 32 -> 0 <= x < 2 ^ 32 -> 0 <= v < 2 ^ 32 ->
  Z.lor (Z.land x (high k)) (Z.ldiff v (high k)) = x - x mod 2 ^ k + v mod 2 ^ k.
Proof.
  intros Hk Hx Hv. assert (0 < 2 ^ k) by lia.
  assert (E : x - x mod 2 ^ k = x / 2 ^ k * 2 ^ k) by (pose proof (Z.div_mod x (2 ^ k)); lia).
  rewrite E, <- lor_field by (pose proof (Z.mod_pos_bound v (2 ^ k)); lia).
  apply Z.bits_inj'. intros i Hi. bits_simpl. rewrite testbit_high_mask by lia.
  destruct (Z.ltb_spec i k).
  - rewrite Z.mul_pow2_bits_low, Z.mod_pow2_bits_low by lia. case_bools; try lia. by rewrite andb_false_r, andb_true_r.
  - rewrite Z.mul_pow2_bits, Z.div_pow2_bits, Z.mod_pow2_bits_high by lia. replace (i - k + k) with i by lia.
    destruct (Z.ltb_spec i 32).
    + destruct (Z.leb_spec k i); [|lia]. simpl. by rewrite andb_false_r, andb_true_r.
    + rewrite (testbit_high 32 x i), (testbit_high 32 v i) by lia. done.
Qed.
Lemma high_ones k : 0 <= k <= 32 -> (2 ^ 32 - 1) - (2 ^ 32 - 1) mod 2 ^ k = high k.
Proof.
  intros Hk. unfold high. assert (E : 2 ^ 32 = 2 ^ (32 - k) * 2 ^ k) by (rewrite <- Z.pow_add_r by lia; f_equal; lia).
  rewrite E. replace (2 ^ (32 - k) * 2 ^ k - 1) with (2 ^ k - 1 + (2 ^ (32 - k) - 1) * 2 ^ k) at 2 by lia.
  rewrite Z.mod_add, Z.mod_small by lia. lia.
Qed.

(** The low bits of a register decide. *)
Lemma land_low x m j : 0 <= j -> 0 <= m < 2 ^ j -> Z.land x m = Z.land (x mod 2 ^ j) m.
Proof.
  intros Hj Hm. apply Z.bits_inj'. intros i Hi. rewrite !Z.land_spec.
  destruct (Z.ltb_spec i j).
  - by rewrite Z.mod_pow2_bits_low by lia.
  - rewrite (testbit_high j m i) by lia. by rewrite !andb_false_r.
Qed.

(** ** What a device can have behind its base address registers

    Of size [2 ^ k], at [b], a multiple of it. *)
Inductive resource :=
  | Absent
  | Io (k b : Z)
  | Mem32 (k b : Z) (pre : bool)
  | Mem64 (k b : Z) (pre : bool).

Definition pre_bit (pre : bool) : Z := if pre then 8 else 0.

(** The registers of a resource: what each holds, and above which bit it can be
    written. *)
Definition words (r : resource) : list (Z * Z) :=
  match r with
  | Absent => [(0, 32)]
  | Io k b => [(b + 1, k)]
  | Mem32 k b pre => [(b + pre_bit pre, k)]
  | Mem64 k b pre => [(b mod 2 ^ 32 + (4 + pre_bit pre), Z.min k 32); (b / 2 ^ 32, Z.max 0 (k - 32))]
  end.
Definition resource_ok (r : resource) : Prop :=
  match r with
  | Absent => True
  | Io k b => 2 <= k < 16 /\ (2 ^ k | b) /\ 0 <= b < 2 ^ 32
  | Mem32 k b pre => 4 <= k < 32 /\ (2 ^ k | b) /\ 0 <= b < 2 ^ 32 /\ 0 < b + pre_bit pre
  | Mem64 k b _ => 4 <= k < 64 /\ (2 ^ k | b) /\ 0 <= b < 2 ^ 64
  end.
(** What the driver is to find. *)
Definition found (r : resource) : list pci_bar_t :=
  match r with
  | Absent => [no_bar]
  | Io k b => [mkBar b 0 (2 ^ k) true false false]
  | Mem32 k b pre => [mkBar b 0 (2 ^ k) false false pre]
  | Mem64 k b pre => [mkBar b 0 (2 ^ k) false true pre; no_bar]
  end.

(** A register of which the low bits, [c], are the type: [b] is at [2 ^ n]. *)
Lemma low_of b c j n : 0 <= j <= n -> (2 ^ n | b) -> 0 <= c < 2 ^ j -> (b + c) mod 2 ^ j = c /\ (b + c) mod 2 ^ n = c.
Proof.
  intros Hn [q ->] Hc. assert (E : 2 ^ n = 2 ^ (n - j) * 2 ^ j) by (rewrite <- Z.pow_add_r by lia; f_equal; lia).
  pose proof (Z.pow_le_mono_r 2 j n). split.
  - rewrite E, Z.mul_assoc, Z.add_comm, Z.mod_add by lia. apply Z.mod_small. lia.
  - rewrite Z.add_comm, Z.mod_add by lia. apply Z.mod_small. lia.
Qed.
Lemma without_low x n c : 0 <= n -> x mod 2 ^ n = c -> without x (2 ^ n - 1) = x - c.
Proof. intros Hn <-. by apply ldiff_low. Qed.

Lemma high_multiple k : 0 <= k <= 32 -> (2 ^ k | high k).
Proof.
  intros Hk. exists (2 ^ (32 - k) - 1). unfold high. rewrite Z.mul_sub_distr_r, <- Z.pow_add_r by lia.
  f_equal; [f_equal|]; lia.
Qed.
(** Masking the type away. *)
Lemma without_type b c j k : 0 <= j <= k -> (2 ^ k | b) -> 0 <= c < 2 ^ j -> without (b + c) (2 ^ j - 1) = b.
Proof.
  intros Hj Hb Hc. destruct (low_of b c j k Hj Hb Hc) as [E _]. rewrite (without_low _ j c) by (done || lia). lia.
Qed.
Lemma size32_high k : 0 <= k < 32 -> size32 (high k) = 2 ^ k.
Proof.
  intros Hk. unfold size32, high, u32, Z.lnot. pose proof (Z.pow_lt_mono_r 2 k 32 ltac:(lia) ltac:(lia) ltac:(lia)).
  replace (Z.pred (- (2 ^ 32 - 2 ^ k)) + 1) with (2 ^ k + -1 * 2 ^ 32) by lia.
  rewrite Z.mod_add, Z.mod_small by lia. done.
Qed.

Lemma lor_halves lo hi : 0 <= lo < 2 ^ 32 -> Z.lor lo (Z.shiftl hi 32) = lo + hi * 2 ^ 32.
Proof. intros Hlo. rewrite Z.lor_comm, Z.shiftl_mul_pow2, lor_field by lia. lia. Qed.
Lemma high_range k : 0 <= k <= 32 -> 0 <= high k < 2 ^ 32.
Proof. intros Hk. unfold high. pose proof (Z.pow_le_mono_r 2 k 32). lia. Qed.
(** The two halves of a size of 64 bits. *)
Lemma high_halves k : 0 <= k < 64 -> high (Z.min k 32) + high (Z.max 0 (k - 32)) * 2 ^ 32 = 2 ^ 64 - 2 ^ k.
Proof.
  intros Hk. unfold high. destruct (Z.le_gt_cases k 32).
  - rewrite Z.min_l, Z.max_l by lia. change (2 ^ 0) with 1. lia.
  - rewrite Z.min_r, Z.max_r by lia. replace (2 ^ k) with (2 ^ (k - 32) * 2 ^ 32) by (rewrite <- Z.pow_add_r by lia; f_equal; lia). lia.
Qed.
Lemma size64_high k : 0 <= k < 64 -> size64 (2 ^ 64 - 2 ^ k) = 2 ^ k.
Proof.
  intros Hk. unfold size64, u64, Z.lnot. pose proof (Z.pow_lt_mono_r 2 k 64 ltac:(lia) ltac:(lia) ltac:(lia)).
  replace (Z.pred (- (2 ^ 64 - 2 ^ k)) + 1) with (2 ^ k + -1 * 2 ^ 64) by lia.
  rewrite Z.mod_add, Z.mod_small by lia. done.
Qed.
(** The halves of an address at [2 ^ k] are multiples too. *)
Lemma halves_multiple b k : 0 <= k < 64 -> (2 ^ k | b) ->
  (2 ^ Z.min k 32 | b mod 2 ^ 32) /\ (b / 2 ^ 32) mod 2 ^ Z.max 0 (k - 32) = 0.
Proof.
  intros Hk [q ->]. destruct (Z.le_gt_cases k 32).
  - rewrite Z.min_l, Z.max_l by lia. split; [|apply Z.mod_1_r].
    assert (E : 2 ^ 32 = 2 ^ (32 - k) * 2 ^ k) by (rewrite <- Z.pow_add_r by lia; f_equal; lia).
    rewrite E, Z.mul_mod_distr_r by lia. by exists (q mod 2 ^ (32 - k)).
  - rewrite Z.min_r, Z.max_r by lia.
    assert (E : 2 ^ k = 2 ^ (k - 32) * 2 ^ 32) by (rewrite <- Z.pow_add_r by lia; f_equal; lia).
    rewrite E, Z.mul_assoc, Z.mod_mul, Z.div_mul, Z.mod_mul by lia. split; [by exists 0|done].
Qed.

Lemma aset_app {A} (pre tl : list A) x y : aset (pre ++ x :: tl) (Z.of_nat (length pre)) y = pre ++ y :: tl.
Proof.
  unfold aset. destruct (Z.leb_spec 0 (Z.of_nat (length pre))); [|lia]. rewrite Nat2Z.id.
  rewrite insert_app_r_alt by lia. by rewrite Nat.sub_diag.
Qed.
Lemma aget_mid {A} (d : A) (pre tl : list A) x : aget d (pre ++ x :: tl) (Z.of_nat (length pre)) = x.
Proof.
  apply aget_lookup; [lia|]. rewrite Nat2Z.id, lookup_app_r by lia. by rewrite Nat.sub_diag.
Qed.

(** ** The configuration space

    [regs] are the registers there are, by their place in a memory window; of
    the register [k] the bits of [writable k] can be written. *)
Record bus_hw := mkBusHw { latch : Z; regs : gmap Z Z }.

Definition key (b sl fn off : Z) : Z := b * 2 ^ 20 + sl * 2 ^ 15 + fn * 2 ^ 12 + off.
Definition latch_key (l : Z) : Z := (l / 2 ^ 8) mod 2 ^ 16 * 2 ^ 12 + Z.land l 0xFC.

Section space.
Context (window : Z) (writable : Z -> Z).

Definition rd (m : gmap Z Z) (k : Z) : Z := default 0xFFFFFFFF (m !! k).
Definition store (k v : Z) (m : gmap Z Z) : gmap Z Z :=
  match m !! k with
  | Some old => <[k := Z.lor (Z.land v (writable k)) (Z.ldiff old (writable k))]> m
  | None => m
  end.
Definition in_window (w a : Z) : bool := (w =? 4) && (window <=? a) && (a <? window + 2 ^ 28).

#[export] Instance bus_ops : PciHw bus_hw := {
  port_read w p x := if (w =? 4) && (p =? PCI_CONFIG_DATA) then rd (regs x) (latch_key (latch x)) else 0;
  port_write w p v x :=
    if (w =? 4) && (p =? PCI_CONFIG_ADDRESS) then mkBusHw v (regs x)
    else if (w =? 4) && (p =? PCI_CONFIG_DATA) then mkBusHw (latch x) (store (latch_key (latch x)) v (regs x))
    else x;
  mem_read w a x := if in_window w a then rd (regs x) (a - window) else 0;
  mem_write w a v x := if in_window w a then mkBusHw (latch x) (store (a - window) v (regs x)) else x
}.

Context {Hd : Type}.
#[local] Abbreviation S := (pci_state Hd bus_hw).

(** The configuration space is reached through a window, or through the ports. *)
Definition reachable (s : S) : Prop :=
  g_ecam_entries s = [] \/
  g_ecam_entries s = [mkEcam window 0 0 255] /\ 0 < window /\ window + 2 ^ 28 <= 2 ^ 64.

Definition at_hw (s : S) (l : Z) (m : gmap Z Z) : S := on_hw (fun _ => mkBusHw l m) s.

(** From registers [m], [c] gives [a] and leaves the registers [m']; of the
    rest of the state it changes the latch only. *)
Definition does {A} (c : M S A) (s : S) (m : gmap Z Z) (a : A) (m' : gmap Z Z) : Prop :=
  forall l, exists l', c (at_hw s l m) = Some (a, at_hw s l' m').

Lemma does_ret {A} (a : A) s m : does (ret a) s m a m.
Proof. intros l. by exists l. Qed.
Lemma does_bind {A B} (c : M S A) (k : A -> M S B) s m a m' b m'' :
  does c s m a m' -> does (k a) s m' b m'' -> does (bind c k) s m b m''.
Proof. intros Hc Hk l. destruct (Hc l) as [l1 E1], (Hk l1) as [l2 E2]. exists l2. unfold bind. by rewrite E1. Qed.

Lemma legacy_key b sl fn off : 0 <= b < 256 -> 0 <= sl < 32 -> 0 <= fn < 8 -> 0 <= off < 256 ->
  latch_key (legacy_config_addr b sl fn (u8 off)) = key b sl fn (Z.land off 0xFFFC).
Proof.
  intros Hb Hs Hf Ho. rewrite u8_small by lia.
  assert (Hl : Z.land off 0xFFFC = Z.land off 0xFC).
  { rewrite <- (Z.mod_small off (2 ^ 8)) at 1 by lia. rewrite <- Z.land_ones by lia.
    by rewrite <- Z.land_assoc. }
  assert (Hr : 0 <= Z.land off 0xFC < 2 ^ 8) by (pose proof (land_range_r off 0xFC ltac:(lia)); lia).
  assert (E : legacy_config_addr b sl fn off = (2 ^ 23 + b * 2 ^ 8 + sl * 2 ^ 3 + fn) * 2 ^ 8 + Z.land off 0xFC).
  { unfold legacy_config_addr. rewrite !Z.shiftl_mul_pow2 by lia.
    rewrite (lor_field 1 31) by lia.
    replace (1 * 2 ^ 31 + b * 2 ^ 16) with ((2 ^ 15 + b) * 2 ^ 16) by lia. rewrite (lor_field _ 16) by lia.
    replace ((2 ^ 15 + b) * 2 ^ 16 + sl * 2 ^ 11) with ((2 ^ 20 + b * 2 ^ 5 + sl) * 2 ^ 11) by lia. rewrite (lor_field _ 11) by lia.
    replace ((2 ^ 20 + b * 2 ^ 5 + sl) * 2 ^ 11 + fn * 2 ^ 8) with ((2 ^ 23 + b * 2 ^ 8 + sl * 2 ^ 3 + fn) * 2 ^ 8) by lia.
    by rewrite lor_field. }
  unfold latch_key, key. rewrite Hl, E.
  rewrite Z.div_add_l, (Z.div_small (Z.land off 0xFC)) by lia.
  replace (2 ^ 23 + b * 2 ^ 8 + sl * 2 ^ 3 + fn + 0) with (b * 2 ^ 8 + sl * 2 ^ 3 + fn + 2 ^ 7 * 2 ^ 16) by lia.
  rewrite Z.mod_add, Z.mod_small, <- (lor_field _ 8 (Z.land off 0xFC)), Z.land_lor_distr_l by lia.
  replace (Z.land (_ * 2 ^ 8) 0xFC) with 0.
  - rewrite Z.lor_0_l, <- Z.land_assoc. change (Z.land 0xFC 0xFC) with 0xFC. lia.
  - symmetry. apply Z.bits_inj'. intros i Hi. rewrite Z.bits_0, Z.land_spec.
    destruct (Z.ltb_spec i 8); [by rewrite Z.mul_pow2_bits_low by lia|].
    rewrite (testbit_high 8 0xFC i) by lia. apply andb_false_r.
Qed.

(** ** One register of a function *)

Definition key_of (d : pci_device_t) (off : Z) : Z := key (bus d) (slot d) (function d) off.
Definition on_bus (d : pci_device_t) : Prop :=
  segment d = 0 /\ 0 <= bus d < 256 /\ 0 <= slot d < 32 /\ 0 <= function d < 8.

Lemma key_range b sl fn off : 0 <= b < 256 -> 0 <= sl < 32 -> 0 <= fn < 8 -> 0 <= off < 2 ^ 12 ->
  0 <= key b sl fn off < 2 ^ 28.
Proof. unfold key. lia. Qed.

(** Where the accesses go, by the port or by the window. *)
Lemma window_address s b sl fn off : reachable s -> 0 <= b < 256 -> 0 <= sl < 32 -> 0 <= fn < 8 -> 0 <= off < 2 ^ 12 ->
  ecam_address (g_ecam_entries s) 0 b sl fn off = 0 /\ g_ecam_entries s = [] \/
  ecam_address (g_ecam_entries s) 0 b sl fn off = window + key b sl fn off /\ 0 < window.
Proof.
  intros [E|(E & Hw & Hm)] Hb Hs Hf Ho; rewrite E; [by left|right]. unfold ecam_address, covers. simpl.
  destruct (Z.leb_spec 0 b), (Z.leb_spec b 255); try lia. simpl.
  pose proof (key_range b sl fn off Hb Hs Hf Ho) as Hk. unfold key in *. rewrite !Z.shiftl_mul_pow2, Z.sub_0_r by lia.
  split; [|done]. rewrite u64_small; lia.
Qed.

Lemma off_word off : 0 <= off < 256 -> 0 <= Z.land off 0xFFFC < 2 ^ 12.
Proof.
  intros Ho. rewrite Z.land_comm. pose proof (land_range_r 0xFFFC off ltac:(lia)). lia.
Qed.

Lemma raw_read s m b sl fn off : reachable s -> 0 <= b < 256 -> 0 <= sl < 32 -> 0 <= fn < 8 -> 0 <= off < 256 ->
  does (config_read32_raw 0 b sl fn off) s m (rd m (key b sl fn (Z.land off 0xFFFC))) m.
Proof.
  intros Hs Hb Hsl Hf Ho l. pose proof (off_word off Ho) as Hoff. unfold config_read32_raw, bind, gets.
  change (g_ecam_entries (at_hw s l m)) with (g_ecam_entries s).
  destruct (window_address s b sl fn (Z.land off 0xFFFC) Hs Hb Hsl Hf Hoff) as [[-> _]|[-> Hw]].
  - exists (legacy_config_addr b sl fn (u8 off)). simpl. by rewrite legacy_key.
  - pose proof (key_range b sl fn _ Hb Hsl Hf Hoff) as Hk. exists l.
    destruct (Z.eqb_spec (window + key b sl fn (Z.land off 0xFFFC)) 0) as [|_]; [lia|]. cbn -[key]. unfold in_window.
    destruct (Z.leb_spec window (window + key b sl fn (Z.land off 0xFFFC))); [|lia].
    destruct (Z.ltb_spec (window + key b sl fn (Z.land off 0xFFFC)) (window + 2 ^ 28)); [|lia].
    cbn -[key]. by rewrite Z.add_simpl_l.
Qed.

Lemma raw_write s m b sl fn off v : reachable s -> 0 <= b < 256 -> 0 <= sl < 32 -> 0 <= fn < 8 -> 0 <= off < 256 ->
  does (config_write32_raw 0 b sl fn off v) s m tt (store (key b sl fn (Z.land off 0xFFFC)) v m).
Proof.
  intros Hs Hb Hsl Hf Ho l. pose proof (off_word off Ho) as Hoff. unfold config_write32_raw, bind, gets.
  change (g_ecam_entries (at_hw s l m)) with (g_ecam_entries s).
  destruct (window_address s b sl fn (Z.land off 0xFFFC) Hs Hb Hsl Hf Hoff) as [[-> _]|[-> Hw]].
  - exists (legacy_config_addr b sl fn (u8 off)). simpl. unfold modify, at_hw, on_hw, on_ints. simpl. by rewrite legacy_key.
  - pose proof (key_range b sl fn _ Hb Hsl Hf Hoff) as Hk. exists l.
    destruct (Z.eqb_spec (window + key b sl fn (Z.land off 0xFFFC)) 0) as [|_]; [lia|].
    cbn -[key]. unfold modify, at_hw, on_hw, on_ints. cbn -[key]. unfold in_window.
    destruct (Z.leb_spec window (window + key b sl fn (Z.land off 0xFFFC))); [|lia].
    destruct (Z.ltb_spec (window + key b sl fn (Z.land off 0xFFFC)) (window + 2 ^ 28)); [|lia].
    cbn -[key]. by rewrite Z.add_simpl_l.
Qed.

(** The words of a function, at offsets that are multiples of four. *)
Section one_function.
Variables (s : S) (d : pci_device_t).
Hypotheses (Hs : reachable s) (Hbus : on_bus d).

Lemma read32 m off : 0 <= off < 256 -> Z.land off 0xFFFC = off -> does (pci_read_config32 d off) s m (rd m (key_of d off)) m.
Proof using Hs Hbus.
  intros Ho E. destruct Hbus as (Hsg & Hb & Hsl & Hf). unfold pci_read_config32, key_of. rewrite Hsg.
  pose proof (raw_read s m (bus d) (slot d) (function d) off Hs Hb Hsl Hf Ho) as P. by rewrite E in P.
Qed.
Lemma write32 m off v : 0 <= off < 256 -> Z.land off 0xFFFC = off ->
  does (pci_write_config32 d off v) s m tt (store (key_of d off) v m).
Proof using Hs Hbus.
  intros Ho E. destruct Hbus as (Hsg & Hb & Hsl & Hf). unfold pci_write_config32, key_of. rewrite Hsg.
  pose proof (raw_write s m (bus d) (slot d) (function d) off v Hs Hb Hsl Hf Ho) as P. by rewrite E in P.
Qed.

(** *** Base address registers *)

(** The register at [off] holds [v], and its bits above [k] can be written. *)
Definition holds (m : gmap Z Z) (off v k : Z) : Prop :=
  m !! key_of d off = Some v /\ writable (key_of d off) = high k /\ 0 <= k <= 32 /\ 0 <= v < 2 ^ 32.

Lemma rd_holds m off v k : holds m off v k -> rd m (key_of d off) = v.
Proof using Type. intros (E & _). unfold rd. by rewrite E. Qed.
Lemma store_holds m off v k x : holds m off v k -> 0 <= x < 2 ^ 32 ->
  store (key_of d off) x m = <[key_of d off := x - x mod 2 ^ k + v mod 2 ^ k]> m.
Proof using Type. intros (E & Hw & Hk & Hv) Hx. unfold store. by rewrite E, Hw, masked_write. Qed.

(** What a register shows after ones are written to it. *)
Definition shown (v k : Z) : Z := high k + v mod 2 ^ k.
Lemma store_ones m off v k : holds m off v k ->
  store (key_of d off) 0xFFFFFFFF m = <[key_of d off := shown v k]> m.
Proof using Type.
  intros Hh. rewrite (store_holds m off v k) by done. unfold shown.
  rewrite <- high_ones by (destruct Hh as (_ & _ & ? & _); done). done.
Qed.
Lemma shown_range v k : 0 <= k <= 32 -> 0 <= v < 2 ^ 32 -> 0 <= shown v k < 2 ^ 32.
Proof using Type.
  intros Hk Hv. unfold shown, high. pose proof (Z.mod_pos_bound v (2 ^ k) ltac:(lia)).
  pose proof (Z.pow_le_mono_r 2 k 32). lia.
Qed.
Lemma shown_low v k : 0 <= k <= 32 -> shown v k mod 2 ^ k = v mod 2 ^ k.
Proof using Type.
  intros Hk. unfold shown, high. assert (E : 2 ^ 32 = 2 ^ (32 - k) * 2 ^ k) by (rewrite <- Z.pow_add_r by lia; f_equal; lia).
  rewrite E. replace (2 ^ (32 - k) * 2 ^ k - 2 ^ k + v mod 2 ^ k) with (v mod 2 ^ k + (2 ^ (32 - k) - 1) * 2 ^ k) by lia.
  rewrite Z.mod_add, Z.mod_mod by lia. done.
Qed.
Lemma holds_insert m off v k x : holds m off v k -> 0 <= x < 2 ^ 32 -> holds (<[key_of d off := x]> m) off x k.
Proof using Type. intros (_ & Hw & Hk & _) Hx. split; [by rewrite lookup_insert_eq|done]. Qed.
Lemma holds_other m off v k off' x : off <> off' -> holds m off v k -> holds (<[key_of d off' := x]> m) off v k.
Proof using Type.
  intros Hne (E & Hw). split; [|done]. rewrite lookup_insert_ne; [done|]. unfold key_of, key. lia.
Qed.
(** Writing the old value back restores the register. *)
Lemma store_back m off v k : holds m off v k -> store (key_of d off) v (<[key_of d off := shown v k]> m) = m.
Proof using Type.
  intros Hh. destruct Hh as (E & Hw & Hk & Hv).
  rewrite (store_holds _ off (shown v k) k) by (try apply (holds_insert m off v); try done; by apply shown_range).
  rewrite shown_low by done. replace (v - v mod 2 ^ k + v mod 2 ^ k) with v by lia.
  rewrite insert_insert_eq. by rewrite insert_id.
Qed.

Lemma probe_size_does m off v k : 0 <= off < 256 -> Z.land off 0xFFFC = off -> holds m off v k ->
  does (probe_size d off v) s m (shown v k) m.
Proof using Hs Hbus.
  intros Ho Ha Hh. unfold probe_size. eapply does_bind; [by apply write32|]. rewrite (store_ones _ _ v k) by done.
  eapply does_bind; [by apply read32|]. eapply does_bind; [by apply write32|]. rewrite (store_back _ _ _ k) by done.
  unfold rd. rewrite lookup_insert_eq. apply does_ret.
Qed.
Definition bar_off (i : Z) : Z := PCI_REG_BAR0 + i * 4.
Lemma bar_off_word i : 0 <= i < 6 -> 0 <= bar_off i < 256 /\ Z.land (bar_off i) 0xFFFC = bar_off i.
Proof using Type.
  intros Hi. assert (i = 0 \/ i = 1 \/ i = 2 \/ i = 3 \/ i = 4 \/ i = 5) as Hc by lia.
  by destruct Hc as [-> | [-> | [-> | [-> | [-> | ->]]]]].
Qed.
Lemma read_bar m i v k : 0 <= i < 6 -> holds m (bar_off i) v k -> does (pci_read_config32 d (bar_off i)) s m v m.
Proof using Hs Hbus.
  intros Hi Hh. destruct (bar_off_word i Hi). rewrite <- (rd_holds m (bar_off i) v k) by done. by apply read32.
Qed.
Lemma ones_bar m i v k : 0 <= i < 6 -> holds m (bar_off i) v k ->
  does (pci_write_config32 d (bar_off i) 0xFFFFFFFF) s m tt (<[key_of d (bar_off i) := shown v k]> m).
Proof using Hs Hbus.
  intros Hi Hh. destruct (bar_off_word i Hi). rewrite <- (store_ones m (bar_off i) v k) by done. by apply write32.
Qed.
Lemma size_bar m i v k : 0 <= i < 6 -> holds m (bar_off i) v k -> does (probe_size d (bar_off i) v) s m (shown v k) m.
Proof using Hs Hbus. intros Hi Hh. destruct (bar_off_word i Hi). by apply probe_size_does. Qed.
Lemma put_does m pre x tl b : (length pre < 6)%nat ->
  does (put_bar (pre ++ x :: tl) (Z.of_nat (length pre)) b) s m (pre ++ b :: tl) m.
Proof using Type.
  intros Hl. unfold put_bar, PCI_MAX_BARS. destruct (Z.ltb_spec (Z.of_nat (length pre)) 6); [|lia].
  rewrite aset_app. apply does_ret.
Qed.
(** *** The kinds of registers *)

Definition laid (m : gmap Z Z) (i : Z) (r : resource) : Prop :=
  forall j w, words r !! j = Some w -> holds m (bar_off (i + Z.of_nat j)) w.1 w.2.

Lemma probe_absent m pre tl : (length pre < 6)%nat -> laid m (Z.of_nat (length pre)) Absent ->
  does (probe_bar d (pre ++ no_bar :: tl) (Z.of_nat (length pre))) s m (pre ++ no_bar :: tl, Z.of_nat (length pre) + 1) m.
Proof using Hs Hbus.
  intros Hl Hh. pose proof (Hh 0%nat _ eq_refl) as H0. rewrite Z.add_0_r in H0. unfold probe_bar, bar_at. rewrite aget_mid.
  eapply does_bind; [apply (read_bar m _ 0 32); [lia|done]|]. simpl.
  eapply does_bind; [by apply put_does|]. apply does_ret.
Qed.

Lemma probe_io m pre tl k b : (length pre < 6)%nat -> resource_ok (Io k b) -> laid m (Z.of_nat (length pre)) (Io k b) ->
  does (probe_bar d (pre ++ no_bar :: tl) (Z.of_nat (length pre))) s m
    (pre ++ mkBar b 0 (2 ^ k) true false false :: tl, Z.of_nat (length pre) + 1) m.
Proof using Hs Hbus.
  intros Hl (Hk & Hb & Hr) Hh. pose proof (Hh 0%nat _ eq_refl) as H0. rewrite Z.add_0_r in H0. simpl in H0.
  destruct (low_of b 1 2 k ltac:(lia) Hb ltac:(lia)) as [L2 Lk].
  unfold probe_bar, bar_at. rewrite aget_mid. eapply does_bind; [by apply (read_bar m _ _ k); [lia|]|].
  fold (bar_off (Z.of_nat (length pre))).
  assert (Eio : testb (b + 1) PCI_BAR_TYPE_IO = true).
  { unfold testb, PCI_BAR_TYPE_IO. by rewrite (land_low _ 1 2), L2 by lia. }
  rewrite Eio. destruct (Z.eqb_spec (b + 1) 0) as [|_]; [lia|].
  destruct (Z.eqb_spec (b + 1) 0xFFFFFFFF) as [E|_]; [by rewrite E in L2|]. simpl.
  eapply does_bind; [by apply (size_bar m _ _ k); [lia|]|]. eapply does_bind; [by apply put_does|].
  assert (Esz : shown (b + 1) k = high k + 1) by (unfold shown; by rewrite Lk).
  rewrite Esz. change 3 with (2 ^ 2 - 1). pose proof (high_multiple k ltac:(lia)).
  rewrite (without_type b 1 2 k), (without_type (high k) 1 2 k), size32_high by (done || lia).
  pose proof (Z.pow_lt_mono_r 2 k 16 ltac:(lia) ltac:(lia) ltac:(lia)).
  change 65535 with (2 ^ 16 - 1). rewrite land_ones_mod, Z.mod_small by lia.
  apply does_ret.
Qed.
Lemma pre_testb pre4 pre : pre4 = 0 \/ pre4 = 4 ->
  testb (pre4 + pre_bit pre) PCI_BAR_TYPE_IO = false /\ testb (pre4 + pre_bit pre) PCI_BAR_PREFETCHABLE = pre /\
  Z.land (pre4 + pre_bit pre) PCI_BAR_TYPE_MEM_MASK = pre4 /\ 0 <= pre4 + pre_bit pre < 2 ^ 4.
Proof using Type. by intros [-> | ->]; destruct pre. Qed.

(** The type bits of a memory register. *)
Lemma mem_type v c pre : v mod 2 ^ 4 = c + pre_bit pre -> c = 0 \/ c = 4 ->
  testb v PCI_BAR_TYPE_IO = false /\ testb v PCI_BAR_PREFETCHABLE = pre /\ Z.land v PCI_BAR_TYPE_MEM_MASK = c /\ v <> 0xFFFFFFFF.
Proof using Type.
  intros E Hc. destruct (pre_testb c pre Hc) as (H1 & H2 & H3 & Hr).
  unfold testb in *. rewrite (land_low v PCI_BAR_TYPE_IO 4), (land_low v PCI_BAR_PREFETCHABLE 4),
    (land_low v PCI_BAR_TYPE_MEM_MASK 4), E by done. split_and!; try done.
  intros ->. change (0xFFFFFFFF mod 2 ^ 4) with 15 in E. destruct Hc as [-> | ->], pre; done.
Qed.

Lemma probe_mem32 m pre tl k b p : (length pre < 6)%nat -> resource_ok (Mem32 k b p) -> laid m (Z.of_nat (length pre)) (Mem32 k b p) ->
  does (probe_bar d (pre ++ no_bar :: tl) (Z.of_nat (length pre))) s m
    (pre ++ mkBar b 0 (2 ^ k) false false p :: tl, Z.of_nat (length pre) + 1) m.
Proof using Hs Hbus.
  intros Hl (Hk & Hb & Hr & Hnz) Hh. pose proof (Hh 0%nat _ eq_refl) as H0. rewrite Z.add_0_r in H0. simpl in H0.
  destruct (pre_testb 0 p ltac:(by left)) as (_ & _ & _ & Hp). rewrite Z.add_0_l in Hp.
  destruct (low_of b (pre_bit p) 4 k ltac:(lia) Hb Hp) as [L4 Lk].
  destruct (mem_type (b + pre_bit p) 0 p L4 ltac:(by left)) as (Tio & Tp & Tm & Tne).
  unfold probe_bar, bar_at. rewrite aget_mid. eapply does_bind; [by apply (read_bar m _ _ k); [lia|]|].
  fold (bar_off (Z.of_nat (length pre))). rewrite Tio, Tp, Tm.
  destruct (Z.eqb_spec (b + pre_bit p) 0) as [|_]; [lia|].
  destruct (Z.eqb_spec (b + pre_bit p) 0xFFFFFFFF) as [|_]; [done|]. simpl.
  eapply does_bind; [by apply (size_bar m _ _ k); [lia|]|]. eapply does_bind; [by apply put_does|].
  assert (Esz : shown (b + pre_bit p) k = high k + pre_bit p) by (unfold shown; by rewrite Lk).
  rewrite Esz. change 0xF with (2 ^ 4 - 1). pose proof (high_multiple k ltac:(lia)).
  rewrite (without_type b _ 4 k), (without_type (high k) _ 4 k), size32_high by (done || lia).
  apply does_ret.
Qed.
(** Both halves written with ones, and both written back. *)
Lemma restore_halves m i vl kl vh kh : 0 <= i < 5 -> holds m (bar_off i) vl kl -> holds m (bar_off (i + 1)) vh kh ->
  let m1 := <[key_of d (bar_off i) := shown vl kl]> m in
  let m2 := <[key_of d (bar_off (i + 1)) := shown vh kh]> m1 in
  holds m1 (bar_off (i + 1)) vh kh /\ holds m2 (bar_off i) (shown vl kl) kl /\ holds m2 (bar_off (i + 1)) (shown vh kh) kh /\
  store (key_of d (bar_off (i + 1))) vh (store (key_of d (bar_off i)) vl m2) = m.
Proof using Type.
  intros Hi Hl Hh m1 m2. assert (Hne : bar_off i <> bar_off (i + 1)) by (unfold bar_off; lia).
  assert (Rl : 0 <= shown vl kl < 2 ^ 32) by (destruct Hl as (_ & _ & ? & ?); by apply shown_range).
  assert (Rh : 0 <= shown vh kh < 2 ^ 32) by (destruct Hh as (_ & _ & ? & ?); by apply shown_range).
  assert (Hh1 : holds m1 (bar_off (i + 1)) vh kh) by (apply holds_other; [congruence|done]).
  assert (Hl1 : holds m1 (bar_off i) (shown vl kl) kl) by (by apply (holds_insert m _ vl)).
  split_and!; [done|by apply holds_other|by apply (holds_insert m1 _ vh)|].
  assert (Hm' : holds (<[key_of d (bar_off (i + 1)) := shown vh kh]> m) (bar_off i) vl kl) by (by apply holds_other).
  unfold m2, m1. rewrite insert_insert_ne by (unfold key_of, key, bar_off; lia).
  rewrite (store_back _ (bar_off i) vl kl), (store_back m (bar_off (i + 1)) vh kh) by done. done.
Qed.

Lemma probe_mem64 m pre tl k b p : (length pre < 5)%nat -> resource_ok (Mem64 k b p) -> laid m (Z.of_nat (length pre)) (Mem64 k b p) ->
  does (probe_bar d (pre ++ no_bar :: no_bar :: tl) (Z.of_nat (length pre))) s m
    (pre ++ mkBar b 0 (2 ^ k) false true p :: no_bar :: tl, Z.of_nat (length pre) + 2) m.
Proof using Hs Hbus.
  intros Hl (Hk & Hb & Hr) Hh. pose proof (Hh 0%nat _ eq_refl) as H0. pose proof (Hh 1%nat _ eq_refl) as H1.
  rewrite Z.add_0_r in H0. simpl in H0, H1. change (Z.of_nat 1) with 1 in H1.
  destruct (halves_multiple b k ltac:(lia) Hb) as [Blo Bhi].
  destruct (pre_testb 4 p ltac:(by right)) as (_ & _ & _ & Hp).
  destruct (low_of (b mod 2 ^ 32) (4 + pre_bit p) 4 (Z.min k 32) ltac:(lia) Blo Hp) as [L4 Lk].
  destruct (mem_type (b mod 2 ^ 32 + (4 + pre_bit p)) 4 p L4 ltac:(by right)) as (Tio & Tp & Tm & Tne).
  destruct (restore_halves m (Z.of_nat (length pre)) _ _ _ _ ltac:(lia) H0 H1) as (G1 & G2 & G3 & Eback).
  unfold probe_bar, bar_at. rewrite aget_mid. eapply does_bind; [by eapply (read_bar m); [lia|]|].
  fold (bar_off (Z.of_nat (length pre))). rewrite Tio, Tp, Tm.
  replace (bar_off (Z.of_nat (length pre)) + 4) with (bar_off (Z.of_nat (length pre) + 1)) by (unfold bar_off; lia).
  pose proof (Z.mod_pos_bound b (2 ^ 32) ltac:(lia)). assert (0 <= pre_bit p) by (by destruct p).
  destruct (Z.eqb_spec (b mod 2 ^ 32 + (4 + pre_bit p)) 0) as [|_]; [lia|].
  destruct (Z.eqb_spec (b mod 2 ^ 32 + (4 + pre_bit p)) 0xFFFFFFFF) as [|_]; [done|]. simpl.
  eapply does_bind; [by eapply (read_bar m); [lia|]|]. eapply does_bind; [by eapply ones_bar; [lia|]|].
  eapply does_bind; [by eapply ones_bar; [lia|]|]. eapply does_bind; [by eapply read_bar; [lia|]|].
  eapply does_bind; [by eapply read_bar; [lia|]|].
  destruct (bar_off_word (Z.of_nat (length pre)) ltac:(lia)), (bar_off_word (Z.of_nat (length pre) + 1) ltac:(lia)).
  eapply does_bind; [by apply write32|]. eapply does_bind; [by apply write32|]. rewrite Eback.
  eapply does_bind; [by apply put_does; lia|].
  assert (Esz : shown (b mod 2 ^ 32 + (4 + pre_bit p)) (Z.min k 32) = high (Z.min k 32) + (4 + pre_bit p))
    by (unfold shown; by rewrite Lk).
  assert (Esh : shown (b / 2 ^ 32) (Z.max 0 (k - 32)) = high (Z.max 0 (k - 32))) by (unfold shown; rewrite Bhi; lia).
  pose proof (high_range (Z.min k 32) ltac:(lia)). pose proof (high_multiple (Z.min k 32) ltac:(lia)).
  rewrite Esz, Esh. change 0xF with (2 ^ 4 - 1).
  rewrite (without_type (b mod 2 ^ 32) _ 4 (Z.min k 32)), (without_type (high (Z.min k 32)) _ 4 (Z.min k 32)) by (done || lia).
  rewrite !lor_halves, high_halves, size64_high by lia.
  replace (b mod 2 ^ 32 + b / 2 ^ 32 * 2 ^ 32) with b by (pose proof (Z.div_mod b (2 ^ 32)); lia).
  set (x := mkBar b 0 (2 ^ k) false true p).
  replace (pre ++ x :: no_bar :: tl) with ((pre ++ [x]) ++ no_bar :: tl) by (by rewrite <- app_assoc).
  replace (Z.of_nat (length pre) + 1) with (Z.of_nat (length (pre ++ [x]))) by (rewrite length_app; simpl; lia).
  unfold bar_at. rewrite aget_mid. eapply does_bind; [apply put_does; rewrite length_app; simpl; lia|].
  apply does_ret.
Qed.

(** *** All the registers *)

Definition places (rs : list resource) : nat := length (concat (map words rs)).
Fixpoint laid_all (m : gmap Z Z) (i : nat) (rs : list resource) : Prop :=
  match rs with
  | [] => True
  | r :: rs' => laid m (Z.of_nat i) r /\ laid_all m (i + length (words r)) rs'
  end.

Lemma probe_one m pre r tl : (length pre + length (words r) <= 6)%nat -> resource_ok r -> laid m (Z.of_nat (length pre)) r ->
  does (probe_bar d (pre ++ replicate (length (words r)) no_bar ++ tl) (Z.of_nat (length pre))) s m
    (pre ++ found r ++ tl, Z.of_nat (length pre + length (words r))) m.
Proof using Hs Hbus.
  intros Hl Hr Hm. rewrite Nat2Z.inj_add. destruct r; simpl in Hl.
  - apply probe_absent; [lia|done].
  - apply probe_io; [lia|done|done].
  - apply probe_mem32; [lia|done|done].
  - apply probe_mem64; [lia|done|done].
Qed.

Lemma probe_all m rs : forall pre tl n, (length pre + places rs <= 6)%nat -> (places rs <= n)%nat ->
  Forall resource_ok rs -> laid_all m (length pre) rs ->
  does (probe_bars d (Z.of_nat (length pre + places rs)) n (pre ++ replicate (places rs) no_bar ++ tl) (Z.of_nat (length pre)))
    s m (pre ++ concat (map found rs) ++ tl) m.
Proof using Hs Hbus.
  induction rs as [|r rs IH]; intros pre tl n Hl Hn Hok Hm.
  - unfold places. simpl. rewrite Nat.add_0_r.
    destruct n; simpl; (destruct (Z.ltb_spec (Z.of_nat (length pre)) (Z.of_nat (length pre))); [lia|apply does_ret]).
  - inversion_clear Hok as [|? ? Hr Hok']. destruct Hm as [Hmr Hm].
    assert (Ep : places (r :: rs) = (length (words r) + places rs)%nat) by (unfold places; simpl; apply length_app).
    assert (Hw : (0 < length (words r))%nat) by (destruct r; simpl; lia).
    assert (Ef : length (found r) = length (words r)) by (by destruct r).
    rewrite Ep in Hl, Hn |- *. destruct n as [|n]; [lia|]. simpl.
    destruct (Z.ltb_spec (Z.of_nat (length pre)) (Z.of_nat (length pre + (length (words r) + places rs)))); [|lia].
    rewrite replicate_add, <- (app_assoc (replicate _ _)). eapply does_bind; [apply probe_one; [lia|done|done]|]. simpl.
    rewrite <- (app_assoc (found r)), (app_assoc pre), (app_assoc pre (found r)).
    replace (length pre + length (words r))%nat with (length (pre ++ found r)) in * by (rewrite length_app; lia).
    replace (length pre + (length (words r) + places rs))%nat with (length (pre ++ found r) + places rs)%nat
      by (rewrite length_app; lia).
    apply IH; [rewrite length_app; lia|lia|done|done].
Qed.
(** *** Bytes and the list of capabilities *)

Definition byte_at (m : gmap Z Z) (off : Z) : Z :=
  u8 (Z.shiftr (rd m (key_of d (Z.land off 0xFFFC))) (Z.land off 3 * 8)).

Lemma land_word off : Z.land (Z.land off 0xFFFC) 0xFFFC = Z.land off 0xFFFC.
Proof using Type. by rewrite <- Z.land_assoc. Qed.
Lemma read8 m off : 0 <= off < 256 -> does (pci_read_config8 d off) s m (byte_at m off) m.
Proof using Hs Hbus.
  intros Ho. unfold pci_read_config8, byte_at. destruct Hbus as (Hsg & Hb & Hsl & Hf). rewrite Hsg.
  assert (0 <= Z.land off 0xFFFC < 256).
  { rewrite Z.land_comm. pose proof (land_range_r 0xFFFC off ltac:(lia)). lia. }
  pose proof (raw_read s m (bus d) (slot d) (function d) (Z.land off 0xFFFC) Hs Hb Hsl Hf ltac:(done)) as P.
  rewrite land_word in P. eapply does_bind; [exact P|apply does_ret].
Qed.

(** The capabilities from [ptr] on: where each is and what it is. *)
Fixpoint chain (m : gmap Z Z) (ptr : Z) (caps : list (Z * Z)) : Prop :=
  match caps with
  | [] => ptr = 0
  | (p, id) :: caps' =>
      ptr = p /\ 0 < p < 255 /\ byte_at m p = id /\ chain m (Z.land (byte_at m (p + 1)) 0xFC) caps'
  end.
Definition first_cap (id : Z) (caps : list (Z * Z)) : Z :=
  match List.find (fun c => c.2 =? id) caps with Some c => c.1 | None => 0 end.

(** The capability found is the first of its kind; 48 steps are enough for all
    there is room for. *)
Lemma find_cap_spec m id caps : forall limit ptr, chain m ptr caps -> (length caps <= limit)%nat ->
  does (find_cap_loop d id limit ptr) s m (first_cap id caps) m.
Proof using Hs Hbus.
  induction caps as [|[p i] caps IH]; intros limit ptr Hc Hl.
  - simpl in Hc. subst ptr. destruct limit; simpl; apply does_ret.
  - destruct Hc as (-> & Hp & <- & Hc). destruct limit as [|limit]; [simpl in Hl; lia|]. simpl.
    destruct (Z.eqb_spec p 0) as [|_]; [lia|]. eapply does_bind; [apply read8; lia|].
    eapply does_bind; [apply read8; lia|]. unfold first_cap. simpl.
    destruct (byte_at m p =? id); [apply does_ret|]. apply IH; [done|simpl in Hl; lia].
Qed.
End one_function.

End space.

(** A function with 4 KB of memory at 0xFEBF1000, 16 GB of 64-bit memory at
    2^40 and 32 ports at 0xC000, on a bus without a memory window. *)
Definition demo_resources : list resource :=
  [Mem32 12 0xFEBF1000 false; Mem64 34 (2 ^ 40) true; Absent; Io 5 0xC000; Absent].
Definition demo_function : pci_device_t :=
  mkPci 0 3 4 1 0x1234 0x1111 3 0 0 2 0 0x1AF4 0x1100 (replicate 6 no_bar) PCI_IRQ_NONE (-1) 0 0 0 0.
Definition demo_words : list (Z * (Z * Z)) :=
  imap (fun i w => (key_of demo_function (bar_off (Z.of_nat i)), w)) (concat (map words demo_resources)).
Definition demo_writable (k : Z) : Z := high (snd (default (0, 32) ((list_to_map demo_words : gmap Z (Z * Z)) !! k))).
Definition demo_regs : gmap Z Z := list_to_map (map (fun w => (fst w, fst (snd w))) demo_words).
Definition demo_pci : pci_state unit bus_hw :=
  mkPciState [] [] true PCI_MMIO_VIRT_BASE 0 small_machine (mkInts [] [] [] 0 0 (mkBusHw 0 demo_regs)).

Lemma demo_laid : laid_all demo_writable demo_function demo_regs 0 demo_resources.
Proof.
  unfold demo_resources. cbn [laid_all]. repeat split; destruct j as [|[|j]]; simplify_eq/=; by vm_compute.
Qed.


(** ** What the scan does not find *)

Section scan.
Context {Hd X : Type} `{!PciHw X} `{BootInfo} (kernel_space : address_space) (kmalloc_ok : nat -> bool).
#[local] Abbreviation St := (pci_state Hd X).

(** If [c] returns, it leaves the list of the devices, and [R] holds of the
    result. *)
Definition leaves_list {A} (c : M St A) (R : A -> Prop) : Prop :=
  forall s a s', c s = Some (a, s') -> R a /\ g_device_list s' = g_device_list s.
(** If [c] returns, devices at function 0 are all there are, as before. *)
Definition first_functions (l : list pci_device_t) : Prop := Forall (fun d => function d = 0 /\ header_type d < 128) l.
Definition finds_firsts {A} (c : M St A) : Prop :=
  forall s a s', c s = Some (a, s') -> first_functions (g_device_list s) -> first_functions (g_device_list s').

Lemma ll_ret {A} (a : A) (R : A -> Prop) : R a -> leaves_list (ret a) R.
Proof using Type. by intros HR s b s' [= <- <-]. Qed.
Lemma ll_gets {A} (f : St -> A) (R : A -> Prop) : (forall s, R (f s)) -> leaves_list (gets f) R.
Proof using Type. intros HR s b s' [= <- <-]. by split. Qed.
Lemma ll_modify (f : St -> St) : (forall s, g_device_list (f s) = g_device_list s) -> leaves_list (modify f) (fun _ => True).
Proof using Type. intros Hf s b s' [= <- <-]. by split. Qed.
Lemma ll_diverge {A} (R : A -> Prop) : leaves_list diverge R.
Proof using Type. by intros s b s' [=]. Qed.
Lemma ll_bind {A B} (c : M St A) (k : A -> M St B) (P : A -> Prop) (R : B -> Prop) :
  leaves_list c P -> (forall a, P a -> leaves_list (k a) R) -> leaves_list (bind c k) R.
Proof using Type.
  intros Hc Hk s b s' E. unfold bind in E. destruct (c s) as [[a s1]|] eqn:E1; [|done].
  destruct (Hc _ _ _ E1) as [Ha El], (Hk a Ha _ _ _ E) as [Hb El']. split; [done|congruence].
Qed.
Lemma ll_any {A} (c : M St A) (R : A -> Prop) : leaves_list c R -> leaves_list c (fun _ => True).
Proof using Type. intros Hc s a s' E. by destruct (Hc _ _ _ E). Qed.
Lemma ff_ll {A} (c : M St A) (R : A -> Prop) : leaves_list c R -> finds_firsts c.
Proof using Type. intros Hc s a s' E Hf. destruct (Hc _ _ _ E) as [_ ->]. done. Qed.
Lemma ff_ret {A} (a : A) : finds_firsts (ret a).
Proof using Type. by intros s b s' [= <- <-]. Qed.
Lemma ff_modify (f : St -> St) : (forall s, g_device_list (f s) = g_device_list s) -> finds_firsts (modify f).
Proof using Type. intros Hf. exact (ff_ll _ _ (ll_modify f Hf)). Qed.
Lemma ff_bind {A B} (c : M St A) (k : A -> M St B) :
  finds_firsts c -> (forall a, finds_firsts (k a)) -> finds_firsts (bind c k).
Proof using Type.
  intros Hc Hk s b s' E Hf. unfold bind in E. destruct (c s) as [[a s1]|] eqn:E1; [|done].
  apply (Hk a _ _ _ E), (Hc _ _ _ E1), Hf.
Qed.
Lemma ff_ll_bind {A B} (c : M St A) (k : A -> M St B) (P : A -> Prop) :
  leaves_list c P -> (forall a, P a -> finds_firsts (k a)) -> finds_firsts (bind c k).
Proof using Type.
  intros Hc Hk s b s' E Hf. unfold bind in E. destruct (c s) as [[a s1]|] eqn:E1; [|done].
  destruct (Hc _ _ _ E1) as [Ha El]. apply (Hk a Ha _ _ _ E). by rewrite El.
Qed.
End scan.

Create HintDb pci discriminated.
#[export] Hint Resolve ll_ret ll_gets ll_modify ll_diverge : pci.
Ltac ll_step :=
  lazymatch goal with
  | |- forall _, _ => intros
  | |- leaves_list (bind _ _) _ => eapply (ll_bind _ _ (fun _ => True))
  | |- leaves_list (if ?b then _ else _) _ => destruct b
  | |- leaves_list (let _ := _ in _) _ => cbv zeta
  | |- leaves_list _ _ => first [solve [eauto with pci] | eapply ll_any; solve [eauto with pci]]
  end.
Ltac ll_steps := repeat ll_step.

Section scan_leaves.
Context {Hd X : Type} `{!PciHw X} `{BootInfo} (kernel_space : address_space) (kmalloc_ok : nat -> bool).
#[local] Abbreviation St := (pci_state Hd X).

Lemma ll_raw_read sg b sl fn off : leaves_list (config_read32_raw sg b sl fn off : M St Z) (fun _ => True).
Proof using Type. unfold config_read32_raw. ll_steps. Qed.
Lemma ll_raw_write sg b sl fn off v : leaves_list (config_write32_raw sg b sl fn off v : M St unit) (fun _ => True).
Proof using Type. unfold config_write32_raw. ll_steps. Qed.
#[local] Hint Resolve ll_raw_read ll_raw_write : pci.
Lemma ll_read8 d off : leaves_list (pci_read_config8 d off : M St Z) (fun _ => True).
Proof using Type. unfold pci_read_config8. ll_steps. Qed.
#[local] Hint Resolve ll_read8 : pci.
Lemma ll_find_cap d id : leaves_list (pci_find_cap d id : M St Z) (fun _ => True).
Proof using Type.
  assert (Hloop : forall n ptr, leaves_list (find_cap_loop d id n ptr : M St Z) (fun _ => True))
    by (induction n as [|n IH]; intros; simpl; ll_steps).
  unfold pci_find_cap, pci_read_config16. ll_steps.
Qed.
Lemma ll_probe_bars d : leaves_list (pci_probe_bars d : M St pci_device_t) (fun d' => function d' = function d /\ header_type d' = header_type d).
Proof using Type.
  assert (Hput : forall l i b, leaves_list (put_bar l i b : M St _) (fun _ => True)) by (intros; unfold put_bar; ll_steps).
  assert (Hone : forall l i, leaves_list (probe_bar d l i : M St _) (fun _ => True))
    by (intros; unfold probe_bar, probe_size, pci_read_config32, pci_write_config32; ll_steps).
  assert (Hall : forall c n l i, leaves_list (probe_bars d c n l i : M St _) (fun _ => True))
    by (induction n as [|n IH]; intros; simpl; ll_steps).
  unfold pci_probe_bars. eapply ll_bind; [apply Hall|]. intros l _. by apply ll_ret.
Qed.

Lemma ll_probe_function sg b sl fn : leaves_list (probe_function kmalloc_ok sg b sl fn : M St _)
  (fun r => match r with Some d => function d = fn /\ 0 <= header_type d < 128 | None => True end).
Proof using Type.
  unfold probe_function. eapply ll_bind; [apply ll_raw_read|intros id _].
  destruct (_ =? _); [by apply ll_ret|]. eapply ll_bind; [by apply (ll_gets _ (fun _ => True))|intros ok _].
  eapply ll_bind; [by apply ll_modify|intros [] _]. destruct ok; simpl; [|by apply ll_ret].
  do 3 (eapply ll_bind; [apply ll_raw_read|intros ? _]). do 2 (eapply ll_bind; [apply ll_find_cap|intros ? _]).
  eapply ll_bind; [apply ll_probe_bars|]. simpl. intros d' [Ef Eh]. apply ll_ret. rewrite Ef, Eh. split; [done|].
  match goal with |- context [Z.land ?x 0x7F] => pose proof (land_range_r x 0x7F ltac:(lia)) end. rewrite u8_small by lia. lia.
Qed.

(** The header type is stored without its highest bit, which says that there
    are more functions, and it is this copy the scan looks at: functions 1 to
    7 are never looked for, on any hardware. *)
Lemma scan_slot_firsts scan sg b sl : (forall g c, finds_firsts (scan g c)) -> finds_firsts (scan_slot kmalloc_ok scan sg b sl : M St unit).
Proof using Type.
  intros Hscan. unfold scan_slot. eapply ff_ll_bind; [apply ll_raw_read|intros id _].
  destruct (_ =? _); [apply ff_ret|]. eapply ff_ll_bind; [apply ll_probe_function|].
  intros [d|] Hd'; [|apply ff_ret]. destruct Hd' as [Hfn Hh].
  assert (E : testb (header_type d) 0x80 = false).
  { unfold testb. change 0x80 with (2 ^ 7). rewrite land_pow2_ne0 by lia. by apply (testbit_high 7). }
  rewrite E. apply ff_bind; [|intros _; apply ff_bind; [|intros _; apply ff_ret]].
  - intros s [] s' [= <-] Hf. apply list.Forall_cons. split; [lia|done].
  - destruct (_ =? _); [|apply ff_ret]. eapply ff_ll_bind; [apply ll_read8|intros; apply Hscan].
Qed.

Lemma scan_bus_firsts fuel : forall sg b, finds_firsts (scan_bus kmalloc_ok fuel sg b : M St unit).
Proof using Type.
  induction fuel as [|fuel IH]; intros sg b; [by intros s a s' [=]|].
  cut (forall n sl, finds_firsts (scan_slots kmalloc_ok (scan_bus kmalloc_ok fuel) sg b sl n : M St unit)); [intros Hn; apply Hn|].
  induction n as [|n IHn]; intros sl; simpl; [apply ff_ret|].
  apply ff_bind; [by apply scan_slot_firsts|intros _; apply IHn].
Qed.
Lemma scan_buses_firsts fuel sg n : forall b, finds_firsts (scan_buses kmalloc_ok fuel sg b n : M St unit).
Proof using Type.
  induction n as [|n IH]; intros b; simpl; [apply ff_ret|].
  apply ff_bind; [apply scan_bus_firsts|intros _; apply IH].
Qed.

Lemma ll_mmio_map phys sz : leaves_list (pci_mmio_map_impl kernel_space phys sz : M St Z) (fun _ => True).
Proof using Type.
  unfold pci_mmio_map_impl. destruct (sz =? 0); [by apply ll_ret|]. eapply ll_bind; [by apply (ll_gets _ (fun _ => True))|intros v _].
  cbv zeta. destruct (_ <? _); [by apply ll_ret|]. eapply ll_bind; [by apply (ll_gets _ (fun _ => True))|intros r _].
  destruct (snd r); (eapply ll_bind; [by apply ll_modify|intros [] _; by apply ll_ret]).
Qed.
Lemma scan_windows_firsts fuel n : forall i, finds_firsts (scan_windows kernel_space kmalloc_ok fuel i n : M St unit).
Proof using Type.
  induction n as [|n IH]; intros i; simpl; [apply ff_ret|].
  eapply ff_ll_bind; [by apply (ll_gets _ (fun _ => True))|intros e _].
  eapply ff_ll_bind; [apply ll_mmio_map|intros v _]. apply ff_bind.
  - destruct (v =? 0); [apply ff_ret|]. by apply ff_modify.
  - intros _. apply ff_bind; [apply scan_buses_firsts|intros _; apply IH].
Qed.

Lemma only_first_functions fuel mem acpi s s' :
  pci_init kernel_space kmalloc_ok fuel mem acpi s = Some (tt, s' : St) ->
  first_functions (g_device_list s) -> first_functions (pci_get_devices s').
Proof using Type.
  intros E. unfold pci_get_devices. revert E.
  assert (Hf : finds_firsts (pci_init kernel_space kmalloc_ok fuel mem acpi : M St unit)); [|intros E; exact (Hf _ _ _ E)].
  unfold pci_init. eapply ff_ll_bind; [by apply (ll_gets _ (fun _ => True))|intros again _].
  destruct again; [apply ff_ret|].
  eapply ff_ll_bind; [by apply ll_modify|intros _ _]. cbv zeta.
  apply ff_bind; [destruct (_ =? _); [apply ff_ret|by apply ff_modify]|intros _].
  eapply ff_ll_bind; [by apply (ll_gets _ (fun _ => True))|intros n _].
  destruct (0 <? n)%nat; [apply scan_windows_firsts|apply scan_buses_firsts].
Qed.
End scan_leaves.
