(* ===== verification/Xhci.v ===== *)
(** * The xHCI driver (src/kernel/drivers/usb/xhci/xhci.c, xhci_regs.c, xhci_mem.c)

    Controllers from the PCI devices, their reset and start, the ports, the
    slots and endpoints of the devices, transfers and the events that end them.

    The state has the static variables, the rings ([XhciRings]), the memory the
    contexts and buffers are in (by virtual address), and the PCI state
    ([Pci]), through which the registers are accessed.  [sleep us] is what
    happens while the kernel sleeps: the controller works, and interrupts run.
    [dma_alloc] gives the address of the nth buffer ([Dma] models the
    allocator), [phys_of] its physical address.  Where the code would write
    through a null pointer there is no result. *)

From S2P Require Import Prelude Bytes StateMonad PhysMem Pmm Vmm Acpi Interrupts Pci XhciRings.
#[local] Open Scope Z_scope.

(** ** Constants *)
Definition XHCI_MAX_CONTROLLERS : Z := 8.
Definition XHCI_MAX_PROBE_CBS : Z := 8.
Definition XHCI_MAX_DEVICES : Z := 256.
Definition XHCI_MAX_DCI : Z := 32.
Definition XHCI_COMMAND_RING_TRB_COUNT : Z := 256.
Definition XHCI_EVENT_RING_TRB_COUNT : Z := 256.
Definition XHCI_TRANSFER_RING_TRB_COUNT : Z := 256.
Definition XHCI_USBCMD_RUN_STOP : Z := Z.shiftl 1 0.
Definition XHCI_USBCMD_HCRESET : Z := Z.shiftl 1 1.
Definition XHCI_USBCMD_INTERRUPTER_ENABLE : Z := Z.shiftl 1 2.
Definition XHCI_USBSTS_HCH : Z := Z.shiftl 1 0.
Definition XHCI_USBSTS_EINT : Z := Z.shiftl 1 3.
Definition XHCI_USBSTS_CNR : Z := Z.shiftl 1 11.
Definition XHCI_IMAN_INTERRUPT_PENDING : Z := Z.shiftl 1 0.
Definition XHCI_IMAN_INTERRUPT_ENABLE : Z := Z.shiftl 1 1.
Definition XHCI_LEGACY_BIOS_OWNED_SEMAPHORE : Z := Z.shiftl 1 16.
Definition XHCI_LEGACY_OS_OWNED_SEMAPHORE : Z := Z.shiftl 1 24.
Definition XHCI_LEGACY_SMI_ENABLE_BITS : Z :=
  Z.lor (Z.lor (Z.lor (Z.lor (Z.shiftl 1 0) (Z.shiftl 1 13)) (Z.shiftl 1 4)) (Z.shiftl 1 14)) (Z.shiftl 1 15).
Definition XHCI_EXT_CAP_USB_LEGACY_SUPPORT : Z := 1.
Definition XHCI_EXT_CAP_SUPPORTED_PROTOCOL : Z := 2.
Definition XHCI_DOORBELL_TARGET_COMMAND_RING : Z := 0.
Definition XHCI_DOORBELL_TARGET_CONTROL_EP_RING : Z := 1.
Definition XHCI_TRB_TYPE_NORMAL : Z := 1.
Definition XHCI_TRB_TYPE_SETUP_STAGE : Z := 2.
Definition XHCI_TRB_TYPE_DATA_STAGE : Z := 3.
Definition XHCI_TRB_TYPE_STATUS_STAGE : Z := 4.
Definition XHCI_TRB_TYPE_ENABLE_SLOT_CMD : Z := 9.
Definition XHCI_TRB_TYPE_ADDRESS_DEVICE_CMD : Z := 11.
Definition XHCI_TRB_TYPE_CONFIGURE_ENDPOINT_CMD : Z := 12.
Definition XHCI_TRB_TYPE_TRANSFER_EVENT : Z := 32.
Definition XHCI_TRB_TYPE_CMD_COMPLETION_EVENT : Z := 33.
Definition XHCI_TRB_COMPLETION_CODE_SUCCESS : Z := 1.
Definition XHCI_TRB_COMPLETION_CODE_SHORT_PACKET : Z := 13.
Definition XHCI_USB_SPEED_FULL_SPEED : Z := 1.
Definition XHCI_USB_SPEED_LOW_SPEED : Z := 2.
Definition XHCI_USB_SPEED_HIGH_SPEED : Z := 3.
Definition XHCI_USB_SPEED_SUPER_SPEED : Z := 4.
Definition XHCI_USB_SPEED_SUPER_SPEED_PLUS : Z := 5.
Definition XHCI_ENDPOINT_TYPE_ISOCHRONOUS_OUT : Z := 1.
Definition XHCI_ENDPOINT_TYPE_BULK_OUT : Z := 2.
Definition XHCI_ENDPOINT_TYPE_INTERRUPT_OUT : Z := 3.
Definition XHCI_ENDPOINT_TYPE_CONTROL : Z := 4.
Definition XHCI_ENDPOINT_TYPE_ISOCHRONOUS_IN : Z := 5.
Definition XHCI_ENDPOINT_TYPE_BULK_IN : Z := 6.
Definition XHCI_ENDPOINT_TYPE_INTERRUPT_IN : Z := 7.
(** Of xhci_mem.h: alignment and boundary of the parts. *)
Definition XHCI_DEVICE_CONTEXT_INDEX_ALIGNMENT : Z := 64.
Definition XHCI_DEVICE_CONTEXT_ALIGNMENT : Z := 64.
Definition XHCI_RING_SEGMENTS_ALIGNMENT : Z := 64.
Definition XHCI_RING_SEGMENTS_BOUNDARY : Z := 1024 * 64.

(** ** Data *)

Record xhci_device_t := mkDev {
  active : bool; slot_id : Z; port : Z; speed : Z;
  output_ctx : Z; input_ctx : Z;
  ep0_ring : xhci_transfer_ring_t; transfer_completed : bool; last_transfer_event : xhci_trb_t;
  ep_rings : list xhci_transfer_ring_t; ep_transfer_completed : list bool; ep_last_transfer_event : list xhci_trb_t;
  descriptor : list Z
}.
Definition no_ring : xhci_transfer_ring_t := mkRing 0 0 [] 0 0.
Definition zero_device : xhci_device_t :=
  mkDev false 0 0 0 0 0 no_ring false no_trb (replicate 32 no_ring) (replicate 32 false) (replicate 32 no_trb) (replicate 18 0).

(** What [_parse_capability_registers] stores. *)
Record capability_registers := mkCaps {
  hc_base : Z; cap_length : Z; max_device_slots : Z; max_interrupters : Z; max_ports : Z; ist : Z; erst_max : Z;
  max_scratchpad_buffers : Z; ac64 : bool; bnc : bool; csz : bool; ppc : bool; pind : bool; lhrc : bool;
  ext_caps_offset : Z; op_regs : Z; runtime_regs : Z
}.
Definition no_caps : capability_registers := mkCaps 0 0 0 0 0 0 0 0 false false false false false false 0 0 0.

(** An extended capability: where it is, and its first word. *)
Record xhci_extended_capability_t := mkExtCap { m_base : Z; m_entry : Z }.
Definition xhci_extended_capability_id (c : xhci_extended_capability_t) : Z := Z.land (m_entry c) 0xFF.
Definition ext_cap_next (c : xhci_extended_capability_t) : Z := Z.land (Z.shiftr (m_entry c) 8) 0xFF.

(** [pci_dev] is the place in the list of the PCI devices.  The completions are
    pointers into the event ring: places there. *)
Record xhci_controller_t := mkHc {
  pci_dev : nat; caps : capability_registers; dcbaa : Z; dcbaa_virt : list Z;
  cmd_irq_completed : bool; cmd_completion_events : list Z; usb3_ports : list Z;
  ext_caps : list xhci_extended_capability_t; devices : list xhci_device_t
}.
Definition zero_controller : xhci_controller_t :=
  mkHc 0 no_caps 0 [] false [] [] [] (replicate 256 zero_device).

Record xhci_state (Hd X : Type) := mkXhci {
  m_controllers : list xhci_controller_t; m_controller_count : Z; m_probe_cbs : list Z;
  m_ring : xhci_transfer_ring_t; e_ring : event_ring; m_doorbell_registers : Z;
  memory : ram; dma_allocs : nat; pci : pci_state Hd X
}.
Arguments mkXhci {Hd X}. Arguments m_controllers {Hd X}. Arguments m_controller_count {Hd X}. Arguments m_probe_cbs {Hd X}.
Arguments m_ring {Hd X}. Arguments e_ring {Hd X}. Arguments m_doorbell_registers {Hd X}. Arguments memory {Hd X}.
Arguments dma_allocs {Hd X}. Arguments pci {Hd X}.

(** Fields of the blocks. *)
Definition completion_code (t : xhci_trb_t) : Z := Z.land (Z.shiftr (status t) 24) 0xFF.
Definition event_slot (t : xhci_trb_t) : Z := Z.land (Z.shiftr (control t) 24) 0xFF.
Definition endpoint_id (t : xhci_trb_t) : Z := Z.land (Z.shiftr (control t) 16) 0x1F.

(** ** Pure helpers *)

Definition xhci_dci_from_ep_addr (ep_addr : Z) : Z :=
  let ep_num := Z.land ep_addr 0x0F in
  let dir := if testb ep_addr 0x80 then 1 else 0 in
  if ep_num =? 0 then 1 else u8 (ep_num * 2 + dir).

Definition _ep0_max_packet_size_for_speed (speed : Z) : Z :=
  if speed =? XHCI_USB_SPEED_LOW_SPEED then 8
  else if speed =? XHCI_USB_SPEED_FULL_SPEED then 8
  else if speed =? XHCI_USB_SPEED_HIGH_SPEED then 64
  else if (speed =? XHCI_USB_SPEED_SUPER_SPEED) || (speed =? XHCI_USB_SPEED_SUPER_SPEED_PLUS) then 512
  else 8.

Definition _usb_ep_attrs_to_xhci_type (ep_attrs : Z) (dir_in : bool) : Z :=
  let t := Z.land ep_attrs 3 in
  if t =? 0 then XHCI_ENDPOINT_TYPE_CONTROL
  else if t =? 1 then if dir_in then XHCI_ENDPOINT_TYPE_ISOCHRONOUS_IN else XHCI_ENDPOINT_TYPE_ISOCHRONOUS_OUT
  else if t =? 2 then if dir_in then XHCI_ENDPOINT_TYPE_BULK_IN else XHCI_ENDPOINT_TYPE_BULK_OUT
  else if dir_in then XHCI_ENDPOINT_TYPE_INTERRUPT_IN else XHCI_ENDPOINT_TYPE_INTERRUPT_OUT.

(** [while ((1u << (v + 1)) <= mf) v++], for [mf] below [2 ^ n]. *)
Fixpoint highest_bit (mf : Z) (n : nat) (v : Z) : Z :=
  match n with
  | O => v
  | S n' => if Z.shiftl 1 (v + 1) <=? mf then highest_bit mf n' (v + 1) else v
  end.
Definition _binterval_to_xhci_interval (binterval speed : Z) : Z :=
  if (speed =? XHCI_USB_SPEED_LOW_SPEED) || (speed =? XHCI_USB_SPEED_FULL_SPEED) then
    let v := highest_bit (binterval * 8) 32 0 in if v <? 3 then 3 else v
  else if (speed =? XHCI_USB_SPEED_HIGH_SPEED) || (speed =? XHCI_USB_SPEED_SUPER_SPEED) || (speed =? XHCI_USB_SPEED_SUPER_SPEED_PLUS) then
    if 0 <? binterval then binterval - 1 else 0
  else 3.

(** A bit field of [width] bits at [lo]. *)
Definition set_bits (lo width v w : Z) : Z :=
  Z.lor (Z.ldiff w (Z.shiftl (Z.ones width) lo)) (Z.shiftl (Z.land v (Z.ones width)) lo).
Definition get_bits (lo width w : Z) : Z := Z.land (Z.shiftr w lo) (Z.ones width).

Section driver.
Context {Hd X : Type} `{!PciHw X} `{BootInfo} (kernel_space : address_space) (lapic_id : Z) (kmalloc_ok : nat -> bool).
Context (handler_of : Z -> Hd) (dma_alloc : nat -> Z -> Z -> Z -> Z) (phys_of : Z -> Z).
#[local] Abbreviation St := (xhci_state Hd X).
Context (sleep : Z -> St -> St) (run_cb : Z -> Z -> Z -> M St unit).

(** ** Accesses to the state *)

Definition hc (c : Z) (s : St) : xhci_controller_t := aget zero_controller (m_controllers s) c.
Definition on_hc (c : Z) (f : xhci_controller_t -> xhci_controller_t) (s : St) : St :=
  mkXhci (aset (m_controllers s) c (f (hc c s))) (m_controller_count s) (m_probe_cbs s) (m_ring s) (e_ring s)
    (m_doorbell_registers s) (memory s) (dma_allocs s) (pci s).
Definition set_count (n : Z) (s : St) : St :=
  mkXhci (m_controllers s) n (m_probe_cbs s) (m_ring s) (e_ring s) (m_doorbell_registers s) (memory s) (dma_allocs s) (pci s).
Definition set_probe_cbs (l : list Z) (s : St) : St :=
  mkXhci (m_controllers s) (m_controller_count s) l (m_ring s) (e_ring s) (m_doorbell_registers s) (memory s) (dma_allocs s) (pci s).
Definition set_m_ring (r : xhci_transfer_ring_t) (s : St) : St :=
  mkXhci (m_controllers s) (m_controller_count s) (m_probe_cbs s) r (e_ring s) (m_doorbell_registers s) (memory s) (dma_allocs s) (pci s).
Definition set_e_ring (e : event_ring) (s : St) : St :=
  mkXhci (m_controllers s) (m_controller_count s) (m_probe_cbs s) (m_ring s) e (m_doorbell_registers s) (memory s) (dma_allocs s) (pci s).
Definition set_doorbells (a : Z) (s : St) : St :=
  mkXhci (m_controllers s) (m_controller_count s) (m_probe_cbs s) (m_ring s) (e_ring s) a (memory s) (dma_allocs s) (pci s).
Definition on_memory (f : ram -> ram) (s : St) : St :=
  mkXhci (m_controllers s) (m_controller_count s) (m_probe_cbs s) (m_ring s) (e_ring s) (m_doorbell_registers s) (f (memory s)) (dma_allocs s) (pci s).
Definition count_alloc (s : St) : St :=
  mkXhci (m_controllers s) (m_controller_count s) (m_probe_cbs s) (m_ring s) (e_ring s) (m_doorbell_registers s) (memory s) (S (dma_allocs s)) (pci s).
Definition set_pci (p : pci_state Hd X) (s : St) : St :=
  mkXhci (m_controllers s) (m_controller_count s) (m_probe_cbs s) (m_ring s) (e_ring s) (m_doorbell_registers s) (memory s) (dma_allocs s) p.

Definition dev (c i : Z) (s : St) : xhci_device_t := aget zero_device (devices (hc c s)) i.
Definition set_devices (l : list xhci_device_t) (h : xhci_controller_t) : xhci_controller_t :=
  mkHc (pci_dev h) (caps h) (dcbaa h) (dcbaa_virt h) (cmd_irq_completed h) (cmd_completion_events h) (usb3_ports h) (ext_caps h) l.
Definition on_dev (c i : Z) (f : xhci_device_t -> xhci_device_t) (s : St) : St :=
  on_hc c (fun h => set_devices (aset (devices h) i (f (aget zero_device (devices h) i))) h) s.
Definition set_command (done : bool) (l : list Z) (h : xhci_controller_t) : xhci_controller_t :=
  mkHc (pci_dev h) (caps h) (dcbaa h) (dcbaa_virt h) done l (usb3_ports h) (ext_caps h) (devices h).
Definition set_dcbaa (a : Z) (l : list Z) (h : xhci_controller_t) : xhci_controller_t :=
  mkHc (pci_dev h) (caps h) a l (cmd_irq_completed h) (cmd_completion_events h) (usb3_ports h) (ext_caps h) (devices h).
Definition set_ports (l : list Z) (e : list xhci_extended_capability_t) (h : xhci_controller_t) : xhci_controller_t :=
  mkHc (pci_dev h) (caps h) (dcbaa h) (dcbaa_virt h) (cmd_irq_completed h) (cmd_completion_events h) l e (devices h).
Definition set_caps (p : nat) (k : capability_registers) (h : xhci_controller_t) : xhci_controller_t :=
  mkHc p k (dcbaa h) (dcbaa_virt h) (cmd_irq_completed h) (cmd_completion_events h) (usb3_ports h) (ext_caps h) (devices h).

Definition set_active (b : bool) (d : xhci_device_t) : xhci_device_t :=
  mkDev b (slot_id d) (port d) (speed d) (output_ctx d) (input_ctx d) (ep0_ring d) (transfer_completed d) (last_transfer_event d)
    (ep_rings d) (ep_transfer_completed d) (ep_last_transfer_event d) (descriptor d).
Definition set_ctx (out inp : Z) (d : xhci_device_t) : xhci_device_t :=
  mkDev (active d) (slot_id d) (port d) (speed d) out inp (ep0_ring d) (transfer_completed d) (last_transfer_event d)
    (ep_rings d) (ep_transfer_completed d) (ep_last_transfer_event d) (descriptor d).
Definition set_ep0 (r : xhci_transfer_ring_t) (done : bool) (t : xhci_trb_t) (d : xhci_device_t) : xhci_device_t :=
  mkDev (active d) (slot_id d) (port d) (speed d) (output_ctx d) (input_ctx d) r done t
    (ep_rings d) (ep_transfer_completed d) (ep_last_transfer_event d) (descriptor d).
Definition set_eps (r : list xhci_transfer_ring_t) (done : list bool) (t : list xhci_trb_t) (d : xhci_device_t) : xhci_device_t :=
  mkDev (active d) (slot_id d) (port d) (speed d) (output_ctx d) (input_ctx d) (ep0_ring d) (transfer_completed d) (last_transfer_event d)
    r done t (descriptor d).
Definition set_descriptor (l : list Z) (d : xhci_device_t) : xhci_device_t :=
  mkDev (active d) (slot_id d) (port d) (speed d) (output_ctx d) (input_ctx d) (ep0_ring d) (transfer_completed d) (last_transfer_event d)
    (ep_rings d) (ep_transfer_completed d) (ep_last_transfer_event d) l.

(** Registers. *)
Definition reg_read (width a : Z) : M St Z := gets (fun s => mem_read width a (the_hw (pci s))).
Definition reg_write (width a v : Z) : M St unit := modify (fun s => set_pci (on_hw (mem_write width a v) (pci s)) s).
Definition reg_update (a : Z) (f : Z -> Z) : M St unit := let* v := reg_read 4 a in reg_write 4 a (u32 (f v)).
Definition timer_sleep_us (n : Z) : M St unit := modify (sleep n).
Definition timer_sleep_ms (n : Z) : M St unit := modify (sleep (n * 1000)).

(** [c] in the PCI driver. *)
Definition in_pci {A} (c : M (pci_state Hd X) A) : M St A :=
  fun s => match c (pci s) with Some (a, p) => Some (a, set_pci p s) | None => None end.
Definition set_pci_devices (l : list pci_device_t) (p : pci_state Hd X) : pci_state Hd X :=
  mkPciState (g_ecam_entries p) l (g_pci_initialised p) (g_mmio_virt_bump p) (kmallocs p) (mach p) (ints p).
Definition no_pci : pci_device_t := mkPci 0 0 0 0 0 0 0 0 0 0 0 0 0 [] PCI_IRQ_NONE 0 0 0 0 0.
Definition pci_at (n : nat) (s : St) : pci_device_t := nth n (g_device_list (pci s)) no_pci.
(** A call on a PCI device that may change the device. *)
Definition on_pci_device {A} (n : nat) (f : pci_device_t -> M (pci_state Hd X) (pci_device_t * A)) : M St A :=
  let* d := gets (pci_at n) in
  let* r := in_pci (f d) in
  do* modify (fun s => set_pci (set_pci_devices (<[n := fst r]> (g_device_list (pci s))) (pci s)) s) in ret (snd r).

(** ** Memory (xhci_mem.c) *)

Definition alloc_xhci_memory (sz alignment boundary : Z) : M St Z :=
  if (sz =? 0) || (alignment =? 0) || (boundary =? 0) then ret 0
  else
    let* a := gets (fun s => dma_alloc (dma_allocs s) sz alignment boundary) in
    do* modify count_alloc in ret a.
Definition xhci_get_physical_addr (a : Z) : Z := phys_of a.

Definition rings_memory (count : Z) : M St Z :=
  let* a := alloc_xhci_memory (count * sizeof_trb) XHCI_RING_SEGMENTS_ALIGNMENT XHCI_RING_SEGMENTS_BOUNDARY in
  if a =? 0 then diverge else ret (xhci_get_physical_addr a).
Definition must {A} (o : option A) : M St A := match o with Some a => ret a | None => diverge end.

(** ** Doorbells (xhci_regs.c) *)

Definition xhci_doorbell_manager_init (a : Z) : M St unit := modify (set_doorbells a).
Definition xhci_doorbell_manager_ring_doorbell (doorbell target : Z) : M St unit :=
  let* a := gets m_doorbell_registers in reg_write 4 (a + doorbell * 4) target.
Definition xhci_doorbell_manager_ring_command_doorbell : M St unit :=
  xhci_doorbell_manager_ring_doorbell 0 XHCI_DOORBELL_TARGET_COMMAND_RING.

(** ** Events *)

(** The event at the place [p] of the ring, as it is there now. *)
Definition deliver (c p : Z) (s : St) : St :=
  let t := aget no_trb (e_trbs (e_ring s)) p in
  if trb_type t =? XHCI_TRB_TYPE_CMD_COMPLETION_EVENT then
    on_hc c (fun h => set_command (cmd_irq_completed h) (cmd_completion_events h ++ [p]) h) s
  else if trb_type t =? XHCI_TRB_TYPE_TRANSFER_EVENT then
    let i := event_slot t in
    let dci := endpoint_id t in
    if (i =? 0) || (XHCI_MAX_DEVICES <=? i) then s
    else if negb (active (dev c i s)) then s
    else if dci =? 1 then on_dev c i (fun d => set_ep0 (ep0_ring d) true t d) s
    else if dci <? XHCI_MAX_DCI then
      on_dev c i (fun d => set_eps (ep_rings d) (aset (ep_transfer_completed d) dci true) (aset (ep_last_transfer_event d) dci t) d) s
    else s
  else s.

Definition is_completion (s : St) (p : Z) : bool :=
  trb_type (aget no_trb (e_trbs (e_ring s)) p) =? XHCI_TRB_TYPE_CMD_COMPLETION_EVENT.

Definition _process_events (c : Z) (s : St) : St :=
  let '(s1, ps) := if xhci_event_ring_has_unprocessed_events (e_ring s)
                   then let '(e, ps) := xhci_event_ring_dequeue_events 32 (e_ring s) in (set_e_ring e s, ps)
                   else (s, []) in
  let s2 := fold_left (fun s p => deliver c p s) ps s1 in
  on_hc c (fun h => set_command (existsb (is_completion s1) ps) (cmd_completion_events h) h) s2.

Definition _acknowledge_irq (c interrupter : Z) : M St unit :=
  let* h := gets (hc c) in
  reg_update (runtime_regs (caps h) + 0x20 + interrupter * 32) (fun v => Z.lor v XHCI_IMAN_INTERRUPT_PENDING).
Definition _xhci_irq_handler (c : Z) : M St unit := do* modify (_process_events c) in _acknowledge_irq c 0.

(** The loops that wait in steps of 100 us: [n] sleeps are within the time. *)
Fixpoint wait_for (c : Z) (finished : St -> bool) (n : nat) : M St bool :=
  let* f := gets finished in
  if f then ret true
  else
    do* modify (_process_events c) in
    let* f := gets finished in
    if f then ret true
    else
      do* timer_sleep_us 100 in
      match n with
      | O => ret false
      | S n' => wait_for c finished n'
      end.
Definition sleeps (timeout_ms : Z) : nat := Z.to_nat (timeout_ms * 10).

(** ** Commands *)

Definition _send_command_trb (c : Z) (cmd : xhci_trb_t) (timeout_ms : Z) : M St (option xhci_trb_t) :=
  let* r := gets m_ring in
  let* r' := must (xhci_command_ring_enqueue r cmd) in
  do* modify (set_m_ring r') in
  do* xhci_doorbell_manager_ring_command_doorbell in
  let* _ := wait_for c (fun s => cmd_irq_completed (hc c s)) (sleeps timeout_ms) in
  let* comp := gets (fun s => head (cmd_completion_events (hc c s))) in
  do* modify (on_hc c (set_command false [])) in
  match comp with
  | None => ret None
  | Some p =>
      let* t := gets (fun s => aget no_trb (e_trbs (e_ring s)) p) in
      if completion_code t =? XHCI_TRB_COMPLETION_CODE_SUCCESS then ret (Some t) else ret None
  end.

Definition command (type extra parameter : Z) : xhci_trb_t :=
  mkTrb parameter 0 (Z.lor (Z.shiftl type XHCI_TRB_TYPE_SHIFT) extra).
Definition slot_bits (d : xhci_device_t) : Z := Z.shiftl (slot_id d) 24.

Definition _enable_slot (c : Z) : M St (option Z) :=
  let* r := _send_command_trb c (command XHCI_TRB_TYPE_ENABLE_SLOT_CMD 0 0) 1000 in ret (option_map event_slot r).
Definition _address_device (c i : Z) (bsr : bool) : M St bool :=
  let* d := gets (dev c i) in
  let* r := _send_command_trb c (command XHCI_TRB_TYPE_ADDRESS_DEVICE_CMD
              (Z.lor (slot_bits d) (if bsr then Z.shiftl 1 9 else 0)) (xhci_get_physical_addr (input_ctx d))) 1000 in
  ret (match r with Some _ => true | None => false end).

(** ** Transfers *)

Definition completed_ok (t : xhci_trb_t) : bool :=
  (completion_code t =? XHCI_TRB_COMPLETION_CODE_SUCCESS) || (completion_code t =? XHCI_TRB_COMPLETION_CODE_SHORT_PACKET).

Definition ep0_enqueue (c i : Z) (t : xhci_trb_t) : M St unit :=
  let* d := gets (dev c i) in
  let* r := must (xhci_transfer_ring_enqueue (ep0_ring d) t) in
  modify (on_dev c i (fun d => set_ep0 r (transfer_completed d) (last_transfer_event d) d)).

(** The blocks of a control transfer. *)
Definition setup_trb (setup : list Z) (data_len : Z) (dir_in : bool) : xhci_trb_t :=
  let trt := if data_len =? 0 then 0 else if dir_in then 3 else 2 in
  mkTrb (get32 setup 0 + 2 ^ 32 * get32 setup 4) 8
    (Z.lor (Z.lor (Z.shiftl XHCI_TRB_TYPE_SETUP_STAGE XHCI_TRB_TYPE_SHIFT) (Z.shiftl 1 6)) (Z.shiftl trt 16)).
Definition data_trb (data_buf data_len : Z) (dir_in : bool) : xhci_trb_t :=
  mkTrb (xhci_get_physical_addr data_buf) data_len
    (Z.lor (Z.shiftl XHCI_TRB_TYPE_DATA_STAGE XHCI_TRB_TYPE_SHIFT) (if dir_in then Z.shiftl 1 16 else 0)).
Definition status_trb (data_len : Z) (dir_in : bool) : xhci_trb_t :=
  let status_dir := if (data_len =? 0) || dir_in then 0 else 1 in
  mkTrb 0 0 (Z.lor (Z.lor (Z.shiftl XHCI_TRB_TYPE_STATUS_STAGE XHCI_TRB_TYPE_SHIFT) (Z.shiftl 1 5)) (Z.shiftl status_dir 16)).

Definition xhci_control_transfer (c i : Z) (setup : list Z) (data_buf data_len : Z) (dir_in : bool) (timeout_ms : Z) : M St bool :=
  do* modify (on_dev c i (fun d => set_ep0 (ep0_ring d) false (last_transfer_event d) d)) in
  do* ep0_enqueue c i (setup_trb setup data_len dir_in) in
  do* (if 0 <? data_len then ep0_enqueue c i (data_trb data_buf data_len dir_in) else ret tt) in
  do* ep0_enqueue c i (status_trb data_len dir_in) in
  let* d := gets (dev c i) in
  do* xhci_doorbell_manager_ring_doorbell (slot_id d) XHCI_DOORBELL_TARGET_CONTROL_EP_RING in
  let* ok := wait_for c (fun s => transfer_completed (dev c i s)) (sleeps timeout_ms) in
  if ok then let* d := gets (dev c i) in ret (completed_ok (last_transfer_event d)) else ret false.

Definition xhci_queue_transfer (c i ep_addr buf len : Z) : M St bool :=
  let dci := xhci_dci_from_ep_addr ep_addr in
  if (dci <? 2) || (XHCI_MAX_DCI <=? dci) then ret false
  else
    do* modify (on_dev c i (fun d => set_eps (ep_rings d) (aset (ep_transfer_completed d) dci false) (ep_last_transfer_event d) d)) in
    let* d := gets (dev c i) in
    let* r := must (xhci_transfer_ring_enqueue (aget no_ring (ep_rings d) dci)
                (mkTrb (xhci_get_physical_addr buf) len
                   (Z.lor (Z.shiftl XHCI_TRB_TYPE_NORMAL XHCI_TRB_TYPE_SHIFT) (Z.shiftl 1 5)))) in
    do* modify (on_dev c i (fun d => set_eps (aset (ep_rings d) dci r) (ep_transfer_completed d) (ep_last_transfer_event d) d)) in
    do* xhci_doorbell_manager_ring_doorbell (slot_id d) dci in ret true.

Definition xhci_wait_transfer (c i ep_addr timeout_ms : Z) : M St bool :=
  let dci := xhci_dci_from_ep_addr ep_addr in
  let* ok := wait_for c (fun s => aget false (ep_transfer_completed (dev c i s)) dci) (sleeps timeout_ms) in
  if ok then let* d := gets (dev c i) in ret (completed_ok (aget no_trb (ep_last_transfer_event d) dci)) else ret false.

(** ** Contexts *)

Definition ctx_size (h : xhci_controller_t) : Z := if csz (caps h) then 64 else 32.
Definition update_word (a : Z) (f : Z -> Z) : M St unit :=
  modify (on_memory (fun m => store32 m a (u32 (f (load32 m a))))).
Definition clear_memory (a n : Z) : M St unit := modify (on_memory (fun m => fill m a n 0)).
Definition copy_memory (d a n : Z) : M St unit := modify (on_memory (fun m => blit m d (fun i => m (a + i)) n)).

(** An endpoint context: type, packet size, interval, average length, ring. *)
Definition fill_endpoint_context (a type max_packet_size interval avg phys : Z) : M St unit :=
  do* update_word (a + 4) (set_bits 3 3 type) in
  do* update_word (a + 4) (set_bits 1 2 3) in
  do* update_word (a + 4) (set_bits 16 16 max_packet_size) in
  do* update_word a (set_bits 16 8 interval) in
  do* update_word (a + 16) (set_bits 0 16 avg) in
  do* update_word (a + 8) (fun _ => Z.lor (Z.land phys 0xFFFFFFF0) 1) in
  update_word (a + 12) (fun _ => Z.land (Z.shiftr phys 32) 0xFFFFFFFF).

Definition new_transfer_ring : M St xhci_transfer_ring_t :=
  let* phys := rings_memory XHCI_TRANSFER_RING_TRB_COUNT in
  must (xhci_transfer_ring_init XHCI_TRANSFER_RING_TRB_COUNT phys).

Definition xhci_configure_endpoint (c i ep_addr ep_attrs max_pkt_size interval : Z) : M St bool :=
  let dci := xhci_dci_from_ep_addr ep_addr in
  let dir_in := testb ep_addr 0x80 in
  if (dci <? 2) || (XHCI_MAX_DCI <=? dci) then ret false
  else
    let* r := new_transfer_ring in
    do* modify (on_dev c i (fun d =>
          set_eps (aset (ep_rings d) dci r) (aset (ep_transfer_completed d) dci false) (ep_last_transfer_event d) d)) in
    let* size := gets (fun s => ctx_size (hc c s)) in
    let* d := gets (dev c i) in
    let inp := input_ctx d in
    let in_slot := inp + size in
    do* clear_memory inp (size * 34) in
    do* update_word (inp + 4) (fun _ => Z.lor (Z.shiftl 1 0) (Z.shiftl 1 dci)) in
    do* copy_memory in_slot (output_ctx d) 32 in
    do* update_word in_slot (fun w => if get_bits 27 5 w <? dci then set_bits 27 5 dci w else w) in
    do* fill_endpoint_context (inp + size * (dci + 1)) (_usb_ep_attrs_to_xhci_type ep_attrs dir_in) max_pkt_size
          (_binterval_to_xhci_interval interval (speed d)) max_pkt_size (physical_base r) in
    let* comp := _send_command_trb c (command XHCI_TRB_TYPE_CONFIGURE_ENDPOINT_CMD (slot_bits d) (xhci_get_physical_addr inp)) 1000 in
    ret (match comp with Some _ => true | None => false end).

(** ** A device on a port *)

Definition get_descriptor_setup : list Z := [0x80; 6; 0; 1; 0; 0; 18; 0].

Definition _get_device_descriptor (c i : Z) : M St bool :=
  let* buf := alloc_xhci_memory 64 64 PAGE_SIZE in
  if buf =? 0 then ret false
  else
    do* clear_memory buf 64 in
    let* ok := xhci_control_transfer c i get_descriptor_setup buf 18 true 2000 in
    do* (if ok then modify (fun s => on_dev c i (set_descriptor (map (fun k => memory s (buf + k)) (seqZ 0 18))) s) else ret tt) in
    ret ok.

Fixpoint call_back (c i : Z) (cbs : list Z) : M St unit :=
  match cbs with
  | [] => ret tt
  | f :: cbs' => do* run_cb f c i in call_back c i cbs'
  end.

Definition _enumerate_device (c port speed : Z) : M St bool :=
  let* r := _enable_slot c in
  match r with
  | None => ret false
  | Some i =>
      if (i =? 0) || (XHCI_MAX_DEVICES <=? i) then ret false
      else
        do* modify (on_dev c i (fun _ => mkDev true i port speed 0 0 no_ring false no_trb
              (replicate 32 no_ring) (replicate 32 false) (replicate 32 no_trb) (replicate 18 0))) in
        let* h := gets (hc c) in
        let size := ctx_size h in
        let* out := alloc_xhci_memory (size * 33) XHCI_DEVICE_CONTEXT_ALIGNMENT PAGE_SIZE in
        do* modify (on_dev c i (set_ctx out 0)) in
        if out =? 0 then do* modify (on_dev c i (set_active false)) in ret false
        else
          do* clear_memory out (size * 33) in
          do* modify (on_memory (fun m => store64 m (dcbaa h + 8 * i) (xhci_get_physical_addr out))) in
          do* modify (on_hc c (fun h => set_dcbaa (dcbaa h) (aset (dcbaa_virt h) i out) h)) in
          let* inp := alloc_xhci_memory (size * 34) XHCI_DEVICE_CONTEXT_ALIGNMENT PAGE_SIZE in
          do* modify (on_dev c i (set_ctx out inp)) in
          if inp =? 0 then do* modify (on_dev c i (set_active false)) in ret false
          else
            do* clear_memory inp (size * 34) in
            let* r := new_transfer_ring in
            do* modify (on_dev c i (fun d => set_ep0 r (transfer_completed d) (last_transfer_event d) d)) in
            do* update_word (inp + 4) (fun _ => Z.lor (Z.shiftl 1 0) (Z.shiftl 1 1)) in
            let slot := inp + size in
            do* update_word slot (set_bits 0 20 0) in
            do* update_word slot (set_bits 20 4 speed) in
            do* update_word slot (set_bits 27 5 1) in
            do* update_word (slot + 4) (set_bits 16 8 (port + 1)) in
            do* fill_endpoint_context (inp + size * 2) XHCI_ENDPOINT_TYPE_CONTROL (_ep0_max_packet_size_for_speed speed) 0 8 (physical_base r) in
            let* ok := _address_device c i false in
            if negb ok then do* modify (on_dev c i (set_active false)) in ret false
            else
              let* ok := _get_device_descriptor c i in
              if negb ok then do* modify (on_dev c i (set_active false)) in ret false
              else
                let* cbs := gets m_probe_cbs in
                do* call_back c i cbs in ret true
  end.

(** ** Ports *)

Definition PORTSC_CCS : Z := 2 ^ 0.
Definition PORTSC_PED : Z := 2 ^ 1.
Definition PORTSC_PR : Z := 2 ^ 4.
Definition PORTSC_PP : Z := 2 ^ 9.
Definition PORTSC_CSC : Z := 2 ^ 17.
Definition PORTSC_PEC : Z := 2 ^ 18.
Definition PORTSC_WRC : Z := 2 ^ 19.
Definition PORTSC_PRC : Z := 2 ^ 21.
Definition port_speed (v : Z) : Z := get_bits 10 4 v.

Definition portsc (c n : Z) (s : St) : Z := op_regs (caps (hc c s)) + 0x400 + 0x10 * n.
Definition _read_portsc_reg (c n : Z) : M St Z := let* a := gets (portsc c n) in reg_read 4 a.
Definition _write_portsc_reg (c v n : Z) : M St unit := let* a := gets (portsc c n) in reg_write 4 a v.
Definition _is_usb3_port (c n : Z) (s : St) : bool := existsb (fun p => p =? n) (usb3_ports (hc c s)).

(** Read up to [n] times, a millisecond apart, until [test] gives a value. *)
Fixpoint poll {A} (test : M St (option A)) (n : nat) : M St (option A) :=
  match n with
  | O => ret None
  | S n' =>
      let* r := test in
      match r with
      | Some a => ret (Some a)
      | None => do* timer_sleep_ms 1 in poll test n'
      end
  end.

(** The change bits are cleared by writing ones; PED would be too. *)
Definition change_bits (v : Z) : Z :=
  Z.lor (Z.lor (Z.lor (Z.lor (Z.ldiff v PORTSC_PED) PORTSC_CSC) PORTSC_PEC) PORTSC_PRC) PORTSC_WRC.

Definition _reset_port (c n : Z) : M St bool :=
  let* v := _read_portsc_reg c n in
  let* powered :=
    (if testb v PORTSC_PP then ret (Some v)
     else
       do* _write_portsc_reg c (Z.lor v PORTSC_PP) n in
       do* timer_sleep_ms 20 in
       let* v := _read_portsc_reg c n in ret (if testb v PORTSC_PP then Some v else None)) in
  match powered with
  | None => ret false
  | Some v =>
      do* _write_portsc_reg c (change_bits v) n in
      let* v := _read_portsc_reg c n in
      let* usb3 := gets (_is_usb3_port c n) in
      do* (if usb3 then ret tt else _write_portsc_reg c (Z.lor v PORTSC_PR) n) in
      let* r := poll (let* v := _read_portsc_reg c n in ret (if testb v PORTSC_PED then Some v else None)) 200 in
      match r with
      | None => ret false
      | Some v => do* _write_portsc_reg c (change_bits v) n in ret true
      end
  end.

(** ** Controllers *)

Definition bits_clear (a m : Z) : M St (option unit) := let* v := reg_read 4 a in ret (if testb v m then None else Some tt).
Definition bits_set (a m : Z) : M St (option unit) := let* v := reg_read 4 a in ret (if testb v m then Some tt else None).
Definition usbcmd (h : xhci_controller_t) : Z := op_regs (caps h).
Definition usbsts (h : xhci_controller_t) : Z := op_regs (caps h) + 4.

Definition _start_host_controller (c : Z) : M St bool :=
  let* h := gets (hc c) in
  do* reg_update (usbcmd h) (fun v => Z.lor v (Z.lor XHCI_USBCMD_RUN_STOP XHCI_USBCMD_INTERRUPTER_ENABLE)) in
  let* r := poll (bits_clear (usbsts h) XHCI_USBSTS_HCH) 1000 in
  match r with
  | None => ret false
  | Some _ => let* v := reg_read 4 (usbsts h) in ret (negb (testb v XHCI_USBSTS_CNR))
  end.

Definition reset_finished (h : xhci_controller_t) : M St (option unit) :=
  let* a := reg_read 4 (usbcmd h) in
  if testb a XHCI_USBCMD_HCRESET then ret None else bits_clear (usbsts h) XHCI_USBSTS_CNR.
Definition _reset_host_controller (c : Z) : M St bool :=
  let* h := gets (hc c) in
  do* reg_update (usbcmd h) (fun v => Z.ldiff v XHCI_USBCMD_RUN_STOP) in
  let* r := poll (bits_set (usbsts h) XHCI_USBSTS_HCH) 200 in
  match r with
  | None => ret false
  | Some _ =>
      do* reg_update (usbcmd h) (fun v => Z.lor v XHCI_USBCMD_HCRESET) in
      let* r := poll (reset_finished h) 1000 in
      match r with
      | None => ret false
      | Some _ => do* timer_sleep_ms 50 in ret true
      end
  end.

(** The counter [i] has 8 bits, as the number of the buffers has. *)
Fixpoint scratchpads (spa : Z) (i : Z) (n : nat) : M St unit :=
  match n with
  | O => ret tt
  | S n' =>
      let* sp := alloc_xhci_memory PAGE_SIZE PAGE_SIZE PAGE_SIZE in
      do* modify (on_memory (fun m => store64 m (spa + 8 * i) (xhci_get_physical_addr sp))) in
      scratchpads spa (i + 1) n'
  end.

Definition _setup_dcbaa (c : Z) : M St unit :=
  let* h := gets (hc c) in
  let slots := max_device_slots (caps h) + 1 in
  let* a := alloc_xhci_memory (8 * slots) XHCI_DEVICE_CONTEXT_INDEX_ALIGNMENT PAGE_SIZE in
  if a =? 0 then diverge
  else
    do* modify (on_hc c (set_dcbaa a (replicate (Z.to_nat slots) 0))) in
    do* clear_memory a (8 * slots) in
    let buffers := max_scratchpad_buffers (caps h) in
    do* (if 0 <? buffers then
           let* spa := alloc_xhci_memory (buffers * 8) XHCI_DEVICE_CONTEXT_ALIGNMENT PAGE_SIZE in
           do* scratchpads spa 0 (Z.to_nat buffers) in
           do* modify (on_memory (fun m => store64 m a (xhci_get_physical_addr spa))) in
           modify (on_hc c (fun h => set_dcbaa a (aset (dcbaa_virt h) 0 spa) h))
         else ret tt) in
    reg_write 8 (op_regs (caps h) + 0x30) (xhci_get_physical_addr a).

Definition _configure_operational_registers (c : Z) : M St unit :=
  let* h := gets (hc c) in
  do* reg_write 4 (op_regs (caps h) + 0x14) 0xffff in
  do* reg_write 4 (op_regs (caps h) + 0x38) (max_device_slots (caps h)) in
  do* _setup_dcbaa c in
  let* phys := rings_memory XHCI_COMMAND_RING_TRB_COUNT in
  let* r := must (xhci_command_ring_init XHCI_COMMAND_RING_TRB_COUNT phys) in
  do* modify (set_m_ring r) in
  reg_write 8 (op_regs (caps h) + 0x18)
    (Z.lor (xhci_command_ring_get_physical_base r) (xhci_command_ring_get_cycle_bit r)).

(** ERDP is kept in [e_ring]; the segment table has one entry. *)
Definition _configure_runtime_registers (c : Z) : M St unit :=
  let* h := gets (hc c) in
  do* reg_write 4 (usbsts h) XHCI_USBSTS_EINT in
  let ir := runtime_regs (caps h) + 0x20 in
  do* reg_update ir (fun v => Z.lor v XHCI_IMAN_INTERRUPT_ENABLE) in
  let* phys := rings_memory XHCI_EVENT_RING_TRB_COUNT in
  let* table := alloc_xhci_memory 16 64 PAGE_SIZE in
  if table =? 0 then diverge
  else
    do* modify (on_memory (fun m => store64 m table phys)) in
    do* modify (on_memory (fun m => store32 (store32 m (table + 8) XHCI_EVENT_RING_TRB_COUNT) (table + 12) 0)) in
    do* reg_write 4 (ir + 8) 1 in
    do* modify (set_e_ring (xhci_event_ring_init XHCI_EVENT_RING_TRB_COUNT phys)) in
    do* reg_write 8 (ir + 16) (xhci_get_physical_addr table) in
    _acknowledge_irq c 0.

(** *** Registers and extended capabilities *)

Definition _parse_capability_registers (c n : nat) (base : Z) : M St unit :=
  let* caplength := reg_read 1 base in
  let* hcsparams1 := reg_read 4 (base + 4) in
  let* hcsparams2 := reg_read 4 (base + 8) in
  let* hccparams1 := reg_read 4 (base + 0x10) in
  let* dboff := reg_read 4 (base + 0x14) in
  let* rtsoff := reg_read 4 (base + 0x18) in
  let flag k := Z.testbit hccparams1 k in
  do* modify (on_hc (Z.of_nat c) (set_caps n
        (mkCaps base caplength (Z.land hcsparams1 0xFF) (u8 (get_bits 8 11 hcsparams1)) (get_bits 24 8 hcsparams1)
           (Z.land hcsparams2 0xF) (get_bits 4 4 hcsparams2)
           (u8 (Z.lor (Z.shiftl (get_bits 21 5 hcsparams2) 5) (get_bits 27 5 hcsparams2)))
           (flag 0) (flag 1) (flag 2) (flag 3) (flag 4) (flag 5)
           (get_bits 16 16 hccparams1 * 4) (base + caplength) (base + rtsoff)))) in
  xhci_doorbell_manager_init (base + dboff).

(** [xhci_extended_capability_init] calls itself for the next one: [fuel]
    bounds the length of the list. *)
Fixpoint xhci_extended_capability_init (fuel : nat) (a : Z) : M St (list xhci_extended_capability_t) :=
  match fuel with
  | O => diverge
  | S fuel' =>
      let* w := reg_read 4 a in
      let e := mkExtCap a w in
      if ext_cap_next e =? 0 then ret [e]
      else
        let* ok := gets (fun s => kmalloc_ok (kmallocs (pci s))) in
        do* modify (fun s => set_pci (count_kmalloc (pci s)) s) in
        if negb ok then ret [e]
        else let* l := xhci_extended_capability_init fuel' (a + ext_cap_next e * 4) in ret (e :: l)
  end.

(** The ports of the protocols of version 3.  The counter has 8 bits, so with
    255 as the last port the loop does not end. *)
Definition protocol_ports (major offset count : Z) : M St (list Z) :=
  if major =? 3 then
    let first := u8 (offset - 1) in
    let last := u8 (first + count - 1) in
    if last =? 255 then diverge else ret (seqZ first (last - first + 1))
  else ret [].
Fixpoint protocols (l : list xhci_extended_capability_t) : M St (list Z) :=
  match l with
  | [] => ret []
  | e :: l' =>
      let* ports :=
        (if xhci_extended_capability_id e =? XHCI_EXT_CAP_SUPPORTED_PROTOCOL then
           let* dword0 := reg_read 4 (m_base e) in
           let* dword2 := reg_read 4 (m_base e + 8) in
           protocol_ports (get_bits 24 8 dword0) (get_bits 0 8 dword2) (get_bits 8 8 dword2)
         else ret []) in
      let* rest := protocols l' in ret (ports ++ rest)
  end.
Definition _parse_extended_capabilites (fuel : nat) (c : Z) : M St unit :=
  let* h := gets (hc c) in
  let* l := xhci_extended_capability_init fuel (hc_base (caps h) + ext_caps_offset (caps h)) in
  let* ports := protocols l in
  modify (on_hc c (set_ports ports l)).

Definition _take_bios_ownership (c : Z) : M St unit :=
  let* h := gets (hc c) in
  match List.find (fun e => xhci_extended_capability_id e =? XHCI_EXT_CAP_USB_LEGACY_SUPPORT) (ext_caps h) with
  | None => ret tt
  | Some e =>
      do* reg_update (m_base e) (fun v => Z.lor v XHCI_LEGACY_OS_OWNED_SEMAPHORE) in
      let* _ := poll (bits_clear (m_base e) XHCI_LEGACY_BIOS_OWNED_SEMAPHORE) 200 in
      reg_update (m_base e + 4) (fun v => Z.ldiff v XHCI_LEGACY_SMI_ENABLE_BITS)
  end.

(** *** Initialisation *)

Definition _init_controller (fuel : nat) (c n : nat) : M St bool :=
  let ci := Z.of_nat c in
  let* d := gets (pci_at n) in
  do* in_pci (pci_enable_bus_mastering d) in
  let* _ := on_pci_device n (fun d => pci_map_bar kernel_space d 0) in
  let* d := gets (pci_at n) in
  do* _parse_capability_registers c n (bar_virt_base (bar_at (bars d) 0)) in
  do* _parse_extended_capabilites fuel ci in
  do* _take_bios_ownership ci in
  let* ok := _reset_host_controller ci in
  if negb ok then ret false
  else
    do* _configure_operational_registers ci in
    do* _configure_runtime_registers ci in
    do* modify (on_hc ci (fun h => set_command (cmd_irq_completed h) [] h)) in
    let* _ := on_pci_device n (fun d => pci_enable_intx lapic_id d (handler_of ci)) in
    ret true.

Definition is_xhci (d : pci_device_t) : bool :=
  (class_code d =? 0x0C) && (subclass d =? 0x03) && (prog_if d =? 0x30).

(** The PCI devices from the [n]th on. *)
Fixpoint init_devices (fuel : nat) (n : nat) (l : list pci_device_t) : M St unit :=
  match l with
  | [] => ret tt
  | d :: l' =>
      let* count := gets m_controller_count in
      do* (if is_xhci d && (count <? XHCI_MAX_CONTROLLERS) then
             do* modify (on_hc count (fun _ => zero_controller)) in
             let* ok := _init_controller fuel (Z.to_nat count) n in
             if ok then modify (set_count (count + 1)) else ret tt
           else ret tt) in
      init_devices fuel (S n) l'
  end.
Definition xhci_init_device (fuel : nat) : M St bool :=
  let* l := gets (fun s => g_device_list (pci s)) in
  do* init_devices fuel 0 l in
  let* count := gets m_controller_count in ret (negb (count =? 0)).

Fixpoint for_ports (body : Z -> M St unit) (n : Z) (left : nat) : M St unit :=
  match left with
  | O => ret tt
  | S left' => do* body n in for_ports body (n + 1) left'
  end.
Definition power_port (c n : Z) : M St unit :=
  let* v := _read_portsc_reg c n in
  if testb v PORTSC_PP then ret tt else _write_portsc_reg c (Z.lor v PORTSC_PP) n.
Definition scan_port (c n : Z) : M St unit :=
  let* v := _read_portsc_reg c n in
  if negb (testb v PORTSC_PP) then ret tt
  else if testb v PORTSC_CCS then
    let* ok := _reset_port c n in
    if ok then
      let* v := _read_portsc_reg c n in
      let* _ := _enumerate_device c n (port_speed v) in ret tt
    else ret tt
  else ret tt.
Definition _start_controller (c : Z) : M St bool :=
  let* ok := _start_host_controller c in
  if negb ok then ret false
  else
    let* h := gets (hc c) in
    let ports := Z.to_nat (max_ports (caps h)) in
    do* for_ports (power_port c) 0 ports in
    do* timer_sleep_ms 500 in
    do* for_ports (scan_port c) 0 ports in ret true.
Definition _stop_controller (c : Z) : M St unit :=
  modify (on_hc c (fun h => set_ports [] (ext_caps h) (set_command (cmd_irq_completed h) [] h))).

Definition xhci_start_device : M St unit :=
  let* count := gets m_controller_count in
  for_ports (fun c => let* _ := _start_controller c in ret tt) 0 (Z.to_nat count).
Definition xhci_stop_device : M St unit :=
  let* count := gets m_controller_count in for_ports _stop_controller 0 (Z.to_nat count).
Definition xhci_register_probe_callback (cb : Z) : M St unit :=
  modify (fun s => if Z.of_nat (length (m_probe_cbs s)) <? XHCI_MAX_PROBE_CBS then set_probe_cbs (m_probe_cbs s ++ [cb]) s else s).
End driver.
