(* ===== verification/XhciFacts.v ===== *)
(** * The xHCI driver: events reach the endpoints they name

    The controller posts events at any time, and the kernel handles them in
    interrupts and while it waits; the proof that a transfer event is recorded
    for the endpoint it names and for no other, and where the bookkeeping of
    commands goes wrong. *)

From S2P Require Import Prelude Bytes StateMonad PhysMem Pmm Vmm Acpi Interrupts Pci XhciRings Xhci.
#[local] Open Scope Z_scope.

(** The cycle bit is no part of what an event says. *)
Lemma shiftr_set_cycle t b k : 1 <= k -> Z.shiftr (control (set_cycle_bit t b)) k = Z.shiftr (control t) k.
Proof.
  intros Hk. unfold set_cycle_bit. cbn [control]. apply Z.bits_inj'. intros j Hj.
  rewrite !Z.shiftr_spec by lia. bits_simpl. change 1 with (2 ^ 0) at 1 2. rewrite !Z.pow2_bits_false by lia.
  by rewrite !andb_false_r, orb_false_r, andb_true_r.
Qed.
Lemma payload_fields t : trb_type (payload t) = trb_type t /\ event_slot (payload t) = event_slot t /\
  endpoint_id (payload t) = endpoint_id t.
Proof. unfold trb_type, event_slot, endpoint_id, payload. rewrite !shiftr_set_cycle by lia. done. Qed.

Lemma event_slot_range t : 0 <= event_slot t < 256.
Proof. unfold event_slot. pose proof (land_range_r (Z.shiftr (control t) 24) 0xFF ltac:(lia)). lia. Qed.
Lemma endpoint_id_range t : 0 <= endpoint_id t < 32.
Proof. unfold endpoint_id. pose proof (land_range_r (Z.shiftr (control t) 16) 0x1F ltac:(lia)). lia. Qed.

#[local] Opaque zero_controller zero_device event_slot endpoint_id trb_type.

Section facts.
Context {Hd X : Type} `{!PciHw X}.
#[local] Abbreviation St := (xhci_state Hd X).
Implicit Types s : St.

(** ** What is recorded *)

(** For endpoint [dci] of the device [i]: whether a transfer has ended, and the
    event that said so. *)
Definition record_of (c i dci : Z) (s : St) : bool * xhci_trb_t :=
  let d := dev c i s in
  if dci =? 1 then (transfer_completed d, last_transfer_event d)
  else (aget false (ep_transfer_completed d) dci, aget no_trb (ep_last_transfer_event d) dci).

(** The event is about the endpoint. *)
Definition concerns (i dci : Z) (t : xhci_trb_t) : bool :=
  (trb_type t =? XHCI_TRB_TYPE_TRANSFER_EVENT) && (event_slot t =? i) && (endpoint_id t =? dci).

Definition endpoint (i dci : Z) : Prop := 1 <= i < 256 /\ 1 <= dci < 32.

Record tables_ok (c : Z) (s : St) : Prop := {
  to_hc : 0 <= c < Z.of_nat (length (m_controllers s));
  to_devices : length (devices (hc c s)) = 256%nat;
  to_eps : forall i, length (ep_transfer_completed (dev c i s)) = 32%nat /\ length (ep_last_transfer_event (dev c i s)) = 32%nat
}.

(** ** One event *)

Lemma hc_on_hc c f s : 0 <= c < Z.of_nat (length (m_controllers s)) -> hc c (on_hc c f s) = f (hc c s).
Proof using Type. intros Hc. unfold hc at 1, on_hc. simpl. by rewrite aget_aset_eq. Qed.

Lemma dev_on_dev c i j f s : tables_ok c s -> 0 <= i < 256 ->
  dev c j (on_dev c i f s) = if j =? i then f (dev c i s) else dev c j s.
Proof using Type.
  intros [Hc Hl _] Hi. unfold dev, on_dev. rewrite hc_on_hc by done. simpl.
  destruct (Z.eqb_spec j i) as [->|Hne].
  - rewrite aget_aset_eq by lia. done.
  - by rewrite aget_aset_ne by lia.
Qed.

Lemma tables_on_dev c i f s : tables_ok c s -> 0 <= i < 256 ->
  (length (ep_transfer_completed (f (dev c i s))) = 32%nat /\ length (ep_last_transfer_event (f (dev c i s))) = 32%nat) ->
  tables_ok c (on_dev c i f s).
Proof using Type.
  intros Hok Hi Hf. pose proof Hok as [Hc Hl He]. split.
  - unfold on_dev, on_hc. simpl. by rewrite length_aset.
  - unfold on_dev. rewrite hc_on_hc by done. simpl. by rewrite length_aset.
  - intros j. rewrite dev_on_dev by done. by destruct (j =? i).
Qed.
Lemma tables_on_hc c f s : tables_ok c s -> devices (f (hc c s)) = devices (hc c s) -> tables_ok c (on_hc c f s).
Proof using Type.
  intros [Hc Hl He] Hf. split.
  - unfold on_hc. simpl. by rewrite length_aset.
  - by rewrite hc_on_hc, Hf by done.
  - intros i. unfold dev. rewrite hc_on_hc, Hf by done. apply He.
Qed.
Lemma dev_on_hc c i f s : tables_ok c s -> devices (f (hc c s)) = devices (hc c s) -> dev c i (on_hc c f s) = dev c i s.
Proof using Type. intros [Hc _ _] Hf. unfold dev. by rewrite hc_on_hc, Hf by done. Qed.

(** What handling an event does: the ring stays; an active device's endpoint
    gets the event that names it; nothing else of any device changes. *)
Lemma deliver_records c p s : tables_ok c s ->
  let t := aget no_trb (e_trbs (e_ring s)) p in
  let s' := deliver c p s in
  tables_ok c s' /\ e_ring s' = e_ring s /\
  (forall i, active (dev c i s') = active (dev c i s)) /\
  (forall i dci, endpoint i dci -> record_of c i dci s' =
     if active (dev c i s) && concerns i dci t then (true, t) else record_of c i dci s) /\
  cmd_completion_events (hc c s') =
    cmd_completion_events (hc c s) ++ (if is_completion s p then [p] else []).
Proof using Type.
  intros Hok t s'. subst s'. unfold deliver, is_completion. fold t.
  destruct (Z.eqb_spec (trb_type t) XHCI_TRB_TYPE_CMD_COMPLETION_EVENT) as [Et|Nt].
  { split_and!.
    - by apply tables_on_hc.
    - done.
    - intros i. by rewrite dev_on_hc.
    - intros i dci _. unfold concerns. rewrite Et. simpl. rewrite andb_false_r.
      unfold record_of. by rewrite dev_on_hc.
    - rewrite hc_on_hc by apply Hok. done. }
  unfold concerns. destruct (Z.eqb_spec (trb_type t) XHCI_TRB_TYPE_TRANSFER_EVENT) as [Et|Nt'].
  2:{ split_and!; try done; [|by rewrite app_nil_r]. intros i dci _. by rewrite andb_false_r. }
  pose proof (event_slot_range t) as Hslot. pose proof (endpoint_id_range t) as Hdci.
  cbv zeta. unfold XHCI_MAX_DEVICES, XHCI_MAX_DCI. destruct (Z.leb_spec 256 (event_slot t)) as [|_]; [lia|].
  rewrite orb_false_r. cbn [andb].
  destruct (Z.eqb_spec (event_slot t) 0) as [E0|N0].
  { split_and!; try done; [|by rewrite app_nil_r]. intros i dci [Hi _].
    destruct (Z.eqb_spec (event_slot t) i); [lia|]. cbn [andb]. by rewrite andb_false_r. }
  destruct (active (dev c (event_slot t) s)) eqn:Ha; cbn [negb].
  2:{ split_and!; try done; [|by rewrite app_nil_r]. intros i dci _.
    destruct (Z.eqb_spec (event_slot t) i) as [<-|]; cbn [andb]; [by rewrite Ha|by rewrite andb_false_r]. }
  destruct (to_eps c s Hok (event_slot t)) as [L1 L2].
  destruct (Z.eqb_spec (endpoint_id t) 1) as [E1|N1]; [|destruct (Z.ltb_spec (endpoint_id t) 32) as [_|]; [|lia]].
  - split_and!; [by apply tables_on_dev|done| | |].
    + intros i. rewrite dev_on_dev by done. by destruct (Z.eqb_spec i (event_slot t)) as [->|].
    + intros i dci Hi. unfold record_of. rewrite dev_on_dev by done. rewrite (Z.eqb_sym (event_slot t)).
      destruct (Z.eqb_spec i (event_slot t)) as [->|]; cbn [andb]; [|by rewrite andb_false_r].
      rewrite Ha, E1, (Z.eqb_sym 1). simpl. by destruct (dci =? 1).
    + unfold on_dev. rewrite hc_on_hc by apply Hok. by rewrite app_nil_r.
  - split_and!; [apply tables_on_dev; [done..|simpl; by rewrite !length_aset]|done| | |].
    + intros i. rewrite dev_on_dev by done. by destruct (Z.eqb_spec i (event_slot t)) as [->|].
    + intros i dci Hi. unfold record_of. rewrite dev_on_dev by done. rewrite (Z.eqb_sym (event_slot t)).
      destruct (Z.eqb_spec i (event_slot t)) as [->|]; cbn [andb]; [|by rewrite andb_false_r].
      rewrite Ha. simpl. destruct (Z.eqb_spec dci 1) as [->|].
      * by destruct (Z.eqb_spec (endpoint_id t) 1).
      * destruct (Z.eqb_spec (endpoint_id t) dci) as [<-|].
        -- by rewrite !aget_aset_eq by lia.
        -- by rewrite !aget_aset_ne by lia.
    + unfold on_dev. rewrite hc_on_hc by apply Hok. by rewrite app_nil_r.
Qed.

(** ** A batch *)

(** The last event of a log about the endpoint, if there is one. *)
Definition latest (i dci : Z) (log : list xhci_trb_t) (r : bool * xhci_trb_t) : bool * xhci_trb_t :=
  fold_left (fun r t => if concerns i dci t then (true, t) else r) log r.
Definition payload_of (r : bool * xhci_trb_t) : bool * xhci_trb_t := (r.1, payload r.2).

Lemma concerns_payload i dci t : concerns i dci (payload t) = concerns i dci t.
Proof using Type. unfold concerns. destruct (payload_fields t) as (-> & -> & ->). done. Qed.

Definition is_command (t : xhci_trb_t) : bool := trb_type t =? XHCI_TRB_TYPE_CMD_COMPLETION_EVENT.
Lemma is_completion_payload s p : is_completion s p = is_command (payload (aget no_trb (e_trbs (e_ring s)) p)).
Proof using Type. unfold is_completion, is_command. by destruct (payload_fields (aget no_trb (e_trbs (e_ring s)) p)) as (-> & _). Qed.

Lemma deliver_all c ps : forall s, tables_ok c s ->
  let s' := fold_left (fun s p => deliver c p s) ps s in
  let log := read_events (e_ring s) ps in
  tables_ok c s' /\ e_ring s' = e_ring s /\
  (forall i, active (dev c i s') = active (dev c i s)) /\
  (forall i dci, endpoint i dci -> payload_of (record_of c i dci s') =
     if active (dev c i s) then latest i dci log (payload_of (record_of c i dci s)) else payload_of (record_of c i dci s)) /\
  length (cmd_completion_events (hc c s')) =
    (length (cmd_completion_events (hc c s)) + length (List.filter is_command log))%nat.
Proof using Type.
  induction ps as [|p ps IH]; intros s Hok; cbn [fold_left read_events map].
  { split_and!; try done. intros i dci _. by destruct (active (dev c i s)). }
  destruct (deliver_records c p s Hok) as (Hok1 & Er & Ha & Hr & Hc).
  destruct (IH _ Hok1) as (Hok2 & Er2 & Ha2 & Hr2 & Hc2). fold (read_events (e_ring s) ps). rewrite Er in Er2, Hr2, Hc2.
  split_and!; try done.
  - intros i. by rewrite Ha2, Ha.
  - intros i dci Hi. rewrite Hr2, Ha, Hr by done. destruct (active (dev c i s)); cbn [andb]; [|done].
    unfold latest. cbn [fold_left]. rewrite concerns_payload.
    by destruct (concerns i dci (aget no_trb (e_trbs (e_ring s)) p)).
  - rewrite Hc2, Hc, length_app, is_completion_payload. cbn [List.filter].
    destruct (is_command (payload (aget no_trb (e_trbs (e_ring s)) p))); cbn [length]; lia.
Qed.

(** The places an interrupt would take now. *)
Definition batch (s : St) : list Z :=
  if xhci_event_ring_has_unprocessed_events (e_ring s) then (xhci_event_ring_dequeue_events 32 (e_ring s)).2 else [].

Lemma tables_set_ring c e s : tables_ok c s -> tables_ok c (set_e_ring e s).
Proof using Type. intros [Hc Hl He]. by split. Qed.

(** What an interrupt does when the events [q] wait. *)
Lemma process_spec c s p q : tables_ok c s -> events_ok (e_ring s) p q ->
  let s' := _process_events c s in
  let log := read_events (e_ring s) (batch s) in
  log = firstn 32 q /\ tables_ok c s' /\
  (forall i, active (dev c i s') = active (dev c i s)) /\
  (forall i dci, endpoint i dci -> payload_of (record_of c i dci s') =
     if active (dev c i s) then latest i dci log (payload_of (record_of c i dci s)) else payload_of (record_of c i dci s)) /\
  length (cmd_completion_events (hc c s')) =
    (length (cmd_completion_events (hc c s)) + length (List.filter is_command log))%nat /\
  cmd_irq_completed (hc c s') = existsb is_command log /\
  e_ring s' = if xhci_event_ring_has_unprocessed_events (e_ring s)
              then (xhci_event_ring_dequeue_events 32 (e_ring s)).1 else e_ring s.
Proof using Type.
  intros Hok Hev s' log. subst s' log. unfold batch, _process_events.
  assert (Hflag : forall s1 ps, existsb (is_completion s1) ps = existsb is_command (read_events (e_ring s1) ps)).
  { intros s1 ps. induction ps as [|x ps IH]; [done|]. cbn [existsb read_events map]. by rewrite IH, is_completion_payload. }
  pose proof (has_events _ _ _ Hev) as Hh.
  destruct (dequeue_loop_ok 32 _ _ _ Hev) as (e1 & ps & E & Hps & Hok1 & Ht & _).
  unfold xhci_event_ring_dequeue_events. rewrite E, Hh. cbn [fst snd].
  assert (Hrest : forall s1 ps, tables_ok c s1 ->
    let s2 := on_hc c (fun h => set_command (existsb (is_completion s1) ps) (cmd_completion_events h) h)
                (fold_left (fun s p => deliver c p s) ps s1) in
    let log := read_events (e_ring s1) ps in
    tables_ok c s2 /\ (forall i, active (dev c i s2) = active (dev c i s1)) /\
    (forall i dci, endpoint i dci -> payload_of (record_of c i dci s2) =
       if active (dev c i s1) then latest i dci log (payload_of (record_of c i dci s1)) else payload_of (record_of c i dci s1)) /\
    length (cmd_completion_events (hc c s2)) = (length (cmd_completion_events (hc c s1)) + length (List.filter is_command log))%nat /\
    cmd_irq_completed (hc c s2) = existsb is_command log /\ e_ring s2 = e_ring s1).
  { intros s1 l Hok2. destruct (deliver_all c l s1 Hok2) as (Hok3 & Er & Ha & Hr & Hc). cbv zeta.
    assert (Hdev : forall i, dev c i (on_hc c (fun h => set_command (existsb (is_completion s1) l) (cmd_completion_events h) h)
      (fold_left (fun s p => deliver c p s) l s1)) = dev c i (fold_left (fun s p => deliver c p s) l s1)) by (intros i; by rewrite dev_on_hc).
    rewrite hc_on_hc by apply Hok3. split_and!; [by apply tables_on_hc| | |done|by rewrite <- Hflag|done].
    - intros i. by rewrite Hdev.
    - intros i dci Hi. unfold record_of in *. rewrite Hdev. by apply Hr. }
  destruct q as [|x q]; cbn [length Nat.eqb negb].
  - destruct (Hrest s [] Hok) as (H1 & H2 & H3 & H4 & H5 & H6). split_and!; try done.
  - assert (El : read_events (e_ring s) ps = read_events (e_ring (set_e_ring (end_of_batch e1) s)) ps)
      by (unfold read_events; cbn [e_ring set_e_ring end_of_batch _update_erdp set_erdp e_trbs]; by rewrite Ht).
    destruct (Hrest (set_e_ring (end_of_batch e1) s) ps (tables_set_ring _ _ _ Hok)) as (H1 & H2 & H3 & H4 & H5 & H6).
    rewrite <- El in H3, H4, H5. split_and!; done.
Qed.

(** ** Events and interrupts in any order *)

(** The driver, the controller's end of the event ring, the events posted and
    the events handled. *)
Record system := mkSystem { x_st : St; x_hw : hw_producer; x_posted : list xhci_trb_t; x_handled : list xhci_trb_t }.

Inductive system_step (c : Z) : system -> system -> Prop :=
  | step_event s p posted handled t e' p' :
      hw_post t (e_ring s) p = Some (e', p') ->
      system_step c (mkSystem s p posted handled) (mkSystem (set_e_ring e' s) p' (posted ++ [payload t]) handled)
  | step_interrupt s p posted handled :
      system_step c (mkSystem s p posted handled)
        (mkSystem (_process_events c s) p posted (handled ++ read_events (e_ring s) (batch s))).

Record system_ok (c n phys : Z) (s0 : St) (y : system) (q : list xhci_trb_t) : Prop := {
  so_log : x_posted y = x_handled y ++ q;
  so_ring : events_ok (e_ring (x_st y)) (x_hw y) q;
  so_erdp : erdp_index (e_ring (x_st y)) = e_dequeue_ptr (e_ring (x_st y));
  so_count : e_segment_trb_count (e_ring (x_st y)) = n;
  so_base : e_physical_base (e_ring (x_st y)) = phys;
  so_tables : tables_ok c (x_st y);
  so_active : forall i, active (dev c i (x_st y)) = active (dev c i s0);
  so_records : forall i dci, endpoint i dci -> payload_of (record_of c i dci (x_st y)) =
    if active (dev c i s0) then latest i dci (x_handled y) (payload_of (record_of c i dci s0)) else payload_of (record_of c i dci s0);
  so_commands : length (cmd_completion_events (hc c (x_st y))) =
    (length (cmd_completion_events (hc c s0)) + length (List.filter is_command (x_handled y)))%nat
}.

Lemma system_step_ok c n phys s0 y y' q : segment_ok phys n -> system_ok c n phys s0 y q -> system_step c y y' ->
  exists q', system_ok c n phys s0 y' q'.
Proof using Type.
  intros Hseg [Hlog Hring Herdp Hn Hp Htab Hact Hrec Hcmd] Hstep. destruct Hstep as [s p posted handled t e' p' He|s p posted handled]; cbn in *.
  - destruct (hw_post_ok _ _ _ _ _ _ Hring Herdp He) as (Hring' & Hq & Hr & Hb & Hc).
    exists (q ++ [payload t]). split; cbn; try done.
    + by rewrite Hlog, app_assoc.
    + unfold erdp_index in *. congruence.
    + congruence.
    + congruence.
    + by apply tables_set_ring.
  - destruct (process_spec c s p q Htab Hring) as (Hlog' & Htab' & Hact' & Hrec' & Hcmd' & _ & Her).
    exists (drop 32 q). pose proof (has_events _ _ _ Hring) as Hh.
    destruct (dequeue_loop_ok 32 _ _ _ Hring) as (e1 & ps & E & Hps & Hok1 & Ht & Hb & Hc).
    assert (Hring2 : events_ok (e_ring (_process_events c s)) p (drop 32 q) /\
      erdp_index (e_ring (_process_events c s)) = e_dequeue_ptr (e_ring (_process_events c s)) /\
      e_segment_trb_count (e_ring (_process_events c s)) = n /\ e_physical_base (e_ring (_process_events c s)) = phys).
    { rewrite Her, Hh. unfold xhci_event_ring_dequeue_events. rewrite E. cbn [fst].
      destruct q as [|x q]; cbn [length Nat.eqb negb]; [done|].
      split_and!; [by apply end_of_batch_ok| |cbn; congruence|cbn; congruence].
      rewrite erdp_after_batch; [done|rewrite Hb, Hc, Hn, Hp; done|]. destruct Hok1. lia. }
    destruct Hring2 as (? & ? & ? & ?). rewrite Hlog' in *.
    split; cbn; try done.
    + by rewrite <- app_assoc, take_drop.
    + intros i. by rewrite Hact'.
    + intros i dci Hi. rewrite Hrec', Hact, Hrec by done. destruct (active (dev c i s0)); [|done].
      unfold latest. by rewrite fold_left_app.
    + rewrite Hcmd', Hcmd, List.filter_app, length_app. lia.
Qed.


(** ** Where the bookkeeping of commands goes wrong *)

(** An interrupt that finds no event takes back the mark an earlier one left
    for the command that waits, which then waits for its time-out. *)
Lemma idle_interrupt_clears_mark c s p : tables_ok c s -> events_ok (e_ring s) p [] ->
  cmd_irq_completed (hc c (_process_events c s)) = false /\
  length (cmd_completion_events (hc c (_process_events c s))) = length (cmd_completion_events (hc c s)).
Proof using Type.
  intros Hok Hev. destruct (process_spec c s p [] Hok Hev) as (El & _ & _ & _ & Hc & Hf & _).
  rewrite El in Hc, Hf. cbn in Hc, Hf. split; [done|lia].
Qed.
End facts.

(** Completions are not matched with commands: one that came after the time-out
    of its command answers the next command at once, whatever that is. *)
Lemma late_completion_answers_next {Hd X} `{!PciHw X} (sleep : Z -> xhci_state Hd X -> xhci_state Hd X) c cmd timeout s p r :
  cmd_irq_completed (hc c s) = true -> head (cmd_completion_events (hc c s)) = Some p ->
  xhci_command_ring_enqueue (m_ring s) cmd = Some r ->
  let t := aget no_trb (e_trbs (e_ring s)) p in
  completion_code t = XHCI_TRB_COMPLETION_CODE_SUCCESS ->
  exists s', _send_command_trb sleep c cmd timeout s = Some (Some t, s').
Proof.
  intros Hm Hh Hr t Hc. unfold _send_command_trb, bind, gets, must, modify. rewrite Hr. cbn -[completion_code hc].
  destruct (sleeps timeout); cbn -[completion_code hc]; unfold bind, gets; cbn -[completion_code hc];
    set (s1 := set_pci _ _); change (hc c s1) with (hc c s); rewrite Hm; cbn -[completion_code hc];
    change (hc c s1) with (hc c s); rewrite Hh; eexists;
    change (aget no_trb (e_trbs (e_ring (on_hc c _ s1))) p) with t; rewrite Hc; reflexivity.
Qed.

(** The interval of a slow endpoint is the logarithm of its microframes. *)
Lemma highest_bit_log2 mf n : forall v, 0 < mf -> 0 <= v -> 2 ^ v <= mf < 2 ^ (v + Z.of_nat n + 1) -> highest_bit mf n v = Z.log2 mf.
Proof.
  induction n as [|n IH]; intros v Hm Hv Hr; simpl.
  - symmetry. apply Z.log2_unique; [done|]. replace (Z.succ v) with (v + Z.of_nat 0 + 1) by lia. lia.
  - rewrite Z.shiftl_mul_pow2, Z.mul_1_l by lia. destruct (Z.leb_spec (2 ^ (v + 1)) mf).
    + apply IH; [done|lia|]. replace (v + 1 + Z.of_nat n + 1) with (v + Z.of_nat (S n) + 1) by lia. lia.
    + symmetry. apply Z.log2_unique; [done|]. replace (Z.succ v) with (v + 1) by lia. lia.
Qed.
Lemma slow_interval binterval speed : 1 <= binterval < 256 -> speed = XHCI_USB_SPEED_LOW_SPEED \/ speed = XHCI_USB_SPEED_FULL_SPEED ->
  _binterval_to_xhci_interval binterval speed = Z.log2 (binterval * 8).
Proof.
  intros Hb Hs. unfold _binterval_to_xhci_interval.
  assert (E : ((speed =? XHCI_USB_SPEED_LOW_SPEED) || (speed =? XHCI_USB_SPEED_FULL_SPEED)) = true) by (by destruct Hs as [-> | ->]).
  rewrite E, highest_bit_log2 by (change (2 ^ 0) with 1; change (2 ^ (0 + Z.of_nat 32 + 1)) with (2 ^ 33); lia).
  pose proof (Z.log2_le_mono 8 (binterval * 8) ltac:(lia)). change (Z.log2 8) with 3 in *.
  destruct (Z.ltb_spec (Z.log2 (binterval * 8)) 3); lia.
Qed.

(** A ring of four blocks, device 1 active, and the controller's event for its
    endpoint 3, handled by an interrupt. *)
Definition demo_ints : interrupts unit unit := mkInts [] [] [] 0 0 tt.
Definition demo_xhci : xhci_state unit unit :=
  mkXhci [set_devices (aset (replicate 256 zero_device) 1 (set_active true zero_device)) zero_controller] 1 []
    no_ring (xhci_event_ring_init 4 0x1000) 0 (fun _ => 0) 0 (mkPciState [] [] true 0 0 small_machine demo_ints).
Definition demo_event : xhci_trb_t := mkTrb 0 (2 ^ 24) (Z.lor (Z.shiftl 1 24) (Z.lor (Z.shiftl 3 16) (Z.shiftl 32 10))).
Definition demo_start : system := mkSystem demo_xhci (mkProducer 0 1) [] [].
Definition demo_posted : system :=
  match hw_post demo_event (e_ring demo_xhci) (mkProducer 0 1) with
  | Some (e', p') => mkSystem (set_e_ring e' demo_xhci) p' [payload demo_event] []
  | None => demo_start
  end.
Definition demo_handled : system :=
  mkSystem (_process_events 0 (x_st demo_posted)) (x_hw demo_posted) (x_posted demo_posted)
    (read_events (e_ring (x_st demo_posted)) (batch (x_st demo_posted))).

Lemma demo_steps : rtc (system_step 0) demo_start demo_handled.
Proof.
  eapply rtc_l; [|eapply rtc_once; refine (step_interrupt 0 (x_st demo_posted) (x_hw demo_posted) (x_posted demo_posted) [])].
  apply (step_event 0 demo_xhci (mkProducer 0 1) [] [] demo_event). reflexivity.
Qed.
Lemma demo_tables : tables_ok 0 demo_xhci.
Proof.
  split; [cbn; lia|by vm_compute|]. intros i.
  change (dev 0 i demo_xhci) with (aget zero_device (aset (replicate 256 zero_device) 1 (set_active true zero_device)) i).
  destruct (decide (i = 1)) as [->|Hne].
  - by vm_compute.
  - rewrite aget_aset_ne by lia. destruct (decide (0 <= i < 256)).
    + rewrite aget_replicate by lia. by vm_compute.
    + rewrite aget_outside by (rewrite length_replicate; lia). by vm_compute.
Qed.

Example demo_recorded : record_of 0 1 3 (x_st demo_handled) = (true, set_cycle_bit demo_event 1).
Proof. by vm_compute. Qed.
