(* ===== verification/Ports.v ===== *)
(** * Ports and model-specific registers (src/kernel/arch/x86_64/io.c, drivers/apic/lapic.c)

    The instructions a driver reaches its device with, as an interface: what a
    byte read from a port is and what a byte written to it does depends on the
    device [X].  x86_64_iowait is a write to a port nothing listens to. *)

From S2P Require Import Prelude StateMonad.
#[local] Open Scope Z_scope.

Class Ports (X : Type) := {
  port_in8 : Z -> X -> Z * X;
  port_out8 : Z -> Z -> X -> X
}.
Class Msrs (X : Type) := {
  msr_read : Z -> X -> Z * X;
  msr_write : Z -> Z -> X -> X
}.

Definition UNUSED_PORT : Z := 0x80.

Section access.
Context {X : Type}.

Definition x86_64_inb `{!Ports X} (port : Z) : M X Z := fun x => Some (port_in8 port x).
Definition x86_64_outb `{!Ports X} (port value : Z) : M X unit := fun x => Some (tt, port_out8 port (u8 value) x).
Definition x86_64_iowait `{!Ports X} : M X unit := x86_64_outb UNUSED_PORT 0.
Definition rdmsr `{!Msrs X} (msr : Z) : M X Z := fun x => Some (msr_read msr x).
Definition wrmsr `{!Msrs X} (msr value : Z) : M X unit := fun x => Some (tt, msr_write msr (u64 value) x).

(** The byte [v], written to [port] for each pair of the list, in order. *)
Fixpoint outb_all `{!Ports X} (l : list (Z * Z)) : M X unit :=
  match l with
  | [] => ret tt
  | (port, v) :: l' => do* x86_64_outb port v in outb_all l'
  end.
End access.
