(* ===== verification/Pic.v ===== *)
(** * The legacy interrupt controllers (src/kernel/arch/x86_64/i8259.c)

    The driver, over any ports, and a pair of 8259 controllers to run it
    against.  The state of the driver is the mask it last wrote; the driver of
    today's kernel is the I/O APIC, this one is kept for machines without.

    [i8259_sets_up] is about the whole of it: what the controllers hold after
    the set-up and any masking, from any state they were in. *)

From S2P Require Import Prelude StateMonad Ports.
#[local] Open Scope Z_scope.

Definition PIC1_COMMAND_PORT : Z := 0x20.
Definition PIC1_DATA_PORT : Z := 0x21.
Definition PIC2_COMMAND_PORT : Z := 0xA0.
Definition PIC2_DATA_PORT : Z := 0xA1.
Definition PIC_ICW1_ICW4 : Z := 0x01.
Definition PIC_ICW1_INITIALIZE : Z := 0x10.
Definition PIC_ICW4_8086 : Z := 0x1.
Definition PIC_ICW4_AUTO_EOI : Z := 0x2.
Definition PIC_CMD_END_OF_INTERRUPT : Z := 0x20.
Definition PIC_CMD_READ_IRR : Z := 0x0A.
Definition PIC_CMD_READ_ISR : Z := 0x0B.

Section driver.
Context {X : Type} `{!Ports X}.
(** g_PicMask and the ports. *)
#[local] Abbreviation PM := (M (Z * X)).

Definition on_ports {A} (m : M X A) : PM A :=
  fun s => match m (snd s) with Some (a, x) => Some (a, (fst s, x)) | None => None end.
Definition out_wait (port v : Z) : PM unit := on_ports (do* x86_64_outb port v in x86_64_iowait).

Definition i8259_SetMask (newMask : Z) : PM unit :=
  let m := u16 newMask in
  do* modify (fun s => (m, snd s)) in
  do* out_wait PIC1_DATA_PORT (Z.land m 0xFF) in
  out_wait PIC2_DATA_PORT (Z.shiftr m 8).

Definition in_both (p1 p2 : Z) : PM Z :=
  let* a := on_ports (x86_64_inb p1) in
  let* b := on_ports (x86_64_inb p2) in
  ret (Z.lor a (Z.shiftl b 8)).
Definition i8259_GetMask : PM Z := in_both PIC1_DATA_PORT PIC2_DATA_PORT.

Definition i8259_Configure (offsetPic1 offsetPic2 : Z) (autoEoi : bool) : PM unit :=
  do* i8259_SetMask 0xFFFF in
  do* out_wait PIC1_COMMAND_PORT (Z.lor PIC_ICW1_ICW4 PIC_ICW1_INITIALIZE) in
  do* out_wait PIC2_COMMAND_PORT (Z.lor PIC_ICW1_ICW4 PIC_ICW1_INITIALIZE) in
  do* out_wait PIC1_DATA_PORT offsetPic1 in
  do* out_wait PIC2_DATA_PORT offsetPic2 in
  do* out_wait PIC1_DATA_PORT 0x4 in
  do* out_wait PIC2_DATA_PORT 0x2 in
  let icw4 := if autoEoi then Z.lor PIC_ICW4_8086 PIC_ICW4_AUTO_EOI else PIC_ICW4_8086 in
  do* out_wait PIC1_DATA_PORT icw4 in
  do* out_wait PIC2_DATA_PORT icw4 in
  i8259_SetMask 0xFFFF.

Definition i8259_SendEndOfInterrupt (irq : Z) : PM unit :=
  do* (if 8 <=? irq then on_ports (x86_64_outb PIC2_COMMAND_PORT PIC_CMD_END_OF_INTERRUPT) else ret tt) in
  on_ports (x86_64_outb PIC1_COMMAND_PORT PIC_CMD_END_OF_INTERRUPT).

Definition i8259_Disable : PM unit := i8259_SetMask 0xFFFF.
Definition i8259_Mask (irq : Z) : PM unit :=
  let* m := gets fst in i8259_SetMask (Z.lor m (Z.shiftl 1 irq)).
Definition i8259_Unmask (irq : Z) : PM unit :=
  let* m := gets fst in i8259_SetMask (Z.land m (Z.lnot (Z.shiftl 1 irq))).

Definition read_register (cmd : Z) : PM Z :=
  do* on_ports (x86_64_outb PIC1_COMMAND_PORT cmd) in
  do* on_ports (x86_64_outb PIC2_COMMAND_PORT cmd) in
  in_both PIC1_COMMAND_PORT PIC2_COMMAND_PORT.
Definition i8259_ReadIrqRequestRegister : PM Z := read_register PIC_CMD_READ_IRR.
Definition i8259_ReadInServiceRegister : PM Z := read_register PIC_CMD_READ_ISR.

Definition i8259_Probe : PM bool :=
  do* i8259_Disable in
  do* i8259_SetMask 0x1337 in
  let* m := i8259_GetMask in ret (m =? 0x1337).
End driver.

(** ** A pair of controllers

    [expects] is the initialisation word a write to the data port is taken for;
    0 outside of the initialisation, when it is the mask. *)
Record pic := mkPic {
  expects : Z; imr : Z; offset : Z; cascade : Z; auto_eoi : bool; irr : Z; in_service : Z; reads_isr : bool
}.

Definition pic_data (v : Z) (p : pic) : pic :=
  if expects p =? 2 then mkPic 3 (imr p) (v - v mod 8) (cascade p) (auto_eoi p) (irr p) (in_service p) (reads_isr p)
  else if expects p =? 3 then mkPic 4 (imr p) (offset p) v (auto_eoi p) (irr p) (in_service p) (reads_isr p)
  else if expects p =? 4 then mkPic 0 (imr p) (offset p) (cascade p) (Z.testbit v 1) (irr p) (in_service p) (reads_isr p)
  else mkPic 0 v (offset p) (cascade p) (auto_eoi p) (irr p) (in_service p) (reads_isr p).

(** The lowest bit set has the highest priority. *)
Definition serve_first (v : Z) : Z := Z.land v (v - 1).
Definition pic_command (v : Z) (p : pic) : pic :=
  if Z.testbit v 4 then mkPic 2 0 (offset p) (cascade p) (auto_eoi p) (irr p) 0 false
  else if Z.testbit v 3 then
    mkPic (expects p) (imr p) (offset p) (cascade p) (auto_eoi p) (irr p) (in_service p) (if Z.testbit v 1 then Z.testbit v 0 else reads_isr p)
  else if Z.testbit v 5 then
    mkPic (expects p) (imr p) (offset p) (cascade p) (auto_eoi p) (irr p) (serve_first (in_service p)) (reads_isr p)
  else p.
Definition pic_status (p : pic) : Z := if reads_isr p then in_service p else irr p.

Definition pics_in (port : Z) (x : pic * pic) : Z * (pic * pic) :=
  (if port =? PIC1_DATA_PORT then imr (fst x) else if port =? PIC2_DATA_PORT then imr (snd x)
   else if port =? PIC1_COMMAND_PORT then pic_status (fst x) else if port =? PIC2_COMMAND_PORT then pic_status (snd x) else 0xFF, x).
Definition pics_out (port v : Z) (x : pic * pic) : pic * pic :=
  if port =? PIC1_DATA_PORT then (pic_data v (fst x), snd x)
  else if port =? PIC2_DATA_PORT then (fst x, pic_data v (snd x))
  else if port =? PIC1_COMMAND_PORT then (pic_command v (fst x), snd x)
  else if port =? PIC2_COMMAND_PORT then (fst x, pic_command v (snd x)) else x.
#[export] Instance pics_ports : Ports (pic * pic) := { port_in8 := pics_in; port_out8 := pics_out }.

(** What the two controllers hold when they are set up and their mask is [m]. *)
Definition set_up (o1 o2 : Z) (auto : bool) (m : Z) (s : Z * (pic * pic)) : Prop :=
  let '(g, (p1, p2)) := s in
  g = m /\ expects p1 = 0 /\ expects p2 = 0 /\ imr p1 = m mod 2 ^ 8 /\ imr p2 = m / 2 ^ 8 /\
  offset p1 = o1 /\ offset p2 = o2 /\ cascade p1 = 4 /\ cascade p2 = 2 /\ auto_eoi p1 = auto /\ auto_eoi p2 = auto.

(** ** What the driver does to them *)

Lemma configure_run o1 o2 auto s : 0 <= o1 < 256 -> 0 <= o2 < 256 ->
  wp (i8259_Configure o1 o2 auto) (fun _ => set_up (o1 - o1 mod 8) (o2 - o2 mod 8) auto 0xFFFF) s.
Proof.
  intros H1 H2. unfold i8259_Configure. rewrite wp_bind. apply (wp_mono _ (fun _ _ => True)); [by destruct s as [g [p1 p2]]|].
  intros _ [g [[e1 m1 f1 c1 a1 r1 v1 b1] [e2 m2 f2 c2 a2 r2 v2 b2]]] _.
  unfold wp. cbn -[u8]. rewrite (u8_small o1), (u8_small o2) by lia. destruct auto; split_and!; reflexivity.
Qed.

Lemma set_mask_run o1 o2 auto m m' s : 0 <= m' < 2 ^ 16 -> set_up o1 o2 auto m s ->
  wp (i8259_SetMask m') (fun _ => set_up o1 o2 auto m') s.
Proof.
  intros Hm. destruct s as [g [p1 p2]]. intros (_ & E1 & E2 & _ & _ & H). unfold wp. cbn. unfold pics_out. cbn.
  unfold pic_data. rewrite E1, E2. cbn. split_and!; try done; try apply H.
  - unfold u16. apply Z.mod_small. lia.
  - change 255 with (2 ^ 8 - 1). rewrite land_ones_mod by lia. unfold u8, u16. rewrite Z.mod_mod by lia. rewrite (Z.mod_small m') by lia. done.
  - rewrite Z.shiftr_div_pow2 by lia. unfold u8, u16. rewrite (Z.mod_small m') by lia. apply Z.mod_small. zdiv_lia.
Qed.

Inductive mask_op := OpMask (irq : Z) | OpUnmask (irq : Z).
Definition run_op (o : mask_op) : M (Z * (pic * pic)) unit :=
  match o with OpMask irq => i8259_Mask irq | OpUnmask irq => i8259_Unmask irq end.
Fixpoint run_ops (l : list mask_op) : M (Z * (pic * pic)) unit :=
  match l with [] => ret tt | o :: l' => do* run_op o in run_ops l' end.
Definition op_ok (o : mask_op) : Prop := match o with OpMask irq | OpUnmask irq => 0 <= irq < 16 end.
(** Whether interrupt [i] is masked after the operations, if it was [b] before. *)
Definition masked_after (l : list mask_op) (b : bool) (i : Z) : bool :=
  foldl (fun b o => match o with OpMask irq => if irq =? i then true else b | OpUnmask irq => if irq =? i then false else b end) b l.

Lemma bits_bound v n : 0 <= n -> 0 <= v -> (forall i, n <= i -> Z.testbit v i = false) -> v < 2 ^ n.
Proof.
  intros Hn Hv H. destruct (decide (v = 0)) as [->|]; [apply Z.pow_pos_nonneg; lia|].
  apply Z.log2_lt_pow2; [lia|]. destruct (decide (n <= Z.log2 v)) as [Hl|]; [|lia].
  specialize (H _ Hl). rewrite Z.bit_log2 in H; [done|lia].
Qed.

Lemma one_bit irq i : 0 <= irq -> 0 <= i -> Z.testbit (Z.shiftl 1 irq) i = (irq =? i).
Proof.
  intros. rewrite Z.shiftl_1_l. destruct (Z.eqb_spec irq i) as [->|].
  - by apply Z.pow2_bits_true.
  - by apply Z.pow2_bits_false.
Qed.

Lemma mask_range m irq : 0 <= m < 2 ^ 16 -> 0 <= irq < 16 -> 0 <= Z.lor m (Z.shiftl 1 irq) < 2 ^ 16.
Proof.
  intros. apply lor_range; [lia..|]. rewrite Z.shiftl_1_l. split; [apply Z.pow_nonneg; lia|]. apply Z.pow_lt_mono_r; lia.
Qed.
Lemma unmask_range m irq : 0 <= m < 2 ^ 16 -> 0 <= Z.land m (Z.lnot (Z.shiftl 1 irq)) < 2 ^ 16.
Proof.
  intros Hm. assert (Hl : 0 <= Z.land m (Z.lnot (Z.shiftl 1 irq))) by (apply Z.land_nonneg; lia). split; [done|].
  apply bits_bound; [lia|done|]. intros i Hi. rewrite Z.land_spec, (testbit_high 16 m i) by lia. done.
Qed.

Lemma run_ops_spec o1 o2 auto l : forall m s, Forall op_ok l -> 0 <= m < 2 ^ 16 -> set_up o1 o2 auto m s ->
  wp (run_ops l) (fun _ s' => exists m', set_up o1 o2 auto m' s' /\ 0 <= m' < 2 ^ 16 /\
    forall i, 0 <= i < 16 -> Z.testbit m' i = masked_after l (Z.testbit m i) i) s.
Proof.
  induction l as [|o l IH]; intros m s Hl Hm Hs; cbn [run_ops].
  - rewrite wp_ret. by exists m.
  - apply list.Forall_cons in Hl as [Ho Hl]. rewrite wp_bind.
    assert (Hstep : forall m1, 0 <= m1 < 2 ^ 16 -> wp (i8259_SetMask m1) (fun _ => set_up o1 o2 auto m1) s -> 
      (forall i, 0 <= i < 16 -> Z.testbit m1 i = masked_after [o] (Z.testbit m i) i) ->
      wp (i8259_SetMask m1) (fun _ s1 => wp (run_ops l) (fun _ s' => exists m', set_up o1 o2 auto m' s' /\ 0 <= m' < 2 ^ 16 /\
        forall i, 0 <= i < 16 -> Z.testbit m' i = masked_after (o :: l) (Z.testbit m i) i) s1) s).
    { intros m1 Hm1 Hw Hb. eapply wp_mono; [exact Hw|]. cbv beta. intros _ s1 Hs1.
      eapply wp_mono; [by apply (IH m1)|]. cbv beta. intros _ s' (m' & H1 & H2 & H3). exists m'. split_and!; [exact H1|lia|lia|].
      intros i Hi. rewrite H3, Hb by done. done. }
    assert (fst s = m) as Hg by (destruct s as [g [p1 p2]]; apply Hs).
    destruct o as [irq|irq]; cbn [run_op op_ok] in *; unfold i8259_Mask, i8259_Unmask; rewrite wp_bind, wp_gets, Hg; apply Hstep.
    + by apply mask_range.
    + eapply set_mask_run; [by apply mask_range|done].
    + intros i Hi. rewrite Z.lor_spec, one_bit by lia. cbn. destruct (irq =? i); [apply orb_true_r|apply orb_false_r].
    + by apply unmask_range.
    + eapply set_mask_run; [by apply unmask_range|done].
    + intros i Hi. rewrite Z.land_spec, Z.lnot_spec, one_bit by lia. cbn. destruct (irq =? i); [apply andb_false_r|apply andb_true_r].
Qed.

(** From any state of the controllers the set-up ends with both working, at
    the vectors asked for (rounded down to eights), cascaded, and everything
    masked; and after any masking and unmasking an interrupt is masked exactly
    if it was not unmasked or was masked last. *)
Theorem i8259_sets_up o1 o2 auto l s : 0 <= o1 < 256 -> 0 <= o2 < 256 -> Forall op_ok l ->
  wp (do* i8259_Configure o1 o2 auto in run_ops l)
     (fun _ s' => exists m, set_up (o1 - o1 mod 8) (o2 - o2 mod 8) auto m s' /\
        forall i, 0 <= i < 16 -> Z.testbit m i = masked_after l true i) s.
Proof.
  intros H1 H2 Hl. rewrite wp_bind. eapply wp_mono; [by apply configure_run|]. cbv beta. intros _ s1 Hs.
  eapply wp_mono; [apply (run_ops_spec (o1 - o1 mod 8) (o2 - o2 mod 8) auto l 0xFFFF); [exact Hl|lia|exact Hs]|].
  cbv beta. intros _ s' (m & Hm & _ & Hb). exists m. split; [done|]. intros i Hi. rewrite Hb by done. f_equal.
  change 0xFFFF with (Z.ones 16). apply Z.ones_spec_low. lia.
Qed.

(** i8259_Probe finds a controller that works, and leaves its interrupts half
    unmasked. *)
Lemma probe_unmasks o1 o2 auto m s : set_up o1 o2 auto m s ->
  wp i8259_Probe (fun r s' => r = true /\ set_up o1 o2 auto 0x1337 s') s.
Proof.
  intros Hs. unfold i8259_Probe. rewrite wp_bind. eapply wp_mono; [eapply (set_mask_run _ _ _ _ 0xFFFF); [lia|done]|].
  cbv beta. intros _ s1 H1. rewrite wp_bind. eapply wp_mono; [eapply (set_mask_run _ _ _ _ 0x1337); [lia|done]|].
  cbv beta. intros _ [g [p1 p2]] H2. rewrite wp_bind. unfold wp at 1. cbn -[set_up].
  assert (E : imr p1 = 0x37 /\ imr p2 = 0x13) by (split; apply H2). destruct E as [-> ->]. done.
Qed.

(** The end of an interrupt of the second controller is told to both. *)
Lemma end_of_interrupt_both irq g p1 p2 : 8 <= irq < 16 ->
  i8259_SendEndOfInterrupt irq (g, (p1, p2)) =
    Some (tt, (g, (pic_command PIC_CMD_END_OF_INTERRUPT p1, pic_command PIC_CMD_END_OF_INTERRUPT p2))).
Proof. intros. unfold i8259_SendEndOfInterrupt. destruct (Z.leb_spec 8 irq); [done|lia]. Qed.
