(* ===== verification/CpuTables.v ===== *)
(** * The tables of the processor (src/kernel/arch/x86_64/gdt.c, idt.c, isrs_gen.c, isr.c, syscalls.c, hal/hal.c)

    The segment descriptors and the task state segment, the interrupt gates,
    the registers of the SYSCALL instruction and of SSE.  The structures are
    packed, so each has the list of its bytes; [cpu_segment], [cpu_gate] and
    [sysret_selectors] are what the processor makes of these bytes, after its
    manual, and the theorems say that it is what the kernel wants. *)

From S2P Require Import Prelude Bytes.
#[local] Open Scope Z_scope.

(** ** Segments (gdt.c) *)

Record GDTEntry := mkGdt {
  LimitLow : Z; BaseLow : Z; BaseMiddle : Z; Access : Z; FlagsLimitHi : Z; BaseHigh : Z
}.
Record TSSDescriptor := mkTssDesc { tss_low : GDTEntry; BaseUpper : Z; Reserved : Z }.
Record TSS := mkTss {
  RSP0 : Z; RSP1 : Z; RSP2 : Z; IST : list Z; IOPBOffset : Z
}.

Definition GDT_ACCESS_CODE_READABLE : Z := 0x02.
Definition GDT_ACCESS_DATA_WRITEABLE : Z := 0x02.
Definition GDT_ACCESS_DATA_SEGMENT : Z := 0x10.
Definition GDT_ACCESS_CODE_SEGMENT : Z := 0x18.
Definition GDT_ACCESS_DESCRIPTOR_TSS : Z := 0x09.
Definition GDT_ACCESS_RING0 : Z := 0x00.
Definition GDT_ACCESS_RING3 : Z := 0x60.
Definition GDT_ACCESS_PRESENT : Z := 0x80.
Definition GDT_FLAG_64BIT : Z := 0x20.
Definition GDT_FLAG_GRANULARITY_4K : Z := 0x80.
Definition x86_64_GDT_CODE_SEGMENT : Z := 0x08.
Definition x86_64_GDT_DATA_SEGMENT : Z := 0x10.
Definition x86_64_GDT_USER_DATA_SEGMENT : Z := 0x18.
Definition x86_64_GDT_USER_CODE_SEGMENT : Z := 0x20.
Definition x86_64_GDT_TSS_SEGMENT : Z := 0x28.

Definition GDT_LIMIT_LOW (limit : Z) : Z := Z.land limit 0xFFFF.
Definition GDT_BASE_LOW (base : Z) : Z := Z.land base 0xFFFF.
Definition GDT_BASE_MIDDLE (base : Z) : Z := Z.land (Z.shiftr base 16) 0xFF.
Definition GDT_FLAGS_LIMIT_HI (limit flags : Z) : Z := Z.lor (Z.land (Z.shiftr limit 16) 0xF) (Z.land flags 0xF0).
Definition GDT_BASE_HIGH (base : Z) : Z := Z.land (Z.shiftr base 24) 0xFF.
Definition GDT_ENTRY (base limit access flags : Z) : GDTEntry :=
  mkGdt (GDT_LIMIT_LOW limit) (GDT_BASE_LOW base) (GDT_BASE_MIDDLE base) access (GDT_FLAGS_LIMIT_HI limit flags)
        (GDT_BASE_HIGH base).

Declare Scope cpu_scope.
#[local] Notation "a |' b" := (Z.lor a b) (at level 50, left associativity) : cpu_scope.
#[local] Open Scope cpu_scope.

Definition g_GDT_entries : list GDTEntry := [
  GDT_ENTRY 0 0 0 0;
  GDT_ENTRY 0 0 (GDT_ACCESS_PRESENT |' GDT_ACCESS_RING0 |' GDT_ACCESS_CODE_SEGMENT |' GDT_ACCESS_CODE_READABLE)
            (GDT_FLAG_64BIT |' GDT_FLAG_GRANULARITY_4K);
  GDT_ENTRY 0 0 (GDT_ACCESS_PRESENT |' GDT_ACCESS_RING0 |' GDT_ACCESS_DATA_SEGMENT |' GDT_ACCESS_DATA_WRITEABLE)
            GDT_FLAG_GRANULARITY_4K;
  GDT_ENTRY 0 0 (GDT_ACCESS_PRESENT |' GDT_ACCESS_RING3 |' GDT_ACCESS_DATA_SEGMENT |' GDT_ACCESS_DATA_WRITEABLE)
            GDT_FLAG_GRANULARITY_4K;
  GDT_ENTRY 0 0 (GDT_ACCESS_PRESENT |' GDT_ACCESS_RING3 |' GDT_ACCESS_CODE_SEGMENT |' GDT_ACCESS_CODE_READABLE)
            (GDT_FLAG_64BIT |' GDT_FLAG_GRANULARITY_4K)
].

Definition sizeof_TSS : Z := 104.
Definition entry_bytes (e : GDTEntry) : list Z :=
  le16 (LimitLow e) ++ le16 (BaseLow e) ++ [BaseMiddle e; Access e; FlagsLimitHi e; BaseHigh e].
Definition tss_bytes (d : TSSDescriptor) : list Z := entry_bytes (tss_low d) ++ le32 (BaseUpper d) ++ le32 (Reserved d).
(** The memory at [g_GDT]. *)
Definition gdt_bytes (d : TSSDescriptor) : list Z := mbind entry_bytes g_GDT_entries ++ tss_bytes d.
Definition gdt_limit : Z := 8 * 5 + 16 - 1.

(** [tss_base] is the address of g_TSS.  The result is the task state segment
    and its descriptor; loading the registers is an instruction. *)
Definition x86_64_GDT_Initialize (tss_base : Z) : TSS * TSSDescriptor :=
  let tss_limit := sizeof_TSS - 1 in
  (mkTss 0 0 0 (replicate 7 0) sizeof_TSS,
   mkTssDesc (mkGdt (Z.land tss_limit 0xFFFF) (Z.land tss_base 0xFFFF) (Z.land (Z.shiftr tss_base 16) 0xFF)
                    (GDT_ACCESS_PRESENT |' GDT_ACCESS_RING0 |' GDT_ACCESS_DESCRIPTOR_TSS)
                    (Z.land (Z.shiftr tss_limit 16) 0x0F) (Z.land (Z.shiftr tss_base 24) 0xFF))
             (Z.land (Z.shiftr tss_base 32) 0xFFFFFFFF) 0).

(** With the variable syscalls.c keeps of the same stack. *)
Definition x86_64_TSS_SetKernelStack (stack : Z) (t : TSS) (_ : Z) : TSS * Z :=
  (mkTss stack (RSP1 t) (RSP2 t) (IST t) (IOPBOffset t), stack).

(** What the processor reads in a descriptor. *)
Record segment := mkSegment { base : Z; limit : Z; access : Z; flags : Z }.
Definition cpu_segment (gdt : list Z) (selector : Z) : segment :=
  let o := selector - selector mod 8 in
  let b := aget 0 gdt in
  mkSegment (get16 gdt (o + 2) + 2 ^ 16 * b (o + 4) + 2 ^ 24 * b (o + 7))
            (get16 gdt o + 2 ^ 16 * (b (o + 6) mod 16)) (b (o + 5)) (b (o + 6) / 16).
(** A system descriptor has 16 bytes and a base of 64 bits. *)
Definition cpu_system_segment (gdt : list Z) (selector : Z) : segment :=
  let s := cpu_segment gdt selector in
  mkSegment (base s + 2 ^ 32 * get32 gdt (selector - selector mod 8 + 8)) (limit s) (access s) (flags s).

Definition is_code (s : segment) : bool := Z.testbit (access s) 4 && Z.testbit (access s) 3.
Definition is_data (s : segment) : bool := Z.testbit (access s) 4 && negb (Z.testbit (access s) 3) && Z.testbit (access s) 1.
Definition is_present (s : segment) : bool := Z.testbit (access s) 7.
Definition ring (s : segment) : Z := access s / 32 mod 4.
Definition long_mode (s : segment) : bool := Z.testbit (flags s) 1 && negb (Z.testbit (flags s) 2).

(** ** Interrupt gates (idt.c, isrs_gen.c, isr.c) *)

Record IDTEntry := mkGate {
  GateLow : Z; SegmentSelector : Z; GateIST : Z; Flags : Z; GateMiddle : Z; GateHigh : Z; GateReserved : Z
}.
Definition IDT_FLAG_GATE_INTERRUPT : Z := 0xE.
Definition IDT_FLAG_RING0 : Z := 0.
Definition IDT_FLAG_PRESENT : Z := 0x80.
Definition FLAG_SET (x flag : Z) : Z := u8 (Z.lor x flag).
Definition FLAG_UNSET (x flag : Z) : Z := u8 (Z.land x (Z.lnot flag)).

(** The length of g_IDT. *)
Definition IDT_COUNT : nat := 256.
Definition no_gate : IDTEntry := mkGate 0 0 0 0 0 0 0.
Definition g_IDT_start : list IDTEntry := replicate IDT_COUNT no_gate.
Definition in_idt (interrupt : Z) : bool := (0 <=? interrupt) && (interrupt <? 256).

Definition gate (base segment flags ist : Z) : IDTEntry :=
  mkGate (Z.land base 0xFFFF) segment ist flags (Z.land (Z.shiftr base 16) 0xFFFF) (Z.land (Z.shiftr base 32) 0xFFFFFFFF) 0.

(** A number outside the table is a store outside g_IDT. *)
Definition x86_64_IDT_SetGate (interrupt base segment flags : Z) (t : list IDTEntry) : option (list IDTEntry) :=
  if in_idt interrupt then Some (aset t interrupt (gate base segment flags 0)) else None.
Definition x86_64_IDT_SetGateWithIST (interrupt base segment flags ist : Z) (t : list IDTEntry) : option (list IDTEntry) :=
  if in_idt interrupt then Some (aset t interrupt (gate base segment flags (Z.land ist 7))) else None.

Definition change_flags (f : Z -> Z) (interrupt : Z) (t : list IDTEntry) : option (list IDTEntry) :=
  if in_idt interrupt then
    let g := aget no_gate t interrupt in
    Some (aset t interrupt (mkGate (GateLow g) (SegmentSelector g) (GateIST g) (f (Flags g)) (GateMiddle g) (GateHigh g) (GateReserved g)))
  else None.
Definition x86_64_IDT_EnableGate : Z -> list IDTEntry -> option (list IDTEntry) := change_flags (fun f => FLAG_SET f IDT_FLAG_PRESENT).
Definition x86_64_IDT_DisableGate : Z -> list IDTEntry -> option (list IDTEntry) := change_flags (fun f => FLAG_UNSET f IDT_FLAG_PRESENT).

(** [f] for the numbers from [i] on, [n] of them. *)
Fixpoint each_gate (f : Z -> list IDTEntry -> option (list IDTEntry)) (i : Z) (n : nat) (t : list IDTEntry) : option (list IDTEntry) :=
  match n with
  | O => Some t
  | S n' => t' ← f i t; each_gate f (i + 1) n' t'
  end.

(** [stub] gives the address of x86_64_ISR<n>. *)
Definition x86_64_ISR_InitializeGates (stub : Z -> Z) : list IDTEntry -> option (list IDTEntry) :=
  each_gate (fun i => x86_64_IDT_SetGate i (stub i) x86_64_GDT_CODE_SEGMENT (IDT_FLAG_RING0 |' IDT_FLAG_GATE_INTERRUPT |' IDT_FLAG_PRESENT)) 0 IDT_COUNT.
Definition x86_64_ISR_Initialize (stub : Z -> Z) (t : list IDTEntry) : option (list IDTEntry) :=
  t1 ← x86_64_ISR_InitializeGates stub t;
  t2 ← each_gate x86_64_IDT_EnableGate 0 IDT_COUNT t1;
  x86_64_IDT_DisableGate 0x80 t2.

Definition gate_bytes (g : IDTEntry) : list Z :=
  le16 (GateLow g) ++ le16 (SegmentSelector g) ++ [GateIST g; Flags g] ++ le16 (GateMiddle g) ++ le32 (GateHigh g) ++ le32 (GateReserved g).
Definition idt_bytes (t : list IDTEntry) : list Z := mbind gate_bytes t.

(** What the processor reads in the gate of a vector. *)
Record cpu_gate_t := mkCpuGate { target : Z; selector : Z; stack : Z; kind : Z; dpl : Z; gate_present : bool }.
Definition cpu_gate (idt : list Z) (vector : Z) : cpu_gate_t :=
  let o := 16 * vector in
  let f := aget 0 idt (o + 5) in
  mkCpuGate (get16 idt o + 2 ^ 16 * get16 idt (o + 6) + 2 ^ 32 * get32 idt (o + 8)) (get16 idt (o + 2))
            (aget 0 idt (o + 4) mod 8) (f mod 16) (f / 32 mod 4) (Z.testbit f 7).

(** ** SYSCALL and SSE (syscalls.c, hal.c) *)

Definition MSR_EFER : Z := 0xC0000080.
Definition MSR_STAR : Z := 0xC0000081.
Definition MSR_LSTAR : Z := 0xC0000082.
Definition MSR_FMASK : Z := 0xC0000084.
Definition EFER_SCE : Z := 2 ^ 0.
Definition msrs : Type := Z -> Z.
Definition wrmsr (msr value : Z) (m : msrs) : msrs := fun r => if r =? msr then value else m r.

Definition x86_64_Syscall_Initialize (entry : Z) (m : msrs) : msrs :=
  let m1 := wrmsr MSR_EFER (m MSR_EFER |' EFER_SCE) m in
  let m2 := wrmsr MSR_STAR (Z.shiftl 0x10 48 |' Z.shiftl 0x08 32) m1 in
  let m3 := wrmsr MSR_LSTAR entry m2 in
  wrmsr MSR_FMASK 0x200 m3.

(** The selectors SYSCALL and SYSRET load from STAR: code and stack segment. *)
Definition syscall_selectors (m : msrs) : Z * Z := let s := m MSR_STAR / 2 ^ 32 mod 2 ^ 16 in (s - s mod 4, s - s mod 4 + 8).
Definition sysret_selectors (m : msrs) : Z * Z := let s := m MSR_STAR / 2 ^ 48 mod 2 ^ 16 in (Z.lor (s + 16) 3, Z.lor (s + 8) 3).

(** CR0 and CR4. *)
Definition cpu_enable_sse (cr0 cr4 : Z) : Z * Z :=
  let cr0 := Z.lor (Z.land cr0 (Z.lnot (Z.shiftl 1 2))) (Z.shiftl 1 1) in
  (cr0, Z.lor (Z.lor cr4 (Z.shiftl 1 9)) (Z.shiftl 1 10)).

(** ** What the processor finds *)


Lemma mod_join b i j : 0 <= i -> 0 <= j -> b mod 2 ^ i + 2 ^ i * (b / 2 ^ i mod 2 ^ j) = b mod 2 ^ (i + j).
Proof. intros. rewrite Z.pow_add_r by lia. symmetry. apply Z.rem_mul_r; lia. Qed.
Lemma within_true i n k : i <= k < i + n -> (i <=? k) && (k <? i + n) = true.
Proof. intros. case_bools; done || lia. Qed.
Lemma split_base b : 0 <= b < 2 ^ 64 ->
  b = Z.land b 0xFFFF + 2 ^ 16 * Z.land (Z.shiftr b 16) 0xFF + 2 ^ 24 * Z.land (Z.shiftr b 24) 0xFF + 2 ^ 32 * Z.land (Z.shiftr b 32) 0xFFFFFFFF.
Proof.
  intros Hb. change 0xFFFF with (2 ^ 16 - 1). change 0xFF with (2 ^ 8 - 1). change 0xFFFFFFFF with (2 ^ 32 - 1).
  rewrite !land_ones_mod, !Z.shiftr_div_pow2 by lia. rewrite !mod_join by lia. symmetry. by apply Z.mod_small.
Qed.
Lemma split_offset b : 0 <= b < 2 ^ 64 ->
  b = Z.land b 0xFFFF + 2 ^ 16 * Z.land (Z.shiftr b 16) 0xFFFF + 2 ^ 32 * Z.land (Z.shiftr b 32) 0xFFFFFFFF.
Proof.
  intros Hb. change 0xFFFF with (2 ^ 16 - 1). change 0xFFFFFFFF with (2 ^ 32 - 1).
  rewrite !land_ones_mod, !Z.shiftr_div_pow2 by lia. rewrite !mod_join by lia. symmetry. by apply Z.mod_small.
Qed.

Lemma get16_here (v : Z) (pre post : list Z) (o : Z) : 0 <= v < 2 ^ 16 -> o = Z.of_nat (length pre) -> get16 (pre ++ le16 v ++ post) o = v.
Proof.
  intros Hv ->. unfold get16. rewrite !(aget_app_r pre) by lia. rewrite !Z.add_simpl_l, !Z.sub_diag.
  rewrite !(aget_app_l (le16 v)) by (cbn; lia). apply (get16_le16 v Hv).
Qed.
Lemma get32_here (v : Z) (pre post : list Z) (o : Z) : 0 <= v < 2 ^ 32 -> o = Z.of_nat (length pre) -> get32 (pre ++ le32 v ++ post) o = v.
Proof.
  intros Hv ->. rewrite <- (get32_le32 v Hv) at 2. unfold get32. rewrite !(aget_app_r pre) by lia.
  rewrite !Z.add_simpl_l, !Z.sub_diag. by rewrite !(aget_app_l (le32 v)) by (cbn; lia).
Qed.
Lemma aget_here (v : Z) (pre post : list Z) (o : Z) : o = Z.of_nat (length pre) -> aget 0 (pre ++ v :: post) o = v.
Proof. intros ->. rewrite aget_app_r, Z.sub_diag by lia. done. Qed.

Lemma land_mask v n : 0 <= n -> 0 <= Z.land v (2 ^ n - 1) < 2 ^ n.
Proof. intros. rewrite land_ones_mod by lia. apply Z.mod_pos_bound. lia. Qed.

(** The descriptor of the task state segment gives its address and size. *)
Lemma tss_descriptor b : 0 <= b < 2 ^ 64 ->
  let s := cpu_system_segment (gdt_bytes (snd (x86_64_GDT_Initialize b))) x86_64_GDT_TSS_SEGMENT in
  base s = b /\ limit s = sizeof_TSS - 1 /\ is_present s = true /\ ring s = 0 /\ access s mod 32 = GDT_ACCESS_DESCRIPTOR_TSS.
Proof.
  intros Hb. set (d := snd (x86_64_GDT_Initialize b)).
  set (pre := mbind entry_bytes g_GDT_entries). assert (Hpre : length pre = 40%nat) by done.
  unfold gdt_bytes. fold pre. change (cpu_system_segment (pre ++ tss_bytes d) x86_64_GDT_TSS_SEGMENT)
    with (let s := cpu_segment (pre ++ tss_bytes d) 40 in mkSegment (base s + 2 ^ 32 * get32 (pre ++ tss_bytes d) 48) (limit s) (access s) (flags s)).
  pose proof (land_mask b 16 ltac:(lia)). pose proof (land_mask (Z.shiftr b 32) 32 ltac:(lia)).
  assert (E2 : get16 (pre ++ tss_bytes d) 42 = Z.land b 0xFFFF).
  { change (tss_bytes d) with (le16 103 ++ le16 (Z.land b 0xFFFF) ++ (skipn 4 (tss_bytes d))). rewrite app_assoc. by apply get16_here. }
  assert (E4 : aget 0 (pre ++ tss_bytes d) 44 = Z.land (Z.shiftr b 16) 0xFF) by done.
  assert (E7 : aget 0 (pre ++ tss_bytes d) 47 = Z.land (Z.shiftr b 24) 0xFF) by done.
  assert (E8 : get32 (pre ++ tss_bytes d) 48 = Z.land (Z.shiftr b 32) 0xFFFFFFFF).
  { change (tss_bytes d) with (firstn 8 (tss_bytes d) ++ le32 (Z.land (Z.shiftr b 32) 0xFFFFFFFF) ++ le32 0). rewrite app_assoc. by apply get32_here. }
  cbv zeta. unfold cpu_segment. cbn [base limit access flags].
  change (40 - 40 mod 8 + 2) with 42. change (40 - 40 mod 8 + 4) with 44. change (40 - 40 mod 8 + 7) with 47. rewrite E2, E4, E7, E8.
  split_and!; [symmetry; by apply split_base|reflexivity..].
Qed.

(** The table as a function of the vector. *)
Lemma each_gate_spec (f : Z -> list IDTEntry -> option (list IDTEntry)) (h : Z -> IDTEntry -> IDTEntry) n : forall i t,
  (forall i t, 0 <= i < 256 -> f i t = Some (aset t i (h i (aget no_gate t i)))) ->
  0 <= i -> i + Z.of_nat n <= 256 -> length t = 256%nat ->
  exists t', each_gate f i n t = Some t' /\ length t' = 256%nat /\
    forall k, aget no_gate t' k = if (i <=? k) && (k <? i + Z.of_nat n) then h k (aget no_gate t k) else aget no_gate t k.
Proof.
  induction n as [|n IH]; intros i t Hf Hi Hn Ht; cbn [each_gate].
  - exists t. split_and!; [done..|]. intros k. case_bools; first [done | exfalso; lia].
  - rewrite Hf by lia. cbn [mbind option_bind].
    destruct (IH (i + 1) (aset t i (h i (aget no_gate t i)))) as (t' & -> & Ht' & Hk); [done|lia|lia|by rewrite length_aset|].
    exists t'. split_and!; [done..|]. intros k. rewrite Hk. destruct (decide (k = i)) as [->|Hne].
    + rewrite aget_aset_eq by lia. case_bools; first [done | exfalso; lia].
    + rewrite aget_aset_ne by done. case_bools; first [done | exfalso; lia].
Qed.

Lemma set_gate_at i b seg fl t : 0 <= i < 256 -> x86_64_IDT_SetGate i b seg fl t = Some (aset t i (gate b seg fl 0)).
Proof. intros. unfold x86_64_IDT_SetGate, in_idt. case_bools; first [done | exfalso; lia]. Qed.
Definition with_flags (g : IDTEntry) (f : Z) : IDTEntry :=
  mkGate (GateLow g) (SegmentSelector g) (GateIST g) f (GateMiddle g) (GateHigh g) (GateReserved g).
Lemma change_flags_at f i t : 0 <= i < 256 -> change_flags f i t = Some (aset t i (with_flags (aget no_gate t i) (f (Flags (aget no_gate t i))))).
Proof. intros. unfold change_flags, in_idt. case_bools; first [done | exfalso; lia]. Qed.

Lemma IDT_COUNT_256 : Z.of_nat IDT_COUNT = 256. Proof. done. Qed.
#[local] Opaque each_gate IDT_COUNT.
Lemma initialize_gates_spec stub t : length t = 256%nat ->
  exists t', x86_64_ISR_InitializeGates stub t = Some t' /\ length t' = 256%nat /\
    forall k, 0 <= k < 256 -> aget no_gate t' k = gate (stub k) x86_64_GDT_CODE_SEGMENT 0x8E 0.
Proof.
  intros Ht. destruct (each_gate_spec (fun i => x86_64_IDT_SetGate i (stub i) x86_64_GDT_CODE_SEGMENT 0x8E)
    (fun i _ => gate (stub i) x86_64_GDT_CODE_SEGMENT 0x8E 0) IDT_COUNT 0 t) as (t1 & E1 & H1 & G1); [|lia|pose proof IDT_COUNT_256; lia|done|].
  - intros. by apply set_gate_at.
  - exists t1. split_and!; [exact E1|done|]. intros k Hk. rewrite G1, within_true by (pose proof IDT_COUNT_256; lia). done.
Qed.
Lemma enable_gates_spec t : length t = 256%nat ->
  exists t', each_gate x86_64_IDT_EnableGate 0 IDT_COUNT t = Some t' /\ length t' = 256%nat /\
    forall k, 0 <= k < 256 -> aget no_gate t' k = with_flags (aget no_gate t k) (FLAG_SET (Flags (aget no_gate t k)) IDT_FLAG_PRESENT).
Proof.
  intros Ht. destruct (each_gate_spec x86_64_IDT_EnableGate (fun i g => with_flags g (FLAG_SET (Flags g) IDT_FLAG_PRESENT)) IDT_COUNT 0 t)
    as (t1 & E1 & H1 & G1); [|lia|pose proof IDT_COUNT_256; lia|done|].
  - intros. by apply change_flags_at.
  - exists t1. split_and!; [exact E1|done|]. intros k Hk. rewrite G1, within_true by (pose proof IDT_COUNT_256; lia). done.
Qed.
Lemma isr_initialize_gates stub t : length t = 256%nat ->
  exists t', x86_64_ISR_Initialize stub t = Some t' /\ length t' = 256%nat /\
    forall k, 0 <= k < 256 -> aget no_gate t' k = gate (stub k) x86_64_GDT_CODE_SEGMENT (if k =? 0x80 then 0x0E else 0x8E) 0.
Proof.
  intros Ht. destruct (initialize_gates_spec stub t Ht) as (t1 & E1 & H1 & G1).
  destruct (enable_gates_spec t1 H1) as (t2 & E2 & H2 & G2). eexists. split_and!.
  { unfold x86_64_ISR_Initialize. apply bind_Some. exists t1. split; [exact E1|]. apply bind_Some. exists t2. split; [exact E2|]. apply change_flags_at. lia. }
  { by rewrite length_aset. }
  intros k Hk. destruct (Z.eqb_spec k 0x80) as [->|Hne].
  - rewrite aget_aset_eq by lia. rewrite G2, G1 by lia. done.
  - rewrite aget_aset_ne by done. rewrite G2, G1 by lia. done.
Qed.

Lemma length_idt l : length (idt_bytes l) = (16 * length l)%nat.
Proof. induction l as [|g l IH]; [done|]. change (idt_bytes (g :: l)) with (gate_bytes g ++ idt_bytes l). rewrite length_app, IH. cbn. lia. Qed.

Lemma idt_split t v : 0 <= v < Z.of_nat (length t) ->
  exists pre post, idt_bytes t = pre ++ gate_bytes (aget no_gate t v) ++ post /\ 16 * v = Z.of_nat (length pre).
Proof.
  intros Hv. pose proof (aget_inside no_gate t v ltac:(lia)) as Hl.
  exists (idt_bytes (firstn (Z.to_nat v) t)), (idt_bytes (skipn (S (Z.to_nat v)) t)). split.
  - rewrite <- (take_drop_middle t (Z.to_nat v) (aget no_gate t v)) at 1 by done. unfold idt_bytes. by rewrite bind_app.
  - rewrite length_idt, length_take. lia.
Qed.

Lemma cpu_gate_here pre post b seg fl : 0 <= b < 2 ^ 64 -> 0 <= seg < 2 ^ 16 -> forall v, 16 * v = Z.of_nat (length pre) ->
  cpu_gate (pre ++ gate_bytes (gate b seg fl 0) ++ post) v = mkCpuGate b seg 0 (fl mod 16) (fl / 32 mod 4) (Z.testbit fl 7).
Proof.
  intros Hb Hs v Hv. pose proof (land_mask b 16 ltac:(lia)). pose proof (land_mask (Z.shiftr b 16) 16 ltac:(lia)).
  pose proof (land_mask (Z.shiftr b 32) 32 ltac:(lia)).
  set (g := gate_bytes (gate b seg fl 0)).
  assert (E0 : get16 (pre ++ g ++ post) (16 * v) = Z.land b 0xFFFF).
  { change g with (le16 (Z.land b 0xFFFF) ++ skipn 2 g). rewrite <- app_assoc. by apply get16_here. }
  assert (E2 : get16 (pre ++ g ++ post) (16 * v + 2) = seg).
  { change g with (firstn 2 g ++ le16 seg ++ skipn 4 g). rewrite <- !app_assoc, (app_assoc pre). apply get16_here; [done|]. rewrite length_app, Hv. cbn. lia. }
  assert (E4 : aget 0 (pre ++ g ++ post) (16 * v + 4) = 0).
  { change g with (firstn 4 g ++ 0 :: skipn 5 g). rewrite <- app_assoc, (app_assoc pre). apply aget_here. rewrite length_app, Hv. cbn. lia. }
  assert (E5 : aget 0 (pre ++ g ++ post) (16 * v + 5) = fl).
  { change g with (firstn 5 g ++ fl :: skipn 6 g). rewrite <- app_assoc, (app_assoc pre). apply aget_here. rewrite length_app, Hv. cbn. lia. }
  assert (E6 : get16 (pre ++ g ++ post) (16 * v + 6) = Z.land (Z.shiftr b 16) 0xFFFF).
  { change g with (firstn 6 g ++ le16 (Z.land (Z.shiftr b 16) 0xFFFF) ++ skipn 8 g). rewrite <- !app_assoc, (app_assoc pre).
    apply get16_here; [done|]. rewrite length_app, Hv. cbn. lia. }
  assert (E8 : get32 (pre ++ g ++ post) (16 * v + 8) = Z.land (Z.shiftr b 32) 0xFFFFFFFF).
  { change g with (firstn 8 g ++ le32 (Z.land (Z.shiftr b 32) 0xFFFFFFFF) ++ skipn 12 g). rewrite <- !app_assoc, (app_assoc pre).
    apply get32_here; [done|]. rewrite length_app, Hv. cbn. lia. }
  unfold cpu_gate. rewrite E0, E2, E4, E5, E6, E8, <- (split_offset b) by done. done.
Qed.

(** Whatever the addresses of the entry points are, after
    x86_64_ISR_Initialize the processor that reads the bytes of the interrupt
    table finds in the gate of every vector the entry point of that vector, the
    kernel's code segment, no separate stack, an interrupt gate that only ring 0
    may call, present for every vector but 0x80; and no store went outside the
    table. *)
Theorem gates_lead_to_entries stub t : length t = 256%nat -> (forall v, 0 <= stub v < 2 ^ 64) ->
  exists t', x86_64_ISR_Initialize stub t = Some t' /\
    forall v, 0 <= v < 256 ->
      cpu_gate (idt_bytes t') v = mkCpuGate (stub v) x86_64_GDT_CODE_SEGMENT 0 IDT_FLAG_GATE_INTERRUPT 0 (negb (v =? 0x80)).
Proof.
  intros Ht Hs. destruct (isr_initialize_gates stub t Ht) as (t' & -> & Ht' & Hg). exists t'. split; [done|]. intros v Hv.
  destruct (idt_split t' v) as (pre & post & -> & Hp); [lia|]. rewrite Hg by done. rewrite cpu_gate_here; [|done..].
  by destruct (v =? 0x80).
Qed.

Lemma gates_lead_to_entries_witness :
  length g_IDT_start = 256%nat /\ exists t', x86_64_ISR_Initialize (fun v => 0xFFFFFFFF80200000 + 16 * (v mod 256)) g_IDT_start = Some t' /\
    forall v, 0 <= v < 256 ->
      cpu_gate (idt_bytes t') v = mkCpuGate (0xFFFFFFFF80200000 + 16 * (v mod 256)) x86_64_GDT_CODE_SEGMENT 0 IDT_FLAG_GATE_INTERRUPT 0 (negb (v =? 0x80)).
Proof.
  split; [done|]. apply (gates_lead_to_entries (fun v => 0xFFFFFFFF80200000 + 16 * (v mod 256)) g_IDT_start); [done|].
  intros v. pose proof (Z.mod_pos_bound v 256). lia.
Defined.

(** The selectors of gdt.h select what their names say, whatever the
    descriptor of the task state segment is. *)
Lemma segments_of_the_kernel d :
  let seg := cpu_segment (gdt_bytes d) in
  (is_code (seg x86_64_GDT_CODE_SEGMENT) && long_mode (seg x86_64_GDT_CODE_SEGMENT) && is_data (seg x86_64_GDT_DATA_SEGMENT)
   && is_present (seg x86_64_GDT_CODE_SEGMENT) && is_present (seg x86_64_GDT_DATA_SEGMENT)
   && is_code (seg x86_64_GDT_USER_CODE_SEGMENT) && long_mode (seg x86_64_GDT_USER_CODE_SEGMENT) && is_data (seg x86_64_GDT_USER_DATA_SEGMENT)
   && is_present (seg x86_64_GDT_USER_CODE_SEGMENT) && is_present (seg x86_64_GDT_USER_DATA_SEGMENT)) = true /\
  map (fun s => ring (seg s)) [x86_64_GDT_CODE_SEGMENT; x86_64_GDT_DATA_SEGMENT; x86_64_GDT_USER_CODE_SEGMENT; x86_64_GDT_USER_DATA_SEGMENT] = [0; 0; 3; 3] /\
  Z.of_nat (length (gdt_bytes d)) = gdt_limit + 1.
Proof. split_and!; reflexivity. Qed.

(** SYSCALL enters with the kernel's segments, SYSRET leaves with the user's, in ring 3. *)
Lemma syscall_segments entry m :
  let m' := x86_64_Syscall_Initialize entry m in
  syscall_selectors m' = (x86_64_GDT_CODE_SEGMENT, x86_64_GDT_DATA_SEGMENT) /\
  sysret_selectors m' = (x86_64_GDT_USER_CODE_SEGMENT + 3, x86_64_GDT_USER_DATA_SEGMENT + 3) /\
  m' MSR_LSTAR = entry /\ Z.testbit (m' MSR_EFER) 0 = true /\ Z.testbit (m' MSR_FMASK) 9 = true.
Proof.
  cbv zeta. split_and!; try reflexivity. change (Z.testbit (Z.lor (m MSR_EFER) 1) 0 = true). rewrite Z.lor_spec. apply orb_true_r.
Qed.

(** Every fault runs on the stack it interrupted: no gate has a stack of its
    own, the double fault's included. *)
Lemma no_separate_stack stub t t' v : length t = 256%nat -> x86_64_ISR_Initialize stub t = Some t' -> 0 <= v < 256 -> GateIST (aget no_gate t' v) = 0.
Proof.
  intros Ht E Hv. destruct (isr_initialize_gates stub t Ht) as (t2 & E2 & _ & G). rewrite E in E2. injection E2 as ->. by rewrite G.
Qed.

(** x86_64_IRQ_Initialize registers a handler for every vector from 0x20 on,
    which makes the gate of 0x80 present again. *)
Lemma gate_0x80_comes_back stub t : length t = 256%nat ->
  exists t1 t2, x86_64_ISR_Initialize stub t = Some t1 /\ x86_64_IDT_EnableGate 0x80 t1 = Some t2 /\
    Z.testbit (Flags (aget no_gate t1 0x80)) 7 = false /\ Z.testbit (Flags (aget no_gate t2 0x80)) 7 = true.
Proof.
  intros Ht. destruct (isr_initialize_gates stub t Ht) as (t1 & E1 & H1 & G). exists t1. eexists. split_and!.
  - done.
  - unfold x86_64_IDT_EnableGate. apply change_flags_at. lia.
  - rewrite G by lia. reflexivity.
  - rewrite aget_aset_eq by lia. rewrite G by lia. reflexivity.
Qed.
