(* ===== verification/Timer.v ===== *)
(** * Time (src/kernel/timer/timer.c, drivers/apic/lapic.c)

    Sleeping by channel 2 of the PIT, the tick of the scheduler, and the timer
    of the local interrupt controller, over ports and model-specific registers
    that are a parameter; the vectors are those of Interrupts.v.  [fuel] bounds the polls of one chunk of a sleep.

    [pit] is channel 2 with its gate in mode 0, where each poll takes one tick
    or more; the theorem runs a sleep against it and bounds the ticks that go
    by. *)

From S2P Require Import Prelude Bytes StateMonad Interrupts Ports.
#[local] Open Scope Z_scope.

Definition PIT_FREQUENCY : Z := 1193182.
Definition SLEEP_CHUNK : Z := 54000.
Definition TICKS_PORT : Z := 0x42.
Definition MODE_PORT : Z := 0x43.
Definition GATE_PORT : Z := 0x61.

Definition ticks_of (us : Z) : Z :=
  let ticks := u32 (u64 (us * PIT_FREQUENCY) / 1000000) in if ticks =? 0 then 1 else ticks.
Definition chunk_of (us : Z) : Z := if SLEEP_CHUNK <? us then SLEEP_CHUNK else us.

Section sleep.
Context {X : Type} `{!Ports X} (fuel : nat).

Definition poll_out (_ : unit) : M X (unit + unit) :=
  let* v := x86_64_inb GATE_PORT in
  ret (if Z.land v 0x20 =? 0 then inl tt else inr tt).

Definition sleep_chunk (ticks : Z) : M X unit :=
  do* x86_64_outb MODE_PORT 0xB0 in
  do* x86_64_outb TICKS_PORT (Z.land ticks 0xFF) in
  do* x86_64_outb TICKS_PORT (Z.shiftr ticks 8) in
  let* ctrl := x86_64_inb GATE_PORT in
  do* x86_64_outb GATE_PORT (Z.lor (Z.land ctrl (u8 (Z.lnot 2))) 1) in
  iter fuel poll_out tt.

(** [n] bounds the chunks: there are at most [us / 54000 + 1]. *)
Fixpoint sleep_loop (n : nat) (us : Z) : M X unit :=
  if us <=? 0 then ret tt
  else match n with
  | O => diverge
  | S n' => do* sleep_chunk (ticks_of (chunk_of us)) in sleep_loop n' (u32 (us - chunk_of us))
  end.

Definition timer_sleep_us (us : Z) : M X unit := sleep_loop (Z.to_nat (us / SLEEP_CHUNK + 1)) us.
Definition timer_sleep_ms (ms : Z) : M X unit := timer_sleep_us (u32 (ms * 1000)).
Definition timer_sleep_s (s : Z) : M X unit := timer_sleep_us (u32 (s * 1000000)).
End sleep.

(** The tick: [schedule] is proc_update_time with 1 and proc_schedule_interrupt. *)
Definition timer_irq_handler {P} (schedule : P -> P) (s : Z * P) : Z * P := (u32 (fst s + 1), schedule (snd s)).
(** The handler [h] at the vector of the local timer. *)
Definition timer_init {Hd X} (h : Hd) (s : interrupts Hd X) : interrupts Hd X := x86_64_IRQ_RegisterVector LAPIC_TIMER_VECTOR h s.
Definition timer_get_ticks {P} (s : Z * P) : Z := fst s.

(** ** The local interrupt controller *)

Definition MSR_APIC_BASE : Z := 0x1B.
Definition MSR_X2APIC_ID : Z := 0x802.
Definition MSR_X2APIC_TPR : Z := 0x808.
Definition MSR_X2APIC_EOI : Z := 0x80B.
Definition MSR_X2APIC_SVR : Z := 0x80F.
Definition MSR_X2APIC_ESR : Z := 0x828.
Definition MSR_X2APIC_ICR : Z := 0x830.
Definition MSR_X2APIC_LVT_TIMER : Z := 0x832.
Definition MSR_X2APIC_LVT_LINT0 : Z := 0x835.
Definition MSR_X2APIC_LVT_LINT1 : Z := 0x836.
Definition MSR_X2APIC_LVT_ERROR : Z := 0x837.
Definition MSR_X2APIC_TIMER_ICR : Z := 0x838.
Definition MSR_X2APIC_TIMER_CCR : Z := 0x839.
Definition MSR_X2APIC_TIMER_DCR : Z := 0x83E.
Definition APIC_BASE_EXTD : Z := 2 ^ 10.
Definition APIC_BASE_EN : Z := 2 ^ 11.
Definition SVR_APIC_ENABLE : Z := 2 ^ 8.
Definition LVT_MASKED : Z := 2 ^ 16.
Definition LVT_TIMER_PERIODIC : Z := 2 ^ 17.
Definition ICR_LEVEL_ASSERT : Z := 2 ^ 14.
Definition TIMER_DIVIDE_BY_16 : Z := 3.
Definition CALIB_MS : Z := 10.

Section lapic.
Context {X : Type} `{!Msrs X} (sleep_ms : Z -> M X unit).

Fixpoint wrmsr_all (l : list (Z * Z)) : M X unit :=
  match l with
  | [] => ret tt
  | (r, v) :: l' => do* wrmsr r v in wrmsr_all l'
  end.

(** The result is lapic_ticks_per_ms. *)
Definition lapic_calibrate : M X Z :=
  do* wrmsr_all [(MSR_X2APIC_TIMER_DCR, TIMER_DIVIDE_BY_16); (MSR_X2APIC_TIMER_ICR, 0xFFFFFFFF);
                 (MSR_X2APIC_LVT_TIMER, Z.lor LVT_MASKED LAPIC_TIMER_VECTOR)] in
  do* sleep_ms CALIB_MS in
  let* remaining := rdmsr MSR_X2APIC_TIMER_CCR in
  do* wrmsr MSR_X2APIC_TIMER_ICR 0 in
  ret (u32 (0xFFFFFFFF - u32 remaining) / CALIB_MS).

Definition lapic_id : M X Z := let* v := rdmsr MSR_X2APIC_ID in ret (u32 v).

(** [ticks] is lapic_ticks_per_ms before; a processor without x2APIC leaves it. *)
Definition lapic_init (has_x2apic : bool) (ticks : Z) : M X Z :=
  if has_x2apic then
    let* base := rdmsr MSR_APIC_BASE in
    do* wrmsr MSR_APIC_BASE (Z.lor base (Z.lor APIC_BASE_EN APIC_BASE_EXTD)) in
    do* lapic_id in
    do* wrmsr_all [(MSR_X2APIC_ESR, 0); (MSR_X2APIC_ESR, 0); (MSR_X2APIC_TPR, 0); (MSR_X2APIC_LVT_LINT0, LVT_MASKED);
                   (MSR_X2APIC_LVT_LINT1, LVT_MASKED); (MSR_X2APIC_LVT_ERROR, LAPIC_ERROR_VECTOR);
                   (MSR_X2APIC_SVR, Z.lor SVR_APIC_ENABLE LAPIC_SPURIOUS_VECTOR)] in
    let* t := lapic_calibrate in
    do* lapic_id in ret t
  else ret ticks.

Definition lapic_eoi : M X unit := wrmsr MSR_X2APIC_EOI 0.

Definition lapic_timer_start (periodic : bool) (ms ticks : Z) : M X unit :=
  if ticks =? 0 then ret tt
  else wrmsr_all [(MSR_X2APIC_TIMER_DCR, TIMER_DIVIDE_BY_16);
                  (MSR_X2APIC_LVT_TIMER, if periodic then Z.lor LAPIC_TIMER_VECTOR LVT_TIMER_PERIODIC else LAPIC_TIMER_VECTOR);
                  (MSR_X2APIC_TIMER_ICR, u32 (ticks * ms))].
Definition lapic_timer_stop : M X unit :=
  wrmsr_all [(MSR_X2APIC_TIMER_ICR, 0); (MSR_X2APIC_LVT_TIMER, Z.lor LVT_MASKED LAPIC_TIMER_VECTOR)].

Definition icr_of (dest_apic_id vector : Z) : Z := Z.lor (Z.lor (Z.shiftl dest_apic_id 32) ICR_LEVEL_ASSERT) vector.
Definition lapic_send_ipi (dest_apic_id vector : Z) : M X unit := wrmsr MSR_X2APIC_ICR (icr_of dest_apic_id vector).

Definition lapic_timer_handler (irq : M X unit) : M X unit := do* irq in lapic_eoi.
End lapic.

(** ** Channel 2 of the PIT

    [latch] is the first byte of a count written; [left] the ticks to the end
    of the count, [None] when none is loaded; [clock] all ticks since the start.
    The k-th access to the gate port takes [1 + lag k] ticks. *)
Record pit := mkPit { latch : option Z; left : option Z; gate : bool; clock : Z; polls : nat }.

Section pit.
Context (lag : nat -> Z).

Definition pit_tick (x : pit) : pit :=
  let d := 1 + lag (polls x) in
  mkPit (latch x) (match left x with Some n => if gate x then Some (n - d) else Some n | None => None end)
        (gate x) (clock x + d) (S (polls x)).
Definition out_high (x : pit) : bool := match left x with Some n => n <=? 0 | None => false end.
Definition pit_in (port : Z) (x : pit) : Z * pit :=
  if port =? GATE_PORT then
    let x' := pit_tick x in (Z.lor (if out_high x' then 0x20 else 0) (if gate x' then 1 else 0), x')
  else (0xFF, x).
Definition pit_out (port v : Z) (x : pit) : pit :=
  if port =? GATE_PORT then mkPit (latch x) (left x) (Z.testbit v 0) (clock x) (polls x)
  else if port =? MODE_PORT then mkPit None None (gate x) (clock x) (polls x)
  else if port =? TICKS_PORT then
    match latch x with
    | None => mkPit (Some v) (left x) (gate x) (clock x) (polls x)
    | Some low => mkPit None (Some (low + 2 ^ 8 * v)) (gate x) (clock x) (polls x)
    end
  else x.
#[local] Instance pit_ports : Ports pit := { port_in8 := pit_in; port_out8 := pit_out }.

Context (Hlag : forall k, 0 <= lag k).

Lemma poll_once x : poll_out tt x = Some (if out_high (pit_tick x) then inr tt else inl tt, pit_tick x).
Proof using. unfold poll_out, bind, x86_64_inb. cbn -[pit_tick out_high]. by destruct (out_high (pit_tick x)), (gate (pit_tick x)). Qed.

(** The polls end as soon as the count does. *)
Lemma polls_end fuel : forall n x, left x = Some n -> gate x = true -> n < Z.of_nat fuel -> (0 < fuel)%nat ->
  wp (iter fuel poll_out tt) (fun _ x' => clock x + Z.max 1 n <= clock x' /\ gate x' = true) x.
Proof using Hlag.
  induction fuel as [|fuel IH]; intros n x Hn Hg Hf Hf0; [lia|]. pose proof (Hlag (polls x)).
  cbn [iter]. rewrite wp_bind. unfold wp at 1. rewrite poll_once.
  assert (Hl : left (pit_tick x) = Some (n - (1 + lag (polls x)))) by (unfold pit_tick; cbn; by rewrite Hn, Hg).
  unfold out_high. rewrite Hl. destruct (Z.leb_spec (n - (1 + lag (polls x))) 0).
  - rewrite wp_ret. cbn. split; [lia|done].
  - eapply wp_mono; [apply (IH (n - (1 + lag (polls x)))); [done|done|lia|lia]|]. cbv beta. cbn [clock pit_tick].
    intros _ x' [Hc Hg']. split; [lia|done].
Qed.

Lemma ticks_range us : 0 < us <= SLEEP_CHUNK -> ticks_of us = Z.max 1 (us * PIT_FREQUENCY / 1000000) /\ ticks_of us < 2 ^ 16.
Proof.
  unfold SLEEP_CHUNK, ticks_of, PIT_FREQUENCY. intros H. rewrite u64_small by lia.
  assert (0 <= us * 1193182 / 1000000 < 65000) by (split; [apply Z.div_pos; lia|apply Z.div_lt_upper_bound; lia]).
  rewrite u32_small by lia. destruct (Z.eqb_spec (us * 1193182 / 1000000) 0); lia.
Qed.

Lemma count_bytes n : 0 <= n < 2 ^ 16 -> u8 (Z.land n 0xFF) + 2 ^ 8 * u8 (Z.shiftr n 8) = n.
Proof.
  intros. change 0xFF with (2 ^ 8 - 1). rewrite land_ones_mod, Z.shiftr_div_pow2 by lia. unfold u8.
  rewrite Z.mod_mod by lia. rewrite (Z.mod_small (n / 2 ^ 8)) by (split; [apply Z.div_pos; lia|apply Z.div_lt_upper_bound; lia]).
  pose proof (Z.div_mod n (2 ^ 8)). lia.
Qed.

Definition open_gate (x : pit) : pit := mkPit (latch x) (left x) true (clock x) (polls x).
Lemma gate_opens (k : M pit unit) x :
  (let* ctrl := x86_64_inb GATE_PORT in do* x86_64_outb GATE_PORT (Z.lor (Z.land ctrl (u8 (Z.lnot 2))) 1) in k) x = k (open_gate (pit_tick x)).
Proof using.
  unfold bind, x86_64_inb, x86_64_outb. cbn -[pit_tick u8 Z.lor Z.land Z.testbit out_high].
  rewrite testbit_u8, Z.lor_spec by lia. by rewrite orb_true_r.
Qed.
Lemma count_loads (k : M pit unit) n x : 0 <= n < 2 ^ 16 ->
  (do* x86_64_outb MODE_PORT 0xB0 in do* x86_64_outb TICKS_PORT (Z.land n 0xFF) in do* x86_64_outb TICKS_PORT (Z.shiftr n 8) in k) x =
    k (mkPit None (Some n) (gate x) (clock x) (polls x)).
Proof using.
  intros. unfold bind, x86_64_outb. cbn -[u8 Z.land Z.shiftr Z.mul Z.pow]. by rewrite count_bytes by lia.
Qed.

(** A chunk lets at least its ticks go by, and ends. *)
Lemma sleep_chunk_spec fuel n x : 0 < n < 2 ^ 16 -> n < Z.of_nat fuel ->
  wp (sleep_chunk fuel n) (fun _ x' => clock x + n <= clock x') x.
Proof using Hlag.
  intros Hn Hf. pose proof (Hlag (polls x)). unfold wp, sleep_chunk. rewrite count_loads, gate_opens by lia.
  fold (wp (iter fuel poll_out tt) (fun _ x' => clock x + n <= clock x') (open_gate (pit_tick (mkPit None (Some n) (gate x) (clock x) (polls x))))).
  eapply wp_mono; [apply (polls_end fuel (if gate x then n - (1 + lag (polls x)) else n)); cbn; destruct (gate x); (done || lia)|].
  cbv beta. intros _ x' [Hc _]. cbn in Hc. destruct (gate x); lia.
Qed.

(** The ticks of the chunks of a sleep. *)
Fixpoint ticks_for (n : nat) (us : Z) : Z :=
  match n with
  | O => 0
  | S n' => if us <=? 0 then 0 else ticks_of (chunk_of us) + ticks_for n' (us - chunk_of us)
  end.

Lemma chunk_range us : 0 < us -> 0 < chunk_of us <= SLEEP_CHUNK /\ chunk_of us <= us /\ (SLEEP_CHUNK < us -> chunk_of us = SLEEP_CHUNK) /\
  (us <= SLEEP_CHUNK -> chunk_of us = us).
Proof using. unfold chunk_of, SLEEP_CHUNK. intros. destruct (Z.ltb_spec 54000 us); lia. Qed.

Lemma sleep_loop_spec fuel n : forall us x, 0 <= us < 2 ^ 32 -> us / SLEEP_CHUNK < Z.of_nat n -> 2 ^ 16 <= Z.of_nat fuel ->
  wp (sleep_loop fuel n us) (fun _ x' => clock x + ticks_for n us <= clock x') x.
Proof using Hlag.
  induction n as [|n IH]; intros us x Hu Hn Hf; cbn [sleep_loop ticks_for].
  - pose proof (Z.div_pos us SLEEP_CHUNK). unfold SLEEP_CHUNK in *. lia.
  - destruct (Z.leb_spec us 0); [rewrite wp_ret; lia|].
    destruct (chunk_range us) as (Hc & Hcu & Hbig & Hsmall); [done|]. destruct (ticks_range (chunk_of us)) as [Ht Ht']; [lia|].
    rewrite wp_bind. eapply wp_mono; [apply sleep_chunk_spec; lia|]. cbv beta. intros _ x1 Hx1.
    rewrite u32_small by lia. destruct (Z.leb_spec us SLEEP_CHUNK).
    + rewrite Hsmall, Z.sub_diag by done. rewrite Hsmall in Hx1 by done. destruct n; cbn; lia.
    + rewrite Hbig by done. rewrite Hbig in Hx1 by done.
      eapply wp_mono; [apply (IH (us - SLEEP_CHUNK)); [unfold SLEEP_CHUNK in *; lia| |done]|].
      * replace (us - SLEEP_CHUNK) with (us + (-1) * SLEEP_CHUNK) by lia. rewrite Z.div_add by done. lia.
      * cbv beta. intros _ x2 Hx2. lia.
Qed.

Lemma ticks_for_bound n : forall us, 0 <= us -> us / SLEEP_CHUNK < Z.of_nat n ->
  us * PIT_FREQUENCY - 1000000 * (us / SLEEP_CHUNK + 1) <= 1000000 * ticks_for n us.
Proof using.
  induction n as [|n IH]; intros us Hu Hn; cbn [ticks_for].
  - pose proof (Z.div_pos us SLEEP_CHUNK). unfold SLEEP_CHUNK in *. lia.
  - destruct (Z.leb_spec us 0) as [Hz|Hz]; [replace us with 0 by lia; rewrite Z.div_0_l by done; lia|].
    destruct (chunk_range us) as (Hc & Hcu & Hbig & Hsmall); [done|]. destruct (ticks_range (chunk_of us)) as [Ht _]; [lia|].
    pose proof (Z.div_mod (chunk_of us * PIT_FREQUENCY) 1000000 ltac:(lia)) as Hm.
    pose proof (Z.mod_pos_bound (chunk_of us * PIT_FREQUENCY) 1000000 ltac:(lia)) as Hb.
    destruct (Z.leb_spec us SLEEP_CHUNK) as [Hs|Hs].
    + rewrite Hsmall in * by done. rewrite Z.sub_diag. pose proof (Z.div_pos us SLEEP_CHUNK ltac:(lia) ltac:(done)).
      destruct n; cbn; lia.
    + rewrite Hbig in * by done. assert (E : (us - SLEEP_CHUNK) / SLEEP_CHUNK = us / SLEEP_CHUNK - 1).
      { replace (us - SLEEP_CHUNK) with (us + (-1) * SLEEP_CHUNK) by lia. rewrite Z.div_add by done. lia. }
      specialize (IH (us - SLEEP_CHUNK) ltac:(lia) ltac:(lia)). rewrite E in IH. lia.
Qed.

(** timer_sleep_us ends, whatever the lag of the polls, and the clock of the
    PIT runs by the time asked for, short of it by less than one tick in each
    chunk of 54 ms begun. *)
Theorem sleep_lasts fuel us x : 0 <= us < 2 ^ 32 -> 2 ^ 16 <= Z.of_nat fuel ->
  wp (timer_sleep_us fuel us)
     (fun _ x' => us * PIT_FREQUENCY - 1000000 * (us / SLEEP_CHUNK + 1) <= 1000000 * (clock x' - clock x)) x.
Proof using Hlag.
  intros Hu Hf. assert (Hn : us / SLEEP_CHUNK < Z.of_nat (Z.to_nat (us / SLEEP_CHUNK + 1))).
  { pose proof (Z.div_pos us SLEEP_CHUNK ltac:(lia) ltac:(done)). lia. }
  pose proof (ticks_for_bound _ us ltac:(lia) Hn). eapply wp_mono; [by apply sleep_loop_spec|]. cbv beta. intros _ x' Hx. lia.
Qed.
End pit.

(** A millisecond count above 4294967 wraps: such a sleep is over at once. *)
Example sleep_ms_wraps {X} `{!Ports X} fuel (x : X) : timer_sleep_ms fuel 536870912 x = Some (tt, x).
Proof. reflexivity. Qed.

(** ** The timer of the local interrupt controller *)

Definition plain_in (r : Z) (m : Z -> Z) : Z * (Z -> Z) := (m r, m).
Definition plain_out (r v : Z) (m : Z -> Z) : Z -> Z := fun q => if q =? r then v else m q.
#[export] Instance plain_msrs : Msrs (Z -> Z) := { msr_read := plain_in; msr_write := plain_out }.

(** If the counter runs [f] counts per millisecond while the calibration
    sleeps, that is what the calibration finds, whenever 10 ms fit its width;
    and the timer it leaves is stopped and masked. *)
Theorem calibration_finds_rate (sleep : Z -> M (Z -> Z) unit) f m : 0 <= f -> 10 * f < 2 ^ 32 ->
  (forall m, sleep CALIB_MS m = Some (tt, plain_out MSR_X2APIC_TIMER_CCR (m MSR_X2APIC_TIMER_ICR - 10 * f) m)) ->
  wp (lapic_calibrate sleep) (fun t m' => t = f /\ m' MSR_X2APIC_TIMER_ICR = 0 /\ Z.testbit (m' MSR_X2APIC_LVT_TIMER) 16 = true) m.
Proof.
  intros H0 Hf Hs. unfold lapic_calibrate. rewrite wp_bind. unfold wp at 1. cbn -[wp u64 plain_out lapic_calibrate].
  rewrite wp_bind. unfold wp at 1. rewrite Hs. rewrite wp_bind. unfold wp at 1. cbn -[wp u32 u64]. rewrite wp_bind. unfold wp at 1. cbn -[u32 u64].
  split_and!; [|done..]. change (u64 4294967295) with 4294967295. rewrite (u32_small (4294967295 - 10 * f)) by lia.
  rewrite u32_small by lia. unfold CALIB_MS. replace (4294967295 - (4294967295 - 10 * f)) with (f * 10) by lia. by apply Z.div_mul.
Qed.

(** The fields of an interrupt sent to another processor. *)
Lemma ipi_fields dest vector : 0 <= dest < 2 ^ 32 -> 0 <= vector < 256 ->
  u64 (icr_of dest vector) = icr_of dest vector /\ icr_of dest vector / 2 ^ 32 = dest /\ icr_of dest vector mod 2 ^ 8 = vector.
Proof.
  intros Hd Hv. assert (E : icr_of dest vector = dest * 2 ^ 32 + 2 ^ 14 + vector).
  { unfold icr_of, ICR_LEVEL_ASSERT. rewrite Z.shiftl_mul_pow2 by lia. rewrite !lor_disjoint_add; [done| |].
    - apply Z.bits_inj'. intros i Hi. rewrite Z.land_spec, Z.bits_0. destruct (decide (i = 14)) as [->|].
      + rewrite Z.mul_pow2_bits_low by lia. done.
      + rewrite Z.pow2_bits_false by lia. apply andb_false_r.
    - rewrite lor_disjoint_add.
      + apply Z.bits_inj'. intros i Hi. rewrite Z.land_spec, Z.bits_0. destruct (decide (i < 8)).
        * replace (dest * 2 ^ 32 + 2 ^ 14) with ((dest * 2 ^ 18 + 1) * 2 ^ 14) by lia. rewrite Z.mul_pow2_bits_low by lia. done.
        * rewrite (testbit_high 8 vector i) by lia. apply andb_false_r.
      + apply Z.bits_inj'. intros i Hi. rewrite Z.land_spec, Z.bits_0. destruct (decide (i = 14)) as [->|].
        * rewrite Z.mul_pow2_bits_low by lia. done.
        * rewrite Z.pow2_bits_false by lia. apply andb_false_r. }
  rewrite E. split_and!; [apply u64_small; lia|symmetry; apply (Z.div_unique _ _ _ (2 ^ 14 + vector)); lia|].
  symmetry. apply (Z.mod_unique _ _ (dest * 2 ^ 24 + 2 ^ 6)); lia.
Qed.
