(* ===== verification/Modules.v ===== *)
(** * Kernel modules (src/kernel/module/module.c and the files that register one)

    The list of drivers, which of them the configuration lets start, and the
    start and the end of each.  A start function is a name of type [F]; what it
    does is [run], which gives the int it returns and the state after it.

    The list of names is cut at commas by strtok; [strtok_splits] of CString.v
    shows that this gives the [words] of the text. *)

From S2P Require Import Prelude Bytes CString.
#[local] Open Scope Z_scope.

Definition MAX_MODS : Z := 120.

Record module_t (F : Type) := mkModule { name : list Z; enabled : bool; start : F; exit : F }.
Arguments mkModule {F}. Arguments name {F}. Arguments enabled {F}. Arguments start {F}. Arguments exit {F}.

Section modules.
Context {F X : Type}.
#[local] Abbreviation module := (module_t F).

(** The entries of kernel_modules below module_count; [None] is NULL.
    module_init fails when kmalloc gives nothing. *)
Definition module_init (got_memory : bool) : option (list (option module)) :=
  if got_memory then Some [] else None.

Definition module_register (m : option module) (mods : list (option module)) : list (option module) * Z :=
  if MAX_MODS <=? Z.of_nat (length mods) then (mods, -1) else (mods ++ [m], 0).

(** One driver's create function: a module with the name cut to the field, or
    nothing when there is no memory.  The field [enabled] is what the memory
    held ([junk]). *)
Definition sizeof_name : Z := 214.
Definition create_mod (got_memory junk : bool) (nm : list Z) (f g : F) (mods : list (option module)) : list (option module) * Z :=
  if got_memory then module_register (Some (mkModule (firstn (Z.to_nat (sizeof_name - 1)) nm) junk f g)) mods else (mods, -1).

Definition start_one (run : F -> X -> X * Z) (m : option module) (x : X) : X :=
  match m with
  | Some m => if enabled m then fst (run (start m) x) else x
  | None => x
  end.
Definition module_start (run : F -> X -> X * Z) (mods : list (option module)) (x : X) : X := foldl (fun x m => start_one run m x) x mods.

Definition exit_one (run : F -> X -> X * Z) (m : option module) (x : X) : X :=
  match m with Some m => fst (run (exit m) x) | None => x end.
Definition module_exit (run : F -> X -> X * Z) (mods : list (option module)) (x : X) : X := foldl (fun x m => exit_one run m x) x mods.

(** The names of the list: its first 511 bytes, cut at commas, the first 120. *)
Definition allowed_names (enabled_list : list Z) : list (list Z) :=
  firstn (Z.to_nat MAX_MODS) (words [44] (firstn 511 enabled_list)).
Definition is_allowed (allowed : list (list Z)) (nm : list Z) : bool := existsb (fun a => bool_decide (nm = a)) allowed.
Definition disable_one (allowed : list (list Z)) (m : option module) : option module :=
  match m with
  | Some m => Some (mkModule (name m) (is_allowed allowed (name m)) (start m) (exit m))
  | None => None
  end.
(** [None] for the list is NULL. *)
Definition module_disable_others (enabled_list : option (list Z)) (mods : list (option module)) : list (option module) :=
  match enabled_list with
  | None => mods
  | Some l => map (disable_one (allowed_names l)) mods
  end.

(** ** What starts *)

Lemma is_allowed_spec allowed nm : is_allowed allowed nm = true <-> nm ∈ allowed.
Proof.
  unfold is_allowed. rewrite existsb_exists. setoid_rewrite bool_decide_eq_true. split.
  - intros (a & Ha & ->). by apply list_elem_of_In.
  - intros H. exists nm. split; [by apply list_elem_of_In|done].
Qed.

Lemma register_bound m mods : Z.of_nat (length mods) <= MAX_MODS -> Z.of_nat (length (fst (module_register m mods))) <= MAX_MODS.
Proof. unfold module_register. intros. destruct (Z.leb_spec MAX_MODS (Z.of_nat (length mods))); cbn [fst]; [done|]. rewrite length_app. cbn. lia. Qed.

Lemma register_refused m mods : snd (module_register m mods) < 0 <-> MAX_MODS <= Z.of_nat (length mods).
Proof. unfold module_register. destruct (Z.leb_spec MAX_MODS (Z.of_nat (length mods))); cbn [snd]; lia. Qed.

(** The start functions of the modules that are enabled, in the order of their
    registration. *)
Definition to_start (mods : list (option module)) : list F :=
  omap (fun m => match m with Some m => if enabled m then Some (start m) else None | None => None end) mods.

Lemma starts_enabled run mods : forall x, module_start run mods x = foldl (fun x f => fst (run f x)) x (to_start mods).
Proof.
  unfold module_start. induction mods as [|[m|] mods IH]; intros x; cbn; [done| |apply IH].
  rewrite IH. by destruct (enabled m).
Qed.

(** Whatever was in the memory of the modules before, the configuration
    decides: exactly the registered modules that it names are started, each
    once, in the order of their registration, and one that fails does not keep
    the others from starting. *)
Theorem named_modules_start run l mods x :
  module_start run (module_disable_others (Some l) mods) x =
    foldl (fun x f => fst (run f x)) x
      (map start (filter (fun m => name m ∈ allowed_names l) (omap id mods))).
Proof.
  rewrite starts_enabled. f_equal. unfold module_disable_others, to_start.
  induction mods as [|[m|] mods IH]; cbn; [done| |exact IH].
  case_decide as H; cbn [map]; rewrite <- is_allowed_spec in H.
  - rewrite H. by f_equal.
  - apply not_true_is_false in H. rewrite H. exact IH.
Qed.

(** A list without a comma at its end that fits names what it says. *)
Lemma allowed_all l : (length l <= 511)%nat -> (length (words [44%Z] l) <= Z.to_nat MAX_MODS)%nat -> allowed_names l = words [44] l.
Proof. intros H1 H2. unfold allowed_names. rewrite (take_ge l) by lia. by apply take_ge. Qed.
End modules.

(** The default list of the kernel starts the USB and the PCI driver, whatever
    the order, and neither the ATA nor the floppy driver. *)
Definition default_mods : list Z := [120;104;99;105;44;112;99;105].
Definition boot_mods (junk : bool) : list (option (module_t Z)) :=
  fst (create_mod true junk [102;100;99] 4 0 (fst (create_mod true junk [97;116;97] 3 0
    (fst (create_mod true junk [120;104;99;105] 2 0 (fst (create_mod true junk [112;99;105] 1 0 []))))))).
Example default_starts_two : forall junk,
  module_start (fun f (x : list Z) => (x ++ [f], 0)) (module_disable_others (Some default_mods) (boot_mods junk)) [] = [1; 2].
Proof. intros []; vm_compute; reflexivity. Qed.
(** Blanks belong to a name: "xhci, pci" starts the USB driver alone. *)
Example blank_disables : forall junk,
  module_start (fun f (x : list Z) => (x ++ [f], 0)) (module_disable_others (Some [120;104;99;105;44;32;112;99;105]) (boot_mods junk)) [] = [2].
Proof. intros []; vm_compute; reflexivity. Qed.
