(* ===== verification/PageFault.v ===== *)
(** * Faults (src/kernel/arch/x86_64/pagefault.c, isr_handlers.c)

    What becomes of a process whose instruction faults: it is resumed after
    demand paging, it ends, or the kernel panics.  CR2, the error code and the
    selector of the code segment are arguments; the dumps of the registers go
    to the log and are not modelled.

    [demand_page_is_not_seen] shows that demand paging does not work for a
    process with an address space of its own: the page goes to the kernel's
    space, and clearing it faults again. *)

From S2P Require Import Prelude PhysMem Pmm Vmm AddressSpace ProcMem User Proc.
#[local] Open Scope Z_scope.

Inductive fault_outcome :=
| FaultResumed
| FaultExit (next : cpu)
| FaultPanic.

(** What try_demand_page does: map the page, refuse, or fault itself. *)
Inductive demand := Served | Refused | FaultsAgain.

Definition err_present (err : Z) : bool := Z.testbit err 0.
Definition err_user (err : Z) : bool := Z.testbit err 2.

Section faults.
Context `{BootInfo} (kernel_space : address_space).

(** The clearing of the page goes through the tables in use; where they have
    no page it faults in the kernel. *)
Definition try_demand_page (faulting_address err : Z) (s : procs) : procs * demand :=
  if err_present err || negb (err_user err) then (s, Refused)
  else if negb (proc_is_valid_demand_addr faulting_address s) then (s, Refused)
  else
    let page_vaddr := page_down faulting_address in
    let '(m, mapped) := vmm_alloc_page kernel_space AS_KERNEL page_vaddr VMM_USER_PAGE (mach s) in
    if mapped =? 0 then (set_mach m s, Refused)
    else match mmu (cr3 s) page_vaddr m with
         | None => (set_mach m s, FaultsAgain)
         | Some _ => (set_mach (vfill (cr3 s) page_vaddr 0 PAGE_SIZE m) s, Served)
         end.

(** The fault inside the handler is one of the kernel (its error code has the
    user bit clear), which is refused and panics. *)
Definition x86_64_PageFault_Handler (cr2 err : Z) (s : procs) : procs * fault_outcome :=
  match try_demand_page cr2 err s with
  | (s1, Served) => (s1, FaultResumed)
  | (s1, FaultsAgain) => (s1, FaultPanic)
  | (s1, Refused) =>
      if err_user err then let '(s2, next) := proc_exit kernel_space (-1) s1 in (s2, FaultExit next)
      else (s1, FaultPanic)
  end.
Definition x86_64_DoubleFault_Handler (s : procs) : procs * fault_outcome := (s, FaultPanic).

(** Every exception of isr_handlers.c; the message is all they differ in. *)
Definition dump (code_segment : Z) (s : procs) : procs * fault_outcome :=
  if Z.land code_segment 3 =? 3 then let '(s1, next) := proc_exit kernel_space (-1) s in (s1, FaultExit next)
  else (s, FaultPanic).
Definition register_exception_handlers : list Z := [0; 3; 4; 5; 6; 7; 10; 11; 12; 13; 16; 17; 19].
Definition x86_64_PageFault_Initialize : list Z := [14; 8].

(** ** What it comes to *)

Lemma kernel_fault_panics cr2 err s : err_user err = false -> x86_64_PageFault_Handler cr2 err s = (s, FaultPanic).
Proof using. intros E. unfold x86_64_PageFault_Handler, try_demand_page. by rewrite E, orb_true_r. Qed.

Lemma protection_fault_exits cr2 err s : err_present err = true -> err_user err = true ->
  x86_64_PageFault_Handler cr2 err s =
    (fst (proc_exit kernel_space (-1) s), FaultExit (snd (proc_exit kernel_space (-1) s))).
Proof using. intros E1 E2. unfold x86_64_PageFault_Handler, try_demand_page. rewrite E1, E2. cbn. by destruct proc_exit. Qed.

Lemma page_down_mask a : page_down a = Z.land a PAGE_MASK.
Proof using. reflexivity. Qed.
Lemma page_mask_range a : 0 <= a < 2 ^ 64 -> 0 <= Z.land a PAGE_MASK < 2 ^ 64.
Proof using.
  intros Ha. rewrite land_PAGE_MASK by done. unfold PAGE_SIZE.
  pose proof (Z.div_mod a 4096). pose proof (Z.mod_pos_bound a 4096). pose proof (Z.div_pos a 4096). lia.
Qed.

(** Giving a page to the kernel's space writes no page in use but its tables. *)
Lemma alloc_page_data kroot virt flags m : space_ok kernel_space user_half kroot AS_KERNEL m ->
  user_half (PML4_INDEX virt) -> 0 <= virt < 2 ^ 64 -> 0 <= flags < PAGE_SIZE ->
  forall i a, page_used (pmm m) i -> ~ is_table user_half kroot m (i * PAGE_SIZE) -> i * PAGE_SIZE <= a < (i + 1) * PAGE_SIZE ->
    mem (fst (vmm_alloc_page kernel_space AS_KERNEL virt flags m)) a = mem m a.
Proof using.
  intros Hok HD Hv Hf i a Hi Ht Ha. pose proof Hok as [Hm Hs _]. unfold vmm_alloc_page.
  destruct (pmm_alloc_cases m (mw_pmm _ Hm)) as [(n & m1 & -> & T & _)|[-> _]]; [|done].
  destruct (n * PAGE_SIZE =? 0).
  { cbn. apply (taken_keeps m m1 n 1 (mem m1) i); [done|apply T|done..]. }
  pose proof (taken_evolves user_half kroot m m1 n 1 (mem m1) Hm Hs T (taken_ram_bytes _ _ _ _ T (mw_bytes _ Hm)) (taken_frame _ _ _ _ T)) as Ev.
  replace (mkMachine (pmm m1) (mem m1)) with m1 in Ev by (by destruct m1).
  pose proof (evolves_update user_half kroot (fun _ => False) m m1 Ev) as U1.
  pose proof (space_ok_update kernel_space _ _ _ _ _ _ Hok U1) as Hok1.
  destruct (taken_range _ _ _ _ T) as (H0 & _ & H1). pose proof (mw_top _ Hm). pose proof (mw_hhdm _ Hm).
  destruct (vmm_map_cases kernel_space user_half kroot AS_KERNEL virt (n * PAGE_SIZE) flags m1 Hok1 HD Hv ltac:(unfold PAGE_SIZE in *; lia) Hf)
    as (m2 & ok & -> & _ & Hc).
  assert (E : mem m2 a = mem m a).
  { assert (Hd : forall P, vm_update user_half kroot P m1 m2 -> mem m2 a = mem m a).
    { intros P U. rewrite <- (vu_data _ _ _ _ _ U1 i a) by done. apply (vu_data _ _ _ _ _ U i); [by apply U1| |done].
      intros Hn. destruct (vu_new _ _ _ _ _ U1 _ Hn) as [|Hn']; [done|]. apply Hn'. by exists i. }
    destruct Hc as [(_ & U & _)|[_ Ev2]]; [by eapply Hd|by eapply (Hd (fun _ => False)), evolves_update]. }
  destruct ok; cbn [fst]; [done|]. unfold pmm_free. by destruct (n * PAGE_SIZE =? 0).
Qed.

(** A process whose tables are not the kernel's sees none of it. *)
Lemma alloc_page_not_seen kroot root virt flags m va : space_ok kernel_space user_half kroot AS_KERNEL m ->
  user_half (PML4_INDEX virt) -> 0 <= virt < 2 ^ 64 -> 0 <= flags < PAGE_SIZE ->
  space_wf user_half root m -> (forall f, is_table user_half root m f -> ~ is_table user_half kroot m f) ->
  user_half (PML4_INDEX va) ->
  translate (mem (fst (vmm_alloc_page kernel_space AS_KERNEL virt flags m))) root va = translate (mem m) root va.
Proof using.
  intros Hok HD Hv Hf Hs Hdis Hva. unfold translate. apply (walk_ext user_half); [|by apply va_path_in|done].
  intros p g j Hp Hl Hg. pose proof (path_in_app _ _ _ Hp) as Hp'.
  destruct (sw_frame _ _ _ Hs p g Hp' Hl Hg) as (i & -> & Hi).
  apply step_agree; [|by eapply path_in_last]. intros a Ha. apply (alloc_page_data kroot virt flags m Hok HD Hv Hf i).
  - done.
  - apply Hdis. by exists p.
  - unfold PAGE_SIZE in *. lia.
Qed.

(** A process that has its own tables and touches a page of its stack, code or
    heap that is not there yet is never resumed with the page: the page is
    mapped in the kernel's space, where its own tables do not lead, and the
    handler faults on it, so the kernel panics; without memory the process
    ends.  The address stays unmapped for the process. *)
Theorem demand_page_is_not_seen kroot cr2 err s :
  space_ok kernel_space user_half kroot AS_KERNEL (mach s) -> space_wf user_half (cr3 s) (mach s) ->
  (forall f, is_table user_half (cr3 s) (mach s) f -> ~ is_table user_half kroot (mach s) f) ->
  0 <= cr2 < 2 ^ 64 -> user_half (PML4_INDEX cr2) -> translate (mem (mach s)) (cr3 s) cr2 = None ->
  err_present err = false -> err_user err = true -> proc_is_valid_demand_addr cr2 s = true ->
  exists m, translate (mem m) (cr3 s) cr2 = None /\
    (x86_64_PageFault_Handler cr2 err s = (set_mach m s, FaultPanic) \/
     snd (vmm_alloc_page kernel_space AS_KERNEL (page_down cr2) VMM_USER_PAGE (mach s)) = 0 /\
     exists next, snd (x86_64_PageFault_Handler cr2 err s) = FaultExit next).
Proof using.
  intros Hok Hs Hdis Hc HD Hn He1 He2 Hd.
  assert (Hpath : va_path (page_down cr2) = va_path cr2) by (rewrite page_down_mask; by apply va_path_mask).
  assert (HD' : user_half (PML4_INDEX (page_down cr2))) by (unfold va_path in Hpath; injection Hpath as -> _ _ _; done).
  pose proof (page_mask_range cr2 Hc) as Hr. rewrite <- page_down_mask in Hr.
  pose proof (alloc_page_not_seen kroot (cr3 s) (page_down cr2) VMM_USER_PAGE (mach s) cr2 Hok HD' Hr ltac:(done) Hs Hdis HD) as E.
  rewrite Hn in E. unfold x86_64_PageFault_Handler, try_demand_page. rewrite He1, He2, Hd. cbn [orb negb].
  destruct (vmm_alloc_page kernel_space AS_KERNEL (page_down cr2) VMM_USER_PAGE (mach s)) as [m mapped]. cbn [fst snd] in *.
  exists m. split; [done|]. destruct (Z.eqb_spec mapped 0) as [->|].
  - right. split; [done|]. destruct (proc_exit kernel_space (-1) (set_mach m s)) as [s2 next]. by exists next.
  - left. unfold mmu. unfold translate in *. by rewrite Hpath, E.
Qed.
End faults.

(** ** A process that touches the ninth page of its stack

    The process of the small machine: its stack arena reaches from 0x20000000,
    of which nothing is mapped. *)
#[local] Existing Instance limine_boot.
Definition faulting_procs : procs :=
  mkProcs [mkPCB zero_proc PROC_RUNNING zero_regs small_space 0
             (mkLayout 0x100000 0x101000 0x20000000 0x21000000 0x101000 0x101000) (-1) []]
    0 1 true 0 0 small_space_machine 0x3000 0.

(** The kernel's own tables have nothing in the user half. *)
Lemma kernel_walk_none i q : path_in user_half (i :: q) -> walk (mem small_space_machine) 0x7000 (i :: q) = None.
Proof.
  intros [_ Hd]. specialize (Hd i eq_refl).
  assert (E : load64 (mem small_space_machine) (0x7000 + 8 * i) = load64 (mem small_machine) (0x7000 + 8 * i)).
  2: { cbn [walk]. unfold step. rewrite E. reflexivity. }
  apply load64_agree. intros x Hx.
  apply (two_taken_keeps small_machine small_space_machine 2 3 7); [apply (cr_taken _ _ _ _ _ small_created)|apply small_used; [lia|by vm_compute]|].
  unfold user_half, PAGE_SIZE in *. lia.
Qed.
Lemma kernel_user_half_ok : space_ok small_kernel user_half 0x7000 AS_KERNEL small_space_machine.
Proof.
  pose proof (cr_taken _ _ _ _ _ small_created) as T. split; [apply T| |by split].
  assert (Hu : page_used (pmm small_space_machine) 7) by (apply (tt_used _ _ _ _ T); left; apply small_used; [lia|by vm_compute]).
  split.
  - intros [|i q] f Hp _ Hf; [|rewrite (kernel_walk_none i q Hp) in Hf; discriminate Hf]. injection Hf as <-. exists 7. split; [reflexivity|exact Hu].
  - intros [|i p] [|j q] f Hp _ Hq _ Hf Hg; [reflexivity|rewrite (kernel_walk_none j q Hq) in Hg; discriminate Hg|rewrite (kernel_walk_none i p Hp) in Hf; discriminate Hf..].
Qed.

Lemma demand_page_is_not_seen_witness :
  exists m, translate (mem m) (cr3 faulting_procs) 0x20FF0000 = None /\
    (x86_64_PageFault_Handler small_kernel 0x20FF0000 6 faulting_procs = (set_mach m faulting_procs, FaultPanic) \/
     snd (vmm_alloc_page small_kernel AS_KERNEL (page_down 0x20FF0000) VMM_USER_PAGE (mach faulting_procs)) = 0 /\
     exists next, snd (x86_64_PageFault_Handler small_kernel 0x20FF0000 6 faulting_procs) = FaultExit next).
Proof.
  apply (demand_page_is_not_seen small_kernel 0x7000 0x20FF0000 6 faulting_procs).
  - exact kernel_user_half_ok.
  - apply small_space_ok.
  - change (mach faulting_procs) with small_space_machine. change (cr3 faulting_procs) with 0x3000. intros f Hf (p & Hp & _ & Hw). apply (created_is_table _ _ _ _ _ _ small_created) in Hf as ->.
    destruct p as [|i q]; [cbn [walk] in Hw; injection Hw as Hw; unfold PAGE_SIZE in Hw; lia|rewrite (kernel_walk_none i q Hp) in Hw; discriminate Hw].
  - lia.
  - by split.
  - apply (created_user _ _ _ _ _ _ small_created). by split.
  - reflexivity.
  - reflexivity.
  - vm_compute. reflexivity.
Defined.

(** On this machine there is memory for the page and its tables, so it panics. *)
Example ninth_stack_page_panics : snd (x86_64_PageFault_Handler small_kernel 0x20FF0000 6 faulting_procs) = FaultPanic.
Proof. vm_compute. reflexivity. Qed.
