(* ===== verification/Floppy.v ===== *)
(** * Floppy disks (src/kernel/drivers/disk/floppy.c, block/block_floppy.c)

    The driver over ports that are a parameter.  [spin n] is a busy loop of at
    most [n] rounds that the interrupt 6 ends: it gives whether the handler has
    run.  [junk] is what an uninitialised byte on the stack holds: the driver
    ignores that a byte of a result could not be read.  The state besides the
    ports is g_irq_received and g_dma_buffer, which the controller fills by DMA
    ([dma]: what a transfer leaves in the buffer). *)

From S2P Require Import Prelude Bytes StateMonad Ports.
#[local] Open Scope Z_scope.

Definition FDC_DOR : Z := 0x3F2.
Definition FDC_MSR : Z := 0x3F4.
Definition FDC_DATA : Z := 0x3F5.
Definition FDC_CCR : Z := 0x3F7.
Definition DMA_ADDR : Z := 0x04.
Definition DMA_COUNT : Z := 0x05.
Definition DMA_PAGE : Z := 0x81.
Definition DMA_MODE : Z := 0x0B.
Definition DMA_RESET : Z := 0x0C.
Definition DMA_UNMASK : Z := 0x0A.
Definition CMD_SPECIFY : Z := 0x03.
Definition CMD_WRITE_DATA : Z := 0xC5.
Definition CMD_READ_DATA : Z := 0xE6.
Definition CMD_RECALIBRATE : Z := 0x07.
Definition CMD_SENSE_INTERRUPT : Z := 0x08.
Definition CMD_SEEK : Z := 0x0F.
Definition CMD_VERSION : Z := 0x10.
Definition MSR_RQM : Z := 0x80.
Definition MSR_DIO : Z := 0x40.
Definition DOR_RESET : Z := 0x00.
Definition DOR_DMAEN : Z := 0x08.
Definition DOR_MOTA : Z := 0x10.

Record floppy_geometry_t := mkGeometry { heads : Z; tracks : Z; sectors_per_track : Z; bytes_per_sector : Z }.
Definition g_geometry : floppy_geometry_t := mkGeometry 2 80 18 512.
Definition floppy_get_geometry (drive : Z) : floppy_geometry_t := g_geometry.

(** Cylinder, head and sector of a block, each in a byte. *)
Definition lba_to_chs (lba : Z) : Z * Z * Z :=
  (u8 (lba / (heads g_geometry * sectors_per_track g_geometry)),
   u8 ((lba / sectors_per_track g_geometry) mod heads g_geometry),
   u8 (lba mod sectors_per_track g_geometry + 1)).

Record fdc (X : Type) := mkFdc { g_irq_received : bool; g_dma_buffer : list Z; io : X }.
Arguments mkFdc {X}. Arguments g_irq_received {X}. Arguments g_dma_buffer {X}. Arguments io {X}.

Section driver.
Context {X : Type} `{!Ports X} (spins : Z -> X -> bool * X) (dma : list Z -> X -> list Z) (junk : Z) (buffer_addr : Z).
#[local] Abbreviation FM := (M (fdc X)).

Definition on_io {A} (m : M X A) : FM A :=
  fun s => match m (io s) with Some (a, x) => Some (a, mkFdc (g_irq_received s) (g_dma_buffer s) x) | None => None end.
Definition set_irq (b : bool) : FM unit := modify (fun s => mkFdc b (g_dma_buffer s) (io s)).
Definition outb (p v : Z) : FM unit := on_io (x86_64_outb p v).

(** Wait for the interrupt; the transfer may change the buffer meanwhile. *)
Definition spin (n : Z) : FM unit :=
  modify (fun s => if g_irq_received s then s
                   else let '(b, x) := spins n (io s) in mkFdc b (dma (g_dma_buffer s) x) x).

Fixpoint wait_ready_loop (n : nat) (write : bool) : FM bool :=
  match n with
  | O => ret false
  | S n' =>
      let* msr := on_io (x86_64_inb FDC_MSR) in
      if negb (Z.land msr MSR_RQM =? 0) && (write || negb (Z.land msr MSR_DIO =? 0)) then ret true
      else do* on_io x86_64_iowait in wait_ready_loop n' write
  end.
Definition fdc_wait_ready (write : bool) : FM bool := wait_ready_loop 600 write.

Definition fdc_write_byte (byte : Z) : FM bool :=
  let* ok := fdc_wait_ready true in
  if ok then do* outb FDC_DATA byte in ret true else ret false.
Fixpoint fdc_write_bytes (l : list Z) : FM unit :=
  match l with [] => ret tt | b :: l' => do* fdc_write_byte b in fdc_write_bytes l' end.

(** The byte read, or [old] when the controller had none. *)
Definition fdc_read_byte (old : Z) : FM (Z * bool) :=
  let* ok := fdc_wait_ready false in
  if ok then let* b := on_io (x86_64_inb FDC_DATA) in ret (b, true) else ret (old, false).

Definition fdc_setup_dma (length : Z) (write : bool) : FM unit :=
  let addr := u32 buffer_addr in
  on_io (outb_all [(DMA_RESET, 0xFF); (DMA_MODE, if write then 0x4A else 0x46);
                   (DMA_ADDR, Z.land addr 0xFF); (DMA_ADDR, Z.land (Z.shiftr addr 8) 0xFF); (DMA_PAGE, Z.land (Z.shiftr addr 16) 0xFF);
                   (DMA_COUNT, Z.land (length - 1) 0xFF); (DMA_COUNT, Z.land (Z.shiftr (length - 1) 8) 0xFF); (DMA_UNMASK, 0x02)]).

Definition fdc_motor (drive : Z) (on : bool) : FM unit :=
  outb FDC_DOR (Z.lor (Z.lor DOR_DMAEN (if on then u8 (Z.shiftl DOR_MOTA drive) else 0)) drive).

(** SENSE INTERRUPT: the cylinder it gives. *)
Definition sense_interrupt : FM Z :=
  do* fdc_write_byte CMD_SENSE_INTERRUPT in
  do* fdc_read_byte junk in
  let* c := fdc_read_byte junk in ret c.1.

Definition fdc_reset : FM bool :=
  do* outb FDC_DOR DOR_RESET in
  do* on_io x86_64_iowait in
  do* outb FDC_DOR DOR_DMAEN in
  do* spin 100000 in
  do* set_irq false in
  do* sense_interrupt in do* sense_interrupt in do* sense_interrupt in do* sense_interrupt in
  do* outb FDC_CCR 0 in
  do* fdc_write_bytes [CMD_SPECIFY; 0xDF; 0x02] in
  ret true.

Fixpoint calibrate_loop (n : nat) (drive : Z) : FM bool :=
  match n with
  | O => ret false
  | S n' =>
      do* set_irq false in
      do* fdc_write_bytes [CMD_RECALIBRATE; drive] in
      do* spin 100000 in
      let* cyl := sense_interrupt in
      if cyl =? 0 then ret true else calibrate_loop n' drive
  end.
Definition fdc_calibrate (drive : Z) : FM bool := do* fdc_motor drive true in calibrate_loop 10 drive.

Definition fdc_seek (drive cylinder head : Z) : FM bool :=
  do* set_irq false in
  do* fdc_write_bytes [CMD_SEEK; Z.lor (Z.shiftl head 2) drive; cylinder] in
  do* spin 100000 in
  let* cyl := sense_interrupt in ret (cyl =? cylinder).

(** The command of a transfer. *)
Definition rw_command (drive cyl head sector : Z) (write : bool) : list Z :=
  [if write then CMD_WRITE_DATA else CMD_READ_DATA; Z.lor (Z.shiftl head 2) drive; cyl; head; sector; 2;
   sectors_per_track g_geometry; 0x1B; 0xFF].

Fixpoint read_results (l : list Z) : FM (list Z) :=
  match l with
  | [] => ret []
  | old :: l' => let* b := fdc_read_byte old in let* r := read_results l' in ret (b.1 :: r)
  end.

Definition fdc_rw_operation (drive cyl head sector count : Z) (write : bool) : FM bool :=
  do* fdc_motor drive true in
  let* found := fdc_seek drive cyl head in
  if negb found then do* fdc_motor drive false in ret false
  else
    do* fdc_setup_dma (u16 (count * bytes_per_sector g_geometry)) write in
    do* set_irq false in
    do* fdc_write_bytes (rw_command drive cyl head sector write) in
    do* spin 1000000 in
    let* irq := gets g_irq_received in
    if negb irq then do* fdc_motor drive false in ret false
    else
      let* r := read_results [junk; junk; junk; cyl; head; sector; count] in
      do* fdc_motor drive false in
      ret (Z.land (nth 0 r 0) 0xC0 =? 0).

Definition floppy_irq_handler : FM unit := set_irq true.

(** [register] is the registration of the handler, which comes last. *)
Definition floppy_init (register : FM unit) : FM bool :=
  let* reset := fdc_reset in
  if negb reset then ret false
  else
    do* fdc_write_byte CMD_VERSION in
    let* v := fdc_read_byte junk in
    if negb v.2 then ret false
    else do* fdc_calibrate 0 in do* register in ret true.

(** The sectors as bytes, or [None] when the transfer fails. *)
Definition floppy_read_sectors (drive lba count : Z) : FM (option (list Z)) :=
  if 18 <? count then ret None
  else
    let '(cyl, head, sector) := lba_to_chs lba in
    let* ok := fdc_rw_operation drive cyl head sector count false in
    let* b := gets g_dma_buffer in
    ret (if ok then Some (slice 0 (count * bytes_per_sector g_geometry) b) else None).

Definition floppy_write_sectors (drive lba count : Z) (buffer : list Z) : FM bool :=
  if 18 <? count then ret false
  else
    let '(cyl, head, sector) := lba_to_chs lba in
    do* modify (fun s => mkFdc (g_irq_received s)
           (write_at (g_dma_buffer s) 0 (slice 0 (count * bytes_per_sector g_geometry) buffer)) (io s)) in
    fdc_rw_operation drive cyl head sector count true.
End driver.

(** ** The block device

    Over any reading and writing of at most 18 sectors. *)
Section block.
Context {S : Type} (read_sectors : Z -> Z -> M S (option (list Z))) (write_sectors : Z -> Z -> list Z -> M S bool).

(** [n] bounds the rounds; [offset] sectors are done. *)
Fixpoint read_chunks (n : nat) (lba offset remaining : Z) : M S (option (list Z)) :=
  if remaining <=? 0 then ret (Some [])
  else match n with
  | O => diverge
  | Datatypes.S n' =>
      let chunk := if 18 <? remaining then 18 else remaining in
      let* r := read_sectors (u32 (lba + offset)) chunk in
      match r with
      | None => ret None
      | Some b =>
          let* rest := read_chunks n' lba (offset + chunk) (remaining - chunk) in
          ret (match rest with Some bs => Some (b ++ bs) | None => None end)
      end
  end.
Definition floppy_block_read (lba count : Z) : M S (option (list Z)) := read_chunks (Z.to_nat (count / 18 + 1)) lba 0 count.

Fixpoint write_chunks (n : nat) (lba offset remaining : Z) (buf : list Z) : M S bool :=
  if remaining <=? 0 then ret true
  else match n with
  | O => diverge
  | Datatypes.S n' =>
      let chunk := if 18 <? remaining then 18 else remaining in
      let* ok := write_sectors (u32 (lba + offset)) chunk (slice (offset * 512) (chunk * 512) buf) in
      if ok then write_chunks n' lba (offset + chunk) (remaining - chunk) buf else ret false
  end.
Definition floppy_block_write (lba count : Z) (buf : list Z) : M S bool := write_chunks (Z.to_nat (count / 18 + 1)) lba 0 count buf.
End block.

(** The number of sectors and their size, as the device gives them. *)
Definition floppy_create_blockdev : Z * Z :=
  (tracks g_geometry * heads g_geometry * sectors_per_track g_geometry, bytes_per_sector g_geometry).

(** ** Blocks and cylinders *)

(** Every block of the disk has its own place, and the places are on the disk. *)
Theorem chs_places lba : 0 <= lba < 2880 ->
  let '(c, h, s) := lba_to_chs lba in
  lba = (c * 2 + h) * 18 + (s - 1) /\ 0 <= c < tracks g_geometry /\ 0 <= h < heads g_geometry /\ 1 <= s <= sectors_per_track g_geometry.
Proof.
  intros H. unfold lba_to_chs. cbn [heads tracks sectors_per_track g_geometry]. change (2 * 18) with 36.
  rewrite !u8_small by zdiv_lia. zdiv_lia.
Qed.

(** Behind the cylinder 255 the numbers start again. *)
Lemma cylinder_wraps lba : 0 <= lba -> lba_to_chs (lba + 36 * 256) = lba_to_chs lba.
Proof.
  intros H. unfold lba_to_chs. cbn [heads sectors_per_track g_geometry]. change (2 * 18) with 36. f_equal; [f_equal|].
  - unfold u8. replace (lba + 36 * 256) with (lba + 256 * 36) by lia. rewrite Z.div_add by lia.
    replace (lba / 36 + 256) with (lba / 36 + 1 * 2 ^ 8) by lia. by rewrite Z.mod_add.
  - replace (lba + 36 * 256) with (lba + 512 * 18) by lia. rewrite Z.div_add by lia.
    replace (lba / 18 + 512) with (lba / 18 + 256 * 2) by lia. by rewrite Z.mod_add.
  - replace (lba + 36 * 256) with (lba + 512 * 18) by lia. by rewrite Z.mod_add.
Qed.

(** One command transfers within a cylinder: from its first sector on to the
    last sector of the second head.  A call within the limit of 18 sectors can
    ask for more. *)
Definition sectors_left (lba : Z) : Z := let '(_, h, s) := lba_to_chs lba in (1 - h) * 18 + (18 - s + 1).
Lemma sectors_left_spec lba : 0 <= lba < 2880 -> sectors_left lba = 36 - lba mod 36.
Proof.
  intros H. unfold sectors_left, lba_to_chs. cbn [heads tracks sectors_per_track g_geometry].
  rewrite !u8_small by zdiv_lia. zdiv_lia.
Qed.
Example read_leaves_cylinder : sectors_left 30 = 6 /\ 6 < 18. Proof. done. Qed.

(** ** A controller that takes every byte, and one that takes none

    The state is the list of the bytes sent; every byte read is [v]. *)
Definition ready_in (v port : Z) (x : list Z) : Z * list Z := (if port =? FDC_MSR then 0xC0 else if port =? FDC_DATA then v else 0xFF, x).
Definition ready_out (port v : Z) (x : list Z) : list Z := if port =? FDC_DATA then x ++ [v] else x.
#[local] Instance ready_ports (v : Z) : Ports (list Z) := { port_in8 := ready_in v; port_out8 := ready_out }.

Lemma bytes_are_sent v l : forall s : fdc (list Z), Forall (fun b => 0 <= b < 256) l ->
  fdc_write_bytes (Ports0 := ready_ports v) l s = Some (tt, mkFdc (g_irq_received s) (g_dma_buffer s) (io s ++ l)).
Proof.
  induction l as [|b l IH]; intros [i d x] Hl.
  - cbn. by rewrite app_nil_r.
  - apply list.Forall_cons in Hl as [Hb Hl]. cbn [fdc_write_bytes]. unfold bind at 1.
    assert (E : fdc_write_byte (Ports0 := ready_ports v) b (mkFdc i d x) = Some (true, mkFdc i d (x ++ [b]))).
    { unfold fdc_write_byte, bind. cbn -[u8]. by rewrite u8_small. }
    rewrite E, IH by done. cbn. by rewrite <- app_assoc.
Qed.

(** A read of block 37 on a controller that answers every byte with 1: the seek
    to cylinder 1 succeeds, and the command is the one of the specification. *)
Example read_command_sent :
  match floppy_read_sectors (Ports0 := ready_ports 1) (fun _ x => (true, x)) (fun _ _ => replicate 512 7) 0 0 0 37 1 (mkFdc false [] []) with
  | Some (r, s) => r = Some (replicate 512 7) /\ io s = [0x0F; 0; 1; 0x08; 0xE6; 0; 1; 0; 2; 2; 18; 0x1B; 0xFF]
  | None => False
  end.
Proof. vm_compute. split; reflexivity. Qed.

Definition dead_in (port : Z) (x : unit) : Z * unit := (0, x).
Definition dead_out (port v : Z) (x : unit) : unit := x.
#[local] Instance dead_ports : Ports unit := { port_in8 := dead_in; port_out8 := dead_out }.

Lemma dead_wait n w (s : fdc unit) : wait_ready_loop n w s = Some (false, s).
Proof. destruct s as [i d []]. induction n as [|n IH]; [done|]. cbn. unfold bind, on_io. cbn. exact IH. Qed.

Lemma dead_write b (s : fdc unit) : fdc_write_byte b s = Some (false, s).
Proof. unfold fdc_write_byte, fdc_wait_ready, bind. by rewrite dead_wait. Qed.
Lemma dead_read old (s : fdc unit) : fdc_read_byte old s = Some ((old, false), s).
Proof. unfold fdc_read_byte, fdc_wait_ready, bind. by rewrite dead_wait. Qed.
Lemma dead_writes l : forall s : fdc unit, fdc_write_bytes l s = Some (tt, s).
Proof. induction l as [|b l IH]; intros s; [done|]. cbn [fdc_write_bytes]. unfold bind. by rewrite dead_write. Qed.
Lemma dead_sense junk (s : fdc unit) : sense_interrupt junk s = Some (junk, s).
Proof. unfold sense_interrupt, bind. by rewrite dead_write, !dead_read. Qed.

(** Without a controller nothing can be read, and the driver takes what was on
    its stack for the cylinder: if that is 0, the drive is calibrated. *)
Theorem absent_drive_calibrates (spins : Z -> unit -> bool * unit) dma drive s :
  exists s', fdc_calibrate spins dma 0 drive s = Some (true, s').
Proof.
  unfold fdc_calibrate. unfold bind at 1. destruct (fdc_motor drive true s) as [[[] s1]|] eqn:E; [|done].
  cbn [calibrate_loop]. unfold bind at 1. unfold set_irq, modify. unfold bind at 1. rewrite dead_writes.
  unfold bind at 1. unfold spin, modify. unfold bind at 1. rewrite dead_sense. cbn -[spin]. eauto.
Qed.

(** ** Chunks *)

Lemma slice_join o n m buf : 0 <= o -> 0 <= n -> 0 <= m -> slice o n buf ++ slice (o + n) m buf = slice o (n + m) buf.
Proof.
  intros. unfold slice. rewrite !Z2Nat.inj_add, <- drop_drop by lia. apply take_take_drop.
Qed.
Section chunks.
Context {S : Type} (read_sectors : Z -> Z -> M S (option (list Z))) (img : list Z).

(** When each transfer of at most 18 sectors gives the bytes of the disk, a
    read of any number of sectors does. *)
Lemma read_chunks_whole (s : S) lba n :
  (forall o c, 0 <= o -> 0 < c <= 18 -> read_sectors o c s = Some (Some (slice (o * 512) (c * 512) img), s)) ->
  0 <= lba -> forall offset remaining, 0 <= offset -> 0 <= remaining -> remaining / 18 < Z.of_nat n ->
    lba + offset + remaining <= 2 ^ 32 ->
    read_chunks read_sectors n lba offset remaining s = Some (Some (slice ((lba + offset) * 512) (remaining * 512) img), s).
Proof.
  intros Hr Hl. induction n as [|n IH]; intros offset remaining Ho Hre Hn Hb.
  - pose proof (Z.div_pos remaining 18). lia.
  - cbn [read_chunks]. destruct (Z.leb_spec remaining 0).
    { replace remaining with 0 by lia. done. }
    unfold bind. rewrite u32_small by lia. destruct (Z.ltb_spec 18 remaining).
    + rewrite Hr by lia. rewrite IH; [|lia|lia| |lia].
      * cbn -[slice Z.mul]. replace ((lba + (offset + 18)) * 512) with ((lba + offset) * 512 + 18 * 512) by lia.
        replace (remaining * 512) with (18 * 512 + (remaining - 18) * 512) by lia. unfold ret. rewrite slice_join by lia. done.
      * replace (remaining - 18) with (remaining + (-1) * 18) by lia. rewrite Z.div_add by lia. lia.
    + rewrite Hr by lia. rewrite Z.sub_diag. destruct n; cbn; by rewrite app_nil_r.
Qed.

Theorem block_read_whole (s : S) lba count :
  (forall o c, 0 <= o -> 0 < c <= 18 -> read_sectors o c s = Some (Some (slice (o * 512) (c * 512) img), s)) ->
  0 <= lba -> 0 <= count -> lba + count <= 2 ^ 32 ->
  floppy_block_read read_sectors lba count s = Some (Some (slice (lba * 512) (count * 512) img), s).
Proof.
  intros Hr Hl Hc Hb. unfold floppy_block_read. rewrite (read_chunks_whole s lba _ Hr Hl 0 count); rewrite ?Z.add_0_r; try done; try lia.
Qed.
End chunks.
