(* ===== verification/LibcFacts.v ===== *)
(** * What the C library does (src/apps/libc)

    Facts about Libc.v: strtok, formatted output into a buffer, paths. *)

From S2P Require Import Prelude CString Libc.
#[local] Open Scope Z_scope.

(** ** strtok *)

Lemma skip_delims_spec ds s : exists a, s = a ++ skip_delims ds s /\ Forall (fun c => c ∈ ds) a /\
  forall c b, skip_delims ds s = c :: b -> c ∉ ds.
Proof.
  induction s as [|x s (a & E & Ha & Hn)]; cbn; [by exists []|]. case_bool_decide as Hx.
  - exists (x :: a). split_and!; [cbn; by f_equal|by constructor|done].
  - exists []. split_and!; [done|constructor|]. by intros c b [= <- <-].
Qed.

Lemma take_token_spec ds s : forall t r, take_token ds s = (t, r) -> Forall (fun c => c ∉ ds) t /\
  ((s = t /\ r = []) \/ exists c, s = t ++ c :: r /\ c ∈ ds).
Proof.
  induction s as [|x s IH]; cbn; intros t r E.
  - injection E as <- <-. split; [constructor|by left].
  - case_bool_decide as Hx.
    + injection E as <- <-. split; [constructor|]. right. by exists x.
    + destruct (take_token ds s) as [t' r'] eqn:Et. injection E as <- <-. destruct (IH _ _ eq_refl) as [Ht [[-> ->]|(c & -> & Hc)]].
      * split; [by constructor|by left].
      * split; [by constructor|]. right. by exists c.
Qed.

(** The tokens are the nonempty pieces between delimiters, as they are in the
    kernel's strtok. *)
Lemma tokens_loop_words ds n : forall s, (length s < n)%nat -> tokens_loop n ds s = words ds s.
Proof.
  induction n as [|n IH]; intros s Hn; [lia|]. cbn [tokens_loop]. unfold strtok.
  destruct (skip_delims_spec ds s) as (a & E & Ha & Hh). destruct (skip_delims ds s) as [|c b] eqn:Es.
  - rewrite E, app_nil_r, <- (app_nil_r a), words_skip by done. done.
  - destruct (take_token ds (c :: b)) as [t r] eqn:Et. destruct (take_token_spec _ _ _ _ Et) as [Ht Hr].
    assert (Htne : t <> []).
    { intros ->. destruct Hr as [[Hr _]|(d & Hr & Hd)]; [done|]. injection Hr as -> ->. by apply (Hh d r). }
    assert (Hlen : (length r < n)%nat).
    { rewrite E, length_app in Hn. destruct Hr as [[_ ->]|(d & Hr & _)]; [|rewrite Hr, length_app in Hn]; cbn in *; lia. }
    rewrite IH by done. rewrite E, words_skip by done. destruct Hr as [[Hr ->]|(d & -> & Hd)].
    + pose proof (words_word ds t [] Htne Ht (or_introl eq_refl)) as W. rewrite app_nil_r in W. by rewrite Hr, W.
    + rewrite words_word; [done|done|done|right; by exists d, r].
Qed.
Lemma tokens_words ds s : tokens ds s = words ds s.
Proof. apply tokens_loop_words. lia. Qed.

Lemma words_good ds s : Forall (fun w => w <> [] /\ Forall (fun c => c ∉ ds) w) (words ds s).
Proof.
  rewrite <- tokens_words. unfold tokens. generalize (S (length s)). intros n. revert s.
  induction n as [|n IH]; intros s; cbn [tokens_loop]; [constructor|]. unfold strtok.
  destruct (skip_delims_spec ds s) as (a & E & _ & Hh). destruct (skip_delims ds s) as [|c b]; [constructor|].
  destruct (take_token ds (c :: b)) as [t r] eqn:Et. destruct (take_token_spec _ _ _ _ Et) as [Ht Hr]. constructor; [|apply IH]. split; [|done].
  intros ->. destruct Hr as [[Hr _]|(d & Hr & Hd)]; [done|]. injection Hr as -> ->. by apply (Hh d r).
Qed.

(** ** Formatted output *)

Lemma format_loop_end room fmt args out : (room <= length out)%nat -> format_loop room fmt args out = Some out.
Proof. intros H. destruct fmt; cbn [format_loop]; by rewrite (proj2 (Nat.ltb_ge _ _) H). Qed.

Lemma format_loop_extends room n : forall fmt args out o, (length fmt < n)%nat ->
  format_loop room fmt args out = Some o -> exists l, o = out ++ l.
Proof.
  induction n as [|n IH]; intros fmt args out o Hn E; [lia|]. destruct (decide (room <= length out)%nat) as [H|H].
  { rewrite format_loop_end in E by done. injection E as <-. exists []. by rewrite app_nil_r. }
  destruct fmt as [|x fmt]; cbn [format_loop length] in *; (destruct (Nat.ltb_spec (length out) room); [|lia]).
  - injection E as <-. exists []. by rewrite app_nil_r.
  - destruct (x =? 37).
    + destruct fmt as [|c fmt]; [done|]. destruct (convert c args) as [[w rest]|]; [|done]. cbn [length] in Hn.
      apply IH in E as [l ->]; [|lia]. eexists. by rewrite <- app_assoc.
    + apply IH in E as [l ->]; [|lia]. eexists. by rewrite <- app_assoc.
Qed.

(** A smaller buffer holds the beginning of what a larger one does. *)
Lemma format_loop_prefix n : forall fmt r R args out o, (length fmt < n)%nat -> (r <= R)%nat -> (length out <= r)%nat ->
  format_loop R fmt args out = Some o -> format_loop r fmt args out = Some (firstn r o).
Proof.
  induction n as [|n IH]; intros fmt r R args out o Hf Hr Ho E; [lia|].
  destruct (decide (length out = r)) as [Hend|Hroom].
  { destruct (format_loop_extends R (S (length fmt)) fmt args out o ltac:(lia) E) as [l ->].
    rewrite format_loop_end by lia. f_equal. by rewrite take_app_le, take_ge by lia. }
  destruct fmt as [|x fmt]; cbn [format_loop length] in *; (destruct (Nat.ltb_spec (length out) R); [|lia]); (destruct (Nat.ltb_spec (length out) r); [|lia]).
  { injection E as <-. by rewrite take_ge by lia. }
  destruct (x =? 37).
  - destruct fmt as [|c fmt]; [done|]. destruct (convert c args) as [[w rest]|]; [|done]. cbn [length] in Hf.
    destruct (decide (length w <= r - length out)%nat) as [Hw|Hw].
    + rewrite (take_ge w) in * by lia. apply (IH fmt r R); [lia|done|rewrite length_app; lia|done].
    + destruct (format_loop_extends R (S (length fmt)) fmt rest _ o ltac:(lia) E) as [l ->].
      rewrite format_loop_end by (rewrite length_app, length_take; lia). f_equal.
      rewrite <- app_assoc, take_app_ge by lia. f_equal. rewrite take_app_le by (rewrite length_take; lia). by rewrite take_take, Nat.min_l by lia.
  - apply (IH fmt r R); [lia|done|rewrite length_app; cbn; lia|done].
Qed.

(** What snprintf puts in a buffer is the beginning of the whole text, cut so
    that the NUL fits. *)
Theorem snprintf_cuts size big fmt args o : 0 < size <= big ->
  format big fmt args = Some o -> snprintf size fmt args = Some (firstn (Z.to_nat (size - 1)) o).
Proof.
  unfold snprintf, format. intros Hs. destruct (Z.leb_spec big 0); [lia|]. destruct (Z.leb_spec size 0); [lia|].
  intros E. eapply (format_loop_prefix (S (length fmt))); [lia| |cbn; lia|exact E]. lia.
Qed.

(** There is no flag and no width: the heading the package manager asks for
    comes out with its widths as text and the first argument in the last
    column. *)
Definition heading : list Z := [37; 45; 50; 52; 115; 32; 37; 115].
Example widths_are_text : snprintf 100 heading [AStr [78]; AStr [86]] = Some [50; 52; 115; 32; 78].
Proof. reflexivity. Qed.

(** ** Paths *)

Definition segment_ok (s : list Z) : Prop := s <> [] /\ Forall (fun c => c <> slash) s /\ s <> [dot] /\ s <> [dot; dot].

Lemma push_segs_ok parts : forall segs r, Forall segment_ok segs -> Z.of_nat (length segs) <= MAX_SEGS ->
  Forall (fun w => w <> [] /\ Forall (fun c => c <> slash) w) parts ->
  push_segs segs parts = Some r -> Forall segment_ok r /\ Z.of_nat (length r) <= MAX_SEGS.
Proof.
  induction parts as [|p parts IH]; intros segs r Hs Hl Hp E; cbn [push_segs] in E; [by injection E as <-|].
  apply list.Forall_cons in Hp as [[Hp1 Hp2] Hp]. unfold push_seg in E. case_bool_decide; [by eapply IH|]. case_bool_decide.
  - apply (IH (tail segs)); [| |done|exact E].
    + destruct segs; [done|]. by apply list.Forall_cons in Hs as [_ ?].
    + destruct segs; cbn [tail length] in *; lia.
  - destruct (Z.leb_spec MAX_SEGS (Z.of_nat (length segs))); [done|]. apply (IH (p :: segs)); [by constructor|cbn [length]; lia|done|done].
Qed.

Lemma words_join segs : Forall segment_ok segs -> words [slash] (join_segs segs) = segs.
Proof.
  intros H. destruct segs as [|s segs]; [done|]. unfold join_segs.
  assert (G : forall l, Forall segment_ok l -> words [slash] (mbind (fun s => slash :: s) l) = l); [|by apply G].
  clear. induction l as [|s l IH]; intros Hl; [done|]. apply list.Forall_cons in Hl as [(H1 & H2 & _) Hl].
  change (mbind (fun s => slash :: s) (s :: l)) with ([slash] ++ (s ++ mbind (fun s => slash :: s) l)).
  rewrite words_skip by (repeat constructor). rewrite words_word.
  - f_equal. destruct l as [|s' l]; [done|]. rewrite <- (IH Hl) at 2.
    change (mbind (fun s => slash :: s) (s' :: l)) with ([slash] ++ (s' ++ mbind (fun s => slash :: s) l)). by rewrite words_skip by (repeat constructor).
  - done.
  - eapply list.Forall_impl; [exact H2|]. intros c Hc. cbn beta. set_solver.
  - destruct l as [|s' l]; [by left|]. right. exists slash, (s' ++ mbind (fun s => slash :: s) l). split; [done|set_solver].
Qed.

Lemma push_all segs : forall acc, Forall segment_ok segs -> Z.of_nat (length acc + length segs) <= MAX_SEGS ->
  push_segs acc segs = Some (rev segs ++ acc).
Proof.
  induction segs as [|s segs IH]; intros acc Hs Hl; [done|]. apply list.Forall_cons in Hs as [(_ & _ & H3 & H4) Hs]. cbn [push_segs length rev] in *.
  unfold push_seg. rewrite !bool_decide_eq_false_2 by done. destruct (Z.leb_spec MAX_SEGS (Z.of_nat (length acc))); [lia|].
  rewrite IH; [|done|cbn [length]; lia]. by rewrite <- app_assoc.
Qed.

(** Whatever the text, a normalised path is the root or a slash before each of
    its parts, and no part is empty, a dot or two dots; it fits its buffer, and
    normalising it again gives the same. *)
Theorem normalize_path_canonical p r : normalize_path p = Some r ->
  (exists segs, Forall segment_ok segs /\ r = join_segs segs) /\ strlen r < PATH_SIZE /\ normalize_path r = Some r.
Proof.
  unfold normalize_path at 1. destruct (push_segs [] _) as [segs|] eqn:E; [|done].
  destruct (Z.ltb_spec (strlen (join_segs (rev segs))) PATH_SIZE) as [Hlen|]; [|done]. intros [= <-].
  rewrite tokens_words in E. apply push_segs_ok in E as [Hok Hl]; [|constructor|done|].
  2: { eapply list.Forall_impl; [apply words_good|]. intros w [H1 H2]. split; [done|]. eapply list.Forall_impl; [exact H2|]. cbn beta. set_solver. }
  assert (Hrev : Forall segment_ok (rev segs)) by (by apply Forall_rev).
  split; [by exists (rev segs)|]. split; [done|]. unfold normalize_path.
  rewrite (take_ge (join_segs (rev segs))) by (unfold strlen, PATH_SIZE in *; lia).
  rewrite tokens_words, words_join by done. rewrite push_all; [|done|cbn; rewrite length_rev; lia].
  rewrite app_nil_r, rev_involutive. destruct (Z.ltb_spec (strlen (join_segs (rev segs))) PATH_SIZE); [done|lia].
Qed.

Lemma normalize_path_canonical_witness :
  normalize_path [47; 97; 47; 46; 47; 98; 47; 46; 46; 47; 47; 99] = Some [47; 97; 47; 99] /\
  (exists segs, Forall segment_ok segs /\ [47; 97; 47; 99] = join_segs segs) /\ strlen [47; 97; 47; 99] < PATH_SIZE /\
  normalize_path [47; 97; 47; 99] = Some [47; 97; 47; 99].
Proof.
  split; [reflexivity|]. apply (normalize_path_canonical [47; 97; 47; 46; 47; 98; 47; 46; 46; 47; 47; 99]). reflexivity.
Defined.

(** A path with more than 32 parts writes behind the arrays. *)
Example many_parts_overrun : normalize_path (concat (replicate 33 [47; 97])) = None.
Proof. reflexivity. Qed.
(** So does, by one byte, one of 127 bytes that does not begin with a slash. *)
Example long_relative_overruns : normalize_path (replicate 127 97) = None.
Proof. reflexivity. Qed.
(** scanf puts a word of any length where the caller has room for less. *)
Lemma long_word_overruns size old w :
  Forall (fun c => in_word c = true) w -> (0 < length w <= 103)%nat -> size <= strlen w -> scan_word size old w = None.
Proof.
  intros Hw Hl Hs. unfold scan_word. destruct w as [|x w]; [cbn in Hl; lia|]. rewrite take_ge by lia.
  assert (E1 : skip_while is_blank (x :: w) = x :: w).
  { apply list.Forall_cons in Hw as [Hx _]. unfold in_word in Hx. cbn. by destruct (is_blank x). }
  assert (E2 : fst (take_while in_word (x :: w)) = x :: w).
  { clear - Hw. induction (x :: w) as [|y l IH]; [done|]. apply list.Forall_cons in Hw as [Hy Hw]. cbn. rewrite Hy.
    specialize (IH Hw). destruct (take_while _ l). cbn in *. by f_equal. }
  rewrite E1, E2. destruct (Z.ltb_spec (strlen (x :: w)) size); [lia|done].
Qed.
