(* ===== verification/LibcHeap.v ===== *)
(** * The heap of the programs (src/apps/libc/src/stdlib.c)

    The chain of blocks is a list: [b_at] is the address of a block's header,
    the 24 bytes in front of what the program gets.  The memory the program
    writes is [umem]; it does not write to the headers.  [brk] is the system
    call; [Break] states what the heap needs of it, and the instance for the
    kernel's [proc_brk] is at the end.

    The theorems: malloc gives a block that no other holds, free gives it back
    and leaves no two free neighbours, realloc keeps the content. *)

From S2P Require Import Prelude PhysMem Pmm Vmm User ProcMem Proc Scheduler ProcTree Credentials.
#[local] Open Scope Z_scope.

(** ** The system call *)

Class Break (K : Type) := {
  brk : Z -> K -> K * Z;
  brk_top : K -> Z;
  brk_inv : K -> Prop
}.

(** The break is in the user half; a query gives it; a call that is refused
    gives all ones and leaves it, any other moves it. *)
Class BreakLaws (K : Type) `{!Break K} : Prop := {
  brk_range : forall k, brk_inv k -> 0 < brk_top k < 2 ^ 47;
  brk_query : forall k, brk_inv k -> brk 0 k = (k, brk_top k);
  brk_moves : forall x k, brk_inv k -> 0 < x < 2 ^ 64 ->
    let '(k', r) := brk x k in
    brk_inv k' /\ ((r = brk_top k /\ brk_top k' = x) \/ (r = u64_error /\ brk_top k' = brk_top k))
}.

(** ** The code *)

Record block_t := mkBlock { b_at : Z; b_size : Z; b_free : bool }.
Definition ALIGN : Z := 16.
Definition BLOCK_HDR : Z := 24.
Definition payload (b : block_t) : Z := b_at b + BLOCK_HDR.
Definition b_end (b : block_t) : Z := payload b + b_size b.

Definition mark (f : bool) (b : block_t) : block_t := mkBlock (b_at b) (b_size b) f.
(** The rounding of malloc and realloc. *)
Definition round (size : Z) : Z := Z.land (u64 (size + ALIGN - 1)) (u64 (Z.lnot (ALIGN - 1))).

(** The first block with a property, and what is in front of and behind it. *)
Fixpoint first_with (p : block_t -> bool) (l : list block_t) : option (list block_t * block_t * list block_t) :=
  match l with
  | [] => None
  | b :: l' => if p b then Some ([], b, l') else match first_with p l' with Some (l1, c, l2) => Some (b :: l1, c, l2) | None => None end
  end.
Definition find_free (size : Z) (l : list block_t) := first_with (fun b => b_free b && (size <=? b_size b)) l.

(** What split makes of a block: the block, and the rest behind it. *)
Definition split (b : block_t) (size : Z) : block_t * list block_t :=
  if b_size b <? u64 (size + BLOCK_HDR + ALIGN) then (b, [])
  else (mkBlock (b_at b) size (b_free b),
        [mkBlock (u64 (b_at b + BLOCK_HDR + size)) (u64 (b_size b - size - BLOCK_HDR)) true]).

(** coalesce, with [b] the block the loop stands on. *)
Fixpoint coalesce_from (b : block_t) (l : list block_t) : list block_t :=
  match l with
  | [] => [b]
  | c :: l' =>
      if b_free b && b_free c then coalesce_from (mkBlock (b_at b) (u64 (b_size b + (BLOCK_HDR + b_size c))) (b_free b)) l'
      else b :: coalesce_from c l'
  end.
Definition coalesce (l : list block_t) : list block_t := match l with [] => [] | b :: l' => coalesce_from b l' end.

Section heap.
Context {K : Type} `{!Break K}.

Record heap := mkHeap { blocks : list block_t; umem : ram; kern : K }.

Definition sbrk (increment : Z) (k : K) : K * option Z :=
  let '(k1, cur) := brk 0 k in
  if cur =? u64_error then (k1, None)
  else
    let '(k2, r) := brk (u64 (cur + increment)) k1 in
    if r =? u64_error then (k2, None) else (k2, Some cur).

Definition extend (size : Z) (k : K) : K * option block_t :=
  let '(k', r) := sbrk (u64 (BLOCK_HDR + size)) k in
  match r with Some a => (k', Some (mkBlock a size false)) | None => (k', None) end.

(** NULL is 0. *)
Definition malloc (size : Z) (h : heap) : heap * Z :=
  if size =? 0 then (h, 0)
  else
    let size := round size in
    match find_free size (blocks h) with
    | Some (l1, b, l2) =>
        let '(b1, more) := split b size in
        (mkHeap (l1 ++ mark false b1 :: more ++ l2) (umem h) (kern h), u64 (payload b1))
    | None =>
        let '(k, r) := extend size (kern h) in
        match r with
        | None => (mkHeap (blocks h) (umem h) k, 0)
        | Some b => (mkHeap (blocks h ++ [b]) (umem h) k, u64 (payload b))
        end
    end.

(** The block in front of [ptr]; a pointer that malloc did not give has none,
    and the store behind it is anywhere ([None]). *)
Definition block_of (ptr : Z) (l : list block_t) := first_with (fun b => b_at b =? u64 (ptr - BLOCK_HDR)) l.

Definition free (ptr : Z) (h : heap) : option heap :=
  if ptr =? 0 then Some h
  else
    match block_of ptr (blocks h) with
    | None => None
    | Some (l1, b, l2) => Some (mkHeap (coalesce (l1 ++ mark true b :: l2)) (umem h) (kern h))
    end.

Definition realloc (ptr size : Z) (h : heap) : option (heap * Z) :=
  if ptr =? 0 then Some (malloc size h)
  else if size =? 0 then option_map (fun h' => (h', 0)) (free ptr h)
  else
    match block_of ptr (blocks h) with
    | None => None
    | Some (_, b, _) =>
        let aligned := round size in
        if aligned <=? b_size b then Some (h, ptr)
        else
          let '(h1, new_ptr) := malloc size h in
          if new_ptr =? 0 then Some (h1, 0)
          else
            let copy := if b_size b <? aligned then b_size b else aligned in
            let h2 := mkHeap (blocks h1) (blit (umem h1) new_ptr (fun i => umem h1 (ptr + i)) copy) (kern h1) in
            option_map (fun h' => (h', new_ptr)) (free ptr h2)
    end.

Definition calloc (nmemb size : Z) (h : heap) : heap * Z :=
  let total := u64 (nmemb * size) in
  if negb (nmemb =? 0) && negb (total / nmemb =? size) then (h, 0)
  else
    let '(h1, ptr) := malloc total h in
    if ptr =? 0 then (h1, ptr) else (mkHeap (blocks h1) (fill (umem h1) ptr total 0) (kern h1), ptr).

Definition zalloc (size : Z) (h : heap) : heap * Z :=
  if size =? 0 then (h, 0)
  else
    let '(h1, ptr) := malloc size h in
    if ptr =? 0 then (h1, 0)
    else
      let n := size / 8 in
      let m := fill (umem h1) ptr (n * 8) 0 in
      (mkHeap (blocks h1) (fill m (ptr + n * 8) (size mod 8) 0) (kern h1), ptr).
End heap.
Arguments heap : clear implicits.

(** ** Well-formed chains *)

(** The blocks lie one behind the other from [a] up to [e]; a tight chain has
    no holes. *)
Definition gap (tight : bool) (x y : Z) : Prop := if tight then x = y else x <= y.
Fixpoint chain (t : bool) (a : Z) (l : list block_t) (e : Z) : Prop :=
  match l with
  | [] => gap t a e
  | b :: l' => gap t a (b_at b) /\ 0 <= b_size b /\ chain t (b_end b) l' e
  end.
Definition in_use (b : block_t) : Prop := b_free b = false.
#[export] Instance in_use_dec b : Decision (in_use b) := ltac:(unfold in_use; apply _).
Definition used (l : list block_t) : list block_t := filter in_use l.
(** No two neighbours are free. *)
Fixpoint settled (l : list block_t) : Prop :=
  match l with
  | b :: (c :: _) as l' => ~ (b_free b = true /\ b_free c = true) /\ settled l'
  | _ => True
  end.

Lemma gap_le t x y : gap t x y -> x <= y.
Proof. destruct t; cbn; lia. Qed.
Lemma gap_refl t x : gap t x x.
Proof. destruct t; cbn; lia. Qed.
Lemma gap_trans t x y z : gap t x y -> gap t y z -> gap t x z.
Proof. destruct t; cbn; lia. Qed.
#[local] Hint Resolve gap_le gap_refl gap_trans : core.

Lemma b_end_eq b : b_end b = b_at b + 24 + b_size b.
Proof. done. Qed.

Lemma chain_le t l : forall a e, chain t a l e -> a <= e.
Proof.
  induction l as [|b l IH]; cbn; intros a e; [by apply gap_le|]. intros (G & Hs & C). apply gap_le in G. apply IH in C.
  rewrite b_end_eq in C. lia.
Qed.
Lemma chain_from t l a a' e : gap t a a' -> chain t a' l e -> chain t a l e.
Proof. destruct l as [|b l]; cbn; [eauto|]. intros G (G' & ? & ?). eauto. Qed.
Lemma block_chain_app t l1 l2 : forall a e, chain t a (l1 ++ l2) e <-> exists m, chain t a l1 m /\ chain t m l2 e.
Proof.
  induction l1 as [|b l1 IH]; intros a e; cbn.
  - split; [intros H; exists a; eauto|]. intros (m & G & C). by eapply chain_from.
  - rewrite IH. split; [intros (? & ? & m & ? & ?); exists m; eauto|]. intros (m & (? & ? & ?) & ?). eauto.
Qed.
Lemma chain_used t l : forall a e, chain t a l e -> chain false a (used l) e.
Proof.
  induction l as [|b l IH]; intros a e; cbn [chain]; [by intros ?%gap_le|]. intros (G%gap_le & Hs & C). unfold used. rewrite filter_cons.
  apply IH in C. destruct (decide (in_use b)); cbn; [done|]. eapply chain_from; [|exact C]. cbn. rewrite b_end_eq. lia.
Qed.
Lemma chain_apart t l a e i j b c : chain t a l e -> (i < j)%nat -> l !! i = Some b -> l !! j = Some c -> b_end b <= b_at c.
Proof.
  intros C Hij Hi Hj. apply list_elem_of_split_length in Hi as (l1 & l2 & -> & Hl). subst i.
  apply block_chain_app in C as (m & _ & C). cbn in C. destruct C as (_ & _ & C).
  rewrite lookup_app_r in Hj by lia. destruct (j - length l1)%nat as [|j'] eqn:E; [lia|]. cbn in Hj.
  apply list_elem_of_split_length in Hj as (k1 & k2 & -> & _). apply block_chain_app in C as (m' & C%chain_le & C' & _). apply gap_le in C'. lia.
Qed.

(** ** The operations on chains *)

Lemma round_eq size : 0 <= size < 2 ^ 63 -> round size = 16 * ((size + 15) / 16).
Proof.
  intros H. unfold round, ALIGN. rewrite u64_small by lia. unfold u64 at 1. rewrite <- Z.land_ones, Z.land_assoc by lia.
  change (16 - 1) with (Z.ones 4). rewrite (land_lnot_ones _ 4) by lia. rewrite Z.land_ones by lia.
  change (Z.ones 4) with 15. change (2 ^ 4) with 16. replace (size + 16 - 1) with (size + 15) by lia.
  pose proof (Z.div_mod (size + 15) 16 ltac:(lia)). pose proof (Z.mod_pos_bound (size + 15) 16 ltac:(lia)).
  rewrite Z.mod_small by lia. lia.
Qed.
Lemma round_range size : 0 <= size < 2 ^ 63 -> size <= round size < size + 16.
Proof.
  intros H. rewrite round_eq by done. pose proof (Z.div_mod (size + 15) 16 ltac:(lia)).
  pose proof (Z.mod_pos_bound (size + 15) 16 ltac:(lia)). lia.
Qed.

Lemma first_with_some p l l1 b l2 : first_with p l = Some (l1, b, l2) -> l = l1 ++ b :: l2 /\ p b = true.
Proof.
  revert l1. induction l as [|c l IH]; cbn; intros l1 E; [done|]. destruct (p c) eqn:Ep; [by injection E as <- <- <-|].
  destruct (first_with p l) as [[[k1 d] k2]|]; [|done]. injection E as <- <- <-. by destruct (IH _ eq_refl) as [-> ?].
Qed.
Lemma first_with_finds p l1 b l2 : (forall c, c ∈ l1 -> p c = false) -> p b = true -> first_with p (l1 ++ b :: l2) = Some (l1, b, l2).
Proof.
  intros H Hb. induction l1 as [|c l1 IH]; cbn; [by rewrite Hb|]. rewrite H by left.
  by rewrite IH by (intros d Hd; apply H; by right).
Qed.
Lemma first_with_none p l : first_with p l = None -> forall b, b ∈ l -> p b = false.
Proof.
  induction l as [|c l IH]; cbn; intros E b Hb; [by apply not_elem_of_nil in Hb|]. destruct (p c) eqn:Ep; [done|].
  destruct (first_with p l) as [[[? ?] ?]|]; [done|]. apply elem_of_cons in Hb as [->|Hb]; [done|by apply IH].
Qed.
Lemma used_app l1 l2 : used (l1 ++ l2) = used l1 ++ used l2.
Proof. apply list.filter_app. Qed.
Lemma used_cons b l : used (b :: l) = if b_free b then used l else b :: used l.
Proof.
  unfold used. rewrite filter_cons. destruct (decide (in_use b)) as [H|H]; unfold in_use in H; [by rewrite H|].
  by destruct (b_free b).
Qed.

(** split gives a block of the size asked for, or a little more, and covers
    the same bytes. *)
Lemma split_chain t a b size l e : 0 <= size -> 0 <= a -> e < 2 ^ 47 -> size <= b_size b -> chain t a (b :: l) e ->
  let '(b1, more) := split b size in
  chain t a (b1 :: more ++ l) e /\ b_at b1 = b_at b /\ b_free b1 = b_free b /\ size <= b_size b1 /\ used more = [].
Proof.
  intros Hs Ha He Hf C. pose proof C as (G & Hb & C'). pose proof (chain_le _ _ _ _ C') as Hle. apply gap_le in G. rewrite b_end_eq in Hle.
  unfold split, BLOCK_HDR, ALIGN. rewrite u64_small by lia. destruct (Z.ltb_spec (b_size b) (size + 24 + 16)); [done|].
  rewrite !u64_small by lia. cbn [app chain b_at b_size b_free used]. split_and!; try done; try lia.
  - by destruct C.
  - change (b_end (mkBlock (b_at b + 24 + size) (b_size b - size - 24) true)) with (b_at b + 24 + size + 24 + (b_size b - size - 24)).
    replace (b_at b + 24 + size + 24 + (b_size b - size - 24)) with (b_end b) by (rewrite b_end_eq; lia). done.
Qed.

Lemma coalesce_from_ok t l : forall a b e, 0 <= a -> e < 2 ^ 47 -> chain t a (b :: l) e ->
  chain t a (coalesce_from b l) e /\ used (coalesce_from b l) = used (b :: l) /\ settled (coalesce_from b l) /\
  exists c k, coalesce_from b l = c :: k /\ b_free c = b_free b.
Proof.
  induction l as [|c l IH]; intros a b e Ha He C; cbn [coalesce_from]; [split_and!; try done; by exists b, []|].
  destruct C as (G & Hb & G' & Hc & C). pose proof (gap_le _ _ _ G). pose proof (gap_le _ _ _ G') as Hg. rewrite b_end_eq in Hg.
  pose proof (chain_le _ _ _ _ C) as Hle. rewrite b_end_eq in Hle. destruct (b_free b && b_free c) eqn:Ef.
  - apply andb_true_iff in Ef as [Eb Ec]. unfold BLOCK_HDR. rewrite u64_small by lia. set (d := mkBlock _ _ _).
    destruct (IH a d e) as (C' & U & S & E'); [done|done| |].
    { cbn [chain]. split_and!; [done|cbn; lia|]. eapply chain_from; [|exact C].
      change (b_end d) with (b_at b + 24 + (b_size b + (24 + b_size c))). rewrite b_end_eq in *. destruct t; cbn in *; lia. }
    split_and!; [done| |done|done]. rewrite U, !used_cons. cbn. by rewrite Eb, Ec.
  - destruct (IH (b_end b) c e) as (C' & U & S & k0 & k & E' & F); [rewrite b_end_eq; lia|done|done|].
    split_and!; [done| | |by exists b, (coalesce_from c l)].
    + rewrite used_cons, U. by rewrite (used_cons b (c :: l)).
    + rewrite E' in *. cbn [settled]. split; [|done]. rewrite F. intros [Eb Ec]. by rewrite Eb, Ec in Ef.
Qed.
Lemma coalesce_ok t l a e : 0 <= a -> e < 2 ^ 47 -> chain t a l e ->
  chain t a (coalesce l) e /\ used (coalesce l) = used l /\ settled (coalesce l).
Proof. intros Ha He C. destruct l as [|b l]; [done|]. destruct (coalesce_from_ok t l a b e Ha He C) as (? & ? & ? & _). done. Qed.

Section facts.
Context {K : Type} `{!Break K} `{!BreakLaws K}.

(** The heap lies between [base] and the break; it is tight when nobody else
    moved the break. *)
Record heap_ok (t : bool) (base : Z) (h : heap K) : Prop := {
  ho_inv : brk_inv (kern h); ho_base : 0 < base; ho_chain : chain t base (blocks h) (brk_top (kern h))
}.

Lemma sbrk_spec n k : brk_inv k -> 0 <= n < 2 ^ 63 + 2 ^ 62 ->
  let '(k', r) := sbrk n k in
  brk_inv k' /\ match r with Some a => a = brk_top k /\ brk_top k' = a + n | None => brk_top k' = brk_top k end.
Proof.
  intros Hk Hn. pose proof (brk_range k Hk). unfold sbrk. rewrite brk_query by done. unfold u64_error in *.
  destruct (Z.eqb_spec (brk_top k) (2 ^ 64 - 1)); [lia|]. rewrite u64_small by lia.
  assert (0 < brk_top k + n < 2 ^ 64) as Hx by lia. pose proof (brk_moves (brk_top k + n) k Hk Hx) as Hm. destruct (brk _ k) as [k' r]. unfold u64_error in Hm.
  destruct Hm as [Hk' [[-> Ht]|[-> Ht]]].
  - by destruct (Z.eqb_spec (brk_top k) (2 ^ 64 - 1)); [lia|].
  - by rewrite Z.eqb_refl.
Qed.

(** malloc leaves the blocks in use alone and adds one that has room, or it
    fails; then no free block has room and the kernel gave nothing. *)
Theorem malloc_spec t base h size : heap_ok t base h -> 0 < size < 2 ^ 63 ->
  let '(h', p) := malloc size h in
  heap_ok t base h' /\ umem h' = umem h /\
  ((p = 0 /\ blocks h' = blocks h /\ (forall b, b ∈ blocks h -> b_free b = true -> b_size b < round size)) \/
   (exists b l1 l2, 0 < p /\ p = payload b /\ size <= round size <= b_size b /\
      used (blocks h) = l1 ++ l2 /\ used (blocks h') = l1 ++ b :: l2)).
Proof.
  intros [Hk Hb C] Hs. unfold malloc. destruct (Z.eqb_spec size 0); [lia|]. pose proof (round_range size ltac:(lia)).
  pose proof (brk_range _ Hk). unfold find_free. destruct (first_with _ (blocks h)) as [[[l1 b] l2]|] eqn:Ef.
  - apply first_with_some in Ef as [El Hp]. apply andb_true_iff in Hp as [Hf Hsz%Z.leb_le]. rewrite El in C.
    apply block_chain_app in C as (m & C1 & C2). pose proof (chain_le _ _ _ _ C1).
    pose proof (split_chain t m b (round size) l2 (brk_top (kern h))) as Hsp.
    specialize (Hsp ltac:(lia) ltac:(lia) ltac:(lia) Hsz C2).
    destruct (split b (round size)) as [b1 more]. destruct Hsp as (C3 & Ha & Hf1 & Hsz1 & Hu).
    pose proof C2 as (G%gap_le & _ & C4%chain_le). rewrite b_end_eq in C4. cbn in Hf1. rewrite Hf in Hf1.
    rewrite u64_small by (unfold payload, BLOCK_HDR; lia). split_and!; [|done|].
    + split; [done|done|]. apply block_chain_app. exists m. split; [done|]. exact C3.
    + right. exists (mark false b1), (used l1), (used l2). unfold payload, BLOCK_HDR. cbn. split_and!; try done; try lia.
      * by rewrite El, used_app, used_cons, Hf.
      * by rewrite used_app, used_cons, used_app, Hu.
  - unfold extend, BLOCK_HDR. rewrite u64_small by lia. pose proof (sbrk_spec (24 + round size) (kern h) Hk) as Hsb.
    specialize (Hsb ltac:(lia)).
    destruct (sbrk _ _) as [k r]. destruct Hsb as [Hk' Hr]. destruct r as [a|].
    + destruct Hr as [-> Ht]. rewrite u64_small by (unfold payload, BLOCK_HDR; cbn; lia). split_and!; [|done|].
      * split; [done|done|]. apply block_chain_app. exists (brk_top (kern h)). split; [done|]. cbn. split_and!; [eauto|lia|].
        rewrite Ht. change (b_end _) with (brk_top (kern h) + 24 + round size). destruct t; cbn; lia.
      * right. exists (mkBlock (brk_top (kern h)) (round size) false), (used (blocks h)), [].
        unfold payload, BLOCK_HDR. cbn [b_at b_size blocks]. rewrite app_nil_r, used_app. split_and!; (done || lia).
    + split_and!; [split; [done|done|cbn; by rewrite Hr]|done|]. left. split_and!; [done|done|]. intros b Hbl Hf.
      pose proof (first_with_none _ _ Ef b Hbl) as Hn. cbn beta in Hn. rewrite Hf in Hn. by apply Z.leb_gt in Hn.
Qed.

(** A block in use is found by its pointer, and only it. *)
Lemma block_of_finds t a e l b : 0 <= a -> e < 2 ^ 47 -> chain t a l e -> b ∈ l ->
  exists l1 l2, block_of (payload b) l = Some (l1, b, l2) /\ l = l1 ++ b :: l2.
Proof.
  intros Ha He C Hb. apply list_elem_of_split in Hb as (l1 & l2 & ->). exists l1, l2. split; [|done].
  pose proof C as C0. apply block_chain_app in C0 as (m & C1%chain_le & G%gap_le & Hs & C2%chain_le). rewrite b_end_eq in C2.
  assert (E : u64 (payload b - BLOCK_HDR) = b_at b) by (unfold payload, BLOCK_HDR; rewrite u64_small by lia; lia).
  unfold block_of. rewrite E. apply first_with_finds; [|apply Z.eqb_refl]. intros c Hc. apply Z.eqb_neq.
  apply list_elem_of_split in Hc as (k1 & k2 & ->). rewrite <- app_assoc in C. apply block_chain_app in C as (m' & _ & _ & Hcs & C).
  apply block_chain_app in C as (m2 & C%chain_le & G'%gap_le & _). rewrite b_end_eq in C. lia.
Qed.

Lemma used_elem b l : b ∈ used l -> b ∈ l /\ b_free b = false.
Proof. unfold used. rewrite list_elem_of_filter. by intros [? ?]. Qed.

(** free takes exactly its block away; afterwards no two neighbours are free. *)
Theorem free_spec t base h b : heap_ok t base h -> b ∈ used (blocks h) ->
  exists h', free (payload b) h = Some h' /\ heap_ok t base h' /\ umem h' = umem h /\ settled (blocks h') /\
  exists l1 l2, used (blocks h) = l1 ++ b :: l2 /\ used (blocks h') = l1 ++ l2.
Proof.
  intros [Hk Hb C] Hu. apply used_elem in Hu as [Hin Hf]. pose proof (brk_range _ Hk).
  destruct (block_of_finds t base (brk_top (kern h)) (blocks h) b) as (l1 & l2 & E & El); [lia|lia|done|done|].
  assert (C' : chain t base (l1 ++ mark true b :: l2) (brk_top (kern h))).
  { rewrite El in C. apply block_chain_app in C as (m & C1 & C2). apply block_chain_app. by exists m. }
  destruct (coalesce_ok t (l1 ++ mark true b :: l2) base (brk_top (kern h))) as (C2 & U & S); [lia|lia|exact C'|].
  assert (Hp : payload b <> 0).
  { rewrite El in C. apply block_chain_app in C as (m & C1%chain_le & G%gap_le & _). unfold payload, BLOCK_HDR. lia. }
  unfold free. apply Z.eqb_neq in Hp. rewrite Hp, E. eexists. split; [reflexivity|]. split_and!; [done|done|done|].
  exists (used l1), (used l2). cbn [blocks]. by rewrite U, El, !used_app, !used_cons, Hf.
Qed.

(** realloc gives a block with room for the new size and the content of the
    old one; the memory outside of it does not change, and when it fails the
    old block stays. *)
Theorem realloc_spec t base h b size : heap_ok t base h -> b ∈ used (blocks h) -> 0 < size < 2 ^ 63 ->
  exists h' p, realloc (payload b) size h = Some (h', p) /\ heap_ok t base h' /\
  ((p = 0 /\ blocks h' = blocks h /\ umem h' = umem h) \/
   (exists b', b' ∈ used (blocks h') /\ p = payload b' /\ size <= b_size b' /\
      (forall i, 0 <= i < Z.min size (b_size b) -> umem h' (p + i) = umem h (payload b + i)) /\
      (forall x, ~ (p <= x < b_end b') -> umem h' x = umem h x))).
Proof.
  intros Hok Hu Hs. pose proof Hok as [Hk Hb C]. pose proof (used_elem _ _ Hu) as [Hin Hf]. pose proof (brk_range _ Hk).
  destruct (block_of_finds t base (brk_top (kern h)) (blocks h) b) as (l1 & l2 & E & El); [lia|lia|done|done|].
  assert (Hp : payload b <> 0 /\ 0 <= b_size b).
  { rewrite El in C. apply block_chain_app in C as (m & C1%chain_le & G%gap_le & ? & _). unfold payload, BLOCK_HDR. lia. }
  unfold realloc. rewrite (proj2 (Z.eqb_neq _ _) (proj1 Hp)), E. destruct (Z.eqb_spec size 0); [lia|].
  pose proof (round_range size ltac:(lia)). destruct (Z.leb_spec (round size) (b_size b)) as [Hle|Hgt].
  { exists h, (payload b). split_and!; [done|done|]. right. exists b. split_and!; (done || lia). }
  pose proof (malloc_spec t base h size Hok Hs) as Hm. destruct (malloc size h) as [h1 p].
  destruct Hm as (Hok1 & Hmem & [(-> & Hbl & _)|(b' & k1 & k2 & Hp0 & Hpe & Hsz & Hu1 & Hu2)]).
  { exists h1, 0. split_and!; [done|done|]. by left. }
  destruct (Z.eqb_spec p 0); [lia|]. destruct (Z.ltb_spec (b_size b) (round size)); [|lia].
  set (h2 := mkHeap _ _ _). assert (Hok2 : heap_ok t base h2) by (by destruct Hok1).
  assert (Hu' : b ∈ used (blocks h2)).
  { change (b ∈ used (blocks h1)). rewrite Hu2. rewrite Hu1 in Hu. rewrite elem_of_app in *. rewrite elem_of_cons. tauto. }
  assert (Hne : b <> b').
  { intros <-. destruct Hok1 as [Hk1 _ Hc1]. apply chain_used in Hc1. rewrite Hu2 in Hc1. rewrite Hu1 in Hu.
    apply elem_of_app in Hu as [Hu|Hu]; apply list_elem_of_split in Hu as (j1 & j2 & ->).
    - rewrite <- app_assoc in Hc1. apply block_chain_app in Hc1 as (? & _ & _ & ? & Hc1). apply block_chain_app in Hc1 as (? & ?%chain_le & ?%gap_le & _).
      rewrite b_end_eq in *. lia.
    - apply block_chain_app in Hc1 as (? & _ & _ & ? & Hc1). apply block_chain_app in Hc1 as (? & ?%chain_le & ?%gap_le & _). rewrite b_end_eq in *. lia. }
  destruct (free_spec t base h2 b Hok2 Hu') as (h3 & Ef & Hok3 & Hm3 & _ & j1 & j2 & Hj1 & Hj2). rewrite Ef. cbn [option_map].
  exists h3, p. split_and!; [done|done|]. right. exists b'. rewrite Hm3. cbn [umem h2]. rewrite Hmem.
  assert (Hend : b_end b' = p + b_size b') by (rewrite Hpe; done). split_and!; [|done|lia| |].
  - rewrite Hj2. change (blocks h2) with (blocks h1) in Hj1. rewrite Hu2 in Hj1.
    assert (Hb' : b' ∈ k1 ++ b' :: k2) by (rewrite elem_of_app; right; by left).
    rewrite Hj1, elem_of_app, elem_of_cons in Hb'. rewrite elem_of_app. destruct Hb' as [?|[->|?]]; tauto.
  - intros i Hi. rewrite blit_inside by lia. f_equal. lia.
  - intros x Hx. apply blit_outside. lia.
Qed.

(** calloc gives zeros, and refuses a product that does not fit 64 bits. *)
Theorem calloc_spec t base h n size : heap_ok t base h -> 0 < n < 2 ^ 64 -> 0 <= size < 2 ^ 64 ->
  let '(h', p) := calloc n size h in
  (2 ^ 64 <= n * size -> h' = h /\ p = 0) /\
  (n * size < 2 ^ 63 -> heap_ok t base h' /\ (p <> 0 -> forall x, p <= x < p + n * size -> umem h' x = 0)).
Proof.
  intros Hok Hn Hs. unfold calloc. destruct (Z.eqb_spec n 0); [lia|]. cbn [negb andb].
  destruct (Z.leb_spec (2 ^ 64) (n * size)) as [Hbig|Hsmall].
  - assert (Hne : (u64 (n * size) / n =? size) = false).
    { apply Z.eqb_neq. intros E. pose proof (Z.div_mod (u64 (n * size)) n ltac:(lia)). pose proof (Z.mod_pos_bound (u64 (n * size)) n ltac:(lia)).
      pose proof (u64_range (n * size)). rewrite E in *. lia. }
    rewrite Hne. split; [done|lia].
  - pose proof (Z.mul_nonneg_nonneg n size ltac:(lia) ltac:(lia)) as Hpos. rewrite u64_small by lia.
    assert (Eq : n * size / n = size) by (rewrite Z.mul_comm; apply Z.div_mul; lia). rewrite Eq, Z.eqb_refl. cbn [negb].
    destruct (Z.eqb_spec (n * size) 0) as [E|E].
    { rewrite E. cbn. split; [lia|]. intros _. split; [done|]. lia. }
    destruct (Z.leb_spec (2 ^ 63) (n * size)).
    { destruct (malloc _ h) as [h1 p]. destruct (p =? 0); split; lia. }
    pose proof (malloc_spec t base h (n * size) Hok) as Hm. specialize (Hm ltac:(lia)). destruct (malloc (n * size) h) as [h1 p].
    destruct Hm as (Hok1 & Hmem & _). destruct (Z.eqb_spec p 0) as [->|]; (split; [lia|]).
    + done.
    + split; [by destruct Hok1|]. intros _ x Hx. cbn. by rewrite fill_inside by lia.
Qed.
End facts.

(** ** Runs *)

(** A break that may go up to [2^46]. *)
Section runs.
#[local] Instance plain_break : Break Z := {
  brk := fun x k => if x =? 0 then (k, k) else if x <? 2 ^ 46 then (x, k) else (k, u64_error);
  brk_top := fun k => k;
  brk_inv := fun k => 0 < k < 2 ^ 46
}.
#[local] Instance plain_break_laws : BreakLaws Z.
Proof.
  split; cbn; [lia|done|]. intros x k Hk Hx. destruct (Z.eqb_spec x 0); [lia|]. destruct (Z.ltb_spec x (2 ^ 46)).
  - split; [lia|by left].
  - split; [lia|by right].
Qed.

Definition no_mem : ram := fun _ => 0.
Definition empty_heap : heap Z := mkHeap [] no_mem 4096.

Lemma empty_heap_ok : heap_ok true 4096 empty_heap.
Proof. split; cbn; lia. Qed.

Lemma malloc_spec_witness : 0 < 100 < 2 ^ 63 /\ snd (malloc 100 empty_heap) = 4120 /\
  let '(h', p) := malloc 100 empty_heap in
  heap_ok true 4096 h' /\ umem h' = umem empty_heap /\
  ((p = 0 /\ blocks h' = blocks empty_heap /\ (forall b, b ∈ blocks empty_heap -> b_free b = true -> b_size b < round 100)) \/
   (exists b l1 l2, 0 < p /\ p = payload b /\ 100 <= round 100 <= b_size b /\
      used (blocks empty_heap) = l1 ++ l2 /\ used (blocks h') = l1 ++ b :: l2)).
Proof.
  split; [lia|]. split; [reflexivity|]. apply (malloc_spec true 4096 empty_heap 100); [exact empty_heap_ok|lia].
Defined.

(** The pointers are not aligned to 16 bytes, as ALIGN means them to be. *)
Example misaligned : snd (malloc 1 empty_heap) mod ALIGN = 8.
Proof. reflexivity. Qed.

(** A size near the end of 64 bits: the rounding gives a block of none, or the
    header is added to nearly nothing and the block ends behind the break. *)
Example round_wraps : let '(h, p) := malloc (2 ^ 64 - 1) empty_heap in p = 4120 /\ blocks h = [mkBlock 4096 0 false].
Proof. done. Qed.
Example header_wraps : let '(h, p) := malloc (2 ^ 64 - 20) empty_heap in
  p = 4120 /\ blocks h = [mkBlock 4096 (2 ^ 64 - 16) false] /\ kern h = 4104.
Proof. done. Qed.

(** mmap moves the same break.  Two blocks with a page of mmap between them are
    merged as if they were neighbours, and the next block lies on that page:
    here it has the bytes from 4120 to 4168, the page those from 4136. *)
Example merged_over_mapping :
  let '(h1, a) := malloc 16 empty_heap in
  let '(h2, b) := malloc 16 (mkHeap (blocks h1) (umem h1) (kern h1 + 4096)) in
  match free b h2 with
  | Some h3 =>
      match free a h3 with
      | Some h4 => kern h1 = 4136 /\ snd (malloc 48 h4) = 4120
      | None => False
      end
  | None => False
  end.
Proof. done. Qed.
End runs.

(** ** The break of the kernel *)

Section kernel.
Context `{BootInfo} (kernel_space : address_space).

Lemma brk_ok_moved s s' : brk_ok s -> procs_wf s' -> current_proc s' = current_proc s ->
  (pcb_at s' (current_proc s) = pcb_at s (current_proc s) \/
   exists x, heap_start (lay (pcb_at s (current_proc s))) <= x <= brk_limit (pcb_at s (current_proc s)) /\
     pcb_at s' (current_proc s) = set_heap_end x (pcb_at s (current_proc s))) -> brk_ok s'.
Proof.
  intros [Hw Hc Hst He Hl] Hw' Hc' [P|(x & Hx & P)].
  - split; [done|by rewrite Hc'|..]; rewrite Hc', P; lia.
  - set (b := pcb_at s (current_proc s)) in *. split; [done|by rewrite Hc'|..]; rewrite Hc', P; cbn; try lia.
    + change (brk_limit (set_heap_end x b)) with (brk_limit b). lia.
    + change (brk_limit (set_heap_end x b)) with (brk_limit b). lia.
Qed.

#[export] Instance proc_break : Break procs := {
  brk := proc_brk kernel_space;
  brk_top := fun s => heap_end (lay (pcb_at s (current_proc s)));
  brk_inv := brk_ok
}.

(** The system call is what the heap needs. *)
#[export] Instance proc_break_laws : BreakLaws procs.
Proof.
  split.
  - intros s [Hw Hc Hst He Hl]. cbn. lia.
  - intros s [Hw [Hc _] Hst He Hl]. cbn. unfold proc_brk. by destruct (Z.ltb_spec (current_proc s) 0); [lia|].
  - intros x s Hok Hx. cbn [brk brk_top brk_inv proc_break]. pose proof Hok as [Hw Hc Hst He Hl]. pose proof (proj1 Hc).
    unfold proc_brk. destruct (Z.ltb_spec (current_proc s) 0); [lia|]. destruct (Z.eqb_spec x 0); [lia|].
    set (b := pcb_at s (current_proc s)) in *.
    assert (Hset : forall m, heap_start (lay b) <= x <= brk_limit b ->
      let s' := upd (current_proc s) (set_heap_end x) (set_mach m s) in
      brk_ok s' /\ heap_end (lay (pcb_at s' (current_proc s'))) = x).
    { intros m Hr. destruct (broken_upd x m s Hw Hc) as (W & C & P & _). cbv zeta. split.
      - apply (brk_ok_moved s); [done|done|done|]. right. exists x. fold b. split; [done|]. by rewrite P.
      - rewrite C, P. done. }
    destruct (Z.ltb_spec x (heap_start (lay b))); [split; [done|by right]|].
    destruct (Z.ltb_spec (brk_limit b) x); [split; [done|by right]|]. cbn [orb].
    destruct (Z.ltb_spec (heap_end (lay b)) x).
    + destruct (grow_loop _ _ _ _ _ _) as [m ok]. destruct ok; cbn [negb].
      * destruct (Hset m) as [? E]; [lia|]. split; [done|by left].
      * split; [|by right]. apply (brk_ok_moved s); [done|by destruct Hw|done|by left].
    + destruct (Z.ltb_spec x (heap_end (lay b))).
      * destruct (Hset (shrink_loop kernel_space (pages_between (page_up x) (page_up (heap_end (lay b)))) (pcb_space b) (page_up x) (mach s))) as [? E]; [lia|].
        split; [done|by left].
      * destruct (Hset (mach s)) as [? E]; [lia|]. rewrite set_mach_id in *. split; [done|by left].
Qed.
End kernel.
